(* ===== verification/_CoqProject ===== *)
-Q . S2P
Prelude.v
Float.v
Frame.v
Bayer.v
BayerRef.v
BayerSimd.v
BayerSimdV2.v
BayerEquiv.v
Rg10.v
I420Rgb.v
Crc.v
Buf.v
Bmp.v
Text.v
Bio.v
Att.v
Ble.v
Ipc.v
Eff.v
Evb2.v
Evb2Inv.v
Evb2Ops.v
Evb2Safe.v
Evb2Run.v
Evb2Loop.v
Evb2Spec.v
ByteStr.v
CStr.v
Wifi.v
WifiSafe.v
WifiConn.v
WifiSm.v
WifiNl.v
WifiSpec.v
Cli.v
CliSpec.v
Settings.v
SettingsIo.v
SettingsSpec.v
CNum.v
Rfcomm.v
RfcommSpec.v
Ev.v
EvInv.v
EvOps.v
EvLoop.v
EvTime.v
EvSpec.v
AppNet.v
AppNetConf.v
AppNetRun.v
AppNetTurn.v
AppNetSpec.v
RbTree.v
RbRep.v
RbInsert.v
RbRemove.v
RbOrd.v
RbSpec.v
Exits.v
Flash.v
FlashWire.v
FlashRun.v
FlashTime.v
FlashSpec.v
Hid.v
HidSpec.v
Uevent.v
Epd.v
EpdDraw.v
EpdSpec.v
TailQ.v
TailQSpec.v
Sem.v
SemSpec.v
SysMem.v
SysMemSpec.v
SysNames.v
V4l2.v
V4l2Spec.v
