(* ===== verification/Prelude.v ===== *)
(** * A verification of algae-bp: imaging, event loops, drivers, Wi-Fi, Bluetooth and daemon code

    The repository builds a small Linux system and its test programs.  Its own
    code is the library package/aloe, the test daemon package/tester1 and the
    programmer package/cc1352-flash.  This development models the parts of them
    that compute or keep state: the raw camera frame converters, the event loops
    everything else of the daemon runs on, the containers and system services of
    the library (trees, tail queues, semaphore, allocator, buffers, checksums,
    text and files), the network and Bluetooth managers with their consoles and
    settings, and the drivers of a flash, a display, USB HID and hotplug.

    ** Parts and files

    Prelude (this file): machine integers, arrays with checked access, the
    command type [cmd] and counted loops, shared lemmas and tactics.
    Float: the binary32 and binary64 operations the converters use, on the
    Standard Library's SpecFloat.

    Imaging.  Frame: the output buffers of a converter ([mem]: I420, RGB and a
    scratch buffer, each possibly NULL), the layout of an I420 and an RGB888
    frame, and [renders], the specification every converter is proved to meet:
    each byte of the frame holds the value a pixel function says, and no other
    byte changes.  [writes] is the bookkeeping by which loops of stores are
    composed; [runs] and [near] compare two converters.  Bayer: bilinear
    demosaicing of an RGGB mosaic and the BT.601 integer formulas, as pixel
    functions.
    - BayerRef: rggb10_rgb888_i420.cpp, the two portable converters;
    - BayerSimd: simd/rggb10_rgb888_i420_simd.cpp, scalar fallback, NEON kernel
      lane by lane, AVX2 helpers, dispatch;
    - BayerSimdV2: simd/rggb10_rgb888_i420_simd_v2.cpp;
    - BayerEquiv: the converters against each other;
    - Rg10: rg10_rgb8_i420_v4.cpp, the subsampling converters v4, v5 and v6 on
      their scalar, SSE2 and NEON builds;
    - I420Rgb: aloe_i420_rgb8 of the same file, in binary64;
    - Bmp: bmp.cpp, the BMP writer.

    Helpers of util.cpp.  Buf: aloe_buf_t and the moving average; Crc:
    aloe_crc32; Text: aloe_hexstr and FourCC; Bio: aloe_bio_read and
    aloe_bio_write.

    Bluetooth and channel, package/tester1.
    - Att: the ATT server of blegatt.cpp, [att_on_pdu] from a request to its
      response over the fields of ble2_t it works on;
    - Ble: the rest of blegatt.cpp as operations of a state monad over ble2_t
      and what the process holds outside (descriptors, event handlers, HCI
      commands and PDUs sent), driven by command lines and events;
    - Ipc: ipc.cpp, framing, stream parser, writer.

    Event loop, sys_linux/evb2.c.
    - Eff: computations over a state that end with a value ([Done]), undefined
      behaviour ([Ub]), a broken contract ([Misuse]) or no depth left ([Deep]),
      and [wp], total correctness against clients that keep the contract;
    - Evb2: the whole of evb2.c over a [world]: the heap of handles, the one
      context with its four lists, mutex and flags, the interest set of epoll,
      the wake pipe, the open descriptors and the record of callbacks made and
      of cancels that clients were told succeeded.  An intrusive list is a list
      of addresses; its walks read every entry, so an entry that was freed is undefined behaviour, and so is linking an entry
      whose link is in use, leaving a loop body with the saved [next] unlinked,
      taking the mutex twice or closing a descriptor twice.  The environment
      [env] gives clock, allocator, kernel refusals, events, the timers other
      threads queue during a wait, and what each callback does: a client
      [prog], any tree of calls of evb2.h.  [invoke d] makes a callback whose
      own calls may nest callbacks less than [d] deep;
    - Evb2Inv: list primitives and [shape], how heap and lists fit together,
      with a lemma per move of a handle, and the rules of the primitives;
    - Evb2Ops: the invariant [inv] and the operations that make no callback;
    - Evb2Safe: what arbitrary callbacks can do to the loop ([cb_spec] is the
      interface between the dispatcher and its clients), teardown, queued
      timers;
    - Evb2Run: collecting events and expired timers, the dispatch loop;
    - Evb2Loop: a pass, destruction, creation, client programs;
    - Evb2Spec: the properties, over all states a client can reach.

    Older event loop, sys_linux/ev.c, with one-shot registrations.
    - Ev: the whole of ev.c over a [world]: the context, what is allocated, the
      interest set of epoll with the pointers it reports, descriptors and calls
      made.  A queue is the list of its nodes; nodes move between queues and are
      reused, and are freed with the context, so an event that points at no
      group or a node freed twice is [Ub].  Callbacks may do what any client
      may, running the loop included, nested [d] deep at most;
    - EvInv: lists of nodes and the invariant [inv]: memory and queues agree,
      one group per descriptor, the kernel watching what the groups wait for;
    - EvOps: registering, looking up and cancelling;
    - EvLoop: what client programs keep, and a pass;
    - EvTime: deadlines and the length of the wait;
    - EvSpec: creation, destruction and the properties, over reachable states.

    Wi-Fi manager, package/tester1/wifi.cpp.
    - CStr: the C library's string functions the code uses, on texts and on
      buffers whose cells may not have been written;
    - Wifi: the whole of wifi.cpp over a [world]: wifi2_t, the timer, the
      control connections open, the children not waited for and the record of
      what was done.  The answers of kernel and wpa_supplicant come from an
      environment.  Signalling anything but a child, closing a connection
      twice, reading a cell of a reply that was not written or a byte that was
      not received is [Ub]; a read that never returns is [Deep];
    - WifiSafe: the account [good] of connections and processes, kept by every
      operation below the state machine;
    - WifiConn: reading replies, and the dialogue that sets up a network;
    - WifiSm: the state machine against its table ([targets], [delay]);
    - WifiNl: rtnetlink messages, their encoding and what they stand for;
    - WifiSpec: the properties.

    Red-black tree, include/aloe/compat/openbsd/sys/tree.h.
    - RbTree: what RB_GENERATE defines, on nodes in memory with their pointers; a
      dereference of NULL or of nothing is [Ub].  The mirror halves of a macro
      are one definition over a side;
    - RbRep: the tree that stands in memory around a hole, as cells of a list
      that is permuted at will, the rules of the primitives, rotations; red-black
      invariants of trees and of what surrounds a hole;
    - RbInsert, RbRemove: the repairs after insertion and removal, and removal;
    - RbOrd: searches; least, greatest, next and previous;
    - RbSpec: the properties, and that the lists of Cli and Settings are trees.

    Console, package/tester1/cli.cpp.
    - ByteStr: C strings as bytes with their order, little-endian integers;
    - Cli: the tokenizer of util.cpp, the register of commands, the assembly of
      lines in the buffer, dispatch and the life of the console over a
      [cworld]: the console, the commands allocated, the descriptors open and
      what each line led to.  The red-black tree stands as its nodes in order,
      which RbSpec justifies;
    - CliSpec: the properties.

    Network manager, package/tester1/app_network.c.
    - AppNet: the whole of it over a [world]: the file's variables, the files by
      name, children not waited for, clock, and what was done.  A turn of the
      thread ([wifi_turn]) and a call are taken one at a time; what stdio holds
      reaches its file when the stream is closed;
    - AppNetConf: lines, and what a configuration that was written says;
    - AppNetRun: commands and their processes, what the child inherits;
    - AppNetTurn: files and states below the handlers, the table [turn_row];
    - AppNetSpec: the properties.

    RFCOMM session, package/tester1/btrfcomm.cpp.
    - CNum: numbers in text, as sscanf, atoi and printf treat them;
    - Rfcomm: the whole of it over a [world]: bt2_t, the descriptors open, the
      registrations with the event loop, the bytes sent.  Closing a descriptor
      that is not open or still watched, or cancelling twice, is [Ub];
    - RfcommSpec: the account of descriptors and registrations ([good]), the
      table of states and the properties.

    Settings, package/tester1/settings.cpp.
    - Settings: keyval_save and keyval_load over a [sworld]: the file, its
      offset and the nodes lost; how each transfer, seek and allocation goes
      is the environment's;
    - SettingsIo: what a file holds ([image]), its checksum, and saving when the
      calls go through;
    - SettingsSpec: loading, of what was saved and of anything.

    Programmer of the CC1352, package/cc1352-flash.
    - Exits: programs that may end with exit from anywhere, [spec];
    - Flash: cc1352-flash.c over the device it talks to: bytes on the serial
      line, the flash, the clock;
    - FlashWire: what is sent and what answers mean, and the sessions of commands;
      FlashRun: the program; FlashTime: that it ends; FlashSpec: the
      properties.

    Drivers.
    - Hid, HidSpec: sys_linux/usbhid_mini.c, the search for a device, and the
      listing of report descriptors;
    - Uevent: sys_linux/udev_mini.c, the monitor of hotplug messages;
    - Epd: package/tester1/epd_v21.c and the test of tester_spi2.cpp over the
      lines, the bus and the descriptors; EpdDraw: what is drawn; EpdSpec: the
      sequences sent to the panel;
    - V4l2: package/tester1/v4l2.cpp and x264_encoder.cpp, the video capture and
      its encoder: what is open, watched, mapped and allocated, and the buffers
      the driver has; V4l2Spec: the account of it ([good]).

    Tail queues, include/aloe/compat/openbsd/sys/queue.h, on which ev.c keeps its
    events.
    - TailQ: the macros on memory: pointers in heads and behind elements, and what
      each element knows; a read of nothing is [Ub]; the list a queue in memory is,
      and the operations on it;
    - TailQSpec: a machine of lists that the queues implement.

    System services, sys.cpp and sys_linux/sys_linux.cpp.
    - Sem: the semaphore, as steps of any number of threads between two accesses
      to memory or calls of pthread;
    - SemSpec: the atomic counter it implements, and who is forgotten;
    - SysMem: the allocator, on bytes, with the record and the end of a block;
      SysMemSpec: what giving back finds out;
    - SysNames: names of errors and signals, and the copy of a name.

    ** Conventions

    A definition has the name of the function it translates; pieces of a
    function have names of their own and are composed as the code composes
    them.  [None] is undefined behaviour: an access outside an array, a signed
    overflow, a descriptor closed that is not open; the theorems show it does
    not happen, or where it does.  Error returns are values.  Integers are Z
    with the conversions of the code written out ([u8], [u16], [u32], [cint]).
    Loops are iterations whose count is the loop's ([for_]) or recursions on
    the data or on the list of answers of the system, so there is no fuel in
    the translated code; fuel appears in the clients of the specification
    (the GATT client, the readers of BMP, hexadecimal and advertising data)
    and the theorems show it to be enough.

    System calls, HCI events and the other side of a descriptor are lists of
    answers over which the theorems quantify; malloc and vsnprintf are
    parameters; targets (SIMD build, sign of char) are parameters.

    The loops of Evb2 that follow a list carry a bound, its length when they
    start, and running out of it is [Deep]; so is a callback nested deeper than
    two, the loop's own and a client's.  The theorems show neither happens.
    Addresses are not reused in that model.  The loop of run_sm has a bound of
    four turns and the walks over messages and attributes one of the bytes
    received; the walks of RbTree and TailQ one of the nodes in memory, the loops of
    Flash and Epd one of the bytes, retries or polls they make, parsers one of the
    length of the text; the theorems show them to be enough.  How often a display
    is busy and how long a device takes to answer are bounds in the hypotheses.

    Threads that interleave are the subject of Sem only: there a run is any
    sequence of moves, a state is what is reached by one, and what is seen of a run
    is its list of calls, returns and times.

    ** What is shown

    - Event loop: every run of every client with timeouts up to 2^62 ms ends
      without undefined behaviour, between calls or with everything freed
      ([client_safe]); lists and heap agree ([lists_well_formed]) and the
      kernel watches what is monitored ([interest_is_what_is_monitored]); due
      handles are called unless a client cancels them ([pass_calls_due]),
      one-shot handles once ([one_shot_once]), cancelled ones not any more, by
      whomever they were cancelled ([cancelled_stays_silent]);
      the wait is the specified one, destruction gives everything back, and the
      bound on timeouts is needed ([saturated_timeout_use_after_free]).
    - Older event loop: clients are safe and destruction frees every node
      ([ev_client_safe]); a pass calls exactly whom it should, but for
      those that callbacks cancel, when the kernel watches what it was asked to
      ([ev_pass_notifies]); the kernel watches what is waited for
      ([ev_kernel_watches]); registering, searching and cancelling are those of
      a register ([ev_registry]); the wait ends with the first deadline
      ([ev_wait_bounds]).
    - Wi-Fi: every input follows the table of states and arms the timer of the
      state it leads to, but for a command that enters a state without a network
      ([follows_its_table]), so the manager always waits for
      something ([never_stalls]); commands keep connections and processes
      accounted for ([commands_keep_account]); a network is set up by its
      commands in order ([connect_sends]); kernel messages are decoded exactly
      ([rtnetlink_decoded]); and two flaws: a refused wificfg changes the
      network ([wificfg_refused_changes]) and a poll that finds an address and
      the timer can block ([address_before_timeout_blocks]).
    - Network manager: a turn ends and goes along its table
      ([manager_follows_table]); only what was tested, or could not be
      opened when it was to be, is committed ([commits_only_tested]);
      provisioning writes a configuration that is found
      or fails for a reason ([provision_writes]); commands end ([commands_end]).
    - Imaging: on every build the converters stay in their buffers and store
      exactly their specification ([v1_refines], [v2_refines],
      [simd_portable_refines], [neon_refines], [simd_v2_refines],
      [v4_refines], [v5_refines], [v6_refines], [i420_rgb8_refines]); they agree
      with each other where they do ([converters_agree], [v2_near_v1],
      [neon_agrees], [v6_unit_is_v5]) and differ where they do not
      ([v2_white_wraps]); bad arguments leave the buffers alone; two vector
      kernels have no defined run; greys and BMP files make the round trip.
    - ATT: every request is answered safely and within the MTU, discovery
      finds exactly the attribute table at every MTU, values written read
      back.
    - BLE: over all runs, descriptors and handlers are exactly those of the
      state and links start fresh; the HCI wait, the advertising commands and
      notification meet their specification.
    - Channel: framing is independent of how the stream is cut, a message
      without room for its callback is undefined ([ipc_framing]), a registered
      callback is called once, noise before the first message is skipped.
    - Red-black tree: any sequence of calls gives the answers of an ordered list
      ([tree_is_ordered_list]; [queues_are_lists] says it of tail queues and
      lists), searches are logarithmic
      ([search_is_logarithmic]), and the registers of console and settings are
      such trees ([registers_are_trees]).
    - Console: lines arrive whole however their bytes are cut and do what they
      mean ([lines_delivered_whole]), run the command their first word names
      ([words_dispatched]), registering is inserting in a map
      ([register_is_a_map]) and destruction gives everything back
      ([console_gives_back]).
    - RFCOMM: every command and event leads where the table of states says, with
      what is open and watched accounted for ([session_follows_table]);
      creation and destruction balance ([session_gives_back]); a text goes out
      whole or the session ends ([words_sent_whole]); addresses make the round
      trip ([address_roundtrip]).
    - Settings: what is saved is what is loaded ([settings_roundtrip]); a load
      that reports success has checked all it read
      ([only_checked_settings_load]).
    - Programmer: whatever the device answers, the programmer keeps the protocol
      of the boot loader ([programmer_keeps_protocol]); what is written is the
      image, in order and once ([what_is_sent_is_the_image]); it ends
      ([programmer_ends]).
    - Drivers: report descriptors are listed item by item within their bytes
      ([descriptor_listed]), the search for a device gives back what it opened
      ([hidraw_search_gives_back]); keys of a hotplug message are found
      ([uevent_keys_found]) and the monitor gives back its descriptors,
      or closes one twice exactly when its socket cannot be bound and then fails
      ([monitor_gives_back]); the display is driven through the sequences of its
      data sheet ([panel_sequences]), an image is sent whole, or read past its
      end when the size of a write does not fit or a write is taken in part
      ([image_sent_or_overread]), and the drawings are what they should be
      ([pictures_drawn]); the video capture accounts for all it holds and gives it
      back, unless a frame was encoded, when it frees a buffer of the driver
      ([capture_accounts]).
    - System services: the semaphore is linearizable to a counter
      ([semaphore_is_atomic]), its threads never misuse the mutex and go on
      ([semaphore_goes_on]), and waiters are remembered under the stated
      conditions ([waiters_remembered]), which are needed ([forgotten_waiter]);
      giving memory back finds out what was overwritten ([free_judges]); signals are
      found by their names ([signals_found]) and errors are not
      ([errors_not_found]).
    - Helpers: buffer invariant over all call sequences, append, rewind,
      moving average, CRC, hexadecimal, file reads.

    ** Assumptions and what is left out

    Offsets into frames are computed without overflow except in the reference
    converter, whose int expressions are checked; floating-point expressions
    are not contracted; words are little endian; pointers have eight bytes.
    Logging is left out.  Ble and Ipc see the event loop as a list of
    registrations.  Clients of the event loop pass the live context, handles
    that are allocated and functions of their own, and close none of the loop's
    descriptors; anything else is [Misuse].  Other threads appear as the
    one-shot timers queued while the loop waits; the clock stays below 2^62 ms.
    The Wi-Fi theorems about replies assume that wpa_supplicant answers the
    manager's own requests with fewer than 16 characters ([polite]).
    Clients of ev do not close a registered descriptor, and its clock does not
    start below zero.  The network manager's clock is less than 2^61 ms late,
    waitpid with WNOHANG is not interrupted and wpa_cli ends; its calls do not overlap a turn.
    The kernel gives a new descriptor a number that is free; a device of the
    programmer and of the display answers as its hypotheses say, and no write of
    an image to the display is interrupted.  What is printed
    and logged is left out.  The buffers of a video driver have room for a frame of
    the format it reports, and it refuses a buffer it has.  Sem has no signals and no cancellation of threads;
    the clock it waits by does not go back.

    Not modelled: the D-Bus agent (bluez1.cpp), the test programs of capture and
    streaming, the frame buffer test, the network helpers (net_linux.cpp), the
    management and USB front ends, which pass on what they are given; the
    settings functions without a body; the other lists of queue.h and the splay
    trees of tree.h, which nothing uses; the tests of tester_spi2.cpp that are
    never run; the packages that are examples or copies of the daemon's files
    (dummy1, cltest2, cmake01, nano33ble_smp_svr).  The text helpers aloe_hexdump
    and aloe_ip_str only format.  Where the development can grow: the
    registrations of Ble, Ipc, Rfcomm and V4l2 discharged by Evb2, as lists of
    handles. *)

From stdpp Require Export base numbers list.
From Stdlib Require Export ZArith Lia.

#[export] Set Default Goal Selector "!".
#[global] Open Scope Z_scope.

(* ------------------------------------------------------------------ *)
(** ** Machine integers *)

(** Conversions to the fixed-width types of the code.  C converts to an
    unsigned type modulo [2^w]; conversion to a signed type is two's
    complement (implementation-defined before C++20, so in every compiler the
    code targets). *)
Definition u8 (z : Z) : Z := z mod 256.
Definition u16 (z : Z) : Z := z mod 65536.
Definition u32 (z : Z) : Z := z mod 4294967296.
Definition u64 (z : Z) : Z := z mod 18446744073709551616.
Definition s8 (z : Z) : Z := (z + 128) mod 256 - 128.
Definition s16 (z : Z) : Z := (z + 32768) mod 65536 - 32768.

Definition is_u8 (z : Z) : Prop := 0 <= z < 256.
Definition is_u16 (z : Z) : Prop := 0 <= z < 65536.

Definition INT_MAX : Z := 2147483647.
Definition INT_MIN : Z := -2147483648.

(** A checked [int]: signed overflow is undefined behaviour, the outcome
    [None] of the model. *)
Definition cint (z : Z) : option Z :=
  if (INT_MIN <=? z) && (z <=? INT_MAX) then Some z else None.

Lemma cint_ok z : INT_MIN <= z <= INT_MAX -> cint z = Some z.
Proof.
  intros [H1 H2]. unfold cint.
  rewrite (proj2 (Z.leb_le _ _) H1), (proj2 (Z.leb_le _ _) H2). done.
Qed.

Lemma u8_range z : is_u8 (u8 z).
Proof. unfold is_u8, u8. apply Z.mod_pos_bound. lia. Qed.

Lemma u16_range z : is_u16 (u16 z).
Proof. unfold is_u16, u16. apply Z.mod_pos_bound. lia. Qed.

Lemma u8_id z : is_u8 z -> u8 z = z.
Proof. apply Z.mod_small. Qed.

Lemma u16_id z : is_u16 z -> u16 z = z.
Proof. apply Z.mod_small. Qed.

(** [x >> n] and [x / 2^n] (flooring) on [int]. *)
Lemma shr_div x n : 0 <= n -> Z.shiftr x n = x / 2 ^ n.
Proof. apply Z.shiftr_div_pow2. Qed.

Lemma shr1 x : Z.shiftr x 1 = x / 2.
Proof. by apply shr_div. Qed.

Lemma double_div x : 2 * x / 2 = x.
Proof. rewrite Z.mul_comm. by apply Z.div_mul. Qed.

(** Low-bit tests: [x & 1]. *)
Lemma land1 x : Z.land x 1 = x mod 2.
Proof. apply (Z.land_ones x 1). lia. Qed.

Lemma land1_even x : (Z.land x 1 =? 0) = Z.even x.
Proof. rewrite land1, Zmod_even. by destruct (Z.even x). Qed.

Lemma land_mask x n : 0 <= n -> Z.land x (Z.ones n) = x mod 2 ^ n.
Proof. apply Z.land_ones. Qed.

(** High and low parts put together. *)
Lemma lor_shift h l n : 0 <= n -> 0 <= l < 2 ^ n -> 0 <= h -> Z.lor (Z.shiftl h n) l = h * 2 ^ n + l.
Proof.
  intros Hn Hl Hh. rewrite <- Z.shiftl_mul_pow2 by done. symmetry. apply Z.add_nocarry_lor, Z.bits_inj'. intros k Hk.
  rewrite Z.land_spec, Z.bits_0. destruct (decide (k < n)).
  - by rewrite Z.shiftl_spec_low.
  - rewrite <- (Z.mod_small l (2 ^ n)) by done. rewrite Z.mod_pow2_bits_high by lia. apply andb_false_r.
Qed.

Lemma even_2x_r x : Z.even (2 * x) = true.
Proof. by rewrite Z.even_mul. Qed.

Create HintDb mach.
#[export] Hint Resolve u8_range u16_range : mach.
Create Rewrite HintDb machr.
#[export] Hint Rewrite u8_id u16_id using (unfold is_u8, is_u16 in *; lia) : machr.

(** [lia] after exposing division and remainder as linear equations. *)
Ltac dlia := Z.to_euclidean_division_equations; lia.
Ltac dnia := Z.to_euclidean_division_equations; nia.
(** Bounds of machine values, by unfolding the range predicates. *)
Ltac mlia := unfold is_u8, is_u16, INT_MIN, INT_MAX in *; lia.

(** Conversions of values in range, innermost first. *)
Ltac u16s :=
  repeat match goal with
  | |- context [u16 ?e] =>
      lazymatch e with context [u16 _] => fail | _ => idtac end;
      rewrite (u16_id e) by (unfold is_u16; dlia)
  end.

(* ------------------------------------------------------------------ *)
(** ** Arrays *)

(** C array reads: an index outside the array is undefined behaviour. *)
Definition rd (l : list Z) (i : Z) : option Z :=
  if i <? 0 then None else l !! Z.to_nat i.

(** The value read, for indices known to be in range. *)
Definition ix (l : list Z) (i : Z) : Z := default 0 (rd l i).

(** C array writes. *)
Definition upd (l : list Z) (i v : Z) : option (list Z) :=
  if (0 <=? i) && (i <? Z.of_nat (length l))
  then Some (<[Z.to_nat i := v]> l) else None.

Lemma rd_ix l i : 0 <= i < Z.of_nat (length l) -> rd l i = Some (ix l i).
Proof.
  intros Hi. unfold ix, rd. rewrite (proj2 (Z.ltb_ge _ _)) by lia.
  destruct (lookup_lt_is_Some_2 l (Z.to_nat i)) as [v ->]; [lia | done].
Qed.

Lemma rd_Some l i v : rd l i = Some v -> 0 <= i < Z.of_nat (length l).
Proof.
  unfold rd. destruct (Z.ltb_spec i 0); [done | ].
  intros Hv%lookup_lt_Some. lia.
Qed.

Lemma rd_None l i : rd l i = None -> ~ (0 <= i < Z.of_nat (length l)).
Proof. intros Hn Hi. rewrite (rd_ix _ _ Hi) in Hn. done. Qed.

Lemma upd_Some l i v :
  0 <= i < Z.of_nat (length l) -> upd l i v = Some (<[Z.to_nat i := v]> l).
Proof.
  intros Hi. unfold upd.
  rewrite (proj2 (Z.leb_le _ _)), (proj2 (Z.ltb_lt _ _)) by lia. done.
Qed.

Lemma rd_insert l i j v :
  0 <= i < Z.of_nat (length l) -> 0 <= j ->
  rd (<[Z.to_nat i := v]> l) j = if decide (i = j) then Some v else rd l j.
Proof.
  intros Hi Hj. unfold rd. rewrite (proj2 (Z.ltb_ge j 0)) by lia.
  case_decide as Hij.
  - subst j. apply list_lookup_insert_eq. lia.
  - apply list_lookup_insert_ne. lia.
Qed.

Lemma rd_Forall (P : Z -> Prop) l i v : rd l i = Some v -> Forall P l -> P v.
Proof.
  unfold rd. destruct (i <? 0); [done | ]. intros Hv Hl.
  by eapply (Forall_lookup_1 P) in Hl.
Qed.

Lemma ix_Forall (P : Z -> Prop) l i : P 0 -> Forall P l -> P (ix l i).
Proof.
  intros H0 Hl. unfold ix, rd. destruct (i <? 0); [done | ].
  destruct (l !! Z.to_nat i) eqn:Hv; [ | done].
  by eapply (Forall_lookup_1 P) in Hl.
Qed.

(** The sum of several reads. *)
Fixpoint osum (l : list (option Z)) : option Z :=
  match l with
  | [] => Some 0
  | [x] => x
  | x :: l' => v ← x; w ← osum l'; Some (v + w)
  end.

Lemma osum_Some l : osum (Some <$> l) = Some (foldr Z.add 0 l).
Proof.
  induction l as [|x [|y l] IH]; [done | by cbn; rewrite Z.add_0_r | ].
  change (osum (Some <$> x :: y :: l)) with
    (v ← Some x; w ← osum (Some <$> y :: l); Some (v + w)).
  by rewrite IH.
Qed.

(** Lists given by a function of the index. *)
Lemma zip_with_map {A B C D} (h : B -> C -> D) (f : A -> B) (g : A -> C) l :
  zip_with h (map f l) (map g l) = map (fun x => h (f x) (g x)) l.
Proof. induction l as [|x l IH]; [done | ]. cbn. by rewrite IH. Qed.

Lemma zip_with_const {A B C} (h : A -> B -> C) l n c :
  length l = n -> zip_with h l (replicate n c) = map (fun x => h x c) l.
Proof. intros <-. induction l as [|x l IH]; [done | ]. cbn. by rewrite IH. Qed.

Lemma map_ext_Forall {A B} (f g : A -> B) l :
  Forall (fun x => f x = g x) l -> map f l = map g l.
Proof. induction 1 as [|x l Hx _ IH]; [done | ]. cbn. by rewrite Hx, IH. Qed.

Lemma mapM_all {A B} (f : A -> option B) (g : A -> B) l :
  Forall (fun x => f x = Some (g x)) l -> mapM f l = Some (map g l).
Proof. induction 1 as [|x l Hx _ IH]; [done | ]. cbn. by rewrite Hx, IH. Qed.

Lemma lookup_map_seqZ {A} (f : Z -> A) n i :
  0 <= i < n -> map f (seqZ 0 n) !! Z.to_nat i = Some (f i).
Proof.
  intros Hi. change (map f) with (fmap (M := list) f). rewrite list_lookup_fmap, lookup_seqZ_lt by lia.
  cbn. f_equal. f_equal. lia.
Qed.

Lemma Forall_seqZ (P : Z -> Prop) n : (forall i, 0 <= i < n -> P i) -> Forall P (seqZ 0 n).
Proof. intros HP. apply Forall_forall. intros i Hi%elem_of_seqZ. apply HP. lia. Qed.

(* ------------------------------------------------------------------ *)
(** ** Commands and loops *)

(** A command transforms a state or has undefined behaviour. *)
Definition cmd (S : Type) : Type := S -> option S.

Definition skip {S} : cmd S := Some.
Definition cseq {S} (f g : cmd S) : cmd S := fun s => s' ← f s; g s'.
Definition when {S} (b : bool) (f : cmd S) : cmd S := if b then f else skip.
Definition bindv {S A} (e : option A) (f : A -> cmd S) : cmd S :=
  fun s => v ← e; f v s.

Lemma cseq_Some {S} (f g : cmd S) s s'' :
  cseq f g s = Some s'' -> exists s', f s = Some s' /\ g s' = Some s''.
Proof. unfold cseq. destruct (f s) as [s'|]; [eauto | done]. Qed.

Lemma bindv_Some {S A} (e : option A) (f : A -> cmd S) s s' :
  bindv e f s = Some s' -> exists v, e = Some v /\ f v s = Some s'.
Proof. unfold bindv. destruct e as [v|]; [eauto | done]. Qed.

Declare Scope cmd_scope.
Delimit Scope cmd_scope with cmd.
Notation "f ;;; g" := (cseq f g)
  (at level 100, g at level 200, right associativity) : cmd_scope.
Notation "'let*' x ':=' e 'in' f" := (bindv e (fun x => f))
  (at level 10, x name, e at level 99, f at level 200) : cmd_scope.
Notation "'let*' ' x ':=' e 'in' f" := (bindv e (fun x => f))
  (at level 10, x strict pattern, e at level 99, f at level 200) : cmd_scope.

(** [for (i = lo; i < hi; i += step) body], [step > 0]. *)
Fixpoint iter_up {S} (n : nat) (i step : Z) (body : Z -> cmd S) : cmd S :=
  match n with
  | O => skip
  | Datatypes.S n' => cseq (body i) (iter_up n' (i + step) step body)
  end.

Definition trips (lo hi step : Z) : nat := Z.to_nat ((hi - lo + step - 1) / step).

Definition for_ {S} (lo hi step : Z) (body : Z -> cmd S) : cmd S :=
  iter_up (trips lo hi step) lo step body.

Lemma trips_spec lo hi step k :
  0 < step -> (0 <= k < Z.of_nat (trips lo hi step) <-> 0 <= k /\ lo + k * step < hi).
Proof.
  intros Hs. unfold trips.
  assert (Hd := Z.div_mod (hi - lo + step - 1) step ltac:(lia)).
  assert (Hm := Z.mod_pos_bound (hi - lo + step - 1) step Hs).
  set (q := (hi - lo + step - 1) / step) in *.
  split; intros H; split; nia.
Qed.

(* ------------------------------------------------------------------ *)
(** ** Descriptors *)

(** A descriptor that is not open: the answer of the call, or another if that
    one is. *)
Definition new_fd (r : Z) (open : list Z) : Z :=
  if bool_decide (r ∈ open) then foldr Z.max r open + 1 else r.

Lemma foldr_max_ge r l x : x ∈ l -> x <= foldr Z.max r l.
Proof. induction 1; cbn; lia. Qed.

Lemma foldr_max_base r l : r <= foldr Z.max r l.
Proof. induction l; cbn; lia. Qed.

Lemma new_fd_ok r l : 0 <= r -> 0 <= new_fd r l /\ new_fd r l ∉ l.
Proof.
  intros Hr. unfold new_fd. case_bool_decide as Hin; [ | done].
  pose proof (foldr_max_base r l). split; [lia | ].
  intros Hx%(foldr_max_ge r). lia.
Qed.

Lemma filter_ne_id (fd : Z) (l : list Z) : fd ∉ l -> filter (fun x => x <> fd) l = l.
Proof.
  induction l as [|x l IH]; [done | ]. intros Hn. rewrite elem_of_cons in Hn.
  rewrite filter_cons_True by (intros ->; apply Hn; by left). by rewrite IH by (intros Hx; apply Hn; by right).
Qed.

Lemma filter_others (x : Z) l others : x ∉ others -> l ≡ₚ x :: others -> filter (fun y => y <> x) l ≡ₚ others.
Proof. intros Hx ->. rewrite filter_cons_False by auto. by rewrite filter_ne_id. Qed.

Lemma filter_perm_cons (c : Z) l r : NoDup l -> l ≡ₚ c :: r -> filter (fun x => x <> c) l ≡ₚ r.
Proof. intros Hn Hp. apply filter_others; [ | done]. rewrite Hp in Hn. by apply NoDup_cons in Hn as [? _]. Qed.

(* ------------------------------------------------------------------ *)
(** ** Sequences of actions that leave a trace

    A sequence goes through, its trace being those of its steps, or breaks off in
    one of them. *)

Open Scope list_scope.

Section Defs.
Context {Step Event : Type} (step_done step_stops : Step -> list Event -> Prop).

Definition went_through (steps : list Step) (tr : list Event) : Prop :=
  exists trs, Forall2 step_done steps trs /\ tr = concat trs.
(** One step stopped, those before it done. *)
Definition broke_off (steps : list Step) (tr : list Event) : Prop :=
  exists before s rest tr1 tr2,
    steps = before ++ s :: rest /\ went_through before tr1 /\ step_stops s tr2 /\ tr = tr1 ++ tr2.
End Defs.

Section Laws.
Context {Step Event : Type} {step_done step_stops : Step -> list Event -> Prop}.

Lemma through_nil : went_through step_done [] [].
Proof. by exists []. Qed.
Lemma through_app a b tr1 tr2 :
  went_through step_done a tr1 -> went_through step_done b tr2 -> went_through step_done (a ++ b) (tr1 ++ tr2).
Proof. intros (xs & Hx & ->) (ys & Hy & ->). exists (xs ++ ys). split; [by apply Forall2_app | by rewrite concat_app]. Qed.
Lemma through_one s tr : step_done s tr -> went_through step_done [s] tr.
Proof. intros H. exists [tr]. split; [by constructor | cbn; by rewrite app_nil_r]. Qed.
Lemma broke_l a b tr : broke_off step_done step_stops a tr -> broke_off step_done step_stops (a ++ b) tr.
Proof. intros (x & s & r & t1 & t2 & -> & H). exists x, s, (r ++ b), t1, t2. split; [by rewrite <- app_assoc | done]. Qed.
Lemma broke_r a b tr1 tr2 :
  went_through step_done a tr1 -> broke_off step_done step_stops b tr2 -> broke_off step_done step_stops (a ++ b) (tr1 ++ tr2).
Proof.
  intros Ha (x & s & r & t1 & t2 & -> & Hx & Hs & ->). exists (a ++ x), s, r, (tr1 ++ t1), t2.
  rewrite <- !app_assoc. split; [done | split; [by apply through_app | done]].
Qed.
Lemma broke_here s rest tr : step_stops s tr -> broke_off step_done step_stops (s :: rest) tr.
Proof. intros H. exists [], s, rest, [], tr. split; [done | split; [apply through_nil | done]]. Qed.
End Laws.
