(* ===== verification/Float.v ===== *)
(** Float: IEEE binary32 and binary64 arithmetic as the sources use it, on the
    Standard Library's [spec_float], every operation rounded to its type
    (no contraction, no extended precision). *)

From Stdlib Require Export SpecFloat.
From S2P Require Import Prelude.

(** [float]. *)
Definition float : Type := spec_float.
Definition of_int (n : Z) : float := binary_normalize 24 128 n 0 false.
Definition f_half : float := SFdiv 24 128 (of_int 1) (of_int 2).
Definition f_add : float -> float -> float := SFadd 24 128.
Definition f_mul : float -> float -> float := SFmul 24 128.

(** [double]. *)
Definition double : Type := spec_float.
Definition d_int (n : Z) : double := binary_normalize 53 1024 n 0 false.
Definition d_add : double -> double -> double := SFadd 53 1024.
Definition d_sub : double -> double -> double := SFsub 53 1024.
Definition d_mul : double -> double -> double := SFmul 53 1024.
Definition d_div : double -> double -> double := SFdiv 53 1024.
(** A decimal literal [n / 1000], correctly rounded. *)
Definition d_lit (n : Z) : double := d_div (d_int n) (d_int 1000).

(** [(int)f]: truncation.  NaN and infinity do not reach a conversion. *)
Definition f_trunc (f : spec_float) : Z :=
  match f with
  | S754_finite s m e =>
      let v := if 0 <=? e then Zpos m * 2 ^ e else Zpos m / 2 ^ (- e) in
      if s then - v else v
  | _ => 0
  end.
