(* ===== verification/Frame.v ===== *)
(** Frame: the two output buffers of the image converters (planar I420 and
    packed RGB888), bounds-checked byte stores into them, and a small logic of
    write sets.  [writes sh own spec f W] says that from every memory of shape
    [sh] the command [f] runs without undefined behaviour, keeps the shape,
    leaves [spec l] at every location [l] of [W] and leaves every other
    location as it was (for the locations [own] tracks).  The rules are
    insensitive to the order of the stores, which is what lets one proof
    pattern serve the row-major, the 2x2-block and the vector converters. *)

From S2P Require Import Prelude.

(** [BI]: the [i420] buffer.  [BR]: the [rgb] buffer.  [BC]: the scratch
    [rgb_cache] of [convert_scalar]. *)
Inductive buf : Set := BI | BR | BC.

#[export] Instance buf_eq_dec : EqDecision buf.
Proof. solve_decision. Defined.

Definition loc : Type := (buf * Z)%type.

(** [None] is the NULL pointer. *)
Record mem : Type := Mem {
  i420 : option (list Z);
  rgb : option (list Z);
  cache : option (list Z)
}.

Definition sel (b : buf) (m : mem) : option (list Z) :=
  match b with BI => i420 m | BR => rgb m | BC => cache m end.

Definition put (b : buf) (l : list Z) (m : mem) : mem :=
  match b with
  | BI => Mem (Some l) (rgb m) (cache m)
  | BR => Mem (i420 m) (Some l) (cache m)
  | BC => Mem (i420 m) (rgb m) (Some l)
  end.

(** The byte at a location. *)
Definition at_ (m : mem) (l : loc) : option Z := b ← sel l.1 m; rd b l.2.

(** [p[i] = v] for a [uint8_t *p]. *)
Definition wr (b : buf) (i v : Z) : cmd mem :=
  fun m => l ← sel b m; l' ← upd l i v; Some (put b l' m).

Definition nonnull {A} (p : option A) : bool :=
  match p with Some _ => true | None => false end.

Lemma nonnull_true {A} (p : option A) : nonnull p = true <-> p <> None.
Proof. by destruct p. Qed.

Definition blen (b : buf) (m : mem) : option Z :=
  (Z.of_nat ∘ length) <$> sel b m.

Lemma sel_put b b' l m :
  sel b' (put b l m) = if decide (b = b') then Some l else sel b' m.
Proof. by destruct b, b'. Qed.

Lemma at_range m b i v : at_ m (b, i) = Some v -> exists n, blen b m = Some n /\ 0 <= i < n.
Proof.
  unfold at_, blen. cbn. destruct (sel b m) as [l|]; [ | done]. cbn.
  intros Hv%rd_Some. eauto.
Qed.

Section Writes.
Context (sh : buf -> option Z) (own : loc -> Prop).

Definition shaped (m : mem) : Prop := forall b, blen b m = sh b.

Definition wrote (spec : loc -> Z) (W : loc -> Prop) (m m' : mem) : Prop :=
  forall l, own l ->
  (W l /\ at_ m' l = Some (spec l)) \/ (~ W l /\ at_ m' l = at_ m l).

Definition writes_at (spec : loc -> Z) (f : cmd mem) (W : loc -> Prop)
  (m : mem) : Prop :=
  exists m', f m = Some m' /\ shaped m' /\ wrote spec W m m'.

Definition writes (spec : loc -> Z) (f : cmd mem) (W : loc -> Prop) : Prop :=
  forall m, shaped m -> writes_at spec f W m.

Lemma writes_skip spec : writes spec skip (fun _ => False).
Proof. intros m Hm. exists m. split_and!; try done. intros l _. right. tauto. Qed.

Lemma writes_wr spec b i v n :
  sh b = Some n -> 0 <= i < n -> v = spec (b, i) ->
  writes spec (wr b i v) (fun l => l = (b, i)).
Proof.
  intros Hb Hi -> m Hm. pose proof (Hm b) as Hl. rewrite Hb in Hl.
  unfold blen in Hl. destruct (sel b m) as [l|] eqn:Hs; [ | done].
  cbn in Hl. injection Hl as Hl. eexists. unfold wr. rewrite Hs. cbn.
  rewrite upd_Some by lia. cbn. split_and!; [done | | ].
  - intros b'. unfold blen. rewrite sel_put. case_decide as Hbb; [subst b' | apply Hm].
    cbn. rewrite length_insert. congruence.
  - intros [b' j] _. unfold at_. cbn. rewrite sel_put. case_decide as Hbb.
    + subst b'. cbn. rewrite Hs. cbn. destruct (decide (j < 0)) as [Hj|Hj].
      { right. split; [intros [= ->]; lia | ]. unfold rd.
        rewrite (proj2 (Z.ltb_lt _ _)) by lia. done. }
      rewrite rd_insert by lia. case_decide as Hij.
      * subst j. by left.
      * right. split; [congruence | done].
    + right. split; [congruence | done].
Qed.

Lemma wrote_trans spec1 spec2 W1 W2 m m1 m2 :
  wrote spec1 W1 m m1 -> wrote spec2 W2 m1 m2 ->
  (forall l, own l -> W1 l -> ~ W2 l -> spec1 l = spec2 l) ->
  wrote spec2 (fun l => W1 l \/ W2 l) m m2.
Proof.
  intros H1 H2 Hs l Hl.
  destruct (H2 l Hl) as [[Hw He]|[Hw He]]; [left; tauto | ].
  destruct (H1 l Hl) as [[Hw1 He1]|[Hw1 He1]].
  - left. split; [tauto | ]. rewrite He, He1. f_equal. eauto.
  - right. split; [tauto | ]. congruence.
Qed.

(** A later command may overwrite what an earlier one stored. *)
Lemma writes_over spec1 spec2 f g W1 W2 :
  writes spec1 f W1 -> writes spec2 g W2 ->
  (forall l, own l -> W1 l -> ~ W2 l -> spec1 l = spec2 l) ->
  writes spec2 (cseq f g) (fun l => W1 l \/ W2 l).
Proof.
  intros Hf Hg Hs m Hm. destruct (Hf m Hm) as (m1 & E1 & Hm1 & R1).
  destruct (Hg m1 Hm1) as (m2 & E2 & Hm2 & R2).
  exists m2. unfold cseq. rewrite E1. cbn. split_and!; [done.. | ].
  by eapply wrote_trans.
Qed.

Lemma writes_seq spec f g W1 W2 :
  writes spec f W1 -> writes spec g W2 ->
  writes spec (cseq f g) (fun l => W1 l \/ W2 l).
Proof. intros Hf Hg. by eapply writes_over. Qed.

(** The second command may rely on what the first one stored. *)
Lemma writes_seq_known spec f g W1 W2 :
  writes spec f W1 ->
  (forall m, shaped m -> (forall l, own l -> W1 l -> at_ m l = Some (spec l)) ->
   writes_at spec g W2 m) ->
  writes spec (cseq f g) (fun l => W1 l \/ W2 l).
Proof.
  intros Hf Hg m Hm. destruct (Hf m Hm) as (m1 & E1 & Hm1 & R1).
  destruct (Hg m1 Hm1) as (m2 & E2 & Hm2 & R2).
  { intros l Hl Hw. destruct (R1 l Hl) as [[_ He]|[Hn _]]; [done | by destruct Hn]. }
  exists m2. unfold cseq. rewrite E1. cbn. split_and!; [done.. | ].
  by eapply wrote_trans.
Qed.

Lemma writes_bind {A} spec (e : option A) v (f : A -> cmd mem) W :
  e = Some v -> writes spec (f v) W -> writes spec (bindv e f) W.
Proof. intros -> Hf m Hm. exact (Hf m Hm). Qed.

Lemma writes_iff spec f W W' :
  writes spec f W -> (forall l, own l -> W l <-> W' l) -> writes spec f W'.
Proof.
  intros Hf Hw m Hm. destruct (Hf m Hm) as (m' & E & Hm' & R).
  exists m'. split_and!; [done.. | ]. intros l Hl.
  rewrite <- (Hw l Hl). by apply R.
Qed.

Lemma writes_spec spec spec' f W :
  writes spec f W -> (forall l, own l -> W l -> spec l = spec' l) ->
  writes spec' f W.
Proof.
  intros Hf Hs m Hm. destruct (Hf m Hm) as (m' & E & Hm' & R).
  exists m'. split_and!; [done.. | ]. intros l Hl.
  destruct (R l Hl) as [[Hw He]|]; [left; split; [done | ] | by right].
  rewrite He. f_equal. auto.
Qed.

Lemma writes_when spec (b : bool) f W :
  (b = true -> writes spec f W) ->
  writes spec (when b f) (fun l => b = true /\ W l).
Proof.
  intros Hf. destruct b; cbn.
  - eapply writes_iff; [by apply Hf | tauto].
  - eapply writes_iff; [apply writes_skip | intros; split; [tauto | intros [? _]; done]].
Qed.

Lemma writes_iter spec step body W n : forall lo,
  (forall k, 0 <= k < Z.of_nat n -> writes spec (body (lo + k * step)) (W (lo + k * step))) ->
  writes spec (iter_up n lo step body)
  (fun l => exists k, 0 <= k < Z.of_nat n /\ W (lo + k * step) l).
Proof.
  induction n as [|n IH]; intros lo Hb; cbn [iter_up].
  - eapply writes_iff; [apply writes_skip | ]. intros l _. split; [tauto | ].
    intros (k & Hk & _). lia.
  - eapply writes_iff.
    + apply writes_seq.
      * pose proof (Hb 0 ltac:(lia)) as H0.
        rewrite Z.mul_0_l, Z.add_0_r in H0. exact H0.
      * apply IH. intros k Hk. replace (lo + step + k * step) with (lo + (k + 1) * step) by lia.
        apply Hb. lia.
    + intros l _. split.
      * intros [H|(k & Hk & H)]; [exists 0 | exists (k + 1)];
          (split; [lia | ]); [by rewrite Z.mul_0_l, Z.add_0_r | ].
        by replace (lo + (k + 1) * step) with (lo + step + k * step) by lia.
      * intros (k & Hk & H). destruct (decide (k = 0)) as [->|Hk0].
        { left. by rewrite Z.mul_0_l, Z.add_0_r in *. }
        right. exists (k - 1). split; [lia | ].
        by replace (lo + step + (k - 1) * step) with (lo + k * step) by lia.
Qed.

Lemma writes_for spec lo hi step body W :
  0 < step ->
  (forall k, 0 <= k -> lo + k * step < hi ->
   writes spec (body (lo + k * step)) (W (lo + k * step))) ->
  writes spec (for_ lo hi step body)
  (fun l => exists k, 0 <= k /\ lo + k * step < hi /\ W (lo + k * step) l).
Proof.
  intros Hs Hb. eapply writes_iff.
  - apply writes_iter. intros k [Hk1 Hk2]%trips_spec; eauto.
  - intros l _. split.
    + intros (k & [Hk1 Hk2]%trips_spec & H); eauto.
    + intros (k & Hk1 & Hk2 & H). exists k. split; [by apply trips_spec | done].
Qed.

Lemma writes_for1 spec lo hi body W :
  (forall i, lo <= i < hi -> writes spec (body i) (W i)) ->
  writes spec (for_ lo hi 1 body) (fun l => exists i, (lo <= i < hi) /\ W i l).
Proof.
  intros Hb. eapply writes_iff.
  - apply (writes_for spec lo hi 1 body W); [lia | ]. intros k H1 H2. apply Hb. lia.
  - intros l _. split.
    + intros (k & H1 & H2 & H). exists (lo + k * 1). split; [lia | done].
    + intros (i & Hi & H). exists (i - lo). split_and!; [lia.. | ].
      by replace (lo + (i - lo) * 1) with i by lia.
Qed.

(** [for (i = 0; i < s * q; i += s)]. *)
Lemma writes_for_blocks spec s q hi body W :
  0 < s -> hi = s * q ->
  (forall j, 0 <= j < q -> writes spec (body (s * j)) (W j)) ->
  writes spec (for_ 0 hi s body) (fun l => exists j, (0 <= j < q) /\ W j l).
Proof.
  intros Hs -> Hb.
  assert (Hd : forall k, s * k / s = k).
  { intros k. rewrite Z.mul_comm. apply Z.div_mul. lia. }
  eapply writes_iff.
  - apply (writes_for spec 0 (s * q) s body (fun i => W (i / s))); [done | ].
    intros k H1 H2. replace (0 + k * s) with (s * k) by lia.
    rewrite Hd. apply Hb. nia.
  - intros l _. split.
    + intros (k & H1 & H2 & H). exists k. split; [nia | ].
      replace (0 + k * s) with (s * k) in H by lia. by rewrite Hd in H.
    + intros (k & Hk & H). exists k. split_and!; [lia | nia | ].
      replace (0 + k * s) with (s * k) by lia. by rewrite Hd.
Qed.
End Writes.

(** Untracking locations. *)
Lemma writes_own sh (own own' : loc -> Prop) spec f W :
  writes sh own spec f W -> (forall l, own' l -> own l) -> writes sh own' spec f W.
Proof.
  intros Hf Ho m Hm. destruct (Hf m Hm) as (m' & E & Hm' & R).
  exists m'. split_and!; [done.. | ]. intros l Hl. auto.
Qed.

(* ------------------------------------------------------------------ *)
(** ** Planar layout of a frame *)

(** What a converter stores for a [w] x [h] output: the RGB triple and the
    luma sample of pixel [(x, y)], and the two chroma samples of the 2x2 block
    [(bx, by)]. *)
Record render : Type := Render {
  r_px : Z -> Z -> Z * Z * Z;
  r_y : Z -> Z -> Z;
  r_u : Z -> Z -> Z;
  r_v : Z -> Z -> Z
}.

Definition comp (c : Z) (p : Z * Z * Z) : Z :=
  let '(r, g, b) := p in if c =? 0 then r else if c =? 1 then g else b.

Section Layout.
Context (w h : Z).

Definition uvw : Z := w / 2.
Definition uv_size : Z := uvw * (h / 2).

(** The byte at each offset of the two buffers: packed RGB, and the Y, U and
    V planes one after the other. *)
Definition frame_spec (R : render) (l : loc) : Z :=
  match l with
  | (BR, k) => comp (k mod 3) (r_px R ((k / 3) mod w) (k / 3 / w))
  | (BI, k) =>
    if k <? w * h then r_y R (k mod w) (k / w)
    else let j := k - w * h in
      if j <? uv_size then r_u R (j mod uvw) (j / uvw)
      else r_v R ((j - uv_size) mod uvw) ((j - uv_size) / uvw)
  | (BC, _) => 0
  end.

Definition at_rgb (x y c : Z) : loc := (BR, (y * w + x) * 3 + c).
Definition at_y (x y : Z) : loc := (BI, y * w + x).
Definition at_u (bx by_ : Z) : loc := (BI, w * h + (by_ * uvw + bx)).
Definition at_v (bx by_ : Z) : loc := (BI, w * h + uv_size + (by_ * uvw + bx)).

(** Sets of locations of one pixel or block. *)
Definition RgbAt (x y : Z) (l : loc) : Prop := exists c, 0 <= c < 3 /\ l = at_rgb x y c.
Definition ChromaAt (bx by_ : Z) (l : loc) : Prop := l = at_u bx by_ \/ l = at_v bx by_.

Definition in_px (x y : Z) : Prop := 0 <= x < w /\ 0 <= y < h.
Definition in_blk (bx by_ : Z) : Prop := 0 <= bx < uvw /\ 0 <= by_ < h / 2.

Definition FrameSet (hi hr : bool) (l : loc) : Prop :=
  (hr = true /\ exists x y, in_px x y /\ RgbAt x y l) \/
  (hi = true /\ ((exists x y, in_px x y /\ l = at_y x y) \/
               (exists bx by_, in_blk bx by_ /\ ChromaAt bx by_ l))).

Definition need (b : buf) : Z :=
  match b with BR => w * h * 3 | BI => w * h + 2 * uv_size | BC => 0 end.

(** The buffers that are not NULL are large enough. *)
Definition fits (m : mem) : Prop := forall b n, blen b m = Some n -> need b <= n.

(** [m'] is [m] with the frame [R] stored in the buffers that are not NULL:
    no other byte changes and no buffer changes size. *)
Record renders (R : render) (m m' : mem) : Prop := {
  rn_len : forall b, blen b m' = blen b m;
  rn_rgb : rgb m <> None -> forall x y c, in_px x y -> 0 <= c < 3 ->
  at_ m' (at_rgb x y c) = Some (comp c (r_px R x y));
  rn_y : i420 m <> None -> forall x y, in_px x y ->
  at_ m' (at_y x y) = Some (r_y R x y);
  rn_u : i420 m <> None -> forall bx by_, in_blk bx by_ ->
  at_ m' (at_u bx by_) = Some (r_u R bx by_);
  rn_v : i420 m <> None -> forall bx by_, in_blk bx by_ ->
  at_ m' (at_v bx by_) = Some (r_v R bx by_);
  rn_rest : forall b k, b <> BC -> need b <= k -> at_ m' (b, k) = at_ m (b, k)
  }.

Hypothesis Hw : 0 < w.
Hypothesis Hh : 0 < h.

Lemma mod_row n x y : 0 <= x < n -> (y * n + x) mod n = x.
Proof. intros Hx. rewrite Z.add_comm, Z.mod_add by lia. by apply Z.mod_small. Qed.

Lemma div_row n x y : 0 <= x < n -> (y * n + x) / n = y.
Proof. intros Hx. rewrite Z.add_comm, Z.div_add by lia. rewrite Z.div_small; lia. Qed.

Lemma row_bound n k x y : 0 <= x < n -> 0 <= y < k -> 0 <= y * n + x < n * k.
Proof. nia. Qed.

Lemma spec_rgb R x y c :
  in_px x y -> 0 <= c < 3 -> frame_spec R (at_rgb x y c) = comp c (r_px R x y).
Proof.
  intros [Hx Hy] Hc. cbn. rewrite (mod_row 3 c), (div_row 3 c) by lia.
  by rewrite mod_row, div_row.
Qed.

Lemma spec_y R x y : in_px x y -> frame_spec R (at_y x y) = r_y R x y.
Proof.
  intros [Hx Hy]. cbn. pose proof (row_bound w h x y Hx Hy).
  rewrite (proj2 (Z.ltb_lt _ _)) by lia. by rewrite mod_row, div_row.
Qed.

Lemma spec_u R bx by_ : in_blk bx by_ -> frame_spec R (at_u bx by_) = r_u R bx by_.
Proof.
  intros [Hx Hy]. cbn. pose proof (row_bound uvw (h / 2) bx by_ Hx Hy).
  rewrite (proj2 (Z.ltb_ge _ _)) by lia.
  replace (w * h + (by_ * uvw + bx) - w * h) with (by_ * uvw + bx) by lia.
  rewrite (proj2 (Z.ltb_lt _ _)) by (unfold uv_size; lia).
  by rewrite mod_row, div_row.
Qed.

Lemma spec_v R bx by_ : in_blk bx by_ -> frame_spec R (at_v bx by_) = r_v R bx by_.
Proof.
  intros [Hx Hy]. cbn. pose proof (row_bound uvw (h / 2) bx by_ Hx Hy).
  assert (0 <= uv_size) by (unfold uv_size in *; lia).
  rewrite (proj2 (Z.ltb_ge _ _)) by lia.
  rewrite (proj2 (Z.ltb_ge _ _)) by lia.
  replace (w * h + uv_size + (by_ * uvw + bx) - w * h - uv_size)
    with (by_ * uvw + bx) by lia.
  by rewrite mod_row, div_row.
Qed.

(** The stores of one pixel or one chroma sample, in buffers that fit. *)
Section Stores.
Context (sh : buf -> option Z) (own : loc -> Prop) (R : render).
Hypothesis Hsh : forall b n, sh b = Some n -> need b <= n.

Lemma writes_rgb n x y i r g b :
  sh BR = Some n -> in_px x y -> i = (y * w + x) * 3 -> r_px R x y = (r, g, b) ->
  writes sh own (frame_spec R)
  (wr BR (i + 0) r ;;; wr BR (i + 1) g ;;; wr BR (i + 2) b)%cmd (RgbAt x y).
Proof.
  intros Hn Hp -> Hr. pose proof (Hsh BR n Hn) as Hfit. cbn [need] in Hfit.
  destruct Hp as [Hx Hy]. pose proof (row_bound w h x y Hx Hy).
  assert (Hs : forall c, 0 <= c < 3 ->
    frame_spec R (BR, (y * w + x) * 3 + c) = comp c (r, g, b)).
  { intros c Hc. rewrite <- Hr. by apply spec_rgb. }
  eapply writes_iff.
  - eapply writes_seq; [ | eapply writes_seq]; eapply writes_wr;
      try done; try lia; by rewrite Hs by lia.
  - intros l _. unfold RgbAt, at_rgb. split.
    + intros [->|[->| ->]]; [exists 0 | exists 1 | exists 2]; (split; [lia | done]).
    + intros (c & Hc & ->). assert (c = 0 \/ c = 1 \/ c = 2) as [->|[->| ->]] by lia; tauto.
Qed.

Lemma writes_y n x y i v :
  sh BI = Some n -> in_px x y -> i = y * w + x -> v = r_y R x y ->
  writes sh own (frame_spec R) (wr BI i v) (fun l => l = at_y x y).
Proof.
  intros Hn Hp -> ->. pose proof (Hsh BI n Hn) as Hfit. cbn [need] in Hfit.
  assert (0 <= uv_size) by (apply Z.mul_nonneg_nonneg; apply Z.div_pos; lia).
  eapply writes_wr; [done | | symmetry; by apply spec_y].
  destruct Hp as [Hx Hy]. pose proof (row_bound w h x y Hx Hy). lia.
Qed.

Lemma writes_u n bx by_ i v :
  sh BI = Some n -> in_blk bx by_ -> i = w * h + (by_ * uvw + bx) -> v = r_u R bx by_ ->
  writes sh own (frame_spec R) (wr BI i v) (fun l => l = at_u bx by_).
Proof.
  intros Hn Hp -> ->. pose proof (Hsh BI n Hn) as Hfit. cbn [need] in Hfit.
  eapply writes_wr; [done | | symmetry; by apply spec_u].
  destruct Hp as [Hx Hy]. pose proof (row_bound uvw (h / 2) bx by_ Hx Hy).
  unfold uv_size in *. nia.
Qed.

Lemma writes_v n bx by_ i v :
  sh BI = Some n -> in_blk bx by_ -> i = w * h + uv_size + (by_ * uvw + bx) ->
  v = r_v R bx by_ ->
  writes sh own (frame_spec R) (wr BI i v) (fun l => l = at_v bx by_).
Proof.
  intros Hn Hp -> ->. pose proof (Hsh BI n Hn) as Hfit. cbn [need] in Hfit.
  eapply writes_wr; [done | | symmetry; by apply spec_v].
  destruct Hp as [Hx Hy]. pose proof (row_bound uvw (h / 2) bx by_ Hx Hy).
  unfold uv_size in *. nia.
Qed.
End Stores.

(** The write set of a whole frame is exactly the first [need b] bytes. *)
Lemma FrameSet_need hi hr b k : FrameSet hi hr (b, k) -> 0 <= k < need b.
Proof.
  unfold FrameSet, RgbAt, ChromaAt, at_rgb, at_y, at_u, at_v, in_px, in_blk.
  intros [(_ & x & y & [Hx Hy] & c & Hc & [= -> ->])
    |(_ & [(x & y & [Hx Hy] & [= -> ->])
    |(bx & by_ & [Hx Hy] & [[= -> ->]|[= -> ->]])])].
  - cbn [need]. pose proof (row_bound w h x y Hx Hy). lia.
  - cbn [need]. pose proof (row_bound w h x y Hx Hy).
    assert (0 <= uv_size).
    { apply Z.mul_nonneg_nonneg; apply Z.div_pos; lia. }
    lia.
  - cbn [need]. pose proof (row_bound uvw (h / 2) bx by_ Hx Hy). unfold uv_size. nia.
  - cbn [need]. pose proof (row_bound uvw (h / 2) bx by_ Hx Hy). unfold uv_size. nia.
Qed.

Lemma wrote_renders R hi hr m m' :
  (hi = true <-> i420 m <> None) -> (hr = true <-> rgb m <> None) ->
  shaped (fun b => blen b m) m' ->
  wrote (fun l => l.1 <> BC) (frame_spec R) (FrameSet hi hr) m m' ->
  renders R m m'.
Proof.
  intros Hi Hr Hs Hm.
  assert (Hin : forall l, l.1 <> BC -> FrameSet hi hr l -> at_ m' l = Some (frame_spec R l)).
  { intros l Hl HF. destruct (Hm l Hl) as [[_ H]|[H _]]; [done | by destruct H]. }
  split; [exact Hs | ..].
  - intros Hn x y c Hp Hc. rewrite <- (spec_rgb R x y c Hp Hc).
    apply Hin; [done | ]. left. split; [tauto | ]. exists x, y. split; [done | by exists c].
  - intros Hn x y Hp. rewrite <- (spec_y R x y Hp). apply Hin; [done | ].
    right. split; [tauto | ]. left. by exists x, y.
  - intros Hn bx by_ Hp. rewrite <- (spec_u R bx by_ Hp). apply Hin; [done | ].
    right. split; [tauto | ]. right. exists bx, by_. split; [done | by left].
  - intros Hn bx by_ Hp. rewrite <- (spec_v R bx by_ Hp). apply Hin; [done | ].
    right. split; [tauto | ]. right. exists bx, by_. split; [done | by right].
  - intros b k Hb Hk. destruct (Hm (b, k) Hb) as [[HF _]|[_ H]]; [ | done].
    apply FrameSet_need in HF. lia.
Qed.

(** A command that writes exactly the frame renders it. *)
Definition runs (R : render) (f : cmd mem) (m : mem) : Prop :=
  writes_at (fun b => blen b m) (fun l => l.1 <> BC) (frame_spec R) f
  (FrameSet (nonnull (i420 m)) (nonnull (rgb m))) m.

Lemma runs_renders R f m : runs R f m -> exists m', f m = Some m' /\ renders R m m'.
Proof.
  intros (m' & E & Hs & Hm). exists m'. split; [done | ].
  eapply wrote_renders; eauto using nonnull_true.
Qed.

(** Frames whose samples are within [d] of each other. *)
Definition near (d : Z) (R1 R2 : render) : Prop :=
  forall x y,
  (forall c, Z.abs (comp c (r_px R1 x y) - comp c (r_px R2 x y)) <= d) /\
  Z.abs (r_y R1 x y - r_y R2 x y) <= d /\
  Z.abs (r_u R1 x y - r_u R2 x y) <= d /\
  Z.abs (r_v R1 x y - r_v R2 x y) <= d.

Definition near_mem (d : Z) (m1 m2 : mem) : Prop :=
  forall b k, b <> BC -> 0 <= k ->
  match at_ m1 (b, k), at_ m2 (b, k) with
  | Some v1, Some v2 => Z.abs (v1 - v2) <= d
  | None, None => True
  | _, _ => False
  end.

Lemma runs_near d R1 R2 f g m :
  0 <= d -> near d R1 R2 -> runs R1 f m -> runs R2 g m ->
  exists m1 m2, f m = Some m1 /\ g m = Some m2 /\ near_mem d m1 m2.
Proof.
  intros Hd Hn (m1 & E1 & _ & H1) (m2 & E2 & _ & H2).
  exists m1, m2. split_and!; [done.. | ]. intros b k Hb Hk.
  destruct (H1 (b, k) Hb) as [[Hw1 ->]|[Hw1 ->]], (H2 (b, k) Hb) as [[Hw2 ->]|[Hw2 ->]];
    try tauto.
  - destruct b; [ | | done].
    + unfold frame_spec. repeat case_match; apply Hn.
    + unfold frame_spec. apply Hn.
  - destruct (at_ m (b, k)); lia.
Qed.
End Layout.

(** Commands that store frames equal on a set of locations leave the same
    bytes there. *)
Lemma runs_agree w h R1 R2 f g m (P : loc -> Prop) :
  (forall l, P l -> FrameSet w h (nonnull (i420 m)) (nonnull (rgb m)) l ->
     frame_spec w h R1 l = frame_spec w h R2 l) ->
  runs w h R1 f m -> runs w h R2 g m ->
  exists m1 m2, f m = Some m1 /\ g m = Some m2 /\
    forall l, l.1 <> BC -> P l -> at_ m1 l = at_ m2 l.
Proof.
  intros Heq (m1 & E1 & _ & H1) (m2 & E2 & _ & H2).
  exists m1, m2. split_and!; [done.. | ]. intros l Hl HP.
  destruct (H1 l Hl) as [[HF1 ->]|[HF1 ->]], (H2 l Hl) as [[HF2 ->]|[HF2 ->]];
    [ | tauto | tauto | done]. by rewrite Heq.
Qed.
