(* ===== verification/Bayer.v ===== *)
(** Bayer: the specification of the RGGB demosaic and of the BT.601 colour
    conversion, independent of any of the implementations, with the bounds
    both enjoy.  A missing colour is estimated by the (truncated) mean of the
    samples of that colour in the 3x3 window, coordinates clamped to the
    image. *)

From S2P Require Import Prelude Frame.

(** Colour filter array: R G / G B. *)
Inductive chan : Set := Red | Green | Blue.

Definition chan_eqb (a b : chan) : bool :=
  match a, b with
  | Red, Red | Green, Green | Blue, Blue => true
  | _, _ => false
  end.

Definition cfa (x y : Z) : chan :=
  match Z.even y, Z.even x with
  | true, true => Red
  | true, false | false, true => Green
  | false, false => Blue
  end.

Definition window : list (Z * Z) :=
  [(-1, -1); (0, -1); (1, -1); (-1, 0); (1, 0); (-1, 1); (0, 1); (1, 1)].

Definition clampc (v n : Z) : Z := Z.max 0 (Z.min v (n - 1)).

Definition zsum (l : list Z) : Z := foldr Z.add 0 l.
Definition mean (l : list Z) : Z := zsum l / Z.of_nat (length l).

Section Demosaic.
(** [s x y]: the sample at in-range coordinates. *)
Context (w h : Z) (s : Z -> Z -> Z).

Definition sample (x y : Z) : Z := s (clampc x w) (clampc y h).

Definition estimate (c : chan) (x y : Z) : Z :=
  if chan_eqb (cfa x y) c then sample x y
  else mean (omap (fun '(dx, dy) =>
  if chan_eqb (cfa (x + dx) (y + dy)) c then Some (sample (x + dx) (y + dy))
  else None) window).

Definition bilinear (x y : Z) : Z * Z * Z :=
  (estimate Red x y, estimate Green x y, estimate Blue x y).

(** The interpolation case by case, the form every implementation has. *)
Lemma bilinear_RGGB x y :
  bilinear x y =
  match Z.even y, Z.even x with
  | true, true =>
      (sample x y,
       (sample (x - 1) y + sample (x + 1) y + sample x (y - 1) + sample x (y + 1)) / 4,
       (sample (x - 1) (y - 1) + sample (x + 1) (y - 1) +
        sample (x - 1) (y + 1) + sample (x + 1) (y + 1)) / 4)
  | true, false =>
      ((sample (x - 1) y + sample (x + 1) y) / 2, sample x y,
       (sample x (y - 1) + sample x (y + 1)) / 2)
  | false, true =>
      ((sample x (y - 1) + sample x (y + 1)) / 2, sample x y,
       (sample (x - 1) y + sample (x + 1) y) / 2)
  | false, false =>
      ((sample (x - 1) (y - 1) + sample (x + 1) (y - 1) +
        sample (x - 1) (y + 1) + sample (x + 1) (y + 1)) / 4,
       (sample (x - 1) y + sample (x + 1) y + sample x (y - 1) + sample x (y + 1)) / 4,
       sample x y)
  end.
Proof.
  unfold bilinear, estimate, window, cfa. cbn [omap list_omap].
  rewrite !Z.even_add.
  destruct (Z.even y), (Z.even x); cbn -[Z.div Z.add Z.sub sample];
    unfold mean; cbn -[Z.div Z.add Z.sub sample];
    rewrite ?Z.add_0_r; change (-1) with (- (1)); rewrite ?Z.add_opp_r;
    (apply f_equal2; [apply f_equal2 | ]); try done; f_equal; lia.
Qed.

Lemma bilinear_between lo hi x y :
  (forall x y, lo <= sample x y <= hi) ->
  let '(r, g, b) := bilinear x y in
  lo <= r <= hi /\ lo <= g <= hi /\ lo <= b <= hi.
Proof.
  intros H. rewrite bilinear_RGGB.
  pose proof (H x y); pose proof (H (x - 1) y); pose proof (H (x + 1) y);
    pose proof (H x (y - 1)); pose proof (H x (y + 1)).
  pose proof (H (x - 1) (y - 1)); pose proof (H (x + 1) (y - 1));
    pose proof (H (x - 1) (y + 1)); pose proof (H (x + 1) (y + 1)).
  destruct (Z.even y), (Z.even x); split_and!; dlia.
Qed.

Lemma bilinear_bounds m x y :
  (forall x y, 0 <= s x y <= m) ->
  let '(r, g, b) := bilinear x y in
  0 <= r <= m /\ 0 <= g <= m /\ 0 <= b <= m.
Proof. intros Hs. apply bilinear_between. intros. apply Hs. Qed.
End Demosaic.

Lemma estimate_ext w h s s' x y :
  (forall x y, 0 <= x < w -> 0 <= y < h -> s x y = s' x y) -> 0 < w -> 0 < h ->
  bilinear w h s x y = bilinear w h s' x y.
Proof.
  intros Hs Hw Hh.
  assert (H : forall x y, sample w h s x y = sample w h s' x y).
  { intros. apply Hs; unfold clampc; lia. }
  rewrite !bilinear_RGGB, !H. done.
Qed.

(* ------------------------------------------------------------------ *)
(** ** BT.601 limited range *)

Definition clamp255 (v : Z) : Z := Z.max 0 (Z.min v 255).

Definition luma (p : Z * Z * Z) : Z :=
  let '(r, g, b) := p in clamp255 ((66 * r + 129 * g + 25 * b + 128) / 256 + 16).
Definition chroma_u (p : Z * Z * Z) : Z :=
  let '(r, g, b) := p in clamp255 ((-38 * r - 74 * g + 112 * b + 128) / 256 + 128).
Definition chroma_v (p : Z * Z * Z) : Z :=
  let '(r, g, b) := p in clamp255 ((112 * r - 94 * g - 18 * b + 128) / 256 + 128).

Definition u8px (p : Z * Z * Z) : Prop :=
  let '(r, g, b) := p in is_u8 r /\ is_u8 g /\ is_u8 b.

(** The clamp never fires on 8-bit input: luma stays in 16..235 and chroma in
    16..240. *)
Lemma luma_range p : u8px p -> 16 <= luma p <= 235.
Proof. destruct p as [[r g] b]. unfold u8px, luma, clamp255, is_u8. intros. dlia. Qed.

Lemma chroma_u_range p : u8px p -> 16 <= chroma_u p <= 240.
Proof. destruct p as [[r g] b]. unfold u8px, chroma_u, clamp255, is_u8. intros. dlia. Qed.

Lemma chroma_v_range p : u8px p -> 16 <= chroma_v p <= 240.
Proof. destruct p as [[r g] b]. unfold u8px, chroma_v, clamp255, is_u8. intros. dlia. Qed.

Definition map3 (f : Z -> Z) (p : Z * Z * Z) : Z * Z * Z :=
  let '(r, g, b) := p in (f r, f g, f b).
Definition add3 (p q : Z * Z * Z) : Z * Z * Z :=
  let '(r, g, b) := p in let '(r', g', b') := q in (r + r', g + g', b + b').

(** The mean of the four pixels of a 2x2 block, per channel, truncated. *)
Definition block_mean (px : Z -> Z -> Z * Z * Z) (bx by_ : Z) : Z * Z * Z :=
  map3 (fun s => s / 4)
    (add3 (add3 (add3 (px (2 * bx) (2 * by_)) (px (2 * bx + 1) (2 * by_)))
                (px (2 * bx) (2 * by_ + 1))) (px (2 * bx + 1) (2 * by_ + 1))).

(** The frame of a full-size converter: pixels [px], stored through [store];
    luma per pixel, chroma of the block means. *)
Definition full_render (px : Z -> Z -> Z * Z * Z) (store : Z -> Z) : render :=
  {| r_px x y := map3 store (px x y);
     r_y x y := luma (px x y);
     r_u bx by_ := chroma_u (block_mean px bx by_);
     r_v bx by_ := chroma_v (block_mean px bx by_) |}.

(** Raw samples in row-major order. *)
Definition raw_at (w : Z) (raw : list Z) (x y : Z) : Z := ix raw (y * w + x).

Definition raw_ok (w h : Z) (raw : list Z) : Prop :=
  Z.of_nat (length raw) = w * h /\ Forall is_u16 raw.

Lemma raw_at_u16 w h raw x y : raw_ok w h raw -> is_u16 (raw_at w raw x y).
Proof. intros [_ H]. unfold raw_at. apply (ix_Forall is_u16); [mlia | done]. Qed.

(** The clamp of the sources: two tests in sequence, or [v < 0 ? 0 : ...]. *)
Lemma clamp255_if v :
  (if v <? 0 then 0 else if 255 <? v then 255 else u8 v) = clamp255 v.
Proof.
  unfold clamp255. destruct (Z.ltb_spec v 0); [lia | ].
  destruct (Z.ltb_spec 255 v); [lia | ]. rewrite u8_id by mlia. lia.
Qed.

Lemma block_mean_u8 px bx by_ : (forall x y, u8px (px x y)) -> u8px (block_mean px bx by_).
Proof.
  intros Hp. unfold block_mean.
  pose proof (Hp (2 * bx) (2 * by_)). pose proof (Hp (2 * bx + 1) (2 * by_)).
  pose proof (Hp (2 * bx) (2 * by_ + 1)). pose proof (Hp (2 * bx + 1) (2 * by_ + 1)).
  destruct (px _ _) as [[? ?] ?], (px _ _) as [[? ?] ?], (px _ _) as [[? ?] ?],
    (px _ _) as [[? ?] ?]. unfold u8px, is_u8 in *. cbn. split_and!; dlia.
Qed.

(** [/ 4] on the non-negative sums. *)
Lemma block_mean_quot px bx by_ :
  (forall x y, u8px (px x y)) ->
  map3 (fun s => Z.quot s 4)
    (add3 (add3 (add3 (px (2 * bx) (2 * by_)) (px (2 * bx + 1) (2 * by_)))
                (px (2 * bx) (2 * by_ + 1))) (px (2 * bx + 1) (2 * by_ + 1))) =
  block_mean px bx by_.
Proof.
  intros Hp. unfold block_mean.
  pose proof (Hp (2 * bx) (2 * by_)). pose proof (Hp (2 * bx + 1) (2 * by_)).
  pose proof (Hp (2 * bx) (2 * by_ + 1)). pose proof (Hp (2 * bx + 1) (2 * by_ + 1)).
  destruct (px _ _) as [[? ?] ?], (px _ _) as [[? ?] ?], (px _ _) as [[? ?] ?],
    (px _ _) as [[? ?] ?]. unfold u8px, is_u8 in *. cbn.
  by rewrite !Z.quot_div_nonneg by lia.
Qed.

(** Every stored sample of a full-size frame is an 8-bit value, and the I420
    samples are studio range. *)
Definition studio (R : render) : Prop :=
  forall x y, u8px (r_px R x y) /\ 16 <= r_y R x y <= 235 /\
    16 <= r_u R x y <= 240 /\ 16 <= r_v R x y <= 240.

Lemma full_render_studio px :
  (forall x y, u8px (px x y)) -> studio (full_render px u8).
Proof.
  intros Hp x y. cbn. refine (conj _ (conj _ (conj _ _))).
  - pose proof (Hp x y) as H. destruct (px x y) as [[r g] b]. cbn in *.
    split_and!; apply u8_range.
  - by apply luma_range.
  - by apply chroma_u_range, block_mean_u8.
  - by apply chroma_v_range, block_mean_u8.
Qed.

(** The arithmetic the sources spell out, [((..) >> 8) + c] then a clamp. *)
Lemma luma_code r g b :
  clamp255 (Z.shiftr (66 * r + 129 * g + 25 * b + 128) 8 + 16) = luma (r, g, b).
Proof. by rewrite shr_div by lia. Qed.
Lemma chroma_u_code r g b :
  clamp255 (Z.shiftr (-38 * r - 74 * g + 112 * b + 128) 8 + 128) = chroma_u (r, g, b).
Proof. by rewrite shr_div by lia. Qed.
Lemma chroma_v_code r g b :
  clamp255 (Z.shiftr (112 * r - 94 * g - 18 * b + 128) 8 + 128) = chroma_v (r, g, b).
Proof. by rewrite shr_div by lia. Qed.

Create Rewrite HintDb bt601.
#[export] Hint Rewrite luma_code chroma_u_code chroma_v_code : bt601.

(** Where a frame of even size is concerned, [x / 2] of a block's left column
    is the block's index. *)
Lemma quot2 j : Z.quot (2 * j) 2 = j.
Proof. rewrite Z.mul_comm. by apply Z.quot_mul. Qed.

Definition has (sh : buf -> option Z) (b : buf) (p : bool) : Prop :=
  p = true -> exists n, sh b = Some n.

Lemma has_i420 m : has (fun b => blen b m) BI (nonnull (i420 m)).
Proof. unfold has, blen. cbn. destruct (i420 m); cbn; [eauto | done]. Qed.
Lemma has_rgb m : has (fun b => blen b m) BR (nonnull (rgb m)).
Proof. unfold has, blen. cbn. destruct (rgb m); cbn; [eauto | done]. Qed.
#[export] Hint Resolve has_i420 has_rgb : mach.

(** One pixel of a full-size converter: the RGB triple and the luma byte,
    each if its buffer is there. *)
Definition PxSet (w : Z) (hi hr : bool) (x y : Z) (l : loc) : Prop :=
  (hr = true /\ RgbAt w x y l) \/ (hi = true /\ l = at_y w x y).

Lemma half n : Z.even n = true -> n = 2 * (n / 2).
Proof. intros [k ->]%Z.even_spec. rewrite (Z.mul_comm 2 k), Z.div_mul; lia. Qed.

(** A frame produced by a pass over the pixels and a pass over the blocks. *)
Section TwoPass.
Context (w h : Z) (sh : buf -> option Z) (R : render) (hi hr : bool).
Context (px blk : Z -> Z -> cmd mem).
Hypothesis Heven : Z.even w = true /\ Z.even h = true.
#[local] Abbreviation wrs := (writes sh (fun l => l.1 <> BC) (frame_spec w h R)).
Hypothesis Hpx : forall x y, in_px w h x y -> wrs (px y x) (PxSet w hi hr x y).
Hypothesis Hblk : hi = true -> forall bx by_, in_blk w h bx by_ ->
  wrs (blk (2 * by_) (2 * bx)) (ChromaAt w h bx by_).

Lemma two_pass_writes :
  wrs (cseq (for_ 0 h 1 (fun y => for_ 0 w 1 (fun x => px y x)))
          (when hi (for_ 0 h 2 (fun y => for_ 0 w 2 (fun x => blk y x)))))
    (FrameSet w h hi hr).
Proof.
  destruct Heven as [Hew Heh]. eapply writes_iff.
  - apply writes_seq.
    + apply writes_for1. intros y Hy. apply writes_for1. intros x Hx.
      by apply Hpx.
    + apply writes_when. intros Hn.
      apply (writes_for_blocks _ _ _ 2 (h / 2)); [lia | by apply half | ].
      intros by_ Hb. apply (writes_for_blocks _ _ _ 2 (w / 2)); [lia | by apply half | ].
      intros bx Hbx. by apply Hblk.
  - intros l _. unfold PxSet, FrameSet, in_px, in_blk, uvw. split.
    + intros [(y & Hy & x & Hx & [[Hr HR]|[Hi ->]])|(Hi & by_ & Hb & bx & Hbx & HC)].
      * left. split; [done | ]. by exists x, y.
      * right. split; [done | ]. left. by exists x, y.
      * right. split; [done | ]. right. by exists bx, by_.
    + intros [(Hr & x & y & [Hx Hy] & HR)|(Hi & [(x & y & [Hx Hy] & ->)|(bx & by_ & [Hx Hy] & HC)])].
      * left. exists y. split; [done | ]. exists x. tauto.
      * left. exists y. split; [done | ]. exists x. tauto.
      * right. split; [done | ]. exists by_. split; [done | ]. by exists bx.
Qed.
End TwoPass.

(** A frame produced block by block. *)
Definition BlockSet (w h : Z) (hi hr : bool) (bx by_ : Z) (l : loc) : Prop :=
  (hr = true /\ exists dx dy, 0 <= dx < 2 /\ 0 <= dy < 2 /\
     RgbAt w (2 * bx + dx) (2 * by_ + dy) l) \/
  (hi = true /\ ((exists dx dy, 0 <= dx < 2 /\ 0 <= dy < 2 /\
     l = at_y w (2 * bx + dx) (2 * by_ + dy)) \/ ChromaAt w h bx by_ l)).

(** The pixels of a block, [n] = 2k. *)
Lemma blk_split n x : Z.even n = true -> 0 <= x < n ->
  exists j d, (0 <= j < n / 2) /\ 0 <= d < 2 /\ x = 2 * j + d.
Proof.
  intros Hn Hx. exists (x / 2), (x mod 2). pose proof (half n Hn). dlia.
Qed.

Lemma blk_in w h bx by_ dx dy :
  Z.even w = true -> Z.even h = true -> in_blk w h bx by_ ->
  0 <= dx < 2 -> 0 <= dy < 2 -> in_px w h (2 * bx + dx) (2 * by_ + dy).
Proof.
  intros Hw Hh [Hx Hy] Hdx Hdy. pose proof (half w Hw). pose proof (half h Hh).
  unfold in_px, uvw in *. lia.
Qed.

(** The stores of a block listed one by one. *)
Lemma block_set_iff w h (hi hr : bool) bx by_ l :
  (hr = true /\ (RgbAt w (2 * bx) (2 * by_) l \/ RgbAt w (2 * bx + 1) (2 * by_) l \/
                 RgbAt w (2 * bx) (2 * by_ + 1) l \/ RgbAt w (2 * bx + 1) (2 * by_ + 1) l)) \/
  (hi = true /\ (l = at_y w (2 * bx) (2 * by_) \/ l = at_y w (2 * bx + 1) (2 * by_) \/
                 l = at_y w (2 * bx) (2 * by_ + 1) \/ l = at_y w (2 * bx + 1) (2 * by_ + 1))) \/
  (hi = true /\ (l = at_u w h bx by_ \/ l = at_v w h bx by_)) <->
  BlockSet w h hi hr bx by_ l.
Proof.
  unfold BlockSet, ChromaAt. split.
  - intros [[Hr H]|[[Hi H]|[Hi H]]].
    + left. split; [done | ]. destruct H as [H|[H|[H|H]]];
        [exists 0, 0 | exists 1, 0 | exists 0, 1 | exists 1, 1];
        rewrite ?Z.add_0_r; split_and!; done || lia.
    + right. split; [done | ]. left. destruct H as [H|[H|[H|H]]];
        [exists 0, 0 | exists 1, 0 | exists 0, 1 | exists 1, 1];
        rewrite ?Z.add_0_r; split_and!; done || lia.
    + right. tauto.
  - intros [(Hr & dx & dy & Hdx & Hdy & H)|(Hi & [(dx & dy & Hdx & Hdy & H)|H])]; [ | | tauto].
    + left. split; [done | ].
      assert (dx = 0 \/ dx = 1) as [->| ->] by lia; assert (dy = 0 \/ dy = 1) as [->| ->] by lia;
        rewrite ?Z.add_0_r in *; tauto.
    + right. left. split; [done | ].
      assert (dx = 0 \/ dx = 1) as [->| ->] by lia; assert (dy = 0 \/ dy = 1) as [->| ->] by lia;
        rewrite ?Z.add_0_r in *; tauto.
Qed.

Lemma blocks_FrameSet w h hi hr l :
  Z.even w = true -> Z.even h = true ->
  ((exists by_, (0 <= by_ < h / 2) /\ exists bx, (0 <= bx < w / 2) /\
     BlockSet w h hi hr bx by_ l) <-> FrameSet w h hi hr l).
Proof.
  intros Hw Hh. unfold BlockSet, FrameSet. split.
  - intros (by_ & Hb & bx & Hbx & [(Hr & dx & dy & Hdx & Hdy & HR)|(Hi & [(dx & dy & Hdx & Hdy & ->)|HC])]).
    + left. split; [done | ]. eexists _, _. split; [ | exact HR].
      by apply blk_in.
    + right. split; [done | ]. left. eexists _, _. split; [ | done]. by apply blk_in.
    + right. split; [done | ]. right. by exists bx, by_.
  - intros [(Hr & x & y & [Hx Hy] & HR)|(Hi & [(x & y & [Hx Hy] & ->)|(bx & by_ & [Hx Hy] & HC)])].
    + destruct (blk_split w x Hw Hx) as (bx & dx & ? & ? & ->).
      destruct (blk_split h y Hh Hy) as (by_ & dy & ? & ? & ->).
      exists by_. split; [done | ]. exists bx. split; [done | ]. left.
      split; [done | ]. by exists dx, dy.
    + destruct (blk_split w x Hw Hx) as (bx & dx & ? & ? & ->).
      destruct (blk_split h y Hh Hy) as (by_ & dy & ? & ? & ->).
      exists by_. split; [done | ]. exists bx. split; [done | ]. right.
      split; [done | ]. left. by exists dx, dy.
    + exists by_. split; [done | ]. exists bx. split; [done | ]. right. tauto.
Qed.

Lemma blocks_writes w h sh R hi hr (blk : Z -> Z -> cmd mem) :
  Z.even w = true -> Z.even h = true ->
  (forall bx by_, in_blk w h bx by_ ->
     writes sh (fun l => l.1 <> BC) (frame_spec w h R) (blk (2 * by_) (2 * bx))
       (BlockSet w h hi hr bx by_)) ->
  writes sh (fun l => l.1 <> BC) (frame_spec w h R)
    (for_ 0 h 2 (fun y => for_ 0 w 2 (fun x => blk y x))) (FrameSet w h hi hr).
Proof.
  intros Hw Hh Hb. eapply writes_iff.
  - apply (writes_for_blocks _ _ _ 2 (h / 2)); [lia | by apply half | ].
    intros by_ Hby. apply (writes_for_blocks _ _ _ 2 (w / 2)); [lia | by apply half | ].
    intros bx Hbx. by apply Hb.
  - intros l _. by apply blocks_FrameSet.
Qed.

(** The clamped neighbours of an in-range coordinate, as the sources compute
    them. *)
Lemma clampc_in v n : 0 <= v < n -> clampc v n = v.
Proof. unfold clampc. lia. Qed.
Lemma clampc_m1 v n : 0 <= v < n -> (if 0 <? v then v - 1 else v) = clampc (v - 1) n.
Proof. unfold clampc. destruct (Z.ltb_spec 0 v); lia. Qed.
Lemma clampc_p1 v n : 0 <= v < n -> (if v + 1 <? n then v + 1 else v) = clampc (v + 1) n.
Proof. unfold clampc. destruct (Z.ltb_spec (v + 1) n); lia. Qed.
Lemma clampc_p2 v n :
  0 <= v < n -> (if v + 2 <? n then v + 2 else clampc (v + 1) n) = clampc (v + 2) n.
Proof. unfold clampc. destruct (Z.ltb_spec (v + 2) n); lia. Qed.

Lemma rd_sample w h raw x y :
  0 < w -> 0 < h -> raw_ok w h raw ->
  rd raw (clampc y h * w + clampc x w) = Some (sample w h (raw_at w raw) x y).
Proof.
  intros Hw Hh [Hl _]. unfold sample, raw_at. apply rd_ix. rewrite Hl.
  apply row_bound; unfold clampc; lia.
Qed.

Lemma sample_Forall (P : Z -> Prop) w h raw x y :
  0 < w -> 0 < h -> raw_ok w h raw -> Forall P raw -> P (sample w h (raw_at w raw) x y).
Proof.
  intros Hw Hh Hraw. eapply rd_Forall. by apply (rd_sample w h raw x y).
Qed.
