(* ===== verification/BayerRef.v ===== *)
(** BayerRef: the two portable converters of
    package/aloe/rggb10_rgb888_i420.cpp,
    [aloe_rggb10_to_rgb888_i420] (per-pixel reads through [get_pixel]) and
    [aloe_rggb10_to_rgb888_i420_v2] (one 2x2 block at a time through row
    pointers), and their refinement of the demosaic specification of Bayer. *)

From S2P Require Import Prelude Frame Bayer.

Local Open Scope cmd_scope.

(* ------------------------------------------------------------------ *)
(** ** aloe_rggb10_to_rgb888_i420 *)

(** [RAW10_ALIGNMENT] is [RAW10_LOW_ALIGNED]. *)
Definition extract_raw10 (pixel : Z) : Z := u16 (Z.land pixel 0x03FF).

Definition clamp_u8 (value : Z) : Z :=
  if value <? 0 then 0 else if 255 <? value then 255 else u8 value.

Definition raw10_to_u8 (value : Z) : Z := u8 (Z.quot (value * 255 + 511) 1023).

Definition get_pixel (width height : Z) (raw : list Z) (x y : Z) : option Z :=
  let x := if x <? 0 then 0 else x in
  let x := if width <=? x then width - 1 else x in
  let y := if y <? 0 then 0 else y in
  let y := if height <=? y then height - 1 else y in
  i ← cint (y * width + x);
  p ← rd raw i;
  Some (extract_raw10 p).

(** The four-way interpolation at [(x, y)]; the same code appears once in the
    RGB/Y pass and once, on [(px, py)], in the chroma pass. *)
Definition v1_demosaic (width height : Z) (raw : list Z) (x y : Z)
    : option (Z * Z * Z) :=
  let row_even := Z.land y 1 =? 0 in
  let col_even := Z.land x 1 =? 0 in
  let get := get_pixel width height raw in
  if row_even && col_even then
    r ← get x y;
    g1 ← get (x - 1) y; g2 ← get (x + 1) y; g3 ← get x (y - 1); g4 ← get x (y + 1);
    b1 ← get (x - 1) (y - 1); b2 ← get (x + 1) (y - 1);
    b3 ← get (x - 1) (y + 1); b4 ← get (x + 1) (y + 1);
    Some (r, u16 (Z.quot (g1 + g2 + g3 + g4) 4), u16 (Z.quot (b1 + b2 + b3 + b4) 4))
  else if row_even && negb col_even then
    g ← get x y;
    r1 ← get (x - 1) y; r2 ← get (x + 1) y;
    b1 ← get x (y - 1); b2 ← get x (y + 1);
    Some (u16 (Z.quot (r1 + r2) 2), g, u16 (Z.quot (b1 + b2) 2))
  else if negb row_even && col_even then
    g ← get x y;
    r1 ← get x (y - 1); r2 ← get x (y + 1);
    b1 ← get (x - 1) y; b2 ← get (x + 1) y;
    Some (u16 (Z.quot (r1 + r2) 2), g, u16 (Z.quot (b1 + b2) 2))
  else
    b ← get x y;
    g1 ← get (x - 1) y; g2 ← get (x + 1) y; g3 ← get x (y - 1); g4 ← get x (y + 1);
    r1 ← get (x - 1) (y - 1); r2 ← get (x + 1) (y - 1);
    r3 ← get (x - 1) (y + 1); r4 ← get (x + 1) (y + 1);
    Some (u16 (Z.quot (r1 + r2 + r3 + r4) 4), u16 (Z.quot (g1 + g2 + g3 + g4) 4), b).

(** One iteration of the RGB/Y pass; [i420], [rgb]: the pointer is not NULL. *)
Definition v1_pixel (width height : Z) (raw : list Z) (i420 rgb : bool) (y x : Z)
    : cmd mem :=
  let* '(r, g, b) := v1_demosaic width height raw x y in
  let r8 := raw10_to_u8 r in
  let g8 := raw10_to_u8 g in
  let b8 := raw10_to_u8 b in
  when rgb
    (let* i := cint ((y * width + x) * 3) in
     let* _ := cint (i + 2) in
     wr BR (i + 0) (u8 r8) ;;; wr BR (i + 1) (u8 g8) ;;; wr BR (i + 2) (u8 b8)) ;;;
  when i420
    (let Y := Z.shiftr (66 * r8 + 129 * g8 + 25 * b8 + 128) 8 + 16 in
     let* i := cint (y * width + x) in
     wr BI i (clamp_u8 Y)).

(** One iteration of the chroma pass. *)
Definition v1_block (width height : Z) (raw : list Z) (y_size uv_size : Z) (y x : Z)
    : cmd mem :=
  let px dx dy := map3 raw10_to_u8 <$> v1_demosaic width height raw (x + dx) (y + dy) in
  let* p00 := px 0 0 in let* p01 := px 1 0 in
  let* p10 := px 0 1 in let* p11 := px 1 1 in
  let '(r_sum, g_sum, b_sum) := add3 (add3 (add3 p00 p01) p10) p11 in
  let r8 := Z.quot r_sum 4 in
  let g8 := Z.quot g_sum 4 in
  let b8 := Z.quot b_sum 4 in
  let U := Z.shiftr (-38 * r8 - 74 * g8 + 112 * b8 + 128) 8 + 128 in
  let V := Z.shiftr (112 * r8 - 94 * g8 - 18 * b8 + 128) 8 + 128 in
  let uv_x := Z.quot x 2 in
  let uv_y := Z.quot y 2 in
  let* i := cint (uv_y * Z.quot width 2 + uv_x) in
  wr BI (y_size + i) (clamp_u8 U) ;;; wr BI (y_size + uv_size + i) (clamp_u8 V).

Definition aloe_rggb10_to_rgb888_i420 (width height : Z) (raw : list Z) : cmd mem :=
  fun m =>
    let hi := nonnull (i420 m) in
    let hr := nonnull (rgb m) in
    (let* y_size := (if hi then cint (width * height) else Some 0) in
     let uv_width := Z.quot width 2 in
     let uv_height := Z.quot height 2 in
     let uv_size := uv_width * uv_height in
     for_ 0 height 1 (fun y =>
       for_ 0 width 1 (fun x => v1_pixel width height raw hi hr y x)) ;;;
     when hi
       (for_ 0 height 2 (fun y =>
          for_ 0 width 2 (fun x => v1_block width height raw y_size uv_size y x)))) m.

(* ------------------------------------------------------------------ *)
(** *** Refinement of the specification *)

Section V1.
Context (w h : Z) (raw : list Z).
Hypothesis Hw : 0 < w.
Hypothesis Hh : 0 < h.
Hypothesis Hraw : raw_ok w h raw.
Hypothesis Hint : w * h * 3 <= INT_MAX.

Definition v1_sample (x y : Z) : Z := extract_raw10 (raw_at w raw x y).

Definition v1_px (x y : Z) : Z * Z * Z :=
  map3 raw10_to_u8 (bilinear w h v1_sample x y).

Lemma v1_sample_bounds x y : 0 <= v1_sample x y <= 1023.
Proof.
  unfold v1_sample, extract_raw10.
  pose proof (land_mask (raw_at w raw x y) 10 ltac:(lia)) as Hm.
  change (Z.ones 10) with 0x03FF in Hm. change (2 ^ 10) with 1024 in Hm.
  rewrite Hm. pose proof (Z.mod_pos_bound (raw_at w raw x y) 1024 ltac:(lia)).
  rewrite u16_id by mlia. lia.
Qed.

Lemma get_pixel_sample x y :
  get_pixel w h raw x y = Some (sample w h v1_sample x y).
Proof.
  destruct Hraw as [Hlen Hf].
  assert (Hx : (let x' := if x <? 0 then 0 else x in
    if w <=? x' then w - 1 else x') = clampc x w).
  { unfold clampc. destruct (Z.ltb_spec x 0); cbn zeta;
      match goal with |- context[?a <=? ?b] => destruct (Z.leb_spec a b) end; lia. }
  assert (Hy : (let y' := if y <? 0 then 0 else y in
    if h <=? y' then h - 1 else y') = clampc y h).
  { unfold clampc. destruct (Z.ltb_spec y 0); cbn zeta;
      match goal with |- context[?a <=? ?b] => destruct (Z.leb_spec a b) end; lia. }
  unfold get_pixel. cbn zeta in *. rewrite Hx, Hy.
  assert (0 <= clampc x w < w) by (unfold clampc; lia).
  assert (0 <= clampc y h < h) by (unfold clampc; lia).
  pose proof (row_bound w h (clampc x w) (clampc y h) ltac:(lia) ltac:(lia)).
  rewrite cint_ok by mlia. cbn. rewrite rd_ix by lia. done.
Qed.

Lemma v1_demosaic_bilinear x y :
  v1_demosaic w h raw x y = Some (bilinear w h v1_sample x y).
Proof.
  unfold v1_demosaic. rewrite !land1_even, bilinear_RGGB.
  assert (Hs : forall x y, 0 <= sample w h v1_sample x y <= 1023)
    by (intros; apply v1_sample_bounds).
  pose proof (Hs (x - 1) y); pose proof (Hs (x + 1) y);
    pose proof (Hs x (y - 1)); pose proof (Hs x (y + 1)).
  pose proof (Hs (x - 1) (y - 1)); pose proof (Hs (x + 1) (y - 1));
    pose proof (Hs (x - 1) (y + 1)); pose proof (Hs (x + 1) (y + 1)).
  destruct (Z.even y), (Z.even x); cbn [andb negb];
    repeat (rewrite get_pixel_sample; cbn [mbind option_bind]);
    rewrite !Z.quot_div_nonneg, !u16_id by (unfold is_u16; first [lia | dlia]); done.
Qed.

Lemma raw10_to_u8_u8 v : is_u8 (raw10_to_u8 v).
Proof. apply u8_range. Qed.

Lemma v1_px_u8 x y : u8px (v1_px x y).
Proof.
  unfold v1_px. destruct (bilinear w h v1_sample x y) as [[r g] b]. cbn.
  split_and!; apply raw10_to_u8_u8.
Qed.

Definition v1_render : render := full_render v1_px u8.

Context (sh : buf -> option Z) (hi hr : bool).
Hypothesis Hsh : forall b n, sh b = Some n -> need w h b <= n.
Hypothesis Hhi : has sh BI hi.
Hypothesis Hhr : has sh BR hr.

#[local] Abbreviation wrs := (writes sh (fun l => l.1 <> BC) (frame_spec w h v1_render)).

Lemma v1_pixel_writes x y :
  in_px w h x y -> wrs (v1_pixel w h raw hi hr y x) (PxSet w hi hr x y).
Proof.
  intros Hp. destruct Hp as [Hx Hy]. pose proof (row_bound w h x y Hx Hy).
  unfold v1_pixel.
  destruct (bilinear w h v1_sample x y) as [[r g] b] eqn:Hb.
  pose proof (v1_demosaic_bilinear x y) as Hd. rewrite Hb in Hd.
  eapply writes_bind; [exact Hd | ]. cbn beta iota.
  apply writes_seq; apply writes_when; intros Hn.
  - destruct (Hhr Hn) as [n Hsn].
    eapply writes_bind; [apply cint_ok; mlia | ].
    eapply writes_bind; [apply cint_ok; mlia | ].
    eapply writes_rgb; try done.
    change (r_px v1_render x y) with (map3 u8 (v1_px x y)). unfold v1_px. by rewrite Hb.
  - destruct (Hhi Hn) as [n Hsn].
    eapply writes_bind; [apply cint_ok; mlia | ].
    eapply writes_y; try done.
    change (r_y v1_render x y) with (luma (v1_px x y)). unfold v1_px, clamp_u8.
    rewrite Hb, clamp255_if. by autorewrite with bt601.
Qed.

Lemma v1_block_writes bx by_ :
  hi = true -> in_blk w h bx by_ ->
  wrs (v1_block w h raw (w * h) (uv_size w h) (2 * by_) (2 * bx)) (ChromaAt w h bx by_).
Proof.
  intros Hn Hp. destruct (Hhi Hn) as [n Hsn].
  pose proof Hp as [Hx Hy]. pose proof (row_bound (uvw w) (h / 2) bx by_ Hx Hy).
  assert (uvw w * (h / 2) <= w * h) by (unfold uvw in *; dnia).
  unfold v1_block. rewrite !Z.add_0_r.
  do 4 (eapply writes_bind; [by rewrite v1_demosaic_bilinear | ]).
  fold (v1_px (2 * bx) (2 * by_)) (v1_px (2 * bx + 1) (2 * by_))
    (v1_px (2 * bx) (2 * by_ + 1)) (v1_px (2 * bx + 1) (2 * by_ + 1)).
  pose proof (block_mean_quot v1_px bx by_ v1_px_u8) as Hm.
  destruct (add3 _ _) as [[rs gs] bs]. cbn [map3] in Hm.
  rewrite !quot2. rewrite Z.quot_div_nonneg by lia.
  eapply writes_bind; [apply cint_ok; fold (uvw w); mlia | ].
  apply writes_seq.
  - eapply writes_u; try done. change (r_u v1_render bx by_) with (chroma_u (block_mean v1_px bx by_)).
    rewrite <- Hm. unfold clamp_u8.
    rewrite clamp255_if. by autorewrite with bt601.
  - eapply writes_v; try done. change (r_v v1_render bx by_) with (chroma_v (block_mean v1_px bx by_)).
    rewrite <- Hm. unfold clamp_u8.
    rewrite clamp255_if. by autorewrite with bt601.
Qed.

Lemma v1_writes :
  Z.even w = true -> Z.even h = true ->
  wrs (for_ 0 h 1 (fun y => for_ 0 w 1 (fun x => v1_pixel w h raw hi hr y x)) ;;;
     when hi (for_ 0 h 2 (fun y => for_ 0 w 2 (fun x =>
       v1_block w h raw (w * h) (uv_size w h) y x))))
  (FrameSet w h hi hr).
Proof.
  intros Hew Heh. apply two_pass_writes; [done | by apply v1_pixel_writes | ].
  intros Hn bx by_. by apply v1_block_writes.
Qed.
End V1.

Lemma v1_runs w h raw m :
  0 < w -> 0 < h -> Z.even w = true -> Z.even h = true ->
  raw_ok w h raw -> w * h * 3 <= INT_MAX -> fits w h m ->
  runs w h (v1_render w h raw) (aloe_rggb10_to_rgb888_i420 w h raw) m.
Proof.
  intros Hw Hh Hew Heh Hraw Hint Hfit.
  assert (0 < w * h) by nia. assert (Hq : Z.quot w 2 = uvw w) by (unfold uvw; dlia).
  assert (Hq' : Z.quot h 2 = h / 2) by dlia.
  pose proof (v1_writes w h raw Hw Hh Hraw Hint (fun b => blen b m)
    (nonnull (i420 m)) (nonnull (rgb m)) Hfit (has_i420 m) (has_rgb m) Hew Heh) as Hv.
  refine (writes_bind _ _ _ _ (if nonnull (i420 m) then w * h else 0) _ _ _ _ m _).
  - destruct (nonnull (i420 m)); [apply cint_ok; mlia | done].
  - cbv zeta. rewrite Hq, Hq'. unfold uv_size in Hv. by destruct (nonnull (i420 m)).
  - done.
Qed.

(** C1: on even dimensions the reference converter never leaves its buffers
    (nor overflows an [int]) and stores exactly the bilinear demosaic, scaled
    to 8 bits by [raw10_to_u8], and its BT.601 I420 frame. *)
Theorem v1_refines w h raw m :
  0 < w -> 0 < h -> Z.even w = true -> Z.even h = true ->
  raw_ok w h raw -> w * h * 3 <= INT_MAX -> fits w h m ->
  exists m', aloe_rggb10_to_rgb888_i420 w h raw m = Some m' /\
    renders w h (v1_render w h raw) m m'.
Proof. intros. apply runs_renders; [done.. | by apply v1_runs]. Qed.

(* ------------------------------------------------------------------ *)
(** ** aloe_rggb10_to_rgb888_i420_v2 *)

Definition clamp_u8_int (v : Z) : Z :=
  if v <? 0 then 0 else if 255 <? v then 255 else u8 v.

(** [raw10_to_u8_fast]; the converter itself spells out [(v + 2) >> 2] on
    [int], without the cast. *)
Definition raw10_to_u8_fast (v : Z) : Z := u8 (Z.shiftr (v + 2) 2).

Definition round8 (v : Z) : Z := Z.shiftr (v + 2) 2.

(** The four pixels of the 2x2 block at [(x, y)], 8-bit scaled but not yet
    cast; reads go through the four replicated row pointers. *)
Definition v2_demosaic (width height : Z) (raw : list Z) (y x : Z)
    : option ((Z * Z * Z) * (Z * Z * Z) * (Z * Z * Z) * (Z * Z * Z)) :=
  let y0 := y in
  let y1 := if y + 1 <? height then y + 1 else y in
  let row_m1 i := rd raw ((if 0 <? y0 then (y0 - 1) * width else y0 * width) + i) in
  let row_0 i := rd raw (y0 * width + i) in
  let row_1 i := rd raw (y1 * width + i) in
  let row_p2 i := if y + 2 <? height then rd raw ((y + 2) * width + i) else row_1 i in
  let xm1 := if 0 <? x then x - 1 else x in
  let xp1 := if x + 1 <? width then x + 1 else x in
  let xp2 := if x + 2 <? width then x + 2 else xp1 in
  r0 ← row_0 x;
  g0 ← osum [row_0 xm1; row_0 xp1; row_m1 x; row_1 x];
  b0 ← osum [row_m1 xm1; row_m1 xp1; row_1 xm1; row_1 xp1];
  g1 ← row_0 xp1;
  r1 ← osum [row_0 x; row_0 xp2];
  b1 ← osum [row_m1 xp1; row_1 xp1];
  g2 ← row_1 x;
  r2 ← osum [row_0 x; row_p2 x];
  b2 ← osum [row_1 xm1; row_1 xp1];
  b3 ← row_1 xp1;
  g3 ← osum [row_1 x; row_1 xp2; row_0 xp1; row_p2 xp1];
  r3 ← osum [row_0 x; row_0 xp2; row_p2 x; row_p2 xp2];
  let p0 := map3 round8 (r0, Z.shiftr g0 2, Z.shiftr b0 2) in
  let p1 := map3 round8 (Z.shiftr r1 1, g1, Z.shiftr b1 1) in
  let p2 := map3 round8 (Z.shiftr r2 1, g2, Z.shiftr b2 1) in
  let p3 := map3 round8 (Z.shiftr r3 2, Z.shiftr g3 2, b3) in
  Some (p0, p1, p2, p3).

(** [p[0] = (uint8_t)r; p[1] = (uint8_t)g; p[2] = (uint8_t)b]. *)
Definition v2_put_rgb (i : Z) (p : Z * Z * Z) : cmd mem :=
  let '(r, g, b) := p in
  wr BR (i + 0) (u8 r) ;;; wr BR (i + 1) (u8 g) ;;; wr BR (i + 2) (u8 b).

Definition v2_luma (p : Z * Z * Z) : Z :=
  let '(r, g, b) := p in
  clamp_u8_int (Z.shiftr (66 * r + 129 * g + 25 * b + 128) 8 + 16).

(** One iteration of the block loop. *)
Definition v2_block (width height : Z) (raw : list Z) (i420 rgb : bool) (y x : Z)
    : cmd mem :=
  let uv_width := Z.shiftr width 1 in
  let y_size := width * height in
  let uv_size := uv_width * Z.shiftr height 1 in
  let y0 := y in
  let y1 := if y + 1 <? height then y + 1 else y in
  let* '(p0, p1, p2, p3) := v2_demosaic width height raw y x in
  when rgb
    (v2_put_rgb (y0 * width * 3 + x * 3) p0 ;;;
     v2_put_rgb (y0 * width * 3 + x * 3 + 3) p1 ;;;
     v2_put_rgb (y1 * width * 3 + x * 3) p2 ;;;
     v2_put_rgb (y1 * width * 3 + x * 3 + 3) p3) ;;;
  when i420
    (wr BI (y0 * width + x) (v2_luma p0) ;;;
     wr BI (y0 * width + (x + 1)) (v2_luma p1) ;;;
     wr BI (y1 * width + x) (v2_luma p2) ;;;
     wr BI (y1 * width + (x + 1)) (v2_luma p3)) ;;;
  when i420
    (let '(r_sum, g_sum, b_sum) := add3 (add3 (add3 p0 p1) p2) p3 in
     let r_avg := Z.shiftr r_sum 2 in
     let g_avg := Z.shiftr g_sum 2 in
     let b_avg := Z.shiftr b_sum 2 in
     let U := Z.shiftr (-38 * r_avg - 74 * g_avg + 112 * b_avg + 128) 8 + 128 in
     let V := Z.shiftr (112 * r_avg - 94 * g_avg - 18 * b_avg + 128) 8 + 128 in
     let uv_x := Z.shiftr x 1 in
     let uv_row := Z.shiftr y 1 * uv_width in
     wr BI (y_size + (uv_row + uv_x)) (clamp_u8_int U) ;;;
     wr BI (y_size + uv_size + (uv_row + uv_x)) (clamp_u8_int V)).

(** [raw = None] is a NULL pointer. *)
Definition aloe_rggb10_to_rgb888_i420_v2 (width height : Z) (raw : option (list Z))
    : cmd mem :=
  fun m =>
    match raw with
    | None => Some m
    | Some raw =>
        if (width <=? 0) || (height <=? 0) then Some m
        else if negb (Z.land width 1 =? 0) || negb (Z.land height 1 =? 0) then Some m
        else for_ 0 height 2 (fun y => for_ 0 width 2 (fun x =>
               v2_block width height raw (nonnull (i420 m)) (nonnull (rgb m)) y x)) m
    end.

Section V2.
Context (w h : Z) (raw : list Z).
Hypothesis Hw : 0 < w.
Hypothesis Hh : 0 < h.
Hypothesis Hew : Z.even w = true.
Hypothesis Heh : Z.even h = true.
Hypothesis Hraw : raw_ok w h raw.

Definition v2_px (x y : Z) : Z * Z * Z :=
  map3 round8 (bilinear w h (raw_at w raw) x y).

Definition v2_render : render := full_render v2_px u8.

Lemma v2_demosaic_bilinear bx by_ :
  in_blk w h bx by_ ->
  v2_demosaic w h raw (2 * by_) (2 * bx) =
  Some (v2_px (2 * bx) (2 * by_), v2_px (2 * bx + 1) (2 * by_),
        v2_px (2 * bx) (2 * by_ + 1), v2_px (2 * bx + 1) (2 * by_ + 1)).
Proof.
  intros Hp. pose proof (blk_in w h bx by_ 0 0 Hew Heh Hp ltac:(lia) ltac:(lia)) as [Hx Hy].
  pose proof (blk_in w h bx by_ 1 1 Hew Heh Hp ltac:(lia) ltac:(lia)) as [Hx1 Hy1].
  rewrite !Z.add_0_r in *.
  set (x := 2 * bx) in *. set (y := 2 * by_) in *.
  assert (Ex : Z.even x = true) by apply even_2x_r.
  assert (Ey : Z.even y = true) by apply even_2x_r.
  set (S := sample w h (raw_at w raw)).
  assert (Hrd : forall x' y', rd raw (clampc y' h * w + clampc x' w) = Some (S x' y'))
    by (intros; by apply rd_sample).
  assert (R0 : forall x', rd raw (y * w + clampc x' w) = Some (S x' y))
    by (intros; by rewrite <- Hrd, (clampc_in y h)).
  assert (Rm : forall x', rd raw ((if 0 <? y then (y - 1) * w else y * w) + clampc x' w)
    = Some (S x' (y - 1))).
  { intros. rewrite <- Hrd, <- (clampc_m1 y h) by done. by destruct (0 <? y). }
  assert (Rp : forall x', (if y + 2 <? h then rd raw ((y + 2) * w + clampc x' w)
    else rd raw (clampc (y + 1) h * w + clampc x' w)) = Some (S x' (y + 2))).
  { intros. rewrite <- Hrd, <- (clampc_p2 y h) by done. by destruct (y + 2 <? h). }
  pose proof (R0 x) as R0x; pose proof (Rm x) as Rmx; pose proof (Rp x) as Rpx;
    pose proof (Hrd x (y + 1)) as R1x.
  rewrite (clampc_in x w) in R0x, Rmx, Rpx, R1x by done.
  unfold v2_demosaic. cbv zeta.
  rewrite (clampc_m1 x w Hx), (clampc_p1 x w Hx), (clampc_p2 x w Hx), (clampc_p1 y h Hy).
  rewrite ?R0x, ?Rmx, ?Rpx, ?R1x, ?R0, ?Rm, ?Rp, ?Hrd.
  cbn [osum mbind option_bind]. unfold v2_px. rewrite !bilinear_RGGB.
  rewrite !Z.even_add, Ex, Ey. cbn [Bool.eqb Z.even]. fold S.
  rewrite !Z.add_simpl_r, <- !Z.add_assoc. change (1 + 1) with 2.
  rewrite !shr_div by lia. repeat f_equal; lia.
Qed.

(** The samples stay below 1024, but the rounded 8-bit values reach 256. *)
Definition raw10_ok : Prop := Forall (fun v => 0 <= v < 1024) raw.

Lemma v2_px_bounds x y :
  raw10_ok -> let '(r, g, b) := v2_px x y in
  0 <= r <= 256 /\ 0 <= g <= 256 /\ 0 <= b <= 256.
Proof.
  intros Hok. unfold v2_px.
  pose proof (bilinear_bounds w h (raw_at w raw) 1023 x y) as Hb.
  destruct (bilinear _ _ _ _ _) as [[r g] b]. destruct Hb as (? & ? & ?).
  { intros. unfold raw_at.
    apply (ix_Forall (fun v => 0 <= v <= 1023)); [lia | ].
    eapply Forall_impl; [exact Hok | ]. cbn. lia. }
  cbn. unfold round8. rewrite !shr_div by lia. refine (conj _ (conj _ _)); dlia.
Qed.

Context (sh : buf -> option Z) (hi hr : bool).
Hypothesis Hsh : forall b n, sh b = Some n -> need w h b <= n.
Hypothesis Hhi : has sh BI hi.
Hypothesis Hhr : has sh BR hr.

#[local] Abbreviation wrs := (writes sh (fun l => l.1 <> BC) (frame_spec w h v2_render)).

Lemma v2_put_rgb_writes i x y :
  hr = true -> in_px w h x y -> i = (y * w + x) * 3 ->
  wrs (v2_put_rgb i (v2_px x y)) (RgbAt w x y).
Proof.
  intros Hn Hp ->. destruct (Hhr Hn) as [n Hsn]. unfold v2_put_rgb.
  destruct (v2_px x y) as [[r g] b] eqn:He.
  eapply writes_rgb; try done.
  change (r_px v2_render x y) with (map3 u8 (v2_px x y)). by rewrite He.
Qed.

Lemma v2_luma_writes i x y :
  hi = true -> in_px w h x y -> i = y * w + x ->
  wrs (wr BI i (v2_luma (v2_px x y))) (fun l => l = at_y w x y).
Proof.
  intros Hn Hp ->. destruct (Hhi Hn) as [n Hsn].
  eapply writes_y; try done.
  change (r_y v2_render x y) with (luma (v2_px x y)). unfold v2_luma.
  destruct (v2_px x y) as [[r g] b]. unfold clamp_u8_int.
  rewrite clamp255_if. by autorewrite with bt601.
Qed.

Lemma v2_block_writes bx by_ :
  in_blk w h bx by_ ->
  wrs (v2_block w h raw hi hr (2 * by_) (2 * bx)) (BlockSet w h hi hr bx by_).
Proof.
  intros Hp.
  pose proof (blk_in w h bx by_ 0 0 Hew Heh Hp ltac:(lia) ltac:(lia)) as P00.
  pose proof (blk_in w h bx by_ 1 0 Hew Heh Hp ltac:(lia) ltac:(lia)) as P10.
  pose proof (blk_in w h bx by_ 0 1 Hew Heh Hp ltac:(lia) ltac:(lia)) as P01.
  pose proof (blk_in w h bx by_ 1 1 Hew Heh Hp ltac:(lia) ltac:(lia)) as P11.
  unfold v2_block. cbv zeta.
  assert (Hy1 : (if 2 * by_ + 1 <? h then 2 * by_ + 1 else 2 * by_) = 2 * by_ + 1).
  { destruct P11 as [_ ?]. by rewrite (proj2 (Z.ltb_lt _ _)) by lia. }
  rewrite Hy1, !shr1, !double_div. fold (uvw w).
  eapply writes_bind; [by apply v2_demosaic_bilinear | ]. cbn beta iota.
  rewrite !Z.add_0_r in *.
  eapply writes_iff.
  - apply writes_seq; [ | apply writes_seq]; apply writes_when; intros Hn.
    + apply writes_seq; [ | apply writes_seq; [ | apply writes_seq]];
        apply v2_put_rgb_writes; try done; lia.
    + apply writes_seq; [ | apply writes_seq; [ | apply writes_seq]];
        apply v2_luma_writes; try done; lia.
    + destruct (Hhi Hn) as [n Hsn].
      pose proof (eq_refl (block_mean v2_px bx by_)) as Hm. unfold block_mean at 1 in Hm.
      destruct (add3 _ _) as [[rs gs] bs]. cbn [map3] in Hm.
      rewrite <- !(shr_div _ 2) in Hm by lia.
      apply writes_seq; [eapply writes_u | eapply writes_v]; try done;
        unfold clamp_u8_int; rewrite clamp255_if; autorewrite with bt601; by rewrite Hm.
  - intros l _. by apply block_set_iff.
Qed.
End V2.

Lemma v2_runs w h raw m :
  0 < w -> 0 < h -> Z.even w = true -> Z.even h = true ->
  raw_ok w h raw -> fits w h m ->
  runs w h (v2_render w h raw) (aloe_rggb10_to_rgb888_i420_v2 w h (Some raw)) m.
Proof.
  intros Hw Hh Hew Heh Hraw Hfit. unfold runs, writes_at, aloe_rggb10_to_rgb888_i420_v2.
  rewrite !land1_even, Hew, Heh.
  rewrite (proj2 (Z.leb_gt w 0)), (proj2 (Z.leb_gt h 0)) by lia. cbn [orb negb].
  apply (blocks_writes w h (fun b => blen b m) (v2_render w h raw)); [done.. | | done].
  intros bx by_ Hp.
  apply v2_block_writes; eauto with mach.
Qed.

(** The 2x2-block converter, on even dimensions, stores the bilinear
    demosaic of the samples with the cheaper 8-bit scaling [(v + 2) >> 2]. *)
Theorem v2_refines w h raw m :
  0 < w -> 0 < h -> Z.even w = true -> Z.even h = true ->
  raw_ok w h raw -> fits w h m ->
  exists m', aloe_rggb10_to_rgb888_i420_v2 w h (Some raw) m = Some m' /\
    renders w h (v2_render w h raw) m m'.
Proof. intros. apply runs_renders; [done.. | by apply v2_runs]. Qed.

(** A NULL frame, an empty one or one with an odd side is rejected: the
    buffers stay as they are. *)
Theorem v2_rejects w h raw m :
  raw = None \/ w <= 0 \/ h <= 0 \/ Z.odd w = true \/ Z.odd h = true ->
  aloe_rggb10_to_rgb888_i420_v2 w h raw m = Some m.
Proof.
  intros Hbad. unfold aloe_rggb10_to_rgb888_i420_v2. destruct raw as [raw|]; [ | done].
  destruct ((w <=? 0) || (h <=? 0)) eqn:E; [done | ].
  apply orb_false_iff in E as [?%Z.leb_gt ?%Z.leb_gt].
  rewrite !land1_even, !Z.negb_even.
  destruct Hbad as [|[?|[?|[->| ->]]]]; [done | lia | lia | done | by rewrite orb_true_r].
Qed.

(* ------------------------------------------------------------------ *)
(** ** The two scalings *)

Lemma scale_near v : 0 <= v <= 1021 -> Z.abs (raw10_to_u8 v - round8 v) <= 1 /\ 0 <= round8 v <= 255.
Proof.
  intros Hv. unfold raw10_to_u8, round8. rewrite shr_div, Z.quot_div_nonneg by lia.
  change (2 ^ 2) with 4. rewrite u8_id; [dlia | unfold is_u8; dlia].
Qed.

Section Near.
Context (w h : Z) (raw : list Z).
Hypothesis Hok : Forall (fun v => 0 <= v <= 1021) raw.

Lemma near_samples x y : v1_sample w raw x y = raw_at w raw x y.
Proof.
  assert (Hb : 0 <= raw_at w raw x y <= 1021).
  { unfold raw_at. apply (ix_Forall (fun v => 0 <= v <= 1021)); [lia | done]. }
  unfold v1_sample, extract_raw10.
  pose proof (land_mask (raw_at w raw x y) 10 ltac:(lia)) as Hm.
  change (Z.ones 10) with 0x03FF in Hm. change (2 ^ 10) with 1024 in Hm.
  rewrite Hm, Z.mod_small, u16_id by mlia. done.
Qed.

(** Per channel, the two pixels differ by at most one and neither wraps. *)
Definition near3 (p q : Z * Z * Z) : Prop :=
  let '(r, g, b) := p in let '(r', g', b') := q in
  Z.abs (r - r') <= 1 /\ Z.abs (g - g') <= 1 /\ Z.abs (b - b') <= 1.

Lemma px_near x y : 0 < w -> 0 < h ->
  near3 (v1_px w h raw x y) (v2_px w h raw x y) /\
  u8px (v1_px w h raw x y) /\ u8px (v2_px w h raw x y).
Proof.
  intros Hw Hh. unfold v1_px, v2_px.
  rewrite (estimate_ext w h _ (raw_at w raw)) by (done || intros; apply near_samples).
  pose proof (bilinear_bounds w h (raw_at w raw) 1021 x y) as Hb.
  destruct (bilinear _ _ _ _ _) as [[r g] b]. destruct Hb as (Hr & Hg & Hb).
  { intros. unfold raw_at. apply (ix_Forall (fun v => 0 <= v <= 1021)); [lia | done]. }
  pose proof (scale_near r Hr). pose proof (scale_near g Hg). pose proof (scale_near b Hb).
  cbn. pose proof (u8_range (Z.quot (r * 255 + 511) 1023)).
  unfold is_u8. split_and!; try apply raw10_to_u8_u8; lia.
Qed.

Lemma luma_near p q : near3 p q -> u8px p -> u8px q -> Z.abs (luma p - luma q) <= 1.
Proof.
  destruct p as [[r g] b], q as [[r' g'] b']. cbn. unfold is_u8, clamp255.
  intros. dlia.
Qed.

Lemma chroma_near p q : near3 p q -> u8px p -> u8px q ->
  Z.abs (chroma_u p - chroma_u q) <= 1 /\ Z.abs (chroma_v p - chroma_v q) <= 1.
Proof.
  destruct p as [[r g] b], q as [[r' g'] b']. cbn. unfold is_u8, clamp255.
  intros. split; dlia.
Qed.

Lemma block_mean_near px px' bx by_ :
  (forall x y, near3 (px x y) (px' x y)) ->
  near3 (block_mean px bx by_) (block_mean px' bx by_).
Proof.
  intros Hn. unfold block_mean.
  pose proof (Hn (2 * bx) (2 * by_)). pose proof (Hn (2 * bx + 1) (2 * by_)).
  pose proof (Hn (2 * bx) (2 * by_ + 1)). pose proof (Hn (2 * bx + 1) (2 * by_ + 1)).
  destruct (px (2 * bx) (2 * by_)) as [[? ?] ?], (px (2 * bx + 1) (2 * by_)) as [[? ?] ?],
    (px (2 * bx) (2 * by_ + 1)) as [[? ?] ?], (px (2 * bx + 1) (2 * by_ + 1)) as [[? ?] ?],
    (px' (2 * bx) (2 * by_)) as [[? ?] ?], (px' (2 * bx + 1) (2 * by_)) as [[? ?] ?],
    (px' (2 * bx) (2 * by_ + 1)) as [[? ?] ?], (px' (2 * bx + 1) (2 * by_ + 1)) as [[? ?] ?].
  cbn in *. refine (conj _ (conj _ _)); dlia.
Qed.

Lemma renders_near : 0 < w -> 0 < h -> near 1 (v1_render w h raw) (v2_render w h raw).
Proof.
  intros Hw Hh.
  assert (Hp : forall x y, near3 (v1_px w h raw x y) (v2_px w h raw x y)
    /\ u8px (v1_px w h raw x y) /\ u8px (v2_px w h raw x y))
    by (intros; by apply px_near).
  intros x y. split; [intros c | split; [ | split]].
  - change (Z.abs (comp c (map3 u8 (v1_px w h raw x y)) -
      comp c (map3 u8 (v2_px w h raw x y))) <= 1).
    destruct (Hp x y) as (Hn & H1 & H2).
    destruct (v1_px w h raw x y) as [[r g] b], (v2_px w h raw x y) as [[r' g'] b'].
    destruct H1 as (? & ? & ?), H2 as (? & ? & ?), Hn as (? & ? & ?).
    cbn. rewrite !u8_id by done. repeat case_match; lia.
  - by apply luma_near; apply Hp.
  - apply chroma_near; [apply block_mean_near | apply block_mean_u8 ..]; apply Hp.
  - apply chroma_near; [apply block_mean_near | apply block_mean_u8 ..]; apply Hp.
Qed.
End Near.

(** On samples up to 1021 the two converters agree to within one in every
    byte they store. *)
Theorem v2_near_v1 w h raw m :
  0 < w -> 0 < h -> Z.even w = true -> Z.even h = true ->
  Z.of_nat (length raw) = w * h -> Forall (fun v => 0 <= v <= 1021) raw ->
  w * h * 3 <= INT_MAX -> fits w h m ->
  exists m1 m2, aloe_rggb10_to_rgb888_i420 w h raw m = Some m1 /\
    aloe_rggb10_to_rgb888_i420_v2 w h (Some raw) m = Some m2 /\ near_mem 1 m1 m2.
Proof.
  intros Hw Hh Hew Heh Hl Hf Hint Hfit.
  assert (raw_ok w h raw).
  { split; [done | ]. eapply Forall_impl; [exact Hf | ]. unfold is_u16. cbn. lia. }
  apply (runs_near w h 1 (v1_render w h raw) (v2_render w h raw));
    [lia | by apply renders_near | by apply v1_runs | by apply v2_runs].
Qed.

Lemma white_px w h raw x y c :
  0 < w -> 0 < h -> raw_ok w h raw -> Forall (fun v => 1022 <= v <= 1023) raw ->
  0 <= c < 3 ->
  comp c (r_px (v1_render w h raw) x y) = 255 /\
  comp c (r_px (v2_render w h raw) x y) = 0.
Proof.
  intros Hw Hh Hraw Hf Hc.
  change (comp c (map3 u8 (v1_px w h raw x y)) = 255 /\
          comp c (map3 u8 (v2_px w h raw x y)) = 0).
  unfold v1_px, v2_px.
  assert (Hm : forall v, 1022 <= v <= 1023 ->
    u8 (raw10_to_u8 v) = 255 /\ u8 (round8 v) = 0 /\ extract_raw10 v = v).
  { intros v Hv. assert (v = 1022 \/ v = 1023) as [->| ->] by lia; by vm_compute. }
  assert (Hs : forall x y, 1022 <= sample w h (raw_at w raw) x y <= 1023)
    by (intros; by apply (sample_Forall (fun v => 1022 <= v <= 1023))).
  assert (Hs1 : forall x y, 1022 <= sample w h (v1_sample w raw) x y <= 1023).
  { intros x' y'. change (1022 <= extract_raw10 (sample w h (raw_at w raw) x' y') <= 1023).
    by rewrite (proj2 (proj2 (Hm _ (Hs x' y')))). }
  pose proof (bilinear_between w h _ 1022 1023 x y Hs) as H2.
  pose proof (bilinear_between w h _ 1022 1023 x y Hs1) as H1.
  destruct (bilinear _ _ _ _ _) as [[r g] b], (bilinear w h (raw_at w raw) x y) as [[r' g'] b'].
  destruct H1 as (?%Hm & ?%Hm & ?%Hm), H2 as (?%Hm & ?%Hm & ?%Hm).
  cbn. repeat case_match; tauto.
Qed.

(** On a white frame (every sample 1022 or 1023) they do not: every RGB
    byte of the reference is 255 and every one of the 2x2-block converter is
    0, the cast having wrapped 256. *)
Theorem v2_white_wraps w h raw m :
  0 < w -> 0 < h -> Z.even w = true -> Z.even h = true ->
  raw_ok w h raw -> Forall (fun v => 1022 <= v <= 1023) raw ->
  w * h * 3 <= INT_MAX -> fits w h m -> rgb m <> None ->
  exists m1 m2, aloe_rggb10_to_rgb888_i420 w h raw m = Some m1 /\
    aloe_rggb10_to_rgb888_i420_v2 w h (Some raw) m = Some m2 /\
    forall x y c, in_px w h x y -> 0 <= c < 3 ->
      at_ m1 (at_rgb w x y c) = Some 255 /\ at_ m2 (at_rgb w x y c) = Some 0.
Proof.
  intros Hw Hh Hew Heh Hraw Hf Hint Hfit Hr.
  destruct (runs_renders w h Hw Hh _ _ _ (v1_runs w h raw m Hw Hh Hew Heh Hraw Hint Hfit))
    as (m1 & E1 & R1).
  destruct (runs_renders w h Hw Hh _ _ _ (v2_runs w h raw m Hw Hh Hew Heh Hraw Hfit))
    as (m2 & E2 & R2).
  exists m1, m2. split_and!; [done.. | ]. intros x y c Hp Hc.
  destruct (white_px w h raw x y c Hw Hh Hraw Hf Hc) as [W1 W2].
  by rewrite (rn_rgb _ _ _ _ _ R1), (rn_rgb _ _ _ _ _ R2), W1, W2.
Qed.

(* ------------------------------------------------------------------ *)
(** ** Witnesses: a 2x2 frame *)

Definition raw22 : list Z := [100; 612; 400; 1021].
Definition white22 : list Z := [1023; 1022; 1022; 1023].
Definition mem22 : mem := Mem (Some (replicate 6 7)) (Some (replicate 13 9)) None.

Lemma fits22 : fits 2 2 mem22.
Proof. intros [] n; cbn; intros [= <-]; done. Defined.

Lemma raw_ok22 : raw_ok 2 2 raw22.
Proof. split; [done | ]. unfold raw22, is_u16. repeat constructor; lia. Defined.

Lemma white_ok22 : raw_ok 2 2 white22.
Proof. split; [done | ]. unfold white22, is_u16. repeat constructor; lia. Defined.

Lemma v1_refines_witness :
  aloe_rggb10_to_rgb888_i420 2 2 raw22 mem22 =
    Some (Mem (Some [74; 136; 100; 171; 163; 101])
              (Some [25; 76; 133; 89; 153; 203; 62; 100; 177; 133; 190; 255; 9]) None) /\
  exists m', aloe_rggb10_to_rgb888_i420 2 2 raw22 mem22 = Some m' /\
    renders 2 2 (v1_render 2 2 raw22) mem22 m'.
Proof.
  split; [by vm_compute | ].
  apply (v1_refines 2 2 raw22 mem22 ltac:(lia) ltac:(lia) eq_refl eq_refl raw_ok22
    ltac:(done) fits22).
Defined.

Lemma v2_refines_witness :
  exists m', aloe_rggb10_to_rgb888_i420_v2 2 2 (Some raw22) mem22 = Some m' /\
    renders 2 2 (v2_render 2 2 raw22) mem22 m'.
Proof.
  apply (v2_refines 2 2 raw22 mem22 ltac:(lia) ltac:(lia) eq_refl eq_refl raw_ok22 fits22).
Defined.

Lemma v2_rejects_witness :
  aloe_rggb10_to_rgb888_i420_v2 3 2 (Some raw22) mem22 = Some mem22.
Proof. apply (v2_rejects 3 2 (Some raw22) mem22). tauto. Defined.

Lemma v2_near_v1_witness :
  exists m1 m2, aloe_rggb10_to_rgb888_i420 2 2 raw22 mem22 = Some m1 /\
    aloe_rggb10_to_rgb888_i420_v2 2 2 (Some raw22) mem22 = Some m2 /\ near_mem 1 m1 m2.
Proof.
  apply (v2_near_v1 2 2 raw22 mem22 ltac:(lia) ltac:(lia) eq_refl eq_refl eq_refl);
    [unfold raw22; repeat constructor; lia | done | apply fits22].
Defined.

Lemma v2_white_wraps_witness :
  exists m1 m2, aloe_rggb10_to_rgb888_i420 2 2 white22 mem22 = Some m1 /\
    aloe_rggb10_to_rgb888_i420_v2 2 2 (Some white22) mem22 = Some m2 /\
    forall x y c, in_px 2 2 x y -> 0 <= c < 3 ->
      at_ m1 (at_rgb 2 x y c) = Some 255 /\ at_ m2 (at_rgb 2 x y c) = Some 0.
Proof.
  apply (v2_white_wraps 2 2 white22 mem22 ltac:(lia) ltac:(lia) eq_refl eq_refl white_ok22);
    [unfold white22; repeat constructor; lia | done | apply fits22 | done].
Defined.
