(* ===== verification/BayerSimd.v ===== *)
(** BayerSimd: package/aloe/simd/rggb10_rgb888_i420_simd.cpp, the converter
    behind [aloe_rggb10_to_rgb888_i420_simd]: the scalar fallback, the NEON
    kernel (vectors as lists of 16-bit lanes) with its driver, the AVX2
    helpers, and the dispatch on the build's vector unit. *)

From S2P Require Import Prelude Frame Bayer.

Local Open Scope cmd_scope.

(* ------------------------------------------------------------------ *)
(** ** Common helpers *)

Definition clamp_u8 (v : Z) : Z :=
  if v <? 0 then 0 else if 255 <? v then 255 else u8 v.

Definition raw10_to_u8 (v : Z) : Z := u8 (Z.shiftr (v + 2) 2).

Definition rgb_to_y (r g b : Z) : Z :=
  let y := Z.shiftr (66 * r + 129 * g + 25 * b + 128) 8 + 16 in clamp_u8 y.

Definition rgb_to_u (r g b : Z) : Z :=
  let u := Z.shiftr (-38 * r - 74 * g + 112 * b + 128) 8 + 128 in clamp_u8 u.

Definition rgb_to_v (r g b : Z) : Z :=
  let v := Z.shiftr (112 * r - 94 * g - 18 * b + 128) 8 + 128 in clamp_u8 v.

(** The row pointers are offsets into [raw]; each dereference is checked. *)
Definition demosaic_rggb10_pixel (raw : list Z) (width height x y : Z)
    : option (Z * Z * Z) :=
  let xm1 := if 0 <? x then x - 1 else 0 in
  let xp1 := if x + 1 <? width then x + 1 else width - 1 in
  let ym1 := if 0 <? y then y - 1 else 0 in
  let yp1 := if y + 1 <? height then y + 1 else height - 1 in
  let row_m1 i := rd raw (ym1 * width + i) in
  let row i := rd raw (y * width + i) in
  let row_p1 i := rd raw (yp1 * width + i) in
  let even_y := Z.land y 1 =? 0 in
  let even_x := Z.land x 1 =? 0 in
  if even_y && even_x then
    r ← row x;
    g ← osum [row xm1; row xp1; row_m1 x; row_p1 x];
    b ← osum [row_m1 xm1; row_m1 xp1; row_p1 xm1; row_p1 xp1];
    Some (r, Z.shiftr g 2, Z.shiftr b 2)
  else if even_y && negb even_x then
    g ← row x;
    r ← osum [row xm1; row xp1];
    b ← osum [row_m1 x; row_p1 x];
    Some (Z.shiftr r 1, g, Z.shiftr b 1)
  else if negb even_y && even_x then
    g ← row x;
    r ← osum [row_m1 x; row_p1 x];
    b ← osum [row xm1; row xp1];
    Some (Z.shiftr r 1, g, Z.shiftr b 1)
  else
    b ← row x;
    g ← osum [row xm1; row xp1; row_m1 x; row_p1 x];
    r ← osum [row_m1 xm1; row_m1 xp1; row_p1 xm1; row_p1 xp1];
    Some (Z.shiftr r 2, Z.shiftr g 2, b).

(** A demosaiced pixel as the converters use it: [raw10_to_u8((uint16_t)r)]. *)
Definition pixel8 (raw : list Z) (width height x y : Z) : option (Z * Z * Z) :=
  map3 (fun v => raw10_to_u8 (u16 v)) <$> demosaic_rggb10_pixel raw width height x y.

Definition put_rgb (i : Z) (p : Z * Z * Z) : cmd mem :=
  let '(r, g, b) := p in
  wr BR (i + 0) (u8 r) ;;; wr BR (i + 1) (u8 g) ;;; wr BR (i + 2) (u8 b).

Definition uv_size_ (width height : Z) : Z := Z.shiftr width 1 * Z.shiftr height 1.

(** [u_row[j] = rgb_to_u(..); v_row[j] = rgb_to_v(..)], the rows of block row
    [y >> 1]. *)
Definition put_uv (width height y j : Z) (avg : Z * Z * Z) : cmd mem :=
  let uv_width := Z.shiftr width 1 in
  let '(r, g, b) := avg in
  let row := width * height + Z.shiftr y 1 * uv_width in
  wr BI (row + j) (rgb_to_u r g b) ;;;
  wr BI (row + uv_size_ width height + j) (rgb_to_v r g b).

(** The truncated mean of four pixels, [r_sum >> 2]. *)
Definition avg4 (p00 p01 p10 p11 : Z * Z * Z) : Z * Z * Z :=
  map3 (fun s => Z.shiftr s 2) (add3 (add3 (add3 p00 p01) p10) p11).

(* ------------------------------------------------------------------ *)
(** ** Scalar implementation *)

Definition scalar_pixel (width height : Z) (raw : list Z) (i420 rgb : bool) (y x : Z)
    : cmd mem :=
  let* '(r8, g8, b8) := pixel8 raw width height x y in
  when rgb (put_rgb (y * width * 3 + x * 3) (r8, g8, b8)) ;;;
  when i420 (wr BI (y * width + x) (rgb_to_y r8 g8 b8)).

Definition scalar_block (width height : Z) (raw : list Z) (y x : Z) : cmd mem :=
  let px dx dy := pixel8 raw width height (x + dx) (y + dy) in
  let* p00 := px 0 0 in let* p01 := px 1 0 in
  let* p10 := px 0 1 in let* p11 := px 1 1 in
  put_uv width height y (Z.shiftr x 1) (avg4 p00 p01 p10 p11).

Definition aloe_rggb10_to_rgb888_i420_scalar (width height : Z) (raw : list Z)
    : cmd mem :=
  fun m =>
    let hi := nonnull (i420 m) in
    let hr := nonnull (rgb m) in
    (for_ 0 height 1 (fun y =>
       for_ 0 width 1 (fun x => scalar_pixel width height raw hi hr y x)) ;;;
     when hi
       (for_ 0 height 2 (fun y =>
          for_ 0 width 2 (fun x => scalar_block width height raw y x)))) m.

(* ------------------------------------------------------------------ *)
(** ** NEON *)

(** The intrinsics the kernel uses, lane by lane; 16-bit lanes wrap. *)
Definition vec : Type := list Z.
Definition vdup_n_u16 (n : Z) : vec := replicate 4 (u16 n).
Definition vadd_u16 (a b : vec) : vec := zip_with (fun x y => u16 (x + y)) a b.
Definition vmul_n_u16 (a : vec) (n : Z) : vec := map (fun x => u16 (x * n)) a.
Definition vmla_n_u16 (a b : vec) (n : Z) : vec :=
  zip_with (fun x y => u16 (x + y * n)) a b.
Definition vshr_n_u16 (a : vec) (n : Z) : vec := map (fun x => Z.shiftr x n) a.
Definition vcombine_u16 (a b : vec) : vec := a ++ b.
Definition vmovn_u16 (a : vec) : vec := map u8 a.

Definition neon_raw10_to_u8 (v : vec) : vec :=
  let v := vadd_u16 v (vdup_n_u16 2) in vshr_n_u16 v 2.

(** The four bytes [vst1_lane_u32] stores (little endian). *)
Definition neon_store4_u16_as_u8 (v : vec) : list Z :=
  take 4 (vmovn_u16 (vcombine_u16 v (vdup_n_u16 0))).

(** One iteration of the gather loop: the four pixels of the block at column
    [xx], each as it is stored in its [uint16_t] temporary. *)
Definition neon_gather (raw : list Z) (row_m1 row_0 row_1 row_p2 xx : Z)
    : option ((Z * Z * Z) * (Z * Z * Z) * (Z * Z * Z) * (Z * Z * Z)) :=
  let rm1 i := rd raw (row_m1 + i) in
  let r_0 i := rd raw (row_0 + i) in
  let r_1 i := rd raw (row_1 + i) in
  let rp2 i := rd raw (row_p2 + i) in
  r0 ← r_0 xx;
  g0 ← osum [r_0 (xx - 1); r_0 (xx + 1); rm1 xx; r_1 xx];
  b0 ← osum [rm1 (xx - 1); rm1 (xx + 1); r_1 (xx - 1); r_1 (xx + 1)];
  g1 ← r_0 (xx + 1);
  r1 ← osum [r_0 xx; r_0 (xx + 2)];
  b1 ← osum [rm1 (xx + 1); r_1 (xx + 1)];
  g2 ← r_1 xx;
  r2 ← osum [rm1 xx; rp2 xx];
  b2 ← osum [r_1 (xx - 1); r_1 (xx + 1)];
  b3 ← r_1 (xx + 1);
  g3 ← osum [r_1 xx; r_1 (xx + 2); r_0 (xx + 1); rp2 (xx + 1)];
  r3 ← osum [r_0 xx; r_0 (xx + 2); rp2 xx; rp2 (xx + 2)];
  Some ((r0, u16 (Z.shiftr g0 2), u16 (Z.shiftr b0 2)),
        (u16 (Z.shiftr r1 1), g1, u16 (Z.shiftr b1 1)),
        (u16 (Z.shiftr r2 1), g2, u16 (Z.shiftr b2 1)),
        (u16 (Z.shiftr r3 2), u16 (Z.shiftr g3 2), b3)).

(** The three channels of one phase over the four blocks, converted to 8 bits. *)
Definition lanes (ps : list (Z * Z * Z)) : vec * vec * vec :=
  (neon_raw10_to_u8 (map (fun '(r, _, _) => r) ps),
   neon_raw10_to_u8 (map (fun '(_, g, _) => g) ps),
   neon_raw10_to_u8 (map (fun '(_, _, b) => b) ps)).

Definition neon_luma (v : vec * vec * vec) : vec :=
  let '(r, g, b) := v in
  let y := vmul_n_u16 r 66 in
  let y := vmla_n_u16 y g 129 in
  let y := vmla_n_u16 y b 25 in
  let y := vadd_u16 y (vdup_n_u16 128) in
  let y := vshr_n_u16 y 8 in
  vadd_u16 y (vdup_n_u16 16).

(** [for (i = 0; i < 4; i++)] over the lanes. *)
Definition for4 {A} (l : list A) (body : Z -> A -> cmd mem) : cmd mem :=
  for_ 0 4 1 (fun i => let* a := l !! Z.to_nat i in body i a).

Definition unlanes (v : vec * vec * vec) : list (Z * Z * Z) :=
  let '(r, g, b) := v in zip_with (fun '(r, g) b => (r, g, b)) (zip r g) b.

(** [y_row[x + 2 * i + d] = tmp[i]]. *)
Definition neon_put_y (y_row x d : Z) (v : vec * vec * vec) : cmd mem :=
  for4 (neon_store4_u16_as_u8 (neon_luma v)) (fun i t => wr BI (y_row + (x + 2 * i + d)) t).

Definition neon_put_rgb (rgb_row x d : Z) (v : vec * vec * vec) : cmd mem :=
  for4 (unlanes v) (fun i p => put_rgb (rgb_row + (x + i * 2 + d) * 3) p).

Definition neon_sum (a b c d : vec * vec * vec) : vec * vec * vec :=
  let '(r0, g0, b0) := a in let '(r1, g1, b1) := b in
  let '(r2, g2, b2) := c in let '(r3, g3, b3) := d in
  let s a b c d := vadd_u16 (vadd_u16 a b) (vadd_u16 c d) in
  (s r0 r1 r2 r3, s g0 g1 g2 g3, s b0 b1 b2 b3).

Definition neon_avg (v : vec * vec * vec) : vec * vec * vec :=
  let '(r, g, b) := v in (vshr_n_u16 r 2, vshr_n_u16 g 2, vshr_n_u16 b 2).

Definition neon_process_8_columns (width height : Z) (raw : list Z)
    (y y1 row_m1 row_0 row_1 row_p2 x : Z) (write_y write_rgb write_uv : bool) : cmd mem :=
  let gather i := neon_gather raw row_m1 row_0 row_1 row_p2 (x + i * 2) in
  let* '(a0, a1, a2, a3) := gather 0 in
  let* '(b0, b1, b2, b3) := gather 1 in
  let* '(c0, c1, c2, c3) := gather 2 in
  let* '(d0, d1, d2, d3) := gather 3 in
  let v0 := lanes [a0; b0; c0; d0] in
  let v1 := lanes [a1; b1; c1; d1] in
  let v2 := lanes [a2; b2; c2; d2] in
  let v3 := lanes [a3; b3; c3; d3] in
  when write_y
    (neon_put_y (y * width) x 0 v0 ;;; neon_put_y (y * width) x 1 v1 ;;;
     neon_put_y (y1 * width) x 0 v2 ;;; neon_put_y (y1 * width) x 1 v3) ;;;
  when write_rgb
    (neon_put_rgb (y * width * 3) x 0 v0 ;;; neon_put_rgb (y * width * 3) x 1 v1 ;;;
     neon_put_rgb (y1 * width * 3) x 0 v2 ;;; neon_put_rgb (y1 * width * 3) x 1 v3) ;;;
  when write_uv
    (for4 (unlanes (neon_avg (neon_sum v0 v1 v2 v3)))
       (fun i avg => put_uv width height y (Z.shiftr x 1 + i) avg)).

(** One column of the scalar boundary, both rows of the pair. *)
Definition neon_edge_column (width height : Z) (raw : list Z) (i420 rgb : bool) (y x : Z)
    : cmd mem :=
  for_ 0 2 1 (fun dy =>
    let py := y + dy in
    when (py <? height)
      (let* '(r8, g8, b8) := pixel8 raw width height x py in
       when rgb (put_rgb ((py * width + x) * 3) (r8, g8, b8)) ;;;
       when i420 (wr BI (py * width + x) (rgb_to_y r8 g8 b8)))).

(** One block of the chroma pass that closes a row pair. *)
Definition neon_uv_block (width height : Z) (raw : list Z) (y bx : Z) : cmd mem :=
  let px dx dy :=
    let px := bx + dx in
    let px := if width <=? px then width - 1 else px in
    let py := y + dy in
    let py := if height <=? py then height - 1 else py in
    pixel8 raw width height px py in
  let* p00 := px 0 0 in let* p01 := px 1 0 in
  let* p10 := px 0 1 in let* p11 := px 1 1 in
  put_uv width height y (Z.shiftr bx 1) (avg4 p00 p01 p10 p11).

(** The column at which the interior loop [x = 4; x + 8 <= width - 4; x += 8]
    stops. *)
Definition neon_end (width : Z) : Z := 4 + 8 * Z.of_nat (trips 4 (width - 11) 8).

Definition neon_row_pair (width height : Z) (raw : list Z) (hi hr : bool) (y : Z) : cmd mem :=
  let y1 := if y + 1 <? height then y + 1 else y in
  let row_m1 := (if 0 <? y then y - 1 else y) * width in
  let row_0 := y * width in
  let row_1 := y1 * width in
  let row_p2 := (if y + 2 <? height then y + 2 else y1) * width in
  (for_ 0 (Z.min 4 width) 1 (neon_edge_column width height raw hi hr y) ;;;
   for_ 4 (width - 11) 8 (fun x =>
     neon_process_8_columns width height raw y y1 row_m1 row_0 row_1 row_p2 x hi hr hi) ;;;
   for_ (neon_end width) width 1 (neon_edge_column width height raw hi hr y)) ;;;
  when hi (for_ 0 width 2 (neon_uv_block width height raw y)).

Definition aloe_rggb10_to_rgb888_i420_neon (width height : Z) (raw : list Z) : cmd mem :=
  fun m =>
    if (width <? 16) || (height <? 4)
    then aloe_rggb10_to_rgb888_i420_scalar width height raw m
    else for_ 0 height 2
           (neon_row_pair width height raw (nonnull (i420 m)) (nonnull (rgb m))) m.

(* ------------------------------------------------------------------ *)
(** ** AVX2 *)

(** 256-bit intrinsics on sixteen 16-bit lanes. *)
Definition mm256_set1_epi16 (n : Z) : vec := replicate 16 (u16 n).
Definition mm256_add_epi16 (a b : vec) : vec := zip_with (fun x y => u16 (x + y)) a b.
Definition mm256_mullo_epi16 (a b : vec) : vec := zip_with (fun x y => u16 (x * y)) a b.
Definition mm256_srli_epi16 (a : vec) (n : Z) : vec := map (fun x => Z.shiftr x n) a.
(** Signed lanes saturate to 0..255. *)
Definition mm_packus_epi16 (lo hi : vec) : vec :=
  map (fun x => Z.max 0 (Z.min 255 (s16 x))) (lo ++ hi).
(** A 256-bit load from an array of 16-bit elements. *)
Definition mm256_load_si256 (a : list Z) : option vec :=
  if (16 <=? length a)%nat then Some (take 16 a) else None.

Definition avx2_raw10_to_u8 (v : vec) : vec :=
  let v := mm256_add_epi16 v (mm256_set1_epi16 2) in mm256_srli_epi16 v 2.

Definition avx2_rgb_to_y (r g b : vec) : vec :=
  let y := mm256_mullo_epi16 r (mm256_set1_epi16 66) in
  let y := mm256_add_epi16 y (mm256_mullo_epi16 g (mm256_set1_epi16 129)) in
  let y := mm256_add_epi16 y (mm256_mullo_epi16 b (mm256_set1_epi16 25)) in
  let y := mm256_add_epi16 y (mm256_set1_epi16 128) in
  let y := mm256_srli_epi16 y 8 in
  mm256_add_epi16 y (mm256_set1_epi16 16).

(** The eight bytes [_mm_storel_epi64] stores. *)
Definition avx2_store_8_u16_as_u8 (v : vec) : list Z :=
  let lo := take 8 v in
  let hi := take 8 (drop 8 v) in
  take 8 (mm_packus_epi16 lo hi).

(** One iteration of the gather loop: the row-0 and row-1 temporaries. *)
Definition avx2_gather (raw : list Z) (row_m1 row_0 row_1 row_p2 x i : Z)
    : option ((Z * Z * Z) * (Z * Z * Z)) :=
  let rm1 i := rd raw (row_m1 + i) in
  let r_0 i := rd raw (row_0 + i) in
  let r_1 i := rd raw (row_1 + i) in
  let rp2 i := rd raw (row_p2 + i) in
  let xx := x + i in
  if Z.land i 1 =? 0 then
    r0 ← r_0 xx;
    g0 ← osum [r_0 (xx - 1); r_0 (xx + 1); rm1 xx; r_1 xx];
    b0 ← osum [rm1 (xx - 1); rm1 (xx + 1); r_1 (xx - 1); r_1 (xx + 1)];
    g1 ← r_1 xx;
    r1 ← osum [rm1 xx; rp2 xx];
    b1 ← osum [r_1 (xx - 1); r_1 (xx + 1)];
    Some ((r0, u16 (Z.shiftr g0 2), u16 (Z.shiftr b0 2)),
          (u16 (Z.shiftr r1 1), g1, u16 (Z.shiftr b1 1)))
  else
    g0 ← r_0 xx;
    r0 ← osum [r_0 (xx - 1); r_0 (xx + 1)];
    b0 ← osum [rm1 xx; r_1 xx];
    b1 ← r_1 xx;
    g1 ← osum [r_1 (xx - 1); r_1 (xx + 1); r_0 xx; rp2 xx];
    r1 ← osum [r_0 (xx - 1); r_0 (xx + 1); rp2 (xx - 1); rp2 (xx + 1)];
    Some ((u16 (Z.shiftr r0 1), g0, u16 (Z.shiftr b0 1)),
          (u16 (Z.shiftr r1 2), u16 (Z.shiftr g1 2), b1)).

Definition avx2_lanes (ps : list (Z * Z * Z)) : option (vec * vec * vec) :=
  r ← mm256_load_si256 (map (fun '(r, _, _) => r) ps);
  g ← mm256_load_si256 (map (fun '(_, g, _) => g) ps);
  b ← mm256_load_si256 (map (fun '(_, _, b) => b) ps);
  Some (avx2_raw10_to_u8 r, avx2_raw10_to_u8 g, avx2_raw10_to_u8 b).

Definition avx2_put_y (y_row x : Z) (v : vec * vec * vec) : cmd mem :=
  let '(r, g, b) := v in
  let bytes := avx2_store_8_u16_as_u8 (avx2_rgb_to_y r g b) in
  for_ 0 8 1 (fun i => let* t := bytes !! Z.to_nat i in wr BI (y_row + x + i) t).

(** [y_row_0], [y_row_1]: offsets into [i420].  No caller.  The two vectors
    loaded first are not used. *)
Definition avx2_process_8_columns (raw : list Z) (row_m1 row_0 row_1 row_p2 x : Z)
    (y_row_0 y_row_1 : Z) (write_y : bool) : cmd mem :=
  let* _ := mapM (fun i => rd raw (row_0 + x + i)) (seqZ 0 16) in
  let* _ := mapM (fun i => rd raw (row_1 + x + i)) (seqZ 0 16) in
  let* temps := mapM (avx2_gather raw row_m1 row_0 row_1 row_p2 x) (seqZ 0 8) in
  let* v0 := avx2_lanes (map fst temps) in
  let* v1 := avx2_lanes (map snd temps) in
  when write_y (avx2_put_y y_row_0 x v0 ;;; avx2_put_y y_row_1 x v1).

Definition aloe_rggb10_to_rgb888_i420_avx2 (width height : Z) (raw : list Z) : cmd mem :=
  aloe_rggb10_to_rgb888_i420_scalar width height raw.

(* ------------------------------------------------------------------ *)
(** ** Public API *)

(** The vector unit the build targets ([__AVX2__], [__ARM_NEON] or neither). *)
Inductive target : Set := AVX2 | NEON | PORTABLE.

Definition aloe_rggb10_to_rgb888_i420_simd (tgt : target) (width height : Z)
    (raw : option (list Z)) : cmd mem :=
  fun m =>
    match raw with
    | None => Some m
    | Some raw =>
        if (width <=? 0) || (height <=? 0) then Some m
        else if negb (Z.land width 1 =? 0) || negb (Z.land height 1 =? 0) then Some m
        else match tgt with
             | AVX2 => aloe_rggb10_to_rgb888_i420_avx2 width height raw m
             | NEON => aloe_rggb10_to_rgb888_i420_neon width height raw m
             | PORTABLE => aloe_rggb10_to_rgb888_i420_scalar width height raw m
             end
    end.

(** The convenience wrappers pass NULL for the other buffer. *)
Definition aloe_rggb10_to_i420_simd (tgt : target) (width height : Z)
    (raw : option (list Z)) : cmd mem :=
  fun m =>
    m' ← aloe_rggb10_to_rgb888_i420_simd tgt width height raw (Mem (i420 m) None (cache m));
    Some (Mem (i420 m') (rgb m) (cache m')).

Definition aloe_rggb10_to_rgb888_simd (tgt : target) (width height : Z)
    (raw : option (list Z)) : cmd mem :=
  fun m =>
    m' ← aloe_rggb10_to_rgb888_i420_simd tgt width height raw (Mem None (rgb m) (cache m));
    Some (Mem (i420 m) (rgb m') (cache m')).

(* ------------------------------------------------------------------ *)
(** ** The scalar path *)

Section Scalar.
Context (w h : Z) (raw : list Z).
Hypothesis Hw : 0 < w.
Hypothesis Hh : 0 < h.
Hypothesis Hraw : raw_ok w h raw.

(** The pixels of every path: [(v + 2) / 4], then cast. *)
Definition round8 (v : Z) : Z := (v + 2) / 4.
Definition sc_px (x y : Z) : Z * Z * Z :=
  map3 (fun v => u8 (round8 v)) (bilinear w h (raw_at w raw) x y).
Definition sc_render : render := full_render sc_px u8.

Lemma sample_u16 x y : is_u16 (sample w h (raw_at w raw) x y).
Proof. by eapply raw_at_u16. Qed.

Lemma demosaic_bilinear x y :
  in_px w h x y ->
  demosaic_rggb10_pixel raw w h x y = Some (bilinear w h (raw_at w raw) x y).
Proof.
  intros [Hx Hy]. unfold demosaic_rggb10_pixel. cbv zeta.
  set (S := sample w h (raw_at w raw)).
  assert (Hrd : forall x' y', rd raw (clampc y' h * w + clampc x' w) = Some (S x' y'))
    by (intros; by apply rd_sample).
  assert (R0 : forall x', rd raw (y * w + clampc x' w) = Some (S x' y))
    by (intros; by rewrite <- Hrd, (clampc_in y h)).
  pose proof (R0 x) as R0x; pose proof (Hrd x (y - 1)) as Rmx; pose proof (Hrd x (y + 1)) as Rpx.
  rewrite (clampc_in x w) in R0x, Rmx, Rpx by done.
  assert (Em : forall v n, 0 <= v < n -> (if 0 <? v then v - 1 else 0) = clampc (v - 1) n).
  { intros v n Hv. unfold clampc. destruct (Z.ltb_spec 0 v); lia. }
  assert (Ep : forall v n, 0 <= v < n -> (if v + 1 <? n then v + 1 else n - 1) = clampc (v + 1) n).
  { intros v n Hv. unfold clampc. destruct (Z.ltb_spec (v + 1) n); lia. }
  rewrite (Em x w), (Em y h), (Ep x w), (Ep y h) by done.
  rewrite ?R0x, ?Rmx, ?Rpx, ?R0, ?Hrd, !land1_even.
  cbn [osum mbind option_bind]. rewrite bilinear_RGGB. fold S.
  rewrite !shr_div by lia.
  destruct (Z.even y), (Z.even x); cbn [andb negb]; by rewrite <- ?Z.add_assoc.
Qed.

Lemma bilinear_u16 x y :
  let '(r, g, b) := bilinear w h (raw_at w raw) x y in is_u16 r /\ is_u16 g /\ is_u16 b.
Proof.
  pose proof (bilinear_between w h (raw_at w raw) 0 65535 x y) as Hb.
  destruct (bilinear _ _ _ _ _) as [[r g] b]. destruct Hb as (? & ? & ?).
  { intros. pose proof (sample_u16 x0 y0). mlia. }
  mlia.
Qed.

Lemma pixel8_px x y : in_px w h x y -> pixel8 raw w h x y = Some (sc_px x y).
Proof.
  intros Hp. unfold pixel8, sc_px. rewrite demosaic_bilinear by done.
  pose proof (bilinear_u16 x y). destruct (bilinear _ _ _ _ _) as [[r g] b].
  cbn. unfold raw10_to_u8, round8. rewrite !shr_div, !u16_id by tauto || lia. done.
Qed.

Lemma sc_px_u8 x y : u8px (sc_px x y).
Proof.
  unfold sc_px. destruct (bilinear _ _ _ _ _) as [[r g] b]. cbn.
  split_and!; apply u8_range.
Qed.

Lemma rgb_to_y_luma r g b : rgb_to_y r g b = luma (r, g, b).
Proof. unfold rgb_to_y, clamp_u8. rewrite clamp255_if. by autorewrite with bt601. Qed.
Lemma rgb_to_u_chroma r g b : rgb_to_u r g b = chroma_u (r, g, b).
Proof. unfold rgb_to_u, clamp_u8. rewrite clamp255_if. by autorewrite with bt601. Qed.
Lemma rgb_to_v_chroma r g b : rgb_to_v r g b = chroma_v (r, g, b).
Proof. unfold rgb_to_v, clamp_u8. rewrite clamp255_if. by autorewrite with bt601. Qed.

Lemma avg4_mean px bx by_ :
  avg4 (px (2 * bx) (2 * by_)) (px (2 * bx + 1) (2 * by_))
     (px (2 * bx) (2 * by_ + 1)) (px (2 * bx + 1) (2 * by_ + 1)) = block_mean px bx by_.
Proof.
  unfold avg4, block_mean. destruct (add3 _ _) as [[r g] b]. cbn.
  by rewrite !shr_div by lia.
Qed.

(** Storing pixels and chroma of any frame [R]. *)
Context (R : render) (sh : buf -> option Z) (hi hr : bool).
Hypothesis Hsh : forall b n, sh b = Some n -> need w h b <= n.
Hypothesis Hhi : has sh BI hi.
Hypothesis Hhr : has sh BR hr.
#[local] Abbreviation wrs := (writes sh (fun l => l.1 <> BC) (frame_spec w h R)).

Lemma put_rgb_writes i x y p :
  hr = true -> in_px w h x y -> i = (y * w + x) * 3 -> r_px R x y = map3 u8 p ->
  wrs (put_rgb i p) (RgbAt w x y).
Proof.
  intros Hn Hp -> Hr. destruct (Hhr Hn) as [n Hsn]. unfold put_rgb.
  destruct p as [[r g] b]. by eapply writes_rgb.
Qed.

Lemma put_y_writes i x y v :
  hi = true -> in_px w h x y -> i = y * w + x -> r_y R x y = v ->
  wrs (wr BI i v) (fun l => l = at_y w x y).
Proof. intros Hn Hp -> <-. destruct (Hhi Hn) as [n Hsn]. by eapply writes_y. Qed.

Lemma put_uv_writes y j bx by_ p :
  hi = true -> in_blk w h bx by_ -> y = 2 * by_ -> j = bx ->
  r_u R bx by_ = chroma_u p -> r_v R bx by_ = chroma_v p ->
  wrs (put_uv w h y j p) (ChromaAt w h bx by_).
Proof.
  intros Hn Hp -> -> Hu Hv. destruct (Hhi Hn) as [n Hsn]. unfold put_uv, uv_size_.
  destruct p as [[r g] b]. rewrite rgb_to_u_chroma, rgb_to_v_chroma.
  rewrite !shr1, double_div. fold (uvw w). apply writes_seq.
  - eapply writes_u; try done. lia.
  - eapply writes_v; try done. unfold uv_size. lia.
Qed.

Hypothesis HR : R = sc_render.

Lemma scalar_pixel_writes x y :
  in_px w h x y -> wrs (scalar_pixel w h raw hi hr y x) (PxSet w hi hr x y).
Proof.
  intros Hp. unfold scalar_pixel. eapply writes_bind; [by apply pixel8_px | ].
  destruct (sc_px x y) as [[r g] b] eqn:He.
  apply writes_seq; apply writes_when; intros Hn.
  - apply put_rgb_writes; [done.. | lia | ]. by rewrite HR, <- He.
  - apply put_y_writes; [done.. | ]. by rewrite HR, rgb_to_y_luma, <- He.
Qed.

Lemma scalar_block_writes bx by_ :
  Z.even w = true -> Z.even h = true -> hi = true -> in_blk w h bx by_ ->
  wrs (scalar_block w h raw (2 * by_) (2 * bx)) (ChromaAt w h bx by_).
Proof.
  intros Hew Heh Hn Hp.
  assert (P : forall dx dy, 0 <= dx < 2 -> 0 <= dy < 2 ->
    pixel8 raw w h (2 * bx + dx) (2 * by_ + dy) = Some (sc_px (2 * bx + dx) (2 * by_ + dy)))
    by (intros; by apply pixel8_px, blk_in).
  unfold scalar_block.
  do 4 (eapply writes_bind; [apply P; lia | ]). rewrite !Z.add_0_r, avg4_mean, shr1, double_div.
  by apply put_uv_writes; try done; rewrite HR.
Qed.
End Scalar.

Lemma scalar_runs w h raw m :
  0 < w -> 0 < h -> Z.even w = true -> Z.even h = true ->
  raw_ok w h raw -> fits w h m ->
  runs w h (sc_render w h raw) (aloe_rggb10_to_rgb888_i420_scalar w h raw) m.
Proof.
  intros Hw Hh Hew Heh Hraw Hfit. unfold runs, writes_at, aloe_rggb10_to_rgb888_i420_scalar.
  apply (two_pass_writes w h (fun b => blen b m) (sc_render w h raw)); [done | | | done].
  - intros x y Hp. apply scalar_pixel_writes; auto with mach.
  - intros Hn bx by_ Hp. eapply scalar_block_writes; eauto with mach.
Qed.

(* ------------------------------------------------------------------ *)
(** ** Lane arithmetic *)

(** On 10-bit input no 16-bit lane wraps, so a vector operation is its scalar
    counterpart lane by lane. *)
Definition chans (ps : list (Z * Z * Z)) : vec * vec * vec :=
  (map (fun '(r, _, _) => r) ps, map (fun '(_, g, _) => g) ps, map (fun '(_, _, b) => b) ps).

Definition px_le (n : Z) (p : Z * Z * Z) : Prop :=
  let '(r, g, b) := p in 0 <= r <= n /\ 0 <= g <= n /\ 0 <= b <= n.

Lemma round8_le v : 0 <= v <= 1023 -> 0 <= round8 v <= 256.
Proof. unfold round8. intros. dlia. Qed.

Lemma round8_px_le p : px_le 1023 p -> px_le 256 (map3 round8 p).
Proof. destruct p as [[r g] b]. intros (? & ? & ?). cbn. auto using round8_le. Qed.

Lemma lane_round v : 0 <= v <= 1023 -> Z.shiftr (u16 (v + u16 2)) 2 = round8 v.
Proof.
  intros Hv. rewrite (u16_id 2) by mlia. rewrite u16_id by mlia. by rewrite shr_div by lia.
Qed.

Lemma lanes_chans a b c d :
  px_le 1023 a -> px_le 1023 b -> px_le 1023 c -> px_le 1023 d ->
  lanes [a; b; c; d] = chans (map (map3 round8) [a; b; c; d]).
Proof.
  destruct a as [[? ?] ?], b as [[? ?] ?], c as [[? ?] ?], d as [[? ?] ?].
  intros (? & ? & ?) (? & ? & ?) (? & ? & ?) (? & ? & ?).
  unfold lanes, chans, neon_raw10_to_u8, vadd_u16, vdup_n_u16, vshr_n_u16.
  cbn [map replicate zip_with map3]. by rewrite !lane_round.
Qed.

Lemma lane_luma r g b : px_le 256 (r, g, b) ->
  u16 (Z.shiftr (u16 (u16 (u16 (u16 (r * 66) + g * 129) + b * 25) + u16 128)) 8 + u16 16) =
  luma (r, g, b) /\ is_u8 (luma (r, g, b)).
Proof.
  intros (? & ? & ?). rewrite (u16_id 128), (u16_id 16), (u16_id (r * 66)) by mlia.
  rewrite (u16_id (r * 66 + g * 129)) by mlia.
  rewrite (u16_id (r * 66 + g * 129 + b * 25)) by mlia.
  rewrite (u16_id (r * 66 + g * 129 + b * 25 + 128)) by mlia.
  rewrite shr_div by lia. change (2 ^ 8) with 256. unfold luma, clamp255.
  rewrite u16_id by (unfold is_u16; dlia). unfold is_u8. dlia.
Qed.

Lemma neon_luma_lanes a b c d :
  px_le 256 a -> px_le 256 b -> px_le 256 c -> px_le 256 d ->
  neon_store4_u16_as_u8 (neon_luma (chans [a; b; c; d])) = map luma [a; b; c; d].
Proof.
  destruct a as [[? ?] ?], b as [[? ?] ?], c as [[? ?] ?], d as [[? ?] ?].
  intros [Ea Ha]%lane_luma [Eb Hb]%lane_luma [Ec Hc]%lane_luma [Ed Hd]%lane_luma.
  unfold neon_luma, chans, neon_store4_u16_as_u8, vmovn_u16, vcombine_u16, vmul_n_u16,
    vmla_n_u16, vadd_u16, vdup_n_u16, vshr_n_u16.
  cbn [map replicate zip_with app take firstn].
  rewrite Ea, Eb, Ec, Ed. by rewrite !u8_id.
Qed.

Lemma unlanes_chans a b c d : unlanes (chans [a; b; c; d]) = [a; b; c; d].
Proof. by destruct a as [[? ?] ?], b as [[? ?] ?], c as [[? ?] ?], d as [[? ?] ?]. Qed.

Lemma lane_sum a b c d :
  0 <= a <= 256 -> 0 <= b <= 256 -> 0 <= c <= 256 -> 0 <= d <= 256 ->
  Z.shiftr (u16 (u16 (a + b) + u16 (c + d))) 2 = (a + b + c + d) / 4.
Proof.
  intros. rewrite (u16_id (a + b)), (u16_id (c + d)), u16_id by mlia.
  rewrite shr_div by lia. by rewrite Z.add_assoc.
Qed.

(** The mean of one block, from its four phases. *)
Definition mean4 (p q r s : Z * Z * Z) : Z * Z * Z :=
  map3 (fun s => s / 4) (add3 (add3 (add3 p q) r) s).

Lemma lane_mean p q r s :
  px_le 256 p -> px_le 256 q -> px_le 256 r -> px_le 256 s ->
  (let '(pr, pg, pb) := p in let '(qr, qg, qb) := q in
   let '(rr, rg, rb) := r in let '(sr, sg, sb) := s in
   (Z.shiftr (u16 (u16 (pr + qr) + u16 (rr + sr))) 2,
    Z.shiftr (u16 (u16 (pg + qg) + u16 (rg + sg))) 2,
    Z.shiftr (u16 (u16 (pb + qb) + u16 (rb + sb))) 2)) = mean4 p q r s.
Proof.
  destruct p as [[? ?] ?], q as [[? ?] ?], r as [[? ?] ?], s as [[? ?] ?].
  intros (? & ? & ?) (? & ? & ?) (? & ? & ?) (? & ? & ?). by rewrite !lane_sum.
Qed.

(** Four blocks: [p i], [q i], [r i], [s i] the phases of block [i]. *)
Lemma neon_avg_lanes (p q r s : Z -> Z * Z * Z) :
  (forall i, px_le 256 (p i)) -> (forall i, px_le 256 (q i)) ->
  (forall i, px_le 256 (r i)) -> (forall i, px_le 256 (s i)) ->
  unlanes (neon_avg (neon_sum (chans [p 0; p 1; p 2; p 3]) (chans [q 0; q 1; q 2; q 3])
                              (chans [r 0; r 1; r 2; r 3]) (chans [s 0; s 1; s 2; s 3]))) =
  map (fun i => mean4 (p i) (q i) (r i) (s i)) [0; 1; 2; 3].
Proof.
  intros Hp Hq Hr Hs. cbn [map].
  rewrite <- !lane_mean by done.
  unfold chans, unlanes, neon_avg, neon_sum, vadd_u16, vshr_n_u16. cbn [map zip_with].
  destruct (p 0) as [[? ?] ?], (p 1) as [[? ?] ?], (p 2) as [[? ?] ?], (p 3) as [[? ?] ?].
  destruct (q 0) as [[? ?] ?], (q 1) as [[? ?] ?], (q 2) as [[? ?] ?], (q 3) as [[? ?] ?].
  destruct (r 0) as [[? ?] ?], (r 1) as [[? ?] ?], (r 2) as [[? ?] ?], (r 3) as [[? ?] ?].
  destruct (s 0) as [[? ?] ?], (s 1) as [[? ?] ?], (s 2) as [[? ?] ?], (s 3) as [[? ?] ?].
  reflexivity.
Qed.

(* ------------------------------------------------------------------ *)
(** ** The NEON path *)

Section Neon.
Context (w h : Z) (raw : list Z).
Hypothesis Hw : 16 <= w.
Hypothesis Hh : 4 <= h.
Hypothesis Hew : Z.even w = true.
Hypothesis Heh : Z.even h = true.
Hypothesis Hraw : raw_ok w h raw.
Hypothesis Hten : Forall (fun v => 0 <= v <= 1023) raw.

(** The columns of the vector loop. *)
Definition interior (x : Z) : bool := (4 <=? x) && (x <? neon_end w).

(** The kernel's demosaic: in the interior, the red of an odd row's even
    column is taken from rows [y - 2] and [y + 1]. *)
Definition neon_bilinear (x y : Z) : Z * Z * Z :=
  let '(r, g, b) := bilinear w h (raw_at w raw) x y in
  let S := sample w h (raw_at w raw) in
  if interior x && Z.odd y && Z.even x
  then ((S x (y - 2) + S x (y + 1)) / 2, g, b) else (r, g, b).

Definition neon_px (x y : Z) : Z * Z * Z := map3 round8 (neon_bilinear x y).

(** Stored frame: RGB and luma from [neon_px] (unwrapped luma in the
    interior), chroma from [uvpx]. *)
Definition neon_frame (uvpx : Z -> Z -> Z * Z * Z) : render :=
  {| r_px x y := map3 u8 (neon_px x y);
   r_y x y := if interior x then luma (neon_px x y) else luma (map3 u8 (neon_px x y));
   r_u bx by_ := chroma_u (block_mean uvpx bx by_);
   r_v bx by_ := chroma_v (block_mean uvpx bx by_) |}.

Definition neon_render : render := neon_frame (sc_px w h raw).

Lemma sample_ten x y : 0 <= sample w h (raw_at w raw) x y <= 1023.
Proof. apply (sample_Forall (fun v => 0 <= v <= 1023)); [lia | lia | done | done]. Qed.

Lemma neon_bilinear_le x y : px_le 1023 (neon_bilinear x y).
Proof.
  unfold neon_bilinear.
  pose proof (bilinear_between w h (raw_at w raw) 0 1023 x y sample_ten) as Hb.
  destruct (bilinear _ _ _ _ _) as [[r g] b].
  pose proof (sample_ten x (y - 2)). pose proof (sample_ten x (y + 1)).
  destruct (_ && _ && _); [ | exact Hb]. cbn. destruct Hb as (_ & ? & ?).
  split; [dlia | done].
Qed.

Lemma neon_px_le x y : px_le 256 (neon_px x y).
Proof. apply round8_px_le, neon_bilinear_le. Qed.

(** Outside the vector loop the pixel is the scalar one. *)
Lemma neon_px_scalar x y :
  interior x && Z.odd y && Z.even x = false -> map3 u8 (neon_px x y) = sc_px w h raw x y.
Proof.
  intros Hx. unfold neon_px, neon_bilinear, sc_px. rewrite Hx.
  by destruct (bilinear _ _ _ _ _) as [[r g] b].
Qed.

Lemma edge_px x y : interior x = false -> map3 u8 (neon_px x y) = sc_px w h raw x y.
Proof. intros Hx. apply neon_px_scalar. by rewrite Hx. Qed.

Lemma neon_end_spec : exists n, neon_end w = 4 + 8 * n /\ 0 < n /\ neon_end w <= w - 4 /\
  forall k, 0 <= k < n <-> 0 <= k /\ 4 + k * 8 < w - 11.
Proof.
  exists (Z.of_nat (trips 4 (w - 11) 8)).
  assert (Ht : forall k, 0 <= k < Z.of_nat (trips 4 (w - 11) 8) <-> 0 <= k /\ 4 + k * 8 < w - 11)
    by (intros; apply trips_spec; lia).
  assert (0 < Z.of_nat (trips 4 (w - 11) 8)) by (apply (Ht 0); lia).
  split_and!; [done | done | | done].
  unfold neon_end. pose proof (proj1 (Ht (Z.of_nat (trips 4 (w - 11) 8) - 1)) ltac:(lia)). lia.
Qed.

(** The gather of a block in the interior. *)
Lemma neon_gather_px by_ xx :
  let y := 2 * by_ in
  0 <= y < h -> Z.even xx = true -> 4 <= xx -> xx + 2 <= neon_end w ->
  neon_gather raw ((if 0 <? y then y - 1 else y) * w) (y * w)
  ((if y + 1 <? h then y + 1 else y) * w)
  ((if y + 2 <? h then y + 2 else if y + 1 <? h then y + 1 else y) * w) xx =
  Some (neon_bilinear xx y, neon_bilinear (xx + 1) y,
      neon_bilinear xx (y + 1), neon_bilinear (xx + 1) (y + 1)).
Proof.
  intros y Hy Ex Hlo Hhi.
  destruct neon_end_spec as (n & _ & _ & Hend & _).
  assert (Ey : Z.even y = true) by apply even_2x_r.
  rewrite (clampc_m1 y h), (clampc_p1 y h) by done.
  rewrite (clampc_p2 y h) by done.
  set (S := sample w h (raw_at w raw)).
  assert (Hrd : forall x' y', 0 <= x' < w -> rd raw (clampc y' h * w + x') = Some (S x' y')).
  { intros x' y' Hx'. rewrite <- (clampc_in x' w) at 1 by done.
    by apply rd_sample; [lia | lia | ]. }
  assert (R0 : forall x', 0 <= x' < w -> rd raw (y * w + x') = Some (S x' y)).
  { intros. rewrite <- (clampc_in y h) at 1 by done. by apply Hrd. }
  unfold neon_gather. rewrite !Hrd, !R0 by lia.
  cbn [osum mbind option_bind].
  unfold neon_bilinear. rewrite !bilinear_RGGB. fold S.
  rewrite !Z.even_add, <- !Z.negb_even, !Z.even_add, Ex, Ey. cbn [Bool.eqb Z.even negb].
  assert (Hi : interior xx = true /\ interior (xx + 1) = true).
  { unfold interior. split; apply andb_true_iff; split;
      first [apply Z.leb_le | apply Z.ltb_lt]; lia. }
  destruct Hi as [-> ->]. cbn [andb].
  rewrite !Z.add_simpl_r, <- !Z.add_assoc.
  change (1 + 1) with 2. replace (y + 1 - 2) with (y - 1) by lia.
  assert (Hs : forall x y, 0 <= S x y <= 1023) by (intros; apply sample_ten).
  rewrite !shr_div by lia. change (2 ^ 1) with 2. change (2 ^ 2) with 4.
  by rewrite !u16_id by (repeat match goal with
    | |- context [S ?a ?b] =>
    let H := fresh in pose proof (Hs a b) as H; revert H; generalize (S a b); intros
    end; unfold is_u16; dlia).
Qed.

Context (sh : buf -> option Z) (hi hr : bool) (uvpx : Z -> Z -> Z * Z * Z).
Hypothesis Hsh : forall b n, sh b = Some n -> need w h b <= n.
Hypothesis Hhi : has sh BI hi.
Hypothesis Hhr : has sh BR hr.
#[local] Abbreviation wrs :=
  (writes sh (fun l => l.1 <> BC) (frame_spec w h (neon_frame uvpx))).

Lemma for4_writes {A} (l : list A) body W :
  length l = 4%nat ->
  (forall i a, 0 <= i < 4 -> l !! Z.to_nat i = Some a -> wrs (body i a) (W i)) ->
  wrs (for4 l body) (fun l => exists i, (0 <= i < 4) /\ W i l).
Proof.
  intros Hl Hb. unfold for4. apply writes_for1. intros i Hi.
  destruct (lookup_lt_is_Some_2 l (Z.to_nat i)) as [a Ha]; [lia | ].
  eapply writes_bind; [exact Ha | ]. by apply Hb.
Qed.

(** Four values listed by a function of the lane. *)
Lemma lane4 {A} (f : Z -> A) i a :
  0 <= i < 4 -> [f 0; f 1; f 2; f 3] !! Z.to_nat i = Some a -> a = f i.
Proof.
  intros Hi. assert (i = 0 \/ i = 1 \/ i = 2 \/ i = 3) as [->|[->|[->| ->]]] by lia;
    intros [= ->]; done.
Qed.

(** Columns [x .. x + n) of rows [y] and [y + 1]. *)
Definition Pair (y x n : Z) (l : loc) : Prop :=
  exists dx dy, (0 <= dx < n) /\ (0 <= dy < 2) /\ PxSet w hi hr (x + dx) (y + dy) l.

Lemma edge_column_writes y x :
  0 <= y -> y + 1 < h -> 0 <= x < w -> interior x = false ->
  wrs (neon_edge_column w h raw hi hr y x) (Pair y x 1).
Proof.
  intros Hy0 Hy1 Hx Hin. unfold neon_edge_column. eapply writes_iff.
  - apply (writes_for1 sh _ _ 0 2 _ (fun dy l => PxSet w hi hr x (y + dy) l)).
    intros dy Hdy. cbv zeta. rewrite (proj2 (Z.ltb_lt _ _)) by lia. cbn [when].
    assert (Hp : in_px w h x (y + dy)) by (split; lia).
    eapply writes_bind; [apply pixel8_px; done || lia | ].
    destruct (sc_px w h raw x (y + dy)) as [[r g] b] eqn:He.
    apply writes_seq; apply writes_when; intros Hn.
    + eapply (put_rgb_writes w h ltac:(lia) _ sh hr Hsh Hhr); [done | exact Hp | done | ].
      cbn [neon_frame r_px]. rewrite edge_px by done. rewrite He.
      pose proof (sc_px_u8 w h raw x (y + dy)) as Hu. rewrite He in Hu.
      destruct Hu as (? & ? & ?). cbn. by rewrite !u8_id.
    + eapply (put_y_writes w h ltac:(lia) ltac:(lia) _ sh hi Hsh Hhi); [done | exact Hp | done | ].
      cbn [neon_frame r_y]. by rewrite Hin, edge_px, He, rgb_to_y_luma.
  - intros l _. unfold Pair. split.
    + intros (dy & Hdy & HP). exists 0, dy. rewrite Z.add_0_r. split_and!; lia || done.
    + intros (dx & dy & Hdx & Hdy & HP). assert (dx = 0) as -> by lia.
      rewrite Z.add_0_r in HP. eauto.
Qed.

(** The stores of one phase of the vector: pixels [x + 2 i + d] of row [y]. *)
Lemma put_y_lanes y x d :
  hi = true -> 0 <= y < h -> 4 <= x -> x + 8 <= neon_end w -> 0 <= d < 2 ->
  wrs (neon_put_y (y * w) x d (chans (map (fun i => neon_px (x + i * 2 + d) y) [0; 1; 2; 3])))
  (fun l => exists i, (0 <= i < 4) /\ l = at_y w (x + i * 2 + d) y).
Proof.
  intros Hn Hy Hx Hx8 Hd. destruct neon_end_spec as (n & _ & _ & Hend & _).
  unfold neon_put_y. cbn [map]. rewrite neon_luma_lanes by apply neon_px_le.
  apply for4_writes; [done | ]. intros i a Hi Ha. cbn [map] in Ha.
  apply (lane4 (fun i => luma (neon_px (x + i * 2 + d) y)) i a Hi) in Ha. subst a.
  eapply (put_y_writes w h ltac:(lia) ltac:(lia) _ sh hi Hsh Hhi); [done | split; lia | lia | ].
  cbn [neon_frame r_y]. unfold interior.
  by rewrite (proj2 (Z.leb_le _ _)), (proj2 (Z.ltb_lt _ _)) by lia.
Qed.

Lemma put_rgb_lanes y x d :
  hr = true -> 0 <= y < h -> 4 <= x -> x + 8 <= neon_end w -> 0 <= d < 2 ->
  wrs (neon_put_rgb (y * w * 3) x d (chans (map (fun i => neon_px (x + i * 2 + d) y) [0; 1; 2; 3])))
  (fun l => exists i, (0 <= i < 4) /\ RgbAt w (x + i * 2 + d) y l).
Proof.
  intros Hn Hy Hx Hx8 Hd. destruct neon_end_spec as (n & _ & _ & Hend & _).
  unfold neon_put_rgb. cbn [map]. rewrite unlanes_chans.
  apply for4_writes; [done | ]. intros i a Hi Ha.
  apply (lane4 (fun i => neon_px (x + i * 2 + d) y) i a Hi) in Ha. subst a.
  eapply (put_rgb_writes w h ltac:(lia) _ sh hr Hsh Hhr); [done | split; lia | lia | done].
Qed.

Lemma pair_8 y x l :
  (hi = true /\
  ((exists i, (0 <= i < 4) /\ l = at_y w (x + i * 2 + 0) y) \/
  (exists i, (0 <= i < 4) /\ l = at_y w (x + i * 2 + 1) y) \/
  (exists i, (0 <= i < 4) /\ l = at_y w (x + i * 2 + 0) (y + 1)) \/
  (exists i, (0 <= i < 4) /\ l = at_y w (x + i * 2 + 1) (y + 1)))) \/
  (hr = true /\
  ((exists i, (0 <= i < 4) /\ RgbAt w (x + i * 2 + 0) y l) \/
  (exists i, (0 <= i < 4) /\ RgbAt w (x + i * 2 + 1) y l) \/
  (exists i, (0 <= i < 4) /\ RgbAt w (x + i * 2 + 0) (y + 1) l) \/
  (exists i, (0 <= i < 4) /\ RgbAt w (x + i * 2 + 1) (y + 1) l))) <->
  Pair y x 8 l.
Proof.
  assert (Hq : forall P : Z -> Z -> Prop,
    ((exists i, (0 <= i < 4) /\ P (x + i * 2 + 0) y) \/
    (exists i, (0 <= i < 4) /\ P (x + i * 2 + 1) y) \/
    (exists i, (0 <= i < 4) /\ P (x + i * 2 + 0) (y + 1)) \/
    (exists i, (0 <= i < 4) /\ P (x + i * 2 + 1) (y + 1))) <->
    exists dx dy, (0 <= dx < 8) /\ (0 <= dy < 2) /\ P (x + dx) (y + dy)).
  { intros P. split.
    - intros [(i & Hi & HP)|[(i & Hi & HP)|[(i & Hi & HP)|(i & Hi & HP)]]];
        [exists (i * 2 + 0), 0 | exists (i * 2 + 1), 0 | exists (i * 2 + 0), 1 | exists (i * 2 + 1), 1];
        rewrite ?Z.add_assoc, ?(Z.add_0_r y); (split; [lia | split; [lia | exact HP]]).
    - intros (dx & dy & Hdx & Hdy & HP).
      assert (Hdd : exists i d, (0 <= i < 4) /\ (d = 0 \/ d = 1) /\ dx = i * 2 + d).
      { exists (dx / 2), (dx mod 2). dlia. }
      destruct Hdd as (i & d & Hi & Hd & ->). rewrite Z.add_assoc in HP.
      assert (dy = 0 \/ dy = 1) as [->| ->] by lia; destruct Hd as [->| ->];
        rewrite ?(Z.add_0_r y) in HP; eauto 6. }
  rewrite (Hq (fun x y => l = at_y w x y)), (Hq (fun x y => RgbAt w x y l)).
  unfold Pair, PxSet. split.
  - intros [(Hn & dx & dy & ? & ? & HP)|(Hn & dx & dy & ? & ? & HP)]; exists dx, dy; tauto.
  - intros (dx & dy & ? & ? & [[Hn HP]|[Hn HP]]); [right | left]; (split; [done | ]);
      by exists dx, dy.
Qed.

(** The lanes of one phase, as gathered. *)
Lemma phase_lanes x y d :
  lanes [neon_bilinear (x + 0 * 2 + d) y; neon_bilinear (x + 1 * 2 + d) y;
       neon_bilinear (x + 2 * 2 + d) y; neon_bilinear (x + 3 * 2 + d) y] =
  chans (map (fun i => neon_px (x + i * 2 + d) y) [0; 1; 2; 3]).
Proof. by rewrite lanes_chans by apply neon_bilinear_le. Qed.

Lemma block_avg bx by_ i :
  mean4 (neon_px (2 * bx + i * 2 + 0) (2 * by_)) (neon_px (2 * bx + i * 2 + 1) (2 * by_))
      (neon_px (2 * bx + i * 2 + 0) (2 * by_ + 1)) (neon_px (2 * bx + i * 2 + 1) (2 * by_ + 1)) =
  block_mean neon_px (bx + i) by_.
Proof.
  unfold mean4, block_mean. replace (2 * bx + i * 2 + 0) with (2 * (bx + i)) by lia.
  by replace (2 * bx + i * 2 + 1) with (2 * (bx + i) + 1) by lia.
Qed.

Definition Blocks (bx by_ n : Z) (l : loc) : Prop :=
  exists i, (0 <= i < n) /\ ChromaAt w h (bx + i) by_ l.

Lemma process_8_writes by_ bx :
  (forall bx, block_mean uvpx bx by_ = block_mean neon_px bx by_) ->
  0 <= by_ < h / 2 -> 4 <= 2 * bx -> 2 * bx + 8 <= neon_end w ->
  let y := 2 * by_ in
  let y1 := if y + 1 <? h then y + 1 else y in
  wrs (neon_process_8_columns w h raw y y1 ((if 0 <? y then y - 1 else y) * w) (y * w) (y1 * w)
       ((if y + 2 <? h then y + 2 else y1) * w) (2 * bx) hi hr hi)
  (fun l => Pair y (2 * bx) 8 l \/ (hi = true /\ Blocks bx by_ 4 l)).
Proof.
  intros Huv Hby Hx Hx8 y y1. destruct neon_end_spec as (n & _ & _ & Hend & _).
  pose proof (half h Heh) as Hh2. pose proof (half w Hew) as Hw2.
  assert (Hy1 : y1 = y + 1) by (unfold y1; by rewrite (proj2 (Z.ltb_lt _ _)) by lia).
  assert (Hg : forall i, 0 <= i < 4 ->
    neon_gather raw ((if 0 <? y then y - 1 else y) * w) (y * w) (y1 * w)
    ((if y + 2 <? h then y + 2 else y1) * w) (2 * bx + i * 2) =
    Some (neon_bilinear (2 * bx + i * 2 + 0) y, neon_bilinear (2 * bx + i * 2 + 1) y,
    neon_bilinear (2 * bx + i * 2 + 0) (y + 1), neon_bilinear (2 * bx + i * 2 + 1) (y + 1))).
  { intros i Hi. rewrite Z.add_0_r. apply neon_gather_px; [lia | | lia | lia].
    rewrite Z.even_add, !Z.even_mul. cbn. by rewrite orb_true_r. }
  unfold neon_process_8_columns.
  do 4 (eapply writes_bind; [apply Hg; lia | ]; cbn beta iota).
  rewrite !phase_lanes, Hy1. eapply writes_iff.
  - apply writes_seq; [ | apply writes_seq]; apply writes_when; intros Hn.
    + apply writes_seq; [ | apply writes_seq; [ | apply writes_seq]];
        apply put_y_lanes; done || lia.
    + apply writes_seq; [ | apply writes_seq; [ | apply writes_seq]];
        apply put_rgb_lanes; done || lia.
    + cbn [map].
      rewrite (neon_avg_lanes (fun i => neon_px (2 * bx + i * 2 + 0) y)
        (fun i => neon_px (2 * bx + i * 2 + 1) y) (fun i => neon_px (2 * bx + i * 2 + 0) (y + 1))
        (fun i => neon_px (2 * bx + i * 2 + 1) (y + 1)))
        by (intros; apply neon_px_le).
      apply for4_writes; [done | ]. intros i a Hi Ha. cbn [map] in Ha.
      unfold y in Ha. rewrite !block_avg in Ha.
      apply (lane4 (fun i => block_mean neon_px (bx + i) by_) i a Hi) in Ha. subst a.
      rewrite shr1, double_div.
      eapply (put_uv_writes w h ltac:(lia) ltac:(lia) _ sh hi Hsh Hhi _ _ (bx + i) by_);
        [done | unfold in_blk, uvw; lia | done | done | ..];
        cbn [neon_frame r_u r_v]; by rewrite Huv.
  - intros l _. rewrite <- pair_8. unfold Blocks. tauto.
Qed.
End Neon.

Section NeonDriver.
Context (w h : Z) (raw : list Z).
Hypothesis Hw : 16 <= w.
Hypothesis Hh : 4 <= h.
Hypothesis Hew : Z.even w = true.
Hypothesis Heh : Z.even h = true.
Hypothesis Hraw : raw_ok w h raw.
Hypothesis Hten : Forall (fun v => 0 <= v <= 1023) raw.
Context (sh : buf -> option Z) (hi hr : bool).
Hypothesis Hsh : forall b n, sh b = Some n -> need w h b <= n.
Hypothesis Hhi : has sh BI hi.
Hypothesis Hhr : has sh BR hr.
#[local] Abbreviation wrs R := (writes sh (fun l => l.1 <> BC) (frame_spec w h R)).

Lemma uv_block_writes by_ bx :
  hi = true -> in_blk w h bx by_ ->
  wrs (neon_render w h raw) (neon_uv_block w h raw (2 * by_) (2 * bx)) (ChromaAt w h bx by_).
Proof.
  intros Hn Hp.
  assert (P : forall dx dy, 0 <= dx < 2 -> 0 <= dy < 2 ->
    pixel8 raw w h (if w <=? 2 * bx + dx then w - 1 else 2 * bx + dx)
    (if h <=? 2 * by_ + dy then h - 1 else 2 * by_ + dy) =
    Some (sc_px w h raw (2 * bx + dx) (2 * by_ + dy))).
  { intros dx dy Hdx Hdy. pose proof (blk_in w h bx by_ dx dy Hew Heh Hp Hdx Hdy) as Hin.
    rewrite (proj2 (Z.leb_gt _ _)), (proj2 (Z.leb_gt _ _)) by (destruct Hin; lia).
    apply pixel8_px; done || lia. }
  unfold neon_uv_block.
  do 4 (eapply writes_bind; [apply P; lia | ]). rewrite !Z.add_0_r, avg4_mean, shr1, double_div.
  by eapply (put_uv_writes w h ltac:(lia) ltac:(lia) _ sh hi Hsh Hhi).
Qed.

(** RGB and luma of the columns [0 .. w) of rows [y], [y + 1]. *)
Lemma row_pixels_writes by_ :
  0 <= by_ < h / 2 ->
  let y := 2 * by_ in
  let y1 := if y + 1 <? h then y + 1 else y in
  wrs (neon_frame w h raw (neon_px w h raw))
  (for_ 0 (Z.min 4 w) 1 (neon_edge_column w h raw hi hr y) ;;;
   for_ 4 (w - 11) 8 (fun x =>
     neon_process_8_columns w h raw y y1 ((if 0 <? y then y - 1 else y) * w) (y * w) (y1 * w)
       ((if y + 2 <? h then y + 2 else y1) * w) x hi hr hi) ;;;
   for_ (neon_end w) w 1 (neon_edge_column w h raw hi hr y))
  (fun l => Pair w hi hr y 0 w l \/
     (hi = true /\ exists k, 0 <= k /\ 4 + k * 8 < w - 11 /\ Blocks w h (2 + k * 4) by_ 4 l)).
Proof.
  intros Hby y y1. pose proof (half h Heh) as Hh2. pose proof (half w Hew) as Hw2.
  destruct (neon_end_spec w Hw) as (n & En & Hn0 & Hend & Hk).
  assert (Hedge : forall x, 0 <= x < w -> interior w x = false ->
    wrs (neon_frame w h raw (neon_px w h raw)) (neon_edge_column w h raw hi hr y x)
    (Pair w hi hr y x 1)).
  { intros x Hx Hi. apply edge_column_writes; done || lia. }
  eapply writes_iff.
  - apply writes_seq; [ | apply writes_seq].
    + apply writes_for1. intros x Hx. apply Hedge; [lia | ].
      unfold interior. by rewrite (proj2 (Z.leb_gt _ _)) by lia.
    + apply (writes_for _ _ _ 4 (w - 11) 8 _ (fun x l => Pair w hi hr y x 8 l \/
        (hi = true /\ Blocks w h (x / 2) by_ 4 l))); [lia | ].
      intros k H0 H1. replace (4 + k * 8) with (2 * (2 + k * 4)) by lia. rewrite double_div.
      pose proof (proj2 (Hk k) (conj H0 H1)).
      apply (process_8_writes w h raw Hw Hh Hew Heh Hraw Hten sh hi hr); done || lia.
    + apply writes_for1. intros x Hx. apply Hedge; [lia | ].
      unfold interior. by rewrite (proj2 (Z.ltb_ge x _)), andb_false_r by lia.
  - intros l _. unfold Pair. split.
    + intros [(x & Hx & dx & dy & Hdx & Hdy & HP)
        |[(k & Hk0 & Hk1 & [(dx & dy & Hdx & Hdy & HP)|[Hn HB]])
        |(x & Hx & dx & dy & Hdx & Hdy & HP)]].
      * left. exists (x + dx), dy. split_and!; [lia.. | done].
      * left. exists (4 + k * 8 + dx), dy. pose proof (proj2 (Hk k) ltac:(lia)).
        split_and!; [lia.. | done].
      * right. split; [done | ]. exists k. split; [done | split; [done | ]].
        replace (4 + k * 8) with (2 * (2 + k * 4)) in HB by lia. by rewrite double_div in HB.
      * left. exists (x + dx), dy. split_and!; [lia.. | done].
    + intros [(x & dy & Hx & Hdy & HP)|(Hn & k & Hk0 & Hk1 & HB)].
      * destruct (decide (x < 4)); [left; exists x; split; [lia | ] | right].
        { exists 0, dy. rewrite (Z.add_0_r x). split_and!; done || lia. }
        destruct (decide (x < neon_end w)); [left | right].
        { exists ((x - 4) / 8). assert (0 <= (x - 4) / 8 < n) as [? ?]%Hk by dlia.
          split; [done | split; [done | ]]. left. exists ((x - 4) mod 8), dy.
          assert (E : 4 + (x - 4) / 8 * 8 + (x - 4) mod 8 = 0 + x) by dlia.
          rewrite E. split; [dlia | by split]. }
        exists x. split; [lia | ]. exists 0, dy. rewrite (Z.add_0_r x).
        split_and!; done || lia.
      * right. left. exists k. split; [done | split; [done | ]]. right. split; [done | ].
        replace (4 + k * 8) with (2 * (2 + k * 4)) by lia. by rewrite double_div.
Qed.

Lemma row_pair_writes by_ :
  0 <= by_ < h / 2 ->
  wrs (neon_render w h raw) (neon_row_pair w h raw hi hr (2 * by_))
  (fun l => Pair w hi hr (2 * by_) 0 w l \/
     (hi = true /\ exists bx, (0 <= bx < w / 2) /\ ChromaAt w h bx by_ l)).
Proof.
  intros Hby. pose proof (half h Heh) as Hh2. pose proof (half w Hew) as Hw2.
  eapply writes_iff.
  - eapply (writes_over sh _ (frame_spec w h (neon_frame w h raw (neon_px w h raw)))).
    + by apply row_pixels_writes.
    + apply writes_when. intros Hn.
      apply (writes_for_blocks _ _ _ 2 (w / 2)); [lia | done | ].
      intros bx Hbx. apply uv_block_writes; done.
    + cbv beta. intros l _ [(x & dy & Hx & Hdy & [[Hr HP]|[Hn ->]])|(Hn & k & Hk0 & Hk1 & i & Hi & HC)] HW.
      * destruct HP as (c & Hc & ->).
        by rewrite !spec_rgb by (split; lia || done).
      * by rewrite !spec_y by (split; lia || done).
      * destruct HW. split; [done | ]. exists (2 + k * 4 + i). split; [lia | done].
  - intros l _. cbv beta. split.
    + intros [[HP|(Hn & k & Hk0 & Hk1 & i & Hi & HC)]|(Hn & bx & Hbx & HC)]; [tauto | | ].
      * right. split; [done | ]. exists (2 + k * 4 + i). split; [lia | done].
      * right. split; [done | ]. by exists bx.
    + intros [HP|(Hn & bx & Hbx & HC)]; [tauto | ]. right. split; [done | ]. by exists bx.
Qed.

Lemma neon_frame_set l :
  (exists by_, (0 <= by_ < h / 2) /\ (Pair w hi hr (2 * by_) 0 w l \/
   (hi = true /\ exists bx, (0 <= bx < w / 2) /\ ChromaAt w h bx by_ l))) <->
  FrameSet w h hi hr l.
Proof.
  pose proof (half h Heh) as Hh2. unfold Pair, PxSet, FrameSet. split.
  - intros (by_ & Hby & [(x & dy & Hx & Hdy & [[Hn HP]|[Hn ->]])|(Hn & bx & Hbx & HC)]).
    + left. split; [done | ]. eexists _, _. split; [ | exact HP]. split; lia.
    + right. split; [done | ]. left. eexists _, _. split; [ | done]. split; lia.
    + right. split; [done | ]. right. exists bx, by_. split; [split; done || lia | done].
  - intros [(Hr & x & y & [Hx Hy] & HR)|(Hn & [(x & y & [Hx Hy] & ->)|(bx & by_ & [Hx Hy] & HC)])].
    + destruct (blk_split h y Heh Hy) as (by_ & dy & ? & ? & ->).
      exists by_. split; [done | ]. left. exists x, dy. split_and!; [lia.. | ]. left. done.
    + destruct (blk_split h y Heh Hy) as (by_ & dy & ? & ? & ->).
      exists by_. split; [done | ]. left. exists x, dy. split_and!; [lia.. | ]. right. done.
    + exists by_. split; [done | ]. right. split; [done | ]. by exists bx.
Qed.
End NeonDriver.

Lemma neon_runs w h raw m :
  16 <= w -> 4 <= h -> Z.even w = true -> Z.even h = true ->
  raw_ok w h raw -> Forall (fun v => 0 <= v <= 1023) raw -> fits w h m ->
  runs w h (neon_render w h raw) (aloe_rggb10_to_rgb888_i420_neon w h raw) m.
Proof.
  intros Hw Hh Hew Heh Hraw Hten Hfit.
  assert (Hwr : writes (fun b => blen b m) (fun l => l.1 <> BC)
    (frame_spec w h (neon_render w h raw))
    (for_ 0 h 2 (neon_row_pair w h raw (nonnull (i420 m)) (nonnull (rgb m))))
    (FrameSet w h (nonnull (i420 m)) (nonnull (rgb m)))).
  { eapply writes_iff.
    - apply (writes_for_blocks _ _ _ 2 (h / 2)); [lia | by apply half | ].
      intros by_ Hby. apply row_pair_writes; eauto with mach.
    - intros l _. by apply neon_frame_set. }
  unfold runs, writes_at, aloe_rggb10_to_rgb888_i420_neon.
  rewrite (proj2 (Z.ltb_ge w 16)), (proj2 (Z.ltb_ge h 4)) by lia. by apply Hwr.
Qed.

(** The pixels whose red the vector loop takes from the wrong row. *)
Definition red_bug (w x y : Z) : bool := interior w x && Z.odd y && Z.even x.

Lemma scale_small v : 0 <= v <= 1021 -> u8 (round8 v) = round8 v.
Proof. intros Hv. apply u8_id. unfold round8, is_u8. dlia. Qed.

Section Agree.
Context (w h : Z) (raw : list Z).
Hypothesis Hw : 16 <= w.
Hypothesis Hh : 4 <= h.
Hypothesis Hraw : raw_ok w h raw.
Hypothesis Hok : Forall (fun v => 0 <= v <= 1021) raw.

(** Below 1022 nothing wraps, and the two pixels differ in red only. *)
Lemma neon_sc_px x y :
  let '(r, g, b) := neon_px w h raw x y in
  let '(r', g', b') := sc_px w h raw x y in
  map3 u8 (r, g, b) = (r, g, b) /\ g = g' /\ b = b' /\ (red_bug w x y = false -> r = r').
Proof.
  assert (Hs : forall x y, 0 <= sample w h (raw_at w raw) x y <= 1021).
  { intros. apply (sample_Forall (fun v => 0 <= v <= 1021)); [lia | lia | done | done]. }
  unfold neon_px, neon_bilinear, sc_px, red_bug.
  pose proof (bilinear_between w h (raw_at w raw) 0 1021 x y Hs) as Hb.
  destruct (bilinear _ _ _ _ _) as [[r g] b]. destruct Hb as (Hr & Hg & Hb).
  pose proof (Hs x (y - 2)). pose proof (Hs x (y + 1)).
  destruct (_ && _ && _); cbn; rewrite !scale_small by (done || dlia); done.
Qed.

Lemma frames_agree l :
  (forall x y, in_px w h x y -> red_bug w x y = true -> l <> at_rgb w x y 0 /\ l <> at_y w x y) ->
  FrameSet w h true true l ->
  frame_spec w h (neon_render w h raw) l = frame_spec w h (sc_render w h raw) l.
Proof.
  intros HP [(_ & x & y & Hp & c & Hc & ->)|(_ & [(x & y & Hp & ->)|(bx & by_ & Hp & [-> | ->])])].
  - rewrite !spec_rgb by (done || lia). cbn [neon_render neon_frame sc_render full_render r_px].
    pose proof (neon_sc_px x y) as Hpx. pose proof (sc_px_u8 w h raw x y) as Hu.
    destruct (neon_px w h raw x y) as [[r g] b], (sc_px w h raw x y) as [[r' g'] b'].
    destruct Hpx as (-> & -> & -> & Hr), Hu as (? & ? & ?). cbn. rewrite !u8_id by done.
    destruct (red_bug w x y) eqn:Hbug.
    + destruct (Z.eqb_spec c 0) as [-> | ]; [ | done]. by destruct (HP x y Hp Hbug).
    + by rewrite Hr.
  - rewrite !spec_y by (done || lia). cbn [neon_render neon_frame sc_render full_render r_y].
    destruct (red_bug w x y) eqn:Hbug; [by destruct (HP x y Hp Hbug) | ].
    pose proof (neon_sc_px x y) as Hpx.
    destruct (neon_px w h raw x y) as [[r g] b], (sc_px w h raw x y) as [[r' g'] b'].
    destruct Hpx as (-> & -> & -> & Hr). rewrite Hr by done. by destruct (interior w x).
  - by rewrite !spec_u by (done || lia).
  - by rewrite !spec_v by (done || lia).
Qed.
End Agree.

Lemma simd_portable w h raw tgt m :
  0 < w -> 0 < h -> Z.even w = true -> Z.even h = true -> (tgt = NEON -> w < 16 \/ h < 4) ->
  aloe_rggb10_to_rgb888_i420_simd tgt w h (Some raw) m =
  aloe_rggb10_to_rgb888_i420_scalar w h raw m.
Proof.
  intros Hw Hh Hew Heh Ht. unfold aloe_rggb10_to_rgb888_i420_simd.
  rewrite !land1_even, Hew, Heh, (proj2 (Z.leb_gt w 0)), (proj2 (Z.leb_gt h 0)) by lia.
  cbn [orb negb]. destruct tgt; [done | | done]. unfold aloe_rggb10_to_rgb888_i420_neon.
  destruct (Z.ltb_spec w 16), (Z.ltb_spec h 4); [done.. | ]. destruct (Ht eq_refl); lia.
Qed.

Lemma simd_neon w h raw m :
  0 < w -> 0 < h -> Z.even w = true -> Z.even h = true ->
  aloe_rggb10_to_rgb888_i420_simd NEON w h (Some raw) m =
  aloe_rggb10_to_rgb888_i420_neon w h raw m.
Proof.
  intros Hw Hh Hew Heh. unfold aloe_rggb10_to_rgb888_i420_simd.
  by rewrite !land1_even, Hew, Heh, (proj2 (Z.leb_gt w 0)), (proj2 (Z.leb_gt h 0)) by lia.
Qed.

(* ------------------------------------------------------------------ *)
(** ** Properties *)

(** C31: on the portable and AVX2 builds (and, for a frame narrower than 16 or
    lower than 4, the NEON one) the public converter stores the bilinear
    demosaic scaled by [(v + 2) / 4], cast to 8 bits, and its I420 frame. *)
Theorem simd_portable_refines tgt w h raw m :
  0 < w -> 0 < h -> Z.even w = true -> Z.even h = true ->
  (tgt = NEON -> w < 16 \/ h < 4) -> raw_ok w h raw -> fits w h m ->
  exists m', aloe_rggb10_to_rgb888_i420_simd tgt w h (Some raw) m = Some m' /\
    renders w h (sc_render w h raw) m m'.
Proof.
  intros. rewrite simd_portable by done. apply runs_renders; [done.. | by apply scalar_runs].
Qed.

(** The NEON build stores, on 10-bit input, [neon_render]: the same
    frame except that red on the odd rows' even columns of the vector loop is
    interpolated between rows [y - 2] and [y + 1] instead of [y - 1] and
    [y + 1], and that luma is taken before the cast. *)
Theorem neon_refines w h raw m :
  16 <= w -> 4 <= h -> Z.even w = true -> Z.even h = true ->
  raw_ok w h raw -> Forall (fun v => 0 <= v <= 1023) raw -> fits w h m ->
  exists m', aloe_rggb10_to_rgb888_i420_simd NEON w h (Some raw) m = Some m' /\
    renders w h (neon_render w h raw) m m'.
Proof.
  intros. rewrite simd_neon by (done || lia).
  apply runs_renders; [lia | lia | by apply neon_runs].
Qed.

(** On samples up to 1021 the NEON and the portable build leave the same
    bytes (all of chroma, green and blue included) except the red and luma of
    the pixels of [red_bug]. *)
Theorem neon_agrees w h raw m :
  16 <= w -> 4 <= h -> Z.even w = true -> Z.even h = true ->
  raw_ok w h raw -> Forall (fun v => 0 <= v <= 1021) raw -> fits w h m ->
  exists m1 m2, aloe_rggb10_to_rgb888_i420_simd NEON w h (Some raw) m = Some m1 /\
    aloe_rggb10_to_rgb888_i420_simd PORTABLE w h (Some raw) m = Some m2 /\
    forall l, l.1 <> BC ->
      (forall x y, in_px w h x y -> red_bug w x y = true ->
         l <> at_rgb w x y 0 /\ l <> at_y w x y) ->
      at_ m1 l = at_ m2 l.
Proof.
  intros Hw Hh Hew Heh Hraw Hok Hfit.
  rewrite simd_neon, simd_portable by (done || lia).
  apply (runs_agree w h (neon_render w h raw) (sc_render w h raw)).
  - intros l HP HF. apply frames_agree; [lia.. | done | done | done | ].
    unfold FrameSet in *. tauto.
  - apply neon_runs; try done. eapply Forall_impl; [exact Hok | cbn; lia].
  - apply scalar_runs; done || lia.
Qed.

(** [avx2_process_8_columns] has no defined run: it loads 256 bits from
    its 8-element temporaries. *)
Theorem avx2_columns_undefined raw row_m1 row_0 row_1 row_p2 x y_row_0 y_row_1 write_y m :
  avx2_process_8_columns raw row_m1 row_0 row_1 row_p2 x y_row_0 y_row_1 write_y m = None.
Proof.
  unfold avx2_process_8_columns, bindv.
  assert (Hlanes : forall l, length l = 8%nat -> avx2_lanes l = None).
  { intros l Hl. unfold avx2_lanes, mm256_load_si256. by rewrite !length_map, Hl. }
  destruct (mapM (avx2_gather raw row_m1 row_0 row_1 row_p2 x) (seqZ 0 8)) as [temps|] eqn:Ht.
  - assert (Hl : length temps = 8%nat) by (apply length_mapM in Ht; by rewrite <- Ht).
    cbn [mbind option_bind]. rewrite (Hlanes (map fst temps)) by (by rewrite length_map).
    by repeat (destruct (mapM _ _); cbn [mbind option_bind]).
  - by repeat (destruct (mapM _ _); cbn [mbind option_bind]).
Qed.

(** A NULL frame, an empty one or one with an odd side is rejected on
    every build. *)
Theorem simd_rejects tgt w h raw m :
  raw = None \/ w <= 0 \/ h <= 0 \/ Z.odd w = true \/ Z.odd h = true ->
  aloe_rggb10_to_rgb888_i420_simd tgt w h raw m = Some m.
Proof.
  intros Hbad. unfold aloe_rggb10_to_rgb888_i420_simd. destruct raw as [raw|]; [ | done].
  destruct ((w <=? 0) || (h <=? 0)) eqn:E; [done | ].
  apply orb_false_iff in E as [?%Z.leb_gt ?%Z.leb_gt].
  rewrite !land1_even, !Z.negb_even.
  destruct Hbad as [|[?|[?|[->| ->]]]]; [done | lia | lia | done | by rewrite orb_true_r].
Qed.

(* ------------------------------------------------------------------ *)
(** ** Witnesses: a 16x4 frame *)

Definition raw16 : list Z := map (fun k => (k * k * 7 + 13 * k) mod 1021) (seqZ 0 64).
Definition mem16 : mem := Mem (Some (replicate 97 7)) (Some (replicate 192 9)) None.

Lemma fits16 : fits 16 4 mem16.
Proof. intros [] n; cbn; intros [= <-]; done. Defined.

Lemma raw16_bound : Forall (fun v => 0 <= v <= 1021) raw16.
Proof. apply (bool_decide_unpack _). by vm_compute. Defined.

Lemma raw16_ten : Forall (fun v => 0 <= v <= 1023) raw16.
Proof. apply (bool_decide_unpack _). by vm_compute. Defined.

Lemma raw_ok16 : raw_ok 16 4 raw16.
Proof.
  split; [done | ]. eapply Forall_impl; [exact raw16_bound | ]. unfold is_u16. cbn. lia.
Defined.

Lemma simd_portable_refines_witness :
  exists m', aloe_rggb10_to_rgb888_i420_simd AVX2 16 4 (Some raw16) mem16 = Some m' /\
    renders 16 4 (sc_render 16 4 raw16) mem16 m'.
Proof.
  apply (simd_portable_refines AVX2 16 4 raw16 mem16 ltac:(lia) ltac:(lia) eq_refl eq_refl
    ltac:(done) raw_ok16 fits16).
Defined.

Lemma neon_refines_witness :
  exists m', aloe_rggb10_to_rgb888_i420_simd NEON 16 4 (Some raw16) mem16 = Some m' /\
    renders 16 4 (neon_render 16 4 raw16) mem16 m'.
Proof.
  apply (neon_refines 16 4 raw16 mem16 ltac:(lia) ltac:(lia) eq_refl eq_refl
    raw_ok16 raw16_ten fits16).
Defined.

Lemma neon_agrees_witness :
  exists m1 m2, aloe_rggb10_to_rgb888_i420_simd NEON 16 4 (Some raw16) mem16 = Some m1 /\
    aloe_rggb10_to_rgb888_i420_simd PORTABLE 16 4 (Some raw16) mem16 = Some m2 /\
    forall l, l.1 <> BC ->
      (forall x y, in_px 16 4 x y -> red_bug 16 x y = true ->
         l <> at_rgb 16 x y 0 /\ l <> at_y 16 x y) ->
      at_ m1 l = at_ m2 l.
Proof.
  apply (neon_agrees 16 4 raw16 mem16 ltac:(lia) ltac:(lia) eq_refl eq_refl
    raw_ok16 raw16_bound fits16).
Defined.

Lemma simd_rejects_witness :
  aloe_rggb10_to_rgb888_i420_simd NEON 15 4 (Some raw16) mem16 = Some mem16.
Proof. apply (simd_rejects NEON 15 4 (Some raw16) mem16). tauto. Defined.

(** The red of pixel [(4, 3)] on the two builds. *)
Example neon_red_differs :
  (m ← aloe_rggb10_to_rgb888_i420_simd NEON 16 4 (Some raw16) mem16; at_ m (at_rgb 16 4 3 0)) <>
  (m ← aloe_rggb10_to_rgb888_i420_simd PORTABLE 16 4 (Some raw16) mem16; at_ m (at_rgb 16 4 3 0)).
Proof. by vm_compute. Qed.
