(* ===== verification/BayerSimdV2.v ===== *)
(** BayerSimdV2: package/aloe/simd/rggb10_rgb888_i420_simd_v2.cpp.  The scalar
    converter demosaics two rows at a time into a scratch buffer and computes
    chroma from it; the NEON converter demosaics into 16-bit temporaries
    through [int] pointers and stores nothing. *)

From S2P Require Import Prelude Frame Bayer BayerSimd.

Local Open Scope cmd_scope.

(* ------------------------------------------------------------------ *)
(** ** Helpers *)

Definition clamp_u8 (v : Z) : Z :=
  if v <? 0 then 0 else if 255 <? v then 255 else u8 v.

Definition raw10_to_u8 (v : Z) : Z := u8 (Z.shiftr (v + 2) 2).

Definition rgb_to_y (r g b : Z) : Z :=
  clamp_u8 (Z.shiftr (66 * r + 129 * g + 25 * b + 128) 8 + 16).

Definition rgb_to_u (r g b : Z) : Z :=
  clamp_u8 (Z.shiftr (-38 * r - 74 * g + 112 * b + 128) 8 + 128).

Definition rgb_to_v (r g b : Z) : Z :=
  clamp_u8 (Z.shiftr (112 * r - 94 * g - 18 * b + 128) 8 + 128).

Definition demosaic_rggb10 (raw : list Z) (width height x y : Z) : option (Z * Z * Z) :=
  let xm1 := if 0 <? x then x - 1 else x in
  let xp1 := if x + 1 <? width then x + 1 else x in
  let ym1 := if 0 <? y then y - 1 else y in
  let yp1 := if y + 1 <? height then y + 1 else y in
  let row_m1 i := rd raw (ym1 * width + i) in
  let row i := rd raw (y * width + i) in
  let row_p1 i := rd raw (yp1 * width + i) in
  let even_y := Z.land y 1 =? 0 in
  let even_x := Z.land x 1 =? 0 in
  if even_y && even_x then
    r ← row x;
    g ← osum [row xm1; row xp1; row_m1 x; row_p1 x];
    b ← osum [row_m1 xm1; row_m1 xp1; row_p1 xm1; row_p1 xp1];
    Some (r, Z.shiftr g 2, Z.shiftr b 2)
  else if even_y && negb even_x then
    g ← row x;
    r ← osum [row xm1; row xp1];
    b ← osum [row_m1 x; row_p1 x];
    Some (Z.shiftr r 1, g, Z.shiftr b 1)
  else if negb even_y && even_x then
    g ← row x;
    r ← osum [row_m1 x; row_p1 x];
    b ← osum [row xm1; row xp1];
    Some (Z.shiftr r 1, g, Z.shiftr b 1)
  else
    b ← row x;
    g ← osum [row xm1; row xp1; row_m1 x; row_p1 x];
    r ← osum [row_m1 xm1; row_m1 xp1; row_p1 xm1; row_p1 xp1];
    Some (Z.shiftr r 2, Z.shiftr g 2, b).

(* ------------------------------------------------------------------ *)
(** ** convert_scalar *)

Definition store3 (b : buf) (i : Z) (p : Z * Z * Z) : cmd mem :=
  let '(r8, g8, b8) := p in wr b (i + 0) r8 ;;; wr b (i + 1) g8 ;;; wr b (i + 2) b8.

(** One pixel of the two-row demosaic: into [rgb_cache] ([BC]), then out. *)
Definition cache_pixel (width height : Z) (raw : list Z) (i420 rgb : bool) (y dy x : Z)
    : cmd mem :=
  let py := y + dy in
  let cache := dy * (width * 3) in
  let* p := demosaic_rggb10 raw width height x py in
  let '(r8, g8, b8) := map3 (fun v => raw10_to_u8 (u16 v)) p in
  store3 BC (cache + x * 3) (r8, g8, b8) ;;;
  when rgb (store3 BR ((py * width + x) * 3) (r8, g8, b8)) ;;;
  when i420 (wr BI (py * width + x) (rgb_to_y r8 g8 b8)).

(** The chroma of one block, from the cached rows [c]. *)
Definition block_of_cache (width height : Z) (c : list Z) (y x : Z) : cmd mem :=
  let uv_width := Z.shiftr width 1 in
  let u_row := width * height + Z.shiftr y 1 * uv_width in
  let v_row := u_row + uv_width * Z.shiftr height 1 in
  let row_0 i := rd c i in
  let row_1 i := rd c (width * 3 + i) in
  let sum k := osum [row_0 (x * 3 + k); row_0 (x * 3 + (k + 3));
                     row_1 (x * 3 + k); row_1 (x * 3 + (k + 3))] in
  let* r_sum := sum 0 in
  let* g_sum := sum 1 in
  let* b_sum := sum 2 in
  let r_avg := Z.shiftr r_sum 2 in
  let g_avg := Z.shiftr g_sum 2 in
  let b_avg := Z.shiftr b_sum 2 in
  wr BI (u_row + Z.shiftr x 1) (rgb_to_u r_avg g_avg b_avg) ;;;
  wr BI (v_row + Z.shiftr x 1) (rgb_to_v r_avg g_avg b_avg).

Definition cache_block (width height : Z) (y x : Z) : cmd mem :=
  fun m => c ← cache m; block_of_cache width height c y x m.

(** [new uint8_t[..]] with unspecified contents [junk]; [delete[]]. *)
Definition new_cache (junk : Z) (n : Z) : cmd mem :=
  fun m => Some (Mem (i420 m) (rgb m) (Some (replicate (Z.to_nat n) junk))).
Definition delete_cache : cmd mem := fun m => Some (Mem (i420 m) (rgb m) None).

Definition convert_scalar (junk width height : Z) (raw : list Z) : cmd mem :=
  fun m =>
    let hi := nonnull (i420 m) in
    let hr := nonnull (rgb m) in
    (new_cache junk (width * 2 * 3) ;;;
     for_ 0 height 2 (fun y =>
       for_ 0 2 1 (fun dy =>
         for_ 0 width 1 (fun x => cache_pixel width height raw hi hr y dy x)) ;;;
       when hi (for_ 0 width 2 (fun x => cache_block width height y x))) ;;;
     delete_cache) m.

(* ------------------------------------------------------------------ *)
(** ** NEON helpers *)

(** No caller in the file; eight 16-bit lanes. *)
Definition neon_raw10_to_u8 (v : list Z) : list Z :=
  map (fun x => Z.shiftr x 2) (zip_with (fun x y => u16 (x + y)) v (replicate 8 2)).

(** [vqmovn_u16]: unsigned saturation. *)
Definition neon_pack_u16 (v : list Z) : list Z := map (fun x => Z.min x 255) v.

(** Four 32-bit lanes: [vget_low_u16] or [vget_high_u16], widened. *)
Definition neon_y_half (r g b : list Z) : list Z :=
  let mul v n := map (fun x => u32 (x * n)) v in
  let add := zip_with (fun x y => u32 (x + y)) in
  let y := add (add (mul r 66) (mul g 129)) (mul b 25) in
  let y := add y (replicate 4 128) in
  let y := map (fun x => Z.shiftr x 8) y in
  let y := add y (replicate 4 16) in
  map u16 y.

Definition neon_rgb_to_y (r g b : list Z) : list Z :=
  let y_lo := neon_y_half (take 4 r) (take 4 g) (take 4 b) in
  let y_hi := neon_y_half (drop 4 r) (drop 4 g) (drop 4 b) in
  neon_pack_u16 (y_lo ++ y_hi).

(** Signed lanes; [vqmovun_s16] saturates to 0..255. *)
Definition neon_uv_lane (cr cg cb : Z) (r g b : list Z) : list Z :=
  let term v c := map (fun x => Z.shiftr (s16 (s16 x * c)) 8) v in
  let add := zip_with (fun x y => s16 (x + y)) in
  let a := add (replicate 8 128) (term r cr) in
  let a := add a (term g cg) in
  let a := add a (term b cb) in
  map (fun x => Z.max 0 (Z.min 255 x)) a.

Definition neon_rgb_to_uv (r g b : list Z) : list Z * list Z :=
  (neon_uv_lane (-38) (-74) 112 r g b, neon_uv_lane 112 (-94) (-18) r g b).

(* ------------------------------------------------------------------ *)
(** ** convert_neon *)

(** Writing through [(int * )&tmp[i]] stores the two halves at [i], [i + 1]. *)
Definition put_int (a : list Z) (i v : Z) : option (list Z) :=
  a' ← upd a i (u16 v); upd a' (i + 1) (u16 (Z.shiftr v 16)).

Definition temps : Type := (list Z * list Z * list Z)%type.

(** One of the two demosaic loops of an iteration. *)
Definition demosaic_temps (raw : list Z) (width height x y : Z) : cmd temps :=
  for_ 0 8 1 (fun i '(rt, gt, bt) =>
    '(r, g, b) ← demosaic_rggb10 raw width height (x + i) y;
    rt' ← put_int rt i r; gt' ← put_int gt i g; bt' ← put_int bt i b;
    Some (rt', gt', bt')).

Definition convert_neon (junk width height : Z) (raw : list Z) : cmd mem :=
  let fresh := (replicate 8 junk, replicate 8 junk, replicate 8 junk) in
  new_cache junk (width * 2 * 3) ;;;
  for_ 0 height 2 (fun y =>
    let y1 := y + 1 in
    for_ 0 width 8 (fun x =>
      let* _ := demosaic_temps raw width height x y fresh in
      let* _ := demosaic_temps raw width height x y1 fresh in
      skip)) ;;;
  delete_cache.

(* ------------------------------------------------------------------ *)
(** ** Public API *)

Definition aloe_rggb10_to_rgb888_i420_simd_v2 (neon : bool) (junk width height : Z)
    (raw : option (list Z)) : cmd mem :=
  fun m =>
    match raw with
    | None => Some m
    | Some raw =>
        if (width <=? 0) || (height <=? 0) then Some m
        else if negb (Z.land width 1 =? 0) || negb (Z.land height 1 =? 0) then Some m
        else if neon then convert_neon junk width height raw m
        else convert_scalar junk width height raw m
    end.

(* ------------------------------------------------------------------ *)
(** ** The scalar converter *)

(** A loop may be replaced by one that agrees with it on an invariant. *)
Lemma for_agree {S} (I : S -> Prop) lo hi step (f g : Z -> cmd S) s :
  (forall i s, I s -> f i s = g i s) ->
  (forall i s s', I s -> g i s = Some s' -> I s') ->
  I s -> for_ lo hi step f s = for_ lo hi step g s.
Proof.
  intros Hfg Hg. unfold for_. generalize (trips lo hi step) as n. intros n. revert lo s.
  induction n as [|n IH]; intros lo s Hs; [done | ]. cbn. unfold cseq.
  rewrite Hfg by done. destruct (g lo s) as [s'|] eqn:E; [cbn | done]. eauto.
Qed.

Lemma wr_keeps_cache b i v m m' : b <> BC -> wr b i v m = Some m' -> cache m' = cache m.
Proof.
  unfold wr. intros Hb. destruct (sel b m) as [l|]; [cbn | done].
  destruct (upd l i v) as [l'|]; [cbn | done]. intros [= <-]. by destruct b.
Qed.

Lemma block_keeps_cache w h c y x m m' :
  block_of_cache w h c y x m = Some m' -> cache m' = cache m.
Proof.
  intros (? & _ & (? & _ & (? & _ & (m1 & E1 & E2)%cseq_Some)%bindv_Some)%bindv_Some)%bindv_Some.
  apply wr_keeps_cache in E1; [ | done]. apply wr_keeps_cache in E2; [ | done]. congruence.
Qed.

Section Scalar2.
Context (w h : Z) (raw : list Z).
Hypothesis Hw : 0 < w.
Hypothesis Hh : 0 < h.
Hypothesis Hew : Z.even w = true.
Hypothesis Heh : Z.even h = true.
Hypothesis Hraw : raw_ok w h raw.

Lemma demosaic2_same x y :
  in_px w h x y -> demosaic_rggb10 raw w h x y = demosaic_rggb10_pixel raw w h x y.
Proof.
  intros [Hx Hy]. unfold demosaic_rggb10, demosaic_rggb10_pixel.
  replace (if 0 <? x then x - 1 else x) with (if 0 <? x then x - 1 else 0)
    by (destruct (Z.ltb_spec 0 x); lia).
  replace (if 0 <? y then y - 1 else y) with (if 0 <? y then y - 1 else 0)
    by (destruct (Z.ltb_spec 0 y); lia).
  replace (if x + 1 <? w then x + 1 else x) with (if x + 1 <? w then x + 1 else w - 1)
    by (destruct (Z.ltb_spec (x + 1) w); lia).
  by replace (if y + 1 <? h then y + 1 else y) with (if y + 1 <? h then y + 1 else h - 1)
    by (destruct (Z.ltb_spec (y + 1) h); lia).
Qed.

Lemma demosaic2_px x y : in_px w h x y ->
  exists p, demosaic_rggb10 raw w h x y = Some p /\
  map3 (fun v => raw10_to_u8 (u16 v)) p = sc_px w h raw x y.
Proof.
  intros Hp. pose proof (pixel8_px w h raw Hw Hh Hraw x y Hp) as H.
  unfold pixel8 in H. rewrite <- demosaic2_same in H by done.
  destruct (demosaic_rggb10 raw w h x y) as [p|]; [ | done].
  exists p. split; [done | ]. by apply (inj Some) in H.
Qed.

(** What the two rows leave behind, [rgb_cache] included. *)
Definition row_spec (by_ : Z) (l : loc) : Z :=
  match l with
  | (BC, k) => comp (k mod 3) (sc_px w h raw ((k / 3) mod w) (2 * by_ + k / 3 / w))
  | _ => frame_spec w h (sc_render w h raw) l
  end.

Definition at_cache (dy x c : Z) : loc := (BC, dy * (w * 3) + x * 3 + c).

Lemma spec_cache by_ dy x c :
  0 <= x < w -> 0 <= c < 3 -> row_spec by_ (at_cache dy x c) = comp c (sc_px w h raw x (2 * by_ + dy)).
Proof.
  intros Hx Hc. unfold at_cache. cbn.
  replace (dy * (w * 3) + x * 3 + c) with ((dy * w + x) * 3 + c) by lia.
  by rewrite (mod_row 3 c), (div_row 3 c), mod_row, div_row by lia.
Qed.

Context (sh : buf -> option Z) (hi hr : bool).
Hypothesis Hsh : forall b n, sh b = Some n -> need w h b <= n.
Hypothesis Hhi : has sh BI hi.
Hypothesis Hhr : has sh BR hr.
Hypothesis Hcache : sh BC = Some (w * 2 * 3).
Let all (l : loc) : Prop := True.
#[local] Abbreviation wrs by_ := (writes sh all (row_spec by_)).

Lemma frame_row by_ f W :
  writes sh all (frame_spec w h (sc_render w h raw)) f W -> (forall l, W l -> l.1 <> BC) ->
  wrs by_ f W.
Proof.
  intros Hf HW. eapply writes_spec; [exact Hf | ]. intros [b k] _ Hl.
  apply HW in Hl. by destruct b.
Qed.

Definition CacheAt (dy x : Z) (l : loc) : Prop := exists c, 0 <= c < 3 /\ l = at_cache dy x c.

Lemma cache_store_writes by_ dy x r g b :
  0 <= x < w -> 0 <= dy < 2 -> sc_px w h raw x (2 * by_ + dy) = (r, g, b) ->
  wrs by_ (store3 BC (dy * (w * 3) + x * 3) (r, g, b)) (CacheAt dy x).
Proof.
  intros Hx Hdy He. unfold store3.
  assert (0 <= dy * (w * 3) + x * 3 /\ dy * (w * 3) + x * 3 + 3 <= w * 2 * 3) by nia.
  eapply writes_iff.
  - apply writes_seq; [ | apply writes_seq]; eapply writes_wr; try done; try lia;
      match goal with |- _ = row_spec _ (BC, ?i + ?c) =>
      change (BC, i + c) with (at_cache dy x c); rewrite spec_cache by lia; by rewrite He end.
  - intros l _. unfold CacheAt, at_cache. split.
    + intros [->|[->| ->]]; [exists 0 | exists 1 | exists 2]; (split; [lia | done]).
    + intros (c & Hc & ->). assert (c = 0 \/ c = 1 \/ c = 2) as [->|[->| ->]] by lia; tauto.
Qed.

Lemma cache_pixel_writes by_ dy x :
  0 <= by_ < h / 2 -> 0 <= dy < 2 -> 0 <= x < w ->
  wrs by_ (cache_pixel w h raw hi hr (2 * by_) dy x)
  (fun l => CacheAt dy x l \/ PxSet w hi hr x (2 * by_ + dy) l).
Proof.
  intros Hby Hdy Hx. pose proof (half h Heh) as Hh2.
  assert (Hp : in_px w h x (2 * by_ + dy)) by (split; lia).
  destruct (demosaic2_px _ _ Hp) as (p & Ep & Em).
  unfold cache_pixel. eapply writes_bind; [exact Ep | ]. rewrite Em.
  pose proof (sc_px_u8 w h raw x (2 * by_ + dy)) as Hu.
  destruct (sc_px w h raw x (2 * by_ + dy)) as [[r g] b] eqn:He. destruct Hu as (? & ? & ?).
  apply writes_seq; [by apply cache_store_writes | ].
  apply writes_seq; apply writes_when; intros Hn.
  - apply frame_row; [ | by intros l (c & _ & ->)].
    destruct (Hhr Hn) as [n Hsn]. eapply (writes_rgb w h); try done.
    change (r_px (sc_render w h raw) x (2 * by_ + dy)) with (map3 u8 (sc_px w h raw x (2 * by_ + dy))).
    rewrite He. cbn. by rewrite !u8_id.
  - apply frame_row; [ | by intros l ->].
    destruct (Hhi Hn) as [n Hsn]. eapply (writes_y w h); try done.
    change (r_y (sc_render w h raw) x (2 * by_ + dy)) with (luma (sc_px w h raw x (2 * by_ + dy))).
    rewrite He. apply rgb_to_y_luma.
Qed.

Lemma block_of_cache_writes by_ bx c :
  hi = true -> in_blk w h bx by_ ->
  (forall dy x k, 0 <= dy < 2 -> 0 <= x < w -> 0 <= k < 3 ->
   rd c (dy * (w * 3) + x * 3 + k) = Some (comp k (sc_px w h raw x (2 * by_ + dy)))) ->
  wrs by_ (block_of_cache w h c (2 * by_) (2 * bx)) (ChromaAt w h bx by_).
Proof.
  intros Hn Hp Hc. pose proof (half w Hew) as Hw2. unfold uvw in *.
  assert (Hx : 0 <= 2 * bx /\ 2 * bx + 1 < w) by (destruct Hp; unfold uvw in *; lia).
  set (P := sc_px w h raw) in *.
  assert (Hsum : forall k, 0 <= k < 3 ->
    osum [rd c (2 * bx * 3 + k); rd c (2 * bx * 3 + (k + 3));
    rd c (w * 3 + (2 * bx * 3 + k)); rd c (w * 3 + (2 * bx * 3 + (k + 3)))] =
    Some (comp k (P (2 * bx) (2 * by_)) + comp k (P (2 * bx + 1) (2 * by_)) +
    comp k (P (2 * bx) (2 * by_ + 1)) + comp k (P (2 * bx + 1) (2 * by_ + 1)))).
  { intros k Hk. pose proof (Hc 0 (2 * bx) k). pose proof (Hc 0 (2 * bx + 1) k).
    pose proof (Hc 1 (2 * bx) k). pose proof (Hc 1 (2 * bx + 1) k).
    replace (2 * bx * 3 + k) with (0 * (w * 3) + 2 * bx * 3 + k) by lia.
    replace (2 * bx * 3 + (k + 3)) with (0 * (w * 3) + (2 * bx + 1) * 3 + k) by lia.
    replace (w * 3 + (0 * (w * 3) + 2 * bx * 3 + k)) with (1 * (w * 3) + 2 * bx * 3 + k) by lia.
    replace (w * 3 + (0 * (w * 3) + (2 * bx + 1) * 3 + k))
      with (1 * (w * 3) + (2 * bx + 1) * 3 + k) by lia.
    rewrite !Hc by lia. rewrite !Z.add_0_r. cbn [osum mbind option_bind]. f_equal. lia. }
  unfold block_of_cache.
  do 3 (eapply writes_bind; [apply Hsum; lia | ]).
  pose proof (avg4_mean P bx by_) as Hm. unfold avg4 in Hm.
  destruct (P (2 * bx) (2 * by_)) as [[? ?] ?], (P (2 * bx + 1) (2 * by_)) as [[? ?] ?],
    (P (2 * bx) (2 * by_ + 1)) as [[? ?] ?], (P (2 * bx + 1) (2 * by_ + 1)) as [[? ?] ?].
  cbn [add3 map3] in Hm. cbn [comp Z.eqb Pos.eqb].
  rewrite !shr1, !double_div. destruct (Hhi Hn) as [n Hsn].
  apply frame_row; [ | by intros l [-> | ->]].
  apply writes_seq.
  - eapply (writes_u w h); try done; [unfold uvw; lia | ].
    change (r_u (sc_render w h raw) bx by_) with (chroma_u (block_mean P bx by_)).
    rewrite <- Hm. apply rgb_to_u_chroma.
  - eapply (writes_v w h); try done; [unfold uvw, uv_size, uvw; lia | ].
    change (r_v (sc_render w h raw) bx by_) with (chroma_v (block_mean P bx by_)).
    rewrite <- Hm. apply rgb_to_v_chroma.
Qed.

Lemma row_body_writes by_ :
  0 <= by_ < h / 2 ->
  wrs by_
  (for_ 0 2 1 (fun dy => for_ 0 w 1 (fun x => cache_pixel w h raw hi hr (2 * by_) dy x)) ;;;
   when hi (for_ 0 w 2 (fun x => cache_block w h (2 * by_) x)))
  (fun l => (exists dy, (0 <= dy < 2) /\ exists x, (0 <= x < w) /\
               (CacheAt dy x l \/ PxSet w hi hr x (2 * by_ + dy) l)) \/
     (hi = true /\ exists bx, (0 <= bx < w / 2) /\ ChromaAt w h bx by_ l)).
Proof.
  intros Hby. apply writes_seq_known.
  { apply writes_for1. intros dy Hdy. apply writes_for1. intros x Hx.
    by apply cache_pixel_writes. }
  intros m Hm Hfact.
  assert (Hc : exists c, cache m = Some c).
  { pose proof (Hm BC) as HBC. rewrite Hcache in HBC. unfold blen in HBC. cbn in HBC.
    destruct (cache m); [eauto | done]. }
  destruct Hc as [c Hc].
  assert (Hwr : wrs by_ (when hi (for_ 0 w 2 (fun x => block_of_cache w h c (2 * by_) x)))
    (fun l => hi = true /\ exists bx, (0 <= bx < w / 2) /\ ChromaAt w h bx by_ l)).
  { apply writes_when. intros Hn.
    apply (writes_for_blocks _ _ _ 2 (w / 2)); [lia | by apply half | ].
    intros bx Hbx. apply block_of_cache_writes; [done | done | ].
    intros dy x k Hdy Hx Hk. rewrite <- spec_cache by lia.
    assert (HL : at_ m (at_cache dy x k) = Some (row_spec by_ (at_cache dy x k))).
    { apply Hfact; [done | ]. exists dy. split; [done | ]. exists x. split; [done | ]. left.
      by exists k. }
    unfold at_ in HL. cbn [fst snd at_cache sel] in HL. by rewrite Hc in HL. }
  destruct (Hwr m Hm) as (m' & E & Hm'). exists m'. split; [ | exact Hm'].
  rewrite <- E. destruct hi; [cbn | done].
  apply (for_agree (fun m => cache m = Some c)); [ | | done].
  - intros x s Hs. unfold cache_block. by rewrite Hs.
  - intros x s s' Hs Es. by rewrite (block_keeps_cache _ _ _ _ _ _ _ Es).
Qed.

Lemma rows_writes :
  writes sh (fun l => l.1 <> BC) (frame_spec w h (sc_render w h raw))
  (for_ 0 h 2 (fun y =>
     for_ 0 2 1 (fun dy => for_ 0 w 1 (fun x => cache_pixel w h raw hi hr y dy x)) ;;;
     when hi (for_ 0 w 2 (fun x => cache_block w h y x))))
  (FrameSet w h hi hr).
Proof.
  eapply writes_iff.
  - apply (writes_for_blocks _ _ _ 2 (h / 2)); [lia | by apply half | ].
    intros by_ Hby. eapply writes_spec.
    + eapply writes_own; [by apply row_body_writes | done].
    + intros [[] k] Hl _; done.
  - intros l Hl. rewrite <- (neon_frame_set w h Heh). cbv beta. unfold Pair.
    split; intros (by_ & Hby & HH); exists by_; (split; [done | ]); destruct HH as [HH|HH];
      try (right; exact HH); left.
    + destruct HH as (dy & Hdy & x & Hx & [(c & _ & ->)|HP]); [done | ]. by exists x, dy.
    + destruct HH as (x & dy & Hx & Hdy & HP). exists dy. split; [done | ].
      exists x. split; [done | by right].
Qed.
End Scalar2.

Lemma convert_scalar_runs junk w h raw m :
  0 < w -> 0 < h -> Z.even w = true -> Z.even h = true ->
  raw_ok w h raw -> fits w h m -> cache m = None ->
  runs w h (sc_render w h raw) (convert_scalar junk w h raw) m.
Proof.
  intros Hw Hh Hew Heh Hraw Hfit Hc.
  set (m0 := Mem (i420 m) (rgb m) (Some (replicate (Z.to_nat (w * 2 * 3)) junk))).
  assert (Hfit0 : forall b n, blen b m0 = Some n -> need w h b <= n).
  { intros [] n Hn; [by apply (Hfit BI) | by apply (Hfit BR) | ].
    cbn in Hn. injection Hn as <-. cbn. lia. }
  destruct (rows_writes w h raw Hw Hh Hew Heh Hraw (fun b => blen b m0)
    (nonnull (i420 m)) (nonnull (rgb m)) Hfit0) with (m := m0) as (m1 & E & Hs & Hm1);
    [apply (has_i420 m) | apply (has_rgb m) | | done | ].
  { unfold blen. cbn. rewrite length_replicate. f_equal. lia. }
  exists (Mem (i420 m1) (rgb m1) None). split_and!.
  - unfold convert_scalar, cseq. cbn [new_cache mbind option_bind].
    fold m0. unfold cseq in E. rewrite E. done.
  - intros b. destruct b; [exact (Hs BI) | exact (Hs BR) | ]. unfold blen. cbn. by rewrite Hc.
  - intros [[] k] Hl; [exact (Hm1 (BI, k) Hl) | exact (Hm1 (BR, k) Hl) | done].
Qed.

(** The scalar build of the second converter stores the same frame as
    the first ([sc_render]), whatever the scratch memory held, and frees it. *)
Theorem simd_v2_refines junk w h raw m :
  0 < w -> 0 < h -> Z.even w = true -> Z.even h = true ->
  raw_ok w h raw -> fits w h m -> cache m = None ->
  exists m', aloe_rggb10_to_rgb888_i420_simd_v2 false junk w h (Some raw) m = Some m' /\
    renders w h (sc_render w h raw) m m'.
Proof.
  intros Hw Hh Hew Heh Hraw Hfit Hc. unfold aloe_rggb10_to_rgb888_i420_simd_v2.
  rewrite !land1_even, Hew, Heh, (proj2 (Z.leb_gt w 0)), (proj2 (Z.leb_gt h 0)) by lia.
  cbn [orb negb]. apply runs_renders; [done.. | by apply convert_scalar_runs].
Qed.

(* ------------------------------------------------------------------ *)
(** ** The NEON helpers *)

Lemma u32_id z : 0 <= z < 4294967296 -> u32 z = z.
Proof. apply Z.mod_small. Qed.

Lemma s16_id z : -32768 <= z < 32768 -> s16 z = z.
Proof. intros Hz. unfold s16. rewrite Z.mod_small; lia. Qed.

(** On bytes the luma of the helper is [rgb_to_y], lane by lane. *)
Lemma neon_rgb_to_y_lanes r g b i :
  length r = 8%nat -> length g = 8%nat -> length b = 8%nat ->
  Forall is_u8 r -> Forall is_u8 g -> Forall is_u8 b -> 0 <= i < 8 ->
  ix (neon_rgb_to_y r g b) i = luma (ix r i, ix g i, ix b i).
Proof.
  intros Lr Lg Lb Hr Hg Hb Hi.
  do 8 (destruct r as [|? r]; [done | ]). destruct r; [ | done].
  do 8 (destruct g as [|? g]; [done | ]). destruct g; [ | done].
  do 8 (destruct b as [|? b]; [done | ]). destruct b; [ | done].
  rewrite !Forall_cons in Hr, Hg, Hb.
  assert (Hl : forall r g b, is_u8 r -> is_u8 g -> is_u8 b ->
    Z.min (u16 (u32 (Z.shiftr (u32 (u32 (u32 (u32 (r * 66) + u32 (g * 129)) + u32 (b * 25)) + 128)) 8
      + 16))) 255 = luma (r, g, b)).
  { unfold is_u8. intros r g b ? ? ?.
    rewrite (u32_id (r * 66)), (u32_id (g * 129)), (u32_id (b * 25)) by lia.
    rewrite (u32_id (r * 66 + g * 129)) by lia.
    rewrite (u32_id (r * 66 + g * 129 + b * 25)), (u32_id (r * 66 + g * 129 + b * 25 + 128)) by lia.
    rewrite shr_div by lia. change (2 ^ 8) with 256.
    rewrite u32_id, u16_id by (unfold is_u16; dlia). unfold luma, clamp255. dlia. }
  unfold neon_rgb_to_y, neon_y_half, neon_pack_u16. cbn [take drop map zip_with replicate app].
  rewrite !Hl by tauto.
  assert (i = 0 \/ i = 1 \/ i = 2 \/ i = 3 \/ i = 4 \/ i = 5 \/ i = 6 \/ i = 7)
    as [->|[->|[->|[->|[->|[->|[->| ->]]]]]]] by lia; reflexivity.
Qed.

(** Shifting the three products separately loses at most two. *)
Lemma neon_uv_near r g b :
  is_u8 r -> is_u8 g -> is_u8 b ->
  let lane cr cg cb := s16 (s16 (s16 (128 + Z.shiftr (s16 (s16 r * cr)) 8)
    + Z.shiftr (s16 (s16 g * cg)) 8) + Z.shiftr (s16 (s16 b * cb)) 8) in
  chroma_u (r, g, b) - 3 <= Z.max 0 (Z.min 255 (lane (-38) (-74) 112)) <= chroma_u (r, g, b) /\
  chroma_v (r, g, b) - 3 <= Z.max 0 (Z.min 255 (lane 112 (-94) (-18))) <= chroma_v (r, g, b).
Proof.
  unfold is_u8. intros Hr Hg Hb. cbv zeta.
  rewrite (s16_id r), (s16_id g), (s16_id b) by lia.
  rewrite !(s16_id (r * _)), !(s16_id (g * _)), !(s16_id (b * _)) by lia.
  rewrite !shr_div by lia. change (2 ^ 8) with 256.
  rewrite !(s16_id (128 + r * _ / 256)) by dlia.
  rewrite !(s16_id (128 + r * _ / 256 + g * _ / 256)) by dlia.
  rewrite !s16_id by dlia.
  unfold chroma_u, chroma_v, clamp255. split; dlia.
Qed.

(* ------------------------------------------------------------------ *)
(** ** The NEON converter *)

Lemma put_int_last a v : length a = 8%nat -> put_int a 7 v = None.
Proof.
  intros Hl. unfold put_int. rewrite upd_Some by lia. cbn [mbind option_bind].
  unfold upd. by rewrite length_insert, Hl.
Qed.

Lemma put_int_length a i v a' : put_int a i v = Some a' -> length a' = length a.
Proof.
  unfold put_int, upd. destruct (_ && _); [cbn [mbind option_bind] | done].
  destruct (_ && _); [ | done]. intros [= <-]. by rewrite !length_insert.
Qed.

Lemma demosaic_temps_undefined raw w h x y rt gt bt :
  length rt = 8%nat -> length gt = 8%nat -> length bt = 8%nat ->
  demosaic_temps raw w h x y (rt, gt, bt) = None.
Proof.
  intros H1 H2 H3. unfold demosaic_temps, for_. change (trips 0 8 1) with 8%nat.
  set (body := fun i _ => _).
  assert (Hb : forall i s s', body i s = Some s' -> length s.1.1 = 8%nat -> length s'.1.1 = 8%nat).
  { intros i [[a b] c] s'. unfold body.
    destruct (demosaic_rggb10 _ _ _ _ _) as [[[r g] b0]|]; [cbn | done].
    destruct (put_int a i r) as [a'|] eqn:E; [cbn | done].
    destruct (put_int b i g); [cbn | done]. destruct (put_int c i b0); [cbn | done].
    intros [= <-] Hl. cbn in *. by rewrite (put_int_length _ _ _ _ E). }
  assert (Hlast : forall s, length s.1.1 = 8%nat -> body 7 s = None).
  { intros [[a b] c] Hl. unfold body.
    destruct (demosaic_rggb10 _ _ _ _ _) as [[[r g] b0]|]; [ | done].
    cbn [mbind option_bind]. by rewrite (put_int_last a r Hl). }
  assert (Hgen : forall n i s, i + Z.of_nat n = 7 -> length s.1.1 = 8%nat ->
    iter_up (S n) i 1 body s = None).
  { induction n as [|n IH]; intros i s Hi Hl; cbn [iter_up]; unfold cseq at 1.
    - replace i with 7 by lia. by rewrite Hlast.
    - destruct (body i s) as [s'|] eqn:E; [cbn [mbind option_bind] | done].
      apply IH; [lia | by eapply Hb]. }
  by apply (Hgen 7%nat).
Qed.

(** The NEON build has undefined behaviour on every non-empty frame: the
    last [int] written to an 8-element [uint16_t] array ends past it. *)
Theorem simd_v2_neon_undefined junk w h raw m :
  0 < w -> 0 < h -> Z.even w = true -> Z.even h = true ->
  aloe_rggb10_to_rgb888_i420_simd_v2 true junk w h (Some raw) m = None.
Proof.
  intros Hw Hh Hew Heh. unfold aloe_rggb10_to_rgb888_i420_simd_v2.
  rewrite !land1_even, Hew, Heh, (proj2 (Z.leb_gt w 0)), (proj2 (Z.leb_gt h 0)) by lia.
  cbn [orb negb]. unfold convert_neon, cseq, for_. cbn [new_cache mbind option_bind].
  pose proof (proj2 (trips_spec 0 h 2 0 ltac:(lia)) ltac:(lia)) as Th.
  pose proof (proj2 (trips_spec 0 w 8 0 ltac:(lia)) ltac:(lia)) as Tw.
  destruct (trips 0 h 2) as [|nh]; [lia | ]. cbn [iter_up]. unfold cseq at 1.
  destruct (trips 0 w 8) as [|nw]; [lia | ]. cbn [iter_up]. unfold cseq at 1, bindv at 1.
  by rewrite demosaic_temps_undefined by apply length_replicate.
Qed.

(* ------------------------------------------------------------------ *)
(** ** Witnesses *)

Lemma simd_v2_refines_witness :
  exists m', aloe_rggb10_to_rgb888_i420_simd_v2 false 77 16 4 (Some raw16) mem16 = Some m' /\
    renders 16 4 (sc_render 16 4 raw16) mem16 m'.
Proof.
  apply (simd_v2_refines 77 16 4 raw16 mem16 ltac:(lia) ltac:(lia) eq_refl eq_refl
    raw_ok16 fits16 eq_refl).
Defined.

Lemma simd_v2_neon_undefined_witness :
  aloe_rggb10_to_rgb888_i420_simd_v2 true 0 16 4 (Some raw16) mem16 = None.
Proof.
  apply (simd_v2_neon_undefined 0 16 4 raw16 mem16 ltac:(lia) ltac:(lia) eq_refl eq_refl).
Defined.
