(* ===== verification/BayerEquiv.v ===== *)
(** BayerEquiv: the 2x2-block converter of rggb10_rgb888_i420.cpp, the scalar
    path of rggb10_rgb888_i420_simd.cpp and the scalar path of
    rggb10_rgb888_i420_simd_v2.cpp compute the same frame. *)

From S2P Require Import Prelude Frame Bayer BayerRef BayerSimd BayerSimdV2.

Lemma frame_spec_ext w h R1 R2 l :
  (forall x y, r_px R1 x y = r_px R2 x y /\ r_y R1 x y = r_y R2 x y /\
     r_u R1 x y = r_u R2 x y /\ r_v R1 x y = r_v R2 x y) ->
  frame_spec w h R1 l = frame_spec w h R2 l.
Proof.
  intros HR. destruct l as [[] k]; [ | | done]; unfold frame_spec.
  - repeat case_match; apply HR.
  - by rewrite (proj1 (HR _ _)).
Qed.

Lemma block_mean_ext p q bx by_ :
  (forall x y, p x y = q x y) -> block_mean p bx by_ = block_mean q bx by_.
Proof. intros H. unfold block_mean. by rewrite !H. Qed.

Lemma v2_sc_px w h raw x y :
  0 < w -> 0 < h -> raw_ok w h raw -> Forall (fun v => 0 <= v <= 1021) raw ->
  v2_px w h raw x y = sc_px w h raw x y.
Proof.
  intros Hw Hh Hraw Hok.
  assert (Hs : forall x y, 0 <= sample w h (raw_at w raw) x y <= 1021)
    by (intros; by apply (sample_Forall (fun v => 0 <= v <= 1021))).
  unfold v2_px, sc_px.
  pose proof (bilinear_between w h (raw_at w raw) 0 1021 x y Hs) as Hb.
  destruct (bilinear _ _ _ _ _) as [[r g] b]. destruct Hb as (Hr & Hg & Hb).
  unfold map3. rewrite !scale_small by done.
  unfold BayerRef.round8, round8. by rewrite !shr_div by lia.
Qed.

Lemma v2_sc_spec w h raw l :
  0 < w -> 0 < h -> raw_ok w h raw -> Forall (fun v => 0 <= v <= 1021) raw ->
  frame_spec w h (v2_render w h raw) l = frame_spec w h (sc_render w h raw) l.
Proof.
  intros Hw Hh Hraw Hok. apply frame_spec_ext. intros x y.
  pose proof (fun x y => v2_sc_px w h raw x y Hw Hh Hraw Hok) as He.
  unfold v2_render, sc_render, full_render. cbn [r_px r_y r_u r_v].
  by rewrite !He, !(block_mean_ext _ _ x y He).
Qed.

(** C40: on samples up to 1021 the three leave the same bytes in both
    buffers. *)
Theorem converters_agree junk w h raw m :
  0 < w -> 0 < h -> Z.even w = true -> Z.even h = true ->
  raw_ok w h raw -> Forall (fun v => 0 <= v <= 1021) raw -> fits w h m -> cache m = None ->
  exists m1 m2 m3,
    aloe_rggb10_to_rgb888_i420_v2 w h (Some raw) m = Some m1 /\
    aloe_rggb10_to_rgb888_i420_scalar w h raw m = Some m2 /\
    convert_scalar junk w h raw m = Some m3 /\
    forall l, l.1 <> BC -> at_ m1 l = at_ m2 l /\ at_ m2 l = at_ m3 l.
Proof.
  intros Hw Hh Hew Heh Hraw Hok Hfit Hc.
  destruct (runs_agree w h (v2_render w h raw) (sc_render w h raw)
    (aloe_rggb10_to_rgb888_i420_v2 w h (Some raw)) (aloe_rggb10_to_rgb888_i420_scalar w h raw)
    m (fun _ => True)) as (m1 & m2 & E1 & E2 & H12).
  { intros l _ _. by apply v2_sc_spec. }
  { by apply v2_runs. }
  { by apply scalar_runs. }
  destruct (runs_agree w h (sc_render w h raw) (sc_render w h raw)
    (aloe_rggb10_to_rgb888_i420_scalar w h raw) (convert_scalar junk w h raw)
    m (fun _ => True)) as (m2' & m3 & E2' & E3 & H23).
  { done. }
  { by apply scalar_runs. }
  { by apply convert_scalar_runs. }
  rewrite E2 in E2'. injection E2' as <-. exists m1, m2, m3. split_and!; [done.. | ].
  intros l Hl. split; [by apply H12 | by apply H23].
Qed.

Lemma converters_agree_witness :
  exists m1 m2 m3,
    aloe_rggb10_to_rgb888_i420_v2 16 4 (Some raw16) mem16 = Some m1 /\
    aloe_rggb10_to_rgb888_i420_scalar 16 4 raw16 mem16 = Some m2 /\
    convert_scalar 3 16 4 raw16 mem16 = Some m3 /\
    forall l, l.1 <> BC -> at_ m1 l = at_ m2 l /\ at_ m2 l = at_ m3 l.
Proof.
  apply (converters_agree 3 16 4 raw16 mem16 ltac:(lia) ltac:(lia) eq_refl eq_refl
    raw_ok16 raw16_bound fits16 eq_refl).
Defined.
