(* ===== verification/Rg10.v ===== *)
(** Rg10: package/aloe/rg10_rgb8_i420_v4.cpp, the subsampling RG10
    converters: [aloe_rg10_rgb8_i420_v5] and [aloe_rg10_rgb8_i420_v6] (one
    output pixel per 4x4 source pixels; scalar, SSE2 and NEON builds; v6 with
    per-channel gains) and [aloe_rg10_rgb8_i420_v4] (one per 2x2). *)

From S2P Require Import Prelude Float Frame Bayer.

Local Open Scope cmd_scope.

(** The vector unit of the build. *)
Inductive simd : Set := SCALAR | SSE2 | NEON8.

(** The 16-bit sample [i] of the row at byte offset [off], on a little-endian
    machine; a misaligned access is undefined. *)
Definition rd16 (src : list Z) (off i : Z) : option Z :=
  let k := off + 2 * i in
  if Z.odd k then None else lo ← rd src k; hi ← rd src (k + 1); Some (lo + 256 * hi).

Definition rg10_u8 (value : Z) : Z := Z.land (Z.shiftr value 2) 0xff.

Definition clamp_u8 (value : Z) : Z :=
  if 255 <? value then 255 else if value <? 0 then 0 else value.

Definition clamp3_u8 (p : Z * Z * Z) : Z * Z * Z := map3 clamp_u8 p.

(** [int / int] truncates. *)
Definition lin (cr cg cb : Z) (p : Z * Z * Z) (off : Z) : Z :=
  let '(r, g, b) := p in Z.quot (cr * r + cg * g + cb * b + 128) 256 + off.

Definition rgb_yuv (p : Z * Z * Z) : Z * Z * Z :=
  (clamp_u8 (lin 66 129 25 p 16), clamp_u8 (lin (-38) (-74) 112 p 128),
   clamp_u8 (lin 112 (-94) (-18) p 128)).

(** Products of [v4si] lanes; the fourth lane is not summed. *)
Definition rgb_y_vec (p : Z * Z * Z) : Z := u8 (clamp_u8 (lin 66 129 25 p 16)).
Definition rgb_u_vec (p : Z * Z * Z) : Z := u8 (clamp_u8 (lin (-38) (-74) 112 p 128)).
Definition rgb_v_vec (p : Z * Z * Z) : Z := u8 (clamp_u8 (lin 112 (-94) (-18) p 128)).

(* ------------------------------------------------------------------ *)
(** ** Eight-pixel luma *)

Definition mm_set1_epi16 (n : Z) : list Z := replicate 8 (u16 n).
Definition mm_add_epi16 : list Z -> list Z -> list Z := zip_with (fun x y => u16 (x + y)).
Definition mm_mullo_epi16 : list Z -> list Z -> list Z := zip_with (fun x y => u16 (x * y)).
Definition mm_srli_epi16 (a : list Z) (n : Z) : list Z := map (fun x => Z.shiftr x n) a.
(** Against a zero high half: the low eight bytes of [_mm_packus_epi16]. *)
Definition mm_packus_epi16 (a : list Z) : list Z :=
  map (fun x => Z.max 0 (Z.min 255 (s16 x))) a.

Definition rgb_y_sse2_8 (r g b : list Z) : list Z :=
  let sum := mm_add_epi16 (mm_mullo_epi16 r (mm_set1_epi16 66))
                          (mm_mullo_epi16 g (mm_set1_epi16 129)) in
  let sum := mm_add_epi16 sum (mm_mullo_epi16 b (mm_set1_epi16 25)) in
  let sum := mm_add_epi16 sum (mm_set1_epi16 128) in
  let sum := mm_add_epi16 (mm_srli_epi16 sum 8) (mm_set1_epi16 16) in
  mm_packus_epi16 sum.

Definition vmull_u8 : list Z -> list Z -> list Z := zip_with (fun x y => u16 (x * y)).
Definition vmlal_u8 (a b c : list Z) : list Z :=
  zip_with (fun a p => u16 (a + p)) a (zip_with Z.mul b c).
Definition vaddq_u16 : list Z -> list Z -> list Z := zip_with (fun x y => u16 (x + y)).
Definition vshrq_n_u16 (a : list Z) (n : Z) : list Z := map (fun x => Z.shiftr x n) a.
Definition vmovn_u16 (a : list Z) : list Z := map u8 a.
Definition vadd_u8 : list Z -> list Z -> list Z := zip_with (fun x y => u8 (x + y)).
Definition vdup (n : Z) : list Z := replicate 8 n.

Definition rgb_y_neon_8 (r g b : list Z) : list Z :=
  let sum := vmlal_u8 (vmull_u8 r (vdup 66)) g (vdup 129) in
  let sum := vmlal_u8 sum b (vdup 25) in
  vmovn_u16 (vaddq_u16 (vshrq_n_u16 (vaddq_u16 sum (vdup 128)) 8) (vdup 16)).

(** The luma of the v6 NEON loop, narrowed before the offset. *)
Definition v6_y_neon_8 (r g b : list Z) : list Z :=
  let sum := vmull_u8 r (vdup 66) in
  let sum := vmlal_u8 sum g (vdup 129) in
  let sum := vmlal_u8 sum b (vdup 25) in
  vadd_u8 (vmovn_u16 (vshrq_n_u16 (vaddq_u16 sum (vdup 128)) 8)) (vdup 16).

Definition rs (ps : list (Z * Z * Z)) : list Z := map (fun '(r, _, _) => r) ps.
Definition gs (ps : list (Z * Z * Z)) : list Z := map (fun '(_, g, _) => g) ps.
Definition bs (ps : list (Z * Z * Z)) : list Z := map (fun '(_, _, b) => b) ps.

(** [for (i = 0; i < 8; i++)] over the lanes of a vector. *)
Definition for8 {A} (l : list A) (body : Z -> A -> cmd mem) : cmd mem :=
  for_ 0 8 1 (fun i => let* a := l !! Z.to_nat i in body i a).

Definition store_rgb (i : Z) (p : Z * Z * Z) : cmd mem :=
  let '(r, g, b) := p in wr BR (i + 0) r ;;; wr BR (i + 1) g ;;; wr BR (i + 2) b.

(* ------------------------------------------------------------------ *)
(** ** aloe_rg10_rgb8_i420_v5 *)

(** The sample of output pixel [x], rows at byte offsets [row0] and [row1]. *)
Definition v5_px (src : list Z) (row0 row1 x : Z) : option (Z * Z * Z) :=
  r ← rd16 src row0 x; g ← rd16 src row0 (x + 1); b ← rd16 src row1 (x + 1);
  Some (rg10_u8 r, rg10_u8 g, rg10_u8 b).

(** The plane offsets of the frame [out_w] x [out_h]. *)
Definition v5_u (out_w out_h out_y : Z) : Z :=
  out_w * out_h + Z.quot out_y 2 * Z.quot out_w 2.
Definition v5_v (out_w out_h out_y : Z) : Z :=
  out_w * out_h + Z.quot (out_w * out_h) 4 + Z.quot out_y 2 * Z.quot out_w 2.

Definition v5_chroma (out_w out_h out_y x : Z) (p : Z * Z * Z) : cmd mem :=
  wr BI (v5_u out_w out_h out_y + Z.quot x 2) (clamp_u8 (lin (-38) (-74) 112 p 128)) ;;;
  wr BI (v5_v out_w out_h out_y + Z.quot x 2) (clamp_u8 (lin 112 (-94) (-18) p 128)).

Definition v5_luma8 (tgt : simd) (ps : list (Z * Z * Z)) : list Z :=
  match tgt with
  | NEON8 => rgb_y_neon_8 (rs ps) (gs ps) (bs ps)
  | _ => rgb_y_sse2_8 (rs ps) (gs ps) (bs ps)
  end.

(** One iteration of the vector loop: eight columns of two output rows. *)
Definition v5_vector (tgt : simd) (out_w out_h stride : Z) (src : list Z) (i420 rgb : bool)
    (out_y out_x : Z) : cmd mem :=
  let x := out_x * 4 in
  let row k := (out_y * 4 + k) * stride in
  let* ps0 := mapM (fun i => v5_px src (row 0) (row 1) (x + i * 4)) (seqZ 0 8) in
  let* ps1 := mapM (fun i => v5_px src (row 4) (row 5) (x + i * 4)) (seqZ 0 8) in
  let rgb0 := out_y * (out_w * 3) in
  let rgb1 := rgb0 + out_w * 3 in
  let y0 := out_y * out_w in
  let y1 := y0 + out_w in
  when rgb
    (for8 (zip ps0 ps1) (fun i '(p0, p1) =>
       store_rgb (rgb0 + (out_x + i) * 3) p0 ;;; store_rgb (rgb1 + (out_x + i) * 3) p1)) ;;;
  when i420
    (for8 (v5_luma8 tgt ps0) (fun i v => wr BI (y0 + out_x + i) v) ;;;
     for8 (v5_luma8 tgt ps1) (fun i v => wr BI (y1 + out_x + i) v) ;;;
     for_ 1 8 2 (fun i =>
       let* p1 := ps1 !! Z.to_nat i in v5_chroma out_w out_h out_y (out_x + i) p1)).

(** One iteration of the scalar loop: one column of two output rows. *)
Definition v5_column (out_w out_h stride : Z) (src : list Z) (i420 rgb : bool)
    (out_y out_x : Z) : cmd mem :=
  let x := out_x * 4 in
  let row k := (out_y * 4 + k) * stride in
  let* p0 := v5_px src (row 0) (row 1) x in
  let* p1 := v5_px src (row 4) (row 5) x in
  let rgb0 := out_y * (out_w * 3) in
  let rgb1 := rgb0 + out_w * 3 in
  let y0 := out_y * out_w in
  let y1 := y0 + out_w in
  when rgb (store_rgb (rgb0 + out_x * 3) p0 ;;; store_rgb (rgb1 + out_x * 3) p1) ;;;
  when i420
    (wr BI (y0 + out_x) (u8 (lin 66 129 25 p0 16)) ;;;
     wr BI (y1 + out_x) (u8 (lin 66 129 25 p1 16)) ;;;
     when (negb (Z.land out_x 1 =? 0)) (v5_chroma out_w out_h out_y out_x p1)).

(** [width], [height] are multiples of 8 and at least 8. *)
Definition bad_size (width height : Z) : bool :=
  (width <? 8) || (height <? 8) || negb (Z.rem width 8 =? 0) || negb (Z.rem height 8 =? 0).

(** Columns done by the vector loop [out_x + 8 <= out_w; out_x += 8]. *)
Definition vec_end (tgt : simd) (out_w : Z) : Z :=
  match tgt with SCALAR => 0 | _ => 8 * Z.of_nat (trips 0 (out_w - 7) 8) end.

Definition aloe_rg10_rgb8_i420_v5 (tgt : simd) (width height stride : Z) (src : list Z)
    : cmd mem :=
  fun m =>
    let out_w := Z.quot width 4 in
    let out_h := Z.quot height 4 in
    let hi := nonnull (i420 m) in
    let hr := nonnull (rgb m) in
    if bad_size width height then Some m else
    for_ 0 out_h 2 (fun out_y =>
      for_ 0 (vec_end tgt out_w) 8 (v5_vector tgt out_w out_h stride src hi hr out_y) ;;;
      for_ (vec_end tgt out_w) out_w 1 (v5_column out_w out_h stride src hi hr out_y)) m.

(* ------------------------------------------------------------------ *)
(** ** aloe_rg10_rgb8_i420_v6 *)

(** [!(gain >= 0 && gain <= 16)] rejects. *)
Definition gain_ok (g : float) : bool := SFleb (of_int 0) g && SFleb g (of_int 16).

Definition gain_entry (g : float) (i : Z) : Z :=
  u8 (clamp_u8 (f_trunc (f_add (f_mul (of_int i) g) f_half))).

Definition gain_lut (g : float) : list Z := map (gain_entry g) (seqZ 0 256).

Definition gains : Type := (float * float * float)%type.

Definition adjusts (g : gains) : bool :=
  let '(r, g, b) := g in
  negb (SFeqb r (of_int 1)) || negb (SFeqb g (of_int 1)) || negb (SFeqb b (of_int 1)).

(** [if (adjust) { r = gain_lut[0][r]; ... }]. *)
Definition adjust_px (lut : option (list Z * list Z * list Z)) (p : Z * Z * Z)
    : option (Z * Z * Z) :=
  match lut with
  | None => Some p
  | Some (l0, l1, l2) =>
      let '(r, g, b) := p in
      r' ← rd l0 r; g' ← rd l1 g; b' ← rd l2 b; Some (r', g', b')
  end.

(** A 32-bit lane of [_mm_loadu_si128(p)]: two 16-bit samples. *)
Definition pair32 (src : list Z) (row i : Z) : option Z :=
  lo ← rd16 src row i; hi ← rd16 src row (i + 1); Some (lo + 65536 * hi).

Definition load128 (src : list Z) (row i : Z) : option (list Z) :=
  mapM (fun k => pair32 src row (i + 2 * k)) (seqZ 0 4).

(** [_mm_shuffle_epi32(v, _MM_SHUFFLE(2, 0, 2, 0))]. *)
Definition shuffle_2020 (v : list Z) : option (list Z) :=
  mapM (fun k => v !! k) [0; 2; 0; 2]%nat.
Definition unpacklo_epi64 (a b : list Z) : list Z := take 2 a ++ take 2 b.

Definition rg10_v6_pairs (src : list Z) (row i : Z) : option (list Z) :=
  a ← load128 src row i; b ← load128 src row (i + 8);
  a' ← shuffle_2020 a; b' ← shuffle_2020 b; Some (unpacklo_epi64 a' b').

(** Signed 32-bit lanes saturate to 16 bits, those to unsigned bytes. *)
Definition packs_epi32 (a b : list Z) : list Z :=
  map (fun x => let x := if x <? 2147483648 then x else x - 4294967296 in
                u16 (Z.max (-32768) (Z.min 32767 x))) (a ++ b).

Definition rg10_v6_channel (a b : list Z) (shift : Z) : list Z :=
  let a := map (fun x => Z.land (Z.shiftr x shift) 255) a in
  let b := map (fun x => Z.land (Z.shiftr x shift) 255) b in
  mm_packus_epi16 (packs_epi32 a b).

(** [vld4q_u16(p).val[k]]: every fourth sample from [p + k], then
    [vmovn_u16(vshrq_n_u16(.., 2))]. *)
Definition v6_neon_channel (src : list Z) (row i k : Z) : option (list Z) :=
  v ← mapM (fun j => rd16 src row (i + 4 * j + k)) (seqZ 0 8);
  Some (vmovn_u16 (vshrq_n_u16 v 2)).

(** The eight pixels of a vector iteration at output column [x]. *)
Definition v6_gather (tgt : simd) (src : list Z) (row0 row1 x : Z) : option (list (Z * Z * Z)) :=
  match tgt with
  | NEON8 =>
      r ← v6_neon_channel src row0 (x * 4) 0;
      g ← v6_neon_channel src row0 (x * 4) 1;
      b ← v6_neon_channel src row1 (x * 4) 1;
      Some (zip_with (fun '(r, g) b => (r, g, b)) (zip r g) b)
  | _ =>
      top0 ← rg10_v6_pairs src row0 (x * 4);
      top1 ← rg10_v6_pairs src row0 (x * 4 + 16);
      bot0 ← rg10_v6_pairs src row1 (x * 4);
      bot1 ← rg10_v6_pairs src row1 (x * 4 + 16);
      Some (zip_with (fun '(r, g) b => (r, g, b))
              (zip (rg10_v6_channel top0 top1 2) (rg10_v6_channel top0 top1 18))
              (rg10_v6_channel bot0 bot1 18))
  end.

Definition v6_luma8 (tgt : simd) (ps : list (Z * Z * Z)) : list Z :=
  match tgt with
  | NEON8 => v6_y_neon_8 (rs ps) (gs ps) (bs ps)
  | _ => rgb_y_sse2_8 (rs ps) (gs ps) (bs ps)
  end.

(** Chroma without the clamp of v5. *)
Definition v6_chroma (out_w out_h y x : Z) (p : Z * Z * Z) : cmd mem :=
  let ud := out_w * out_h + Z.quot y 2 * Z.quot out_w 2 in
  let vd := out_w * out_h + out_w * out_h / 4 + Z.quot y 2 * Z.quot out_w 2 in
  wr BI (ud + Z.quot x 2) (u8 (lin (-38) (-74) 112 p 128)) ;;;
  wr BI (vd + Z.quot x 2) (u8 (lin 112 (-94) (-18) p 128)).

Definition v6_vector (tgt : simd) (lut : option (list Z * list Z * list Z))
    (out_w out_h stride : Z) (src : list Z) (i420 rgb : bool) (y x : Z) : cmd mem :=
  let row0 := y * 4 * stride in
  let row1 := row0 + stride in
  let* ps0 := v6_gather tgt src row0 row1 x in
  let* ps := mapM (adjust_px lut) ps0 in
  when rgb (for8 ps (fun i p => store_rgb (y * out_w * 3 + (x + i) * 3) p)) ;;;
  when i420 (for8 (v6_luma8 tgt ps) (fun i v => wr BI (y * out_w + x + i) v)) ;;;
  when (i420 && negb (Z.land y 1 =? 0))
    (for_ 1 8 2 (fun i => let* p := ps !! Z.to_nat i in v6_chroma out_w out_h y (x + i) p)).

Definition v6_column (lut : option (list Z * list Z * list Z))
    (out_w out_h stride : Z) (src : list Z) (i420 rgb : bool) (y x : Z) : cmd mem :=
  let row0 := y * 4 * stride in
  let row1 := row0 + stride in
  let* p0 := v5_px src row0 row1 (x * 4) in
  let* p := adjust_px lut p0 in
  when rgb (store_rgb (y * out_w * 3 + x * 3) p) ;;;
  when i420
    (wr BI (y * out_w + x) (u8 (lin 66 129 25 p 16)) ;;;
     when (negb (Z.land y 1 =? 0) && negb (Z.land x 1 =? 0))
       (v6_chroma out_w out_h y x p)).

Definition v6_lut (g : gains) : option (list Z * list Z * list Z) :=
  let '(r_gain, g_gain, b_gain) := g in
  if adjusts g then Some (gain_lut r_gain, gain_lut g_gain, gain_lut b_gain) else None.

Definition aloe_rg10_rgb8_i420_v6 (tgt : simd) (width height stride : Z) (src : list Z)
    (g : gains) : cmd mem :=
  fun m =>
    let '(r_gain, g_gain, b_gain) := g in
    let hi := nonnull (i420 m) in
    let hr := nonnull (rgb m) in
    if bad_size width height then Some m
    else if negb (gain_ok r_gain) || negb (gain_ok g_gain) || negb (gain_ok b_gain) then Some m
    else if negb hr && negb hi then Some m
    else
      let lut := v6_lut g in
      let out_w := Z.quot width 4 in
      let out_h := Z.quot height 4 in
      for_ 0 out_h 1 (fun y =>
        for_ 0 (vec_end tgt out_w) 8 (v6_vector tgt lut out_w out_h stride src hi hr y) ;;;
        for_ (vec_end tgt out_w) out_w 1 (v6_column lut out_w out_h stride src hi hr y)) m.

(* ------------------------------------------------------------------ *)
(** ** aloe_rg10_rgb8_i420_v4 *)

(** [rg10_fetch(_y, _x)] at byte offset [row] and column [x]. *)
Definition v4_fetch (src : list Z) (stride row x _y _x : Z) : option (Z * Z * Z) :=
  let at_row k i := rd16 src (row + 2 * x + k * stride) i in
  r ← at_row (_y * 2) (_x * 2);
  g0 ← at_row (_y * 2) (_x * 2 + 1);
  g1 ← at_row (_y * 2 + 1) (_x * 2);
  b ← at_row (_y * 2 + 1) (_x * 2 + 1);
  Some (Z.quot r 4, Z.quot (Z.quot (g0 + g1) 2) 4, Z.quot b 4).

(** The sixteen pixels of an 8x8 source block, [rgb_val[_y][_x]] at
    [4 * _y + _x]. *)
Definition v4_block_px (src : list Z) (stride row x : Z) : option (list (Z * Z * Z)) :=
  mapM (fun k => v4_fetch src stride row x (k / 4) (k mod 4)) (seqZ 0 16).

(** The unrolled stores, rows [0 .. 3] by columns [0 .. 3], [step] apart. *)
Definition v4_each (step : Z) (ps : list (Z * Z * Z)) (body : Z -> Z -> Z * Z * Z -> cmd mem)
    : cmd mem :=
  for_ 0 4 step (fun _y => for_ 0 4 step (fun _x =>
    let* p := ps !! Z.to_nat (4 * _y + _x) in body _y _x p)).

Definition v4_block (out_w out_h stride : Z) (src : list Z) (i420 rgb : bool) (y x : Z)
    : cmd mem :=
  let out_y := Z.quot y 2 in
  let out_x := Z.quot x 2 in
  let uv_size := Z.quot out_h 2 * Z.quot out_w 2 in
  let u_pos := out_w * out_h + Z.quot out_w 2 * Z.quot out_y 2 + Z.quot out_x 2 in
  let v_pos := out_w * out_h + uv_size + Z.quot out_w 2 * Z.quot out_y 2 + Z.quot out_x 2 in
  let* ps := v4_block_px src stride (y * stride) x in
  when rgb
    (v4_each 1 ps (fun _y _x p =>
       store_rgb (out_w * out_y * 3 + (out_x + (_y * out_w + _x)) * 3) (map3 u8 p))) ;;;
  when i420
    (v4_each 1 ps (fun _y _x p =>
       wr BI (out_w * out_y + out_x + (_y * out_w + _x)) (rgb_y_vec p)) ;;;
     v4_each 2 ps (fun _y _x p =>
       wr BI (u_pos + (Z.quot _y 2 * Z.quot out_w 2 + Z.quot _x 2)) (rgb_u_vec p)) ;;;
     v4_each 2 ps (fun _y _x p =>
       wr BI (v_pos + (Z.quot _y 2 * Z.quot out_w 2 + Z.quot _x 2)) (rgb_v_vec p))).

Definition aloe_rg10_rgb8_i420_v4 (width height stride : Z) (src : list Z) : cmd mem :=
  fun m =>
    let out_w := Z.quot width 2 in
    let out_h := Z.quot height 2 in
    if bad_size width height then Some m else
    for_ 0 height 8 (fun y => for_ 0 width 8 (fun x =>
      v4_block out_w out_h stride src (nonnull (i420 m)) (nonnull (rgb m)) y x)) m.

(* ------------------------------------------------------------------ *)
(** ** Vector arithmetic *)

Lemma clamp_u8_id v : is_u8 v -> clamp_u8 v = v.
Proof.
  intros Hv. unfold clamp_u8, is_u8 in *. destruct (Z.ltb_spec 255 v); [lia | ].
  destruct (Z.ltb_spec v 0); lia.
Qed.

Lemma clamp_u8_u8 v : is_u8 (clamp_u8 v).
Proof.
  unfold clamp_u8, is_u8. destruct (Z.ltb_spec 255 v); [lia | ].
  destruct (Z.ltb_spec v 0); lia.
Qed.

Lemma rg10_u8_mod v : rg10_u8 v = v / 4 mod 256.
Proof.
  unfold rg10_u8. rewrite shr_div by lia. apply (land_mask (v / 4) 8). lia.
Qed.

Lemma rg10_u8_u8 v : is_u8 (rg10_u8 v).
Proof. rewrite rg10_u8_mod. apply u8_range. Qed.

(** Luma 16..235, chroma 16..240: no clamp or cast changes them. *)
Definition y_of (p : Z * Z * Z) : Z := lin 66 129 25 p 16.
Definition u_of (p : Z * Z * Z) : Z := lin (-38) (-74) 112 p 128.
Definition v_of (p : Z * Z * Z) : Z := lin 112 (-94) (-18) p 128.

Lemma lin_range p : u8px p ->
  16 <= y_of p <= 235 /\ 16 <= u_of p <= 240 /\ 16 <= v_of p <= 240.
Proof.
  destruct p as [[r g] b]. unfold u8px, is_u8, y_of, u_of, v_of, lin. intros.
  refine (conj _ (conj _ _)); dlia.
Qed.

Lemma lin_u8 p : u8px p -> is_u8 (y_of p) /\ is_u8 (u_of p) /\ is_u8 (v_of p).
Proof. intros Hp%lin_range. unfold is_u8. lia. Qed.

(** One lane of the vector luma, [sum] the weighted sum in 16 bits. *)
Lemma lane_y r g b : u8px (r, g, b) ->
  (66 * r + 129 * g + 25 * b + 128) / 256 + 16 = y_of (r, g, b) /\
  0 <= 66 * r + 129 * g + 25 * b + 128 < 65536.
Proof. unfold u8px, is_u8, y_of, lin. intros. rewrite Z.quot_div_nonneg by lia. lia. Qed.

Ltac lanes8 Hl :=
  unfold mm_add_epi16, mm_mullo_epi16, mm_set1_epi16, mm_srli_epi16, mm_packus_epi16,
    vmull_u8, vmlal_u8, vaddq_u16, vshrq_n_u16, vmovn_u16, vadd_u8, vdup, rs, gs, bs;
  repeat (rewrite zip_with_map || rewrite map_map ||
    match goal with |- context [zip_with ?h (map ?f ?l) (replicate ?n ?c)] =>
      rewrite (zip_with_const h (map f l) n c) by (by rewrite length_map) end);
  eapply map_ext_Forall, Forall_impl; [exact Hl | ];
  let Hu := fresh "Hu" in
  intros [[r g] b] Hu; cbv beta iota; destruct (lane_y r g b Hu) as [<- ?];
  unfold u8px, is_u8 in Hu; u16s; rewrite shr_div by lia; change (2 ^ 8) with 256; u16s.

Lemma sse2_luma ps : length ps = 8%nat -> Forall u8px ps ->
  rgb_y_sse2_8 (rs ps) (gs ps) (bs ps) = map y_of ps.
Proof.
  intros Hn Hl. unfold rgb_y_sse2_8. lanes8 Hl.
  unfold s16. rewrite Z.mod_small by dlia.
  replace (r * 66 + g * 129 + b * 25 + 128) with (66 * r + 129 * g + 25 * b + 128) by lia. dlia.
Qed.

Lemma neon_luma ps : length ps = 8%nat -> Forall u8px ps ->
  rgb_y_neon_8 (rs ps) (gs ps) (bs ps) = map y_of ps.
Proof.
  intros Hn Hl. unfold rgb_y_neon_8. lanes8 Hl.
  replace (r * 66 + g * 129 + b * 25 + 128) with (66 * r + 129 * g + 25 * b + 128) by lia.
  rewrite u8_id; [done | unfold is_u8; dlia].
Qed.

Lemma v6_neon_luma ps : length ps = 8%nat -> Forall u8px ps ->
  v6_y_neon_8 (rs ps) (gs ps) (bs ps) = map y_of ps.
Proof.
  intros Hn Hl. unfold v6_y_neon_8. lanes8 Hl.
  replace (r * 66 + g * 129 + b * 25 + 128) with (66 * r + 129 * g + 25 * b + 128) by lia.
  rewrite (u8_id (_ / _)), u8_id by (unfold is_u8; dlia). done.
Qed.

(* ------------------------------------------------------------------ *)
(** ** The frame *)

(** A source plane: rows [stride] bytes apart, 16-bit samples. *)
Definition sample16 (src : list Z) (stride x y : Z) : Z :=
  let k := y * stride + 2 * x in ix src k + 256 * ix src (k + 1).

Definition src_ok (width height stride : Z) (src : list Z) : Prop :=
  0 <= stride /\ Z.even stride = true /\ Forall is_u8 src /\
  (height - 1) * stride + 2 * width <= Z.of_nat (length src).

Lemma rd16_sample w h stride src x y :
  src_ok w h stride src -> 0 <= x < w -> 0 <= y < h ->
  rd16 src (y * stride) x = Some (sample16 src stride x y) /\ is_u16 (sample16 src stride x y).
Proof.
  intros (Hs & He & Hb & Hl) Hx Hy. unfold rd16, sample16.
  assert (Ho : Z.odd (y * stride + 2 * x) = false).
  { rewrite Z.odd_add, Z.odd_mul, <- (Z.negb_even stride), He, Z.odd_mul.
    cbn. by rewrite andb_false_r. }
  rewrite Ho. assert (y * stride <= (h - 1) * stride) by nia.
  assert (0 <= y * stride) by nia.
  rewrite !rd_ix by lia. split; [done | ].
  pose proof (ix_Forall is_u8 src (y * stride + 2 * x) ltac:(mlia) Hb).
  pose proof (ix_Forall is_u8 src (y * stride + 2 * x + 1) ltac:(mlia) Hb). mlia.
Qed.

(** The pixel both 4x4 converters take: R and G1 of the block's first row, B of
    its second. *)
Definition q_px (src : list Z) (stride x y : Z) : Z * Z * Z :=
  (rg10_u8 (sample16 src stride (4 * x) (4 * y)),
   rg10_u8 (sample16 src stride (4 * x + 1) (4 * y)),
   rg10_u8 (sample16 src stride (4 * x + 1) (4 * y + 1))).

Lemma q_px_u8 src stride x y : u8px (q_px src stride x y).
Proof. unfold q_px, u8px. auto using rg10_u8_u8. Qed.

(** Luma of every pixel; chroma of the lower right pixel of each 2x2. *)
Definition q_render (px : Z -> Z -> Z * Z * Z) : render :=
  {| r_px x y := px x y;
     r_y x y := y_of (px x y);
     r_u bx by_ := u_of (px (2 * bx + 1) (2 * by_ + 1));
     r_v bx by_ := v_of (px (2 * bx + 1) (2 * by_ + 1)) |}.

Lemma v5_px_ok w h stride src x y :
  src_ok w h stride src -> 0 <= x -> 4 * x + 1 < w -> 0 <= y -> 4 * y + 1 < h ->
  v5_px src (4 * y * stride) ((4 * y + 1) * stride) (4 * x) = Some (q_px src stride x y).
Proof.
  intros Hs Hx Hxw Hy Hyh. unfold v5_px.
  rewrite (proj1 (rd16_sample _ _ _ _ (4 * x) (4 * y) Hs ltac:(lia) ltac:(lia))).
  rewrite (proj1 (rd16_sample _ _ _ _ (4 * x + 1) (4 * y) Hs ltac:(lia) ltac:(lia))).
  by rewrite (proj1 (rd16_sample _ _ _ _ (4 * x + 1) (4 * y + 1) Hs ltac:(lia) ltac:(lia))).
Qed.

(** What the converters store for output pixel [(x, y)]. *)
Definition ColSet (w h : Z) (hi hr : bool) (x y : Z) (l : loc) : Prop :=
  PxSet w hi hr x y l \/
  (hi = true /\ Z.odd x = true /\ Z.odd y = true /\ ChromaAt w h (x / 2) (y / 2) l).

Lemma cols_FrameSet w h hi hr l :
  Z.even w = true -> Z.even h = true ->
  ((exists y, (0 <= y < h) /\ exists x, (0 <= x < w) /\ ColSet w h hi hr x y l) <->
   FrameSet w h hi hr l).
Proof.
  intros Hw Hh. pose proof (half w Hw) as Hw2. pose proof (half h Hh) as Hh2.
  unfold ColSet, PxSet, FrameSet. split.
  - intros (y & Hy & x & Hx & [[[Hr HR]|[Hi ->]]|(Hi & Hox & Hoy & HC)]).
    + left. split; [done | ]. by exists x, y.
    + right. split; [done | ]. left. by exists x, y.
    + right. split; [done | ]. right. exists (x / 2), (y / 2). split; [ | done].
      unfold in_blk, uvw. split; dlia.
  - intros [(Hr & x & y & [Hx Hy] & HR)|(Hi & [(x & y & [Hx Hy] & ->)|(bx & by_ & [Hx Hy] & HC)])].
    + exists y. split; [done | ]. exists x. tauto.
    + exists y. split; [done | ]. exists x. tauto.
    + unfold uvw in Hx. exists (2 * by_ + 1). split; [lia | ]. exists (2 * bx + 1). split; [lia | ].
      right. rewrite !Z.odd_add, !Z.odd_mul. cbn. split_and!; [done.. | ].
      replace ((2 * bx + 1) / 2) with bx by dlia. by replace ((2 * by_ + 1) / 2) with by_ by dlia.
Qed.

Section Stores.
Context (w h : Z) (px : Z -> Z -> Z * Z * Z).
Hypothesis Hw : 0 < w.
Hypothesis Hh : 0 < h.
Hypothesis Hew : Z.even w = true.
Hypothesis Heh : Z.even h = true.
Hypothesis Hpx : forall x y, u8px (px x y).
Context (sh : buf -> option Z) (hi hr : bool).
Hypothesis Hsh : forall b n, sh b = Some n -> need w h b <= n.
Hypothesis Hhi : has sh BI hi.
Hypothesis Hhr : has sh BR hr.
#[local] Abbreviation wrs :=
  (writes sh (fun l => l.1 <> BC) (frame_spec w h (q_render px))).

Lemma store_rgb_writes i x y :
  hr = true -> in_px w h x y -> i = (y * w + x) * 3 ->
  wrs (store_rgb i (px x y)) (RgbAt w x y).
Proof.
  intros Hn Hp ->. destruct (Hhr Hn) as [n Hsn]. unfold store_rgb.
  destruct (px x y) as [[r g] b] eqn:He. by eapply writes_rgb.
Qed.

Lemma luma_writes i v x y :
  hi = true -> in_px w h x y -> i = y * w + x -> v = y_of (px x y) ->
  wrs (wr BI i v) (fun l => l = at_y w x y).
Proof. intros Hn Hp -> ->. destruct (Hhi Hn) as [n Hsn]. by eapply writes_y. Qed.

Lemma quarter : w * h / 4 = uv_size w h.
Proof.
  unfold uv_size, uvw. pose proof (half w Hew). pose proof (half h Heh).
  replace (w * h) with (w / 2 * (h / 2) * 4) by nia. by apply Z.div_mul.
Qed.

Lemma chroma_writes iu iv u v x y :
  hi = true -> in_px w h x y -> Z.odd x = true -> Z.odd y = true ->
  iu = w * h + y / 2 * (w / 2) + x / 2 ->
  iv = w * h + w * h / 4 + y / 2 * (w / 2) + x / 2 ->
  u = u_of (px x y) -> v = v_of (px x y) ->
  wrs (wr BI iu u ;;; wr BI iv v) (ChromaAt w h (x / 2) (y / 2)).
Proof.
  intros Hn [Hx Hy] Hox Hoy -> -> -> ->. destruct (Hhi Hn) as [n Hsn].
  pose proof (half w Hew). pose proof (half h Heh).
  assert (Ex : 2 * (x / 2) + 1 = x) by (apply Z.odd_spec in Hox as [k ->]; dlia).
  assert (Ey : 2 * (y / 2) + 1 = y) by (apply Z.odd_spec in Hoy as [k ->]; dlia).
  assert (Hb : in_blk w h (x / 2) (y / 2)) by (split; unfold uvw; lia).
  rewrite quarter. apply writes_seq.
  - eapply writes_u; try done; [unfold uvw; lia | ]. cbn [q_render r_u]. by rewrite Ex, Ey.
  - eapply writes_v; try done; [unfold uvw; lia | ]. cbn [q_render r_v]. by rewrite Ex, Ey.
Qed.

Lemma v5_chroma_writes x y :
  hi = true -> in_px w h x (y + 1) -> Z.odd x = true -> Z.even y = true -> 0 <= y ->
  wrs (v5_chroma w h y x (px x (y + 1))) (ChromaAt w h (x / 2) ((y + 1) / 2)).
Proof.
  intros Hn Hp Hox Hey Hy0. destruct (lin_u8 _ (Hpx x (y + 1))) as (_ & Hu & Hv).
  pose proof Hp as [Hx Hy].
  assert (Eh : Z.quot y 2 = (y + 1) / 2) by (apply Z.even_spec in Hey as [k ->]; dlia).
  unfold v5_chroma, v5_u, v5_v. rewrite Eh, !(Z.quot_div_nonneg _ _) by nia.
  fold (u_of (px x (y + 1))) (v_of (px x (y + 1))). rewrite !clamp_u8_id by done.
  apply chroma_writes; try done. rewrite Z.odd_add, <- Z.negb_even, Hey. done.
Qed.

Lemma v6_chroma_writes x y :
  hi = true -> in_px w h x y -> Z.odd x = true -> Z.odd y = true ->
  wrs (v6_chroma w h y x (px x y)) (ChromaAt w h (x / 2) (y / 2)).
Proof.
  intros Hn Hp Hox Hoy. destruct (lin_u8 _ (Hpx x y)) as (_ & Hu & Hv).
  pose proof Hp as [Hx Hy].
  unfold v6_chroma. rewrite !(Z.quot_div_nonneg _ _) by lia.
  fold (u_of (px x y)) (v_of (px x y)). rewrite !u8_id by done.
  by apply chroma_writes.
Qed.

Lemma for8_writes {A} (f : Z -> A) body W :
  (forall i, 0 <= i < 8 -> wrs (body i (f i)) (W i)) ->
  wrs (for8 (map f (seqZ 0 8)) body) (fun l => exists i, (0 <= i < 8) /\ W i l).
Proof.
  intros Hb. unfold for8. apply writes_for1. intros i Hi.
  eapply writes_bind; [by apply lookup_map_seqZ | ]. by apply Hb.
Qed.

(** The odd lanes. *)
Lemma for_odd_writes body W :
  (forall i, 0 <= i < 8 -> Z.odd i = true -> wrs (body i) (W i)) ->
  wrs (for_ 1 8 2 body) (fun l => exists i, (0 <= i < 8) /\ Z.odd i = true /\ W i l).
Proof.
  intros Hb. eapply writes_iff.
  - apply (writes_for _ _ _ 1 8 2 _ W); [lia | ]. intros k Hk0 Hk1. apply Hb; [lia | ].
    rewrite Z.odd_add, Z.odd_mul. cbn. by rewrite andb_false_r.
  - intros l _. split.
    + intros (k & Hk0 & Hk1 & HW). exists (1 + k * 2). split; [lia | split; [ | done]].
      rewrite Z.odd_add, Z.odd_mul. cbn. by rewrite andb_false_r.
    + intros (i & Hi & Ho & HW). apply Z.odd_spec in Ho as [k ->]. exists k.
      split; [lia | split; [lia | ]]. by replace (1 + k * 2) with (2 * k + 1) by lia.
Qed.

Lemma luma8_writes i0 x y (l8 : list Z) :
  hi = true -> 0 <= x -> x + 8 <= w -> 0 <= y < h -> i0 = y * w + x ->
  l8 = map y_of (map (fun i => px (x + i) y) (seqZ 0 8)) ->
  wrs (for8 l8 (fun i v => wr BI (i0 + i) v))
  (fun l => exists i, (0 <= i < 8) /\ l = at_y w (x + i) y).
Proof.
  intros Hn Hx Hx8 Hy -> ->. rewrite map_map.
  apply (for8_writes (fun i => y_of (px (x + i) y))). intros i Hi.
  apply luma_writes; [done | split; lia | lia | done].
Qed.
End Stores.

Lemma vec_end_spec tgt w : 0 <= w ->
  exists n, vec_end tgt w = 8 * n /\ 0 <= n /\ vec_end tgt w <= w.
Proof.
  intros Hw. destruct tgt; unfold vec_end; [by exists 0 | ..];
    exists (Z.of_nat (trips 0 (w - 7) 8)); (split; [done | ]);
    (destruct (trips 0 (w - 7) 8) as [|n] eqn:E; [lia | ]);
    pose proof (proj1 (trips_spec 0 (w - 7) 8 (Z.of_nat n) ltac:(lia)) ltac:(lia)); lia.
Qed.

(** A row of columns: the vector loop, then the rest. *)
Lemma row_writes sh own spec tgt w vec col W :
  0 <= w ->
  (forall k, 0 <= k -> 8 * k + 8 <= w ->
     writes sh own spec (vec (8 * k)) (fun l => exists i, (0 <= i < 8) /\ W (8 * k + i) l)) ->
  (forall x, 0 <= x < w -> writes sh own spec (col x) (W x)) ->
  writes sh own spec (for_ 0 (vec_end tgt w) 8 vec ;;; for_ (vec_end tgt w) w 1 col)
    (fun l => exists x, (0 <= x < w) /\ W x l).
Proof.
  intros Hw Hv Hc. destruct (vec_end_spec tgt w Hw) as (n & En & Hn & Hle).
  eapply writes_iff.
  - apply writes_seq.
    + apply (writes_for_blocks _ _ _ 8 n); [lia | done | ]. intros k Hk. apply Hv; lia.
    + apply writes_for1. intros x Hx. apply Hc. lia.
  - intros l _. cbv beta. split.
    + intros [(k & Hk & i & Hi & HW)|(x & Hx & HW)]; [exists (8 * k + i) | exists x];
        (split; [lia | done]).
    + intros (x & Hx & HW). destruct (decide (x < vec_end tgt w)).
      * left. exists (x / 8). split; [dlia | ]. exists (x mod 8). split; [dlia | ].
        by rewrite <- Z.div_mod.
      * right. exists x. split; [lia | done].
Qed.

(* ------------------------------------------------------------------ *)
(** ** v5 *)

Section V5.
Context (W H stride : Z) (src : list Z).
#[local] Abbreviation w := (W / 4).
#[local] Abbreviation h := (H / 4).
Hypothesis HW : 8 <= W /\ W mod 8 = 0.
Hypothesis HH : 8 <= H /\ H mod 8 = 0.
Hypothesis Hsrc : src_ok W H stride src.

Lemma quarter_dims : W = 4 * w /\ H = 4 * h /\ 0 < w /\ 0 < h /\ Z.even w = true /\ Z.even h = true.
Proof.
  assert (Heven : forall n, 8 <= n -> n mod 8 = 0 -> n = 4 * (n / 4) /\ 0 < n / 4 /\ Z.even (n / 4) = true).
  { intros n Hn Hm. split; [dlia | split; [dlia | ]].
    apply Z.even_spec. exists (n / 8). dlia. }
  destruct (Heven W) as (? & ? & ?); [lia.. | ]. destruct (Heven H) as (? & ? & ?); [lia.. | ].
  by split_and!.
Qed.

#[local] Abbreviation px := (q_px src stride).

Lemma v5_read x y : in_px w h x y ->
  v5_px src ((y * 4 + 0) * stride) ((y * 4 + 1) * stride) (x * 4) = Some (px x y).
Proof.
  intros [Hx Hy]. destruct quarter_dims as (EW & EH & _).
  replace ((y * 4 + 0) * stride) with (4 * y * stride) by lia.
  replace ((y * 4 + 1) * stride) with ((4 * y + 1) * stride) by lia.
  rewrite (Z.mul_comm x). apply (v5_px_ok W H); done || lia.
Qed.

Context (sh : buf -> option Z) (hi hr : bool).
Hypothesis Hsh : forall b n, sh b = Some n -> need w h b <= n.
Hypothesis Hhi : has sh BI hi.
Hypothesis Hhr : has sh BR hr.
#[local] Abbreviation wrs :=
  (writes sh (fun l => l.1 <> BC) (frame_spec w h (q_render px))).

Definition PairSet (y x : Z) (l : loc) : Prop :=
  ColSet w h hi hr x y l \/ ColSet w h hi hr x (y + 1) l.

Lemma v5_column_writes y x :
  0 <= y -> y + 1 < h -> Z.even y = true -> 0 <= x < w ->
  wrs (v5_column w h stride src hi hr y x) (PairSet y x).
Proof.
  intros Hy0 Hy1 Hey Hx. destruct quarter_dims as (_ & _ & Hw & Hh & Hew & Heh).
  assert (P0 : in_px w h x y) by (split; lia).
  assert (P1 : in_px w h x (y + 1)) by (split; lia).
  pose proof (q_px_u8 src stride) as Hu.
  unfold v5_column. eapply writes_bind; [by apply v5_read | ].
  eapply writes_bind.
  { replace (y * 4 + 4) with ((y + 1) * 4 + 0) by lia.
    replace (y * 4 + 5) with ((y + 1) * 4 + 1) by lia. by apply v5_read. }
  rewrite land1_even, Z.negb_even. eapply writes_iff.
  - apply writes_seq; apply writes_when; intros Hn.
    + apply writes_seq; apply (store_rgb_writes w h px Hw sh hr Hsh Hhr); done || lia.
    + apply writes_seq; [ | apply writes_seq].
      * apply (luma_writes w h px Hw Hh sh hi Hsh Hhi _ _ x y); [done | done | lia | ]. rewrite u8_id; [done | apply lin_u8, Hu].
      * apply (luma_writes w h px Hw Hh sh hi Hsh Hhi _ _ x (y + 1)); [done | done | lia | ]. rewrite u8_id; [done | apply lin_u8, Hu].
      * apply writes_when. intros Ho. by apply (v5_chroma_writes w h px Hw Hh Hew Heh Hu sh hi Hsh Hhi).
  - intros l _. unfold PairSet, ColSet, PxSet.
    rewrite (Z.odd_add y), <- (Z.negb_even y), Hey. cbn [negb xorb Z.odd].
    split; [tauto | ]. intros [[HP|(_ & _ & [=] & _)]|HP]; tauto.
Qed.

Lemma v5_vector_writes tgt y k :
  0 <= y -> y + 1 < h -> Z.even y = true -> 0 <= k -> 8 * k + 8 <= w ->
  wrs (v5_vector tgt w h stride src hi hr y (8 * k))
  (fun l => exists i, (0 <= i < 8) /\ PairSet y (8 * k + i) l).
Proof.
  intros Hy0 Hy1 Hey Hk Hk8. destruct quarter_dims as (_ & _ & Hw & Hh & Hew & Heh).
  pose proof (q_px_u8 src stride) as Hu.
  set (x := 8 * k) in *.
  assert (Hread : forall y', 0 <= y' < h ->
    mapM (fun i => v5_px src ((y' * 4 + 0) * stride) ((y' * 4 + 1) * stride) (x * 4 + i * 4))
    (seqZ 0 8) = Some (map (fun i => px (x + i) y') (seqZ 0 8))).
  { intros y' Hy'. apply mapM_all, Forall_seqZ. intros i Hi.
    rewrite <- Z.mul_add_distr_r. apply v5_read. split; lia. }
  unfold v5_vector. eapply writes_bind; [apply Hread; lia | ].
  eapply writes_bind.
  { replace (y * 4 + 4) with ((y + 1) * 4 + 0) by lia.
    replace (y * 4 + 5) with ((y + 1) * 4 + 1) by lia. apply Hread. lia. }
  assert (HL : forall y', v5_luma8 tgt (map (fun i => px (x + i) y') (seqZ 0 8)) =
    map y_of (map (fun i => px (x + i) y') (seqZ 0 8))).
  { intros y'. assert (Hall : Forall u8px (map (fun i => px (x + i) y') (seqZ 0 8)))
      by (apply Forall_fmap, Forall_seqZ; intros; apply Hu).
    destruct tgt; [apply sse2_luma | apply sse2_luma | apply neon_luma]; done. }
  eapply writes_iff.
  - apply writes_seq; apply writes_when; intros Hn.
    + rewrite zip_with_map.
      apply (for8_writes w h px sh (fun i => (px (x + i) y, px (x + i) (y + 1)))).
      intros i Hi. apply writes_seq; apply (store_rgb_writes w h px Hw sh hr Hsh Hhr); try done; try lia; split; lia.
    + apply writes_seq; [ | apply writes_seq].
      * apply (luma8_writes w h px Hw Hh sh hi Hsh Hhi _ x y); try done; try lia.
      * apply (luma8_writes w h px Hw Hh sh hi Hsh Hhi _ x (y + 1)); try done; lia.
      * apply (for_odd_writes w h px sh _ (fun i => ChromaAt w h ((x + i) / 2) ((y + 1) / 2))).
        intros i Hi Ho. eapply writes_bind; [by apply lookup_map_seqZ | ].
        apply (v5_chroma_writes w h px Hw Hh Hew Heh Hu sh hi Hsh Hhi); try done; [split; lia | ].
        unfold x. rewrite Z.odd_add, Z.odd_mul, Ho. done.
  - intros l _. unfold PairSet, ColSet, PxSet.
    rewrite (Z.odd_add y), <- (Z.negb_even y), Hey. cbn [negb xorb Z.odd].
    assert (Hox : forall i, Z.odd (x + i) = Z.odd i).
    { intros i. unfold x. rewrite Z.odd_add, Z.odd_mul. by destruct (Z.odd i). }
    split.
    + intros [(Hn & i & Hi & HR)|(Hn & [(i & Hi & HL')|[(i & Hi & HL')|(i & Hi & Ho & HC)]])];
        exists i; (split; [done | ]); rewrite ?Hox; tauto.
    + intros (i & Hi & HP). rewrite !Hox in HP.
      destruct HP as [[[[Hn HR]|[Hn HL']]|(_ & _ & [=] & _)]
        |[[[Hn HR]|[Hn HL']]|(Hn & Ho & _ & HC)]].
      * left. split; [done | ]. exists i. tauto.
      * right. split; [done | ]. left. by exists i.
      * left. split; [done | ]. exists i. tauto.
      * right. split; [done | ]. right. left. by exists i.
      * right. split; [done | ]. right. right. by exists i.
Qed.

Lemma v5_frame_writes tgt :
  wrs (for_ 0 h 2 (fun out_y =>
    for_ 0 (vec_end tgt w) 8 (v5_vector tgt w h stride src hi hr out_y) ;;;
    for_ (vec_end tgt w) w 1 (v5_column w h stride src hi hr out_y)))
  (FrameSet w h hi hr).
Proof.
  destruct quarter_dims as (_ & _ & Hw & Hh & Hew & Heh). pose proof (half h Heh) as Hh2.
  eapply writes_iff.
  - apply (writes_for_blocks _ _ _ 2 (h / 2)); [lia | done | ]. intros j Hj.
    apply row_writes; [lia | | ].
    + intros k Hk Hk8. apply v5_vector_writes; try done; try lia. apply even_2x_r.
    + intros x Hx. apply v5_column_writes; try done; try lia. apply even_2x_r.
  - intros l _. rewrite <- (cols_FrameSet w h hi hr l Hew Heh). unfold PairSet. split.
    + intros (j & Hj & x & Hx & [HC|HC]); [exists (2 * j) | exists (2 * j + 1)];
        (split; [lia | by exists x]).
    + intros (y & Hy & x & Hx & HC).
      destruct (blk_split h y Heh Hy) as (j & d & Hj & Hd & ->).
      exists j. split; [done | ]. exists x. split; [done | ].
      assert (d = 0 \/ d = 1) as [->| ->] by lia; rewrite ?Z.add_0_r in HC; tauto.
Qed.
End V5.

Lemma bad_size_false W H : 8 <= W /\ W mod 8 = 0 -> 8 <= H /\ H mod 8 = 0 -> bad_size W H = false.
Proof.
  intros [] []. unfold bad_size.
  rewrite (proj2 (Z.ltb_ge W 8)), (proj2 (Z.ltb_ge H 8)) by lia.
  rewrite !Z.rem_mod_nonneg by lia.
  by rewrite (proj2 (Z.eqb_eq (W mod 8) 0)), (proj2 (Z.eqb_eq (H mod 8) 0)) by done.
Qed.

Lemma v5_runs tgt W H stride src m :
  8 <= W /\ W mod 8 = 0 -> 8 <= H /\ H mod 8 = 0 -> src_ok W H stride src ->
  fits (W / 4) (H / 4) m ->
  runs (W / 4) (H / 4) (q_render (q_px src stride))
    (aloe_rg10_rgb8_i420_v5 tgt W H stride src) m.
Proof.
  intros HW HH Hsrc Hfit. unfold runs, writes_at, aloe_rg10_rgb8_i420_v5.
  rewrite bad_size_false, !Z.quot_div_nonneg by (done || lia).
  apply (v5_frame_writes W H stride src HW HH Hsrc (fun b => blen b m)); auto with mach. done.
Qed.

(* ------------------------------------------------------------------ *)
(** ** v6 *)

Definition lut_ok (lut : option (list Z * list Z * list Z)) : Prop :=
  match lut with
  | None => True
  | Some (l0, l1, l2) =>
      Forall (fun l => length l = 256%nat /\ Forall is_u8 l) [l0; l1; l2]
  end.

(** The adjusted pixel. *)
Definition lut_px (lut : option (list Z * list Z * list Z)) (p : Z * Z * Z) : Z * Z * Z :=
  match lut with
  | None => p
  | Some (l0, l1, l2) => let '(r, g, b) := p in (ix l0 r, ix l1 g, ix l2 b)
  end.

Lemma adjust_px_ok lut p : lut_ok lut -> u8px p ->
  adjust_px lut p = Some (lut_px lut p) /\ u8px (lut_px lut p).
Proof.
  intros Hl Hp. destruct lut as [[[l0 l1] l2]|]; [ | done].
  unfold lut_ok in Hl. rewrite !Forall_cons in Hl. destruct Hl as ([? ?] & [? ?] & [? ?] & _).
  destruct p as [[r g] b]. destruct Hp as (Hr & Hg & Hb). unfold is_u8 in Hr, Hg, Hb.
  cbn [adjust_px lut_px]. rewrite !rd_ix by lia. split; [done | ].
  split_and!; apply (ix_Forall is_u8); done || mlia.
Qed.

Lemma v6_lut_ok g : lut_ok (v6_lut g).
Proof.
  destruct g as [[r g] b]. unfold v6_lut. destruct (adjusts _); [ | done].
  assert (H : forall g, length (gain_lut g) = 256%nat /\ Forall is_u8 (gain_lut g)).
  { intros g'. unfold gain_lut. rewrite length_map. split; [done | ].
    apply Forall_fmap, Forall_seqZ. intros i _. apply u8_range. }
  unfold lut_ok. rewrite !Forall_cons. auto.
Qed.

(** The two samples of a 32-bit lane. *)
Lemma lane_lo lo hi : is_u16 lo -> is_u16 hi ->
  Z.land (Z.shiftr (lo + 65536 * hi) 2) 255 = rg10_u8 lo.
Proof.
  intros Hlo Hhi. rewrite rg10_u8_mod, shr_div by lia.
  pose proof (land_mask ((lo + 65536 * hi) / 2 ^ 2) 8 ltac:(lia)) as Hm.
  change (Z.ones 8) with 255 in Hm. rewrite Hm. unfold is_u16 in *. dlia.
Qed.

Lemma lane_hi lo hi : is_u16 lo -> is_u16 hi ->
  Z.land (Z.shiftr (lo + 65536 * hi) 18) 255 = rg10_u8 hi.
Proof.
  intros Hlo Hhi. rewrite rg10_u8_mod, shr_div by lia.
  pose proof (land_mask ((lo + 65536 * hi) / 2 ^ 18) 8 ltac:(lia)) as Hm.
  change (Z.ones 8) with 255 in Hm. rewrite Hm.
  replace ((lo + 65536 * hi) / 2 ^ 18) with (hi / 4); [done | ]. unfold is_u16 in *. dlia.
Qed.

(** Bytes survive the two saturating packs. *)
Lemma pack_byte v : is_u8 v ->
  Z.max 0 (Z.min 255 (s16 (let x := if v <? 2147483648 then v else v - 4294967296 in
    u16 (Z.max (-32768) (Z.min 32767 x))))) = v.
Proof.
  unfold is_u8. intros Hv. rewrite (proj2 (Z.ltb_lt _ _)) by lia. cbv zeta.
  rewrite u16_id by (unfold is_u16; lia). unfold s16. rewrite Z.mod_small by lia. lia.
Qed.

Section Gather.
Context (W H stride : Z) (src : list Z).
Hypothesis Hsrc : src_ok W H stride src.
#[local] Abbreviation S16 := (sample16 src stride).

Lemma pairs_ok i y : 0 <= i -> i + 15 < W -> 0 <= y < H ->
  rg10_v6_pairs src (y * stride) i =
  Some (map (fun k => S16 (i + 4 * k) y + 65536 * S16 (i + 4 * k + 1) y) (seqZ 0 4)).
Proof.
  intros Hi Hi15 Hy.
  assert (Hl : forall j, 0 <= j -> j + 7 < W ->
    load128 src (y * stride) j =
    Some (map (fun k => S16 (j + 2 * k) y + 65536 * S16 (j + 2 * k + 1) y) (seqZ 0 4))).
  { intros j Hj Hj7. apply mapM_all, Forall_seqZ. intros k Hk. unfold pair32.
    rewrite (proj1 (rd16_sample _ _ _ _ (j + 2 * k) y Hsrc ltac:(lia) Hy)).
    by rewrite (proj1 (rd16_sample _ _ _ _ (j + 2 * k + 1) y Hsrc ltac:(lia) Hy)). }
  unfold rg10_v6_pairs. rewrite !Hl by lia. cbn [mbind option_bind].
  change (seqZ 0 4) with [0; 1; 2; 3]. cbn [map].
  assert (Hs : forall a b c d, shuffle_2020 [a; b; c; d] = Some [a; c; a; c]) by done.
  rewrite !Hs. cbn [mbind option_bind]. unfold unpacklo_epi64. cbn [take firstn app].
  assert (E : forall a b, a = b ->
    S16 a y + 65536 * S16 (a + 1) y = S16 b y + 65536 * S16 (b + 1) y) by (by intros a b ->).
  apply f_equal. repeat (apply f_equal2; [apply E; lia | ]). done.
Qed.

(** A channel of eight pixels, [shift] 2 or 18. *)
Lemma channel_ok i y shift d :
  (shift = 2 /\ d = 0) \/ (shift = 18 /\ d = 1) ->
  0 <= i -> i + 31 < W -> 0 <= y < H ->
  exists a b, rg10_v6_pairs src (y * stride) i = Some a /\
  rg10_v6_pairs src (y * stride) (i + 16) = Some b /\
  rg10_v6_channel a b shift = map (fun k => rg10_u8 (S16 (i + 4 * k + d) y)) (seqZ 0 8).
Proof.
  intros Hsd Hi Hi31 Hy. do 2 eexists.
  split; [by apply pairs_ok; lia | ]. split; [by apply pairs_ok; lia | ].
  assert (Hch : forall k, 0 <= k < 8 ->
    Z.land (Z.shiftr (S16 (i + 4 * k) y + 65536 * S16 (i + 4 * k + 1) y) shift) 255 =
    rg10_u8 (S16 (i + 4 * k + d) y)).
  { intros k Hk.
    pose proof (proj2 (rd16_sample _ _ _ _ (i + 4 * k) y Hsrc ltac:(lia) Hy)).
    pose proof (proj2 (rd16_sample _ _ _ _ (i + 4 * k + 1) y Hsrc ltac:(lia) Hy)).
    destruct Hsd as [[-> ->]|[-> ->]]; [rewrite Z.add_0_r; by apply lane_lo | by apply lane_hi]. }
  unfold rg10_v6_channel, mm_packus_epi16, packs_epi32. rewrite <- map_app.
  change (seqZ 0 8) with (seqZ 0 4 ++ map (fun k => k + 4) (seqZ 0 4)).
  rewrite !map_app, !map_map. f_equal; apply map_ext_Forall, Forall_seqZ; intros k Hk.
  - rewrite Hch by lia. by rewrite pack_byte by apply rg10_u8_u8.
  - replace (i + 16 + 4 * k) with (i + 4 * (k + 4)) by lia.
    rewrite Hch by lia. by rewrite pack_byte by apply rg10_u8_u8.
Qed.

Lemma neon_channel_ok i y d :
  0 <= d <= 1 -> 0 <= i -> i + 31 < W -> 0 <= y < H ->
  v6_neon_channel src (y * stride) i d =
  Some (map (fun k => rg10_u8 (S16 (i + 4 * k + d) y)) (seqZ 0 8)).
Proof.
  intros Hd Hi Hi31 Hy. unfold v6_neon_channel.
  rewrite (mapM_all _ (fun k => S16 (i + 4 * k + d) y)).
  - cbn [mbind option_bind]. unfold vmovn_u16, vshrq_n_u16. rewrite !map_map. f_equal.
    apply map_ext_Forall, Forall_seqZ. intros k Hk. rewrite rg10_u8_mod, shr_div by lia. done.
  - apply Forall_seqZ. intros k Hk. apply (rd16_sample W H); [done | lia | done].
Qed.

Lemma gather_ok tgt x y :
  0 <= x -> 4 * x + 31 < W -> 0 <= y -> 4 * y + 1 < H ->
  v6_gather tgt src (y * 4 * stride) (y * 4 * stride + stride) x =
  Some (map (fun i => q_px src stride (x + i) y) (seqZ 0 8)).
Proof.
  intros Hx Hxw Hy Hyh.
  replace (y * 4 * stride) with (4 * y * stride) by lia.
  replace (4 * y * stride + stride) with ((4 * y + 1) * stride) by lia.
  assert (Hz : zip_with (fun '(r, g) b => (r, g, b))
    (zip (map (fun k => rg10_u8 (S16 (x * 4 + 4 * k + 0) (4 * y))) (seqZ 0 8))
    (map (fun k => rg10_u8 (S16 (x * 4 + 4 * k + 1) (4 * y))) (seqZ 0 8)))
    (map (fun k => rg10_u8 (S16 (x * 4 + 4 * k + 1) (4 * y + 1))) (seqZ 0 8)) =
    map (fun i => q_px src stride (x + i) y) (seqZ 0 8)).
  { rewrite !zip_with_map. apply map_ext_Forall, Forall_seqZ. intros k Hk. unfold q_px.
    replace (x * 4 + 4 * k + 0) with (4 * (x + k)) by lia.
    by replace (x * 4 + 4 * k + 1) with (4 * (x + k) + 1) by lia. }
  destruct (channel_ok (x * 4) (4 * y) 2 0) as (t0 & t1 & E0 & E1 & C0); [tauto | lia.. | ].
  destruct (channel_ok (x * 4) (4 * y) 18 1) as (t0' & t1' & E0' & E1' & C1); [tauto | lia.. | ].
  destruct (channel_ok (x * 4) (4 * y + 1) 18 1) as (b0 & b1 & E2 & E3 & C2); [tauto | lia.. | ].
  rewrite E0 in E0'. injection E0' as <-. rewrite E1 in E1'. injection E1' as <-.
  destruct tgt; unfold v6_gather.
  1,2: rewrite E0, E1, E2, E3; cbn [mbind option_bind]; by rewrite C0, C1, C2, Hz.
  rewrite !neon_channel_ok by lia. cbn [mbind option_bind]. by rewrite Hz.
Qed.
End Gather.

Section V6.
Context (W H stride : Z) (src : list Z) (lut : option (list Z * list Z * list Z)).
#[local] Abbreviation w := (W / 4).
#[local] Abbreviation h := (H / 4).
Hypothesis HW : 8 <= W /\ W mod 8 = 0.
Hypothesis HH : 8 <= H /\ H mod 8 = 0.
Hypothesis Hsrc : src_ok W H stride src.
Hypothesis Hlut : lut_ok lut.

Definition v6_px (x y : Z) : Z * Z * Z := lut_px lut (q_px src stride x y).

Lemma v6_px_u8 x y : u8px (v6_px x y).
Proof. apply adjust_px_ok; [done | apply q_px_u8]. Qed.

Context (sh : buf -> option Z) (hi hr : bool).
Hypothesis Hsh : forall b n, sh b = Some n -> need w h b <= n.
Hypothesis Hhi : has sh BI hi.
Hypothesis Hhr : has sh BR hr.
#[local] Abbreviation wrs :=
  (writes sh (fun l => l.1 <> BC) (frame_spec w h (q_render v6_px))).

Lemma v6_column_writes y x :
  in_px w h x y ->
  wrs (v6_column lut w h stride src hi hr y x) (ColSet w h hi hr x y).
Proof.
  intros Hp. destruct (quarter_dims W H HW HH) as (EW & EH & Hw & Hh & Hew & Heh).
  pose proof Hp as [Hx Hy].
  unfold v6_column. eapply writes_bind.
  { replace (y * 4 * stride) with ((y * 4 + 0) * stride) by lia.
    replace ((y * 4 + 0) * stride + stride) with ((y * 4 + 1) * stride) by lia.
    by apply (v5_read W H). }
  eapply writes_bind; [by apply adjust_px_ok, q_px_u8 | ]. fold (v6_px x y).
  rewrite !land1_even, !Z.negb_even. eapply writes_iff.
  - apply writes_seq; apply writes_when; intros Hn.
    + apply (store_rgb_writes w h v6_px Hw sh hr Hsh Hhr); done || lia.
    + apply writes_seq.
      * apply (luma_writes w h v6_px Hw Hh sh hi Hsh Hhi _ _ x y); [done.. | ].
        rewrite u8_id; [done | apply lin_u8, v6_px_u8].
      * apply writes_when. intros [Ho1 Ho2]%andb_true_iff.
        by apply (v6_chroma_writes w h v6_px Hw Hh Hew Heh v6_px_u8 sh hi Hsh Hhi).
  - intros l _. unfold ColSet, PxSet. rewrite andb_true_iff. tauto.
Qed.

Lemma v6_vector_writes tgt y k :
  0 <= y < h -> 0 <= k -> 8 * k + 8 <= w ->
  wrs (v6_vector tgt lut w h stride src hi hr y (8 * k))
  (fun l => exists i, (0 <= i < 8) /\ ColSet w h hi hr (8 * k + i) y l).
Proof.
  intros Hy Hk Hk8. destruct (quarter_dims W H HW HH) as (EW & EH & Hw & Hh & Hew & Heh).
  set (x := 8 * k) in *.
  unfold v6_vector. eapply writes_bind; [apply (gather_ok W H); done || lia | ].
  eapply writes_bind.
  { apply (mapM_all _ (lut_px lut)). apply Forall_fmap, Forall_seqZ. intros i Hi.
    by apply adjust_px_ok, q_px_u8. }
  rewrite map_map.
  change (map _ (seqZ 0 8)) with (map (fun i => v6_px (x + i) y) (seqZ 0 8)).
  assert (HL : v6_luma8 tgt (map (fun i => v6_px (x + i) y) (seqZ 0 8)) =
    map y_of (map (fun i => v6_px (x + i) y) (seqZ 0 8))).
  { assert (Hall : Forall u8px (map (fun i => v6_px (x + i) y) (seqZ 0 8)))
      by (apply Forall_fmap, Forall_seqZ; intros; apply v6_px_u8).
    destruct tgt; [apply sse2_luma | apply sse2_luma | apply v6_neon_luma]; done. }
  rewrite land1_even, Z.negb_even. eapply writes_iff.
  - apply writes_seq; [ | apply writes_seq]; apply writes_when; intros Hn.
    + apply (for8_writes w h v6_px sh (fun i => v6_px (x + i) y)). intros i Hi.
      apply (store_rgb_writes w h v6_px Hw sh hr Hsh Hhr); [done | split; lia | lia].
    + apply (luma8_writes w h v6_px Hw Hh sh hi Hsh Hhi _ x y); try done; lia.
    + apply andb_true_iff in Hn as [Hn Hoy].
      apply (for_odd_writes w h v6_px sh _ (fun i => ChromaAt w h ((x + i) / 2) (y / 2))).
      intros i Hi Ho. eapply writes_bind; [by apply lookup_map_seqZ | ].
      apply (v6_chroma_writes w h v6_px Hw Hh Hew Heh v6_px_u8 sh hi Hsh Hhi);
        [done | split; lia | | done].
      unfold x. by rewrite Z.odd_add, Z.odd_mul, Ho.
  - intros l _. unfold ColSet, PxSet. rewrite andb_true_iff.
    assert (Hox : forall i, Z.odd (x + i) = Z.odd i).
    { intros i. unfold x. rewrite Z.odd_add, Z.odd_mul. by destruct (Z.odd i). }
    split.
    + intros [(Hn & i & Hi & HR)|[(Hn & i & Hi & HL')|([Hn Hoy] & i & Hi & Ho & HC)]];
        exists i; (split; [done | ]); rewrite ?Hox; tauto.
    + intros (i & Hi & HP). rewrite !Hox in HP.
      destruct HP as [[[Hn HR]|[Hn HL']]|(Hn & Ho & Hoy & HC)].
      * left. split; [done | ]. by exists i.
      * right. left. split; [done | ]. by exists i.
      * right. right. split; [done | ]. by exists i.
Qed.

Lemma v6_frame_writes tgt :
  wrs (for_ 0 h 1 (fun y =>
    for_ 0 (vec_end tgt w) 8 (v6_vector tgt lut w h stride src hi hr y) ;;;
    for_ (vec_end tgt w) w 1 (v6_column lut w h stride src hi hr y)))
  (FrameSet w h hi hr).
Proof.
  destruct (quarter_dims W H HW HH) as (EW & EH & Hw & Hh & Hew & Heh).
  eapply writes_iff.
  - apply writes_for1. intros y Hy.
    apply (row_writes _ _ _ _ _ _ _ (fun x => ColSet w h hi hr x y)); [lia | | ].
    + intros k Hk Hk8. by apply v6_vector_writes.
    + intros x Hx. by apply v6_column_writes.
  - intros l _. by rewrite <- (cols_FrameSet w h hi hr l Hew Heh).
Qed.
End V6.

Definition gains_ok (g : gains) : bool :=
  let '(r, g, b) := g in gain_ok r && gain_ok g && gain_ok b.

Lemma v6_runs tgt W H stride src g m :
  8 <= W /\ W mod 8 = 0 -> 8 <= H /\ H mod 8 = 0 -> src_ok W H stride src ->
  gains_ok g = true -> fits (W / 4) (H / 4) m -> i420 m <> None \/ rgb m <> None ->
  runs (W / 4) (H / 4) (q_render (v6_px stride src (v6_lut g)))
    (aloe_rg10_rgb8_i420_v6 tgt W H stride src g) m.
Proof.
  intros HW HH Hsrc Hg Hfit Hbuf. destruct g as [[r g] b].
  cbn in Hg. apply andb_true_iff in Hg as [[Hr Hg]%andb_true_iff Hb].
  unfold runs, writes_at, aloe_rg10_rgb8_i420_v6.
  rewrite bad_size_false, Hr, Hg, Hb, !Z.quot_div_nonneg by (done || lia). cbn [negb orb].
  assert (Hnn : negb (nonnull (rgb m)) && negb (nonnull (i420 m)) = false)
    by (destruct (rgb m), (i420 m), Hbuf; done).
  rewrite Hnn.
  apply (v6_frame_writes W H stride src (v6_lut (r, g, b)) HW HH Hsrc (v6_lut_ok _)
    (fun b => blen b m)); auto with mach. done.
Qed.

(* ------------------------------------------------------------------ *)
(** ** v4 *)

Section V4.
Context (W H stride : Z) (src : list Z).
#[local] Abbreviation w := (W / 2).
#[local] Abbreviation h := (H / 2).
Hypothesis HW : 8 <= W /\ W mod 8 = 0.
Hypothesis HH : 8 <= H /\ H mod 8 = 0.
Hypothesis Hsrc : src_ok W H stride src.
#[local] Abbreviation S16 := (sample16 src stride).

(** One pixel per 2x2 source block, its two greens averaged. *)
Definition h_px (x y : Z) : Z * Z * Z :=
  (S16 (2 * x) (2 * y) / 4,
  (S16 (2 * x + 1) (2 * y) + S16 (2 * x) (2 * y + 1)) / 2 / 4,
  S16 (2 * x + 1) (2 * y + 1) / 4).

(** RGB truncated to bytes; luma clamped; chroma of the upper left pixel. *)
Definition h_render : render :=
  {| r_px x y := map3 u8 (h_px x y);
   r_y x y := clamp_u8 (y_of (h_px x y));
   r_u bx by_ := clamp_u8 (u_of (h_px (2 * bx) (2 * by_)));
   r_v bx by_ := clamp_u8 (v_of (h_px (2 * bx) (2 * by_))) |}.

Lemma half_dims : W = 2 * w /\ H = 2 * h /\ 0 < w /\ 0 < h /\
  Z.even w = true /\ Z.even h = true /\ W = 8 * (W / 8) /\ H = 8 * (H / 8).
Proof.
  assert (Hev : forall n, 8 <= n -> n mod 8 = 0 ->
    n = 2 * (n / 2) /\ 0 < n / 2 /\ Z.even (n / 2) = true /\ n = 8 * (n / 8)).
  { intros n Hn Hm. split; [dlia | split; [dlia | split; [ | dlia]]].
    apply Z.even_spec. exists (n / 8 * 2). dlia. }
  destruct (Hev W) as (? & ? & ? & ?); [lia.. | ].
  destruct (Hev H) as (? & ? & ? & ?); [lia.. | ]. by split_and!.
Qed.

Lemma v4_fetch_ok bx by_ _y _x :
  0 <= bx < W / 8 -> 0 <= by_ < H / 8 -> 0 <= _y < 4 -> 0 <= _x < 4 ->
  v4_fetch src stride (8 * by_ * stride) (8 * bx) _y _x =
  Some (h_px (4 * bx + _x) (4 * by_ + _y)).
Proof.
  intros Hx Hy Hyy Hxx. destruct half_dims as (_ & _ & _ & _ & _ & _ & EW & EH).
  assert (Hr : forall dx dy, 0 <= dx < 2 -> 0 <= dy < 2 ->
    rd16 src (8 * by_ * stride + 2 * (8 * bx) + (_y * 2 + dy) * stride) (_x * 2 + dx) =
    Some (S16 (2 * (4 * bx + _x) + dx) (2 * (4 * by_ + _y) + dy)) /\
    is_u16 (S16 (2 * (4 * bx + _x) + dx) (2 * (4 * by_ + _y) + dy))).
  { intros dx dy Hdx Hdy.
    destruct (rd16_sample W H stride src (2 * (4 * bx + _x) + dx) (2 * (4 * by_ + _y) + dy))
      as [E Hu]; [done | lia.. | ]. split; [ | done]. rewrite <- E. unfold rd16.
    by replace (8 * by_ * stride + 2 * (8 * bx) + (_y * 2 + dy) * stride + 2 * (_x * 2 + dx))
      with ((2 * (4 * by_ + _y) + dy) * stride + 2 * (2 * (4 * bx + _x) + dx)) by lia. }
  unfold v4_fetch.
  destruct (Hr 0 0) as [E00 U00]; [lia.. | ]. destruct (Hr 1 0) as [E10 U10]; [lia.. | ].
  destruct (Hr 0 1) as [E01 U01]; [lia.. | ]. destruct (Hr 1 1) as [E11 U11]; [lia.. | ].
  rewrite !Z.add_0_r in *. rewrite E00, E10, E01, E11. cbn [mbind option_bind].
  unfold h_px. unfold is_u16 in *. rewrite !Z.quot_div_nonneg by (try apply Z.quot_pos; lia). done.
Qed.

Context (sh : buf -> option Z) (hi hr : bool).
Hypothesis Hsh : forall b n, sh b = Some n -> need w h b <= n.
Hypothesis Hhi : has sh BI hi.
Hypothesis Hhr : has sh BR hr.
#[local] Abbreviation wrs := (writes sh (fun l => l.1 <> BC) (frame_spec w h h_render)).

(** The stores over a block, every [step]-th row and column. *)
Lemma v4_each_writes step bx by_ body Wd :
  step = 1 \/ step = 2 ->
  (forall _y _x, 0 <= _y < 4 -> 0 <= _x < 4 -> _y mod step = 0 -> _x mod step = 0 ->
   wrs (body _y _x (h_px (4 * bx + _x) (4 * by_ + _y))) (Wd _y _x)) ->
  wrs (v4_each step (map (fun k => h_px (4 * bx + k mod 4) (4 * by_ + k / 4)) (seqZ 0 16)) body)
  (fun l => exists _y _x, 0 <= _y < 4 /\ 0 <= _x < 4 /\ _y mod step = 0 /\ _x mod step = 0 /\
     Wd _y _x l).
Proof.
  intros Hst Hb. unfold v4_each. eapply writes_iff.
  - apply (writes_for _ _ _ 0 4 step _ (fun _y l => exists k, 0 <= k /\ 0 + k * step < 4 /\
      Wd _y (0 + k * step) l)); [lia | ].
    intros j Hj0 Hj1. apply (writes_for _ _ _ 0 4 step _ (Wd (0 + j * step))); [lia | ].
    intros k Hk0 Hk1. rewrite !Z.add_0_l in *.
    assert (Hjs : 0 <= j * step < 4) by nia. assert (Hks : 0 <= k * step < 4) by nia.
    eapply writes_bind; [apply (lookup_map_seqZ _ 16); lia | ].
    replace ((4 * (j * step) + k * step) mod 4) with (k * step) by dlia.
    replace ((4 * (j * step) + k * step) / 4) with (j * step) by dlia.
    apply Hb; [lia | lia | ..]; apply Z.mod_mul; lia.
  - intros l _. split.
    + intros (j & Hj0 & Hj1 & k & Hk0 & Hk1 & HW'). rewrite !Z.add_0_l in *.
      exists (j * step), (k * step). split; [nia | split; [nia | ]].
      split; [apply Z.mod_mul; lia | split; [apply Z.mod_mul; lia | done]].
    + intros (_y & _x & Hy & Hx & My & Mx & HW').
      exists (_y / step). split; [apply Z.div_pos; lia | ].
      assert (Ey : 0 + _y / step * step = _y) by (destruct Hst as [-> | ->]; dlia).
      assert (Ex : 0 + _x / step * step = _x) by (destruct Hst as [-> | ->]; dlia).
      rewrite Ey. split; [lia | ]. exists (_x / step). split; [apply Z.div_pos; lia | ].
      by rewrite Ex; split; [lia | ].
Qed.

Definition Block4 (bx by_ : Z) (l : loc) : Prop :=
  exists _y _x, 0 <= _y < 4 /\ 0 <= _x < 4 /\
  (PxSet w hi hr (4 * bx + _x) (4 * by_ + _y) l \/
   (hi = true /\ _y mod 2 = 0 /\ _x mod 2 = 0 /\
    ChromaAt w h (2 * bx + _x / 2) (2 * by_ + _y / 2) l)).

Lemma v4_block_writes bx by_ :
  0 <= bx < W / 8 -> 0 <= by_ < H / 8 ->
  wrs (v4_block w h stride src hi hr (8 * by_) (8 * bx)) (Block4 bx by_).
Proof.
  intros Hbx Hby. destruct half_dims as (EW & EH & Hw & Hh & Hew & Heh & EW8 & EH8).
  pose proof (half w Hew) as Hw2. pose proof (half h Heh) as Hh2.
  assert (Ew : w = 4 * (W / 8)) by lia. assert (Eh : h = 4 * (H / 8)) by lia.
  unfold v4_block.
  replace (Z.quot (8 * by_) 2) with (4 * by_) by dlia.
  replace (Z.quot (8 * bx) 2) with (4 * bx) by dlia.
  replace (Z.quot (4 * by_) 2) with (2 * by_) by dlia.
  replace (Z.quot (4 * bx) 2) with (2 * bx) by dlia.
  replace (Z.quot w 2) with (w / 2) by dlia. replace (Z.quot h 2) with (h / 2) by dlia.
  eapply writes_bind.
  { apply mapM_all, Forall_seqZ. intros k Hk. apply v4_fetch_ok; [done | done | dlia | dlia]. }
  eapply writes_iff.
  - apply writes_seq; apply writes_when; intros Hn.
    + apply (v4_each_writes 1 bx by_ _ (fun _y _x => RgbAt w (4 * bx + _x) (4 * by_ + _y)));
        [tauto | ]. intros _y _x Hy Hx _ _. destruct (Hhr Hn) as [n Hsn].
      destruct (h_px (4 * bx + _x) (4 * by_ + _y)) as [[r g] b] eqn:He. cbn [map3 store_rgb].
      unfold store_rgb. eapply writes_rgb; [done.. | split; lia | lia | ].
      change (r_px h_render (4 * bx + _x) (4 * by_ + _y))
        with (map3 u8 (h_px (4 * bx + _x) (4 * by_ + _y))). by rewrite He.
    + destruct (Hhi Hn) as [n Hsn]. apply writes_seq; [ | apply writes_seq].
      * apply (v4_each_writes 1 bx by_ _ (fun _y _x l => l = at_y w (4 * bx + _x) (4 * by_ + _y)));
          [tauto | ]. intros _y _x Hy Hx _ _.
        eapply writes_y; [done.. | split; lia | lia | apply u8_id, clamp_u8_u8].
      * apply (v4_each_writes 2 bx by_ _ (fun _y _x l =>
          l = at_u w h (2 * bx + _x / 2) (2 * by_ + _y / 2))); [tauto | ].
        intros _y _x Hy Hx My Mx. rewrite !Z.quot_div_nonneg by lia.
        eapply writes_u; [done.. | unfold in_blk, uvw; dlia | unfold uvw; lia | ].
        replace (4 * bx + _x) with (2 * (2 * bx + _x / 2)) by dlia.
        replace (4 * by_ + _y) with (2 * (2 * by_ + _y / 2)) by dlia.
        apply u8_id, clamp_u8_u8.
      * apply (v4_each_writes 2 bx by_ _ (fun _y _x l =>
          l = at_v w h (2 * bx + _x / 2) (2 * by_ + _y / 2))); [tauto | ].
        intros _y _x Hy Hx My Mx. rewrite !Z.quot_div_nonneg by lia.
        eapply writes_v; [done.. | unfold in_blk, uvw; dlia | unfold uv_size, uvw; lia | ].
        replace (4 * bx + _x) with (2 * (2 * bx + _x / 2)) by dlia.
        replace (4 * by_ + _y) with (2 * (2 * by_ + _y / 2)) by dlia.
        apply u8_id, clamp_u8_u8.
  - intros l _. unfold Block4, PxSet, ChromaAt. split.
    + intros [(Hn & _y & _x & Hy & Hx & _ & _ & HP)|(Hn & [(_y & _x & Hy & Hx & _ & _ & HP)
        |[(_y & _x & Hy & Hx & My & Mx & HP)|(_y & _x & Hy & Hx & My & Mx & HP)]])];
        exists _y, _x; tauto.
    + intros (_y & _x & Hy & Hx & [[[Hn HP]|[Hn HP]]|(Hn & My & Mx & [HP|HP])]).
      * left. split; [done | ]. exists _y, _x. rewrite !Z.mod_1_r. tauto.
      * right. split; [done | ]. left. exists _y, _x. rewrite !Z.mod_1_r. tauto.
      * right. split; [done | ]. right. left. exists _y, _x. tauto.
      * right. split; [done | ]. right. right. exists _y, _x. tauto.
Qed.

Lemma blocks4_FrameSet l :
  (exists by_, (0 <= by_ < H / 8) /\ exists bx, (0 <= bx < W / 8) /\ Block4 bx by_ l) <->
  FrameSet w h hi hr l.
Proof.
  destruct half_dims as (EW & EH & Hw & Hh & Hew & Heh & EW8 & EH8).
  pose proof (half w Hew) as Hw2. pose proof (half h Heh) as Hh2.
  unfold Block4, PxSet, FrameSet. split.
  - intros (by_ & Hby & bx & Hbx & _y & _x & Hy & Hx & [[[Hn HP]|[Hn HP]]|(Hn & My & Mx & HP)]).
    + left. split; [done | ]. eexists _, _. split; [ | exact HP]. split; lia.
    + right. split; [done | ]. left. eexists _, _. split; [ | exact HP]. split; lia.
    + right. split; [done | ]. right. eexists _, _. split; [ | exact HP]. unfold in_blk, uvw. dlia.
  - intros [(Hr & x & y & [Hx Hy] & HP)|(Hn & [(x & y & [Hx Hy] & HP)|(bx & by_ & [Hx Hy] & HP)])].
    + exists (y / 4). split; [dlia | ]. exists (x / 4). split; [dlia | ]. exists (y mod 4), (x mod 4).
      split; [dlia | split; [dlia | ]]. left. left. split; [done | ].
      by rewrite <- !Z.div_mod.
    + exists (y / 4). split; [dlia | ]. exists (x / 4). split; [dlia | ]. exists (y mod 4), (x mod 4).
      split; [dlia | split; [dlia | ]]. left. right. split; [done | ].
      by rewrite <- !Z.div_mod.
    + unfold uvw in Hx. exists (by_ / 2). split; [dlia | ]. exists (bx / 2). split; [dlia | ].
      exists (2 * (by_ mod 2)), (2 * (bx mod 2)).
      split; [dlia | split; [dlia | ]]. right. split; [done | ].
      rewrite !double_div, <- !Z.div_mod by lia. split; [dlia | split; [dlia | done]].
Qed.
End V4.

Lemma v4_runs W H stride src m :
  8 <= W /\ W mod 8 = 0 -> 8 <= H /\ H mod 8 = 0 -> src_ok W H stride src ->
  fits (W / 2) (H / 2) m ->
  runs (W / 2) (H / 2) (h_render stride src) (aloe_rg10_rgb8_i420_v4 W H stride src) m.
Proof.
  intros HW HH Hsrc Hfit. destruct (half_dims W H HW HH) as (EW & EH & Hw & Hh & _ & _ & EW8 & EH8).
  assert (Hwr : writes (fun b => blen b m) (fun l => l.1 <> BC)
    (frame_spec (W / 2) (H / 2) (h_render stride src))
    (for_ 0 H 8 (fun y => for_ 0 W 8 (fun x =>
      v4_block (W / 2) (H / 2) stride src (nonnull (i420 m)) (nonnull (rgb m)) y x)))
    (FrameSet (W / 2) (H / 2) (nonnull (i420 m)) (nonnull (rgb m)))).
  { eapply writes_iff.
    - apply (writes_for_blocks _ _ _ 8 (H / 8)); [lia | done | ]. intros by_ Hby.
      apply (writes_for_blocks _ _ _ 8 (W / 8)); [lia | done | ]. intros bx Hbx.
      apply (v4_block_writes W H); auto with mach.
    - intros l _. by apply (blocks4_FrameSet W H). }
  unfold runs, writes_at, aloe_rg10_rgb8_i420_v4.
  rewrite bad_size_false, !Z.quot_div_nonneg by (done || lia). by apply Hwr.
Qed.

(* ------------------------------------------------------------------ *)
(** ** Properties *)

Lemma dims4 W H : 8 <= W /\ W mod 8 = 0 -> 8 <= H /\ H mod 8 = 0 -> 0 < W / 4 /\ 0 < H / 4.
Proof. intros [] []. split; dlia. Qed.

(** C9: on a frame whose sides are multiples of 8, every build of v5 (scalar,
    SSE2, NEON) stores one pixel per 4x4 source block, its luma and, from the
    lower right pixel of each 2x2, chroma. *)
Theorem v5_refines tgt W H stride src m :
  8 <= W /\ W mod 8 = 0 -> 8 <= H /\ H mod 8 = 0 -> src_ok W H stride src ->
  fits (W / 4) (H / 4) m ->
  exists m', aloe_rg10_rgb8_i420_v5 tgt W H stride src m = Some m' /\
    renders (W / 4) (H / 4) (q_render (q_px src stride)) m m'.
Proof.
  intros HW HH Hsrc Hfit. destruct (dims4 W H HW HH).
  apply runs_renders; [done.. | by apply v5_runs].
Qed.

(** With gains in [0, 16] every build of v6 stores the v5 frame of the
    pixels mapped through the gain tables. *)
Theorem v6_refines tgt W H stride src g m :
  8 <= W /\ W mod 8 = 0 -> 8 <= H /\ H mod 8 = 0 -> src_ok W H stride src ->
  gains_ok g = true -> fits (W / 4) (H / 4) m -> i420 m <> None \/ rgb m <> None ->
  exists m', aloe_rg10_rgb8_i420_v6 tgt W H stride src g m = Some m' /\
    renders (W / 4) (H / 4) (q_render (v6_px stride src (v6_lut g))) m m'.
Proof.
  intros HW HH Hsrc Hg Hfit Hbuf. destruct (dims4 W H HW HH).
  apply runs_renders; [done.. | by apply v6_runs].
Qed.

(** With unit gains v6, on any build, leaves the bytes v5 leaves on any
    build ("Same layout, sampling, dimensions and rounding as v5"). *)
Theorem v6_unit_is_v5 tgt5 tgt6 W H stride src m :
  8 <= W /\ W mod 8 = 0 -> 8 <= H /\ H mod 8 = 0 -> src_ok W H stride src ->
  fits (W / 4) (H / 4) m -> i420 m <> None \/ rgb m <> None ->
  exists m5 m6, aloe_rg10_rgb8_i420_v5 tgt5 W H stride src m = Some m5 /\
    aloe_rg10_rgb8_i420_v6 tgt6 W H stride src (of_int 1, of_int 1, of_int 1) m = Some m6 /\
    forall l, l.1 <> BC -> at_ m5 l = at_ m6 l.
Proof.
  intros HW HH Hsrc Hfit Hbuf.
  destruct (runs_agree (W / 4) (H / 4) (q_render (q_px src stride))
    (q_render (v6_px stride src (v6_lut (of_int 1, of_int 1, of_int 1))))
    (aloe_rg10_rgb8_i420_v5 tgt5 W H stride src)
    (aloe_rg10_rgb8_i420_v6 tgt6 W H stride src (of_int 1, of_int 1, of_int 1))
    m (fun _ => True)) as (m5 & m6 & E5 & E6 & Heq); [done | by apply v5_runs | by apply v6_runs | ].
  exists m5, m6. split_and!; [done.. | ]. intros l Hl. by apply Heq.
Qed.

(** V6 leaves the buffers alone when a side is not a positive multiple of
    8, when a gain is NaN, infinite, negative or above 16, or when both
    buffers are NULL. *)
Theorem v6_rejects tgt W H stride src r g b m :
  bad_size W H = true \/ gains_ok (r, g, b) = false \/
  In S754_nan [r; g; b] \/ In (S754_infinity false) [r; g; b] \/
  (i420 m = None /\ rgb m = None) ->
  aloe_rg10_rgb8_i420_v6 tgt W H stride src (r, g, b) m = Some m.
Proof.
  intros Hbad. unfold aloe_rg10_rgb8_i420_v6. destruct (bad_size W H); [done | ].
  assert (Hg : gains_ok (r, g, b) = negb (negb (gain_ok r) || negb (gain_ok g) || negb (gain_ok b)))
    by (cbn; by destruct (gain_ok r), (gain_ok g), (gain_ok b)).
  assert (Hin : forall f, gain_ok f = false -> In f [r; g; b] -> gains_ok (r, g, b) = false).
  { intros f Hf Hi. cbn in Hi |- *. destruct Hi as [->|[->|[->|[]]]]; rewrite Hf;
      by rewrite ?andb_false_r. }
  assert (Hcase : gains_ok (r, g, b) = false \/ (i420 m = None /\ rgb m = None)).
  { destruct Hbad as [?|[?|[Hi|[Hi|?]]]]; [done | tauto | left | left | tauto].
    - by apply (Hin S754_nan).
    - by apply (Hin (S754_infinity false)). }
  destruct (gains_ok (r, g, b)) eqn:E.
  - destruct Hcase as [?|[-> ->]]; [done | ]. symmetry in Hg. apply negb_true_iff in Hg.
    by rewrite Hg.
  - symmetry in Hg. apply negb_false_iff in Hg. by rewrite Hg.
Qed.

(** V4 stores one pixel per 2x2 source block with its two greens
    averaged, clamped luma and, from the upper left pixel of each 2x2, chroma. *)
Theorem v4_refines W H stride src m :
  8 <= W /\ W mod 8 = 0 -> 8 <= H /\ H mod 8 = 0 -> src_ok W H stride src ->
  fits (W / 2) (H / 2) m ->
  exists m', aloe_rg10_rgb8_i420_v4 W H stride src m = Some m' /\
    renders (W / 2) (H / 2) (h_render stride src) m m'.
Proof.
  intros HW HH Hsrc Hfit. destruct (half_dims W H HW HH) as (_ & _ & Hw & Hh & _).
  apply runs_renders; [done.. | by apply v4_runs].
Qed.

(* ------------------------------------------------------------------ *)
(** ** Witnesses: 32x8 source, rows of 66 bytes *)

Definition src32 : list Z := map (fun k => (k * k * 3 + 7 * k) mod 256) (seqZ 0 528).
Definition mem8 : mem := Mem (Some (replicate 24 7)) (Some (replicate 48 9)) None.
Definition mem16x4 : mem := Mem (Some (replicate 96 7)) (Some (replicate 192 9)) None.

Lemma src_ok32 : src_ok 32 8 66 src32.
Proof.
  split; [done | split; [done | split; [ | done]]].
  apply Forall_fmap, Forall_seqZ. intros i _. apply u8_range.
Defined.

Lemma fits8 : fits (32 / 4) (8 / 4) mem8.
Proof. intros [] n; cbn; intros [= <-]; done. Defined.

Lemma fits16x4 : fits (32 / 2) (8 / 2) mem16x4.
Proof. intros [] n; cbn; intros [= <-]; done. Defined.

Lemma v5_refines_witness :
  exists m', aloe_rg10_rgb8_i420_v5 SSE2 32 8 66 src32 mem8 = Some m' /\
    renders (32 / 4) (8 / 4) (q_render (q_px src32 66)) mem8 m'.
Proof. apply (v5_refines SSE2 32 8 66 src32 mem8); [done | done | apply src_ok32 | apply fits8]. Defined.

Lemma v6_refines_witness :
  exists m', aloe_rg10_rgb8_i420_v6 NEON8 32 8 66 src32 (of_int 2, of_int 1, f_half) mem8 = Some m' /\
    renders (32 / 4) (8 / 4) (q_render (v6_px 66 src32 (v6_lut (of_int 2, of_int 1, f_half)))) mem8 m'.
Proof.
  apply (v6_refines NEON8 32 8 66 src32 (of_int 2, of_int 1, f_half) mem8);
    [done | done | apply src_ok32 | by vm_compute | apply fits8 | by left].
Defined.

Lemma v6_unit_is_v5_witness :
  exists m5 m6, aloe_rg10_rgb8_i420_v5 SCALAR 32 8 66 src32 mem8 = Some m5 /\
    aloe_rg10_rgb8_i420_v6 SSE2 32 8 66 src32 (of_int 1, of_int 1, of_int 1) mem8 = Some m6 /\
    forall l, l.1 <> BC -> at_ m5 l = at_ m6 l.
Proof.
  apply (v6_unit_is_v5 SCALAR SSE2 32 8 66 src32 mem8);
    [done | done | apply src_ok32 | apply fits8 | by left].
Defined.

Lemma v6_rejects_witness :
  aloe_rg10_rgb8_i420_v6 SSE2 32 8 66 src32 (of_int 1, S754_nan, of_int 1) mem8 = Some mem8.
Proof.
  apply (v6_rejects SSE2 32 8 66 src32 (of_int 1) S754_nan (of_int 1) mem8).
  right. right. left. right. left. reflexivity.
Defined.

Lemma v4_refines_witness :
  exists m', aloe_rg10_rgb8_i420_v4 32 8 66 src32 mem16x4 = Some m' /\
    renders (32 / 2) (8 / 2) (h_render 66 src32) mem16x4 m'.
Proof. apply (v4_refines 32 8 66 src32 mem16x4); [done | done | apply src_ok32 | apply fits16x4]. Defined.
