(* ===== verification/I420Rgb.v ===== *)
(** I420Rgb: [aloe_i420_rgb8] of package/aloe/rg10_rgb8_i420_v4.cpp, the
    floating-point conversion back from I420 to RGB888, in IEEE binary64
    without contraction. *)

From S2P Require Import Prelude Float Frame Bayer Rg10.

Local Open Scope cmd_scope.

(** The conversion to the [int] parameter of [clamp_u8] truncates. *)
Definition yuv_r (cy u v : Z) : Z :=
  clamp_u8 (f_trunc (d_add (d_mul (d_lit 1164) (d_int (cy - 16)))
                           (d_mul (d_lit 1596) (d_int (v - 128))))).
Definition yuv_g (cy u v : Z) : Z :=
  clamp_u8 (f_trunc (d_sub (d_sub (d_mul (d_lit 1164) (d_int (cy - 16)))
                                  (d_mul (d_lit 813) (d_int (v - 128))))
                           (d_mul (d_lit 391) (d_int (u - 128))))).
Definition yuv_b (cy u v : Z) : Z :=
  clamp_u8 (f_trunc (d_add (d_mul (d_lit 1164) (d_int (cy - 16)))
                           (d_mul (d_lit 2018) (d_int (u - 128))))).

(** One 2x2 block; [src] is the I420 input. *)
Definition i420_block (width height : Z) (src : list Z) (y x : Z) : cmd mem :=
  let uv_size := Z.quot height 2 * Z.quot width 2 in
  let y_row := width * y in
  let u_row := width * height + Z.quot width 2 * Z.quot y 2 in
  let v_row := width * height + uv_size + Z.quot width 2 * Z.quot y 2 in
  let* cy00 := rd src (y_row + x) in
  let* cy01 := rd src (y_row + (x + 1)) in
  let* cy10 := rd src (y_row + (width + x)) in
  let* cy11 := rd src (y_row + (width + x + 1)) in
  let* u := rd src (u_row + Z.quot x 2) in
  let* v := rd src (v_row + Z.quot x 2) in
  let rgb_put _y _x cy :=
    store_rgb ((y * width + x + (_y * width + _x)) * 3)
      (yuv_r cy u v, yuv_g cy u v, yuv_b cy u v) in
  rgb_put 0 0 cy00 ;;; rgb_put 0 1 cy01 ;;; rgb_put 1 0 cy10 ;;; rgb_put 1 1 cy11.

Definition aloe_i420_rgb8 (width height : Z) (src : list Z) : cmd mem :=
  fun m =>
    if (width <? 2) || (height <? 2) || negb (Z.rem width 2 =? 0) || negb (Z.rem height 2 =? 0)
    then Some m
    else for_ 0 height 2 (fun y => for_ 0 width 2 (fun x => i420_block width height src y x)) m.

(* ------------------------------------------------------------------ *)
(** ** Correctness *)

Section Planes.
Context (w h : Z) (src : list Z).
Hypothesis Hw : 2 <= w.
Hypothesis Hh : 2 <= h.
Hypothesis Hew : Z.even w = true.
Hypothesis Heh : Z.even h = true.
Hypothesis Hlen : need w h BI <= Z.of_nat (length src).

(** The samples of the three planes. *)
Definition y_at (x y : Z) : Z := ix src (y * w + x).
Definition u_at (bx by_ : Z) : Z := ix src (w * h + (by_ * uvw w + bx)).
Definition v_at (bx by_ : Z) : Z := ix src (w * h + uv_size w h + (by_ * uvw w + bx)).

Definition yuv_px (cy u v : Z) : Z * Z * Z := (yuv_r cy u v, yuv_g cy u v, yuv_b cy u v).

Definition rgb_render : render :=
  {| r_px x y := yuv_px (y_at x y) (u_at (x / 2) (y / 2)) (v_at (x / 2) (y / 2));
   r_y _ _ := 0; r_u _ _ := 0; r_v _ _ := 0 |}.

Context (sh : buf -> option Z) (n : Z).
Hypothesis Hsh : forall b n, sh b = Some n -> need w h b <= n.
Hypothesis Hrgb : sh BR = Some n.
#[local] Abbreviation wrs := (writes sh (fun l => l.1 <> BC) (frame_spec w h rgb_render)).

Lemma i420_put_writes i x y :
  in_px w h x y -> i = (y * w + x) * 3 ->
  wrs (store_rgb i (yuv_px (y_at x y) (u_at (x / 2) (y / 2)) (v_at (x / 2) (y / 2))))
  (RgbAt w x y).
Proof. intros Hp ->. unfold store_rgb, yuv_px. by eapply writes_rgb; try done; try lia. Qed.

Lemma i420_block_writes bx by_ :
  in_blk w h bx by_ ->
  wrs (i420_block w h src (2 * by_) (2 * bx)) (BlockSet w h false true bx by_).
Proof.
  intros Hp. pose proof (half w Hew) as Hw2. pose proof (half h Heh) as Hh2.
  pose proof (blk_in w h bx by_ 0 0 Hew Heh Hp ltac:(lia) ltac:(lia)) as P00.
  pose proof (blk_in w h bx by_ 1 0 Hew Heh Hp ltac:(lia) ltac:(lia)) as P10.
  pose proof (blk_in w h bx by_ 0 1 Hew Heh Hp ltac:(lia) ltac:(lia)) as P01.
  pose proof (blk_in w h bx by_ 1 1 Hew Heh Hp ltac:(lia) ltac:(lia)) as P11.
  rewrite !Z.add_0_r in *.
  assert (Hy : forall x y i, in_px w h x y -> i = y * w + x -> rd src i = Some (y_at x y)).
  { intros x y i [Hx Hy] ->. apply rd_ix. cbn [need] in Hlen.
    pose proof (row_bound w h x y Hx Hy).
    assert (0 <= uv_size w h) by (apply Z.mul_nonneg_nonneg; apply Z.div_pos; lia). lia. }
  destruct Hp as [Hbx Hby]. pose proof (row_bound (uvw w) (h / 2) bx by_ Hbx Hby) as Hb.
  fold (uv_size w h) in Hb. cbn [need] in Hlen. assert (0 <= w * h) by nia.
  unfold i420_block. rewrite !quot2, !Z.quot_div_nonneg by lia. fold (uvw w).
  eapply writes_bind; [apply (Hy (2 * bx) (2 * by_)); done || lia | ].
  eapply writes_bind; [apply (Hy (2 * bx + 1) (2 * by_)); done || lia | ].
  eapply writes_bind; [apply (Hy (2 * bx) (2 * by_ + 1)); done || lia | ].
  eapply writes_bind; [apply (Hy (2 * bx + 1) (2 * by_ + 1)); done || lia | ].
  eapply writes_bind.
  { replace (w * h + uvw w * by_ + bx) with (w * h + (by_ * uvw w + bx)) by lia.
    apply rd_ix. lia. }
  eapply writes_bind.
  { replace (w * h + h / 2 * uvw w + uvw w * by_ + bx)
      with (w * h + uv_size w h + (by_ * uvw w + bx)) by (unfold uv_size; lia).
    apply rd_ix. lia. }
  fold (u_at bx by_) (v_at bx by_).
  assert (Hput : forall dx dy i, 0 <= dx < 2 -> 0 <= dy < 2 ->
    in_px w h (2 * bx + dx) (2 * by_ + dy) -> i = ((2 * by_ + dy) * w + (2 * bx + dx)) * 3 ->
    wrs (store_rgb i (yuv_px (y_at (2 * bx + dx) (2 * by_ + dy)) (u_at bx by_) (v_at bx by_)))
    (RgbAt w (2 * bx + dx) (2 * by_ + dy))).
  { intros dx dy i Hdx Hdy Hp Hi. pose proof (i420_put_writes i _ _ Hp Hi) as Hwr.
    replace ((2 * bx + dx) / 2) with bx in Hwr by dlia.
    by replace ((2 * by_ + dy) / 2) with by_ in Hwr by dlia. }
  pose proof (Hput 0 0) as A. pose proof (Hput 1 0) as B.
  pose proof (Hput 0 1) as C. pose proof (Hput 1 1) as D.
  rewrite !Z.add_0_r in *.
  eapply writes_iff.
  - apply writes_seq; [ | apply writes_seq; [ | apply writes_seq]];
      [apply A | apply B | apply C | apply D]; done || lia.
  - intros l _. rewrite <- block_set_iff.
    split; [tauto | ]. intros [HP|[[[=] _]|[[=] _]]]. tauto.
Qed.
End Planes.

(** On an even frame [aloe_i420_rgb8] reads inside the I420 planes and
    stores for each pixel the conversion of its luma and of its block's
    chroma, and nothing else. *)
Theorem i420_rgb8_refines w h src m :
  2 <= w -> 2 <= h -> Z.even w = true -> Z.even h = true ->
  need w h BI <= Z.of_nat (length src) -> fits w h m -> rgb m <> None -> i420 m = None ->
  exists m', aloe_i420_rgb8 w h src m = Some m' /\ renders w h (rgb_render w h src) m m'.
Proof.
  intros Hw Hh Hew Heh Hlen Hfit Hr Hi. apply runs_renders; [lia | lia | ].
  unfold runs, writes_at, aloe_i420_rgb8.
  rewrite (proj2 (Z.ltb_ge w 2)), (proj2 (Z.ltb_ge h 2)), !Z.rem_mod_nonneg by lia.
  rewrite !Zmod_even, Hew, Heh. cbn [negb orb Z.eqb].
  destruct (has_rgb m) as [n Hn]; [by apply nonnull_true | ].
  apply (blocks_writes w h (fun b => blen b m)); [done | done | | done].
  intros bx by_ Hp. rewrite Hi. rewrite (proj2 (nonnull_true (rgb m)) Hr).
  by apply (i420_block_writes w h src Hw Hh Hew Heh Hlen _ n).
Qed.

Lemma gray_table : forallb (fun cy =>
  (yuv_r cy 128 128 =? yuv_g cy 128 128) && (yuv_g cy 128 128 =? yuv_b cy 128 128)) (seqZ 0 256) = true.
Proof. by vm_compute. Qed.

Lemma roundtrip_table : forallb (fun v =>
  let '(y, u, v') := rgb_yuv (v, v, v) in
  (u =? 128) && (v' =? 128) && (Z.abs (yuv_r y u v' - v) <=? 2)) (seqZ 0 256) = true.
Proof. by vm_compute. Qed.

(** Greys survive the trip through [rgb_yuv] and back: neutral chroma,
    three equal channels, within two of the original. *)
Theorem gray_roundtrip g :
  0 <= g < 256 ->
  let '(y, u, v) := rgb_yuv (g, g, g) in
  u = 128 /\ v = 128 /\
  exists g', yuv_px y u v = (g', g', g') /\ Z.abs (g' - g) <= 2.
Proof.
  intros Hg. destruct (rgb_yuv (g, g, g)) as [[y u] v] eqn:E.
  pose proof (proj1 (forallb_forall _ _) roundtrip_table g) as Ht. cbv beta in Ht.
  rewrite E in Ht.
  assert (Hin : In g (seqZ 0 256)) by (apply list_elem_of_In, elem_of_seqZ; lia).
  apply Ht in Hin as [[->%Z.eqb_eq ->%Z.eqb_eq]%andb_true_iff Hd%Z.leb_le]%andb_true_iff.
  split; [done | split; [done | ]]. exists (yuv_r y 128 128). split; [ | done].
  assert (Hy : 0 <= y < 256).
  { pose proof (clamp_u8_u8 (lin 66 129 25 (g, g, g) 16)) as Hu.
    unfold rgb_yuv in E. injection E as <- _ _. exact Hu. }
  pose proof (proj1 (forallb_forall _ _) gray_table y) as Hgr. cbv beta in Hgr.
  assert (Hin : In y (seqZ 0 256)) by (apply list_elem_of_In, elem_of_seqZ; lia).
  apply Hgr in Hin as [E1%Z.eqb_eq E2%Z.eqb_eq]%andb_true_iff.
  unfold yuv_px. by rewrite <- E2, <- E1.
Qed.

(** ** Witnesses *)

Definition yuv22 : list Z := [16; 235; 128; 81; 90; 240].
Definition rgb22 : mem := Mem None (Some (replicate 12 0)) None.

Lemma i420_rgb8_refines_witness :
  aloe_i420_rgb8 2 2 yuv22 rgb22 =
    Some (Mem None (Some [178; 0; 0; 255; 178; 178; 255; 54; 53; 254; 0; 0]) None) /\
  exists m', aloe_i420_rgb8 2 2 yuv22 rgb22 = Some m' /\
    renders 2 2 (rgb_render 2 2 yuv22) rgb22 m'.
Proof.
  split; [by vm_compute | ].
  apply (i420_rgb8_refines 2 2 yuv22 rgb22); try done.
  intros [] n; cbn; intros [= <-]; done.
Defined.

Lemma gray_roundtrip_witness :
  128 = 128 /\ 128 = 128 /\
  exists g', yuv_px 60 128 128 = (g', g', g') /\ Z.abs (g' - 51) <= 2.
Proof. apply (gray_roundtrip 51). lia. Defined.
