(* ===== verification/Crc.v ===== *)
(** Crc: [aloe_crc32] of package/aloe/util.cpp, the reflected CRC-32 computed
    bit by bit. *)

From S2P Require Import Prelude.

Definition crc_poly : Z := 0xEDB88320.
Definition not32 (c : Z) : Z := Z.lxor c 0xFFFFFFFF.

(** One iteration of the inner loop. *)
Definition crc_bit (cksum : Z) : Z :=
  if Z.land cksum 1 =? 1 then Z.lxor (Z.shiftr cksum 1) crc_poly else Z.shiftr cksum 1.

Definition crc_byte (cksum b : Z) : Z := Nat.iter 8 crc_bit (Z.lxor cksum b).

Definition aloe_crc32 (data : list Z) (cksum : Z) : Z :=
  not32 (fold_left crc_byte data (not32 cksum)).

(* ------------------------------------------------------------------ *)
(** ** 32-bit words *)

Definition is_u32 (z : Z) : Prop := 0 <= z < 2 ^ 32.

Lemma high_bit_false a n : 0 <= n -> 0 <= a < 2 ^ n -> Z.testbit a n = false.
Proof.
  intros Hn Ha. rewrite Z.testbit_odd, Z.shiftr_div_pow2, Z.div_small by lia. done.
Qed.

Lemma lxor_range n a b : 0 <= n -> 0 <= a < 2 ^ n -> 0 <= b < 2 ^ n -> 0 <= Z.lxor a b < 2 ^ n.
Proof.
  intros Hn Ha Hb. assert (H0 : 0 <= Z.lxor a b) by (apply Z.lxor_nonneg; lia).
  split; [done | ].
  assert (Hm : Z.lxor a b = Z.lxor a b mod 2 ^ n).
  { apply Z.bits_inj'. intros k Hk. destruct (decide (k < n)).
    - by rewrite Z.mod_pow2_bits_low.
    - rewrite Z.mod_pow2_bits_high by lia. rewrite Z.lxor_spec, !high_bit_false; [done | lia.. | | lia | ].
      + split; [lia | ]. apply (Z.lt_le_trans _ (2 ^ n)); [lia | apply Z.pow_le_mono_r; lia].
      + split; [lia | ]. apply (Z.lt_le_trans _ (2 ^ n)); [lia | apply Z.pow_le_mono_r; lia]. }
  rewrite Hm. apply Z.mod_pos_bound. lia.
Qed.

Lemma lxor_cancel a b : Z.lxor (Z.lxor a b) b = a.
Proof. by rewrite Z.lxor_assoc, Z.lxor_nilpotent, Z.lxor_0_r. Qed.

Lemma not32_not32 c : not32 (not32 c) = c.
Proof. apply lxor_cancel. Qed.

Lemma not32_u32 c : is_u32 c -> is_u32 (not32 c).
Proof. intros Hc. apply lxor_range; [lia | done | done]. Qed.

(* ------------------------------------------------------------------ *)
(** ** The bit step is a bijection *)

Lemma crc_bit_u32 c : is_u32 c -> is_u32 (crc_bit c).
Proof.
  intros Hc. assert (Hs : 0 <= Z.shiftr c 1 < 2 ^ 32).
  { rewrite shr1. unfold is_u32 in Hc. dlia. }
  unfold crc_bit. destruct (_ =? 1); [ | done]. apply lxor_range; [lia | done | done].
Qed.

(** The top bit of the result tells which branch was taken. *)
Definition crc_unbit (d : Z) : Z :=
  if Z.testbit d 31 then 2 * Z.lxor d crc_poly + 1 else 2 * d.

Lemma crc_unbit_bit c : is_u32 c -> crc_unbit (crc_bit c) = c.
Proof.
  intros Hc. unfold is_u32 in Hc.
  assert (Hs : 0 <= Z.shiftr c 1 < 2 ^ 31) by (rewrite shr1; dlia).
  pose proof (high_bit_false (Z.shiftr c 1) 31 ltac:(lia) Hs) as Htop.
  unfold crc_unbit, crc_bit. rewrite land1. destruct (Z.eqb_spec (c mod 2) 1) as [Ho|Ho].
  - rewrite Z.lxor_spec, Htop. change (Z.testbit crc_poly 31) with true. cbn [xorb].
    rewrite lxor_cancel, shr1. dlia.
  - rewrite Htop, shr1. dlia.
Qed.

Lemma crc_bit_inj a b : is_u32 a -> is_u32 b -> crc_bit a = crc_bit b -> a = b.
Proof. intros Ha Hb E. rewrite <- (crc_unbit_bit a), <- (crc_unbit_bit b) by done. by rewrite E. Qed.

Lemma crc_iter_u32 n c : is_u32 c -> is_u32 (Nat.iter n crc_bit c).
Proof. intros Hc. induction n as [|n IH]; [done | by apply crc_bit_u32]. Qed.

Lemma crc_iter_inj n a b :
  is_u32 a -> is_u32 b -> Nat.iter n crc_bit a = Nat.iter n crc_bit b -> a = b.
Proof.
  intros Ha Hb. induction n as [|n IH]; [done | ]. intros E. apply IH.
  by apply crc_bit_inj in E; [ | apply crc_iter_u32 ..].
Qed.

Lemma xor_byte_u32 c b : is_u32 c -> is_u8 b -> is_u32 (Z.lxor c b).
Proof. intros Hc Hb. apply lxor_range; [lia | done | ]. unfold is_u8 in Hb. lia. Qed.

Lemma crc_byte_u32 c b : is_u32 c -> is_u8 b -> is_u32 (crc_byte c b).
Proof. intros Hc Hb. by apply crc_iter_u32, xor_byte_u32. Qed.

Lemma lxor_inj_r a b c : Z.lxor a c = Z.lxor b c -> a = b.
Proof. intros E. rewrite <- (lxor_cancel a c), <- (lxor_cancel b c). by rewrite E. Qed.

Lemma crc_byte_inj_l a c b :
  is_u32 a -> is_u32 c -> is_u8 b -> crc_byte a b = crc_byte c b -> a = c.
Proof.
  intros Ha Hc Hb E. apply crc_iter_inj in E; [ | by apply xor_byte_u32 ..].
  by apply lxor_inj_r in E.
Qed.

Lemma crc_fold_u32 data c : is_u32 c -> Forall is_u8 data -> is_u32 (fold_left crc_byte data c).
Proof.
  intros Hc Hd. revert c Hc. induction Hd as [|b data Hb _ IH]; [done | ].
  intros c Hc. cbn. by apply IH, crc_byte_u32.
Qed.

Lemma crc_fold_inj data a b :
  is_u32 a -> is_u32 b -> Forall is_u8 data ->
  fold_left crc_byte data a = fold_left crc_byte data b -> a = b.
Proof.
  intros Ha Hb Hd. revert a b Ha Hb. induction Hd as [|x data Hx _ IH]; [done | ].
  intros a b Ha Hb E. apply IH in E; [ | by apply crc_byte_u32 ..].
  by apply crc_byte_inj_l in E.
Qed.

(* ------------------------------------------------------------------ *)
(** ** Bytes as words *)

(** Bits above the one shifted out pass through. *)
Lemma crc_bit_high a b : crc_bit (Z.lxor a (Z.shiftl b 1)) = Z.lxor (crc_bit a) b.
Proof.
  assert (Hl : Z.land (Z.lxor a (Z.shiftl b 1)) 1 = Z.land a 1).
  { rewrite !land1, !Zmod_odd, <- !Z.bit0_odd, Z.lxor_spec, Z.shiftl_spec_low by lia.
    by rewrite xorb_false_r. }
  assert (Hs : Z.shiftr (Z.lxor a (Z.shiftl b 1)) 1 = Z.lxor (Z.shiftr a 1) b).
  { rewrite Z.shiftr_lxor, Z.shiftr_shiftl_r by lia. done. }
  unfold crc_bit. rewrite Hl, Hs. destruct (_ =? 1); [ | done].
  rewrite !Z.lxor_assoc. f_equal. apply Z.lxor_comm.
Qed.

Lemma crc_iter_high n a b :
  Nat.iter n crc_bit (Z.lxor a (Z.shiftl b (Z.of_nat n))) = Z.lxor (Nat.iter n crc_bit a) b.
Proof.
  revert b. induction n as [|n IH]; intros b; [by rewrite Z.shiftl_0_r | ].
  cbn [Nat.iter nat_rect]. replace (Z.shiftl b (Z.of_nat (S n))) with (Z.shiftl (Z.shiftl b 1) (Z.of_nat n)).
  - rewrite <- crc_bit_high, <- IH. done.
  - rewrite Z.shiftl_shiftl by lia. f_equal. lia.
Qed.

(** The little-endian word of a list of bytes. *)
Fixpoint word (l : list Z) : Z :=
  match l with [] => 0 | b :: l' => Z.lxor b (Z.shiftl (word l') 8) end.

Lemma crc_fold_word l c :
  fold_left crc_byte l c = Nat.iter (8 * length l) crc_bit (Z.lxor c (word l)).
Proof.
  revert c. induction l as [|b l IH]; intros c; [by rewrite Z.lxor_0_r | ].
  cbn [fold_left word length]. rewrite IH. unfold crc_byte.
  replace (8 * S (length l))%nat with (8 * length l + 8)%nat by lia. rewrite Nat.iter_add. f_equal.
  rewrite <- Z.lxor_assoc. symmetry. apply (crc_iter_high 8).
Qed.

Lemma word_range l : Forall is_u8 l -> 0 <= word l < 2 ^ (8 * Z.of_nat (length l)).
Proof.
  induction 1 as [|b l Hb _ IH]; [done | ]. cbn [word length].
  replace (8 * Z.of_nat (S (length l))) with (8 * Z.of_nat (length l) + 8) by lia.
  apply lxor_range; [lia | | ].
  - unfold is_u8 in Hb. rewrite Z.pow_add_r by lia. change (2 ^ 8) with 256.
    pose proof (Z.pow_pos_nonneg 2 (8 * Z.of_nat (length l)) ltac:(lia) ltac:(lia)). nia.
  - rewrite Z.shiftl_mul_pow2, Z.pow_add_r by lia. nia.
Qed.

Lemma word_inj l k : Forall is_u8 l -> Forall is_u8 k -> length l = length k -> word l = word k -> l = k.
Proof.
  intros Hl. revert k. induction Hl as [|b l Hb _ IH]; intros k Hk Hn E.
  { by destruct k. }
  destruct Hk as [|c k Hc Hk]; [done | ]. injection Hn as Hn. cbn [word] in E.
  assert (Hs : forall b l, is_u8 b -> Z.shiftr (Z.lxor b (Z.shiftl (word l) 8)) 8 = word l).
  { intros d m Hd. rewrite Z.shiftr_lxor, Z.shiftr_shiftl_r by lia.
    rewrite (shr_div d), Z.div_small by (unfold is_u8 in Hd; lia). apply Z.shiftr_0_r. }
  assert (Ew : word l = word k) by (rewrite <- (Hs b l), <- (Hs c k) by done; by rewrite E).
  rewrite Ew in E. apply lxor_inj_r in E. f_equal; [done | by apply IH].
Qed.

(** Up to four bytes leave distinct traces in the register. *)
Lemma crc_word_inj l k c :
  is_u32 c -> Forall is_u8 l -> Forall is_u8 k -> length l = length k -> (length l <= 4)%nat ->
  fold_left crc_byte l c = fold_left crc_byte k c -> l = k.
Proof.
  intros Hc Hl Hk Hn H4 E.
  assert (Hr : forall m, Forall is_u8 m -> (length m <= 4)%nat -> is_u32 (Z.lxor c (word m))).
  { intros m Hm Hm4. apply lxor_range; [lia | done | ]. pose proof (word_range m Hm).
    pose proof (Z.pow_le_mono_r 2 (8 * Z.of_nat (length m)) 32 ltac:(lia) ltac:(lia)). lia. }
  rewrite !crc_fold_word, Hn in E. apply crc_iter_inj in E; [ | apply Hr; done || lia ..].
  rewrite !(Z.lxor_comm c) in E. apply lxor_inj_r in E. by apply word_inj.
Qed.

(* ------------------------------------------------------------------ *)
(** ** Properties *)

(** The checksum can be computed piecewise ("The old CRC32 checksum, first
    time input 0"). *)
Lemma crc32_incremental a b cksum :
  aloe_crc32 (a ++ b) cksum = aloe_crc32 b (aloe_crc32 a cksum).
Proof. unfold aloe_crc32. by rewrite fold_left_app, not32_not32. Qed.

(** The checksum detects every error confined to four consecutive bytes:
    two messages that differ only there have different checksums, whatever
    comes before and after; and the checksum is a 32-bit value. *)
Theorem crc32_detects_burst pre x y post cksum :
  Forall is_u8 (pre ++ x ++ y ++ post) -> is_u32 cksum ->
  length x = length y -> (length x <= 4)%nat -> x <> y ->
  is_u32 (aloe_crc32 (pre ++ x ++ post) cksum) /\
  aloe_crc32 (pre ++ x ++ post) cksum <> aloe_crc32 (pre ++ y ++ post) cksum.
Proof.
  rewrite !Forall_app. intros (Hpre & Hx & Hy & Hpost) Hc Hn H4 Hne.
  unfold aloe_crc32. rewrite !fold_left_app.
  assert (Hs : is_u32 (fold_left crc_byte pre (not32 cksum)))
    by (apply crc_fold_u32; [by apply not32_u32 | done]).
  split.
  - apply not32_u32, crc_fold_u32; [by apply crc_fold_u32 | done].
  - intros E. apply Hne. unfold not32 in E. apply lxor_inj_r in E.
    apply crc_fold_inj in E; [ | by apply crc_fold_u32 .. | done].
    by apply crc_word_inj in E.
Qed.

(** The check value of the published CRC-32 ("123456789"). *)
Example crc32_check : aloe_crc32 [49; 50; 51; 52; 53; 54; 55; 56; 57] 0 = 0xCBF43926.
Proof. by vm_compute. Qed.

Lemma crc32_detects_burst_witness :
  is_u32 (aloe_crc32 ([1; 2] ++ [3; 4; 5; 6] ++ [5]) 0) /\
  aloe_crc32 ([1; 2] ++ [3; 4; 5; 6] ++ [5]) 0 <> aloe_crc32 ([1; 2] ++ [6; 4; 5; 3] ++ [5]) 0.
Proof.
  apply (crc32_detects_burst [1; 2] [3; 4; 5; 6] [6; 4; 5; 3] [5] 0);
    [ | unfold is_u32; lia | reflexivity | cbn; lia | discriminate].
  cbn. unfold is_u8. repeat (constructor; [lia | ]). constructor.
Defined.
