(* ===== verification/Buf.v ===== *)
(** Buf: the generic buffer holder [aloe_buf_t] of package/aloe/util.cpp and
    aloe/util.h: clear, flip, rewind, expand, formatted append, and the moving
    average kept in one. *)

From S2P Require Import Prelude Float.

(* ------------------------------------------------------------------ *)
(** ** Memory *)

(** [n] elements from offset [i]. *)
Definition slice {A} (l : list A) (i n : Z) : list A := take (Z.to_nat n) (drop (Z.to_nat i) l).

(** [memcpy]/[memmove] of [src] to offset [dst] of [l]; [None] outside it. *)
Definition blit (l : list Z) (dst : Z) (src : list Z) : option (list Z) :=
  if (0 <=? dst) && (dst + Z.of_nat (length src) <=? Z.of_nat (length l))
  then Some (take (Z.to_nat dst) l ++ src ++ drop (Z.to_nat dst + length src) l)
  else None.

(** The bytes [i .. i + n) of [l], if they are all there. *)
Definition load (l : list Z) (i n : Z) : option (list Z) :=
  if (0 <=? i) && (0 <=? n) && (i + n <=? Z.of_nat (length l)) then Some (slice l i n) else None.

(* ------------------------------------------------------------------ *)
(** ** aloe_buf_t *)

Record abuf : Type := Abuf {
  data : option (list Z);
  cap : Z;
  lmt : Z;
  pos : Z
}.

Definition aloe_buf_clear (buf : abuf) : abuf := Abuf (data buf) (cap buf) (cap buf) 0.
Definition aloe_buf_flip (buf : abuf) : abuf := Abuf (data buf) (cap buf) (pos buf) 0.

Definition aloe_buf_rewind (buf : abuf) : option abuf :=
  if pos buf <=? 0 then Some buf
  else if pos buf <? lmt buf then
    let sz := lmt buf - pos buf in
    d ← data buf;
    src ← load d (pos buf) sz;
    d' ← (if 0 <? sz then blit d 0 src else Some d);
    Some (Abuf (Some d') (cap buf) sz 0)
  else Some (Abuf (data buf) (cap buf) 0 0).

Definition ENOMEM : Z := 12.
Definition ALOE_BUF_FLAG_RETAIN_NORMAL : Z := 1.

(** [fresh]: what [malloc(new_cap)] returned, the block with its contents. *)
Definition aloe_buf_expand (fresh : option (list Z)) (buf : abuf) (new_cap retain : Z)
    : option (Z * abuf) :=
  if new_cap <=? cap buf then Some (0, buf)
  else
    match fresh with
    | None => Some (ENOMEM, buf)
    | Some block =>
        d' ← (match data buf with
              | Some old =>
                  if (0 <? pos buf) && ((retain =? ALOE_BUF_FLAG_RETAIN_NORMAL) || (0 <? retain))
                  then (src ← load old 0 (pos buf); blit block 0 src)
                  else Some block
              | None => Some block
              end);
        let lmt' := if lmt buf =? cap buf then new_cap else lmt buf in
        Some (0, Abuf (Some d') new_cap lmt' (pos buf))
    end.

(** [vsnprintf(p, n, ..)], [n > 0], for the formatted text [out] ([None]: an
    encoding error): what it stores, and what it returns. *)
Definition vsnprintf (d : list Z) (p n : Z) (out : option (list Z)) : option (list Z * Z) :=
  match out with
  | None => Some (d, -1)
  | Some s =>
      d' ← blit d p (take (Z.to_nat (n - 1)) s ++ [0]);
      Some (d', Z.of_nat (length s))
  end.

(** [fmt]: not NULL. *)
Definition aloe_buf_vzprintf (fb : abuf) (fmt : bool) (out : option (list Z))
    : option (Z * abuf) :=
  let fin (fb : abuf) (r : Z) :=
    if pos fb <? lmt fb then
      d ← data fb; d' ← upd d (pos fb) 0;
      Some (r, Abuf (Some d') (cap fb) (lmt fb) (pos fb))
    else Some (r, fb) in
  if (lmt fb <=? pos fb) || negb fmt then fin fb 0
  else
    d ← data fb;
    '(d', r) ← vsnprintf d (pos fb) (lmt fb - pos fb) out;
    let fb' := Abuf (Some d') (cap fb) (lmt fb) (pos fb) in
    if (r <? 0) || (lmt fb <=? pos fb + r) then fin fb' 0
    else fin (Abuf (Some d') (cap fb) (lmt fb) (pos fb + r)) r.

(* ------------------------------------------------------------------ *)
(** ** Well-formed buffers *)

(** The region is [cap] bytes and [pos <= lmt <= cap]. *)
Definition wf (b : abuf) : Prop :=
  0 <= pos b <= lmt b /\ lmt b <= cap b /\
  match data b with Some d => Z.of_nat (length d) = cap b | None => cap b = 0 end.

Lemma length_slice {A} (l : list A) i n :
  0 <= i -> 0 <= n -> i + n <= Z.of_nat (length l) -> Z.of_nat (length (slice l i n)) = n.
Proof. intros. unfold slice. rewrite length_take, length_drop. lia. Qed.

Lemma load_Some l i n :
  0 <= i -> 0 <= n -> i + n <= Z.of_nat (length l) -> load l i n = Some (slice l i n).
Proof.
  intros Hi Hn Hl. unfold load.
  by rewrite (proj2 (Z.leb_le 0 i)), (proj2 (Z.leb_le 0 n)), (proj2 (Z.leb_le (i + n) _)) by lia.
Qed.

Lemma blit_Some l dst src :
  0 <= dst -> dst + Z.of_nat (length src) <= Z.of_nat (length l) ->
  exists l', blit l dst src = Some l' /\ length l' = length l /\
    l' = take (Z.to_nat dst) l ++ src ++ drop (Z.to_nat dst + length src) l.
Proof.
  intros Hd Hl. unfold blit.
  rewrite (proj2 (Z.leb_le 0 dst)), (proj2 (Z.leb_le (dst + _) _)) by lia.
  eexists. split; [done | split; [ | done]].
  rewrite !length_app, length_take, length_drop. lia.
Qed.

(** Reading through a block copy. *)
Lemma rd_blit l dst src l' i :
  blit l dst src = Some l' -> 0 <= i ->
  rd l' i = if decide (dst <= i < dst + Z.of_nat (length src)) then rd src (i - dst) else rd l i.
Proof.
  unfold blit. destruct (Z.leb_spec 0 dst); [ | done].
  destruct (Z.leb_spec (dst + Z.of_nat (length src)) (Z.of_nat (length l))); [ | done].
  intros [= <-] Hi. unfold rd. rewrite (proj2 (Z.ltb_ge i 0)) by lia.
  case_decide as Hr.
  - rewrite (proj2 (Z.ltb_ge (i - dst) 0)) by lia.
    rewrite lookup_app_r, length_take by (rewrite length_take; lia).
    rewrite lookup_app_l by lia. f_equal. lia.
  - destruct (decide (i < dst)).
    + rewrite lookup_app_l by (rewrite length_take; lia). rewrite lookup_take_lt by lia. done.
    + rewrite lookup_app_r, length_take by (rewrite length_take; lia).
      rewrite lookup_app_r by lia. rewrite lookup_drop. f_equal. lia.
Qed.

Lemma rd_slice l i n k :
  0 <= i -> 0 <= k < n -> rd (slice l i n) k = rd l (i + k).
Proof.
  intros Hi Hk. unfold rd, slice.
  rewrite (proj2 (Z.ltb_ge k 0)), (proj2 (Z.ltb_ge (i + k) 0)) by lia.
  rewrite lookup_take_lt, lookup_drop by lia. f_equal. lia.
Qed.

Lemma length_upd l i v l' : upd l i v = Some l' -> length l' = length l.
Proof. unfold upd. destruct (_ && _); [ | done]. intros [= <-]. apply length_insert. Qed.

(** One call, with what the C library returned to it. *)
Inductive op : Type :=
  | Clear | Flip | Rewind
  | Expand (fresh : option (list Z)) (new_cap retain : Z)
  | Zprintf (fmt : bool) (out : option (list Z)).

Definition exec (o : op) (b : abuf) : option abuf :=
  match o with
  | Clear => Some (aloe_buf_clear b)
  | Flip => Some (aloe_buf_flip b)
  | Rewind => aloe_buf_rewind b
  | Expand fresh n r => snd <$> aloe_buf_expand fresh b n r
  | Zprintf f out => snd <$> aloe_buf_vzprintf b f out
  end.

(** [malloc(n)] returns [n] bytes. *)
Definition op_ok (o : op) : Prop :=
  match o with Expand (Some d) n _ => Z.of_nat (length d) = n | _ => True end.

Lemma rewind_spec b :
  wf b ->
  exists b', aloe_buf_rewind b = Some b' /\ wf b' /\ cap b' = cap b /\ pos b' = 0 /\
    lmt b' = lmt b - pos b /\
    forall i d d', 0 <= i < lmt b - pos b -> data b = Some d -> data b' = Some d' ->
      rd d' i = rd d (pos b + i).
Proof.
  intros Hwf. pose proof Hwf as (Hp & Hl & Hd). unfold aloe_buf_rewind.
  destruct (Z.leb_spec (pos b) 0).
  { exists b. assert (pos b = 0) by lia. split_and!; try done; try lia.
    intros i d d' Hi E1 E2. rewrite E1 in E2. injection E2 as <-. f_equal. lia. }
  destruct (Z.ltb_spec (pos b) (lmt b)).
  - destruct (data b) as [d|] eqn:Ed; [ | lia]. cbn [mbind option_bind].
    rewrite load_Some by lia. cbn [mbind option_bind]. rewrite (proj2 (Z.ltb_lt 0 _)) by lia.
    pose proof (length_slice d (pos b) (lmt b - pos b) ltac:(lia) ltac:(lia) ltac:(lia)) as Hs.
    destruct (blit_Some d 0 (slice d (pos b) (lmt b - pos b))) as (d' & E & Hlen & _); [lia.. | ].
    rewrite E. cbn [mbind option_bind]. eexists. split; [done | ]. unfold wf. cbn.
    split_and!; try lia. intros i d0 d1 Hi [= <-] [= <-].
    rewrite (rd_blit _ _ _ _ i E) by lia. rewrite decide_True by lia. rewrite rd_slice by lia.
    f_equal. lia.
  - exists (Abuf (data b) (cap b) 0 0). unfold wf. cbn. split_and!; try done; try lia.
Qed.

Lemma expand_spec fresh b n retain :
  wf b -> (forall d, fresh = Some d -> Z.of_nat (length d) = n) ->
  exists r b', aloe_buf_expand fresh b n retain = Some (r, b') /\ wf b' /\ pos b' = pos b /\
    (r = 0 -> n <= cap b') /\ (r <> 0 -> b' = b) /\
    (0 < retain -> forall i d d', 0 <= i < pos b -> data b = Some d -> data b' = Some d' ->
       rd d' i = rd d i).
Proof.
  intros Hwf Hf. pose proof Hwf as (Hp & Hl & Hd). unfold aloe_buf_expand.
  destruct (Z.leb_spec n (cap b)).
  { exists 0, b. split_and!; try done. intros _ i d d' _ E1 E2. congruence. }
  destruct fresh as [block|].
  2: { exists ENOMEM, b. split_and!; try done. intros _ i d d' _ E1 E2. congruence. }
  specialize (Hf block eq_refl).
  assert (Hwf' : forall d', Z.of_nat (length d') = n ->
    wf (Abuf (Some d') n (if lmt b =? cap b then n else lmt b) (pos b))).
  { intros d' Hd'. unfold wf. cbn. destruct (Z.eqb_spec (lmt b) (cap b)); lia. }
  destruct (data b) as [old|] eqn:Ed.
  - destruct ((0 <? pos b) && _) eqn:Er.
    + rewrite load_Some by lia. cbn [mbind option_bind].
      pose proof (length_slice old 0 (pos b) ltac:(lia) ltac:(lia) ltac:(lia)) as Hs.
      destruct (blit_Some block 0 (slice old 0 (pos b))) as (d' & E & Hlen & _); [lia.. | ].
      rewrite E. cbn [mbind option_bind]. eexists _, _. split; [done | ].
      split; [apply Hwf'; lia | ]. cbn. split_and!; try done; try lia.
      intros _ i d0 d1 Hi [= <-] [= <-]. rewrite (rd_blit _ _ _ _ i E) by lia.
      rewrite decide_True by lia. rewrite rd_slice by lia. f_equal. lia.
    + eexists _, _. split; [done | ]. split; [by apply Hwf' | ]. cbn. split_and!; try done; try lia.
  - eexists _, _. split; [done | ]. split; [by apply Hwf' | ]. cbn. split_and!; try done; try lia.
Qed.

(** [vzprintf] of the text [s]: appended with a NUL, or, if it does not fit
    below [lmt], dropped with a NUL at [pos]. *)
Lemma vzprintf_spec b out :
  wf b -> pos b < lmt b ->
  exists r b' d d', aloe_buf_vzprintf b true out = Some (r, b') /\ wf b' /\
    cap b' = cap b /\ lmt b' = lmt b /\ data b = Some d /\ data b' = Some d' /\
    (forall i, 0 <= i < pos b \/ lmt b <= i -> rd d' i = rd d i) /\
    rd d' (pos b') = Some 0 /\
    match out with
    | Some s =>
        if pos b + Z.of_nat (length s) <? lmt b
        then r = Z.of_nat (length s) /\ pos b' = pos b + r /\ slice d' (pos b) r = s
        else r = 0 /\ pos b' = pos b
    | None => r = 0 /\ pos b' = pos b
    end.
Proof.
  intros Hwf Hpl. pose proof Hwf as (Hp & Hl & Hd). unfold aloe_buf_vzprintf. cbv zeta.
  rewrite (proj2 (Z.leb_gt (lmt b) (pos b))) by lia. cbn [negb orb].
  destruct (data b) as [d|] eqn:Ed; [ | lia]. cbn [mbind option_bind].
  assert (Hfin : forall d1 p, Z.of_nat (length d1) = cap b -> 0 <= p < lmt b ->
    exists d', upd d1 p 0 = Some d' /\ Z.of_nat (length d') = cap b /\ rd d' p = Some 0 /\
      forall i, 0 <= i -> i <> p -> rd d' i = rd d1 i).
  { intros d1 p H1 Hpp. rewrite upd_Some by lia. eexists. split; [done | ].
    rewrite length_insert. split; [lia | ]. split.
    - rewrite rd_insert by lia. by rewrite decide_True by lia.
    - intros i Hi Hne. rewrite rd_insert by lia. by rewrite decide_False by lia. }
  destruct out as [s|]; cbn [vsnprintf].
  - destruct (blit_Some d (pos b) (take (Z.to_nat (lmt b - pos b - 1)) s ++ [0]))
      as (d1 & E & Hlen & _); [lia | rewrite length_app, length_take; cbn; lia | ].
    rewrite E. cbn [mbind option_bind].
    assert (Hkeep : forall i, 0 <= i < pos b \/ lmt b <= i -> rd d1 i = rd d i).
    { intros i Hi. rewrite (rd_blit _ _ _ _ i E) by lia.
      rewrite decide_False; [done | ]. rewrite length_app, length_take. cbn. lia. }
    destruct (Z.ltb_spec (pos b + Z.of_nat (length s)) (lmt b)) as [Hfit|Hfit].
    + rewrite (proj2 (Z.ltb_ge (Z.of_nat (length s)) 0)) by lia.
      rewrite (proj2 (Z.leb_gt (lmt b) (pos b + Z.of_nat (length s)))) by lia. cbn [orb pos lmt data cap].
      rewrite (proj2 (Z.ltb_lt _ _)) by lia. cbn [mbind option_bind].
      destruct (Hfin d1 (pos b + Z.of_nat (length s))) as (d' & E' & Hl' & Hz & Hk); [lia | lia | ].
      rewrite E'. cbn [mbind option_bind].
      exists (Z.of_nat (length s)), (Abuf (Some d') (cap b) (lmt b) (pos b + Z.of_nat (length s))), d, d'.
      unfold wf. cbn. split_and!; try done; try lia.
      * intros i Hi. rewrite Hk by lia. by apply Hkeep.
      * apply list_eq. intros i. unfold slice.
        destruct (decide (i < length s)%nat) as [Hi|Hi].
        2: { rewrite !lookup_ge_None_2; [done | lia | rewrite length_take; lia]. }
        rewrite lookup_take_lt, lookup_drop by lia.
        pose proof (Hk (pos b + Z.of_nat i) ltac:(lia) ltac:(lia)) as Hr.
        rewrite (rd_blit _ _ _ _ _ E) in Hr by lia.
        rewrite decide_True in Hr by (rewrite length_app, length_take; cbn; lia).
        unfold rd in Hr. rewrite !(proj2 (Z.ltb_ge _ 0)) in Hr by lia.
        replace (Z.to_nat (pos b + Z.of_nat i - pos b)) with i in Hr by lia.
        replace (Z.to_nat (pos b + Z.of_nat i)) with (Z.to_nat (pos b) + i)%nat in Hr by lia.
        rewrite Hr, take_ge by lia. by rewrite lookup_app_l by lia.
    + rewrite (proj2 (Z.leb_le (lmt b) (pos b + Z.of_nat (length s)))) by lia. rewrite orb_true_r.
      cbn [pos lmt data cap]. rewrite (proj2 (Z.ltb_lt _ _)) by lia. cbn [mbind option_bind].
      destruct (Hfin d1 (pos b)) as (d' & E' & Hl' & Hz & Hk); [lia | lia | ].
      rewrite E'. cbn [mbind option_bind]. eexists 0, _, d, d'. split; [done | ].
      unfold wf. cbn. split_and!; try done; try lia.
      intros i Hi. rewrite Hk by lia. by apply Hkeep.
  - cbn [mbind option_bind Z.ltb Z.compare orb pos lmt data cap].
    rewrite (proj2 (Z.ltb_lt _ _)) by lia. cbn [mbind option_bind].
    destruct (Hfin d (pos b)) as (d' & E' & Hl' & Hz & Hk); [lia | lia | ].
    rewrite E'. cbn [mbind option_bind]. eexists 0, _, d, d'. split; [done | ].
    unfold wf. cbn. split_and!; try done; try lia.
    intros i Hi. rewrite Hk by lia. done.
Qed.

Lemma exec_wf o b : wf b -> op_ok o -> exists b', exec o b = Some b' /\ wf b'.
Proof.
  intros Hwf Hok. pose proof Hwf as (Hp & Hl & Hd). destruct o as [ | | |fresh n r|f out]; cbn [exec].
  - eexists. split; [done | ]. unfold wf. cbn. split_and!; try done; lia.
  - eexists. split; [done | ]. unfold wf. cbn. split_and!; try done; lia.
  - destruct (rewind_spec b Hwf) as (b' & E & Hwf' & _). eauto.
  - destruct (expand_spec fresh b n r Hwf) as (x & b' & E & Hwf' & _).
    { intros d ->. exact Hok. }
    exists b'. by rewrite E.
  - destruct (decide (pos b < lmt b)) as [Hlt|Hge].
    + destruct f.
      * destruct (vzprintf_spec b out Hwf Hlt) as (x & b' & _ & _ & E & Hwf' & _).
        exists b'. by rewrite E.
      * unfold aloe_buf_vzprintf. rewrite orb_true_r, (proj2 (Z.ltb_lt _ _)) by lia.
        destruct (data b) as [d|] eqn:Ed; [ | lia]. cbn [mbind option_bind].
        rewrite upd_Some by lia. cbn. eexists. split; [done | ]. unfold wf. cbn.
        rewrite length_insert. split_and!; lia.
    + exists b. unfold aloe_buf_vzprintf. rewrite (proj2 (Z.leb_le _ _)) by lia. cbn [orb].
      by rewrite (proj2 (Z.ltb_ge _ _)) by lia.
Qed.

Fixpoint exec_all (os : list op) (b : abuf) : option abuf :=
  match os with [] => Some b | o :: os' => b' ← exec o b; exec_all os' b' end.

(** From a well-formed buffer no sequence of calls reads or writes
    outside its memory, and it stays well formed ([pos <= lmt <= cap], [cap]
    bytes), whatever [malloc] and the formatter return. *)
Theorem buf_calls_safe os b :
  wf b -> Forall op_ok os -> exists b', exec_all os b = Some b' /\ wf b'.
Proof.
  intros Hwf Hos. revert b Hwf. induction Hos as [|o os Ho _ IH]; intros b Hwf; [by exists b | ].
  destruct (exec_wf o b Hwf Ho) as (b1 & E & Hwf1). cbn. rewrite E. by apply IH.
Qed.

(** [aloe_buf_rewind] moves the [lmt - pos] unread bytes to the front. *)
Theorem buf_rewind_moves b :
  wf b ->
  exists b', aloe_buf_rewind b = Some b' /\ pos b' = 0 /\ lmt b' = lmt b - pos b /\
    cap b' = cap b /\
    forall i d d', 0 <= i < lmt b - pos b -> data b = Some d -> data b' = Some d' ->
      rd d' i = rd d (pos b + i).
Proof. intros (b' & E & _ & Hc & Hp & Hl & Hr)%rewind_spec. eauto 10. Qed.

(** [aloe_buf_vzprintf] appends a text that fits below [lmt] with its
    NUL and advances [pos] by its length; a text that does not fit (or fails
    to format) leaves [pos] and a NUL there; the bytes before [pos] and from
    [lmt] on are kept. *)
Theorem vzprintf_appends b out :
  wf b -> pos b < lmt b ->
  exists r b' d d', aloe_buf_vzprintf b true out = Some (r, b') /\ lmt b' = lmt b /\
    data b = Some d /\ data b' = Some d' /\
    (forall i, 0 <= i < pos b \/ lmt b <= i -> rd d' i = rd d i) /\
    rd d' (pos b') = Some 0 /\
    match out with
    | Some s =>
        if pos b + Z.of_nat (length s) <? lmt b
        then r = Z.of_nat (length s) /\ pos b' = pos b + r /\ slice d' (pos b) r = s
        else r = 0 /\ pos b' = pos b
    | None => r = 0 /\ pos b' = pos b
    end.
Proof.
  intros Hwf Hlt.
  destruct (vzprintf_spec b out Hwf Hlt) as (r & b' & d & d' & E & _ & _ & H). by exists r, b', d, d'.
Qed.

(* ------------------------------------------------------------------ *)
(** ** Moving average *)

(** [rec] seen as an array of [cap] doubles, [lmt] of them in use from [pos]. *)
Record ring : Type := Ring { vl : list double; rcap : Z; rlmt : Z; rpos : Z }.

Definition d_zero : double := d_int 0.

(** The loops from the tail back: [term i v] is what slot [i] (0 the newest)
    contributes, [None] to stop. *)
Fixpoint avg_loop (vl : list double) (cap : Z) (term : Z -> double -> option double)
    (n : nat) (i pos : Z) (sum : double) : option double :=
  match n with
  | O => Some sum
  | S n' =>
      v ← vl !! Z.to_nat pos;
      match term i v with
      | None => Some sum
      | Some t =>
          avg_loop vl cap term n' (i + 1) (if pos <=? 0 then cap - 1 else pos - 1) (d_add sum t)
      end
  end.

(** The weighted terms. *)
Definition weight_term (weight : list double) (weight_remain : double) (i : Z) (v : double)
    : option double :=
  match weight !! Z.to_nat i with
  | Some w => Some (d_mul v w)
  | None => if negb (SFeqb weight_remain d_zero) then Some (d_mul v weight_remain) else None
  end.

(** [weight = None] is NULL. *)
Definition aloe_avg_calc_f (rec : ring) (val : double) (weight : option (list double))
    (weight_remain : double) : option (ring * double) :=
  if rcap rec <=? 0 then None else
  let pos := (rpos rec + rlmt rec) mod rcap rec in
  let vl' := <[Z.to_nat pos := val]> (vl rec) in
  let rec' :=
    if rlmt rec <? rcap rec then Ring vl' (rcap rec) (rlmt rec + 1) (rpos rec)
    else if rpos rec =? rcap rec - 1 then Ring vl' (rcap rec) (rlmt rec) 0
    else Ring vl' (rcap rec) (rlmt rec) (rpos rec + 1) in
  let n := Z.to_nat (rlmt rec') in
  match weight with
  | Some ((_ :: _) as ws) =>
      sum ← avg_loop vl' (rcap rec) (weight_term ws weight_remain) n 0 pos d_zero;
      Some (rec', sum)
  | _ =>
      sum ← avg_loop vl' (rcap rec) (fun _ v => Some v) n 0 pos d_zero;
      Some (rec', d_div sum (d_int (rlmt rec')))
  end.

(** [r] holds the history [h], newest first. *)
Definition holds (r : ring) (h : list double) : Prop :=
  0 < rcap r /\ 0 <= rpos r < rcap r /\ 0 <= rlmt r <= rcap r /\
  (rlmt r < rcap r -> rpos r = 0) /\
  Z.of_nat (length (vl r)) = rcap r /\ Z.of_nat (length h) = rlmt r /\
  forall i, 0 <= i < rlmt r ->
    vl r !! Z.to_nat ((rpos r + rlmt r - 1 - i) mod rcap r) = h !! Z.to_nat i.

(** The same sum over the history itself. *)
Fixpoint avg_spec (term : Z -> double -> option double) (i : Z) (h : list double) (sum : double)
    : double :=
  match h with
  | [] => sum
  | v :: h' =>
      match term i v with None => sum | Some t => avg_spec term (i + 1) h' (d_add sum t) end
  end.

(** A ring index at most one turn away. *)
Lemma mod_turn x n : 0 < n -> - n <= x < 2 * n ->
  x mod n = if x <? 0 then x + n else if x <? n then x else x - n.
Proof.
  intros Hn Hx. destruct (Z.ltb_spec x 0); [ | destruct (Z.ltb_spec x n)].
  - symmetry. apply (Z.mod_unique _ _ (-1)); lia.
  - apply Z.mod_small. lia.
  - symmetry. apply (Z.mod_unique _ _ 1); lia.
Qed.

Lemma avg_loop_spec vl cap term h : forall n i pos sum,
  0 < cap -> 0 <= pos < cap -> n = length h -> Z.of_nat n <= cap ->
  (forall j, 0 <= j < Z.of_nat n -> vl !! Z.to_nat ((pos - j) mod cap) = h !! Z.to_nat j) ->
  avg_loop vl cap term n i pos sum = Some (avg_spec term i h sum).
Proof.
  induction h as [|v h IH]; intros n i pos sum Hc Hp -> Hn Hv; [done | ].
  cbn [length] in *. cbn [avg_loop].
  pose proof (Hv 0 ltac:(lia)) as H0. rewrite Z.sub_0_r, Z.mod_small in H0 by lia.
  change ((v :: h) !! Z.to_nat 0) with (Some v) in H0.
  rewrite H0. cbn [mbind option_bind avg_spec].
  destruct (term i v) as [t|]; [ | done].
  apply IH; [done | | done | lia | ].
  - destruct (Z.leb_spec pos 0); lia.
  - intros j Hj. pose proof (Hv (j + 1) ltac:(lia)) as Hs.
    replace (Z.to_nat (j + 1)) with (S (Z.to_nat j)) in Hs by lia.
    change ((v :: h) !! S (Z.to_nat j)) with (h !! Z.to_nat j) in Hs. rewrite <- Hs.
    do 2 f_equal. rewrite !mod_turn by (destruct (Z.leb_spec pos 0); lia).
    destruct (Z.leb_spec pos 0); repeat case_match; lia.
Qed.

(** Pushing a value shifts the history. *)
Definition pushed (rec : ring) (val : double) : ring :=
  let vl' := <[Z.to_nat ((rpos rec + rlmt rec) mod rcap rec) := val]> (vl rec) in
  if rlmt rec <? rcap rec then Ring vl' (rcap rec) (rlmt rec + 1) (rpos rec)
  else if rpos rec =? rcap rec - 1 then Ring vl' (rcap rec) (rlmt rec) 0
  else Ring vl' (rcap rec) (rlmt rec) (rpos rec + 1).

Lemma pushed_holds r h v :
  holds r h -> holds (pushed r v) (take (Z.to_nat (rcap r)) (v :: h)) /\
  (rpos (pushed r v) + rlmt (pushed r v) - 1) mod rcap r = (rpos r + rlmt r) mod rcap r.
Proof.
  intros (Hc & Hp & Hl & Hz & Hlen & Hh & Hv).
  assert (Hidx : forall i, 0 <= i < rlmt (pushed r v) ->
    vl (pushed r v) !! Z.to_nat ((rpos (pushed r v) + rlmt (pushed r v) - 1 - i) mod rcap r) =
    take (Z.to_nat (rcap r)) (v :: h) !! Z.to_nat i).
  { intros i Hi.
    assert (Hvl : vl (pushed r v) =
      <[Z.to_nat ((rpos r + rlmt r) mod rcap r) := v]> (vl r))
      by (unfold pushed; by repeat case_match).
    assert (Hin : i < rcap r) by (revert Hi; unfold pushed; repeat case_match; cbn; lia).
    rewrite lookup_take_lt, Hvl by lia.
    assert (Hpos : (rpos (pushed r v) + rlmt (pushed r v) - 1 - i) mod rcap r =
      (rpos r + rlmt r - i) mod rcap r).
    { unfold pushed. destruct (Z.ltb_spec (rlmt r) (rcap r)); cbn.
      - f_equal. lia.
      - destruct (Z.eqb_spec (rpos r) (rcap r - 1)); cbn.
        + rewrite !mod_turn by lia. repeat case_match; lia.
        + f_equal. lia. }
    rewrite Hpos. destruct (decide (i = 0)) as [->|Hi0].
    - rewrite Z.sub_0_r, list_lookup_insert_eq; [done | ].
      pose proof (Z.mod_pos_bound (rpos r + rlmt r) (rcap r) Hc). lia.
    - pose proof (Z.mod_pos_bound (rpos r + rlmt r) (rcap r) Hc).
      pose proof (Z.mod_pos_bound (rpos r + rlmt r - i) (rcap r) Hc).
      rewrite list_lookup_insert_ne.
      + replace (Z.to_nat i) with (S (Z.to_nat (i - 1))) by lia.
        change ((v :: h) !! S (Z.to_nat (i - 1))) with (h !! Z.to_nat (i - 1)).
        rewrite <- Hv; [do 2 f_equal; f_equal; lia | ].
        revert Hi. unfold pushed. repeat case_match; cbn; lia.
      + intros E. assert (Hm : (rpos r + rlmt r) mod rcap r = (rpos r + rlmt r - i) mod rcap r) by lia.
        revert Hm. rewrite !mod_turn by lia. repeat case_match; lia. }
  assert (Hrc : rcap (pushed r v) = rcap r) by (unfold pushed; by repeat case_match).
  split.
  - unfold holds. rewrite Hrc. split_and!; try done.
    + unfold pushed. repeat case_match; cbn; lia.
    + unfold pushed. repeat case_match; cbn; lia.
    + unfold pushed. repeat case_match; cbn; lia.
    + unfold pushed. repeat case_match; cbn; lia.
    + unfold pushed. repeat case_match; cbn; lia.
    + unfold pushed. repeat case_match; cbn; rewrite length_insert; done.
    + rewrite length_take. cbn. unfold pushed. destruct (Z.ltb_spec (rlmt r) (rcap r)); cbn; [lia | ].
      destruct (_ =? _); cbn; lia.
  - unfold pushed. destruct (Z.ltb_spec (rlmt r) (rcap r)); cbn; [f_equal; lia | ].
    destruct (Z.eqb_spec (rpos r) (rcap r - 1)); cbn; [ | f_equal; lia].
    rewrite !mod_turn by lia. repeat case_match; lia.
Qed.

(** What a weighting of the window gives. *)
Definition average (weight : option (list double)) (weight_remain : double) (h : list double)
    : double :=
  match weight with
  | Some ((_ :: _) as ws) => avg_spec (weight_term ws weight_remain) 0 h d_zero
  | _ => d_div (avg_spec (fun _ v => Some v) 0 h d_zero) (d_int (Z.of_nat (length h)))
  end.

(** [aloe_avg_calc_f] keeps the last [cap] values, newest first, and
    returns their plain or weighted average in that order. *)
Theorem avg_calc_window r h v weight weight_remain :
  holds r h ->
  let h' := take (Z.to_nat (rcap r)) (v :: h) in
  exists r', aloe_avg_calc_f r v weight weight_remain = Some (r', average weight weight_remain h') /\
    holds r' h'.
Proof.
  intros Hr h'. destruct (pushed_holds r h v Hr) as [Hh' Htail]. fold h' in Hh'.
  exists (pushed r v). split; [ | done].
  pose proof Hh' as (_ & Hp' & Hl' & _ & _ & Hn & Hv').
  assert (Hrc : rcap (pushed r v) = rcap r) by (unfold pushed; by repeat case_match).
  assert (Hvl : vl (pushed r v) = <[Z.to_nat ((rpos r + rlmt r) mod rcap r) := v]> (vl r))
    by (unfold pushed; by repeat case_match).
  assert (Hc : 0 < rcap r) by (destruct Hr; lia).
  rewrite Hrc in *.
  assert (Hloop : forall term, avg_loop (vl (pushed r v)) (rcap r) term
    (Z.to_nat (rlmt (pushed r v))) 0 ((rpos r + rlmt r) mod rcap r) d_zero =
    Some (avg_spec term 0 h' d_zero)).
  { intros term. apply avg_loop_spec; [lia | apply Z.mod_pos_bound; lia | lia | lia | ].
    intros j Hj. rewrite <- Htail, Zminus_mod_idemp_l. apply Hv'. lia. }
  rewrite Hvl in Hloop.
  assert (Hl0 : (rcap r <=? 0) = false) by lia.
  unfold aloe_avg_calc_f. rewrite Hl0. cbv zeta. unfold average. rewrite Hn.
  fold (pushed r v).
  destruct weight as [[|w ws]|]; by rewrite Hloop.
Qed.

(** ** Witnesses *)

Definition buf4 : abuf := Abuf (Some [1; 2; 3; 4]) 4 4 1.

Lemma wf4 : wf buf4.
Proof. unfold wf. cbn. lia. Defined.

Lemma buf_calls_safe_witness :
  exec_all [Rewind; Expand (Some [9; 9; 9; 9; 9; 9]) 6 1; Flip; Zprintf true (Some [65; 66])] buf4 =
    Some (Abuf (Some [9; 9; 9; 9; 9; 9]) 6 0 0) /\
  exists b', exec_all [Rewind; Expand (Some [9; 9; 9; 9; 9; 9]) 6 1; Flip; Zprintf true (Some [65; 66])]
    buf4 = Some b' /\ wf b'.
Proof.
  split; [by vm_compute | ].
  apply (buf_calls_safe [Rewind; Expand (Some [9; 9; 9; 9; 9; 9]) 6 1; Flip; Zprintf true (Some [65; 66])]
    buf4 wf4).
  repeat (constructor; [done | ]). constructor.
Defined.

Lemma buf_rewind_moves_witness :
  exists b', aloe_buf_rewind buf4 = Some b' /\ pos b' = 0 /\ lmt b' = 4 - 1 /\
    cap b' = 4 /\
    forall i d d', 0 <= i < 4 - 1 -> Some [1; 2; 3; 4] = Some d -> data b' = Some d' ->
      rd d' i = rd d (1 + i).
Proof. apply (buf_rewind_moves buf4 wf4). Defined.

Lemma vzprintf_appends_witness :
  exists r b' d d', aloe_buf_vzprintf buf4 true (Some [65; 66]) = Some (r, b') /\ lmt b' = 4 /\
    Some [1; 2; 3; 4] = Some d /\ data b' = Some d' /\
    (forall i, 0 <= i < 1 \/ 4 <= i -> rd d' i = rd d i) /\
    rd d' (pos b') = Some 0 /\
    (r = 2 /\ pos b' = 1 + r /\ slice d' 1 r = [65; 66]).
Proof. apply (vzprintf_appends buf4 (Some [65; 66]) wf4). done. Defined.

Definition ring2 : ring := Ring [d_int 5; d_int 7] 2 2 0.

Lemma holds2 : holds ring2 [d_int 7; d_int 5].
Proof.
  unfold holds. cbn. split_and!; try lia.
  intros i Hi. assert (i = 0 \/ i = 1) as [->| ->] by lia; reflexivity.
Defined.

Lemma avg_calc_window_witness :
  exists r', aloe_avg_calc_f ring2 (d_int 9) None d_zero = Some (r', d_int 8) /\
    holds r' [d_int 9; d_int 7].
Proof. apply (avg_calc_window ring2 [d_int 7; d_int 5] (d_int 9) None d_zero holds2). Defined.
