(* ===== verification/Bmp.v ===== *)
(** Bmp: [aloe_bmp_save] of package/aloe/bmp.cpp, which stores an RGB888 frame
    as a 24-bit bottom-up BMP file. *)

From S2P Require Import Prelude Buf.

(* ------------------------------------------------------------------ *)
(** ** The writer *)

Definition put16 (v : Z) : list Z := [u8 v; u8 (Z.shiftr v 8)].
Definition put32 (v : Z) : list Z :=
  [u8 v; u8 (Z.shiftr v 8); u8 (Z.shiftr v 16); u8 (Z.shiftr v 24)].

(** [BMPFileHeader], packed. *)
Record BMPFileHeader : Type := BMPFile {
  bfType : Z; bfSize : Z; bfReserved1 : Z; bfReserved2 : Z; bfOffBits : Z }.
Definition file_bytes (f : BMPFileHeader) : list Z :=
  put16 (bfType f) ++ put32 (bfSize f) ++ put16 (bfReserved1 f) ++ put16 (bfReserved2 f) ++
  put32 (bfOffBits f).

(** [BMPInfoHeader], packed. *)
Record BMPInfoHeader : Type := BMPInfo {
  biSize : Z; biWidth : Z; biHeight : Z; biPlanes : Z; biBitCount : Z; biCompression : Z;
  biSizeImage : Z; biXPelsPerMeter : Z; biYPelsPerMeter : Z; biClrUsed : Z; biClrImportant : Z }.
Definition info_bytes (i : BMPInfoHeader) : list Z :=
  put32 (biSize i) ++ put32 (biWidth i) ++ put32 (biHeight i) ++ put16 (biPlanes i) ++
  put16 (biBitCount i) ++ put32 (biCompression i) ++ put32 (biSizeImage i) ++
  put32 (biXPelsPerMeter i) ++ put32 (biYPelsPerMeter i) ++ put32 (biClrUsed i) ++
  put32 (biClrImportant i).

(** The three bytes of a pixel, blue first. *)
Definition bgr (rgb : list Z) (width x y : Z) : option (list Z) :=
  i ← cint ((y * width + x) * 3);
  b ← rd rgb (i + 2);
  g ← rd rgb (i + 1);
  r ← rd rgb i;
  Some [b; g; r].

(** One row and its padding. *)
Definition bmp_row (rgb : list Z) (width padding y : Z) : option (list Z) :=
  px ← mapM (fun x => bgr rgb width x y) (seqZ 0 width);
  Some (concat px ++ replicate (Z.to_nat padding) 0).

(** The result and the file; [opened]: [fopen] succeeded.  The results of the
    writes are not looked at, so the file is what a disk that takes them
    holds. *)
Definition aloe_bmp_save (opened : bool) (width height : Z) (rgb : list Z) : option (Z * list Z) :=
  row_size ← cint (width * 3);
  let padding := Z.rem (4 - Z.rem row_size 4) 4 in
  bmp_row_size ← cint (row_size + padding);
  size ← cint (bmp_row_size * height);
  let image_size := u32 size in
  let off := 14 + 40 in
  let file_header := BMPFile 0x4D42 (u32 (off + image_size)) 0 0 off in
  let info_header := BMPInfo 40 width height 1 24 0 image_size 0 0 0 0 in
  if negb opened then Some (-1, []) else
  rows ← mapM (bmp_row rgb width padding) (reverse (seqZ 0 height));
  Some (0, file_bytes file_header ++ info_bytes info_header ++ concat rows).

(* ------------------------------------------------------------------ *)
(** ** A reader *)

(** What the file format says: little-endian fields at fixed offsets, rows
    from the bottom, each padded to four bytes. *)
Definition at32 (f : list Z) (i : Z) : Z :=
  ix f i + 256 * ix f (i + 1) + 65536 * ix f (i + 2) + 16777216 * ix f (i + 3).
Definition bmp_width (f : list Z) : Z := at32 f 18.
Definition bmp_height (f : list Z) : Z := at32 f 22.
Definition stride (w : Z) : Z := (w * 3 + 3) / 4 * 4.
(** Channel [c] (0 red) of the pixel at column [x], row [y] from the top. *)
Definition bmp_channel (f : list Z) (x y c : Z) : option Z :=
  let w := bmp_width f in
  rd f (at32 f 10 + (bmp_height f - 1 - y) * stride w + x * 3 + (2 - c)).

(* ------------------------------------------------------------------ *)
(** ** Lists of blocks *)

Lemma rd_app_l (l k : list Z) i : i < Z.of_nat (length l) -> rd (l ++ k) i = rd l i.
Proof.
  intros Hi. unfold rd. destruct (Z.ltb_spec i 0); [done | ]. apply lookup_app_l. lia.
Qed.

Lemma rd_app_r (l k : list Z) i :
  0 <= i - Z.of_nat (length l) -> rd (l ++ k) i = rd k (i - Z.of_nat (length l)).
Proof.
  intros Hi. unfold rd. rewrite !(proj2 (Z.ltb_ge _ _)) by lia. rewrite lookup_app_r by lia.
  f_equal. lia.
Qed.

(** Byte [j] of block [k] of equal blocks. *)
Lemma rd_blocks (ls : list (list Z)) n k j b :
  Forall (fun l => Z.of_nat (length l) = n) ls -> ls !! k = Some b -> 0 <= j < n ->
  rd (concat ls) (Z.of_nat k * n + j) = rd b j.
Proof.
  intros Hls. revert k. induction Hls as [|l ls Hl Hls IH]; intros k Hk Hj; [done | ].
  cbn [concat]. destruct k as [|k].
  - injection Hk as ->. rewrite rd_app_l by lia. done.
  - rewrite rd_app_r by nia. rewrite Hl. rewrite <- (IH k) by done. f_equal. lia.
Qed.

Lemma length_blocks (ls : list (list Z)) n :
  Forall (fun l => Z.of_nat (length l) = n) ls ->
  Z.of_nat (length (concat ls)) = Z.of_nat (length ls) * n.
Proof. induction 1 as [|l ls Hl Hls IH]; [done | ]. cbn [concat length]. rewrite length_app. lia. Qed.

Lemma mapM_seq_ok {A} (f : Z -> option A) (g : Z -> A) n :
  (forall i, 0 <= i < n -> f i = Some (g i)) -> mapM f (seqZ 0 n) = Some (map g (seqZ 0 n)).
Proof. intros H. by apply mapM_all, Forall_seqZ. Qed.

(* ------------------------------------------------------------------ *)
(** ** The file *)

Lemma stride_bounds w : w * 3 <= stride w < w * 3 + 4.
Proof. unfold stride. dlia. Qed.

Section save.
Context (w h : Z) (rgb : list Z).
Hypothesis Hw : 0 < w.
Hypothesis Hh : 0 < h.
Hypothesis Hfit : stride w * h + 54 <= INT_MAX.
Hypothesis Hrgb : Z.of_nat (length rgb) = w * h * 3.

Definition pixel (y x : Z) : list Z :=
  [ix rgb ((y * w + x) * 3 + 2); ix rgb ((y * w + x) * 3 + 1); ix rgb ((y * w + x) * 3)].
Definition pad : Z := stride w - w * 3.
Definition row (y : Z) : list Z := concat (map (pixel y) (seqZ 0 w)) ++ replicate (Z.to_nat pad) 0.

Lemma stride_fits : w * 3 * h <= INT_MAX /\ stride w <= INT_MAX.
Proof. pose proof (stride_bounds w). unfold INT_MAX in *. split; nia. Qed.

Lemma bgr_ok x y : 0 <= x < w -> 0 <= y < h -> bgr rgb w x y = Some (pixel y x).
Proof.
  intros Hx Hy. pose proof stride_fits as [Hf _]. unfold bgr.
  assert (0 <= (y * w + x) * 3 /\ (y * w + x) * 3 + 3 <= w * h * 3) by nia.
  rewrite cint_ok by (unfold INT_MIN; lia). cbn [mbind option_bind].
  rewrite !rd_ix by lia. done.
Qed.

Lemma row_ok y : 0 <= y < h -> bmp_row rgb w pad y = Some (row y).
Proof.
  intros Hy. unfold bmp_row. rewrite (mapM_seq_ok _ (pixel y)); [done | ].
  intros x Hx. by apply bgr_ok.
Qed.

Lemma pixels_blocks y : Forall (fun l => Z.of_nat (length l) = 3) (map (pixel y) (seqZ 0 w)).
Proof. apply Forall_forall. intros l Hl%list_elem_of_fmap. by destruct Hl as (x & -> & _). Qed.

Lemma row_length y : Z.of_nat (length (row y)) = stride w.
Proof.
  pose proof (stride_bounds w). unfold row. rewrite length_app, length_replicate, Nat2Z.inj_add.
  rewrite (length_blocks _ 3 (pixels_blocks y)), length_map, length_seqZ. unfold pad. lia.
Qed.

Lemma row_rd y x c : 0 <= x < w -> 0 <= c < 3 ->
  rd (row y) (x * 3 + (2 - c)) = Some (ix rgb ((y * w + x) * 3 + c)).
Proof.
  intros Hx Hc. unfold row.
  rewrite rd_app_l by (rewrite (length_blocks _ 3 (pixels_blocks y)), length_map, length_seqZ; lia).
  replace x with (Z.of_nat (Z.to_nat x)) at 1 by lia.
  rewrite (rd_blocks _ 3 _ _ (pixel y x) (pixels_blocks y)) by (lia || by apply lookup_map_seqZ).
  assert (c = 0 \/ c = 1 \/ c = 2) as [->|[->| ->]] by lia; [by rewrite Z.add_0_r | done | done].
Qed.

Definition bmp_header : list Z :=
  file_bytes (BMPFile 0x4D42 (stride w * h + 54) 0 0 54) ++
  info_bytes (BMPInfo 40 w h 1 24 0 (stride w * h) 0 0 0 0).
Definition bmp_file : list Z := bmp_header ++ concat (map row (reverse (seqZ 0 h))).

Lemma save_ok : aloe_bmp_save true w h rgb = Some (0, bmp_file).
Proof.
  pose proof (stride_bounds w). pose proof stride_fits. unfold INT_MAX in Hfit.
  assert (0 <= stride w * h) by nia.
  unfold aloe_bmp_save. rewrite cint_ok by mlia. cbn [mbind option_bind].
  assert (Hpad : Z.rem (4 - Z.rem (w * 3) 4) 4 = pad).
  { unfold pad, stride. rewrite (Z.rem_mod_nonneg (w * 3)) by lia.
    rewrite Z.rem_mod_nonneg by dlia. dlia. }
  rewrite Hpad. replace (w * 3 + pad) with (stride w) by (unfold pad; lia).
  rewrite cint_ok by mlia. cbn [mbind option_bind]. rewrite cint_ok by mlia. cbn [mbind option_bind].
  cbn [negb]. unfold u32. rewrite (Z.mod_small (stride w * h)), Z.mod_small by mlia.
  rewrite (mapM_all _ row).
  - cbn [mbind option_bind]. unfold bmp_file, bmp_header. rewrite <- app_assoc.
    by replace (14 + 40 + stride w * h) with (stride w * h + 54) by lia.
  - rewrite Forall_reverse; apply Forall_seqZ. intros y Hy. by apply row_ok.
Qed.

Lemma rows_blocks : Forall (fun l => Z.of_nat (length l) = stride w) (map row (reverse (seqZ 0 h))).
Proof.
  apply Forall_forall. intros l Hl%list_elem_of_fmap. destruct Hl as (y & -> & _). apply row_length.
Qed.

Lemma bmp_rd k j b : map row (reverse (seqZ 0 h)) !! k = Some b -> 0 <= j < stride w ->
  rd bmp_file (54 + Z.of_nat k * stride w + j) = rd b j.
Proof.
  intros Hk Hj. pose proof (stride_bounds w). unfold bmp_file.
  assert (Hl : Z.of_nat (length bmp_header) = 54) by done.
  rewrite rd_app_r by (rewrite Hl; nia). rewrite Hl.
  rewrite <- (rd_blocks _ (stride w) k j b rows_blocks Hk Hj). f_equal. lia.
Qed.
End save.

(** A 32-bit field reads back. *)
Lemma at32_put pre v post i :
  0 <= v < 4294967296 -> i = Z.of_nat (length pre) -> at32 (pre ++ put32 v ++ post) i = v.
Proof.
  intros Hv ->.
  assert (H : forall k, 0 <= k ->
    rd (pre ++ put32 v ++ post) (Z.of_nat (length pre) + k) = rd (put32 v ++ post) k)
    by (intros k Hk; rewrite rd_app_r by lia; f_equal; lia).
  pose proof (H 0 ltac:(lia)) as H0. rewrite Z.add_0_r in H0.
  unfold at32, ix. rewrite H0, !H by lia.
  change (u8 v + 256 * u8 (Z.shiftr v 8) + 65536 * u8 (Z.shiftr v 16) + 16777216 * u8 (Z.shiftr v 24) = v).
  rewrite !shr_div by lia. unfold u8. dlia.
Qed.

(** A frame saved by [aloe_bmp_save] is a BMP file that reads back as the
    frame: the size field is the length of the file, width and height are the
    frame's, and every channel of every pixel is where the format puts it
    (bottom-up rows of blue, green and red, padded to four bytes); no byte
    outside the frame is read and no int overflows while the file stays below
    2 GiB. *)
Theorem bmp_reads_back w h rgb :
  0 < w -> 0 < h -> stride w * h + 54 <= INT_MAX -> Z.of_nat (length rgb) = w * h * 3 ->
  exists f, aloe_bmp_save true w h rgb = Some (0, f) /\
    at32 f 2 = Z.of_nat (length f) /\ bmp_width f = w /\ bmp_height f = h /\
    forall x y c, 0 <= x < w -> 0 <= y < h -> 0 <= c < 3 ->
      bmp_channel f x y c = rd rgb ((y * w + x) * 3 + c).
Proof.
  intros Hw Hh Hfit Hrgb. exists (bmp_file w h rgb). split; [by apply save_ok | ].
  pose proof (stride_bounds w) as Hs. assert (0 <= stride w * h) by nia.
  assert (0 < h <= INT_MAX /\ 0 < w <= INT_MAX) as [Hh' Hw'] by nia. unfold INT_MAX in *.
  assert (E2 : at32 (bmp_file w h rgb) 2 = stride w * h + 54)
    by (apply (at32_put (put16 0x4D42)); [lia | done]).
  assert (E10 : at32 (bmp_file w h rgb) 10 = 54)
    by (apply (at32_put (put16 0x4D42 ++ put32 (stride w * h + 54) ++ put16 0 ++ put16 0)); done).
  assert (E18 : bmp_width (bmp_file w h rgb) = w)
    by (apply (at32_put (file_bytes (BMPFile 0x4D42 (stride w * h + 54) 0 0 54) ++ put32 40)); [lia | done]).
  assert (E22 : bmp_height (bmp_file w h rgb) = h)
    by (apply (at32_put (file_bytes (BMPFile 0x4D42 (stride w * h + 54) 0 0 54) ++ put32 40 ++ put32 w));
        [lia | done]).
  split_and!; [ | done | done | ].
  - rewrite E2. unfold bmp_file. rewrite length_app, Nat2Z.inj_add.
    rewrite (length_blocks _ _ (rows_blocks w h rgb Hw)), length_map, length_reverse, length_seqZ.
    change (Z.of_nat (length (bmp_header w h))) with 54. lia.
  - intros x y c Hx Hy Hc. unfold bmp_channel. rewrite E10, E18, E22.
    replace (54 + (h - 1 - y) * stride w + x * 3 + (2 - c))
      with (54 + Z.of_nat (Z.to_nat (h - 1 - y)) * stride w + (x * 3 + (2 - c)))
      by (rewrite Z2Nat.id by lia; lia).
    rewrite (bmp_rd w h rgb Hw _ _ (row w rgb y)); [ | | lia].
    + rewrite row_rd by done. symmetry. apply rd_ix. nia.
    + change (map ?f ?l) with (fmap (M := list) f l). rewrite list_lookup_fmap.
      rewrite reverse_lookup by (rewrite length_seqZ; lia). rewrite length_seqZ.
      rewrite lookup_seqZ_lt by lia. cbn. do 2 f_equal. lia.
Qed.

Definition demo_rgb : list Z := [1; 2; 3; 4; 5; 6; 7; 8; 9; 10; 11; 12].

(** A 2 x 2 frame: rows of six bytes padded to eight. *)
Lemma bmp_reads_back_witness :
  exists f, aloe_bmp_save true 2 2 demo_rgb = Some (0, f) /\ length f = 70%nat /\
    bmp_channel f 1 0 2 = Some 6.
Proof.
  destruct (bmp_reads_back 2 2 demo_rgb) as (f & E & Hl & _ & _ & Hp);
    [lia | lia | vm_compute; congruence | reflexivity | ].
  exists f. split; [exact E | ]. split; [ | rewrite Hp by lia; reflexivity].
  revert E. vm_compute. by intros [= <-].
Defined.
