(* ===== verification/Text.v ===== *)
(** Text: the text helpers of package/aloe/util.cpp: [aloe_hexstr] and the
    FourCC conversions. *)

From S2P Require Import Prelude Buf.

(* ------------------------------------------------------------------ *)
(** ** Hexadecimal *)

(** "0123456789abcdef". *)
Definition aloe_hex_chars : list Z :=
  [48; 49; 50; 51; 52; 53; 54; 55; 56; 57; 97; 98; 99; 100; 101; 102].

(** The loop: the buffer, [pos] (an [int], for buffers below 2 GiB) and the
    bytes left. *)
Fixpoint hexstr_loop (ox : list Z) (buf_len pos : Z) (p sep : list Z) : option (list Z * Z) :=
  match p with
  | [] => Some (ox, pos)
  | b :: p' =>
      if buf_len <=? pos + 2 then Some (ox, pos) else
      hi ← rd aloe_hex_chars (Z.land (Z.shiftr b 4) 0x0F);
      lo ← rd aloe_hex_chars (Z.land b 0x0F);
      ox ← upd ox pos hi;
      ox ← upd ox (pos + 1) lo;
      let pos := pos + 2 in
      let sep_len := Z.of_nat (length sep) in
      if (0 <? sep_len) && (0 <? Z.of_nat (length p')) then
        if buf_len <=? pos + sep_len then Some (ox, pos) else
        ox ← blit ox pos sep;
        hexstr_loop ox buf_len (pos + sep_len) p' sep
      else hexstr_loop ox buf_len pos p' sep
  end.

(** [buf = None] is NULL; [sep] is the first [sep_len] bytes of the separator,
    none when it is NULL.  The buffer after and the result; [None]: a store
    through NULL or outside the buffer. *)
Definition aloe_hexstr (buf : option (list Z)) (buf_len : Z) (data sep : list Z)
    : option (option (list Z) * Z) :=
  '(ox, pos) ← (match buf with
                | None => Some (None, 0)
                | Some ox =>
                    if buf_len =? 0 then Some (Some ox, 0) else
                    '(ox, pos) ← hexstr_loop ox buf_len 0 data sep; Some (Some ox, pos)
                end);
  if pos <? buf_len then ox ← ox; ox ← upd ox pos 0; Some (Some ox, pos)
  else Some (ox, pos).

(* ------------------------------------------------------------------ *)
(** ** FourCC *)

(** [memcpy] of a little-endian word and a NUL; [None]: NULL returned. *)
Definition aloe_fourcc_str (str : option (list Z)) (sz fourcc : Z) : option (option (list Z)) :=
  match str with
  | None => Some None
  | Some s =>
      if sz <? 1 then Some None
      else if sz <? 5 then s ← upd s 0 0; Some (Some s)
      else
        s ← blit s 0 [u8 fourcc; u8 (Z.shiftr fourcc 8); u8 (Z.shiftr fourcc 16); u8 (Z.shiftr fourcc 24)];
        s ← upd s 4 0;
        Some (Some s)
  end.

(** [str]: the characters before the NUL; [char_signed]: plain [char] is
    signed on the target. *)
Definition aloe_fourcc_val (char_signed : bool) (str : list Z) : Z :=
  let c i := let v := ix str i in if char_signed then s8 v else v in
  let len := Z.of_nat (length str) in
  if len <? 2 then 0 else
  let val := Z.lor 0 (u32 (Z.shiftl (c 0) 0)) in
  let val := Z.lor val (u32 (Z.shiftl (c 1) 8)) in
  let val := Z.lor val (u32 (Z.shiftl (if 3 <=? len then c 2 else 32) 16)) in
  Z.lor val (u32 (Z.shiftl (if 4 <=? len then c 3 else 32) 24)).

(* ------------------------------------------------------------------ *)
(** ** What the text is *)

Definition hex_of (b : Z) : list Z :=
  [ix aloe_hex_chars (Z.land (Z.shiftr b 4) 0x0F); ix aloe_hex_chars (Z.land b 0x0F)].

(** The whole text: two digits a byte, the separator between bytes. *)
Fixpoint hex_text (sep data : list Z) : list Z :=
  match data with
  | [] => []
  | [b] => hex_of b
  | b :: data' => hex_of b ++ sep ++ hex_text sep data'
  end.

Definition unhex_digit (c : Z) : Z := if c <? 58 then c - 48 else c - 87.

(** Reading it back with separators of [n] bytes. *)
Fixpoint unhex (fuel n : nat) (t : list Z) : list Z :=
  match fuel, t with
  | S fuel', hi :: lo :: t' => (16 * unhex_digit hi + unhex_digit lo) :: unhex fuel' n (drop n t')
  | _, _ => []
  end.

Lemma nibble_range b : 0 <= Z.land b 15 < 16.
Proof. change 15 with (Z.ones 4). rewrite Z.land_ones by lia. apply Z.mod_pos_bound. lia. Qed.

Lemma hex_loop_step b : rd aloe_hex_chars (Z.land (Z.shiftr b 4) 0x0F) =
    Some (ix aloe_hex_chars (Z.land (Z.shiftr b 4) 0x0F)) /\
  rd aloe_hex_chars (Z.land b 0x0F) = Some (ix aloe_hex_chars (Z.land b 0x0F)).
Proof. split; apply rd_ix; (split; [apply nibble_range | apply nibble_range]). Qed.

(** The digits of every byte read back. *)
Lemma unhex_hex b : is_u8 b ->
  16 * unhex_digit (ix aloe_hex_chars (Z.land (Z.shiftr b 4) 0x0F)) +
    unhex_digit (ix aloe_hex_chars (Z.land b 0x0F)) = b.
Proof.
  intros Hb. assert (Hall : Forall (fun b =>
    16 * unhex_digit (ix aloe_hex_chars (Z.land (Z.shiftr b 4) 0x0F)) +
    unhex_digit (ix aloe_hex_chars (Z.land b 0x0F)) = b) (seqZ 0 256)).
  { apply (bool_decide_unpack _). vm_compute. exact I. }
  rewrite Forall_forall in Hall. apply Hall, elem_of_seqZ. mlia.
Qed.

Lemma unhex_text fuel sep data :
  Forall is_u8 data -> (length data <= fuel)%nat -> unhex fuel (length sep) (hex_text sep data) = data.
Proof.
  intros Hd. revert fuel. induction Hd as [|b data Hb Hd IH]; intros fuel Hf; [by destruct fuel | ].
  destruct fuel as [|fuel]; [cbn in Hf; lia | ].
  assert (Hf' : (length data <= fuel)%nat) by (cbn in Hf; lia).
  destruct data as [|b' data].
  - unfold hex_text, hex_of. cbn [unhex]. rewrite unhex_hex by done.
    rewrite drop_nil. by destruct fuel.
  - change (hex_text sep (b :: b' :: data)) with (hex_of b ++ sep ++ hex_text sep (b' :: data)).
    unfold hex_of at 1. cbn [app unhex]. rewrite unhex_hex by done.
    rewrite drop_app_length. by rewrite IH.
Qed.

(** What the loop leaves: a prefix of the text, written at [pos]. *)
Record written (ox ox' : list Z) (pos pos' : Z) (t : list Z) : Prop := Written {
  x_len : length ox' = length ox; x_pos : pos' = pos + Z.of_nat (length t);
  x_bytes : ox' = take (Z.to_nat pos) ox ++ t ++ drop (Z.to_nat pos') ox }.

Lemma written_nil ox pos : 0 <= pos <= Z.of_nat (length ox) -> written ox ox pos pos [].
Proof. intros. split; [done | cbn; lia | cbn; by rewrite take_drop]. Qed.

Lemma written_app ox ox1 ox2 p p1 p2 t1 t2 :
  0 <= p -> p2 <= Z.of_nat (length ox) ->
  written ox ox1 p p1 t1 -> written ox1 ox2 p1 p2 t2 -> written ox ox2 p p2 (t1 ++ t2).
Proof.
  intros Hp Hp2 [L1 P1 B1] [L2 P2 B2]. split; [congruence | rewrite length_app; lia | ].
  assert (Hpre : length (take (Z.to_nat p) ox ++ t1) = Z.to_nat p1)
    by (rewrite length_app, length_take; lia).
  rewrite B2, <- !app_assoc, (app_assoc (take _ ox)). f_equal; [ | f_equal].
  - rewrite B1, app_assoc, <- Hpre. apply take_app_length.
  - rewrite B1, app_assoc. rewrite drop_app_ge by lia. rewrite drop_drop, Hpre. f_equal. lia.
Qed.

Lemma written_upd ox pos v :
  0 <= pos < Z.of_nat (length ox) ->
  exists ox', upd ox pos v = Some ox' /\ written ox ox' pos (pos + 1) [v].
Proof.
  intros Hp. rewrite upd_Some by done. eexists. split; [done | ]. split.
  - by rewrite length_insert.
  - done.
  - rewrite insert_take_drop by lia. do 3 f_equal. lia.
Qed.

Lemma written_blit ox pos s :
  0 <= pos -> pos + Z.of_nat (length s) <= Z.of_nat (length ox) ->
  exists ox', blit ox pos s = Some ox' /\ written ox ox' pos (pos + Z.of_nat (length s)) s.
Proof.
  intros Hp Hl. destruct (blit_Some ox pos s Hp Hl) as (ox' & E & Hlen & ->).
  eexists. split; [exact E | ]. split; [done | done | ]. do 3 f_equal. lia.
Qed.

(** Two digits. *)
Lemma hex_digits_ok ox buf_len pos b :
  Z.of_nat (length ox) = buf_len -> 0 <= pos -> pos + 2 < buf_len ->
  exists ox', written ox ox' pos (pos + 2) (hex_of b) /\ forall A (k : list Z -> option A),
    (hi ← rd aloe_hex_chars (Z.land (Z.shiftr b 4) 0x0F);
     lo ← rd aloe_hex_chars (Z.land b 0x0F);
     ox ← upd ox pos hi; ox ← upd ox (pos + 1) lo; k ox) = k ox'.
Proof.
  intros Hl Hp Hlt. destruct (hex_loop_step b) as [-> ->]. cbn [mbind option_bind].
  destruct (written_upd ox pos (ix aloe_hex_chars (Z.land (Z.shiftr b 4) 0x0F))) as (o1 & -> & W1); [lia | ].
  cbn [mbind option_bind].
  destruct (written_upd o1 (pos + 1) (ix aloe_hex_chars (Z.land b 0x0F))) as (o2 & -> & W2);
    [rewrite (x_len _ _ _ _ _ W1); lia | ].
  exists o2. split; [ | done]. replace (pos + 2) with (pos + 1 + 1) by lia.
  change (hex_of b) with ([ix aloe_hex_chars (Z.land (Z.shiftr b 4) 0x0F)] ++ [ix aloe_hex_chars (Z.land b 0x0F)]).
  eapply written_app; [done | lia | done | done].
Qed.

Lemma hexstr_loop_ok ox buf_len pos p sep :
  Z.of_nat (length ox) = buf_len -> 0 <= pos < buf_len ->
  exists ox' pos' t rest, hexstr_loop ox buf_len pos p sep = Some (ox', pos') /\
    written ox ox' pos pos' t /\ pos' < buf_len /\ hex_text sep p = t ++ rest /\
    (pos + Z.of_nat (length (hex_text sep p)) < buf_len -> rest = []).
Proof.
  revert ox pos. induction p as [|b p IH]; intros ox pos Hl Hp.
  { exists ox, pos, [], []. split_and!; try done; [apply written_nil; lia | lia]. }
  cbn [hexstr_loop].
  assert (Hstop : forall o1 q t rest, written ox o1 pos q t -> q < buf_len ->
    hex_text sep (b :: p) = t ++ rest -> (pos + Z.of_nat (length (hex_text sep (b :: p))) < buf_len -> rest = []) ->
    exists ox' pos' t rest, Some (o1, q) = Some (ox', pos') /\
      written ox ox' pos pos' t /\ pos' < buf_len /\ hex_text sep (b :: p) = t ++ rest /\
      (pos + Z.of_nat (length (hex_text sep (b :: p))) < buf_len -> rest = [])).
  { intros o1 q t rest H1 H2 H3 H4. by exists o1, q, t, rest. }
  assert (Hlen2 : 2 <= Z.of_nat (length (hex_text sep (b :: p)))).
  { destruct p; [done | ]. cbn [hex_text]. rewrite length_app. cbn. lia. }
  destruct (Z.leb_spec buf_len (pos + 2)).
  { eapply (Hstop ox pos [] _ (written_nil ox pos ltac:(lia))); [lia | done | lia]. }
  destruct (hex_digits_ok ox buf_len pos b) as (o1 & W1 & E1); [done | lia | lia | ].
  rewrite E1. clear E1. pose proof (x_len _ _ _ _ _ W1) as L1.
  destruct p as [|b' p].
  { rewrite andb_false_r. cbn [hexstr_loop].
    apply (Hstop o1 (pos + 2) (hex_of b) [] W1); [lia | by rewrite app_nil_r | done]. }
  change (hex_text sep (b :: b' :: p)) with (hex_of b ++ sep ++ hex_text sep (b' :: p)) in *.
  assert (Hrun : forall o2 q, written ox o2 pos q (hex_of b ++ sep) -> q < buf_len ->
    exists ox' pos' t rest, hexstr_loop o2 buf_len q (b' :: p) sep = Some (ox', pos') /\
      written ox ox' pos pos' t /\ pos' < buf_len /\
      hex_of b ++ sep ++ hex_text sep (b' :: p) = t ++ rest /\
      (pos + Z.of_nat (length (hex_of b ++ sep ++ hex_text sep (b' :: p))) < buf_len -> rest = [])).
  { intros o2 q W2 Hq. pose proof (x_len _ _ _ _ _ W2) as L2. pose proof (x_pos _ _ _ _ _ W2) as P2.
    destruct (IH o2 q) as (o3 & q3 & t & rest & E3 & W3 & Q3 & T3 & R3); [lia | lia | ].
    exists o3, q3, ((hex_of b ++ sep) ++ t), rest.
    split_and!; [done | eapply written_app; [lia | lia | done | done] | done | | ].
    - rewrite T3, <- !app_assoc. done.
    - intros Hf. apply R3. rewrite P2. rewrite !length_app in *. lia. }
  destruct (Z.ltb_spec 0 (Z.of_nat (length sep))).
  - change (0 <? Z.of_nat (length (b' :: p))) with true. cbn [andb].
    destruct (Z.leb_spec buf_len (pos + 2 + Z.of_nat (length sep))).
    { eapply (Hstop o1 (pos + 2) (hex_of b) _ W1); [lia | done | ]. intros Hf. exfalso.
      rewrite !length_app in Hf. change (length (hex_of b)) with 2%nat in Hf. lia. }
    destruct (written_blit o1 (pos + 2) sep) as (o2 & -> & W2); [lia | lia | ]. cbn [mbind option_bind].
    apply Hrun; [ | lia]. eapply written_app; [lia | lia | done | done].
  - cbn [andb]. destruct sep; [ | cbn in *; lia]. apply Hrun; [by rewrite app_nil_r | lia].
Qed.

(** [aloe_hexstr] stores inside a buffer of any size the text of the
    bytes (two digits each, with the separator between them) as far as it
    fits, ends it with a NUL and returns its length, leaving the rest of the
    buffer alone; when the text and its NUL fit it is stored whole, and
    reading it back gives the bytes.  An empty buffer is left alone. *)
Theorem hexstr_spec ox data sep :
  Forall is_u8 data ->
  (0 < length ox)%nat ->
  exists ox' pos t rest,
    aloe_hexstr (Some ox) (Z.of_nat (length ox)) data sep = Some (Some ox', pos) /\
    hex_text sep data = t ++ rest /\ pos = Z.of_nat (length t) /\
    ox' = t ++ [0] ++ drop (length t + 1) ox /\ (length t < length ox)%nat /\
    ((length (hex_text sep data) < length ox)%nat ->
       rest = [] /\ unhex (length data) (length sep) t = data).
Proof.
  intros Hd Hl. destruct (hexstr_loop_ok ox (Z.of_nat (length ox)) 0 data sep) as
    (o1 & pos & t & rest & E & W & Hp & Ht & Hfull); [done | lia | ].
  destruct W as [L1 P1 B1]. destruct (written_upd o1 pos 0) as (o2 & E2 & [L2 P2 B2]); [lia | ].
  exists o2, pos, t, rest. unfold aloe_hexstr. rewrite (proj2 (Z.eqb_neq _ _)) by lia.
  rewrite E. cbn [mbind option_bind]. rewrite (proj2 (Z.ltb_lt _ _)) by lia. cbn [mbind option_bind].
  rewrite E2. split_and!; [done | done | lia | | lia | ].
  - assert (Hz : Z.to_nat pos = length t) by lia.
    rewrite B2, Hz, B1, Z2Nat.inj_0, take_0. cbn [app]. rewrite take_app_length. do 2 f_equal.
    rewrite drop_app_ge by lia. rewrite drop_drop. f_equal. lia.
  - intros Hf. assert (Hr : rest = []) by (apply Hfull; lia). split; [done | ].
    rewrite Hr, app_nil_r in Ht. rewrite <- Ht. by apply unhex_text.
Qed.

(** "0a:ff" in a buffer of 8, and cut in one of 4. *)
Lemma hexstr_spec_witness :
  aloe_hexstr (Some (replicate 8 9)) 8 [10; 255] [58] =
    Some (Some [48; 97; 58; 102; 102; 0; 9; 9], 5) /\
  aloe_hexstr (Some (replicate 4 9)) 4 [10; 255] [58] = Some (Some [48; 97; 58; 0], 3) /\
  exists ox' pos t rest,
    aloe_hexstr (Some (replicate 8 9)) 8 [10; 255] [58] = Some (Some ox', pos) /\
    hex_text [58] [10; 255] = t ++ rest /\ pos = Z.of_nat (length t).
Proof.
  split; [vm_compute; reflexivity | ]. split; [vm_compute; reflexivity | ].
  destruct (hexstr_spec (replicate 8 9) [10; 255] [58]) as (ox' & pos & t & rest & E & Ht & Hp & _).
  { repeat (apply Forall_cons; split; [split; [vm_compute; congruence | reflexivity] | ]). apply Forall_nil_2. }
  { vm_compute. lia. }
  exists ox', pos, t, rest. split; [exact E | ]. split; [exact Ht | exact Hp].
Defined.

(** The guard against NULL does not cover the terminating store. *)
Lemma hexstr_null data sep n : 0 < n -> aloe_hexstr None n data sep = None.
Proof. intros Hn. unfold aloe_hexstr. cbn. by rewrite (proj2 (Z.ltb_lt 0 n) Hn). Qed.

(** Where [char] is signed a byte of 128 or more fills the word from its
    place up. *)
Lemma fourcc_sign : aloe_fourcc_val true [0x80; 65; 66; 67] = 0xffffff80 /\
  aloe_fourcc_val false [0x80; 65; 66; 67] = 0x43424180.
Proof. split; vm_compute; reflexivity. Qed.
