(* ===== verification/Bio.v ===== *)
(** Bio: the blocking file helpers of package/aloe/util.cpp: [aloe_bio_read],
    [aloe_bio_write] and their forms that open a file by name. *)

From S2P Require Import Prelude Buf Text.

(* ------------------------------------------------------------------ *)
(** ** Operations *)

(** A [read] or [write] call: it moves up to [n] bytes, is interrupted
    (EINTR), or fails. *)
Inductive io : Type := Moved (n : Z) | Intr | Fail.

(** The loop of [aloe_bio_read]: [src] is what the descriptor has yet to give,
    at whose end [read] returns 0.  With no call left the loop stops as on a
    failure.  Counts pass through [int], which is exact below 2 GiB. *)
Fixpoint bio_read_loop (buf : list Z) (buf_sz pos : Z) (src : list Z) (ans : list io)
    : option (list Z * Z) :=
  if buf_sz <=? pos then Some (buf, pos) else
  match ans with
  | [] | Fail :: _ => Some (buf, pos)
  | Intr :: ans' => bio_read_loop buf buf_sz pos src ans'
  | Moved n :: ans' =>
      let r := Z.min n (Z.min (buf_sz - pos) (Z.of_nat (length src))) in
      if r <=? 0 then Some (buf, pos) else
      buf ← blit buf pos (take (Z.to_nat r) src);
      bio_read_loop buf buf_sz (pos + r) (drop (Z.to_nat r) src) ans'
  end.

Definition aloe_bio_read (buf : list Z) (buf_sz : Z) (src : list Z) (ans : list io)
    : option (list Z * Z) :=
  '(buf, pos) ← bio_read_loop buf buf_sz 0 src ans;
  buf ← (if pos <? buf_sz then upd buf pos 0 else Some buf);
  Some (buf, pos).

(** What [aloe_bio_write] puts out; the result is its length. *)
Fixpoint aloe_bio_write (data : list Z) (ans : list io) : list Z :=
  match data, ans with
  | [], _ | _, [] | _, Fail :: _ => []
  | _, Intr :: ans' => aloe_bio_write data ans'
  | _, Moved n :: ans' =>
      let r := Z.min n (Z.of_nat (length data)) in
      if r <=? 0 then [] else
      take (Z.to_nat r) data ++ aloe_bio_write (drop (Z.to_nat r) data) ans'
  end.

(** By file name: [file] is the file's contents, [None] if it does not open. *)
Definition aloe_bio_read_fn (file : option (list Z)) (buf : list Z) (buf_sz : Z) (ans : list io)
    : option (list Z * Z) :=
  match file with
  | None => Some (buf, -1)
  | Some src => aloe_bio_read buf buf_sz src ans
  end.

(** The result and the file after a truncating open ([mode] 0). *)
Definition aloe_bio_write_fn (opened : bool) (data : list Z) (ans : list io) : Z * option (list Z) :=
  if opened then let out := aloe_bio_write data ans in (Z.of_nat (length out), Some out)
  else (-1, None).

(* ------------------------------------------------------------------ *)
(** ** Progress *)

(** Calls that are interrupted or move at least a byte when they can. *)
Definition moves (a : io) : Prop := match a with Moved n => 0 < n | Intr => True | Fail => False end.

Definition is_moved (a : io) : bool := match a with Moved _ => true | _ => false end.
Definition tries (ans : list io) : nat := length (filter (fun a => is_moved a = true) ans).

Lemma tries_moved n ans : tries (Moved n :: ans) = S (tries ans).
Proof. done. Qed.

Lemma tries_intr ans : tries (Intr :: ans) = tries ans.
Proof. done. Qed.

Lemma bio_read_loop_ok buf buf_sz pos src ans :
  0 <= pos -> pos <= buf_sz <= Z.of_nat (length buf) ->
  exists buf' k, bio_read_loop buf buf_sz pos src ans = Some (buf', pos + Z.of_nat k) /\
    (k <= length src)%nat /\ pos + Z.of_nat k <= buf_sz /\
    written buf buf' pos (pos + Z.of_nat k) (take k src) /\
    (Forall moves ans -> (length src < tries ans)%nat ->
       k = length src \/ pos + Z.of_nat k = buf_sz).
Proof.
  revert buf pos src. induction ans as [|a ans IH]; intros buf pos src Hp Hs.
  all: assert (Hstop : forall P : Prop, (P -> 0%nat = length src \/ pos = buf_sz) ->
    exists buf' k, Some (buf, pos) = Some (buf', pos + Z.of_nat k) /\
    (k <= length src)%nat /\ pos + Z.of_nat k <= buf_sz /\
    written buf buf' pos (pos + Z.of_nat k) (take k src) /\
    (P -> k = length src \/ pos + Z.of_nat k = buf_sz)).
  1,3: intros P HP; exists buf, 0%nat; rewrite Z.add_0_r, take_0;
    (split_and!; [done | lia | lia | apply written_nil; lia | naive_solver]).
  - cbn [bio_read_loop]. assert (H : (if buf_sz <=? pos then Some (buf, pos) else Some (buf, pos))
      = Some (buf, pos)) by (by destruct (buf_sz <=? pos)).
    rewrite H. destruct (Hstop False) as (b' & k & E & H1 & H2 & H3 & _); [done | ].
    exists b', k. split_and!; try done. intros _ Ht. cbn in Ht. lia.
  - cbn [bio_read_loop]. destruct (Z.leb_spec buf_sz pos).
    { destruct (Hstop True) as (b' & k & E & H1 & H2 & H3 & H4); [intros _; right; lia | ].
      exists b', k. split_and!; try done. auto. }
    destruct a as [n| |].
    + set (r := Z.min n _). destruct (Z.leb_spec r 0).
      { destruct (Hstop (0 < n)) as (b' & k & E & H1 & H2 & H3 & H4); [intros Hn; left; lia | ].
        exists b', k. split_and!; try done. intros Hm _. apply H4. by inversion Hm. }
      assert (Hr : length (take (Z.to_nat r) src) = Z.to_nat r) by (rewrite length_take; lia).
      destruct (written_blit buf pos (take (Z.to_nat r) src)) as (b1 & -> & W1); [lia | lia | ].
      rewrite Hr, Z2Nat.id in W1 by lia. cbn [mbind option_bind].
      pose proof (x_len _ _ _ _ _ W1) as L1.
      destruct (IH b1 (pos + r) (drop (Z.to_nat r) src)) as (b2 & k & E & H1 & H2 & W2 & H4); [lia | lia | ].
      rewrite length_drop in *. exists b2, (Z.to_nat r + k)%nat.
      replace (pos + Z.of_nat (Z.to_nat r + k)) with (pos + r + Z.of_nat k) by lia.
      split_and!; [done | lia | done | | ].
      * replace (take (Z.to_nat r + k) src) with (take (Z.to_nat r) src ++ take k (drop (Z.to_nat r) src))
          by apply take_take_drop.
        eapply written_app; [lia | lia | done | done].
      * intros Hm Ht. rewrite tries_moved in Ht.
        destruct H4 as [H4|H4]; [by inversion Hm | lia | left; lia | right; lia].
    + destruct (IH buf pos src Hp Hs) as (b2 & k & E & H1 & H2 & W2 & H4).
      exists b2, k. split_and!; try done. intros Hm Ht. rewrite tries_intr in Ht.
      apply H4; [by inversion Hm | done].
    + destruct (Hstop False) as (b' & k & E & H1 & H2 & H3 & _); [done | ].
      exists b', k. split_and!; try done. intros Hm. by inversion Hm.
Qed.

(** Whatever sizes the reads come in and however often they are
    interrupted, [aloe_bio_read] stores a prefix of what the descriptor gives
    at the start of the buffer, no more than [buf_sz] bytes of it, returns its
    length and ends it with a NUL when there is room, touching nothing after;
    if no read fails it is the whole of it or fills the buffer. *)
Theorem bio_read_spec buf buf_sz src ans :
  0 <= buf_sz <= Z.of_nat (length buf) ->
  exists buf' k, aloe_bio_read buf buf_sz src ans = Some (buf', Z.of_nat k) /\
    Z.of_nat k <= buf_sz /\ (k <= length src)%nat /\
    buf' = take k src ++ (if Z.of_nat k <? buf_sz then [0] ++ drop (k + 1) buf else drop k buf) /\
    (Forall moves ans -> (length src < tries ans)%nat ->
       Z.of_nat k = Z.min (Z.of_nat (length src)) buf_sz).
Proof.
  intros Hs. destruct (bio_read_loop_ok buf buf_sz 0 src ans) as (b1 & k & E & H1 & H2 & W & H4); [lia | lia | ].
  rewrite Z.add_0_l in *. destruct W as [L P B]. rewrite Z2Nat.inj_0, take_0, Nat2Z.id in B. cbn [app] in B.
  assert (Hk : length (take k src) = k) by (rewrite length_take; lia).
  unfold aloe_bio_read. rewrite E. cbn [mbind option_bind].
  assert (Hend : Forall moves ans -> (length src < tries ans)%nat ->
    Z.of_nat k = Z.min (Z.of_nat (length src)) buf_sz).
  { intros Hm Ht. destruct (H4 Hm Ht); lia. }
  destruct (Z.ltb_spec (Z.of_nat k) buf_sz).
  - destruct (written_upd b1 (Z.of_nat k) 0) as (b2 & -> & [L2 P2 B2]); [lia | ]. cbn [mbind option_bind].
    exists b2, k. split_and!; [done | lia | done | | done].
    rewrite (proj2 (Z.ltb_lt _ _)) by lia. rewrite B2, Nat2Z.id, B. f_equal; [by rewrite take_app_le, take_take, Nat.min_id by lia | ].
    rewrite drop_app_ge by lia. rewrite drop_drop, Hk. do 2 f_equal. lia.
  - cbn [mbind option_bind]. exists b1, k. rewrite (proj2 (Z.ltb_ge _ _)) by lia. by split_and!.
Qed.

(** Five bytes read in pieces with an interruption between. *)
Lemma bio_read_spec_witness :
  aloe_bio_read (replicate 8 9) 8 [1; 2; 3; 4; 5] [Moved 2; Intr; Moved 9; Moved 1; Moved 1; Moved 1; Moved 1]
    = Some ([1; 2; 3; 4; 5; 0; 9; 9], 5) /\
  exists buf' k, aloe_bio_read (replicate 8 9) 8 [1; 2; 3; 4; 5]
      [Moved 2; Intr; Moved 9; Moved 1; Moved 1; Moved 1; Moved 1] = Some (buf', Z.of_nat k) /\
    Z.of_nat k = 5.
Proof.
  split; [vm_compute; reflexivity | ].
  destruct (bio_read_spec (replicate 8 9) 8 [1; 2; 3; 4; 5]
    [Moved 2; Intr; Moved 9; Moved 1; Moved 1; Moved 1; Moved 1]) as (b & k & E & _ & _ & _ & H).
  { vm_compute. split; congruence. }
  exists b, k. split; [exact E | ]. apply H; [repeat constructor | vm_compute; lia].
Defined.

(** Writing: a prefix, and all of it when no write fails. *)
Lemma bio_write_spec data ans :
  exists rest, data = aloe_bio_write data ans ++ rest /\
    (Forall moves ans -> (length data <= tries ans)%nat -> rest = []).
Proof.
  revert data. induction ans as [|a ans IH]; intros data.
  { exists data. split; [by destruct data | ]. intros _ Ht. destruct data; [done | cbn in Ht; lia]. }
  destruct data as [|c data]; [by exists [] | ]. destruct a as [n| |]; cbn [aloe_bio_write].
  - set (r := Z.min n _). destruct (Z.leb_spec r 0).
    { exists (c :: data). split; [done | ]. intros Hm. inversion Hm as [|? ? Hn]; subst.
      exfalso. unfold r in *. cbn [moves length] in *. lia. }
    destruct (IH (drop (Z.to_nat r) (c :: data))) as (rest & E & Hr). exists rest. split.
    + rewrite <- app_assoc, <- E. by rewrite take_drop.
    + intros Hm Ht. rewrite tries_moved in Ht. apply Hr; [by inversion Hm | ].
      rewrite length_drop. cbn [length] in *. lia.
  - destruct (IH (c :: data)) as (rest & E & Hr). exists rest. split; [done | ].
    intros Hm Ht. apply Hr; [by inversion Hm | done].
  - exists (c :: data). split; [done | ]. intros Hm. by inversion Hm.
Qed.
