(* ===== verification/Att.v ===== *)
(** Att: the ATT server of package/tester1/blegatt.cpp: the attribute table
    and [att_on_pdu], which answers one request PDU.  A response is the list
    of the bytes stored in [rsp]; [None] is a read outside the request. *)

From S2P Require Import Prelude Buf.

(* ------------------------------------------------------------------ *)
(** ** Constants *)

Definition ATT_MTU_DEFAULT : Z := 23.
Definition ATT_MTU_MAX : Z := 128.
Definition BLE_VALUE_MAX : Z := 64.

Definition ATT_OP_ERROR : Z := 0x01.
Definition ATT_OP_MTU_REQ : Z := 0x02.
Definition ATT_OP_MTU_RSP : Z := 0x03.
Definition ATT_OP_FIND_INFO_REQ : Z := 0x04.
Definition ATT_OP_FIND_INFO_RSP : Z := 0x05.
Definition ATT_OP_FIND_BY_TYPE_REQ : Z := 0x06.
Definition ATT_OP_FIND_BY_TYPE_RSP : Z := 0x07.
Definition ATT_OP_READ_BY_TYPE_REQ : Z := 0x08.
Definition ATT_OP_READ_BY_TYPE_RSP : Z := 0x09.
Definition ATT_OP_READ_REQ : Z := 0x0a.
Definition ATT_OP_READ_RSP : Z := 0x0b.
Definition ATT_OP_READ_BLOB_REQ : Z := 0x0c.
Definition ATT_OP_READ_BLOB_RSP : Z := 0x0d.
Definition ATT_OP_READ_BY_GROUP_REQ : Z := 0x10.
Definition ATT_OP_READ_BY_GROUP_RSP : Z := 0x11.
Definition ATT_OP_WRITE_REQ : Z := 0x12.
Definition ATT_OP_WRITE_RSP : Z := 0x13.
Definition ATT_OP_HANDLE_NFY : Z := 0x1b.
Definition ATT_OP_WRITE_CMD : Z := 0x52.

Definition ATT_ECODE_INVALID_HANDLE : Z := 0x01.
Definition ATT_ECODE_WRITE_NOT_PERM : Z := 0x03.
Definition ATT_ECODE_INVALID_PDU : Z := 0x04.
Definition ATT_ECODE_REQ_NOT_SUPP : Z := 0x06.
Definition ATT_ECODE_INVALID_OFFSET : Z := 0x07.
Definition ATT_ECODE_ATTR_NOT_FOUND : Z := 0x0a.
Definition ATT_ECODE_INVAL_ATTR_VALUE_LEN : Z := 0x0d.
Definition ATT_ECODE_UNSUPP_GRP_TYPE : Z := 0x10.

Definition HDL_GAP_SVC : Z := 1.
Definition HDL_GAP_NAME_CH : Z := 2.
Definition HDL_GAP_NAME : Z := 3.
Definition HDL_GAP_APP_CH : Z := 4.
Definition HDL_GAP_APP : Z := 5.
Definition HDL_GATT_SVC : Z := 6.
Definition HDL_CUS_SVC : Z := 7.
Definition HDL_CUS_CH : Z := 8.
Definition HDL_CUS_VAL : Z := 9.
Definition HDL_CUS_CCCD : Z := 10.
Definition HDL_MAX : Z := 10.

Definition uuid_svc : list Z :=
  [0xf0; 0xde; 0xbc; 0x9a; 0x78; 0x56; 0x34; 0x12;
   0x78; 0x56; 0x34; 0x12; 0x78; 0x56; 0x34; 0x12].
Definition uuid_chr : list Z :=
  [0xf1; 0xde; 0xbc; 0x9a; 0x78; 0x56; 0x34; 0x12;
   0x78; 0x56; 0x34; 0x12; 0x78; 0x56; 0x34; 0x12].
(** "tester". *)
Definition ble_name : list Z := [0x74; 0x65; 0x73; 0x74; 0x65; 0x72].

(* ------------------------------------------------------------------ *)
(** ** Server state *)

(** The fields of [ble2_t] the ATT server works on; [value] is the 64-byte
    array. *)
Record att : Type := AttSt { mtu : Z; cccd : Z; value : list Z; value_len : Z }.

Definition get_le16 (l : list Z) (i : Z) : option Z :=
  a ← rd l i; b ← rd l (i + 1); Some (Z.lor a (Z.shiftl b 8)).

Definition put_le16 (v : Z) : list Z := [u8 v; u8 (Z.shiftr v 8)].

Definition att_error (op hdl code : Z) : list Z := [ATT_OP_ERROR; op] ++ put_le16 hdl ++ [code].

(** [None]: a read outside the request; [Some None]: -1. *)
Definition att_range (req : list Z) : option (option (Z * Z)) :=
  if Z.of_nat (length req) <? 5 then Some None else
  start ← get_le16 req 1;
  end_ ← get_le16 req 3;
  Some (if (start =? 0) || (end_ <? start) then None else Some (start, end_)).

Definition att_last (end_ : Z) : Z := if HDL_MAX <? end_ then HDL_MAX else end_.

Definition att_type_get (hdl : Z) : list Z :=
  if (hdl =? HDL_GAP_SVC) || (hdl =? HDL_GATT_SVC) || (hdl =? HDL_CUS_SVC) then put_le16 0x2800
  else if (hdl =? HDL_GAP_NAME_CH) || (hdl =? HDL_GAP_APP_CH) || (hdl =? HDL_CUS_CH)
  then put_le16 0x2803
  else if hdl =? HDL_GAP_NAME then put_le16 0x2a00
  else if hdl =? HDL_GAP_APP then put_le16 0x2a01
  else if hdl =? HDL_CUS_CCCD then put_le16 0x2902
  else if hdl =? HDL_CUS_VAL then uuid_chr
  else [].

Definition att_group_end (hdl : Z) : Z :=
  if hdl =? HDL_GAP_SVC then HDL_GAP_APP
  else if hdl =? HDL_GATT_SVC then HDL_GATT_SVC
  else if hdl =? HDL_CUS_SVC then HDL_CUS_CCCD
  else 0.

(** ATT_PROP_READ, and the properties of the custom characteristic. *)
Definition prop_read : Z := 0x02.
Definition prop_cus : Z := Z.lor 0x02 (Z.lor 0x04 (Z.lor 0x08 0x10)).

Definition att_value (b : att) (hdl max : Z) : option (list Z) :=
  v ← (if hdl =? HDL_GAP_SVC then Some (put_le16 0x1800)
       else if hdl =? HDL_GATT_SVC then Some (put_le16 0x1801)
       else if hdl =? HDL_CUS_SVC then Some uuid_svc
       else if hdl =? HDL_GAP_NAME_CH then
         Some ([prop_read] ++ put_le16 HDL_GAP_NAME ++ put_le16 0x2a00)
       else if hdl =? HDL_GAP_APP_CH then
         Some ([prop_read] ++ put_le16 HDL_GAP_APP ++ put_le16 0x2a01)
       else if hdl =? HDL_CUS_CH then Some ([prop_cus] ++ put_le16 HDL_CUS_VAL ++ uuid_chr)
       else if hdl =? HDL_GAP_NAME then Some ble_name
       else if hdl =? HDL_GAP_APP then Some (put_le16 0)
       else if hdl =? HDL_CUS_VAL then Some (slice (value b) 0 (value_len b))
       else if hdl =? HDL_CUS_CCCD then Some (put_le16 (cccd b))
       else None);
  if max <? Z.of_nat (length v) then None else Some v.

(** The error code, 0 on success; [None] only if [memcpy] left [value]. *)
Definition att_write (b : att) (hdl : Z) (v : list Z) : option (Z * att) :=
  let n := Z.of_nat (length v) in
  if hdl =? HDL_CUS_CCCD then
    if negb (n =? 2) then Some (ATT_ECODE_INVAL_ATTR_VALUE_LEN, b)
    else c ← get_le16 v 0; Some (0, AttSt (mtu b) c (value b) (value_len b))
  else if hdl =? HDL_CUS_VAL then
    if BLE_VALUE_MAX <? n then Some (ATT_ECODE_INVAL_ATTR_VALUE_LEN, b)
    else
      value' ← (if 0 <? n then blit (value b) 0 v else Some (value b));
      Some (0, AttSt (mtu b) (cccd b) value' (u16 n))
  else if (hdl <? HDL_GAP_SVC) || (HDL_MAX <? hdl) then Some (ATT_ECODE_INVALID_HANDLE, b)
  else Some (ATT_ECODE_WRITE_NOT_PERM, b).

(* ------------------------------------------------------------------ *)
(** ** Requests *)

(** [for (hdl = start; hdl <= last; hdl++)]. *)
Definition handles (start last : Z) : list Z := seqZ start (last - start + 1).

(** The loop of FIND_INFO: the format and the pairs. *)
Fixpoint find_info (mtu fmt : Z) (acc : list Z) (hdls : list Z) : Z * list Z :=
  match hdls with
  | [] => (fmt, acc)
  | hdl :: hdls' =>
      let uuid := att_type_get hdl in
      let ulen := Z.of_nat (length uuid) in
      let form := if ulen =? 16 then 0x02 else 0x01 in
      let pair := 2 + ulen in
      let fmt := if fmt =? 0 then form else fmt in
      if negb (form =? fmt) || (mtu <? 2 + Z.of_nat (length acc) + pair) then (fmt, acc)
      else find_info mtu fmt (acc ++ put_le16 hdl ++ uuid) hdls'
  end.

(** The loop of FIND_BY_TYPE: handle and group end of each match. *)
Fixpoint find_by_type (b : att) (mtu type : Z) (want : list Z) (acc : list Z) (hdls : list Z)
    : list Z :=
  match hdls with
  | [] => acc
  | hdl :: hdls' =>
      if negb (type =? 0x2800) then find_by_type b mtu type want acc hdls' else
      let gend := att_group_end hdl in
      if gend =? 0 then find_by_type b mtu type want acc hdls' else
      match att_value b hdl 32 with
      | Some val =>
          if bool_decide (val = want) then
            if mtu <? 1 + Z.of_nat (length acc) + 4 then acc
            else find_by_type b mtu type want (acc ++ put_le16 hdl ++ put_le16 gend) hdls'
          else find_by_type b mtu type want acc hdls'
      | None => find_by_type b mtu type want acc hdls'
      end
  end.

(** The loop of READ_BY_TYPE and READ_BY_GROUP: the entry length, -1 before
    the first, and the entries. *)
Fixpoint read_by_type (b : att) (mtu : Z) (grouped : bool) (want : list Z) (pair_len : Z)
    (acc : list Z) (hdls : list Z) : Z * list Z :=
  match hdls with
  | [] => (pair_len, acc)
  | hdl :: hdls' =>
      let next := read_by_type b mtu grouped want pair_len acc hdls' in
      if negb (bool_decide (att_type_get hdl = want)) then next
      else if grouped && (att_group_end hdl =? 0) then next
      else match att_value b hdl BLE_VALUE_MAX with
           | None => next
           | Some val =>
               let head := if grouped then 4 else 2 in
               let vlen := Z.of_nat (length val) in
               let trunc := mtu - 2 <? head + vlen in
               let vlen := if trunc then mtu - 2 - head else vlen in
               let pair := head + vlen in
               if vlen <? 0 then (pair_len, acc) else
               let pair_len := if pair_len <? 0 then pair else pair_len in
               if negb (pair =? pair_len) || (mtu <? 2 + Z.of_nat (length acc) + pair)
               then (pair_len, acc)
               else
                 let entry := put_le16 hdl ++
                   (if grouped then put_le16 (att_group_end hdl) else []) ++
                   take (Z.to_nat vlen) val in
                 if trunc then (pair_len, acc ++ entry)
                 else read_by_type b mtu grouped want pair_len (acc ++ entry) hdls'
           end
  end.

(** The MTU in force. *)
Definition mtu_of (b : att) : Z :=
  let m := mtu b in
  let m := if m <? ATT_MTU_DEFAULT then ATT_MTU_DEFAULT else m in
  if ATT_MTU_MAX <? m then ATT_MTU_MAX else m.

Definition on_mtu (b : att) (op : Z) (req : list Z) : option (att * list Z) :=
  if Z.of_nat (length req) <? 3 then Some (b, att_error op 0 ATT_ECODE_INVALID_PDU) else
  client ← get_le16 req 1;
  if client <? ATT_MTU_DEFAULT then Some (b, att_error op 0 ATT_ECODE_INVALID_PDU)
  else
    let m := if client <? ATT_MTU_MAX then client else ATT_MTU_MAX in
    Some (AttSt m (cccd b) (value b) (value_len b), [ATT_OP_MTU_RSP] ++ put_le16 ATT_MTU_MAX).

Definition on_find_info (b : att) (op : Z) (req : list Z) : option (att * list Z) :=
  range ← att_range req;
  match range with
  | None => Some (b, att_error op 0 ATT_ECODE_INVALID_HANDLE)
  | Some (start, end_) =>
      if HDL_MAX <? start then Some (b, att_error op start ATT_ECODE_ATTR_NOT_FOUND) else
      let '(fmt, out) := find_info (mtu_of b) 0 [] (handles start (att_last end_)) in
      Some (b, if fmt =? 0 then att_error op start ATT_ECODE_ATTR_NOT_FOUND
               else [ATT_OP_FIND_INFO_RSP; u8 fmt] ++ out)
  end.

Definition on_find_by_type (b : att) (op : Z) (req : list Z) : option (att * list Z) :=
  if Z.of_nat (length req) <? 7 then Some (b, att_error op 0 ATT_ECODE_INVALID_PDU) else
  range ← att_range req;
  match range with
  | None => Some (b, att_error op 0 ATT_ECODE_INVALID_HANDLE)
  | Some (start, end_) =>
      type ← get_le16 req 5;
      if HDL_MAX <? start then Some (b, att_error op start ATT_ECODE_ATTR_NOT_FOUND) else
      let out := find_by_type b (mtu_of b) type (drop 7 req) [] (handles start (att_last end_)) in
      Some (b, match out with
               | [] => att_error op start ATT_ECODE_ATTR_NOT_FOUND
               | _ => [ATT_OP_FIND_BY_TYPE_RSP] ++ out
               end)
  end.

Definition on_read_by_type (b : att) (op : Z) (req : list Z) : option (att * list Z) :=
  let grouped := op =? ATT_OP_READ_BY_GROUP_REQ in
  let wlen := Z.of_nat (length req) - 5 in
  if (Z.of_nat (length req) <? 7) || (negb (wlen =? 2) && negb (wlen =? 16))
  then Some (b, att_error op 0 ATT_ECODE_INVALID_PDU) else
  range ← att_range req;
  match range with
  | None => Some (b, att_error op 0 ATT_ECODE_INVALID_HANDLE)
  | Some (start, end_) =>
      let want := drop 5 req in
      w16 ← get_le16 want 0;
      if grouped && negb ((wlen =? 2) && (w16 =? 0x2800))
      then Some (b, att_error op start ATT_ECODE_UNSUPP_GRP_TYPE)
      else if HDL_MAX <? start then Some (b, att_error op start ATT_ECODE_ATTR_NOT_FOUND) else
      let '(pair_len, out) :=
        read_by_type b (mtu_of b) grouped want (-1) [] (handles start (att_last end_)) in
      Some (b, if pair_len <? 0 then att_error op start ATT_ECODE_ATTR_NOT_FOUND
               else [if grouped then ATT_OP_READ_BY_GROUP_RSP else ATT_OP_READ_BY_TYPE_RSP;
                     u8 pair_len] ++ out)
  end.

Definition on_read (b : att) (op : Z) (req : list Z) : option (att * list Z) :=
  let blob := op =? ATT_OP_READ_BLOB_REQ in
  if Z.of_nat (length req) <? (if blob then 5 else 3)
  then Some (b, att_error op 0 ATT_ECODE_INVALID_PDU) else
  hdl ← get_le16 req 1;
  off ← (if blob then get_le16 req 3 else Some 0);
  match att_value b hdl BLE_VALUE_MAX with
  | None => Some (b, att_error op hdl ATT_ECODE_INVALID_HANDLE)
  | Some val =>
      let n := Z.of_nat (length val) in
      if u16 n <? off then Some (b, att_error op hdl ATT_ECODE_INVALID_OFFSET) else
      let n := n - off in
      let n := if mtu_of b - 1 <? n then mtu_of b - 1 else n in
      Some (b, [if blob then ATT_OP_READ_BLOB_RSP else ATT_OP_READ_RSP] ++ slice val off n)
  end.

Definition on_write (b : att) (op : Z) (req : list Z) : option (att * list Z) :=
  let cmd := op =? ATT_OP_WRITE_CMD in
  if Z.of_nat (length req) <? 3
  then Some (b, if cmd then [] else att_error op 0 ATT_ECODE_INVALID_PDU) else
  hdl ← get_le16 req 1;
  '(code, b') ← att_write b hdl (drop 3 req);
  Some (b', if cmd then []
            else if negb (code =? 0) then att_error op hdl (u8 code)
            else [ATT_OP_WRITE_RSP]).

Definition att_on_pdu (b : att) (req : list Z) : option (att * list Z) :=
  match req with
  | [] => Some (b, [])
  | op :: _ =>
      if op =? ATT_OP_MTU_REQ then on_mtu b op req
      else if op =? ATT_OP_FIND_INFO_REQ then on_find_info b op req
      else if op =? ATT_OP_FIND_BY_TYPE_REQ then on_find_by_type b op req
      else if (op =? ATT_OP_READ_BY_TYPE_REQ) || (op =? ATT_OP_READ_BY_GROUP_REQ)
      then on_read_by_type b op req
      else if (op =? ATT_OP_READ_REQ) || (op =? ATT_OP_READ_BLOB_REQ) then on_read b op req
      else if (op =? ATT_OP_WRITE_REQ) || (op =? ATT_OP_WRITE_CMD) then on_write b op req
      else
        hdl ← (if 3 <=? Z.of_nat (length req) then get_le16 req 1 else Some 0);
        Some (b, att_error op hdl ATT_ECODE_REQ_NOT_SUPP)
  end.

(* ------------------------------------------------------------------ *)
(** ** The invariant *)

Definition bytes (l : list Z) : Prop := Forall is_u8 l.

(** The state between requests. *)
Definition wf (b : att) : Prop :=
  ATT_MTU_DEFAULT <= mtu b <= ATT_MTU_MAX /\ is_u16 (cccd b) /\
  length (value b) = 64%nat /\ bytes (value b) /\ 0 <= value_len b <= BLE_VALUE_MAX.

Lemma le16_u16 a b : is_u8 a -> is_u8 b ->
  Z.lor a (Z.shiftl b 8) = a + 256 * b /\ is_u16 (Z.lor a (Z.shiftl b 8)).
Proof.
  intros Ha Hb. assert (E : Z.lor a (Z.shiftl b 8) = a + 256 * b) by (rewrite Z.lor_comm, lor_shift; mlia).
  rewrite E. split; [done | mlia].
Qed.

Lemma get_le16_ok l i : bytes l -> 0 <= i -> i + 1 < Z.of_nat (length l) ->
  exists v, get_le16 l i = Some v /\ is_u16 v.
Proof.
  intros Hl Hi Hlen. unfold get_le16. rewrite !rd_ix by lia. eexists. split; [done | ].
  apply le16_u16; apply (ix_Forall is_u8); done || mlia.
Qed.

(** Byte lists, element by element. *)
Ltac byte_list :=
  unfold bytes; repeat (apply Forall_cons; split; [first [done | apply u8_range | mlia] | ]);
  try apply Forall_nil_2.

Lemma put_le16_bytes v : bytes (put_le16 v).
Proof. unfold put_le16. byte_list. Qed.

Lemma put_get_le16 v l : is_u16 v -> get_le16 (put_le16 v ++ l) 0 = Some v.
Proof.
  intros Hv. transitivity (Some (Z.lor (u8 v) (Z.shiftl (u8 (Z.shiftr v 8)) 8))); [done | ].
  rewrite (proj1 (le16_u16 _ _ (u8_range _) (u8_range _))), shr_div by lia.
  f_equal. unfold u8, is_u16 in *. dlia.
Qed.

Lemma bytes_app l k : bytes l -> bytes k -> bytes (l ++ k).
Proof. intros. by apply Forall_app. Qed.

Lemma att_error_bytes op hdl code : is_u8 op -> is_u8 code -> bytes (att_error op hdl code).
Proof.
  intros Ho Hc. unfold att_error, ATT_OP_ERROR, put_le16. cbn [app]. byte_list.
Qed.

Lemma att_error_length op hdl code : length (att_error op hdl code) = 5%nat.
Proof. done. Qed.

Ltac handle_cases hdl :=
  repeat match goal with
  | |- context [hdl =? ?c] => destruct (Z.eqb_spec hdl c)
  end; subst; cbn [orb].

Lemma att_type_bytes hdl : bytes (att_type_get hdl).
Proof.
  unfold att_type_get. repeat case_match; try apply put_le16_bytes; [ | constructor].
  unfold uuid_chr. repeat (constructor; [mlia | ]). constructor.
Qed.

Lemma bytes_slice l i n : bytes l -> bytes (slice l i n).
Proof. intros Hl. by apply Forall_take, Forall_drop. Qed.

Lemma att_value_ok b hdl max v : wf b -> att_value b hdl max = Some v ->
  bytes v /\ Z.of_nat (length v) <= 64 /\ Z.of_nat (length v) <= max.
Proof.
  intros (_ & _ & Hl & Hv & Hn). unfold att_value.
  destruct (if hdl =? HDL_GAP_SVC then _ else _) as [x|] eqn:E; [cbn [mbind option_bind] | done].
  destruct (Z.ltb_spec max (Z.of_nat (length x))); [done | ]. intros [= <-].
  assert (Hx : bytes x /\ Z.of_nat (length x) <= 64).
  { revert E. unfold BLE_VALUE_MAX in Hn.
    repeat case_match; intros [= <-];
      try (split; [ | cbn; lia]; unfold put_le16, uuid_svc, uuid_chr, ble_name; cbn [app];
           by byte_list).
    split; [by apply bytes_slice | ].
    rewrite length_slice by lia. lia. }
  destruct Hx. by split_and!.
Qed.

(* ------------------------------------------------------------------ *)
(** ** Responses fit the MTU *)

Lemma find_info_fits m fmt acc hdls :
  2 + Z.of_nat (length acc) <= m -> bytes acc ->
  let out := (find_info m fmt acc hdls).2 in 2 + Z.of_nat (length out) <= m /\ bytes out.
Proof.
  revert fmt acc. induction hdls as [|hdl hdls IH]; intros fmt acc Hl Hb; [done | ].
  cbn [find_info].
  set (fmt' := if fmt =? 0 then _ else fmt).
  destruct (negb _ || _) eqn:E; [done | ].
  apply orb_false_iff in E as [_ E%Z.ltb_ge].
  apply IH; [rewrite !length_app; cbn; lia | ].
  apply bytes_app; [done | apply bytes_app; [apply put_le16_bytes | apply att_type_bytes]].
Qed.

Lemma find_by_type_fits b m type want acc hdls :
  1 + Z.of_nat (length acc) <= m -> bytes acc ->
  let out := find_by_type b m type want acc hdls in 1 + Z.of_nat (length out) <= m /\ bytes out.
Proof.
  revert acc. induction hdls as [|hdl hdls IH]; intros acc Hl Hb; [done | ]. cbn [find_by_type].
  destruct (negb _); [by apply IH | ]. destruct (_ =? 0); [by apply IH | ].
  destruct (att_value b hdl 32) as [v|]; [ | by apply IH].
  case_bool_decide; [ | by apply IH].
  destruct (Z.ltb_spec m (1 + Z.of_nat (length acc) + 4)); [done | ].
  apply IH; [rewrite !length_app; cbn; lia | ].
  apply bytes_app; [done | apply bytes_app; apply put_le16_bytes].
Qed.

Lemma read_by_type_fits b m grouped want pair_len acc hdls :
  wf b -> 2 + Z.of_nat (length acc) <= m -> bytes acc ->
  let out := (read_by_type b m grouped want pair_len acc hdls).2 in
  2 + Z.of_nat (length out) <= m /\ bytes out.
Proof.
  intros Hwf. revert pair_len acc. induction hdls as [|hdl hdls IH]; intros pl acc Hl Hb; [done | ].
  cbn [read_by_type]. case_bool_decide; [cbn [negb] | by apply IH].
  destruct (grouped && _); [by apply IH | ].
  destruct (att_value b hdl BLE_VALUE_MAX) as [v|] eqn:Ev; [ | by apply IH].
  destruct (att_value_ok _ _ _ _ Hwf Ev) as (Hv & _ & _).
  set (head := if grouped then 4 else 2). set (trunc := m - 2 <? head + _).
  set (vlen := if trunc then m - 2 - head else _).
  destruct (Z.ltb_spec vlen 0); [done | ].
  set (pl' := if pl <? 0 then head + vlen else pl).
  destruct (negb _ || _) eqn:E; [done | ].
  apply orb_false_iff in E as [_ E%Z.ltb_ge].
  set (entry := put_le16 hdl ++ _).
  assert (Hent : Z.of_nat (length entry) <= head + vlen /\ bytes entry).
  { unfold entry, head. split.
    - rewrite !length_app, length_take. destruct grouped; cbn; lia.
    - apply bytes_app; [apply put_le16_bytes | ].
      apply bytes_app; [destruct grouped; [apply put_le16_bytes | constructor] | by apply Forall_take]. }
  destruct Hent as [Hel Heb].
  assert (2 + Z.of_nat (length (acc ++ entry)) <= m) by (rewrite length_app; lia).
  assert (bytes (acc ++ entry)) by (by apply bytes_app).
  destruct trunc; [done | by apply IH].
Qed.

(** What every handler guarantees. *)
Definition fine (b : att) (r : option (att * list Z)) : Prop :=
  exists b' rsp, r = Some (b', rsp) /\ wf b' /\
    Z.of_nat (length rsp) <= mtu_of b /\ bytes rsp.

Lemma mtu_of_wf b : wf b -> mtu_of b = mtu b /\ 23 <= mtu_of b <= 128.
Proof.
  intros (Hm & _). unfold mtu_of, ATT_MTU_DEFAULT, ATT_MTU_MAX in *.
  destruct (Z.ltb_spec (mtu b) 23); [lia | ]. destruct (Z.ltb_spec 128 (mtu b)); lia.
Qed.

Lemma fine_error b op hdl code :
  wf b -> is_u8 op -> is_u8 code -> fine b (Some (b, att_error op hdl code)).
Proof.
  intros Hwf Ho Hc. exists b, (att_error op hdl code). destruct (mtu_of_wf b Hwf).
  split_and!; [done | done | rewrite att_error_length; lia | by apply att_error_bytes].
Qed.

Lemma fine_reply b b' rsp :
  wf b' -> Z.of_nat (length rsp) <= mtu_of b -> bytes rsp -> fine b (Some (b', rsp)).
Proof. intros. by exists b', rsp. Qed.

Lemma att_range_ok req : bytes req ->
  att_range req = Some None \/
  exists s e, att_range req = Some (Some (s, e)) /\ 0 < s <= e /\ is_u16 s /\ is_u16 e /\
    get_le16 req 1 = Some s /\ get_le16 req 3 = Some e.
Proof.
  intros Hb. unfold att_range. destruct (Z.ltb_spec (Z.of_nat (length req)) 5); [by left | ].
  destruct (get_le16_ok req 1) as (s & Es & Hs); [done | lia | lia | ].
  destruct (get_le16_ok req 3) as (e & Ee & He); [done | lia | lia | ].
  rewrite Es, Ee. cbn [mbind option_bind].
  destruct (Z.eqb_spec s 0); [by left | ]. destruct (Z.ltb_spec e s); [by left | ].
  right. exists s, e. unfold is_u16 in *. split_and!; done || lia.
Qed.

Lemma on_mtu_fine b op req : wf b -> bytes req -> is_u8 op -> fine b (on_mtu b op req).
Proof.
  intros Hwf Hr Ho. destruct (mtu_of_wf b Hwf) as [_ Hm]. unfold on_mtu.
  destruct (Z.ltb_spec (Z.of_nat (length req)) 3); [by apply fine_error | ].
  destruct (get_le16_ok req 1) as (c & Ec & Hc); [done | lia | lia | ].
  rewrite Ec. cbn [mbind option_bind].
  destruct (Z.ltb_spec c ATT_MTU_DEFAULT); [by apply fine_error | ].
  apply fine_reply; [ | cbn; lia | cbn [app]; unfold put_le16; byte_list].
  destruct Hwf as (_ & Hrest). split; [ | done]. cbn. unfold ATT_MTU_DEFAULT, ATT_MTU_MAX in *.
  destruct (Z.ltb_spec c 128); lia.
Qed.

Lemma on_find_info_fine b op req : wf b -> bytes req -> is_u8 op -> fine b (on_find_info b op req).
Proof.
  intros Hwf Hr Ho. destruct (mtu_of_wf b Hwf) as [_ Hm]. unfold on_find_info.
  destruct (att_range_ok req Hr) as [->|(s & e & -> & _)]; cbn [mbind option_bind];
    [by apply fine_error | ].
  destruct (HDL_MAX <? s); [by apply fine_error | ].
  pose proof (find_info_fits (mtu_of b) 0 [] (handles s (att_last e)) ltac:(cbn; lia)
    ltac:(constructor)) as [Hl Hb].
  destruct (find_info _ _ _ _) as [fmt out]. cbn in Hl, Hb.
  destruct (fmt =? 0); [by apply fine_error | ].
  apply fine_reply; [done | cbn; lia | ].
  constructor; [done | constructor; [apply u8_range | done]].
Qed.

Lemma on_find_by_type_fine b op req :
  wf b -> bytes req -> is_u8 op -> fine b (on_find_by_type b op req).
Proof.
  intros Hwf Hr Ho. destruct (mtu_of_wf b Hwf) as [_ Hm]. unfold on_find_by_type.
  destruct (Z.ltb_spec (Z.of_nat (length req)) 7); [by apply fine_error | ].
  destruct (att_range_ok req Hr) as [->|(s & e & -> & _)]; cbn [mbind option_bind];
    [by apply fine_error | ].
  destruct (get_le16_ok req 5) as (t & -> & _); [done | lia | lia | ]. cbn [mbind option_bind].
  destruct (HDL_MAX <? s); [by apply fine_error | ].
  pose proof (find_by_type_fits b (mtu_of b) t (drop 7 req) [] (handles s (att_last e))
    ltac:(cbn; lia) ltac:(constructor)) as [Hl Hb].
  destruct (find_by_type _ _ _ _ _ _) as [|x out]; [by apply fine_error | ].
  apply fine_reply; [done | cbn in *; lia | ]. constructor; [done | done].
Qed.

Lemma on_read_by_type_fine b op req :
  wf b -> bytes req -> is_u8 op -> fine b (on_read_by_type b op req).
Proof.
  intros Hwf Hr Ho. destruct (mtu_of_wf b Hwf) as [_ Hm]. unfold on_read_by_type.
  destruct (Z.ltb_spec (Z.of_nat (length req)) 7); cbn [orb]; [by apply fine_error | ].
  destruct (negb _ && negb _); [by apply fine_error | ].
  destruct (att_range_ok req Hr) as [->|(s & e & -> & _)]; cbn [mbind option_bind];
    [by apply fine_error | ].
  destruct (get_le16_ok (drop 5 req) 0) as (t & -> & _);
    [by apply Forall_drop | lia | rewrite length_drop; lia | ].
  cbn [mbind option_bind].
  destruct (_ && negb _); [by apply fine_error | ].
  destruct (HDL_MAX <? s); [by apply fine_error | ].
  pose proof (read_by_type_fits b (mtu_of b) (op =? ATT_OP_READ_BY_GROUP_REQ) (drop 5 req) (-1) []
    (handles s (att_last e)) Hwf ltac:(cbn; lia) ltac:(constructor)) as [Hl Hb].
  destruct (read_by_type _ _ _ _ _ _ _) as [pl out]. cbn in Hl, Hb.
  destruct (pl <? 0); [by apply fine_error | ].
  apply fine_reply; [done | cbn; lia | ].
  constructor; [destruct (_ =? _); done | constructor; [apply u8_range | done]].
Qed.

Lemma on_read_fine b op req : wf b -> bytes req -> is_u8 op -> fine b (on_read b op req).
Proof.
  intros Hwf Hr Ho. destruct (mtu_of_wf b Hwf) as [_ Hm]. unfold on_read.
  set (blob := op =? ATT_OP_READ_BLOB_REQ).
  destruct (Z.ltb_spec (Z.of_nat (length req)) (if blob then 5 else 3)); [by apply fine_error | ].
  destruct (get_le16_ok req 1) as (hdl & -> & _); [done | lia | destruct blob; lia | ].
  cbn [mbind option_bind].
  assert (Hoff : exists off, (if blob then get_le16 req 3 else Some 0) = Some off /\ is_u16 off).
  { destruct blob; [apply get_le16_ok; done || lia | exists 0; split; [done | mlia]]. }
  destruct Hoff as (off & -> & Hoff). cbn [mbind option_bind].
  destruct (att_value b hdl BLE_VALUE_MAX) as [v|] eqn:Ev; [ | by apply fine_error].
  destruct (att_value_ok _ _ _ _ Hwf Ev) as (Hv & Hl & _).
  destruct (u16 _ <? off); [by apply fine_error | ].
  apply fine_reply; [done | | ].
  - cbn [app length]. unfold slice. rewrite length_take, length_drop.
    destruct (Z.ltb_spec (mtu_of b - 1) (Z.of_nat (length v) - off)); lia.
  - constructor; [destruct blob; done | by apply bytes_slice].
Qed.

Lemma att_write_ok b hdl v : wf b -> bytes v ->
  exists code b', att_write b hdl v = Some (code, b') /\ wf b' /\ mtu b' = mtu b /\ is_u8 code /\
    (code <> 0 -> b' = b).
Proof.
  intros Hwf Hv. pose proof Hwf as (Hm & Hc & Hl & Hb & Hn). unfold att_write.
  destruct (hdl =? HDL_CUS_CCCD).
  - destruct (Z.eqb_spec (Z.of_nat (length v)) 2); cbn [negb].
    + destruct (get_le16_ok v 0) as (c & -> & Hcc); [done | lia | lia | ]. cbn [mbind option_bind].
      eexists 0, _. split; [done | ]. unfold wf. cbn. split_and!; try done; try lia; apply Hcc.
    + exists ATT_ECODE_INVAL_ATTR_VALUE_LEN, b. by split_and!.
  - destruct (hdl =? HDL_CUS_VAL).
    + unfold BLE_VALUE_MAX in *. destruct (Z.ltb_spec 64 (Z.of_nat (length v))).
      { exists ATT_ECODE_INVAL_ATTR_VALUE_LEN, b. by split_and!. }
      assert (Hw : exists value', (if 0 <? Z.of_nat (length v) then blit (value b) 0 v
          else Some (value b)) = Some value' /\ length value' = 64%nat /\ bytes value').
      { destruct (0 <? _); [ | by exists (value b)].
        destruct (blit_Some (value b) 0 v) as (x & E & Hx & ->); [lia | lia | ].
        eexists. split; [exact E | ]. split; [lia | ].
        apply bytes_app; [by apply Forall_take | apply bytes_app; [done | by apply Forall_drop]]. }
      destruct Hw as (value' & -> & Hl' & Hb'). cbn [mbind option_bind].
      eexists 0, _. split; [done | ]. unfold wf. cbn. rewrite u16_id by mlia.
      unfold BLE_VALUE_MAX. split_and!; try done; try lia; apply Hc.
    + destruct (_ || _); eexists _, b; by split_and!.
Qed.

Lemma on_write_fine b op req : wf b -> bytes req -> is_u8 op -> fine b (on_write b op req).
Proof.
  intros Hwf Hr Ho. destruct (mtu_of_wf b Hwf) as [_ Hm]. unfold on_write.
  assert (Hnil : forall b', wf b' -> fine b (Some (b', [])))
    by (intros; apply fine_reply; [done | cbn; lia | constructor]).
  destruct (Z.ltb_spec (Z.of_nat (length req)) 3).
  { destruct (_ =? _); [by apply Hnil | by apply fine_error]. }
  destruct (get_le16_ok req 1) as (hdl & -> & _); [done | lia | lia | ]. cbn [mbind option_bind].
  destruct (att_write_ok b hdl (drop 3 req)) as (code & b' & -> & Hwf' & Hmtu & Hcode & Hsame);
    [done | by apply Forall_drop | ]. cbn [mbind option_bind].
  destruct (_ =? _); [by apply Hnil | ]. destruct (Z.eqb_spec code 0); cbn [negb].
  - apply fine_reply; [done | cbn; lia | cbn [app]; unfold put_le16; byte_list].
  - rewrite (Hsame n). apply fine_error; [done | done | apply u8_range].
Qed.

Lemma att_pdu_fine b req : wf b -> bytes req -> fine b (att_on_pdu b req).
Proof.
  intros Hwf Hr. destruct (mtu_of_wf b Hwf) as [_ Hm]. destruct req as [|op req]; cbn [att_on_pdu].
  { apply fine_reply; [done | cbn; lia | constructor]. }
  pose proof (Forall_inv Hr) as Ho.
  destruct (op =? ATT_OP_MTU_REQ); [by apply on_mtu_fine | ].
  destruct (op =? ATT_OP_FIND_INFO_REQ); [by apply on_find_info_fine | ].
  destruct (op =? ATT_OP_FIND_BY_TYPE_REQ); [by apply on_find_by_type_fine | ].
  destruct (_ || _); [by apply on_read_by_type_fine | ].
  destruct (_ || _); [by apply on_read_fine | ].
  destruct (_ || _); [by apply on_write_fine | ].
  destruct (Z.leb_spec 3 (Z.of_nat (length (op :: req)))).
  - destruct (get_le16_ok (op :: req) 1) as (hdl & -> & _); [done | lia | lia | ].
    by apply fine_error.
  - by apply fine_error.
Qed.

(* ------------------------------------------------------------------ *)
(** ** The kind of the answer *)

(** An Error Response naming the request, or the response opcode that goes
    with it. *)
Definition answers (op : Z) (rsp : list Z) : Prop :=
  (exists hdl code, rsp = att_error op hdl code) \/ (exists rest, rsp = op + 1 :: rest).

(** The requests that may change the server. *)
Definition mutating (op : Z) : Prop :=
  op = ATT_OP_MTU_REQ \/ op = ATT_OP_WRITE_REQ \/ op = ATT_OP_WRITE_CMD.

Definition replies (b : att) (op : Z) (r : option (att * list Z)) : Prop :=
  forall b' rsp, r = Some (b', rsp) ->
    (if op =? ATT_OP_WRITE_CMD then rsp = [] else answers op rsp) /\ (b' <> b -> mutating op).

Lemma answers_error op hdl code : answers op (att_error op hdl code).
Proof. left. eauto. Qed.

Lemma answers_reply op x rest : x = op + 1 -> answers op (x :: rest).
Proof. intros ->. right. eauto. Qed.

Create HintDb att.
#[export] Hint Resolve answers_error answers_reply : att.

(** Split every test of a handler and close the branches. *)
Ltac handler :=
  repeat match goal with
  | |- context [if ?c then _ else _] => destruct c eqn:?
  | H : (if ?c then _ else _) = Some _ |- _ => destruct c eqn:?
  | H : (_ ← ?e; _) = Some _ |- _ => destruct e eqn:?; cbn [mbind option_bind] in H; [ | done]
  | H : match ?e with _ => _ end = Some _ |- _ => destruct e eqn:?
  | H : Some _ = Some _ |- _ => injection H as <- <-
  end; try discriminate; cbn [app].

Lemma att_replies b op req : replies b op (att_on_pdu b (op :: req)).
Proof.
  assert (Hm : forall o, (o =? ATT_OP_WRITE_CMD) = false -> o <> ATT_OP_WRITE_CMD)
    by (intros o; apply Z.eqb_neq).
  intros b' rsp E. unfold att_on_pdu in E.
  destruct (Z.eqb_spec op ATT_OP_MTU_REQ) as [->|].
  { unfold on_mtu in E. handler; (split; [auto with att | by left]). }
  destruct (Z.eqb_spec op ATT_OP_FIND_INFO_REQ) as [->|].
  { unfold on_find_info in E. handler; (split; [auto with att | done]). }
  destruct (Z.eqb_spec op ATT_OP_FIND_BY_TYPE_REQ) as [->|].
  { unfold on_find_by_type in E. handler; (split; [try case_match; cbn [app]; auto with att | done]). }
  destruct (Z.eqb_spec op ATT_OP_READ_BY_TYPE_REQ) as [->|]; cbn [orb] in E.
  { unfold on_read_by_type in E. handler; (split; [auto with att | done]). }
  destruct (Z.eqb_spec op ATT_OP_READ_BY_GROUP_REQ) as [->|]; cbn [orb] in E.
  { unfold on_read_by_type in E. handler; (split; [auto with att | done]). }
  destruct (Z.eqb_spec op ATT_OP_READ_REQ) as [->|]; cbn [orb] in E.
  { unfold on_read in E. handler; (split; [auto with att | done]). }
  destruct (Z.eqb_spec op ATT_OP_READ_BLOB_REQ) as [->|]; cbn [orb] in E.
  { unfold on_read in E. handler; (split; [auto with att | done]). }
  destruct (Z.eqb_spec op ATT_OP_WRITE_REQ) as [->|]; cbn [orb] in E.
  { unfold on_write in E. handler; (split; [auto with att | right; by left]). }
  destruct (Z.eqb_spec op ATT_OP_WRITE_CMD) as [->|]; cbn [orb] in E.
  { unfold on_write in E. handler; (split; [done | right; by right]). }
  handler; (split; [auto with att | done]).
Qed.

(** C8: the ATT server answers every request from every state between
    requests: no byte outside the request is read, the state stays well formed
    (MTU between 23 and 128, a value of at most 64 bytes), and the answer fits
    the MTU in force, so the 128-byte response buffer; a Write Command is
    never answered, any other request is answered by its response opcode or by
    an Error Response that names it; only the MTU exchange and the two writes
    change the state. *)
Theorem att_pdu_safe b op req :
  wf b -> bytes (op :: req) ->
  exists b' rsp, att_on_pdu b (op :: req) = Some (b', rsp) /\ wf b' /\
    Z.of_nat (length rsp) <= mtu b /\ bytes rsp /\
    (if op =? ATT_OP_WRITE_CMD then rsp = [] else answers op rsp) /\
    (b' <> b -> mutating op).
Proof.
  intros Hwf Hr. destruct (att_pdu_fine b (op :: req) Hwf Hr) as (b' & rsp & E & Hwf' & Hl & Hb).
  rewrite (proj1 (mtu_of_wf b Hwf)) in Hl.
  destruct (att_replies b op req b' rsp E). exists b', rsp. by split_and!.
Qed.

(** The state after [accept]: the value array of a fresh server. *)
Definition att0 : att := AttSt ATT_MTU_DEFAULT 0 (replicate 64 0) 0.

Lemma att0_wf : wf att0.
Proof. split_and!; try done; [vm_compute; done.. | by apply Forall_replicate]. Qed.

(** A Find Information request over all handles: with the default MTU the
    five two-byte pairs that fit, 1 to 5. *)
Lemma att_pdu_safe_witness :
  att_on_pdu att0 [4; 1; 0; 255; 255] =
    Some (att0, [5; 1; 1; 0; 0; 0x28; 2; 0; 3; 0x28; 3; 0; 0; 0x2a; 4; 0; 3; 0x28; 5; 0; 1; 0x2a]) /\
  exists b' rsp, att_on_pdu att0 [4; 1; 0; 255; 255] = Some (b', rsp) /\ wf b' /\
    Z.of_nat (length rsp) <= 23 /\ bytes rsp /\ answers 4 rsp /\ (b' <> att0 -> mutating 4).
Proof.
  split; [vm_compute; reflexivity | ].
  apply (att_pdu_safe att0 4 [1; 0; 255; 255] att0_wf). by byte_list.
Defined.

(* ------------------------------------------------------------------ *)
(** ** A GATT client *)

(** The sub-procedures by which a client walks a server, each request built
    from the answer to the one before (a client of the specification, not
    code of the program). *)
Definition ask (b : att) (req : list Z) : list Z :=
  match att_on_pdu b req with Some (_, rsp) => rsp | None => [] end.

(** Records of [n] bytes. *)
Fixpoint chunks (fuel n : nat) (l : list Z) : list (list Z) :=
  match fuel, l with
  | S fuel', _ :: _ => take n l :: chunks fuel' n (drop n l)
  | _, _ => []
  end.

Definition le (l : list Z) (i : Z) : Z := default 0 (get_le16 l i).

(** Discover All Primary Services: first handle, last handle, UUID. *)
Fixpoint discover_services (fuel : nat) (b : att) (start : Z) : list (Z * Z * list Z) :=
  match fuel with
  | O => []
  | S fuel' =>
      match ask b ([ATT_OP_READ_BY_GROUP_REQ] ++ put_le16 start ++ put_le16 0xffff ++ put_le16 0x2800) with
      | op :: n :: data =>
          if op =? ATT_OP_READ_BY_GROUP_RSP then
            let svcs := map (fun e => (le e 0, le e 2, drop 4 e)) (chunks 64 (Z.to_nat n) data) in
            svcs ++ discover_services fuel' b (foldr (fun s _ => s.1.2) 0 (rev svcs) + 1)
          else []
      | _ => []
      end
  end.

(** Discover All Characteristics of a service: declaration handle,
    properties, value handle, UUID. *)
Fixpoint discover_chars (fuel : nat) (b : att) (start end_ : Z) : list (Z * Z * Z * list Z) :=
  match fuel with
  | O => []
  | S fuel' =>
      match ask b ([ATT_OP_READ_BY_TYPE_REQ] ++ put_le16 start ++ put_le16 end_ ++ put_le16 0x2803) with
      | op :: n :: data =>
          if op =? ATT_OP_READ_BY_TYPE_RSP then
            let chrs := map (fun e => (le e 0, ix e 2, le e 3, drop 5 e)) (chunks 64 (Z.to_nat n) data) in
            chrs ++ discover_chars fuel' b (foldr (fun c _ => c.1.1.1) 0 (rev chrs) + 1) end_
          else []
      | _ => []
      end
  end.

(** Find Information over all handles: handle and type. *)
Fixpoint discover_attrs (fuel : nat) (b : att) (start : Z) : list (Z * list Z) :=
  match fuel with
  | O => []
  | S fuel' =>
      match ask b ([ATT_OP_FIND_INFO_REQ] ++ put_le16 start ++ put_le16 0xffff) with
      | op :: fmt :: data =>
          if op =? ATT_OP_FIND_INFO_RSP then
            let prs := map (fun e => (le e 0, drop 2 e))
              (chunks 64 (if fmt =? 1 then 4 else 18) data) in
            prs ++ discover_attrs fuel' b (foldr (fun p _ => p.1) 0 (rev prs) + 1)
          else []
      | _ => []
      end
  end.

(** The attribute table as the code means it: services with their ranges,
    characteristics with their properties, and the types of all handles. *)
Definition gatt_services : list (Z * Z * list Z) :=
  [(1, 5, [0x00; 0x18]); (6, 6, [0x01; 0x18]); (7, 10, uuid_svc)].
Definition gatt_chars : list (Z * Z * Z * list Z) :=
  [(2, 0x02, 3, [0x00; 0x2a]); (4, 0x02, 5, [0x01; 0x2a]); (8, 0x1e, 9, uuid_chr)].

(** Every MTU the server can have. *)
Lemma mtu_cases (P : Z -> Prop) :
  Forall P (seqZ 23 106) -> forall m, 23 <= m <= 128 -> P m.
Proof. intros HP m Hm. rewrite Forall_forall in HP. apply HP, elem_of_seqZ. lia. Qed.

Lemma discover_all m c v n :
  23 <= m <= 128 ->
  discover_services 12 (AttSt m c v n) 1 = gatt_services /\
  discover_chars 12 (AttSt m c v n) 1 0xffff = gatt_chars /\
  discover_attrs 12 (AttSt m c v n) 1 = map (fun h => (h, att_type_get h)) (handles 1 10).
Proof.
  revert m. apply mtu_cases. let l := eval vm_compute in (seqZ 23 106) in change (seqZ 23 106) with l.
  repeat (apply Forall_cons; split; [vm_compute; split_and!; reflexivity | ]). apply Forall_nil_2.
Qed.

(** C32: whatever MTU was negotiated and whatever values were written, a
    client that discovers the server by Read By Group Type, Read By Type and
    Find Information, continuing each request after the last handle of the
    answer before, finds exactly the three services with their handle ranges,
    the three characteristics with their properties and value handles, and the
    ten attributes with their types. *)
Theorem att_discovery b :
  wf b ->
  discover_services 12 b 1 = gatt_services /\
  discover_chars 12 b 1 0xffff = gatt_chars /\
  discover_attrs 12 b 1 = map (fun h => (h, att_type_get h)) (handles 1 10).
Proof. destruct b as [m c v n]. intros (Hm & _). by apply discover_all. Qed.

Lemma att_discovery_witness :
  discover_services 12 att0 1 = gatt_services /\ discover_chars 12 att0 1 0xffff = gatt_chars /\
  discover_attrs 12 att0 1 = map (fun h => (h, att_type_get h)) (handles 1 10).
Proof. apply (att_discovery att0), att0_wf. Defined.

(** Read Long: Read, then Read Blob while the answers are full. *)
Fixpoint read_blobs (fuel : nat) (b : att) (hdl off : Z) : list Z :=
  match fuel with
  | O => []
  | S fuel' =>
      match ask b ([ATT_OP_READ_BLOB_REQ] ++ put_le16 hdl ++ put_le16 off) with
      | op :: data =>
          if op =? ATT_OP_READ_BLOB_RSP then
            let n := Z.of_nat (length data) in
            data ++ (if n =? mtu b - 1 then read_blobs fuel' b hdl (off + n) else [])
          else []
      | [] => []
      end
  end.

Definition read_long (b : att) (hdl : Z) : list Z :=
  match ask b ([ATT_OP_READ_REQ] ++ put_le16 hdl) with
  | op :: data =>
      if op =? ATT_OP_READ_RSP then
        let n := Z.of_nat (length data) in
        data ++ (if n =? mtu b - 1 then read_blobs 4 b hdl n else [])
      else []
  | [] => []
  end.

Lemma get_le16_at k v l i : is_u16 v -> Z.of_nat (length k) = i ->
  get_le16 (k ++ put_le16 v ++ l) i = Some v.
Proof.
  intros Hv <-. rewrite <- (put_get_le16 v l Hv). unfold get_le16, rd.
  rewrite !(proj2 (Z.ltb_ge _ _)) by lia. rewrite !(lookup_app_r k) by lia.
  replace (Z.to_nat (Z.of_nat (length k) + 1) - length k)%nat with (Z.to_nat (0 + 1)) by lia.
  replace (Z.to_nat (Z.of_nat (length k)) - length k)%nat with (Z.to_nat 0) by lia. done.
Qed.

Lemma ask_read b hdl v : wf b -> is_u16 hdl -> att_value b hdl 64 = Some v ->
  ask b ([ATT_OP_READ_REQ] ++ put_le16 hdl) =
    ATT_OP_READ_RSP :: slice v 0 (Z.min (mtu b - 1) (Z.of_nat (length v))).
Proof.
  intros Hwf Hh Hv. destruct (mtu_of_wf b Hwf) as [Hmtu Hm].
  unfold ask. change (att_on_pdu b ?l) with (on_read b ATT_OP_READ_REQ l). unfold on_read.
  change (ATT_OP_READ_REQ =? ATT_OP_READ_BLOB_REQ) with false. change (Z.of_nat (length _) <? _) with false. cbv iota.
  rewrite <- (app_nil_r (put_le16 hdl)), (get_le16_at [_] hdl [] 1) by done.
  cbn [mbind option_bind]. change BLE_VALUE_MAX with 64. rewrite Hv.
  rewrite (proj2 (Z.ltb_ge _ _)) by (pose proof (u16_range (Z.of_nat (length v))); mlia).
  rewrite Hmtu, Z.sub_0_r. cbn [app]. do 2 f_equal.
  destruct (Z.ltb_spec (mtu b - 1) (Z.of_nat (length v))); lia.
Qed.

Lemma ask_blob b hdl off v : wf b -> is_u16 hdl -> att_value b hdl 64 = Some v ->
  0 <= off <= Z.of_nat (length v) ->
  ask b ([ATT_OP_READ_BLOB_REQ] ++ put_le16 hdl ++ put_le16 off) =
    ATT_OP_READ_BLOB_RSP :: slice v off (Z.min (mtu b - 1) (Z.of_nat (length v) - off)).
Proof.
  intros Hwf Hh Hv Hoff. destruct (mtu_of_wf b Hwf) as [Hmtu Hm].
  destruct (att_value_ok _ _ _ _ Hwf Hv) as (_ & Hl & _).
  unfold ask. change (att_on_pdu b ?l) with (on_read b ATT_OP_READ_BLOB_REQ l). unfold on_read.
  change (ATT_OP_READ_BLOB_REQ =? ATT_OP_READ_BLOB_REQ) with true. change (Z.of_nat (length _) <? _) with false. cbv iota.
  rewrite (get_le16_at [_] hdl _ 1) by done. cbn [mbind option_bind].
  rewrite <- (app_nil_r (put_le16 off)), app_assoc, (get_le16_at _ off [] 3) by (done || mlia).
  cbn [mbind option_bind]. change BLE_VALUE_MAX with 64. rewrite Hv, u16_id by mlia.
  rewrite (proj2 (Z.ltb_ge _ _)) by lia. rewrite Hmtu. cbn [app]. do 2 f_equal.
  destruct (Z.ltb_spec (mtu b - 1) (Z.of_nat (length v) - off)); lia.
Qed.

Lemma slice_split {A} (l : list A) i n m :
  0 <= i -> 0 <= n -> 0 <= m -> slice l i n ++ slice l (i + n) m = slice l i (n + m).
Proof.
  intros. unfold slice. rewrite !Z2Nat.inj_add, <- drop_drop by lia.
  apply list_eq. intros k. rewrite <- (take_drop (Z.to_nat n) (drop (Z.to_nat i) l)) at 3.
  rewrite take_take_drop. by rewrite take_drop.
Qed.

Lemma slice_all {A} (l : list A) : slice l 0 (Z.of_nat (length l)) = l.
Proof. unfold slice. rewrite Nat2Z.id. apply firstn_all. Qed.

Lemma read_blobs_ok fuel b hdl off v :
  wf b -> is_u16 hdl -> att_value b hdl 64 = Some v -> 0 <= off <= Z.of_nat (length v) ->
  Z.of_nat (length v) - off < Z.of_nat fuel * (mtu b - 1) ->
  read_blobs fuel b hdl off = slice v off (Z.of_nat (length v) - off).
Proof.
  intros Hwf Hh Hv. destruct (mtu_of_wf b Hwf) as [Hmtu Hm]. rewrite Hmtu in Hm.
  revert off. induction fuel as [|fuel IH]; intros off Hoff Hf; [lia | ].
  cbn [read_blobs]. rewrite (ask_blob b hdl off v) by done. rewrite Z.eqb_refl.
  set (n := Z.min _ _). rewrite length_slice by lia.
  destruct (Z.eqb_spec n (mtu b - 1)) as [En|En].
  - rewrite IH by lia. rewrite slice_split by lia. f_equal. lia.
  - rewrite app_nil_r. f_equal. lia.
Qed.

Lemma read_long_ok b hdl v :
  wf b -> is_u16 hdl -> att_value b hdl 64 = Some v -> read_long b hdl = v.
Proof.
  intros Hwf Hh Hv. destruct (mtu_of_wf b Hwf) as [Hmtu Hm]. rewrite Hmtu in Hm.
  destruct (att_value_ok _ _ _ _ Hwf Hv) as (_ & Hl & _).
  unfold read_long. rewrite (ask_read b hdl v) by done. rewrite Z.eqb_refl.
  set (n := Z.min _ _). rewrite length_slice by lia.
  transitivity (slice v 0 (Z.of_nat (length v))); [ | apply slice_all].
  destruct (Z.eqb_spec n (mtu b - 1)) as [En|En].
  - rewrite (read_blobs_ok 4 b hdl n v) by (done || lia).
    rewrite (slice_split v 0 n) by lia. f_equal. lia.
  - rewrite app_nil_r. f_equal. lia.
Qed.

(** A write request of a whole value. *)
Definition write_req (op hdl : Z) (v : list Z) : list Z := [op] ++ put_le16 hdl ++ v.

Lemma on_write_req b op hdl v code b' :
  op = ATT_OP_WRITE_REQ \/ op = ATT_OP_WRITE_CMD -> is_u16 hdl -> att_write b hdl v = Some (code, b') ->
  att_on_pdu b (write_req op hdl v) =
    Some (b', if op =? ATT_OP_WRITE_CMD then []
              else if negb (code =? 0) then att_error op hdl (u8 code) else [ATT_OP_WRITE_RSP]).
Proof.
  intros Hop Hh Hw.
  assert (E : att_on_pdu b (write_req op hdl v) = on_write b op (write_req op hdl v))
    by (by destruct Hop as [-> | ->]).
  rewrite E. unfold on_write, write_req. rewrite (proj2 (Z.ltb_ge _ _)) by (rewrite !length_app; cbn; lia).
  rewrite (get_le16_at [op] hdl v 1) by done. cbn [mbind option_bind].
  change (drop 3 _) with v. rewrite Hw. done.
Qed.

Lemma att_write_value b v : wf b -> Z.of_nat (length v) <= 64 -> bytes v ->
  exists value', att_write b HDL_CUS_VAL v =
      Some (0, AttSt (mtu b) (cccd b) value' (Z.of_nat (length v))) /\
    slice value' 0 (Z.of_nat (length v)) = v.
Proof.
  intros (_ & _ & Hl & _) Hn Hv. unfold att_write. change (HDL_CUS_VAL =? _) with false at 1. cbv iota.
  rewrite Z.eqb_refl, (proj2 (Z.ltb_ge _ _)), u16_id by (unfold BLE_VALUE_MAX; mlia).
  destruct (Z.ltb_spec 0 (Z.of_nat (length v))).
  - destruct (blit_Some (value b) 0 v) as (x & -> & _ & ->); [lia | lia | ].
    eexists. split; [done | ]. unfold slice. rewrite !Z2Nat.inj_0, take_0, drop_0. cbn [app].
    rewrite Nat2Z.id. apply take_app_length.
  - destruct v; [ | cbn in *; lia]. by eexists.
Qed.

Lemma att_value_other b b' h max : h <> HDL_CUS_VAL -> cccd b' = cccd b ->
  att_value b' h max = att_value b h max.
Proof.
  intros Hh Hc. unfold att_value. rewrite Hc. by rewrite (proj2 (Z.eqb_neq h HDL_CUS_VAL) Hh).
Qed.

Lemma att_value_not_cccd b c h max : h <> HDL_CUS_CCCD ->
  att_value (AttSt (mtu b) c (value b) (value_len b)) h max = att_value b h max.
Proof. intros Hh. unfold att_value. cbn [value value_len]. by rewrite (proj2 (Z.eqb_neq h HDL_CUS_CCCD) Hh). Qed.

Lemma put_le16_pair x y : 0 <= x < 256 -> 0 <= y < 256 -> put_le16 (x + 256 * y) = [x; y].
Proof. intros Hx Hy. unfold put_le16, u8. rewrite Z.shiftr_div_pow2 by lia. change (2 ^ 8) with 256. f_equal; [ | f_equal]; Z.div_mod_to_equations; lia. Qed.

(** The two bytes of the CCCD are its value, low byte first. *)
Lemma att_write_cccd b x y : 0 <= x < 256 -> 0 <= y < 256 ->
  att_write b HDL_CUS_CCCD [x; y] = Some (0, AttSt (mtu b) (x + 256 * y) (value b) (value_len b)).
Proof.
  intros Hx Hy. unfold att_write. cbn [Z.eqb length negb]. rewrite <- (put_le16_pair x y Hx Hy).
  change (put_le16 (x + 256 * y)) with ([] ++ put_le16 (x + 256 * y)).
  rewrite <- (app_nil_r (put_le16 (x + 256 * y))), (get_le16_at [] (x + 256 * y) [] 0); [done | unfold is_u16; lia | done].
Qed.

(** C33: a value of up to 64 bytes written to the custom characteristic, by
    Write Request or Write Command, is what a client then reads back, by a
    Read and as many Read Blobs as the MTU asks for; no other attribute, nor
    the MTU or the notify flag, changes; a longer value is refused and leaves
    the server as it was.  Two bytes written to the CCCD are read back too and
    are its value, low byte first, and nothing else changes; another length is
    refused.  A write to any other handle is refused and changes nothing. *)
Theorem att_write_reads_back b op v :
  wf b -> bytes v -> op = ATT_OP_WRITE_REQ \/ op = ATT_OP_WRITE_CMD ->
  (Z.of_nat (length v) <= 64 ->
    exists b', att_on_pdu b (write_req op HDL_CUS_VAL v) =
        Some (b', if op =? ATT_OP_WRITE_CMD then [] else [ATT_OP_WRITE_RSP]) /\
      read_long b' HDL_CUS_VAL = v /\ mtu b' = mtu b /\ cccd b' = cccd b /\
      (forall h max, h <> HDL_CUS_VAL -> att_value b' h max = att_value b h max)) /\
  (64 < Z.of_nat (length v) ->
    att_on_pdu b (write_req op HDL_CUS_VAL v) =
      Some (b, if op =? ATT_OP_WRITE_CMD then []
               else att_error op HDL_CUS_VAL ATT_ECODE_INVAL_ATTR_VALUE_LEN)) /\
  (forall x y, v = [x; y] ->
    exists b', att_on_pdu b (write_req op HDL_CUS_CCCD v) =
        Some (b', if op =? ATT_OP_WRITE_CMD then [] else [ATT_OP_WRITE_RSP]) /\
      read_long b' HDL_CUS_CCCD = v /\ cccd b' = x + 256 * y /\ mtu b' = mtu b /\
      (forall h max, h <> HDL_CUS_CCCD -> att_value b' h max = att_value b h max)) /\
  (length v <> 2%nat ->
    att_on_pdu b (write_req op HDL_CUS_CCCD v) =
      Some (b, if op =? ATT_OP_WRITE_CMD then []
               else att_error op HDL_CUS_CCCD ATT_ECODE_INVAL_ATTR_VALUE_LEN)) /\
  (forall h, is_u16 h -> h <> HDL_CUS_VAL -> h <> HDL_CUS_CCCD ->
    att_on_pdu b (write_req op h v) =
      Some (b, if op =? ATT_OP_WRITE_CMD then []
               else att_error op h (if bool_decide (1 <= h <= HDL_MAX)
                                    then ATT_ECODE_WRITE_NOT_PERM else ATT_ECODE_INVALID_HANDLE))).
Proof.
  intros Hwf Hv Hop. split_and!.
  - intros Hn. destruct (att_write_value b v) as (value' & Ew & Es); [done.. | ].
    pose proof (on_write_req b op HDL_CUS_VAL v _ _ Hop ltac:(done) Ew) as E. eexists. split; [exact E | ].
    destruct (att_write_ok b HDL_CUS_VAL v Hwf Hv) as (code & b' & Ew' & Hwf' & _).
    rewrite Ew in Ew'. injection Ew' as <- <-.
    split_and!; [ | done | done | intros; by apply att_value_other].
    apply read_long_ok; [done | done | ]. unfold att_value. cbn [value value_len Z.eqb].
    rewrite Z.eqb_refl.
    change (if HDL_CUS_VAL =? HDL_GAP_SVC then _ else _) with (Some (slice value' 0 (Z.of_nat (length v)))).
    cbn [mbind option_bind]. rewrite Es, (proj2 (Z.ltb_ge _ _)) by lia. done.
  - intros Hn. rewrite (on_write_req b op HDL_CUS_VAL v ATT_ECODE_INVAL_ATTR_VALUE_LEN b Hop); [done | done | ].
    unfold att_write. change (HDL_CUS_VAL =? HDL_CUS_CCCD) with false. cbv iota.
    rewrite Z.eqb_refl, (proj2 (Z.ltb_lt _ _)) by (unfold BLE_VALUE_MAX; lia). done.
  - intros x y ->. pose proof (proj1 (Forall_cons _ _ _) Hv) as [Hx Hv'].
    pose proof (proj1 (Forall_cons _ _ _) Hv') as [Hy _].
    pose proof (on_write_req b op HDL_CUS_CCCD [x; y] _ _ Hop ltac:(done) (att_write_cccd b x y Hx Hy)) as E.
    destruct (att_write_ok b HDL_CUS_CCCD [x; y] Hwf Hv) as (code & b' & Ew & Hwf' & _).
    rewrite (att_write_cccd b x y Hx Hy) in Ew. injection Ew as <- <-.
    eexists. split; [exact E | ]. split_and!; [ | done | done | intros; by apply att_value_not_cccd].
    apply read_long_ok; [done | done | ]. unfold att_value. cbn [cccd Z.eqb HDL_CUS_CCCD].
    by rewrite put_le16_pair.
  - intros Hn. rewrite (on_write_req b op HDL_CUS_CCCD v ATT_ECODE_INVAL_ATTR_VALUE_LEN b Hop); [done | done | ].
    unfold att_write. rewrite Z.eqb_refl. destruct (Z.eqb_spec (Z.of_nat (length v)) 2); [lia | done].
  - intros h Hh H9 H10. set (code := if bool_decide _ then _ else _).
    assert (Ew : att_write b h v = Some (code, b)).
    { unfold att_write, code. rewrite (proj2 (Z.eqb_neq _ _) H9), (proj2 (Z.eqb_neq _ _) H10).
      unfold HDL_GAP_SVC, HDL_MAX. case_bool_decide.
      - rewrite (proj2 (Z.ltb_ge _ _)), (proj2 (Z.ltb_ge _ _)) by lia. done.
      - destruct (Z.ltb_spec h 1); [done | ]. rewrite (proj2 (Z.ltb_lt _ _)) by lia. done. }
    rewrite (on_write_req b op h v code b Hop Hh Ew). unfold code. by case_bool_decide.
Qed.

(** A 40-byte value over the default MTU: a Read of 22 bytes and a Read Blob
    of 18. *)
Lemma att_write_reads_back_witness :
  exists b', att_on_pdu att0 (write_req ATT_OP_WRITE_REQ HDL_CUS_VAL (seqZ 1 40)) =
      Some (b', [ATT_OP_WRITE_RSP]) /\
    read_long b' HDL_CUS_VAL = seqZ 1 40.
Proof.
  assert (Hb : bytes (seqZ 1 40)) by (by vm_compute; byte_list).
  destruct (att_write_reads_back att0 ATT_OP_WRITE_REQ (seqZ 1 40) att0_wf Hb (or_introl eq_refl))
    as [H _].
  destruct H as (b' & E & R & _); [vm_compute; congruence | ]. exists b'. split; [exact E | exact R].
Defined.
