(* ===== verification/Ble.v ===== *)
(** Ble: the peripheral of package/tester1/blegatt.cpp around the ATT server:
    advertising through HCI commands, accepting one connection, serving it,
    notifying, and shutting down.  The state is [ble2_t] with what the process
    holds in the kernel and in the event loop: open descriptors and
    registered handlers.  The results of system calls are a queue of answers,
    over which the theorems quantify. *)

From stdpp Require Import strings.
From S2P Require Import Prelude Buf Att.

(* ------------------------------------------------------------------ *)
(** ** State *)

Inductive ble_st : Type := ble_st_idle | ble_st_adv | ble_st_connected.

(** The two callbacks given to the event loop. *)
Inductive cb : Type := accept_cb | rx_cb.

#[export] Instance cb_eq_dec : EqDecision cb.
Proof. solve_decision. Defined.

(** [ble2_t]: [evconn.fd], [evconn.ev], the listening socket, the state, the
    advertising flags, the ATT server's fields and [peer]. *)
Record ble : Type := Ble {
  evfd : Z; ev : option (Z * cb); listen_fd : Z; state : ble_st;
  adv_wanted : bool; adv_on : bool; srv : att; peer : list Z }.

(** One turn of the wait for an HCI event: [poll] interrupted, failed or timed
    out, [recv] to be retried or failed, or a packet. *)
Inductive tick : Type :=
  | PollIntr | PollErr | PollTimeout | RecvRetry | RecvErr | RecvPkt (pkt : list Z).

(** One [recv] on the connection. *)
Inductive rx : Type := RxIntr | RxAgain | RxErr | RxPdu (pdu : list Z).

(** What lies outside the process: the answers of the system calls to come,
    the events each HCI command will meet before its deadline of two seconds,
    the descriptors open, the handlers registered, the PDUs and the HCI
    commands sent (latest last). *)
Record os : Type := Os {
  sysq : list Z; hciq : list (list tick); fds : list Z; regs : list (Z * cb);
  sent : list (Z * list Z); hcmds : list (list Z) }.

Record st : Type := St { dev : ble; sy : os }.

(** Operations on the state; [None] is undefined behaviour, or a descriptor
    closed that is not open. *)
Definition M (A : Type) : Type := st -> option (A * st).
Definition ret {A} (x : A) : M A := fun s => Some (x, s).
Definition bind {A B} (m : M A) (k : A -> M B) : M B :=
  fun s => match m s with Some (x, s') => k x s' | None => None end.
Definition lift {A} (o : option A) : M A :=
  fun s => match o with Some x => Some (x, s) | None => None end.

Declare Scope ble_scope.
Open Scope ble_scope.
Notation "'do' x <- e ; k" := (bind e (fun x => k))
  (at level 10, x name, e at level 100, k at level 200) : ble_scope.
Notation "e ;; k" := (bind e (fun _ => k)) (at level 100, k at level 200, right associativity) : ble_scope.

Definition get : M ble := fun s => Some (dev s, s).
Definition modify (f : ble -> ble) : M unit := fun s => Some (tt, St (f (dev s)) (sy s)).

Definition set_ev (fd : Z) (e : option (Z * cb)) (b : ble) : ble :=
  Ble fd e (listen_fd b) (state b) (adv_wanted b) (adv_on b) (srv b) (peer b).
Definition set_listen (fd : Z) (b : ble) : ble :=
  Ble (evfd b) (ev b) fd (state b) (adv_wanted b) (adv_on b) (srv b) (peer b).
Definition set_state (x : ble_st) (b : ble) : ble :=
  Ble (evfd b) (ev b) (listen_fd b) x (adv_wanted b) (adv_on b) (srv b) (peer b).
Definition set_wanted (x : bool) (b : ble) : ble :=
  Ble (evfd b) (ev b) (listen_fd b) (state b) x (adv_on b) (srv b) (peer b).
Definition set_on (x : bool) (b : ble) : ble :=
  Ble (evfd b) (ev b) (listen_fd b) (state b) (adv_wanted b) x (srv b) (peer b).
Definition set_srv (x : att) (b : ble) : ble :=
  Ble (evfd b) (ev b) (listen_fd b) (state b) (adv_wanted b) (adv_on b) x (peer b).
Definition set_peer (x : list Z) (b : ble) : ble :=
  Ble (evfd b) (ev b) (listen_fd b) (state b) (adv_wanted b) (adv_on b) (srv b) x.

(** [cccd = 0; mtu = ATT_MTU_DEFAULT]. *)
Definition reset_link (a : att) : att := AttSt ATT_MTU_DEFAULT 0 (value a) (value_len a).

(* ------------------------------------------------------------------ *)
(** ** System calls *)

(** The next answer; with none left every call fails. *)
Definition sys : M Z := fun s =>
  let o := sy s in
  match sysq o with
  | [] => Some (-1, s)
  | r :: q => Some (r, St (dev s) (Os q (hciq o) (fds o) (regs o) (sent o) (hcmds o)))
  end.

(** A call that opens a descriptor: -1, or one that is not open. *)
Definition open_fd : M Z :=
  do r <- sys;
  if r <? 0 then ret (-1) else fun s =>
    let o := sy s in
    let fd := new_fd r (fds o) in
    Some (fd, St (dev s) (Os (sysq o) (hciq o) (fd :: fds o) (regs o) (sent o) (hcmds o))).

Definition close_fd (fd : Z) : M unit := fun s =>
  let o := sy s in
  if bool_decide (fd ∈ fds o)
  then Some (tt, St (dev s)
         (Os (sysq o) (hciq o) (filter (fun x => x <> fd) (fds o)) (regs o) (sent o) (hcmds o)))
  else None.

(** [aloe_evb2_add_fd] (READ, no timeout): NULL or a handle. *)
Definition evb2_add_fd (fd : Z) (c : cb) : M (option (Z * cb)) :=
  do r <- sys;
  if r <? 0 then ret None else fun s =>
    let o := sy s in
    Some (Some (fd, c), St (dev s)
      (Os (sysq o) (hciq o) (fds o) ((fd, c) :: regs o) (sent o) (hcmds o))).

(** [aloe_evb2_cancel]. *)
Definition evb2_cancel (h : Z * cb) : M unit := fun s =>
  let o := sy s in
  Some (tt, St (dev s)
    (Os (sysq o) (hciq o) (fds o) (filter (fun x => x <> h) (regs o)) (sent o) (hcmds o))).

(** [send] of [l] with a log of what left: the answer is the byte count. *)
Definition send_att (fd : Z) (l : list Z) : M Z :=
  do w <- sys;
  (fun s => let o := sy s in
    Some (tt, St (dev s) (Os (sysq o) (hciq o) (fds o) (regs o)
      (if w =? Z.of_nat (length l) then sent o ++ [(fd, l)] else sent o) (hcmds o))));; ret w.

Definition send_hci (l : list Z) : M Z :=
  do w <- sys;
  (fun s => let o := sy s in
    Some (tt, St (dev s) (Os (sysq o) (hciq o) (fds o) (regs o) (sent o)
      (if w =? Z.of_nat (length l) then hcmds o ++ [l] else hcmds o))));; ret w.

(** The events the next HCI command meets. *)
Definition hci_events : M (list tick) := fun s =>
  let o := sy s in
  match hciq o with
  | [] => Some ([], s)
  | q :: qs => Some (q, St (dev s) (Os (sysq o) qs (fds o) (regs o) (sent o) (hcmds o)))
  end.

(* ------------------------------------------------------------------ *)
(** ** HCI *)

Definition HCI_COMMAND_PKT : Z := 0x01.
Definition HCI_EVENT_PKT : Z := 0x04.
Definition HCI_EV_CMD_COMPLETE : Z := 0x0e.
Definition HCI_EV_CMD_STATUS : Z := 0x0f.
Definition HCI_OP_WRITE_LE_HOST_SUPPORTED : Z := 0x0c6d.
Definition HCI_OP_LE_SET_ADV_PARAM : Z := 0x2006.
Definition HCI_OP_LE_SET_ADV_DATA : Z := 0x2008.
Definition HCI_OP_LE_SET_SCAN_RSP_DATA : Z := 0x2009.
Definition HCI_OP_LE_SET_ADV_ENABLE : Z := 0x200a.
Definition EALREADY : Z := 114.

Definition ble_hci_fd : M Z := open_fd.

(** 0 or -1; the address itself is only logged. *)
Definition ble_hci_addr : M Z :=
  do fd <- ble_hci_fd;
  if fd <? 0 then ret (-1) else
  do r <- sys;
  close_fd fd;;
  ret (if r =? 0 then 0 else -1).

Definition ble_hci_up : M Z :=
  do fd <- ble_hci_fd;
  if fd <? 0 then ret (-1) else
  do r <- sys;
  do e <- (if r =? 0 then ret 0 else sys);
  if negb (r =? 0) && negb (e =? EALREADY) then close_fd fd;; ret (-1) else
  close_fd fd;;
  ble_hci_addr;;
  ret 0.

Definition ble_hci_bind : M Z :=
  do fd <- ble_hci_fd;
  if fd <? 0 then ret (-1) else
  do r <- sys;
  if negb (r =? 0) then close_fd fd;; ret (-1) else
  do r <- sys;
  if negb (r =? 0) then close_fd fd;; ret (-1) else
  ret fd.

(** The loop of [hci_cmd_status]; the deadline ends the list.  [None]: a byte
    that the packet does not have. *)
Fixpoint hci_wait (opcode : Z) (q : list tick) : option Z :=
  match q with
  | [] => Some (-1)
  | PollErr :: _ => Some (-1)
  | RecvErr :: _ => Some (-1)
  | PollIntr :: q' | PollTimeout :: q' | RecvRetry :: q' => hci_wait opcode q'
  | RecvPkt buf :: q' =>
      if Z.of_nat (length buf) <? 7 then hci_wait opcode q' else
      b0 ← rd buf 0;
      if negb (b0 =? HCI_EVENT_PKT) then hci_wait opcode q' else
      evt ← rd buf 1;
      b2 ← rd buf 2;
      if (evt =? HCI_EV_CMD_STATUS) && (4 <=? b2) then
        op ← get_le16 buf 5;
        if negb (op =? opcode) then hci_wait opcode q' else
        b3 ← rd buf 3;
        if negb (b3 =? 0) then Some b3 else hci_wait opcode q'
      else if (evt =? HCI_EV_CMD_COMPLETE) && (4 <=? b2) then
        op ← get_le16 buf 4;
        if negb (op =? opcode) then hci_wait opcode q' else rd buf 6
      else hci_wait opcode q'
  end.

Definition hci_cmd_status (opcode : Z) (param : list Z) : M Z :=
  let plen := Z.of_nat (length param) in
  if 32 <? plen then ret (-1) else
  do r <- sys;
  if negb (r =? 0) then ret (-1) else
  let buf := [HCI_COMMAND_PKT] ++ put_le16 opcode ++ [u8 plen] ++ param in
  do w <- send_hci buf;
  if negb (w =? 4 + plen) then ret (-1) else
  do q <- hci_events;
  lift (hci_wait opcode q).

Definition hci_cmd (opcode : Z) (param : list Z) (ignore_status : bool) : M Z :=
  do s <- hci_cmd_status opcode param;
  if s <? 0 then ret (-1)
  else if negb (s =? 0) then ret (if ignore_status then 0 else -1)
  else ret 0.

(** The array and the bytes used, or -1. *)
Definition ad_put (dst : list Z) (off max type : Z) (v : list Z) : option (option (list Z * Z)) :=
  let n := Z.of_nat (length v) in
  if max <? n + 2 then Some None else
  dst ← blit dst off ([u8 (n + 1); type] ++ v);
  Some (Some (dst, n + 2)).

(** The advertising data of [ble_adv_config]: flags and the service UUID. *)
Definition adv_data : option (option (list Z)) :=
  r ← ad_put (replicate 32 0) 1 31 0x01 [0x02];
  match r with
  | None => Some None
  | Some (data, n) =>
      r ← ad_put data (1 + n) (31 - n) 0x07 uuid_svc;
      match r with
      | None => Some None
      | Some (data, k) => data ← upd data 0 (u8 (n + k)); Some (Some data)
      end
  end.

(** The scan response: the name. *)
Definition scan_data : option (option (list Z)) :=
  r ← ad_put (replicate 32 0) 1 31 0x09 ble_name;
  match r with
  | None => Some None
  | Some (data, k) => data ← upd data 0 (u8 k); Some (Some data)
  end.

Definition adv_param : list Z :=
  put_le16 0x00a0 ++ put_le16 0x00a0 ++ replicate 9 0 ++ [0x07; 0].

Definition ble_adv_config (enable : bool) : M Z :=
  do r <- hci_cmd HCI_OP_WRITE_LE_HOST_SUPPORTED [0x01; 0x01] true;
  if negb (r =? 0) then ret (-1) else
  do r <- hci_cmd HCI_OP_LE_SET_ADV_ENABLE [0] true;
  if negb (r =? 0) then ret (-1) else
  if negb enable then ret 0 else
  do r <- hci_cmd HCI_OP_LE_SET_ADV_PARAM adv_param false;
  if negb (r =? 0) then ret (-1) else
  do d <- lift adv_data;
  match d with
  | None => ret (-1)
  | Some data =>
      do r <- hci_cmd HCI_OP_LE_SET_ADV_DATA data false;
      if negb (r =? 0) then ret (-1) else
      do d <- lift scan_data;
      match d with
      | None => ret (-1)
      | Some data =>
          do r <- hci_cmd HCI_OP_LE_SET_SCAN_RSP_DATA data false;
          if negb (r =? 0) then ret (-1) else
          do r <- hci_cmd HCI_OP_LE_SET_ADV_ENABLE [0x01] false;
          ret (if negb (r =? 0) then -1 else 0)
      end
  end.

Definition ble_adv_set (enable : bool) : M Z :=
  do fd <- ble_hci_bind;
  if fd <? 0 then ret (-1) else
  do r <- (if enable then ble_adv_config true else hci_cmd HCI_OP_LE_SET_ADV_ENABLE [0] true);
  close_fd fd;;
  (if r =? 0 then modify (set_on enable) else ret tt);;
  ret r.

(* ------------------------------------------------------------------ *)
(** ** The connection *)

Definition evconn_cancel : M unit :=
  do b <- get;
  match ev b with
  | Some h => evb2_cancel h;; modify (set_ev (evfd b) None)
  | None => ret tt
  end.

Definition ble_arm (fd : Z) (c : cb) : M Z :=
  evconn_cancel;;
  do b <- get;
  modify (set_ev (-1) (ev b));;
  do h <- evb2_add_fd fd c;
  match h with
  | None => ret (-1)
  | Some h => modify (set_ev fd (Some h));; ret 0
  end.

Definition ble_tx (fd : Z) (pdu : list Z) : M Z :=
  let n := Z.of_nat (length pdu) in
  if n <=? 0 then ret 0 else
  do w <- send_att fd pdu;
  ret (if negb (w =? n) then -1 else 0).

(** [if (evconn.fd >= 0 && evconn.fd != listen_fd) close(evconn.fd);
    evconn.fd = -1]. *)
Definition close_conn : M unit :=
  do b <- get;
  (if (0 <=? evfd b) && negb (evfd b =? listen_fd b) then close_fd (evfd b) else ret tt);;
  modify (set_ev (-1) (ev b)).

Definition ble_stop : M unit :=
  do b <- get;
  let was_on := adv_on b in
  modify (fun b => set_on false (set_wanted false b));;
  evconn_cancel;;
  close_conn;;
  do b <- get;
  (if 0 <=? listen_fd b then close_fd (listen_fd b);; modify (set_listen (-1)) else ret tt);;
  modify (fun b => set_peer [] (set_srv (reset_link (srv b)) (set_state ble_st_idle b)));;
  if was_on then ble_adv_set false;; ret tt else ret tt.

Definition ble_peer_left : M unit :=
  evconn_cancel;;
  close_conn;;
  modify (fun b =>
    set_state ble_st_idle (set_on false (set_peer [] (set_srv (reset_link (srv b)) b))));;
  do b <- get;
  if negb (adv_wanted b) || (listen_fd b <? 0) then ret tt else
  do r <- ble_adv_set true;
  do r <- (if negb (r =? 0) then ret (-1) else ble_arm (listen_fd b) accept_cb);
  if negb (r =? 0) then ble_stop;; ret tt else
  modify (set_state ble_st_adv);;
  ret tt.

(** The loop of [ble_rx_cb] over the [recv]s to come; the end of the list is
    an empty socket. *)
Fixpoint rx_loop (fd : Z) (q : list rx) : M unit :=
  match q with
  | [] => ret tt
  | RxIntr :: q' => rx_loop fd q'
  | RxAgain :: _ => ret tt
  | RxErr :: _ => ble_peer_left
  | RxPdu req :: q' =>
      if Z.of_nat (length req) =? 0 then ble_peer_left else
      do b <- get;
      do r <- lift (att_on_pdu (srv b) req);
      modify (set_srv r.1);;
      do t <- (if 0 <? Z.of_nat (length r.2) then ble_tx fd r.2 else ret 0);
      if negb (t =? 0) then ble_peer_left else rx_loop fd q'
  end.

Definition ble_rx_cb (fd : Z) (readable : bool) (q : list rx) : M unit :=
  do b <- get;
  if negb (evfd b =? fd) then ret tt else
  if negb readable then ret tt else rx_loop fd q.

(** "%02X". *)
Definition hex_digit (d : Z) : Z := if d <? 10 then 48 + d else 55 + d.
Definition hex2 (v : Z) : list Z := [hex_digit (v / 16); hex_digit (v mod 16)].

Definition ba2str (ba : list Z) : list Z :=
  hex2 (ix ba 5) ++ [58] ++ hex2 (ix ba 4) ++ [58] ++ hex2 (ix ba 3) ++ [58] ++
  hex2 (ix ba 2) ++ [58] ++ hex2 (ix ba 1) ++ [58] ++ hex2 (ix ba 0).

(** [addr]: the peer address [accept4] stores. *)
Definition ble_accept_cb (fd : Z) (readable : bool) (addr : list Z) : M unit :=
  do b <- get;
  if negb (evfd b =? fd) then ret tt else
  if negb readable then ret tt else
  do conn <- open_fd;
  if conn <? 0 then ret tt else
  modify (fun b => set_state ble_st_connected (set_on false
    (set_srv (reset_link (srv b)) (set_peer (ba2str addr) b))));;
  do r <- ble_arm conn rx_cb;
  if negb (r =? 0) then close_fd conn;; ble_peer_left else ret tt.

(** socket, bind, BT_SECURITY, listen, nonblock. *)
Definition ble_listen_open : M Z :=
  do fd <- open_fd;
  if fd <? 0 then ret (-1) else
  do r <- sys;
  if negb (r =? 0) then close_fd fd;; ret (-1) else
  do r <- sys;
  if negb (r =? 0) then close_fd fd;; ret (-1) else
  do r <- sys;
  if negb (r =? 0) then close_fd fd;; ret (-1) else
  do r <- sys;
  if negb (r =? 0) then close_fd fd;; ret (-1) else
  modify (set_listen fd);;
  ret 0.

Definition is_idle (x : ble_st) : bool := match x with ble_st_idle => true | _ => false end.
Definition is_connected (x : ble_st) : bool := match x with ble_st_connected => true | _ => false end.

Definition ble_advertise (on : bool) : M Z :=
  if negb on then ble_stop;; ret 0 else
  do b <- get;
  (if negb (is_idle (state b)) then ble_stop else ret tt);;
  do r <- ble_hci_up;
  if negb (r =? 0) then ret (-1) else
  do r <- ble_listen_open;
  if negb (r =? 0) then ret (-1) else
  modify (set_wanted true);;
  do b <- get;
  do r <- ble_adv_set true;
  do r <- (if negb (r =? 0) then ret (-1) else ble_arm (listen_fd b) accept_cb);
  if negb (r =? 0) then ble_stop;; ret (-1) else
  modify (set_state ble_st_adv);;
  ble_hci_addr;;
  ret 0.

Definition ble_notify (text : list Z) : M Z :=
  do b <- get;
  let n := Z.of_nat (length text) in
  if negb (is_connected (state b)) || (evfd b <? 0) then ret (-1) else
  if Z.land (cccd (srv b)) 1 =? 0 then ret (-1) else
  let max := mtu (srv b) - 3 in
  let max := if BLE_VALUE_MAX <? max then BLE_VALUE_MAX else max in
  if max <? n then ret (-1) else
  do v <- lift (if 0 <? n then blit (value (srv b)) 0 text else Some (value (srv b)));
  modify (set_srv (AttSt (mtu (srv b)) (cccd (srv b)) v (u16 n)));;
  do r <- ble_tx (evfd b) ([ATT_OP_HANDLE_NFY] ++ put_le16 HDL_CUS_VAL ++ text);
  if negb (r =? 0) then ble_peer_left;; ret (-1) else ret 0.

(** The arguments from [from] on, joined by spaces into [sz] bytes. *)
Fixpoint join_text (first : bool) (text : list Z) (sz : Z) (argv : list (list Z)) : option (list Z) :=
  match argv with
  | [] => Some text
  | a :: argv' =>
      let piece := (if first then [] else [32]) ++ a in
      if sz - Z.of_nat (length text) <=? Z.of_nat (length piece) then None
      else join_text false (text ++ piece) sz argv'
  end.

Definition ble_join_text (argv : list (list Z)) (from : nat) (sz : Z) : option (list Z) :=
  join_text true [] sz (drop from argv).

Definition bs (s : string) : list Z :=
  map (fun c => Z.of_N (Ascii.N_of_ascii c)) (String.list_ascii_of_string s).

(** [blegatt_global] is set. *)
Definition cli_cmd_blegatt (argv : list (list Z)) : M Z :=
  match argv with
  | [] | [_] => ret 0
  | _ :: sub :: args =>
      if bool_decide (sub = bs "up") then ble_hci_up
      else if bool_decide (sub = bs "advertise") then
        match args with
        | [] => ret (-1)
        | a :: _ =>
            if negb (bool_decide (a = bs "on")) && negb (bool_decide (a = bs "off")) then ret (-1)
            else ble_advertise (bool_decide (a = bs "on"))
        end
      else if bool_decide (sub = bs "notify") then
        match args with
        | [] => ret (-1)
        | _ =>
            match ble_join_text argv 2 (BLE_VALUE_MAX + 1) with
            | None => ret (-1)
            | Some text => ble_notify text
            end
        end
      else if bool_decide (sub = bs "close") then ble_stop;; ret 0
      else ret (-1)
  end.

Definition blegatt_init : ble :=
  Ble (-1) None (-1) ble_st_idle false false (AttSt ATT_MTU_DEFAULT 0 (replicate 64 0) 0) [].

Definition blegatt_destroy : M unit := ble_stop.

(* ------------------------------------------------------------------ *)
(** ** Runs *)

(** What drives the component: a command line, or a registered handler
    called by the event loop. *)
Inductive input : Type :=
  | Cli (argv : list (list Z))
  | Ready (readable : bool) (q : list rx) (addr : list Z).

Definition step (i : input) : M unit :=
  match i with
  | Cli argv => cli_cmd_blegatt argv;; ret tt
  | Ready readable q addr => fun s =>
      match regs (sy s) with
      | (fd, accept_cb) :: _ => ble_accept_cb fd readable addr s
      | (fd, rx_cb) :: _ => ble_rx_cb fd readable q s
      | [] => Some (tt, s)
      end
  end.

Fixpoint run (l : list input) : M unit :=
  match l with [] => ret tt | i :: l' => step i;; run l' end.

(** A fresh component in an environment that will answer [answers] and show
    [events]. *)
Definition start (answers : list Z) (events : list (list tick)) : st :=
  St blegatt_init (Os answers events [] [] [] []).

(* ------------------------------------------------------------------ *)
(** ** Reasoning about operations *)

(** [m] is defined on [s] and its result satisfies [Q]. *)
Definition wp {A} (m : M A) (s : st) (Q : A -> st -> Prop) : Prop :=
  match m s with Some (x, s') => Q x s' | None => False end.

Lemma wp_mono {A} (m : M A) s (Q Q' : A -> st -> Prop) :
  wp m s Q -> (forall x s', Q x s' -> Q' x s') -> wp m s Q'.
Proof. unfold wp. destruct (m s) as [[x s']|]; [auto | done]. Qed.

Lemma wp_bind {A B} (m : M A) (k : A -> M B) s Q :
  wp m s (fun x s' => wp (k x) s' Q) -> wp (bind m k) s Q.
Proof. unfold wp, bind. by destruct (m s) as [[x s']|]. Qed.

Lemma wp_ret {A} (x : A) s (Q : A -> st -> Prop) : Q x s -> wp (ret x) s Q.
Proof. done. Qed.

Lemma wp_get s (Q : ble -> st -> Prop) : Q (dev s) s -> wp get s Q.
Proof. done. Qed.

Lemma wp_modify f s (Q : unit -> st -> Prop) :
  Q tt (St (f (dev s)) (sy s)) -> wp (modify f) s Q.
Proof. done. Qed.

Lemma wp_lift {A} (o : option A) x s (Q : A -> st -> Prop) :
  o = Some x -> Q x s -> wp (lift o) s Q.
Proof. intros ->. done. Qed.

Create HintDb wp.
#[export] Hint Resolve wp_ret wp_get wp_modify : wp.

(** Run the next operation by its specification [L]. *)
Tactic Notation "wp" uconstr(L) "as" simple_intropattern(x) simple_intropattern(s) simple_intropattern(H) :=
  apply wp_bind; eapply wp_mono; [apply L | cbv beta; intros x s H].
Ltac wp_pure :=
  lazymatch goal with
  | |- wp (bind get _) _ _ => apply wp_bind; apply wp_get
  | |- wp (bind (modify _) _) _ _ => apply wp_bind; apply wp_modify
  | |- wp (bind (ret _) _) _ _ => apply wp_bind; apply wp_ret
  end; cbv beta.
Ltac wp_if := match goal with |- wp (if ?c then _ else _) _ _ => destruct c eqn:? end.

(** Only the answers and the HCI log moved. *)
Record quiet (s s' : st) : Prop := Quiet {
  q_dev : dev s' = dev s; q_fds : fds (sy s') = fds (sy s);
  q_regs : regs (sy s') = regs (sy s); q_sent : sent (sy s') = sent (sy s) }.

Lemma quiet_refl s : quiet s s.
Proof. done. Qed.

Lemma quiet_trans s1 s2 s3 : quiet s1 s2 -> quiet s2 s3 -> quiet s1 s3.
Proof. intros [] []. split; congruence. Qed.

#[export] Instance quiet_pre : PreOrder quiet.
Proof. split; [exact quiet_refl | exact quiet_trans]. Qed.

Lemma sys_quiet s : wp sys s (fun _ s' => quiet s s').
Proof. unfold wp, sys. by destruct (sysq (sy s)). Qed.

Lemma send_hci_quiet l s : wp (send_hci l) s (fun _ s' => quiet s s').
Proof.
  unfold send_hci. wp (sys_quiet s) as w s1 H1. apply wp_bind. unfold wp at 1. apply wp_ret.
  destruct H1. by split.
Qed.

Lemma hci_events_quiet s : wp hci_events s (fun _ s' => quiet s s').
Proof. unfold wp, hci_events. by destruct (hciq (sy s)). Qed.

(** Every packet byte the wait looks at is there. *)
Lemma hci_wait_total opcode q : exists r, hci_wait opcode q = Some r.
Proof.
  induction q as [|t q IH]; [by eexists | ].
  destruct t as [| | | | |buf]; cbn [hci_wait]; eauto.
  destruct (Z.ltb_spec (Z.of_nat (length buf)) 7); [done | ].
  unfold get_le16. rewrite !rd_ix by lia. cbn [mbind option_bind].
  repeat case_match; eauto.
Qed.

Lemma hci_cmd_status_quiet opcode param s :
  wp (hci_cmd_status opcode param) s (fun _ s' => quiet s s').
Proof.
  unfold hci_cmd_status. wp_if; [by apply wp_ret | ].
  wp (sys_quiet s) as r s1 H1. wp_if; [by apply wp_ret | ].
  wp (send_hci_quiet _ s1) as w s2 H2. wp_if; [apply wp_ret; cbv beta; eauto using quiet_trans | ].
  wp (hci_events_quiet s2) as q s3 H3. destruct (hci_wait_total opcode q) as [x Hx].
  eapply wp_lift; [done | ]. cbv beta. eauto using quiet_trans.
Qed.

Lemma hci_cmd_quiet opcode param ign s : wp (hci_cmd opcode param ign) s (fun _ s' => quiet s s').
Proof.
  unfold hci_cmd. wp (hci_cmd_status_quiet _ _ s) as r s1 H1. repeat wp_if; by apply wp_ret.
Qed.

Lemma ble_adv_config_quiet enable s : wp (ble_adv_config enable) s (fun _ s' => quiet s s').
Proof.
  unfold ble_adv_config. wp (hci_cmd_quiet _ _ _ s) as r1 s1 H1. wp_if; [by apply wp_ret | ].
  wp (hci_cmd_quiet _ _ _ s1) as r2 s2 H2. assert (Q2 : quiet s s2) by eauto using quiet_trans.
  wp_if; [by apply wp_ret | ]. wp_if; [by apply wp_ret | ].
  wp (hci_cmd_quiet _ _ _ s2) as r3 s3 H3. assert (Q3 : quiet s s3) by eauto using quiet_trans.
  wp_if; [by apply wp_ret | ]. apply wp_bind. eapply wp_lift; [vm_compute; reflexivity | ].
  wp (hci_cmd_quiet _ _ _ s3) as r4 s4 H4. assert (Q4 : quiet s s4) by eauto using quiet_trans.
  wp_if; [by apply wp_ret | ]. apply wp_bind. eapply wp_lift; [vm_compute; reflexivity | ].
  wp (hci_cmd_quiet _ _ _ s4) as r5 s5 H5. assert (Q5 : quiet s s5) by eauto using quiet_trans.
  wp_if; [by apply wp_ret | ].
  wp (hci_cmd_quiet _ _ _ s5) as r6 s6 H6. apply wp_ret. cbv beta. eauto using quiet_trans.
Qed.

(** Descriptors: a new one is not open yet, and closing it restores the
    table. *)
Record opened (fd : Z) (s s' : st) : Prop := Opened {
  o_ge : 0 <= fd; o_new : fd ∉ fds (sy s); o_dev : dev s' = dev s;
  o_fds : fds (sy s') = fd :: fds (sy s);
  o_regs : regs (sy s') = regs (sy s); o_sent : sent (sy s') = sent (sy s) }.

Lemma opened_quiet fd s s1 s2 : opened fd s s1 -> quiet s1 s2 -> opened fd s s2.
Proof. intros [] []. split; congruence. Qed.

Lemma open_fd_ok s :
  wp open_fd s (fun fd s' => fd = -1 /\ quiet s s' \/ opened fd s s').
Proof.
  unfold open_fd. wp (sys_quiet s) as r s1 H1. destruct (Z.ltb_spec r 0); [left; split; done | ].
  unfold wp. right. destruct H1 as [Hd Hf Hr Hs]. destruct (new_fd_ok r (fds (sy s1))) as [Hge Hn]; [lia | ].
  split; cbn; rewrite <- ?Hf; done || congruence.
Qed.

Lemma close_opened fd s s1 : opened fd s s1 -> wp (close_fd fd) s1 (fun _ s' => quiet s s').
Proof.
  intros [Hge Hn Hd Hf Hr Hs]. unfold wp, close_fd. rewrite Hf.
  rewrite bool_decide_true by (by left). split; cbn [sy dev fds regs sent]; [done | | done | done].
  rewrite filter_cons_False by (intros Hx; by apply Hx). by apply filter_ne_id.
Qed.

(** One system call on a fresh descriptor that is closed if the call fails. *)
Lemma try_call fd s s1 (k : M Z) Q :
  opened fd s s1 ->
  (forall s', quiet s s' -> Q (-1) s') ->
  (forall s', opened fd s s' -> wp k s' Q) ->
  wp (do r <- sys; if negb (r =? 0) then close_fd fd;; ret (-1) else k) s1 Q.
Proof.
  intros Ho Hfail Hk. wp (sys_quiet s1) as r s2 H2. pose proof (opened_quiet _ _ _ _ Ho H2).
  wp_if; [ | by apply Hk]. wp (close_opened fd s s2 ltac:(done)) as x s3 H3. by apply wp_ret, Hfail.
Qed.

Lemma ble_hci_addr_quiet s : wp ble_hci_addr s (fun _ s' => quiet s s').
Proof.
  unfold ble_hci_addr, ble_hci_fd. wp (open_fd_ok s) as fd s1 [[-> H1]|H1].
  { by apply wp_ret. }
  rewrite (proj2 (Z.ltb_ge _ _)) by apply H1.
  wp (sys_quiet s1) as r s2 H2. wp (close_opened fd s s2 (opened_quiet _ _ _ _ H1 H2)) as x s3 H3.
  by apply wp_ret.
Qed.

Lemma ble_hci_up_quiet s : wp ble_hci_up s (fun _ s' => quiet s s').
Proof.
  unfold ble_hci_up, ble_hci_fd. wp (open_fd_ok s) as fd s1 [[-> H1]|H1]; [by apply wp_ret | ].
  rewrite (proj2 (Z.ltb_ge _ _)) by apply H1.
  wp (sys_quiet s1) as r s2 H2. pose proof (opened_quiet _ _ _ _ H1 H2) as H2'.
  apply wp_bind. apply (wp_mono _ _ (fun _ s' => opened fd s s')).
  { wp_if; [by apply wp_ret | ]. eapply wp_mono; [apply sys_quiet | ].
    intros e s3 H3. by eapply opened_quiet. }
  intros e s3 H3. wp_if.
  - wp (close_opened fd s s3 H3) as x s4 H4. by apply wp_ret.
  - wp (close_opened fd s s3 H3) as x s4 H4. wp (ble_hci_addr_quiet s4) as y s5 H5.
    apply wp_ret. cbv beta. eauto using quiet_trans.
Qed.

Lemma ble_hci_bind_ok s :
  wp ble_hci_bind s (fun fd s' => fd = -1 /\ quiet s s' \/ opened fd s s').
Proof.
  unfold ble_hci_bind, ble_hci_fd. wp (open_fd_ok s) as fd s1 [[-> H1]|H1].
  { apply wp_ret. by left. }
  rewrite (proj2 (Z.ltb_ge _ _)) by apply H1.
  eapply try_call; [done | by left | intros s2 H2].
  eapply try_call; [done | by left | intros s3 H3]. apply wp_ret. by right.
Qed.

(** Advertising on or off changes [adv_on] alone, and only if it succeeds. *)
Lemma ble_adv_set_ok enable s :
  wp (ble_adv_set enable) s (fun r s' =>
    quiet (if r =? 0 then St (set_on enable (dev s)) (sy s) else s) s').
Proof.
  unfold ble_adv_set. wp (ble_hci_bind_ok s) as fd s1 [[-> H1]|H1]; [by apply wp_ret | ].
  rewrite (proj2 (Z.ltb_ge _ _)) by apply H1.
  apply wp_bind. apply (wp_mono _ _ (fun _ s' => opened fd s s')).
  { assert (Hq : wp (if enable then ble_adv_config true
        else hci_cmd HCI_OP_LE_SET_ADV_ENABLE [0] true) s1 (fun _ s' => quiet s1 s')).
    { destruct enable; [apply ble_adv_config_quiet | apply hci_cmd_quiet]. }
    eapply wp_mono; [exact Hq | ]. intros. by eapply opened_quiet. }
  intros r s2 H2. wp (close_opened fd s s2 H2) as x s3 H3.
  destruct H3 as [Hd Hf Hr Hs]. apply wp_bind.
  destruct (r =? 0) eqn:Er; [apply wp_modify | apply wp_ret]; apply wp_ret;
    rewrite Er; split; cbn; congruence.
Qed.

(* ------------------------------------------------------------------ *)
(** ** The invariant *)

(** The descriptors the component's fields name. *)
Definition listener (b : ble) : list Z := if 0 <=? listen_fd b then [listen_fd b] else [].
Definition held (b : ble) : list Z :=
  (if (0 <=? evfd b) && negb (evfd b =? listen_fd b) then [evfd b] else []) ++ listener b.

(** The kernel and the event loop hold exactly what the fields name. *)
Record owns (s : st) : Prop := Owns {
  w_fds : fds (sy s) = held (dev s);
  w_regs : regs (sy s) = option_list (ev (dev s));
  w_srv : wf (srv (dev s));
  w_listen : -1 <= listen_fd (dev s) }.

Definition fresh_link (b : ble) : Prop :=
  mtu (srv b) = ATT_MTU_DEFAULT /\ cccd (srv b) = 0 /\ peer b = [].

(** What each state means. *)
Definition idle_ok (b : ble) : Prop :=
  evfd b = -1 /\ ev b = None /\ listen_fd b = -1 /\ adv_wanted b = false /\ adv_on b = false /\
  fresh_link b.
Definition adv_ok (b : ble) : Prop :=
  0 <= listen_fd b /\ evfd b = listen_fd b /\ ev b = Some (listen_fd b, accept_cb) /\
  adv_wanted b = true /\ adv_on b = true /\ fresh_link b.
Definition conn_ok (b : ble) : Prop :=
  0 <= listen_fd b /\ 0 <= evfd b /\ evfd b <> listen_fd b /\ ev b = Some (evfd b, rx_cb) /\
  adv_wanted b = true /\ adv_on b = false.

Definition inv (s : st) : Prop :=
  owns s /\
  match state (dev s) with
  | ble_st_idle => idle_ok (dev s)
  | ble_st_adv => adv_ok (dev s)
  | ble_st_connected => conn_ok (dev s)
  end.

(** The outcome of a disconnection: idle or advertising again, nothing sent,
    the value kept. *)
Record settled (s s' : st) : Prop := Settled {
  t_inv : inv s'; t_sent : sent (sy s') = sent (sy s); t_down : is_connected (state (dev s')) = false;
  t_value : value (srv (dev s')) = value (srv (dev s)) /\
            value_len (srv (dev s')) = value_len (srv (dev s)) }.

Lemma reset_link_wf a : wf a -> wf (reset_link a).
Proof.
  intros (Hm & Hc & Hr). split; [by vm_compute | split; [by vm_compute | done]].
Qed.

Lemma evconn_cancel_ok s :
  regs (sy s) = option_list (ev (dev s)) ->
  wp evconn_cancel s (fun _ s' =>
    dev s' = set_ev (evfd (dev s)) None (dev s) /\ fds (sy s') = fds (sy s) /\
    regs (sy s') = [] /\ sent (sy s') = sent (sy s)).
Proof.
  intros Hr. unfold evconn_cancel. wp_pure. destruct (ev (dev s)) as [h|] eqn:E.
  - unfold wp, bind, evb2_cancel, modify. cbn [sy dev fds regs sent]. rewrite Hr.
    change (option_list (Some h)) with [h]. rewrite filter_cons_False by (intros Hx; by apply Hx). by split_and!.
  - apply wp_ret. rewrite <- E. destruct s as [[] ?]. by cbn in *.
Qed.

(** [evconn_cancel] and closing the connection. *)
Record dropped (s s' : st) : Prop := Dropped {
  d_dev : dev s' = set_ev (-1) None (dev s); d_fds : fds (sy s') = listener (dev s);
  d_regs : regs (sy s') = []; d_sent : sent (sy s') = sent (sy s) }.

Lemma drop_conn {A} s (k : M A) Q :
  owns s -> (forall s', dropped s s' -> wp k s' Q) -> wp (evconn_cancel;; close_conn;; k) s Q.
Proof.
  intros [Hf Hr Hw _] Hk. wp (evconn_cancel_ok s Hr) as x s1 (E1 & F1 & R1 & S1).
  apply wp_bind. unfold close_conn. wp_pure. rewrite E1. cbn [set_ev evfd listen_fd ev].
  apply wp_bind. rewrite Hf in F1. unfold held in F1.
  destruct ((0 <=? evfd (dev s)) && negb (evfd (dev s) =? listen_fd (dev s))) eqn:E.
  - unfold wp at 1, close_fd. rewrite F1. cbn [app].
    rewrite bool_decide_true by (by left). apply wp_modify. apply Hk. split; cbn [sy dev fds regs sent].
    + by rewrite E1.
    + rewrite filter_cons_False by (intros Hx; by apply Hx). apply filter_ne_id.
      apply andb_true_iff in E as [_ E%negb_true_iff%Z.eqb_neq]. unfold listener.
      destruct (0 <=? listen_fd (dev s)); [ | apply not_elem_of_nil].
      by rewrite list_elem_of_singleton.
    + done.
    + done.
  - apply wp_ret, wp_modify, Hk. split; cbn [sy dev fds regs sent]; [by rewrite E1 | done..].
Qed.

Lemma ble_stop_ok s : owns s -> wp ble_stop s (fun _ s' => settled s s' /\ state (dev s') = ble_st_idle).
Proof.
  intros Ho. unfold ble_stop. wp_pure. set (was_on := adv_on (dev s)). wp_pure.
  set (s0 := St _ (sy s)). apply (drop_conn s0); [by destruct Ho | ]. intros s1 [E1 F1 R1 S1].
  wp_pure. apply wp_bind. rewrite E1. cbn [set_ev listen_fd].
  change (listen_fd (dev s0)) with (listen_fd (dev s)).
  change (listener (dev s0)) with (listener (dev s)) in F1. unfold listener in F1.
  assert (Hk : forall s2, dev s2 = set_listen (-1) (dev s1) -> fds (sy s2) = [] -> regs (sy s2) = [] ->
    sent (sy s2) = sent (sy s) ->
    wp (modify (fun b => set_peer [] (set_srv (reset_link (srv b)) (set_state ble_st_idle b)));;
        if was_on then ble_adv_set false;; ret tt else ret tt) s2
      (fun _ s' => settled s s' /\ state (dev s') = ble_st_idle)).
  { intros s2 E2 F2 R2 S2. wp_pure. set (s3 := St _ (sy s2)).
    assert (Hdev : dev s3 = Ble (-1) None (-1) ble_st_idle false false (reset_link (srv (dev s))) []).
    { unfold s3. cbn [dev]. by rewrite E2, E1. }
    assert (Hend : forall s4, quiet s3 s4 -> settled s s4 /\ state (dev s4) = ble_st_idle).
    { intros s4 [Q1 Q2 Q3 Q4]. rewrite Hdev in Q1. split; [ | by rewrite Q1]. split; rewrite ?Q1; try done.
      - split; [split | ]; rewrite ?Q1; try done; [by rewrite Q2 | by rewrite Q3 | ].
        apply reset_link_wf, Ho.
      - rewrite Q4. by cbn. }
    destruct was_on; [ | by apply wp_ret, Hend].
    wp (ble_adv_set_ok false s3) as r s4 H4. apply wp_ret. apply Hend.
    destruct (r =? 0); [ | done]. replace s3 with (St (set_on false (dev s3)) (sy s3)); [done | ].
    rewrite Hdev. unfold s3 in *. cbn in Hdev |- *. by rewrite Hdev. }
  destruct (0 <=? listen_fd (dev s)) eqn:El.
  - apply wp_bind. unfold wp at 1, close_fd. rewrite F1. rewrite bool_decide_true by (by left).
    apply wp_modify. apply Hk; cbn [sy dev fds regs sent]; [done | | done | done].
    by rewrite filter_cons_False by (intros Hx; by apply Hx).
  - apply wp_ret. apply Hk; [ | done..]. rewrite E1. apply Z.leb_gt in El. destruct Ho as [_ _ _ Hl].
    assert (Hz : listen_fd (dev s) = -1) by lia. unfold s0, set_listen, set_ev, set_on. cbn. by rewrite Hz.
Qed.

Lemma ble_arm_ok fd c s :
  regs (sy s) = option_list (ev (dev s)) ->
  wp (ble_arm fd c) s (fun r s' =>
    fds (sy s') = fds (sy s) /\ sent (sy s') = sent (sy s) /\
    (r = 0 /\ dev s' = set_ev fd (Some (fd, c)) (dev s) /\ regs (sy s') = [(fd, c)] \/
     r = -1 /\ dev s' = set_ev (-1) None (dev s) /\ regs (sy s') = [])).
Proof.
  intros Hr. unfold ble_arm. wp (evconn_cancel_ok s Hr) as x s1 (E1 & F1 & R1 & S1).
  wp_pure. wp_pure. set (s2 := St _ (sy s1)).
  assert (E2 : dev s2 = set_ev (-1) None (dev s)) by (unfold s2; cbn [dev]; by rewrite E1).
  apply wp_bind. unfold evb2_add_fd. wp (sys_quiet s2) as r s3 [E3 F3 R3 S3].
  rewrite E2 in E3. unfold s2 in F3, R3, S3. cbn [sy] in *. wp_if.
  - apply wp_ret, wp_ret. split_and!; [by rewrite F3 | by rewrite S3 | ]. right. by rewrite R3.
  - unfold wp at 1. wp_pure. apply wp_ret. cbn [sy dev fds regs sent].
    split_and!; [by rewrite F3 | by rewrite S3 | ]. left. by rewrite E3, R3, R1.
Qed.

(** The state in which advertising starts. *)
Definition listening (s : st) : Prop :=
  owns s /\ 0 <= listen_fd (dev s) /\ evfd (dev s) = -1 /\ ev (dev s) = None /\
  adv_wanted (dev s) = true /\ adv_on (dev s) = false /\ fresh_link (dev s).

Lemma owns_ext s s' : owns s -> quiet s s' -> owns s'.
Proof. intros [] [Q1 Q2 Q3 Q4]. split; rewrite ?Q1, ?Q2, ?Q3; done. Qed.

Lemma settled_trans s s1 s2 :
  sent (sy s1) = sent (sy s) -> srv (dev s1) = srv (dev s) -> settled s1 s2 -> settled s s2.
Proof. intros Hs Hv [H1 H2 H3 H4]. split; try done; congruence. Qed.

Lemma adv_and_arm_ok s :
  listening s ->
  wp (do r <- ble_adv_set true;
      if negb (r =? 0) then ret (-1) else ble_arm (listen_fd (dev s)) accept_cb) s
    (fun r s' =>
      sent (sy s') = sent (sy s) /\ srv (dev s') = srv (dev s) /\ owns s' /\
      (r = 0 -> adv_ok (dev s'))).
Proof.
  intros (Ho & Hl & He & Hn & Hw & Ha & Hfr). wp (ble_adv_set_ok true s) as r s1 H1.
  destruct (r =? 0) eqn:Er; cbn [negb].
  - destruct H1 as [E1 F1 R1 S1]. cbn [dev sy] in *.
    assert (Hr1 : regs (sy s1) = option_list (ev (dev s1))) by (rewrite R1, E1; apply Ho).
    eapply wp_mono; [apply (ble_arm_ok _ _ s1 Hr1) | ]. cbv beta.
    intros x s2 (F2 & S2 & [(-> & E2 & R2)|(-> & E2 & R2)]); rewrite E1 in E2;
      (split_and!; [congruence | by rewrite E2 | | ]); rewrite ?E2.
    + destruct Ho as [W1 W2 W3 W4]. split; rewrite ?E2; [ | done..]. rewrite F2, F1, W1.
      unfold held. cbn. rewrite He. rewrite (proj2 (Z.leb_le 0 _) Hl), Z.eqb_refl. done.
    + intros _. by split_and!.
    + destruct Ho as [W1 W2 W3 W4]. split; rewrite ?E2; [ | done..]. rewrite F2, F1, W1.
      unfold held. cbn. by rewrite He.
    + done.
  - apply wp_ret. pose proof (owns_ext _ _ Ho H1). destruct H1 as [E1 F1 R1 S1].
    split_and!; [done | by rewrite E1 | done | done].
Qed.

Lemma wp_assoc {A B C} (m : M A) (k : A -> M B) (f : B -> M C) s Q :
  wp (bind (bind m k) f) s Q -> wp (do x <- m; bind (k x) f) s Q.
Proof. unfold wp, bind. by destruct (m s) as [[x s']|]. Qed.

(** From [listening]: advertising, or everything closed. *)
Lemma adv_or_stop_ok {A} s (k1 k2 : M A) Q :
  listening s ->
  (forall s', settled s s' -> state (dev s') = ble_st_idle -> wp k1 s' Q) ->
  (forall s', settled s s' -> state (dev s') = ble_st_adv -> wp k2 s' Q) ->
  wp (do r <- ble_adv_set true;
      do r <- (if negb (r =? 0) then ret (-1) else ble_arm (listen_fd (dev s)) accept_cb);
      if negb (r =? 0) then ble_stop;; k1 else modify (set_state ble_st_adv);; k2) s Q.
Proof.
  intros Hs H1 H2. apply wp_assoc.
  wp (adv_and_arm_ok s Hs) as r s1 (S1 & V1 & O1 & A1). destruct (Z.eqb_spec r 0); cbn [negb].
  - wp_pure. apply H2; [ | done]. destruct (A1 ltac:(done)) as (L & He & Hn & Hw & Hon & Hl).
    split; [ | done.. | by cbn; rewrite V1]. split; [by destruct O1 | by split_and!].
  - wp (ble_stop_ok s1 O1) as x s2 [H3 H4]. apply H1; [by eapply settled_trans | done].
Qed.

Lemma settled_reset s s1 s2 :
  sent (sy s1) = sent (sy s) -> srv (dev s1) = reset_link (srv (dev s)) -> settled s1 s2 -> settled s s2.
Proof. intros Hs Hv [H1 H2 H3 H4]. rewrite Hv in H4. split; try done; congruence. Qed.

Lemma ble_peer_left_ok s :
  owns s -> adv_wanted (dev s) = true -> 0 <= listen_fd (dev s) ->
  wp ble_peer_left s (fun _ s' => settled s s').
Proof.
  intros Ho Hw Hl. unfold ble_peer_left. apply drop_conn; [done | ]. intros s1 [E1 F1 R1 S1].
  wp_pure. set (s2 := St _ (sy s1)). wp_pure.
  assert (E2 : dev s2 = Ble (-1) None (listen_fd (dev s)) ble_st_idle true false
    (reset_link (srv (dev s))) []).
  { unfold s2. cbn [dev]. rewrite E1. by rewrite <- Hw. }
  assert (Hs2 : listening s2).
  { split; [split | ]; rewrite ?E2; [ | done | apply reset_link_wf, Ho | apply Ho | by split_and!].
    unfold s2. cbn [sy]. rewrite F1. done. }
  rewrite E2. cbn [adv_wanted listen_fd]. rewrite (proj2 (Z.ltb_ge _ _)) by lia. cbn [negb orb].
  replace (listen_fd (dev s)) with (listen_fd (dev s2)) by (by rewrite E2).
  apply adv_or_stop_ok; [done | | ]; intros s3 H3 _; apply wp_ret;
    (apply (settled_reset s s2); [done | by rewrite E2 | done]).
Qed.

(** The inputs the kernel and the command line can give: bytes. *)
Definition rx_bytes (q : list rx) : Prop :=
  Forall (fun r => match r with RxPdu p => bytes p | _ => True end) q.

Lemma owns_srv s a : owns s -> wf a -> owns (St (set_srv a (dev s)) (sy s)).
Proof. intros [] Ha. by split. Qed.

Lemma ble_tx_ok fd pdu s :
  wp (ble_tx fd pdu) s (fun r s' =>
    dev s' = dev s /\ fds (sy s') = fds (sy s) /\ regs (sy s') = regs (sy s) /\
    (r = 0 -> sent (sy s') = sent (sy s) ++ (match pdu with [] => [] | _ => [(fd, pdu)] end)) /\
    (r <> 0 -> sent (sy s') = sent (sy s))).
Proof.
  unfold ble_tx. destruct pdu as [|x pdu]; [by apply wp_ret; rewrite app_nil_r | ].
  rewrite (proj2 (Z.leb_gt _ _)) by (cbn [length]; lia). apply wp_bind. unfold send_att.
  wp (sys_quiet s) as w s1 [E1 F1 R1 S1]. apply wp_bind. unfold wp at 1. apply wp_ret, wp_ret.
  cbn [dev sy fds regs sent]. destruct (w =? _); cbn [negb]; (split_and!; [done..| | ]);
    intros Hr; rewrite ?S1; done.
Qed.

Lemma rx_loop_ok fd q s :
  rx_bytes q -> inv s -> state (dev s) = ble_st_connected -> evfd (dev s) = fd ->
  wp (rx_loop fd q) s (fun _ s' => inv s').
Proof.
  intros Hq. revert s. induction Hq as [|r q Hr Hq IH]; intros s Hi Hst Hfd; [by apply wp_ret | ].
  assert (Hleft : forall s1, owns s1 -> conn_ok (dev s1) -> wp ble_peer_left s1 (fun _ s' => inv s')).
  { intros s1 Ho (? & _ & _ & _ & ? & _). eapply wp_mono; [by apply ble_peer_left_ok | ]. by intros x s2 []. }
  pose proof Hi as [Ho Hc]. rewrite Hst in Hc.
  destruct r as [| | |req]; cbn [rx_loop]; [by apply IH | by apply wp_ret | by apply Hleft | ].
  wp_if; [by apply Hleft | ]. wp_pure.
  destruct (att_pdu_fine (srv (dev s)) req (w_srv _ Ho) Hr) as (a & rsp & Ea & Hwf & _ & _).
  apply wp_bind. eapply wp_lift; [exact Ea | ]. cbn [fst snd]. wp_pure.
  set (s1 := St _ (sy s)). assert (Ho1 : owns s1) by (by apply owns_srv).
  apply wp_bind. apply (wp_mono _ _ (fun _ s' => dev s' = dev s1 /\ owns s')).
  { wp_if; [ | by apply wp_ret]. eapply wp_mono; [apply ble_tx_ok | ]. cbv beta.
    intros t s2 (E2 & F2 & R2 & _). split; [done | ]. destruct Ho1. split; congruence. }
  intros t s2 [E2 Ho2]. assert (Hc2 : conn_ok (dev s2)) by (by rewrite E2).
  wp_if; [by apply Hleft | ]. apply IH; [ | by rewrite E2 | by rewrite E2].
  split; [done | ]. by rewrite E2; cbn [dev s1 set_srv state]; rewrite Hst.
Qed.

Lemma ble_rx_cb_ok fd readable q s :
  rx_bytes q -> inv s -> state (dev s) = ble_st_connected ->
  wp (ble_rx_cb fd readable q) s (fun _ s' => inv s').
Proof.
  intros Hq Hi Hst. unfold ble_rx_cb. wp_pure.
  destruct (Z.eqb_spec (evfd (dev s)) fd); cbn [negb]; [ | by apply wp_ret].
  wp_if; [by apply wp_ret | by apply rx_loop_ok].
Qed.

(** A link that was not there before starts with the default MTU and with
    notifications off. *)
Definition new_link (b b' : ble) : Prop :=
  is_connected (state b) = false -> is_connected (state b') = true ->
  mtu (srv b') = 23 /\ cccd (srv b') = 0.

Lemma new_link_same b : new_link b b.
Proof. unfold new_link. congruence. Qed.

Lemma new_link_down b b' : is_connected (state b') = false -> new_link b b'.
Proof. unfold new_link. congruence. Qed.
#[local] Hint Resolve new_link_same new_link_down : core.

Lemma ble_accept_cb_ok fd readable addr s :
  inv s -> state (dev s) = ble_st_adv ->
  wp (ble_accept_cb fd readable addr) s (fun _ s' => inv s' /\ new_link (dev s) (dev s')).
Proof.
  intros Hi Hst. unfold ble_accept_cb. wp_pure. wp_if; [by apply wp_ret | ].
  wp_if; [by apply wp_ret | ]. pose proof Hi as [Ho Ha]. rewrite Hst in Ha.
  destruct Ha as (Hl & He & Hev & Hw & Hon & Hfr).
  wp (open_fd_ok s) as conn s1 [[-> [E1 F1 R1 S1]]|[Hge Hnew E1 F1 R1 S1]].
  { apply wp_ret. destruct Ho as [W1 W2 W3 W4].
    split; [ | rewrite E1; auto]. split; [split | ]; rewrite ?E1, ?F1, ?R1; try done. rewrite Hst. by split_and!. }
  rewrite (proj2 (Z.ltb_ge _ _)) by lia. wp_pure. set (s2 := St _ (sy s1)).
  destruct Ho as [W1 W2 W3 W4].
  assert (Hheld : fds (sy s) = [listen_fd (dev s)]).
  { rewrite W1. unfold held, listener. rewrite He, Z.eqb_refl, andb_false_r.
    by rewrite (proj2 (Z.leb_le _ _) Hl). }
  assert (Hne : conn <> listen_fd (dev s)) by (intros ->; apply Hnew; rewrite Hheld; by left).
  assert (Hr2 : regs (sy s2) = option_list (ev (dev s2))).
  { unfold s2. cbn [sy dev]. rewrite R1, E1. exact W2. }
  wp (ble_arm_ok conn rx_cb s2 Hr2) as r s3 (F3 & S3 & Hcase).
  assert (F3' : fds (sy s3) = [conn; listen_fd (dev s)]) by (rewrite F3; unfold s2; cbn [sy]; congruence).
  assert (E2 : dev s2 = set_state ble_st_connected (set_on false (set_srv (reset_link (srv (dev s)))
    (set_peer (ba2str addr) (dev s))))) by (unfold s2; cbn [dev]; by rewrite E1).
  destruct Hcase as [(-> & E3 & R3)|(-> & E3 & R3)]; rewrite E2 in E3; cbn [negb Z.eqb].
  - apply wp_ret. split; [ | by rewrite E3]. split; rewrite ?E3; [ | by split_and!].
    split; rewrite ?E3; [ | by rewrite R3 | by apply reset_link_wf | done].
    rewrite F3'. unfold held, listener. cbn.
    by rewrite (proj2 (Z.leb_le _ _) Hge), (proj2 (Z.eqb_neq _ _) Hne), (proj2 (Z.leb_le _ _) Hl).
  - apply wp_bind. unfold wp at 1, close_fd. rewrite F3'. rewrite bool_decide_true by (by left).
    rewrite filter_cons_False by (intros Hx; by apply Hx).
    rewrite filter_ne_id by (rewrite list_elem_of_singleton; done).
    eapply wp_mono; [apply ble_peer_left_ok | intros x s5 []; auto]; cbn [dev sy]; rewrite ?E3; try done.
    split; cbn [dev sy fds regs]; rewrite ?E3; [ | done | by apply reset_link_wf | done].
    unfold held, listener. cbn. by rewrite (proj2 (Z.leb_le _ _) Hl).
Qed.

Lemma ble_listen_open_ok s :
  wp ble_listen_open s (fun r s' =>
    r = -1 /\ quiet s s' \/
    r = 0 /\ exists fd, 0 <= fd /\ dev s' = set_listen fd (dev s) /\ fds (sy s') = fd :: fds (sy s) /\
      regs (sy s') = regs (sy s) /\ sent (sy s') = sent (sy s)).
Proof.
  unfold ble_listen_open. wp (open_fd_ok s) as fd s1 [[-> H1]|H1]; [apply wp_ret; by left | ].
  rewrite (proj2 (Z.ltb_ge _ _)) by apply H1.
  do 4 (eapply try_call; [done | by left | clear dependent s1; intros s1 H1]).
  wp_pure. apply wp_ret. right. split; [done | ]. exists fd. destruct H1. cbn [dev sy].
  split_and!; congruence || done.
Qed.

Lemma ble_advertise_ok on s :
  inv s -> wp (ble_advertise on) s (fun r s' => inv s' /\ sent (sy s') = sent (sy s) /\
    is_connected (state (dev s')) = false).
Proof.
  intros [Ho Hi]. unfold ble_advertise. destruct on; cbn [negb].
  2:{ wp (ble_stop_ok s Ho) as x s1 [[] _]. by apply wp_ret. }
  wp_pure. apply wp_bind.
  apply (wp_mono _ _ (fun _ s' => owns s' /\ idle_ok (dev s') /\ state (dev s') = ble_st_idle /\
    sent (sy s') = sent (sy s))).
  { destruct (state (dev s)) eqn:Hst; cbn [is_idle negb]; [by apply wp_ret | | ];
      (eapply wp_mono; [by apply ble_stop_ok | ]); intros x s1 [[[Ho1 Hi1] Hs1 _ _] Hst1];
      rewrite Hst1 in Hi1; done. }
  intros x s1 (Ho1 & Hi1 & Hst1 & Hs1).
  assert (Hidle : forall s2, quiet s1 s2 -> inv s2 /\ sent (sy s2) = sent (sy s) /\
    is_connected (state (dev s2)) = false).
  { intros s2 H2. pose proof (owns_ext _ _ Ho1 H2). destruct H2 as [E2 F2 R2 S2].
    split_and!; [split; [done | ] | congruence | ]; by rewrite E2, Hst1. }
  wp (ble_hci_up_quiet s1) as r s2 H2. wp_if; [by apply wp_ret, Hidle | ].
  wp (ble_listen_open_ok s2) as r2 s3 [[-> H3]|(-> & fd & Hfd & E3 & F3 & R3 & S3)].
  { apply wp_ret. apply Hidle. eauto using quiet_trans. }
  cbn [negb Z.eqb]. wp_pure. set (s4 := St _ (sy s3)). wp_pure.
  destruct H2 as [E2 F2 R2 S2]. destruct Hi1 as (I1 & I2 & I3 & I4 & I5 & I6).
  assert (E4 : dev s4 = set_wanted true (set_listen fd (dev s1)))
    by (unfold s4; cbn [dev]; by rewrite E3, E2).
  assert (Hs4 : listening s4).
  { destruct Ho1 as [W1 W2 W3 W4]. split; [split | ]; rewrite ?E4; try done; [ | | cbn; lia].
    - unfold s4. cbn [sy]. rewrite F3, F2, W1. unfold held, listener. cbn. rewrite I1, I3. cbn.
      by rewrite (proj2 (Z.leb_le _ _) Hfd).
    - unfold s4. cbn [sy]. rewrite R3, R2. done. }
  assert (S4 : sent (sy s4) = sent (sy s)) by (unfold s4; cbn [sy]; congruence).
  apply adv_or_stop_ok; [done | | ]; intros s5 [Hi5 S5 D5 _] Hst5.
  - apply wp_ret. split_and!; [done | congruence | done].
  - wp (ble_hci_addr_quiet s5) as y s6 H6. apply wp_ret. destruct Hi5 as [Ho5 Hi5].
    pose proof (owns_ext _ _ Ho5 H6). destruct H6 as [E6 F6 R6 S6].
    split_and!; [split; [done | by rewrite E6] | congruence | by rewrite E6].
Qed.

(** When a notification may go out. *)
Definition may_notify (b : ble) (text : list Z) : bool :=
  is_connected (state b) && negb (Z.land (cccd (srv b)) 1 =? 0) &&
  (Z.of_nat (length text) <=? Z.min (mtu (srv b) - 3) BLE_VALUE_MAX).

Definition nfy (text : list Z) : list Z := [ATT_OP_HANDLE_NFY] ++ put_le16 HDL_CUS_VAL ++ text.

(** The link after a notification: only the value changed, to [text]. *)
Record notified (text : list Z) (s s' : st) : Prop := Notified {
  n_inv : inv s'; n_state : state (dev s') = ble_st_connected;
  n_mtu : mtu (srv (dev s')) = mtu (srv (dev s)); n_cccd : cccd (srv (dev s')) = cccd (srv (dev s));
  n_value : att_value (srv (dev s')) HDL_CUS_VAL 64 = Some text;
  n_sent : sent (sy s') = sent (sy s) ++ [(evfd (dev s), nfy text)] }.

Lemma ble_notify_no text s :
  inv s -> may_notify (dev s) text = false -> ble_notify text s = Some (-1, s).
Proof.
  intros [Ho Hi] Hn. unfold ble_notify, bind, get. unfold may_notify in Hn. destruct Ho as [_ _ Hwf _].
  destruct (state (dev s)) eqn:Hst; [done | done | ]. cbn [is_connected negb andb orb] in *.
  destruct (evfd (dev s) <? 0); [done | ].
  destruct (Z.land (cccd (srv (dev s))) 1 =? 0); [done | ]. cbn [negb andb] in Hn.
  apply Z.leb_gt in Hn. unfold BLE_VALUE_MAX in *.
  rewrite (proj2 (Z.ltb_lt _ _)); [done | ]. destruct (Z.ltb_spec 64 (mtu (srv (dev s)) - 3)); lia.
Qed.

(** The value bytes after the copy. *)
Lemma store_value a text :
  wf a -> bytes text -> Z.of_nat (length text) <= 64 ->
  exists v, (if 0 <? Z.of_nat (length text) then blit (value a) 0 text else Some (value a)) = Some v /\
    wf (AttSt (mtu a) (cccd a) v (u16 (Z.of_nat (length text)))) /\
    att_value (AttSt (mtu a) (cccd a) v (u16 (Z.of_nat (length text)))) HDL_CUS_VAL 64 = Some text.
Proof.
  intros Hwf Hb Hl. destruct (att_write_value a text Hwf Hl Hb) as (v & Ew & Es).
  destruct (att_write_ok a HDL_CUS_VAL text Hwf Hb) as (c & a' & Ew' & Hwf' & _).
  rewrite Ew in Ew'. injection Ew' as <- <-.
  exists v. rewrite u16_id by mlia. split_and!; [ | done | ].
  - unfold att_write in Ew. change (HDL_CUS_VAL =? HDL_CUS_CCCD) with false in Ew.
    rewrite Z.eqb_refl, (proj2 (Z.ltb_ge _ _)) in Ew by (unfold BLE_VALUE_MAX; lia). cbv iota in Ew.
    destruct (if 0 <? Z.of_nat (length text) then _ else _) as [v'|]; [ | done].
    by injection Ew as ->.
  - change (att_value _ HDL_CUS_VAL 64) with
      (if 64 <? Z.of_nat (length (slice v 0 (Z.of_nat (length text)))) then None
       else Some (slice v 0 (Z.of_nat (length text)))).
    rewrite Es, (proj2 (Z.ltb_ge _ _)) by lia. done.
Qed.

Lemma ble_notify_yes text s :
  inv s -> bytes text -> may_notify (dev s) text = true ->
  wp (ble_notify text) s (fun r s' =>
    r = 0 /\ notified text s s' \/ r = -1 /\ inv s' /\ is_connected (state (dev s')) = false /\
      sent (sy s') = sent (sy s)).
Proof.
  intros [Ho Hi] Hb Hn. unfold may_notify in Hn.
  apply andb_true_iff in Hn as [[Hst Hcc%negb_true_iff]%andb_true_iff Hl%Z.leb_le].
  destruct (state (dev s)) eqn:Es; [done | done | ]. destruct Hi as (Hl0 & Hfd & Hne & Hev & Hw & Hon).
  unfold BLE_VALUE_MAX in *. unfold ble_notify. wp_pure. rewrite Es. cbn [is_connected negb orb].
  rewrite (proj2 (Z.ltb_ge _ _)) by lia. rewrite Hcc.
  rewrite (proj2 (Z.ltb_ge _ (Z.of_nat (length text))))
    by (unfold BLE_VALUE_MAX; destruct (Z.ltb_spec 64 (mtu (srv (dev s)) - 3)); lia).
  destruct (store_value (srv (dev s)) text) as (v & Ev & Hwf & Hv); [apply Ho | done | lia | ].
  apply wp_bind. eapply wp_lift; [exact Ev | ]. cbv beta. wp_pure. set (s1 := St _ (sy s)).
  assert (Ho1 : owns s1) by (by apply owns_srv).
  wp (ble_tx_ok (evfd (dev s)) (nfy text) s1) as r s2 (E2 & F2 & R2 & S2 & S2').
  assert (Ho2 : owns s2) by (destruct Ho1; split; congruence).
  destruct (Z.eqb_spec r 0) as [->|Hr]; cbn [negb].
  - apply wp_ret. left. split; [done | ]. split; rewrite ?E2; try done.
    + split; [done | ]. rewrite E2. cbn [dev s1 set_srv state]. rewrite Es. by split_and!.
    + by rewrite S2.
  - apply wp_bind. eapply wp_mono; [apply ble_peer_left_ok; [done | by rewrite E2 | by rewrite E2] | ].
    intros x s3 [H3 S3 D3 _]. apply wp_ret. right. split_and!; [done | done | done | ].
    by rewrite S3, S2'.
Qed.

Definition argv_bytes (argv : list (list Z)) : Prop := Forall bytes argv.

Lemma join_text_bytes first text sz argv t :
  bytes text -> argv_bytes argv -> join_text first text sz argv = Some t -> bytes t.
Proof.
  intros Ht Ha. revert first text Ht. induction Ha as [|a argv Hb Ha IH]; intros first text Ht.
  { by intros [= <-]. }
  cbn [join_text]. destruct (_ <=? _); [done | ]. apply IH. apply bytes_app; [done | ].
  apply bytes_app; [ | done]. destruct first; by byte_list.
Qed.

Lemma cli_ok argv s :
  inv s -> argv_bytes argv ->
  wp (cli_cmd_blegatt argv) s (fun _ s' => inv s' /\ new_link (dev s) (dev s')).
Proof.
  intros Hi Ha. unfold cli_cmd_blegatt.
  assert (Hno : forall r : Z, wp (ret r) s (fun _ s' => inv s' /\ new_link (dev s) (dev s')))
    by (intros r; apply wp_ret; auto).
  destruct argv as [|c [|sub args]]; [apply Hno.. | ].
  wp_if.
  { eapply wp_mono; [apply ble_hci_up_quiet | ]. intros r s1 H1. destruct Hi as [Ho Hi].
    pose proof (owns_ext _ _ Ho H1). destruct H1 as [E1 _ _ _]. split; [split; [done | by rewrite E1] | rewrite E1; auto]. }
  wp_if.
  { destruct args as [|a args]; [apply Hno | ]. wp_if; [apply Hno | ].
    eapply wp_mono; [by apply ble_advertise_ok | ]. intros r s1 (? & _ & ?). auto. }
  wp_if.
  { destruct args as [|a args]; [apply Hno | ].
    destruct (ble_join_text _ 2 _) as [text|] eqn:Et; [ | apply Hno].
    apply join_text_bytes in Et; [ | constructor | by apply Forall_drop].
    destruct (may_notify (dev s) text) eqn:Em.
    - eapply wp_mono; [by apply ble_notify_yes | ]. cbv beta.
      assert (Hup : is_connected (state (dev s)) = true).
      { unfold may_notify in Em. by apply andb_true_iff in Em as [[? _]%andb_true_iff _]. }
      intros r s1 [[_ []]|(_ & ? & _)]; (split; [done | ]); intros ?; congruence.
    - unfold wp. rewrite ble_notify_no by done. auto. }
  wp_if; [ | apply Hno]. destruct Hi as [Ho _].
  wp (ble_stop_ok s Ho) as x s1 [[] _]. apply wp_ret. auto.
Qed.

Definition input_bytes (i : input) : Prop :=
  match i with Cli argv => argv_bytes argv | Ready _ q _ => rx_bytes q end.

Lemma step_ok i s :
  inv s -> input_bytes i -> wp (step i) s (fun _ s' => inv s' /\ new_link (dev s) (dev s')).
Proof.
  intros Hi Hb. destruct i as [argv|readable q addr]; cbn [step input_bytes] in *.
  - apply wp_bind. eapply wp_mono; [by apply cli_ok | ]. intros r s1 H1. by apply wp_ret.
  - pose proof Hi as [[_ Hr _ _] Hs]. unfold wp. destruct (state (dev s)) eqn:Hst.
    + destruct Hs as (_ & Hev & _). rewrite Hr, Hev. cbn. auto.
    + destruct Hs as (_ & _ & Hev & _). rewrite Hr, Hev. by apply ble_accept_cb_ok.
    + destruct Hs as (_ & _ & _ & Hev & _). rewrite Hr, Hev.
      apply (wp_mono (ble_rx_cb (evfd (dev s)) readable q) s (fun _ s' => inv s')); [by apply ble_rx_cb_ok | ].
      intros x s' H. split; [done | ]. unfold new_link. by rewrite Hst.
Qed.

Lemma run_ok l s : inv s -> Forall input_bytes l -> wp (run l) s (fun _ s' => inv s').
Proof.
  intros Hi Hl. revert s Hi. induction Hl as [|i l Hb Hl IH]; intros s Hi; [by apply wp_ret | ].
  cbn [run]. apply wp_bind. eapply wp_mono; [by apply step_ok | ]. intros x s1 [H1 _]. by apply IH.
Qed.

Lemma start_inv a e : inv (start a e).
Proof. split; [split; try done; apply att0_wf | by vm_compute]. Qed.

(* ------------------------------------------------------------------ *)
(** ** Theorems *)

(** C3: whatever commands, connections, requests and failures of system calls
    and HCI commands the component meets, in any order, it never closes a
    descriptor that is not open nor leaves the attribute table, and after each
    of them: idle, it holds no descriptor and no handler; advertising, it
    holds the listening socket alone, watched for connections, with MTU 23 and
    notifications off; connected, it holds that socket and one connection,
    which alone is watched, for requests; [blegatt_destroy] then releases
    everything.  The command or event that makes a connection leaves MTU 23
    and notifications off: a peer never inherits the MTU or the notify flag of
    the one before. *)
Theorem ble_run_safe answers events l :
  Forall input_bytes l ->
  exists s, run l (start answers events) = Some (tt, s) /\
    wf (srv (dev s)) /\
    match state (dev s) with
    | ble_st_idle =>
        fds (sy s) = [] /\ regs (sy s) = [] /\ adv_on (dev s) = false /\ fresh_link (dev s)
    | ble_st_adv =>
        fds (sy s) = [listen_fd (dev s)] /\ regs (sy s) = [(listen_fd (dev s), accept_cb)] /\
        adv_on (dev s) = true /\ fresh_link (dev s)
    | ble_st_connected =>
        fds (sy s) = [evfd (dev s); listen_fd (dev s)] /\ evfd (dev s) <> listen_fd (dev s) /\
        regs (sy s) = [(evfd (dev s), rx_cb)] /\ adv_on (dev s) = false
    end /\
    (forall i, input_bytes i -> exists s', step i s = Some (tt, s') /\
       (state (dev s) <> ble_st_connected -> state (dev s') = ble_st_connected ->
        mtu (srv (dev s')) = 23 /\ cccd (srv (dev s')) = 0)) /\
    exists s', blegatt_destroy s = Some (tt, s') /\ fds (sy s') = [] /\ regs (sy s') = [].
Proof.
  intros Hl. pose proof (run_ok l _ (start_inv answers events) Hl) as H. unfold wp in H.
  destruct (run l _) as [[[] s]|]; [ | done]. exists s. split; [done | ].
  pose proof (ble_stop_ok s (proj1 H)) as Hd. unfold wp in Hd. pose proof H as Hinv.
  destruct H as [[W1 W2 W3 _] Hs]. split; [done | ]. split.
  2:{ split.
      - intros i Hb. pose proof (step_ok i s Hinv Hb) as Hn. unfold wp in Hn.
        destruct (step i s) as [[[] s']|]; [ | done]. exists s'. split; [done | ]. intros Hno Hup.
        apply Hn; [by destruct (state (dev s)) | by rewrite Hup].
      - unfold blegatt_destroy. destruct (ble_stop s) as [[[] s']|]; [ | done]. exists s'. split; [done | ].
        destruct Hd as [[[[X1 X2 _ _] Hi] _ _ _] Hst]. rewrite Hst in Hi.
        destruct Hi as (Y1 & Y2 & Y3 & _). unfold held, listener in X1. rewrite X1, X2, Y1, Y2, Y3. done. }
  rewrite W1, W2. unfold held, listener.
  destruct (state (dev s)).
  - destruct Hs as (-> & -> & -> & _ & Hon & Hf). done.
  - destruct Hs as (Hl0 & -> & -> & _ & Hon & Hf).
    rewrite Z.eqb_refl, andb_false_r, (proj2 (Z.leb_le _ _) Hl0). done.
  - destruct Hs as (Hl0 & Hc & Hne & -> & _ & Hon).
    rewrite (proj2 (Z.leb_le _ _) Hl0), (proj2 (Z.leb_le _ _) Hc), (proj2 (Z.eqb_neq _ _) Hne). done.
Qed.

(** A scenario: advertise, accept, exchange MTU 64, enable notifications,
    notify, peer gone, advertising again. *)
Definition complete (opcode : Z) : list tick :=
  [PollIntr; RecvPkt ([0x04; 0x0e; 4; 1] ++ put_le16 opcode ++ [0])].
Definition adv_events : list (list tick) :=
  map complete [HCI_OP_WRITE_LE_HOST_SUPPORTED; HCI_OP_LE_SET_ADV_ENABLE; HCI_OP_LE_SET_ADV_PARAM;
    HCI_OP_LE_SET_ADV_DATA; HCI_OP_LE_SET_SCAN_RSP_DATA; HCI_OP_LE_SET_ADV_ENABLE].
Definition adv_answers : list Z :=
  [7; 0; 0] ++ [0; 6; 0; 5; 0; 19; 0; 36; 0; 36; 0; 5].
Definition demo_answers : list Z :=
  [5; 0] ++ [5; 0] ++ [6; 0; 0; 0; 0] ++ adv_answers ++ [1] ++ [8; 0] ++
  [7; 1] ++ [3; 1] ++ [5] ++ adv_answers ++ [1].
Definition demo_inputs : list input :=
  [Cli [bs "blegatt"; bs "advertise"; bs "on"];
   Ready true [] [1; 2; 3; 4; 5; 6];
   Ready true [RxPdu [2; 64; 0]; RxPdu [0x12; 10; 0; 1; 0]] [];
   Cli [bs "blegatt"; bs "notify"; bs "hi"];
   Ready true [RxPdu []] []].

Lemma demo_inputs_bytes : Forall input_bytes demo_inputs.
Proof.
  repeat (apply Forall_cons; split; [vm_compute; repeat constructor; discriminate | ]). apply Forall_nil_2.
Qed.

Lemma ble_run_safe_witness :
  sent (sy (match run demo_inputs (start demo_answers (adv_events ++ adv_events)) with
            | Some (_, s) => s | None => start [] [] end)) =
    [(7, [3; 128; 0]); (7, [0x13]); (7, [0x1b; 9; 0; 104; 105])] /\
  exists s, run demo_inputs (start demo_answers (adv_events ++ adv_events)) = Some (tt, s) /\
    wf (srv (dev s)) /\ state (dev s) = ble_st_adv /\ fds (sy s) = [listen_fd (dev s)].
Proof.
  split; [vm_compute; reflexivity | ].
  destruct (ble_run_safe demo_answers (adv_events ++ adv_events) demo_inputs demo_inputs_bytes)
    as (s & E & Hwf & Hs & _ & _).
  exists s. split; [exact E | ]. split; [exact Hwf | ].
  assert (Hst : state (dev s) = ble_st_adv).
  { revert E. vm_compute. by intros [= <-]. }
  rewrite Hst in Hs. destruct Hs as [Hf _]. by split.
Defined.

Lemma att_value_read a text :
  wf a -> att_value a HDL_CUS_VAL 64 = Some text -> read_long a HDL_CUS_VAL = text.
Proof. intros. by apply read_long_ok. Qed.

Lemma nfy_length text : Z.of_nat (length (nfy text)) = Z.of_nat (length text) + 3.
Proof. unfold nfy. rewrite !length_app. cbn. lia. Qed.

(** A notification goes out exactly when a peer is connected, has enabled
    notifications and the text fits the smaller of 64 and its MTU less 3;
    otherwise the command fails and changes nothing.  When it goes out the
    peer receives one Handle Value Notification of the value handle with the
    text, within its MTU, the text becomes the value the peer reads, and the
    link stays as it is; if the send fails nothing was sent and the peer is
    dropped. *)
Theorem ble_notify_spec text s :
  inv s -> bytes text ->
  if may_notify (dev s) text
  then exists r s', ble_notify text s = Some (r, s') /\
    (r = 0 /\ inv s' /\ state (dev s') = ble_st_connected /\
       mtu (srv (dev s')) = mtu (srv (dev s)) /\ cccd (srv (dev s')) = cccd (srv (dev s)) /\
       sent (sy s') = sent (sy s) ++ [(evfd (dev s), [0x1b; 9; 0] ++ text)] /\
       Z.of_nat (length text) + 3 <= mtu (srv (dev s)) /\
       read_long (srv (dev s')) HDL_CUS_VAL = text
     \/ r = -1 /\ inv s' /\ state (dev s') <> ble_st_connected /\ sent (sy s') = sent (sy s))
  else ble_notify text s = Some (-1, s).
Proof.
  intros Hi Hb. destruct (may_notify (dev s) text) eqn:Em; [ | by apply ble_notify_no].
  pose proof (ble_notify_yes text s Hi Hb Em) as H. unfold wp in H.
  destruct (ble_notify text s) as [[r s']|]; [ | done]. exists r, s'. split; [done | ].
  destruct H as [(-> & [N1 N2 N3 N4 N5 N6])|(-> & H1 & H2 & H3)].
  - left. split_and!; try done.
    + unfold may_notify in Em. apply andb_true_iff in Em as [_ Em%Z.leb_le]. lia.
    + apply att_value_read; [apply N1 | done].
  - right. split_and!; try done. by intros E; rewrite E in H2.
Qed.

Definition final (l : list input) (s : st) : st :=
  match run l s with Some (_, s') => s' | None => s end.

Lemma final_inv l s : inv s -> Forall input_bytes l -> inv (final l s).
Proof.
  intros Hi Hl. pose proof (run_ok l s Hi Hl) as H. unfold wp in H. unfold final.
  by destruct (run l s) as [[x s']|].
Qed.

(** The state of the scenario before the notification. *)
Definition demo_connected : st :=
  final (take 3 demo_inputs) (start demo_answers (adv_events ++ adv_events)).

Lemma demo_connected_inv : inv demo_connected.
Proof. apply final_inv; [apply start_inv | apply Forall_take, demo_inputs_bytes]. Qed.

Lemma ble_notify_spec_witness :
  exists r s', ble_notify (bs "hi") demo_connected = Some (r, s') /\
    read_long (srv (dev s')) HDL_CUS_VAL = bs "hi" /\ r = 0.
Proof.
  pose proof (ble_notify_spec (bs "hi") demo_connected demo_connected_inv) as H.
  assert (Em : may_notify (dev demo_connected) (bs "hi") = true) by (vm_compute; reflexivity).
  rewrite Em in H. destruct H as (r & s' & E & H); [vm_compute; repeat constructor; discriminate | ].
  exists r, s'. split; [exact E | ]. assert (Hr : r = 0).
  { revert E. vm_compute. by intros [= <- <-]. }
  destruct H as [H|[H _]]; [by split_and!; [apply H | done] | by rewrite Hr in H].
Defined.

(** What [hci_wait] passes over: interruptions, timeouts, short packets,
    packets that are not events, events of other kinds or other commands, and
    a Command Status of success. *)
Definition passes (opcode : Z) (t : tick) : Prop :=
  match t with
  | PollIntr | PollTimeout | RecvRetry => True
  | PollErr | RecvErr => False
  | RecvPkt p =>
      Z.of_nat (length p) < 7 \/ ix p 0 <> HCI_EVENT_PKT \/ ix p 2 < 4 \/
      (ix p 1 <> HCI_EV_CMD_STATUS /\ ix p 1 <> HCI_EV_CMD_COMPLETE) \/
      (ix p 1 = HCI_EV_CMD_COMPLETE /\ get_le16 p 4 <> Some opcode) \/
      (ix p 1 = HCI_EV_CMD_STATUS /\ (get_le16 p 5 <> Some opcode \/ ix p 3 = 0))
  end.

Lemma hci_wait_passes opcode pre q :
  Forall (passes opcode) pre -> hci_wait opcode (pre ++ q) = hci_wait opcode q.
Proof.
  induction 1 as [|t pre Ht Hpre IH]; [done | ]. cbn [app hci_wait].
  destruct t as [| | | | |p]; try done. cbn [passes] in Ht.
  destruct (Z.ltb_spec (Z.of_nat (length p)) 7); [done | ].
  unfold get_le16 in *. rewrite !rd_ix in * by lia. cbn [mbind option_bind] in *.
  set (op5 := Z.lor (ix p 5) _) in *. set (op4 := Z.lor (ix p 4) _) in *.
  destruct (Z.eqb_spec (ix p 0) HCI_EVENT_PKT) as [E0|]; cbn [negb]; [ | done].
  destruct (Z.leb_spec 4 (ix p 2)) as [E2|]; [ | by rewrite !andb_false_r].
  rewrite !andb_true_r.
  destruct (Z.eqb_spec (ix p 1) HCI_EV_CMD_STATUS) as [Es|Es].
  { destruct (Z.eqb_spec op5 opcode) as [E5|]; cbn [negb]; [ | done].
    destruct (Z.eqb_spec (ix p 3) 0); cbn [negb]; [done | ].
    exfalso. rewrite Es, E5 in Ht. unfold HCI_EV_CMD_STATUS, HCI_EV_CMD_COMPLETE in *.
    destruct Ht as [?|[?|[?|[[? _]|[[? _]|[_ [?|?]]]]]]]; try lia; congruence. }
  destruct (Z.eqb_spec (ix p 1) HCI_EV_CMD_COMPLETE) as [Ec|Ec]; [ | done].
  destruct (Z.eqb_spec op4 opcode) as [E4|]; cbn [negb]; [ | done].
  exfalso. rewrite Ec, E4 in Ht. unfold HCI_EV_CMD_STATUS, HCI_EV_CMD_COMPLETE in *.
  destruct Ht as [?|[?|[?|[[_ ?]|[[_ ?]|[? _]]]]]]; try lia; congruence.
Qed.

(** The wait for an HCI command's completion never looks at a byte the
    packet does not have, and ends with an answer: whatever unrelated events,
    interruptions and retries come first, it returns the status of the first
    Command Complete for its opcode, or of the first Command Status for it
    that reports an error; without one before the deadline, or if polling or
    receiving fails, -1. *)
Theorem hci_wait_spec opcode pre rest p :
  is_u16 opcode -> Forall (passes opcode) pre ->
  hci_wait opcode pre = Some (-1) /\
  hci_wait opcode (pre ++ PollErr :: rest) = Some (-1) /\
  hci_wait opcode (pre ++ RecvErr :: rest) = Some (-1) /\
  (forall len ncmd status extra, 4 <= len ->
     p = [HCI_EVENT_PKT; HCI_EV_CMD_COMPLETE; len; ncmd] ++ put_le16 opcode ++ [status] ++ extra ->
     hci_wait opcode (pre ++ RecvPkt p :: rest) = Some status) /\
  (forall len ncmd status extra, 4 <= len -> status <> 0 ->
     p = [HCI_EVENT_PKT; HCI_EV_CMD_STATUS; len; status; ncmd] ++ put_le16 opcode ++ extra ->
     hci_wait opcode (pre ++ RecvPkt p :: rest) = Some status).
Proof.
  intros Hop Hpre. rewrite <- (app_nil_r pre) at 1. rewrite !hci_wait_passes by done.
  split_and!; try done.
  - intros len ncmd status extra Hlen Hp.
    assert (H0 : rd p 0 = Some HCI_EVENT_PKT) by (by rewrite Hp).
    assert (H1 : rd p 1 = Some HCI_EV_CMD_COMPLETE) by (by rewrite Hp).
    assert (H2 : rd p 2 = Some len) by (by rewrite Hp).
    assert (H4 : get_le16 p 4 = Some opcode)
      by (rewrite Hp; by apply (get_le16_at [_; _; _; _] opcode)).
    assert (H6 : rd p 6 = Some status) by (by rewrite Hp).
    cbn [hci_wait]. rewrite (proj2 (Z.ltb_ge _ _)) by (rewrite Hp, !length_app; cbn; lia).
    rewrite H0, H1, H2, H4, H6. cbn [mbind option_bind].
    change (HCI_EV_CMD_COMPLETE =? HCI_EV_CMD_STATUS) with false.
    by rewrite (proj2 (Z.leb_le _ _) Hlen), !Z.eqb_refl.
  - intros len ncmd status extra Hlen Hs Hp.
    assert (H0 : rd p 0 = Some HCI_EVENT_PKT) by (by rewrite Hp).
    assert (H1 : rd p 1 = Some HCI_EV_CMD_STATUS) by (by rewrite Hp).
    assert (H2 : rd p 2 = Some len) by (by rewrite Hp).
    assert (H3 : rd p 3 = Some status) by (by rewrite Hp).
    assert (H5 : get_le16 p 5 = Some opcode)
      by (rewrite Hp; by apply (get_le16_at [_; _; _; _; _] opcode)).
    cbn [hci_wait]. rewrite (proj2 (Z.ltb_ge _ _)) by (rewrite Hp, !length_app; cbn; lia).
    rewrite H0, H1, H2, H3, H5. cbn [mbind option_bind].
    by rewrite (proj2 (Z.leb_le _ _) Hlen), !Z.eqb_refl, (proj2 (Z.eqb_neq _ _) Hs).
Qed.

(** An interruption, an event for another command and a successful Command
    Status come before the Command Complete. *)
Lemma hci_wait_spec_witness :
  hci_wait 0x200a ([PollIntr; RecvPkt [4; 0x0e; 4; 1; 8; 0x20; 7]; RecvPkt [4; 0x0f; 4; 0; 1; 0x0a; 0x20]]
    ++ [RecvPkt [4; 0x0e; 4; 1; 0x0a; 0x20; 12]]) = Some 12.
Proof.
  destruct (hci_wait_spec 0x200a
    [PollIntr; RecvPkt [4; 0x0e; 4; 1; 8; 0x20; 7]; RecvPkt [4; 0x0f; 4; 0; 1; 0x0a; 0x20]] []
    [4; 0x0e; 4; 1; 0x0a; 0x20; 12]) as (_ & _ & _ & H & _);
    [by vm_compute | | apply (H 4 1 12 []); [done | reflexivity]].
  repeat (apply Forall_cons; split); [done | | | apply Forall_nil_2]; cbn [passes].
  - right; right; right; right; left. split; [reflexivity | vm_compute; discriminate].
  - right; right; right; right; right. split; [reflexivity | right; reflexivity].
Defined.

(** A command that leaves [r] as its result after being sent once. *)
Lemma hci_cmd_log opcode param ign s r s' :
  hci_cmd opcode param ign s = Some (r, s') -> r = 0 ->
  hcmds (sy s') = hcmds (sy s) ++
    [[HCI_COMMAND_PKT] ++ put_le16 opcode ++ [u8 (Z.of_nat (length param))] ++ param].
Proof.
  unfold hci_cmd, hci_cmd_status, bind. set (n := Z.of_nat (length param)).
  destruct (32 <? n); [by intros [= <- <-] | ].
  unfold sys at 1. destruct (sysq (sy s)) as [|a q1]; [by intros [= <- <-] | ]. cbn [ret].
  destruct (a =? 0); cbn [negb]; [ | by intros [= <- <-]].
  unfold send_hci, bind, sys, ret. cbn [sysq sy].
  destruct q1 as [|w q2].
  { rewrite (proj2 (Z.eqb_neq (-1) (4 + n))) by lia. by intros [= <- <-]. }
  destruct (Z.eqb_spec w (4 + n)) as [Hw|]; cbn [negb]; [ | by intros [= <- <-]].
  set (buf := [HCI_COMMAND_PKT] ++ _).
  assert (Hlen : Z.of_nat (length buf) = 4 + n) by (unfold buf; rewrite !length_app; cbn; lia).
  rewrite Hlen, (proj2 (Z.eqb_eq w _) Hw). unfold hci_events. cbn [sy hciq dev hcmds].
  destruct (hciq (sy s)) as [|evs rest]; unfold lift; destruct (hci_wait opcode _) as [x|]; try done;
    repeat (destruct (_ : bool)); intros [= <- <-]; done.
Qed.

(** Operations that send no HCI command. *)
Definition keeps {A} (m : M A) : Prop :=
  forall s x s', m s = Some (x, s') -> hcmds (sy s') = hcmds (sy s).

Lemma keeps_ret {A} (x : A) : keeps (ret x).
Proof. by intros s y s' [= <- <-]. Qed.

Lemma keeps_bind {A B} (m : M A) (k : A -> M B) : keeps m -> (forall x, keeps (k x)) -> keeps (bind m k).
Proof.
  intros Hm Hk s y s'. unfold bind. destruct (m s) as [[x s1]|] eqn:E; [ | done].
  intros E'. rewrite (Hk _ _ _ _ E'). by eapply Hm.
Qed.

Lemma keeps_if {A} (c : bool) (m k : M A) : keeps m -> keeps k -> keeps (if c then m else k).
Proof. by destruct c. Qed.

Lemma keeps_sys : keeps sys.
Proof. intros s x s'. unfold sys. destruct (sysq (sy s)); by intros [= <- <-]. Qed.

Lemma keeps_close fd : keeps (close_fd fd).
Proof. intros s x s'. unfold close_fd. case_bool_decide; [by intros [= <- <-] | done]. Qed.

Lemma keeps_open : keeps open_fd.
Proof.
  apply keeps_bind; [apply keeps_sys | intros r]. apply keeps_if; [apply keeps_ret | ].
  by intros s x s' [= <- <-].
Qed.

Lemma keeps_modify f : keeps (modify f).
Proof. by intros s x s' [= <- <-]. Qed.

#[export] Hint Resolve keeps_ret keeps_bind keeps_if keeps_sys keeps_close keeps_open keeps_modify : wp.

Lemma keeps_hci_bind : keeps ble_hci_bind.
Proof. unfold ble_hci_bind, ble_hci_fd. auto 20 with wp. Qed.

(** The HCI command packet. *)
Definition hci_pkt (opcode : Z) (param : list Z) : list Z :=
  [HCI_COMMAND_PKT] ++ put_le16 opcode ++ [u8 (Z.of_nat (length param))] ++ param.

(** Advertising data as a receiver takes it apart: a count, then fields of a
    length, a type and bytes. *)
Fixpoint ad_fields (fuel : nat) (l : list Z) : list (Z * list Z) :=
  match fuel, l with
  | S fuel', n :: t :: l' =>
      if n =? 0 then []
      else (t, take (Z.to_nat (n - 1)) l') :: ad_fields fuel' (drop (Z.to_nat (n - 1)) l')
  | _, _ => []
  end.

Definition ad_decode (data : list Z) : list (Z * list Z) :=
  match data with [] => [] | n :: l => ad_fields 31 (take (Z.to_nat n) l) end.

Lemma adv_config_log s s' :
  ble_adv_config true s = Some (0, s') ->
  exists adv scan, adv_data = Some (Some adv) /\ scan_data = Some (Some scan) /\
    hcmds (sy s') = hcmds (sy s) ++
      [hci_pkt HCI_OP_WRITE_LE_HOST_SUPPORTED [1; 1]; hci_pkt HCI_OP_LE_SET_ADV_ENABLE [0];
       hci_pkt HCI_OP_LE_SET_ADV_PARAM adv_param; hci_pkt HCI_OP_LE_SET_ADV_DATA adv;
       hci_pkt HCI_OP_LE_SET_SCAN_RSP_DATA scan; hci_pkt HCI_OP_LE_SET_ADV_ENABLE [1]].
Proof.
  intros E. eexists _, _. split; [vm_compute; reflexivity | ]. split; [vm_compute; reflexivity | ].
  revert E. unfold ble_adv_config. unfold bind.
  repeat match goal with
  | |- context [match hci_cmd ?o ?p ?i ?s with _ => _ end] =>
      let E := fresh "E" in let r := fresh "r" in let s1 := fresh "s" in
      destruct (hci_cmd o p i s) as [[r s1]|] eqn:E; [ | done];
      destruct (Z.eqb_spec r 0) as [->|]; cbn [negb];
      [apply hci_cmd_log in E; [ | done] | by intros [= ? ?]]
  | |- context [lift ?o _] => let o' := eval vm_compute in o in change o with o'; cbn [lift]
  end.
  intros [= <-]. rewrite E4, E3, E2, E1, E0, E, <- !app_assoc. done.
Qed.

(** When advertising is turned on with success, the controller has been
    sent exactly these commands, in this order: LE host support, advertising
    off, parameters, advertising data, scan response, advertising on; the
    advertising data decodes to the general-discoverable flag and the
    service's UUID, the scan response to the device name, each within 31
    bytes; of the component's state only [adv_on] changed, and no descriptor
    is left open. *)
Theorem adv_set_commands s s' :
  ble_adv_set true s = Some (0, s') ->
  dev s' = set_on true (dev s) /\ fds (sy s') = fds (sy s) /\
  exists adv scan,
    hcmds (sy s') = hcmds (sy s) ++
      [hci_pkt 0x0c6d [1; 1]; hci_pkt 0x200a [0]; hci_pkt 0x2006 adv_param;
       hci_pkt 0x2008 adv; hci_pkt 0x2009 scan; hci_pkt 0x200a [1]] /\
    length adv = 32%nat /\ length scan = 32%nat /\ ix adv 0 <= 31 /\ ix scan 0 <= 31 /\
    ad_decode adv = [(0x01, [0x02]); (0x07, uuid_svc)] /\ ad_decode scan = [(0x09, ble_name)].
Proof.
  intros E. pose proof (ble_adv_set_ok true s) as Hq. unfold wp in Hq. rewrite E in Hq.
  destruct Hq as [E1 F1 _ _]. split; [done | ]. split; [done | ].
  unfold ble_adv_set, bind in E. destruct (ble_hci_bind s) as [[fd s1]|] eqn:Eb; [ | done].
  destruct (fd <? 0); [done | ]. destruct (ble_adv_config true s1) as [[r s2]|] eqn:Ec; [ | done].
  destruct (close_fd fd s2) as [[[] s3]|] eqn:Ed; [ | done].
  destruct (Z.eqb_spec r 0) as [->|]; cbn in E; [injection E as <- | by injection E as -> ->].
  destruct (adv_config_log _ _ Ec) as (adv & scan & Ha & Hs & Hl). exists adv, scan.
  split; [cbn [sy]; rewrite (keeps_close _ _ _ _ Ed), Hl, (keeps_hci_bind _ _ _ Eb); done | ].
  revert Ha Hs. vm_compute. intros [= <-] [= <-]. by split_and!.
Qed.

Lemma adv_set_commands_witness :
  exists s' adv scan, ble_adv_set true (start adv_answers adv_events) = Some (0, s') /\
    hcmds (sy s') = [hci_pkt 0x0c6d [1; 1]; hci_pkt 0x200a [0]; hci_pkt 0x2006 adv_param;
       hci_pkt 0x2008 adv; hci_pkt 0x2009 scan; hci_pkt 0x200a [1]].
Proof.
  destruct (ble_adv_set true (start adv_answers adv_events)) as [[r s']|] eqn:E; [ | by vm_compute in E].
  assert (r = 0) as -> by (by vm_compute in E; injection E as <- <-).
  destruct (adv_set_commands _ _ E) as (_ & _ & adv & scan & H & _).
  exists s', adv, scan. split; [reflexivity | exact H].
Defined.
