(* ===== verification/Ipc.v ===== *)
(** Ipc: the message channel of package/tester1/ipc.cpp, by which other
    threads hand callbacks to the event loop over a socket pair: the writer
    [ipc1_write], the stream parser [ipc1_input] behind [ipc1_cb], and the
    release of the two descriptors. *)

From S2P Require Import Prelude Buf Att.

(* ------------------------------------------------------------------ *)
(** ** Frames *)

Definition ipc1_type_callback1 : Z := 1.
Definition IPC1_MSG_LEADNG : list Z := [1; 0xa5; 1; 0x5a].

(** [aloe_offsetafter(ipc1_msg_t, length)]. *)
Definition hdr_len : Z := 10.

(** [ipc1_msg_t] on the wire (packed, little endian). *)
Record ipc1_msg : Type := Msg { seq : Z; type : Z; val : list Z }.

Definition header (m : ipc1_msg) : list Z :=
  IPC1_MSG_LEADNG ++ put_le16 (seq m) ++ put_le16 (type m) ++ put_le16 (u16 (Z.of_nat (length (val m)))).
Definition frame (m : ipc1_msg) : list Z := header m ++ val m.

(* ------------------------------------------------------------------ *)
(** ** Receiving *)

Inductive ipc1_parse_state : Type :=
  | ipc1_parse_state_sync | ipc1_parse_state_header | ipc1_parse_state_payload.

(** [msg_fb] (2048 bytes, [cap] of them) with its [pos], and [parse_state]. *)
Record ipc1 : Type := Ipc { msg_fb : list Z; fb_pos : Z; parse_state : ipc1_parse_state }.
Definition fb_cap : Z := 2048.

(** A call of a registered function: the pointer and its argument, as
    bytes. *)
Definition null : list Z := replicate 8 0.

(** The effect of a message: the callback it makes, if any.  [None]: [func] is
    read without a value (a callback message of fewer than 8 bytes). *)
Definition ipc1_input_msg (m : ipc1_msg) : option (option (list Z * list Z)) :=
  let length := Z.of_nat (length (val m)) in
  if type m =? ipc1_type_callback1 then
    func ← (if 8 <=? length then Some (slice (val m) 0 8) else None);
    let cbarg := if 8 + 8 <=? length then slice (val m) 8 8 else null in
    Some (if bool_decide (func = null) then None else Some (func, cbarg))
  else Some None.

(** What the parser hands on. *)
Definition event : Type := (ipc1_msg * option (list Z * list Z))%type.

(** The payload half of the loop body. *)
Definition ipc1_payload (fb : list Z) (pos : Z) : option (ipc1 * list event) :=
  length ← get_le16 fb 8;
  let msg_sz := hdr_len + length in
  if pos <? msg_sz then Some (Ipc fb pos ipc1_parse_state_payload, []) else
  seq ← get_le16 fb 4;
  type ← get_le16 fb 6;
  v ← load fb 10 length;
  let m := Msg seq type v in
  call ← ipc1_input_msg m;
  if pos <=? msg_sz then Some (Ipc fb 0 ipc1_parse_state_payload, [(m, call)]) else
  rest ← load fb msg_sz (pos - msg_sz);
  fb' ← blit fb 0 rest;
  Some (Ipc fb' (pos - msg_sz) ipc1_parse_state_payload, [(m, call)]).

(** One byte of the stream. *)
Definition ipc1_byte (s : ipc1) (c : Z) : option (ipc1 * list event) :=
  let '(state, pos) :=
    if fb_cap <=? fb_pos s then (ipc1_parse_state_sync, 0) else (parse_state s, fb_pos s) in
  fb ← upd (msg_fb s) pos c;
  let pos := pos + 1 in
  match state with
  | ipc1_parse_state_sync =>
      if pos <? hdr_len then Some (Ipc fb pos state, []) else
      lead ← load fb 0 4;
      if negb (bool_decide (lead = IPC1_MSG_LEADNG)) then
        rest ← load fb 1 (pos - 1);
        fb' ← blit fb 0 rest;
        Some (Ipc fb' (pos - 1) state, [])
      else ipc1_payload fb pos
  | ipc1_parse_state_payload => ipc1_payload fb pos
  | ipc1_parse_state_header => Some (Ipc fb pos state, [])
  end.

Fixpoint ipc1_input (s : ipc1) (data : list Z) : option (ipc1 * list event) :=
  match data with
  | [] => Some (s, [])
  | c :: data' =>
      '(s', ev) ← ipc1_byte s c;
      '(s'', evs) ← ipc1_input s' data';
      Some (s'', ev ++ evs)
  end.

(** Successive [read]s of [ipc1_cb]. *)
Fixpoint ipc1_reads (s : ipc1) (chunks : list (list Z)) : option (ipc1 * list event) :=
  match chunks with
  | [] => Some (s, [])
  | d :: chunks' =>
      '(s', ev) ← ipc1_input s d;
      '(s'', evs) ← ipc1_reads s' chunks';
      Some (s'', ev ++ evs)
  end.

(** After [ipc1_init]: calloc'ed. *)
Definition ipc1_new : ipc1 := Ipc (replicate 2048 0) 0 ipc1_parse_state_sync.

(* ------------------------------------------------------------------ *)
(** ** Sending *)

(** [while (data_pos < size) write(..)]: the answers of [write] (a count, 0 for
    a closed peer, negative for an error), what went out, and whether all did. *)
Fixpoint write_loop (data : list Z) (ans : list Z) : list Z * list Z * bool :=
  match data, ans with
  | [], _ => ([], ans, true)
  | _, [] => ([], [], false)
  | _, r :: ans' =>
      if r <=? 0 then ([], ans', false) else
      let '(out, rest, ok) := write_loop (drop (Z.to_nat r) data) ans' in
      (take (Z.to_nat r) data ++ out, rest, ok)
  end.

(** [msg_seq] is the static counter; [fd] is [ipc->fd[1]].  The result is what
    is returned, the bytes written and the counter after. *)
Definition ipc1_write (locked : bool) (fd msg_seq type : Z) (data : list Z) (ans : list Z)
    : option (Z * list Z * Z) :=
  if negb locked then Some (0, [], msg_seq) else
  msg_seq' ← cint (msg_seq + 1);
  if fd =? -1 then Some (0, [], msg_seq') else
  let hdr := header (Msg (u16 msg_seq) (u16 type) data) in
  let '(out, ans', ok) := write_loop hdr ans in
  if negb ok then Some (0, out, msg_seq') else
  let '(out', _, _) := write_loop data ans' in
  Some (Z.of_nat (length out'), out ++ out', msg_seq').

Definition ipc1_register_callback (locked : bool) (fd msg_seq : Z) (func cbarg : list Z) (ans : list Z)
    : option (Z * list Z * Z) :=
  '(r, out, msg_seq') ← ipc1_write locked fd msg_seq ipc1_type_callback1 (func ++ cbarg) ans;
  Some (if r <? Z.of_nat (length (func ++ cbarg)) then -1 else 0, out, msg_seq').

(* ------------------------------------------------------------------ *)
(** ** Descriptors *)

(** The descriptors closed, in order; [evfd] is [evconn.fd], [fd0] and [fd1]
    the pair. *)
Definition ipc1_release (evfd fd0 fd1 : Z) : list Z :=
  (if negb (evfd =? -1) then [evfd] else []) ++
  filter (fun fd => fd <> -1 /\ fd <> evfd) [fd0; fd1].

Definition ipc1_destroy (evfd fd0 fd1 : Z) : list Z :=
  (if negb (evfd =? -1) then [evfd] else []) ++ filter (fun fd => fd <> -1) [fd0; fd1].

(** [None]: a descriptor that is not open is closed. *)
Fixpoint close_all (l open : list Z) : option (list Z) :=
  match l with
  | [] => Some open
  | fd :: l' => if bool_decide (fd ∈ open) then close_all l' (filter (fun x => x <> fd) open) else None
  end.

(* ------------------------------------------------------------------ *)
(** ** Parsing a frame *)

(** Messages that fit the buffer. *)
Definition fits (m : ipc1_msg) : Prop :=
  is_u16 (seq m) /\ is_u16 (type m) /\ bytes (val m) /\ Z.of_nat (length (val m)) <= 2038.
(** A callback message without room for a function. *)
Definition short_callback (m : ipc1_msg) : bool := (type m =? 1) && (length (val m) <? 8)%nat.
Definition msg_ok (m : ipc1_msg) : Prop := fits m /\ short_callback m = false.

(** The call a message asks for: of the function in its first eight bytes, with
    the next eight, if there, for its argument; a null function is not called. *)
Definition asks (m : ipc1_msg) : option (list Z * list Z) :=
  let func := take 8 (val m) in
  if negb (type m =? 1) then None else
  if forallb (Z.eqb 0) func then None else
  Some (func, if (length (val m) <? 16)%nat then replicate 8 0 else take 8 (drop 8 (val m))).

Lemma all_zero l : length l = 8%nat -> forallb (Z.eqb 0) l = bool_decide (l = null).
Proof.
  intros Hl. case_bool_decide as H; [by subst | ]. apply not_true_is_false. intros Hz. apply H.
  assert (Hr : forall l, forallb (Z.eqb 0) l = true -> l = replicate (length l) 0).
  { clear. induction l as [|x l IH]; [done | ]. cbn. intros [Hx Hl]%andb_prop. destruct x; [by rewrite <- IH | done | done]. }
  rewrite (Hr l Hz). by rewrite Hl.
Qed.

Lemma input_msg_asks m : ipc1_input_msg m = if short_callback m then None else Some (asks m).
Proof.
  unfold ipc1_input_msg, short_callback, asks, ipc1_type_callback1. destruct (type m =? 1); cbn [negb andb]; [ | done].
  destruct (Nat.ltb_spec (length (val m)) 8) as [Hs | Hs].
  { by rewrite (proj2 (Z.leb_gt 8 _)) by lia. }
  rewrite (proj2 (Z.leb_le 8 _)) by lia. cbn [mbind option_bind].
  change (slice (val m) 0 8) with (take 8 (val m)). change (slice (val m) 8 8) with (take 8 (drop 8 (val m))).
  rewrite <- all_zero by (rewrite length_take; lia). destruct (forallb _ _); [done | ]. do 3 f_equal.
  destruct (Z.leb_spec (8 + 8) (Z.of_nat (length (val m)))), (Nat.ltb_spec (length (val m)) 16); done || lia.
Qed.

Lemma header_length m : length (header m) = 10%nat.
Proof. done. Qed.

Lemma frame_length m : Z.of_nat (length (frame m)) = 10 + Z.of_nat (length (val m)).
Proof. unfold frame. rewrite length_app, header_length. lia. Qed.

Lemma frame_bytes m : bytes (val m) -> bytes (frame m).
Proof.
  intros Hv. apply bytes_app; [ | done]. unfold header, IPC1_MSG_LEADNG, put_le16. cbn [app]. byte_list.
Qed.

(** The parser has stored the first [p] bytes of [m]'s frame. *)
Record at_ (m : ipc1_msg) (p : Z) (s : ipc1) : Prop := At {
  a_len : length (msg_fb s) = 2048%nat; a_bytes : bytes (msg_fb s); a_pos : fb_pos s = p;
  a_pre : take (Z.to_nat p) (msg_fb s) = take (Z.to_nat p) (frame m);
  a_state : parse_state s = ipc1_parse_state_payload \/
            parse_state s = ipc1_parse_state_sync /\ p < 10 }.

Lemma rd_prefix (l k : list Z) n i :
  take n l = take n k -> 0 <= i < Z.of_nat n -> rd l i = rd k i.
Proof.
  intros E Hi. unfold rd. rewrite (proj2 (Z.ltb_ge _ _)) by lia.
  rewrite <- (lookup_take_lt l n), <- (lookup_take_lt k n) by lia. by rewrite E.
Qed.

Lemma get_le16_prefix l k n i :
  take n l = take n k -> 0 <= i -> i + 1 < Z.of_nat n -> get_le16 l i = get_le16 k i.
Proof. intros E H0 Hi. unfold get_le16. by rewrite !(rd_prefix l k n) by (done || lia). Qed.

Lemma frame_fields m : fits m ->
  get_le16 (frame m) 4 = Some (seq m) /\ get_le16 (frame m) 6 = Some (type m) /\
  get_le16 (frame m) 8 = Some (Z.of_nat (length (val m))).
Proof.
  intros (Hs & Ht & Hv & Hl). unfold frame, header. split_and!.
  - rewrite <- !app_assoc. by apply (get_le16_at IPC1_MSG_LEADNG).
  - rewrite <- !app_assoc, (app_assoc IPC1_MSG_LEADNG). by apply get_le16_at.
  - rewrite u16_id by mlia.
    rewrite <- !app_assoc, (app_assoc IPC1_MSG_LEADNG), (app_assoc (IPC1_MSG_LEADNG ++ _)).
    apply get_le16_at; [mlia | done].
Qed.

Lemma take_upd (l : list Z) p c :
  0 <= p < Z.of_nat (length l) ->
  take (Z.to_nat (p + 1)) (<[Z.to_nat p := c]> l) = take (Z.to_nat p) l ++ [c].
Proof.
  intros Hp. replace (Z.to_nat (p + 1)) with (S (Z.to_nat p)) by lia.
  rewrite (take_S_r _ _ c) by (apply list_lookup_insert_eq; lia).
  by rewrite take_insert_ge by lia.
Qed.

Lemma take_snoc_rd (l : list Z) p c :
  0 <= p -> rd l p = Some c -> take (Z.to_nat (p + 1)) l = take (Z.to_nat p) l ++ [c].
Proof.
  intros Hp Hc. replace (Z.to_nat (p + 1)) with (S (Z.to_nat p)) by lia. apply take_S_r.
  unfold rd in Hc. by rewrite (proj2 (Z.ltb_ge _ _)) in Hc by lia.
Qed.

(** The payload half on a buffer that starts with [p] bytes of the frame. *)
Lemma payload_wait m fb p :
  fits m -> length fb = 2048%nat -> bytes fb -> take (Z.to_nat p) fb = take (Z.to_nat p) (frame m) ->
  0 <= p < Z.of_nat (length (frame m)) ->
  ipc1_payload fb p = Some (Ipc fb p ipc1_parse_state_payload, []).
Proof.
  intros Hm Hl Hb Hpre Hp. unfold ipc1_payload, hdr_len. rewrite frame_length in Hp.
  destruct (get_le16_ok fb 8) as (n & E & Hn); [done | lia | lia | ]. rewrite E. cbn [mbind option_bind].
  rewrite (proj2 (Z.ltb_lt p _)); [done | ]. destruct (decide (p < 10)); [mlia | ].
  destruct (frame_fields m Hm) as (_ & _ & F8).
  rewrite (get_le16_prefix fb (frame m) (Z.to_nat p)), F8 in E by (done || lia).
  injection E as <-. lia.
Qed.

Lemma payload_done m fb :
  fits m -> length fb = 2048%nat -> take (length (frame m)) fb = frame m ->
  ipc1_payload fb (Z.of_nat (length (frame m))) =
    (call ← ipc1_input_msg m; Some (Ipc fb 0 ipc1_parse_state_payload, [(m, call)])).
Proof.
  intros Hm Hl Hpre. pose proof (frame_length m) as Hfl. pose proof Hm as (_ & _ & _ & Hmax).
  destruct (frame_fields m Hm) as (F4 & F6 & F8).
  assert (Hpre' : take (length (frame m)) fb = take (length (frame m)) (frame m))
    by (by rewrite Hpre, firstn_all).
  unfold ipc1_payload, hdr_len. rewrite !(get_le16_prefix fb (frame m) (length (frame m))) by (done || lia).
  rewrite F4, F6, F8. cbn [mbind option_bind]. rewrite <- Hfl, Z.ltb_irrefl.
  assert (Hload : load fb 10 (Z.of_nat (length (val m))) = Some (val m)).
  { rewrite load_Some by lia. f_equal. unfold slice. rewrite Nat2Z.id.
    rewrite take_drop_commute. replace (Z.to_nat 10 + length (val m))%nat with (length (frame m)) by lia.
    rewrite Hpre. unfold frame. change (Z.to_nat 10) with (length (header m)). apply drop_app_length. }
  rewrite Hload. cbn [mbind option_bind].
  replace (Msg (seq m) (type m) (val m)) with m by (by destruct m).
  by rewrite Z.leb_refl.
Qed.

(** What is known after the last byte of a frame: the message is delivered, or
    reading it is undefined. *)
Definition arrives (m : ipc1_msg) (o : option (ipc1 * list event)) : Prop :=
  if short_callback m then o = None
  else exists s', o = Some (s', [(m, asks m)]) /\ forall m', at_ m' 0 s'.

(** The next byte of the frame. *)
Lemma byte_in_frame m p s c :
  fits m -> at_ m p s -> rd (frame m) p = Some c ->
  (p + 1 < Z.of_nat (length (frame m)) -> exists s', ipc1_byte s c = Some (s', []) /\ at_ m (p + 1) s') /\
  (p + 1 = Z.of_nat (length (frame m)) -> arrives m (ipc1_byte s c)).
Proof.
  intros Hm [Hl Hb Hpos Hpre Hst] Hc. pose proof (frame_length m) as Hfl.
  pose proof Hm as (_ & _ & Hv & Hmax). pose proof (rd_Some _ _ _ Hc) as Hp.
  assert (Hcb : is_u8 c) by (eapply rd_Forall; [exact Hc | by apply frame_bytes]).
  unfold ipc1_byte, fb_cap. rewrite Hpos, (proj2 (Z.leb_gt _ _)) by lia. rewrite upd_Some by lia.
  cbn [mbind option_bind]. set (fb := <[Z.to_nat p := c]> (msg_fb s)).
  assert (Hfb : length fb = 2048%nat) by (unfold fb; by rewrite length_insert).
  assert (Hfbb : bytes fb) by (by apply Forall_insert).
  assert (Hfpre : take (Z.to_nat (p + 1)) fb = take (Z.to_nat (p + 1)) (frame m)).
  { unfold fb. rewrite take_upd by lia. rewrite (take_snoc_rd (frame m) p c) by (done || lia). by rewrite Hpre. }
  assert (Hpay :
    (p + 1 < Z.of_nat (length (frame m)) -> exists s', ipc1_payload fb (p + 1) = Some (s', []) /\ at_ m (p + 1) s') /\
    (p + 1 = Z.of_nat (length (frame m)) -> arrives m (ipc1_payload fb (p + 1)))).
  { split; intros Hp'.
    - eexists. split; [apply (payload_wait m); [done..| lia] | ]. split; try done. by left.
    - rewrite Hp' in *. rewrite Nat2Z.id, firstn_all in Hfpre.
      unfold arrives. rewrite (payload_done m fb Hm Hfb Hfpre), input_msg_asks.
      destruct (short_callback m); [done | ]. eexists. split; [done | ]. intros m'. split; try done. by left. }
  destruct Hst as [->|[-> Hlt]]; [done | ]. unfold hdr_len.
  destruct (Z.ltb_spec (p + 1) 10).
  - split; [ | lia]. intros _. eexists. split; [done | ]. split; try done. right. split; [done | lia].
  - assert (E : p + 1 = 10) by lia. rewrite E in *.
    assert (Hlead : load fb 0 4 = Some IPC1_MSG_LEADNG).
    { rewrite load_Some by lia. f_equal. unfold slice. rewrite drop_0.
      transitivity (take 4 (take 10 fb)); [by rewrite take_take | ].
      change 10%nat with (Z.to_nat 10). rewrite Hfpre, take_take. done. }
    rewrite Hlead. cbn [mbind option_bind]. by rewrite bool_decide_true.
Qed.

Lemma ipc1_input_app s a b :
  ipc1_input s (a ++ b) =
    ('(s', ev) ← ipc1_input s a; '(s'', evs) ← ipc1_input s' b; Some (s'', ev ++ evs)).
Proof.
  revert s. induction a as [|c a IH]; intros s; cbn [app ipc1_input].
  { cbn. by destruct (ipc1_input s b) as [[]|]. }
  destruct (ipc1_byte s c) as [[s1 ev]|]; [cbn [mbind option_bind] | done]. rewrite IH.
  destruct (ipc1_input s1 a) as [[s2 ev2]|]; [cbn [mbind option_bind] | done].
  destruct (ipc1_input s2 b) as [[s3 ev3]|]; [cbn [mbind option_bind] | done]. by rewrite app_assoc.
Qed.

(** How the stream is cut into reads does not matter. *)
Lemma ipc1_reads_concat s chunks : ipc1_reads s chunks = ipc1_input s (concat chunks).
Proof.
  revert s. induction chunks as [|d chunks IH]; intros s; [done | ].
  cbn [ipc1_reads concat]. rewrite ipc1_input_app.
  destruct (ipc1_input s d) as [[s1 ev]|]; [cbn [mbind option_bind] | done]. by rewrite IH.
Qed.

Lemma input_frame_from m n p s :
  fits m -> at_ m p s -> 0 <= p -> p + Z.of_nat (S n) = Z.of_nat (length (frame m)) ->
  arrives m (ipc1_input s (drop (Z.to_nat p) (frame m))).
Proof.
  intros Hm. revert p s. induction n as [|n IH]; intros p s Hat Hp Hn.
  all: assert (Hr : rd (frame m) p = Some (ix (frame m) p)) by (apply rd_ix; lia).
  all: assert (Hd : drop (Z.to_nat p) (frame m) = ix (frame m) p :: drop (Z.to_nat (p + 1)) (frame m)).
  1,3: replace (Z.to_nat (p + 1)) with (S (Z.to_nat p)) by lia; apply drop_S;
       unfold rd in Hr; by rewrite (proj2 (Z.ltb_ge p 0)) in Hr by lia.
  all: rewrite Hd; destruct (byte_in_frame m p s _ Hm Hat Hr) as [H1 H2]; cbn [ipc1_input].
  - specialize (H2 ltac:(lia)). rewrite (drop_ge (frame m)) by lia. unfold arrives in *.
    destruct (short_callback m); [by rewrite H2 | ]. destruct H2 as (s' & -> & H2). by exists s'.
  - destruct (H1 ltac:(lia)) as (s' & -> & Hat'). cbn [mbind option_bind].
    specialize (IH (p + 1) s' Hat' ltac:(lia) ltac:(lia)). unfold arrives in *.
    destruct (short_callback m); [by rewrite IH | ]. destruct IH as (s2 & -> & H3). by exists s2.
Qed.

Lemma input_frame m s : fits m -> at_ m 0 s -> arrives m (ipc1_input s (frame m)).
Proof.
  intros Hm Hat. pose proof (frame_length m).
  apply (input_frame_from m (length (frame m) - 1) 0 s); [done | done | lia | lia].
Qed.

(** The events of a list of messages. *)
Definition delivered (ms : list ipc1_msg) : list event := map (fun m => (m, asks m)) ms.

Lemma input_frames ms s :
  Forall fits ms -> (forall m, at_ m 0 s) ->
  if existsb short_callback ms then ipc1_input s (concat (map frame ms)) = None
  else exists s', ipc1_input s (concat (map frame ms)) = Some (s', delivered ms) /\ forall m, at_ m 0 s'.
Proof.
  intros Hms. revert s. induction Hms as [|m ms Hm Hms IH]; intros s Hat; [by exists s | ].
  cbn [map concat existsb delivered]. rewrite ipc1_input_app.
  pose proof (input_frame m s Hm (Hat m)) as H1. unfold arrives in H1.
  destruct (short_callback m); [by rewrite H1 | ]. destruct H1 as (s1 & -> & Hat1). cbn [mbind option_bind orb].
  specialize (IH s1 Hat1). destruct (existsb short_callback ms); [by rewrite IH | ].
  destruct IH as (s2 & -> & Hat2). by exists s2.
Qed.

Lemma existsb_ok ms : Forall msg_ok ms -> Forall fits ms /\ existsb short_callback ms = false.
Proof. induction 1 as [|m ms [Hf Hs] _ [IH1 IH2]]; [done | ]. cbn. rewrite Hs. split; [by constructor | done]. Qed.

Lemma new_at m : at_ m 0 ipc1_new.
Proof. split; try done; [by apply Forall_replicate | by right]. Qed.

(** C34: whatever messages of up to 2038 bytes are written, and however the
    stream of their frames is cut into reads, the parser hands on exactly
    those messages, in order, each with the callback it asks for, without
    leaving its buffer, and is ready for the next, unless one of them asks for
    a callback in fewer than 8 bytes: then its function is read without a
    value. *)
Theorem ipc_framing ms chunks :
  Forall fits ms -> concat chunks = concat (map frame ms) ->
  if existsb short_callback ms then ipc1_reads ipc1_new chunks = None
  else exists s, ipc1_reads ipc1_new chunks = Some (s, delivered ms) /\ fb_pos s = 0.
Proof.
  intros Hms Hc. rewrite ipc1_reads_concat, Hc. pose proof (input_frames ms ipc1_new Hms new_at) as H.
  destruct (existsb short_callback ms); [done | ]. destruct H as (s & E & Hat).
  exists s. split; [done | ]. apply (a_pos _ _ _ (Hat (Msg 0 0 []))).
Qed.

Definition demo_msgs : list ipc1_msg :=
  [Msg 1 1 [0x10; 0x20; 0; 0; 0; 0; 0; 0; 7; 0; 0; 0; 0; 0; 0; 0]; Msg 2 0 []; Msg 3 0 [1; 0xa5]].

(** Three messages, read in pieces of 7 bytes. *)
Lemma ipc_framing_witness :
  exists s, ipc1_reads ipc1_new (chunks 20 7 (concat (map frame demo_msgs))) =
      Some (s, [(Msg 1 1 [0x10; 0x20; 0; 0; 0; 0; 0; 0; 7; 0; 0; 0; 0; 0; 0; 0],
                 Some ([0x10; 0x20; 0; 0; 0; 0; 0; 0], [7; 0; 0; 0; 0; 0; 0; 0]));
                (Msg 2 0 [], None); (Msg 3 0 [1; 0xa5], None)]) /\ fb_pos s = 0.
Proof.
  apply (ipc_framing demo_msgs (chunks 20 7 (concat (map frame demo_msgs)))).
  - unfold demo_msgs.
    repeat (apply Forall_cons; split;
      [split_and!; first [by byte_list | vm_compute; split; congruence | vm_compute; congruence] | ]).
    apply Forall_nil_2.
  - vm_compute. reflexivity.
Defined.

(* ------------------------------------------------------------------ *)
(** ** Sending *)

Lemma write_loop_prefix data ans out rest ok :
  write_loop data ans = (out, rest, ok) ->
  exists tl, data = out ++ tl /\ (ok = true -> tl = []).
Proof.
  revert data out rest ok. induction ans as [|r ans IH]; intros data out rest ok.
  { destruct data; cbn; intros [= <- <- <-]; by eexists. }
  destruct data as [|c data]; [cbn; intros [= <- <- <-]; by exists [] | ].
  cbn [write_loop]. destruct (r <=? 0).
  { intros [= <- <- <-]. by exists (c :: data). }
  destruct (write_loop (drop (Z.to_nat r) (c :: data)) ans) as [[o a] k] eqn:E. intros [= <- <- <-].
  destruct (IH _ _ _ _ E) as (tl & Hd & Hk). exists tl. split; [ | done].
  rewrite <- app_assoc, <- Hd. symmetry. apply take_drop.
Qed.

Lemma write_loop_all data ans :
  Forall (fun r => 0 < r) ans -> (length data <= length ans)%nat ->
  exists rest, write_loop data ans = (data, rest, true) /\ Forall (fun r => 0 < r) rest /\
    (length ans - length data <= length rest)%nat.
Proof.
  intros Hans. revert data. induction Hans as [|r ans Hr Hans IH]; intros data Hl.
  { destruct data; [ | cbn in Hl; lia]. by exists []. }
  destruct data as [|c data]; [exists (r :: ans); split_and!; [done | by constructor | cbn; lia] | ].
  cbn [write_loop]. rewrite (proj2 (Z.leb_gt r 0)) by lia.
  assert (Hdl : (length (drop (Z.to_nat r) (c :: data)) <= length data)%nat)
    by (rewrite length_drop; cbn; lia).
  destruct (IH (drop (Z.to_nat r) (c :: data))) as (rest & -> & Hf & Hn); [cbn in *; lia | ].
  exists rest. rewrite take_drop. split_and!; [done | done | cbn in *; lia].
Qed.

(** The message [ipc1_register_callback] means. *)
Definition callback_msg (msg_seq : Z) (func cbarg : list Z) : ipc1_msg :=
  Msg (u16 msg_seq) ipc1_type_callback1 (func ++ cbarg).

Lemma callback_msg_ok msg_seq func cbarg :
  bytes func -> bytes cbarg -> length func = 8%nat -> length cbarg = 8%nat ->
  msg_ok (callback_msg msg_seq func cbarg).
Proof.
  intros Hf Hc Lf Lc. unfold msg_ok, fits, short_callback, callback_msg. cbn [seq type val]. rewrite length_app, Lf, Lc.
  split; [ | done]. split_and!; [apply u16_range | by vm_compute | by apply bytes_app | lia].
Qed.

Lemma callback_call msg_seq func cbarg :
  length func = 8%nat -> length cbarg = 8%nat -> func <> null ->
  ipc1_input_msg (callback_msg msg_seq func cbarg) = Some (Some (func, cbarg)).
Proof.
  intros Lf Lc Hn. unfold ipc1_input_msg. cbn [type val callback_msg]. rewrite Z.eqb_refl.
  rewrite length_app, Lf, Lc. cbn [Nat.add]. change (8 <=? Z.of_nat 16) with true. cbv iota.
  change (8 + 8 <=? Z.of_nat 16) with true. cbv iota. cbn [mbind option_bind].
  unfold slice. change (Z.to_nat 8) with 8%nat. rewrite drop_0, <- Lf, take_app_length, drop_app_length.
  rewrite bool_decide_false by done. rewrite Lf, <- Lc, firstn_all. done.
Qed.

Lemma write_sends fd msg_seq type data ans r out msg_seq' :
  ipc1_write true fd msg_seq type data ans = Some (r, out, msg_seq') -> data <> [] ->
  r = Z.of_nat (length data) -> out = frame (Msg (u16 msg_seq) (u16 type) data).
Proof.
  unfold ipc1_write. cbn [negb]. destruct (cint (msg_seq + 1)) as [q|]; [cbn [mbind option_bind] | done].
  destruct (fd =? -1).
  { intros [= <- <- <-] Hd Hr. destruct data; [done | cbn in Hr; lia]. }
  destruct (write_loop (header _) ans) as [[o1 a1] k1] eqn:E1.
  destruct k1; cbn [negb].
  - destruct (write_loop data a1) as [[o2 a2] k2] eqn:E2. intros [= <- <- <-] Hd Hr.
    destruct (write_loop_prefix _ _ _ _ _ E1) as (t1 & H1 & T1). rewrite (T1 eq_refl), app_nil_r in H1.
    destruct (write_loop_prefix _ _ _ _ _ E2) as (t2 & H2 & _).
    assert (t2 = []) as -> by (apply (f_equal length) in H2; rewrite length_app in H2;
      destruct t2; [done | cbn in H2; lia]).
    rewrite app_nil_r in H2. unfold frame. rewrite H1. cbn [val]. by rewrite <- H2.
  - intros [= <- <- <-] Hd Hr. destruct data; [done | cbn in Hr; lia].
Qed.

(** When [ipc1_register_callback] reports success, the receiving loop,
    however it reads the bytes, makes exactly one call: the registered
    function with its argument; and it does report success when the channel
    is open and the writes keep moving at least a byte, whatever their
    sizes. *)
Theorem ipc_callback_roundtrip fd msg_seq func cbarg ans :
  bytes func -> bytes cbarg -> length func = 8%nat -> length cbarg = 8%nat -> func <> null ->
  (forall out msg_seq' chunks,
     ipc1_register_callback true fd msg_seq func cbarg ans = Some (0, out, msg_seq') ->
     concat chunks = out ->
     exists s, ipc1_reads ipc1_new chunks =
       Some (s, [(callback_msg msg_seq func cbarg, Some (func, cbarg))])) /\
  (0 <= msg_seq < INT_MAX -> fd <> -1 -> Forall (fun r => 0 < r) ans -> (26 <= length ans)%nat ->
     ipc1_register_callback true fd msg_seq func cbarg ans =
       Some (0, frame (callback_msg msg_seq func cbarg), msg_seq + 1)).
Proof.
  intros Hf Hc Lf Lc Hn. assert (Hlen : length (func ++ cbarg) = 16%nat) by (rewrite length_app; lia).
  split.
  - intros out q chunks E Hch. unfold ipc1_register_callback in E. rewrite Hlen in E.
    destruct (ipc1_write _ _ _ _ _ _) as [[[r o] q']|] eqn:Ew; [cbn [mbind option_bind] in E | done].
    destruct (Z.ltb_spec r (Z.of_nat 16)); [done | ]. injection E as -> ->.
    assert (Hr : r = Z.of_nat (length (func ++ cbarg))).
    { rewrite Hlen. revert Ew. unfold ipc1_write. cbn [negb].
      destruct (cint (msg_seq + 1)); [cbn [mbind option_bind] | done].
      destruct (fd =? -1); [intros [= <- <- <-]; lia | ].
      destruct (write_loop (header _) ans) as [[o1 a1] [|]]; cbn [negb]; [ | intros [= <- <- <-]; lia].
      destruct (write_loop (func ++ cbarg) a1) as [[o2 a2] k2] eqn:E2. intros [= <- <- <-].
      destruct (write_loop_prefix _ _ _ _ _ E2) as (t2 & H2 & _).
      apply (f_equal length) in H2. rewrite Hlen, length_app in H2. lia. }
    apply write_sends in Ew; [ | by destruct func | done].
    change (Msg (u16 msg_seq) (u16 ipc1_type_callback1) (func ++ cbarg))
      with (callback_msg msg_seq func cbarg) in Ew.
    rewrite ipc1_reads_concat, Hch, Ew.
    destruct (callback_msg_ok msg_seq func cbarg) as [Hfit Hsc]; [done.. | ].
    pose proof (input_frame (callback_msg msg_seq func cbarg) ipc1_new Hfit (new_at _)) as Hin. unfold arrives in Hin.
    rewrite Hsc in Hin. destruct Hin as (s & -> & _). exists s.
    pose proof (input_msg_asks (callback_msg msg_seq func cbarg)) as Hcall.
    rewrite Hsc, callback_call in Hcall by done. by injection Hcall as <-.
  - intros Hq Hfd Hans Hl. unfold ipc1_register_callback, ipc1_write. cbn [negb].
    rewrite cint_ok by mlia. cbn [mbind option_bind]. rewrite (proj2 (Z.eqb_neq _ _) Hfd).
    destruct (write_loop_all (header (Msg (u16 msg_seq) (u16 ipc1_type_callback1) (func ++ cbarg))) ans)
      as (rest & -> & Hrest & Hrl); [done | rewrite header_length; lia | ]. rewrite header_length in Hrl.
    cbn [negb]. destruct (write_loop_all (func ++ cbarg) rest) as (rest' & -> & _); [done | lia | ].
    cbn [mbind option_bind]. rewrite Z.ltb_irrefl. done.
Qed.

Lemma ipc_callback_roundtrip_witness :
  exists s, ipc1_reads ipc1_new
      (chunks 30 3 (frame (callback_msg 5 [1; 0; 0; 0; 0; 0; 0; 0] [2; 0; 0; 0; 0; 0; 0; 0]))) =
    Some (s, [(callback_msg 5 [1; 0; 0; 0; 0; 0; 0; 0] [2; 0; 0; 0; 0; 0; 0; 0],
               Some ([1; 0; 0; 0; 0; 0; 0; 0], [2; 0; 0; 0; 0; 0; 0; 0]))]).
Proof.
  destruct (ipc_callback_roundtrip 9 5 [1; 0; 0; 0; 0; 0; 0; 0] [2; 0; 0; 0; 0; 0; 0; 0] (replicate 26 3))
    as [H1 H2]; [by byte_list | by byte_list | done | done | done | ].
  eapply H1; [apply H2; [by vm_compute | done | | by vm_compute] | vm_compute; reflexivity].
  by apply Forall_replicate.
Defined.

(* ------------------------------------------------------------------ *)
(** ** Descriptors and synchronisation *)

(** After a successful [ipc1_init], which watches the first descriptor of
    the pair, [ipc1_release] (the end of the peer, or a read error) closes
    each of the two once; [ipc1_destroy] closes the first one twice. *)
Theorem ipc_descriptors fd0 fd1 :
  0 <= fd0 -> 0 <= fd1 -> fd0 <> fd1 ->
  close_all (ipc1_release fd0 fd0 fd1) [fd0; fd1] = Some [] /\
  close_all (ipc1_destroy fd0 fd0 fd1) [fd0; fd1] = None.
Proof.
  intros H0 H1 Hne. unfold ipc1_release, ipc1_destroy. rewrite (proj2 (Z.eqb_neq fd0 (-1))) by lia.
  cbn [negb app]. split.
  - rewrite filter_cons_False by naive_solver. rewrite filter_cons_True by (split; [lia | congruence]).
    cbn [close_all filter]. rewrite filter_nil. cbn [close_all].
    rewrite bool_decide_true by (by left). rewrite filter_cons_False by naive_solver.
    rewrite filter_cons_True by congruence. rewrite filter_nil.
    rewrite bool_decide_true by (by left). rewrite filter_cons_False by naive_solver. done.
  - rewrite !filter_cons_True by lia. cbn [close_all].
    rewrite bool_decide_true by (by left). rewrite filter_cons_False by naive_solver.
    rewrite filter_cons_True by congruence. rewrite filter_nil.
    rewrite bool_decide_false; [done | ]. rewrite list_elem_of_singleton. congruence.
Qed.

Lemma ipc_descriptors_witness :
  close_all (ipc1_release 3 3 4) [3; 4] = Some [] /\ close_all (ipc1_destroy 3 3 4) [3; 4] = None.
Proof. apply (ipc_descriptors 3 4); lia. Defined.

(** The parser looks for a leading: its buffer holds the last bytes [w]. *)
Record seeking (w : list Z) (s : ipc1) : Prop := Seeking {
  k_len : length (msg_fb s) = 2048%nat; k_bytes : bytes (msg_fb s);
  k_pos : fb_pos s = Z.of_nat (length w); k_win : take (length w) (msg_fb s) = w;
  k_state : parse_state s = ipc1_parse_state_sync; k_max : (length w <= 9)%nat }.

Lemma seek_byte w s c :
  seeking w s -> is_u8 c -> ((length w < 9)%nat \/ take 4 w <> IPC1_MSG_LEADNG) ->
  exists s', ipc1_byte s c = Some (s', []) /\
    seeking (drop (length w - 8) (w ++ [c])) s'.
Proof.
  intros [Hl Hb Hp Hw Hst Hmax] Hc Hlead. unfold ipc1_byte, fb_cap, hdr_len.
  rewrite Hp, Hst, (proj2 (Z.leb_gt _ _)) by lia. rewrite upd_Some by lia. cbn [mbind option_bind].
  set (fb := <[Z.to_nat (Z.of_nat (length w)) := c]> (msg_fb s)).
  assert (Hfb : length fb = 2048%nat) by (unfold fb; by rewrite length_insert).
  assert (Hfbb : bytes fb) by (by apply Forall_insert).
  assert (Hpre : take (S (length w)) fb = w ++ [c]).
  { replace (S (length w)) with (Z.to_nat (Z.of_nat (length w) + 1)) by lia.
    unfold fb. rewrite take_upd by lia. by rewrite Nat2Z.id, Hw. }
  destruct (Z.ltb_spec (Z.of_nat (length w) + 1) 10).
  - eexists. split; [done | ]. replace (length w - 8)%nat with 0%nat by lia. rewrite drop_0.
    split; cbn [msg_fb fb_pos parse_state]; try done; rewrite ?length_app; cbn [length];
      [lia | by rewrite Nat.add_1_r | lia].
  - assert (Hw9 : length w = 9%nat) by lia. rewrite Hw9 in *.
    rewrite !load_Some by lia. cbn [mbind option_bind].
    assert (Hs : slice fb 0 4 = take 4 w).
    { unfold slice. rewrite drop_0. change (Z.to_nat 4) with 4%nat.
      transitivity (take 4 (take 10 fb)); [by rewrite take_take | ]. rewrite Hpre.
      by rewrite take_app_le by lia. }
    rewrite Hs, bool_decide_false by (destruct Hlead; [lia | done]). cbn [negb].
    assert (Hrest : slice fb 1 9 = drop 1 (w ++ [c])).
    { unfold slice. change (Z.to_nat 9) with 9%nat. change (Z.to_nat 1) with 1%nat.
      rewrite take_drop_commute. cbn [Nat.add]. by rewrite Hpre. }
    change (Z.of_nat 9 + 1 - 1) with 9. rewrite Hrest.
    assert (Hrl : length (drop 1 (w ++ [c])) = 9%nat) by (rewrite length_drop, length_app; cbn; lia).
    destruct (blit_Some fb 0 (drop 1 (w ++ [c]))) as (fb' & -> & Hfb' & Hfbe); [lia | lia | ].
    cbn [mbind option_bind]. eexists. split; [done | ]. change (9 - 8)%nat with 1%nat.
    split; cbn [msg_fb fb_pos parse_state]; try done.
    + lia.
    + rewrite Hfbe. apply bytes_app; [by apply Forall_take | apply bytes_app].
      * rewrite <- Hrest. by apply bytes_slice.
      * by apply Forall_drop.
    + by rewrite Hrl.
    + rewrite Hfbe, Hrl. rewrite take_0. cbn [app]. by rewrite take_app_le, firstn_all2 by lia.
    + lia.
Qed.

(** No leading begins at the first [n] positions of [t]. *)
Definition no_leading (n : nat) (t : list Z) : Prop :=
  forall i, (i < n)%nat -> take 4 (drop i t) <> IPC1_MSG_LEADNG.

Lemma seek_bytes t k :
  bytes t -> (k <= length t)%nat -> no_leading (k - 9) t ->
  exists s, ipc1_input ipc1_new (take k t) = Some (s, []) /\ seeking (drop (k - 9) (take k t)) s.
Proof.
  intros Hb. induction k as [|k IH]; intros Hk Hno.
  { exists ipc1_new. rewrite take_0, drop_nil. split; [done | ].
    split; try done; [by apply Forall_replicate | apply Nat.le_0_l]. }
  destruct IH as (s & E & Hs); [lia | intros i Hi; apply Hno; lia | ].
  destruct (lookup_lt_is_Some_2 t k) as [c Hc]; [lia | ].
  rewrite (take_S_r _ _ _ Hc), ipc1_input_app, E. cbn [mbind option_bind ipc1_input].
  assert (Hcb : is_u8 c) by (by eapply (Forall_lookup_1 is_u8) in Hc).
  assert (Hlt : length (take k t) = k) by (rewrite length_take; lia).
  assert (Hlw : length (drop (k - 9) (take k t)) = (k - (k - 9))%nat) by (rewrite length_drop; lia).
  destruct (seek_byte _ _ c Hs Hcb) as (s' & -> & Hs').
  { destruct (decide (k < 9)%nat) as [|Hge]; [left; lia | right].
    replace (take 4 (drop (k - 9) (take k t))) with (take 4 (drop (k - 9) t)).
    - apply Hno. lia.
    - replace (take k t) with (take ((k - 9) + 9) t) by (f_equal; lia).
      by rewrite <- take_drop_commute, take_take. }
  cbn [mbind option_bind]. exists s'. split; [done | ].
  rewrite Hlw in Hs'. destruct (decide (k < 9)%nat) as [|Hge].
  - replace (k - (k - 9) - 8)%nat with 0%nat in Hs' by lia.
    replace (k - 9)%nat with 0%nat in Hs' by lia. replace (S k - 9)%nat with 0%nat by lia. done.
  - replace (k - (k - 9) - 8)%nat with 1%nat in Hs' by lia.
    replace (S k - 9)%nat with ((k - 9) + 1)%nat by lia.
    rewrite <- drop_drop, drop_app_le by lia. done.
Qed.

(** Before the first message, bytes that are not one are skipped: as long
    as no leading begins in the noise, the parser finds the first frame after
    it and delivers it and all that follow it. *)
Theorem ipc_resync noise m ms chunks :
  bytes noise -> Forall msg_ok (m :: ms) ->
  no_leading (length noise) (noise ++ frame m) ->
  concat chunks = noise ++ concat (map frame (m :: ms)) ->
  exists s, ipc1_reads ipc1_new chunks = Some (s, delivered (m :: ms)).
Proof.
  intros Hn Hms Hno Hch. inversion Hms as [|? ? [Hm Hsm] Hms']; subst. rewrite ipc1_reads_concat, Hch.
  pose proof (frame_length m) as Hfl. pose proof Hm as (_ & _ & Hv & _).
  destruct (seek_bytes (noise ++ frame m) (length noise + 9)) as (s & E & [S1 S2 S3 S4 S5 S6]).
  { apply bytes_app; [done | by apply frame_bytes]. }
  { rewrite length_app. lia. }
  { by replace (length noise + 9 - 9)%nat with (length noise) by lia. }
  replace (length noise + 9 - 9)%nat with (length noise) in * by lia.
  rewrite take_app_add in *. rewrite drop_app_length in *.
  assert (Hat : at_ m 9 s).
  { assert (H9 : length (take 9 (frame m)) = 9%nat) by (rewrite length_take; lia).
    rewrite H9 in *. split; try done. right. split; [done | lia]. }
  cbn [map concat].
  replace (noise ++ frame m ++ concat (map frame ms))
    with ((noise ++ take 9 (frame m)) ++ drop (Z.to_nat 9) (frame m) ++ concat (map frame ms))
    by (rewrite <- app_assoc, (app_assoc (take 9 _)); by rewrite take_drop).
  rewrite ipc1_input_app, E. cbn [mbind option_bind]. rewrite ipc1_input_app.
  pose proof (input_frame_from m (length (frame m) - 10) 9 s Hm Hat ltac:(lia) ltac:(lia)) as H1.
  unfold arrives in H1. rewrite Hsm in H1. destruct H1 as (s1 & -> & Hat1). cbn [mbind option_bind].
  destruct (existsb_ok ms Hms') as [Hf He]. pose proof (input_frames ms s1 Hf Hat1) as H2. rewrite He in H2.
  destruct H2 as (s2 & -> & _). by exists s2.
Qed.

Lemma ipc_resync_witness :
  exists s, ipc1_reads ipc1_new [[9; 1; 0xa5; 7] ++ frame (Msg 4 0 [5; 6])] = Some (s, delivered [Msg 4 0 [5; 6]]).
Proof.
  apply (ipc_resync [9; 1; 0xa5; 7] (Msg 4 0 [5; 6]) []).
  - by byte_list.
  - apply Forall_cons. split; [ | apply Forall_nil_2]. split; [ | done].
    split_and!; first [by byte_list | vm_compute; split; congruence | vm_compute; congruence].
  - intros i Hi. do 4 (destruct i as [|i]; [vm_compute; discriminate | ]). exfalso. cbn in Hi. lia.
  - vm_compute. reflexivity.
Defined.

(** After the first message the leading is not looked at again: a byte of
    noise between two messages is taken as the start of the second, which is
    handed on with other fields, and the parser stays out of step. *)
Lemma ipc_stray_byte :
  exists s, ipc1_input ipc1_new (frame (Msg 1 0 []) ++ [0] ++ frame (Msg 2 0 [])) =
    Some (s, [(Msg 1 0 [], None); (Msg 0x025a 0 [], None)]) /\ fb_pos s = 1.
Proof. eexists. split; [vm_compute; reflexivity | reflexivity]. Qed.
