(* ===== verification/Eff.v ===== *)
(** Eff: computations over a state, for the components whose operations call
    each other and the system.  A computation ends with a value, meets
    undefined behaviour, breaks the contract of the operation it calls, or
    runs out of the depth it was given.  [wp] is total correctness against
    clients that keep the contracts. *)

From S2P Require Import Prelude.

Inductive out (S A : Type) : Type :=
  | Done (x : A) (s : S)
  | Ub
  | Misuse
  | Deep.
Arguments Done {S A} x s.
Arguments Ub {S A}.
Arguments Misuse {S A}.
Arguments Deep {S A}.

Definition comp (S A : Type) : Type := S -> out S A.

Section Comp.
Context {S : Type}.

Definition ret {A} (x : A) : comp S A := fun s => Done x s.
Definition ub {A} : comp S A := fun _ => Ub.
Definition misuse {A} : comp S A := fun _ => Misuse.
Definition deep {A} : comp S A := fun _ => Deep.
Definition bind {A B} (m : comp S A) (k : A -> comp S B) : comp S B := fun s =>
  match m s with
  | Done x s' => k x s'
  | Ub => Ub
  | Misuse => Misuse
  | Deep => Deep
  end.
Definition get : comp S S := fun s => Done s s.
Definition gets {A} (f : S -> A) : comp S A := fun s => Done (f s) s.
Definition modify (f : S -> S) : comp S unit := fun s => Done tt (f s).
(** A value that must be there: undefined behaviour otherwise. *)
Definition need {A} (o : option A) : comp S A :=
  match o with Some x => ret x | None => ub end.

Definition wp {A} (m : comp S A) (s : S) (Q : A -> S -> Prop) : Prop :=
  match m s with
  | Done x s' => Q x s'
  | Misuse => True
  | Ub | Deep => False
  end.

Lemma ewp_mono {A} (m : comp S A) s (Q Q' : A -> S -> Prop) :
  wp m s Q -> (forall x s', Q x s' -> Q' x s') -> wp m s Q'.
Proof. unfold wp. destruct (m s); auto. Qed.

Lemma wp_and {A} (m : comp S A) s (Q Q' : A -> S -> Prop) :
  wp m s Q -> wp m s Q' -> wp m s (fun x s' => Q x s' /\ Q' x s').
Proof. unfold wp. destruct (m s); auto. Qed.

Lemma ewp_bind {A B} (m : comp S A) (k : A -> comp S B) s Q :
  wp m s (fun x s' => wp (k x) s' Q) -> wp (bind m k) s Q.
Proof. unfold wp, bind. by destruct (m s). Qed.

(** Only what a computation does from the state it starts in matters. *)
Lemma ewp_eq {A} (m m' : comp S A) s Q : m s = m' s -> wp m' s Q -> wp m s Q.
Proof. unfold wp. by intros ->. Qed.

Lemma ebind_ret {A B} (x : A) (k : A -> comp S B) : bind (ret x) k = k x.
Proof. reflexivity. Qed.
(** Two sequences whose parts do the same. *)
Lemma ebind_eq {A B} (m m' : comp S A) (k k' : A -> comp S B) s :
  m s = m' s -> (forall x s', k x s' = k' x s') -> bind m k s = bind m' k' s.
Proof. unfold bind. intros -> Hk. by destruct (m' s). Qed.
Lemma ebind_done {A B} (m : comp S A) (k : A -> comp S B) s x s' : m s = Done x s' -> bind m k s = k x s'.
Proof. unfold bind. by intros ->. Qed.
Lemma ebind_assoc {A B C} (m : comp S A) (n : A -> comp S B) (k : B -> comp S C) s :
  bind (bind m n) k s = bind m (fun x => bind (n x) k) s.
Proof. unfold bind. by destruct (m s). Qed.

(** Sequencing is associative. *)
Lemma ewp_assoc {A B C} (m : comp S A) (n : A -> comp S B) (k : B -> comp S C) s Q :
  wp (bind m (fun x => bind (n x) k)) s Q -> wp (bind (bind m n) k) s Q.
Proof. unfold wp, bind. by destruct (m s). Qed.

Lemma wp_safe {A} (m : comp S A) s (Q : A -> S -> Prop) :
  wp m s Q -> match m s with Done x s' => Q x s' | Misuse => True | Ub | Deep => False end.
Proof. done. Qed.

Lemma wp_done {A} (m : comp S A) s (Q : A -> S -> Prop) x s' : wp m s Q -> m s = Done x s' -> Q x s'.
Proof. unfold wp. intros H Hm. by rewrite Hm in H. Qed.

Lemma ewp_ret {A} (x : A) s (Q : A -> S -> Prop) : Q x s -> wp (ret x) s Q.
Proof. done. Qed.

Lemma wp_gets {A} (f : S -> A) s (Q : A -> S -> Prop) : Q (f s) s -> wp (gets f) s Q.
Proof. done. Qed.

Lemma ewp_modify f s (Q : unit -> S -> Prop) : Q tt (f s) -> wp (modify f) s Q.
Proof. done. Qed.

Lemma wp_need {A} (o : option A) x s (Q : A -> S -> Prop) : o = Some x -> Q x s -> wp (need o) s Q.
Proof. by intros ->. Qed.

Lemma wp_misuse {A} s (Q : A -> S -> Prop) : wp misuse s Q.
Proof. done. Qed.

(** Computations that keep every contract whatever their clients do: for them
    [wp] is total. *)
Definition keeps {A} (m : comp S A) : Prop := forall s, m s <> Misuse.

Lemma ekeeps_ret {A} (x : A) : keeps (ret x).
Proof. done. Qed.
Lemma keeps_ub {A} : keeps (@ub A).
Proof. done. Qed.
Lemma keeps_deep {A} : keeps (@deep A).
Proof. done. Qed.
Lemma keeps_get : keeps get.
Proof. done. Qed.
Lemma keeps_gets {A} (f : S -> A) : keeps (gets f).
Proof. done. Qed.
Lemma ekeeps_modify f : keeps (modify f).
Proof. done. Qed.
Lemma keeps_need {A} (o : option A) : keeps (need o).
Proof. by destruct o. Qed.
Lemma ekeeps_bind {A B} (m : comp S A) (k : A -> comp S B) : keeps m -> (forall x, keeps (k x)) -> keeps (bind m k).
Proof. intros Hm Hk s. unfold bind. specialize (Hm s). destruct (m s); try done. apply Hk. Qed.

Lemma wp_total {A} (m : comp S A) s (Q : A -> S -> Prop) :
  keeps m -> wp m s Q -> exists x s', m s = Done x s' /\ Q x s'.
Proof. unfold wp. intros Hm. specialize (Hm s). destruct (m s); try done. eauto. Qed.
End Comp.

#[global] Opaque wp.
Create HintDb keeps.
#[export] Hint Resolve ekeeps_ret keeps_ub keeps_deep keeps_get keeps_gets ekeeps_modify keeps_need : keeps.

(** [keeps] for a computation built of others that are in the database. *)
Ltac keeps_steps :=
  repeat lazymatch goal with
  | |- keeps (bind _ _) => apply ekeeps_bind; [ | intros]
  | |- keeps (match ?x with _ => _ end) => destruct x
  | |- keeps (let _ := _ in _) => cbv zeta
  end; auto with keeps.

(** The same through definitions. *)
Ltac keeps_all :=
  repeat (keeps_steps; try match goal with |- keeps ?m => let rec go t := match t with ?f _ => go f | _ => unfold t end in go m end).

Declare Scope eff_scope.
Delimit Scope eff_scope with eff.
Notation "'do' x <- e ; k" := (bind e (fun x => k))
  (at level 10, x name, e at level 100, k at level 200) : eff_scope.
Notation "'do' ' x <- e ; k" := (bind e (fun x => k))
  (at level 10, x strict pattern, e at level 100, k at level 200) : eff_scope.
Notation "e ;; k" := (bind e (fun _ => k))
  (at level 100, k at level 200, right associativity) : eff_scope.

(** Steps through pure operations at the head of a computation. *)
Ltac ewp_pure :=
  repeat lazymatch goal with
  | |- wp (bind (bind _ _) _) _ _ => apply ewp_bind
  | |- wp (bind (gets _) _) _ _ => apply ewp_bind; apply wp_gets
  | |- wp (bind (modify _) _) _ _ => apply ewp_bind; apply ewp_modify
  | |- wp (bind (ret _) _) _ _ => apply ewp_bind; apply ewp_ret
  | |- wp (modify _) _ _ => apply ewp_modify
  | |- wp (ret _) _ _ => apply ewp_ret
  | |- wp (gets _) _ _ => apply wp_gets
  | |- wp misuse _ _ => apply wp_misuse
  end; cbv beta.
(** A proved specification for the first operation. *)
Tactic Notation "ewp" uconstr(L) "as" simple_intropattern(x) simple_intropattern(s) simple_intropattern(H) :=
  apply ewp_bind; eapply ewp_mono; [apply L | cbv beta; intros x s H].
