(* ===== verification/Evb2.v ===== *)
(** Evb2: the event loop of package/aloe/sys_linux/evb2.c.  Handles live in a
    heap and are linked into four intrusive lists of the context; callbacks are
    client programs that call the loop back.  The kernel side is the interest
    set of the epoll descriptor and the wake pipe.  Clock, allocator, kernel
    refusals, events and client programs come from an environment over which
    the theorems quantify. *)

From stdpp Require Import gmap.
From S2P Require Import Prelude Eff.

Open Scope eff_scope.

(* ------------------------------------------------------------------ *)
(** ** Constants *)

Definition FLAG_READ : Z := Z.shiftl 1 0.
Definition FLAG_WRITE : Z := Z.shiftl 1 1.
Definition FLAG_EXCEPT : Z := Z.shiftl 1 2.
Definition FLAG_TIMEOUT : Z := Z.shiftl 1 3.
Definition FLAG_CANCELLED : Z := Z.shiftl 1 4.
Definition UINT64_MAX : Z := 18446744073709551615.
Definition INFINITE : Z := UINT64_MAX.
Definition FD_TIMER : Z := -1.

(** [flag2]. *)
Definition EVB2_FLAG_ONESHOT : Z := Z.shiftl 1 8.
Definition EVB2_FLAG_DEAD : Z := Z.shiftl 1 9.
Definition EVB2_FLAG_INTERNAL : Z := Z.shiftl 1 10.
Definition EVB2_EPOLL_MAX : Z := 32.
Definition EVB2_MIN_REARM_MS : Z := 1.

(** sys/epoll.h and errno.h. *)
Definition EPOLLIN : Z := 0x1.
Definition EPOLLPRI : Z := 0x2.
Definition EPOLLOUT : Z := 0x4.
Definition EPOLLERR : Z := 0x8.
Definition EPOLLHUP : Z := 0x10.
Definition EPOLLRDHUP : Z := 0x2000.
Definition ENOENT : Z := 2.
Definition EINTR : Z := 4.
Definition EBADF : Z := 9.
Definition EEXIST : Z := 17.

(** [f & m] as a condition. *)
Definition has (f m : Z) : bool := negb (Z.land f m =? 0).

(* ------------------------------------------------------------------ *)
(** ** State *)

(** The callback of a handle: the loop's own, or a client's. *)
Inductive cbk : Type := NoCb | AsyncHandler | User (c : Z).

Record handle : Type := Handle {
  h_cb : cbk; h_ud : Z; h_fd : Z; h_timeout_ms : Z; h_timeout_at : Z; h_evb : Z;
  h_flag : Z; h_flag2 : Z; h_noti : Z }.

(** The lists of a context.  [Fdmon], [Ready] and [Async] share the link
    [fdmon_ent]; [Timer] uses [timer_ent]. *)
Inductive lst : Type := Fdmon | Timer | Ready | Async.

Record evb2 : Type := Evb2 {
  epfd : Z; pipe0 : Z; pipe1 : Z;
  fdmon_list : list Z; timer_list : list Z; ready_list : list Z; async_list : list Z;
  locked : bool; notifying : option Z; stopping : bool; in_run : bool; finalized : bool }.

Definition get_list (l : lst) (c : evb2) : list Z :=
  match l with
  | Fdmon => fdmon_list c | Timer => timer_list c | Ready => ready_list c | Async => async_list c
  end.

Definition set_list (l : lst) (x : list Z) (c : evb2) : evb2 :=
  let 'Evb2 e p0 p1 f t r a k n s i z := c in
  match l with
  | Fdmon => Evb2 e p0 p1 x t r a k n s i z
  | Timer => Evb2 e p0 p1 f x r a k n s i z
  | Ready => Evb2 e p0 p1 f t x a k n s i z
  | Async => Evb2 e p0 p1 f t r x k n s i z
  end.
Definition set_fds (e p0 p1 : Z) (c : evb2) : evb2 :=
  Evb2 e p0 p1 (fdmon_list c) (timer_list c) (ready_list c) (async_list c)
    (locked c) (notifying c) (stopping c) (in_run c) (finalized c).
Definition set_locked (b : bool) (c : evb2) : evb2 :=
  Evb2 (epfd c) (pipe0 c) (pipe1 c) (fdmon_list c) (timer_list c) (ready_list c) (async_list c)
    b (notifying c) (stopping c) (in_run c) (finalized c).
Definition set_notifying (x : option Z) (c : evb2) : evb2 :=
  Evb2 (epfd c) (pipe0 c) (pipe1 c) (fdmon_list c) (timer_list c) (ready_list c) (async_list c)
    (locked c) x (stopping c) (in_run c) (finalized c).
Definition set_stopping (b : bool) (c : evb2) : evb2 :=
  Evb2 (epfd c) (pipe0 c) (pipe1 c) (fdmon_list c) (timer_list c) (ready_list c) (async_list c)
    (locked c) (notifying c) b (in_run c) (finalized c).
Definition set_in_run (b : bool) (c : evb2) : evb2 :=
  Evb2 (epfd c) (pipe0 c) (pipe1 c) (fdmon_list c) (timer_list c) (ready_list c) (async_list c)
    (locked c) (notifying c) (stopping c) b (finalized c).
Definition set_finalized (b : bool) (c : evb2) : evb2 :=
  Evb2 (epfd c) (pipe0 c) (pipe1 c) (fdmon_list c) (timer_list c) (ready_list c) (async_list c)
    (locked c) (notifying c) (stopping c) (in_run c) b.

Definition with_timeout (ms at_ : Z) (h : handle) : handle :=
  Handle (h_cb h) (h_ud h) (h_fd h) ms at_ (h_evb h) (h_flag h) (h_flag2 h) (h_noti h).
Definition set_flag2 (f : Z) (h : handle) : handle :=
  Handle (h_cb h) (h_ud h) (h_fd h) (h_timeout_ms h) (h_timeout_at h) (h_evb h) (h_flag h) f (h_noti h).
Definition set_noti (n : Z) (h : handle) : handle :=
  Handle (h_cb h) (h_ud h) (h_fd h) (h_timeout_ms h) (h_timeout_at h) (h_evb h) (h_flag h) (h_flag2 h) n.

(** One callback made: the handle it was made for, the client function and its
    arguments. *)
Record entry : Type := Entry { e_h : Z; e_cb : Z; e_fd : Z; e_flag : Z; e_ud : Z }.

(** The program's memory, the kernel's state, the counters that index the
    environment, and a history: the callbacks made so far and the cancels that
    reported success, each with the handle and the callbacks made by then.  The
    code keeps neither.  [kfds]: the loop's open descriptors.  Addresses are
    not reused. *)
Record world : Type := World {
  ctx : option (Z * evb2); heap : gmap Z handle; brk : Z;
  interest : gmap Z Z; pipe : Z; kfds : list Z;
  n_clock : nat; n_sys : nat; n_wait : nat; n_cb : nat; log : list entry;
  cancels : list (Z * nat) }.

Definition set_ctx (x : option (Z * evb2)) (w : world) : world :=
  World x (heap w) (brk w) (interest w) (pipe w) (kfds w) (n_clock w) (n_sys w) (n_wait w) (n_cb w) (log w) (cancels w).
Definition set_heap (x : gmap Z handle) (w : world) : world :=
  World (ctx w) x (brk w) (interest w) (pipe w) (kfds w) (n_clock w) (n_sys w) (n_wait w) (n_cb w) (log w) (cancels w).
Definition set_brk (x : Z) (w : world) : world :=
  World (ctx w) (heap w) x (interest w) (pipe w) (kfds w) (n_clock w) (n_sys w) (n_wait w) (n_cb w) (log w) (cancels w).
Definition set_interest (x : gmap Z Z) (w : world) : world :=
  World (ctx w) (heap w) (brk w) x (pipe w) (kfds w) (n_clock w) (n_sys w) (n_wait w) (n_cb w) (log w) (cancels w).
Definition set_pipe (x : Z) (w : world) : world :=
  World (ctx w) (heap w) (brk w) (interest w) x (kfds w) (n_clock w) (n_sys w) (n_wait w) (n_cb w) (log w) (cancels w).
Definition set_kfds (x : list Z) (w : world) : world :=
  World (ctx w) (heap w) (brk w) (interest w) (pipe w) x (n_clock w) (n_sys w) (n_wait w) (n_cb w) (log w) (cancels w).
Definition tick_clock (w : world) : world :=
  World (ctx w) (heap w) (brk w) (interest w) (pipe w) (kfds w) (S (n_clock w)) (n_sys w) (n_wait w) (n_cb w) (log w) (cancels w).
Definition tick_sys (w : world) : world :=
  World (ctx w) (heap w) (brk w) (interest w) (pipe w) (kfds w) (n_clock w) (S (n_sys w)) (n_wait w) (n_cb w) (log w) (cancels w).
Definition tick_wait (w : world) : world :=
  World (ctx w) (heap w) (brk w) (interest w) (pipe w) (kfds w) (n_clock w) (n_sys w) (S (n_wait w)) (n_cb w) (log w) (cancels w).
Definition tick_cb (e : entry) (w : world) : world :=
  World (ctx w) (heap w) (brk w) (interest w) (pipe w) (kfds w) (n_clock w) (n_sys w) (n_wait w) (S (n_cb w))
    (log w ++ [e]) (cancels w).
Definition add_cancel (a : Z) (w : world) : world :=
  World (ctx w) (heap w) (brk w) (interest w) (pipe w) (kfds w) (n_clock w) (n_sys w) (n_wait w) (n_cb w)
    (log w) (cancels w ++ [(a, length (log w))]).

(* ------------------------------------------------------------------ *)
(** ** Clients *)

(** Calls of evb2.h with their arguments (0 is NULL), and closing a descriptor,
    which takes it out of the kernel's interest set. *)
Inductive call : Type :=
  | AddFd (ctx fd ev_req ms : Z) (cb : cbk) (ud : Z)
  | AddOneshotFd (ctx fd ev_req ms : Z) (cb : cbk) (ud : Z)
  | AddTimer (ctx ms : Z) (cb : cbk) (ud : Z)
  | AddOneshotTimer (ctx ms : Z) (cb : cbk) (ud : Z)
  | Cancel (ctx h : Z)
  | CancelFd (ctx fd : Z)
  | SetTimeout (ctx h ms : Z)
  | RunOnce (ctx ms : Z)
  | Destroy (ctx : Z)
  | CloseFd (fd : Z).

(** A client: calls, each chosen from the results of the ones before. *)
Inductive prog : Type := Stop | Call (c : call) (k : Z -> prog).

(** What one [epoll_wait] brings: the one-shot timers other threads register
    meanwhile, and an error or the events. *)
Record wait_res : Type := Wait {
  remote : list (Z * cbk * Z); answer : Z + list (Z * Z) }.

(** The environment: the clock, the errno of the n-th call that can be refused
    (0: it is not), the waits by their timeout, what the n-th client callback
    does with its arguments, and the numbers of the loop's own descriptors. *)
Record env : Type := Env {
  clock : nat -> Z; refuse : nat -> Z; wait : nat -> Z -> wait_res;
  behave : nat -> Z -> Z -> Z -> Z -> prog; descr : Z * Z * Z }.

Definition M (A : Type) : Type := comp world A.

Section Loop.
Context (E : env).

(* ---------------------------------------------------------------- *)
(** *** Memory and system calls *)

(** [evb->...]: the context must be the one allocated. *)
Definition deref (p : Z) : M evb2 :=
  do w <- get;
  match ctx w with
  | Some (q, c) => if p =? q then ret c else ub
  | None => ub
  end.
Definition ctx_upd (p : Z) (f : evb2 -> evb2) : M unit :=
  do c <- deref p; modify (set_ctx (Some (p, f c))).

Definition hget (a : Z) : M handle := do w <- get; need (heap w !! a).
Definition hupd (a : Z) (f : handle -> handle) : M unit :=
  do h <- hget a; modify (fun w => set_heap (<[a := f h]> (heap w)) w).
Definition free (a : Z) : M unit :=
  hget a;; modify (fun w => set_heap (delete a (heap w)) w).

Definition evb2_now_ms : M Z := do n <- gets n_clock; modify tick_clock;; ret (clock E n).
Definition sys : M Z := do n <- gets n_sys; modify tick_sys;; ret (refuse E n).
(** [calloc]: NULL or a new address. *)
Definition alloc : M Z :=
  do r <- sys;
  if negb (r =? 0) then ret 0 else
  do a <- gets brk; modify (set_brk (a + 1));; ret a.

Definition lock (p : Z) : M unit :=
  do c <- deref p; if locked c then ub else ctx_upd p (set_locked true).
Definition unlock (p : Z) : M unit := ctx_upd p (set_locked false).

Definition epoll_add (fd ev : Z) : M Z :=
  do r <- sys;
  if negb (r =? 0) then ret r else
  do i <- gets interest;
  match i !! fd with
  | Some _ => ret EEXIST
  | None => modify (set_interest (<[fd := ev]> i));; ret 0
  end.
Definition epoll_mod (fd ev : Z) : M Z :=
  do r <- sys;
  if negb (r =? 0) then ret r else
  do i <- gets interest;
  match i !! fd with
  | Some _ => modify (set_interest (<[fd := ev]> i));; ret 0
  | None => ret ENOENT
  end.
Definition epoll_del (fd : Z) : M Z :=
  do r <- sys;
  if negb (r =? 0) then ret r else
  do i <- gets interest;
  match i !! fd with
  | Some _ => modify (set_interest (delete fd i));; ret 0
  | None => ret ENOENT
  end.

Definition close (fd : Z) : M unit :=
  do k <- gets kfds;
  if bool_decide (fd ∈ k) then modify (set_kfds (filter (fun x => x <> fd) k)) else ub.

(** A write of one byte to the non-blocking wake pipe of 65536 bytes. *)
Definition pipe_write : M unit := modify (fun w => set_pipe (Z.min 65536 (pipe w + 1)) w).
(** [while (read(fd, buf, sizeof(buf)) > 0)] with 64 bytes at a time. *)
Fixpoint drain (n : nat) : M unit :=
  match n with
  | O => deep
  | S n' =>
      do b <- gets pipe;
      if 0 <? Z.min 64 b then modify (set_pipe (b - Z.min 64 b));; drain n' else ret tt
  end.

(* ---------------------------------------------------------------- *)
(** *** Intrusive lists *)

(** Every entry walked over is read: it must be allocated. *)
Fixpoint q_remove (hp : gmap Z handle) (e : Z) (l : list Z) : option (bool * list Z) :=
  match l with
  | [] => Some (false, [])
  | x :: l' =>
      _ ← hp !! x;
      if x =? e then Some (true, l') else
      '(b, r) ← q_remove hp e l'; Some (b, x :: r)
  end.
Fixpoint q_contains (hp : gmap Z handle) (e : Z) (l : list Z) : option bool :=
  match l with
  | [] => Some false
  | x :: l' => if x =? e then Some true else _ ← hp !! x; q_contains hp e l'
  end.
Fixpoint q_all (hp : gmap Z handle) (l : list Z) : option (list handle) :=
  match l with
  | [] => Some []
  | x :: l' => h ← hp !! x; r ← q_all hp l'; Some (h :: r)
  end.
Fixpoint t_insert (hp : gmap Z handle) (e at_ : Z) (l : list Z) : option (list Z) :=
  match l with
  | [] => Some [e]
  | x :: l' =>
      cur ← hp !! x;
      if at_ <? h_timeout_at cur then Some (e :: x :: l') else
      r ← t_insert hp e at_ l'; Some (x :: r)
  end.

(** The lists an entry of [l] must not be on when it is linked into [l]: they
    use the same link. *)
Definition same_link (l : lst) (c : evb2) : list Z :=
  match l with
  | Timer => timer_list c
  | _ => fdmon_list c ++ ready_list c ++ async_list c
  end.

Definition qent_insert_tail (p : Z) (l : lst) (e : Z) : M unit :=
  do c <- deref p; do hp <- gets heap;
  hget e;; need (q_all hp (get_list l c));;
  if bool_decide (e ∈ same_link l c) then ub else
  ctx_upd p (set_list l (get_list l c ++ [e])).

Definition qent_remove (p : Z) (l : lst) (e : Z) : M bool :=
  do c <- deref p; do hp <- gets heap;
  do ' (b, r) <- need (q_remove hp e (get_list l c));
  ctx_upd p (set_list l r);; ret b.

Definition qent_contains (p : Z) (l : lst) (e : Z) : M bool :=
  do c <- deref p; do hp <- gets heap; need (q_contains hp e (get_list l c)).

Definition qent_pop (p : Z) (l : lst) : M (option Z) :=
  do c <- deref p;
  match get_list l c with
  | [] => ret None
  | e :: r => hget e;; ctx_upd p (set_list l r);; ret (Some e)
  end.

Definition timer_insert (p : Z) (a : Z) : M unit :=
  do c <- deref p; do hp <- gets heap;
  do h <- hget a;
  do r <- need (t_insert hp a (h_timeout_at h) (timer_list c));
  if bool_decide (a ∈ timer_list c) then ub else ctx_upd p (set_list Timer r).

(** A loop over a list that saves [next] before its body: an entry reached
    must still be linked.  The results of the bodies are added up. *)
Fixpoint foreach (p : Z) (l : lst) (q : list Z) (body : Z -> M Z) : M Z :=
  match q with
  | [] => ret 0
  | a :: q' =>
      do c <- deref p;
      if bool_decide (a ∈ get_list l c)
      then do r <- body a; do s <- foreach p l q' body; ret (r + s)
      else ub
  end.

(* ---------------------------------------------------------------- *)
(** *** Helpers *)

Definition evb2_set_timeout (a now : Z) : M unit :=
  hupd a (fun h => with_timeout (h_timeout_ms h)
    (if (h_timeout_ms h =? INFINITE) || (UINT64_MAX - now <? h_timeout_ms h)
     then UINT64_MAX else now + h_timeout_ms h) h).

Definition evb2_arm_timer (p a : Z) : M unit :=
  do now <- evb2_now_ms;
  qent_remove p Timer a;;
  do h <- hget a;
  (if h_timeout_ms h =? 0
   then hupd a (with_timeout (h_timeout_ms h)
          (if UINT64_MAX - now <? EVB2_MIN_REARM_MS then UINT64_MAX
           else now + EVB2_MIN_REARM_MS))
   else evb2_set_timeout a now);;
  do h <- hget a;
  if negb (h_timeout_at h =? UINT64_MAX) then timer_insert p a else ret tt.

Definition handle_detach (p a : Z) : M unit :=
  qent_remove p Fdmon a;; qent_remove p Timer a;; qent_remove p Ready a;; ret tt.

Definition evb2_wake (p : Z) : M unit :=
  if p =? 0 then ret tt else
  do c <- deref p; if pipe1 c <? 0 then ret tt else pipe_write.

Definition to_epoll (ev_req : Z) : Z :=
  Z.lor (if has ev_req FLAG_READ then Z.lor EPOLLIN EPOLLRDHUP else 0)
    (Z.lor (if has ev_req FLAG_WRITE then EPOLLOUT else 0)
           (if has ev_req FLAG_EXCEPT then EPOLLPRI else 0)).

Definition from_epoll (e : Z) : Z :=
  Z.lor (if has e (Z.lor EPOLLIN (Z.lor EPOLLRDHUP EPOLLHUP)) then FLAG_READ else 0)
    (Z.lor (if has e EPOLLOUT then FLAG_WRITE else 0)
           (if has e (Z.lor EPOLLPRI (Z.lor EPOLLERR EPOLLHUP)) then FLAG_EXCEPT else 0)).

(** The flags the monitored handles of [fd] ask for; [None]: there are none. *)
Definition requested (fd : Z) (hs : list handle) : option Z :=
  foldl (fun r h => if h_fd h =? fd then Some (Z.lor (default 0 r) (h_flag h)) else r) None hs.

Definition epoll_refresh (p fd : Z) : M Z :=
  if p =? 0 then ret (-1) else
  do c <- deref p;
  if epfd c <? 0 then ret (-1) else
  if fd <=? FD_TIMER then ret 0 else
  do hp <- gets heap;
  do hs <- need (q_all hp (fdmon_list c));
  match requested fd hs with
  | None =>
      do r <- epoll_del fd;
      ret (if negb (r =? 0) && negb (r =? ENOENT) && negb (r =? EBADF) then -1 else 0)
  | Some ev_req =>
      do r <- epoll_add fd (to_epoll ev_req);
      if r =? 0 then ret 0 else
      if r =? EEXIST
      then do r <- epoll_mod fd (to_epoll ev_req); ret (if r =? 0 then 0 else -1)
      else ret (-1)
  end.

Definition handle_to_ready (p a noti : Z) : M unit :=
  do h <- hget a;
  qent_remove p Fdmon a;; qent_remove p Timer a;;
  hupd a (set_noti noti);; qent_insert_tail p Ready a;;
  if 0 <=? h_fd h then epoll_refresh p (h_fd h);; ret tt else ret tt.

Definition handle_alloc (p : Z) : M Z :=
  do a <- alloc;
  if a =? 0 then ret 0 else
  modify (fun w => set_heap (<[a := Handle NoCb 0 FD_TIMER 0 0 p 0 0 0]> (heap w)) w);; ret a.

(* ---------------------------------------------------------------- *)
(** *** Operations that make callbacks *)

(** [invoke a cb fd flag ud]: the call of the callback of handle [a]. *)
Section Callbacks.
Context (invoke : Z -> cbk -> Z -> Z -> Z -> M unit).

Definition evb2_notify_cancel (a : Z) : M unit :=
  do h <- hget a;
  (match h_cb h with
   | NoCb => ret tt
   | cb => invoke a cb (h_fd h) FLAG_CANCELLED (h_ud h)
   end);;
  free a.

(** The body of the loop over the queued timers; [n] bounds the turns. *)
Fixpoint install_loop (n : nat) (p : Z) : M unit :=
  do q <- qent_pop p Async;
  match q, n with
  | None, _ => ret tt
  | Some _, O => deep
  | Some a, S n' =>
      do c <- deref p;
      do h <- hget a;
      (if stopping c then unlock p;; evb2_notify_cancel a;; lock p
       else if negb (h_timeout_at h =? UINT64_MAX) then timer_insert p a
       else unlock p;; evb2_notify_cancel a;; lock p);;
      install_loop n' p
  end.

Definition evb2_install_async (p : Z) : M unit :=
  lock p;;
  do c <- deref p;
  install_loop (length (async_list c)) p;;
  unlock p.

Definition async_handler (fd flag ud : Z) : M unit :=
  if ud =? 0 then ret tt else
  if has flag FLAG_CANCELLED then ret tt else
  do b <- gets pipe; drain (S (Z.to_nat b));;
  evb2_install_async ud.

(** [while ((q = list))] of [evb2_finalize]. *)
Fixpoint cancel_all (n : nat) (l : lst) (p : Z) : M unit :=
  do c <- deref p;
  match get_list l c, n with
  | [], _ => ret tt
  | _ :: _, O => deep
  | a :: _, S n' => handle_detach p a;; evb2_notify_cancel a;; cancel_all n' l p
  end.
Definition cancel_list (l : lst) (p : Z) : M unit :=
  do c <- deref p; cancel_all (length (get_list l c)) l p.

Fixpoint cancel_async (n : nat) (p : Z) : M unit :=
  do q <- qent_pop p Async;
  match q, n with
  | None, _ => ret tt
  | Some _, O => deep
  | Some a, S n' => unlock p;; evb2_notify_cancel a;; lock p;; cancel_async n' p
  end.

Definition evb2_finalize (p : Z) : M unit :=
  do c <- deref p;
  if finalized c then ret tt else
  ctx_upd p (set_finalized true);;
  cancel_list Fdmon p;; cancel_list Timer p;; cancel_list Ready p;;
  lock p;;
  (do c <- deref p; cancel_async (length (async_list c)) p);;
  unlock p;;
  do c <- deref p;
  (if 0 <=? pipe0 c then close (pipe0 c) else ret tt);;
  (if 0 <=? pipe1 c then close (pipe1 c) else ret tt);;
  (if 0 <=? epfd c then close (epfd c);; modify (set_interest ∅) else ret tt);;
  ctx_upd p (set_fds (-1) (-1) (-1)).

(** [pthread_mutex_destroy] of a mutex that is held is undefined. *)
Definition evb2_free (p : Z) : M unit :=
  evb2_finalize p;;
  do c <- deref p;
  if locked c then ub else modify (set_ctx None).

Definition evb2_run_leave (p rc : Z) : M Z :=
  do c <- deref p;
  if negb (stopping c) then ctx_upd p (set_in_run false);; ret rc
  else evb2_free p;; ret (-1).

Definition aloe_evb2_destroy (p : Z) : M unit :=
  if p =? 0 then ret tt else
  lock p;;
  ctx_upd p (set_stopping true);;
  do c <- deref p;
  (if negb (in_run c) then ctx_upd p (set_in_run true) else ret tt);;
  unlock p;;
  evb2_wake p;;
  if in_run c then ret tt else evb2_free p.

(* -------------------------------------------------------------- *)
(** *** Registration *)

Definition aloe_evb2_add_fd (p fd ev_req ms : Z) (cb : cbk) (ud : Z) : M Z :=
  if p =? 0 then ret 0 else
  do c <- deref p;
  if stopping c || finalized c || (match cb with NoCb => true | _ => false end)
     || (fd <? FD_TIMER) then ret 0 else
  if (fd =? FD_TIMER) && (ms =? INFINITE) then ret 0 else
  do a <- handle_alloc p;
  if a =? 0 then ret 0 else
  hupd a (fun h => Handle cb ud fd ms (h_timeout_at h) (h_evb h) ev_req (h_flag2 h) (h_noti h));;
  do now <- evb2_now_ms;
  evb2_set_timeout a now;;
  do r <- (if 0 <=? fd then qent_insert_tail p Fdmon a;; epoll_refresh p fd else ret 0);
  if negb (r =? 0) then handle_detach p a;; free a;; ret 0 else
  do h <- hget a;
  (if negb (h_timeout_at h =? UINT64_MAX) then timer_insert p a else ret tt);;
  ret a.

Definition aloe_evb2_add_oneshot_fd (p fd ev_req ms : Z) (cb : cbk) (ud : Z) : M Z :=
  do a <- aloe_evb2_add_fd p fd ev_req ms cb ud;
  (if negb (a =? 0)
   then hupd a (fun h => set_flag2 (Z.lor (h_flag2 h) EVB2_FLAG_ONESHOT) h) else ret tt);;
  ret a.

Definition aloe_evb2_add_timer (p ms : Z) (cb : cbk) (ud : Z) : M Z :=
  aloe_evb2_add_fd p FD_TIMER 0 ms cb ud.

Definition aloe_evb2_add_oneshot_timer (p ms : Z) (cb : cbk) (ud : Z) : M Z :=
  if (p =? 0) || (match cb with NoCb => true | _ => false end) || (ms =? INFINITE)
  then ret 0 else
  do a <- handle_alloc p;
  if a =? 0 then ret 0 else
  hupd a (fun h => Handle cb ud FD_TIMER ms (h_timeout_at h) (h_evb h) 0
            EVB2_FLAG_ONESHOT (h_noti h));;
  do now <- evb2_now_ms;
  evb2_set_timeout a now;;
  lock p;;
  do c <- deref p;
  if stopping c || finalized c then unlock p;; free a;; ret 0 else
  qent_insert_tail p Async a;;
  evb2_wake p;;
  unlock p;;
  ret a.

(** [return 0]: the client is told that the handle is gone. *)
Definition told_gone (a : Z) : M Z := modify (add_cancel a);; ret 0.

Definition aloe_evb2_cancel (p a : Z) : M Z :=
  if (p =? 0) || (a =? 0) then ret (-1) else
  do h <- hget a;
  if negb (h_evb h =? p) then ret (-1) else
  if has (h_flag2 h) EVB2_FLAG_INTERNAL then ret (-1) else
  do c <- deref p;
  if bool_decide (notifying c = Some a)
  then hupd a (fun h => set_flag2 (Z.lor (h_flag2 h) EVB2_FLAG_DEAD) h);; told_gone a else
  lock p;;
  do b <- qent_remove p Async a;
  if b then unlock p;; free a;; told_gone a else
  unlock p;;
  do b1 <- qent_remove p Fdmon a;
  do b2 <- qent_remove p Ready a;
  do b3 <- qent_remove p Timer a;
  if negb (b1 || b2 || b3) then ret (-1) else
  (if 0 <=? h_fd h then epoll_refresh p (h_fd h);; ret tt else ret tt);;
  free a;; told_gone a.

Definition aloe_evb2_cancel_fd (p fd : Z) : M Z :=
  if p =? 0 then ret (-1) else
  if fd <=? FD_TIMER then ret (-1) else
  do c <- deref p;
  if (fd =? pipe0 c) || (fd =? pipe1 c) then ret (-1) else
  let one a := do h <- hget a;
    if h_fd h =? fd
    then do r <- aloe_evb2_cancel p a; ret (if r =? 0 then 1 else 0) else ret 0 in
  do c <- deref p; do n1 <- foreach p Fdmon (fdmon_list c) one;
  do c <- deref p; do n2 <- foreach p Timer (timer_list c) one;
  do c <- deref p; do n3 <- foreach p Ready (ready_list c) one;
  ret (n1 + n2 + n3).

Definition aloe_evb2_set_timeout (p a ms : Z) : M Z :=
  if (p =? 0) || (a =? 0) then ret (-1) else
  do h <- hget a;
  if negb (h_evb h =? p) then ret (-1) else
  if has (h_flag2 h) (Z.lor EVB2_FLAG_INTERNAL EVB2_FLAG_DEAD) then ret (-1) else
  do c <- deref p;
  if stopping c || finalized c then ret (-1) else
  if (h_fd h =? FD_TIMER) && (ms =? INFINITE) then ret (-1) else
  hupd a (fun h => with_timeout ms (h_timeout_at h) h);;
  do now <- evb2_now_ms;
  evb2_set_timeout a now;;
  if bool_decide (notifying c = Some a) then ret 0 else
  lock p;;
  do pending <- qent_contains p Async a;
  unlock p;;
  if pending then ret 0 else
  do ready <- qent_contains p Ready a;
  if ready then ret 0 else
  qent_remove p Timer a;;
  do h <- hget a;
  (if negb (h_timeout_at h =? UINT64_MAX) then timer_insert p a else ret tt);;
  ret 0.

(* -------------------------------------------------------------- *)
(** *** One pass of the loop *)

(** The argument of [epoll_wait]: -1 waits for ever. *)
Definition wait_ms (first : option Z) (now ms : Z) : Z :=
  let timeout :=
    match first with
    | None => -1
    | Some at_ =>
        if at_ <=? now then 0 else
        let dt := at_ - now in if INT_MAX <? dt then INT_MAX else dt
    end in
  if negb (ms =? INFINITE) then
    let user_to := if INT_MAX <? ms then INT_MAX else ms in
    if (timeout <? 0) || (user_to <? timeout) then user_to else timeout
  else timeout.

(** The one-shot timers other threads queue while the loop waits. *)
Fixpoint remotes (p : Z) (l : list (Z * cbk * Z)) : M unit :=
  match l with
  | [] => ret tt
  | (ms, cb, ud) :: l' => aloe_evb2_add_oneshot_timer p ms cb ud;; remotes p l'
  end.

Definition epoll_wait (p timeout : Z) : M (Z + list (Z * Z)) :=
  do n <- gets n_wait; modify tick_wait;;
  let r := wait E n timeout in
  remotes p (remote r);;
  ret (match answer r with
       | inl e => inl e
       | inr evs => inr (take (Z.to_nat EVB2_EPOLL_MAX) evs)
       end).

(** What an event [e] and the clock mean for a monitored handle. *)
Definition notification (h : handle) (e now : Z) : Z :=
  let noti := Z.land (from_epoll e) (h_flag h) in
  let noti := if has e (Z.lor EPOLLERR EPOLLHUP) && (noti =? 0)
              then Z.lor noti FLAG_EXCEPT else noti in
  if h_timeout_at h <=? now then Z.lor noti FLAG_TIMEOUT else noti.

Definition on_event (p now : Z) (ev : Z * Z) : M unit :=
  let (fd, e) := ev in
  do c <- deref p;
  do hit <- foreach p Fdmon (fdmon_list c) (fun a =>
    do h <- hget a;
    if negb (h_fd h =? fd) then ret 0 else
    if notification h e now =? 0 then ret 0 else
    qent_remove p Fdmon a;; qent_remove p Timer a;;
    hupd a (set_noti (notification h e now));; qent_insert_tail p Ready a;;
    ret 1);
  if negb (hit =? 0) then epoll_refresh p fd;; ret tt else ret tt.

Fixpoint on_events (p now : Z) (evs : list (Z * Z)) : M unit :=
  match evs with
  | [] => ret tt
  | ev :: evs' => on_event p now ev;; on_events p now evs'
  end.

Fixpoint expire (n : nat) (p now : Z) : M unit :=
  do c <- deref p;
  match timer_list c with
  | [] => ret tt
  | a :: _ =>
      do h <- hget a;
      if now <? h_timeout_at h then ret tt else
      match n with
      | O => deep
      | S n' => handle_to_ready p a FLAG_TIMEOUT;; expire n' p now
      end
  end.

(** The dispatch loop; the result is the count of client callbacks. *)
Fixpoint dispatch (n : nat) (p : Z) : M Z :=
  do q <- qent_pop p Ready;
  match q, n with
  | None, _ => ret 0
  | Some _, O => deep
  | Some a, S n' =>
      do h <- hget a;
      ctx_upd p (set_notifying (Some a));;
      (match h_cb h with
       | NoCb => ret tt
       | cb => invoke a cb (h_fd h) (h_noti h) (h_ud h)
       end);;
      ctx_upd p (set_notifying None);;
      do h' <- hget a;
      do c <- deref p;
      (if stopping c || has (h_flag2 h') EVB2_FLAG_DEAD || has (h_flag2 h) EVB2_FLAG_ONESHOT
       then free a
       else
         hupd a (set_noti 0);;
         (if 0 <=? h_fd h then qent_insert_tail p Fdmon a else ret tt);;
         evb2_arm_timer p a;;
         (if 0 <=? h_fd h then epoll_refresh p (h_fd h);; ret tt else ret tt));;
      do cnt <- dispatch n' p;
      ret ((if has (h_flag2 h') EVB2_FLAG_INTERNAL then 0 else 1) + cnt)
  end.

(** What follows [epoll_wait]: collect, then dispatch. *)
Definition process (p : Z) (evs : list (Z * Z)) : M Z :=
  do now <- evb2_now_ms;
  on_events p now evs;;
  (do c <- deref p; expire (length (timer_list c)) p now);;
  (do c <- deref p; dispatch (length (ready_list c)) p).

Definition aloe_evb2_run_once (p ms : Z) : M Z :=
  if p =? 0 then ret (-1) else
  do c <- deref p;
  if stopping c || finalized c || in_run c || (epfd c <? 0) then ret (-1) else
  ctx_upd p (set_in_run true);;
  evb2_install_async p;;
  do now <- evb2_now_ms;
  do c <- deref p;
  do first <- (match timer_list c with
               | [] => ret None
               | a :: _ => do h <- hget a; ret (Some (h_timeout_at h))
               end);
  do r <- epoll_wait p (wait_ms first now ms);
  match r with
  | inl e => evb2_run_leave p (if e =? EINTR then 0 else -1)
  | inr evs => do cnt <- process p evs; evb2_run_leave p cnt
  end.

(* -------------------------------------------------------------- *)
(** *** Clients *)

(** A client may pass NULL or the live context, NULL or a live handle, a
    function of its own; it closes no descriptor of the loop. *)
Definition ctx_ok (p : Z) (w : world) : bool :=
  (p =? 0) || match ctx w with Some (q, _) => p =? q | None => false end.
Definition handle_ok (a : Z) (w : world) : bool :=
  (a =? 0) || bool_decide (is_Some (heap w !! a)).
Definition cb_ok (cb : cbk) : bool := match cb with AsyncHandler => false | _ => true end.
Definition call_ok (c : call) (w : world) : bool :=
  match c with
  | AddFd p _ _ _ cb _ | AddOneshotFd p _ _ _ cb _ | AddTimer p _ cb _
  | AddOneshotTimer p _ cb _ => ctx_ok p w && cb_ok cb
  | Cancel p a | SetTimeout p a _ => ctx_ok p w && handle_ok a w
  | CancelFd p _ | RunOnce p _ | Destroy p => ctx_ok p w
  | CloseFd fd => bool_decide (fd ∉ kfds w)
  end.

Definition api (c : call) : M Z :=
  do w <- get;
  if negb (call_ok c w) then misuse else
  match c with
  | AddFd p fd ev ms cb ud => aloe_evb2_add_fd p fd ev ms cb ud
  | AddOneshotFd p fd ev ms cb ud => aloe_evb2_add_oneshot_fd p fd ev ms cb ud
  | AddTimer p ms cb ud => aloe_evb2_add_timer p ms cb ud
  | AddOneshotTimer p ms cb ud => aloe_evb2_add_oneshot_timer p ms cb ud
  | Cancel p a => aloe_evb2_cancel p a
  | CancelFd p fd => aloe_evb2_cancel_fd p fd
  | SetTimeout p a ms => aloe_evb2_set_timeout p a ms
  | RunOnce p ms => aloe_evb2_run_once p ms
  | Destroy p => aloe_evb2_destroy p;; ret 0
  | CloseFd fd => modify (fun w => set_interest (delete fd (interest w)) w);; ret 0
  end.

Fixpoint run_prog (t : prog) : M unit :=
  match t with
  | Stop => ret tt
  | Call c k => do r <- api c; run_prog (k r)
  end.
End Callbacks.

(** A callback made at depth [d]: the calls it makes may make callbacks of
    depth less than [d]. *)
Fixpoint invoke (d : nat) (a : Z) (cb : cbk) (fd flag ud : Z) : M unit :=
  match d with
  | O => deep
  | S d' =>
      match cb with
      | NoCb => ub
      | AsyncHandler => async_handler (invoke d') fd flag ud
      | User c =>
          do n <- gets n_cb;
          modify (tick_cb (Entry a c fd flag ud));;
          run_prog (invoke d') (behave E n c fd flag ud)
      end
  end.

Definition aloe_evb2_create (d : nat) : M Z :=
  do p <- alloc;
  if p =? 0 then ret 0 else
  modify (set_ctx (Some (p, Evb2 (-1) (-1) (-1) [] [] [] [] false None false false false)));;
  do r <- sys;
  if negb (r =? 0) then modify (set_ctx None);; ret 0 else
  let '(ep, p0, p1) := descr E in
  do r <- sys;
  if negb (r =? 0) then aloe_evb2_destroy (invoke d) p;; ret 0 else
  modify (fun w => set_kfds (ep :: kfds w) w);;
  ctx_upd p (set_fds ep (-1) (-1));;
  do r <- sys;
  if negb (r =? 0) then aloe_evb2_destroy (invoke d) p;; ret 0 else
  modify (fun w => set_kfds (p0 :: p1 :: kfds w) w);;
  ctx_upd p (set_fds ep p0 p1);;
  do a <- aloe_evb2_add_fd p p0 FLAG_READ INFINITE AsyncHandler p;
  if a =? 0 then aloe_evb2_destroy (invoke d) p;; ret 0 else
  hupd a (fun h => set_flag2 (Z.lor (h_flag2 h) EVB2_FLAG_INTERNAL) h);;
  ret p.

(** A client from the start of the process: nested callbacks go no deeper
    than two, the loop's own callback and a client's. *)
Definition start : world := World None ∅ 1 ∅ 0 [] 0 0 0 0 [] [].
Definition client (t : Z -> prog) : M unit :=
  do p <- aloe_evb2_create 2; run_prog (invoke 2) (t p).
End Loop.
