(* ===== verification/Evb2Inv.v ===== *)
(** Evb2Inv: the invariant of the event loop.  [shape] says how the heap of
    handles and the four lists fit together, with the handles that are on no
    list named explicitly; it has one lemma per move of a handle between lists,
    and every operation of Evb2 is a sequence of moves. *)

From stdpp Require Import gmap sorting.
From S2P Require Import Prelude Eff Evb2.

Open Scope eff_scope.

(* ------------------------------------------------------------------ *)
(** ** Lists without an entry *)

Definition without (a : Z) (l : list Z) : list Z := filter (fun x => x <> a) l.

#[export] Instance set_unfold_without a x (l : list Z) Q :
  SetUnfoldElemOf x l Q -> SetUnfoldElemOf x (without a l) (x <> a /\ Q).
Proof. intros [H]. split. unfold without. by rewrite list_elem_of_filter, H. Qed.

Lemma elem_of_without a x l : x ∈ without a l <-> x <> a /\ x ∈ l.
Proof. apply (list_elem_of_filter (fun x => x <> a)). Qed.

Lemma without_id a l : a ∉ l -> without a l = l.
Proof.
  intros Hn. unfold without. induction l as [|x l IH]; [done | ].
  rewrite not_elem_of_cons in Hn. rewrite filter_cons_True by naive_solver. f_equal. naive_solver.
Qed.

Lemma without_hd a l : a ∉ l -> without a (a :: l) = l.
Proof.
  intros Hn. unfold without. rewrite filter_cons_False by naive_solver. by apply without_id.
Qed.

Lemma NoDup_without a l : NoDup l -> NoDup (without a l).
Proof. apply NoDup_filter. Qed.

Lemma NoDup_snoc (a : Z) l : NoDup l -> a ∉ l -> NoDup (l ++ [a]).
Proof. intros. apply NoDup_app. split_and!; [done | set_solver | apply NoDup_singleton]. Qed.

Lemma without_length a l : NoDup l -> a ∈ l -> length l = S (length (without a l)).
Proof.
  induction l as [|x l IH]; [by intros _ ?%elem_of_nil | ].
  intros [Hx Hl]%NoDup_cons Ha. destruct (decide (x = a)) as [-> | Hxa].
  - by rewrite without_hd.
  - unfold without. rewrite filter_cons_True by done. cbn. f_equal. apply IH; [done | set_solver].
Qed.

(** Deadlines on the timer list never decrease. *)
Definition at_of (hp : gmap Z handle) (a : Z) : Z := from_option h_timeout_at 0 (hp !! a).
Definition in_order (hp : gmap Z handle) : list Z -> Prop :=
  StronglySorted (fun a b => at_of hp a <= at_of hp b).

Lemma Forall_without (P : Z -> Prop) a l : Forall P l -> Forall P (without a l).
Proof. rewrite !Forall_forall. set_solver. Qed.

Lemma in_order_without hp a l : in_order hp l -> in_order hp (without a l).
Proof.
  unfold in_order, without. induction 1 as [|x l Hl IH Hx]; [constructor | ].
  destruct (decide (x = a)) as [-> | Hn].
  - by rewrite filter_cons_False by naive_solver.
  - rewrite filter_cons_True by done. constructor; [done | by apply Forall_without].
Qed.

Lemma in_order_ext hp hp' l :
  (forall a, a ∈ l -> at_of hp' a = at_of hp a) -> in_order hp l -> in_order hp' l.
Proof.
  intros Hx. unfold in_order. induction 1 as [|x l Hl IH Hf]; [constructor | ].
  constructor; [apply IH; set_solver | ]. rewrite Forall_forall in Hf |- *.
  intros b Hb. rewrite !Hx by set_solver. by apply Hf.
Qed.

(* ------------------------------------------------------------------ *)
(** ** The list primitives *)

Definition alive (hp : gmap Z handle) (l : list Z) : Prop := forall a, a ∈ l -> is_Some (hp !! a).

Lemma alive_cons hp x l : alive hp (x :: l) -> is_Some (hp !! x) /\ alive hp l.
Proof. unfold alive. set_solver. Qed.

Lemma q_remove_ok hp e l :
  alive hp l -> NoDup l -> q_remove hp e l = Some (bool_decide (e ∈ l), without e l).
Proof.
  induction l as [|x l IH]; [done | ]. intros [[h Hh] Hl]%alive_cons [Hx Hn]%NoDup_cons.
  cbn [q_remove]. rewrite Hh. cbn [mbind option_bind]. destruct (Z.eqb_spec x e) as [-> | Hxe].
  - rewrite bool_decide_true by set_solver. by rewrite without_hd.
  - rewrite IH by done. cbn [mbind option_bind]. unfold without. rewrite filter_cons_True by done.
    do 2 f_equal. apply bool_decide_ext. set_solver.
Qed.

Lemma q_contains_ok hp e l : alive hp l -> q_contains hp e l = Some (bool_decide (e ∈ l)).
Proof.
  induction l as [|x l IH]; [done | ]. intros [[h Hh] Hl]%alive_cons. cbn [q_contains].
  destruct (Z.eqb_spec x e) as [-> | Hxe]; [by rewrite bool_decide_true by set_solver | ].
  rewrite Hh. cbn [mbind option_bind]. rewrite IH by done. f_equal. apply bool_decide_ext. set_solver.
Qed.

(** The handles of a list. *)
Definition hs_of (hp : gmap Z handle) (l : list Z) : list handle := omap (fun a => hp !! a) l.

Lemma q_all_ok hp l : alive hp l -> q_all hp l = Some (hs_of hp l).
Proof.
  induction l as [|x l IH]; [done | ]. intros [[h Hh] Hl]%alive_cons. cbn [q_all].
  rewrite Hh. cbn [mbind option_bind]. rewrite IH by done. unfold hs_of. cbn [omap list_omap]. by rewrite Hh.
Qed.

(** Where [timer_insert] puts an entry: behind the last deadline not later. *)
Lemma t_insert_ok hp e at_ l :
  alive hp l -> in_order hp l ->
  exists l1 l2, t_insert hp e at_ l = Some (l1 ++ e :: l2) /\ l = l1 ++ l2 /\
    (forall a, a ∈ l1 -> at_of hp a <= at_) /\ (forall a, a ∈ l2 -> at_ < at_of hp a).
Proof.
  induction l as [|x l IH]; intros Ha Ho.
  { exists [], []. split_and!; [done | done | set_solver.. ]. }
  apply alive_cons in Ha as [[h Hh] Hl]. inversion Ho as [|? ? Ho' Hf]; subst.
  assert (Hat : at_of hp x = h_timeout_at h) by (unfold at_of; by rewrite Hh).
  cbn [t_insert]. rewrite Hh. cbn [mbind option_bind]. destruct (Z.ltb_spec at_ (h_timeout_at h)).
  - exists [], (x :: l). split_and!; [done | done | set_solver | ]. intros a Ha.
    rewrite Forall_forall in Hf. apply elem_of_cons in Ha as [-> | Ha]; [lia | ].
    specialize (Hf a Ha). lia.
  - destruct (IH Hl Ho') as (l1 & l2 & -> & -> & H1 & H2). exists (x :: l1), l2.
    split_and!; [done | done | | done]. intros a [-> | Ha]%elem_of_cons; [lia | by apply H1].
Qed.

Lemma in_order_insert hp l1 l2 e :
  in_order hp (l1 ++ l2) -> (forall a, a ∈ l1 -> at_of hp a <= at_of hp e) ->
  (forall a, a ∈ l2 -> at_of hp e <= at_of hp a) -> in_order hp (l1 ++ e :: l2).
Proof.
  unfold in_order. induction l1 as [|x l1 IH]; cbn [app]; intros Ho H1 H2.
  - constructor; [done | ]. rewrite Forall_forall. auto.
  - inversion Ho as [|? ? Ho' Hf]; subst. constructor; [apply IH; set_solver | ].
    rewrite Forall_forall in Hf |- *. intros b Hb. apply elem_of_app in Hb as [Hb | Hb].
    + apply Hf. set_solver.
    + apply elem_of_cons in Hb as [-> | Hb]; [apply H1; set_solver | apply Hf; set_solver].
Qed.

(* ------------------------------------------------------------------ *)
(** ** Shape *)

(** Every allocated handle is on a list or in [X]; [X] is on none.  The three
    lists that share a link are disjoint; a handle on the timer list may be
    monitored at the same time and nothing else. *)
Record shape (c : evb2) (hp : gmap Z handle) (X : list Z) : Prop := Shape {
  sh_dom : forall a, is_Some (hp !! a) <->
    a ∈ fdmon_list c \/ a ∈ ready_list c \/ a ∈ async_list c \/ a ∈ timer_list c \/ a ∈ X;
  sh_nf : NoDup (fdmon_list c); sh_nr : NoDup (ready_list c); sh_na : NoDup (async_list c);
  sh_nt : NoDup (timer_list c); sh_nx : NoDup X;
  sh_fr : forall a, a ∈ fdmon_list c -> a ∉ ready_list c;
  sh_fa : forall a, a ∈ fdmon_list c -> a ∉ async_list c;
  sh_ra : forall a, a ∈ ready_list c -> a ∉ async_list c;
  sh_tr : forall a, a ∈ timer_list c -> a ∉ ready_list c;
  sh_ta : forall a, a ∈ timer_list c -> a ∉ async_list c;
  sh_x : forall a, a ∈ X -> a ∉ fdmon_list c /\ a ∉ ready_list c /\ a ∉ async_list c /\ a ∉ timer_list c;
  sh_order : in_order hp (timer_list c) }.

Lemma shape_alive c hp X l : shape c hp X -> alive hp (get_list l c).
Proof. intros H a Ha. apply (sh_dom _ _ _ H). destruct l; cbn in Ha; tauto. Qed.

Lemma shape_nodup c hp X l : shape c hp X -> NoDup (get_list l c).
Proof. intros []. by destruct l. Qed.

Lemma shape_alive_X c hp X a : shape c hp X -> a ∈ X -> is_Some (hp !! a).
Proof. intros H Ha. apply (sh_dom _ _ _ H). tauto. Qed.

Create HintDb evb2.
#[export] Hint Resolve shape_alive shape_nodup shape_alive_X : evb2.

(** The lists of [c'] as those of [c] changed by [f]. *)
Definition lists_of (c : evb2) : list Z * list Z * list Z * list Z :=
  (fdmon_list c, timer_list c, ready_list c, async_list c).

(** Only the four lists matter. *)
Lemma shape_lists c c' hp X : lists_of c' = lists_of c -> shape c hp X -> shape c' hp X.
Proof. unfold lists_of. intros [= E1 E2 E3 E4] []. split; by rewrite ?E1, ?E2, ?E3, ?E4. Qed.

Definition unlink (a : Z) (c : evb2) : evb2 :=
  set_list Async (without a (async_list c)) (set_list Ready (without a (ready_list c))
    (set_list Timer (without a (timer_list c)) (set_list Fdmon (without a (fdmon_list c)) c))).

Lemma lists_of_unlink a c :
  lists_of (unlink a c) =
  (without a (fdmon_list c), without a (timer_list c), without a (ready_list c), without a (async_list c)).
Proof. by destruct c. Qed.

Ltac lists c := destruct c as [? ? ? cf ct cr ca ? ? ? ? ?]; unfold unlink in *;
  cbn [lists_of set_list get_list fdmon_list timer_list ready_list async_list] in *.

(** Membership in changed lists, one element at a time. *)
Ltac mem :=
  repeat intro;
  repeat match goal with
  | H : context [_ ∈ _ ++ _] |- _ => rewrite elem_of_app in H
  | H : context [_ ∈ _ :: _] |- _ => rewrite elem_of_cons in H
  | H : context [_ ∈ []] |- _ => rewrite elem_of_nil in H
  | H : context [_ ∈ without _ _] |- _ => rewrite elem_of_without in H
  end;
  rewrite ?elem_of_app, ?elem_of_cons, ?elem_of_nil, ?elem_of_without;
  destruct_and?; destruct_or?; destruct_and?; subst;
  try tauto;
  try match goal with
  | H : forall b, b ∈ ?A -> b ∉ ?B, H1 : ?a ∈ ?A, H2 : ?a ∈ ?B |- _ => destruct (H a H1 H2)
  end.

(** Off its lists, a handle floats. *)
Lemma shape_unlink a c hp X :
  shape c hp X -> is_Some (hp !! a) -> a ∉ X -> shape (unlink a c) hp (a :: X).
Proof.
  lists c. intros [] Ha Hx. cbn in *.
  split; cbn; auto using NoDup_without, in_order_without; try solve [mem].
  - intros b. rewrite sh_dom0, !elem_of_without, elem_of_cons. rewrite sh_dom0 in Ha.
    destruct (decide (b = a)) as [-> | Hn]; tauto.
  - by apply NoDup_cons.
  - intros b Hb. rewrite !elem_of_without. apply elem_of_cons in Hb as [-> | Hb]; [tauto | ].
    destruct (sh_x0 b Hb) as (?&?&?&?). tauto.
Qed.

Lemma shape_free a c hp X : shape c hp (a :: X) -> shape c (delete a hp) X.
Proof.
  lists c. intros []. cbn in *. apply NoDup_cons in sh_nx0 as [Hx HX].
  destruct (sh_x0 a) as (?&?&?&?); [by left | ].
  split; cbn; auto.
  - intros b. destruct (decide (b = a)) as [-> | Hn].
    + rewrite lookup_delete_eq. split; [by intros [] | tauto].
    + rewrite lookup_delete_ne by done. rewrite sh_dom0, elem_of_cons. tauto.
  - intros b Hb. apply sh_x0. by right.
  - eapply in_order_ext; [ | done]. intros b Hb. unfold at_of. rewrite lookup_delete_ne; [done | ].
    by intros ->.
Qed.

Definition linked (l : lst) (a : Z) (c : evb2) : evb2 := set_list l (get_list l c ++ [a]) c.

Lemma shape_link l a c hp X :
  shape c hp (a :: X) -> l <> Timer -> shape (linked l a c) hp X.
Proof.
  unfold linked. lists c. intros [] Hl. cbn in *. apply NoDup_cons in sh_nx0 as [Hx HX].
  destruct (sh_x0 a) as (?&?&?&?); [by left | ].
  assert (Hd : forall b, b ∈ X -> b <> a) by (intros b Hb ->; done).
  assert (HX' : forall b, b ∈ X -> b ∉ cf /\ b ∉ cr /\ b ∉ ca /\ b ∉ ct)
    by (intros b Hb; apply sh_x0; by right).
  destruct l; [ | done | | ]; split; cbn; auto using NoDup_snoc; try solve [mem].
  all: try solve [intros b; rewrite sh_dom0, elem_of_app, elem_of_cons, list_elem_of_singleton; tauto].
  all: intros b Hb; rewrite elem_of_app, list_elem_of_singleton;
    destruct (HX' b Hb) as (?&?&?&?); pose proof (Hd b Hb); tauto.
Qed.

Lemma elem_of_mid (b a : Z) l1 l2 : b ∈ l1 ++ a :: l2 <-> b = a \/ b ∈ l1 ++ l2.
Proof. rewrite !elem_of_app, elem_of_cons. tauto. Qed.

Lemma NoDup_mid (a : Z) l1 l2 : NoDup (l1 ++ l2) -> a ∉ l1 ++ l2 -> NoDup (l1 ++ a :: l2).
Proof.
  intros. rewrite <- Permutation_middle. by apply NoDup_cons.
Qed.

(** Armed: a monitored handle, or a floating one, gets onto the timer list. *)
Lemma shape_arm a c hp X l1 l2 :
  shape c hp X -> a ∈ fdmon_list c -> a ∉ timer_list c -> timer_list c = l1 ++ l2 ->
  (forall b, b ∈ l1 -> at_of hp b <= at_of hp a) -> (forall b, b ∈ l2 -> at_of hp a <= at_of hp b) ->
  shape (set_list Timer (l1 ++ a :: l2) c) hp X.
Proof.
  lists c. intros [] Hf Ht -> H1 H2. cbn in *.
  split; cbn; auto using NoDup_mid, in_order_insert.
  - intros b. rewrite sh_dom0, elem_of_mid. split; [tauto | ].
    intros [? | [? | [? | [[-> | ?] | ?]]]]; tauto.
  - intros b [-> | Hb]%elem_of_mid; auto.
  - intros b [-> | Hb]%elem_of_mid; auto.
  - intros b Hb. destruct (sh_x0 b Hb) as (?&?&?&?). rewrite elem_of_mid.
    split_and!; auto. intros [-> | ?]; tauto.
Qed.

Lemma shape_arm_X a c hp X l1 l2 :
  shape c hp (a :: X) -> timer_list c = l1 ++ l2 ->
  (forall b, b ∈ l1 -> at_of hp b <= at_of hp a) -> (forall b, b ∈ l2 -> at_of hp a <= at_of hp b) ->
  shape (set_list Timer (l1 ++ a :: l2) c) hp X.
Proof.
  lists c. intros [] -> H1 H2. cbn in *. apply NoDup_cons in sh_nx0 as [Hx HX].
  destruct (sh_x0 a) as (?&?&?&?); [by left | ].
  split; cbn; auto using NoDup_mid, in_order_insert.
  - intros b. rewrite sh_dom0, elem_of_mid, elem_of_cons. tauto.
  - intros b [-> | Hb]%elem_of_mid; auto.
  - intros b [-> | Hb]%elem_of_mid; auto.
  - intros b Hb. destruct (sh_x0 b) as (?&?&?&?); [by right | ]. rewrite elem_of_mid.
    split_and!; auto. intros [-> | ?]; tauto.
Qed.

Lemma shape_new a h c hp X : shape c hp X -> hp !! a = None -> shape c (<[a := h]> hp) (a :: X).
Proof.
  lists c. intros [] Ha. cbn in *.
  assert (Hno : ~ is_Some (hp !! a)) by (rewrite Ha; by intros []). rewrite sh_dom0 in Hno.
  split; cbn; auto.
  - intros b. rewrite elem_of_cons. destruct (decide (b = a)) as [-> | Hn].
    + rewrite lookup_insert_eq. split; [tauto | eauto].
    + rewrite lookup_insert_ne by done. rewrite sh_dom0. tauto.
  - apply NoDup_cons. tauto.
  - intros b [-> | Hb]%elem_of_cons; [tauto | auto].
  - eapply in_order_ext; [ | done]. intros b Hb. unfold at_of.
    rewrite lookup_insert_ne; [done | by intros ->; tauto].
Qed.

(** Fields change; the deadline only off the timer list. *)
Lemma shape_upd a h h' c hp X :
  shape c hp X -> hp !! a = Some h -> h_timeout_at h' = h_timeout_at h \/ a ∉ timer_list c ->
  shape c (<[a := h']> hp) X.
Proof.
  lists c. intros [] Ha Hat. cbn in *. split; cbn; auto.
  - intros b. rewrite <- sh_dom0. destruct (decide (b = a)) as [-> | Hn].
    + rewrite lookup_insert_eq, Ha. split; eauto.
    + by rewrite lookup_insert_ne by done.
  - eapply in_order_ext; [ | done]. intros b Hb. unfold at_of. destruct (decide (b = a)) as [-> | Hn].
    + rewrite lookup_insert_eq, Ha. cbn. destruct Hat; [done | tauto].
    + by rewrite lookup_insert_ne by done.
Qed.

(* ------------------------------------------------------------------ *)
(** ** Rules for the primitives *)

Lemma wp_deref p c w (Q : evb2 -> world -> Prop) :
  ctx w = Some (p, c) -> Q c w -> wp (deref p) w Q.
Proof. intros Hc HQ. unfold deref. apply ewp_bind. unfold get. Transparent wp. unfold wp. rewrite Hc, Z.eqb_refl. done. Qed.

Lemma wp_ctx_upd p c f w (Q : unit -> world -> Prop) :
  ctx w = Some (p, c) -> Q tt (set_ctx (Some (p, f c)) w) -> wp (ctx_upd p f) w Q.
Proof. intros Hc HQ. unfold ctx_upd. apply ewp_bind. eapply wp_deref; [done | ]. by apply ewp_modify. Qed.

Lemma wp_hget a h w (Q : handle -> world -> Prop) :
  heap w !! a = Some h -> Q h w -> wp (hget a) w Q.
Proof. intros Hh HQ. unfold hget. apply ewp_bind. unfold wp, get. by rewrite Hh. Qed.

Lemma wp_hupd a h f w (Q : unit -> world -> Prop) :
  heap w !! a = Some h -> Q tt (set_heap (<[a := f h]> (heap w)) w) -> wp (hupd a f) w Q.
Proof. intros Hh HQ. unfold hupd. apply ewp_bind. eapply wp_hget; [done | ]. by apply ewp_modify. Qed.

Lemma wp_free a w (Q : unit -> world -> Prop) :
  is_Some (heap w !! a) -> Q tt (set_heap (delete a (heap w)) w) -> wp (free a) w Q.
Proof. intros [h Hh] HQ. unfold free. apply ewp_bind. eapply wp_hget; [done | ]. by apply ewp_modify. Qed.

Lemma wp_lock p c w (Q : unit -> world -> Prop) :
  ctx w = Some (p, c) -> locked c = false -> Q tt (set_ctx (Some (p, set_locked true c)) w) ->
  wp (lock p) w Q.
Proof.
  intros Hc Hl HQ. unfold lock. apply ewp_bind. eapply wp_deref; [done | ]. rewrite Hl. by eapply wp_ctx_upd.
Qed.

Lemma wp_now E w (Q : Z -> world -> Prop) :
  Q (clock E (n_clock w)) (tick_clock w) -> wp (evb2_now_ms E) w Q.
Proof. done. Qed.

Lemma wp_sys E w (Q : Z -> world -> Prop) :
  Q (refuse E (n_sys w)) (tick_sys w) -> wp (sys E) w Q.
Proof. done. Qed.

Lemma wp_qent_remove p l e c w (Q : bool -> world -> Prop) :
  ctx w = Some (p, c) -> alive (heap w) (get_list l c) -> NoDup (get_list l c) ->
  Q (bool_decide (e ∈ get_list l c))
    (set_ctx (Some (p, set_list l (without e (get_list l c)) c)) w) ->
  wp (qent_remove p l e) w Q.
Proof.
  intros Hc Ha Hn HQ. unfold qent_remove. apply ewp_bind. eapply wp_deref; [done | ].
  apply ewp_bind, wp_gets, ewp_bind. eapply wp_need; [by apply q_remove_ok | ].
  apply ewp_bind. by eapply wp_ctx_upd.
Qed.

Lemma wp_qent_contains p l e c w (Q : bool -> world -> Prop) :
  ctx w = Some (p, c) -> alive (heap w) (get_list l c) ->
  Q (bool_decide (e ∈ get_list l c)) w -> wp (qent_contains p l e) w Q.
Proof.
  intros Hc Ha HQ. unfold qent_contains. apply ewp_bind. eapply wp_deref; [done | ].
  apply ewp_bind, wp_gets. eapply wp_need; [by apply q_contains_ok | done].
Qed.

Lemma wp_qent_insert p l e c X w (Q : unit -> world -> Prop) :
  ctx w = Some (p, c) -> shape c (heap w) (e :: X) -> l <> Timer ->
  Q tt (set_ctx (Some (p, linked l e c)) w) -> wp (qent_insert_tail p l e) w Q.
Proof.
  intros Hc Hs Hl HQ. unfold qent_insert_tail. apply ewp_bind. eapply wp_deref; [done | ].
  apply ewp_bind, wp_gets. destruct (sh_x _ _ _ Hs e) as (?&?&?&?); [by left | ].
  destruct (shape_alive_X _ _ _ e Hs) as [h Hh]; [by left | ].
  apply ewp_bind. eapply wp_hget; [done | ]. apply ewp_bind.
  eapply wp_need; [by apply q_all_ok, (shape_alive _ _ _ _ Hs) | ].
  rewrite bool_decide_false; [by eapply wp_ctx_upd | ].
  destruct l; cbn [same_link]; rewrite ?elem_of_app; tauto.
Qed.

Lemma wp_qent_pop p l c w (Q : option Z -> world -> Prop) :
  ctx w = Some (p, c) -> alive (heap w) (get_list l c) ->
  match get_list l c with
  | [] => Q None w
  | e :: r => Q (Some e) (set_ctx (Some (p, set_list l r c)) w)
  end -> wp (qent_pop p l) w Q.
Proof.
  intros Hc Ha HQ. unfold qent_pop. apply ewp_bind. eapply wp_deref; [done | ].
  destruct (get_list l c) as [|e r]; [by apply ewp_ret | ].
  apply alive_cons in Ha as [[h Hh] _]. apply ewp_bind. eapply wp_hget; [done | ].
  apply ewp_bind. by eapply wp_ctx_upd.
Qed.

Lemma wp_timer_insert p a c h w (Q : unit -> world -> Prop) :
  ctx w = Some (p, c) -> heap w !! a = Some h -> alive (heap w) (timer_list c) ->
  in_order (heap w) (timer_list c) -> a ∉ timer_list c ->
  (forall l1 l2, timer_list c = l1 ++ l2 ->
    (forall b, b ∈ l1 -> at_of (heap w) b <= at_of (heap w) a) ->
    (forall b, b ∈ l2 -> at_of (heap w) a <= at_of (heap w) b) ->
    Q tt (set_ctx (Some (p, set_list Timer (l1 ++ a :: l2) c)) w)) ->
  wp (timer_insert p a) w Q.
Proof.
  intros Hc Hh Ha Ho Hn HQ. unfold timer_insert. apply ewp_bind. eapply wp_deref; [done | ].
  apply ewp_bind, wp_gets, ewp_bind. eapply wp_hget; [done | ].
  assert (Hat : at_of (heap w) a = h_timeout_at h) by (unfold at_of; by rewrite Hh).
  destruct (t_insert_ok (heap w) a (h_timeout_at h) (timer_list c)) as (l1 & l2 & Et & El & H1 & H2); [done.. | ].
  apply ewp_bind. eapply wp_need; [done | ]. rewrite bool_decide_false by done.
  eapply wp_ctx_upd; [done | ]. apply HQ; [done | ..]; intros b Hb; rewrite Hat; [auto | ].
  specialize (H2 b Hb). lia.
Qed.

#[global] Opaque wp.

(** Kernel and clock may move; the program's memory stays. *)
Record same_mem (w w' : world) : Prop := SameMem {
  sm_ctx : ctx w' = ctx w; sm_heap : heap w' = heap w; sm_brk : brk w' = brk w;
  sm_kfds : kfds w' = kfds w; sm_log : log w' = log w; sm_cb : n_cb w' = n_cb w;
  sm_wait : n_wait w' = n_wait w; sm_canc : cancels w' = cancels w }.

(* ------------------------------------------------------------------ *)
(** ** The kernel's interest set *)

Definition wanted (hp : gmap Z handle) (l : list Z) (fd : Z) : option Z :=
  to_epoll <$> requested fd (hs_of hp l).

(** [requested] looks at the handles of the descriptor alone. *)
Lemma requested_filter fd hs :
  requested fd hs = requested fd (filter (fun h => h_fd h = fd) hs).
Proof.
  unfold requested. generalize (@None Z). induction hs as [|h hs IH]; intros r; [done | ].
  cbn [foldl]. destruct (decide (h_fd h = fd)) as [E | E].
  - rewrite filter_cons_True by done. cbn [foldl]. apply IH.
  - rewrite filter_cons_False by done. rewrite (proj2 (Z.eqb_neq _ _)) by done. apply IH.
Qed.

Lemma hs_of_app hp l1 l2 : hs_of hp (l1 ++ l2) = hs_of hp l1 ++ hs_of hp l2.
Proof. apply omap_app. Qed.

Lemma hs_of_ext hp hp' l : (forall a, a ∈ l -> hp' !! a = hp !! a) -> hs_of hp' l = hs_of hp l.
Proof.
  unfold hs_of. induction l as [|x l IH]; [done | ]. intros H. cbn. rewrite H by (by left).
  rewrite IH; [done | ]. intros a Ha. apply H. by right.
Qed.

Lemma wanted_ext hp hp' l fd : (forall a, a ∈ l -> hp' !! a = hp !! a) -> wanted hp' l fd = wanted hp l fd.
Proof. intros H. unfold wanted. by rewrite (hs_of_ext hp hp'). Qed.

Lemma wanted_without hp a h l fd :
  hp !! a = Some h -> h_fd h <> fd -> wanted hp (without a l) fd = wanted hp l fd.
Proof.
  intros Ha Hn. unfold wanted. rewrite requested_filter, (requested_filter _ (hs_of hp l)). do 2 f_equal.
  unfold hs_of, without. induction l as [|x l IH]; [done | ]. destruct (decide (x = a)) as [-> | E].
  - rewrite filter_cons_False by naive_solver. cbn. rewrite Ha. rewrite filter_cons_False by done. done.
  - rewrite filter_cons_True by done. cbn. destruct (hp !! x) as [hx|]; [ | done].
    rewrite !filter_cons, IH. done.
Qed.

Lemma wanted_snoc hp a h l fd :
  hp !! a = Some h -> h_fd h <> fd -> wanted hp (l ++ [a]) fd = wanted hp l fd.
Proof.
  intros Ha Hn. unfold wanted. rewrite requested_filter, (requested_filter _ (hs_of hp l)). do 2 f_equal.
  rewrite hs_of_app, filter_app. assert (hs_of hp [a] = [h]) as -> by (unfold hs_of; cbn; by rewrite Ha).
  rewrite filter_cons_False by done. apply app_nil_r.
Qed.

Lemma wanted_upd hp a h h' l fd :
  hp !! a = Some h -> h_fd h' = h_fd h -> h_flag h' = h_flag h ->
  wanted (<[a := h']> hp) l fd = wanted hp l fd.
Proof.
  intros Ha Hf Hg. unfold wanted. f_equal. unfold requested, hs_of. generalize (@None Z).
  induction l as [|x l IH]; [done | ]. intros r. cbn. destruct (decide (x = a)) as [-> | E].
  - rewrite lookup_insert_eq, Ha. cbn. rewrite Hf, Hg. apply IH.
  - rewrite lookup_insert_ne by done. destruct (hp !! x); apply IH.
Qed.

Definition calm (E : env) : Prop := forall n, refuse E n = 0.

(** Each [epoll_ctl] answers 0 and does its work, or leaves the set alone; one
    the kernel does not refuse depends on whether it knows the descriptor. *)
Lemma wp_epoll_add E fd ev w (Q : Z -> world -> Prop) :
  (forall r w', same_mem w w' -> interest w' = (if r =? 0 then <[fd := ev]> (interest w) else interest w) ->
    (calm E -> r = if decide (is_Some (interest w !! fd)) then EEXIST else 0) -> Q r w') ->
  wp (epoll_add E fd ev) w Q.
Proof.
  intros HQ. unfold epoll_add. apply ewp_bind, wp_sys.
  destruct (Z.eqb_spec (refuse E (n_sys w)) 0) as [E0 | E0]; cbn [negb].
  - apply ewp_bind, wp_gets. cbn [interest tick_sys]. destruct (interest w !! fd) as [v|] eqn:Ei.
    + apply ewp_ret, HQ; [done | done | ]. intros _. by rewrite decide_True by eauto.
    + apply ewp_bind, ewp_modify, ewp_ret, HQ; [done | done | ]. intros _. rewrite decide_False; [done | by intros []].
  - apply ewp_ret, HQ; [done | by rewrite (proj2 (Z.eqb_neq _ _) E0) | ]. intros Hc. by destruct E0.
Qed.

Lemma wp_epoll_mod E fd ev w (Q : Z -> world -> Prop) :
  (forall r w', same_mem w w' -> interest w' = (if r =? 0 then <[fd := ev]> (interest w) else interest w) ->
    (calm E -> is_Some (interest w !! fd) -> r = 0) -> Q r w') ->
  wp (epoll_mod E fd ev) w Q.
Proof.
  intros HQ. unfold epoll_mod. apply ewp_bind, wp_sys.
  destruct (Z.eqb_spec (refuse E (n_sys w)) 0) as [E0 | E0]; cbn [negb].
  - apply ewp_bind, wp_gets. cbn [interest tick_sys]. destruct (interest w !! fd) as [v|] eqn:Ei.
    + by apply ewp_bind, ewp_modify, ewp_ret, HQ.
    + apply ewp_ret, HQ; [done | done | ]. by intros _ [].
  - apply ewp_ret, HQ; [done | by rewrite (proj2 (Z.eqb_neq _ _) E0) | ]. intros Hc. by destruct E0.
Qed.

Lemma wp_epoll_del E fd w (Q : Z -> world -> Prop) :
  (forall r w', same_mem w w' -> interest w' = (if r =? 0 then delete fd (interest w) else interest w) ->
    (calm E -> r = if decide (is_Some (interest w !! fd)) then 0 else ENOENT) -> Q r w') ->
  wp (epoll_del E fd) w Q.
Proof.
  intros HQ. unfold epoll_del. apply ewp_bind, wp_sys.
  destruct (Z.eqb_spec (refuse E (n_sys w)) 0) as [E0 | E0]; cbn [negb].
  - apply ewp_bind, wp_gets. cbn [interest tick_sys]. destruct (interest w !! fd) as [v|] eqn:Ei.
    + apply ewp_bind, ewp_modify, ewp_ret, HQ; [done | done | ]. intros _. by rewrite decide_True by eauto.
    + apply ewp_ret, HQ; [done | done | ]. intros _. rewrite decide_False; [done | by intros []].
  - apply ewp_ret, HQ; [done | by rewrite (proj2 (Z.eqb_neq _ _) E0) | ]. intros Hc. by destruct E0.
Qed.

Lemma same_mem_trans w1 w2 w3 : same_mem w1 w2 -> same_mem w2 w3 -> same_mem w1 w3.
Proof. intros [] []. split; congruence. Qed.

(** After [epoll_refresh] the kernel watches what the monitored handles of the
    descriptor ask for, if it refuses nothing. *)
Lemma wp_epoll_refresh E p fd c w (Q : Z -> world -> Prop) :
  ctx w = Some (p, c) -> p <> 0 -> alive (heap w) (fdmon_list c) -> 0 <= epfd c ->
  (forall r w', same_mem w w' -> (calm E -> r = 0 /\ forall f, 0 <= f -> interest w' !! f =
       if decide (f = fd) then wanted (heap w) (fdmon_list c) fd else interest w !! f) -> Q r w') ->
  wp (epoll_refresh E p fd) w Q.
Proof.
  intros Hc Hp Ha He HQ. unfold epoll_refresh. rewrite (proj2 (Z.eqb_neq _ _) Hp).
  apply ewp_bind. eapply wp_deref; [done | ]. rewrite (proj2 (Z.ltb_ge _ _) He).
  destruct (Z.leb_spec fd FD_TIMER) as [Hf | Hf].
  { apply ewp_ret, HQ; [done | ]. intros _. split; [done | ]. intros f Hf0. unfold FD_TIMER in Hf.
    by rewrite decide_False by lia. }
  apply ewp_bind, wp_gets, ewp_bind. eapply wp_need; [by apply q_all_ok | ]. unfold wanted in HQ.
  assert (Hup : forall ev (i : gmap Z Z) f, <[fd := ev]> i !! f = if decide (f = fd) then Some ev else i !! f).
  { intros ev i f. case_decide; [subst; apply lookup_insert_eq | by apply lookup_insert_ne]. }
  destruct (requested fd (hs_of (heap w) (fdmon_list c))) as [ev|].
  - apply ewp_bind, wp_epoll_add. intros r w1 S1 I1 C1. destruct (Z.eqb_spec r 0) as [-> | Hr].
    { apply ewp_ret, HQ; [done | ]. intros _. split; [done | ]. intros f _. rewrite I1. apply Hup. }
    destruct (Z.eqb_spec r EEXIST) as [-> | Hr'].
    + apply ewp_bind, wp_epoll_mod. intros r2 w2 S2 I2 C2.
      apply ewp_ret, HQ; [by eapply same_mem_trans | ]. intros Hcalm. specialize (C1 Hcalm).
      case_decide as Hi; [ | done]. rewrite I1 in C2, I2. rewrite (C2 Hcalm Hi) in I2 |- *.
      split; [done | ]. intros f _. rewrite I2. apply Hup.
    + apply ewp_ret, HQ; [done | ]. intros Hcalm. specialize (C1 Hcalm). by case_decide.
  - apply ewp_bind, wp_epoll_del. intros r w1 S1 I1 C1. apply ewp_ret, HQ; [done | ].
    intros Hcalm. specialize (C1 Hcalm). split; [by case_decide; subst r | ]. intros f _. rewrite I1.
    case_decide as Hi; subst r; cbn [Z.eqb ENOENT].
    + case_decide; [subst; apply lookup_delete_eq | by apply lookup_delete_ne].
    + case_decide; [subst | done]. destruct (interest w !! fd); [by destruct Hi | done].
Qed.
