(* ===== verification/Evb2Ops.v ===== *)
(** Evb2Ops: the operations of the event loop that make no callback, against
    the invariant: registration, cancelling, new timeouts, and the calls a
    callback may make of the loop that is running it. *)

From stdpp Require Import gmap sorting.
From S2P Require Import Prelude Eff Evb2 Evb2Inv.

Open Scope eff_scope.

(* ------------------------------------------------------------------ *)
(** ** Timeouts *)

(** Timeouts and clock values far below the width of [uint64_t] (2^62
    milliseconds are 146 million years): deadlines do not saturate. *)
Definition sane_ms (ms : Z) : Prop := ms = INFINITE \/ 0 <= ms <= 2 ^ 62.
Definition sane_env (E : env) : Prop :=
  (forall n, 0 <= clock E n <= 2 ^ 62) /\
  (let '(ep, p0, p1) := descr E in 0 <= ep /\ 0 <= p0 /\ 0 <= p1 /\ ep <> p0 /\ ep <> p1 /\ p0 <> p1).

(** The deadline [evb2_set_timeout] computes. *)
Definition deadline (ms now : Z) : Z :=
  if (ms =? INFINITE) || (UINT64_MAX - now <? ms) then UINT64_MAX else now + ms.

Lemma deadline_max ms now : sane_ms ms -> 0 <= now <= 2 ^ 62 -> deadline ms now = UINT64_MAX <-> ms = INFINITE.
Proof.
  intros Hms Hn. unfold deadline, sane_ms in *. change (2 ^ 62) with 4611686018427387904 in *.
  change UINT64_MAX with 18446744073709551615. change INFINITE with 18446744073709551615 in *.
  destruct (Z.eqb_spec ms 18446744073709551615); [tauto | ]. cbn [orb].
  destruct (Z.ltb_spec (18446744073709551615 - now) ms); split; lia.
Qed.

(** A registered handle: its context, a callback, a descriptor or a timer, a
    timer's timeout finite, and a deadline just when there is a timeout. *)
Record hok (p : Z) (h : handle) : Prop := Hok {
  ok_evb : h_evb h = p; ok_cb : h_cb h <> NoCb; ok_ud : h_cb h = AsyncHandler -> h_ud h = p;
  ok_fd : -1 <= h_fd h; ok_ms : sane_ms (h_timeout_ms h);
  ok_timer : h_fd h = -1 -> h_timeout_ms h <> INFINITE;
  ok_at : h_timeout_at h = UINT64_MAX <-> h_timeout_ms h = INFINITE }.

(** Which handles are on which list. *)
Record kinds (p : Z) (c : evb2) (hp : gmap Z handle) : Prop := Kinds {
  k_hok : forall a h, hp !! a = Some h -> hok p h;
  k_f : forall a h, a ∈ fdmon_list c -> hp !! a = Some h -> 0 <= h_fd h;
  k_a : forall a h, a ∈ async_list c -> hp !! a = Some h -> h_fd h = -1;
  k_t : forall a h, a ∈ timer_list c -> hp !! a = Some h -> h_fd h = -1 \/ a ∈ fdmon_list c;
  k_arm : forall a h, a ∈ fdmon_list c -> hp !! a = Some h ->
    h_timeout_at h <> UINT64_MAX -> a ∈ timer_list c }.

Lemma kinds_unlink a p c hp : kinds p c hp -> kinds p (unlink a c) hp.
Proof.
  lists c. intros []. split; cbn in *; auto.
  - intros b h [_ Hb]%elem_of_without. eauto.
  - intros b h [_ Hb]%elem_of_without. eauto.
  - intros b h [Hn Hb]%elem_of_without Hh. rewrite elem_of_without. destruct (k_t0 b h Hb Hh); tauto.
  - intros b h [Hn Hb]%elem_of_without Hh Hat. rewrite elem_of_without. eauto.
Qed.

Lemma kinds_free a p c hp : kinds p c hp -> kinds p c (delete a hp).
Proof.
  intros []. split; intros b h; rewrite ?lookup_delete_Some.
  - intros [? ?]; eauto.
  - intros ? [? ?]; eauto.
  - intros ? [? ?]; eauto.
  - intros ? [? ?]; eauto.
  - intros ? [? ?]; eauto.
Qed.

(** A change of a handle that keeps descriptor and armedness, or of one that is
    on none of the lists that matter. *)
Lemma kinds_upd a h h' p c hp :
  kinds p c hp -> hp !! a = Some h -> hok p h' -> h_fd h' = h_fd h ->
  (a ∈ fdmon_list c -> h_timeout_at h' <> UINT64_MAX -> a ∈ timer_list c) ->
  kinds p c (<[a := h']> hp).
Proof.
  intros [] Ha Hok Hfd Harm.
  assert (Hc : forall b hb, <[a := h']> hp !! b = Some hb ->
    hp !! b = Some hb \/ b = a /\ hb = h').
  { intros b hb [[-> ->] | [? ?]]%lookup_insert_Some; auto. }
  split; intros b hb.
  - intros [? | [-> ->]]%Hc; eauto.
  - intros ? [? | [-> ->]]%Hc; [eauto | ]. rewrite Hfd. eauto.
  - intros ? [? | [-> ->]]%Hc; [eauto | ]. rewrite Hfd. eauto.
  - intros ? [? | [-> ->]]%Hc; [eauto | ]. rewrite Hfd. eauto.
  - intros ? [? | [-> ->]]%Hc; [eauto | ]. eauto.
Qed.

Lemma kinds_new a h p c hp X :
  kinds p c hp -> shape c hp X -> hp !! a = None -> hok p h -> kinds p c (<[a := h]> hp).
Proof.
  intros [] Hs Ha Hok.
  assert (Hno : forall l, a ∉ get_list l c).
  { intros l Hl. destruct (shape_alive _ _ _ l Hs a Hl) as [? ?]. congruence. }
  assert (Hc : forall b hb, <[a := h]> hp !! b = Some hb -> hp !! b = Some hb \/ b = a /\ hb = h).
  { intros b hb [[-> ->] | [? ?]]%lookup_insert_Some; auto. }
  split; intros b hb.
  - intros [? | [-> ->]]%Hc; eauto.
  - intros Hb [? | [-> ->]]%Hc; [eauto | ]. by destruct (Hno Fdmon).
  - intros Hb [? | [-> ->]]%Hc; [eauto | ]. by destruct (Hno Async).
  - intros Hb [? | [-> ->]]%Hc; [eauto | ]. by destruct (Hno Timer).
  - intros Hb [? | [-> ->]]%Hc; [eauto | ]. by destruct (Hno Fdmon).
Qed.

Lemma elem_of_snoc (b a : Z) l : b ∈ l ++ [a] <-> b ∈ l \/ b = a.
Proof. by rewrite elem_of_app, list_elem_of_singleton. Qed.

(** Linking a floating handle. *)
Lemma kinds_queue l a h p c hp :
  kinds p c hp -> hp !! a = Some h -> (l = Ready \/ l = Async /\ h_fd h = -1) -> kinds p (linked l a c) hp.
Proof.
  unfold linked. lists c. intros [] Ha [-> | [-> Hfd]]; cbn in *; split; cbn; auto.
  intros b hb. rewrite elem_of_snoc. intros [Hb | ->] Hh; [eauto | congruence].
Qed.

Lemma kinds_watch a h p c hp :
  kinds p c hp -> hp !! a = Some h -> 0 <= h_fd h -> h_timeout_at h = UINT64_MAX ->
  kinds p (linked Fdmon a c) hp.
Proof.
  unfold linked. lists c. intros [] Ha Hfd Hat. cbn in *. split; cbn; auto; intros b hb.
  - intros [Hb | ->]%elem_of_snoc Hh; [eauto | congruence].
  - intros Hb Hh. rewrite elem_of_snoc. destruct (k_t0 b hb Hb Hh); auto.
  - intros [Hb | ->]%elem_of_snoc Hh Hne; [eauto | congruence].
Qed.

Lemma kinds_watch_arm a h p c hp l1 l2 :
  kinds p c hp -> hp !! a = Some h -> 0 <= h_fd h -> timer_list c = l1 ++ l2 ->
  kinds p (set_list Timer (l1 ++ a :: l2) (linked Fdmon a c)) hp.
Proof.
  unfold linked. lists c. intros [] Ha Hfd ->. cbn in *. split; cbn; auto; intros b hb.
  - intros [Hb | ->]%elem_of_snoc Hh; [eauto | congruence].
  - intros [-> | Hb]%elem_of_mid Hh; rewrite elem_of_snoc; [auto | ]. destruct (k_t0 b hb Hb Hh); auto.
  - intros [Hb | ->]%elem_of_snoc Hh Hne; apply elem_of_mid; [ | auto]. right. eauto.
Qed.

Lemma kinds_arm a h p c hp l1 l2 :
  kinds p c hp -> hp !! a = Some h -> h_fd h = -1 \/ a ∈ fdmon_list c -> timer_list c = l1 ++ l2 ->
  kinds p (set_list Timer (l1 ++ a :: l2) c) hp.
Proof.
  lists c. intros [] Ha Hfd ->. cbn in *. split; cbn; auto; intros b hb.
  - intros [-> | Hb]%elem_of_mid Hh; [ | eauto]. rewrite Ha in Hh. by injection Hh as <-.
  - intros Hb Hh Hne. apply elem_of_mid. right. eauto.
Qed.

(* ------------------------------------------------------------------ *)
(** ** The invariant *)

Definition flags_of (c : evb2) : Z * Z * Z * bool * option Z * bool * bool * bool :=
  (epfd c, pipe0 c, pipe1 c, locked c, notifying c, stopping c, in_run c, finalized c).

(** What a callback may rely on of a handle that stays. *)
Definition core (h : handle) : cbk * Z * Z * Z * bool * bool :=
  (h_cb h, h_ud h, h_fd h, h_noti h, has (h_flag2 h) EVB2_FLAG_ONESHOT,
   has (h_flag2 h) EVB2_FLAG_INTERNAL).

(** The history of cancels.  A handle reported gone was allocated once, has had
    no callback since, and is freed, or marked dead for the time its own
    callback is running. *)
Definition dead (h : handle) : Prop := has (h_flag2 h) EVB2_FLAG_DEAD = true.

Record hushed (X : list Z) (hp : gmap Z handle) (b : Z) (l : list entry) (cs : list (Z * nat)) : Prop := Hushed {
  s_old : forall a n, (a, n) ∈ cs -> a < b /\ (n <= length l)%nat;
  s_quiet : forall a n e, (a, n) ∈ cs -> e ∈ drop n l -> e_h e <> a;
  s_gone : forall a n h, (a, n) ∈ cs -> hp !! a = Some h -> a ∈ X /\ dead h }.

Definition silent (X : list Z) (w : world) : Prop :=
  hushed X (heap w) (brk w) (log w) (cancels w).

Lemma silent_kept X w w' :
  silent X w -> cancels w' = cancels w -> log w' = log w -> brk w <= brk w' ->
  (forall a h', heap w' !! a = Some h' ->
     brk w <= a \/ exists h, heap w !! a = Some h /\ (dead h -> dead h')) -> silent X w'.
Proof.
  intros [] Hc Hl Hb Hh. split; rewrite ?Hc, ?Hl; [ | done | ].
  - intros a n Ha. destruct (s_old0 a n Ha). split; [lia | done].
  - intros a n h' Ha Hh'. destruct (Hh a h' Hh') as [Hge | (h & E1 & Hd)].
    + destruct (s_old0 a n Ha). lia.
    + destruct (s_gone0 a n h Ha E1). auto.
Qed.

Lemma silent_same X w w' :
  silent X w -> cancels w' = cancels w -> log w' = log w -> brk w <= brk w' -> heap w' = heap w ->
  silent X w'.
Proof. intros Hs Hc Hl Hb Hh. eapply silent_kept; try done. rewrite Hh. intros a h'. eauto. Qed.

Lemma silent_delete X w w' a :
  silent X w -> cancels w' = cancels w -> log w' = log w -> brk w <= brk w' ->
  heap w' = delete a (heap w) -> silent X w'.
Proof.
  intros Hs Hc Hl Hb Hh. eapply silent_kept; try done. rewrite Hh. intros b h' [_ Hd]%lookup_delete_Some. eauto.
Qed.

Lemma silent_upd X w w' a h h' :
  silent X w -> cancels w' = cancels w -> log w' = log w -> brk w <= brk w' ->
  heap w !! a = Some h -> heap w' = <[a := h']> (heap w) -> (dead h -> dead h') -> silent X w'.
Proof.
  intros Hs Hc Hl Hb Ha Hh Hd. eapply silent_kept; try done. rewrite Hh.
  intros b hb [[<- <-] | [_ Hb']]%lookup_insert_Some; eauto.
Qed.

Lemma silent_new X w w' h :
  silent X w -> cancels w' = cancels w -> log w' = log w -> brk w <= brk w' ->
  heap w' = <[brk w := h]> (heap w) -> silent X w'.
Proof.
  intros Hs Hc Hl Hb Hh. eapply silent_kept; try done. rewrite Hh.
  intros b hb [[<- <-] | [_ Hb']]%lookup_insert_Some; [by left | eauto].
Qed.

Lemma silent_more X a w : silent X w -> silent (a :: X) w.
Proof.
  intros []. split; [done.. | ]. intros b n h Hb Hh. destruct (s_gone0 b n h Hb Hh). split; [by right | done].
Qed.

(** The callback of [a] is over. *)
Lemma silent_over X a w w' :
  silent (a :: X) w -> cancels w' = cancels w -> log w' = log w -> brk w' = brk w ->
  (forall b, b <> a -> heap w' !! b = heap w !! b) ->
  heap w' !! a = None \/ (exists h, heap w !! a = Some h /\ ~ dead h) -> silent X w'.
Proof.
  intros [] Hc Hl Hb Hh Ha. split; rewrite ?Hc, ?Hl, ?Hb; [done.. | ]. intros b n h' Hbn Hh'.
  destruct (decide (b = a)) as [-> | Hn].
  - destruct Ha as [? | (h & E1 & Hnd)]; [congruence | ]. by destruct (s_gone0 a n h Hbn E1).
  - rewrite Hh in Hh' by done. destruct (s_gone0 b n h' Hbn Hh') as [[-> | ?]%elem_of_cons ?]; done.
Qed.

(** A handle that has not been cancelled. *)
Definition uncancelled (a : Z) (w : world) : Prop := forall n, (a, n) ∉ cancels w.

Lemma silent_uncancelled X w a : silent X w -> is_Some (heap w !! a) -> a ∉ X -> uncancelled a w.
Proof. intros [] [h Hh] Hx n Hn. by destruct (s_gone0 a n h Hn Hh). Qed.

(** Outside of callbacks a cancelled handle is freed. *)
Lemma silent_freed w a n : silent [] w -> (a, n) ∈ cancels w -> heap w !! a = None.
Proof.
  intros [] Ha. destruct (heap w !! a) as [h|] eqn:Eh; [ | done].
  destruct (s_gone0 a n h Ha Eh) as [Hx _]. by apply elem_of_nil in Hx.
Qed.

Lemma silent_call X w w' e :
  silent X w -> uncancelled (e_h e) w -> cancels w' = cancels w -> log w' = log w ++ [e] ->
  brk w' = brk w -> heap w' = heap w -> silent X w'.
Proof.
  intros [] Hu Hc Hl Hb Hh. split; rewrite ?Hc, ?Hl, ?Hb, ?Hh; [ | | done].
  - intros a n Ha. destruct (s_old0 a n Ha). rewrite length_app. split; [done | lia].
  - intros a n e' Ha. destruct (s_old0 a n Ha) as [_ Hn].
    rewrite drop_app_le by done. intros [He | ->%list_elem_of_singleton]%elem_of_app; [eauto | ].
    intros <-. by apply (Hu n).
Qed.

(** A cancel that reports success. *)
Lemma silent_told X w a :
  silent X w -> a < brk w -> (forall h, heap w !! a = Some h -> a ∈ X /\ dead h) -> silent X (add_cancel a w).
Proof.
  intros [] Ha Hd. assert (Hc : forall b n, (b, n) ∈ cancels (add_cancel a w) ->
    (b, n) ∈ cancels w \/ b = a /\ n = length (log w)).
  { intros b n. cbn. rewrite elem_of_app, list_elem_of_singleton. intros [? | [= -> ->]]; auto. }
  split; cbn [brk log heap add_cancel].
  - intros b n [? | [-> ->]]%Hc; [eauto | split; [done | lia]].
  - intros b n e [? | [-> ->]]%Hc; [eauto | ]. rewrite drop_all. by intros ?%elem_of_nil.
  - intros b n h [? | [-> ->]]%Hc; eauto.
Qed.

Section Inv.
Context (E : env) (closes : Prop).

Definition exact (c : evb2) (w : world) : Prop :=
  calm E -> ~ closes -> finalized c = false -> forall fd, 0 <= fd ->
  interest w !! fd = wanted (heap w) (fdmon_list c) fd.

(** [X]: the handles whose callbacks are running.  Outside of callbacks it is
    empty.  [closes]: clients may close descriptors they registered. *)
Record inv (X : list Z) (p : Z) (c : evb2) (w : world) : Prop := Inv {
  i_ctx : ctx w = Some (p, c);
  i_shape : shape c (heap w) X;
  i_kinds : kinds p c (heap w);
  i_exact : exact c w;
  i_lock : locked c = false;
  i_run : X <> [] -> in_run c = true;
  i_held : forall x, x ∈ X -> notifying c = Some x \/ stopping c = true;
  i_noti : forall x, notifying c = Some x -> x ∈ X;
  i_fin : finalized c = true -> stopping c = true;
  i_p : 0 < p < brk w;
  i_brk : forall a, is_Some (heap w !! a) -> 0 < a < brk w;
  i_epfd : 0 <= epfd c;
  i_fds : (epfd c, pipe0 c, pipe1 c) = descr E;
  i_kfds : kfds w = [pipe0 c; pipe1 c; epfd c];
  i_silent : silent X w }.

(** What an operation leaves of the rest: nothing new is queued for dispatch,
    only a cancel takes a handle off that queue, freed handles stay freed, and
    a loop being torn down only loses handles. *)
Record evolves (w : world) (c : evb2) (w' : world) (c' : evb2) : Prop := Evolves {
  q_ready : sublist (ready_list c') (ready_list c);
  q_left : finalized c = false -> forall a, a < brk w -> a ∈ ready_list c ->
    a ∈ ready_list c' \/ exists n, (a, n) ∈ cancels w';
  q_fdmon : stopping c = true -> sublist (fdmon_list c') (fdmon_list c);
  q_timer : stopping c = true -> sublist (timer_list c') (timer_list c);
  q_async : stopping c = true -> sublist (async_list c') (async_list c);
  q_stop : stopping c = true -> stopping c' = true;
  q_run : in_run c' = in_run c;
  q_fin : finalized c' = finalized c;
  q_not : notifying c' = notifying c;
  q_brk : brk w <= brk w';
  q_canc : cancels w `prefix_of` cancels w';
  q_dead : forall a, a < brk w -> heap w !! a = None -> heap w' !! a = None;
  q_core : forall a h h', a < brk w -> heap w !! a = Some h -> heap w' !! a = Some h' -> core h' = core h }.

Lemma evolves_refl w c : evolves w c w c.
Proof. split; auto; try done. intros. congruence. Qed.

Lemma evolves_trans w c w1 c1 w2 c2 : evolves w c w1 c1 -> evolves w1 c1 w2 c2 -> evolves w c w2 c2.
Proof.
  intros H1 H2. split.
  - etrans; [apply H2 | apply H1].
  - intros Hf a Ha Hr. pose proof (q_brk _ _ _ _ H1).
    destruct (q_left _ _ _ _ H1 Hf a Ha Hr) as [Hr1 | Hd].
    + apply (q_left _ _ _ _ H2); [by rewrite (q_fin _ _ _ _ H1) | lia | done].
    + right. destruct Hd as [n Hn]. exists n. eapply elem_of_prefix; [exact Hn | apply H2].
  - intros Hs. etrans; [apply H2; by apply H1 | by apply H1].
  - intros Hs. etrans; [apply H2; by apply H1 | by apply H1].
  - intros Hs. etrans; [apply H2; by apply H1 | by apply H1].
  - intros Hs. by apply H2, H1.
  - by rewrite (q_run _ _ _ _ H2), (q_run _ _ _ _ H1).
  - by rewrite (q_fin _ _ _ _ H2), (q_fin _ _ _ _ H1).
  - by rewrite (q_not _ _ _ _ H2), (q_not _ _ _ _ H1).
  - etrans; [apply H1 | apply H2].
  - etrans; [apply H1 | apply H2].
  - intros a Ha Hd. apply H2; [pose proof (q_brk _ _ _ _ H1); lia | by apply H1].
  - intros a h h2 Ha Hh Hh2. pose proof (q_brk _ _ _ _ H1).
    destruct (heap w1 !! a) as [h1|] eqn:E1.
    + rewrite (q_core _ _ _ _ H2 a h1 h2) by (done || lia). by apply H1 with a.
    + rewrite (q_dead _ _ _ _ H2 a) in Hh2 by (done || lia). done.
Qed.

(** The invariant after an operation that leaves the flags alone. *)
Lemma inv_intro X p c w c' w' :
  inv X p c w -> ctx w' = Some (p, c') -> flags_of c' = flags_of c ->
  shape c' (heap w') X -> kinds p c' (heap w') -> exact c' w' ->
  brk w <= brk w' -> (forall a, is_Some (heap w' !! a) -> 0 < a < brk w') -> kfds w' = kfds w ->
  silent X w' -> inv X p c' w'.
Proof.
  unfold flags_of. intros [] Hc [= F1 F2 F3 F4 F5 F6 F7 F8] Hs Hk He Hb Ha Hf Hsil.
  split; rewrite ?F1, ?F2, ?F3, ?F4, ?F5, ?F6, ?F7, ?F8, ?Hf; auto; lia.
Qed.

Lemma inv_alive X p c w l : inv X p c w -> alive (heap w) (get_list l c).
Proof. intros H. by eapply shape_alive, i_shape. Qed.
Lemma inv_nodup X p c w l : inv X p c w -> NoDup (get_list l c).
Proof. intros H. by eapply shape_nodup, i_shape. Qed.
Lemma inv_p X p c w : inv X p c w -> (p =? 0) = false.
Proof. intros []. apply Z.eqb_neq. lia. Qed.
Lemma inv_handle X p c w a : inv X p c w -> is_Some (heap w !! a) -> (a =? 0) = false.
Proof. intros [] Ha. apply Z.eqb_neq. specialize (i_brk0 a Ha). lia. Qed.
End Inv.

Lemma sublist_without a l : sublist (without a l) l.
Proof.
  unfold without. induction l as [|x l IH]; [constructor | ]. destruct (decide (x = a)) as [-> | Hn].
  - rewrite filter_cons_False by naive_solver. by constructor.
  - rewrite filter_cons_True by done. by constructor.
Qed.

(** Dead or not, the other flags are the same. *)
Lemma core_dead h : core (set_flag2 (Z.lor (h_flag2 h) EVB2_FLAG_DEAD) h) = core h.
Proof.
  unfold core, has. cbn [h_cb h_ud h_fd h_noti h_flag2 set_flag2]. rewrite !Z.land_lor_distr_l.
  change (Z.land EVB2_FLAG_DEAD EVB2_FLAG_ONESHOT) with 0.
  change (Z.land EVB2_FLAG_DEAD EVB2_FLAG_INTERNAL) with 0. by rewrite !Z.lor_0_r.
Qed.

(** A listed handle is on exactly the lists [unlink] takes it off. *)
Lemma unlink_async a c hp X :
  shape c hp X -> a ∈ async_list c -> set_list Async (without a (async_list c)) c = unlink a c.
Proof.
  intros Hs Ha. assert (Hn : a ∉ fdmon_list c /\ a ∉ timer_list c /\ a ∉ ready_list c).
  { split_and!; intros Hx; [by destruct (sh_fa _ _ _ Hs a) | by destruct (sh_ta _ _ _ Hs a) |
      by destruct (sh_ra _ _ _ Hs a)]. }
  lists c. destruct Hn as (?&?&?). cbn in *.
  by rewrite (without_id a cf), (without_id a ct), (without_id a cr) by done.
Qed.

Lemma unlink_others a c :
  a ∉ async_list c ->
  set_list Timer (without a (timer_list c)) (set_list Ready (without a (ready_list c))
    (set_list Fdmon (without a (fdmon_list c)) c)) = unlink a c.
Proof. lists c. cbn. intros Ha. by rewrite (without_id a ca). Qed.

Lemma unlink_none a c :
  a ∉ fdmon_list c -> a ∉ timer_list c -> a ∉ ready_list c -> a ∉ async_list c -> unlink a c = c.
Proof. lists c. cbn. intros. by rewrite !without_id. Qed.

Lemma fdmon_unlink a c : fdmon_list (unlink a c) = without a (fdmon_list c).
Proof. by destruct c. Qed.

Lemma flags_of_unlink a c : flags_of (unlink a c) = flags_of c.
Proof. by destruct c. Qed.

(* ------------------------------------------------------------------ *)
(** ** Cancelling *)

Section Quiet.
Context (E : env) (closes : Prop).
Notation inv := (inv E closes).

Definition stays (X : list Z) (p : Z) (c : evb2) (w w' : world) (c' : evb2) : Prop :=
  inv X p c' w' /\ evolves w c w' c' /\ log w' = log w.

Lemma stays_refl X p c w : inv X p c w -> stays X p c w w c.
Proof. intros. split_and!; [done | apply evolves_refl | done]. Qed.

Lemma stays_trans X p c w w1 c1 w2 c2 :
  stays X p c w w1 c1 -> stays X p c1 w1 w2 c2 -> stays X p c w w2 c2.
Proof. intros (? & ? & L1) (? & ? & L2). split_and!; [done | by eapply evolves_trans | congruence]. Qed.

(** A listed handle gone. *)
Lemma gone X p c w a h w' :
  inv X p c w -> heap w !! a = Some h -> a ∉ X ->
  ctx w' = Some (p, unlink a c) -> heap w' = delete a (heap w) -> brk w' = brk w ->
  kfds w' = kfds w -> log w' = log w -> cancels w' = cancels w -> exact E closes (unlink a c) w' ->
  stays X p c w (add_cancel a w') (unlink a c).
Proof.
  intros Hi Ha Hx Hc Hh Hb Hk Hl Hcn He. split.
  - eapply inv_intro; [exact Hi | done | apply flags_of_unlink | ..]; cbn [heap brk kfds add_cancel]; rewrite ?Hh, ?Hb; auto.
    + by eapply shape_free, shape_unlink; [apply Hi | | ].
    + apply kinds_free, kinds_unlink, Hi.
    + lia.
    + intros b Hsb. apply Hi. destruct Hsb as [hb [_ Hb']%lookup_delete_Some]. eauto.
    + apply silent_told.
      * eapply silent_delete; [apply Hi | done | done | lia | done].
      * rewrite Hb. apply Hi. eauto.
      * rewrite Hh, lookup_delete_eq. done.
  - split; [split | ]; cbn [heap brk log cancels add_cancel]; rewrite ?Hh, ?Hb, ?Hl, ?Hcn; try done.
    2: { intros _ b _ Hin. destruct (decide (b = a)) as [-> | Hn]; [right | left].
      - exists (length (log w)). set_solver.
      - destruct c. by apply elem_of_without. }
    1-4: lists c; cbn; intros; apply sublist_without.
    1-4: by destruct c.
    + by eexists.
    + intros b _ Hb'. rewrite lookup_delete_None. auto.
    + intros b h1 h2 _ Hb1 [_ Hb2]%lookup_delete_Some. congruence.
Qed.

(** Taking a handle away disturbs only its own descriptor. *)
Lemma exact_unlink X p c w a h w' :
  inv X p c w -> heap w !! a = Some h ->
  heap w' = delete a (heap w) ->
  (calm E -> forall f, 0 <= f -> interest w' !! f =
     if decide (f = h_fd h) then wanted (heap w) (without a (fdmon_list c)) f else interest w !! f) ->
  exact E closes (unlink a c) w'.
Proof.
  intros Hi Ha Hh Hint Hcalm Hnc Hfin f Hf. rewrite Hint, Hh by done.
  assert (Hfm : fdmon_list (unlink a c) = without a (fdmon_list c)) by (by destruct c). rewrite Hfm.
  rewrite (wanted_ext (heap w) (delete a (heap w)))
    by (intros b [Hb _]%elem_of_without; by rewrite lookup_delete_ne).
  case_decide as Hd; [done | ]. rewrite (i_exact _ _ _ _ _ _ Hi) by (done || by destruct c).
  by erewrite wanted_without.
Qed.

Record cancelled (p : Z) (a : Z) (c : evb2) (w : world) (r : Z) (w' : world) (c' : evb2) : Prop := Cancelled {
  c_r : r = 0 \/ r = -1 /\ w' = w /\ c' = c;
  c_dead : r = 0 -> heap w' !! a = None \/
    notifying c = Some a /\ exists h', heap w' !! a = Some h' /\ has (h_flag2 h') EVB2_FLAG_DEAD = true;
  c_kept : forall l b, b <> a -> b ∈ get_list l c -> b ∈ get_list l c' }.

Lemma has_dead h : has (h_flag2 (set_flag2 (Z.lor (h_flag2 h) EVB2_FLAG_DEAD) h)) EVB2_FLAG_DEAD = true.
Proof.
  unfold has. cbn [h_flag2 set_flag2]. rewrite Z.land_lor_distr_l.
  apply negb_true_iff, Z.eqb_neq. intros Hz%Z.lor_eq_0_iff. by destruct Hz.
Qed.

(** Fields of one handle change; its deadline only off the timer list. *)
Lemma upd_stays X p c w a h h' w' :
  inv X p c w -> heap w !! a = Some h -> hok p h' -> core h' = core h -> h_flag h' = h_flag h ->
  h_timeout_at h' = h_timeout_at h \/ a ∉ timer_list c /\ a ∉ fdmon_list c -> (dead h -> dead h') ->
  ctx w' = ctx w -> heap w' = <[a := h']> (heap w) -> interest w' = interest w ->
  brk w' = brk w -> kfds w' = kfds w -> log w' = log w -> cancels w' = cancels w -> stays X p c w w' c.
Proof.
  intros Hi Ha Hok Hcore Hflag Hat Hdd Hc Hh Hint Hb Hf Hl Hcn.
  assert (Hfd : h_fd h' = h_fd h) by (injection Hcore; auto).
  split.
  - eapply inv_intro; [exact Hi | by rewrite Hc; apply Hi | done | ..]; rewrite ?Hh, ?Hb, ?Hf; try done.
    + eapply shape_upd; [apply Hi | done | tauto].
    + eapply kinds_upd; [apply Hi | done.. | ]. intros Hm Hne. destruct Hat as [Hat | [_ Hnf]]; [ | done].
      rewrite Hat in Hne. by eapply (k_arm p c _ (i_kinds _ _ _ _ _ _ Hi)).
    + intros Hcalm Hnc Hfin f Hf0. rewrite Hint, Hh, (i_exact _ _ _ _ _ _ Hi) by done.
      symmetry. by eapply wanted_upd.
    + intros b [hb [[<- _] | [_ Hb']]%lookup_insert_Some]; apply Hi; eauto.
    + eapply silent_upd; [apply Hi | done | done | lia | done | done | done].
  - split; [split | ]; rewrite ?Hh, ?Hb, ?Hl, ?Hcn; try done; try (by auto).
    + intros b _ Hb'. rewrite lookup_insert_ne; [done | ]. intros ->. congruence.
    + intros b h1 h2 _ Hb1 [[<- <-] | [_ Hb2]]%lookup_insert_Some; congruence.
Qed.

Lemma relock l x c : locked c = false -> set_locked false (set_list l x (set_locked true c)) = set_list l x c.
Proof. destruct c; cbn. intros ->. by destruct l. Qed.

Lemma cancelled_gone p a c w w' :
  heap w' = delete a (heap w) -> cancelled p a c w 0 w' (unlink a c).
Proof.
  intros Hh. split; [by left | left; rewrite Hh; apply lookup_delete_eq | ].
  intros l b Hn Hb. destruct c, l; cbn in *; by apply elem_of_without.
Qed.

Lemma set_ctx_id p c w : ctx w = Some (p, c) -> set_ctx (Some (p, c)) w = w.
Proof. by destruct w; cbn; intros ->. Qed.

(** The client is told: nothing but the history changes. *)
Lemma told_stays X p c w w' c' a :
  stays X p c w w' c' -> a < brk w -> (forall h, heap w' !! a = Some h -> a ∈ X /\ dead h) ->
  stays X p c w (add_cancel a w') c'.
Proof.
  intros (Hi & V & L) Ha Hd. pose proof (q_brk _ _ _ _ V). split_and!; [ | | done].
  - pose proof (silent_told X w' a (i_silent _ _ _ _ _ _ Hi) ltac:(lia) Hd). by destruct Hi.
  - destruct V. split; try done.
    + intros Hf b Hb Hr. destruct (q_left0 Hf b Hb Hr) as [? | [n Hn]]; [by left | right]. exists n. cbn. set_solver.
    + etrans; [done | by eexists].
Qed.

(** The search of [aloe_evb2_cancel] through the lists, and its end. *)
Definition cancel_tail (p a : Z) (h : handle) : M Z :=
  lock p;;
  do b <- qent_remove p Async a;
  if b then unlock p;; free a;; told_gone a else
  unlock p;;
  do b1 <- qent_remove p Fdmon a;
  do b2 <- qent_remove p Ready a;
  do b3 <- qent_remove p Timer a;
  if negb (b1 || b2 || b3) then ret (-1) else
  (if 0 <=? h_fd h then epoll_refresh E p (h_fd h);; ret tt else ret tt);;
  free a;; told_gone a.

(** The three removals in the middle of it. *)
Lemma wp_remove3 X p c w a (k : bool -> bool -> bool -> M Z) Q :
  inv X p c w -> a ∉ async_list c ->
  wp (k (bool_decide (a ∈ fdmon_list c)) (bool_decide (a ∈ ready_list c))
        (bool_decide (a ∈ timer_list c))) (set_ctx (Some (p, unlink a c)) w) Q ->
  wp (do b1 <- qent_remove p Fdmon a; do b2 <- qent_remove p Ready a;
      do b3 <- qent_remove p Timer a; k b1 b2 b3) w Q.
Proof.
  intros Hi Ha HQ.
  apply ewp_bind. eapply wp_qent_remove; [apply Hi | apply (inv_alive _ _ _ _ _ _ Fdmon Hi) |
    apply (inv_nodup _ _ _ _ _ _ Fdmon Hi) | ].
  apply ewp_bind. eapply wp_qent_remove; [done | | | ].
  { destruct c. apply (inv_alive _ _ _ _ _ _ Ready Hi). } { destruct c. apply (inv_nodup _ _ _ _ _ _ Ready Hi). }
  apply ewp_bind. eapply wp_qent_remove; [done | | | ].
  { destruct c. apply (inv_alive _ _ _ _ _ _ Timer Hi). } { destruct c. apply (inv_nodup _ _ _ _ _ _ Timer Hi). }
  rewrite <- unlink_others in HQ by done. by destruct c.
Qed.

Lemma cancel_tail_held X p c w a h :
  inv X p c w -> a ∈ X -> wp (cancel_tail p a h) w (fun r w' => r = -1 /\ w' = w).
Proof.
  intros Hi Hx. destruct (sh_x _ _ _ (i_shape _ _ _ _ _ _ Hi) a Hx) as (Hf & Hr & Has & Ht).
  unfold cancel_tail. apply ewp_bind. eapply wp_lock; [apply Hi | apply Hi | ].
  apply ewp_bind. eapply wp_qent_remove; [done | apply (inv_alive _ _ _ _ _ _ Async Hi) |
    apply (inv_nodup _ _ _ _ _ _ Async Hi) | ].
  cbn [get_list async_list set_locked]. rewrite bool_decide_false by done.
  apply ewp_bind. eapply wp_ctx_upd; [done | ]. rewrite relock, without_id by (done || apply Hi).
  replace (set_list Async (async_list c) c) with c by (by destruct c).
  change (wp (do b1 <- qent_remove p Fdmon a; do b2 <- qent_remove p Ready a;
    do b3 <- qent_remove p Timer a; if negb (b1 || b2 || b3) then ret (-1) else
    (if 0 <=? h_fd h then epoll_refresh E p (h_fd h);; ret tt else ret tt);; free a;; told_gone a)
    (set_ctx (Some (p, c)) w) (fun r w' => r = -1 /\ w' = w)).
  rewrite set_ctx_id by apply Hi. eapply wp_remove3; [done.. | ].
  rewrite !bool_decide_false by done. cbn [negb orb]. apply ewp_ret. split; [done | ].
  rewrite unlink_none by done. apply set_ctx_id, Hi.
Qed.

Lemma cancel_tail_listed X p c w a h :
  inv X p c w -> heap w !! a = Some h -> a ∉ X ->
  wp (cancel_tail p a h) w (fun r w' => r = 0 /\ stays X p c w w' (unlink a c) /\
    heap w' = delete a (heap w)).
Proof.
  intros Hi Hh Hx. unfold cancel_tail. apply ewp_bind. eapply wp_lock; [apply Hi | apply Hi | ].
  apply ewp_bind. eapply wp_qent_remove; [done | apply (inv_alive _ _ _ _ _ _ Async Hi) |
    apply (inv_nodup _ _ _ _ _ _ Async Hi) | ].
  cbn [get_list async_list set_locked]. case_bool_decide as Has.
  { apply ewp_bind. eapply wp_ctx_upd; [done | ]. rewrite relock by apply Hi.
    apply ewp_bind. apply wp_free; [by eexists | ]. apply ewp_bind, ewp_modify, ewp_ret.
    rewrite (unlink_async _ _ _ _ (i_shape _ _ _ _ _ _ Hi) Has). split_and!; [done | | done].
    eapply gone; [done.. | ]. eapply exact_unlink; [done | done | done | ].
    intros _ f Hf. case_decide as Hd; [ | done].
    rewrite (k_a _ _ _ (i_kinds _ _ _ _ _ _ Hi) a h Has Hh) in Hd. lia. }
  apply ewp_bind. eapply wp_ctx_upd; [done | ]. rewrite relock, without_id by (done || apply Hi).
  replace (set_list Async (async_list c) c) with c by (by destruct c).
  match goal with |- wp ?m ?s ?Q => change (wp m (set_ctx (Some (p, c)) w) Q) end.
  rewrite set_ctx_id by apply Hi. eapply wp_remove3; [done.. | ].
  assert (Hl : negb (bool_decide (a ∈ fdmon_list c) || bool_decide (a ∈ ready_list c)
    || bool_decide (a ∈ timer_list c)) = false).
  { apply negb_false_iff. rewrite !orb_true_iff, !bool_decide_eq_true.
    destruct (proj1 (sh_dom _ _ _ (i_shape _ _ _ _ _ _ Hi) a) ltac:(eauto)) as [?|[?|[?|[?|?]]]]; tauto. }
  rewrite Hl. destruct (Z.leb_spec 0 (h_fd h)) as [Hfd | Hfd].
  - apply ewp_bind, ewp_bind. eapply wp_epoll_refresh; [done | | | | ].
    { pose proof (i_p _ _ _ _ _ _ Hi). lia. }
    { intros b Hb. apply (inv_alive _ _ _ _ _ _ Fdmon Hi). destruct c; cbn in *. apply elem_of_without in Hb. tauto. }
    { pose proof (i_epfd _ _ _ _ _ _ Hi). by destruct c. }
    intros r w1 [S1 S2 S3 S4 S5 S6 S7 S8] Hint. apply ewp_ret. apply ewp_bind, wp_free; [rewrite S2; by eexists | ].
    apply ewp_bind, ewp_modify, ewp_ret. split_and!; [done | | cbn; by rewrite S2]. cbn in *.
    eapply gone; [done.. | | | | | | | ]; cbn; try congruence.
    eapply exact_unlink; [done | done | cbn; congruence | ].
    intros Hcalm f Hf. cbn. destruct (Hint Hcalm) as [_ ->]; [ | done].
    rewrite fdmon_unlink. destruct (decide (f = h_fd h)) as [-> | Hd]; done.
  - apply ewp_bind, ewp_ret, ewp_bind, wp_free; [by eexists | ]. apply ewp_bind, ewp_modify, ewp_ret. split_and!; [done | | done].
    eapply gone; [done.. | ]. eapply exact_unlink; [done | done | done | ].
    intros _ f Hf. destruct (decide (f = h_fd h)); [lia | done].
Qed.

Lemma cancel_ok X p c w a :
  inv X p c w -> is_Some (heap w !! a) ->
  wp (aloe_evb2_cancel E p a) w (fun r w' => exists c', stays X p c w w' c' /\ cancelled p a c w r w' c').
Proof.
  intros Hi Ha. unfold aloe_evb2_cancel. rewrite (inv_p _ _ _ _ _ _ Hi), (inv_handle _ _ _ _ _ _ _ Hi Ha).
  cbn [orb]. destruct Ha as [h Hh]. apply ewp_bind. eapply wp_hget; [done | ].
  pose proof (k_hok _ _ _ (i_kinds _ _ _ _ _ _ Hi) a h Hh) as Hok. rewrite (ok_evb _ _ Hok), Z.eqb_refl.
  cbn [negb].
  assert (Hsame : cancelled p a c w (-1) w c) by (split; [by right | done | done]).
  destruct (has (h_flag2 h) EVB2_FLAG_INTERNAL).
  { apply ewp_ret. eauto using stays_refl. }
  apply ewp_bind. eapply wp_deref; [apply Hi | ]. case_bool_decide as Hn.
  { apply ewp_bind. eapply wp_hupd; [done | ]. apply ewp_bind, ewp_modify, ewp_ret. exists c. split.
    - eapply told_stays.
      + apply (upd_stays X p c w a h (set_flag2 (Z.lor (h_flag2 h) EVB2_FLAG_DEAD) h));
          [done | done | by destruct Hok | apply core_dead | done | by left | intros _; apply has_dead | done..].
      + apply Hi. eauto.
      + cbn. rewrite lookup_insert_eq. intros h' [= <-]. split; [by apply (i_noti _ _ _ _ _ _ Hi) | apply has_dead].
    - split; [by left | | done]. intros _. right. split; [done | ]. cbn. rewrite lookup_insert_eq.
      eexists. split; [done | ]. apply has_dead. }
  destruct (decide (a ∈ X)) as [Hx | Hx].
  - eapply ewp_mono; [by eapply cancel_tail_held | ]. intros r w' [-> ->]. eauto using stays_refl.
  - eapply ewp_mono; [by eapply cancel_tail_listed | ]. intros r w' (-> & Hs & Hd).
    eauto using cancelled_gone.
Qed.

(** [aloe_evb2_cancel_fd] walks lists from which only the handle visited
    disappears. *)
Lemma cancel_each X p fd l q : forall c w,
  inv X p c w -> NoDup q -> (forall b, b ∈ q -> b ∈ get_list l c) ->
  wp (foreach p l q (fun a => do h <- hget a;
    if h_fd h =? fd then do r <- aloe_evb2_cancel E p a; ret (if r =? 0 then 1 else 0) else ret 0)) w
    (fun n w' => exists c', stays X p c w w' c').
Proof.
  induction q as [|a q IH]; intros c w Hi Hn Hq; cbn [foreach].
  { apply ewp_ret. eauto using stays_refl. }
  apply NoDup_cons in Hn as [Ha Hn]. apply ewp_bind. eapply wp_deref; [apply Hi | ].
  rewrite bool_decide_true by (apply Hq; by left).
  assert (Halive : is_Some (heap w !! a)) by (eapply (inv_alive _ _ _ _ _ _ l Hi), Hq; by left).
  assert (Hnext : forall (r : Z) w1 c1, stays X p c w w1 c1 ->
    (forall b, b ∈ q -> b ∈ get_list l c1) ->
    wp (do s <- foreach p l q (fun a => do h <- hget a;
      if h_fd h =? fd then do r <- aloe_evb2_cancel E p a; ret (if r =? 0 then 1 else 0) else ret 0);
      ret (r + s)) w1 (fun n w' => exists c', stays X p c w w' c')).
  { intros r w1 c1 [Hi1 Hq1] Hk. apply ewp_bind. eapply ewp_mono; [by apply (IH c1) | ].
    intros s w2 [c2 Hs2]. apply ewp_ret. exists c2. by eapply stays_trans. }
  apply ewp_bind, ewp_bind. destruct Halive as [h Hh]. eapply wp_hget; [done | ].
  destruct (h_fd h =? fd).
  - apply ewp_bind. eapply ewp_mono; [by apply cancel_ok | ]. intros r w1 (c1 & Hs & Hc). apply ewp_ret.
    eapply Hnext; [done | ]. intros b Hb. apply (c_kept _ _ _ _ _ _ _ Hc); [ | apply Hq; by right].
    by intros ->.
  - apply ewp_ret. eapply Hnext; [by apply stays_refl | ]. intros b Hb. apply Hq. by right.
Qed.

Lemma cancel_fd_ok X p c w fd :
  inv X p c w -> wp (aloe_evb2_cancel_fd E p fd) w (fun r w' => exists c', stays X p c w w' c').
Proof.
  intros Hi. unfold aloe_evb2_cancel_fd. rewrite (inv_p _ _ _ _ _ _ Hi).
  destruct (fd <=? FD_TIMER); [apply ewp_ret; eauto using stays_refl | ].
  apply ewp_bind. eapply wp_deref; [apply Hi | ].
  destruct ((fd =? pipe0 c) || (fd =? pipe1 c)); [apply ewp_ret; eauto using stays_refl | ]. cbv zeta.
  apply ewp_bind. eapply wp_deref; [apply Hi | ]. apply ewp_bind.
  eapply ewp_mono; [apply (cancel_each X p fd Fdmon (fdmon_list c) c); [done | apply (inv_nodup _ _ _ _ _ _ Fdmon Hi) | done] | ].
  intros n1 w1 [c1 S1]. pose proof (proj1 S1) as Hi1.
  apply ewp_bind. eapply wp_deref; [apply Hi1 | ]. apply ewp_bind.
  eapply ewp_mono; [apply (cancel_each X p fd Timer (timer_list c1) c1); [done | apply (inv_nodup _ _ _ _ _ _ Timer Hi1) | done] | ].
  intros n2 w2 [c2 S2]. pose proof (proj1 S2) as Hi2.
  apply ewp_bind. eapply wp_deref; [apply Hi2 | ]. apply ewp_bind.
  eapply ewp_mono; [apply (cancel_each X p fd Ready (ready_list c2) c2); [done | apply (inv_nodup _ _ _ _ _ _ Ready Hi2) | done] | ].
  intros n3 w3 [c3 S3]. apply ewp_ret. exists c3. eauto using stays_trans.
Qed.
End Quiet.

(* ------------------------------------------------------------------ *)
(** ** New timeouts *)

(** The timer entry of a handle moves to where its new deadline belongs. *)
Lemma shape_rearm a h h' c hp X l1 l2 :
  shape c hp X -> hp !! a = Some h -> a ∈ fdmon_list c \/ a ∈ timer_list c -> a ∉ X ->
  without a (timer_list c) = l1 ++ l2 ->
  (forall b, b ∈ l1 -> at_of (<[a := h']> hp) b <= h_timeout_at h') ->
  (forall b, b ∈ l2 -> h_timeout_at h' <= at_of (<[a := h']> hp) b) ->
  shape (set_list Timer (l1 ++ a :: l2) c) (<[a := h']> hp) X.
Proof.
  intros Hs Ha Hl Hx Ht H1 H2.
  assert (Hat : at_of (<[a := h']> hp) a = h_timeout_at h').
  { unfold at_of. by rewrite lookup_insert_eq. }
  assert (Hno : a ∉ without a (timer_list c)) by (rewrite elem_of_without; tauto).
  assert (Hin : forall b, b ∈ l1 ++ a :: l2 <-> b = a \/ b ∈ timer_list c).
  { intros b. rewrite elem_of_mid, <- Ht, elem_of_without. destruct (decide (b = a)); tauto. }
  assert (Hds : forall b, is_Some (<[a := h']> hp !! b) <-> is_Some (hp !! b)).
  { intros b. destruct (decide (b = a)) as [-> | Hn];
      [rewrite lookup_insert_eq, Ha; split; eauto | by rewrite lookup_insert_ne]. }
  assert (Hord : in_order (<[a := h']> hp) (l1 ++ l2)).
  { rewrite <- Ht. eapply in_order_ext; [ | apply in_order_without, (sh_order _ _ _ Hs)].
    intros b [Hb _]%elem_of_without. unfold at_of. by rewrite lookup_insert_ne. }
  lists c. revert Hs; intros []. cbn in *. split; cbn; auto.
  - intros b. rewrite Hds, sh_dom, Hin. split; [tauto | ].
    intros [? | [? | [? | [[-> | ?] | ?]]]]; tauto.
  - apply NoDup_mid; rewrite <- Ht; [by apply NoDup_without | done].
  - intros b [-> | Hb]%Hin; [ | auto]. destruct Hl; auto.
  - intros b [-> | Hb]%Hin; [ | auto]. destruct Hl; auto.
  - intros b Hb. destruct (sh_x b Hb) as (?&?&?&?). rewrite Hin. split_and!; auto.
    intros [-> | ?]; tauto.
  - apply in_order_insert; rewrite ?Hat; auto.
Qed.

Lemma shape_disarm a h h' c hp X :
  shape c hp X -> hp !! a = Some h -> a ∈ fdmon_list c ->
  shape (set_list Timer (without a (timer_list c)) c) (<[a := h']> hp) X.
Proof.
  intros Hs Ha Hl.
  assert (Hds : forall b, is_Some (<[a := h']> hp !! b) <-> is_Some (hp !! b)).
  { intros b. destruct (decide (b = a)) as [-> | Hn];
      [rewrite lookup_insert_eq, Ha; split; eauto | by rewrite lookup_insert_ne]. }
  assert (Hord : in_order (<[a := h']> hp) (without a (timer_list c))).
  { eapply in_order_ext; [ | apply in_order_without, (sh_order _ _ _ Hs)].
    intros b [Hb _]%elem_of_without. unfold at_of. by rewrite lookup_insert_ne. }
  lists c. revert Hs; intros []. cbn in *. split; cbn; auto using NoDup_without; try solve [mem].
  - intros b. rewrite Hds, sh_dom, elem_of_without. destruct (decide (b = a)) as [-> | Hn]; tauto.
  - intros b Hb. destruct (sh_x b Hb) as (?&?&?&?). rewrite elem_of_without. tauto.
Qed.

Lemma kinds_rearm a h h' p c hp l1 l2 :
  kinds p c hp -> hp !! a = Some h -> hok p h' -> h_fd h' = h_fd h ->
  a ∈ fdmon_list c \/ a ∈ timer_list c -> without a (timer_list c) = l1 ++ l2 ->
  kinds p (set_list Timer (l1 ++ a :: l2) c) (<[a := h']> hp).
Proof.
  intros Hk Ha Hok Hfd Hl Ht.
  assert (Hin : forall b, b ∈ l1 ++ a :: l2 <-> b = a \/ b ∈ timer_list c).
  { intros b. rewrite elem_of_mid, <- Ht, elem_of_without. destruct (decide (b = a)); tauto. }
  assert (Hc : forall b hb, <[a := h']> hp !! b = Some hb ->
    hp !! b = Some hb /\ b <> a \/ b = a /\ hb = h').
  { intros b hb [[-> ->] | [? ?]]%lookup_insert_Some; auto. }
  lists c. revert Hk; intros []. cbn in *. split; cbn; intros b hb.
  - intros [[? _] | [-> ->]]%Hc; eauto.
  - intros ? [[? _] | [-> ->]]%Hc; [eauto | ]. rewrite Hfd. eauto.
  - intros ? [[? _] | [-> ->]]%Hc; [eauto | ]. rewrite Hfd. eauto.
  - intros Hb [[? ?] | [-> ->]]%Hc.
    + apply Hin in Hb as [? | Hb]; [done | eauto].
    + rewrite Hfd. destruct Hl; eauto.
  - intros Hb [[? ?] | [-> ->]]%Hc Hne; apply Hin; eauto.
Qed.

Lemma kinds_disarm a h h' p c hp :
  kinds p c hp -> hp !! a = Some h -> hok p h' -> h_fd h' = h_fd h -> a ∈ fdmon_list c ->
  h_timeout_at h' = UINT64_MAX ->
  kinds p (set_list Timer (without a (timer_list c)) c) (<[a := h']> hp).
Proof.
  intros Hk Ha Hok Hfd Hl Hat.
  assert (Hc : forall b hb, <[a := h']> hp !! b = Some hb ->
    hp !! b = Some hb /\ b <> a \/ b = a /\ hb = h').
  { intros b hb [[-> ->] | [? ?]]%lookup_insert_Some; auto. }
  lists c. revert Hk; intros []. cbn in *. split; cbn; intros b hb.
  - intros [[? _] | [-> ->]]%Hc; eauto.
  - intros ? [[? _] | [-> ->]]%Hc; [eauto | ]. rewrite Hfd. eauto.
  - intros ? [[? _] | [-> ->]]%Hc; [eauto | ]. rewrite Hfd. eauto.
  - intros [_ Hb]%elem_of_without [[? ?] | [-> ->]]%Hc; eauto.
  - intros Hb [[? ?] | [-> ->]]%Hc Hne; [ | congruence]. apply elem_of_without. eauto.
Qed.

Lemma wp_evb2_set_timeout a now h w (Q : unit -> world -> Prop) :
  heap w !! a = Some h ->
  Q tt (set_heap (<[a := with_timeout (h_timeout_ms h) (deadline (h_timeout_ms h) now) h]> (heap w)) w) ->
  wp (evb2_set_timeout a now) w Q.
Proof. intros Hh HQ. unfold evb2_set_timeout. by eapply wp_hupd. Qed.

Lemma relock0 c : locked c = false -> set_locked false (set_locked true c) = c.
Proof. by destruct c; cbn; intros ->. Qed.

Section SetTimeout.
Context (E : env) (closes : Prop) (Esane : sane_env E).
Notation inv := (inv E closes).
Notation stays := (stays E closes).

Lemma hok_timeout p h ms n :
  hok p h -> sane_ms ms -> (h_fd h = -1 -> ms <> INFINITE) ->
  hok p (with_timeout ms (deadline ms (clock E n)) h).
Proof.
  intros [] Hms Ht. split; cbn; auto. apply deadline_max; [done | ]. apply (proj1 Esane).
Qed.

(** The end of [aloe_evb2_set_timeout]: the timer entry moves. *)
Lemma rearm_ok X p c w a h h' :
  inv X p c w -> heap w !! a = Some h -> hok p h' -> core h' = core h -> h_flag h' = h_flag h ->
  stopping c = false ->
  a ∈ fdmon_list c \/ a ∈ timer_list c ->
  (dead h -> dead h') ->
  wp (qent_remove p Timer a;; do h <- hget a;
      (if negb (h_timeout_at h =? UINT64_MAX) then timer_insert p a else ret tt);; ret 0)
    (set_heap (<[a := h']> (heap w)) (tick_clock w)) (fun r w' => exists c', stays X p c w w' c').
Proof.
  intros Hi Hh Hok Hcore Hflag Hstop Hl Hdd. assert (Hfd : h_fd h' = h_fd h) by (injection Hcore; auto).
  assert (Hx : a ∉ X).
  { intros Hx. destruct (sh_x _ _ _ (i_shape _ _ _ _ _ _ Hi) a Hx) as (?&?&?&?). tauto. }
  assert (Hds : forall b, is_Some (<[a := h']> (heap w) !! b) <-> is_Some (heap w !! b)).
  { intros b. destruct (decide (b = a)) as [-> | Hn];
      [rewrite lookup_insert_eq, Hh; split; eauto | by rewrite lookup_insert_ne]. }
  assert (Hend : forall c' w', flags_of c' = flags_of c -> fdmon_list c' = fdmon_list c ->
    ready_list c' = ready_list c -> async_list c' = async_list c ->
    w' = set_ctx (Some (p, c')) (set_heap (<[a := h']> (heap w)) (tick_clock w)) ->
    shape c' (<[a := h']> (heap w)) X -> kinds p c' (<[a := h']> (heap w)) -> stays X p c w w' c').
  { intros c' w' Hfl F1 F2 F3 -> Hs Hk. split.
    - eapply inv_intro; [exact Hi | done | done | done | done | | done | | done | ].
      + intros Hcalm Hnc Hfin f Hf. cbn. rewrite F1, (i_exact _ _ _ _ _ _ Hi); try done.
        * symmetry. by eapply wanted_upd.
        * unfold flags_of in Hfl. congruence.
      + intros b Hb. apply Hi. by apply Hds.
      + eapply silent_upd; [apply Hi | done | done | done | done | done | done].
    - unfold flags_of in Hfl. injection Hfl as ? ? ? ? ? ? ? ?.
      split; [split | ]; cbn; rewrite ?F1, ?F2, ?F3; try done; try (by auto); try congruence.
      + intros b _ Hb. rewrite lookup_insert_ne; [done | ]. intros ->. congruence.
      + intros b h1 h2 _ Hb1 [[<- <-] | [_ Hb2]]%lookup_insert_Some; congruence. }
  pose proof (i_shape _ _ _ _ _ _ Hi) as Hs. pose proof (i_kinds _ _ _ _ _ _ Hi) as Hk.
  apply ewp_bind. eapply wp_qent_remove; [apply Hi | | apply (inv_nodup _ _ _ _ _ _ Timer Hi) | ].
  { intros b Hb. cbn [heap set_heap]. apply Hds. by apply (inv_alive _ _ _ _ _ _ Timer Hi). }
  apply ewp_bind. eapply wp_hget; [apply lookup_insert_eq | ].
  destruct (Z.eqb_spec (h_timeout_at h') UINT64_MAX) as [Hat | Hat]; cbn [negb].
  - assert (Hf : a ∈ fdmon_list c).
    { destruct Hl as [? | Ht]; [done | ]. destruct (k_t _ _ _ Hk a h Ht Hh) as [Hm | ?]; [ | done].
      rewrite <- Hfd in Hm. by destruct (ok_timer _ _ Hok Hm (proj1 (ok_at _ _ Hok) Hat)). }
    apply ewp_bind, ewp_ret, ewp_ret. eexists.
    apply Hend; [ | | | | reflexivity | by eapply shape_disarm | by eapply kinds_disarm]; by destruct c.
  - apply ewp_bind. eapply wp_timer_insert; [done | apply lookup_insert_eq | | | | ].
    { intros b Hb. cbn [heap set_heap set_ctx]. apply Hds. apply (inv_alive _ _ _ _ _ _ Timer Hi).
      destruct c; cbn in *. apply elem_of_without in Hb. tauto. }
    { cbn [heap set_heap set_ctx]. eapply in_order_ext; [ | destruct c; apply in_order_without, (sh_order _ _ _ Hs)].
      intros b Hb. assert (b <> a) by (destruct c; cbn in Hb; apply elem_of_without in Hb; tauto).
      unfold at_of. by rewrite lookup_insert_ne. }
    { intros Hin. destruct c; cbn in Hin. apply elem_of_without in Hin. tauto. }
    intros l1 l2 El H1 H2. apply ewp_ret. cbn [heap set_heap set_ctx] in H1, H2.
    assert (Hata : at_of (<[a := h']> (heap w)) a = h_timeout_at h') by (unfold at_of; by rewrite lookup_insert_eq).
    rewrite Hata in H1, H2.
    replace (set_list Timer (l1 ++ a :: l2) (set_list Timer (without a (get_list Timer c)) c))
      with (set_list Timer (l1 ++ a :: l2) c) by (by destruct c).
    assert (El' : without a (timer_list c) = l1 ++ l2) by (rewrite <- El; by destruct c).
    eexists. apply Hend; [ | | | | reflexivity | by eapply shape_rearm | by eapply kinds_rearm]; by destruct c.
Qed.

Lemma set_timeout_ok X p c w a ms :
  inv X p c w -> is_Some (heap w !! a) -> sane_ms ms ->
  wp (aloe_evb2_set_timeout E p a ms) w (fun r w' => exists c', stays X p c w w' c').
Proof.
  intros Hi Ha Hms. unfold aloe_evb2_set_timeout.
  rewrite (inv_p _ _ _ _ _ _ Hi), (inv_handle _ _ _ _ _ _ _ Hi Ha). cbn [orb]. destruct Ha as [h Hh].
  assert (Hsame : forall r : Z, wp (ret r) w (fun r w' => exists c', stays X p c w w' c')).
  { intros r. apply ewp_ret. exists c. by apply stays_refl. }
  apply ewp_bind. eapply wp_hget; [done | ].
  pose proof (k_hok _ _ _ (i_kinds _ _ _ _ _ _ Hi) a h Hh) as Hok. rewrite (ok_evb _ _ Hok), Z.eqb_refl.
  cbn [negb]. destruct (has (h_flag2 h) _); [apply Hsame | ].
  apply ewp_bind. eapply wp_deref; [apply Hi | ].
  destruct (stopping c) eqn:Hstop; [apply Hsame | ]. destruct (finalized c) eqn:Hfin; [apply Hsame | ]. cbn [orb].
  destruct ((h_fd h =? FD_TIMER) && (ms =? INFINITE)) eqn:Ht; [apply Hsame | ].
  assert (Ht' : h_fd h = -1 -> ms <> INFINITE).
  { intros E1 ->. rewrite E1 in Ht. by vm_compute in Ht. }
  set (h' := with_timeout ms (deadline ms (clock E (n_clock w))) h).
  assert (Hok' : hok p h') by (by apply hok_timeout).
  apply ewp_bind. eapply wp_hupd; [done | ]. apply ewp_bind, wp_now. apply ewp_bind.
  eapply wp_evb2_set_timeout; [apply lookup_insert_eq | ].
  match goal with |- wp _ ?s _ => replace s with (set_heap (<[a := h']> (heap w)) (tick_clock w)) end.
  2: { unfold set_heap, tick_clock. cbn. by rewrite insert_insert_eq. }
  assert (Hupd : a ∉ timer_list c /\ a ∉ fdmon_list c ->
    stays X p c w (set_heap (<[a := h']> (heap w)) (tick_clock w)) c).
  { intros Hn. eapply upd_stays; [done | done | done | done | done | by right | done | done..]. }
  case_bool_decide as Hn.
  { apply ewp_ret. exists c. apply Hupd.
    destruct (sh_x _ _ _ (i_shape _ _ _ _ _ _ Hi) a (i_noti _ _ _ _ _ _ Hi a Hn)) as (?&?&?&?). tauto. }
  assert (Halive : forall l, alive (<[a := h']> (heap w)) (get_list l c)).
  { intros l b Hb. destruct (decide (b = a)) as [-> | Hne]; [rewrite lookup_insert_eq; eauto | ].
    rewrite lookup_insert_ne by done. by apply (inv_alive _ _ _ _ _ _ l Hi). }
  apply ewp_bind. eapply wp_lock; [apply Hi | apply Hi | ].
  apply ewp_bind. eapply wp_qent_contains; [done | apply (Halive Async) | ].
  apply ewp_bind. eapply wp_ctx_upd; [done | ]. rewrite relock0 by apply Hi. cbn [get_list async_list set_locked].
  match goal with |- wp _ ?s _ => replace s with (set_heap (<[a := h']> (heap w)) (tick_clock w)) end.
  2: { unfold set_heap, tick_clock, set_ctx. cbn. by rewrite (i_ctx _ _ _ _ _ _ Hi). }
  pose proof (i_shape _ _ _ _ _ _ Hi) as Hs. case_bool_decide as Has.
  { apply ewp_ret. exists c. apply Hupd. split; intros Hx; [by apply (sh_ta _ _ _ Hs a) | by apply (sh_fa _ _ _ Hs a)]. }
  apply ewp_bind. eapply wp_qent_contains; [apply Hi | apply (Halive Ready) | ]. case_bool_decide as Hr.
  { apply ewp_ret. exists c. apply Hupd. split; intros Hx; [by apply (sh_tr _ _ _ Hs a) | by apply (sh_fr _ _ _ Hs a)]. }
  eapply rearm_ok; [done.. | | done].
  destruct (proj1 (sh_dom _ _ _ Hs a) ltac:(eauto)) as [?|[?|[?|[?|Hx]]]]; try tauto.
  destruct (i_held _ _ _ _ _ _ Hi a Hx); congruence.
Qed.
End SetTimeout.

(* ------------------------------------------------------------------ *)
(** ** Registration *)

Section Register.
Context (E : env) (closes : Prop) (Esane : sane_env E).
Notation inv := (inv E closes).
Notation stays := (stays E closes).

(** Kernel and clock aside, the world is the same. *)
Lemma same_mem_stays X p c w w' :
  inv X p c w -> same_mem w w' -> interest w' = interest w -> stays X p c w w' c.
Proof.
  intros Hi [S1 S2 S3 S4 S5 S6 S7 S8] Hint. split.
  - eapply inv_intro; [exact Hi | by rewrite S1; apply Hi | done | ..]; rewrite ?S2, ?S3, ?S4; try done.
    + apply Hi. + apply Hi.
    + intros Hcalm Hnc Hfin f Hf. rewrite Hint, S2. by apply Hi.
    + apply Hi.
    + eapply silent_same; [apply Hi | done | done | lia | done].
  - split; [split | ]; rewrite ?S2, ?S3, ?S5, ?S8; try done; try (by auto). intros. congruence.
Qed.

(** The new handle of a registration, and the world with it. *)
Definition fresh_handle (p : Z) (cb : cbk) (ud fd ms ev flag2 now : Z) : handle :=
  Handle cb ud fd ms (deadline ms now) p ev flag2 0.

Record allocated (w : world) (h : handle) (w1 : world) : Prop := Allocated {
  al_ctx : ctx w1 = ctx w; al_heap : heap w1 = <[brk w := h]> (heap w); al_brk : brk w1 = brk w + 1;
  al_int : interest w1 = interest w; al_kfds : kfds w1 = kfds w; al_log : log w1 = log w;
  al_canc : cancels w1 = cancels w }.

Lemma wp_register X p c w cb ud fd ms ev flag2 (f : handle -> handle) (k : Z -> M Z) Q :
  inv X p c w -> f (Handle NoCb 0 FD_TIMER 0 0 p 0 0 0) = Handle cb ud fd ms 0 p ev flag2 0 ->
  (forall w', same_mem w w' -> interest w' = interest w -> Q 0 w') ->
  (forall w1, allocated w (fresh_handle p cb ud fd ms ev flag2 (clock E (n_clock w))) w1 ->
     wp (k (brk w)) w1 Q) ->
  wp (do a <- handle_alloc E p;
      if a =? 0 then ret 0 else
      hupd a f;;
      do now <- evb2_now_ms E; evb2_set_timeout a now;; k a) w Q.
Proof.
  intros Hi Hf Hfail Hk. apply ewp_bind. unfold handle_alloc, alloc. apply ewp_bind, ewp_bind, wp_sys.
  destruct (negb (refuse E (n_sys w) =? 0)).
  { apply ewp_ret. cbn. apply ewp_ret, ewp_ret. by apply Hfail. }
  assert (Hnz : (brk w =? 0) = false) by (apply Z.eqb_neq; pose proof (i_p _ _ _ _ _ _ Hi); lia).
  apply ewp_bind, wp_gets, ewp_bind, ewp_modify, ewp_ret. cbn [brk tick_sys]. rewrite Hnz.
  apply ewp_bind, ewp_modify, ewp_ret. rewrite Hnz.
  apply ewp_bind. eapply wp_hupd; [apply lookup_insert_eq | ]. apply ewp_bind, wp_now, ewp_bind.
  eapply wp_evb2_set_timeout; [apply lookup_insert_eq | ]. apply Hk. split; try done.
  cbn. by rewrite !insert_insert_eq, Hf.
Qed.

Lemma allocated_new X p c w h w1 :
  inv X p c w -> allocated w h w1 -> hok p h ->
  shape c (heap w1) (brk w :: X) /\ kinds p c (heap w1) /\
  (forall a, is_Some (heap w1 !! a) -> 0 < a < brk w1) /\ heap w !! brk w = None.
Proof.
  intros Hi [A1 A2 A3 A4 A5 A6 A7] Hok. assert (Hn : heap w !! brk w = None).
  { destruct (heap w !! brk w) eqn:Eb; [ | done]. pose proof (i_brk _ _ _ _ _ _ Hi (brk w) ltac:(eauto)). lia. }
  rewrite A2, A3. split_and!; [ | | | done].
  - apply shape_new; [apply Hi | done].
  - eapply kinds_new; [apply Hi | apply Hi | done..].
  - intros a [ha [[<- _] | [_ Ha]]%lookup_insert_Some]; [pose proof (i_p _ _ _ _ _ _ Hi); lia | ].
    pose proof (i_brk _ _ _ _ _ _ Hi a ltac:(eauto)). lia.
Qed.

(** What is old is untouched by a registration. *)
Lemma registered X p c w h w1 w' c' :
  inv X p c w -> allocated w h w1 -> flags_of c' = flags_of c -> stopping c = false ->
  ctx w' = Some (p, c') -> heap w' = heap w1 -> brk w' = brk w1 -> kfds w' = kfds w1 -> log w' = log w1 ->
  cancels w' = cancels w1 -> ready_list c' = ready_list c ->
  shape c' (heap w') X -> kinds p c' (heap w') -> exact E closes c' w' ->
  (forall a, is_Some (heap w1 !! a) -> 0 < a < brk w1) -> heap w !! brk w = None ->
  stays X p c w w' c'.
Proof.
  intros Hi [A1 A2 A3 A4 A5 A6 A7] Hfl Hst Hc Hh Hb Hf Hl Hcn Hr Hs Hk He Hbr Hn. split.
  - eapply inv_intro; [exact Hi | done | done | done | done | done | lia | | congruence | ].
    + intros a. rewrite Hh, Hb. apply Hbr.
    + apply (silent_new X w _ h); [apply Hi | congruence | congruence | lia | congruence].
  - unfold flags_of in Hfl. injection Hfl as ? ? ? ? ? ? ? ?.
    split; [split | ]; rewrite ?Hr, ?Hh, ?A2, ?Hl, ?A6, ?Hcn, ?A7; try done; try (by auto); try congruence; try lia.
    + intros a Ha Hd. rewrite lookup_insert_ne; [done | lia].
    + intros a h1 h2 Ha Hh1. rewrite lookup_insert_ne by lia. congruence.
Qed.

Lemma exact_same c c' w w' :
  exact E closes c w -> finalized c' = finalized c -> interest w' = interest w ->
  (forall f, 0 <= f -> wanted (heap w') (fdmon_list c') f = wanted (heap w) (fdmon_list c) f) ->
  exact E closes c' w'.
Proof. intros He Hf Hi Hw Hcalm Hnc Hfin f Hf0. rewrite Hi, Hw by done. apply He; congruence. Qed.

(** [aloe_evb2_add_oneshot_timer], from any thread. *)
Lemma add_oneshot_timer_ok X p c w ms cb ud :
  inv X p c w -> sane_ms ms -> (cb = AsyncHandler -> ud = p) ->
  wp (aloe_evb2_add_oneshot_timer E p ms cb ud) w (fun r w' => exists c', stays X p c w w' c').
Proof.
  intros Hi Hms Hcb. unfold aloe_evb2_add_oneshot_timer. rewrite (inv_p _ _ _ _ _ _ Hi). cbn [orb].
  destruct (match cb with NoCb => true | _ => false end || (ms =? INFINITE)) eqn:Hg.
  { apply ewp_ret. exists c. by apply stays_refl. }
  apply orb_false_iff in Hg as [Hg1 Hg2%Z.eqb_neq].
  eapply (wp_register X p c w cb ud FD_TIMER ms 0 EVB2_FLAG_ONESHOT); [done | done | | ].
  { intros w' Hsm Hint. exists c. by apply same_mem_stays. }
  intros w1 Hal. set (h := fresh_handle p cb ud FD_TIMER ms 0 EVB2_FLAG_ONESHOT (clock E (n_clock w))) in *.
  assert (Hok : hok p h).
  { split; cbn; auto; [by intros -> | unfold FD_TIMER; lia | ]. apply deadline_max; [done | apply (proj1 Esane)]. }
  destruct (allocated_new _ _ _ _ _ _ Hi Hal Hok) as (Hs & Hk & Hbr & Hnew).
  pose proof Hal as [A1 A2 A3 A4 A5 A6 A7]. assert (Hc1 : ctx w1 = Some (p, c)) by (rewrite A1; apply Hi).
  apply ewp_bind. eapply wp_lock; [done | apply Hi | ]. apply ewp_bind. eapply wp_deref; [done | ].
  cbn [stopping finalized set_locked]. destruct (stopping c || finalized c) eqn:Hst.
  { apply ewp_bind. eapply wp_ctx_upd; [done | ]. rewrite relock0 by apply Hi.
    apply ewp_bind, wp_free; [cbn; rewrite A2, lookup_insert_eq; eauto | ]. apply ewp_ret. exists c.
    assert (Hback : delete (brk w) (heap w1) = heap w) by (rewrite A2; by apply delete_insert_id).
    split.
    - eapply inv_intro; [exact Hi | done | done | ..]; cbn; rewrite ?Hback, ?A3, ?A5; try done; try lia.
      + apply Hi. + apply Hi.
      + intros Hcalm Hnc Hfin f Hf. cbn. rewrite ?Hback, A4. by apply Hi.
      + intros a Ha. pose proof (i_brk _ _ _ _ _ _ Hi a Ha). lia.
      + eapply silent_same; [apply Hi | done | done | cbn; lia | done].
    - split; [split | ]; cbn; rewrite ?Hback, ?A3, ?A6, ?A7; try done; try (by auto); [lia | intros; congruence]. }
  apply orb_false_iff in Hst as [Hst Hfin].
  apply ewp_bind. eapply (wp_qent_insert _ _ _ _ X); [done | | done | ].
  { eapply shape_lists; [ | exact Hs]. done. }
  unfold evb2_wake. rewrite (inv_p _ _ _ _ _ _ Hi). apply ewp_bind, ewp_bind. eapply wp_deref; [done | ].
  assert (Hend : forall w2, same_mem (set_ctx (Some (p, linked Async (brk w) (set_locked true c))) w1) w2 ->
    interest w2 = interest w1 ->
    wp (unlock p;; ret (brk w)) w2 (fun r w' => exists c', stays X p c w w' c')).
  { intros w2 [S1 S2 S3 S4 S5 S6 S7 S8] Hint. apply ewp_bind. eapply wp_ctx_upd; [exact S1 | ]. apply ewp_ret.
    exists (linked Async (brk w) c).
    replace (set_locked false (linked Async (brk w) (set_locked true c))) with (linked Async (brk w) c)
      by (pose proof (i_lock _ _ _ _ _ _ Hi) as Hl; destruct c; cbn in *; by subst).
    cbn in S2, S3, S4, S5, S8.
    eapply registered; [exact Hi | exact Hal | by destruct c | done | done | cbn; congruence.. | by destruct c
      | | | | done | done]; cbn [heap set_ctx]; rewrite ?S2.
    - by apply shape_link.
    - eapply kinds_queue; [done | by rewrite A2, lookup_insert_eq | auto].
    - eapply exact_same; [apply Hi | by destruct c | cbn; congruence | ]. intros f Hf. cbn. rewrite S2, A2.
      replace (fdmon_list (linked Async (brk w) c)) with (fdmon_list c) by (by destruct c).
      apply wanted_ext. intros b Hb. rewrite lookup_insert_ne; [done | ]. intros <-.
      destruct (inv_alive _ _ _ _ _ _ Fdmon Hi _ Hb). congruence. }
  destruct (pipe1 (linked Async (brk w) (set_locked true c)) <? 0).
  - apply ewp_ret. by apply Hend.
  - apply ewp_modify. by apply Hend.
Qed.

(** The rest of [aloe_evb2_add_fd]: the deadline. *)
Lemma wp_arm_new p a c h w1 X (Q : Z -> world -> Prop) :
  ctx w1 = Some (p, c) -> heap w1 !! a = Some h -> shape c (heap w1) X \/ shape c (heap w1) (a :: X) ->
  a ∉ timer_list c ->
  (h_timeout_at h = UINT64_MAX -> Q a w1) ->
  (forall l1 l2, h_timeout_at h <> UINT64_MAX -> timer_list c = l1 ++ l2 ->
    (forall b, b ∈ l1 -> at_of (heap w1) b <= at_of (heap w1) a) ->
    (forall b, b ∈ l2 -> at_of (heap w1) a <= at_of (heap w1) b) ->
    Q a (set_ctx (Some (p, set_list Timer (l1 ++ a :: l2) c)) w1)) ->
  wp (do h <- hget a;
      (if negb (h_timeout_at h =? UINT64_MAX) then timer_insert p a else ret tt);; ret a) w1 Q.
Proof.
  intros Hc Hh Hs Hn Hmax Harm. apply ewp_bind. eapply wp_hget; [done | ].
  destruct (Z.eqb_spec (h_timeout_at h) UINT64_MAX); cbn [negb].
  - apply ewp_bind, ewp_ret, ewp_ret. auto.
  - assert (Hs' : alive (heap w1) (timer_list c) /\ in_order (heap w1) (timer_list c)).
    { destruct Hs as [Hs | Hs]; (split; [apply (shape_alive _ _ _ Timer Hs) | apply Hs]). }
    apply ewp_bind. eapply wp_timer_insert; [done | done | apply Hs' | apply Hs' | done | ].
    intros l1 l2 El H1 H2. apply ewp_ret. auto.
Qed.

Definition added (w : world) (c : evb2) (h : handle) (r : Z) (w' : world) (c' : evb2) : Prop :=
  r = 0 \/ r = brk w /\ heap w' !! r = Some h /\ stopping c = false /\ finalized c = false /\
    (0 <= h_fd h -> fdmon_list c' = fdmon_list c ++ [r]) /\
    (h_timeout_at h <> UINT64_MAX -> r ∈ timer_list c').

Lemma old_list X p c w l : inv X p c w -> brk w ∉ get_list l c.
Proof.
  intros Hi Hx. destruct (inv_alive _ _ _ _ _ _ l Hi _ Hx) as [? ?].
  pose proof (i_brk _ _ _ _ _ _ Hi (brk w) ltac:(eauto)). lia.
Qed.

(** A timer: no descriptor to watch. *)
Lemma add_timer_tail X p c w h w1 :
  inv X p c w -> allocated w h w1 -> hok p h -> h_fd h = -1 -> stopping c = false -> finalized c = false ->
  wp (do h <- hget (brk w);
      (if negb (h_timeout_at h =? UINT64_MAX) then timer_insert p (brk w) else ret tt);; ret (brk w)) w1
    (fun r w' => exists c', stays X p c w w' c' /\ added w c h r w' c').
Proof.
  intros Hi Hal Hok Hfd Hst Hfin.
  destruct (allocated_new _ _ _ _ _ _ Hi Hal Hok) as (Hs & Hk & Hbr & Hnew).
  pose proof Hal as [A1 A2 A3 A4 A5 A6 A7]. assert (Hc1 : ctx w1 = Some (p, c)) by (rewrite A1; apply Hi).
  assert (Hh1 : heap w1 !! brk w = Some h) by (by rewrite A2, lookup_insert_eq).
  eapply wp_arm_new; [done | done | by right | apply (old_list _ _ _ _ Timer Hi) | | ].
  { intros Hmax. by destruct (ok_timer _ _ Hok Hfd (proj1 (ok_at _ _ Hok) Hmax)). }
  intros l1 l2 Hne El H1 H2. exists (set_list Timer (l1 ++ brk w :: l2) c). split.
  - eapply registered; [exact Hi | exact Hal | by destruct c | done | done | done.. | by destruct c
      | | | | done | done]; cbn [heap set_ctx].
    + by eapply shape_arm_X.
    + eapply kinds_arm; [done | done | by left | done].
    + eapply exact_same; [apply Hi | by destruct c | done | ]. intros f Hf. cbn.
      replace (fdmon_list (set_list Timer _ c)) with (fdmon_list c) by (by destruct c). rewrite A2.
      apply wanted_ext. intros b Hb. rewrite lookup_insert_ne; [done | ]. intros <-.
      by apply (old_list _ _ _ _ Fdmon Hi).
  - right. split_and!; [done | done | done | done | lia | ]. intros _. destruct c; cbn. set_solver.
Qed.

(** What the kernel was told of a new descriptor. *)
Lemma exact_watch X p c w h w1 w2 c' :
  inv X p c w -> allocated w h w1 -> 0 <= h_fd h -> fdmon_list c' = fdmon_list c ++ [brk w] ->
  finalized c' = finalized c -> heap w2 = heap w1 ->
  (calm E -> forall f, 0 <= f -> interest w2 !! f =
    if decide (f = h_fd h) then wanted (heap w1) (fdmon_list c ++ [brk w]) (h_fd h) else interest w1 !! f) ->
  exact E closes c' w2.
Proof.
  intros Hi [A1 A2 A3 A4 A5 A6 A7] Hfd Hl Hfin Hh Hint Hcalm Hnc Hf f Hf0. rewrite Hint, Hl, Hh by done.
  destruct (decide (f = h_fd h)) as [-> | Hne]; [done | ]. rewrite A4, (i_exact _ _ _ _ _ _ Hi) by (congruence || done).
  rewrite (wanted_snoc _ (brk w) h) by (done || by rewrite A2, lookup_insert_eq). rewrite A2. symmetry.
  apply wanted_ext. intros b Hb. rewrite lookup_insert_ne; [done | ]. intros <-.
  by apply (old_list _ _ _ _ Fdmon Hi).
Qed.

(** The kernel refused: the handle is taken back. *)
Lemma add_fd_undo X p c w h w1 w2 :
  inv X p c w -> allocated w h w1 -> hok p h -> same_mem (set_ctx (Some (p, linked Fdmon (brk w) c)) w1) w2 ->
  ~ calm E ->
  wp (handle_detach p (brk w);; free (brk w);; ret 0) w2
    (fun r w' => exists c', stays X p c w w' c' /\ added w c h r w' c').
Proof.
  intros Hi Hal Hok Hsm Hnc. destruct (allocated_new _ _ _ _ _ _ Hi Hal Hok) as (Hs & Hk & Hbr & Hnew).
  pose proof Hal as [A1 A2 A3 A4 A5 A6 A7]. pose proof Hsm as [S1 S2 S3 S4 S5 S6 S7 S8]. cbn in S1, S2, S3, S4, S5, S8.
  assert (Hsl : shape (linked Fdmon (brk w) c) (heap w2) X) by (rewrite S2; by apply shape_link).
  unfold handle_detach.
  apply ewp_bind, ewp_bind. eapply wp_qent_remove; [done | apply (shape_alive _ _ _ Fdmon Hsl) |
    apply (shape_nodup _ _ _ Fdmon Hsl) | ].
  apply ewp_bind. eapply wp_qent_remove; [done | | | ].
  { destruct c; apply (shape_alive _ _ _ Timer Hsl). } { destruct c; apply (shape_nodup _ _ _ Timer Hsl). }
  apply ewp_bind. eapply wp_qent_remove; [done | | | ].
  { destruct c; apply (shape_alive _ _ _ Ready Hsl). } { destruct c; apply (shape_nodup _ _ _ Ready Hsl). }
  apply ewp_ret. apply ewp_bind, wp_free; [cbn; rewrite S2, A2, lookup_insert_eq; eauto | ]. apply ewp_ret.
  pose proof (old_list _ _ _ _ Fdmon Hi) as Nf. pose proof (old_list _ _ _ _ Timer Hi) as Nt.
  pose proof (old_list _ _ _ _ Ready Hi) as Nr. cbn [get_list] in Nf, Nt, Nr.
  match goal with |- context [set_heap ?hp (set_ctx (Some (p, ?c')) _)] => assert (Hc' : c' = c) end.
  { unfold linked in *. clear -Nf Nt Nr. lists c.
    rewrite (without_id (brk w) ct), (without_id (brk w) cr) by done.
    f_equal. unfold without. rewrite filter_app, filter_cons_False by naive_solver. cbn.
    rewrite app_nil_r. by apply without_id. }
  rewrite Hc'. exists c.
  assert (Hback : delete (brk w) (heap w2) = heap w) by (rewrite S2, A2; by apply delete_insert_id).
  split; [ | by left]. split.
  - eapply inv_intro; [exact Hi | done | done | ..]; cbn; rewrite ?Hback, ?S3, ?A3, ?S4, ?A5; try done; try lia.
    + apply Hi. + apply Hi. + by intros Hcalm.
    + intros a Ha. pose proof (i_brk _ _ _ _ _ _ Hi a Ha). lia.
    + eapply silent_same; [apply Hi | cbn; congruence | cbn; congruence | cbn; lia | done].
  - split; [split | ]; cbn; rewrite ?Hback, ?S3, ?A3, ?S5, ?A6, ?S8, ?A7; try done; try (by auto); [lia | intros; congruence].
Qed.

Lemma add_fd_watch X p c w h w1 :
  inv X p c w -> allocated w h w1 -> hok p h -> 0 <= h_fd h -> stopping c = false -> finalized c = false ->
  wp (do r <- (qent_insert_tail p Fdmon (brk w);; epoll_refresh E p (h_fd h));
      if negb (r =? 0) then handle_detach p (brk w);; free (brk w);; ret 0 else
      do h <- hget (brk w);
      (if negb (h_timeout_at h =? UINT64_MAX) then timer_insert p (brk w) else ret tt);; ret (brk w)) w1
    (fun r w' => exists c', stays X p c w w' c' /\ added w c h r w' c').
Proof.
  intros Hi Hal Hok Hfd Hst Hfin.
  destruct (allocated_new _ _ _ _ _ _ Hi Hal Hok) as (Hs & Hk & Hbr & Hnew).
  pose proof Hal as [A1 A2 A3 A4 A5 A6 A7]. assert (Hc1 : ctx w1 = Some (p, c)) by (rewrite A1; apply Hi).
  assert (Hh1 : heap w1 !! brk w = Some h) by (by rewrite A2, lookup_insert_eq).
  apply ewp_bind, ewp_bind. eapply (wp_qent_insert _ _ _ _ X); [done | done | done | ].
  assert (Hsl : shape (linked Fdmon (brk w) c) (heap w1) X) by (by apply shape_link).
  eapply wp_epoll_refresh; [done | | apply (shape_alive _ _ _ Fdmon Hsl) | | ].
  { pose proof (i_p _ _ _ _ _ _ Hi). lia. } { pose proof (i_epfd _ _ _ _ _ _ Hi). by destruct c. }
  intros r w2 Hsm Hint. destruct (Z.eqb_spec r 0) as [-> | Hr]; cbn [negb].
  2: { eapply add_fd_undo; [done | done | done | done | ]. intros Hcalm. by destruct (Hint Hcalm). }
  pose proof Hsm as [S1 S2 S3 S4 S5 S6 S7 S8]. cbn in S1, S2, S3, S4, S5, S8.
  assert (Hint' : calm E -> forall f, 0 <= f -> interest w2 !! f =
    if decide (f = h_fd h) then wanted (heap w1) (fdmon_list c ++ [brk w]) (h_fd h) else interest w1 !! f).
  { intros Hcalm f Hf. destruct (Hint Hcalm) as [_ ->]; [ | done]. by destruct c. }
  assert (Hadd : forall c', fdmon_list c' = fdmon_list c ++ [brk w] ->
    (h_timeout_at h <> UINT64_MAX -> brk w ∈ timer_list c') -> forall w', heap w' = heap w2 ->
    added w c h (brk w) w' c').
  { intros c' Hf Ht w' Hw. right. split_and!; try done. by rewrite Hw, S2. }
  eapply wp_arm_new; [done | by rewrite S2 | left; by rewrite S2 | | | ].
  { replace (timer_list (linked Fdmon (brk w) c)) with (timer_list c) by (by destruct c).
    apply (old_list _ _ _ _ Timer Hi). }
  - intros Hmax. exists (linked Fdmon (brk w) c). split; [ | apply Hadd; [by destruct c | done | done]].
    eapply registered; [exact Hi | exact Hal | by destruct c | done | done | congruence..
      | by destruct c | | | | done | done]; rewrite ?S2.
    + done.
    + by eapply kinds_watch.
    + eapply exact_watch; [done | done | done | by destruct c | by destruct c | done | done].
  - intros l1 l2 Hne El H1 H2. exists (set_list Timer (l1 ++ brk w :: l2) (linked Fdmon (brk w) c)).
    split; [ | apply Hadd; [by destruct c | | done]; intros _; destruct c; cbn; set_solver].
    rewrite S2 in H1, H2.
    eapply registered; [exact Hi | exact Hal | by destruct c | done | done | cbn; congruence..
      | by destruct c | | | | done | done]; cbn [heap set_ctx]; rewrite ?S2.
    + apply shape_arm; [done | destruct c; cbn; set_solver | destruct c; apply (old_list _ _ _ _ Timer Hi) | done..].
    + eapply kinds_watch_arm; [done | done | done | by destruct c].
    + eapply exact_watch; [done | done | done | by destruct c | by destruct c | done | done].
Qed.

Lemma add_fd_ok X p c w fd ev ms cb ud :
  inv X p c w -> sane_ms ms -> (cb = AsyncHandler -> ud = p) ->
  wp (aloe_evb2_add_fd E p fd ev ms cb ud) w (fun r w' => exists c', stays X p c w w' c' /\
    added w c (fresh_handle p cb ud fd ms ev 0 (clock E (n_clock w))) r w' c').
Proof.
  intros Hi Hms Hcb. unfold aloe_evb2_add_fd. rewrite (inv_p _ _ _ _ _ _ Hi).
  assert (Hsame : wp (ret 0) w (fun r w' => exists c', stays X p c w w' c' /\
    added w c (fresh_handle p cb ud fd ms ev 0 (clock E (n_clock w))) r w' c')).
  { apply ewp_ret. exists c. split; [by apply stays_refl | by left]. }
  apply ewp_bind. eapply wp_deref; [apply Hi | ].
  destruct (stopping c || finalized c || match cb with NoCb => true | _ => false end || (fd <? FD_TIMER)) eqn:Hg;
    [apply Hsame | ].
  rewrite !orb_false_iff in Hg. destruct Hg as [[[Hst Hfin] Hg1] Hfd%Z.ltb_ge].
  destruct ((fd =? FD_TIMER) && (ms =? INFINITE)) eqn:Ht; [apply Hsame | ].
  assert (Ht' : fd = -1 -> ms <> INFINITE).
  { intros -> ->. by vm_compute in Ht. }
  set (h := fresh_handle p cb ud fd ms ev 0 (clock E (n_clock w))) in *.
  assert (Hok : hok p h).
  { split; cbn; auto; [by intros -> | ]. apply deadline_max; [done | apply (proj1 Esane)]. }
  eapply (wp_register X p c w cb ud fd ms ev 0); [done | done | | ].
  { intros w' Hsm Hint. exists c. split; [by apply same_mem_stays | by left]. }
  intros w1 Hal. destruct (Z.leb_spec 0 fd) as [Hpos | Hneg].
  - eapply (add_fd_watch X p c w h w1); done.
  - apply ewp_bind, ewp_ret. cbn [negb Z.eqb]. apply (add_timer_tail X p c w h w1); try done.
    cbn. unfold FD_TIMER in Hfd. lia.
Qed.
End Register.
