(* ===== verification/Evb2Safe.v ===== *)
(** Evb2Safe: the event loop as a whole.  Callbacks are arbitrary clients; the
    calls they make are the quiet operations of Evb2Ops, so what they can do to
    the loop is bounded, and teardown, the timers of other threads and the
    dispatch loop are shown to keep the invariant whatever they do. *)

From stdpp Require Import gmap sorting.
From S2P Require Import Prelude Eff Evb2 Evb2Inv Evb2Ops.

Open Scope eff_scope.

(* ------------------------------------------------------------------ *)
(** ** Clients that ask for sane timeouts *)

Definition tidy_call (closes : Prop) (c : call) : Prop :=
  match c with
  | AddFd _ _ _ ms _ _ | AddOneshotFd _ _ _ ms _ _ | AddTimer _ ms _ _
  | AddOneshotTimer _ ms _ _ | SetTimeout _ _ ms => sane_ms ms
  | CloseFd _ => closes
  | Cancel _ _ | CancelFd _ _ | RunOnce _ _ | Destroy _ => True
  end.

Inductive tidy (closes : Prop) : prog -> Prop :=
  | tidy_stop : tidy closes Stop
  | tidy_then c k : tidy_call closes c -> (forall r, tidy closes (k r)) -> tidy closes (Call c k).

Record tidy_env (closes : Prop) (E : env) : Prop := TidyEnv {
  te_sane : sane_env E;
  te_behave : forall n c fd fl ud, tidy closes (behave E n c fd fl ud);
  te_remote : forall n t ms cb ud, (ms, cb, ud) ∈ remote (wait E n t) -> sane_ms ms /\ cb_ok cb = true }.

(** A step of the loop: the invariant, and the callbacks made.  Each is made
    for a handle that is allocated at the time and whose callback is not
    running; a one-shot handle gets one and is gone. *)
Definition calls (a : Z) (es : list entry) : nat := length (filter (fun e => e_h e = a) es).

Record made (X : list Z) (w w' : world) (es : list entry) : Prop := Made {
  m_log : log w' = log w ++ es;
  m_src : forall e, e ∈ es -> (is_Some (heap w !! e_h e) \/ brk w <= e_h e) /\ e_h e ∉ X;
  m_once : forall a h, heap w !! a = Some h -> has (h_flag2 h) EVB2_FLAG_ONESHOT = true ->
    (calls a es <= 1)%nat /\ ((0 < calls a es)%nat -> heap w' !! a = None) }.

Lemma calls_app a es es' : calls a (es ++ es') = (calls a es + calls a es')%nat.
Proof. unfold calls. by rewrite filter_app, length_app. Qed.

Lemma calls_none a es : (forall e, e ∈ es -> e_h e <> a) -> calls a es = O.
Proof.
  unfold calls. induction es as [|e es IH]; [done | ]. intros H. rewrite filter_cons_False by (apply H; by left).
  apply IH. intros e' He. apply H. by right.
Qed.

Lemma made_nil X w w' : log w' = log w -> made X w w' [].
Proof.
  intros Hl. split; [by rewrite app_nil_r | by intros e ?%elem_of_nil | ]. intros a h _ _. unfold calls. cbn. lia.
Qed.

(** The same world with another record of callbacks. *)
Definition set_log (l : list entry) (w : world) : world :=
  World (ctx w) (heap w) (brk w) (interest w) (pipe w) (kfds w) (n_clock w) (n_sys w) (n_wait w) (n_cb w) l (cancels w).

(** Sequencing is associative. *)
Lemma wp_assoc3 {A B C D : Type} (m1 : M A) (m2 : M B) (m3 : M C) (k : M D) w Q :
  wp ((m1;; m2;; m3);; k) w Q -> wp (m1;; m2;; m3;; k) w Q.
Proof.
  Transparent wp. unfold wp, bind. destruct (m1 w) as [? s | | | ]; [ | done..].
  destruct (m2 s) as [? s2 | | | ]; [ | done..]. by destruct (m3 s2).
Qed.
#[global] Opaque wp.

Section Safe.
Context (closes : Prop) (E : env) (Etidy : tidy_env closes E).
Notation inv := (inv E closes).
Notation stays := (stays E closes).

(** What never changes of a handle while it lives, and what only grows. *)
Definition core0 (h : handle) : cbk * Z * Z * bool * bool :=
  (h_cb h, h_ud h, h_fd h, has (h_flag2 h) EVB2_FLAG_ONESHOT, has (h_flag2 h) EVB2_FLAG_INTERNAL).

Record older (w w' : world) : Prop := Older {
  o_brk : brk w <= brk w';
  o_canc : cancels w `prefix_of` cancels w';
  o_dead : forall a, a < brk w -> heap w !! a = None -> heap w' !! a = None;
  o_core : forall a h h', a < brk w -> heap w !! a = Some h -> heap w' !! a = Some h' -> core0 h' = core0 h }.

Lemma evolves_older w c w' c' : evolves w c w' c' -> older w w'.
Proof.
  intros []. split; [done | done | done | ]. intros a h h' Ha H1 H2.
  pose proof (q_core a h h' Ha H1 H2) as Hc. unfold core in Hc. unfold core0. congruence.
Qed.

Lemma older_refl w : older w w.
Proof. split; [done | done | done | ]. intros. congruence. Qed.

Lemma older_trans w w1 w2 : older w w1 -> older w1 w2 -> older w w2.
Proof.
  intros [B1 P1 D1 C1] [B2 P2 D2 C2]. split; [lia | by etrans | | ].
  - intros a Ha Hd. apply D2; [lia | by apply D1].
  - intros a h h2 Ha Hh Hh2. destruct (heap w1 !! a) as [h1|] eqn:E1.
    + rewrite (C2 a h1 h2) by (done || lia). by apply (C1 a).
    + rewrite D2 in Hh2 by (done || lia). done.
Qed.

Lemma made_trans X w w1 w2 es1 es2 :
  (forall a, is_Some (heap w !! a) -> a < brk w) -> older w w1 -> older w1 w2 ->
  made X w w1 es1 -> made X w1 w2 es2 -> made X w w2 (es1 ++ es2).
Proof.
  intros Hlt [B1 _ D1 C1] [B2 _ D2 C2] [L1 S1 O1] [L2 S2 O2]. split.
  - by rewrite L2, L1, app_assoc.
  - intros e [H1 | H2]%elem_of_app; [auto | ]. destruct (S2 e H2) as [Hsrc Hx]. split; [ | done].
    destruct (decide (brk w <= e_h e)); [by right | ]. left.
    destruct (heap w !! e_h e) eqn:Eh; [eauto | ]. destruct Hsrc as [[h Hh] | ?]; [ | lia].
    rewrite D1 in Hh by (done || lia). done.
  - intros a h Hh Ho. rewrite calls_app. destruct (O1 a h Hh Ho) as [N1 K1].
    assert (Ha : a < brk w) by (apply Hlt; eauto).
    destruct (heap w1 !! a) as [h1|] eqn:Eh1.
    + assert (Hc1 : core0 h1 = core0 h) by (by apply (C1 a)).
      assert (Ho1 : has (h_flag2 h1) EVB2_FLAG_ONESHOT = true) by (unfold core0 in Hc1; congruence).
      destruct (O2 a h1 Eh1 Ho1) as [N2 K2].
      destruct (calls a es1) eqn:E1; [ | specialize (K1 ltac:(lia)); congruence]. cbn [Nat.add]. auto.
    + rewrite (calls_none a es2); [split; [lia | intros _; apply D2; [lia | done]] | ].
      intros e Hin <-. destruct (S2 e Hin) as [[[? ?] | ?] _]; [congruence | lia].
Qed.

Definition turn (X : list Z) (p : Z) (c : evb2) (w w' : world) (c' : evb2) : Prop :=
  inv X p c' w' /\ evolves w c w' c' /\ exists es, made X w w' es.

Lemma turn_refl X p c w : inv X p c w -> turn X p c w w c.
Proof. intros Hi. split_and!; [done | apply evolves_refl | ]. exists []. by apply made_nil. Qed.

Lemma turn_trans X p c w w1 c1 w2 c2 :
  inv X p c w -> turn X p c w w1 c1 -> turn X p c1 w1 w2 c2 -> turn X p c w w2 c2.
Proof.
  intros Hi (I1 & E1 & es1 & M1) (I2 & E2 & es2 & M2). split_and!; [done | by eapply evolves_trans | ].
  exists (es1 ++ es2). eapply made_trans; [ | by eapply evolves_older.. | done | done].
  intros a Ha. by apply (i_brk _ _ _ _ _ _ Hi).
Qed.

Lemma stays_turn X p c w w' c' : stays X p c w w' c' -> turn X p c w w' c'.
Proof. intros (? & ? & ?). split_and!; [done.. | ]. exists []. by apply made_nil. Qed.

(* ---------------------------------------------------------------- *)
(** *** Calls made from a callback *)

Lemma ctx_ok_inv X p c w q : inv X p c w -> ctx_ok q w = true -> q = 0 \/ q = p.
Proof. intros Hi. unfold ctx_ok. rewrite (i_ctx _ _ _ _ _ _ Hi), orb_true_iff, !Z.eqb_eq. done. Qed.

Lemma handle_ok_inv a w : handle_ok a w = true -> a = 0 \/ is_Some (heap w !! a).
Proof. unfold handle_ok. by rewrite orb_true_iff, Z.eqb_eq, bool_decide_eq_true. Qed.

Lemma cb_ok_async cb (ud p : Z) : cb_ok cb = true -> cb = AsyncHandler -> ud = p.
Proof. by destruct cb. Qed.

Lemma null_ret X p c w (r : Z) : inv X p c w -> wp (ret r) w (fun _ w' => exists c', stays X p c w w' c').
Proof. intros. apply ewp_ret. exists c. by apply stays_refl. Qed.

(** The flags of the loop's own in a handle are not part of the invariant, but
    for the mark of a dead one. *)
Lemma dead_lor h m : dead h -> dead (set_flag2 (Z.lor (h_flag2 h) m) h).
Proof.
  unfold dead, has. cbn [h_flag2 set_flag2]. rewrite Z.land_lor_distr_l, !negb_true_iff, !Z.eqb_neq.
  intros Hd Hz%Z.lor_eq_0_iff. tauto.
Qed.

Lemma inv_flag2 X p c w a h f :
  inv X p c w -> heap w !! a = Some h -> (dead h -> dead (set_flag2 f h)) ->
  inv X p c (set_heap (<[a := set_flag2 f h]> (heap w)) w).
Proof.
  intros Hi Hh Hd. pose proof (k_hok _ _ _ (i_kinds _ _ _ _ _ _ Hi) _ _ Hh) as Hok.
  eapply inv_intro; [exact Hi | apply Hi | done | ..]; cbn.
  - eapply shape_upd; [apply Hi | done | by left].
  - eapply kinds_upd; [apply Hi | done | by destruct Hok | done | ].
    intros Hm Hne. by eapply (k_arm _ _ _ (i_kinds _ _ _ _ _ _ Hi)).
  - eapply exact_same; [apply Hi | done | done | ]. intros g Hf. cbn. by eapply wanted_upd.
  - done.
  - intros b [hb [[<- _] | [_ Hb]]%lookup_insert_Some]; apply Hi; eauto.
  - done.
  - by eapply silent_upd; [apply Hi | done..].
Qed.

(** A new handle can be made one-shot. *)
Lemma add_oneshot_fd_ok X p c w fd ev ms cb ud :
  inv X p c w -> sane_ms ms -> (cb = AsyncHandler -> ud = p) ->
  wp (aloe_evb2_add_oneshot_fd E p fd ev ms cb ud) w (fun r w' => exists c', stays X p c w w' c').
Proof.
  intros Hi Hms Hcb. unfold aloe_evb2_add_oneshot_fd. apply ewp_bind.
  eapply ewp_mono; [by apply (add_fd_ok E closes (te_sane _ _ Etidy) X p c w) | ].
  intros r w1 (c1 & Hst & Hadd). destruct (Z.eqb_spec r 0) as [-> | Hr]; cbn [negb].
  { apply ewp_bind, ewp_ret, ewp_ret. eauto. }
  destruct Hadd as [? | (-> & Hh & _)]; [done | ]. apply ewp_bind. eapply wp_hupd; [done | ].
  apply ewp_ret. exists c1. destruct Hst as (Hi1 & Hev & Hlog).
  match type of Hh with _ = Some ?h => set (h0 := h) in * end.
  set (h1 := set_flag2 _ h0).
  assert (Hold : forall a, a < brk w -> <[brk w := h1]> (heap w1) !! a = heap w1 !! a)
    by (intros a Ha; apply lookup_insert_ne; lia).
  split_and!; [ | | done].
  - apply inv_flag2; [done | done | apply dead_lor].
  - destruct Hev. split; cbn; auto.
    + intros a Ha. rewrite Hold by done. auto.
    + intros a h h' Ha Hh0. rewrite Hold by done. eauto.
Qed.

(** Every call but a pass of the loop and its destruction, from anywhere. *)
Lemma quiet_api inv_k X p c w cl :
  inv X p c w -> tidy_call closes cl ->
  match cl with RunOnce _ _ | Destroy _ => False | _ => True end ->
  wp (api E inv_k cl) w (fun _ w' => exists c', stays X p c w w' c').
Proof.
  intros Hi Ht Hcl. pose proof (te_sane _ _ Etidy) as Hsane.
  unfold api. apply ewp_bind. change (wp get w ?Q) with (wp (gets id) w Q). apply wp_gets. unfold id.
  destruct (call_ok cl w) eqn:Hok; [cbn [negb] | by apply wp_misuse].
  destruct cl as [q fd ev ms cb ud|q fd ev ms cb ud|q ms cb ud|q ms cb ud|q a|q fd|q a ms|q ms|q|fd];
    try done; cbn [call_ok] in Hok; try apply andb_true_iff in Hok as [Hok Hok2];
    try (destruct (ctx_ok_inv _ _ _ _ _ Hi Hok) as [-> | ->]; [by apply null_ret with (p := p) | ]).
  - eapply ewp_mono; [by apply (add_fd_ok E closes Hsane X p c w), (cb_ok_async _ _ _ Hok2) | ].
    intros r w' (c' & ? & _). eauto.
  - by apply add_oneshot_fd_ok, (cb_ok_async _ _ _ Hok2).
  - eapply ewp_mono; [by apply (add_fd_ok E closes Hsane X p c w), (cb_ok_async _ _ _ Hok2) | ].
    intros r w' (c' & ? & _). eauto.
  - by apply (add_oneshot_timer_ok E closes Hsane X p c w), (cb_ok_async _ _ _ Hok2).
  - destruct (handle_ok_inv _ _ Hok2) as [-> | Ha].
    { unfold aloe_evb2_cancel. rewrite orb_true_r. by eapply null_ret. }
    eapply ewp_mono; [by apply (cancel_ok E closes X p c w) | ]. intros r w' (c' & ? & _). eauto.
  - by apply cancel_fd_ok.
  - destruct (handle_ok_inv _ _ Hok2) as [-> | Ha].
    { unfold aloe_evb2_set_timeout. rewrite orb_true_r. by eapply null_ret. }
    by apply (set_timeout_ok E closes Hsane X p c w).
  - apply ewp_bind, ewp_modify, ewp_ret. exists c. split_and!; [ | by destruct (evolves_refl w c) | done].
    eapply inv_intro; [exact Hi | apply Hi | done | apply Hi | apply Hi | | done | apply Hi | done | apply Hi].
    intros _ Hnc. by destruct Hnc.
Qed.

(** The loop being torn down. *)
Definition stop (c : evb2) : evb2 := set_stopping true c.

Lemma inv_stop X p c w w' :
  inv X p c w -> ctx w' = Some (p, stop c) -> heap w' = heap w -> brk w' = brk w -> kfds w' = kfds w ->
  interest w' = interest w -> log w' = log w -> cancels w' = cancels w -> stays X p c w w' (stop c).
Proof.
  intros Hi Hc Hh Hb Hk Hint Hl Hcn. split_and!; [ | | done].
  - split; rewrite ?Hh, ?Hb, ?Hk; try apply Hi; auto.
    + eapply shape_lists; [ | apply Hi]. by destruct c.
    + destruct (i_kinds _ _ _ _ _ _ Hi). by destruct c.
    + eapply exact_same; [apply Hi | by destruct c | done | ]. intros f Hf. by rewrite Hh.
    + eapply silent_same; [apply Hi | done | done | lia | done].
  - split; rewrite ?Hh, ?Hb, ?Hcn; auto; try done; try lia.
    intros a h h' _ H1 H2. congruence.
Qed.

(** In a callback the loop is not re-entered, and its destruction is put off. *)
Lemma nested_api inv_k X p c w cl :
  inv X p c w -> X <> [] -> tidy_call closes cl ->
  wp (api E inv_k cl) w (fun _ w' => exists c', stays X p c w w' c').
Proof.
  intros Hi Hx Ht. pose proof (i_run _ _ _ _ _ _ Hi Hx) as Hrun.
  destruct (match cl with RunOnce _ _ | Destroy _ => true | _ => false end) eqn:Ecl.
  2: { apply quiet_api; [done | done | ]. by destruct cl. }
  unfold api. apply ewp_bind. change (wp get w ?Q) with (wp (gets id) w Q). apply wp_gets. unfold id.
  destruct (call_ok cl w) eqn:Hok; [cbn [negb] | by apply wp_misuse].
  destruct cl as [| | | | | | |q ms|q|]; try done; cbn [call_ok] in Hok;
    (destruct (ctx_ok_inv _ _ _ _ _ Hi Hok) as [-> | ->]; [by eapply null_ret | ]).
  - unfold aloe_evb2_run_once. rewrite (inv_p _ _ _ _ _ _ Hi). apply ewp_bind.
    eapply wp_deref; [apply Hi | ]. rewrite Hrun, !orb_true_r. by eapply null_ret.
  - unfold aloe_evb2_destroy. rewrite (inv_p _ _ _ _ _ _ Hi). apply ewp_bind, ewp_bind.
    eapply wp_lock; [apply Hi | apply Hi | ]. apply ewp_bind. eapply wp_ctx_upd; [done | ].
    apply ewp_bind. eapply wp_deref; [done | ].
    replace (in_run (set_stopping true (set_locked true c))) with true by (by destruct c). cbn [negb].
    apply ewp_bind, ewp_ret, ewp_bind. eapply wp_ctx_upd; [done | ]. unfold evb2_wake.
    rewrite (inv_p _ _ _ _ _ _ Hi). apply ewp_bind, ewp_bind. eapply wp_deref; [done | ].
    replace (set_locked false (set_stopping true (set_locked true c))) with (stop c)
      by (pose proof (i_lock _ _ _ _ _ _ Hi) as Hl; destruct c; cbn in *; by subst).
    destruct (pipe1 (stop c) <? 0).
    + apply ewp_ret, ewp_ret, ewp_ret. exists (stop c). by apply inv_stop.
    + apply ewp_modify, ewp_ret, ewp_ret. exists (stop c). by apply inv_stop.
Qed.

Lemma nested_prog inv_k X p t : forall c w,
  inv X p c w -> X <> [] -> tidy closes t ->
  wp (run_prog E inv_k t) w (fun _ w' => exists c', stays X p c w w' c').
Proof.
  induction t as [|cl k IH]; intros c w Hi Hx Ht; cbn [run_prog].
  { apply ewp_ret. exists c. by apply stays_refl. }
  inversion Ht as [|? ? Hcl Hk]; subst. apply ewp_bind. eapply ewp_mono; [by apply nested_api | ].
  intros r w1 [c1 S1]. eapply ewp_mono; [apply (IH r c1); [apply S1 | done | done] | ].
  intros _ w2 [c2 S2]. exists c2. by eapply stays_trans.
Qed.

(* ---------------------------------------------------------------- *)
(** *** Callbacks *)

(** The record a client callback leaves. *)
Definition own (a : Z) (h : handle) (flag : Z) : list entry :=
  match h_cb h with User c => [Entry a c (h_fd h) flag (h_ud h)] | _ => [] end.

(** What the dispatcher of callbacks guarantees for a handle that has not been
    cancelled: [full] covers the loop's own
    callback with any flag, otherwise only its cancellation. *)
Definition cb_spec (full : bool) (inv_k : Z -> cbk -> Z -> Z -> Z -> M unit) : Prop :=
  forall X p c w a h flag,
    inv (a :: X) p c w -> heap w !! a = Some h -> uncancelled a w ->
    (full = false -> h_cb h = AsyncHandler -> flag = FLAG_CANCELLED) ->
    wp (inv_k a (h_cb h) (h_fd h) flag (h_ud h)) w (fun _ w' => exists c' es,
      inv (a :: X) p c' w' /\ evolves w c w' c' /\ made (a :: X) (set_log (log w ++ own a h flag) w) w' es).

Lemma cb_spec_client inv_k X p c w a h flag cl :
  inv (a :: X) p c w -> heap w !! a = Some h -> uncancelled a w -> h_cb h = User cl ->
  wp (do n <- gets n_cb; modify (tick_cb (Entry a cl (h_fd h) flag (h_ud h)));;
      run_prog E inv_k (behave E n cl (h_fd h) flag (h_ud h))) w (fun _ w' => exists c' es,
    inv (a :: X) p c' w' /\ evolves w c w' c' /\ made (a :: X) (set_log (log w ++ own a h flag) w) w' es).
Proof.
  intros Hi Ha Hu Hcb. apply ewp_bind, wp_gets, ewp_bind, ewp_modify.
  set (w1 := tick_cb _ w). assert (Hi1 : inv (a :: X) p c w1).
  { pose proof (silent_call _ w w1 (Entry a cl (h_fd h) flag (h_ud h)) (i_silent _ _ _ _ _ _ Hi) Hu eq_refl eq_refl eq_refl eq_refl).
    by destruct Hi. }
  eapply ewp_mono; [apply (nested_prog _ (a :: X) p _ c w1 Hi1); [done | apply (te_behave _ _ Etidy)] | ].
  intros _ w' (c' & Hi' & Hev & Hlog). exists c', [].
  split_and!; [done | by destruct Hev | ]. apply made_nil. rewrite Hlog. unfold own. by rewrite Hcb.
Qed.

(** A handle given back. *)
Lemma inv_free a X p c w :
  inv (a :: X) p c w -> notifying c <> Some a -> inv X p c (set_heap (delete a (heap w)) w).
Proof.
  intros Hi Hn. pose proof (i_shape _ _ _ _ _ _ Hi) as Hs.
  split; cbn; try apply Hi.
  - by apply shape_free.
  - apply kinds_free, Hi.
  - eapply exact_same; [apply Hi | done | done | ]. intros f Hf. cbn. apply wanted_ext.
    intros b Hb. rewrite lookup_delete_ne; [done | ]. intros ->.
    destruct (sh_x _ _ _ Hs b) as (?&_); [by left | done].
  - intros _. apply (i_run _ _ _ _ _ _ Hi). done.
  - intros x Hx. apply (i_held _ _ _ _ _ _ Hi). by right.
  - intros x Hx. pose proof (i_noti _ _ _ _ _ _ Hi x Hx) as Hin.
    apply elem_of_cons in Hin as [-> | ?]; done.
  - intros b [hb [_ Hb]%lookup_delete_Some]. apply Hi. eauto.
  - eapply silent_over; [apply Hi | done | done | done | | left]; cbn; [ | apply lookup_delete_eq].
    intros b Hb. by rewrite lookup_delete_ne.
Qed.

Lemma evolves_free a w c : evolves w c (set_heap (delete a (heap w)) w) c.
Proof.
  split; auto; cbn; try done.
  - intros b _ Hb. rewrite lookup_delete_None. auto.
  - intros b h h' _ Hb [_ Hb']%lookup_delete_Some. congruence.
Qed.

Lemma calls_own b a h flag : calls b (own a h flag) = O \/ calls b (own a h flag) = 1%nat /\ b = a.
Proof.
  unfold own. destruct (h_cb h); try by left. unfold calls. rewrite filter_cons. cbn [e_h].
  case_decide as Hd; [right | left]; done.
Qed.

Lemma own_src e a h flag : e ∈ own a h flag -> e_h e = a.
Proof.
  unfold own. destruct (h_cb h); [by intros ?%elem_of_nil.. | ]. by intros ->%list_elem_of_singleton.
Qed.

(** A callback made for a handle that is then freed, seen from outside. *)
Lemma made_freed a h flag X w w1 w' es :
  heap w !! a = Some h -> a ∉ X -> made (a :: X) (set_log (log w ++ own a h flag) w) w1 es ->
  log w' = log w1 -> heap w' = delete a (heap w1) -> made X w w' (own a h flag ++ es).
Proof.
  intros Ha Hx [L S O] Hl Hh. cbn in L, S, O. split.
  - by rewrite Hl, L, app_assoc.
  - intros e [He | He]%elem_of_app.
    + rewrite (own_src _ _ _ _ He). split; [left; eauto | done].
    + destruct (S e He) as [? Hn]. split; [done | ]. rewrite elem_of_cons in Hn. tauto.
  - intros b hb Hb Ho. rewrite calls_app, Hh. destruct (decide (b = a)) as [-> | Hne].
    + rewrite (calls_none a es), lookup_delete_eq; [destruct (calls_own a a h flag) as [-> | [-> _]]; split; auto; lia | ].
      intros e He Heq. apply (S e He). rewrite Heq. by left.
    + rewrite lookup_delete_ne by done. destruct (O b hb Hb Ho) as [N D].
      destruct (calls_own b a h flag) as [-> | [_ ?]]; done.
Qed.

Lemma notify_cancel_ok inv_k X p c w a h :
  cb_spec false inv_k -> inv (a :: X) p c w -> heap w !! a = Some h -> uncancelled a w ->
  notifying c <> Some a ->
  wp (evb2_notify_cancel inv_k a) w (fun _ w' => exists c' es,
    inv X p c' w' /\ evolves w c w' c' /\ heap w' !! a = None /\ made X w w' (own a h FLAG_CANCELLED ++ es)).
Proof.
  intros Hspec Hi Ha Hu Hn. unfold evb2_notify_cancel. apply ewp_bind. eapply wp_hget; [done | ].
  pose proof (k_hok _ _ _ (i_kinds _ _ _ _ _ _ Hi) a h Ha) as Hok.
  assert (Hx : a ∉ X) by (pose proof (sh_nx _ _ _ (i_shape _ _ _ _ _ _ Hi)) as [? _]%NoDup_cons; done).
  apply ewp_bind. replace (match h_cb h with NoCb => ret tt | cb => inv_k a cb (h_fd h) FLAG_CANCELLED (h_ud h) end)
    with (inv_k a (h_cb h) (h_fd h) FLAG_CANCELLED (h_ud h)) by (by destruct (h_cb h) eqn:E1; [destruct (ok_cb _ _ Hok) | ..]).
  eapply ewp_mono; [by eapply (Hspec X p c w a h FLAG_CANCELLED) | ]. intros _ w1 (c1 & es & Hi1 & Hev & Hm).
  assert (Ha1 : is_Some (heap w1 !! a)).
  { apply (shape_alive_X _ _ _ _ (i_shape _ _ _ _ _ _ Hi1)). by left. }
  apply wp_free; [done | ]. exists c1, es. split_and!.
  - apply inv_free; [done | ]. by rewrite (q_not _ _ _ _ Hev).
  - eapply evolves_trans; [done | apply evolves_free].
  - cbn. apply lookup_delete_eq.
  - by eapply made_freed.
Qed.

(** Off its lists, with the loop being torn down. *)
Lemma inv_detach X p c w a :
  inv X p c w -> is_Some (heap w !! a) -> a ∉ X -> stopping c = true -> in_run c = true ->
  exact E closes (unlink a c) (set_ctx (Some (p, unlink a c)) w) ->
  inv (a :: X) p (unlink a c) (set_ctx (Some (p, unlink a c)) w).
Proof.
  intros Hi Ha Hx Hst Hr He. split; cbn; try apply Hi; try done; try (by destruct c); try (destruct c; apply Hi).
  - by apply shape_unlink; [apply Hi | | ].
  - apply kinds_unlink, Hi.
  - intros x Hin. right. by destruct c.
  - intros x Hin. right. apply (i_noti _ _ _ _ _ _ Hi). by destruct c.
  - apply silent_more, Hi.
Qed.

Lemma evolves_unlink a p w c :
  finalized c = true \/ a ∉ ready_list c -> evolves w c (set_ctx (Some (p, unlink a c)) w) (unlink a c).
Proof.
  intros Hr. split; cbn [heap brk set_ctx]; try done; try (by destruct c);
    try (intros; destruct c; apply sublist_without); try (intros; congruence).
  intros Hf b _ Hb. left. destruct Hr as [Hr | Hr]; [congruence | ]. destruct c.
  apply elem_of_without. split; [by intros -> | done].
Qed.

(** One handle of a list cancelled while the loop is torn down. *)
Lemma cancel_one inv_k X p c w a h :
  cb_spec false inv_k -> inv X p c w -> heap w !! a = Some h -> a ∉ X -> notifying c <> Some a ->
  stopping c = true -> in_run c = true -> finalized c = true \/ a ∉ ready_list c ->
  exact E closes (unlink a c) (set_ctx (Some (p, unlink a c)) w) ->
  wp (evb2_notify_cancel inv_k a) (set_ctx (Some (p, unlink a c)) w)
    (fun _ w' => exists c', turn X p c w w' c' /\ evolves (set_ctx (Some (p, unlink a c)) w) (unlink a c) w' c').
Proof.
  intros Hspec Hi Ha Hx Hn Hst Hr Hrd He.
  assert (Hi' : inv (a :: X) p (unlink a c) (set_ctx (Some (p, unlink a c)) w)) by (apply inv_detach; eauto).
  eapply ewp_mono; [eapply (notify_cancel_ok inv_k X p (unlink a c) _ a h); [done | done | done | | by destruct c] | ].
  { eapply silent_uncancelled; [apply (i_silent _ _ _ _ _ _ Hi) | eauto | done]. }
  intros _ w' (c' & es & Hi2 & Hev & Hd & Hm). exists c'. split; [ | done]. split_and!.
  - done.
  - eapply evolves_trans; [by apply evolves_unlink | done].
  - eexists. destruct Hm as [L S O]. by split.
Qed.

Lemma notifying_off X p c w a l : inv X p c w -> a ∈ get_list l c -> notifying c <> Some a /\ a ∉ X.
Proof.
  intros Hi Ha. assert (Hx : a ∉ X).
  { intros Hx. destruct (sh_x _ _ _ (i_shape _ _ _ _ _ _ Hi) a Hx) as (?&?&?&?). by destruct l. }
  split; [ | done]. intros Hn. by apply Hx, (i_noti _ _ _ _ _ _ Hi).
Qed.

Lemma wp_handle_detach X p c w a Q :
  inv X p c w -> a ∉ async_list c -> Q tt (set_ctx (Some (p, unlink a c)) w) -> wp (handle_detach p a) w Q.
Proof.
  intros Hi Ha HQ. unfold handle_detach.
  apply ewp_bind. eapply wp_qent_remove; [apply Hi | apply (inv_alive _ _ _ _ _ _ Fdmon Hi) |
    apply (inv_nodup _ _ _ _ _ _ Fdmon Hi) | ].
  apply ewp_bind. eapply wp_qent_remove; [done | | | ].
  { destruct c. apply (inv_alive _ _ _ _ _ _ Timer Hi). } { destruct c. apply (inv_nodup _ _ _ _ _ _ Timer Hi). }
  apply ewp_bind. eapply wp_qent_remove; [done | | | ].
  { destruct c. apply (inv_alive _ _ _ _ _ _ Ready Hi). } { destruct c. apply (inv_nodup _ _ _ _ _ _ Ready Hi). }
  apply ewp_ret. match goal with |- Q tt (set_ctx (Some (p, ?x)) _) => assert (Hc : x = unlink a c) end.
  { rewrite <- unlink_others by done. by destruct c. }
  by rewrite Hc.
Qed.

Lemma evolves_shorter w c w' c' l :
  evolves w c w' c' -> stopping c = true -> (length (get_list l c') <= length (get_list l c))%nat.
Proof.
  intros Hev Hst. apply sublist_length.
  destruct l; cbn; [apply Hev | apply Hev | apply Hev | apply Hev]; done.
Qed.

(** The loops of [evb2_finalize]. *)
Lemma cancel_all_ok inv_k X p l n : forall c w,
  cb_spec false inv_k -> inv X p c w -> finalized c = true -> in_run c = true -> l <> Async ->
  (length (get_list l c) <= n)%nat ->
  wp (cancel_all inv_k n l p) w (fun _ w' => exists c', turn X p c w w' c' /\ get_list l c' = []).
Proof.
  induction n as [|n IH]; intros c w Hspec Hi Hfin Hr Hl Hlen; cbn [cancel_all]; apply ewp_bind;
    (eapply wp_deref; [apply Hi | ]).
  { destruct (get_list l c) eqn:El; [ | cbn in Hlen; lia]. apply ewp_ret. exists c. split; [by apply turn_refl | done]. }
  destruct (get_list l c) as [|a r] eqn:El; [apply ewp_ret; exists c; split; [by apply turn_refl | done] | ].
  assert (Hin : a ∈ get_list l c) by (rewrite El; by left).
  destruct (inv_alive _ _ _ _ _ _ l Hi a Hin) as [h Hh]. destruct (notifying_off _ _ _ _ _ _ Hi Hin) as [Hn Hx].
  pose proof (i_fin _ _ _ _ _ _ Hi Hfin) as Hst.
  assert (Has : a ∉ async_list c).
  { pose proof (i_shape _ _ _ _ _ _ Hi) as Hs. intros Ha.
    destruct l; cbn in Hin; [by apply (sh_fa _ _ _ Hs a) | by apply (sh_ta _ _ _ Hs a) |
      by apply (sh_ra _ _ _ Hs a) | done]. }
  apply ewp_bind. eapply wp_handle_detach; [done | done | ]. apply ewp_bind. eapply ewp_mono.
  { eapply cancel_one; [done | done | done | done | done | done | done | by left | ]. intros _ _ Hf.
    assert (finalized (unlink a c) = finalized c) by (by destruct c). congruence. }
  cbv beta. intros _ w1 (c1 & T1 & E1). pose proof T1 as (Hi1 & Hev1 & _).
  eapply ewp_mono; [apply (IH c1); [done | done | | | done | ] | ].
  - by rewrite (q_fin _ _ _ _ Hev1).
  - by rewrite (q_run _ _ _ _ Hev1).
  - etrans; [eapply evolves_shorter; [exact E1 | by destruct c] | ].
    assert (Hw : get_list l (unlink a c) = without a (get_list l c)) by (by destruct c, l).
    rewrite Hw. pose proof (without_length a _ (inv_nodup _ _ _ _ _ _ l Hi) Hin) as HL.
    rewrite El in HL |- *. cbn [length] in HL, Hlen. lia.
  - intros _ w2 (c2 & T2 & El2). exists c2. split; [by eapply turn_trans | done].
Qed.

(* ---------------------------------------------------------------- *)
(** *** The queue of timers from other threads *)

(** The world while the mutex is held. *)
Definition held (p : Z) (c : evb2) (w : world) : world := set_ctx (Some (p, set_locked true c)) w.

Lemma wp_unlock p c c' w Q :
  ctx w = Some (p, c') -> set_locked false c' = c -> Q tt (set_ctx (Some (p, c)) w) -> wp (unlock p) w Q.
Proof. intros Hc <- HQ. unfold unlock. by eapply wp_ctx_upd. Qed.

Lemma pop_async X p c w a r :
  inv X p c w -> async_list c = a :: r -> set_list Async r c = unlink a c.
Proof.
  intros Hi El. pose proof (i_shape _ _ _ _ _ _ Hi) as Hs.
  rewrite <- (unlink_async _ _ _ _ Hs) by (rewrite El; by left). rewrite El, without_hd; [done | ].
  pose proof (sh_na _ _ _ Hs) as Hn. rewrite El in Hn. by apply NoDup_cons in Hn as [? _].
Qed.

Lemma wp_pop_async X p c w (Q : option Z -> world -> Prop) :
  inv X p c w ->
  match async_list c with
  | [] => Q None (held p c w)
  | a :: _ => a ∉ X -> notifying c <> Some a -> is_Some (heap w !! a) -> Q (Some a) (held p (unlink a c) w)
  end -> wp (qent_pop p Async) (held p c w) Q.
Proof.
  intros Hi HQ. eapply wp_qent_pop; [done | apply (inv_alive _ _ _ _ _ _ Async Hi) | ].
  cbn [get_list async_list set_locked]. destruct (async_list c) as [|a r] eqn:El; [done | ].
  assert (Hin : a ∈ get_list Async c) by (cbn; rewrite El; by left).
  replace (set_ctx _ (held p c w)) with (held p (unlink a c) w).
  - apply HQ; [by eapply notifying_off.. | by eapply (inv_alive _ _ _ _ _ _ Async Hi)].
  - unfold held. rewrite <- (pop_async _ _ _ _ _ _ Hi El). by destruct c.
Qed.

Lemma exact_unlink_timer X p c w a h :
  inv X p c w -> heap w !! a = Some h -> h_fd h = -1 ->
  exact E closes (unlink a c) (set_ctx (Some (p, unlink a c)) w).
Proof.
  intros Hi Hh Hfd. eapply exact_same; [apply Hi | by destruct c | done | ]. intros f Hf. cbn [heap set_ctx].
  rewrite fdmon_unlink. eapply wanted_without; [done | lia].
Qed.

Lemma set_ctx2 x y w : set_ctx x (set_ctx y w) = set_ctx x w.
Proof. done. Qed.

Lemma relock_unlink c : locked c = false -> set_locked false (set_locked true c) = c.
Proof. apply relock0. Qed.

(** Unlocked for the callback of a queued timer that will not be armed. *)
Lemma cancel_queued inv_k X p c w a h :
  cb_spec false inv_k -> inv X p c w -> heap w !! a = Some h -> a ∉ X -> notifying c <> Some a ->
  stopping c = true -> in_run c = true -> a ∈ async_list c ->
  wp (unlock p;; evb2_notify_cancel inv_k a;; lock p) (held p (unlink a c) w)
    (fun _ w' => exists c1 w1, w' = held p c1 w1 /\ turn X p c w w1 c1 /\
      (length (async_list c1) <= length (async_list (unlink a c)))%nat).
Proof.
  intros Hspec Hi Hh Hx Hn Hst Hr Has. apply ewp_bind.
  eapply (wp_unlock p (unlink a c)); [done | | ].
  { destruct (i_lock _ _ _ _ _ _ Hi). by destruct c. }
  unfold held. rewrite set_ctx2. apply ewp_bind. eapply ewp_mono.
  { eapply cancel_one; [done | done | done | done | done | done | done | right | ].
    { intros Hrd. by apply (sh_ra _ _ _ (i_shape _ _ _ _ _ _ Hi) a). }
    eapply exact_unlink_timer; [done | done | ]. by apply (k_a _ _ _ (i_kinds _ _ _ _ _ _ Hi) a). }
  cbv beta. intros _ w1 (c1 & T1 & E1). pose proof T1 as (Hi1 & _ & _).
  eapply wp_lock; [apply Hi1 | apply Hi1 | ]. exists c1, w1. split_and!; [done | done | ].
  apply (evolves_shorter _ _ _ _ Async E1). by destruct c.
Qed.

Lemma shorter_async X p c w a r : inv X p c w -> async_list c = a :: r -> async_list (unlink a c) = r.
Proof. intros Hi El. rewrite <- (pop_async _ _ _ _ _ _ Hi El). by destruct c. Qed.

Lemma cancel_async_ok inv_k X p n : forall c w,
  cb_spec false inv_k -> inv X p c w -> stopping c = true -> in_run c = true ->
  (length (async_list c) <= n)%nat ->
  wp (cancel_async inv_k n p) (held p c w)
    (fun _ w' => exists c' w1, w' = held p c' w1 /\ turn X p c w w1 c' /\ async_list c' = []).
Proof.
  induction n as [|n IH]; intros c w Hspec Hi Hst Hr Hlen; cbn [cancel_async]; apply ewp_bind;
    eapply wp_pop_async; try done.
  { destruct (async_list c) eqn:El; [ | cbn in Hlen; lia]. apply ewp_ret. exists c, w.
    split_and!; [done | by apply turn_refl | done]. }
  destruct (async_list c) as [|a r] eqn:El.
  { apply ewp_ret. exists c, w. split_and!; [done | by apply turn_refl | done]. }
  intros Hx Hn [h Hh].
  assert (Hassoc : forall w0 Q, wp ((unlock p;; evb2_notify_cancel inv_k a;; lock p);; cancel_async inv_k n p) w0 Q ->
    wp (unlock p;; evb2_notify_cancel inv_k a;; lock p;; cancel_async inv_k n p) w0 Q).
  { intros w0 Q. apply wp_assoc3. }
  apply Hassoc. apply ewp_bind. eapply ewp_mono.
  { eapply cancel_queued; [done | done | done | done | done | done | done | rewrite El; by left]. }
  cbv beta. intros _ w1 (c1 & w1' & -> & T1 & Hsh). pose proof T1 as (Hi1 & Hev1 & _).
  rewrite (shorter_async _ _ _ _ _ _ Hi El) in Hsh. cbn in Hlen.
  eapply ewp_mono; [apply (IH c1); [done | done | by apply Hev1 | by rewrite (q_run _ _ _ _ Hev1) | lia] | ].
  intros _ w2 (c2 & w2' & -> & T2 & E2). exists c2, w2'. split_and!; [done | by eapply turn_trans | done].
Qed.

(* ---------------------------------------------------------------- *)
(** *** Teardown *)

(** Nothing of the loop is left. *)
Definition freed (w : world) : Prop :=
  ctx w = None /\ heap w = ∅ /\ kfds w = [] /\ interest w = ∅.

Lemma sublist_nil (l : list Z) : sublist l [] -> l = [].
Proof. apply sublist_nil_r. Qed.

(** The invariant does not depend on [finalized] once the loop stops; the
    interest set is let go. *)
Lemma inv_finalize X p c w :
  inv X p c w -> stopping c = true ->
  inv X p (set_finalized true c) (set_ctx (Some (p, set_finalized true c)) w).
Proof.
  intros Hi Hst. split; cbn; try apply Hi; try done.
  - eapply shape_lists; [ | apply Hi]. done.
  - by destruct (i_kinds _ _ _ _ _ _ Hi).
Qed.

Lemma finalize_lists {B} inv_k p c w (k : M B) Q :
  cb_spec false inv_k -> inv [] p c w -> stopping c = true -> finalized c = true -> in_run c = true ->
  (forall w' c', turn [] p c w w' c' -> heap w' = ∅ -> wp k w' Q) ->
  wp (cancel_list inv_k Fdmon p;; cancel_list inv_k Timer p;; cancel_list inv_k Ready p;;
      lock p;; (do c <- deref p; cancel_async inv_k (length (async_list c)) p);; unlock p;; k) w Q.
Proof.
  intros Hspec Hi Hst Hfin Hr Hk.
  assert (Hlist : forall l c0 w0, inv [] p c0 w0 -> finalized c0 = true -> in_run c0 = true -> l <> Async ->
    wp (cancel_list inv_k l p) w0 (fun _ w' => exists c', turn [] p c0 w0 w' c' /\ get_list l c' = [])).
  { intros l c0 w0 Hi0 Hf0 Hr0 Hl. unfold cancel_list. apply ewp_bind. eapply wp_deref; [apply Hi0 | ].
    by apply cancel_all_ok. }
  apply ewp_bind. eapply ewp_mono; [by apply (Hlist Fdmon c w) | ].
  intros _ w1 (c1 & T1 & E1). pose proof T1 as (Hi1 & V1 & _).
  apply ewp_bind. eapply ewp_mono; [apply (Hlist Timer c1 w1);
    [done | by rewrite (q_fin _ _ _ _ V1) | by rewrite (q_run _ _ _ _ V1) | done] | ].
  intros _ w2 (c2 & T2 & E2). pose proof T2 as (Hi2 & V2 & _).
  assert (S1 : stopping c1 = true) by (by apply V1). assert (S2 : stopping c2 = true) by (by apply V2).
  apply ewp_bind. eapply ewp_mono; [apply (Hlist Ready c2 w2);
    [done | by rewrite (q_fin _ _ _ _ V2), (q_fin _ _ _ _ V1) | by rewrite (q_run _ _ _ _ V2), (q_run _ _ _ _ V1) | done] | ].
  intros _ w3 (c3 & T3 & E3). pose proof T3 as (Hi3 & V3 & _). assert (S3 : stopping c3 = true) by (by apply V3).
  apply ewp_bind. eapply wp_lock; [apply Hi3 | apply Hi3 | ].
  apply ewp_bind, ewp_bind. eapply wp_deref; [done | ].
  replace (async_list (set_locked true c3)) with (async_list c3) by done.
  eapply ewp_mono; [apply (cancel_async_ok inv_k [] p _ c3 w3); try done | ].
  { by rewrite (q_run _ _ _ _ V3), (q_run _ _ _ _ V2), (q_run _ _ _ _ V1). }
  intros _ w4 (c4 & w4' & -> & T4 & E4). pose proof T4 as (Hi4 & V4 & _).
  apply ewp_bind. eapply (wp_unlock p c4); [done | apply relock0, Hi4 | ].
  unfold held. rewrite set_ctx2, set_ctx_id by apply Hi4. apply (Hk _ c4); [eauto using turn_trans | ].
  assert (F4 : fdmon_list c4 = []).
  { apply sublist_nil. cbn in E1. rewrite <- E1. etrans; [by apply V4 | ]. etrans; [by apply V3 | by apply V2]. }
  assert (T4' : timer_list c4 = []).
  { apply sublist_nil. cbn in E2. rewrite <- E2. etrans; [by apply V4 | by apply V3]. }
  assert (R4 : ready_list c4 = []) by (apply sublist_nil; cbn in E3; rewrite <- E3; by apply V4).
  apply map_empty. intros a. destruct (heap w4' !! a) eqn:Ea; [ | done].
  pose proof (proj1 (sh_dom _ _ _ (i_shape _ _ _ _ _ _ Hi4) a) ltac:(eauto)) as Hd.
  rewrite F4, T4', R4, E4 in Hd. rewrite !elem_of_nil in Hd. tauto.
Qed.

(** [close] of the loop's own descriptors. *)
Lemma wp_close fd w (Q : unit -> world -> Prop) :
  fd ∈ kfds w -> Q tt (set_kfds (filter (fun x => x <> fd) (kfds w)) w) -> wp (close fd) w Q.
Proof.
  intros Hin HQ. unfold close. apply ewp_bind, wp_gets. rewrite bool_decide_true by done. by apply ewp_modify.
Qed.

Lemma free_ok inv_k p c w :
  cb_spec false inv_k -> inv [] p c w -> stopping c = true -> finalized c = false -> in_run c = true ->
  wp (evb2_free inv_k p) w (fun _ w' => freed w' /\ silent [] w' /\ brk w <= brk w' /\ cancels w `prefix_of` cancels w' /\ exists es, made [] w w' es).
Proof.
  intros Hspec Hi Hst Hfin Hr. unfold evb2_free, evb2_finalize. apply ewp_bind, ewp_bind.
  eapply wp_deref; [apply Hi | ]. rewrite Hfin. apply ewp_bind. eapply wp_ctx_upd; [apply Hi | ].
  set (c0 := set_finalized true c). set (w0 := set_ctx _ w).
  assert (Hi0 : inv [] p c0 w0) by (by apply inv_finalize).
  apply (finalize_lists inv_k p c0 w0); [done | done | done | done | done | ].
  intros w1 c1 (Hi1 & V1 & es & M1) Hemp.
  apply ewp_bind. eapply wp_deref; [apply Hi1 | ].
  pose proof (i_fds _ _ _ _ _ _ Hi1) as Hfd. pose proof (i_kfds _ _ _ _ _ _ Hi1) as Hkf.
  pose proof (proj2 (te_sane _ _ Etidy)) as Hd. rewrite <- Hfd in Hd. destruct Hd as (P0 & P1 & P2 & N1 & N2 & N3).
  rewrite (proj2 (Z.leb_le _ _) P0), (proj2 (Z.leb_le _ _) P1), (proj2 (Z.leb_le _ _) P2).
  apply ewp_bind. apply wp_close; [rewrite Hkf; by left | ]. rewrite Hkf.
  rewrite filter_cons_False, filter_cons_True, filter_cons_True by (by auto). cbn [filter].
  apply ewp_bind. apply wp_close; [by left | ]. cbn [kfds set_kfds].
  rewrite filter_cons_False, filter_cons_True by (by auto).
  apply ewp_bind, ewp_bind. apply wp_close; [by left | ]. cbn [kfds set_kfds].
  rewrite filter_cons_False by (by auto).
  apply ewp_modify. eapply wp_ctx_upd; [apply (i_ctx _ _ _ _ _ _ Hi1) | ]. apply ewp_bind.
  eapply wp_deref; [done | ]. replace (locked (set_fds (-1) (-1) (-1) c1)) with (locked c1) by (by destruct c1).
  rewrite (i_lock _ _ _ _ _ _ Hi1). apply ewp_modify. split; [split_and!; [done | exact Hemp | done | done] | split_and!].
  - apply (i_silent _ _ _ _ _ _ Hi1).
  - apply (q_brk _ _ _ _ V1).
  - apply (q_canc _ _ _ _ V1).
  - exists es. destruct M1 as [L S O]. by split.
Qed.

(* ---------------------------------------------------------------- *)
(** *** Arming the queued timers *)

(** A queued timer moves to the timer list, the mutex held. *)
Lemma arm_queued X p c w a h Q :
  inv X p c w -> heap w !! a = Some h -> a ∈ async_list c -> a ∉ X ->
  (forall c', stays X p c w (set_ctx (Some (p, c')) w) c' -> async_list c' = async_list (unlink a c) ->
     (stopping c = false -> Q tt (held p c' (set_ctx (Some (p, c')) w)))) -> stopping c = false ->
  wp (timer_insert p a) (held p (unlink a c) w) Q.
Proof.
  intros Hi Hh Has Hx HQ Hst. pose proof (i_shape _ _ _ _ _ _ Hi) as Hs. pose proof (i_kinds _ _ _ _ _ _ Hi) as Hk.
  assert (Hsu : shape (unlink a c) (heap w) (a :: X)) by (apply shape_unlink; eauto).
  eapply wp_timer_insert; [done | done | | | | ].
  - apply (shape_alive _ _ _ Timer Hsu).
  - apply (sh_order _ _ _ Hsu).
  - destruct (sh_x _ _ _ Hsu a) as (_ & _ & _ & Hn); [by left | done].
  - intros l1 l2 El H1 H2. cbn [heap held set_ctx] in H1, H2.
    set (c' := set_list Timer (l1 ++ a :: l2) (unlink a c)).
    assert (Hfl : flags_of c' = flags_of c) by (by destruct c).
    replace (set_ctx (Some (p, _)) _) with (held p c' (set_ctx (Some (p, c')) w)) by (unfold held, c'; by destruct c).
    assert (Hfd : h_fd h = -1) by (by apply (k_a _ _ _ Hk a)).
    apply HQ; [ | by destruct c | done]. split_and!; [ | | done].
    + eapply inv_intro; [exact Hi | done | done | | | | done | apply Hi | done | apply Hi]; cbn [heap set_ctx].
      * by apply shape_arm_X.
      * eapply kinds_arm; [by apply kinds_unlink | done | by left | done].
      * eapply exact_same; [apply Hi | unfold flags_of in Hfl; congruence | done | ]. intros f Hf. cbn [heap set_ctx].
        replace (fdmon_list c') with (without a (fdmon_list c)) by (by destruct c).
        eapply wanted_without; [done | lia].
    + unfold flags_of in Hfl. injection Hfl as ? ? ? ? ? ? ? ?.
      split; cbn [heap brk log set_ctx]; try done; try congruence; try (intros; congruence);
        replace (ready_list c') with (without a (ready_list c)) by (by destruct c); [apply sublist_without | ].
      intros _ b _ Hb. left. apply elem_of_without. split; [ | done]. intros ->.
      by apply (sh_ra _ _ _ Hs a).
Qed.

Lemma install_loop_ok inv_k X p n : forall c w,
  cb_spec false inv_k -> inv X p c w -> in_run c = true -> (length (async_list c) <= n)%nat ->
  wp (install_loop inv_k n p) (held p c w)
    (fun _ w' => exists c' w1, w' = held p c' w1 /\ turn X p c w w1 c' /\ async_list c' = []).
Proof.
  induction n as [|n IH]; intros c w Hspec Hi Hr Hlen; cbn [install_loop]; apply ewp_bind;
    eapply wp_pop_async; try done.
  { destruct (async_list c) eqn:El; [ | cbn in Hlen; lia]. apply ewp_ret. exists c, w.
    split_and!; [done | by apply turn_refl | done]. }
  destruct (async_list c) as [|a r] eqn:El.
  { apply ewp_ret. exists c, w. split_and!; [done | by apply turn_refl | done]. }
  intros Hx Hn [h Hh]. assert (Has : a ∈ async_list c) by (rewrite El; by left).
  assert (Hgo : forall c1 w1, turn X p c w w1 c1 -> (length (async_list c1) <= n)%nat ->
    wp (install_loop inv_k n p) (held p c1 w1)
      (fun _ w' => exists c' w2, w' = held p c' w2 /\ turn X p c w w2 c' /\ async_list c' = [])).
  { intros c1 w1 T1 Hl1. pose proof T1 as (Hi1 & V1 & _).
    eapply ewp_mono; [apply (IH c1); [done | done | by rewrite (q_run _ _ _ _ V1) | done] | ].
    intros _ w2 (c2 & w2' & -> & T2 & E2). exists c2, w2'. split_and!; [done | by eapply turn_trans | done]. }
  pose proof (shorter_async _ _ _ _ _ _ Hi El) as Hsh. cbn in Hlen.
  apply ewp_bind. eapply wp_deref; [done | ]. apply ewp_bind. eapply wp_hget; [done | ].
  replace (stopping (set_locked true (unlink a c))) with (stopping c) by (by destruct c).
  destruct (stopping c) eqn:Hst.
  - apply ewp_bind. eapply ewp_mono; [by eapply cancel_queued | ].
    cbv beta. intros _ w1 (c1 & w1' & -> & T1 & Hl1). apply Hgo; [done | ]. rewrite Hsh in Hl1. lia.
  - pose proof (k_hok _ _ _ (i_kinds _ _ _ _ _ _ Hi) a h Hh) as Hok.
    assert (Hne : (h_timeout_at h =? UINT64_MAX) = false).
    { apply Z.eqb_neq. intros Hat%(ok_at _ _ Hok). apply (ok_timer _ _ Hok); [ | done].
      by apply (k_a _ _ _ (i_kinds _ _ _ _ _ _ Hi) a). }
    rewrite Hne. cbn [negb]. apply ewp_bind. eapply arm_queued; [done | done | done | done | | done].
    intros c1 S1 Hl1 _. apply Hgo; [by apply stays_turn | ]. rewrite Hl1, Hsh. lia.
Qed.

Lemma install_async_ok inv_k X p c w :
  cb_spec false inv_k -> inv X p c w -> in_run c = true ->
  wp (evb2_install_async inv_k p) w (fun _ w' => exists c', turn X p c w w' c' /\ async_list c' = []).
Proof.
  intros Hspec Hi Hr. unfold evb2_install_async. apply ewp_bind. eapply wp_lock; [apply Hi | apply Hi | ].
  apply ewp_bind. eapply wp_deref; [done | ]. apply ewp_bind.
  eapply ewp_mono; [apply (install_loop_ok inv_k X p _ c w); done | ].
  intros _ w1 (c1 & w1' & -> & T1 & E1). pose proof T1 as (Hi1 & _ & _).
  eapply (wp_unlock p c1); [done | apply relock0, Hi1 | ]. unfold held. rewrite set_ctx2, set_ctx_id by apply Hi1. eauto.
Qed.

(** The pipe runs empty, one byte at least with each read. *)
Lemma drain_ok n : forall w Q,
  (Z.to_nat (pipe w) < n)%nat -> (forall b, Q tt (set_pipe b w)) -> wp (drain n) w Q.
Proof.
  induction n as [|n IH]; intros w Q Hn HQ; cbn [drain]; [lia | ].
  apply ewp_bind, wp_gets. destruct (Z.ltb_spec 0 (Z.min 64 (pipe w))) as [Hb | Hb].
  - apply ewp_bind, ewp_modify, IH; [cbn; lia | ]. intros b. apply HQ.
  - apply ewp_ret. specialize (HQ (pipe w)). by destruct w.
Qed.

Lemma async_handler_ok inv_k X p c w fd flag :
  cb_spec false inv_k -> inv X p c w -> in_run c = true ->
  wp (async_handler inv_k fd flag p) w (fun _ w' => exists c', turn X p c w w' c').
Proof.
  intros Hspec Hi Hr. unfold async_handler. rewrite (inv_p _ _ _ _ _ _ Hi).
  destruct (has flag FLAG_CANCELLED); [apply ewp_ret; exists c; by apply turn_refl | ].
  apply ewp_bind, wp_gets, ewp_bind, drain_ok; [lia | ]. intros b.
  assert (S1 : stays X p c w (set_pipe b w) c).
  { split_and!; [by destruct Hi | by destruct (evolves_refl w c) | done]. }
  eapply ewp_mono; [apply (install_async_ok inv_k X p c); [done | apply S1 | done] | ].
  intros _ w2 (c2 & T2 & _). exists c2. eapply turn_trans; [done | by apply stays_turn | done].
Qed.

Lemma made_no_own X w w' es : made X w w' es -> made X (set_log (log w ++ []) w) w' es.
Proof. intros [L Sr O]. split; [ | done | done]. cbn. by rewrite app_nil_r. Qed.

(** Depth one is enough for client callbacks and for the cancellation of the
    loop's own; depth two for every callback. *)
Lemma invoke_client d : cb_spec false (invoke E (S d)).
Proof.
  intros X p c w a h flag Hi Ha Hu Hfl. cbn [invoke].
  pose proof (k_hok _ _ _ (i_kinds _ _ _ _ _ _ Hi) a h Ha) as Hok.
  destruct (h_cb h) as [| |cl] eqn:Ecb; [by destruct (ok_cb _ _ Hok) | | ].
  - rewrite (Hfl eq_refl eq_refl), (ok_ud _ _ Hok Ecb). unfold async_handler.
    rewrite (inv_p _ _ _ _ _ _ Hi). cbn [has]. replace (has FLAG_CANCELLED FLAG_CANCELLED) with true by done.
    apply ewp_ret. exists c, []. unfold own. rewrite Ecb. split_and!; [done | apply evolves_refl | ].
    by apply made_no_own, made_nil.
  - by eapply cb_spec_client.
Qed.

Lemma invoke_any d : cb_spec true (invoke E (S (S d))).
Proof.
  intros X p c w a h flag Hi Ha Hu _.
  pose proof (k_hok _ _ _ (i_kinds _ _ _ _ _ _ Hi) a h Ha) as Hok.
  destruct (h_cb h) as [| |cl] eqn:Ecb; [by destruct (ok_cb _ _ Hok) | | ].
  - rewrite (ok_ud _ _ Hok Ecb). cbn [invoke]. eapply ewp_mono.
    { apply (async_handler_ok (invoke E (S d)) (a :: X) p c); [apply invoke_client | done | by apply Hi]. }
    intros _ w' (c' & Hi' & Hev & es & Hm). exists c', es. unfold own. rewrite Ecb.
    split_and!; [done | done | by apply made_no_own].
  - by eapply cb_spec_client.
Qed.
End Safe.
