(* ===== verification/Evb2Run.v ===== *)
(** Evb2Run: one pass of the event loop: collecting what is ready, the
    dispatch loop, [aloe_evb2_run_once] and whole client runs. *)

From stdpp Require Import gmap sorting.
From S2P Require Import Prelude Eff Evb2 Evb2Inv Evb2Ops Evb2Safe.

Open Scope eff_scope.

Section Run.
Context (closes : Prop) (E : env) (Etidy : tidy_env closes E).
Notation inv := (inv E closes).
Notation stays := (stays E closes).
Notation turn := (turn closes E).

(* ---------------------------------------------------------------- *)
(** *** Collecting *)

(** Handles only move to the ready list, with a note of why: [R] holds of
    those that do. *)
Record collects (R : handle -> Prop) (w : world) (c : evb2) (w' : world) (c' : evb2) : Prop := Collects {
  l_flags : flags_of c' = flags_of c;
  l_log : log w' = log w; l_brk : brk w' = brk w; l_canc : cancels w' = cancels w;
  l_ready : forall a, a ∈ ready_list c -> a ∈ ready_list c';
  l_fdmon : forall a, a ∈ fdmon_list c -> a ∈ fdmon_list c' \/ a ∈ ready_list c';
  l_timer : forall a, a ∈ timer_list c -> a ∈ timer_list c' \/ a ∈ ready_list c';
  l_dom : forall a, heap w !! a = None -> heap w' !! a = None;
  l_heap : forall a h, heap w !! a = Some h -> exists n, heap w' !! a = Some (set_noti n h);
  l_why : forall a h, a ∈ ready_list c' -> heap w' !! a = Some h ->
    a ∈ ready_list c /\ heap w !! a = Some h \/ R h }.

Lemma set_noti_id h : set_noti (h_noti h) h = h.
Proof. by destruct h. Qed.

Lemma collects_refl R w c : collects R w c w c.
Proof. split; auto. intros a h Hh. exists (h_noti h). by rewrite set_noti_id. Qed.

Lemma collects_trans R w c w1 c1 w2 c2 :
  collects R w c w1 c1 -> collects R w1 c1 w2 c2 -> collects R w c w2 c2.
Proof.
  intros H1 H2. split.
  - by rewrite (l_flags _ _ _ _ _ H2), (l_flags _ _ _ _ _ H1).
  - by rewrite (l_log _ _ _ _ _ H2), (l_log _ _ _ _ _ H1).
  - by rewrite (l_brk _ _ _ _ _ H2), (l_brk _ _ _ _ _ H1).
  - by rewrite (l_canc _ _ _ _ _ H2), (l_canc _ _ _ _ _ H1).
  - intros a Ha. by apply H2, H1.
  - intros a Ha. destruct (l_fdmon _ _ _ _ _ H1 a Ha) as [? | ?]; [by apply H2 | right; by apply H2].
  - intros a Ha. destruct (l_timer _ _ _ _ _ H1 a Ha) as [? | ?]; [by apply H2 | right; by apply H2].
  - intros a Ha. by apply H2, H1.
  - intros a h Ha. destruct (l_heap _ _ _ _ _ H1 a h Ha) as [n Hn].
    destruct (l_heap _ _ _ _ _ H2 a _ Hn) as [n2 Hn2]. exists n2. by rewrite Hn2.
  - intros a h Ha Hh. destruct (l_why _ _ _ _ _ H2 a h Ha Hh) as [[Ha1 Hh1] | ?]; [ | by right].
    by apply (l_why _ _ _ _ _ H1).
Qed.

(** The invariant but for what the kernel was told of [fd]. *)
Definition inv_but (fd : Z) (X : list Z) (p : Z) (c : evb2) (w : world) : Prop :=
  exists i, inv X p c (set_interest i w) /\ forall f, f <> fd -> i !! f = interest w !! f.

Lemma inv_inv_but fd X p c w : inv X p c w -> inv_but fd X p c w.
Proof. intros Hi. exists (interest w). split; [by destruct w | done]. Qed.

(** To the ready list, from the list of monitored handles or of timers. *)
Definition to_ready (a noti : Z) (h : handle) (p : Z) (c : evb2) (w : world) : world :=
  set_ctx (Some (p, linked Ready a (unlink a c))) (set_heap (<[a := set_noti noti h]> (heap w)) w).

Lemma inv_to_ready (R : handle -> Prop) X p c w a h noti :
  R (set_noti noti h) -> inv X p c w -> heap w !! a = Some h -> a ∈ fdmon_list c \/ a ∈ timer_list c ->
  inv_but (h_fd h) X p (linked Ready a (unlink a c)) (to_ready a noti h p c w) /\
  collects R w c (to_ready a noti h p c w) (linked Ready a (unlink a c)).
Proof.
  intros HR Hi Hh Hl. pose proof (i_shape _ _ _ _ _ _ Hi) as Hs. pose proof (i_kinds _ _ _ _ _ _ Hi) as Hk.
  assert (Hx : a ∉ X).
  { intros Hx. destruct (sh_x _ _ _ Hs a Hx) as (?&?&?&?). tauto. }
  set (c' := linked Ready a (unlink a c)). set (h' := set_noti noti h).
  assert (Hfl : flags_of c' = flags_of c) by (by destruct c).
  assert (Hfm : fdmon_list c' = without a (fdmon_list c)) by (by destruct c).
  assert (Hsu : shape (unlink a c) (heap w) (a :: X)) by (apply shape_unlink; eauto).
  assert (Hs1 : shape (unlink a c) (<[a := h']> (heap w)) (a :: X)) by (eapply shape_upd; [done | done | by left]).
  assert (Hk1 : kinds p (unlink a c) (<[a := h']> (heap w))).
  { eapply kinds_upd; [by apply kinds_unlink | done | destruct (k_hok _ _ _ Hk a h Hh); by split | done | ].
    intros Hin. rewrite fdmon_unlink, elem_of_without in Hin. tauto. }
  split.
  - exists (partial_alter (fun _ => wanted (<[a := h']> (heap w)) (fdmon_list c') (h_fd h)) (h_fd h) (interest w)).
    split.
    + eapply inv_intro; [exact Hi | done | done | by apply shape_link | | | done | | done | ].
      * eapply kinds_queue; [done | apply lookup_insert_eq | by left].
      * intros Hcalm Hnc Hfin f Hf. cbn. destruct (decide (f = h_fd h)) as [-> | Hne].
        -- by rewrite lookup_partial_alter_eq.
        -- rewrite lookup_partial_alter_ne by done. rewrite (i_exact _ _ _ _ _ _ Hi); [ | done | done | | done].
           ++ rewrite Hfm. rewrite (wanted_ext (heap w) (<[a := h']> (heap w))).
              ** symmetry. by eapply wanted_without.
              ** intros b [Hb _]%elem_of_without. by rewrite lookup_insert_ne.
           ++ unfold flags_of in Hfl. congruence.
      * cbn [heap set_interest to_ready set_ctx set_heap].
        intros b [hb [[<- _] | [_ Hb]]%lookup_insert_Some]; apply Hi; eauto.
      * by eapply silent_upd; [apply Hi | done..].
    + intros f Hf. cbn. by rewrite lookup_partial_alter_ne by done.
  - assert (Hrd : ready_list c' = without a (ready_list c) ++ [a]) by (by destruct c).
    assert (Hnr : a ∉ ready_list c).
    { destruct Hl as [Hl | Hl]; [by apply (sh_fr _ _ _ Hs) | by apply (sh_tr _ _ _ Hs)]. }
    rewrite without_id in Hrd by done.
    split; [done | done | done | done | | | | | | ]; cbn [heap to_ready set_ctx set_heap].
    + intros b Hb. rewrite Hrd. set_solver.
    + intros b Hb. rewrite Hfm, Hrd, elem_of_without. destruct (decide (b = a)); [right; set_solver | by left].
    + intros b Hb. replace (timer_list c') with (without a (timer_list c)) by (by destruct c).
      rewrite Hrd, elem_of_without. destruct (decide (b = a)); [right; set_solver | by left].
    + intros b Hb. rewrite lookup_insert_ne; [done | ]. intros ->. congruence.
    + intros b hb Hb. destruct (decide (b = a)) as [-> | Hne].
      * rewrite lookup_insert_eq. rewrite Hh in Hb. injection Hb as <-. eauto.
      * rewrite lookup_insert_ne by done. exists (h_noti hb). by rewrite set_noti_id.
    + intros b hb Hb. rewrite Hrd in Hb. destruct (decide (b = a)) as [-> | Hne].
      * rewrite lookup_insert_eq. intros [= <-]. by right.
      * rewrite lookup_insert_ne by done. apply elem_of_app in Hb as [Hb | ->%list_elem_of_singleton]; [auto | done].
Qed.

(** The code's four steps. *)
Lemma wp_to_ready {B} X p c i w a h noti (k : M B) (Q : B -> world -> Prop) :
  inv X p c (set_interest i w) -> heap w !! a = Some h -> a ∈ fdmon_list c \/ a ∈ timer_list c ->
  wp k (to_ready a noti h p c w) Q ->
  wp (qent_remove p Fdmon a;; qent_remove p Timer a;; hupd a (set_noti noti);;
      qent_insert_tail p Ready a;; k) w Q.
Proof.
  intros Hi Hh Hl HQ. pose proof (i_shape _ _ _ _ _ _ Hi) as Hs.
  assert (Hx : a ∉ X).
  { intros Hx. destruct (sh_x _ _ _ Hs a Hx) as (?&?&?&?). tauto. }
  assert (Hn : a ∉ ready_list c /\ a ∉ async_list c).
  { destruct Hl as [Hl | Hl]; [split; [by apply (sh_fr _ _ _ Hs) | by apply (sh_fa _ _ _ Hs)] |
      split; [by apply (sh_tr _ _ _ Hs) | by apply (sh_ta _ _ _ Hs)]]. }
  assert (Hu : set_list Timer (without a (timer_list c)) (set_list Fdmon (without a (fdmon_list c)) c) = unlink a c).
  { destruct Hn as [N1 N2]. lists c. by rewrite (without_id a cr), (without_id a ca). }
  apply ewp_bind. eapply wp_qent_remove; [apply (i_ctx _ _ _ _ _ _ Hi) | apply (inv_alive _ _ _ _ _ _ Fdmon Hi) |
    apply (inv_nodup _ _ _ _ _ _ Fdmon Hi) | ].
  apply ewp_bind. eapply wp_qent_remove; [done | | | ].
  { destruct c. apply (inv_alive _ _ _ _ _ _ Timer Hi). } { destruct c. apply (inv_nodup _ _ _ _ _ _ Timer Hi). }
  match goal with |- context [set_ctx (Some (p, ?x)) (set_ctx _ _)] => assert (Hc : x = unlink a c) end.
  { rewrite <- Hu. by destruct c. }
  rewrite Hc. apply ewp_bind. eapply wp_hupd; [done | ].
  apply ewp_bind. eapply (wp_qent_insert _ _ _ _ X); [done | | done | done].
  cbn [heap set_heap set_ctx]. eapply shape_upd; [by apply shape_unlink; [ | eauto | ] | done | by left].
Qed.

(** Telling the kernel completes the invariant. *)
Lemma refresh_but X p c w fd Q :
  inv_but fd X p c w ->
  (forall r w', inv X p c w' -> same_mem w w' -> Q r w') -> wp (epoll_refresh E p fd) w Q.
Proof.
  intros (i & Hi & Ho) HQ. eapply wp_epoll_refresh; [apply (i_ctx _ _ _ _ _ _ Hi) | | | apply Hi | ].
  { pose proof (i_p _ _ _ _ _ _ Hi). lia. } { apply (inv_alive _ _ _ _ _ _ Fdmon Hi). }
  intros r w' [S1 S2 S3 S4 S5 S6 S7 S8] Hint. apply HQ; [ | done].
  eapply inv_intro; [exact Hi | rewrite S1; apply (i_ctx _ _ _ _ _ _ Hi) | done | ..]; rewrite ?S2, ?S3, ?S4; try done.
  - apply Hi. - apply Hi.
  - intros Hcalm Hnc Hfin f Hf. destruct (Hint Hcalm) as [_ ->]; [ | done]. rewrite S2.
    destruct (decide (f = fd)) as [-> | Hne]; [done | ]. rewrite <- Ho by done. by apply (i_exact _ _ _ _ _ _ Hi).
  - apply Hi.
  - eapply silent_same; [apply (i_silent _ _ _ _ _ _ Hi) | done | done | by rewrite S3 | done].
Qed.

Lemma inv_interest X p c w : inv X p c w -> inv X p c (set_interest (interest w) w).
Proof. by destruct w. Qed.

(** What happened to the handles of a descriptor that had an event. *)
Definition noticed (hp : gmap Z handle) (fd e now a : Z) : Prop :=
  exists h, hp !! a = Some h /\ h_fd h = fd /\ notification h e now <> 0.

Definition event_body (p fd e now a : Z) : M Z :=
  do h <- hget a;
  if negb (h_fd h =? fd) then ret 0 else
  if notification h e now =? 0 then ret 0 else
  qent_remove p Fdmon a;; qent_remove p Timer a;;
  hupd a (set_noti (notification h e now));; qent_insert_tail p Ready a;;
  ret 1.

Lemma event_loop R X p fd e now q :
  (forall h, h_fd h = fd -> notification h e now <> 0 -> R (set_noti (notification h e now) h)) -> forall c w,
  inv_but fd X p c w -> NoDup q -> (forall b, b ∈ q -> b ∈ fdmon_list c) ->
  wp (foreach p Fdmon q (event_body p fd e now)) w (fun n w' => exists c',
    0 <= n /\ (n = 0 -> w' = w /\ c' = c) /\ inv_but fd X p c' w' /\ collects R w c w' c' /\
    forall a, a ∈ q -> noticed (heap w) fd e now a -> a ∈ ready_list c').
Proof.
  intros HR. induction q as [|a q IH]; intros c w Hb Hn Hq; cbn [foreach].
  { apply ewp_ret. exists c. split_and!; [done | done | done | apply collects_refl | by intros a ?%elem_of_nil]. }
  apply NoDup_cons in Hn as [Haq Hn]. destruct Hb as (i & Hi & Ho).
  apply ewp_bind. eapply wp_deref; [apply (i_ctx _ _ _ _ _ _ Hi) | ].
  assert (Hin : a ∈ fdmon_list c) by (apply Hq; by left). rewrite bool_decide_true by done.
  destruct (inv_alive _ _ _ _ _ _ Fdmon Hi a Hin) as [h Hh]. cbn [heap set_interest] in Hh.
  (* nothing for this handle *)
  assert (Hskip : notification h e now = 0 \/ h_fd h <> fd ->
    wp (do s <- foreach p Fdmon q (event_body p fd e now); ret (0 + s)) w (fun n w' => exists c',
      0 <= n /\ (n = 0 -> w' = w /\ c' = c) /\ inv_but fd X p c' w' /\ collects R w c w' c' /\
      forall b, b ∈ a :: q -> noticed (heap w) fd e now b -> b ∈ ready_list c')).
  { intros Hno. apply ewp_bind. eapply ewp_mono; [apply (IH c w); [by exists i | done | intros b Hb; apply Hq; by right] | ].
    intros n w' (c' & H1 & H2 & H3 & H4 & H5). apply ewp_ret. exists c'. split_and!; [lia | done | done | done | ].
    intros b [-> | Hb]%elem_of_cons; [ | by apply H5]. intros (h1 & E1 & E2 & E3).
    rewrite Hh in E1. injection E1 as <-. tauto. }
  apply ewp_bind. unfold event_body at 1. apply ewp_bind. eapply wp_hget; [done | ].
  destruct (Z.eqb_spec (h_fd h) fd) as [Hfd | Hfd]; cbn [negb]; [ | apply ewp_ret; auto].
  destruct (Z.eqb_spec (notification h e now) 0) as [Hno | Hno]; [apply ewp_ret; auto | ].
  eapply wp_to_ready; [done | done | by left | ]. apply ewp_ret. apply ewp_bind.
  destruct (inv_to_ready R X p c _ a h (notification h e now) (HR h Hfd Hno) Hi Hh (or_introl Hin)) as [(i' & Hi' & Ho') Hcol].
  set (c1 := linked Ready a (unlink a c)) in *. set (w1 := to_ready a (notification h e now) h p c w) in *.
  assert (Hcol1 : collects R w c w1 c1) by (by destruct Hcol).
  eapply ewp_mono; [apply (IH c1 w1) | ].
  - exists i'. split; [exact Hi' | ]. intros f Hf. rewrite Ho' by (by subst fd). cbn. by apply Ho.
  - done.
  - intros b Hb. unfold c1. destruct c; cbn in *. apply elem_of_without. split; [by intros -> | apply Hq; by right].
  - intros n w2 (c2 & H1 & H2 & H3 & H4 & H5). apply ewp_ret. exists c2.
    split_and!; [lia | lia | done | by eapply collects_trans | ].
    intros b [-> | Hb]%elem_of_cons Hnt.
    + apply (l_ready _ _ _ _ _ H4). unfold c1. destruct c; cbn. set_solver.
    + apply H5; [done | ]. destruct Hnt as (hb & Hhb & Hf & Hne). exists hb. split_and!; [ | done | done].
      unfold w1. cbn. rewrite lookup_insert_ne; [done | by intros ->].
Qed.

Lemma on_event_ok R X p c w fd e now :
  (forall h, h_fd h = fd -> notification h e now <> 0 -> R (set_noti (notification h e now) h)) ->
  inv X p c w ->
  wp (on_event E p now (fd, e)) w (fun _ w' => exists c', inv X p c' w' /\ collects R w c w' c' /\
    forall a, a ∈ fdmon_list c -> noticed (heap w) fd e now a -> a ∈ ready_list c').
Proof.
  intros HR Hi. unfold on_event. apply ewp_bind. eapply wp_deref; [apply Hi | ]. apply ewp_bind.
  eapply ewp_mono; [apply (event_loop R X p fd e now _ HR c w); [by apply inv_inv_but | | done] | ].
  { apply (inv_nodup _ _ _ _ _ _ Fdmon Hi). }
  intros n w1 (c1 & H1 & H2 & H3 & H4 & H5). destruct (Z.eqb_spec n 0) as [-> | Hn]; cbn [negb].
  - apply ewp_ret. destruct (H2 eq_refl) as [-> ->]. eauto.
  - apply ewp_bind. eapply refresh_but; [done | ]. intros r w2 Hi2 [S1 S2 S3 S4 S5 S6 S7 S8]. apply ewp_ret.
    exists c1. split_and!; [done | | done]. destruct H4. split; rewrite ?S2, ?S3, ?S5, ?S8; auto.
Qed.

Lemma on_events_ok R X p now evs :
  (forall h e, (h_fd h, e) ∈ evs -> notification h e now <> 0 -> R (set_noti (notification h e now) h)) -> forall c w,
  inv X p c w ->
  wp (on_events E p now evs) w (fun _ w' => exists c', inv X p c' w' /\ collects R w c w' c' /\
    forall a fd e, (fd, e) ∈ evs -> a ∈ fdmon_list c -> noticed (heap w) fd e now a -> a ∈ ready_list c').
Proof.
  induction evs as [|[fd e] evs IH]; intros HR c w Hi; cbn [on_events].
  { apply ewp_ret. exists c. split_and!; [done | apply collects_refl | ]. by intros a fd e ?%elem_of_nil. }
  apply ewp_bind. eapply ewp_mono; [apply (on_event_ok R X p c w); [ | done] | ].
  { intros h <- Hn. apply HR; [by left | done]. }
  intros _ w1 (c1 & Hi1 & C1 & N1).
  eapply ewp_mono; [apply (IH ltac:(intros h e' He; apply HR; by right) c1); done | ].
  intros _ w2 (c2 & Hi2 & C2 & N2). exists c2.
  split_and!; [done | by eapply collects_trans | ].
  intros a fd' e' [[= -> ->] | Hin]%elem_of_cons Ha Hnt; [by apply (l_ready _ _ _ _ _ C2), N1 | ].
  destruct (l_fdmon _ _ _ _ _ C1 a Ha) as [Ha1 | Ha1]; [ | by apply (l_ready _ _ _ _ _ C2)].
  eapply N2; [done | done | ]. destruct Hnt as (h & Hh & Hf & Hn).
  destruct (l_heap _ _ _ _ _ C1 a h Hh) as [n Hn']. exists (set_noti n h). by split_and!.
Qed.

Lemma inv_but_timer X p c w fd : inv_but fd X p c w -> fd < 0 -> inv X p c w.
Proof.
  intros (i & Hi & Ho) Hfd. eapply inv_intro; [exact Hi | apply (i_ctx _ _ _ _ _ _ Hi) | done | apply Hi | apply Hi
    | | done | apply Hi | done | apply (i_silent _ _ _ _ _ _ Hi)].
  intros Hcalm Hnc Hfin f Hf. rewrite <- Ho by lia. by apply (i_exact _ _ _ _ _ _ Hi).
Qed.

Lemma handle_to_ready_ok (R : handle -> Prop) X p c w a h noti :
  R (set_noti noti h) -> inv X p c w -> heap w !! a = Some h -> a ∈ timer_list c ->
  wp (handle_to_ready E p a noti) w (fun _ w' =>
    inv X p (linked Ready a (unlink a c)) w' /\ collects R w c w' (linked Ready a (unlink a c))).
Proof.
  intros HR Hi Hh Ht. unfold handle_to_ready. apply ewp_bind. eapply wp_hget; [done | ].
  eapply wp_to_ready; [by apply inv_interest | done | by right | ].
  destruct (inv_to_ready R X p c w a h noti HR Hi Hh (or_intror Ht)) as [Hb Hc].
  destruct (Z.leb_spec 0 (h_fd h)).
  - apply ewp_bind. eapply refresh_but; [done | ]. intros r w2 Hi2 [S1 S2 S3 S4 S5 S6 S7 S8]. apply ewp_ret.
    split; [done | ]. destruct Hc. split; rewrite ?S2, ?S3, ?S5, ?S8; auto.
  - apply ewp_ret. split; [by eapply inv_but_timer | done].
Qed.

Lemma expire_ok (R : handle -> Prop) X p now n :
  (forall h, h_timeout_at h <= now -> R (set_noti FLAG_TIMEOUT h)) -> forall c w,
  inv X p c w -> (length (timer_list c) <= n)%nat ->
  wp (expire E n p now) w (fun _ w' => exists c', inv X p c' w' /\ collects R w c w' c' /\
    forall a, a ∈ timer_list c -> at_of (heap w) a <= now -> a ∈ ready_list c').
Proof.
  intros HR. induction n as [|n IH]; intros c w Hi Hlen; cbn [expire]; apply ewp_bind; (eapply wp_deref; [apply Hi | ]);
    destruct (timer_list c) as [|a r] eqn:El; try (cbn in Hlen; lia).
  { apply ewp_ret. exists c. split_and!; [done | apply collects_refl | by intros a ?%elem_of_nil]. }
  { apply ewp_ret. exists c. split_and!; [done | apply collects_refl | by intros a ?%elem_of_nil]. }
  assert (Hin : a ∈ timer_list c) by (rewrite El; by left).
  destruct (inv_alive _ _ _ _ _ _ Timer Hi a Hin) as [h Hh].
  assert (Hat : at_of (heap w) a = h_timeout_at h) by (unfold at_of; by rewrite Hh).
  apply ewp_bind. eapply wp_hget; [done | ]. destruct (Z.ltb_spec now (h_timeout_at h)) as [Hlt | Hge].
  - apply ewp_ret. exists c. split_and!; [done | apply collects_refl | ].
    pose proof (sh_order _ _ _ (i_shape _ _ _ _ _ _ Hi)) as Ho. rewrite El in Ho.
    inversion Ho as [|? ? _ Hf]; subst. rewrite Forall_forall in Hf.
    intros b [-> | Hb]%elem_of_cons Hle; [lia | ]. specialize (Hf b Hb). lia.
  - apply ewp_bind. eapply ewp_mono; [apply (handle_to_ready_ok R X p c w a h); auto | ]. intros _ w1 [Hi1 C1].
    set (c1 := linked Ready a (unlink a c)) in *.
    assert (Et : timer_list c1 = r).
    { unfold c1. pose proof (inv_nodup _ _ _ _ _ _ Timer Hi) as Hn. cbn in Hn. rewrite El in Hn.
      apply NoDup_cons in Hn as [Hn _]. clear -El Hn. destruct c; cbn in *. subst. by apply without_hd. }
    eapply ewp_mono; [apply (IH c1 w1 Hi1); rewrite Et; cbn in Hlen; lia | ].
    intros _ w2 (c2 & Hi2 & C2 & D2). exists c2. split_and!; [done | by eapply collects_trans | ].
    intros b Hb Hle. destruct (decide (b = a)) as [-> | Hne].
    + apply (l_ready _ _ _ _ _ C2). unfold c1. destruct c; cbn. set_solver.
    + apply D2; [rewrite Et; by apply elem_of_cons in Hb as [? | ?] | ].
      unfold at_of in *. destruct (heap w !! b) as [hb|] eqn:Eb.
      * destruct (l_heap _ _ _ _ _ C1 b hb Eb) as [m ->]. done.
      * by rewrite (l_dom _ _ _ _ _ C1).
Qed.

(* ---------------------------------------------------------------- *)
(** *** After a callback *)

(** The deadline [evb2_arm_timer] computes: zero means the next millisecond. *)
Definition rearm_at (ms now : Z) : Z :=
  if ms =? 0 then (if UINT64_MAX - now <? EVB2_MIN_REARM_MS then UINT64_MAX else now + EVB2_MIN_REARM_MS)
  else deadline ms now.

Lemma rearm_max ms n : sane_ms ms -> rearm_at ms (clock E n) = UINT64_MAX <-> ms = INFINITE.
Proof.
  intros Hms. pose proof (proj1 (te_sane _ _ Etidy) n) as Hn. unfold rearm_at.
  destruct (Z.eqb_spec ms 0) as [-> | H0]; [ | by apply deadline_max].
  change (2 ^ 62) with 4611686018427387904 in Hn. unfold UINT64_MAX, INFINITE, UINT64_MAX, EVB2_MIN_REARM_MS.
  destruct (Z.ltb_spec (18446744073709551615 - clock E n) 1); split; lia.
Qed.

Lemma set_list_get l c : set_list l (get_list l c) c = c.
Proof. by destruct c, l. Qed.

Definition rearmed (h : handle) (w : world) : handle :=
  with_timeout (h_timeout_ms h) (rearm_at (h_timeout_ms h) (clock E (n_clock w))) h.

Lemma wp_arm_timer p c w a h X (Q : unit -> world -> Prop) :
  ctx w = Some (p, c) -> heap w !! a = Some h -> shape c (heap w) X -> a ∉ timer_list c ->
  (h_timeout_at (rearmed h w) = UINT64_MAX ->
    Q tt (set_heap (<[a := rearmed h w]> (heap w)) (tick_clock w))) ->
  (forall l1 l2, h_timeout_at (rearmed h w) <> UINT64_MAX -> timer_list c = l1 ++ l2 ->
    (forall b, b ∈ l1 -> at_of (<[a := rearmed h w]> (heap w)) b <= at_of (<[a := rearmed h w]> (heap w)) a) ->
    (forall b, b ∈ l2 -> at_of (<[a := rearmed h w]> (heap w)) a <= at_of (<[a := rearmed h w]> (heap w)) b) ->
    Q tt (set_ctx (Some (p, set_list Timer (l1 ++ a :: l2) c)) (set_heap (<[a := rearmed h w]> (heap w)) (tick_clock w)))) ->
  wp (evb2_arm_timer E p a) w Q.
Proof.
  intros Hc Hh Hs Ht HQ1 HQ2. unfold evb2_arm_timer. apply ewp_bind, wp_now. apply ewp_bind.
  eapply wp_qent_remove; [done | apply (shape_alive _ _ _ Timer Hs) | apply (shape_nodup _ _ _ Timer Hs) | ].
  cbn [get_list]. rewrite without_id by done. pose proof (set_list_get Timer c) as Hg. cbn [get_list] in Hg.
  rewrite Hg, set_ctx_id by done. apply ewp_bind. eapply wp_hget; [done | ].
  assert (Hk : forall k : M unit,
    wp k (set_heap (<[a := rearmed h w]> (heap w)) (tick_clock w)) Q ->
    wp ((if h_timeout_ms h =? 0
         then hupd a (with_timeout (h_timeout_ms h)
           (if UINT64_MAX - clock E (n_clock w) <? EVB2_MIN_REARM_MS then UINT64_MAX
            else clock E (n_clock w) + EVB2_MIN_REARM_MS))
         else evb2_set_timeout a (clock E (n_clock w)));; k) (tick_clock w) Q).
  { intros k Hk. apply ewp_bind. unfold rearmed, rearm_at in Hk.
    destruct (h_timeout_ms h =? 0); [by eapply wp_hupd | by eapply wp_evb2_set_timeout]. }
  apply Hk. apply ewp_bind. eapply wp_hget; [apply lookup_insert_eq | ].
  destruct (Z.eqb_spec (h_timeout_at (rearmed h w)) UINT64_MAX) as [Hm | Hm]; cbn [negb].
  - apply ewp_ret. by apply HQ1.
  - assert (Hs1 : shape c (<[a := rearmed h w]> (heap w)) X) by (eapply shape_upd; eauto).
    eapply wp_timer_insert; [done | apply lookup_insert_eq | apply (shape_alive _ _ _ Timer Hs1) |
      apply (sh_order _ _ _ Hs1) | done | ]. intros l1 l2 El H1 H2. by apply HQ2.
Qed.

(** What a turn leaves: its own handle is gone or back on its lists, the
    others are as they were. *)
Record finished (p a : Z) (h : handle) (c : evb2) (w w' : world) (c' : evb2) : Prop := Finished {
  f_inv : inv [] p c' w';
  f_ready : ready_list c' = ready_list c;
  f_flags : flags_of c' = flags_of (set_notifying None c);
  f_log : log w' = log w; f_brk : brk w' = brk w; f_canc : cancels w' = cancels w;
  f_other : forall b, b <> a -> heap w' !! b = heap w !! b;
  f_self : heap w' !! a = None \/ exists h', heap w' !! a = Some h' /\ core0 h' = core0 h;
  f_once : has (h_flag2 h) EVB2_FLAG_ONESHOT = true -> heap w' !! a = None }.

(** The invariant once the callback of [a] is no longer running. *)
Lemma inv_done p a c w c' w' :
  inv [a] p c w -> ctx w' = Some (p, c') -> flags_of c' = flags_of (set_notifying None c) ->
  shape c' (heap w') [] -> kinds p c' (heap w') -> exact E closes c' w' ->
  brk w' = brk w -> (forall b, is_Some (heap w' !! b) -> is_Some (heap w !! b)) -> kfds w' = kfds w ->
  silent [] w' -> inv [] p c' w'.
Proof.
  unfold flags_of. intros Hi Hc [= F1 F2 F3 F4 F5 F6 F7 F8] Hs Hk He Hb Ha Hf Hsil. cbn in *.
  split; rewrite ?F1, ?F2, ?F3, ?F4, ?F5, ?F6, ?F7, ?F8, ?Hf, ?Hb; try apply Hi; auto; try done.
  - by intros x ?%elem_of_nil.
  - intros b Hd. apply Hi. auto.
Qed.

(** The end of a turn of the dispatch loop. *)
Definition after_callback (p a : Z) (h : handle) (k : handle -> M Z) : M Z :=
  ctx_upd p (set_notifying None);;
  do h' <- hget a;
  do c <- deref p;
  (if stopping c || has (h_flag2 h') EVB2_FLAG_DEAD || has (h_flag2 h) EVB2_FLAG_ONESHOT
   then free a
   else
     hupd a (set_noti 0);;
     (if 0 <=? h_fd h then qent_insert_tail p Fdmon a else ret tt);;
     evb2_arm_timer E p a;;
     (if 0 <=? h_fd h then epoll_refresh E p (h_fd h);; ret tt else ret tt));;
  k h'.

Lemma finish_free p a h c w w' :
  inv [a] p c w -> heap w !! a = Some h ->
  ctx w' = Some (p, set_notifying None c) -> heap w' = delete a (heap w) -> interest w' = interest w ->
  brk w' = brk w -> kfds w' = kfds w -> log w' = log w -> cancels w' = cancels w ->
  finished p a h c w w' (set_notifying None c).
Proof.
  intros Hi Hh Hc Hhp Hint Hb Hk Hl Hcn. pose proof (i_shape _ _ _ _ _ _ Hi) as Hs.
  split; [ | done | done | done | done | done | | left | intros _]; rewrite ?Hhp; try apply lookup_delete_eq.
  - eapply inv_done; [exact Hi | done | done | ..]; rewrite ?Hhp; try done.
    + eapply shape_lists; [ | by apply shape_free]. done.
    + apply kinds_free. by destruct (i_kinds _ _ _ _ _ _ Hi).
    + eapply exact_same; [apply Hi | done | done | ]. intros f Hf. rewrite Hhp. apply wanted_ext.
      intros b Hin. rewrite lookup_delete_ne; [done | ]. intros ->.
      destruct (sh_x _ _ _ Hs b) as (?&_); [by left | done].
    + intros b [hb [_ Hb']%lookup_delete_Some]. eauto.
    + eapply silent_over; [apply Hi | done | done | done | | left]; rewrite Hhp; [ | apply lookup_delete_eq].
      intros b Hne. by rewrite lookup_delete_ne.
  - intros b Hne. by rewrite lookup_delete_ne.
Qed.

(** A handle that stays is a registered handle with a new deadline. *)
Lemma hok_rearmed p h w : hok p h -> hok p (rearmed (set_noti 0 h) w).
Proof. intros []. split; cbn; auto. by apply rearm_max. Qed.

(** Back on its lists: the new heap and the new lists, the flags as they were. *)
Lemma finish_keep p a h h' c w c' w' :
  inv [a] p c w -> heap w !! a = Some h -> core0 h' = core0 h ->
  has (h_flag2 h) EVB2_FLAG_ONESHOT = false -> ~ dead h ->
  ctx w' = Some (p, c') -> heap w' = <[a := h']> (heap w) ->
  flags_of c' = flags_of (set_notifying None c) -> ready_list c' = ready_list c ->
  brk w' = brk w -> kfds w' = kfds w -> log w' = log w -> cancels w' = cancels w ->
  shape c' (heap w') [] -> kinds p c' (heap w') -> exact E closes c' w' ->
  finished p a h c w w' c'.
Proof.
  intros Hi Hh Hcore Hone Hnd Hc Hhp Hfl Hr Hb Hk Hl Hcn Hs Hkk He.
  split; [ | done | done | done | done | done | | right | congruence]; rewrite ?Hhp.
  - eapply inv_done; [exact Hi | done..| | done | ]; rewrite ?Hhp.
    + intros b [hb [[<- _] | [_ Hb']]%lookup_insert_Some]; eauto.
    + eapply silent_over; [apply Hi | done | done | done | | right; eauto]. rewrite Hhp.
      intros b Hne. by rewrite lookup_insert_ne.
  - intros b Hne. by rewrite lookup_insert_ne.
  - rewrite lookup_insert_eq. eauto.
Qed.

(** The lists once the callback of [a] is done, and [a] with new fields. *)
Lemma shape_after p a h h' c w :
  inv [a] p c w -> heap w !! a = Some h -> shape (set_notifying None c) (<[a := h']> (heap w)) [a].
Proof.
  intros Hi Hh. pose proof (i_shape _ _ _ _ _ _ Hi) as Hs. eapply shape_lists with c; [done | ].
  eapply shape_upd; [done | done | right]. apply (sh_x _ _ _ Hs a). by left.
Qed.

Lemma kinds_after p a h h' c w :
  inv [a] p c w -> heap w !! a = Some h -> hok p h' -> h_fd h' = h_fd h ->
  kinds p (set_notifying None c) (<[a := h']> (heap w)).
Proof.
  intros Hi Hh Hok Hfd. eapply kinds_upd; [ | done | done | done | ].
  - by destruct (i_kinds _ _ _ _ _ _ Hi).
  - intros Hf. destruct (sh_x _ _ _ (i_shape _ _ _ _ _ _ Hi) a) as (Hn & _); [by left | done].
Qed.

Lemma off_lists a p c w l : inv [a] p c w -> a ∉ get_list l c.
Proof.
  intros Hi. destruct (sh_x _ _ _ (i_shape _ _ _ _ _ _ Hi) a) as (?&?&?&?); [by left | by destruct l].
Qed.

Lemma keep_timer p a h c w :
  inv [a] p c w -> heap w !! a = Some h -> has (h_flag2 h) EVB2_FLAG_ONESHOT = false -> ~ dead h -> h_fd h < 0 ->
  wp (hupd a (set_noti 0);; ret tt;; evb2_arm_timer E p a;; ret tt) (set_ctx (Some (p, set_notifying None c)) w)
    (fun _ w' => exists c', finished p a h c w w' c').
Proof.
  intros Hi Hh Hone Hnd Hneg. pose proof (k_hok _ _ _ (i_kinds _ _ _ _ _ _ Hi) a h Hh) as Hok.
  assert (Hfd : h_fd h = -1) by (pose proof (ok_fd _ _ Hok); lia).
  set (c0 := set_notifying None c). apply ewp_bind. eapply wp_hupd; [done | ].
  set (h0 := set_noti 0 h). set (w1 := set_heap _ _). apply ewp_bind, ewp_ret, ewp_bind.
  assert (Hok1 : hok p (rearmed h0 w1)) by (by apply hok_rearmed).
  eapply (wp_arm_timer p c0 w1 a h0 [a]); [done | apply lookup_insert_eq | by apply (shape_after p a h h0 c w) |
    apply (off_lists a p c w Timer Hi) | | ].
  { intros Hm. by destruct (ok_timer _ _ Hok1 Hfd (proj1 (ok_at _ _ Hok1) Hm)). }
  assert (Hhp : <[a := rearmed h0 w1]> (heap w1) = <[a := rearmed h0 w1]> (heap w)) by apply insert_insert_eq.
  intros l1 l2 Hm El H1 H2. rewrite Hhp in *. apply ewp_ret.
  exists (set_list Timer (l1 ++ a :: l2) c0).
  eapply (finish_keep p a h (rearmed h0 w1)); try done; try (by unfold c0; destruct c); cbn [heap set_ctx set_heap].
  - apply shape_arm_X; [by eapply shape_after | done..].
  - eapply kinds_arm; [by eapply kinds_after | apply lookup_insert_eq | by left | done].
  - eapply exact_same; [apply Hi | by unfold c0; destruct c | done | ]. intros f Hf. cbn.
    replace (fdmon_list (set_list Timer (l1 ++ a :: l2) c0)) with (fdmon_list c) by (by unfold c0; destruct c).
    apply wanted_ext. intros b Hb. rewrite lookup_insert_ne; [done | ]. intros <-.
    by apply (off_lists a p c w Fdmon Hi).
Qed.

Lemma keep_fd p a h c w :
  inv [a] p c w -> heap w !! a = Some h -> has (h_flag2 h) EVB2_FLAG_ONESHOT = false -> ~ dead h -> 0 <= h_fd h ->
  wp (hupd a (set_noti 0);; qent_insert_tail p Fdmon a;; evb2_arm_timer E p a;;
      epoll_refresh E p (h_fd h);; ret tt) (set_ctx (Some (p, set_notifying None c)) w)
    (fun _ w' => exists c', finished p a h c w w' c').
Proof.
  intros Hi Hh Hone Hnd Hfd. pose proof (k_hok _ _ _ (i_kinds _ _ _ _ _ _ Hi) a h Hh) as Hok.
  set (c0 := set_notifying None c). apply ewp_bind. eapply wp_hupd; [done | ].
  set (h0 := set_noti 0 h). apply ewp_bind.
  eapply (wp_qent_insert p Fdmon a c0 []); [done | by apply (shape_after p a h h0 c w) | done | ].
  set (c1 := linked Fdmon a c0). set (w1 := set_ctx (Some (p, c1)) _).
  assert (Hok1 : hok p (rearmed h0 w1)) by (by apply hok_rearmed). set (h1 := rearmed h0 w1) in *.
  assert (Hhp : <[a := h1]> (heap w1) = <[a := h1]> (heap w)) by apply insert_insert_eq.
  assert (Hnt : a ∉ timer_list c1).
  { replace (timer_list c1) with (timer_list c) by (by unfold c1, c0; destruct c). apply (off_lists a p c w Timer Hi). }
  assert (Hs1 : forall hx, shape c1 (<[a := hx]> (heap w)) []).
  { intros hx. apply shape_link; [by eapply shape_after | done]. }
  assert (Hend : forall c2 w2, ctx w2 = Some (p, c2) -> heap w2 = <[a := h1]> (heap w) ->
    flags_of c2 = flags_of c0 -> ready_list c2 = ready_list c -> fdmon_list c2 = fdmon_list c ++ [a] ->
    brk w2 = brk w -> kfds w2 = kfds w -> log w2 = log w -> cancels w2 = cancels w -> interest w2 = interest w ->
    shape c2 (<[a := h1]> (heap w)) [] -> kinds p c2 (<[a := h1]> (heap w)) ->
    wp (epoll_refresh E p (h_fd h);; ret tt) w2 (fun _ w' => exists c', finished p a h c w w' c')).
  { intros c2 w2 Hc Hh2 Hfl Hr Hfm Hb Hk Hl Hcn Hint Hs Hkk. apply ewp_bind.
    eapply wp_epoll_refresh; [done | pose proof (i_p _ _ _ _ _ _ Hi); lia | rewrite Hh2; apply (shape_alive _ _ _ Fdmon Hs) | | ].
    { unfold flags_of in Hfl. injection Hfl as -> ? ? ? ? ? ? ?. apply Hi. }
    intros r w3 [S1 S2 S3 S4 S5 S6 S7 S8] Hi3. apply ewp_ret. exists c2.
    eapply (finish_keep p a h h1); rewrite ?S2, ?Hh2; try done; try congruence.
    intros Hcalm Hnc Hfin f Hf. destruct (Hi3 Hcalm) as [_ ->]; [ | done]. rewrite S2, Hh2, Hfm, Hint.
    destruct (decide (f = h_fd h)) as [-> | Hne]; [done | ].
    rewrite (wanted_snoc _ a h1) by (done || apply lookup_insert_eq). rewrite (i_exact _ _ _ _ _ _ Hi); try done.
    - symmetry. apply wanted_ext. intros b Hin. rewrite lookup_insert_ne; [done | ]. intros <-.
      by apply (off_lists a p c w Fdmon Hi).
    - unfold flags_of in Hfl. unfold c0 in Hfl. cbn in Hfl. congruence. }
  apply ewp_bind. eapply (wp_arm_timer p c1 w1 a h0 []); [done | apply lookup_insert_eq | apply Hs1 | done | | ];
    fold h1; rewrite Hhp.
  - intros Hm. apply (Hend c1); try done; try (by unfold c1, c0; destruct c).
    eapply kinds_watch; [by eapply kinds_after | apply lookup_insert_eq | done | done].
  - intros l1 l2 Hm El H1 H2. apply (Hend (set_list Timer (l1 ++ a :: l2) c1)); try done; try (by unfold c1, c0; destruct c).
    + apply shape_arm; try done. unfold c1, c0. destruct c. cbn. set_solver.
    + eapply kinds_watch_arm; [by eapply kinds_after | apply lookup_insert_eq | done | ].
      rewrite <- El. by unfold c1, c0; destruct c.
Qed.

Lemma after_callback_ok p a h0 h c w k Q :
  inv [a] p c w -> heap w !! a = Some h -> core0 h = core0 h0 ->
  (forall w' c', finished p a h c w w' c' -> wp (k h) w' Q) ->
  wp (after_callback p a h0 k) w Q.
Proof.
  intros Hi Hh Hcore HQ. unfold core0 in Hcore. injection Hcore as _ _ Hfd Hone _.
  unfold after_callback. rewrite <- Hfd, <- Hone.
  apply ewp_bind. eapply wp_ctx_upd; [apply Hi | ]. apply ewp_bind. eapply wp_hget; [done | ].
  apply ewp_bind. eapply wp_deref; [done | ].
  destruct (stopping (set_notifying None c) || has (h_flag2 h) EVB2_FLAG_DEAD || has (h_flag2 h) EVB2_FLAG_ONESHOT) eqn:Hg.
  - apply ewp_bind, wp_free; [cbn; eauto | ]. by eapply HQ, finish_free.
  - apply orb_false_iff in Hg as [[_ Hnd]%orb_false_iff Hone'].
    assert (Hnd' : ~ dead h) by (unfold dead; congruence). apply ewp_bind.
    eapply ewp_mono with (Q := fun _ w' => exists c', finished p a h c w w' c'); [ | intros _ w' [c' Hf]; by eapply HQ].
    destruct (Z.leb_spec 0 (h_fd h)) as [Hp | Hn]; [by apply keep_fd | by apply keep_timer].
Qed.

(* ---------------------------------------------------------------- *)
(** *** The dispatch loop *)

(** A handle whose callback starts. *)
Definition running (a : Z) (c : evb2) : evb2 := set_notifying (Some a) (unlink a c).

Lemma inv_running a p c w :
  inv [] p c w -> a ∈ ready_list c -> in_run c = true ->
  inv [a] p (running a c) (set_ctx (Some (p, running a c)) w).
Proof.
  intros Hi Ha Hr. pose proof (i_shape _ _ _ _ _ _ Hi) as Hs. pose proof (inv_alive _ _ _ _ _ _ Ready Hi a Ha) as Hal.
  unfold running. split; cbn [heap ctx brk kfds set_ctx]; try apply Hi; try done; try (by destruct c; apply Hi).
  - eapply shape_lists; [ | apply shape_unlink; [done | done | apply not_elem_of_nil]]. by destruct c.
  - destruct (kinds_unlink a _ _ _ (i_kinds _ _ _ _ _ _ Hi)). by destruct c.
  - eapply exact_same; [apply Hi | by destruct c | done | ]. intros f Hf. cbn [heap set_ctx].
    replace (fdmon_list (set_notifying (Some a) (unlink a c))) with (without a (fdmon_list c)) by (by destruct c).
    rewrite without_id; [done | ]. intros Hf1. by apply (sh_fr _ _ _ Hs a).
  - intros _. by destruct c.
  - intros x ->%list_elem_of_singleton. left. by destruct c.
  - intros x Hx. replace (notifying (set_notifying (Some a) (unlink a c))) with (Some a) in Hx by (by destruct c).
    injection Hx as ->. by left.
  - apply silent_more, Hi.
Qed.

(** The entry a turn of handle [a] leaves, with what its callback made. *)
Lemma made_turn p a h h2 c2 w w1 w2 w3 c3 es :
  heap w !! a = Some h -> heap w1 = heap w -> brk w1 = brk w -> log w1 = log w ->
  made [a] (set_log (log w1 ++ own a h (h_noti h)) w1) w2 es ->
  core0 h2 = core0 h -> finished p a h2 c2 w2 w3 c3 -> made [] w w3 (own a h (h_noti h) ++ es).
Proof.
  intros Ha Hh Hb Hl [L S O] Hc F. cbn in L, S, O. rewrite Hh in S, O. rewrite Hb in S. split.
  - by rewrite (f_log _ _ _ _ _ _ _ F), L, Hl, app_assoc.
  - intros e [He | He]%elem_of_app; (split; [ | apply not_elem_of_nil]).
    + rewrite (own_src _ _ _ _ He). left. eauto.
    + by apply (S e He).
  - intros b hb Hbh Ho. rewrite calls_app. destruct (decide (b = a)) as [-> | Hne].
    + rewrite (calls_none a es).
      * rewrite Ha in Hbh. injection Hbh as <-. unfold core0 in Hc. injection Hc as _ _ _ Hone _.
        rewrite (f_once _ _ _ _ _ _ _ F) by congruence.
        destruct (calls_own a a h (h_noti h)) as [-> | [-> _]]; split; auto; lia.
      * intros e He <-. destruct (S e He) as [_ Hn]. apply Hn. by left.
    + rewrite (f_other _ _ _ _ _ _ _ F) by done. destruct (O b hb Hbh Ho) as [N D].
      destruct (calls_own b a h (h_noti h)) as [-> | [_ ?]]; [ | done]. by split.
Qed.

Lemma finished_older p a h c w w' c' : heap w !! a = Some h -> finished p a h c w w' c' -> older w w'.
Proof.
  intros Hh F. split.
  - by rewrite (f_brk _ _ _ _ _ _ _ F).
  - by rewrite (f_canc _ _ _ _ _ _ _ F).
  - intros b Hb Hd. rewrite (f_other _ _ _ _ _ _ _ F); [done | ]. congruence.
  - intros b h1 h2 Hb H1 H2. destruct (decide (b = a)) as [-> | Hne].
    + rewrite Hh in H1. injection H1 as <-. destruct (f_self _ _ _ _ _ _ _ F) as [? | (h' & Hh' & Hc)]; congruence.
    + rewrite (f_other _ _ _ _ _ _ _ F) in H2 by done. congruence.
Qed.

(** What the whole loop leaves: nothing is ready, and every handle that was
    had its callback, with its flags, unless a client cancelled it. *)
Record dispatched (p : Z) (w : world) (c : evb2) (w' : world) (c' : evb2) (es : list entry) : Prop := Dispatched {
  d_inv : inv [] p c' w';
  d_older : older w w';
  d_run : in_run c' = in_run c; d_fin : finalized c' = finalized c;
  d_stop : stopping c = true -> stopping c' = true;
  d_empty : ready_list c' = [];
  d_made : made [] w w' es;
  d_all : forall a h cl, a ∈ ready_list c -> heap w !! a = Some h -> h_cb h = User cl ->
    Entry a cl (h_fd h) (h_noti h) (h_ud h) ∈ es \/ exists n, (a, n) ∈ cancels w' }.

(** One turn, and the rest by what the rest leaves. *)
Lemma dispatch_turn p a h h2 c w c2 w2 c3 w3 w4 c4 es es' :
  inv [] p c w -> a ∈ ready_list c -> heap w !! a = Some h -> finalized c = false ->
  let w1 := set_ctx (Some (p, running a c)) w in
  evolves w1 (running a c) w2 c2 -> inv [a] p c2 w2 -> heap w2 !! a = Some h2 ->
  made [a] (set_log (log w1 ++ own a h (h_noti h)) w1) w2 es ->
  finished p a h2 c2 w2 w3 c3 -> dispatched p w3 c3 w4 c4 es' ->
  dispatched p w c w4 c4 ((own a h (h_noti h) ++ es) ++ es').
Proof.
  intros Hi Ha Hh Hfin w1 Hev Hi2 Hh2 Hm F D.
  assert (Hlt : forall b, is_Some (heap w !! b) -> b < brk w) by (intros b Hb; by apply Hi).
  assert (Hc0 : core0 h2 = core0 h).
  { pose proof (q_core _ _ _ _ Hev a h h2 ltac:(apply Hlt; eauto) Hh Hh2) as Hc. unfold core in Hc. unfold core0. congruence. }
  pose proof (f_flags _ _ _ _ _ _ _ F) as Hfl. unfold flags_of in Hfl. cbn in Hfl.
  injection Hfl as _ _ _ _ _ Fst Frun Ffin.
  assert (O13 : older w w3).
  { eapply older_trans; [ | by eapply finished_older]. destruct (evolves_older _ _ _ _ Hev) as [B1 P1 D1 C1]. by split. }
  split.
  - apply D.
  - eapply older_trans; [done | apply D].
  - rewrite (d_run _ _ _ _ _ _ D), Frun, (q_run _ _ _ _ Hev). by destruct c.
  - rewrite (d_fin _ _ _ _ _ _ D), Ffin, (q_fin _ _ _ _ Hev). by destruct c.
  - intros Hst. apply (d_stop _ _ _ _ _ _ D). rewrite Fst. apply Hev. by destruct c.
  - apply D.
  - eapply made_trans; [done | done | apply D | | apply D]. by apply (made_turn p a h h2 c2 w w1 w2 w3 c3).
  - intros b hb cl Hb Hhb Hcb. destruct (decide (b = a)) as [-> | Hne].
    { left. rewrite Hh in Hhb. injection Hhb as <-. rewrite elem_of_app, elem_of_app. left; left.
      unfold own. rewrite Hcb. by left. }
    assert (Hb1 : b ∈ ready_list (running a c)).
    { unfold running. destruct c; cbn in *. by apply elem_of_without. }
    destruct (q_left _ _ _ _ Hev ltac:(by destruct c) b ltac:(apply Hlt; eauto) Hb1) as [Hb2 | [n Hn]].
    2: { right. exists n. eapply elem_of_prefix; [ | apply (o_canc _ _ (d_older _ _ _ _ _ _ D))]. by rewrite (f_canc _ _ _ _ _ _ _ F). }
    destruct (inv_alive _ _ _ _ _ _ Ready Hi2 b Hb2) as [hb2 E2].
    pose proof (q_core _ _ _ _ Hev b hb hb2 ltac:(apply Hlt; eauto) Hhb E2) as Hc. unfold core in Hc.
    injection Hc as C1 C2 C3 C4 _ _.
    destruct (d_all _ _ _ _ _ _ D b hb2 cl) as [Hin | ?]; [ | | congruence | left | by right].
    + by rewrite (f_ready _ _ _ _ _ _ _ F).
    + by rewrite (f_other _ _ _ _ _ _ _ F).
    + rewrite elem_of_app. right. congruence.
Qed.

Lemma pop_ready a r p c w :
  inv [] p c w -> ready_list c = a :: r ->
  set_list Ready r c = unlink a c /\ r = without a (ready_list c).
Proof.
  intros Hi El. pose proof (i_shape _ _ _ _ _ _ Hi) as Hs. assert (Ha : a ∈ ready_list c) by (rewrite El; by left).
  pose proof (sh_nr _ _ _ Hs) as Hn. rewrite El in Hn. apply NoDup_cons in Hn as [Hn _].
  assert (Hno : a ∉ fdmon_list c /\ a ∉ timer_list c /\ a ∉ async_list c).
  { split_and!; intros Hx; [by apply (sh_fr _ _ _ Hs a) | by apply (sh_tr _ _ _ Hs a) | by apply (sh_ra _ _ _ Hs a)]. }
  rewrite El, without_hd by done. split; [ | done]. destruct Hno as (?&?&?). lists c. subst cr.
  by rewrite without_hd, (without_id a cf), (without_id a ct), (without_id a ca).
Qed.

Lemma dispatch_ok d n p : forall c w,
  inv [] p c w -> in_run c = true -> finalized c = false -> (length (ready_list c) <= n)%nat ->
  wp (dispatch E (invoke E (S (S d))) n p) w (fun cnt w' => exists c' es,
    0 <= cnt /\ dispatched p w c w' c' es).
Proof.
  induction n as [|n IH]; intros c w Hi Hr Hf Hlen; cbn [dispatch]; apply ewp_bind;
    (eapply wp_qent_pop; [apply Hi | apply (inv_alive _ _ _ _ _ _ Ready Hi) | ]); cbn [get_list];
    destruct (ready_list c) as [|a r] eqn:El; try (cbn in Hlen; lia).
  1,2: apply ewp_ret; exists c, []; split; [done | ]; split; try done; [apply older_refl | by apply made_nil | ];
    intros a h cl; rewrite El; by intros ?%elem_of_nil.
  destruct (pop_ready a r p c w Hi El) as [-> Hr']. assert (Ha : a ∈ ready_list c) by (rewrite El; by left).
  destruct (inv_alive _ _ _ _ _ _ Ready Hi a Ha) as [h Hh].
  apply ewp_bind. eapply wp_hget; [done | ]. apply ewp_bind. eapply wp_ctx_upd; [done | ]. rewrite set_ctx2.
  fold (running a c). pose proof (inv_running a p c w Hi Ha Hr) as Hi1. set (w1 := set_ctx _ w) in *.
  pose proof (k_hok _ _ _ (i_kinds _ _ _ _ _ _ Hi) a h Hh) as Hok.
  apply ewp_bind. replace (match h_cb h with NoCb => ret tt | cb => invoke E (S (S d)) a cb (h_fd h) (h_noti h) (h_ud h) end)
    with (invoke E (S (S d)) a (h_cb h) (h_fd h) (h_noti h) (h_ud h))
    by (by destruct (h_cb h) eqn:E1; [destruct (ok_cb _ _ Hok) | ..]).
  assert (Hu : uncancelled a w1).
  { eapply (silent_uncancelled [] w); [apply (i_silent _ _ _ _ _ _ Hi) | eauto | apply not_elem_of_nil]. }
  eapply ewp_mono; [apply (invoke_any closes E Etidy d [] p (running a c) w1 a h (h_noti h)); done | ].
  intros _ w2 (c2 & es & Hi2 & Hev & Hm).
  destruct (shape_alive_X _ _ _ a (i_shape _ _ _ _ _ _ Hi2)) as [h2 Hh2]; [by left | ].
  assert (Hc0 : core0 h2 = core0 h).
  { pose proof (q_core _ _ _ _ Hev a h h2 ltac:(apply Hi; eauto) Hh Hh2) as Hc. unfold core in Hc. unfold core0. congruence. }
  eapply (after_callback_ok p a h h2 c2 w2); [done | done | done | ]. intros w3 c3 F.
  pose proof (f_flags _ _ _ _ _ _ _ F) as Hfl. unfold flags_of in Hfl. injection Hfl as _ _ _ _ _ _ Frun Ffin.
  cbn in Frun, Ffin. apply ewp_bind. eapply ewp_mono; [apply (IH c3) | ].
  - apply F.
  - rewrite Frun, (q_run _ _ _ _ Hev). by destruct c.
  - rewrite Ffin, (q_fin _ _ _ _ Hev). by destruct c.
  - rewrite (f_ready _ _ _ _ _ _ _ F). etrans; [apply sublist_length, Hev | ].
    replace (ready_list (running a c)) with (without a (ready_list c)) by (by destruct c).
    rewrite <- Hr'. cbn in Hlen. lia.
  - intros cnt w4 (c4 & es' & Hcnt & D). apply ewp_ret. exists c4, ((own a h (h_noti h) ++ es) ++ es').
    split; [destruct (has _ _); lia | ]. by eapply (dispatch_turn p a h h2 c w c2 w2 c3 w3).
Qed.
End Run.
