(* ===== verification/Evb2Loop.v ===== *)
(** Evb2Loop: a whole pass of the event loop, its construction and destruction,
    and clients of it from the start of the process to its end. *)

From stdpp Require Import gmap sorting.
From S2P Require Import Prelude Eff Evb2 Evb2Inv Evb2Ops Evb2Safe Evb2Run.

Open Scope eff_scope.

Section Pass.
Context (closes : Prop) (E : env) (Etidy : tidy_env closes E).
Notation inv := (inv E closes).
Notation stays := (stays E closes).
Notation turn := (turn closes E).

(* ---------------------------------------------------------------- *)
(** *** After [epoll_wait] *)

(** What an answer [e] of epoll means for a handle: the events it asked for,
    and errors it is told of though it cannot ask. *)
Definition events_of (h : handle) (e : Z) : Z := Z.land (from_epoll e) (h_flag h).
Definition trouble (e : Z) : bool := has e (Z.lor EPOLLERR EPOLLHUP).
Definition concerned (h : handle) (e now : Z) : Prop :=
  events_of h e <> 0 \/ trouble e = true \/ h_timeout_at h <= now.
(** The flags its callback gets. *)
Definition told (h : handle) (e now n : Z) : Prop :=
  n = Z.lor (if trouble e && (events_of h e =? 0) then FLAG_EXCEPT else events_of h e)
            (if bool_decide (h_timeout_at h <= now) then FLAG_TIMEOUT else 0).

Lemma notification_told h e now : told h e now (notification h e now).
Proof.
  unfold told, notification. fold (trouble e) (events_of h e). replace (bool_decide _) with (h_timeout_at h <=? now)
    by (apply eq_true_iff_eq; rewrite bool_decide_eq_true; apply Z.leb_le).
  destruct (Z.eqb_spec (events_of h e) 0) as [-> | _], (trouble e), (h_timeout_at h <=? now);
    cbn [andb]; by rewrite ?Z.lor_0_r.
Qed.

Lemma notification_concerned h e now : notification h e now <> 0 <-> concerned h e now.
Proof.
  rewrite (notification_told h e now), Z.lor_eq_0_iff. unfold concerned.
  assert (Hx : FLAG_EXCEPT <> 0) by done. assert (Ht : FLAG_TIMEOUT <> 0) by done.
  destruct (Z.eqb_spec (events_of h e) 0) as [Hz | Hz], (trouble e); case_bool_decide; cbn [andb]; naive_solver.
Qed.

(** Why a handle is called: an event it asked for, or its deadline. *)
Definition reason (evs : list (Z * Z)) (now : Z) (h : handle) : Prop :=
  (exists e, (h_fd h, e) ∈ evs /\ concerned h e now /\ told h e now (h_noti h)) \/
  h_timeout_at h <= now /\ h_noti h = FLAG_TIMEOUT.

(** The handles the events and the clock concern. *)
Definition due (evs : list (Z * Z)) (now : Z) (w : world) (c : evb2) (a : Z) : Prop :=
  exists h, heap w !! a = Some h /\
  ((a ∈ fdmon_list c /\ exists e, (h_fd h, e) ∈ evs /\ concerned h e now) \/
   (a ∈ timer_list c /\ h_timeout_at h <= now)).

Lemma collects_older R w c w' c' : collects R w c w' c' -> older w w'.
Proof.
  intros C. split; [by rewrite (l_brk _ _ _ _ _ C) | by rewrite (l_canc _ _ _ _ _ C) | intros a _; apply C | ].
  intros a h h' _ H1 H2. destruct (l_heap _ _ _ _ _ C a h H1) as [n Hn]. rewrite Hn in H2. by injection H2 as <-.
Qed.

(** A pass: the invariant, the callbacks, and nothing left to dispatch. *)
Record passed (p : Z) (w : world) (c : evb2) (w' : world) (c' : evb2) (es : list entry) : Prop := Passed {
  p_inv : inv [] p c' w'; p_older : older w w';
  p_run : in_run c' = in_run c; p_fin : finalized c' = finalized c;
  p_empty : ready_list c' = []; p_made : made [] w w' es }.

Lemma process_ok d p evs c w :
  inv [] p c w -> in_run c = true -> finalized c = false -> ready_list c = [] ->
  wp (process E (invoke E (S (S d))) p evs) w (fun cnt w' => exists c' es,
    0 <= cnt /\ passed p w c w' c' es /\
    forall a h cl, due evs (clock E (n_clock w)) w c a -> heap w !! a = Some h -> h_cb h = User cl ->
      (exists n, reason evs (clock E (n_clock w)) (set_noti n h) /\ Entry a cl (h_fd h) n (h_ud h) ∈ es) \/
      exists n, (a, n) ∈ cancels w').
Proof.
  intros Hi Hr Hf He. set (now := clock E (n_clock w)). set (R := reason evs now).
  unfold process. apply ewp_bind, wp_now. fold now.
  assert (Hi0 : inv [] p c (tick_clock w)) by (by destruct Hi).
  apply ewp_bind. eapply ewp_mono; [apply (on_events_ok closes E Etidy R [] p now evs) with (c := c); [ | done] | ].
  { intros h e Hin Hn. left. exists e. split_and!; [done | by apply notification_concerned in Hn | apply notification_told]. }
  intros _ w1 (c1 & Hi1 & C1 & N1). apply ewp_bind, ewp_bind. eapply wp_deref; [apply Hi1 | ].
  eapply ewp_mono; [apply (expire_ok closes E Etidy R [] p now _) with (c := c1); [by right | done | done] | ].
  intros _ w2 (c2 & Hi2 & C2 & D2). apply ewp_bind. eapply wp_deref; [apply Hi2 | ].
  pose proof (collects_trans _ _ _ _ _ _ _ C1 C2) as C. pose proof (l_flags _ _ _ _ _ C) as Hfl.
  unfold flags_of in Hfl. injection Hfl as _ _ _ _ _ _ Frun Ffin.
  eapply ewp_mono; [apply (dispatch_ok closes E Etidy d _ p c2); [done | congruence | congruence | done] | ].
  intros cnt w3 (c3 & es & Hcnt & D). exists c3, es. split; [done | ]. split.
  - assert (O2 : older w w2) by (destruct (collects_older _ _ _ _ _ C) as [B0 P0 D0 C0]; by split).
    split; [apply D | eapply older_trans; [done | apply D] | | | apply D | ].
    + by rewrite (d_run _ _ _ _ _ _ _ _ D).
    + by rewrite (d_fin _ _ _ _ _ _ _ _ D).
    + change es with ([] ++ es). eapply made_trans; [ | done | apply D | | apply D].
      * intros a Ha. by apply Hi.
      * apply made_nil. by rewrite (l_log _ _ _ _ _ C).
  - intros a h cl Hdue Hh Hcb. assert (Hrd : a ∈ ready_list c2).
    { destruct Hdue as (h' & Hh' & Hdue). rewrite Hh in Hh'. injection Hh' as <-.
      destruct Hdue as [(Ha & e & Hin & Hnt) | [Ha Hat]].
      - apply (l_ready _ _ _ _ _ C2). eapply N1; [done | done | ]. exists h.
        split_and!; [done | done | by apply notification_concerned].
      - destruct (l_timer _ _ _ _ _ C1 a Ha) as [Ha1 | Ha1]; [ | by apply (l_ready _ _ _ _ _ C2)].
        apply D2; [done | ]. destruct (l_heap _ _ _ _ _ C1 a h Hh) as [n Hn].
        unfold at_of. by rewrite Hn. }
    destruct (l_heap _ _ _ _ _ C a h Hh) as [n Hn].
    destruct (l_why _ _ _ _ _ C a _ Hrd Hn) as [[Hno _] | HR]; [rewrite He in Hno; by apply elem_of_nil in Hno | ].
    destruct (d_all _ _ _ _ _ _ _ _ D a _ cl Hrd Hn Hcb) as [Hin | ?]; [left | by right]. exists n. by split.
Qed.

(* ---------------------------------------------------------------- *)
(** *** Waiting *)

Lemma remotes_ok p X l : forall c w,
  inv X p c w -> (forall ms cb ud, (ms, cb, ud) ∈ l -> sane_ms ms /\ cb_ok cb = true) ->
  wp (remotes E p l) w (fun _ w' => exists c', stays X p c w w' c').
Proof.
  induction l as [|[[ms cb] ud] l IH]; intros c w Hi Hl; cbn [remotes].
  { apply ewp_ret. exists c. by apply stays_refl. }
  destruct (Hl ms cb ud) as [Hms Hcb]; [by left | ]. apply ewp_bind.
  eapply ewp_mono; [apply (add_oneshot_timer_ok E closes (te_sane _ _ Etidy) X p c w ms cb ud); [done | done | ] | ].
  { by eapply cb_ok_async. }
  intros _ w1 (c1 & S1). eapply ewp_mono; [apply (IH c1); [apply S1 | ] | ].
  { intros ms' cb' ud' Hin. apply (Hl ms' cb' ud'). by right. }
  intros _ w2 (c2 & S2). exists c2. by eapply stays_trans.
Qed.

Lemma epoll_wait_ok X p c w t :
  inv X p c w -> wp (epoll_wait E p t) w (fun _ w' => exists c', stays X p c w w' c').
Proof.
  intros Hi. unfold epoll_wait. apply ewp_bind, wp_gets, ewp_bind, ewp_modify. cbv zeta. apply ewp_bind.
  assert (S1 : stays X p c w (tick_wait w) c).
  { split_and!; [by destruct Hi | by destruct (evolves_refl w c) | done]. }
  eapply ewp_mono; [apply (remotes_ok p X _ c); [apply S1 | apply (te_remote _ _ Etidy)] | ].
  intros _ w2 (c2 & S2). apply ewp_ret. exists c2. by eapply stays_trans.
Qed.

(* ---------------------------------------------------------------- *)
(** *** Between calls *)

(** A loop at rest, or no loop at all. *)
Record rest (p : Z) (c : evb2) (w : world) : Prop := Rest {
  r_inv : inv [] p c w; r_run : in_run c = false; r_fin : finalized c = false; r_ready : ready_list c = [] }.

Definition settled (w : world) : Prop := (freed w /\ silent [] w) \/ exists p c, rest p c w.

Lemma settled_silent w : settled w -> silent [] w.
Proof. intros [[_ S] | (p & c & R)]; [done | apply (i_silent _ _ _ _ _ _ (r_inv _ _ _ R))]. Qed.

(** What a call from outside of callbacks leaves. *)
Definition served (w w' : world) : Prop := settled w' /\ older w w' /\ exists es, made [] w w' es.

Lemma older_freed w w' :
  freed w' -> brk w <= brk w' -> cancels w `prefix_of` cancels w' -> older w w'.
Proof.
  intros (_ & Hh & _) Hb Hp. split; [done | done | intros; by rewrite Hh, lookup_empty | ].
  intros a h h' _ _. by rewrite Hh, lookup_empty.
Qed.

Lemma served_trans p c w w1 c1 w2 es :
  inv [] p c w -> inv [] p c1 w1 -> older w w1 -> made [] w w1 es -> served w1 w2 -> served w w2.
Proof.
  intros Hi Hi1 O1 M1 (S & O2 & es2 & M2). split_and!; [done | by eapply older_trans | ].
  exists (es ++ es2). eapply made_trans; [ | done..]. intros a Ha. by apply Hi.
Qed.

Lemma turn_served p c w w1 c1 w2 :
  inv [] p c w -> turn [] p c w w1 c1 -> served w1 w2 -> served w w2.
Proof.
  intros Hi (Hi1 & V1 & es & M1) S. eapply (served_trans p c w w1 c1 w2 es); try done. by eapply evolves_older.
Qed.

Lemma flag_move p c w c' :
  inv [] p c w -> lists_of c' = lists_of c -> notifying c' = notifying c -> locked c' = locked c ->
  finalized c' = finalized c -> (stopping c = true -> stopping c' = true) ->
  (epfd c', pipe0 c', pipe1 c') = (epfd c, pipe0 c, pipe1 c) ->
  inv [] p c' (set_ctx (Some (p, c')) w).
Proof.
  intros Hi Hl Hn Hk Hf Hs [= F1 F2 F3].
  split; cbn [heap ctx brk kfds set_ctx]; rewrite ?Hn, ?Hk, ?Hf, ?F1, ?F2, ?F3; try apply Hi; try done.
  - eapply shape_lists; [done | apply Hi].
  - unfold lists_of in Hl. injection Hl as L1 L2 L3 L4.
    destruct (i_kinds _ _ _ _ _ _ Hi). by split; rewrite ?L1, ?L2, ?L3, ?L4.
  - unfold lists_of in Hl. injection Hl as L1 L2 L3 L4.
    eapply exact_same; [apply Hi | done | done | ]. intros f Hf0. by rewrite L1.
  - by intros x ?%elem_of_nil.
  - intros Hfin. by apply Hs, (i_fin _ _ _ _ _ _ Hi).
Qed.

Lemma moved_served p c w c' w2 :
  inv [] p c w -> inv [] p c' (set_ctx (Some (p, c')) w) -> served (set_ctx (Some (p, c')) w) w2 -> served w w2.
Proof.
  intros Hi Hi'. eapply (served_trans p c w _ c' w2 []); [done | done | | by apply made_nil].
  by destruct (older_refl w).
Qed.

Lemma free_served d p c w :
  inv [] p c w -> stopping c = true -> finalized c = false -> in_run c = true ->
  wp (evb2_free (invoke E (S d)) p) w (fun _ w' => served w w' /\ freed w').
Proof.
  intros Hi Hs Hf Hr. eapply ewp_mono; [apply (free_ok closes E Etidy _ p c); [by apply invoke_client | done..] | ].
  intros _ w' (Hfr & Hsl & Hb & Hp & Hm). split_and!; [ | done]. split_and!; [by left | by apply older_freed | done].
Qed.

Lemma leave_ok d p c w rc :
  inv [] p c w -> in_run c = true -> finalized c = false -> ready_list c = [] ->
  wp (evb2_run_leave (invoke E (S d)) p rc) w (fun _ w' => served w w').
Proof.
  intros Hi Hr Hf He. unfold evb2_run_leave. apply ewp_bind. eapply wp_deref; [apply Hi | ].
  destruct (stopping c) eqn:Hst; cbn [negb].
  - apply ewp_bind. eapply ewp_mono; [by apply (free_served d p c) | ]. intros _ w' [S _]. by apply ewp_ret.
  - apply ewp_bind. eapply wp_ctx_upd; [apply Hi | ]. apply ewp_ret.
    assert (Hi' : inv [] p (set_in_run false c) (set_ctx (Some (p, set_in_run false c)) w)).
    { apply flag_move with (c := c); try done. }
    eapply moved_served; [done | exact Hi' | ].
    split_and!; [right; exists p, (set_in_run false c); by split | apply older_refl | exists []; by apply made_nil].
Qed.

Lemma run_once_ok d p c w ms :
  rest p c w -> wp (aloe_evb2_run_once E (invoke E (S (S d))) p ms) w (fun _ w' => served w w').
Proof.
  intros [Hi Hr Hf He]. unfold aloe_evb2_run_once. rewrite (inv_p _ _ _ _ _ _ Hi).
  apply ewp_bind. eapply wp_deref; [apply Hi | ].
  assert (Hself : served w w).
  { split_and!; [right; exists p, c; by split | apply older_refl | exists []; by apply made_nil]. }
  destruct (stopping c || finalized c || in_run c || (epfd c <? 0)); [by apply ewp_ret | ].
  apply ewp_bind. eapply wp_ctx_upd; [apply Hi | ].
  assert (Hi0 : inv [] p (set_in_run true c) (set_ctx (Some (p, set_in_run true c)) w)).
  { apply flag_move with (c := c); try done. }
  set (c0 := set_in_run true c) in *. set (w0 := set_ctx (Some (p, c0)) w) in *.
  eapply ewp_mono with (Q := fun _ w' => served w0 w'); [ | intros _ w' S; by eapply moved_served].
  apply ewp_bind. eapply ewp_mono; [apply (install_async_ok closes E (invoke E (S (S d))) [] p c0 w0); [by apply invoke_client | done | done] | ].
  intros _ w1 (c1 & T1 & _). pose proof T1 as (Hi1 & V1 & _).
  eapply ewp_mono with (Q := fun _ w' => served w1 w'); [ | intros _ w' S; by eapply turn_served].
  apply ewp_bind, wp_now, ewp_bind. assert (Hi1' : inv [] p c1 (tick_clock w1)) by (by destruct Hi1).
  eapply wp_deref; [apply Hi1' | ].
  eapply ewp_mono with (Q := fun _ w' => served (tick_clock w1) w').
  2: { intros _ w' (S & [O1 O2 O3 O4] & es & [M1 M2 M3]). split_and!; [done | by split | exists es; by split]. }
  assert (Hwait : forall first, wp (do r <- epoll_wait E p (wait_ms first (clock E (n_clock w1)) ms);
    match r with
    | inl e => evb2_run_leave (invoke E (S (S d))) p (if e =? EINTR then 0 else -1)
    | inr evs => do cnt <- process E (invoke E (S (S d))) p evs; evb2_run_leave (invoke E (S (S d))) p cnt
    end) (tick_clock w1) (fun _ w' => served (tick_clock w1) w')).
  { intros first. apply ewp_bind. eapply ewp_mono; [by apply (epoll_wait_ok [] p c1) | ].
    intros r w2 (c2 & S2). pose proof (stays_turn closes E [] p c1 _ w2 c2 S2) as T2. pose proof T2 as (Hi2 & V2 & _).
    assert (Hr2 : in_run c2 = true) by (by rewrite (q_run _ _ _ _ V2), (q_run _ _ _ _ V1)).
    assert (Hf2 : finalized c2 = false) by (by rewrite (q_fin _ _ _ _ V2), (q_fin _ _ _ _ V1)).
    assert (He2 : ready_list c2 = []).
    { apply sublist_nil. rewrite <- He. etrans; [apply V2 | apply V1]. }
    eapply ewp_mono with (Q := fun _ w' => served w2 w'); [ | intros _ w' S; by eapply turn_served].
    destruct r as [e | evs]; [by apply (leave_ok (S d) p c2) | ].
    apply ewp_bind. eapply ewp_mono; [by apply (process_ok d p evs c2) | ].
    intros cnt w3 (c3 & es & _ & [I3 O3 R3 F3 E3 M3] & _).
    eapply ewp_mono; [apply (leave_ok (S d) p c3); congruence | ]. intros ? w4 Hs4. by eapply served_trans. }
  destruct (timer_list c1) as [|a r] eqn:El; apply ewp_bind; [by apply ewp_ret | ].
  apply ewp_bind. destruct (inv_alive _ _ _ _ _ _ Timer Hi1 a) as [h Hh]; [cbn; rewrite El; by left | ].
  eapply wp_hget; [done | ]. apply ewp_ret, Hwait.
Qed.

(** Destroyed from outside of callbacks, the loop leaves nothing behind. *)
Lemma destroy_ok d p c w :
  rest p c w -> wp (aloe_evb2_destroy (invoke E (S d)) p) w (fun _ w' => served w w' /\ freed w').
Proof.
  intros [Hi Hr Hf He]. unfold aloe_evb2_destroy. rewrite (inv_p _ _ _ _ _ _ Hi).
  apply ewp_bind. eapply wp_lock; [apply Hi | apply Hi | ]. apply ewp_bind. eapply wp_ctx_upd; [done | ].
  apply ewp_bind. eapply wp_deref; [done | ].
  replace (in_run (set_stopping true (set_locked true c))) with false by (by destruct c; cbn in *). cbn [negb].
  apply ewp_bind. eapply wp_ctx_upd; [done | ]. apply ewp_bind. eapply wp_ctx_upd; [done | ].
  set (c0 := set_in_run true (set_stopping true c)).
  replace (set_locked false (set_in_run true (set_stopping true (set_locked true c)))) with c0
    by (unfold c0; pose proof (i_lock _ _ _ _ _ _ Hi) as Hl; destruct c; cbn in *; by subst).
  rewrite !set_ctx2. set (w0 := set_ctx (Some (p, c0)) w).
  assert (Hi0 : inv [] p c0 w0) by (by apply flag_move with (c := c)).
  assert (Hend : forall b, wp (evb2_free (invoke E (S d)) p) (set_pipe b w0) (fun _ w' => served w w' /\ freed w')).
  { intros b. assert (Hi1 : inv [] p c0 (set_pipe b w0)) by (by destruct Hi0).
    eapply ewp_mono; [by apply (free_served d p c0) | ]. intros _ w' [S F]. split; [ | done].
    eapply (served_trans p c w _ c0 w' []); [done | exact Hi1 | by destruct (older_refl w) | by apply made_nil | done]. }
  unfold evb2_wake. rewrite (inv_p _ _ _ _ _ _ Hi). apply ewp_bind, ewp_bind. eapply wp_deref; [done | ].
  destruct (pipe1 c0 <? 0); [apply ewp_ret, (Hend (pipe w0)) | apply ewp_modify, Hend].
Qed.

Lemma stays_rest p c w w' c' : rest p c w -> stays [] p c w w' c' -> rest p c' w'.
Proof.
  intros [Hi Hr Hf He] (Hi' & V & _). split; [done | by rewrite (q_run _ _ _ _ V) | by rewrite (q_fin _ _ _ _ V) | ].
  apply sublist_nil. rewrite <- He. apply V.
Qed.

Lemma rest_served p c w : rest p c w -> served w w.
Proof. intros R. split_and!; [right; eauto | apply older_refl | exists []; by apply made_nil]. Qed.

Lemma ctx_ok_freed q w : freed w -> ctx_ok q w = true -> q = 0.
Proof. intros (Hc & _). unfold ctx_ok. rewrite Hc, orb_false_r. apply Z.eqb_eq. Qed.

(** Without a loop, the calls that are allowed do nothing. *)
Lemma freed_api d cl w : freed w -> silent [] w -> wp (api E (invoke E (S (S d))) cl) w (fun _ w' => served w w').
Proof.
  intros F Hsl. unfold api. apply ewp_bind. change (wp get w ?Q) with (wp (gets id) w Q). apply wp_gets. unfold id.
  destruct (call_ok cl w) eqn:Hok; [cbn [negb] | by apply wp_misuse].
  assert (Hs : served w w) by (split_and!; [by left | apply older_refl | exists []; by apply made_nil]).
  destruct cl as [q fd ev ms cb ud|q fd ev ms cb ud|q ms cb ud|q ms cb ud|q a|q fd|q a ms|q ms|q|fd];
    cbn [call_ok] in Hok; try apply andb_true_iff in Hok as [Hok Hok2];
    try (pose proof (ctx_ok_freed _ _ F Hok) as ->); try by apply ewp_ret.
  apply ewp_bind, ewp_modify, ewp_ret. destruct F as (F1 & F2 & F3 & F4).
  set (w' := set_interest _ w). assert (F' : freed w') by (split_and!; try done; cbn; by rewrite F4, delete_empty).
  split_and!; [by left | by apply older_freed | exists []; by apply made_nil].
Qed.

(** Any call from outside of callbacks. *)
Lemma api_ok d cl w :
  settled w -> tidy_call closes cl -> wp (api E (invoke E (S (S d))) cl) w (fun _ w' => served w w').
Proof.
  intros [[F Hsl] | (p & c & R)] Ht; [by apply freed_api | ]. pose proof (r_inv _ _ _ R) as Hi.
  destruct (match cl with RunOnce _ _ | Destroy _ => true | _ => false end) eqn:Ecl.
  2: { eapply ewp_mono; [apply (quiet_api closes E Etidy _ [] p c w); [done | done | by destruct cl] | ].
    intros r w' (c' & S). eapply turn_served; [done | by apply stays_turn | ].
    by eapply rest_served, stays_rest. }
  unfold api. apply ewp_bind. change (wp get w ?Q) with (wp (gets id) w Q). apply wp_gets. unfold id.
  destruct (call_ok cl w) eqn:Hok; [cbn [negb] | by apply wp_misuse].
  destruct cl as [| | | | | | |q ms|q|]; try done; cbn [call_ok] in Hok;
    destruct (ctx_ok_inv closes E _ _ _ _ _ Hi Hok) as [-> | ->].
  - apply ewp_ret. by eapply rest_served.
  - by eapply run_once_ok.
  - apply ewp_bind, ewp_ret, ewp_ret. by eapply rest_served.
  - apply ewp_bind. eapply ewp_mono; [by apply (destroy_ok (S d) p c) | ]. intros _ w' [S _]. by apply ewp_ret.
Qed.

Lemma settled_older w : settled w -> forall a, is_Some (heap w !! a) -> a < brk w.
Proof.
  intros [[(_ & Hh & _) _] | (p & c & R)] a Ha; [rewrite Hh in Ha; by destruct Ha | by apply (r_inv _ _ _ R)].
Qed.

Lemma served_refl w : settled w -> served w w.
Proof. intros S. split_and!; [done | apply older_refl | exists []; by apply made_nil]. Qed.

Lemma served_chain w w1 w2 : settled w -> served w w1 -> served w1 w2 -> served w w2.
Proof.
  intros S (_ & O1 & es1 & M1) (S2 & O2 & es2 & M2). split_and!; [done | by eapply older_trans | ].
  exists (es1 ++ es2). eapply made_trans; [by apply settled_older | done..].
Qed.

Lemma prog_ok d t : forall w, settled w -> tidy closes t ->
  wp (run_prog E (invoke E (S (S d))) t) w (fun _ w' => served w w').
Proof.
  induction t as [|cl k IH]; intros w Hs Ht; cbn [run_prog]; [by apply ewp_ret, served_refl | ].
  inversion Ht as [|? ? Hcl Hk]; subst. apply ewp_bind. eapply ewp_mono; [by apply api_ok | ].
  intros r w1 S1. eapply ewp_mono; [apply (IH r w1); [apply S1 | done] | ].
  intros ? w2 S2. by apply (served_chain w w1 w2).
Qed.

(* ---------------------------------------------------------------- *)
(** *** Construction *)

(** Steps of a computation on a known context. *)
Ltac ctx_step :=
  lazymatch goal with
  | |- wp (bind _ _) _ _ => apply ewp_bind
  | |- wp (lock _) _ _ => eapply wp_lock; [done | done | ]
  | |- wp (unlock _) _ _ => eapply wp_ctx_upd; [done | ]
  | |- wp (ctx_upd _ _) _ _ => eapply wp_ctx_upd; [done | ]
  | |- wp (deref _) _ _ => eapply wp_deref; [done | ]
  | |- wp (qent_pop _ _) _ _ => eapply wp_qent_pop; [done | by intros ? ?%elem_of_nil | ]
  | |- wp (ret _) _ _ => apply ewp_ret
  | |- wp (modify _) _ _ => apply ewp_modify
  end; cbn -[Z.leb]; change (0 <=? -1) with false; cbv iota.

(** A context as far as it was built when [aloe_evb2_create] gave up. *)
Lemma destroy_partial inv_k p e w :
  ctx w = Some (p, Evb2 e (-1) (-1) [] [] [] [] false None false false false) -> p <> 0 ->
  heap w = ∅ -> interest w = ∅ -> kfds w = (if 0 <=? e then [e] else []) ->
  wp (aloe_evb2_destroy inv_k p) w (fun _ w' => freed w' /\ cancels w' = cancels w).
Proof.
  intros Hc Hp Hh Hi Hk. unfold aloe_evb2_destroy, evb2_wake, evb2_free, evb2_finalize, cancel_list.
  rewrite (proj2 (Z.eqb_neq _ _) Hp). repeat ctx_step.
  destruct (Z.leb_spec 0 e) as [He | He]; repeat ctx_step.
  - apply wp_close; [cbn; rewrite Hk; by left | ]. repeat ctx_step. split_and!; try done. cbn. rewrite Hk.
    by rewrite filter_cons_False by auto.
  - by split_and!.
Qed.

Lemma silent_none X w : cancels w = [] -> silent X w.
Proof. intros Hc. unfold silent. rewrite Hc. split; intros *; by intros ?%elem_of_nil. Qed.

(** The context [aloe_evb2_create] sets up before it adds the wake pipe. *)
Definition new_ctx : evb2 :=
  let '(ep, p0, p1) := descr E in Evb2 ep p0 p1 [] [] [] [] false None false false false.

Lemma inv_new p w :
  ctx w = Some (p, new_ctx) -> 0 < p < brk w -> heap w = ∅ -> interest w = ∅ ->
  kfds w = [pipe0 new_ctx; pipe1 new_ctx; epfd new_ctx] -> cancels w = [] -> rest p new_ctx w.
Proof.
  unfold new_ctx. pose proof (proj2 (te_sane _ _ Etidy)) as Hd. destruct (descr E) as [[ep p0] p1] eqn:Ed. cbn.
  intros Hc Hp Hh Hi Hk Hcn. split; [ | done..]. split; rewrite ?Hh; cbn; try done; try tauto.
  - split; cbn; try by constructor.
    + intros a. rewrite lookup_empty, !elem_of_nil. split; [by intros [] | tauto].
    + by intros a ?%elem_of_nil.
    + by intros a ?%elem_of_nil.
    + by intros a ?%elem_of_nil.
    + by intros a ?%elem_of_nil.
    + by intros a ?%elem_of_nil.
    + by intros a ?%elem_of_nil.
  - intros _ _ _ fd _. rewrite Hi, lookup_empty. done.
  - by intros x ?%elem_of_nil.
  - intros a. rewrite lookup_empty. by intros [].
  - by apply silent_none.
Qed.

Lemma create_ok d w :
  freed w -> 0 < brk w -> cancels w = [] -> wp (aloe_evb2_create E (S d)) w (fun r w' =>
    r = 0 /\ freed w' /\ silent [] w' \/ exists c, rest r c w').
Proof.
  intros (F1 & F2 & F3 & F4) Hb Hcn. unfold aloe_evb2_create, alloc.
  apply ewp_bind, ewp_bind, wp_sys. destruct (Z.eqb_spec (refuse E (n_sys w)) 0) as [_ | _]; cbn [negb].
  2: { apply ewp_ret, ewp_ret. left. split_and!; [done.. | by apply silent_none]. }
  apply ewp_bind, wp_gets, ewp_bind, ewp_modify, ewp_ret. set (p := brk w). cbn [brk tick_sys]. fold p.
  assert (Hp : (p =? 0) = false) by (apply Z.eqb_neq; lia). rewrite Hp.
  apply ewp_bind, ewp_modify, ewp_bind, wp_sys. cbn [n_sys set_ctx set_brk tick_sys].
  destruct (Z.eqb_spec (refuse E (S (n_sys w))) 0) as [_ | _]; cbn [negb].
  2: { apply ewp_bind, ewp_modify, ewp_ret. left. split_and!; [done.. | by apply silent_none]. }
  pose proof (inv_new p) as Hnew. unfold new_ctx in Hnew. pose proof (proj2 (te_sane _ _ Etidy)) as Hd.
  destruct (descr E) as [[ep p0] p1] eqn:Ed. destruct Hd as (P0 & _).
  apply ewp_bind, wp_sys. cbn [n_sys set_ctx set_brk tick_sys].
  destruct (Z.eqb_spec (refuse E (S (S (n_sys w)))) 0) as [_ | _]; cbn [negb].
  2: { apply ewp_bind. eapply ewp_mono; [eapply destroy_partial; [done | lia | done | done | by cbn; rewrite F3] | ].
    intros ? w' [F' C']. apply ewp_ret. left. split_and!; [done.. | apply silent_none]. by rewrite C'. }
  apply ewp_bind, ewp_modify, ewp_bind. eapply wp_ctx_upd; [done | ]. apply ewp_bind, wp_sys.
  cbn [n_sys set_ctx set_brk set_kfds tick_sys].
  destruct (Z.eqb_spec (refuse E (S (S (S (n_sys w))))) 0) as [_ | _]; cbn [negb].
  2: { apply ewp_bind. eapply ewp_mono; [eapply (destroy_partial _ p ep); [done | lia | done | done | ] | ].
    { cbn. by rewrite F3, (proj2 (Z.leb_le _ _) P0). }
    intros ? w' [F' C']. apply ewp_ret. left. split_and!; [done.. | apply silent_none]. by rewrite C'. }
  apply ewp_bind, ewp_modify, ewp_bind. eapply wp_ctx_upd; [done | ].
  match goal with |- wp _ ?w1 _ => specialize (Hnew w1) end.
  destruct Hnew as [Hi Hr Hf He]; [done | cbn; lia | done | done | by cbn; rewrite F3 | done | ].
  apply ewp_bind. eapply ewp_mono;
    [apply (add_fd_ok E closes (te_sane _ _ Etidy) [] p _ _ p0 FLAG_READ INFINITE AsyncHandler p Hi); [by left | done] | ].
  intros a w1 (c1 & S1 & A1). pose proof (stays_rest p _ _ w1 c1 ltac:(by split) S1) as R1.
  destruct (Z.eqb_spec a 0) as [_ | Ha].
  - apply ewp_bind. eapply ewp_mono; [by apply (destroy_ok d p c1) | ]. intros ? w' [S F]. apply ewp_ret. left. split_and!; [done.. | by apply settled_silent, S].
  - destruct A1 as [? | (-> & Hh & _)]; [done | ]. apply ewp_bind. eapply wp_hupd; [done | ]. apply ewp_ret.
    right. exists c1. destruct R1 as [I1 ? ? ?]. split; try done. apply inv_flag2; [done | done | apply dead_lor].
Qed.

Lemma client_ok t :
  (forall p, tidy closes (t p)) -> wp (client E t) start (fun _ w' => settled w').
Proof.
  intros Ht. unfold client. apply ewp_bind. eapply ewp_mono; [by apply (create_ok 1) | ].
  intros p w Hc. assert (Hs : settled w) by (destruct Hc as [(_ & F & S) | [c R]]; [by left | right; eauto]).
  eapply ewp_mono; [by apply (prog_ok 0) | ]. by intros ? w' (? & _).
Qed.
End Pass.
