(* ===== verification/Evb2Spec.v ===== *)
(** Evb2Spec: what the event loop promises to its clients, over every client,
    environment and moment of its life, with a concrete loop that runs. *)

From stdpp Require Import gmap sorting.
From S2P Require Import Prelude Eff Evb2 Evb2Inv Evb2Ops Evb2Safe Evb2Run Evb2Loop.

Open Scope eff_scope.

(** The states between calls that some tidy client of a fresh process gets to. *)
Definition reachable (closes : Prop) (E : env) (w : world) : Prop :=
  exists t, (forall p, tidy closes (t p)) /\ client E t start = Done tt w.

Lemma reachable_settled closes E w : tidy_env closes E -> reachable closes E w -> settled closes E w.
Proof. intros He (t & Ht & Hr). apply (wp_done _ _ (fun _ w => settled closes E w) _ _ (client_ok closes E He t Ht) Hr). Qed.

Lemma reachable_rest closes E w p c :
  tidy_env closes E -> reachable closes E w -> ctx w = Some (p, c) -> rest closes E p c w.
Proof.
  intros He Hr Hc. destruct (reachable_settled _ _ _ He Hr) as [[(Hn & _) _] | (q & d & R)]; [congruence | ].
  pose proof (i_ctx _ _ _ _ _ _ (r_inv _ _ _ _ _ R)). congruence.
Qed.

Lemma new_entries (l es l' : list entry) : l' = l ++ es -> drop (length l) l' = es.
Proof. intros ->. apply drop_app_length. Qed.

(* ------------------------------------------------------------------ *)
(** ** A loop that runs *)

(** A descriptor with a timeout, a one-shot timer, a wake-up from another
    thread; callback 1 cancels handle 3, callback 2 does nothing. *)
Definition demo_env : env :=
  Env (fun n => Z.min (100 * Z.of_nat n) (2 ^ 62)) (fun _ => 0)
    (fun _ _ => Wait [(5, User 9, 0)] (inr [(7, EPOLLIN)]))
    (fun _ c _ _ _ => if c =? 1 then Call (Cancel 1 3) (fun _ => Stop) else Stop) (3, 4, 5).

Definition demo_setup (k : prog) (p : Z) : prog :=
  Call (AddFd p 7 FLAG_READ 5000 (User 1) 11) (fun _ =>
  Call (AddOneshotTimer p 20 (User 2) 22) (fun _ => k)).

Definition demo : Z -> prog :=
  demo_setup (Call (RunOnce 1 0) (fun _ => Call (RunOnce 1 INFINITE) (fun _ => Call (Destroy 1) (fun _ => Stop)))).

Lemma demo_tidy_env : tidy_env False demo_env.
Proof.
  split.
  - split; [intros n; cbn; lia | cbn; lia].
  - intros n c fd fl ud. cbn. destruct (c =? 1); [ | constructor]. constructor; [done | ]. intros r. constructor.
  - intros n t ms cb ud Hin. apply list_elem_of_singleton in Hin. injection Hin as -> -> ->.
    split; [right; lia | done].
Qed.

Lemma demo_tidy k p : tidy False k -> tidy False (demo_setup k p).
Proof.
  intros Hk. constructor; [right; lia | ]. intros _. constructor; [right; lia | ]. intros _. done.
Qed.

Lemma demo_whole p : tidy False (demo p).
Proof. apply demo_tidy. constructor; [done | ]. intros _. constructor; [done | ]. intros _. constructor; [done | constructor]. Qed.

(** The state after the two registrations. *)
Definition demo_state : world :=
  match client demo_env (demo_setup Stop) start with Done _ w => w | _ => start end.

Lemma demo_reachable : reachable False demo_env demo_state.
Proof. exists (demo_setup Stop). split; [intros p; apply demo_tidy; constructor | vm_compute; reflexivity]. Qed.

(* ------------------------------------------------------------------ *)
(** ** Safety and termination *)

(** C2: whatever a client does with timeouts up to 2^62 ms, whatever the kernel
    refuses or reports and whatever the callbacks do, a run of the loop from
    its creation ends, touches no freed handle and no freed context, links no
    handle twice, takes the mutex once at a time and closes only its own open
    descriptors; it ends between calls with the invariant, or with everything
    freed.  (Passing a pointer that was never handed out or was given back is
    the client's fault, [Misuse].) *)
Theorem client_safe closes E t :
  tidy_env closes E -> (forall p, tidy closes (t p)) ->
  match client E t start with
  | Done _ w => settled closes E w
  | Misuse => True
  | Ub | Deep => False
  end.
Proof. intros He Ht. apply (wp_safe _ _ (fun _ w => settled closes E w)). by apply client_ok. Qed.

Lemma client_safe_witness :
  match client demo_env demo start with
  | Done _ w => settled False demo_env w
  | Misuse => True
  | Ub | Deep => False
  end.
Proof. apply (client_safe False demo_env demo); [exact demo_tidy_env | exact demo_whole]. Defined.

(** The demo's callbacks: the event on descriptor 7, whose callback cancels its
    own handle 3, the one-shot timer, and the timers of the other thread, the
    second of them cancelled with the loop. *)
Example demo_log :
  match client demo_env demo start with Done _ w => log w | _ => [] end =
  [Entry 3 1 7 FLAG_READ 11; Entry 4 2 (-1) FLAG_TIMEOUT 22; Entry 5 9 (-1) FLAG_TIMEOUT 0;
   Entry 6 9 (-1) FLAG_CANCELLED 0].
Proof. vm_compute. reflexivity. Qed.

(** C6: In every state between calls the four lists hold exactly the allocated
    handles (only a monitored handle can also be on the timer list), none twice,
    deadlines on the timer list never decrease, monitored handles have a
    descriptor and those with a timeout are on the timer list, handles queued by
    other threads are timers, every handle belongs to the context and has a
    callback, nothing waits for dispatch and the mutex is free. *)
Theorem lists_well_formed closes E w p c :
  tidy_env closes E -> reachable closes E w -> ctx w = Some (p, c) ->
  shape c (heap w) [] /\ kinds p c (heap w) /\ ready_list c = [] /\ locked c = false /\
  forall a h, a ∈ fdmon_list c -> heap w !! a = Some h -> h_timeout_ms h <> INFINITE -> a ∈ timer_list c.
Proof.
  intros He Hr Hc. destruct (reachable_rest _ _ _ _ _ He Hr Hc) as [Hi _ _ Hrd].
  pose proof (i_kinds _ _ _ _ _ _ Hi) as Hk. split_and!; try apply Hi; try done. intros a h Ha Hh Hms.
  apply (k_arm _ _ _ Hk a h Ha Hh). intros Hat. apply Hms. by apply (ok_at _ _ (k_hok _ _ _ Hk a h Hh)).
Qed.

Definition demo_ctx : evb2 := Evb2 3 4 5 [2; 3] [3] [] [4] false None false false false.

Lemma lists_well_formed_witness :
  shape demo_ctx (heap demo_state) [] /\ kinds 1 demo_ctx (heap demo_state) /\ ready_list demo_ctx = [] /\
  locked demo_ctx = false /\
  forall a h, a ∈ fdmon_list demo_ctx -> heap demo_state !! a = Some h ->
    h_timeout_ms h <> INFINITE -> a ∈ timer_list demo_ctx.
Proof.
  apply (lists_well_formed False demo_env demo_state 1 demo_ctx);
    [exact demo_tidy_env | exact demo_reachable | vm_compute; reflexivity].
Defined.

(** What the handles of a list ask for on a descriptor. *)
Definition asked (hp : gmap Z handle) (l : list Z) (fd : Z) : list Z :=
  h_flag <$> filter (fun h => h_fd h = fd) (hs_of hp l).

Lemma requested_union fd hs : forall r,
  (forall h, h ∈ hs -> h_fd h = fd) ->
  foldl (fun r h => if h_fd h =? fd then Some (Z.lor (default 0 r) (h_flag h)) else r) (Some r) hs =
  Some (Z.lor r (foldr Z.lor 0 (h_flag <$> hs))).
Proof.
  induction hs as [|h hs IH]; intros r Hf; cbn [foldl fmap list_fmap foldr]; [by rewrite Z.lor_0_r | ].
  rewrite Hf, Z.eqb_refl by (by left). rewrite IH; [by rewrite Z.lor_assoc | ]. intros h' Hin. apply Hf. by right.
Qed.

Lemma wanted_asked hp l fd :
  wanted hp l fd = match asked hp l fd with
                   | [] => None
                   | fs => Some (to_epoll (foldr Z.lor 0 fs))
                   end.
Proof.
  unfold wanted, asked. rewrite requested_filter.
  assert (Hf : forall h, h ∈ filter (fun h => h_fd h = fd) (hs_of hp l) -> h_fd h = fd).
  { intros h [? _]%list_elem_of_filter. done. }
  revert Hf. destruct (filter _ _) as [|h hs]; intros Hf; [done | ]. unfold requested. cbn [foldl fmap list_fmap].
  rewrite Hf, Z.eqb_refl by (by left). rewrite requested_union; [done | ]. intros h' Hin. apply Hf. by right.
Qed.

(** C10: as long as the kernel refuses no call and clients do not close
    descriptors they registered, between calls the kernel watches exactly the
    descriptors of the monitored handles, each for the union of what its
    handles ask for. *)
Theorem interest_is_what_is_monitored E w p c fd :
  tidy_env False E -> calm E -> reachable False E w -> ctx w = Some (p, c) -> 0 <= fd ->
  interest w !! fd = match asked (heap w) (fdmon_list c) fd with
                     | [] => None
                     | fs => Some (to_epoll (foldr Z.lor 0 fs))
                     end.
Proof.
  intros He Hcalm Hr Hc Hfd. destruct (reachable_rest _ _ _ _ _ He Hr Hc) as [Hi _ Hfin _].
  rewrite <- wanted_asked. apply (i_exact _ _ _ _ _ _ Hi); [done | by intros [] | done | done].
Qed.

(** Two handles on one descriptor. *)
Definition demo_two (p : Z) : prog :=
  Call (AddFd p 7 FLAG_READ INFINITE (User 1) 0) (fun _ =>
  Call (AddFd p 7 FLAG_WRITE INFINITE (User 2) 0) (fun _ => Stop)).
Definition demo_shared : world :=
  match client demo_env demo_two start with Done _ w => w | _ => start end.

Lemma demo_shared_reachable : reachable False demo_env demo_shared.
Proof.
  exists demo_two. split; [ | vm_compute; reflexivity]. intros p. constructor; [by left | ]. intros _.
  constructor; [by left | ]. intros _. constructor.
Qed.

Lemma interest_is_what_is_monitored_witness :
  interest demo_shared !! 7 = Some (Z.lor EPOLLIN (Z.lor EPOLLRDHUP EPOLLOUT)).
Proof.
  exact (interest_is_what_is_monitored demo_env demo_shared 1 (Evb2 3 4 5 [2; 3; 4] [] [] [] false None false false false) 7
    demo_tidy_env (fun n => eq_refl) demo_shared_reachable ltac:(vm_compute; reflexivity) ltac:(lia)).
Defined.

(* ------------------------------------------------------------------ *)
(** ** Callbacks *)

(** C7: a pass gives every handle an event or the clock concerns its callback
    (a monitored handle by an event it asked for or by an error, a timer by its
    deadline) with the flags that say why; or a client cancelled the handle
    during the pass, was told that it is gone, and it is freed by the end. *)
Theorem pass_calls_due closes E w p c evs :
  tidy_env closes E -> reachable closes E w -> ctx w = Some (p, c) ->
  match process E (invoke E 2) p evs (set_ctx (Some (p, set_in_run true c)) w) with
  | Done _ w' => forall a h cl,
      due evs (clock E (n_clock w)) w c a -> heap w !! a = Some h -> h_cb h = User cl ->
      (exists n, reason evs (clock E (n_clock w)) (set_noti n h) /\
         Entry a cl (h_fd h) n (h_ud h) ∈ drop (length (log w)) (log w')) \/
      heap w' !! a = None /\ exists n, (a, n) ∈ drop (length (cancels w)) (cancels w')
  | Misuse => True
  | Ub | Deep => False
  end.
Proof.
  intros He Hr Hc. destruct (reachable_rest _ _ _ _ _ He Hr Hc) as [Hi _ Hfin Hrd].
  match goal with |- match ?m ?w0 with Done _ w' => @?Q w' | _ => _ end =>
    apply (wp_safe m w0 (fun _ w' => Q w')) end.
  eapply ewp_mono; [apply (process_ok closes E He 0 p evs (set_in_run true c)); try done | ].
  - by apply (flag_move closes E p c).
  - intros cnt w' (c' & es & _ & P & Hdue) a h cl Hda Hh Hcb.
    rewrite (new_entries _ es) by apply (m_log _ _ _ _ (p_made _ _ _ _ _ _ _ _ P)).
    destruct (Hdue a h cl Hda Hh Hcb) as [? | [n Hn]]; [by left | right].
    pose proof (i_silent _ _ _ _ _ _ (p_inv _ _ _ _ _ _ _ _ P)) as Hs. split.
    + by eapply silent_freed.
    + exists n. destruct (o_canc _ _ (p_older _ _ _ _ _ _ _ _ P)) as [cs Hcs]. cbn in Hcs.
      rewrite Hcs, drop_app_length. rewrite Hcs in Hn. apply elem_of_app in Hn as [Hold | ?]; [ | done].
      by destruct (silent_uncancelled _ _ a (i_silent _ _ _ _ _ _ Hi) ltac:(eauto) ltac:(apply not_elem_of_nil) n).
Qed.

(** Two handles on one descriptor; the callback of the first cancels both. *)
Definition both_env : env :=
  Env (clock demo_env) (refuse demo_env) (wait demo_env)
    (fun _ c _ _ _ => if c =? 1 then Call (Cancel 1 3) (fun _ => Call (Cancel 1 4) (fun _ => Stop)) else Stop)
    (3, 4, 5).
Definition both_state : world :=
  match client both_env demo_two start with Done _ w => w | _ => start end.
Definition both_ctx : evb2 := Evb2 3 4 5 [2; 3; 4] [] [] [] false None false false false.

Lemma both_tidy_env : tidy_env False both_env.
Proof.
  destruct demo_tidy_env as [[S1 _] _ R]. split; [split; [exact S1 | cbn; lia] | | exact R].
  intros n c fd fl ud. cbn. destruct (c =? 1); [ | constructor].
  constructor; [done | ]. intros _. constructor; [done | ]. intros _. constructor.
Qed.

Lemma both_reachable : reachable False both_env both_state.
Proof.
  exists demo_two. split; [ | vm_compute; reflexivity]. intros p. constructor; [by left | ]. intros _.
  constructor; [by left | ]. intros _. constructor.
Qed.

Definition both_pass : world :=
  match process both_env (invoke both_env 2) 1 [(7, Z.lor EPOLLIN EPOLLOUT)]
          (set_ctx (Some (1, set_in_run true both_ctx)) both_state) with
  | Done _ w => w | _ => start
  end.

(** Both are gone; one had a callback. *)
Example both_calls : log both_pass = [Entry 3 1 7 FLAG_READ 0] /\ cancels both_pass = [(3, 1%nat); (4, 1%nat)].
Proof. split; vm_compute; reflexivity. Qed.

Lemma pass_calls_due_witness :
  match process both_env (invoke both_env 2) 1 [(7, Z.lor EPOLLIN EPOLLOUT)]
          (set_ctx (Some (1, set_in_run true both_ctx)) both_state) with
  | Done _ w' => forall a h cl,
      due [(7, Z.lor EPOLLIN EPOLLOUT)] (clock both_env (n_clock both_state)) both_state both_ctx a ->
      heap both_state !! a = Some h -> h_cb h = User cl ->
      (exists n, reason [(7, Z.lor EPOLLIN EPOLLOUT)] (clock both_env (n_clock both_state)) (set_noti n h) /\
         Entry a cl (h_fd h) n (h_ud h) ∈ drop (length (log both_state)) (log w')) \/
      heap w' !! a = None /\ exists n, (a, n) ∈ drop (length (cancels both_state)) (cancels w')
  | Misuse => True
  | Ub | Deep => False
  end.
Proof.
  apply (pass_calls_due False both_env both_state 1 both_ctx [(7, Z.lor EPOLLIN EPOLLOUT)]);
    [exact both_tidy_env | exact both_reachable | vm_compute; reflexivity].
Defined.

(** A call from outside of callbacks makes callbacks only for handles that
    are allocated or that were made during it, and for a one-shot handle at
    most one, after which the handle is freed. *)
Theorem one_shot_once closes E w cl :
  tidy_env closes E -> reachable closes E w -> tidy_call closes cl ->
  match api E (invoke E 2) cl w with
  | Done _ w' => exists es, log w' = log w ++ es /\
      (forall e, e ∈ es -> is_Some (heap w !! e_h e) \/ brk w <= e_h e) /\
      (forall a h, heap w !! a = Some h -> has (h_flag2 h) EVB2_FLAG_ONESHOT = true ->
         (calls a es <= 1)%nat /\ ((0 < calls a es)%nat -> heap w' !! a = None))
  | Misuse => True
  | Ub | Deep => False
  end.
Proof.
  intros He Hr Hcl. match goal with |- match ?m w with Done _ w' => @?Q w' | _ => _ end =>
    apply (wp_safe m w (fun _ w' => Q w')) end.
  eapply ewp_mono; [apply (api_ok closes E He 0 cl w (reachable_settled _ _ _ He Hr) Hcl) | ].
  intros r w' (_ & _ & es & [L Sr O]). exists es. split_and!; [done | | done]. intros e Hin. by destruct (Sr e Hin).
Qed.

Lemma one_shot_once_witness :
  match api demo_env (invoke demo_env 2) (RunOnce 1 0) demo_state with
  | Done _ w' => exists es, log w' = log demo_state ++ es /\
      (forall e, e ∈ es -> is_Some (heap demo_state !! e_h e) \/ brk demo_state <= e_h e) /\
      (forall a h, heap demo_state !! a = Some h -> has (h_flag2 h) EVB2_FLAG_ONESHOT = true ->
         (calls a es <= 1)%nat /\ ((0 < calls a es)%nat -> heap w' !! a = None))
  | Misuse => True
  | Ub | Deep => False
  end.
Proof.
  apply (one_shot_once False demo_env demo_state (RunOnce 1 0)); [exact demo_tidy_env | exact demo_reachable | exact I].
Defined.

(** Steps that leave the history alone, and a cancel that enters its success
    in it, in every world. *)
Definition leaves {A} (m : M A) : Prop :=
  forall w x w', m w = Done x w' -> log w' = log w /\ cancels w' = cancels w.
Definition reports (a : Z) (m : M Z) : Prop :=
  forall w r w', m w = Done r w' ->
    log w' = log w /\ (r = 0 -> cancels w' = cancels w ++ [(a, length (log w))]).

Lemma leaves_ret {A} (x : A) : leaves (ret x).
Proof. by intros w y w' [= <- <-]. Qed.
Lemma leaves_ub {A} : leaves (@ub world A).
Proof. by intros w y w'. Qed.
Lemma leaves_need {A} (o : option A) : leaves (need o).
Proof. destruct o; [apply leaves_ret | apply leaves_ub]. Qed.
Lemma leaves_gets {A} (g : world -> A) : leaves (gets g).
Proof. by intros w y w' [= <- <-]. Qed.
Lemma leaves_get : leaves get.
Proof. by intros w y w' [= <- <-]. Qed.
Lemma leaves_modify g :
  (forall w, log (g w) = log w /\ cancels (g w) = cancels w) -> leaves (modify g).
Proof. by intros Hg w y w' [= <- <-]. Qed.
Lemma leaves_bind {A B} (m : M A) (k : A -> M B) : leaves m -> (forall x, leaves (k x)) -> leaves (bind m k).
Proof.
  intros Hm Hk w y w'. unfold bind. destruct (m w) as [x w1 | | | ] eqn:Em; try done. intros Ek.
  destruct (Hm _ _ _ Em) as [<- <-]. by eapply Hk.
Qed.
Lemma reports_bind {A} a (m : M A) (k : A -> M Z) :
  leaves m -> (forall x, reports a (k x)) -> reports a (bind m k).
Proof.
  intros Hm Hk w y w'. unfold bind. destruct (m w) as [x w1 | | | ] eqn:Em; try done. intros Ek.
  destruct (Hm _ _ _ Em) as [<- <-]. by eapply Hk.
Qed.
Lemma reports_no a : reports a (ret (-1)).
Proof. by intros w r w' [= <- <-]. Qed.
Lemma reports_told a : reports a (told_gone a).
Proof. by intros w r w' [= <- <-]. Qed.
#[local] Hint Resolve leaves_ret leaves_ub leaves_need leaves_gets leaves_get reports_no reports_told : evb2.

Ltac leaves_steps :=
  repeat (lazymatch goal with
  | |- leaves (bind _ _) => apply leaves_bind; [ | intros]
  | |- reports _ (bind _ _) => apply reports_bind; [ | intros]
  | |- leaves (modify _) => by apply leaves_modify
  | |- leaves (match ?x with _ => _ end) => destruct x
  | |- reports _ (match ?x with _ => _ end) => destruct x
  end); auto with evb2.

Lemma leaves_deref p : leaves (deref p).
Proof. unfold deref. leaves_steps. Qed.
#[local] Hint Resolve leaves_deref : evb2.
Lemma leaves_ctx_upd p g : leaves (ctx_upd p g).
Proof. unfold ctx_upd. leaves_steps. Qed.
Lemma leaves_hget a : leaves (hget a).
Proof. unfold hget. leaves_steps. Qed.
#[local] Hint Resolve leaves_ctx_upd leaves_hget : evb2.
Lemma leaves_hupd a g : leaves (hupd a g).
Proof. unfold hupd. leaves_steps. Qed.
Lemma leaves_free a : leaves (free a).
Proof. unfold free. leaves_steps. Qed.
Lemma leaves_lock p : leaves (lock p).
Proof. unfold lock. leaves_steps. Qed.
Lemma leaves_qent_remove p l e : leaves (qent_remove p l e).
Proof. unfold qent_remove. leaves_steps. Qed.
Lemma leaves_sys E : leaves (sys E).
Proof. unfold sys. leaves_steps. Qed.
#[local] Hint Resolve leaves_hupd leaves_free leaves_lock leaves_qent_remove leaves_sys : evb2.
Lemma leaves_epoll_refresh E p fd : leaves (epoll_refresh E p fd).
Proof. unfold epoll_refresh, epoll_add, epoll_mod, epoll_del. leaves_steps. Qed.
#[local] Hint Resolve leaves_epoll_refresh : evb2.

Lemma cancel_reports E p a : reports a (aloe_evb2_cancel E p a).
Proof. unfold aloe_evb2_cancel, unlock. leaves_steps. Qed.

(** C11: after a cancel that reports success, made between calls or by a
    callback, for its own handle or another, no callback is made for the handle,
    whatever the client, the callbacks, the kernel and the other threads do
    next; between calls it is freed.  In every world such a cancel goes on
    record with the callbacks made by then, and it stays on record. *)
Theorem cancelled_stays_silent closes E :
  tidy_env closes E ->
  (forall p a w w', aloe_evb2_cancel E p a w = Done 0 w' ->
     log w' = log w /\ cancels w' = cancels w ++ [(a, length (log w))]) /\
  (forall w a n, reachable closes E w -> (a, n) ∈ cancels w ->
     heap w !! a = None /\ forall e, e ∈ drop n (log w) -> e_h e <> a) /\
  (forall w t w', reachable closes E w -> tidy closes t -> run_prog E (invoke E 2) t w = Done tt w' ->
     (cancels w `prefix_of` cancels w') /\ settled closes E w' /\
     forall a n, (a, n) ∈ cancels w' ->
       heap w' !! a = None /\ forall e, e ∈ drop n (log w') -> e_h e <> a).
Proof.
  intros He.
  assert (Hs : forall w a n, settled closes E w -> (a, n) ∈ cancels w ->
    heap w !! a = None /\ forall e, e ∈ drop n (log w) -> e_h e <> a).
  { intros w a n S%settled_silent Ha. split; [by eapply silent_freed | by intros; eapply s_quiet]. }
  split_and!.
  - intros p a w w' Hc. destruct (cancel_reports E p a _ _ _ Hc). auto.
  - intros w a n Hr. by apply Hs, reachable_settled.
  - intros w t w' Hr Ht Hrun.
    destruct (wp_done _ _ _ _ _ (prog_ok closes E He 0 t w (reachable_settled _ _ _ He Hr) Ht) Hrun) as (S & O & _).
    split_and!; [apply O | done | intros a n; by apply Hs].
Qed.

(** Both cancels of [both_env]'s callback, its own handle and the other one,
    and the passes after them. *)
Definition both_then : prog := Call (RunOnce 1 0) (fun _ => Call (RunOnce 1 0) (fun _ => Stop)).
Definition both_run_env : env :=
  Env (clock both_env) (refuse both_env) (fun _ _ => Wait [] (inr [(7, Z.lor EPOLLIN EPOLLOUT)]))
    (behave both_env) (3, 4, 5).
Definition both_before : world :=
  match client both_run_env demo_two start with Done _ w => w | _ => start end.
Definition both_after : world :=
  match run_prog both_run_env (invoke both_run_env 2) both_then both_before with Done _ w => w | _ => start end.

Lemma both_run_tidy : tidy_env False both_run_env.
Proof. destruct both_tidy_env as [S B _]. split; [exact S | exact B | ]. by intros n t ms cb ud ?%elem_of_nil. Qed.

Lemma both_before_reachable : reachable False both_run_env both_before.
Proof.
  exists demo_two. split; [ | vm_compute; reflexivity]. intros p. constructor; [by left | ]. intros _.
  constructor; [by left | ]. intros _. constructor.
Qed.

Example both_cancelled : cancels both_after = [(3, 1%nat); (4, 1%nat)].
Proof. vm_compute. reflexivity. Qed.

Lemma both_told : (3, 1%nat) ∈ cancels both_after /\ (4, 1%nat) ∈ cancels both_after.
Proof.
  rewrite both_cancelled. split; [apply elem_of_cons; by left | ].
  apply elem_of_cons. right. by apply list_elem_of_singleton.
Qed.

Lemma cancelled_stays_silent_witness :
  (cancels both_before `prefix_of` cancels both_after) /\
  (heap both_after !! 3 = None /\ forall e, e ∈ drop 1 (log both_after) -> e_h e <> 3) /\
  (heap both_after !! 4 = None /\ forall e, e ∈ drop 1 (log both_after) -> e_h e <> 4).
Proof.
  destruct (cancelled_stays_silent False both_run_env both_run_tidy) as (_ & _ & H).
  destruct (H both_before both_then both_after both_before_reachable ltac:(repeat constructor)
    ltac:(vm_compute; reflexivity)) as (P & _ & Q).
  exact (conj P (conj (Q 3 1%nat (proj1 both_told)) (Q 4 1%nat (proj2 both_told)))).
Defined.

(* ------------------------------------------------------------------ *)
(** ** Teardown *)

(** Destroyed from outside of its callbacks the loop gives everything back:
    the context, every handle, its three descriptors and the interest set. *)
Theorem destroy_frees closes E w p c :
  tidy_env closes E -> reachable closes E w -> ctx w = Some (p, c) ->
  match api E (invoke E 2) (Destroy p) w with
  | Done _ w' => ctx w' = None /\ heap w' = ∅ /\ kfds w' = [] /\ interest w' = ∅
  | Misuse => True
  | Ub | Deep => False
  end.
Proof.
  intros He Hr Hc. pose proof (reachable_rest _ _ _ _ _ He Hr Hc) as R.
  match goal with |- match ?m w with Done _ w' => @?Q w' | _ => _ end =>
    apply (wp_safe m w (fun _ w' => Q w')) end.
  unfold api. apply ewp_bind. change (wp get w ?Q) with (wp (gets id) w Q). apply wp_gets. unfold id.
  assert (Hok : call_ok (Destroy p) w = true) by (cbn; unfold ctx_ok; by rewrite Hc, Z.eqb_refl, orb_true_r).
  rewrite Hok. apply ewp_bind. eapply ewp_mono; [apply (destroy_ok closes E He 1 p c w R) | ].
  intros ? w' [_ F]. by apply ewp_ret.
Qed.

Lemma destroy_frees_witness :
  match api demo_env (invoke demo_env 2) (Destroy 1) demo_state with
  | Done _ w' => ctx w' = None /\ heap w' = ∅ /\ kfds w' = [] /\ interest w' = ∅
  | Misuse => True
  | Ub | Deep => False
  end.
Proof.
  apply (destroy_frees False demo_env demo_state 1 demo_ctx);
    [exact demo_tidy_env | exact demo_reachable | vm_compute; reflexivity].
Defined.

(* ------------------------------------------------------------------ *)
(** ** Time *)

(** The smaller of two bounds, where there are any. *)
Definition sooner (x y : option Z) : option Z :=
  match x, y with
  | Some a, Some b => Some (Z.min a b)
  | Some a, None => Some a
  | None, _ => y
  end.

(** [epoll_wait] is told to wait until the first deadline or as long as the
    caller allows, whichever is sooner, cut to what an int holds; a deadline
    that has passed means no wait and only the absence of both means for ever. *)
Theorem wait_is_bounded first now ms :
  0 <= ms ->
  wait_ms first now ms =
    default (-1) (Z.min INT_MAX <$> sooner ((fun at_ => Z.max 0 (at_ - now)) <$> first)
                                           (if ms =? INFINITE then None else Some ms)).
Proof.
  intros Hms. unfold wait_ms, sooner. assert (Hi : 0 < INT_MAX) by done.
  destruct first as [at_|]; cbn [fmap option_fmap option_map default].
  - destruct (Z.ltb_spec INT_MAX (at_ - now)), (Z.ltb_spec INT_MAX ms), (Z.leb_spec at_ now), (Z.eqb_spec ms INFINITE); cbn [negb fmap option_fmap option_map default];
      repeat match goal with |- context [?x <? ?y] => destruct (Z.ltb_spec x y); cbn [orb] end; unfold id; lia.
  - destruct (Z.eqb_spec ms INFINITE); cbn [negb fmap option_fmap option_map default]; [done | ].
    destruct (Z.ltb_spec INT_MAX ms); cbn; unfold id; lia.
Qed.

Lemma wait_is_bounded_witness : wait_ms (Some 120) 100 500 = 20.
Proof. exact (wait_is_bounded (Some 120) 100 500 ltac:(lia)). Defined.

(** One-shot timers of almost 2^64 ms: the deadline saturates, the timer is
    cancelled on the next pass, and its callback (1), asking for a new timeout
    of the handle that is being cancelled, links it back. *)
Definition huge_env : env :=
  Env (fun n => 10 + Z.of_nat n) (fun _ => 0) (fun _ _ => Wait [] (inr []))
    (fun _ c _ flag _ => if flag =? FLAG_CANCELLED then Call (SetTimeout 1 3 1) (fun _ => Stop) else Stop) (3, 4, 5).
Definition huge_client (p : Z) : prog :=
  Call (AddOneshotTimer p (UINT64_MAX - 1) (User 1) 0) (fun _ =>
  Call (RunOnce p 0) (fun _ => Call (RunOnce p 0) (fun _ => Stop))).

(** The bound on timeouts is needed: with a one-shot timer of UINT64_MAX - 1
    ms whose CANCELLED callback sets a new timeout for its own handle, the loop
    frees the handle while it is on the timer list and touches it on the next
    pass. *)
Theorem saturated_timeout_use_after_free : client huge_env huge_client start = Ub.
Proof. vm_compute. reflexivity. Qed.
