(* ===== verification/ByteStr.v ===== *)
(** ByteStr: texts as bytes: C strings and their order, and integers as
    little-endian bytes. *)

From Stdlib Require Ascii String.
From S2P Require Import Prelude.

(* ------------------------------------------------------------------ *)
(** ** C strings *)

Definition text : Type := list Z.
(** The bytes of a literal. *)
Definition lit (s : String.string) : text := map (fun c => Z.of_N (Ascii.N_of_ascii c)) (String.list_ascii_of_string s).
Arguments lit s%_string_scope.

(** A [char] array up to its NUL. *)
Fixpoint c_str (l : text) : text :=
  match l with [] => [] | b :: l' => if b =? 0 then [] else b :: c_str l' end.

(** [strcmp], whose sign is all that is looked at: bytes are unsigned. *)
Fixpoint strcmp (a b : text) : comparison :=
  match a, b with
  | [], [] => Eq
  | [], _ :: _ => Lt
  | _ :: _, [] => Gt
  | x :: a', y :: b' => match x ?= y with Eq => strcmp a' b' | c => c end
  end.

Lemma strcmp_eq a b : strcmp a b = Eq <-> a = b.
Proof.
  revert b. induction a as [|x a IH]; intros [|y b]; cbn; try done. destruct (Z.compare_spec x y) as [-> | H | H].
  - rewrite IH. split; [by intros -> | by intros [= ->]].
  - split; [done | intros [= -> _]; lia].
  - split; [done | intros [= -> _]; lia].
Qed.

Lemma strcmp_opp a b : strcmp b a = CompOpp (strcmp a b).
Proof.
  revert b. induction a as [|x a IH]; intros [|y b]; cbn; try done. rewrite (Z.compare_antisym x y).
  destruct (x ?= y); cbn; auto.
Qed.

Lemma strcmp_trans a b c : strcmp a b = Lt -> strcmp b c = Lt -> strcmp a c = Lt.
Proof.
  revert b c. induction a as [|x a IH]; intros [|y b] [|z c]; cbn; try done.
  destruct (Z.compare_spec x y), (Z.compare_spec y z); subst; try done; intros H1 H2.
  - rewrite Z.compare_refl. by eapply IH.
  - by rewrite (proj2 (Z.compare_lt_iff _ _)).
  - by rewrite (proj2 (Z.compare_lt_iff _ _)).
  - by rewrite (proj2 (Z.compare_lt_iff _ _)) by lia.
Qed.

Lemma c_str_id l : Forall (fun b => b <> 0) l -> c_str l = l.
Proof. induction 1 as [|b l Hb _ IH]; [done | ]. cbn. by rewrite (proj2 (Z.eqb_neq _ _) Hb), IH. Qed.

(* ------------------------------------------------------------------ *)
(** ** Integers *)

(** The integer of [k] bytes, little endian; [None]: they are not all there. *)
Fixpoint le (k : nat) (bs : list Z) : option Z :=
  match k, bs with
  | O, _ => Some 0
  | S k', b :: bs' => v ← le k' bs'; Some (b + 256 * v)
  | S _, [] => None
  end.

(** [v] in [k] bytes, little endian. *)
Fixpoint bytes (k : nat) (v : Z) : list Z :=
  match k with O => [] | S k' => v mod 256 :: bytes k' (v / 256) end.

Lemma length_bytes k : forall v, length (bytes k v) = k.
Proof. induction k; intros; cbn; auto. Qed.

Lemma le_bytes k : forall v tl, 0 <= v < 256 ^ Z.of_nat k -> le k (bytes k v ++ tl) = Some v.
Proof.
  induction k as [|k IH]; intros v tl Hv; cbn [bytes app le]; [f_equal; cbn in Hv; lia | ].
  rewrite Nat2Z.inj_succ, Z.pow_succ_r in Hv by lia.
  rewrite IH by (split; [apply Z.div_pos; lia | apply Z.div_lt_upper_bound; lia]).
  cbn. f_equal. pose proof (Z.div_mod v 256). lia.
Qed.

Lemma le_some k : forall bs, (k <= length bs)%nat -> exists v, le k bs = Some v.
Proof.
  induction k as [|k IH]; intros bs H; [by exists 0 | ]. destruct bs as [|b bs]; cbn in H; [lia | ].
  destruct (IH bs) as [v Hv]; [lia | ]. exists (b + 256 * v). cbn. by rewrite Hv.
Qed.

Lemma drop_bytes k j v l : (k <= j)%nat -> drop j (bytes k v ++ l) = drop (j - k) l.
Proof. intros H. rewrite drop_app_ge by (rewrite length_bytes; lia). by rewrite length_bytes. Qed.

Lemma le_range k : forall bs v, Forall is_u8 bs -> le k bs = Some v -> 0 <= v < 256 ^ Z.of_nat k.
Proof.
  induction k as [|k IH]; intros bs v Hu H; [injection H as <-; cbn; lia | ].
  destruct bs as [|b bs]; [done | ]. apply Forall_cons in Hu as [Hb Hu]. cbn in H.
  destruct (le k bs) as [v'|] eqn:E; [ | done]. injection H as <-. specialize (IH _ _ Hu E).
  rewrite Nat2Z.inj_succ, Z.pow_succ_r by lia. unfold is_u8 in Hb. lia.
Qed.

(** The bytes of what bytes stand for. *)
Lemma bytes_le k : forall bs v, Forall is_u8 bs -> le k bs = Some v -> bytes k v = take k bs.
Proof.
  induction k as [|k IH]; intros bs v Hu H; [done | ]. destruct bs as [|b bs]; [done | ].
  apply Forall_cons in Hu as [Hb Hu]. cbn in H. destruct (le k bs) as [v'|] eqn:E; [ | done]. injection H as <-.
  cbn [bytes take]. unfold is_u8 in Hb.
  rewrite (Z.mul_comm 256), Z.mod_add, Z.mod_small, Z.div_add, Z.div_small, Z.add_0_l by lia. by rewrite (IH _ _ Hu E).
Qed.
