(* ===== verification/CStr.v ===== *)
(** CStr: what the code uses of the C library on character strings.  A [string]
    is the text before the NUL; a character buffer is a list of cells, [None]
    for one not written yet. *)

From stdpp Require Import strings pretty.
From Stdlib Require Import Ascii.
From S2P Require Import Prelude.

Definition NUL : ascii := Ascii.zero.
Definition NL : string := String "010" EmptyString.
Definition QUOTE : ascii := ascii_of_nat 34.
Definition code (c : ascii) : Z := Z.of_nat (nat_of_ascii c).
Definition lower (c : ascii) : ascii :=
  if (65 <=? code c) && (code c <=? 90) then ascii_of_nat (nat_of_ascii c + 32) else c.

(** [strcasecmp(a, b) == 0]. *)
Fixpoint strcaseeq (a b : string) : bool :=
  match a, b with
  | EmptyString, EmptyString => true
  | String c a', String d b' => bool_decide (lower c = lower d) && strcaseeq a' b'
  | _, _ => false
  end.

Definition buffer : Type := list (option ascii).

(** [strncasecmp(buf, b, n) == 0]; [None]: a cell outside of the buffer or not
    written is read. *)
Fixpoint strncaseeq (n : nat) (buf : buffer) (b : string) : option bool :=
  match n with
  | O => Some true
  | S n' =>
      match buf with
      | Some c :: buf' =>
          match b with
          | EmptyString => Some (bool_decide (c = NUL))
          | String d b' => if decide (lower c = lower d) then strncaseeq n' buf' b' else Some false
          end
      | _ => None
      end
  end.

(** [strncmp(buf, b, n) == 0]. *)
Fixpoint strneq (n : nat) (buf : buffer) (b : string) : option bool :=
  match n with
  | O => Some true
  | S n' =>
      match buf with
      | Some c :: buf' =>
          match b with
          | EmptyString => Some (bool_decide (c = NUL))
          | String d b' => if decide (c = d) then strneq n' buf' b' else Some false
          end
      | _ => None
      end
  end.

(** The string a buffer holds; [None]: it is not terminated. *)
Fixpoint cstr (buf : buffer) : option string :=
  match buf with
  | Some c :: buf' => if decide (c = NUL) then Some EmptyString else s ← cstr buf'; Some (String c s)
  | _ => None
  end.

(** [strstr(a, b) != NULL]. *)
Fixpoint starts (b a : string) : bool :=
  match b, a with
  | EmptyString, _ => true
  | String d b', String c a' => bool_decide (c = d) && starts b' a'
  | String _ _, EmptyString => false
  end.
Fixpoint contains (a b : string) : bool :=
  starts b a || match a with EmptyString => false | String _ a' => contains a' b end.

(** [strtol(s, NULL, 0)]: white space, a sign, a prefix, digits; saturating. *)
Definition LONG_MAX : Z := 9223372036854775807.
Definition LONG_MIN : Z := -9223372036854775808.
Definition is_space (c : ascii) : bool := (code c =? 32) || ((9 <=? code c) && (code c <=? 13)).
Definition digit (c : ascii) : Z :=
  if (48 <=? code c) && (code c <=? 57) then code c - 48
  else if (97 <=? code (lower c)) && (code (lower c) <=? 122) then code (lower c) - 87 else 36.
Fixpoint skip_space (s : string) : string :=
  match s with
  | String c s' => if is_space c then skip_space s' else s
  | EmptyString => s
  end.
Fixpoint digits (base acc : Z) (s : string) : Z :=
  match s with
  | String c s' => if digit c <? base then digits base (acc * base + digit c) s' else acc
  | EmptyString => acc
  end.
Definition prefixed (s : string) : Z :=
  match s with
  | String "0" (String x (String c r)) =>
      if bool_decide (lower x = "x"%char) && (digit c <? 16) then digits 16 0 (String c r)
      else digits 8 0 s
  | String "0" _ => digits 8 0 s
  | _ => digits 10 0 s
  end.
Definition strtol (s : string) : Z :=
  let v := match skip_space s with
           | String "-" r => - prefixed r
           | String "+" r => prefixed r
           | r => prefixed r
           end in
  Z.max LONG_MIN (Z.min LONG_MAX v).

(** Conversions to [int], [unsigned] and [unsigned long]. *)
Definition to_int (v : Z) : Z := (v + 2147483648) mod 4294967296 - 2147483648.
Definition to_uint (v : Z) : Z := v mod 4294967296.
Definition to_ulong (v : Z) : Z := v mod 18446744073709551616.

Definition strlen (s : string) : Z := Z.of_nat (String.length s).

(** [snprintf(buf, cap, "%s", s)]: the text that lands in the buffer and the
    result. *)
Definition snprintf (cap : Z) (s : string) : option string :=
  if (strlen s <=? 0) || (cap <=? strlen s) then None else Some s.

(** The cells of a text and of what follows it. *)
Definition cells (s : string) : buffer := map Some (String.list_ascii_of_string s).

Lemma length_cells s : length (cells s) = String.length s.
Proof.
  unfold cells. rewrite length_map. induction s as [|c s IH]; [done | ]. cbn.
  by rewrite IH.
Qed.

Example strtol_ex :
  map strtol ["1000"; " -12x"; "0x1F"; "010"; "abc"; "99999999999999999999"]%string =
  [1000; -12; 31; 8; 0; LONG_MAX].
Proof. vm_compute. reflexivity. Qed.
