(* ===== verification/Wifi.v ===== *)
(** Wifi: the Wi-Fi manager of package/tester1/wifi.cpp: the connection state
    machine, the processes it supervises (udhcpc, zcip, wpa_supplicant), the
    control connection to wpa_supplicant, the parser of rtnetlink messages and
    the commands.  Answers of the kernel and of wpa_supplicant come from an
    environment over which the theorems quantify. *)

From stdpp Require Import strings pretty.
From Stdlib Require Import Ascii.
From S2P Require Import Prelude Eff ByteStr CStr.

Open Scope eff_scope.

(* ------------------------------------------------------------------ *)
(** ** States and inputs *)

Inductive state_t : Type :=
  | ST_INIT | ST_RESET | ST_WPASUP_CTRL | ST_WPASUP_READY | ST_WPASUP_CONNECT
  | ST_DHCPC | ST_ZCIP | ST_MON | ST_PAUSE.
#[export] Instance state_t_eq_dec : EqDecision state_t.
Proof. solve_decision. Defined.

Inductive state_input_t : Type :=
  | STIN_ENTER | STIN_TIMEOUT | STIN_IFFUP | STIN_IFFRUNNING | STIN_IPADD | STIN_IFFLOWDOWN.
#[export] Instance state_input_t_eq_dec : EqDecision state_input_t.
Proof. solve_decision. Defined.

(** The enumerators' values. *)
Definition st_num (s : state_t) : Z :=
  match s with
  | ST_INIT => 0 | ST_RESET => 1 | ST_WPASUP_CTRL => 2 | ST_WPASUP_READY => 3
  | ST_WPASUP_CONNECT => 4 | ST_DHCPC => 5 | ST_ZCIP => 6 | ST_MON => 7 | ST_PAUSE => 8
  end.
Definition st_of (n : Z) : option state_t :=
  if n <? 0 then None else
  nth_error [ST_INIT; ST_RESET; ST_WPASUP_CTRL; ST_WPASUP_READY; ST_WPASUP_CONNECT;
             ST_DHCPC; ST_ZCIP; ST_MON; ST_PAUSE] (Z.to_nat n).

Definition state_lut : list (string * Z) :=
  [("ST_INIT", 0); ("ST_RESET", 1); ("ST_WPASUP_CTRL", 2); ("ST_WPASUP_READY", 3);
   ("ST_WPASUP_CONNECT", 4); ("ST_DHCPC", 5); ("ST_ZCIP", 6); ("ST_MON", 7); ("ST_PAUSE", 8)]%string.

(** [stval_find]: by name, or by value when there is none. *)
Fixpoint stval_find (lut : list (string * Z)) (lut_cnt idx : Z) (name : option string) (st : Z)
    : option (string * Z) :=
  match lut with
  | [] => None
  | ent :: lut' =>
      if (0 <? lut_cnt) && (lut_cnt <=? idx) then None else
      match name with
      | Some s => if strcaseeq s ent.1 then Some ent else stval_find lut' lut_cnt (idx + 1) name st
      | None => if st =? ent.2 then Some ent else stval_find lut' lut_cnt (idx + 1) name st
      end
  end.

Definition st_val (str : option string) (def : Z) : Z :=
  match stval_find state_lut (-1) 0 str 0 with Some ent => ent.2 | None => def end.
Definition st_str (st : Z) (def : string) : string :=
  match stval_find state_lut (-1) 0 None st with Some ent => ent.1 | None => def end.

(* ------------------------------------------------------------------ *)
(** ** The manager and its surroundings *)

(** [wifi2_t] but for the descriptors that never change after [wifi2_init]. *)
Record wifi2 : Type := Wifi2 {
  state : state_t; ifflag : Z; ifindex : Z;
  wpasup_cln : option Z; wpasup_mon : option Z; mon_ev : option Z;
  wpasup_pid : Z; udhcpc_pid : Z; zcip_pid : Z;
  ssid : string; psk : string; flag : Z; network_apply : bool }.

Definition set_state (x : state_t) (w : wifi2) : wifi2 :=
  Wifi2 x (ifflag w) (ifindex w) (wpasup_cln w) (wpasup_mon w) (mon_ev w) (wpasup_pid w)
    (udhcpc_pid w) (zcip_pid w) (ssid w) (psk w) (flag w) (network_apply w).
Definition set_ifflag (x : Z) (w : wifi2) : wifi2 :=
  Wifi2 (state w) x (ifindex w) (wpasup_cln w) (wpasup_mon w) (mon_ev w) (wpasup_pid w)
    (udhcpc_pid w) (zcip_pid w) (ssid w) (psk w) (flag w) (network_apply w).
Definition set_cln (x : option Z) (w : wifi2) : wifi2 :=
  Wifi2 (state w) (ifflag w) (ifindex w) x (wpasup_mon w) (mon_ev w) (wpasup_pid w)
    (udhcpc_pid w) (zcip_pid w) (ssid w) (psk w) (flag w) (network_apply w).
Definition set_mon (x : option Z) (w : wifi2) : wifi2 :=
  Wifi2 (state w) (ifflag w) (ifindex w) (wpasup_cln w) x (mon_ev w) (wpasup_pid w)
    (udhcpc_pid w) (zcip_pid w) (ssid w) (psk w) (flag w) (network_apply w).
Definition set_ev (x : option Z) (w : wifi2) : wifi2 :=
  Wifi2 (state w) (ifflag w) (ifindex w) (wpasup_cln w) (wpasup_mon w) x (wpasup_pid w)
    (udhcpc_pid w) (zcip_pid w) (ssid w) (psk w) (flag w) (network_apply w).
Definition set_wpasup (x : Z) (w : wifi2) : wifi2 :=
  Wifi2 (state w) (ifflag w) (ifindex w) (wpasup_cln w) (wpasup_mon w) (mon_ev w) x
    (udhcpc_pid w) (zcip_pid w) (ssid w) (psk w) (flag w) (network_apply w).
Definition set_udhcpc (x : Z) (w : wifi2) : wifi2 :=
  Wifi2 (state w) (ifflag w) (ifindex w) (wpasup_cln w) (wpasup_mon w) (mon_ev w) (wpasup_pid w)
    x (zcip_pid w) (ssid w) (psk w) (flag w) (network_apply w).
Definition set_zcip (x : Z) (w : wifi2) : wifi2 :=
  Wifi2 (state w) (ifflag w) (ifindex w) (wpasup_cln w) (wpasup_mon w) (mon_ev w) (wpasup_pid w)
    (udhcpc_pid w) x (ssid w) (psk w) (flag w) (network_apply w).
Definition set_ssid (x : string) (w : wifi2) : wifi2 :=
  Wifi2 (state w) (ifflag w) (ifindex w) (wpasup_cln w) (wpasup_mon w) (mon_ev w) (wpasup_pid w)
    (udhcpc_pid w) (zcip_pid w) x (psk w) (flag w) (network_apply w).
Definition set_psk (x : string) (w : wifi2) : wifi2 :=
  Wifi2 (state w) (ifflag w) (ifindex w) (wpasup_cln w) (wpasup_mon w) (mon_ev w) (wpasup_pid w)
    (udhcpc_pid w) (zcip_pid w) (ssid w) x (flag w) (network_apply w).
Definition set_flag (x : Z) (w : wifi2) : wifi2 :=
  Wifi2 (state w) (ifflag w) (ifindex w) (wpasup_cln w) (wpasup_mon w) (mon_ev w) (wpasup_pid w)
    (udhcpc_pid w) (zcip_pid w) (ssid w) (psk w) x (network_apply w).
Definition set_apply (x : bool) (w : wifi2) : wifi2 :=
  Wifi2 (state w) (ifflag w) (ifindex w) (wpasup_cln w) (wpasup_mon w) (mon_ev w) (wpasup_pid w)
    (udhcpc_pid w) (zcip_pid w) (ssid w) (psk w) (flag w) x.

(** What the manager does to its surroundings. *)
Inductive act : Type :=
  | System (cmd : string) | Exec (argv : list string) | Signal (pid sig : Z)
  | Ifup (en : Z) | Config (text : string) | Request (ctrl : Z) (cmd : string) (r : Z) (reply : string)
  | Blocked (ms : Z).

(** How a wait for a child ends: its exit status, a signal, or an errno. *)
Inductive exit_t : Type := Exited (code : Z) | Signaled (sig : Z) | Failed (errno : Z).

(** The answers: of [fork] (a negative number when it fails), [kill] (an errno
    or 0), [waitpid] without waiting (0: still running; a negative errno;
    otherwise done) and with (after a number of interruptions), of writing the
    configuration, opening and attaching a control connection, registering with
    the event loop, [system], [aloe_ifup], and of a request: its result and the
    reply. *)
Record env : Type := Env {
  a_fork : nat -> bool; a_kill : nat -> Z; a_poll : nat -> Z; a_wait : nat -> nat * exit_t;
  a_write : nat -> Z; a_open : nat -> bool; a_attach : nat -> Z; a_reg : nat -> bool;
  a_system : nat -> Z; a_ifup : nat -> Z; a_request : nat -> string -> Z * string }.

(** [timer]: the milliseconds the timer descriptor was set to, 0 when it is
    disarmed; [expired]: it ran out and was not read.  [ctrls], [kids]: the
    control connections open and the children not waited for; [fresh]: the next
    name for either.  [n]: the answers used. *)
Record world : Type := World {
  wifi : wifi2; timer : Z; expired : bool; ctrls : list Z; kids : list Z; fresh : Z; n : nat;
  acts : list act }.

Definition set_wifi (x : wifi2) (w : world) : world :=
  World x (timer w) (expired w) (ctrls w) (kids w) (fresh w) (n w) (acts w).
Definition set_timer (t : Z) (e : bool) (w : world) : world :=
  World (wifi w) t e (ctrls w) (kids w) (fresh w) (n w) (acts w).
Definition set_ctrls (x : list Z) (w : world) : world :=
  World (wifi w) (timer w) (expired w) x (kids w) (fresh w) (n w) (acts w).
Definition set_kids (x : list Z) (w : world) : world :=
  World (wifi w) (timer w) (expired w) (ctrls w) x (fresh w) (n w) (acts w).
Definition bump_fresh (w : world) : world :=
  World (wifi w) (timer w) (expired w) (ctrls w) (kids w) (fresh w + 1) (n w) (acts w).
Definition bump_n (w : world) : world :=
  World (wifi w) (timer w) (expired w) (ctrls w) (kids w) (fresh w) (S (n w)) (acts w).
Definition add_act (x : act) (w : world) : world :=
  World (wifi w) (timer w) (expired w) (ctrls w) (kids w) (fresh w) (n w) (acts w ++ [x]).

Definition M (A : Type) : Type := comp world A.
Definition self : M wifi2 := gets wifi.
Definition upd (f : wifi2 -> wifi2) : M unit := modify (fun w => set_wifi (f (wifi w)) w).
Definition did (x : act) : M unit := modify (add_act x).

Definition SIGKILL : Z := 9.
Definition SIGTERM : Z := 15.
Definition EINTR : Z := 4.
Definition ECHILD : Z := 10.

Section Manager.
Context (E : env) (iface : string).

(* ------------------------------------------------------------------ *)
(** ** Processes *)

Definition ask {A} (f : env -> nat -> A) : M A := do i <- gets n; modify bump_n;; ret (f E i).

(** A signal to anything but a child of the manager that is still there would
    hit another process, or for 0 the whole group. *)
Definition kill (pid sig : Z) : M Z :=
  do k <- gets kids;
  if bool_decide (pid ∈ k) then did (Signal pid sig);; ask a_kill else ub.

Definition reaped (pid : Z) : M unit := modify (fun w => set_kids (filter (fun x => x <> pid) (kids w)) w).

(** [waitpid(pid, NULL, WNOHANG)]: [pid], 0 or a negative errno. *)
Definition waitpid_nohang (pid : Z) : M Z :=
  do r <- ask a_poll;
  if r =? 0 then ret 0 else
  if r <? 0 then (if r =? - ECHILD then reaped pid else ret tt);; ret r
  else reaped pid;; ret pid.

(** [waitpid(pid, &es, 0)] retried while interrupted. *)
Fixpoint waitpid_retry (intr : nat) (pid : Z) (e : exit_t) : M exit_t :=
  match intr with
  | S i => waitpid_retry i pid e
  | O => (match e with Failed _ => ret tt | _ => reaped pid end);; ret e
  end.

Definition aloe_waitpid (pid : Z) : M Z :=
  do a <- ask a_wait;
  do e <- waitpid_retry a.1 pid a.2;
  ret (match e with Exited c => c | _ => -1 end).

Definition pid_kill (pid : Z) : M Z :=
  if pid <? 0 then ret 0 else
  do r <- kill pid SIGKILL;
  if negb (r =? 0) then ret r else aloe_waitpid pid.

(** The command must fit a buffer of 128. *)
Definition system_cmd (cmd : string) : M Z :=
  match snprintf 128 cmd with
  | None => ret (-1)
  | Some c => did (System c);; ask a_system
  end.

Definition SHNULL : string := " >/dev/null 2>&1".
Definition ip_flush : M Z := system_cmd ("ip a flush dev " +:+ iface +:+ SHNULL).

(** One shot; 0 disarms.  Setting the timer forgets that it ran out. *)
Definition timer_set (ms : Z) : M unit := modify (set_timer ms false).

Definition ifup (en : Z) : M Z := did (Ifup en);; ask a_ifup.

(** [fork], with the program the child runs. *)
Definition fork_exec (argv : list string) : M (option Z) :=
  do ok <- ask a_fork;
  if negb ok then ret None else
  do pid <- gets fresh; modify bump_fresh;; modify (fun w => set_kids (pid :: kids w) w);;
  did (Exec argv);; ret (Some pid).

Definition dhcpc_start (en : Z) : M Z :=
  do w <- self;
  (if 0 <? udhcpc_pid w then pid_kill (udhcpc_pid w);; upd (set_udhcpc (-1)) else ret tt);;
  if en <=? 0 then ret 0 else
  do pid <- fork_exec ["udhcpc"; "-i"; iface; "-f"; "-q"; "-n"]%string;
  match pid with
  | None => ret (-1)
  | Some p => upd (set_udhcpc p);; ret 0
  end.

Definition zcip_start (en : Z) : M Z :=
  do w <- self;
  (if 0 <? zcip_pid w then pid_kill (zcip_pid w);; upd (set_zcip (-1)) else ret tt);;
  if en <=? 0 then ret 0 else
  do pid <- fork_exec ["zcip"; iface; "/usr/share/zcip/default.script"]%string;
  match pid with
  | None => ret (-1)
  | Some p => upd (set_zcip p);; ret 0
  end.

(* ------------------------------------------------------------------ *)
(** ** The control connection *)

(** [wpa_ctrl_detach], [wpa_ctrl_close]: a connection is closed once. *)
Definition wpasup_ctrl_close (c : Z) : M unit :=
  do l <- gets ctrls;
  if bool_decide (c ∈ l) then modify (set_ctrls (filter (fun x => x <> c) l)) else ub.

Definition wpasup_ctrl_open (attach : bool) : M (option Z) :=
  if 64 <=? strlen ("/var/run/wpa_supplicant/" +:+ iface) then ret None else
  do ok <- ask a_open;
  if negb ok then ret None else
  do c <- gets fresh; modify bump_fresh;; modify (fun w => set_ctrls (c :: ctrls w) w);;
  if attach then
    do r <- ask a_attach;
    if negb (r =? 0) then wpasup_ctrl_close c;; ret None else ret (Some c)
  else ret (Some c).

Definition WPASUP_START_DEBUG : Z := 2.

(** The wait for wpa_supplicant to go after SIGTERM, [i] turns at most. *)
Fixpoint wpasup_reap (i : nat) (pid : Z) : M unit :=
  match i with
  | O => ret tt
  | S i' =>
      do wp <- waitpid_nohang pid;
      if wp =? pid then upd (set_wpasup (-1)) else
      if wp <? 0 then
        if wp =? - EINTR then wpasup_reap i' pid else
        if wp =? - ECHILD then upd (set_wpasup (-1)) else ret tt
      else wpasup_reap i' pid
  end.

Definition wpasup_stop : M unit :=
  do w <- self;
  (match wpasup_cln w with Some c => wpasup_ctrl_close c;; upd (set_cln None) | None => ret tt end);;
  (match mon_ev w with Some _ => upd (set_ev None) | None => ret tt end);;
  (match wpasup_mon w with Some c => wpasup_ctrl_close c;; upd (set_mon None) | None => ret tt end);;
  kill (wpasup_pid w) SIGTERM;;
  wpasup_reap 10 (wpasup_pid w);;
  (do w <- self; pid_kill (wpasup_pid w));;
  upd (set_wpasup (-1)).

Definition wpasup_config : string :=
  "ctrl_interface=/var/run/wpa_supplicant" +:+ NL +:+ "sae_groups=19" +:+ NL +:+ "sae_pwe=2" +:+ NL.

Definition wpasup_argv (en : Z) : list string :=
  ["wpa_supplicant"; "-i"; iface; "-c"; "/var/run/wpa_supplicant.conf"]%string ++
  (if WPASUP_START_DEBUG <=? en then
     ["-f"; "/var/run/wpa_supplicant.log"]%string ++
     (if WPASUP_START_DEBUG + 2 <=? en then ["-dd"%string] else
      if WPASUP_START_DEBUG + 1 <=? en then ["-d"%string] else [])
   else []).

Definition wpasup_start (en : Z) : M Z :=
  do w <- self;
  (if 0 <? wpasup_pid w then wpasup_stop else ret tt);;
  if en <=? 0 then ret 0 else
  did (Config wpasup_config);;
  do wr <- ask a_write;
  if negb (wr =? strlen wpasup_config) then ret (-1) else
  do pid <- fork_exec (wpasup_argv en);
  match pid with
  | None => ret (-1)
  | Some p => upd (set_wpasup p);; ret 0
  end.

(* ------------------------------------------------------------------ *)
(** ** Requests *)

(** A reply buffer with its size, which each request takes as the room it has
    and leaves as the length of the reply. *)
Definition wpasup_cmd (cmd : string) (reply : buffer) (len : Z) : M (Z * (buffer * Z)) :=
  do w <- self;
  do ok <- (match wpasup_cln w with
            | Some _ => ret true
            | None =>
                do c <- wpasup_ctrl_open false;
                match c with None => ret false | Some c => upd (set_cln (Some c));; ret true end
            end);
  if negb ok then ret (-1, (reply, len)) else
  (do w <- self;
   do mon <- (match wpasup_mon w with
              | Some c => ret (Some c)
              | None =>
                  do c <- wpasup_ctrl_open true;
                  match c with None => ret None | Some c => upd (set_mon (Some c));; ret (Some c) end
              end);
   match mon, mon_ev w with
   | Some c, None => do ok <- ask a_reg; if (ok : bool) then upd (set_ev (Some c)) else ret tt
   | _, _ => ret tt
   end);;
  do w <- self;
  do c <- need (wpasup_cln w);
  do i <- gets n; modify bump_n;;
  let (r, txt) := a_request E i cmd in
  did (Request c cmd r txt);;
  let got := take (Z.to_nat len) (cells txt) in
  let '(reply, len') := if r =? 0 then (got ++ drop (length got) reply, Z.of_nat (length got))
                        else (reply, len) in
  (* [reply[*len] = 0] *)
  if (0 <? len) && (len' <? len)
  then ret (r, (<[Z.to_nat len' := Some NUL]> reply, len')) else ret (r, (reply, len')).

(** [wpasup_cmdsf]: the command must fit a buffer of [cmd_sz]. *)
Definition wpasup_cmdsf (reply : buffer) (len cmd_sz : Z) (cmd : string) : M (Z * (buffer * Z)) :=
  match snprintf cmd_sz cmd with
  | None => ret (-1, (reply, len))
  | Some c => wpasup_cmd c reply len
  end.

Definition fresh_buffer (sz : Z) : buffer := replicate (Z.to_nat sz) None.

Definition wpasup_ping : M Z :=
  do ' (r, (reply, _)) <- wpasup_cmd "PING" (fresh_buffer 16) 16;
  if negb (r =? 0) then ret (-1) else
  do s <- need (cstr reply);
  if negb (contains s "PONG") then ret (-1) else ret 0.

Definition wpasup_add_network (network_idx : Z) : M Z :=
  do ' (r, (reply, len)) <- wpasup_cmdsf (fresh_buffer 32) 32 32 "ADD_NETWORK";
  if negb (r =? 0) || (len <=? 0) then ret (-1) else
  match snprintf 32 (pretty network_idx +:+ NL) with
  | None => ret (-1)
  | Some verify =>
      do same <- need (strneq 32 reply verify);
      if same : bool then ret 0 else need (cstr reply);; ret (-1)
  end.

(** One step of [wpasup_network_connect]: a command that must be answered OK;
    the reply buffer goes from step to step. *)
Definition OK_NL : string := "OK" +:+ NL.
Definition must (rep : buffer * Z) (cmd : string) (k : buffer * Z -> M Z) : M Z :=
  do ' (r, rep') <- wpasup_cmdsf rep.1 rep.2 256 cmd;
  if negb (r =? 0) || (rep'.2 <=? 0) then ret (-1) else
  do ok <- need (strncaseeq 3 rep'.1 OK_NL);
  if ok : bool then k rep' else ret (-1).

Definition quoted (s : string) : string := String QUOTE (s +:+ String QUOTE EmptyString).

Definition wpasup_network_connect (ssid : string) (psk : option string) (flag : Z) : M Z :=
  let net s := ("SET_NETWORK " +:+ pretty 0 +:+ s)%string in
  must (fresh_buffer 32, 32) "FLUSH" (fun rep =>
  do r <- wpasup_add_network 0;
  if negb (r =? 0) then ret (-1) else
  must rep (net " scan_ssid 1") (fun rep =>
  must rep (net (" ssid " +:+ quoted ssid)) (fun rep =>
  let select rep := must rep ("SELECT_NETWORK " +:+ pretty 0) (fun _ => ret 0) in
  match psk with
  | None => must rep (net " key_mgmt NONE") select
  | Some psk =>
      must rep (net (" psk " +:+ quoted psk)) (fun rep =>
      if flag =? 0 then select rep else
      must rep (net (" psk " +:+ quoted psk)) (fun rep =>
      must rep (net " key_mgmt SAE") (fun rep =>
      must rep (net " ieee80211w 2") select)))
  end))).

(* ------------------------------------------------------------------ *)
(** ** The state machine *)

Definition is_enter (x : state_input_t) : bool := bool_decide (x = STIN_ENTER).
Definition is_timeout (x : state_input_t) : bool := bool_decide (x = STIN_TIMEOUT).

(** [SM_GOTO]: leaves its own [do .. while (0)] only, so what follows it in the
    case still runs. *)
Definition sm_goto (st : state_t) (stin : state_input_t) : M (option state_input_t) :=
  upd (set_state st);; ret (Some stin).

(** One turn of the loop: the input of the next turn, or none. *)
Definition sm_turn (stin : state_input_t) : M (option state_input_t) :=
  do w <- self;
  match state w with
  | ST_INIT =>
      if is_enter stin then timer_set 10;; ret None else
      if is_timeout stin then sm_goto ST_RESET STIN_ENTER else ret None
  | ST_RESET =>
      if is_enter stin then
        dhcpc_start 0;; zcip_start 0;;
        system_cmd ("killall udhcpc" +:+ SHNULL);;
        system_cmd ("killall zcip" +:+ SHNULL);;
        system_cmd ("killall -9 wpa_supplicant" +:+ SHNULL);;
        ifup 0;; ip_flush;; ifup 1;;
        wpasup_start 1;; ret None
      else
      if bool_decide (stin = STIN_IFFUP) then sm_goto ST_WPASUP_CTRL STIN_ENTER else ret None
  | ST_WPASUP_CTRL =>
      if is_enter stin || is_timeout stin then
        do r <- wpasup_ping;
        do next <- (if r =? 0 then sm_goto ST_WPASUP_READY STIN_ENTER else ret None);
        timer_set 100;; ret next
      else ret None
  | ST_WPASUP_READY =>
      if is_enter stin || is_timeout stin then
        do next <- (if network_apply w && negb (strlen (ssid w) =? 0)
                    then sm_goto ST_WPASUP_CONNECT STIN_ENTER else ret None);
        timer_set 1000;; ret next
      else ret None
  | ST_WPASUP_CONNECT =>
      if is_enter stin then
        if negb (network_apply w) then ub else
        wpasup_network_connect (ssid w) (Some (psk w)) (flag w);;
        timer_set 15000;; ret None
      else if bool_decide (stin = STIN_IFFRUNNING) then sm_goto ST_DHCPC STIN_ENTER
      else if is_timeout stin then sm_goto ST_WPASUP_READY STIN_ENTER else ret None
  | ST_DHCPC =>
      if is_enter stin then dhcpc_start 1;; timer_set 10000;; ret None
      else if is_timeout stin then sm_goto ST_ZCIP STIN_ENTER
      else if bool_decide (stin = STIN_IPADD) then sm_goto ST_MON STIN_ENTER else ret None
  | ST_ZCIP =>
      if is_enter stin then zcip_start 1;; timer_set 10000;; ret None
      else if is_timeout stin then sm_goto ST_MON STIN_ENTER
      else if bool_decide (stin = STIN_IPADD) then sm_goto ST_MON STIN_ENTER else ret None
  | ST_MON =>
      if is_enter stin then timer_set 5000;; ret None
      else if is_timeout stin then timer_set 5000;; ret None
      else if bool_decide (stin = STIN_IFFLOWDOWN)
      then ip_flush;; sm_goto ST_WPASUP_READY STIN_ENTER else ret None
  | ST_PAUSE => ret None
  end.

(** [while (sm_continue)], [k] turns at most. *)
Fixpoint sm_loop (k : nat) (stin : state_input_t) : M unit :=
  match k with
  | O => deep
  | S k' => do next <- sm_turn stin; match next with None => ret tt | Some stin' => sm_loop k' stin' end
  end.
Definition run_sm (stin : state_input_t) : M unit := sm_loop 4 stin.

(* ------------------------------------------------------------------ *)
(** ** rtnetlink *)

Definition RTM_NEWLINK : Z := 16.
Definition RTM_NEWADDR : Z := 20.
Definition RTM_DELADDR : Z := 21.
Definition IFA_ADDRESS : Z := 1.
Definition IFA_LOCAL : Z := 2.
Definition IFA_LABEL : Z := 3.
Definition AF_INET : Z := 2.
Definition AF_INET6 : Z := 10.
Definition RT_SCOPE_UNIVERSE : Z := 0.
Definition RT_SCOPE_LINK : Z := 253.
Definition IFF_UP : Z := 1.
Definition IFF_RUNNING : Z := 64.
Definition IFF_LOWER_UP : Z := 65536.
Definition INET6_ADDRSTRLEN : Z := 46.

(** The integer of [k] bytes at offset [off] of what was received. *)
Definition field (off k : nat) (bs : list Z) : M Z := need (le k (drop off bs)).

(** [NLMSG_ALIGN] and [RTA_ALIGN]. *)
Definition align4 (x : Z) : Z := (x + 3) / 4 * 4.

(** The text an attribute holds, which must end before the bytes received. *)
Fixpoint c_text (bs : list Z) : option Z :=
  match bs with
  | [] => None
  | b :: bs' => if b =? 0 then Some 0 else l ← c_text bs'; Some (l + 1)
  end.

(** The attributes of an address message: is it a link or a universe IPv4
    address.  [fuel] bounds the turns; an attribute has four bytes at least. *)
Fixpoint rta_walk (fuel : nat) (family scope : Z) (bs : list Z) (rem : Z) (found : bool) : M bool :=
  if rem <? 4 then ret found else
  do rta_len <- field 0 2 bs;
  if (rta_len <? 4) || (rem <? rta_len) then ret found else
  do rta_type <- field 2 2 bs;
  do found <-
    (if rta_type =? IFA_LABEL then
       do l <- need (c_text (drop 4 bs));
       if INET6_ADDRSTRLEN <=? l then ub else ret found
     else if rta_type =? IFA_LOCAL then
       if family =? AF_INET then
         field 4 4 bs;; ret (found || (scope =? RT_SCOPE_UNIVERSE) || (scope =? RT_SCOPE_LINK))
       else if family =? AF_INET6 then field 4 16 bs;; ret found else ret found
     else if rta_type =? IFA_ADDRESS then
       if family =? AF_INET6 then field 4 16 bs;; ret found
       else if family =? AF_INET then field 4 4 bs;; ret found else ret found
     else ret found);
  match fuel with
  | O => deep
  | S f => rta_walk f family scope (drop (Z.to_nat (align4 rta_len)) bs) (rem - align4 rta_len) found
  end.

(** [RTM_NEWADDR]: [bs] starts at the header of the message. *)
Definition on_addr (type msg_len : Z) (bs : list Z) : M unit :=
  do index <- field 20 4 bs;
  do w <- self;
  if negb (index =? to_uint (ifindex w)) then ret tt else
  if type =? RTM_DELADDR then ret tt else
  do family <- field 16 1 bs;
  do scope <- field 19 1 bs;
  do found <- rta_walk (length bs) family scope (drop 24 bs) (msg_len - 24) false;
  if found : bool then run_sm STIN_IPADD else ret tt.

(** [RTM_NEWLINK]: the flags the interface has now, if the message is for it. *)
Definition on_link (bs : list Z) : M (option Z) :=
  do index <- field 20 4 bs;
  do w <- self;
  if negb (to_int index =? ifindex w) then ret None else
  do flags <- field 24 4 bs;
  let changed m := negb (Z.land (Z.lxor flags (ifflag w)) m =? 0) in
  let set m := negb (Z.land flags m =? 0) in
  (if changed IFF_UP && set IFF_UP then run_sm STIN_IFFUP else ret tt);;
  (if changed IFF_RUNNING && set IFF_RUNNING then run_sm STIN_IFFRUNNING else ret tt);;
  (if changed IFF_LOWER_UP && negb (set IFF_LOWER_UP) then run_sm STIN_IFFLOWDOWN else ret tt);;
  ret (Some flags).

(** The messages of one [recv]; the flags they end with. *)
Fixpoint nl_walk (fuel : nat) (bs : list Z) (len : Z) (update : option Z) : M (option Z) :=
  if len <? 16 then ret update else
  do msg_len <- field 0 4 bs;
  if (msg_len <? 16) || (len <? msg_len) then ret update else
  do type <- field 4 2 bs;
  do update <-
    (if (type =? RTM_NEWADDR) || (type =? RTM_DELADDR) then on_addr type msg_len bs;; ret update
     else if type =? RTM_NEWLINK then
       do f <- on_link bs; ret (match f with Some f => Some f | None => update end)
     else ret update);
  match fuel with
  | O => deep
  | S f => nl_walk f (drop (Z.to_nat (align4 msg_len)) bs) (len - align4 msg_len) update
  end.

(** [data]: what [recv] brought, at most 4096 bytes. *)
Definition handle_rtnl (data : list Z) : M unit :=
  do update <- nl_walk (length data) data (Z.of_nat (length data)) None;
  match update with Some f => upd (set_ifflag f) | None => ret tt end.

(* ------------------------------------------------------------------ *)
(** ** Events *)

(** What one [epoll_wait] found. *)
Inductive event : Type := Rtnl (data : list Z) | Timer.

(** [read] of the timer descriptor: it blocks until the timer runs out, for
    ever when it is disarmed. *)
Definition timer_read : M unit :=
  do w <- get;
  if expired w then modify (set_timer (timer w) false)
  else if timer w =? 0 then deep
  else did (Blocked (timer w));; modify (set_timer 0 false).

Fixpoint wifi2_epoll_cb (evs : list event) : M unit :=
  match evs with
  | [] => ret tt
  | Rtnl data :: evs' => handle_rtnl data;; wifi2_epoll_cb evs'
  | Timer :: evs' => timer_read;; run_sm STIN_TIMEOUT;; wifi2_epoll_cb evs'
  end.

(** The timer runs out. *)
Definition timer_expires : M unit :=
  do w <- get; if timer w =? 0 then misuse else modify (set_timer 0 true).

(* ------------------------------------------------------------------ *)
(** ** Commands *)

(** The arguments after the first, with spaces between, in a buffer of 500. *)
Fixpoint join_args (cmd : string) (args : list string) : option string :=
  match args with
  | [] => Some cmd
  | a :: args' =>
      let piece := if 0 <? strlen cmd then String " " a else a in
      if (strlen piece <=? 0) || (500 <=? strlen piece + strlen cmd) then None
      else join_args (cmd +:+ piece) args'
  end.

Definition wifi2_cli_wpacmd (argv : list string) : M Z :=
  match join_args EmptyString (tail argv) with
  | None => ret (-1)
  | Some cmd =>
      do ' (r, (resp, _)) <- wpasup_cmd cmd (fresh_buffer 500) 500;
      do c <- need (mjoin (head resp));
      (if bool_decide (c <> NUL) then need (cstr resp);; ret tt else ret tt);;
      ret r
  end.

Definition arg (argv : list string) (i : nat) : option string := argv !! i.
Definition arg_num (argv : list string) (i : nat) (def : Z) : Z :=
  match arg argv i with Some s => strtol s | None => def end.
Definition cmd_is (argv : list string) (name : string) : bool :=
  match arg argv 1 with Some s => strcaseeq s name | None => false end.

(** [wificfg] and [swqa]. *)
Definition cli_config (argv : list string) : M Z :=
  let swqa := cmd_is argv "swqa" in
  let name := if swqa then Some "DK_SWQA_Linksys_5G"%string else arg argv 2 in
  let key := if swqa then Some "5555500000"%string else arg argv 3 in
  let fl := if swqa then 1 else to_uint (arg_num argv 4 0) in
  match name with
  | None | Some EmptyString => upd (set_apply false);; ret 0
  | Some s =>
      match snprintf 64 s with
      | None => upd (set_ssid (String.substring 0 63 s));; ret (-1)
      | Some s =>
          upd (set_ssid s);;
          match key with
          | None => upd (set_psk EmptyString)
          | Some k => upd (set_psk (String.substring 0 99 k))
          end;;
          if match key with Some k => match snprintf 100 k with None => true | _ => false end | None => false end
          then ret (-1) else
          upd (set_flag fl);; upd (set_apply true);; upd (set_state ST_INIT);;
          run_sm STIN_ENTER;; ret 0
      end
  end.

(** [present]: the manager was created. *)
Definition wifi2_cli (present : bool) (argv : list string) : M Z :=
  if (Z.of_nat (length argv) <? 2) || cmd_is argv "help" then ret 0 else
  if negb present then ret 1 else
  if cmd_is argv "timer" then
    let dur := to_ulong (arg_num argv 2 0) in
    (if negb (dur =? to_ulong (-1)) then timer_set dur else ret tt);; ret 0 else
  if cmd_is argv "iflink" then ifup (to_int (arg_num argv 2 1)) else
  if cmd_is argv "dhcp" then dhcpc_start (to_int (arg_num argv 2 1)) else
  if cmd_is argv "zcip" then zcip_start (to_int (arg_num argv 2 1)) else
  if cmd_is argv "wpasup" then wpasup_start (to_int (arg_num argv 2 1)) else
  if cmd_is argv "state" then
    match arg argv 2 with
    | None => ret 0
    | Some name =>
        match st_of (st_val (Some name) (-1)) with
        | None => ret 1
        | Some st => upd (set_state st);; run_sm STIN_ENTER;; ret 0
        end
    end else
  if (3 <=? Z.of_nat (length argv)) && cmd_is argv "wpacmd" then wifi2_cli_wpacmd (tail argv) else
  if (3 <=? Z.of_nat (length argv)) && cmd_is argv "wificonn" then
    wpasup_network_connect (default EmptyString (arg argv 2)) (arg argv 3) (to_uint (arg_num argv 4 0)) else
  if cmd_is argv "wificfg" || cmd_is argv "swqa" then cli_config argv else
  ret 1.
End Manager.

(* ------------------------------------------------------------------ *)
(** ** Construction *)

(** The answers [wifi2_init] meets: memory, [if_nametoindex], the interface
    flags, the three descriptors (-1 when the call fails), the registration. *)
Record setup : Type := Setup {
  i_mem : bool; i_index : Z; i_flags : option Z; i_rtnl : Z; i_timer : Z; i_epoll : Z; i_reg : bool }.

(** [strncpy] into the 16 bytes of [iface], the last of them a NUL. *)
Definition iface_name (name : option string) : string :=
  String.substring 0 15 (default "wlan0"%string name).

Definition new_wifi2 (ifindex flags : Z) : wifi2 :=
  Wifi2 ST_PAUSE flags ifindex None None None 0 0 0 EmptyString EmptyString 0 false.

(** The manager, or none, and the descriptors left open. *)
Definition wifi2_init (a : setup) : option wifi2 * list Z :=
  let opened l := filter (fun x => x <> -1) l in
  let close x l := filter (fun y => y <> x) l in
  if negb (i_mem a) then (None, []) else
  if i_index a =? 0 then (None, []) else
  match i_flags a with
  | None => (None, [])
  | Some flags =>
      let fds := opened [i_rtnl a; i_timer a; i_epoll a] in
      if i_reg a then (Some (new_wifi2 (i_index a) flags), fds)
      else
        let fds := if negb (i_epoll a =? -1) then close (i_epoll a) fds else fds in
        let fds := if negb (i_timer a =? -1) then close (i_timer a) fds else fds in
        let fds := if negb (i_rtnl a =? 0) then close (i_rtnl a) fds else fds in
        (None, fds)
  end.

Definition idle (ifindex flags : Z) : world :=
  World (new_wifi2 ifindex flags) 0 false [] [] 1 0 [].
