(* ===== verification/WifiSafe.v ===== *)
(** WifiSafe: the invariant of the Wi-Fi manager.  Control connections, the
    watch on one of them and the children it supervises are exactly what the
    state says, through every operation and whatever the kernel answers. *)

From stdpp Require Import strings pretty.
From Stdlib Require Import Ascii.
From S2P Require Import Prelude Eff CStr Wifi.

Open Scope eff_scope.

(** wpa_supplicant answers the manager's own requests with fewer than 16
    characters. *)
Definition polite (E : env) : Prop := forall n cmd, strlen (a_request E n cmd).2 < 16.

Definition conns (x : wifi2) : list Z := option_list (wpasup_cln x) ++ option_list (wpasup_mon x).
Definition pids (x : wifi2) : list Z :=
  filter (fun p => 0 < p) [wpasup_pid x; udhcpc_pid x; zcip_pid x].

Record good_ (x : wifi2) (cs ks : list Z) (f : Z) : Prop := Good {
  g_conns : cs ≡ₚ conns x;
  g_nodup : NoDup cs;
  g_ev : forall c, mon_ev x = Some c -> wpasup_mon x = Some c;
  g_pids : NoDup (pids x);
  g_kids : forall p, p ∈ pids x -> p ∈ ks;
  g_old : forall p, p ∈ cs \/ p ∈ ks -> 0 < p < f;
  g_fresh : 0 < f }.
Definition good (w : world) : Prop := good_ (wifi w) (ctrls w) (kids w) (fresh w).

(** What the operations below the state machine leave alone. *)
Definition view (w : world) : state_t * Z * Z * string * string * Z * bool * Z * bool :=
  (state (wifi w), ifflag (wifi w), ifindex (wifi w), ssid (wifi w), psk (wifi w), flag (wifi w),
   network_apply (wifi w), timer w, expired w).

Definition quiet (w w' : world) : Prop := good w' /\ view w' = view w.

Lemma wquiet_refl w : good w -> quiet w w.
Proof. done. Qed.
Lemma wquiet_trans w1 w2 w3 : quiet w1 w2 -> quiet w2 w3 -> quiet w1 w3.
Proof. intros [_ V1] [G V2]. split; [done | congruence]. Qed.

Section Safe.
Context (E : env) (iface : string).

Notation kept m w := (wp m w (fun _ w' => quiet w w')).

Lemma kept_bind {A B} (m : M A) (k : A -> M B) w :
  kept m w -> (forall x w', good w' -> kept (k x) w') -> kept (bind m k) w.
Proof.
  intros Hm Hk. apply ewp_bind. eapply ewp_mono; [exact Hm | ]. cbv beta. intros x w' Q1.
  eapply ewp_mono; [apply Hk, Q1 | ]. cbv beta. intros y w'' Q2. by eapply wquiet_trans.
Qed.

Lemma kept_ret {A} (x : A) w : good w -> kept (ret x) w.
Proof. intros. by apply ewp_ret, wquiet_refl. Qed.

Lemma kept_ask {A} (f : env -> nat -> A) w : good w -> kept (ask E f) w.
Proof. intros G. unfold ask. apply ewp_bind, wp_gets, ewp_bind, ewp_modify, ewp_ret. done. Qed.

Lemma kept_did x w : good w -> kept (did x) w.
Proof. intros G. by apply ewp_modify. Qed.

(* ------------------------------------------------------------------ *)
(** ** Processes *)

(** A child may be gone. *)
Definition lost (p : Z) (w w' : world) : Prop :=
  wifi w' = wifi w /\ ctrls w' = ctrls w /\ fresh w' = fresh w /\ timer w' = timer w /\ expired w' = expired w /\
  (forall q, q ∈ kids w' -> q ∈ kids w) /\ (forall q, q <> p -> q ∈ kids w -> q ∈ kids w').

Lemma lost_refl p w : lost p w w.
Proof. by split_and!. Qed.
Lemma lost_trans p w1 w2 w3 : lost p w1 w2 -> lost p w2 w3 -> lost p w1 w3.
Proof.
  intros (A1&B1&C1&D1&E1&F1&G1) (A2&B2&C2&D2&E2&F2&G2). split_and!; try congruence; auto.
Qed.

Lemma lost_reaped p w Q : Q tt (set_kids (filter (fun x => x <> p) (kids w)) w) -> wp (reaped p) w Q.
Proof. intros HQ. unfold reaped. by apply ewp_modify. Qed.

Lemma lost_set p w : lost p w (set_kids (filter (fun x => x <> p) (kids w)) w).
Proof.
  split_and!; try done; cbn; intros q; rewrite list_elem_of_filter; tauto.
Qed.

Lemma waitpid_retry_ok i p e : forall w, wp (waitpid_retry i p e) w (fun _ w' => lost p w w').
Proof.
  induction i as [|i IH]; intros w; cbn [waitpid_retry]; [ | apply IH]. apply ewp_bind.
  destruct e; first [apply lost_reaped | apply ewp_ret]; apply ewp_ret; first [apply lost_set | apply lost_refl].
Qed.

Lemma kill_ok p sig w : p ∈ kids w -> wp (kill E p sig) w (fun _ w' => lost p w w' /\ kids w' = kids w).
Proof.
  intros Hp. unfold kill. apply ewp_bind, wp_gets. rewrite bool_decide_true by done.
  unfold ask. apply ewp_bind, ewp_modify, ewp_bind, wp_gets, ewp_bind, ewp_modify, ewp_ret. by split_and!.
Qed.

Lemma pid_kill_ok p w : p < 0 \/ p ∈ kids w -> wp (pid_kill E p) w (fun _ w' => lost p w w').
Proof.
  intros Hp. unfold pid_kill. destruct (Z.ltb_spec p 0); [apply ewp_ret, lost_refl | ].
  destruct Hp as [? | Hp]; [lia | ].
  apply ewp_bind. eapply ewp_mono; [by apply kill_ok | ]. cbv beta. intros r w1 [L1 _].
  destruct (negb (r =? 0)); [by apply ewp_ret | ]. unfold aloe_waitpid, ask.
  apply ewp_bind, ewp_bind, wp_gets, ewp_bind, ewp_modify, ewp_ret, ewp_bind.
  eapply ewp_mono; [apply waitpid_retry_ok | ]. cbv beta. intros e w2 L2. apply ewp_ret.
  eapply lost_trans; [done | ]. eapply lost_trans; [ | done]. by split_and!.
Qed.

(** Letting go of one of the three processes. *)
Lemma good_lost w w' p x :
  good w -> lost p w w' -> conns x = conns (wifi w) -> mon_ev x = mon_ev (wifi w) ->
  wpasup_mon x = wpasup_mon (wifi w) -> NoDup (pids x) ->
  (forall q, q ∈ pids x -> q ∈ pids (wifi w) /\ q <> p) ->
  good_ x (ctrls w') (kids w') (fresh w').
Proof.
  intros [] (A&B&C&_&_&F&G) Hc He Hm Hn Hp. split; rewrite ?B, ?C, ?Hc, ?He, ?Hm; auto.
  - intros q Hq. destruct (Hp q Hq). auto.
  - intros q [Hq | Hq]; auto.
Qed.

Lemma fork_ok argv w : good w -> wp (fork_exec E argv) w (fun r w' =>
  view w' = view w /\ wifi w' = wifi w /\ ctrls w' = ctrls w /\
  match r with
  | None => fresh w' = fresh w /\ kids w' = kids w
  | Some p => p = fresh w /\ fresh w' = fresh w + 1 /\ kids w' = p :: kids w
  end).
Proof.
  intros G. unfold fork_exec, ask. apply ewp_bind, ewp_bind, wp_gets, ewp_bind, ewp_modify, ewp_ret.
  destruct (negb _); [by apply ewp_ret | ].
  apply ewp_bind, wp_gets, ewp_bind, ewp_modify, ewp_bind, ewp_modify, ewp_bind, ewp_modify, ewp_ret. done.
Qed.

Lemma good_fork w w' p x :
  good w -> wifi w' = wifi w -> ctrls w' = ctrls w -> p = fresh w -> fresh w' = fresh w + 1 ->
  kids w' = p :: kids w -> conns x = conns (wifi w) -> mon_ev x = mon_ev (wifi w) ->
  wpasup_mon x = wpasup_mon (wifi w) ->
  (exists l1 l2, pids x = l1 ++ p :: l2 /\ pids (wifi w) = l1 ++ l2) ->
  good_ x (ctrls w') (kids w') (fresh w').
Proof.
  intros [] A B -> C D Hc He Hm (l1 & l2 & Hx & Hw). rewrite B, C, D. split; rewrite ?Hc, ?He, ?Hm; auto.
  - rewrite Hx, <- Permutation_middle, <- Hw. apply NoDup_cons. split; [ | done].
    intros Hin. pose proof (g_old0 (fresh w) (or_intror (g_kids0 _ Hin))). lia.
  - intros q. rewrite Hx, elem_of_app, elem_of_cons. rewrite Hw in g_kids0. setoid_rewrite elem_of_app in g_kids0.
    rewrite elem_of_cons. intros [? | [? | ?]]; auto.
  - intros q [Hq | Hq].
    + pose proof (g_old0 q (or_introl Hq)). lia.
    + apply elem_of_cons in Hq as [-> | Hq]; [lia | pose proof (g_old0 q (or_intror Hq)); lia].
  - lia.
Qed.

(** Each process in the list of those with a positive pid. *)
Lemma pids_split_dhcpc x : exists l1 l2, forall p, pids (set_udhcpc p x) = l1 ++ filter (fun p => 0 < p) [p] ++ l2.
Proof.
  exists (filter (fun p => 0 < p) [wpasup_pid x]), (filter (fun p => 0 < p) [zcip_pid x]). intros p.
  unfold pids. cbn [wpasup_pid udhcpc_pid zcip_pid set_udhcpc]. by rewrite <- !filter_app.
Qed.
Lemma pids_split_zcip x : exists l1 l2, forall p, pids (set_zcip p x) = l1 ++ filter (fun p => 0 < p) [p] ++ l2.
Proof.
  exists (filter (fun p => 0 < p) [wpasup_pid x; udhcpc_pid x]), []. intros p.
  unfold pids. cbn [wpasup_pid udhcpc_pid zcip_pid set_zcip]. by rewrite app_nil_r, <- !filter_app.
Qed.
Lemma pids_split_wpasup x : exists l1 l2, forall p, pids (set_wpasup p x) = l1 ++ filter (fun p => 0 < p) [p] ++ l2.
Proof.
  exists [], (filter (fun p => 0 < p) [udhcpc_pid x; zcip_pid x]). intros p.
  unfold pids. cbn [wpasup_pid udhcpc_pid zcip_pid set_wpasup]. by rewrite <- !filter_app.
Qed.

(** One supervised process, as [dhcpc_start] and [zcip_start] treat it. *)
Record slot (get : wifi2 -> Z) (set : Z -> wifi2 -> wifi2) : Prop := Slot {
  s_id : forall x, set (get x) x = x;
  s_get : forall x p, get (set p x) = p;
  s_set : forall x p q, set p (set q x) = set p x;
  s_conns : forall x p, conns (set p x) = conns x;
  s_ev : forall x p, mon_ev (set p x) = mon_ev x;
  s_mon : forall x p, wpasup_mon (set p x) = wpasup_mon x;
  s_view : forall x p w, view (set_wifi (set p x) w) = view (set_wifi x w);
  s_split : forall x, exists l1 l2, forall p, pids (set p x) = l1 ++ filter (fun p => 0 < p) [p] ++ l2 }.

Lemma slot_dhcpc : slot udhcpc_pid set_udhcpc.
Proof. split; try (by intros []); try done. apply pids_split_dhcpc. Qed.
Lemma slot_zcip : slot zcip_pid set_zcip.
Proof. split; try (by intros []); try done. apply pids_split_zcip. Qed.
Lemma slot_wpasup : slot wpasup_pid set_wpasup.
Proof. split; try (by intros []); try done. apply pids_split_wpasup. Qed.

Lemma filter_pos p : 0 < p -> filter (fun p => 0 < p) [p] = [p].
Proof. intros. by rewrite filter_cons_True. Qed.
Lemma filter_neg p : ~ 0 < p -> filter (fun p => 0 < p) [p] = [].
Proof. intros. by rewrite filter_cons_False. Qed.

Lemma slot_pids get set x : slot get set -> exists l1 l2,
  (forall p, pids (set p x) = l1 ++ filter (fun p => 0 < p) [p] ++ l2) /\
  pids x = l1 ++ filter (fun p => 0 < p) [get x] ++ l2.
Proof.
  intros S. destruct (s_split _ _ S x) as (l1 & l2 & Hs). exists l1, l2. split; [done | ].
  specialize (Hs (get x)). by rewrite (s_id _ _ S) in Hs.
Qed.

Lemma slot_in get set w : slot get set -> good w -> 0 < get (wifi w) -> get (wifi w) ∈ kids w.
Proof.
  intros S G Hp. apply (g_kids _ _ _ _ G). destruct (slot_pids _ _ (wifi w) S) as (l1 & l2 & _ & Hw).
  rewrite Hw, filter_pos by done. rewrite !elem_of_app. right; left. by left.
Qed.

(** A world that has lost the process, with its number forgotten. *)
Lemma slot_clear get set w w' :
  slot get set -> good w -> lost (get (wifi w)) w w' -> 0 < get (wifi w) ->
  quiet w (set_wifi (set (-1) (wifi w')) w').
Proof.
  intros S G L Hp. pose proof L as (A & B & C & D1 & D2 & _). destruct (slot_pids _ _ (wifi w) S) as (l1 & l2 & Hs & Hw).
  rewrite filter_pos in Hw by done. pose proof (g_pids _ _ _ _ G) as Hn. rewrite Hw in Hn.
  pose proof (Hs (-1)) as Hm. rewrite filter_neg in Hm by lia. cbn [app] in Hm. split.
  - unfold good. cbn [wifi ctrls kids fresh set_wifi]. rewrite A.
    eapply good_lost; [done | done | apply S | apply S | apply S | | ].
    + rewrite Hm. eapply sublist_NoDup; [exact Hn | ]. apply sublist_app; [done | by apply sublist_cons].
    + rewrite Hm, Hw. intros q Hq. split; [rewrite elem_of_app in *; rewrite elem_of_app; tauto | ].
      intros ->. apply NoDup_app in Hn as (_ & N1 & N2). apply NoDup_app in N2 as (_ & N2 & _).
      apply elem_of_app in Hq as [Hq | Hq]; [eapply N1; [done | apply elem_of_app; left; by left] | eapply N2; [by left | done]].
  - rewrite A, (s_view _ _ S). destruct w, w'. cbn in *. subst. done.
Qed.

(** A world with a new child, under the number of the process. *)
Lemma slot_fill get set w w' p :
  slot get set -> good w -> ~ 0 < get (wifi w) -> view w' = view w -> wifi w' = wifi w -> ctrls w' = ctrls w ->
  p = fresh w -> fresh w' = fresh w + 1 -> kids w' = p :: kids w ->
  quiet w (set_wifi (set p (wifi w')) w').
Proof.
  intros S G Hp V A B Hf C D. destruct (slot_pids _ _ (wifi w) S) as (l1 & l2 & Hs & Hw).
  pose proof (g_fresh _ _ _ _ G) as Hpos. split.
  - unfold good. cbn [wifi ctrls kids fresh set_wifi]. rewrite A.
    eapply (good_fork w w' p); try done; try apply S. exists l1, l2. rewrite Hs, filter_pos by lia. split; [done | ].
    by rewrite Hw, filter_neg.
  - rewrite A, (s_view _ _ S), <- A, <- V. by destruct w'.
Qed.

Lemma wp_upd f w (Q : unit -> world -> Prop) : Q tt (set_wifi (f (wifi w)) w) -> wp (upd f) w Q.
Proof. intros HQ. unfold upd. by apply ewp_modify. Qed.

Lemma wp_self w (Q : wifi2 -> world -> Prop) : Q (wifi w) w -> wp self w Q.
Proof. apply wp_gets. Qed.

Lemma slot_stop get set w :
  slot get set -> good w ->
  wp (if 0 <? get (wifi w) then pid_kill E (get (wifi w));; upd (set (-1)) else ret tt) w
    (fun _ w' => quiet w w' /\ ~ 0 < get (wifi w')).
Proof.
  intros S G. destruct (Z.ltb_spec 0 (get (wifi w))) as [Hp | Hp].
  - apply ewp_bind. eapply ewp_mono; [apply pid_kill_ok; right; by eapply slot_in | ]. cbv beta. intros r w1 L.
    apply wp_upd. split; [by apply (slot_clear get set) | ]. cbn. rewrite (s_get _ _ S). lia.
  - apply ewp_ret. split; [done | lia].
Qed.

Lemma slot_start get set w argv (en : Z) :
  slot get set -> good w -> ~ 0 < get (wifi w) ->
  kept (do pid <- fork_exec E argv;
      match pid with None => ret (-1) | Some p => upd (set p);; ret 0 end) w.
Proof.
  intros S G Hn. apply ewp_bind. eapply ewp_mono; [by apply fork_ok | ]. cbv beta. intros [p|] w1 (V & A & B & C).
  - destruct C as (Hp & C & D). apply ewp_bind, wp_upd, ewp_ret. by eapply slot_fill.
  - destruct C as (C & D). apply ewp_ret. split; [ | done]. unfold good. by rewrite A, B, C, D.
Qed.

Lemma dhcpc_start_ok en w : good w -> kept (dhcpc_start E iface en) w.
Proof.
  intros G. unfold dhcpc_start. apply ewp_bind, wp_self, ewp_bind.
  eapply ewp_mono; [by apply (slot_stop udhcpc_pid set_udhcpc), G; apply slot_dhcpc | ]. cbv beta. intros _ w1 [Q1 Hn].
  destruct (en <=? 0); [by apply ewp_ret | ].
  eapply ewp_mono; [apply (slot_start udhcpc_pid set_udhcpc); [done | apply slot_dhcpc | apply Q1 | done] | ].
  cbv beta. intros r w2 Q2. by eapply wquiet_trans.
Qed.

Lemma zcip_start_ok en w : good w -> kept (zcip_start E iface en) w.
Proof.
  intros G. unfold zcip_start. apply ewp_bind, wp_self, ewp_bind.
  eapply ewp_mono; [by apply (slot_stop zcip_pid set_zcip), G; apply slot_zcip | ]. cbv beta. intros _ w1 [Q1 Hn].
  destruct (en <=? 0); [by apply ewp_ret | ].
  eapply ewp_mono; [apply (slot_start zcip_pid set_zcip); [done | apply slot_zcip | apply Q1 | done] | ].
  cbv beta. intros r w2 Q2. by eapply wquiet_trans.
Qed.

(* ------------------------------------------------------------------ *)
(** ** The control connection *)

Definition same (w w' : world) : Prop := wifi w' = wifi w /\ kids w' = kids w /\ view w' = view w.

Lemma wp_ctrl_close c w (Q : unit -> world -> Prop) :
  c ∈ ctrls w -> Q tt (set_ctrls (filter (fun x => x <> c) (ctrls w)) w) -> wp (wpasup_ctrl_close c) w Q.
Proof.
  intros Hc HQ. unfold wpasup_ctrl_close. apply ewp_bind, wp_gets. rewrite bool_decide_true by done.
  by apply ewp_modify.
Qed.

Lemma ctrl_open_ok attach w : good w -> wp (wpasup_ctrl_open E iface attach) w (fun r w' =>
  wifi w' = wifi w /\ kids w' = kids w /\ view w' = view w /\ acts w' = acts w /\
  match r with
  | None => good w'
  | Some c => c = fresh w /\ fresh w' = fresh w + 1 /\ ctrls w' = c :: ctrls w
  end).
Proof.
  intros G. unfold wpasup_ctrl_open. destruct (64 <=? _); [by apply ewp_ret | ]. unfold ask.
  apply ewp_bind, ewp_bind, wp_gets, ewp_bind, ewp_modify, ewp_ret. destruct (negb _); [by apply ewp_ret | ].
  apply ewp_bind, wp_gets, ewp_bind, ewp_modify, ewp_bind, ewp_modify. destruct attach; [ | by apply ewp_ret].
  apply ewp_bind, ewp_bind, wp_gets, ewp_bind, ewp_modify, ewp_ret.
  destruct (negb _); [ | by apply ewp_ret]. apply ewp_bind, wp_ctrl_close; [cbn; by left | ]. apply ewp_ret.
  split_and!; try done. destruct G. unfold good. cbn [wifi ctrls kids fresh set_ctrls bump_fresh bump_n].
  assert (Hn : fresh w ∉ ctrls w) by (intros Hin; pose proof (g_old0 _ (or_introl Hin)); lia).
  rewrite filter_cons_False by auto. assert (Hf : filter (fun x => x <> fresh w) (ctrls w) = ctrls w).
  { clear -Hn. induction (ctrls w) as [|x l IH]; [done | ]. apply not_elem_of_cons in Hn as [? ?].
    rewrite filter_cons_True by auto. by rewrite IH. }
  rewrite Hf. split; auto; [ | lia]. intros p Hp. pose proof (g_old0 p Hp). lia.
Qed.

(** A connection opened is kept under one of the two names. *)
Lemma good_open w w' x c :
  good w -> kids w' = kids w -> c = fresh w -> fresh w' = fresh w + 1 -> ctrls w' = c :: ctrls w ->
  conns x ≡ₚ c :: conns (wifi w) -> (forall d, mon_ev x = Some d -> wpasup_mon x = Some d) -> pids x = pids (wifi w) ->
  good_ x (ctrls w') (kids w') (fresh w').
Proof.
  intros [] A -> B C Hc He Hp. rewrite A, B, C. split; rewrite ?Hp; auto.
  - by rewrite Hc, g_conns0.
  - apply NoDup_cons. split; [ | done]. intros Hin. pose proof (g_old0 _ (or_introl Hin)). lia.
  - intros p [Hq | Hq].
    + apply elem_of_cons in Hq as [-> | Hq]; [lia | pose proof (g_old0 p (or_introl Hq)); lia].
    + pose proof (g_old0 p (or_intror Hq)). lia.
  - lia.
Qed.

(** A connection closed is forgotten. *)
Lemma good_close w x c :
  good w -> conns (wifi w) ≡ₚ c :: conns x -> (forall d, mon_ev x = Some d -> wpasup_mon x = Some d) ->
  pids x = pids (wifi w) -> good_ x (filter (fun y => y <> c) (ctrls w)) (kids w) (fresh w).
Proof.
  intros [] Hc He Hp. split; rewrite ?Hp; auto.
  - apply filter_perm_cons; [done | by rewrite g_conns0].
  - by apply NoDup_filter.
  - intros p [Hq | Hq]; [ | auto]. apply list_elem_of_filter in Hq as [_ Hq]. auto.
Qed.

Lemma conns_cln x c : wpasup_cln x = Some c -> conns x = c :: conns (set_cln None x).
Proof. unfold conns. intros H. cbn. by rewrite H. Qed.
Lemma conns_mon x c : wpasup_mon x = Some c -> conns x ≡ₚ c :: conns (set_mon None x).
Proof. unfold conns. intros H. cbn. rewrite H. cbn. by rewrite app_nil_r, Permutation_app_comm. Qed.

(** The three things [wpasup_start] lets go of before it kills the process. *)
Lemma drop_cln w : good w ->
  wp (match wpasup_cln (wifi w) with Some c => wpasup_ctrl_close c;; upd (set_cln None) | None => ret tt end) w
    (fun _ w' => quiet w w' /\ wpasup_pid (wifi w') = wpasup_pid (wifi w) /\ kids w' = kids w /\
       mon_ev (wifi w') = mon_ev (wifi w) /\ wpasup_mon (wifi w') = wpasup_mon (wifi w)).
Proof.
  intros G. destruct (wpasup_cln (wifi w)) as [c|] eqn:Hc; [ | by apply ewp_ret].
  apply ewp_bind, wp_ctrl_close.
  { rewrite (g_conns _ _ _ _ G), (conns_cln _ _ Hc). by left. }
  apply wp_upd. split_and!; try done. split; [ | done]. apply (good_close w _ c); [done | by rewrite (conns_cln _ _ Hc) | apply (g_ev _ _ _ _ G) | done].
Qed.

Lemma drop_ev w : good w ->
  wp (match mon_ev (wifi w) with Some _ => upd (set_ev None) | None => ret tt end) w
    (fun _ w' => quiet w w' /\ wpasup_pid (wifi w') = wpasup_pid (wifi w) /\ kids w' = kids w /\
       mon_ev (wifi w') = None /\ wpasup_mon (wifi w') = wpasup_mon (wifi w)).
Proof.
  intros G. destruct (mon_ev (wifi w)) as [c|] eqn:Hc; [ | by apply ewp_ret].
  apply wp_upd. split_and!; try done. split; [ | done]. by destruct G.
Qed.

Lemma drop_mon w : good w -> mon_ev (wifi w) = None ->
  wp (match wpasup_mon (wifi w) with Some c => wpasup_ctrl_close c;; upd (set_mon None) | None => ret tt end) w
    (fun _ w' => quiet w w' /\ wpasup_pid (wifi w') = wpasup_pid (wifi w) /\ kids w' = kids w).
Proof.
  intros G He. destruct (wpasup_mon (wifi w)) as [c|] eqn:Hc; [ | by apply ewp_ret].
  apply ewp_bind, wp_ctrl_close.
  { rewrite (g_conns _ _ _ _ G), (conns_mon _ _ Hc). by left. }
  apply wp_upd. split_and!; try done. split; [ | done]. apply (good_close w _ c); [done | by apply conns_mon | | done].
  intros d. cbn. by rewrite He.
Qed.

Lemma reap_ok i p : 0 < p -> forall w, p ∈ kids w -> wp (wpasup_reap E i p) w (fun _ w' =>
  exists w1, lost p w w1 /\ (w' = w1 /\ kids w1 = kids w \/ w' = set_wifi (set_wpasup (-1) (wifi w1)) w1)).
Proof.
  intros Hp. induction i as [|i IH]; intros w Hk; cbn [wpasup_reap].
  { apply ewp_ret. exists w. split; [apply lost_refl | by left]. }
  apply ewp_bind. unfold waitpid_nohang, ask. apply ewp_bind, ewp_bind, wp_gets, ewp_bind, ewp_modify, ewp_ret.
  set (r := a_poll E (n w)). set (w0 := bump_n w). assert (L0 : lost p w w0) by (by split_and!).
  assert (Hagain : wp (wpasup_reap E i p) w0 (fun _ w' => exists w1, lost p w w1 /\
    (w' = w1 /\ kids w1 = kids w \/ w' = set_wifi (set_wpasup (-1) (wifi w1)) w1))).
  { eapply ewp_mono; [by apply IH | ]. cbv beta. intros _ w' (w1 & L1 & H1). exists w1.
    split; [by eapply lost_trans | done]. }
  destruct (Z.eqb_spec r 0) as [Hr | Hr].
  { apply ewp_ret. rewrite (proj2 (Z.eqb_neq 0 p)) by lia. cbn [Z.ltb]. exact Hagain. }
  destruct (Z.ltb_spec r 0) as [Hneg | Hpos].
  - apply ewp_bind. destruct (Z.eqb_spec r (- ECHILD)) as [He | He].
    + apply lost_reaped, ewp_ret. rewrite (proj2 (Z.eqb_neq r p)), (proj2 (Z.ltb_lt _ _) Hneg) by lia.
      rewrite (proj2 (Z.eqb_neq r (- EINTR))) by (unfold EINTR, ECHILD in *; lia). rewrite He, Z.eqb_refl.
      apply wp_upd. eexists. split; [ | by right]. eapply lost_trans; [exact L0 | apply lost_set].
    + apply ewp_ret, ewp_ret. rewrite (proj2 (Z.eqb_neq r p)), (proj2 (Z.ltb_lt _ _) Hneg) by lia.
      destruct (r =? - EINTR); [exact Hagain | ]. rewrite (proj2 (Z.eqb_neq _ _) He). apply ewp_ret.
      exists w0. split; [done | by left].
  - apply ewp_bind, lost_reaped, ewp_ret. rewrite Z.eqb_refl. apply wp_upd. eexists.
    split; [ | by right]. eapply lost_trans; [exact L0 | apply lost_set].
Qed.

Lemma wpasup_stop_ok w :
  good w -> 0 < wpasup_pid (wifi w) ->
  wp (wpasup_stop E) w (fun _ w' => quiet w w' /\ ~ 0 < wpasup_pid (wifi w')).
Proof.
  intros G Hp. unfold wpasup_stop. apply ewp_bind, wp_self.
  pose proof slot_wpasup as S.
  apply ewp_bind. eapply ewp_mono; [by apply drop_cln | ]. cbv beta. intros _ w1 (Q1 & P1 & K1 & E1 & M1).
  apply ewp_bind. rewrite <- E1. eapply ewp_mono; [by apply drop_ev, Q1 | ]. cbv beta. intros _ w2 (Q2 & P2 & K2 & E2 & M2).
  apply ewp_bind. rewrite <- M1, <- M2. eapply ewp_mono; [apply drop_mon; [apply Q2 | done] | ].
  cbv beta. intros _ w3 (Q3 & P3 & K3).
  assert (Q : quiet w w3) by (eapply wquiet_trans; [done | by eapply wquiet_trans]).
  assert (Hp3 : wpasup_pid (wifi w3) = wpasup_pid (wifi w)) by congruence. rewrite <- Hp3 in *. clear P1 P2 P3.
  set (p := wpasup_pid (wifi w3)) in *.
  assert (Hk : p ∈ kids w3) by (apply (slot_in wpasup_pid set_wpasup w3 S); [apply Q | done]).
  apply ewp_bind. eapply ewp_mono; [by apply kill_ok | ]. cbv beta. intros _ w4 [L4 K4].
  apply ewp_bind. eapply ewp_mono; [apply (reap_ok 10 p Hp); by rewrite K4 | ]. cbv beta. intros _ w5 (w6 & L6 & H6).
  assert (L : lost p w3 w6) by (by eapply lost_trans).
  assert (Hend : forall w7, lost p w3 w7 -> quiet w (set_wifi (set_wpasup (-1) (wifi w7)) w7) /\
    ~ 0 < wpasup_pid (wifi (set_wifi (set_wpasup (-1) (wifi w7)) w7))).
  { intros w7 L7. split; [ | cbn; lia]. eapply wquiet_trans; [exact Q | ].
    apply (slot_clear wpasup_pid set_wpasup); [done | apply Q | done | done]. }
  apply ewp_bind, ewp_bind, wp_self. destruct H6 as [[-> K6] | ->].
  - pose proof L as (A & _). rewrite A. fold p. eapply ewp_mono; [apply pid_kill_ok; right; by rewrite K6, K4 | ].
    cbv beta. intros _ w7 L7. apply wp_upd. apply Hend. by eapply lost_trans.
  - cbn [wpasup_pid set_wpasup wifi set_wifi]. unfold pid_kill. cbn. apply ewp_ret, wp_upd.
    replace (set_wifi _ _) with (set_wifi (set_wpasup (-1) (wifi w6)) w6) by done. by apply Hend.
Qed.

Lemma wpasup_start_ok en w : good w -> kept (wpasup_start E iface en) w.
Proof.
  intros G. unfold wpasup_start. apply ewp_bind, wp_self, ewp_bind.
  assert (Hgo : forall w1, quiet w w1 -> ~ 0 < wpasup_pid (wifi w1) ->
    kept (if en <=? 0 then ret 0 else
      did (Config wpasup_config);; do wr <- ask E a_write;
      if negb (wr =? strlen wpasup_config) then ret (-1) else
      do pid <- fork_exec E (wpasup_argv iface en);
      match pid with None => ret (-1) | Some p => upd (set_wpasup p);; ret 0 end) w1).
  { intros w1 Q1 Hn. destruct (en <=? 0); [apply kept_ret, Q1 | ].
    unfold ask. apply ewp_bind, ewp_modify, ewp_bind, ewp_bind, wp_gets, ewp_bind, ewp_modify, ewp_ret.
    destruct (negb _); [apply ewp_ret; split; [apply Q1 | done] | ].
    match goal with |- wp _ ?w2 _ => assert (Q2 : quiet w1 w2) by (split; [apply Q1 | done]) end.
    eapply ewp_mono; [apply (slot_start wpasup_pid set_wpasup _ _ 1 slot_wpasup); [apply Q2 | done] | ].
    cbv beta. intros r w3 Q3. eapply wquiet_trans; [exact Q2 | exact Q3]. }
  destruct (Z.ltb_spec 0 (wpasup_pid (wifi w))) as [Hp | Hp].
  - eapply ewp_mono; [by apply wpasup_stop_ok | ]. cbv beta. intros _ w1 [Q1 Hn].
    eapply ewp_mono; [by apply Hgo | ]. cbv beta. intros r w2 Q2. by eapply wquiet_trans.
  - apply ewp_ret. apply Hgo; [done | lia].
Qed.


(* ------------------------------------------------------------------ *)
(** ** Requests *)

(** The commands sent to wpa_supplicant, each with the result and the reply. *)
Definition exchange : Type := string * (Z * string).
Definition sent (w : world) : list exchange :=
  omap (fun a => match a with Request _ cmd r txt => Some (cmd, (r, txt)) | _ => None end) (acts w).

Lemma sent_app w l w' : acts w' = acts w ++ l ->
  sent w' = sent w ++ omap (fun a => match a with Request _ cmd r txt => Some (cmd, (r, txt)) | _ => None end) l.
Proof. unfold sent. intros ->. by rewrite omap_app. Qed.

(** A reply that fills [len'] cells of a buffer whose first [len] were free. *)
Definition landed (reply : buffer) (len : Z) (txt : string) (reply' : buffer) (len' : Z) : Prop :=
  let got := take (Z.to_nat len) (cells txt) in
  len' = Z.of_nat (length got) /\
  exists tl, length (got ++ tl) = length reply /\
    (reply' = got ++ tl /\ len' = len \/ exists tl', reply' = got ++ Some NUL :: tl' /\ length reply' = length reply /\ len' < len).

Lemma landed_request reply len txt :
  0 <= len <= Z.of_nat (length reply) ->
  let got := take (Z.to_nat len) (cells txt) in
  let reply' := got ++ drop (length got) reply in
  let len' := Z.of_nat (length got) in
  landed reply len txt
    (if (0 <? len) && (len' <? len) then <[Z.to_nat len' := Some NUL]> reply' else reply') len'.
Proof.
  intros Hl got reply' len'. assert (Hg : (length got <= Z.to_nat len)%nat) by (unfold got; rewrite length_take; lia).
  split; [done | ]. exists (drop (length got) reply). fold got. split; [rewrite length_app, length_drop; lia | ].
  destruct (Z.ltb_spec len' len) as [H1 | H1]; [ | left; rewrite andb_false_r; split; [done | unfold len' in *; lia]].
  rewrite (proj2 (Z.ltb_lt 0 len)) by (unfold len' in *; lia). right. cbn [andb].
  destruct (drop (length got) reply) as [|x tl] eqn:Hd.
  { apply (f_equal length) in Hd. rewrite length_drop in Hd. cbn in Hd. unfold len' in *. lia. }
  exists tl. unfold reply', len'. rewrite Nat2Z.id, insert_app_r_alt, Nat.sub_diag by lia. split; [done | ].
  split; [ | done]. cbn [length insert list_insert]. rewrite length_app. cbn.
  apply (f_equal length) in Hd. rewrite length_drop in Hd. cbn in Hd. unfold len' in *. lia.
Qed.

Lemma cmd_cln w : good w ->
  wp (match wpasup_cln (wifi w) with
      | Some _ => ret true
      | None =>
          do c <- wpasup_ctrl_open E iface false;
          match c with None => ret false | Some c => upd (set_cln (Some c));; ret true end
      end) w
    (fun ok w' => quiet w w' /\ acts w' = acts w /\ (ok = true -> wpasup_cln (wifi w') <> None)).
Proof.
  intros G. destruct (wpasup_cln (wifi w)) as [c|] eqn:Hc; [apply ewp_ret; by rewrite Hc | ].
  apply ewp_bind. eapply ewp_mono; [by apply ctrl_open_ok | ]. cbv beta. intros [c|] w1 (A & B & V & C & D).
  - destruct D as (D1 & D2 & D3). apply ewp_bind, wp_upd, ewp_ret. split_and!; [ | done | done].
    split; [ | by destruct w1]. eapply (good_open w w1 _ c); try done; rewrite ?A; try done.
    + unfold conns. cbn. by rewrite Hc.
    + apply (g_ev _ _ _ _ G).
  - apply ewp_ret. by split_and!.
Qed.

Lemma cmd_mon w : good w ->
  wp (do x <- self;
      do mon <- (match wpasup_mon x with
                 | Some c => ret (Some c)
                 | None =>
                     do c <- wpasup_ctrl_open E iface true;
                     match c with None => ret None | Some c => upd (set_mon (Some c));; ret (Some c) end
                 end);
      match mon, mon_ev x with
      | Some c, None => do ok <- ask E a_reg; if (ok : bool) then upd (set_ev (Some c)) else ret tt
      | _, _ => ret tt
      end) w
    (fun _ w' => quiet w w' /\ acts w' = acts w /\ wpasup_cln (wifi w') = wpasup_cln (wifi w)).
Proof.
  intros G. apply ewp_bind, wp_self, ewp_bind.
  assert (Hend : forall mon w1, quiet w w1 -> acts w1 = acts w -> wpasup_cln (wifi w1) = wpasup_cln (wifi w) ->
    wpasup_mon (wifi w1) = mon -> mon_ev (wifi w1) = mon_ev (wifi w) ->
    wp (match mon, mon_ev (wifi w) with
        | Some c, None => do ok <- ask E a_reg; if (ok : bool) then upd (set_ev (Some c)) else ret tt
        | _, _ => ret tt
        end) w1 (fun _ w' => quiet w w' /\ acts w' = acts w /\ wpasup_cln (wifi w') = wpasup_cln (wifi w))).
  { intros mon w1 Q A C Hm He. destruct mon as [c|]; [ | by apply ewp_ret].
    destruct (mon_ev (wifi w)); [by apply ewp_ret | ]. unfold ask.
    apply ewp_bind, ewp_bind, wp_gets, ewp_bind, ewp_modify, ewp_ret.
    destruct (a_reg E _); [ | by apply ewp_ret]. apply wp_upd. split_and!; try done.
    eapply wquiet_trans; [exact Q | ]. split; [ | done]. destruct Q as [[] _].
    split; cbn; try done. intros d [= <-]. done. }
  destruct (wpasup_mon (wifi w)) as [c|] eqn:Hc; [apply ewp_ret, (Hend (Some c)); [apply wquiet_refl; done|done|done|exact Hc|done] | ].
  apply ewp_bind. eapply ewp_mono; [by apply ctrl_open_ok | ]. cbv beta. intros [c|] w1 (A & B & V & C & D).
  - destruct D as (D1 & D2 & D3). apply ewp_bind, wp_upd, ewp_ret, (Hend (Some c)); cbn; try congruence; try done.
    split; [ | by destruct w1]. eapply (good_open w w1 _ c); try done; rewrite ?A; try done.
    + unfold conns. cbn. rewrite Hc. cbn. by rewrite app_nil_r, Permutation_app_comm.
    + intros d. cbn. intros Hd. pose proof (g_ev _ _ _ _ G d Hd). congruence.
  - apply ewp_ret, (Hend None); try congruence. by split.
Qed.

(** A request is made once or, without a connection, not at all. *)
Definition asked_once (cmd : string) (w : world) (reply : buffer) (len : Z) (x : Z * (buffer * Z)) (w' : world) : Prop :=
  quiet w w' /\
  (sent w' = sent w /\ x = (-1, (reply, len)) \/
   exists i, sent w' = sent w ++ [(cmd, a_request E i cmd)] /\ x.1 = (a_request E i cmd).1 /\
   (x.1 <> 0 /\ x.2 = (reply, len) \/
    x.1 = 0 /\ landed reply len (a_request E i cmd).2 x.2.1 x.2.2)).

Lemma wpasup_cmd_ok cmd reply len w :
  good w -> 0 <= len <= Z.of_nat (length reply) ->
  wp (wpasup_cmd E iface cmd reply len) w (asked_once cmd w reply len).
Proof.
  intros G Hl. unfold wpasup_cmd. apply ewp_bind, wp_self, ewp_bind.
  eapply ewp_mono; [by apply cmd_cln | ]. cbv beta. intros ok w1 (Q1 & A1 & C1).
  destruct ok; cbn [negb]; [ | apply ewp_ret; split; [done | left; by rewrite (sent_app w [] w1), !app_nil_r by (by rewrite app_nil_r)]].
  apply ewp_bind. eapply ewp_mono; [apply cmd_mon, Q1 | ]. cbv beta. intros _ w2 (Q2 & A2 & C2).
  apply ewp_bind, wp_self, ewp_bind. destruct (wpasup_cln (wifi w2)) as [c|] eqn:Hc; [ | by destruct (C1 eq_refl); rewrite <- C2].
  eapply wp_need; [done | ]. apply ewp_bind, wp_gets, ewp_bind, ewp_modify.
  set (i := n _). destruct (a_request E i cmd) as [r txt] eqn:Hr. apply ewp_bind, ewp_modify. set (w3 := add_act _ _).
  assert (Q3 : quiet w w3) by (eapply wquiet_trans; [exact Q1 | ]; eapply wquiet_trans; [exact Q2 | split; [apply Q2 | done]]).
  assert (S3 : sent w3 = sent w ++ [(cmd, (r, txt))]).
  { apply (sent_app w [Request c cmd r txt]). cbn. by rewrite A2, A1. }
  rewrite <- Hr in S3. destruct (Z.eqb_spec r 0) as [-> | Hr0].
  - pose proof (landed_request reply len txt Hl) as HL. cbv zeta in HL.
    destruct ((0 <? len) && _); apply ewp_ret; (split; [done | right; exists i; rewrite Hr in *; split; [done | split; [done | right; done]]]).
  - rewrite Z.ltb_irrefl, andb_false_r. apply ewp_ret.
    split; [done | right; exists i; rewrite Hr in *; split; [done | split; [done | left; done]]].
Qed.

Lemma wpasup_cmdsf_ok cmd cap reply len w :
  good w -> 0 <= len <= Z.of_nat (length reply) ->
  wp (wpasup_cmdsf E iface reply len cap cmd) w (asked_once cmd w reply len).
Proof.
  intros G Hl. unfold wpasup_cmdsf, snprintf. destruct (_ || _); [ | by apply wpasup_cmd_ok].
  apply ewp_ret. split; [done | by left].
Qed.
End Safe.
