(* ===== verification/WifiConn.v ===== *)
(** WifiConn: the dialogue of the Wi-Fi manager with wpa_supplicant: reading
    the replies stays within what was received, and a network is set up by a
    fixed sequence of commands given up at the first refusal. *)

From stdpp Require Import strings pretty.
From Stdlib Require Import Ascii.
From S2P Require Import Prelude Eff CStr Wifi WifiSafe.

Open Scope eff_scope.

(** The commands that set up network 0. *)
Definition connect_cmds (ssid : string) (psk : option string) (flag : Z) : list string :=
  ["FLUSH"; "ADD_NETWORK"; "SET_NETWORK 0 scan_ssid 1"; "SET_NETWORK 0 ssid " +:+ quoted ssid]%string ++
  match psk with
  | None => ["SET_NETWORK 0 key_mgmt NONE"%string]
  | Some psk =>
      ["SET_NETWORK 0 psk " +:+ quoted psk]%string ++
      (if flag =? 0 then []
       else ["SET_NETWORK 0 psk " +:+ quoted psk; "SET_NETWORK 0 key_mgmt SAE"; "SET_NETWORK 0 ieee80211w 2"]%string)
  end ++ ["SELECT_NETWORK 0"%string].

(* ------------------------------------------------------------------ *)
(** ** Reading a reply *)

Lemma landed_len reply len txt reply' len' :
  0 <= len <= Z.of_nat (length reply) -> landed reply len txt reply' len' ->
  0 <= len' <= len /\ length reply' = length reply.
Proof.
  intros Hl (-> & tl & Ht & [[-> He] | (tl' & -> & Hlen & Hlt)]); [ | lia].
  split; [ | done]. lia.
Qed.

(** A reply that does not fill its buffer is a string. *)
Lemma landed_cstr reply len txt reply' len' :
  0 <= len -> strlen txt < len -> landed reply len txt reply' len' -> exists s, cstr reply' = Some s.
Proof.
  intros Hl Ht (-> & tl & _ & [[-> He] | (tl' & -> & _ & _)]).
  - rewrite length_take, length_cells in He. unfold strlen in Ht. lia.
  - rewrite firstn_all2 by (rewrite length_cells; unfold strlen in Ht; lia). unfold cells.
    induction (String.list_ascii_of_string txt) as [|c l [s IH]]; [by exists EmptyString | ].
    cbn [map app cstr]. destruct (decide (c = NUL)); [by eexists | ].
    rewrite IH. by eexists.
Qed.

(** It starts with the text and a NUL. *)
Lemma landed_text reply len txt reply' len' :
  strlen txt < len -> landed reply len txt reply' len' ->
  exists tl, reply' = map Some (String.list_ascii_of_string txt) ++ Some NUL :: tl.
Proof.
  intros Ht (-> & tl & _ & [[-> He] | (tl' & -> & _ & _)]).
  - rewrite length_take, length_cells in He. unfold strlen in Ht. lia.
  - exists tl'. by rewrite firstn_all2 by (rewrite length_cells; unfold strlen in Ht; lia).
Qed.

(** What the comparisons read: the cells that match, and the first that does
    not. *)
Definition readable (k : nat) (buf : buffer) : Prop :=
  (exists cs tl, buf = map Some cs ++ tl /\ length cs = k) \/
  exists cs tl, buf = map Some cs ++ Some NUL :: tl /\ (length cs < k)%nat.

Lemma landed_readable k reply len txt reply' len' :
  Z.of_nat k <= len -> landed reply len txt reply' len' -> readable k reply'.
Proof.
  intros Hk (-> & tl & _ & H).
  assert (Hc : take (Z.to_nat len) (cells txt) = map Some (take (Z.to_nat len) (String.list_ascii_of_string txt)))
    by (unfold cells; by rewrite firstn_map).
  rewrite Hc in *. set (cs := take _ _) in *. rewrite length_map in H.
  assert (Hsplit : forall tl0, reply' = map Some cs ++ tl0 -> (k <= length cs)%nat -> readable k reply').
  { intros tl0 -> Hle. left. exists (take k cs), (map Some (drop k cs) ++ tl0).
    rewrite app_assoc, <- map_app, firstn_skipn, length_take. split; [done | lia]. }
  destruct H as [[-> He] | (tl' & -> & _ & Hlt)].
  - eapply Hsplit; [done | lia].
  - destruct (Nat.leb_spec k (length cs)); [by eapply Hsplit | ]. right. exists cs, tl'. by split.
Qed.

Lemma readable_cons k c buf : readable (S k) (Some c :: buf) -> c <> NUL -> readable k buf.
Proof.
  intros [(cs & tl & H & Hl) | (cs & tl & H & Hl)] Hc; destruct cs as [|d cs]; cbn in *; try done.
  - left. injection H as -> ->. exists cs, tl. split; [done | lia].
  - by injection H as -> ->.
  - right. injection H as -> ->. exists cs, tl. split; [done | lia].
Qed.

Lemma readable_first k buf : readable (S k) buf -> exists c buf', buf = Some c :: buf'.
Proof.
  intros [(cs & tl & -> & Hl) | (cs & tl & -> & Hl)]; destruct cs as [|d cs]; cbn in *; try done; by eexists _, _.
Qed.

Fixpoint no_nul (s : string) : Prop :=
  match s with EmptyString => True | String c s' => lower c <> NUL /\ no_nul s' end.

Lemma lower_nul : lower NUL = NUL.
Proof. reflexivity. Qed.

(** Comparing with a text without NULs reads one cell more than its length at
    most. *)
Lemma strneq_reads b : no_nul b -> forall m buf, readable (S (String.length b)) buf -> strneq m buf b <> None.
Proof.
  induction b as [|d b IH]; intros Hb m buf H; (destruct m as [|m]; [done | ]);
    destruct (readable_first _ _ H) as (c & buf' & ->); cbn; [done | ].
  destruct Hb as [Hd Hb]. destruct (decide (c = d)) as [-> | ]; [ | done].
  apply IH; [done | ]. eapply readable_cons; [exact H | ]. intros ->. by rewrite lower_nul in Hd.
Qed.

(** Comparing the first [m] characters reads [m] cells at most, and equality
    needs them all. *)
Lemma strncaseeq_reads b : no_nul b -> forall m buf, (m <= String.length b)%nat -> readable m buf ->
  exists r, strncaseeq m buf b = Some r /\
    (r = true -> forall cs tl, buf = map Some cs ++ Some NUL :: tl -> (m <= length cs)%nat).
Proof.
  induction b as [|d b IH]; intros Hb m buf Hm H; (destruct m as [|m];
    [exists true; split; [by destruct buf | intros; lia] | ]); cbn in Hm; [lia | ].
  destruct (readable_first _ _ H) as (c & buf' & ->). cbn [strncaseeq]. destruct Hb as [Hd Hb].
  destruct (decide (lower c = lower d)) as [Hcd | ]; [ | by exists false].
  assert (Hc : c <> NUL) by (intros ->; rewrite lower_nul in Hcd; by rewrite <- Hcd in Hd).
  destruct (IH Hb m buf') as (r & -> & Hr); [lia | by eapply readable_cons | ]. exists r. split; [done | ].
  intros Ht cs tl Hbuf. destruct cs as [|c' cs]; cbn in Hbuf; [by injection Hbuf as -> _ | ].
  injection Hbuf as -> ->. cbn. pose proof (Hr Ht cs tl eq_refl). lia.
Qed.

(** Comparing the first [m] characters looks at nothing else. *)
Lemma strncaseeq_take b m : forall x y : buffer, take m x = take m y -> strncaseeq m x b = strncaseeq m y b.
Proof.
  revert b. induction m as [|m IH]; intros b x y H; [done | ].
  destruct x as [|[c|] x], y as [|[d|] y]; cbn in H; try done. injection H as -> H. cbn.
  destruct b as [|e b]; [done | ]. destruct (decide _); [ | done]. by apply IH.
Qed.

Lemma landed_ok reply len txt reply' len' :
  3 <= len <= Z.of_nat (length reply) -> landed reply len txt reply' len' ->
  exists r, strncaseeq 3 reply' OK_NL = Some r /\
    (r = true -> 3 <= len' /\ strncaseeq 3 (cells txt ++ [Some NUL]) OK_NL = Some true).
Proof.
  intros Hl H. destruct (strncaseeq_reads OK_NL) with (m := 3%nat) (buf := reply') as (r & Hr & Ht);
    [by vm_compute | by vm_compute; lia | by eapply landed_readable; [ | done]; lia | ].
  exists r. split; [done | ]. intros ->.
  assert (H3 : 3 <= len').
  { destruct H as (-> & tl & _ & [[-> He] | (tl' & He & _ & _)]); [lia | ].
    unfold cells in *. rewrite firstn_map in He |- *. pose proof (Ht eq_refl _ _ He). rewrite length_map. lia. }
  split; [done | ]. rewrite <- Hr. apply strncaseeq_take. destruct H as (-> & tl & _ & H).
  assert (Hlong : (3 <= length (take (Z.to_nat len) (cells txt)))%nat) by lia.
  assert (Hhead : exists x, reply' = take (Z.to_nat len) (cells txt) ++ x)
    by (destruct H as [[-> _] | (tl' & -> & _)]; by eexists).
  destruct Hhead as [x ->]. rewrite length_take in Hlong. rewrite !take_app_le by (rewrite ?length_take; lia).
  rewrite take_take. f_equal. lia.
Qed.

(** A string that matches does so up to its NUL. *)
Lemma strneq_stop b : no_nul b -> forall m l tl,
  strneq m (map Some l ++ Some NUL :: tl) b = Some true -> strneq m (map Some l ++ [Some NUL]) b = Some true.
Proof.
  induction b as [|d b IH]; intros Hb m l tl; (destruct m as [|m]; [by destruct l | ]); destruct l as [|c l]; cbn; try done.
  - destruct (decide _) as [<- | ]; [ | done]. destruct Hb as [Hb _]. by rewrite lower_nul in Hb.
  - destruct Hb as [_ Hb]. destruct (decide _); [ | done]. by apply IH.
Qed.

(** The answer a command must have: OK, or for a new network its number. *)
Definition accepted (x : exchange) : Prop :=
  let reply := cells x.2.2 ++ [Some NUL] in
  x.2.1 = 0 /\
  if bool_decide (x.1 = "ADD_NETWORK"%string) then strneq 32 reply ("0" +:+ NL) = Some true
  else strncaseeq 3 reply OK_NL = Some true.

Section Conn.
Context (E : env) (iface : string).

(* ------------------------------------------------------------------ *)
(** ** Commands *)

(** A dialogue that sends a prefix of [l], each command after the one before
    was accepted, and succeeds when all of them were. *)
Definition talks (l : list string) (w : world) (r : Z) (w' : world) : Prop :=
  quiet w w' /\ (r = 0 \/ r = -1) /\
  exists oks bad, sent w' = sent w ++ oks ++ bad /\ Forall accepted oks /\ (length bad <= 1)%nat /\
    map fst (oks ++ bad) `prefix_of` l /\ (r = 0 -> bad = [] /\ map fst oks = l).

Lemma talks_none l w w' : quiet w w' -> sent w' = sent w -> talks l w (-1) w'.
Proof.
  intros Q S. split; [done | ]. split; [by right | ]. exists [], []. rewrite !app_nil_r.
  split_and!; try done; try by constructor. all: first [cbn; lia | apply prefix_nil].
Qed.

Lemma talks_refused cmd a l w w' : quiet w w' -> sent w' = sent w ++ [(cmd, a)] -> talks (cmd :: l) w (-1) w'.
Proof.
  intros Q S. split; [done | ]. split; [by right | ]. exists [], [(cmd, a)].
  split_and!; try done; try by constructor. by exists l.
Qed.

Lemma talks_cons cmd a l w w1 r w2 :
  quiet w w1 -> sent w1 = sent w ++ [(cmd, a)] -> accepted (cmd, a) -> talks l w1 r w2 -> talks (cmd :: l) w r w2.
Proof.
  intros Q S A (Q2 & Hr & oks & bad & S2 & F & B & P & Z0). split; [by eapply wquiet_trans | ]. split; [done | ].
  exists ((cmd, a) :: oks), bad. rewrite S2, S, <- app_assoc. split_and!; try done; [by constructor | by apply prefix_cons | ].
  intros H. destruct (Z0 H) as [-> E2]. split; [done | ]. cbn. by rewrite E2.
Qed.

Lemma talks_nil w w' : quiet w w' -> sent w' = sent w -> talks [] w 0 w'.
Proof.
  intros Q S. split; [done | ]. split; [by left | ]. exists [], []. rewrite !app_nil_r.
  by split_and!; try by constructor.
Qed.

(** The reply buffer of the dialogue: of any length left, three at least. *)
Definition room (rep : buffer * Z) : Prop := 3 <= rep.2 <= Z.of_nat (length rep.1).

Lemma must_ok rep cmd k l w :
  good w -> room rep -> cmd <> "ADD_NETWORK"%string ->
  (forall rep' w1, good w1 -> room rep' -> wp (k rep') w1 (talks l w1)) ->
  wp (must E iface rep cmd k) w (talks (cmd :: l) w).
Proof.
  intros G R Hcmd Hk. unfold must. apply ewp_bind. destruct rep as [reply len]. unfold room in R. cbn [fst snd] in *.
  eapply ewp_mono; [apply wpasup_cmdsf_ok; [done | lia] | ]. cbv beta.
  intros [r [reply' len']] w1 [Q H]. cbn [fst snd] in H.
  destruct H as [[S Heq] | (i & S & Hi & [[Hr Heq] | [-> L]])].
  - injection Heq as -> -> ->. apply ewp_ret. by apply talks_none.
  - rewrite (proj2 (Z.eqb_neq _ _) Hr). apply ewp_ret. by eapply talks_refused.
  - assert (Hl0 : 0 <= len <= Z.of_nat (length reply)) by lia. destruct (landed_len _ _ _ _ _ Hl0 L) as [Hb Hn].
    destruct (landed_ok _ _ _ _ _ R L) as (ok & Hok & H3). cbn [Z.eqb negb orb fst snd].
    destruct (Z.leb_spec len' 0); [apply ewp_ret; by eapply talks_refused | ].
    apply ewp_bind. eapply wp_need; [done | ]. destruct ok; [ | apply ewp_ret; by eapply talks_refused].
    destruct (H3 eq_refl) as [H3' Ha].
    eapply ewp_mono; [apply Hk; [apply Q | split; cbn; lia] | ].
    cbv beta. intros r w2 T. eapply talks_cons; [done | exact S | | done]. split; [done | ]. cbn [fst snd].
    by rewrite bool_decide_false by done.
Qed.

(** The reply of [ADD_NETWORK] is logged when it is not the one expected, so it
    must be a string. *)
Lemma add_network_ok w :
  polite E -> good w -> wp (wpasup_add_network E iface 0) w (talks ["ADD_NETWORK"%string] w).
Proof.
  intros P G. unfold wpasup_add_network. apply ewp_bind.
  eapply ewp_mono; [apply wpasup_cmdsf_ok; [done | by cbn] | ]. cbv beta.
  intros [r [reply len]] w1 [Q H]. cbn [fst snd] in H.
  destruct H as [[S Heq] | (i & S & Hi & [[Hr Heq] | [-> L]])].
  - injection Heq as -> -> ->. apply ewp_ret. by apply talks_none.
  - rewrite (proj2 (Z.eqb_neq _ _) Hr). apply ewp_ret. by eapply talks_refused.
  - cbn [Z.eqb negb orb]. destruct (len <=? 0); [apply ewp_ret; by eapply talks_refused | ].
    change (snprintf 32 (pretty 0 +:+ NL)) with (Some ("0" +:+ NL)). cbv iota beta. apply ewp_bind.
    assert (Hs : strneq 32 reply ("0" +:+ NL) <> None).
    { apply strneq_reads; [by vm_compute | ]. eapply landed_readable; [ | exact L]. done. }
    assert (Pi : strlen (a_request E i "ADD_NETWORK").2 < 32) by (pose proof (P i "ADD_NETWORK"%string); lia).
    destruct (strneq 32 reply _) as [same|] eqn:Hq; [ | done]. eapply wp_need; [done | ]. destruct same.
    + apply ewp_ret. eapply talks_cons; [done | exact S | | apply talks_nil; [apply wquiet_refl, Q | done]]. split; [done | ].
      cbn [fst snd]. rewrite bool_decide_true by done.
      destruct (landed_text _ 32 _ _ _ Pi L) as [tl ->]. eapply strneq_stop; [by vm_compute | exact Hq].
    + destruct (landed_cstr _ 32 _ _ _ ltac:(done) Pi L) as [s Hc]. apply ewp_bind.
      eapply wp_need; [done | ]. apply ewp_ret. by eapply talks_refused.
Qed.

Lemma ping_ok w :
  polite E -> good w -> wp (wpasup_ping E iface) w (fun r w' => quiet w w' /\ (r = 0 \/ r = -1)).
Proof.
  intros P G. unfold wpasup_ping. apply ewp_bind.
  eapply ewp_mono; [apply wpasup_cmd_ok; [done | by cbn] | ]. cbv beta.
  intros [r [reply len]] w1 [Q H]. cbn [fst snd] in H.
  destruct H as [[S Heq] | (i & S & Hi & [[Hr Heq] | [-> L]])].
  - injection Heq as -> -> ->. apply ewp_ret. by split; [ | right].
  - rewrite (proj2 (Z.eqb_neq _ _) Hr). apply ewp_ret. by split; [ | right].
  - pose proof (P i "PING"%string) as Pi.
    destruct (landed_cstr _ 16 _ _ _ ltac:(done) Pi L) as [s Hc]. apply ewp_bind.
    eapply wp_need; [done | ]. destruct (contains s _); apply ewp_ret; auto.
Qed.

Lemma talks_app l1 l2 w r1 w1 r2 w2 :
  talks l1 w r1 w1 -> r1 = 0 -> talks l2 w1 r2 w2 -> talks (l1 ++ l2) w r2 w2.
Proof.
  intros (Q1 & _ & oks1 & bad1 & S1 & F1 & _ & _ & Z1) Hr (Q2 & H2 & oks2 & bad2 & S2 & F2 & B2 & P2 & Z2).
  destruct (Z1 Hr) as [-> <-]. split; [by eapply wquiet_trans | ]. split; [done | ].
  exists (oks1 ++ oks2), bad2. rewrite S2, S1, app_nil_r, <- !app_assoc. split_and!; try done; [by apply Forall_app | | ].
  - rewrite map_app. by apply prefix_app.
  - intros H. destruct (Z2 H) as [-> <-]. by rewrite map_app.
Qed.

Lemma talks_weaken l1 l2 w r w' : talks l1 w r w' -> r <> 0 -> talks (l1 ++ l2) w r w'.
Proof.
  intros (Q & H & oks & bad & S & F & B & P & _) Hr. split; [done | ]. split; [done | ]. exists oks, bad.
  split_and!; try done. by apply prefix_app_r.
Qed.

Lemma connect_ok ssid psk flag w :
  polite E -> good w ->
  wp (wpasup_network_connect E iface ssid psk flag) w (talks (connect_cmds ssid psk flag) w).
Proof.
  intros P G. unfold wpasup_network_connect, connect_cmds.
  assert (Hsel : forall rep w1, good w1 -> room rep ->
    wp (must E iface rep ("SELECT_NETWORK " +:+ pretty 0) (fun _ => ret 0)) w1 (talks ["SELECT_NETWORK 0"%string] w1)).
  { intros. apply must_ok; [done | done | done | ]. intros. apply ewp_ret. by apply talks_nil. }
  apply must_ok; [done | by cbn | done | ]. intros rep w1 G1 R1. apply ewp_bind.
  eapply ewp_mono; [by apply add_network_ok | ]. cbv beta. intros r w2 T2.
  destruct (Z.eqb_spec r 0) as [Hr | Hr]; cbn [negb].
  2: { pose proof T2 as (_ & [-> | ->] & _); [done | ]. apply ewp_ret. by apply (talks_weaken ["ADD_NETWORK"%string]). }
  assert (G2 : good w2) by apply T2.
  match goal with |- wp ?m _ (talks (_ :: ?l) _) => enough (H : wp m w2 (talks l w2)) end.
  { eapply ewp_mono; [exact H | ]. cbv beta. intros r2 w3 T3. by apply (talks_app ["ADD_NETWORK"%string] _ _ r w2). }
  clear T2 Hr r. apply must_ok; [done | done | done | ]. intros rep3 w3 G3 R3.
  apply must_ok; [done | done | done | ]. intros rep4 w4 G4 R4. destruct psk as [psk|].
  - apply must_ok; [done | done | done | ]. intros rep5 w5 G5 R5. destruct (flag =? 0); [by apply Hsel | ].
    apply must_ok; [done | done | done | ]. intros rep6 w6 G6 R6. apply must_ok; [done | done | done | ]. intros rep7 w7 G7 R7.
    apply must_ok; [done | done | done | ]. intros rep8 w8 G8 R8. by apply Hsel.
  - apply must_ok; [done | done | done | ]. intros rep5 w5 G5 R5. by apply Hsel.
Qed.
End Conn.
