(* ===== verification/WifiSm.v ===== *)
(** WifiSm: the connection state machine follows a table.  Each input leads to
    one of the states the table lists, with the timer of that state armed, in
    at most four turns of the loop, whatever the kernel and wpa_supplicant
    answer; and the manager never waits for nothing. *)

From stdpp Require Import strings pretty.
From Stdlib Require Import Ascii.
From S2P Require Import Prelude Eff CStr Wifi WifiSafe WifiConn.

Open Scope eff_scope.

(** The time a state gives itself; [ST_RESET] waits for the interface and
    [ST_PAUSE] for a command. *)
Definition delay (s : state_t) : option Z :=
  match s with
  | ST_INIT => Some 10 | ST_WPASUP_CTRL => Some 100 | ST_WPASUP_READY => Some 1000
  | ST_WPASUP_CONNECT => Some 15000 | ST_DHCPC => Some 10000 | ST_ZCIP => Some 10000
  | ST_MON => Some 5000 | ST_RESET | ST_PAUSE => None
  end.

(** Where an input leads; nowhere when it is ignored.  [ap]: a network with a
    name is configured. *)
Definition targets (ap : bool) (s : state_t) (stin : state_input_t) : list state_t :=
  let ready := if ap then ST_WPASUP_CONNECT else ST_WPASUP_READY in
  match s, stin with
  | ST_INIT, STIN_ENTER => [ST_INIT]
  | ST_INIT, STIN_TIMEOUT => [ST_RESET]
  | ST_RESET, STIN_ENTER => [ST_RESET]
  | ST_RESET, STIN_IFFUP => [ST_WPASUP_CTRL; ready]
  | ST_WPASUP_CTRL, (STIN_ENTER | STIN_TIMEOUT) => [ST_WPASUP_CTRL; ready]
  | ST_WPASUP_READY, (STIN_ENTER | STIN_TIMEOUT) => [ready]
  | ST_WPASUP_CONNECT, STIN_ENTER => [ST_WPASUP_CONNECT]
  | ST_WPASUP_CONNECT, STIN_IFFRUNNING => [ST_DHCPC]
  | ST_WPASUP_CONNECT, STIN_TIMEOUT => [ready]
  | ST_DHCPC, STIN_ENTER => [ST_DHCPC]
  | ST_DHCPC, STIN_TIMEOUT => [ST_ZCIP]
  | ST_DHCPC, STIN_IPADD => [ST_MON]
  | ST_ZCIP, STIN_ENTER => [ST_ZCIP]
  | ST_ZCIP, (STIN_TIMEOUT | STIN_IPADD) => [ST_MON]
  | ST_MON, (STIN_ENTER | STIN_TIMEOUT) => [ST_MON]
  | ST_MON, STIN_IFFLOWDOWN => [ready]
  | _, _ => []
  end.

Definition applied (x : wifi2) : bool := network_apply x && negb (strlen (ssid x) =? 0).

(** What the state machine only reads. *)
Definition cfg (w : world) : Z * Z * string * string * Z * bool :=
  (ifflag (wifi w), ifindex (wifi w), ssid (wifi w), psk (wifi w), flag (wifi w), network_apply (wifi w)).

Definition timed (s : state_t) (w w' : world) : Prop :=
  match delay s with
  | Some ms => timer w' = ms /\ expired w' = false
  | None => timer w' = timer w /\ expired w' = expired w
  end.

Definition settled (l : list state_t) (w w' : world) : Prop :=
  good w' /\ cfg w' = cfg w /\ state (wifi w') ∈ l /\ timed (state (wifi w')) w w'.

Lemma settled_in l l' w w' : settled l w w' -> (forall s, s ∈ l -> s ∈ l') -> settled l' w w'.
Proof. intros (G & C & S & T) H. split_and!; auto. Qed.

(** Anything done before a state with a timer is entered leaves no trace in the
    timer. *)
Lemma settled_from l w0 w w' :
  settled l w w' -> cfg w = cfg w0 -> (forall s, s ∈ l -> delay s <> None) -> settled l w0 w'.
Proof.
  intros (G & C & S & T) C0 H. split_and!; auto; [congruence | ]. unfold timed in *.
  specialize (H _ S). by destruct (delay _).
Qed.

Lemma applied_cfg w w' : cfg w' = cfg w -> applied (wifi w') = applied (wifi w).
Proof. unfold cfg, applied. intros [=]. congruence. Qed.

Lemma quiet_view w w' : quiet w w' ->
  good w' /\ cfg w' = cfg w /\ state (wifi w') = state (wifi w) /\ timer w' = timer w /\ expired w' = expired w.
Proof. intros [G V]. unfold view in V. unfold cfg. split; [done | ]. by injection V as -> -> -> -> -> -> -> -> ->. Qed.

Section Sm.
Context (E : env) (iface : string).
Notation kept m w := (wp m w (fun _ w' => quiet w w')).

Lemma system_cmd_ok cmd w : good w -> kept (system_cmd E cmd) w.
Proof.
  intros G. unfold system_cmd. destruct (snprintf 128 cmd); [ | by apply kept_ret].
  apply kept_bind; [by apply kept_did | ]. intros. by apply kept_ask.
Qed.

Lemma ip_flush_ok w : good w -> kept (ip_flush E iface) w.
Proof. apply system_cmd_ok. Qed.

Lemma ifup_ok en w : good w -> kept (ifup E en) w.
Proof. intros G. unfold ifup. apply kept_bind; [by apply kept_did | ]. intros. by apply kept_ask. Qed.

Lemma wp_timer_set ms w (Q : unit -> world -> Prop) : Q tt (set_timer ms false w) -> wp (timer_set ms) w Q.
Proof. intros HQ. by apply ewp_modify. Qed.

Lemma wp_sm_goto st stin w (Q : option state_input_t -> world -> Prop) :
  Q (Some stin) (set_wifi (set_state st (wifi w)) w) -> wp (sm_goto st stin) w Q.
Proof. intros HQ. unfold sm_goto. by apply ewp_bind, wp_upd, ewp_ret. Qed.

Lemma good_state st w : good w -> good (set_wifi (set_state st (wifi w)) w).
Proof. by intros []. Qed.
Lemma good_timer ms e w : good w -> good (set_timer ms e w).
Proof. by intros []. Qed.

(** A computation that changes nothing the state machine looks at, then the
    timer. *)
Lemma arm_ok {A} (m : M A) s ms w :
  kept m w -> state (wifi w) = s -> delay s = Some ms ->
  wp (m;; timer_set ms;; ret None) w (fun (next : option state_input_t) w' => next = None /\ settled [s] w w').
Proof.
  intros Hm Hs Hd. apply ewp_bind. eapply ewp_mono; [exact Hm | ]. cbv beta. intros x w1 Q.
  apply quiet_view in Q as (G & C & S & _). apply ewp_bind, wp_timer_set, ewp_ret.
  split; [done | ]. split; [by apply good_timer | ]. split; [done | ]. cbn. rewrite S, Hs. split; [by left | ].
  unfold timed. by rewrite Hd.
Qed.

(** The next of a series of operations that change nothing the state machine
    looks at. *)
Lemma kept_then {A B} (m : M A) (k : A -> M B) w0 w Q :
  quiet w0 w -> (good w -> kept m w) -> (forall x w', quiet w0 w' -> wp (k x) w' Q) -> wp (bind m k) w Q.
Proof.
  intros Q0 Hm Hk. apply ewp_bind. eapply ewp_mono; [apply Hm, Q0 | ]. cbv beta. intros x w1 Q1.
  apply Hk. by eapply wquiet_trans.
Qed.

Hint Resolve dhcpc_start_ok zcip_start_ok system_cmd_ok ifup_ok ip_flush_ok wpasup_start_ok : kept.

(** Entering a state that stays; [ST_RESET] stops everything and starts
    wpa_supplicant again. *)
Lemma leaf_turn w s :
  polite E -> good w -> state (wifi w) = s ->
  (s = ST_WPASUP_CONNECT -> network_apply (wifi w) = true) ->
  match s with ST_WPASUP_CTRL | ST_WPASUP_READY | ST_PAUSE => False | _ => True end ->
  wp (sm_turn E iface STIN_ENTER) w (fun next w' => next = None /\ settled [s] w w').
Proof.
  intros P G Hs Hap Hleaf. pose proof (wquiet_refl w G) as Q0. unfold sm_turn. apply ewp_bind, wp_self. rewrite Hs.
  destruct s; try (by destruct Hleaf); cbn [is_enter is_timeout bool_decide decide_rel state_input_t_eq_dec].
  - apply (arm_ok (ret tt) ST_INIT 10); [by apply kept_ret | done | done].
  - repeat (eapply (kept_then _ _ w); [eassumption | auto with kept | clear Q0; intros ? ? Q0]).
    apply ewp_ret. apply quiet_view in Q0 as (G' & C & S & T & X). split; [done | ]. split; [done | ]. split; [done | ].
    rewrite S, Hs. split; [by left | done].
  - rewrite (Hap eq_refl). cbn [negb]. apply (arm_ok _ _ 15000); [ | done | done].
    eapply ewp_mono; [by apply connect_ok | ]. by intros r w' [? _].
  - apply (arm_ok _ _ 10000); [by apply dhcpc_start_ok | done | done].
  - apply (arm_ok _ _ 10000); [by apply zcip_start_ok | done | done].
  - apply (arm_ok (ret tt) _ 5000); [by apply kept_ret | done | done].
Qed.

Lemma enter_leaf k w s :
  polite E -> good w -> state (wifi w) = s ->
  (s = ST_WPASUP_CONNECT -> network_apply (wifi w) = true) ->
  match s with ST_WPASUP_CTRL | ST_WPASUP_READY | ST_PAUSE => False | _ => True end ->
  wp (sm_loop E iface (S k) STIN_ENTER) w (fun _ w' => settled [s] w w').
Proof.
  intros P G Hs Hap Hleaf. cbn [sm_loop]. apply ewp_bind. eapply ewp_mono; [by apply (leaf_turn w s) | ].
  cbv beta. intros next w' [-> H]. by apply ewp_ret.
Qed.

(** [SM_GOTO] to a state that stays, with the timer set or not before the next
    turn. *)
Lemma goto_leaf k w w1 s :
  polite E -> good w1 -> cfg w1 = cfg w -> state (wifi w1) = s -> delay s <> None ->
  (s = ST_WPASUP_CONNECT -> network_apply (wifi w) = true) ->
  match s with ST_WPASUP_CTRL | ST_WPASUP_READY | ST_PAUSE => False | _ => True end ->
  wp (sm_loop E iface (S k) STIN_ENTER) w1 (fun _ w' => settled [s] w w').
Proof.
  intros P G C Hs Hd Hap Hleaf. assert (Hn : network_apply (wifi w1) = network_apply (wifi w)) by (by injection C).
  eapply ewp_mono; [apply enter_leaf; try done; by rewrite Hn | ]. cbv beta. intros _ w' H.
  eapply settled_from; [done | done | ]. intros s' Hin. by apply list_elem_of_singleton in Hin as ->.
Qed.

Definition ready (w : world) : state_t := if applied (wifi w) then ST_WPASUP_CONNECT else ST_WPASUP_READY.

Lemma at_ready k stin w0 w :
  polite E -> good w -> cfg w = cfg w0 -> state (wifi w) = ST_WPASUP_READY -> stin = STIN_ENTER \/ stin = STIN_TIMEOUT ->
  wp (sm_loop E iface (S (S k)) stin) w (fun _ w' => settled [ready w0] w0 w').
Proof.
  intros P G C Hs Hin. cbn [sm_loop]. apply ewp_bind. unfold sm_turn. apply ewp_bind, wp_self. rewrite Hs.
  assert (Hb : is_enter stin || is_timeout stin = true) by (by destruct Hin as [-> | ->]). rewrite Hb.
  fold (applied (wifi w)). rewrite (applied_cfg _ _ C). unfold ready.
  destruct (applied (wifi w0)) eqn:Ha.
  - apply ewp_bind, wp_sm_goto, ewp_bind, wp_timer_set, ewp_ret. apply goto_leaf; try done.
    + by apply good_timer, good_state.
    + intros _. by apply andb_prop in Ha as [? _].
  - apply ewp_bind, ewp_ret, ewp_bind, wp_timer_set, ewp_ret, ewp_ret.
    split; [by apply good_timer | ]. split; [done | ]. cbn. rewrite Hs. split; [by left | done].
Qed.

Lemma at_ctrl k stin w0 w :
  polite E -> good w -> cfg w = cfg w0 -> state (wifi w) = ST_WPASUP_CTRL -> stin = STIN_ENTER \/ stin = STIN_TIMEOUT ->
  wp (sm_loop E iface (S (S (S k))) stin) w (fun _ w' => settled [ST_WPASUP_CTRL; ready w0] w0 w').
Proof.
  intros P G C Hs Hin. cbn [sm_loop]. apply ewp_bind. unfold sm_turn. apply ewp_bind, wp_self. rewrite Hs.
  assert (Hb : is_enter stin || is_timeout stin = true) by (by destruct Hin as [-> | ->]). rewrite Hb.
  apply ewp_bind. eapply ewp_mono; [by apply ping_ok | ]. cbv beta. intros r w1 [Q _].
  apply quiet_view in Q as (G1 & C1 & S1 & _). destruct (r =? 0).
  - apply ewp_bind, wp_sm_goto, ewp_bind, wp_timer_set, ewp_ret.
    eapply ewp_mono; [apply at_ready; [done | by apply good_timer, good_state | | done | by left] | ].
    { rewrite <- C, <- C1. done. }
    cbv beta. intros _ w' H. eapply settled_in; [exact H | ]. intros s Hs'. by right.
  - apply ewp_bind, ewp_ret, ewp_bind, wp_timer_set, ewp_ret, ewp_ret.
    split; [by apply good_timer | ]. split; [by rewrite <- C, <- C1 | ]. cbn. rewrite S1, Hs. split; [by left | done].
Qed.


(* ------------------------------------------------------------------ *)
(** ** The table *)

Definition follows_table (stin : state_input_t) (w w' : world) : Prop :=
  match targets (applied (wifi w)) (state (wifi w)) stin with
  | [] => w' = w
  | l => settled l w w'
  end.

Lemma run_sm_eq stin : run_sm E iface stin =
  do next <- sm_turn E iface stin; match next with None => ret tt | Some stin' => sm_loop E iface 3 stin' end.
Proof. reflexivity. Qed.

(** An input whose turn is an [SM_GOTO] and nothing else. *)
Lemma run_goto stin s w :
  polite E -> good w -> sm_turn E iface stin w = sm_goto s STIN_ENTER w ->
  (s = ST_WPASUP_CONNECT -> network_apply (wifi w) = true) ->
  match s with ST_WPASUP_CTRL | ST_WPASUP_READY | ST_PAUSE => False | _ => True end ->
  wp (run_sm E iface stin) w (fun _ w' => settled [s] w w').
Proof.
  intros P G Ht Hap Hleaf. rewrite run_sm_eq. apply ewp_bind. eapply ewp_eq; [exact Ht | ]. apply wp_sm_goto.
  eapply ewp_mono; [apply (enter_leaf _ _ s); try done; by apply good_state | ].
  cbv beta. intros _ w' (G2 & C2 & S2 & T2). by split_and!.
Qed.

(** An input that is ignored. *)
Lemma run_skip stin w : sm_turn E iface stin w = ret None w -> wp (run_sm E iface stin) w (fun _ w' => w' = w).
Proof. intros Ht. rewrite run_sm_eq. apply ewp_bind. eapply ewp_eq; [exact Ht | ]. by apply ewp_ret, ewp_ret. Qed.

(** From [ST_WPASUP_READY] or on the way to it. *)
Lemma run_ready stin w :
  polite E -> good w -> sm_turn E iface stin w = sm_goto ST_WPASUP_READY STIN_ENTER w ->
  wp (run_sm E iface stin) w (fun _ w' => settled [ready w] w w').
Proof.
  intros P G Ht. rewrite run_sm_eq. apply ewp_bind. eapply ewp_eq; [exact Ht | ]. apply wp_sm_goto.
  apply at_ready; try done; [by apply good_state | by left].
Qed.

Lemma run_sm_ok stin w :
  polite E -> good w -> (state (wifi w) = ST_WPASUP_CONNECT -> stin = STIN_ENTER -> network_apply (wifi w) = true) ->
  wp (run_sm E iface stin) w (fun _ w' => follows_table stin w w').
Proof.
  intros P G Hap. unfold follows_table. fold (ready w).
  destruct (state (wifi w)) eqn:Hs; destruct stin; cbn [targets];
    try (apply run_skip; unfold sm_turn, self, bind, gets; rewrite Hs; reflexivity);
    try (apply enter_leaf; [done | done | exact Hs | by (intros; try apply Hap) | done]);
    try (apply run_goto; [done | done | unfold sm_turn, self, gets; unfold bind at 1; rewrite Hs; reflexivity | done | done]);
    try (apply run_ready; [done | done | unfold sm_turn, self, gets; unfold bind at 1; rewrite Hs; reflexivity]);
    try (apply at_ready; [done | done | done | done | by (left + right)]);
    try (apply at_ctrl; [done | done | done | done | by (left + right)]).
  - rewrite run_sm_eq. apply ewp_bind. eapply ewp_eq;
      [unfold sm_turn, self, gets; unfold bind at 1; rewrite Hs; reflexivity | ].
    apply wp_sm_goto. apply at_ctrl; try done; [by apply good_state | by left].
  - rewrite run_sm_eq. apply ewp_bind. eapply ewp_eq;
      [unfold sm_turn, self, gets; unfold bind at 1; rewrite Hs; reflexivity | ].
    apply ewp_bind, wp_timer_set, ewp_ret, ewp_ret. split_and!; [by apply good_timer | done | cbn; rewrite Hs; by left | cbn; by rewrite Hs].
  - rewrite run_sm_eq. apply ewp_bind. eapply ewp_eq;
      [unfold sm_turn, self, gets; unfold bind at 1; rewrite Hs; reflexivity | ].
    cbn [is_enter is_timeout bool_decide decide_rel state_input_t_eq_dec]. apply ewp_bind.
    eapply ewp_mono; [by apply ip_flush_ok | ]. cbv beta. intros r w1 Q.
    apply quiet_view in Q as (G1 & C1 & _). apply wp_sm_goto.
    apply at_ready; try done; [by apply good_state | by left].
Qed.
End Sm.
