(* ===== verification/WifiNl.v ===== *)
(** WifiNl: the rtnetlink messages the Wi-Fi manager listens to.  Messages as
    the kernel lays them out are decoded to the inputs they stand for, byte for
    byte, with nothing read outside of them. *)

From stdpp Require Import strings pretty.
From Stdlib Require Import Ascii.
From S2P Require Import Prelude Eff ByteStr CStr Wifi WifiSafe WifiConn WifiSm.

Open Scope eff_scope.

(* ------------------------------------------------------------------ *)
(** ** Messages and their bytes *)

Record attr : Type := Attr { at_type : Z; at_data : list Z }.

Inductive msg : Type :=
  | LinkMsg (index flags : Z) (attrs : list Z)
  | AddrMsg (deleted : bool) (family scope index : Z) (attrs : list attr)
  | OtherMsg (type : Z) (body : list Z).

Definition pad4 (l : list Z) : list Z :=
  l ++ repeat 0 (Z.to_nat (align4 (Z.of_nat (length l)) - Z.of_nat (length l))).

(** [struct rtattr], its payload and the padding. *)
Definition enc_attr (a : attr) : list Z :=
  pad4 (bytes 2 (4 + Z.of_nat (length (at_data a))) ++ bytes 2 (at_type a) ++ at_data a).

(** What follows [struct nlmsghdr]. *)
Definition enc_body (m : msg) : list Z :=
  match m with
  | LinkMsg index flags attrs => bytes 4 0 ++ bytes 4 index ++ bytes 4 flags ++ bytes 4 0 ++ attrs
  | AddrMsg _ family scope index attrs =>
      bytes 1 family ++ bytes 1 0 ++ bytes 1 0 ++ bytes 1 scope ++ bytes 4 index ++ concat (map enc_attr attrs)
  | OtherMsg _ body => body
  end.
Definition enc_type (m : msg) : Z :=
  match m with
  | LinkMsg _ _ _ => RTM_NEWLINK
  | AddrMsg true _ _ _ _ => RTM_DELADDR
  | AddrMsg false _ _ _ _ => RTM_NEWADDR
  | OtherMsg t _ => t
  end.

(** [struct nlmsghdr] (length, type, flags, sequence number and port of the
    sender), the body and the padding. *)
Definition enc_msg (m : msg) : list Z :=
  pad4 (bytes 4 (16 + Z.of_nat (length (enc_body m))) ++ bytes 2 (enc_type m) ++ bytes 2 0 ++ bytes 4 0 ++ bytes 4 0 ++
        enc_body m).

(** What the kernel puts in an attribute the parser looks into. *)
Definition attr_ok (family : Z) (a : attr) : Prop :=
  0 <= at_type a < 65536 /\ Z.of_nat (length (at_data a)) < 65532 /\
  (at_type a = IFA_LABEL -> exists l, c_text (at_data a) = Some l /\ l < INET6_ADDRSTRLEN) /\
  (at_type a = IFA_LOCAL \/ at_type a = IFA_ADDRESS ->
   (family = AF_INET -> (4 <= length (at_data a))%nat) /\ (family = AF_INET6 -> (16 <= length (at_data a))%nat)).

Definition msg_ok (m : msg) : Prop :=
  Z.of_nat (length (enc_body m)) < 65536 /\
  match m with
  | LinkMsg index flags _ => 0 <= index < 2147483648 /\ 0 <= flags < 4294967296
  | AddrMsg _ family scope index attrs =>
      0 <= index < 2147483648 /\ 0 <= family < 256 /\ 0 <= scope < 256 /\ Forall (attr_ok family) attrs
  | OtherMsg type _ => 0 <= type < 65536 /\ type <> RTM_NEWLINK /\ type <> RTM_NEWADDR /\ type <> RTM_DELADDR
  end.

(* ------------------------------------------------------------------ *)
(** ** What they stand for *)

(** An IPv4 address for everywhere or for the link. *)
Definition is_ipv4 (family scope : Z) (attrs : list attr) : bool :=
  (family =? AF_INET) && ((scope =? RT_SCOPE_UNIVERSE) || (scope =? RT_SCOPE_LINK)) &&
  existsb (fun a => at_type a =? IFA_LOCAL) attrs.

(** The changes of the flags from [old] to [new] the state machine is told. *)
Definition link_inputs (old new : Z) : list state_input_t :=
  let changed m := negb (Z.land (Z.lxor new old) m =? 0) in
  let up m := negb (Z.land new m =? 0) in
  (if changed IFF_UP && up IFF_UP then [STIN_IFFUP] else []) ++
  (if changed IFF_RUNNING && up IFF_RUNNING then [STIN_IFFRUNNING] else []) ++
  (if changed IFF_LOWER_UP && negb (up IFF_LOWER_UP) then [STIN_IFFLOWDOWN] else []).

Definition inputs (index old : Z) (m : msg) : list state_input_t :=
  match m with
  | LinkMsg i flags _ => if i =? index then link_inputs old flags else []
  | AddrMsg deleted family scope i attrs =>
      if (i =? to_uint index) && negb deleted && is_ipv4 family scope attrs then [STIN_IPADD] else []
  | OtherMsg _ _ => []
  end.

Definition new_flags (index : Z) (old : option Z) (m : msg) : option Z :=
  match m with
  | LinkMsg i flags _ => if i =? index then Some flags else old
  | _ => old
  end.


(* ------------------------------------------------------------------ *)
(** ** Bytes *)

Lemma align4_bound x : 0 <= x -> x <= align4 x < x + 4 /\ align4 (align4 x) = align4 x.
Proof.
  intros. unfold align4. assert (H1 : (x + 3) / 4 * 4 <= x + 3 < (x + 3) / 4 * 4 + 4).
  { pose proof (Z.div_mod (x + 3) 4). pose proof (Z.mod_pos_bound (x + 3) 4). lia. }
  split; [lia | ]. f_equal. rewrite Z.div_add_l by lia. replace (3 / 4) with 0 by done. lia.
Qed.

Lemma length_pad4 l : Z.of_nat (length (pad4 l)) = align4 (Z.of_nat (length l)).
Proof. unfold pad4. rewrite length_app, repeat_length. pose proof (align4_bound (Z.of_nat (length l))). lia. Qed.

Lemma drop_pad4 l tl : drop (Z.to_nat (align4 (Z.of_nat (length l)))) (pad4 l ++ tl) = tl.
Proof. rewrite <- length_pad4, Nat2Z.id. by rewrite drop_app_length. Qed.

(** A list of aligned pieces needs no padding. *)
Lemma pad4_id l : align4 (Z.of_nat (length l)) = Z.of_nat (length l) -> pad4 l = l.
Proof. intros H. unfold pad4. by rewrite H, Z.sub_diag, app_nil_r. Qed.

Lemma c_text_app l tl n : c_text l = Some n -> c_text (l ++ tl) = Some n.
Proof.
  revert n. induction l as [|b l IH]; intros n; cbn; [done | ]. destruct (b =? 0); [done | ].
  destruct (c_text l) as [m|]; [ | done]. by rewrite (IH m).
Qed.

Lemma field_eq off k bs v : le k (drop off bs) = Some v -> field off k bs = ret v.
Proof. unfold field. by intros ->. Qed.

(** A field at its place in a message. *)
Ltac at_field :=
  rewrite <- ?app_assoc; repeat (rewrite drop_bytes by (apply Nat.leb_le; reflexivity); cbn [Nat.sub]);
  rewrite ?drop_0; apply le_bytes.

(* ------------------------------------------------------------------ *)
(** ** Attributes *)

Lemma length_enc_attr a : Z.of_nat (length (enc_attr a)) = align4 (4 + Z.of_nat (length (at_data a))).
Proof. unfold enc_attr. rewrite length_pad4. rewrite !length_app, !length_bytes. f_equal. lia. Qed.

Lemma rta_walk_nil fuel family scope bs found : rta_walk fuel family scope bs 0 found = ret found.
Proof. by destruct fuel. Qed.

Lemma rta_walk_attr fuel family scope a tl rem found :
  attr_ok family a -> 0 <= rem ->
  rta_walk (S fuel) family scope (enc_attr a ++ tl) (Z.of_nat (length (enc_attr a)) + rem) found =
  rta_walk fuel family scope tl rem (found || is_ipv4 family scope [a]).
Proof.
  intros (Ht & Hn & Hlabel & Haddr) Hrem. pose proof (length_enc_attr a) as Hl.
  assert (Hskip : drop (Z.to_nat (align4 (4 + Z.of_nat (length (at_data a))))) (enc_attr a ++ tl) = tl).
  { rewrite <- Hl, Nat2Z.id. apply drop_app_length. }
  remember (4 + Z.of_nat (length (at_data a))) as n eqn:En.
  assert (Hb : n <= align4 n) by (apply align4_bound; lia).
  cbn [rta_walk]. rewrite (proj2 (Z.ltb_ge _ 4)) by lia.
  assert (Hdata : exists pad, enc_attr a ++ tl = bytes 2 n ++ bytes 2 (at_type a) ++ at_data a ++ pad ++ tl).
  { unfold enc_attr, pad4. match goal with |- context [repeat ?x ?k] => exists (repeat x k) end. by rewrite <- !app_assoc, En. }
  destruct Hdata as [pad Hd].
  assert (H4 : drop 4 (enc_attr a ++ tl) = at_data a ++ pad ++ tl).
  { rewrite Hd. by rewrite !drop_bytes by (apply Nat.leb_le; reflexivity). }
  assert (Hf : forall k, (k <= length (at_data a))%nat -> exists v, field 4 k (enc_attr a ++ tl) = ret v).
  { intros k Hk. destruct (le_some k (at_data a ++ pad ++ tl)) as [v Hv]; [rewrite length_app; lia | ].
    exists v. apply field_eq. by rewrite H4. }
  rewrite (field_eq 0 2 _ n) by (rewrite Hd; at_field; lia).
  rewrite (field_eq 2 2 _ (at_type a)) by (rewrite Hd; at_field; lia).
  rewrite !ebind_ret, (proj2 (Z.ltb_ge n 4)), (proj2 (Z.ltb_ge _ n)) by lia. cbn [orb].
  match goal with |- bind ?m _ = _ => assert (Hm : m = ret (found || is_ipv4 family scope [a])) end.
  { unfold is_ipv4. cbn [existsb]. rewrite orb_false_r. destruct (Z.eqb_spec (at_type a) IFA_LABEL) as [Hty | Hty].
    { rewrite Hty. cbn [IFA_LABEL IFA_LOCAL Z.eqb Pos.eqb]. rewrite andb_false_r, orb_false_r.
      destruct (Hlabel Hty) as (l & Hc & Hlt). rewrite H4, (c_text_app _ _ _ Hc). cbn [need].
      by rewrite ebind_ret, (proj2 (Z.leb_gt _ _)). }
    destruct (Z.eqb_spec (at_type a) IFA_LOCAL) as [Hlo | Hlo]; [rewrite andb_true_r | rewrite andb_false_r, orb_false_r].
    - destruct (Haddr (or_introl Hlo)) as [H1 H2]. destruct (Z.eqb_spec family AF_INET) as [Hfa | Hfa].
      + destruct (Hf 4%nat (H1 Hfa)) as [v ->]. cbn [andb]. by rewrite ebind_ret, <- orb_assoc.
      + rewrite orb_false_r. destruct (Z.eqb_spec family AF_INET6) as [Hf6 | Hf6]; [ | done].
        destruct (Hf 16%nat (H2 Hf6)) as [v ->]. by rewrite ebind_ret.
    - destruct (Z.eqb_spec (at_type a) IFA_ADDRESS) as [Had | Had]; [ | done].
      destruct (Haddr (or_intror Had)) as [H1 H2]. destruct (Z.eqb_spec family AF_INET6) as [Hf6 | Hf6].
      + destruct (Hf 16%nat (H2 Hf6)) as [v ->]. by rewrite ebind_ret.
      + destruct (Z.eqb_spec family AF_INET) as [Hfa | Hfa]; [ | done].
        destruct (Hf 4%nat (H1 Hfa)) as [v ->]. by rewrite ebind_ret. }
  rewrite Hm, ebind_ret, Hskip. f_equal. lia.
Qed.

Lemma is_ipv4_cons family scope a attrs :
  is_ipv4 family scope (a :: attrs) = is_ipv4 family scope [a] || is_ipv4 family scope attrs.
Proof. unfold is_ipv4. cbn. rewrite orb_false_r. by rewrite andb_orb_distrib_r. Qed.

Lemma rta_walk_attrs family scope tl attrs : Forall (attr_ok family) attrs -> forall fuel found,
  (length attrs <= fuel)%nat ->
  rta_walk fuel family scope (concat (map enc_attr attrs) ++ tl) (Z.of_nat (length (concat (map enc_attr attrs)))) found =
  ret (found || is_ipv4 family scope attrs).
Proof.
  induction 1 as [|a attrs Ha _ IH]; intros fuel found Hfuel.
  { rewrite rta_walk_nil. unfold is_ipv4. cbn. by rewrite andb_false_r, orb_false_r. }
  destruct fuel as [|fuel]; cbn in Hfuel; [lia | ]. cbn [map concat].
  rewrite <- app_assoc, length_app, Nat2Z.inj_add, rta_walk_attr by (done || lia).
  rewrite IH by lia. by rewrite (is_ipv4_cons _ _ a attrs), orb_assoc.
Qed.

Lemma length_attrs attrs :
  align4 (Z.of_nat (length (concat (map enc_attr attrs)))) = Z.of_nat (length (concat (map enc_attr attrs))) /\
  (length attrs <= length (concat (map enc_attr attrs)))%nat.
Proof.
  induction attrs as [|a attrs [IH1 IH2]]; [done | ]. cbn [map concat length]. rewrite length_app, Nat2Z.inj_add.
  pose proof (length_enc_attr a) as Ha. pose proof (align4_bound (4 + Z.of_nat (length (at_data a)))) as [Hb Hi]; [lia | ].
  rewrite <- Ha in Hi. split; [ | lia]. rewrite <- Hi, <- IH1. unfold align4 in *.
  set (x := Z.of_nat (length (enc_attr a))) in *. set (y := Z.of_nat _) in *.
  replace ((x + 3) / 4 * 4 + (y + 3) / 4 * 4 + 3) with (3 + ((x + 3) / 4 + (y + 3) / 4) * 4) by lia.
  rewrite Z.div_add by lia. replace (3 / 4) with 0 by done. lia.
Qed.

(* ------------------------------------------------------------------ *)
(** ** Messages *)

Lemma enc_msg_eq m tl : exists pad, enc_msg m ++ tl =
  bytes 4 (16 + Z.of_nat (length (enc_body m))) ++ bytes 2 (enc_type m) ++ bytes 2 0 ++ bytes 4 0 ++ bytes 4 0 ++
  enc_body m ++ pad ++ tl.
Proof.
  unfold enc_msg, pad4. match goal with |- context [repeat ?x ?k] => exists (repeat x k) end. by rewrite <- !app_assoc.
Qed.

Lemma length_enc_msg m : Z.of_nat (length (enc_msg m)) = align4 (16 + Z.of_nat (length (enc_body m))).
Proof. unfold enc_msg. rewrite length_pad4, !length_app, !length_bytes. f_equal. lia. Qed.

Section Nl.
Context (E : env) (iface : string).

(** The state machine told one input after the other. *)
Fixpoint run_inputs (l : list state_input_t) : M unit :=
  match l with [] => ret tt | i :: l' => run_sm E iface i;; run_inputs l' end.

(** The messages of one [recv]: each is compared with the flags there were
    before any of them. *)
Fixpoint react (ms : list msg) (update : option Z) : M (option Z) :=
  match ms with
  | [] => ret update
  | m :: ms' =>
      do x <- self;
      run_inputs (inputs (ifindex x) (ifflag x) m);;
      react ms' (new_flags (ifindex x) update m)
  end.

Lemma run_inputs_app l1 l2 s : run_inputs (l1 ++ l2) s = (run_inputs l1;; run_inputs l2) s.
Proof.
  revert s. induction l1 as [|i l1 IH]; intros s; [done | ]. cbn [app run_inputs]. rewrite ebind_assoc.
  by apply ebind_eq.
Qed.

Lemma run_inputs_if (b : bool) i s : run_inputs (if b then [i] else []) s = (if b then run_sm E iface i else ret tt) s.
Proof. destruct b; [ | done]. cbn [run_inputs]. unfold bind, ret. by destruct (run_sm E iface i s) as [[] ? | | | ]. Qed.

Lemma on_addr_eq deleted family scope index attrs tl s :
  let m := AddrMsg deleted family scope index attrs in
  msg_ok m ->
  on_addr E iface (enc_type m) (16 + Z.of_nat (length (enc_body m))) (enc_msg m ++ tl) s =
  (do x <- self; run_inputs (inputs (ifindex x) (ifflag x) m)) s.
Proof.
  intros m (Hlen & Hi & Hf & Hs & Hattrs). subst m. set (m := AddrMsg _ _ _ _ _) in Hlen.
  destruct (enc_msg_eq (AddrMsg deleted family scope index attrs) tl) as [pad Hm]. unfold on_addr.
  cbn [enc_body] in Hm. set (n := 16 + _) in *. rewrite <- !app_assoc in Hm.
  rewrite (field_eq 20 4 _ index) by (rewrite Hm; at_field; lia). rewrite ebind_ret. apply ebind_eq; [done | ].
  intros x s1. cbn [inputs]. destruct (Z.eqb_spec index (to_uint (ifindex x))) as [Hx | Hx]; cbn [negb andb]; [ | done].
  destruct deleted; [done | ]. cbn [enc_type Z.eqb RTM_NEWADDR RTM_DELADDR Pos.eqb negb andb].
  rewrite (field_eq 16 1 _ family) by (rewrite Hm; at_field; lia).
  rewrite (field_eq 19 1 _ scope) by (rewrite Hm; at_field; lia). rewrite !ebind_ret.
  assert (H24 : drop 24 (enc_msg (AddrMsg false family scope index attrs) ++ tl) = concat (map enc_attr attrs) ++ pad ++ tl).
  { rewrite Hm. repeat (rewrite drop_bytes by (apply Nat.leb_le; reflexivity); cbn [Nat.sub]). by rewrite drop_0. }
  rewrite H24. replace (n - 24) with (Z.of_nat (length (concat (map enc_attr attrs)))) by (unfold n; cbn [enc_body]; rewrite !length_app, !length_bytes; lia).
  rewrite rta_walk_attrs; [ | done | ].
  - rewrite ebind_ret. cbn [orb]. by rewrite run_inputs_if.
  - pose proof (length_attrs attrs) as [_ Hl]. rewrite Hm, !length_app. lia.
Qed.

Lemma to_int_small x : 0 <= x < 2147483648 -> to_int x = x.
Proof. intros. unfold to_int. rewrite Z.mod_small by lia. lia. Qed.

Lemma on_link_eq index flags attrs tl u s :
  let m := LinkMsg index flags attrs in
  msg_ok m ->
  (do f <- on_link E iface (enc_msg m ++ tl); ret (match f with Some f => Some f | None => u end)) s =
  (do x <- self; run_inputs (inputs (ifindex x) (ifflag x) m);; ret (new_flags (ifindex x) u m)) s.
Proof.
  intros m (Hlen & Hi & Hf). subst m. cbn [enc_body] in Hlen.
  destruct (enc_msg_eq (LinkMsg index flags attrs) tl) as [pad Hm]. unfold on_link. cbn [enc_body] in Hm. rewrite <- !app_assoc in Hm.
  rewrite (field_eq 20 4 _ index) by (rewrite Hm; at_field; lia). rewrite ebind_ret, ebind_assoc. apply ebind_eq; [done | ].
  intros x s1. rewrite to_int_small by done. cbn [inputs new_flags]. destruct (index =? ifindex x); cbn [negb]; [ | done].
  rewrite (field_eq 24 4 _ flags) by (rewrite Hm; at_field; lia). rewrite ebind_ret. unfold link_inputs. cbv zeta.
  rewrite ebind_assoc. etransitivity; [ | symmetry; apply ebind_eq; [apply run_inputs_app | done]].
  rewrite ebind_assoc. apply ebind_eq; [by rewrite run_inputs_if | ]. intros _ s2.
  etransitivity; [ | symmetry; apply ebind_eq; [apply run_inputs_app | done]]. rewrite !ebind_assoc.
  apply ebind_eq; [by rewrite run_inputs_if | ]. intros _ s3. rewrite ebind_assoc.
  by apply ebind_eq; [by rewrite run_inputs_if | ].
Qed.

Definition react1 (m : msg) (u : option Z) : M (option Z) :=
  do x <- self; run_inputs (inputs (ifindex x) (ifflag x) m);; ret (new_flags (ifindex x) u m).

Lemma react_cons m ms u s : react (m :: ms) u s = bind (react1 m u) (react ms) s.
Proof. unfold react1. rewrite ebind_assoc. cbn [react]. apply ebind_eq; [done | ]. intros x s'. by rewrite ebind_assoc. Qed.

(** The body of the loop over messages. *)
Lemma msg_eq m u tl s : msg_ok m ->
  (let type := enc_type m in
   if (type =? RTM_NEWADDR) || (type =? RTM_DELADDR)
   then on_addr E iface type (16 + Z.of_nat (length (enc_body m))) (enc_msg m ++ tl);; ret u
   else if type =? RTM_NEWLINK then
     do f <- on_link E iface (enc_msg m ++ tl); ret (match f with Some f => Some f | None => u end)
   else ret u) s = react1 m u s.
Proof.
  intros Hm. unfold react1. destruct m as [index flags attrs | deleted family scope index attrs | type body]; cbv zeta.
  - change (enc_type (LinkMsg index flags attrs)) with RTM_NEWLINK. cbn [RTM_NEWLINK RTM_NEWADDR RTM_DELADDR Z.eqb Pos.eqb orb].
    by apply on_link_eq.
  - assert (Hb : (enc_type (AddrMsg deleted family scope index attrs) =? RTM_NEWADDR) ||
      (enc_type (AddrMsg deleted family scope index attrs) =? RTM_DELADDR) = true) by (by destruct deleted).
    rewrite Hb. etransitivity; [apply ebind_eq; [by apply on_addr_eq | done] | ]. by rewrite ebind_assoc.
  - destruct Hm as (_ & Ht & H1 & H2 & H3). cbn [enc_type inputs new_flags].
    by rewrite (proj2 (Z.eqb_neq _ _) H1), (proj2 (Z.eqb_neq _ _) H2), (proj2 (Z.eqb_neq _ _) H3).
Qed.

Lemma nl_walk_msgs ms tl : Forall msg_ok ms -> forall fuel u s, (length ms <= fuel)%nat -> tl = [] ->
  nl_walk E iface fuel (concat (map enc_msg ms) ++ tl) (Z.of_nat (length (concat (map enc_msg ms)))) u s = react ms u s.
Proof.
  intros Hms. induction Hms as [|m ms Hm _ IH]; intros fuel u s Hfuel ->; [by destruct fuel | ].
  destruct fuel as [|fuel]; cbn in Hfuel; [lia | ]. cbn [map concat]. rewrite <- app_assoc, length_app, Nat2Z.inj_add.
  set (rest := concat (map enc_msg ms)) in *. pose proof (length_enc_msg m) as Hl.
  assert (Hskip : drop (Z.to_nat (align4 (16 + Z.of_nat (length (enc_body m))))) (enc_msg m ++ rest ++ []) = rest ++ []).
  { rewrite <- Hl, Nat2Z.id. apply drop_app_length. }
  destruct (enc_msg_eq m (rest ++ [])) as [pad He].
  remember (16 + Z.of_nat (length (enc_body m))) as n eqn:En.
  assert (Hn : 16 <= n < 65552) by (destruct Hm as [Hb _]; lia).
  assert (Hb : n <= align4 n) by (apply align4_bound; lia).
  assert (Ht : 0 <= enc_type m < 65536) by (destruct m as [ | [] | ]; cbn; try (unfold RTM_NEWLINK, RTM_NEWADDR, RTM_DELADDR; lia); apply Hm).
  cbn [nl_walk]. rewrite (proj2 (Z.ltb_ge _ 16)) by lia.
  rewrite (field_eq 0 4 _ n) by (rewrite He; at_field; lia).
  rewrite (field_eq 4 2 _ (enc_type m)) by (rewrite He; at_field; lia).
  rewrite !ebind_ret, (proj2 (Z.ltb_ge n 16)), (proj2 (Z.ltb_ge _ n)) by lia. cbn [orb].
  rewrite Hskip. replace (Z.of_nat (length (enc_msg m)) + Z.of_nat (length rest) - align4 n) with (Z.of_nat (length rest)) by lia.
  rewrite react_cons. apply ebind_eq; [ | intros u' s'; apply IH; [lia | done]].
  rewrite En. by apply msg_eq.
Qed.

Lemma length_msgs ms : (length ms <= length (concat (map enc_msg ms)))%nat.
Proof.
  induction ms as [|m ms IH]; [done | ]. cbn [map concat length]. rewrite length_app.
  pose proof (length_enc_msg m). pose proof (align4_bound (16 + Z.of_nat (length (enc_body m)))). lia.
Qed.

Lemma handle_rtnl_eq ms s : Forall msg_ok ms ->
  handle_rtnl E iface (concat (map enc_msg ms)) s =
  (do u <- react ms None; match u with Some f => upd (set_ifflag f) | None => ret tt end) s.
Proof.
  intros Hms. unfold handle_rtnl. apply ebind_eq; [ | done].
  rewrite <- (nl_walk_msgs ms [] Hms (length (concat (map enc_msg ms))) None s) by (done || apply length_msgs).
  by rewrite app_nil_r.
Qed.
End Nl.
