(* ===== verification/WifiSpec.v ===== *)
(** WifiSpec: what the Wi-Fi manager guarantees. *)

From stdpp Require Import strings pretty.
From Stdlib Require Import Ascii.
From S2P Require Import Prelude Eff CStr Wifi WifiSafe WifiConn WifiSm WifiNl.

Open Scope eff_scope.

(* ------------------------------------------------------------------ *)
(** ** Running to the end *)

Section Total.
Context (E : env) (iface : string).

Lemma keeps_self : keeps self.
Proof. apply keeps_gets. Qed.
Lemma keeps_upd f : keeps (upd f).
Proof. apply ekeeps_modify. Qed.
Lemma keeps_did x : keeps (did x).
Proof. apply ekeeps_modify. Qed.
Lemma keeps_ask {A} (f : env -> nat -> A) : keeps (ask E f).
Proof. unfold ask. keeps_steps. Qed.
Lemma keeps_reaped p : keeps (reaped p).
Proof. apply ekeeps_modify. Qed.
Lemma keeps_timer_set ms : keeps (timer_set ms).
Proof. apply ekeeps_modify. Qed.
Hint Resolve keeps_self keeps_upd keeps_did keeps_ask keeps_reaped keeps_timer_set : keeps.

Lemma keeps_kill p sig : keeps (kill E p sig).
Proof. unfold kill. keeps_steps. Qed.
Lemma keeps_waitpid_retry p i : forall e, keeps (waitpid_retry i p e).
Proof. induction i; intros e; cbn [waitpid_retry]; keeps_steps. Qed.
Hint Resolve keeps_kill keeps_waitpid_retry : keeps.
Lemma keeps_pid_kill p : keeps (pid_kill E p).
Proof. unfold pid_kill, aloe_waitpid. keeps_steps. Qed.
Lemma keeps_system_cmd cmd : keeps (system_cmd E cmd).
Proof. unfold system_cmd. keeps_steps. Qed.
Lemma keeps_ifup en : keeps (ifup E en).
Proof. unfold ifup. keeps_steps. Qed.
Lemma keeps_fork argv : keeps (fork_exec E argv).
Proof. unfold fork_exec. keeps_steps. Qed.
Lemma keeps_ctrl_close c : keeps (wpasup_ctrl_close c).
Proof. unfold wpasup_ctrl_close. keeps_steps. Qed.
Hint Resolve keeps_pid_kill keeps_system_cmd keeps_ifup keeps_fork keeps_ctrl_close : keeps.

Lemma keeps_ctrl_open a : keeps (wpasup_ctrl_open E iface a).
Proof. unfold wpasup_ctrl_open. keeps_steps. Qed.
Lemma keeps_dhcpc en : keeps (dhcpc_start E iface en).
Proof. unfold dhcpc_start. keeps_steps. Qed.
Lemma keeps_zcip en : keeps (zcip_start E iface en).
Proof. unfold zcip_start. keeps_steps. Qed.
Lemma keeps_reap p i : keeps (wpasup_reap E i p).
Proof. induction i; cbn [wpasup_reap]; unfold waitpid_nohang; keeps_steps. Qed.
Hint Resolve keeps_ctrl_open keeps_dhcpc keeps_zcip keeps_reap : keeps.

Lemma keeps_wpasup_start en : keeps (wpasup_start E iface en).
Proof. unfold wpasup_start, wpasup_stop. keeps_steps. Qed.
Lemma keeps_cmd cmd reply len : keeps (wpasup_cmd E iface cmd reply len).
Proof. unfold wpasup_cmd. keeps_steps. Qed.
Hint Resolve keeps_wpasup_start keeps_cmd : keeps.
Lemma keeps_cmdsf cmd reply len cap : keeps (wpasup_cmdsf E iface reply len cap cmd).
Proof. unfold wpasup_cmdsf. keeps_steps. Qed.
Hint Resolve keeps_cmdsf : keeps.
Lemma keeps_must rep cmd k : (forall rep, keeps (k rep)) -> keeps (must E iface rep cmd k).
Proof. intros Hk. unfold must. keeps_steps. Qed.
Lemma keeps_connect ssid psk flag : keeps (wpasup_network_connect E iface ssid psk flag).
Proof.
  unfold wpasup_network_connect, wpasup_add_network. cbv zeta.
  repeat first [apply keeps_must; intros | progress keeps_steps].
Qed.
Lemma keeps_ping : keeps (wpasup_ping E iface).
Proof. unfold wpasup_ping. keeps_steps. Qed.
Hint Resolve keeps_connect keeps_ping : keeps.

Lemma keeps_sm_loop k : forall stin, keeps (sm_loop E iface k stin).
Proof.
  induction k as [|k IH]; intros stin; cbn [sm_loop]; [auto with keeps | ].
  unfold sm_turn, sm_goto, ip_flush. keeps_steps.
Qed.
Lemma keeps_run_sm stin : keeps (run_sm E iface stin).
Proof. apply keeps_sm_loop. Qed.
Hint Resolve keeps_run_sm : keeps.
Lemma keeps_rta_walk fuel : forall family scope bs rem found, keeps (rta_walk fuel family scope bs rem found).
Proof. induction fuel; intros; cbn [rta_walk]; unfold field; keeps_steps. Qed.
Hint Resolve keeps_rta_walk : keeps.
Lemma keeps_nl_walk fuel : forall bs len u, keeps (nl_walk E iface fuel bs len u).
Proof. induction fuel; intros; cbn [nl_walk]; unfold on_addr, on_link, field; keeps_steps. Qed.
Hint Resolve keeps_nl_walk : keeps.
Lemma keeps_epoll evs : keeps (wifi2_epoll_cb E iface evs).
Proof. induction evs as [|[] evs IH]; cbn [wifi2_epoll_cb]; unfold handle_rtnl, timer_read; keeps_steps. Qed.
Lemma keeps_cli present argv : keeps (wifi2_cli E iface present argv).
Proof. unfold wifi2_cli, wifi2_cli_wpacmd, cli_config. keeps_steps. Qed.
End Total.

(* ------------------------------------------------------------------ *)
(** ** Waiting for something *)

(** The timer will run out, or has. *)
Definition live (w : world) : Prop := expired w = true \/ 0 < timer w.

(** The manager waits for its timer, for the interface, or for a command. *)
Definition waiting (w : world) : Prop :=
  state (wifi w) = ST_RESET \/ state (wifi w) = ST_PAUSE \/ live w.

(** What the user configured, and the interface. *)
Definition netcfg (w : world) : Z * string * string * Z * bool :=
  (ifindex (wifi w), ssid (wifi w), psk (wifi w), flag (wifi w), network_apply (wifi w)).

Definition steady (w0 w : world) : Prop :=
  good w /\ netcfg w = netcfg w0 /\ (waiting w0 -> waiting w) /\ (live w0 -> live w).

Lemma steady_refl w : good w -> steady w w.
Proof. done. Qed.
Lemma steady_trans w1 w2 w3 : steady w1 w2 -> steady w2 w3 -> steady w1 w3.
Proof. intros (_ & C1 & W1 & L1) (G & C2 & W2 & L2). split_and!; auto; congruence. Qed.

Lemma delay_pos s ms : delay s = Some ms -> 0 < ms.
Proof. destruct s; cbn; intros [=]; subst; lia. Qed.

Lemma cfg_net w w' : cfg w' = cfg w -> netcfg w' = netcfg w.
Proof. unfold cfg, netcfg. by intros [= ? -> -> -> -> ->]. Qed.

Lemma settled_live l w w' : settled l w w' -> (forall s, s ∈ l -> delay s <> None) -> live w'.
Proof.
  intros (_ & _ & S & T) H. specialize (H _ S). unfold timed in T.
  destruct (delay _) as [ms|] eqn:Hd; [ | done]. destruct T as [T _]. right. rewrite T. by eapply delay_pos.
Qed.

(** Where the inputs from the kernel lead has a timer. *)
Lemma targets_timed ap s stin t :
  stin <> STIN_ENTER -> stin <> STIN_TIMEOUT -> t ∈ targets ap s stin -> delay t <> None.
Proof.
  intros H1 H2 Ht. destruct s, stin, ap; try done; cbn in Ht;
    repeat (apply elem_of_cons in Ht as [-> | Ht]; [discriminate | ]); by apply not_elem_of_nil in Ht.
Qed.

Lemma table_steady stin w w' :
  stin <> STIN_ENTER -> stin <> STIN_TIMEOUT -> good w -> follows_table stin w w' -> steady w w'.
Proof.
  intros H1 H2 G F. unfold follows_table in F.
  destruct (targets (applied (wifi w)) (state (wifi w)) stin) as [|t l] eqn:Ht; [by subst | ].
  assert (L : live w').
  { eapply settled_live; [exact F | ]. intros s Hs. rewrite <- Ht in Hs. by eapply targets_timed. }
  destruct F as (G' & C & _). split_and!; [done | by apply cfg_net | | done]. intros _. by right; right.
Qed.

(** A timeout is answered by a wait. *)
Lemma table_timeout w w' : follows_table STIN_TIMEOUT w w' -> good w ->
  good w' /\ netcfg w' = netcfg w /\ waiting w'.
Proof.
  intros F G. unfold follows_table in F.
  assert (H : (targets (applied (wifi w)) (state (wifi w)) STIN_TIMEOUT = [] /\
               (state (wifi w) = ST_RESET \/ state (wifi w) = ST_PAUSE)) \/
              targets (applied (wifi w)) (state (wifi w)) STIN_TIMEOUT <> []) by (destruct (state (wifi w)); cbn; auto).
  destruct H as [[He Hs] | Hne].
  - rewrite He in F. subst. split_and!; try done. destruct Hs; [by left | by right; left].
  - destruct (targets _ _ _) as [|t l]; [done | ]. destruct F as (G' & C & S & T). split_and!; [done | by apply cfg_net | ].
    unfold timed in T. destruct (delay _) as [ms|] eqn:Hd.
    + right; right. right. destruct T as [-> _]. by eapply delay_pos.
    + destruct (state (wifi w')) eqn:Hst; try done; [by left | by right; left].
Qed.

Section Loop.
Context (E : env) (iface : string).

Lemma run_steady stin w :
  polite E -> good w -> stin <> STIN_ENTER -> stin <> STIN_TIMEOUT ->
  wp (run_sm E iface stin) w (fun _ w' => steady w w').
Proof.
  intros P G H1 H2. eapply ewp_mono; [apply run_sm_ok; done | ]. cbv beta. intros _ w' F. by eapply table_steady.
Qed.

Definition kernel_input (i : state_input_t) : Prop := i <> STIN_ENTER /\ i <> STIN_TIMEOUT.

Lemma inputs_kernel index old m : Forall kernel_input (inputs index old m).
Proof.
  destruct m as [i flags a | d f s i a | t b]; cbn.
  - destruct (i =? index); [ | done]. unfold link_inputs.
    repeat apply Forall_app_2; destruct (_ && _); by repeat constructor.
  - destruct (_ && _); by repeat constructor.
  - done.
Qed.

Lemma run_inputs_steady l : Forall kernel_input l -> forall w, polite E -> good w ->
  wp (run_inputs E iface l) w (fun _ w' => steady w w').
Proof.
  induction 1 as [|i l [H1 H2] _ IH]; intros w P G; [by apply ewp_ret | ].
  apply ewp_bind. eapply ewp_mono; [by apply run_steady | ]. cbv beta. intros _ w1 S1.
  eapply ewp_mono; [apply IH; [done | apply S1] | ]. cbv beta. intros _ w2 S2. by eapply steady_trans.
Qed.

Lemma react_steady ms : forall u w, polite E -> good w -> wp (react E iface ms u) w (fun _ w' => steady w w').
Proof.
  induction ms as [|m ms IH]; intros u w P G; cbn [react]; [by apply ewp_ret | ].
  apply ewp_bind, wp_self, ewp_bind. eapply ewp_mono; [by apply run_inputs_steady; [apply inputs_kernel | ..] | ].
  cbv beta. intros _ w1 S1. eapply ewp_mono; [apply IH; [done | apply S1] | ]. cbv beta. intros _ w2 S2.
  by eapply steady_trans.
Qed.

Lemma rtnl_steady ms w : polite E -> good w -> Forall msg_ok ms ->
  wp (handle_rtnl E iface (concat (map enc_msg ms))) w (fun _ w' => steady w w').
Proof.
  intros P G Hms. eapply ewp_eq; [by apply handle_rtnl_eq | ]. apply ewp_bind.
  eapply ewp_mono; [by apply react_steady | ]. cbv beta. intros [f|] w1 S1; [ | by apply ewp_ret].
  apply wp_upd. destruct S1 as (G1 & C1 & W1 & L1). split_and!; try done. by destruct G1.
Qed.

(** What one [epoll_wait] finds: whole messages, and the timer that ran out. *)
Inductive finds : list event -> bool -> Prop :=
  | finds_none : finds [] false
  | finds_rtnl ms evs t : Forall msg_ok ms -> finds evs t -> finds (Rtnl (concat (map enc_msg ms)) :: evs) t
  | finds_timer evs : finds evs false -> finds (Timer :: evs) true.

Lemma timer_read_ok w : good w -> live w -> wp timer_read w (fun _ w' =>
  good w' /\ netcfg w' = netcfg w /\ state (wifi w') = state (wifi w)).
Proof.
  intros G L. unfold timer_read, get. apply ewp_bind. change (fun s : world => Done s s) with (gets (fun s : world => s)).
  apply wp_gets. destruct (expired w) eqn:He; [by apply ewp_modify; split; [apply good_timer | ] | ].
  destruct L as [? | L]; [congruence | ]. rewrite (proj2 (Z.eqb_neq _ 0)) by lia.
  apply ewp_bind, ewp_modify, ewp_modify. split; [by apply good_timer | done].
Qed.

Lemma epoll_ok evs t : finds evs t -> forall w, polite E -> good w -> waiting w -> (t = true -> live w) ->
  wp (wifi2_epoll_cb E iface evs) w (fun _ w' => good w' /\ netcfg w' = netcfg w /\ waiting w').
Proof.
  induction 1 as [ | ms evs t Hms _ IH | evs _ IH]; intros w P G W L; cbn [wifi2_epoll_cb].
  - by apply ewp_ret.
  - apply ewp_bind. eapply ewp_mono; [by apply rtnl_steady | ]. cbv beta. intros _ w1 (G1 & C1 & W1 & L1).
    eapply ewp_mono; [apply IH; auto | ]. cbv beta. intros _ w2 (G2 & C2 & W2). split_and!; [done | congruence | done].
  - apply ewp_bind. eapply ewp_mono; [by apply timer_read_ok; [ | apply L] | ]. cbv beta. intros _ w1 (G1 & C1 & S1).
    apply ewp_bind. eapply ewp_mono; [by apply run_sm_ok | ]. cbv beta. intros _ w2 F.
    apply table_timeout in F as (G2 & C2 & W2); [ | done].
    eapply ewp_mono; [apply IH; done | ]. cbv beta. intros _ w3 (G3 & C3 & W3). split_and!; [done | congruence | done].
Qed.
End Loop.

(* ------------------------------------------------------------------ *)
(** ** Commands *)

Section Commands.
Context (E : env) (iface : string).

Lemma good_upd f w : good w -> conns (f (wifi w)) = conns (wifi w) -> mon_ev (f (wifi w)) = mon_ev (wifi w) ->
  wpasup_mon (f (wifi w)) = wpasup_mon (wifi w) -> pids (f (wifi w)) = pids (wifi w) ->
  good (set_wifi (f (wifi w)) w).
Proof. intros [] Hc He Hm Hp. split; cbn [wifi ctrls kids fresh set_wifi]; rewrite ?Hc, ?He, ?Hm, ?Hp; auto. Qed.

Lemma run_good stin w :
  polite E -> good w -> (state (wifi w) = ST_WPASUP_CONNECT -> stin = STIN_ENTER -> network_apply (wifi w) = true) ->
  wp (run_sm E iface stin) w (fun _ w' => good w').
Proof.
  intros P G H. eapply ewp_mono; [by apply run_sm_ok | ]. cbv beta. intros _ w' F. unfold follows_table in F.
  destruct (targets _ _ _); [by subst | apply F].
Qed.

Lemma cli_config_ok argv w : polite E -> good w -> wp (cli_config E iface argv) w (fun _ w' => good w').
Proof.
  intros P G. unfold cli_config. cbv zeta.
  destruct (if cmd_is argv "swqa" then _ else arg argv 2) as [[|c s]|];
    [apply ewp_bind, wp_upd, ewp_ret; by apply good_upd | | apply ewp_bind, wp_upd, ewp_ret; by apply good_upd].
  destruct (snprintf 64 _) as [s'|]; [ | apply ewp_bind, wp_upd, ewp_ret; by apply good_upd].
  apply ewp_bind, wp_upd. set (w1 := set_wifi _ _). assert (G1 : good w1) by (by apply good_upd). clearbody w1.
  apply ewp_bind. eapply (ewp_mono _ _ (fun _ w' => good w')).
  { destruct (if cmd_is argv "swqa" then _ else arg argv 3); apply wp_upd; by apply good_upd. }
  cbv beta. intros _ w2 G2.
  match goal with |- wp (if ?b then _ else _) _ _ => destruct b end; [by apply ewp_ret | ].
  apply ewp_bind, wp_upd, ewp_bind, wp_upd, ewp_bind, wp_upd, ewp_bind.
  match goal with |- wp _ ?w3 _ => assert (G3 : good w3) by (by destruct G2) end.
  eapply ewp_mono; [by apply run_good | ]. cbv beta. intros _ w4 G4. by apply ewp_ret.
Qed.

(** [wifi state st_wpasup_connect] with no network. *)
Definition connect_unset (argv : list string) (w : world) : Prop :=
  cmd_is argv "state" = true /\ network_apply (wifi w) = false /\
  st_of (st_val (arg argv 2) (-1)) = Some ST_WPASUP_CONNECT.

Lemma kept_good {A} (m : M A) w : wp m w (fun _ w' => quiet w w') -> wp m w (fun _ w' => good w').
Proof. intros H. eapply ewp_mono; [exact H | ]. by intros ? ? [? _]. Qed.

Lemma command_ok present argv w :
  polite E -> good w -> ~ connect_unset argv w -> cmd_is argv "wpacmd" = false ->
  wp (wifi2_cli E iface present argv) w (fun _ w' => good w').
Proof.
  intros P G Hnull Hraw. unfold wifi2_cli. destruct (_ || _); [by apply ewp_ret | ].
  destruct (negb present); [by apply ewp_ret | ].
  destruct (cmd_is argv "timer").
  { cbv zeta. apply ewp_bind. destruct (negb _); [apply wp_timer_set, ewp_ret; by apply good_timer | by apply ewp_ret, ewp_ret]. }
  destruct (cmd_is argv "iflink"); [by apply kept_good, ifup_ok | ].
  destruct (cmd_is argv "dhcp"); [by apply kept_good, dhcpc_start_ok | ].
  destruct (cmd_is argv "zcip"); [by apply kept_good, zcip_start_ok | ].
  destruct (cmd_is argv "wpasup"); [by apply kept_good, wpasup_start_ok | ].
  destruct (cmd_is argv "state") eqn:Hstate.
  { destruct (arg argv 2) as [name|] eqn:Harg; [ | by apply ewp_ret].
    destruct (st_of _) as [st|] eqn:Hst; [ | by apply ewp_ret].
    apply ewp_bind, wp_upd, ewp_bind. eapply ewp_mono; [apply run_good; [done | by apply good_state | ] | ].
    - cbn. intros -> _. destruct (network_apply (wifi w)) eqn:Hn; [done | ]. destruct Hnull.
      split; [done | ]. split; [done | ]. by rewrite Harg.
    - cbv beta. intros _ w' G'. by apply ewp_ret. }
  rewrite Hraw, andb_false_r.
  destruct (_ && _).
  { eapply ewp_mono; [by apply connect_ok | ]. by intros ? ? [[? _] _]. }
  destruct (_ || _); [by apply cli_config_ok | by apply ewp_ret].
Qed.
End Commands.

(* ------------------------------------------------------------------ *)
(** ** A device to try things on *)

(** Everything succeeds and wpa_supplicant answers as it should. *)
Definition answers (cmd : string) : string :=
  if bool_decide (cmd = "PING") then "PONG" +:+ NL else
  if bool_decide (cmd = "ADD_NETWORK") then "0" +:+ NL else OK_NL.
Definition device : env :=
  Env (fun _ => true) (fun _ => 0) (fun _ => 1) (fun _ => (1%nat, Exited 0)) (fun _ => strlen wpasup_config)
    (fun _ => true) (fun _ => 0) (fun _ => true) (fun _ => 0) (fun _ => 0) (fun _ cmd => (0, answers cmd)).

Lemma device_polite : polite device.
Proof. intros i cmd. cbn. unfold answers. by repeat case_bool_decide. Qed.

Lemma idle_good ifindex flags : good (idle ifindex flags).
Proof. split; try done; try apply NoDup_nil_2; intros p; cbn; rewrite ?elem_of_nil; tauto. Qed.

(** The manager of interface 3 with a network configured. *)
Definition configured (s : state_t) (t : Z) (e : bool) : world :=
  World (Wifi2 s 4099 3 None None None 0 0 0 "home" "secret" 0 true) t e [] [] 1 0 [].
Lemma configured_good s t e : good (configured s t e).
Proof. split; try done; try apply NoDup_nil_2; intros p; cbn; rewrite ?elem_of_nil; tauto. Qed.

(** The address 192.168.0.2 for interface 3. *)
Definition address : msg := AddrMsg false AF_INET RT_SCOPE_UNIVERSE 3 [Attr IFA_ADDRESS [192; 168; 0; 2]; Attr IFA_LOCAL [192; 168; 0; 2]].
Lemma address_ok : msg_ok address.
Proof.
  split; [done | ]. split; [done | ]. split; [done | ]. split; [done | ].
  repeat constructor; cbn; try done; intros _; lia.
Qed.

(** Up, running, with its carrier. *)
Definition link (flags : Z) : msg := LinkMsg 3 flags [].

(* ------------------------------------------------------------------ *)
(** ** What holds *)

(** Entering [ST_WPASUP_CONNECT] with no network configured. *)
Definition enters_unset (stin : state_input_t) (w : world) : Prop :=
  state (wifi w) = ST_WPASUP_CONNECT /\ stin = STIN_ENTER /\ network_apply (wifi w) = false.

Lemma enters_unset_null E iface stin w : enters_unset stin w -> run_sm E iface stin w = Ub.
Proof.
  intros (Hs & -> & H). rewrite run_sm_eq. unfold sm_turn, self, gets, bind at 1 2. rewrite Hs. cbn. by rewrite H.
Qed.

(** C4: While wpa_supplicant answers the manager's own requests with fewer than
    16 characters, and whatever else it and the kernel answer, every input takes
    the machine to a state its table lists for it, with that state's timer armed
    and the configuration as it was, or is ignored and changes nothing, in four
    turns of the loop at most; but for one: entering [ST_WPASUP_CONNECT] with no
    network configured, which only a command can ask for, reads through a null
    pointer. *)
Theorem follows_its_table E iface stin w :
  polite E -> good w ->
  (~ enters_unset stin w -> exists w', run_sm E iface stin w = Done tt w' /\ follows_table stin w w') /\
  (enters_unset stin w -> run_sm E iface stin w = Ub).
Proof.
  intros P G. split; [ | apply enters_unset_null]. intros H.
  assert (Hset : state (wifi w) = ST_WPASUP_CONNECT -> stin = STIN_ENTER -> network_apply (wifi w) = true).
  { intros Hs He. apply not_false_is_true. intros Hn. by apply H. }
  destruct (wp_total _ _ _ (keeps_run_sm E iface stin) (run_sm_ok E iface stin w P G Hset)) as ([] & w' & ? & ?).
  by exists w'.
Qed.

Lemma follows_its_table_witness :
  (exists w', run_sm device "wlan0" STIN_IFFUP (configured ST_RESET 0 false) = Done tt w' /\
    follows_table STIN_IFFUP (configured ST_RESET 0 false) w' /\ state (wifi w') = ST_WPASUP_CONNECT).
Proof.
  destruct (follows_its_table device "wlan0" STIN_IFFUP (configured ST_RESET 0 false)) as [H _];
    [exact device_polite | apply configured_good | ].
  destruct H as (w' & Hr & F); [by intros (? & _) | ].
  exists w'. split; [exact Hr | ]. split; [exact F | ]. revert Hr. vm_compute. intros [= <-]. reflexivity.
Defined.

(** C5: While the manager waits for its timer, for the interface or for a
    command, whatever one poll finds (messages of the kernel in any order, and
    the timer if it ran out) leaves it waiting again, with its processes and
    connections accounted for and its configuration as it was. *)
Theorem never_stalls E iface evs t w :
  polite E -> good w -> waiting w -> finds evs t -> (t = true -> live w) ->
  exists w', wifi2_epoll_cb E iface evs w = Done tt w' /\ good w' /\ netcfg w' = netcfg w /\ waiting w'.
Proof.
  intros P G W F L.
  destruct (wp_total _ _ _ (keeps_epoll E iface evs) (epoll_ok E iface evs t F w P G W L)) as ([] & w' & ? & ?).
  by exists w'.
Qed.

Lemma finds_address evs t : finds evs t -> finds (Rtnl (concat (map enc_msg [address])) :: evs) t.
Proof. intros F. apply finds_rtnl; [ | done]. apply Forall_singleton, address_ok. Qed.

Lemma never_stalls_witness :
  exists w', wifi2_epoll_cb device "wlan0" [Rtnl (concat (map enc_msg [address])); Timer] (configured ST_DHCPC 0 true) = Done tt w' /\
    good w' /\ netcfg w' = netcfg (configured ST_DHCPC 0 true) /\ waiting w'.
Proof.
  apply (never_stalls device "wlan0" _ true); [exact device_polite | apply configured_good | right; right; by left
    | apply finds_address, finds_timer, finds_none | intros _; by left].
Defined.

(** Every command but raw ones and entering [ST_WPASUP_CONNECT] with no
    network ends, closes no connection twice, signals only children that were
    not waited for, and leaves open exactly the control connections the manager
    names, its watch on one of them and the processes it names among its
    children. *)
Theorem commands_keep_account E iface present argv w :
  polite E -> good w -> ~ connect_unset argv w -> cmd_is argv "wpacmd" = false ->
  exists r w', wifi2_cli E iface present argv w = Done r w' /\ good w'.
Proof.
  intros P G H1 H2. destruct (wp_total _ _ _ (keeps_cli E iface present argv) (command_ok E iface present argv w P G H1 H2))
    as (r & w' & ? & ?).
  by exists r, w'.
Qed.

Lemma commands_keep_account_witness :
  exists r w', wifi2_cli device "wlan0" true ["wifi"; "dhcp"; "1"]%string (configured ST_MON 5000 false) = Done r w' /\
    good w' /\ udhcpc_pid (wifi w') = 1 /\ kids w' = [1].
Proof.
  destruct (commands_keep_account device "wlan0" true ["wifi"; "dhcp"; "1"]%string (configured ST_MON 5000 false))
    as (r & w' & Hr & G); [exact device_polite | apply configured_good | by intros (? & _) | done | ].
  exists r, w'. split; [exact Hr | ]. split; [exact G | ]. revert Hr. vm_compute. intros [= _ <-]. done.
Defined.

(** Connecting to a network sends the commands of [connect_cmds] in order,
    each after the one before was accepted, gives up at the first that is not
    and reports success only when all of them were; nothing is read of a
    reply but what was received. *)
Theorem connect_sends E iface ssid psk flag w :
  polite E -> good w ->
  exists r w', wpasup_network_connect E iface ssid psk flag w = Done r w' /\ quiet w w' /\ (r = 0 \/ r = -1) /\
    exists oks bad, sent w' = sent w ++ oks ++ bad /\ Forall accepted oks /\ (length bad <= 1)%nat /\
      map fst (oks ++ bad) `prefix_of` connect_cmds ssid psk flag /\
      (r = 0 -> bad = [] /\ map fst oks = connect_cmds ssid psk flag).
Proof.
  intros P G. destruct (wp_total _ _ _ (keeps_connect E iface ssid psk flag) (connect_ok E iface ssid psk flag w P G))
    as (r & w' & ? & ?).
  by exists r, w'.
Qed.

Lemma connect_sends_witness :
  (exists r w', wpasup_network_connect device "wlan0" "home" (Some "secret"%string) 1 (configured ST_MON 0 false) = Done r w' /\
    quiet (configured ST_MON 0 false) w' /\ (r = 0 \/ r = -1) /\
    exists oks bad, sent w' = [] ++ oks ++ bad /\ Forall accepted oks /\ (length bad <= 1)%nat /\
      map fst (oks ++ bad) `prefix_of` connect_cmds "home" (Some "secret"%string) 1 /\
      (r = 0 -> bad = [] /\ map fst oks = connect_cmds "home" (Some "secret"%string) 1)) /\
  length (connect_cmds "home" (Some "secret"%string) 1) = 9%nat.
Proof.
  split; [ | reflexivity].
  apply (connect_sends device "wlan0" "home" (Some "secret"%string) 1 (configured ST_MON 0 false));
    [exact device_polite | apply configured_good].
Defined.

(** From the bytes of any messages of the kernel the parser gives the state
    machine exactly the inputs they stand for, in order, each compared with the
    flags known before the batch, and then keeps the last flags; it reads
    nothing outside of them. *)
Theorem rtnetlink_decoded E iface ms w : Forall msg_ok ms ->
  handle_rtnl E iface (concat (map enc_msg ms)) w =
  (do u <- react E iface ms None; match u with Some f => upd (set_ifflag f) | None => ret tt end) w.
Proof. apply handle_rtnl_eq. Qed.

Lemma link_ok flags : 0 <= flags < 4294967296 -> msg_ok (link flags).
Proof. intros H. split; [done | ]. by split. Qed.

Lemma rtnetlink_decoded_witness :
  let ms := [OtherMsg 3 [0; 0; 0; 0]; link 69699; address] in
  handle_rtnl device "wlan0" (concat (map enc_msg ms)) (configured ST_WPASUP_CONNECT 15000 false) =
  (do u <- react device "wlan0" ms None; match u with Some f => upd (set_ifflag f) | None => ret tt end)
    (configured ST_WPASUP_CONNECT 15000 false) /\
  inputs 3 4099 (link 69699) = [STIN_IFFRUNNING] /\ inputs 3 4099 address = [STIN_IPADD] /\
  match handle_rtnl device "wlan0" (concat (map enc_msg ms)) (configured ST_WPASUP_CONNECT 15000 false) with
  | Done _ w' => state (wifi w') = ST_MON /\ ifflag (wifi w') = 69699
  | _ => False
  end.
Proof.
  split; [ | by vm_compute].
  apply (rtnetlink_decoded device "wlan0").
  apply Forall_cons; split; [by repeat split | ]. apply Forall_cons; split; [by apply link_ok | ].
  apply Forall_singleton, address_ok.
Defined.

Lemma cli_cfg E iface name rest w : (0 < strlen name) ->
  wifi2_cli E iface true ("wifi" :: "wificfg" :: name :: rest)%string w =
  cli_config E iface ("wifi" :: "wificfg" :: name :: rest)%string w.
Proof.
  intros _. unfold wifi2_cli. rewrite (proj2 (Z.ltb_ge _ 2)) by (cbn [length]; lia).
  change (cmd_is _ "help") with false. change (cmd_is _ "timer") with false. change (cmd_is _ "iflink") with false.
  change (cmd_is _ "dhcp") with false. change (cmd_is _ "zcip") with false. change (cmd_is _ "wpasup") with false.
  change (cmd_is _ "state") with false. change (cmd_is _ "wpacmd") with false. change (cmd_is _ "wificonn") with false.
  change (cmd_is _ "wificfg") with true. by rewrite !andb_false_r.
Qed.

(** [wificfg] with a name that does not fit is refused, and so is one with a
    key that does not fit or is empty; but the name, and the key, that were
    configured before are by then overwritten with what did fit, and the
    network stays applied. *)
Theorem wificfg_refused_changes E iface name rest w : 0 < strlen name ->
  (64 <= strlen name ->
   wifi2_cli E iface true ("wifi" :: "wificfg" :: name :: rest)%string w =
   Done (-1) (set_wifi (set_ssid (String.substring 0 63 name) (wifi w)) w)) /\
  (forall key rest', strlen name < 64 -> rest = key :: rest' -> strlen key = 0 \/ 100 <= strlen key ->
   wifi2_cli E iface true ("wifi" :: "wificfg" :: name :: rest)%string w =
   Done (-1) (set_wifi (set_psk (String.substring 0 99 key) (set_ssid name (wifi w))) w)).
Proof.
  intros Hname. assert (Hs : exists c s, name = String c s).
  { destruct name as [|c s]; [done | by eexists _, _]. }
  split.
  - intros Hlen. rewrite cli_cfg by done. unfold cli_config. change (cmd_is _ "swqa") with false. cbv zeta iota.
    change (arg _ 2) with (Some name). destruct Hs as (c & s & ->). unfold snprintf.
    by rewrite (proj2 (Z.leb_le 64 _) Hlen), orb_true_r.
  - intros key rest' Hlen -> Hkey. rewrite cli_cfg by done. unfold cli_config. change (cmd_is _ "swqa") with false.
    cbv zeta iota. change (arg _ 2) with (Some name). change (arg _ 3) with (Some key).
    assert (Hn : snprintf 64 name = Some name).
    { unfold snprintf. by rewrite (proj2 (Z.leb_gt _ 0)), (proj2 (Z.leb_gt 64 _)) by lia. }
    assert (Hk : snprintf 100 key = None).
    { unfold snprintf. destruct Hkey as [-> | Hk]; [done | ]. by rewrite (proj2 (Z.leb_le 100 _) Hk), orb_true_r. }
    destruct Hs as (c & s & ->). cbv iota. by rewrite Hn, Hk.
Qed.

Lemma wificfg_refused_changes_witness :
  0 < strlen "home2" /\ strlen EmptyString = 0 /\
  wifi2_cli device "wlan0" true ["wifi"; "wificfg"; "home2"; EmptyString]%string (configured ST_MON 5000 false) =
  Done (-1) (set_wifi (set_psk EmptyString (set_ssid "home2" (wifi (configured ST_MON 5000 false)))) (configured ST_MON 5000 false)).
Proof.
  split; [reflexivity | ]. split; [reflexivity | ].
  apply (proj2 (wificfg_refused_changes device "wlan0" "home2" [EmptyString] (configured ST_MON 5000 false) ltac:(reflexivity))
    EmptyString []); [reflexivity | reflexivity | by left].
Defined.

(** Entering [ST_WPASUP_CONNECT] by command with no network reads through a
    null pointer. *)
Lemma connect_unset_null E iface w : network_apply (wifi w) = false ->
  wifi2_cli E iface true ["wifi"; "state"; "st_wpasup_connect"]%string w = Ub.
Proof.
  intros H. change (wifi2_cli E iface true ["wifi"; "state"; "st_wpasup_connect"]%string w)
    with ((upd (set_state ST_WPASUP_CONNECT);; run_sm E iface STIN_ENTER;; ret 0) w).
  unfold bind at 1, upd, modify. rewrite run_sm_eq. unfold sm_turn, self, gets, bind at 1 2 3. cbn. by rewrite H.
Qed.

Lemma dhcpc_ipadd E iface w : state (wifi w) = ST_DHCPC ->
  run_sm E iface STIN_IPADD w = Done tt (set_timer 5000 false (set_wifi (set_state ST_MON (wifi w)) w)).
Proof. intros H. rewrite run_sm_eq. unfold sm_turn, self, gets, bind at 1 2. rewrite H. reflexivity. Qed.

(** When the timer of [ST_DHCPC] has run out and the address arrives before
    the loop gets to it, one poll finds both; the address is handled first and
    sets the timer again, and the read of the timer then holds up the whole
    loop for the five seconds until it runs out. *)
Theorem address_before_timeout_blocks E iface m w :
  state (wifi w) = ST_DHCPC -> msg_ok m -> inputs (ifindex (wifi w)) (ifflag (wifi w)) m = [STIN_IPADD] ->
  exists w', wifi2_epoll_cb E iface [Rtnl (concat (map enc_msg [m])); Timer] w = Done tt w' /\
    acts w' = acts w ++ [Blocked 5000] /\ state (wifi w') = ST_MON.
Proof.
  intros Hs Hm Hi.
  assert (Hu : new_flags (ifindex (wifi w)) None m = None) by (destruct m as [i f a | | ]; cbn in *; try done;
    destruct (i =? _); [ | done]; unfold link_inputs in Hi; repeat destruct (_ && _); discriminate).
  assert (Hr : handle_rtnl E iface (concat (map enc_msg [m])) w =
    Done tt (set_timer 5000 false (set_wifi (set_state ST_MON (wifi w)) w))).
  { rewrite handle_rtnl_eq by (by apply Forall_singleton). cbn [react].
    unfold self, gets, bind at 1 2 3. rewrite Hi, Hu. cbn [run_inputs]. unfold bind at 1. by rewrite dhcpc_ipadd. }
  cbn [wifi2_epoll_cb]. unfold bind at 1. rewrite Hr. eexists. split; [reflexivity | done].
Qed.

Lemma address_before_timeout_blocks_witness :
  exists w', wifi2_epoll_cb device "wlan0" [Rtnl (concat (map enc_msg [address])); Timer] (configured ST_DHCPC 0 true) = Done tt w' /\
    acts w' = [] ++ [Blocked 5000] /\ state (wifi w') = ST_MON.
Proof.
  apply (address_before_timeout_blocks device "wlan0" address (configured ST_DHCPC 0 true)); [reflexivity | exact address_ok | reflexivity].
Defined.
