(* ===== verification/Cli.v ===== *)
(** Cli: the console of package/tester1/cli.cpp: the tokenizer of util.cpp, the
    register of commands, the assembly of lines from what the descriptor gives,
    dispatch and the life of the console.  Text is bytes. *)

From S2P Require Import Prelude Buf Eff ByteStr.

Open Scope eff_scope.

(* ------------------------------------------------------------------ *)
(** ** C strings *)

Definition tolower (b : Z) : Z := if (65 <=? b) && (b <=? 90) then b + 32 else b.
(** [strcasecmp(a, b) == 0]. *)
Definition strcase_eq (a b : text) : bool := bool_decide (map tolower a = map tolower b).

Definition mem (b : Z) (l : text) : bool := existsb (Z.eqb b) l.
(** [isprint] in the C locale; a [char] of 128 or more is not printable whether
    [char] is signed or not. *)
Definition isprint (b : Z) : bool := (32 <=? b) && (b <=? 126).

(** " \r\n\t". *)
Definition aloe_str_sep : text := [32; 13; 10; 9].

(** [strtok_r]: the next token and what is left. *)
Fixpoint skip_sep (sep s : text) : text :=
  match s with [] => [] | b :: s' => if mem b sep then skip_sep sep s' else s end.
Fixpoint span_tok (sep s : text) : text * text :=
  match s with
  | [] => ([], [])
  | b :: s' => if mem b sep then ([], s') else let (t, r) := span_tok sep s' in (b :: t, r)
  end.
Definition strtok_r (sep s : text) : option (text * text) :=
  match skip_sep sep s with [] => None | s' => Some (span_tok sep s') end.

(** At most [argmax] tokens. *)
Fixpoint aloe_cli_tok (argmax : nat) (sep s : text) : list text :=
  match argmax with
  | O => []
  | S k => match strtok_r sep s with None => [] | Some (t, r) => t :: aloe_cli_tok k sep r end
  end.

(* ------------------------------------------------------------------ *)
(** ** Commands *)

(** [run] and [cbarg] are what the registration gave; [None]: the console's own
    help. *)
Record cli_cmd : Type := CliCmd { str : text; run : option Z; cbarg : Z; detail : option text }.

(** A red-black tree is its nodes in order. *)
Definition cmdq : Type := list cli_cmd.

(** "help", "Show this help". *)
Definition help_name : text := [104; 101; 108; 112].
Definition cli_lut : list cli_cmd :=
  [CliCmd help_name None 0 (Some [83; 104; 111; 119; 32; 116; 104; 105; 115; 32; 104; 101; 108; 112])].

Fixpoint cli_cmdq_find (q : cmdq) (s : text) : option cli_cmd :=
  match q with
  | [] => None
  | c :: q' => match strcmp s (str c) with Eq => Some c | Lt => None | Gt => cli_cmdq_find q' s end
  end.

(** [RB_INSERT]: nothing when the name is there. *)
Fixpoint cli_cmdq_add (q : cmdq) (c : cli_cmd) : cmdq :=
  match q with
  | [] => [c]
  | d :: q' => match strcmp (str c) (str d) with Lt => c :: q | Eq => q | Gt => d :: cli_cmdq_add q' c end
  end.

Definition cli_lut_find (q : cmdq) (s : text) : option cli_cmd :=
  match List.find (fun c => strcase_eq s (str c)) cli_lut with
  | Some c => Some c
  | None => cli_cmdq_find q s
  end.

(** The lines [cli_help] prints. *)
Definition help_line (c : cli_cmd) : text :=
  match detail c with Some d => str c ++ [32; 45; 32] ++ d | None => str c end.
Definition cli_help (q : cmdq) (argv : list text) : list text :=
  let tgt := nth_error argv 2 in
  match tgt with
  | None => map help_line (cli_lut ++ q)
  | Some t =>
      match filter (fun c => strcase_eq t (str c) = true) cli_lut with
      | c :: _ => [help_line c]
      | [] => map help_line (take 1 (filter (fun c => strcase_eq t (str c) = true) q))
      end
  end.

(* ------------------------------------------------------------------ *)
(** ** Lines *)

(** What a line leads to. *)
Inductive outcome : Type :=
  | Ran (cmd : cli_cmd) (argv : list text)
  | NotFound (name : text)
  | TooLong
  | Blank.

Definition graphic (b : Z) : bool := isprint b && negb (mem b aloe_str_sep).

Fixpoint trim_start (l : text) : text :=
  match l with [] => [] | b :: l' => if graphic b then l else trim_start l' end.
Definition trim_end (l : text) : text := rev (trim_start (rev l)).

(** [None]: nothing is left. *)
Definition cli_line_trim (l : text) : option text :=
  match trim_start l with
  | [] => None
  | l' => match trim_end l' with [] => None | l'' => Some l'' end
  end.

Definition LINE_BUF : Z := 1024.
Definition ARGV : nat := 19.

(** [None]: [argv[1]] is used and there is no token. *)
Definition cli_input_line (q : cmdq) (line : text) : option outcome :=
  match cli_line_trim line with
  | None => Some Blank
  | Some l =>
      if LINE_BUF <=? Z.of_nat (length l) then Some TooLong else
      let argv := aloe_cli_tok ARGV aloe_str_sep (c_str l) in
      name ← head argv;
      Some (match cli_lut_find q name with Some c => Ran c argv | None => NotFound name end)
  end.

(** [memmem(.., "\n", 1)]: how far the newline is. *)
Fixpoint find_lf (l : text) : option Z :=
  match l with [] => None | b :: l' => if b =? 10 then Some 0 else i ← find_lf l'; Some (i + 1) end.

(** The loop over the lines that are complete: [start] is where the line starts
    and [lf] its newline.  Where the last one ends, and what they led to. *)
Fixpoint line_loop (fuel : nat) (q : cmdq) (d : text) (pos start : Z) (lf : option Z) (outs : list outcome)
    : option (Z * list outcome) :=
  match lf with
  | None => Some (start, outs)
  | Some lf =>
      line ← load d start (lf - start + 1);
      out ← cli_input_line q line;
      let outs := outs ++ [out] in
      let start := lf + 1 in
      if pos <=? start then Some (start, outs) else
      rest ← load d start (pos - start);
      match fuel with
      | O => None
      | S f => line_loop f q d pos start (i ← find_lf rest; Some (start + i)) outs
      end
  end.

(** [None]: an access outside of the buffer. *)
Definition cli_input (q : cmdq) (fb : abuf) (bytes : text) : option (abuf * list outcome) :=
  let sz := Z.of_nat (length bytes) in
  if cap fb <=? pos fb + sz then Some (Abuf (data fb) (cap fb) (cap fb) 0, []) else
  let lf_parse := pos fb in
  d ← data fb;
  d ← blit d (pos fb) bytes;
  let pos := pos fb + sz in
  d ← upd d pos 0;
  fresh ← load d lf_parse sz;
  '(start, outs) ← line_loop (length d) q d pos 0 (i ← find_lf fresh; Some (lf_parse + i)) [];
  if pos <=? start then
    d ← upd d 0 0; Some (Abuf (Some d) (cap fb) (lmt fb) 0, outs)
  else if 0 <? start then
    let sz := pos - start in
    tail ← load d start sz;
    d ← blit d 0 tail;
    d ← upd d sz 0;
    Some (Abuf (Some d) (cap fb) (lmt fb) sz, outs)
  else Some (Abuf (Some d) (cap fb) (lmt fb) pos, outs).

Definition LINE_FB : Z := 2048.
(** [cli->line_fb] after [aloe_calloc]: [lmt] is not set. *)
Definition new_line_fb : abuf := Abuf (Some (replicate (Z.to_nat LINE_FB) 0)) LINE_FB 0 0.

(* ------------------------------------------------------------------ *)
(** ** The console's life *)

(** The one console: allocated or not, its line buffer, commands, descriptor and
    registration with the event loop. *)
Record cli1 : Type := Cli1 { line_fb : abuf; cmds : cmdq; fd : option Z; ev : bool }.

(** [cmd_heap]: the commands allocated; [fds]: the descriptors open; [outs]:
    what lines led to; [cli_global] points at [console], allocated or not. *)
Record cworld : Type := CWorld {
  console : option cli1; cmd_heap : list cli_cmd; fds : list Z; outs : list outcome }.

Definition C (A : Type) : Type := comp cworld A.

Definition set_console (x : option cli1) : C unit :=
  modify (fun w => CWorld x (cmd_heap w) (fds w) (outs w)).
Definition set_heap (x : list cli_cmd) : C unit :=
  modify (fun w => CWorld (console w) x (fds w) (outs w)).
Definition set_fds (x : list Z) : C unit :=
  modify (fun w => CWorld (console w) (cmd_heap w) x (outs w)).
Definition emit (x : list outcome) : C unit :=
  modify (fun w => CWorld (console w) (cmd_heap w) (fds w) (outs w ++ x)).

(** The console is read: it must be allocated. *)
Definition the_cli : C cli1 := do c <- gets console; need c.

(** [close]: of a descriptor that is open. *)
Definition close_fd (x : Z) : C unit :=
  do l <- gets fds; if bool_decide (x ∈ l) then set_fds (filter (fun y => y <> x) l) else ub.

(** [aloe_free] of a command: once. *)
Definition free_cmd (c : cli_cmd) : C unit :=
  do h <- gets cmd_heap;
  if existsb (fun d => bool_decide (str d = str c)) h
  then set_heap (filter (fun d => str d <> str c) h) else ub.

(** [cli1_release]. *)
Definition cli1_release : C unit :=
  do c <- the_cli;
  set_console (Some (Cli1 (line_fb c) (cmds c) (fd c) false));;
  (match fd c with Some x => close_fd x | None => ret tt end);;
  set_console None.

(** [cli1_destroy]. *)
Fixpoint destroy_cmds (q : cmdq) : C unit :=
  match q with [] => ret tt | c :: q' => free_cmd c;; destroy_cmds q' end.
Definition cli1_destroy : C unit :=
  do c <- the_cli;
  destroy_cmds (cmds c);;
  set_console (Some (Cli1 (line_fb c) [] (fd c) false));;
  (match fd c with Some x => close_fd x | None => ret tt end);;
  set_console None.

(** What [read] gives [cli1_cb]: at most 1023 bytes, the end, EAGAIN or another
    error. *)
Inductive input : Type := Bytes (l : text) | Eof | Again | ReadError.

Definition cli1_cb (i : input) : C unit :=
  match i with
  | Eof | ReadError => cli1_release
  | Again => ret tt
  | Bytes l =>
      do c <- the_cli;
      do ' (fb, out) <- need (cli_input (cmds c) (line_fb c) l);
      set_console (Some (Cli1 fb (cmds c) (fd c) (ev c)));; emit out
  end.

(** The answers of [aloe_calloc], [dup], making it non-blocking, registering. *)
Record cli_setup : Type := CliSetup { s_mem : bool; s_dup : option Z; s_nonblock : bool; s_reg : bool }.

Definition cli1_init (a : cli_setup) : C bool :=
  if negb (s_mem a) then ret false else
  set_console (Some (Cli1 new_line_fb [] None false));;
  match s_dup a with
  | None => cli1_release;; ret false
  | Some x =>
      (do l <- gets fds; set_fds (x :: l));;
      set_console (Some (Cli1 new_line_fb [] (Some x) false));;
      if negb (s_nonblock a) then cli1_release;; ret false else
      if negb (s_reg a) then cli1_release;; ret false else
      set_console (Some (Cli1 new_line_fb [] (Some x) true));; ret true
  end.

(** [cli1_cmd_add]; [alloc]: does the allocation succeed. *)
Definition cli1_cmd_add (alloc : bool) (name : text) (run : option Z) (cbarg : Z) (detail : option text) : C Z :=
  if (Z.of_nat (length name) <=? 0) || bool_decide (run = None) then ret (-1) else
  do g <- gets console;
  match g with
  | None => ret (-1)
  | Some c =>
      match cli_lut_find (cmds c) name with
      | Some _ => ret (-1)
      | None =>
          if negb alloc then ret (-1) else
          let cmd := CliCmd name run cbarg detail in
          (do h <- gets cmd_heap; set_heap (cmd :: h));;
          set_console (Some (Cli1 (line_fb c) (cli_cmdq_add (cmds c) cmd) (fd c) (ev c)));; ret 0
      end
  end.
