(* ===== verification/CliSpec.v ===== *)
(** CliSpec: the console delivers lines whole however they arrive, dispatches
    the words of a line, keeps its register of commands as a map and gives
    everything back. *)

From Stdlib Require Import Sorting.Sorted.
From S2P Require Import Prelude Buf Eff ByteStr Cli.

Open Scope eff_scope.

(* ------------------------------------------------------------------ *)
(** ** Lines *)

(** The lines of a text, each with its newline, and what follows the last. *)
Fixpoint lines (l : text) : list text * text :=
  match l with
  | [] => ([], [])
  | b :: l' =>
      let (ls, t) := lines l' in
      if b =? 10 then ([b] :: ls, t) else
      match ls with [] => ([], b :: t) | x :: xs => ((b :: x) :: xs, t) end
  end.

Definition no_lf (l : text) : Prop := Forall (fun b => b <> 10) l.

Lemma find_lf_none l : find_lf l = None <-> no_lf l.
Proof.
  induction l as [|b l IH]; cbn; [split; [constructor | done] | ]. destruct (Z.eqb_spec b 10) as [-> | Hb].
  - split; [done | intros H; by inversion H].
  - destruct (find_lf l); cbn.
    + split; [done | ]. intros H. inversion H; subst. apply IH in H3. done.
    + split; [intros _; constructor; [done | by apply IH] | done].
Qed.

Lemma find_lf_app a b : no_lf a -> find_lf (a ++ b) = (i ← find_lf b; Some (Z.of_nat (length a) + i)).
Proof.
  induction 1 as [|x a Hx _ IH]; [cbn [app length]; by destruct (find_lf b) | ].
  cbn [app find_lf]. rewrite (proj2 (Z.eqb_neq _ _) Hx), IH. destruct (find_lf b); [ | done].
  cbn. f_equal. lia.
Qed.

Lemma lines_no_lf l : no_lf l -> lines l = ([], l).
Proof.
  induction 1 as [|b l Hb _ IH]; [done | ]. cbn. by rewrite IH, (proj2 (Z.eqb_neq _ _) Hb).
Qed.

Lemma lines_app a b : no_lf a ->
  lines (a ++ 10 :: b) = ((a ++ [10]) :: (lines b).1, (lines b).2).
Proof.
  induction 1 as [|x a Hx _ IH].
  - cbn. by destruct (lines b).
  - cbn. by rewrite IH, (proj2 (Z.eqb_neq _ _) Hx).
Qed.

Lemma find_lf_some l i : find_lf l = Some i ->
  exists a b, l = a ++ 10 :: b /\ no_lf a /\ Z.of_nat (length a) = i.
Proof.
  revert i. induction l as [|x l IH]; intros i; cbn; [done | ]. destruct (Z.eqb_spec x 10) as [-> | Hx].
  - intros [= <-]. exists [], l. split_and!; [done | constructor | done].
  - destruct (find_lf l) as [j|]; [ | done]. intros [= <-]. destruct (IH j eq_refl) as (a & b & -> & Ha & <-).
    exists (x :: a), b. split_and!; [done | by constructor | cbn; lia].
Qed.

(** Lines come one after the other. *)
Lemma lines_split a b : lines (a ++ b) = ((lines a).1 ++ (lines ((lines a).2 ++ b)).1, (lines ((lines a).2 ++ b)).2).
Proof.
  induction a as [|x a IH]; [cbn; by destruct (lines b) | ]. cbn [app lines]. rewrite IH. clear IH.
  destruct (lines a) as [ls t]. cbn [fst snd]. destruct (lines (t ++ b)) as [ls2 t2] eqn:Ht. cbn [fst snd].
  destruct (Z.eqb_spec x 10) as [-> | Hx]; cbn [fst snd].
  - by rewrite Ht.
  - destruct ls as [|y ls]; cbn [app fst snd].
    + cbn [lines]. rewrite Ht, (proj2 (Z.eqb_neq _ _) Hx). by destruct ls2.
    + by rewrite Ht.
Qed.

Lemma lines_tail l : no_lf (lines l).2.
Proof.
  induction l as [|b l IH]; cbn; [constructor | ]. destruct (lines l) as [[|x ls] t]; cbn in *;
    destruct (Z.eqb_spec b 10); cbn; try done. by constructor.
Qed.

(* ------------------------------------------------------------------ *)
(** ** One line *)

Lemma mem_spec b l : mem b l = true <-> b ∈ l.
Proof.
  induction l as [|x l IH]; [split; [done | intros H; by apply not_elem_of_nil in H] | ].
  change (mem b (x :: l)) with ((b =? x) || mem b l). by rewrite orb_true_iff, Z.eqb_eq, IH, elem_of_cons.
Qed.

Lemma trim_start_head l b l' : trim_start l = b :: l' -> graphic b = true.
Proof.
  induction l as [|x l IH]; cbn; [done | ]. destruct (graphic x) eqn:Hx; [by intros [= -> ->] | done].
Qed.

Lemma trim_start_suffix l : exists p, l = p ++ trim_start l /\ Forall (fun b => graphic b = false) p.
Proof.
  induction l as [|b l (p & E & H)]; [by exists [] | ]. cbn. destruct (graphic b) eqn:Hb; [by exists [] | ].
  exists (b :: p). split; [cbn; by rewrite <- E | by constructor].
Qed.

Lemma trim_end_prefix l : exists s, l = trim_end l ++ s /\ Forall (fun b => graphic b = false) s.
Proof.
  unfold trim_end. destruct (trim_start_suffix (rev l)) as (p & E & H). exists (rev p).
  split; [ | by apply Forall_rev]. rewrite <- rev_app_distr, <- E. by rewrite rev_involutive.
Qed.

Lemma graphic_ok b : graphic b = true -> b <> 0 /\ mem b aloe_str_sep = false.
Proof.
  unfold graphic, isprint. intros H. apply andb_prop in H as [H1 H2]. apply andb_prop in H1 as [H1 H3].
  split; [lia | by apply negb_true_iff in H2].
Qed.

(** The trimmed line starts with a token. *)
Lemma line_trim_head line l : cli_line_trim line = Some l -> exists b l', l = b :: l' /\ graphic b = true.
Proof.
  unfold cli_line_trim. destruct (trim_start line) as [|b l0] eqn:Hs; [done | ].
  pose proof (trim_start_head _ _ _ Hs) as Hb. destruct (trim_end_prefix (b :: l0)) as (s & E & H).
  destruct (trim_end (b :: l0)) as [|c l'] eqn:He; [done | ]. intros [= <-]. injection E as -> _. by exists c, l'.
Qed.

Lemma input_line_total q line : exists o, cli_input_line q line = Some o.
Proof.
  unfold cli_input_line. destruct (cli_line_trim line) as [l|] eqn:Ht; [ | by eexists].
  destruct (LINE_BUF <=? _); [by eexists | ]. destruct (line_trim_head _ _ Ht) as (b & l' & -> & Hb).
  destruct (graphic_ok b Hb) as [H0 Hm]. cbn [c_str]. rewrite (proj2 (Z.eqb_neq _ _) H0).
  unfold ARGV. cbn [aloe_cli_tok]. unfold strtok_r. cbn [skip_sep]. rewrite Hm. cbn [span_tok]. rewrite Hm.
  destruct (span_tok aloe_str_sep (c_str l')). cbn [head mbind option_bind]. by eexists.
Qed.

(** What a line leads to, as computed. *)
Definition led_to (q : cmdq) (line : text) : outcome := default Blank (cli_input_line q line).

Lemma input_line_dispatch q line : cli_input_line q line = Some (led_to q line).
Proof. unfold led_to. by destruct (input_line_total q line) as [o ->]. Qed.

(* ------------------------------------------------------------------ *)
(** ** A buffer full of lines *)

Lemma slice_mid (a l b : text) : slice (a ++ l ++ b) (Z.of_nat (length a)) (Z.of_nat (length l)) = l.
Proof. unfold slice. by rewrite !Nat2Z.id, drop_app_length, take_app_length. Qed.

(** The bytes of the buffer: what was seen, the rest, and what is free. *)
Lemma line_loop_ok q rest : forall fuel seen free outs, (length rest <= fuel)%nat ->
  exists start, line_loop fuel q (seen ++ rest ++ free) (Z.of_nat (length (seen ++ rest))) (Z.of_nat (length seen))
      (i ← find_lf rest; Some (Z.of_nat (length seen) + i)) outs =
    Some (start, outs ++ map (led_to q) (lines rest).1) /\
    start = Z.of_nat (length (seen ++ rest)) - Z.of_nat (length (lines rest).2).
Proof.
  intros fuel. revert rest. induction fuel as [|fuel IH]; intros rest seen free outs Hf.
  - destruct rest as [|b rest]; [ | cbn in Hf; lia]. cbn [find_lf mbind option_bind lines fst snd map line_loop].
    eexists. rewrite app_nil_r. split; [done | ]. rewrite app_nil_r. cbn. lia.
  - destruct (find_lf rest) as [i|] eqn:Hi.
    2: { apply find_lf_none in Hi. cbn [mbind option_bind line_loop]. eexists.
         rewrite (lines_no_lf _ Hi). cbn [fst snd map]. rewrite app_nil_r. split; [done | ].
         rewrite length_app. lia. }
    destruct (find_lf_some _ _ Hi) as (a & b & -> & Ha & <-). rewrite (lines_app _ _ Ha). cbn [fst snd map].
    set (n := Z.of_nat (length seen)). set (m := Z.of_nat (length a)). cbn [mbind option_bind line_loop].
    assert (Hd : seen ++ (a ++ 10 :: b) ++ free = seen ++ (a ++ [10]) ++ b ++ free) by (by rewrite <- !app_assoc).
    replace (n + m - n + 1) with (Z.of_nat (length (a ++ [10]))) by (rewrite length_app; cbn; unfold m; lia).
    rewrite Hd. change n with (Z.of_nat (length seen)).
    rewrite (load_Some _ (Z.of_nat (length seen))) by (rewrite ?length_app; cbn [length]; lia). rewrite slice_mid. cbn [mbind option_bind]. rewrite input_line_dispatch. cbn [mbind option_bind].
    replace (Z.of_nat (length seen) + m + 1) with (Z.of_nat (length (seen ++ a ++ [10]))) by (rewrite !length_app; cbn; unfold m; lia).
    assert (Hpos : Z.of_nat (length (seen ++ a ++ 10 :: b)) = Z.of_nat (length (seen ++ a ++ [10])) + Z.of_nat (length b))
      by (rewrite !length_app; cbn [length]; lia).
    destruct (Z.leb_spec (Z.of_nat (length (seen ++ a ++ 10 :: b))) (Z.of_nat (length (seen ++ a ++ [10])))) as [Hle | Hlt].
    + destruct b; [ | cbn [length] in Hpos; lia]. cbn [lines fst snd map]. eexists. split; [done | ].
      rewrite Hpos. cbn. lia.
    + rewrite load_Some by (rewrite ?length_app in *; cbn [length] in *; lia).
      rewrite Hpos. replace (Z.of_nat (length (seen ++ a ++ [10])) + Z.of_nat (length b) - Z.of_nat (length (seen ++ a ++ [10])))
        with (Z.of_nat (length b)) by lia.
      assert (Hd2 : seen ++ (a ++ [10]) ++ b ++ free = (seen ++ a ++ [10]) ++ b ++ free) by (by rewrite <- !app_assoc).
      rewrite Hd2, slice_mid. cbn [mbind option_bind].
      destruct (IH b (seen ++ a ++ [10]) free (outs ++ [led_to q (a ++ [10])])) as (start & E & Hs).
      { rewrite length_app in Hf. cbn in Hf. lia. }
      rewrite length_app, Nat2Z.inj_add in E, Hs. rewrite E. eexists. split; [by rewrite <- app_assoc | ]. lia.
Qed.

Lemma lines_concat l : concat (lines l).1 ++ (lines l).2 = l.
Proof.
  induction l as [|b l IH]; [done | ]. cbn [lines]. destruct (lines l) as [ls t]. cbn [fst snd] in IH.
  destruct (Z.eqb_spec b 10) as [-> | Hb]; cbn [fst snd concat app]; [by rewrite IH | ].
  destruct ls as [|x ls]; cbn in *; by rewrite IH.
Qed.

Record holds (fb : abuf) (c : text) : Prop := Holds {
  h_data : exists free, data fb = Some (c ++ free) /\ Z.of_nat (length (c ++ free)) = LINE_FB;
  h_cap : cap fb = LINE_FB;
  h_pos : pos fb = Z.of_nat (length c);
  h_lf : no_lf c;
  h_room : Z.of_nat (length c) < LINE_FB }.

Lemma new_holds : holds new_line_fb [].
Proof. split; try done; [ | constructor]. by eexists. Qed.

(** A text stored over the start of the buffer, with a NUL after it. *)
Lemma store_start d t : Z.of_nat (length d) = LINE_FB -> Z.of_nat (length t) < LINE_FB ->
  exists d1 d2 free, blit d 0 t = Some d1 /\ upd d1 (Z.of_nat (length t)) 0 = Some d2 /\
    d2 = t ++ free /\ Z.of_nat (length d2) = LINE_FB.
Proof.
  intros Hd Ht. destruct (blit_Some d 0 t) as (d1 & E1 & L1 & Hd1); [lia | lia | ].
  rewrite Z2Nat.inj_0, take_0, Nat.add_0_l in Hd1. cbn [app] in Hd1.
  exists d1. rewrite upd_Some by lia. eexists _, _. split; [done | ]. split; [done | ]. rewrite Nat2Z.id, length_insert. split; [ | lia].
  rewrite Hd1, insert_app_r_alt, Nat.sub_diag by lia. done.
Qed.

(** Bytes appended, with a NUL after them. *)
Lemma store_more c free bytes :
  Z.of_nat (length (c ++ free)) = LINE_FB -> Z.of_nat (length c) + Z.of_nat (length bytes) < LINE_FB ->
  exists d1 free', blit (c ++ free) (Z.of_nat (length c)) bytes = Some d1 /\
    upd d1 (Z.of_nat (length c) + Z.of_nat (length bytes)) 0 = Some ((c ++ bytes) ++ free') /\
    Z.of_nat (length ((c ++ bytes) ++ free')) = LINE_FB.
Proof.
  intros Hd Hl. rewrite length_app in Hd. destruct (blit_Some (c ++ free) (Z.of_nat (length c)) bytes) as (d1 & E1 & L1 & Hd1);
    [lia | rewrite length_app; lia | ].
  rewrite Nat2Z.id, take_app_length in Hd1. exists d1. rewrite upd_Some by (rewrite L1, length_app; lia).
  replace (Z.to_nat (Z.of_nat (length c) + Z.of_nat (length bytes))) with (length (c ++ bytes)) by (rewrite length_app; lia).
  eexists. split; [done | ]. rewrite Hd1, app_assoc, insert_app_r_alt, Nat.sub_diag by lia. split; [done | ].
  rewrite length_app, length_insert, length_drop, !length_app. lia.
Qed.

Lemma cli_input_ok q fb c bytes :
  holds fb c -> Z.of_nat (length c) + Z.of_nat (length bytes) < LINE_FB ->
  exists fb', cli_input q fb bytes = Some (fb', map (led_to q) (lines (c ++ bytes)).1) /\ holds fb' (lines (c ++ bytes)).2.
Proof.
  intros [(free & Hd & Hlen) Hcap Hpos Hlf Hroom] Hl. unfold cli_input. rewrite Hcap, Hpos.
  rewrite (proj2 (Z.leb_gt _ _)) by lia. rewrite Hd. cbn [mbind option_bind].
  destruct (store_more c free bytes Hlen Hl) as (d1 & free' & -> & E2 & L2). cbn [mbind option_bind]. rewrite E2.
  cbn [mbind option_bind]. rewrite load_Some by (rewrite !length_app in *; lia).
  rewrite <- app_assoc, slice_mid. cbn [mbind option_bind].
  assert (Hfind : (i ← find_lf bytes; Some (Z.of_nat (length c) + i)) = find_lf (c ++ bytes)) by (by rewrite find_lf_app).
  rewrite Hfind.
  destruct (line_loop_ok q (c ++ bytes) (length (c ++ bytes ++ free')) [] free' []) as (start & E & Hs);
    [rewrite !length_app; lia | ].
  cbn [app length] in E, Hs. rewrite <- app_assoc in E. change (Z.of_nat 0) with 0 in E.
  replace (i ← find_lf (c ++ bytes); Some (0 + i)) with (find_lf (c ++ bytes)) in E by (by destruct (find_lf (c ++ bytes))).
  replace (Z.of_nat (length (c ++ bytes))) with (Z.of_nat (length c) + Z.of_nat (length bytes)) in E, Hs by (rewrite length_app; lia).
  rewrite E. cbn [mbind option_bind].
  pose proof (lines_concat (c ++ bytes)) as Hcat. pose proof (lines_tail (c ++ bytes)) as Htail.
  set (ls := (lines (c ++ bytes)).1) in *. set (t := (lines (c ++ bytes)).2) in *.
  assert (Hn : Z.of_nat (length c) + Z.of_nat (length bytes) = Z.of_nat (length (concat ls)) + Z.of_nat (length t))
    by (rewrite <- !Nat2Z.inj_add, <- !length_app; by rewrite Hcat).
  rewrite app_assoc. set (d := (c ++ bytes) ++ free') in *.
  destruct (Z.leb_spec (Z.of_nat (length c) + Z.of_nat (length bytes)) start) as [H1 | H1].
  - assert (Ht : t = []) by (destruct t; [done | cbn in *; lia]). rewrite upd_Some by lia. cbn [mbind option_bind].
    eexists. split; [done | ]. rewrite Ht. split; try done; [ | constructor].
    exists (<[Z.to_nat 0 := 0]> d). split; [done | ]. change ([] ++ ?x) with x. by rewrite length_insert.
  - destruct (Z.ltb_spec 0 start) as [H2 | H2].
    + rewrite load_Some by lia. assert (Hsl : slice d start (Z.of_nat (length c) + Z.of_nat (length bytes) - start) = t).
      { unfold d. rewrite <- Hcat, <- app_assoc. replace start with (Z.of_nat (length (concat ls))) by lia.
        replace (_ - _) with (Z.of_nat (length t)) by lia. apply slice_mid. }
      rewrite Hsl. cbn [mbind option_bind].
      destruct (store_start d t L2) as (d2 & d3 & fr & -> & E3 & Hd3 & L3); [lia | ]. cbn [mbind option_bind].
      replace (Z.of_nat (length c) + Z.of_nat (length bytes) - start) with (Z.of_nat (length t)) by lia.
      rewrite E3. cbn [mbind option_bind]. eexists. split; [done | ]. split; cbn; try done; try lia.
      exists fr. by rewrite <- Hd3.
    + assert (Hc : concat ls = []) by (destruct (concat ls); [done | cbn [length] in Hn; lia]).
      rewrite Hc in Hcat. cbn [app] in Hcat. eexists. split; [done | ]. rewrite Hcat. rewrite Hcat in Htail.
      split; cbn; try done; [by exists free' | rewrite length_app; lia | rewrite length_app; lia].
Qed.

(* ------------------------------------------------------------------ *)
(** ** However it arrives *)

Fixpoint cli_reads (q : cmdq) (fb : abuf) (chunks : list text) : option (abuf * list outcome) :=
  match chunks with
  | [] => Some (fb, [])
  | c :: chunks' =>
      '(fb, outs) ← cli_input q fb c;
      '(fb, outs') ← cli_reads q fb chunks';
      Some (fb, outs ++ outs')
  end.

(** Lines of 1024 bytes at most, newline aside. *)
Definition short (l : text) : Prop :=
  Forall (fun x => (length x <= 1025)%nat) (lines l).1 /\ (length (lines l).2 <= 1024)%nat.

Lemma short_prefix a b : short (a ++ b) -> (length (lines a).2 <= 1024)%nat /\ short ((lines a).2 ++ b).
Proof.
  unfold short. rewrite lines_split. cbn [fst snd]. pose proof (lines_tail a) as Ht.
  set (t := (lines a).2) in *. intros [H1 H2]. apply Forall_app in H1 as [_ H1]. split; [ | done].
  destruct (find_lf b) as [i|] eqn:Hb.
  - destruct (find_lf_some _ _ Hb) as (x & y & -> & Hx & _).
    assert (Htx : no_lf (t ++ x)) by (by apply Forall_app).
    rewrite app_assoc, (lines_app _ _ Htx) in H1. inversion H1 as [|? ? Hl _]; subst.
    rewrite !length_app in Hl. cbn in Hl. lia.
  - apply find_lf_none in Hb. assert (Htb : no_lf (t ++ b)) by (by apply Forall_app).
    rewrite (lines_no_lf _ Htb) in H2. cbn in H2. rewrite length_app in H2. lia.
Qed.

Lemma cli_reads_ok q chunks : Forall (fun c => (length c <= 1023)%nat) chunks -> forall fb c,
  holds fb c -> short (c ++ concat chunks) -> (length c <= 1024)%nat ->
  exists fb', cli_reads q fb chunks = Some (fb', map (led_to q) (lines (c ++ concat chunks)).1) /\
    holds fb' (lines (c ++ concat chunks)).2.
Proof.
  induction 1 as [|x chunks Hx _ IH]; intros fb c H Hs Hc.
  - cbn [concat cli_reads]. rewrite app_nil_r. rewrite (lines_no_lf c) by (by destruct H). by exists fb.
  - cbn [concat cli_reads]. cbn [concat] in Hs. rewrite app_assoc in Hs |- *.
    destruct (cli_input_ok q fb c x H) as (fb1 & -> & H1); [unfold LINE_FB; lia | ].
    destruct (short_prefix _ _ Hs) as [Hl Hs1].
    destruct (IH fb1 _ H1 Hs1 Hl) as (fb2 & E & H2). cbn [mbind option_bind]. rewrite E. cbn [mbind option_bind].
    exists fb2. rewrite (lines_split (c ++ x)). cbn [fst snd]. by rewrite map_app.
Qed.

(* ------------------------------------------------------------------ *)
(** ** Words *)

Definition word (w : text) : Prop := w <> [] /\ Forall (fun b => graphic b = true) w.
Definition blank (s : text) : Prop := s <> [] /\ Forall (fun b => b ∈ aloe_str_sep) s.

(** Words each with the blanks after it. *)
Definition sentence (l : list (text * text)) : text := concat (map (fun x => x.1 ++ x.2) l).

Lemma skip_blank s r : Forall (fun b => b ∈ aloe_str_sep) s -> skip_sep aloe_str_sep (s ++ r) = skip_sep aloe_str_sep r.
Proof. induction 1 as [|b s Hb _ IH]; [done | ]. cbn [app skip_sep]. by rewrite (proj2 (mem_spec _ _) Hb). Qed.

Lemma skip_word b w r : graphic b = true -> skip_sep aloe_str_sep (b :: w ++ r) = b :: w ++ r.
Proof. intros Hb. cbn [skip_sep]. by rewrite (proj2 (graphic_ok _ Hb)). Qed.

Lemma span_word w s r : Forall (fun b => graphic b = true) w -> blank s ->
  exists s', span_tok aloe_str_sep (w ++ s ++ r) = (w, s' ++ r) /\ Forall (fun b => b ∈ aloe_str_sep) s'.
Proof.
  intros Hw [Hs1 Hs2]. induction Hw as [|b w Hb _ IH].
  - destruct s as [|b s]; [done | ]. inversion Hs2; subst. exists s. cbn [app span_tok].
    by rewrite (proj2 (mem_spec _ _)).
  - destruct IH as (s' & E & Hs'). exists s'. cbn [app span_tok]. rewrite (proj2 (graphic_ok _ Hb)), E. done.
Qed.

Lemma span_last w : Forall (fun b => graphic b = true) w -> span_tok aloe_str_sep w = (w, []).
Proof. induction 1 as [|b w Hb _ IH]; [done | ]. cbn [span_tok]. by rewrite (proj2 (graphic_ok _ Hb)), IH. Qed.

Lemma tok_none k : aloe_cli_tok k aloe_str_sep [] = [].
Proof. by destruct k. Qed.

Lemma tok_sentence w l : word w -> Forall (fun x => word x.1 /\ blank x.2) l -> forall k pre,
  Forall (fun b => b ∈ aloe_str_sep) pre ->
  aloe_cli_tok k aloe_str_sep (pre ++ sentence l ++ w) = take k (map fst l ++ [w]).
Proof.
  intros [Hw Hg]. induction 1 as [|[v s] l [[Hv1 Hv2] Hb] _ IH]; intros [|k] pre Hpre; try done;
    cbn [aloe_cli_tok]; unfold strtok_r; rewrite skip_blank by done; unfold sentence; cbn [map concat fst snd app].
  - destruct w as [|b w]; [done | ]. inversion Hg as [|? ? Hb Hg']; subst.
    pose proof (skip_word b w [] Hb) as Hk. rewrite app_nil_r in Hk. rewrite Hk, span_last by done.
    rewrite tok_none. by destruct k.
  - fold (sentence l). rewrite <- !app_assoc.
    cbn [fst snd] in *. destruct v as [|b v]; [done | ]. inversion Hv2 as [|? ? Hgb Hv3]; subst.
    cbn [app]. rewrite (skip_word b v (s ++ sentence l ++ w) Hgb).
    destruct (span_word (b :: v) s (sentence l ++ w) Hv2 Hb) as (s' & E & Hs'). cbn [app] in E. rewrite E.
    cbn [take]. f_equal. by apply IH.
Qed.

(* ------------------------------------------------------------------ *)
(** ** What a line means *)

(** The visible characters of ASCII: "!" to "~". *)
Definition visible (b : Z) : bool := (33 <=? b) && (b <=? 126).
Definition parting (b : Z) : bool := (b =? 32) || (b =? 13) || (b =? 10) || (b =? 9).

(** From the first visible character to the last. *)
Fixpoint from_visible (l : text) : text :=
  match l with [] => [] | b :: l' => if visible b then l else from_visible l' end.
Fixpoint to_visible (l : text) : text :=
  match l with
  | [] => []
  | b :: l' => match to_visible l' with [] => if visible b then [b] else [] | r => b :: r end
  end.

(** The words are what blanks, CR, LF and tabs part. *)
Fixpoint parted (s : text) : list text :=
  match s with
  | [] => [[]]
  | b :: s' =>
      if parting b then [] :: parted s' else
      match parted s' with [] => [[b]] | w :: ws => (b :: w) :: ws end
  end.
Definition words (s : text) : list text := filter (fun w => w <> []) (parted s).

(** The command of a name: the built-in one whatever the case of the letters,
    else the registered one of exactly that name. *)
Definition command (q : cmdq) (s : text) : option cli_cmd :=
  if bool_decide (map tolower s = help_name) then head cli_lut
  else List.find (fun c => bool_decide (str c = s)) q.

(** Nothing visible does nothing; up to 1023 bytes, trimmed, run the command of
    the first word with the first nineteen words; more are refused. *)
Definition dispatch (q : cmdq) (line : text) : outcome :=
  let l := to_visible (from_visible line) in
  match l with
  | [] => Blank
  | _ =>
      if bool_decide (1023 < length l)%nat then TooLong else
      let argv := take 19 (words (c_str l)) in
      let name := hd [] argv in
      match command q name with Some c => Ran c argv | None => NotFound name end
  end.

Lemma sep_parting b : mem b aloe_str_sep = parting b.
Proof. unfold parting. cbn. by rewrite orb_false_r, !orb_assoc. Qed.

Lemma graphic_visible b : graphic b = visible b.
Proof. unfold graphic, isprint, visible. rewrite sep_parting. unfold parting. lia. Qed.

Lemma trim_start_spec l : trim_start l = from_visible l.
Proof. induction l as [|b l IH]; [done | ]. cbn. by rewrite graphic_visible, IH. Qed.

Lemma to_visible_app l b : to_visible (l ++ [b]) = if visible b then l ++ [b] else to_visible l.
Proof.
  induction l as [|x l IH]; [by cbn | ]. cbn [app to_visible]. rewrite IH. destruct (visible b); [ | done].
  by destruct l.
Qed.

Lemma trim_end_spec l : trim_end l = to_visible l.
Proof.
  induction l as [|b l IH] using rev_ind; [done | ]. rewrite to_visible_app, <- graphic_visible.
  unfold trim_end in *. rewrite rev_app_distr. cbn [rev app trim_start]. destruct (graphic b); [ | done].
  cbn [rev]. by rewrite rev_involutive.
Qed.

Lemma span_parted s t r : span_tok aloe_str_sep s = (t, r) -> parted s = t :: parted r \/ parted s = [t] /\ r = [].
Proof.
  revert t r. induction s as [|b s IH]; intros t r; cbn [span_tok parted]; [intros [= <- <-]; by right | ].
  rewrite sep_parting. destruct (parting b); [intros [= <- <-]; by left | ].
  destruct (span_tok aloe_str_sep s) as [t' r'] eqn:E. intros [= <- <-].
  destruct (IH t' r' eq_refl) as [-> | [-> ->]]; [by left | by right].
Qed.

Lemma span_words s t r : span_tok aloe_str_sep s = (t, r) -> t <> [] -> words s = t :: words r.
Proof.
  intros H Ht. unfold words. destruct (span_parted s t r H) as [-> | [-> ->]]; by rewrite filter_cons_True.
Qed.

Lemma skip_words s : words (skip_sep aloe_str_sep s) = words s.
Proof.
  induction s as [|b s IH]; [done | ]. cbn [skip_sep]. destruct (mem b aloe_str_sep) eqn:Hb; [ | done].
  rewrite IH. unfold words. cbn [parted]. rewrite <- sep_parting, Hb. by rewrite filter_cons_False by auto.
Qed.

Lemma skip_head s b r : skip_sep aloe_str_sep s = b :: r -> mem b aloe_str_sep = false.
Proof.
  induction s as [|x s IH]; [done | ]. cbn [skip_sep]. destruct (mem x aloe_str_sep) eqn:Hx; [done | ].
  by intros [= -> ->].
Qed.

Lemma tok_words k : forall s, aloe_cli_tok k aloe_str_sep s = take k (words s).
Proof.
  induction k as [|k IH]; intros s; [done | ]. cbn [aloe_cli_tok]. unfold strtok_r. rewrite <- (skip_words s).
  destruct (skip_sep aloe_str_sep s) as [|b r] eqn:Hs; [done | ]. pose proof (skip_head _ _ _ Hs) as Hb.
  destruct (span_tok aloe_str_sep (b :: r)) as [t r'] eqn:Ht. rewrite IH, (span_words _ _ _ Ht); [done | ].
  cbn [span_tok] in Ht. rewrite Hb in Ht. destruct (span_tok aloe_str_sep r). by injection Ht as <- _.
Qed.

(** A line of words is trimmed to its words, which are whole unless it is too
    long. *)
Lemma trim_start_skip p l : Forall (fun b => graphic b = false) p -> trim_start (p ++ l) = trim_start l.
Proof. induction 1 as [|b p Hb _ IH]; [done | ]. cbn. by rewrite Hb. Qed.

Lemma trim_end_skip l s : Forall (fun b => graphic b = false) s -> trim_end (l ++ s) = trim_end l.
Proof. intros H. unfold trim_end. rewrite rev_app_distr, trim_start_skip; [done | by apply Forall_rev]. Qed.

Lemma trim_end_id l b : graphic b = true -> trim_end (l ++ [b]) = l ++ [b].
Proof.
  intros Hb. unfold trim_end. rewrite rev_app_distr. cbn [rev app trim_start]. rewrite Hb. cbn [rev].
  by rewrite rev_involutive.
Qed.

Lemma sep_not_graphic b : b ∈ aloe_str_sep -> graphic b = false.
Proof. intros H. unfold graphic. by rewrite (proj2 (mem_spec _ _) H), andb_false_r. Qed.

Lemma sentence_chars l w : word w -> Forall (fun x => word x.1 /\ blank x.2) l ->
  Forall (fun b => b <> 0) (sentence l ++ w) /\
  (exists b r, sentence l ++ w = b :: r /\ graphic b = true) /\
  (exists r b, sentence l ++ w = r ++ [b] /\ graphic b = true).
Proof.
  intros [Hw Hg] Hl. split_and!.
  - apply Forall_app. split; [ | eapply Forall_impl; [exact Hg | intros b Hb; by apply graphic_ok]].
    unfold sentence. apply Forall_concat, Forall_map. eapply Forall_impl; [exact Hl | ].
    intros [v s] [[_ Hv] [_ Hs]]. cbn [fst snd] in *. apply Forall_app. split.
    + eapply Forall_impl; [exact Hv | intros b Hb; by apply graphic_ok].
    + eapply Forall_impl; [exact Hs | ]. intros b Hb ->. unfold aloe_str_sep in Hb.
      repeat (apply elem_of_cons in Hb as [Hb | Hb]; [done | ]). by apply not_elem_of_nil in Hb.
  - destruct l as [|[v s] l].
    + destruct w as [|b w]; [done | ]. inversion Hg; subst. by exists b, w.
    + inversion Hl as [|? ? [[Hv Hv2] _] _]; subst. cbn [fst snd] in *. destruct v as [|b v]; [done | ].
      inversion Hv2; subst. unfold sentence. cbn [map concat fst snd app]. by eexists b, _.
  - destruct (exists_last Hw) as (r & b & ->). apply Forall_app in Hg as [_ Hg]. inversion Hg; subst.
    exists (sentence l ++ r), b. by rewrite app_assoc.
Qed.

Lemma dispatch_sentence q pre l w post :
  word w -> Forall (fun x => word x.1 /\ blank x.2) l ->
  Forall (fun b => graphic b = false) pre -> Forall (fun b => graphic b = false) post ->
  (length (sentence l ++ w) < 1024)%nat ->
  let argv := take ARGV (map fst l ++ [w]) in
  let name := hd [] argv in
  led_to q (pre ++ (sentence l ++ w) ++ post) =
    match cli_lut_find q name with Some c => Ran c argv | None => NotFound name end.
Proof.
  intros Hw Hl Hpre Hpost Hlen argv name. unfold led_to, cli_input_line, cli_line_trim.
  destruct (sentence_chars l w Hw Hl) as (Hnz & (b & r & Hfirst & Hb) & (r' & b' & Hlast & Hb')).
  rewrite trim_start_skip by done.
  assert (Hts : trim_start ((sentence l ++ w) ++ post) = (sentence l ++ w) ++ post).
  { rewrite Hfirst. cbn [app trim_start]. by rewrite Hb. }
  rewrite Hts. assert (Hte : trim_end ((sentence l ++ w) ++ post) = sentence l ++ w).
  { rewrite trim_end_skip by done. rewrite Hlast. by apply trim_end_id. }
  assert (Hx : (sentence l ++ w) ++ post = b :: r ++ post) by (by rewrite Hfirst).
  rewrite Hx in Hte |- *. rewrite Hte, Hfirst. rewrite Hfirst in Hlen, Hnz.
  rewrite (proj2 (Z.leb_gt _ _)) by (unfold LINE_BUF; lia). rewrite (c_str_id _ Hnz).
  pose proof (tok_sentence w l Hw Hl ARGV [] (Forall_nil_2 _)) as Ht. cbn [app] in Ht. rewrite Hfirst in Ht. rewrite Ht.
  fold argv. assert (Hname : head argv = Some name).
  { unfold name, argv, ARGV. by destruct l. }
  rewrite Hname. cbn [mbind option_bind default]. done.
Qed.

(* ------------------------------------------------------------------ *)
(** ** The register *)

Definition before (c d : cli_cmd) : Prop := strcmp (str c) (str d) = Lt.
Definition sorted (q : cmdq) : Prop := StronglySorted before q.

Lemma find_before q s : Forall (fun d => strcmp s (str d) = Lt) q -> cli_cmdq_find q s = None.
Proof. intros H. destruct q as [|d q]; [done | ]. inversion H as [|? ? Hd _]; subst. cbn. by rewrite Hd. Qed.

Lemma before_all q c d : strcmp (str c) (str d) = Lt -> Forall (before d) q -> Forall (before c) q.
Proof. intros H Hd. eapply Forall_impl; [exact Hd | ]. intros e. by apply strcmp_trans. Qed.

(** The tree as a map: adding a name that is not there. *)
Lemma cmdq_add_ok q c : sorted q -> cli_cmdq_find q (str c) = None ->
  sorted (cli_cmdq_add q c) /\ cli_cmdq_add q c ≡ₚ c :: q /\
  (forall s, cli_cmdq_find (cli_cmdq_add q c) s = if decide (s = str c) then Some c else cli_cmdq_find q s).
Proof.
  induction 1 as [|d q Hq IH Hd]; intros Hf.
  - split_and!; [by repeat constructor | done | ]. intros s. cbn. destruct (decide (s = str c)) as [-> | Hs].
    + by rewrite (proj2 (strcmp_eq _ _) eq_refl).
    + destruct (strcmp s (str c)) eqn:E; try done. by apply strcmp_eq in E.
  - cbn in Hf |- *. destruct (strcmp (str c) (str d)) eqn:E; [done | | ].
    + split_and!; [ | done | ].
      * constructor; [by constructor | ]. constructor; [done | ]. by eapply before_all.
      * intros s. cbn. destruct (decide (s = str c)) as [-> | Hs]; [by rewrite (proj2 (strcmp_eq _ _) eq_refl) | ].
        destruct (strcmp s (str c)) eqn:Es; [by apply strcmp_eq in Es | | done].
        by rewrite (strcmp_trans _ _ _ Es E).
    + destruct (IH Hf) as (S1 & P1 & F1). split_and!.
      * constructor; [done | ]. rewrite P1. constructor; [ | done]. unfold before. by rewrite strcmp_opp, E.
      * rewrite P1. by constructor.
      * intros s. cbn. rewrite F1. destruct (decide (s = str c)) as [-> | Hs]; [ | done]. by rewrite E.
Qed.

Lemma sorted_names q : sorted q -> NoDup (map str q).
Proof.
  induction 1 as [|c q _ IH Hc]; [constructor | ]. cbn. constructor; [ | done].
  rewrite list_elem_of_In, in_map_iff. intros (d & Hd & Hin). rewrite <- list_elem_of_In in Hin.
  rewrite Forall_forall in Hc. specialize (Hc d Hin). unfold before in Hc. rewrite Hd in Hc.
  by rewrite (proj2 (strcmp_eq _ _) eq_refl) in Hc.
Qed.

Lemma sorted_find q s : sorted q -> cli_cmdq_find q s = List.find (fun c => bool_decide (str c = s)) q.
Proof.
  induction 1 as [|d q Hq IH Hd]; [done | ]. cbn [cli_cmdq_find List.find]. destruct (strcmp s (str d)) eqn:E.
  - apply strcmp_eq in E. by rewrite bool_decide_true.
  - rewrite bool_decide_false by (intros Hs; by rewrite (proj2 (strcmp_eq _ _) (eq_sym Hs)) in E).
    rewrite <- IH. symmetry. apply find_before. eapply Forall_impl; [exact Hd | ].
    intros e He. by eapply strcmp_trans.
  - rewrite bool_decide_false by (intros Hs; by rewrite (proj2 (strcmp_eq _ _) (eq_sym Hs)) in E). done.
Qed.

Lemma lut_command q s : sorted q -> cli_lut_find q s = command q s.
Proof.
  intros Hq. unfold cli_lut_find, command, strcase_eq, cli_lut. cbn [List.find str head].
  change (map tolower help_name) with help_name. destruct (bool_decide _); [done | by apply sorted_find].
Qed.

(** What is computed is what the line means. *)
Lemma led_to_dispatch q line : sorted q -> led_to q line = dispatch q line.
Proof.
  intros Hq. apply (inj Some). rewrite <- input_line_dispatch. unfold dispatch.
  destruct (input_line_total q line) as [o Ho]. revert Ho. unfold cli_input_line, cli_line_trim.
  rewrite trim_start_spec. destruct (from_visible line) as [|b0 l0]; [done | ]. rewrite trim_end_spec.
  destruct (to_visible (b0 :: l0)) as [|b l]; [done | ]. set (t := b :: l).
  destruct (Z.leb_spec LINE_BUF (Z.of_nat (length t))) as [Hl | Hl]; unfold LINE_BUF in Hl.
  - by rewrite bool_decide_true by lia.
  - rewrite bool_decide_false by lia. rewrite tok_words. change ARGV with 19%nat.
    destruct (take 19 (words (c_str t))) as [|w ws]; [done | ]. cbn. by rewrite lut_command.
Qed.

(* ------------------------------------------------------------------ *)
(** ** The console's life *)

(** A console in use: its commands are the ones allocated, its descriptor is
    open. *)
Record in_use (w : cworld) (c : cli1) (content : text) (others : list Z) : Prop := InUse {
  u_console : console w = Some c;
  u_fb : holds (line_fb c) content;
  u_sorted : sorted (cmds c);
  u_heap : cmd_heap w ≡ₚ cmds c;
  u_fd : exists x, fd c = Some x /\ x ∉ others /\ fds w ≡ₚ x :: others }.

(** One thing that happens to it: a command registered or bytes read. *)
Inductive happens : Type :=
  | Add (alloc : bool) (name : text) (run : option Z) (cbarg : Z) (detail : option text)
  | Read (l : text) | Nothing.

Definition happen (x : happens) : C unit :=
  match x with
  | Add a n r b d => cli1_cmd_add a n r b d;; ret tt
  | Read l => cli1_cb (Bytes l)
  | Nothing => cli1_cb Again
  end.
Fixpoint happen_all (l : list happens) : C unit :=
  match l with [] => ret tt | x :: l' => happen x;; happen_all l' end.

Lemma the_cli_ok w c : console w = Some c -> the_cli w = Done c w.
Proof. intros H. unfold the_cli, bind, gets. by rewrite H. Qed.

Lemma cli_input_safe q fb c bytes : holds fb c -> exists fb' outs c', cli_input q fb bytes = Some (fb', outs) /\ holds fb' c'.
Proof.
  intros H. destruct (decide (Z.of_nat (length c) + Z.of_nat (length bytes) < LINE_FB)) as [Hl | Hl].
  - destruct (cli_input_ok q fb c bytes H Hl) as (fb' & E & H'). eauto.
  - destruct H as [(free & Hd & Hlen) Hcap Hpos _ _]. unfold cli_input. rewrite Hcap, Hpos.
    rewrite (proj2 (Z.leb_le _ _)) by lia. eexists _, _, []. split; [done | ].
    split; cbn; try done; [ | constructor]. exists (c ++ free). by rewrite Hd.
Qed.

Lemma cmd_add_ok alloc name run cbarg detail w c content others : in_use w c content others ->
  exists r w' c', cli1_cmd_add alloc name run cbarg detail w = Done r w' /\ in_use w' c' content others /\
    (r = 0 /\ (forall s, cli_lut_find (cmds c') s =
       if decide (s = name) then Some (CliCmd name run cbarg detail) else cli_lut_find (cmds c) s) /\
     cli_lut_find (cmds c) name = None
     \/ r = -1 /\ w' = w /\ c' = c /\
       (name = [] \/ run = None \/ alloc = false \/ cli_lut_find (cmds c) name <> None)).
Proof.
  intros U. unfold cli1_cmd_add. destruct (Z.leb_spec (Z.of_nat (length name)) 0) as [Hn | Hn].
  { exists (-1), w, c. split; [done | ]. split; [done | ]. right. split_and!; try done. left. destruct name; [done | cbn in Hn; lia]. }
  destruct (bool_decide_reflect (run = None)) as [Hr | Hr]; cbn [orb].
  { exists (-1), w, c. split; [done | ]. split; [done | ]. right. split_and!; auto. }
  unfold bind at 1, gets. rewrite (u_console _ _ _ _ U). destruct (cli_lut_find (cmds c) name) as [d|] eqn:Hf.
  { exists (-1), w, c. split; [done | ]. split; [done | ]. right. split_and!; try done. by right; right; right. }
  destruct alloc; cbn [negb].
  2: { exists (-1), w, c. split; [done | ]. split; [done | ]. right. split_and!; auto. }
  set (cmd := CliCmd name run cbarg detail). eexists 0, _, (Cli1 (line_fb c) (cli_cmdq_add (cmds c) cmd) (fd c) (ev c)).
  split; [reflexivity | ]. pose proof Hf as Hf0. unfold cli_lut_find in Hf0.
  destruct (List.find _ cli_lut) as [h|] eqn:Hh; [done | ].
  destruct (cmdq_add_ok (cmds c) cmd (u_sorted _ _ _ _ U) Hf0) as (S1 & P1 & F1). split.
  - destruct U. split; cbn; try done. by rewrite P1, u_heap0.
  - left. split; [done | ]. split; [ | done]. intros s. cbn [cmds]. unfold cli_lut_find. rewrite F1.
    destruct (decide (s = name)) as [-> | Hs]; [ | by rewrite decide_False].
    by rewrite Hh, decide_True.
Qed.

Lemma happen_ok x w c content others : in_use w c content others ->
  exists w' c' content', happen x w = Done tt w' /\ in_use w' c' content' others.
Proof.
  intros U. destruct x as [a n r b d | l | ]; cbn [happen].
  - destruct (cmd_add_ok a n r b d w c content others U) as (v & w' & c' & E & U' & _).
    exists w', c', content. split; [ | done]. unfold bind. by rewrite E.
  - unfold cli1_cb. unfold bind at 1. rewrite (the_cli_ok _ _ (u_console _ _ _ _ U)).
    destruct (cli_input_safe (cmds c) (line_fb c) content l (u_fb _ _ _ _ U)) as (fb' & outs & c' & E & H').
    rewrite E. eexists _, (Cli1 fb' (cmds c) (fd c) (ev c)), c'. split; [reflexivity | ]. by destruct U.
  - by exists w, c, content.
Qed.

Lemma happen_all_ok l : forall w c content others, in_use w c content others ->
  exists w' c' content', happen_all l w = Done tt w' /\ in_use w' c' content' others.
Proof.
  induction l as [|x l IH]; intros w c content others U; [by exists w, c, content | ].
  destruct (happen_ok x w c content others U) as (w1 & c1 & t1 & E1 & U1). cbn [happen_all]. unfold bind at 1. rewrite E1.
  by eapply IH.
Qed.

Lemma close_ok x w others : x ∉ others -> fds w ≡ₚ x :: others ->
  exists l, close_fd x w = Done tt (CWorld (console w) (cmd_heap w) l (outs w)) /\ l ≡ₚ others.
Proof.
  intros Hx Hw. unfold close_fd, bind, gets. rewrite bool_decide_true by (rewrite Hw; by left).
  eexists. split; [reflexivity | ]. by apply filter_others.
Qed.

(** What [cli1_release] and [cli1_destroy] do at their end. *)
Lemma drop_ok w c others x :
  console w = Some c -> fd c = Some x -> x ∉ others -> fds w ≡ₚ x :: others ->
  exists w', (set_console (Some (Cli1 (line_fb c) (cmds c) (fd c) false));;
    (match fd c with Some x => close_fd x | None => ret tt end);; set_console None) w = Done tt w' /\
    console w' = None /\ cmd_heap w' = cmd_heap w /\ fds w' ≡ₚ others.
Proof.
  intros Hc -> Hx Hw. unfold bind, set_console, modify at 1. set (w1 := CWorld _ _ _ _).
  destruct (close_ok x w1 others Hx Hw) as (l & -> & Hl). eexists. split; [reflexivity | done].
Qed.

Lemma release_ok w c content others : in_use w c content others ->
  exists w', cli1_release w = Done tt w' /\ console w' = None /\ cmd_heap w' = cmd_heap w /\ fds w' ≡ₚ others.
Proof.
  intros U. unfold cli1_release. unfold bind at 1. rewrite (the_cli_ok _ _ (u_console _ _ _ _ U)).
  destruct (u_fd _ _ _ _ U) as (x & Hx & Hn & Hw). eapply drop_ok; try done. apply U.
Qed.

Lemma free_cmds_ok q : sorted q -> forall w, cmd_heap w ≡ₚ q ->
  destroy_cmds q w = Done tt (CWorld (console w) [] (fds w) (outs w)).
Proof.
  intros Hs. pose proof (sorted_names q Hs) as Hn. clear Hs. induction q as [|c q IH]; intros w Hw; cbn [destroy_cmds].
  - apply Permutation_nil_r in Hw. destruct w as [a h b o]; cbn in *. by subst.
  - cbn in Hn. apply NoDup_cons in Hn as [Hc Hn].
    assert (Hf : filter (fun d => str d <> str c) (cmd_heap w) ≡ₚ q).
    { rewrite Hw, filter_cons_False by auto. clear -Hc. induction q as [|d q IH]; [done | ]. cbn in Hc.
      apply not_elem_of_cons in Hc as [H1 H2]. rewrite filter_cons_True by auto. by rewrite IH. }
    unfold free_cmd. unfold bind at 1, bind at 1, gets.
    assert (Hex : existsb (fun d => bool_decide (str d = str c)) (cmd_heap w) = true).
    { apply existsb_exists. exists c. split; [rewrite <- list_elem_of_In, Hw; by left | by apply bool_decide_true]. }
    rewrite Hex. unfold set_heap, modify. by rewrite IH.
Qed.

Lemma cli_destroy_ok w c content others : in_use w c content others ->
  exists w', cli1_destroy w = Done tt w' /\ console w' = None /\ cmd_heap w' = [] /\ fds w' ≡ₚ others.
Proof.
  intros U. unfold cli1_destroy. unfold bind at 1. rewrite (the_cli_ok _ _ (u_console _ _ _ _ U)).
  unfold bind at 1. rewrite (free_cmds_ok _ (u_sorted _ _ _ _ U) w (u_heap _ _ _ _ U)).
  destruct (u_fd _ _ _ _ U) as (x & Hx & Hn & Hw).
  unfold bind at 1, set_console at 1, modify at 1. rewrite Hx. unfold bind at 1.
  match goal with |- context [close_fd x ?w1] => destruct (close_ok x w1 others Hn Hw) as (l & -> & Hl) end.
  eexists. split; [reflexivity | done].
Qed.

Definition no_console (others : list Z) : cworld := CWorld None [] others [].

Lemma init_ok a others : (forall x, s_dup a = Some x -> x ∉ others) ->
  exists r w', cli1_init a (no_console others) = Done r w' /\
    (if r : bool then exists c, in_use w' c [] others
     else console w' = None /\ cmd_heap w' = [] /\ fds w' ≡ₚ others).
Proof.
  intros Hdup. unfold cli1_init. destruct (s_mem a); cbn [negb]; [ | by exists false, (no_console others)].
  unfold bind at 1, set_console at 1, modify at 1. cbn [cmd_heap fds outs no_console].
  destruct (s_dup a) as [x|] eqn:Hd; [ | eexists false, _; split; [reflexivity | done]].
  specialize (Hdup x eq_refl). unfold bind at 1 2, gets, set_fds, modify. cbn [fds].
  unfold bind at 1, set_console at 1, modify. cbn [console cmd_heap fds outs].
  set (w1 := CWorld _ _ _ _).
  assert (U : in_use w1 (Cli1 new_line_fb [] (Some x) false) [] others).
  { split; try done; [apply new_holds | constructor | by exists x]. }
  destruct (release_ok _ _ _ _ U) as (w2 & E2 & H1 & H2 & H3).
  assert (Hrel : forall b : bool, exists r w', (cli1_release;; ret b) w1 = Done r w' /\ r = b /\
    console w' = None /\ cmd_heap w' = [] /\ fds w' ≡ₚ others).
  { intros b. exists b, w2. unfold bind. rewrite E2. split_and!; try done. }
  destruct (s_nonblock a); cbn [negb]; [ | destruct (Hrel false) as (r & w' & E & -> & H); by exists false, w'].
  destruct (s_reg a); cbn [negb]; [ | destruct (Hrel false) as (r & w' & E & -> & H); by exists false, w'].
  eexists true, _. split; [reflexivity | ]. exists (Cli1 new_line_fb [] (Some x) true). by destruct U.
Qed.

(* ------------------------------------------------------------------ *)
(** ** What holds *)

(** C39: However the bytes arrive, in pieces of up to 1023, and lines of up to
    1024 bytes, each line is dispatched once and in order and what follows the
    last newline waits in the buffer.  A line without a visible character does
    nothing; between its first and its last visible character it has up to
    1023 bytes and runs, with its first nineteen words, the command its first
    word names, or it has 1024 and is refused. *)
Theorem lines_delivered_whole q chunks : sorted q ->
  Forall (fun c => (length c <= 1023)%nat) chunks -> short (concat chunks) ->
  exists fb, cli_reads q new_line_fb chunks = Some (fb, map (dispatch q) (lines (concat chunks)).1) /\
    holds fb (lines (concat chunks)).2.
Proof.
  intros Hq Hc Hs. destruct (cli_reads_ok q chunks Hc new_line_fb [] new_holds Hs) as (fb & E & H); [cbn; lia | ].
  exists fb. split; [ | done]. rewrite E. f_equal. f_equal. apply map_ext. intros l. by apply led_to_dispatch.
Qed.

Definition wifi_cmd : cli_cmd := CliCmd [119; 105; 102; 105] (Some 7) 0 None.

(** "hEl", "p\n wifi\to", "n \n", "x". *)
Definition demo_chunks : list text :=
  [[104; 69; 108]; [112; 10; 32; 119; 105; 102; 105; 9; 111]; [110; 32; 10]; [120]].

Lemma lines_delivered_whole_witness :
  (exists fb, cli_reads [wifi_cmd] new_line_fb demo_chunks =
     Some (fb, map (dispatch [wifi_cmd]) (lines (concat demo_chunks)).1) /\
   holds fb (lines (concat demo_chunks)).2) /\
  map (dispatch [wifi_cmd]) (lines (concat demo_chunks)).1 =
    [Ran (hd wifi_cmd cli_lut) [[104; 69; 108; 112]]; Ran wifi_cmd [[119; 105; 102; 105]; [111; 110]]].
Proof.
  split; [ | by vm_compute].
  apply (lines_delivered_whole [wifi_cmd] demo_chunks).
  - repeat constructor.
  - repeat (constructor; [cbn; lia | ]). constructor.
  - split; vm_compute; [repeat (constructor; [lia | ]); constructor | lia].
Defined.

(** A line of 1023 bytes is run, one of 1024 is refused. *)
Example longest_line :
  dispatch [] (replicate 1023 120 ++ [10]) = NotFound (replicate 1023 120) /\
  dispatch [] (replicate 1024 120 ++ [10]) = TooLong.
Proof. split; vm_compute; reflexivity. Qed.

(** A line of words between blanks, whatever unprintable bytes surround it,
    runs the command its first word names, with its first nineteen words. *)
Theorem words_dispatched q pre l w post :
  word w -> Forall (fun x => word x.1 /\ blank x.2) l ->
  Forall (fun b => graphic b = false) pre -> Forall (fun b => graphic b = false) post ->
  (length (sentence l ++ w) < 1024)%nat ->
  let argv := take ARGV (map fst l ++ [w]) in
  let name := hd [] argv in
  cli_input_line q (pre ++ (sentence l ++ w) ++ post) =
    Some (match cli_lut_find q name with Some c => Ran c argv | None => NotFound name end).
Proof.
  intros Hw Hl Hp Hq Hn argv name. rewrite input_line_dispatch. f_equal.
  exact (dispatch_sentence q pre l w post Hw Hl Hp Hq Hn).
Qed.

(** "\t wifi  on\r\n" *)
Lemma words_dispatched_witness :
  let wifi := [119; 105; 102; 105] in let on := [111; 110] in
  let c := CliCmd wifi (Some 7) 0 None in
  cli_input_line [c] ([9; 32] ++ (sentence [(wifi, [32; 32])] ++ on) ++ [13; 10]) = Some (Ran c [wifi; on]).
Proof.
  intros wifi on c.
  apply (words_dispatched [c] [9; 32] [(wifi, [32; 32])] on [13; 10]).
  - split; [done | by repeat constructor].
  - constructor; [ | constructor]. split; [split; [done | by repeat constructor] | ].
    split; [done | ]. apply (bool_decide_unpack _). vm_compute. exact I.
  - by repeat constructor.
  - by repeat constructor.
  - vm_compute. lia.
Defined.

(** Registering is inserting in a map: a new name leads to its command and
    every other name where it led before; an empty name, no function, a name
    already known or no memory change nothing. *)
Theorem register_is_a_map alloc name run cbarg detail w c content others : in_use w c content others ->
  exists r w' c', cli1_cmd_add alloc name run cbarg detail w = Done r w' /\ in_use w' c' content others /\
    (r = 0 /\ (forall s, cli_lut_find (cmds c') s =
       if decide (s = name) then Some (CliCmd name run cbarg detail) else cli_lut_find (cmds c) s) /\
     cli_lut_find (cmds c) name = None
     \/ r = -1 /\ w' = w /\ c' = c /\
       (name = [] \/ run = None \/ alloc = false \/ cli_lut_find (cmds c) name <> None)).
Proof. apply cmd_add_ok. Qed.

Definition demo_console : cworld := CWorld (Some (Cli1 new_line_fb [] (Some 5) true)) [] [5; 0] [].
Lemma demo_in_use : in_use demo_console (Cli1 new_line_fb [] (Some 5) true) [] [0].
Proof.
  split; try done; [apply new_holds | constructor | ]. exists 5. split_and!; try done.
  intros Hx. apply elem_of_cons in Hx as [? | Hx]; [done | by apply not_elem_of_nil in Hx].
Qed.

Lemma register_is_a_map_witness :
  exists r w' c', cli1_cmd_add true [113] (Some 3) 0 None demo_console = Done r w' /\ in_use w' c' [] [0] /\ r = 0.
Proof.
  destruct (register_is_a_map true [113] (Some 3) 0 None demo_console _ [] [0] demo_in_use) as (r & w' & c' & E & U & _).
  exists r, w', c'. split; [exact E | ]. split; [exact U | ]. revert E. vm_compute. by intros [= <- _].
Defined.

(** From any outcome of its creation, through any registrations and any
    bytes read, the console keeps within its buffer and its destruction gives
    back its commands, its descriptor and itself. *)
Theorem console_gives_back a others l : (forall x, s_dup a = Some x -> x ∉ others) ->
  exists w', (do ok <- cli1_init a; if ok : bool then happen_all l;; cli1_destroy else ret tt) (no_console others) = Done tt w' /\
    console w' = None /\ cmd_heap w' = [] /\ fds w' ≡ₚ others.
Proof.
  intros Hdup. destruct (init_ok a others Hdup) as (r & w1 & E & H). unfold bind at 1. rewrite E. destruct r.
  - destruct H as [c U]. destruct (happen_all_ok l w1 c [] others U) as (w2 & c2 & t2 & E2 & U2).
    unfold bind. rewrite E2. by eapply cli_destroy_ok.
  - by exists w1.
Qed.

Lemma console_gives_back_witness :
  exists w', (do ok <- cli1_init (CliSetup true (Some 5) true true);
    if ok : bool then happen_all [Add true [113] (Some 3) 0 None; Read [113; 10]];; cli1_destroy else ret tt) (no_console [0]) = Done tt w' /\
    console w' = None /\ cmd_heap w' = [] /\ fds w' ≡ₚ [0].
Proof.
  apply (console_gives_back (CliSetup true (Some 5) true true) [0] [Add true [113] (Some 3) 0 None; Read [113; 10]]).
  intros x [= <-] Hx. apply elem_of_cons in Hx as [? | Hx]; [done | by apply not_elem_of_nil in Hx].
Defined.

(* ------------------------------------------------------------------ *)
(** ** What does not *)

(** After the end of its input the console is freed but not forgotten: its
    commands are lost and its destruction, which the program still does, uses
    it after free. *)
Lemma eof_then_destroy w c content others : in_use w c content others ->
  exists w', cli1_cb Eof w = Done tt w' /\ cmd_heap w' = cmd_heap w /\ cli1_destroy w' = Ub.
Proof.
  intros U. destruct (release_ok w c content others U) as (w' & E & H1 & H2 & _). exists w'.
  split; [exact E | ]. split; [done | ]. unfold cli1_destroy, the_cli, bind, gets. by rewrite H1.
Qed.

(** [cli_help] looks for its target one word too far: with one word it prints
    everything. *)
Lemma help_ignores_target q t : cli_help q [help_name; t] = cli_help q [help_name].
Proof. reflexivity. Qed.

(** The end of a line that did not fit is run as a line of its own: 3069 bytes
    that are dropped, then "q" and the newline. *)
Lemma overlong_tail_runs :
  match cli_reads [CliCmd [113] (Some 3) 0 None] new_line_fb
    [replicate 1023 120; replicate 1023 120; replicate 1023 120; [113; 10]] with
  | Some (_, outs) => outs = [Ran (CliCmd [113] (Some 3) 0 None) [[113]]]
  | None => False
  end.
Proof. vm_compute. reflexivity. Qed.
