(* ===== verification/Settings.v ===== *)
(** Settings: the key-value file of package/tester1/settings.cpp: saving the
    tree of settings and loading it. *)

From S2P Require Import Prelude Buf Bio Crc Eff ByteStr.

Open Scope eff_scope.

(* ------------------------------------------------------------------ *)
(** ** Data *)

(** [keyval_t]; the tree is its nodes in order. *)
Record keyval : Type := Keyval { key : text; kv_fb : abuf }.

(** [RB_INSERT]: the tree, and whether the node is in it. *)
Fixpoint keyval_insert (root : list keyval) (kv : keyval) : list keyval * bool :=
  match root with
  | [] => ([kv], true)
  | d :: root' =>
      match strcmp (key kv) (key d) with
      | Lt => (kv :: root, true)
      | Eq => (root, false)
      | Gt => let (r, b) := keyval_insert root' kv in (d :: r, b)
      end
  end.

(** [settings_hdr_t], packed: tag of 6 bytes, version, checksum of 8, length of
    the payload. *)
Record settings_hdr : Type := SettingsHdr { tag : list Z; ver : Z; cksum : list Z; payload_len : Z }.
Definition HDR : Z := 20.
Definition hdr_bytes (h : settings_hdr) : list Z :=
  tag h ++ bytes 2 (ver h) ++ cksum h ++ bytes 4 (payload_len h).
Definition hdr_of (b : list Z) : option settings_hdr :=
  t ← load b 0 6; v ← le 2 (drop 6 b); c ← load b 8 8; p ← le 4 (drop 16 b); Some (SettingsHdr t v c p).

(** [keyval_hdr_t], packed. *)
Definition KV_HDR : Z := 3.
Definition kv_hdr_bytes (key_len val_len : Z) : list Z := bytes 1 key_len ++ bytes 2 val_len.

(** The checksum is kept in the first four of its bytes. *)
Definition keyval_cksum_update (c : list Z) (data : list Z) : option (list Z) :=
  s ← le 4 c; Some (bytes 4 (aloe_crc32 data s) ++ replicate 4 0).

(* ------------------------------------------------------------------ *)
(** ** The file *)

(** How each transfer goes, whether each seek succeeds, and what each
    allocation of so many bytes gives. *)
Record senv : Type := SEnv { e_io : nat -> list io; e_seek : nat -> bool; e_mem : nat -> Z -> option (list Z) }.

(** The file and its offset, the answers used, and the nodes that were
    allocated and are in no tree. *)
Record sworld : Type := SWorld { file : list Z; off : Z; used : nat; leaked : list keyval }.
Definition S_ (A : Type) : Type := comp sworld A.

Definition tick : S_ nat :=
  do n <- gets used; modify (fun w => SWorld (file w) (off w) (S n) (leaked w));; ret n.
Definition set_off (o : Z) : S_ unit := modify (fun w => SWorld (file w) o (used w) (leaked w)).

(** Bytes over those at [o]; a hole reads as zeros. *)
Definition put_at (f : list Z) (o : Z) (out : list Z) : list Z :=
  match out with
  | [] => f
  | _ => let f := f ++ replicate (Z.to_nat o - length f) 0 in
         take (Z.to_nat o) f ++ out ++ drop (Z.to_nat o + length out) f
  end.

Definition s32 (v : Z) : Z := (v + 2147483648) mod 4294967296 - 2147483648.

Section Env.
Context (E : senv).

Definition bio_write (data : list Z) : S_ Z :=
  do n <- tick;
  let out := aloe_bio_write data (e_io E n) in
  modify (fun w => SWorld (put_at (file w) (off w) out) (off w + Z.of_nat (length out)) (used w) (leaked w));;
  ret (Z.of_nat (length out)).

Definition bio_read (buf : list Z) (buf_sz : Z) : S_ (list Z * Z) :=
  do n <- tick;
  do w <- get;
  do r <- need (aloe_bio_read buf buf_sz (drop (Z.to_nat (off w)) (file w)) (e_io E n));
  set_off (off w + r.2);; ret r.

(** [lseek] from the start; whether it succeeds. *)
Definition seek_set (o : Z) : S_ bool :=
  do n <- tick; if e_seek E n && (0 <=? o) then set_off o;; ret true else ret false.
Definition seek_cur : S_ Z :=
  do n <- tick; if e_seek E n then gets off else ret (-1).

Definition malloc (sz : Z) : S_ (option (list Z)) := do n <- tick; ret (e_mem E n sz).

(** A step that must succeed: [goto finally] otherwise. *)
Definition orfail {A B} (ok : S_ (option A)) (fail : S_ B) (k : A -> S_ B) : S_ B :=
  do r <- ok; match r with Some x => k x | None => fail end.

(* ------------------------------------------------------------------ *)
(** ** Saving *)

(** What a node saves. *)
Definition val_len (kv : keyval) : Z := match data (kv_fb kv) with Some _ => u16 (pos (kv_fb kv)) | None => 0 end.

Definition expect (r n : Z) : option unit := if r =? n then Some tt else None.

(** The nodes, with checksum and length so far; [None]: a write failed. *)
Fixpoint save_loop (root : list keyval) (c : list Z) (plen : Z) : S_ (option (list Z * Z)) :=
  match root with
  | [] => ret (Some (c, plen))
  | kv :: root' =>
      let key_len := u8 (Z.of_nat (length (key kv))) in
      let hdr := kv_hdr_bytes key_len (val_len kv) in
      orfail (do r <- bio_write hdr; ret (expect r KV_HDR)) (ret None) (fun _ =>
      do c <- need (keyval_cksum_update c hdr);
      let plen := u32 (plen + KV_HDR) in
      let k := take (Z.to_nat key_len) (key kv) in
      orfail (do r <- bio_write k; ret (expect r key_len)) (ret None) (fun _ =>
      do c <- need (keyval_cksum_update c k);
      let plen := u32 (plen + key_len) in
      if 0 <? val_len kv then
        do d <- need (data (kv_fb kv));
        do v <- need (load d 0 (val_len kv));
        orfail (do r <- bio_write v; ret (expect r (val_len kv))) (ret None) (fun _ =>
        do c <- need (keyval_cksum_update c v);
        save_loop root' c (u32 (plen + val_len kv)))
      else save_loop root' c plen))
  end.

(** The checksum over the header but for itself. *)
Definition cksum_hdr (c : list Z) (h : settings_hdr) : option (list Z) :=
  c ← keyval_cksum_update c (tag h ++ bytes 2 (ver h));
  keyval_cksum_update c (bytes 4 (payload_len h)).

Definition keyval_save (root : list keyval) (tag_ : list Z) (ver_ : Z) : S_ Z :=
  do fpos0 <- seek_cur;
  do t0 <- need (head tag_);
  let h_tag := if negb (t0 =? 0) then tag_ else replicate 6 0 in
  let h_ver := if 0 <? ver_ then ver_ else 0 in
  do ok <- seek_set (fpos0 + HDR);
  if negb ok then ret (-1) else
  orfail (save_loop root (replicate 8 0) 0) (ret (-1)) (fun cp =>
  let h := SettingsHdr h_tag h_ver cp.1 cp.2 in
  do c <- need (cksum_hdr cp.1 h);
  do ok <- seek_set fpos0;
  if negb ok then ret (-1) else
  do r <- bio_write (hdr_bytes (SettingsHdr h_tag h_ver c cp.2));
  if negb (r =? HDR) then ret (-1) else ret (s32 (cp.2 + HDR))).

(* ------------------------------------------------------------------ *)
(** ** Loading *)

(** [aloe_buf_expand]: [None] when it reports a failure. *)
Definition expand (fb : abuf) (cap_ : Z) : S_ (option abuf) :=
  do block <- malloc cap_;
  do r <- need (aloe_buf_expand block fb cap_ 0);
  ret (if r.1 =? 0 then Some r.2 else None).

Definition leak (kv : keyval) : S_ unit :=
  modify (fun w => SWorld (file w) (off w) (used w) (kv :: leaked w)).

Definition no_buf : abuf := Abuf None 0 0 0.

(** The value of a node: its own buffer, with room after it. *)
Definition load_val (src : list Z) : S_ (option abuf) :=
  if 0 <? Z.of_nat (length src) then
    orfail (expand no_buf (Z.of_nat (length src) + 1024)) (ret None) (fun fb =>
    let fb := aloe_buf_clear fb in
    do d <- need (data fb);
    do d <- need (blit d 0 src);
    do d <- need (upd d (Z.of_nat (length src)) 0);
    ret (Some (Abuf (Some d) (cap fb) (lmt fb) (Z.of_nat (length src)))))
  else ret (Some no_buf).

(** [while (payload_len < settings_hdr.payload_len)]: the tree, and checksum
    and length unless a step failed. *)
Fixpoint load_loop (fuel : nat) (total : Z) (root : list keyval) (fb : abuf) (c : list Z) (plen : Z)
    : S_ (list keyval * option (list Z * Z)) :=
  if total <=? plen then ret (root, Some (c, plen)) else
  let stop := ret (root, None) in
  do ' (hdr, r) <- bio_read (replicate 3 0) KV_HDR;
  orfail (ret (expect r KV_HDR)) stop (fun _ =>
  do key_len <- need (le 1 hdr);
  do vlen <- need (le 2 (drop 1 hdr));
  let plen := plen + KV_HDR in
  do c <- need (keyval_cksum_update c hdr);
  let kv_sz := key_len + vlen in
  orfail (if cap fb <? kv_sz then expand fb (kv_sz + 1024) else ret (Some fb)) stop (fun fb =>
  do ' (d, r) <- bio_read (default [] (data fb)) kv_sz;
  let fb := Abuf (match data fb with Some _ => Some d | None => None end) (cap fb) (lmt fb) (pos fb) in
  orfail (ret (expect r kv_sz)) stop (fun _ =>
  let plen := plen + kv_sz in
  do body <- need (load d 0 kv_sz);
  do c <- need (keyval_cksum_update c body);
  orfail (malloc (key_len + 1)) stop (fun _ =>
  let k := c_str (take (Z.to_nat key_len) body) in
  orfail (load_val (drop (Z.to_nat key_len) body)) stop (fun vfb =>
  let kv := Keyval k vfb in
  let (root', added) := keyval_insert root kv in
  (if added then ret tt else leak kv);;
  match fuel with O => deep | S f => load_loop f total root' fb c plen end))))).

(** The result and the tree. *)
Definition keyval_load (root : list keyval) (tag_ : list Z) (ver_ : Z) : S_ (Z * list keyval) :=
  let stop r := ret (-1, r) in
  do ' (b, r) <- bio_read (replicate 20 0) HDR;
  if negb (r =? HDR) then stop root else
  do h <- need (hdr_of b);
  do t0 <- need (head tag_);
  if negb (t0 =? 0) && negb (bool_decide (tag h = tag_)) then stop root else
  if (0 <? ver_) && negb (ver_ =? ver h) then stop root else
  do w <- get;
  do ' (root, res) <- load_loop (length (file w)) (payload_len h) root no_buf (replicate 8 0) 0;
  match res with
  | None => stop root
  | Some (c, plen) =>
      do c <- need (cksum_hdr c h);
      if negb (bool_decide (c = cksum h)) then stop root
      else ret (s32 (plen + HDR), root)
  end.
End Env.
