(* ===== verification/SettingsIo.v ===== *)
(** SettingsIo: what a settings file holds, its checksum, transfers that go
    through, and with them saving and the reading of one record. *)

From Stdlib Require Import Sorting.Sorted.
From S2P Require Import Prelude Buf Bio Crc Eff ByteStr Settings.

Open Scope eff_scope.

(* ------------------------------------------------------------------ *)
(** ** What a file holds *)

Definition entry : Type := text * list Z.

(** A node's value: the first [pos] bytes of its buffer. *)
Definition value (kv : keyval) : list Z :=
  match data (kv_fb kv) with Some d => take (Z.to_nat (pos (kv_fb kv))) d | None => [] end.
Definition entry_of (kv : keyval) : entry := (key kv, value kv).

Definition record_bytes (e : entry) : list Z :=
  kv_hdr_bytes (Z.of_nat (length e.1)) (Z.of_nat (length e.2)) ++ e.1 ++ e.2.
Definition payload (es : list entry) : list Z := concat (map record_bytes es).

(** The checksum: the payload, then the header without it. *)
Definition file_crc (pay tag_ : list Z) (ver_ : Z) : Z :=
  aloe_crc32 (pay ++ tag_ ++ bytes 2 ver_ ++ bytes 4 (Z.of_nat (length pay))) 0.
Definition ck (s : Z) : list Z := bytes 4 s ++ replicate 4 0.
Definition header (pay tag_ : list Z) (ver_ : Z) (crc : Z) : settings_hdr :=
  SettingsHdr tag_ ver_ (ck crc) (Z.of_nat (length pay)).

Definition entry_ok (e : entry) : Prop :=
  Forall is_u8 e.1 /\ Forall (fun b => b <> 0) e.1 /\ (length e.1 <= 255)%nat /\
  Forall is_u8 e.2 /\ Z.of_nat (length e.2) <= 65535.

(** A node whose buffer holds what its position says. *)
Definition node_ok (kv : keyval) : Prop :=
  entry_ok (entry_of kv) /\
  match data (kv_fb kv) with
  | Some d => 0 <= pos (kv_fb kv) <= Z.of_nat (length d)
  | None => True
  end.

(** Adding an entry to a sorted list; the first of a name stays. *)
Fixpoint entry_insert (es : list entry) (e : entry) : list entry :=
  match es with
  | [] => [e]
  | d :: es' => match strcmp e.1 d.1 with Lt => e :: es | Eq => es | Gt => d :: entry_insert es' e end
  end.

Lemma insert_entries root kv : map entry_of (keyval_insert root kv).1 = entry_insert (map entry_of root) (entry_of kv).
Proof.
  induction root as [|d root IH]; [done | ]. cbn [keyval_insert map entry_insert entry_of fst].
  destruct (strcmp (key kv) (key d)); [done | done | ].
  destruct (keyval_insert root kv) as [r b]. cbn [fst map] in *. by rewrite IH.
Qed.

Definition sorted_entries (es : list entry) : Prop := StronglySorted (fun a b => strcmp a.1 b.1 = Lt) es.

Lemma insert_last es e : Forall (fun d => strcmp d.1 e.1 = Lt) es -> entry_insert es e = es ++ [e].
Proof.
  induction 1 as [|d es Hd _ IH]; [done | ]. cbn. by rewrite strcmp_opp, Hd, IH.
Qed.

Lemma insert_sorted es : forall acc, sorted_entries (acc ++ es) -> fold_left entry_insert es acc = acc ++ es.
Proof.
  induction es as [|e es IH]; intros acc Hs; [by rewrite app_nil_r | ]. cbn.
  assert (Hacc : Forall (fun d => strcmp d.1 e.1 = Lt) acc).
  { clear -Hs. induction acc as [|d acc IHa]; [constructor | ]. apply StronglySorted_inv in Hs as [Hs Hd].
    constructor; [ | by apply IHa]. apply Forall_app in Hd as [_ Hd]. by inversion Hd. }
  rewrite (insert_last _ _ Hacc), IH by (by rewrite <- app_assoc). by rewrite <- app_assoc.
Qed.

(* ------------------------------------------------------------------ *)
(** ** Checksums *)

Lemma crc_u32 d s : Forall is_u8 d -> is_u32 s -> is_u32 (aloe_crc32 d s).
Proof. intros Hd Hs. unfold aloe_crc32. by apply not32_u32, crc_fold_u32; [apply not32_u32 | ]. Qed.

Lemma cksum_update_ok s d : is_u32 s ->
  keyval_cksum_update (bytes 4 s ++ replicate 4 0) d = Some (bytes 4 (aloe_crc32 d s) ++ replicate 4 0).
Proof. intros Hs. unfold keyval_cksum_update. by rewrite le_bytes. Qed.

Lemma zero_cksum : replicate 8 0 = bytes 4 0 ++ replicate 4 0.
Proof. reflexivity. Qed.

Lemma bytes_u8 k : forall v, Forall is_u8 (bytes k v).
Proof. induction k; intros v; cbn; [constructor | ]. constructor; [split; apply Z.mod_pos_bound; lia | done]. Qed.

Lemma ck_ok s d : is_u32 s -> keyval_cksum_update (ck s) d = Some (ck (aloe_crc32 d s)).
Proof. apply cksum_update_ok. Qed.

Lemma cksum_hdr_ok s h : is_u32 s -> Forall is_u8 (tag h) ->
  cksum_hdr (ck s) h = Some (ck (aloe_crc32 (tag h ++ bytes 2 (ver h) ++ bytes 4 (payload_len h)) s)).
Proof.
  intros Hs Ht. unfold cksum_hdr. rewrite ck_ok by done. cbn [mbind option_bind].
  rewrite ck_ok by (apply crc_u32; [apply Forall_app; split; [done | apply bytes_u8] | done]).
  by rewrite <- crc32_incremental, <- app_assoc.
Qed.

Lemma record_u8 e : entry_ok e -> Forall is_u8 (record_bytes e).
Proof.
  intros (H1 & _ & _ & H2 & _). unfold record_bytes, kv_hdr_bytes.
  repeat (apply Forall_app; split); done || apply bytes_u8.
Qed.
Lemma payload_u8 es : Forall entry_ok es -> Forall is_u8 (payload es).
Proof. intros H. apply Forall_concat, Forall_map. eapply Forall_impl; [exact H | apply record_u8]. Qed.

(* ------------------------------------------------------------------ *)
(** ** Transfers *)

Lemma put_at_cons f o out : out <> [] -> put_at f o out =
  take (Z.to_nat o) (f ++ replicate (Z.to_nat o - length f) 0) ++ out ++
  drop (Z.to_nat o + length out) (f ++ replicate (Z.to_nat o - length f) 0).
Proof. by destruct out. Qed.

Lemma length_put_at f o out : 0 <= o ->
  Z.of_nat (length (put_at f o out)) <= Z.max (Z.of_nat (length f)) (o + Z.of_nat (length out)).
Proof.
  intros Ho. destruct (decide (out = [])) as [-> | Hn]; [cbn; lia | ]. rewrite put_at_cons by done.
  rewrite !length_app, length_take, length_drop, length_app, length_replicate. lia.
Qed.

Lemma put_at_app f o a b : 0 <= o ->
  put_at (put_at f o a) (o + Z.of_nat (length a)) b = put_at f o (a ++ b).
Proof.
  intros Ho. destruct (decide (a = [])) as [-> | Ha]; [cbn [app length put_at]; by rewrite Z.add_0_r | ].
  destruct (decide (b = [])) as [-> | Hb]; [by rewrite app_nil_r | ].
  rewrite (put_at_cons _ _ b Hb), (put_at_cons f o a Ha), (put_at_cons f o (a ++ b)) by (by destruct a).
  set (F := f ++ replicate (Z.to_nat o - length f) 0).
  assert (HF : (Z.to_nat o <= length F)%nat) by (unfold F; rewrite length_app, length_replicate; lia).
  assert (Hpre : length (take (Z.to_nat o) F ++ a) = Z.to_nat (o + Z.of_nat (length a))) by (rewrite length_app, length_take; lia).
  assert (Hz : replicate (Z.to_nat (o + Z.of_nat (length a)) -
    length (take (Z.to_nat o) F ++ a ++ drop (Z.to_nat o + length a) F)) 0 = ([] : list Z)).
  { rewrite app_assoc, length_app, Hpre. by replace (_ - _)%nat with 0%nat by lia. }
  rewrite Hz, app_nil_r. set (G := take (Z.to_nat o) F ++ a ++ drop (Z.to_nat o + length a) F).
  assert (HG : G = (take (Z.to_nat o) F ++ a) ++ drop (Z.to_nat o + length a) F) by (unfold G; by rewrite app_assoc).
  rewrite HG. clear HG. rewrite <- Hpre at 1. rewrite take_app_length.
  rewrite drop_app_ge by lia. rewrite <- !app_assoc. do 3 apply (f_equal (app _)). rewrite drop_drop.
  f_equal. rewrite Hpre, length_app. lia.
Qed.

(** A header before what was written after it. *)
Lemma put_at_header f o h pay : 0 <= o -> h <> [] ->
  exists pre tl, put_at (put_at f (o + Z.of_nat (length h)) pay) o h = pre ++ h ++ pay ++ tl /\
    Z.of_nat (length pre) = o /\ (o <= Z.of_nat (length f) -> pre = take (Z.to_nat o) f).
Proof.
  intros Ho Hh. rewrite (put_at_cons _ _ h Hh). set (g := put_at f _ pay). set (G := g ++ _).
  assert (HG : (Z.to_nat o <= length G)%nat) by (unfold G; rewrite length_app, length_replicate; lia).
  exists (take (Z.to_nat o) G). destruct (decide (pay = [])) as [-> | Hp].
  - exists (drop (Z.to_nat o + length h) G). split_and!; [done | rewrite length_take; lia | ].
    intros Hof. unfold G, g. cbn [put_at]. by rewrite take_app_le by lia.
  - set (F := f ++ replicate (Z.to_nat (o + Z.of_nat (length h)) - length f) 0).
    assert (HF : (Z.to_nat (o + Z.of_nat (length h)) <= length F)%nat) by (unfold F; rewrite length_app, length_replicate; lia).
    assert (Hg : g = take (Z.to_nat (o + Z.of_nat (length h))) F ++ pay ++ drop (Z.to_nat (o + Z.of_nat (length h)) + length pay) F).
    { by apply put_at_cons. }
    assert (Hpre : length (take (Z.to_nat (o + Z.of_nat (length h))) F) = (Z.to_nat o + length h)%nat) by (rewrite length_take; lia).
    assert (HGg : G = g).
    { unfold G. replace (_ - _)%nat with 0%nat; [by rewrite app_nil_r | ]. rewrite Hg, length_app, Hpre. lia. }
    rewrite HGg. exists (drop (Z.to_nat (o + Z.of_nat (length h)) + length pay) F). split_and!.
    + do 2 f_equal. rewrite Hg, <- Hpre. by rewrite drop_app_length.
    + rewrite <- HGg, length_take. lia.
    + intros Hof. rewrite Hg, take_app_le by lia. rewrite take_take, Nat.min_l by lia. unfold F. by rewrite take_app_le by lia.
Qed.

(** Transfers of [N] bytes go through. *)
Definition willing (E : senv) (N : nat) : Prop := forall n, Forall moves (e_io E n) /\ (N < tries (e_io E n))%nat.

Section Transfers.
Context (E : senv) (N : nat) (Hio : willing E N).

Lemma bio_write_ok data w : (length data <= N)%nat ->
  bio_write E data w = Done (Z.of_nat (length data))
    (SWorld (put_at (file w) (off w) data) (off w + Z.of_nat (length data)) (S (used w)) (leaked w)).
Proof.
  intros Hn. destruct (Hio (used w)) as [Hm Ht]. destruct (bio_write_spec data (e_io E (used w))) as (rest & Hd & Hr).
  rewrite (Hr Hm) in Hd by lia. rewrite app_nil_r in Hd.
  unfold bio_write, tick, bind, gets, modify, ret. cbn. by rewrite <- Hd.
Qed.

(** Reading what is there. *)
Lemma bio_read_ok buf src pre tl w :
  file w = pre ++ src ++ tl -> off w = Z.of_nat (length pre) -> (length src <= length buf)%nat ->
  (length (src ++ tl) <= N)%nat ->
  exists rest, bio_read E buf (Z.of_nat (length src)) w = Done (src ++ rest, Z.of_nat (length src))
    (SWorld (file w) (off w + Z.of_nat (length src)) (S (used w)) (leaked w)) /\
    length (src ++ rest) = length buf.
Proof.
  intros Hf Ho Hb Hn. destruct (Hio (used w)) as [Hm Ht]. rewrite length_app in Hn.
  destruct (bio_read_loop_ok buf (Z.of_nat (length src)) 0 (src ++ tl) (e_io E (used w))) as (b1 & k & Eq & H1 & H2 & W & H4);
    [lia | lia | ].
  assert (Hk : k = length src).
  { rewrite length_app in *. destruct H4 as [H4 | H4]; [done | lia | lia | lia]. }
  subst k. clear H4. rewrite Z.add_0_l in *. destruct W as [L P B].
  rewrite Z2Nat.inj_0, take_0, Nat2Z.id, take_app_length in B. cbn [app] in B.
  exists (drop (length src) buf). split; [ | rewrite <- B, L; done].
  unfold bio_read, tick, bind, gets, get, modify, ret, set_off. cbn [file off used leaked].
  rewrite Ho, Hf, Nat2Z.id, drop_app_length. unfold aloe_bio_read. rewrite Eq. cbn [mbind option_bind].
  rewrite Z.ltb_irrefl. cbn [mbind option_bind need snd]. rewrite B. by unfold modify, ret.
Qed.

(** The file after a write went through. *)
Definition after_write (data : list Z) (w : sworld) : sworld :=
  SWorld (put_at (file w) (off w) data) (off w + Z.of_nat (length data)) (S (used w)) (leaked w).

Lemma orfail_done {A B} (m : S_ (option A)) (fail : S_ B) k w x w' :
  m w = Done (Some x) w' -> orfail m fail k w = k x w'.
Proof. intros H. unfold orfail. by rewrite (ebind_done _ _ _ _ _ H). Qed.

Lemma write_step data n w : n = Z.of_nat (length data) -> (length data <= N)%nat ->
  (do r <- bio_write E data; ret (expect r n)) w = Done (Some tt) (after_write data w).
Proof.
  intros -> Hn. rewrite (ebind_done _ _ _ _ _ (bio_write_ok data w Hn)). unfold expect. by rewrite Z.eqb_refl.
Qed.

(* ------------------------------------------------------------------ *)
(** ** Saving *)

Lemma node_facts kv : node_ok kv ->
  u8 (Z.of_nat (length (key kv))) = Z.of_nat (length (key kv)) /\
  val_len kv = Z.of_nat (length (value kv)) /\
  (value kv <> [] -> exists d, data (kv_fb kv) = Some d /\ load d 0 (val_len kv) = Some (value kv)).
Proof.
  intros [(_ & _ & H1 & _ & H2) Hd]. cbn in H1, H2. split; [unfold u8; rewrite Z.mod_small by lia; done | ].
  unfold val_len, value in *. destruct (data (kv_fb kv)) as [d|]; [ | done].
  rewrite length_take_le in * by lia. rewrite Z2Nat.id in * by lia.
  assert (Hp : u16 (pos (kv_fb kv)) = pos (kv_fb kv)) by (apply u16_id; unfold is_u16; lia).
  rewrite Hp. split; [done | ]. intros _. exists d. split; [done | ]. rewrite load_Some by lia. by unfold slice.
Qed.

Lemma length_record e : Z.of_nat (length (record_bytes e)) = 3 + Z.of_nat (length e.1) + Z.of_nat (length e.2).
Proof. unfold record_bytes, kv_hdr_bytes. rewrite !length_app, !length_bytes. lia. Qed.

(** The pieces of a record, one write each. *)
Lemma put_record f o hdr k v : 0 <= o ->
  put_at (put_at (put_at f o hdr) (o + Z.of_nat (length hdr)) k)
    (o + Z.of_nat (length hdr) + Z.of_nat (length k)) v = put_at f o (hdr ++ k ++ v).
Proof.
  intros Ho. rewrite (put_at_app f o hdr k) by done.
  replace (o + Z.of_nat (length hdr) + Z.of_nat (length k)) with (o + Z.of_nat (length (hdr ++ k))) by (rewrite length_app; lia).
  rewrite put_at_app by done. by rewrite <- app_assoc.
Qed.


Lemma save_loop_ok root : Forall node_ok root -> forall s w plen,
  (length (payload (map entry_of root)) <= N)%nat -> is_u32 s -> 0 <= off w -> 0 <= plen ->
  let pay := payload (map entry_of root) in
  plen + Z.of_nat (length pay) < 4294967296 ->
  exists n, save_loop E root (ck s) plen w =
    Done (Some (ck (aloe_crc32 pay s), plen + Z.of_nat (length pay)))
      (SWorld (put_at (file w) (off w) pay) (off w + Z.of_nat (length pay)) n (leaked w)).
Proof.
  induction 1 as [|kv root Hkv Hr IH]; intros s w plen HN Hs Ho Hp pay Hl.
  { exists (used w). unfold pay, aloe_crc32. cbn. rewrite not32_not32, !Z.add_0_r by done. by destruct w. }
  destruct (node_facts kv Hkv) as (Hk & Hv & Hload). pose proof Hkv as [(Hu1 & _ & Hk1 & Hu2 & Hv2) _]. cbn in Hu1, Hk1, Hu2, Hv2.
  assert (Hpay : pay = record_bytes (entry_of kv) ++ payload (map entry_of root)) by reflexivity.
  pose proof (length_record (entry_of kv)) as HL. change (payload (map entry_of (kv :: root))) with pay in HN.
  rewrite Hpay, length_app in HN. rewrite Hpay, length_app, Nat2Z.inj_add, HL in Hl. cbn [entry_of fst snd] in HL, Hl.
  set (hdr := kv_hdr_bytes (Z.of_nat (length (key kv))) (Z.of_nat (length (value kv)))).
  assert (Hh : length hdr = 3%nat) by (unfold hdr, kv_hdr_bytes; rewrite length_app, !length_bytes; done).
  assert (Hhu : Forall is_u8 hdr) by (unfold hdr, kv_hdr_bytes; apply Forall_app; split; apply bytes_u8).
  cbn [save_loop]. rewrite Hk, Hv. fold hdr. cbv zeta. rewrite Nat2Z.id, firstn_all.
  assert (Hu32 : forall x, 0 <= x < 4294967296 -> u32 x = x) by (intros; by apply Z.mod_small).
  rewrite (orfail_done _ _ _ _ _ _ (write_step hdr KV_HDR w ltac:(rewrite Hh; done) ltac:(lia))).
  rewrite ck_ok by done. cbn [need]. rewrite ebind_ret, (Hu32 (plen + KV_HDR)) by (unfold KV_HDR; lia).
  rewrite (orfail_done _ _ _ _ _ _ (write_step (key kv) _ _ eq_refl ltac:(lia))).
  rewrite ck_ok by (by apply crc_u32). cbn [need]. rewrite ebind_ret, (Hu32 (plen + KV_HDR + _)) by (unfold KV_HDR; lia).
  assert (Hc : is_u32 (aloe_crc32 (hdr ++ key kv) s)) by (apply crc_u32; [by apply Forall_app | done]).
  rewrite <- crc32_incremental.
  destruct (decide (value kv = [])) as [Ev | Ev].
  - rewrite Ev, Z.ltb_irrefl.
    destruct (IH (aloe_crc32 (hdr ++ key kv) s) (after_write (key kv) (after_write hdr w)) (plen + KV_HDR + Z.of_nat (length (key kv)))) as (n & ->);
      [lia | done | cbn; lia | unfold KV_HDR; lia | rewrite Ev in Hl; cbn [length] in Hl; unfold KV_HDR; cbv zeta; lia | ].
    exists n. assert (Hrec : record_bytes (entry_of kv) = hdr ++ key kv).
    { unfold record_bytes. cbn [entry_of fst snd]. fold hdr. by rewrite Ev, app_nil_r. }
    rewrite Hpay, Hrec. unfold after_write. cbn [file off used leaked]. rewrite (put_record (file w) (off w)) by done.
    rewrite <- crc32_incremental, <- app_assoc, !length_app, Hh. f_equal; [do 2 f_equal; unfold KV_HDR; lia | f_equal; lia].
  - destruct (Hload Ev) as (d & Hd & Hld). rewrite (proj2 (Z.ltb_lt _ _)) by (destruct (value kv); [done | cbn; lia]).
    rewrite Hd. cbn [need]. rewrite ebind_ret, <- Hv, Hld, Hv. cbn [need]. rewrite ebind_ret.
    rewrite (orfail_done _ _ _ _ _ _ (write_step (value kv) _ _ eq_refl ltac:(lia))).
    rewrite ck_ok by done. cbn [need]. rewrite ebind_ret, Hu32 by (unfold KV_HDR; lia).
    rewrite <- crc32_incremental, <- app_assoc.
    destruct (IH (aloe_crc32 (hdr ++ key kv ++ value kv) s) (after_write (value kv) (after_write (key kv) (after_write hdr w)))
      (plen + KV_HDR + Z.of_nat (length (key kv)) + Z.of_nat (length (value kv)))) as (n & ->);
      [lia | apply crc_u32; [ | done]; rewrite !Forall_app; done | cbn; lia | unfold KV_HDR; lia | unfold KV_HDR; lia | ].
    exists n. assert (Hrec : record_bytes (entry_of kv) = hdr ++ key kv ++ value kv) by done.
    rewrite Hpay, Hrec. unfold after_write. cbn [file off used leaked].
    rewrite (put_record (file w) (off w)) by done.
    replace (off w + Z.of_nat (length hdr) + Z.of_nat (length (key kv)) + Z.of_nat (length (value kv))) with
      (off w + Z.of_nat (length (hdr ++ key kv ++ value kv))) by (rewrite !length_app; lia).
    rewrite put_at_app by done. rewrite <- crc32_incremental, !length_app, Hh.
    f_equal; [do 2 f_equal; unfold KV_HDR; lia | f_equal; lia].
Qed.

(** The tag a file gets. *)
Definition stored_tag (tag_ : list Z) : list Z := if negb (hd 0 tag_ =? 0) then tag_ else replicate 6 0.
Lemma stored_tag_u8 tag_ : Forall is_u8 tag_ -> Forall is_u8 (stored_tag tag_).
Proof. intros H. unfold stored_tag. destruct (negb _); [done | ]. by apply Forall_replicate. Qed.

(** What a save leaves in the file. *)
Definition image (es : list entry) (tag_ : list Z) (ver_ : Z) : list Z :=
  hdr_bytes (header (payload es) tag_ ver_ (file_crc (payload es) tag_ ver_)) ++ payload es.

Context (Hseek : forall n, e_seek E n = true).

Lemma seek_set_ok o w : 0 <= o -> seek_set E o w = Done true (SWorld (file w) o (S (used w)) (leaked w)).
Proof.
  intros Ho. unfold seek_set, tick, bind, gets, modify, ret, set_off. rewrite Hseek.
  by rewrite (proj2 (Z.leb_le _ _) Ho).
Qed.

Lemma length_hdr_bytes h : length (tag h) = 6%nat -> length (cksum h) = 8%nat -> Z.of_nat (length (hdr_bytes h)) = HDR.
Proof. intros Ht Hc. unfold hdr_bytes. rewrite !length_app, !length_bytes, Ht, Hc. done. Qed.

Lemma keyval_save_ok root tag_ ver_ w : HDR + Z.of_nat (length (payload (map entry_of root))) <= Z.of_nat N -> Forall node_ok root ->
  length tag_ = 6%nat -> Forall is_u8 tag_ -> is_u16 ver_ -> 0 <= off w ->
  let es := map entry_of root in Z.of_nat (length (payload es)) < 4294967296 ->
  exists n pre tl, keyval_save E root tag_ ver_ w = Done (s32 (Z.of_nat (length (payload es)) + HDR))
      (SWorld (pre ++ image es (stored_tag tag_) ver_ ++ tl) (off w + HDR) n (leaked w)) /\
    Z.of_nat (length pre) = off w /\ (off w <= Z.of_nat (length (file w)) -> pre = take (Z.to_nat (off w)) (file w)) /\
    Z.of_nat (length (pre ++ image es (stored_tag tag_) ver_ ++ tl)) <=
      Z.max (Z.of_nat (length (file w))) (off w + HDR + Z.of_nat (length (payload es))).
Proof.
  intros HN Hr Ht Hu Hv Ho es Hl. unfold keyval_save.
  rewrite (ebind_done (seek_cur E) _ w (off w) (SWorld (file w) (off w) (S (used w)) (leaked w)))
    by (unfold seek_cur, tick, bind, gets, modify, ret; by rewrite Hseek).
  destruct tag_ as [|t0 tag_]; [done | ]. cbn [head need]. rewrite ebind_ret.
  change (if negb (t0 =? 0) then t0 :: tag_ else replicate 6 0) with (stored_tag (t0 :: tag_)).
  assert (Hver : (if 0 <? ver_ then ver_ else 0) = ver_) by (unfold is_u16 in Hv; destruct (Z.ltb_spec 0 ver_); lia).
  rewrite Hver. clear Hver.
  assert (H0 : is_u32 0) by done. pose proof (stored_tag_u8 _ Hu) as Hu'.
  assert (Ht' : length (stored_tag (t0 :: tag_)) = 6%nat) by (unfold stored_tag; destruct (negb _); done).
  set (tg := stored_tag (t0 :: tag_)) in *. clearbody tg.
  assert (Hpu : Forall is_u8 (payload es)) by (apply payload_u8, Forall_map; eapply Forall_impl; [exact Hr | by intros ? []]).
  rewrite (ebind_done _ _ _ _ _ (seek_set_ok (off w + HDR) _ ltac:(unfold HDR; lia))). cbn [negb].
  destruct (save_loop_ok root Hr 0 (SWorld (file w) (off w + HDR) (S (S (used w))) (leaked w)) 0) as (n & Hs);
    [unfold HDR in HN; lia | done | cbn; unfold HDR; lia | lia | exact Hl | ].
  rewrite (orfail_done _ _ _ _ _ _ Hs). cbn [fst snd]. rewrite Z.add_0_l. fold es.
  change (SettingsHdr tg ver_ (ck (aloe_crc32 (payload es) 0)) (Z.of_nat (length (payload es))))
    with (header (payload es) tg ver_ (aloe_crc32 (payload es) 0)).
  rewrite cksum_hdr_ok by (try apply crc_u32; done). cbn [need header tag ver payload_len]. rewrite ebind_ret, <- crc32_incremental.
  set (h := SettingsHdr tg ver_ _ _). assert (Hh : h = header (payload es) tg ver_ (file_crc (payload es) tg ver_)) by done.
  clearbody h. rewrite (ebind_done _ _ _ _ _ (seek_set_ok (off w) _ Ho)). cbn [negb].
  assert (HL : Z.of_nat (length (hdr_bytes h)) = HDR) by (apply length_hdr_bytes; subst h; done).
  rewrite (ebind_done _ _ _ _ _ (bio_write_ok (hdr_bytes h) _ ltac:(unfold HDR in HL, HN; lia))).
  rewrite HL, Z.eqb_refl. cbn [negb file off used leaked].
  destruct (put_at_header (file w) (off w) (hdr_bytes h) (payload es) Ho) as (pre & tl & Hp & Hlp & Hpre);
    [intros E0; by rewrite E0 in HL | ].
  rewrite HL in Hp. eexists _, pre, tl. split_and!; [ | done | done | ].
  { unfold image. rewrite <- Hh, <- app_assoc, <- Hp. reflexivity. }
  unfold image. rewrite <- Hh, <- app_assoc, <- Hp.
  pose proof (length_put_at (file w) (off w + HDR) (payload es) ltac:(unfold HDR; lia)).
  pose proof (length_put_at (put_at (file w) (off w + HDR) (payload es)) (off w) (hdr_bytes h) Ho). lia.
Qed.
End Transfers.

(* ------------------------------------------------------------------ *)
(** ** Loading *)

(** Allocations succeed. *)
Definition memory (E : senv) : Prop := forall n sz, 0 < sz -> exists b, e_mem E n sz = Some b /\ Z.of_nat (length b) = sz.

Section Load.
Context (E : senv) (N : nat) (Hio : willing E N) (Hmem : memory E).

(** The same file, elsewhere. *)
Definition moved (w w' : sworld) (o : Z) : Prop := file w' = file w /\ off w' = o /\ leaked w' = leaked w.

Lemma malloc_ok sz w : 0 < sz -> exists b, malloc E sz w = Done (Some b) (SWorld (file w) (off w) (S (used w)) (leaked w)) /\
  Z.of_nat (length b) = sz.
Proof.
  intros Hs. destruct (Hmem (used w) sz Hs) as (b & Hb & Hl). exists b. split; [ | done].
  unfold malloc, tick, bind, gets, modify, ret. by rewrite Hb.
Qed.

(** The buffer of [keyval_load]. *)
Definition scratch_ok (fb : abuf) : Prop := pos fb = 0 /\ 0 <= cap fb /\ Z.of_nat (length (default [] (data fb))) = cap fb.

Lemma expand_ok fb c w : scratch_ok fb -> cap fb < c ->
  exists d, expand E fb c w = Done (Some (Abuf (Some d) c (if lmt fb =? cap fb then c else lmt fb) 0))
    (SWorld (file w) (off w) (S (used w)) (leaked w)) /\ Z.of_nat (length d) = c.
Proof.
  intros (Hp & H0 & _) Hc. destruct (malloc_ok c w ltac:(lia)) as (b & Hb & Hl). exists b. split; [ | done].
  unfold expand. rewrite (ebind_done _ _ _ _ _ Hb). unfold aloe_buf_expand.
  rewrite (proj2 (Z.leb_gt _ _) Hc), Hp. by destruct (data fb).
Qed.

Lemma load_val_ok src w : exists fb n, load_val E src w = Done (Some fb) (SWorld (file w) (off w) n (leaked w)) /\
  forall k, entry_of (Keyval k fb) = (k, src) /\
    match data fb with Some d => 0 <= pos fb <= Z.of_nat (length d) | None => True end.
Proof.
  unfold load_val. destruct (Z.ltb_spec 0 (Z.of_nat (length src))).
  - destruct (expand_ok no_buf (Z.of_nat (length src) + 1024) w) as (d & He & Hl); [done | cbn; lia | ].
    rewrite (orfail_done _ _ _ _ _ _ He). cbn [aloe_buf_clear data cap lmt pos need no_buf]. rewrite ebind_ret.
    destruct (blit_Some d 0 src) as (d' & -> & Hl' & Hd'); [lia | lia | ]. cbn [need]. rewrite ebind_ret.
    rewrite upd_Some by lia. cbn [need]. rewrite ebind_ret. eexists _, _. split; [done | ]. intros k. cbn [data pos kv_fb].
    split; [ | rewrite length_insert; lia]. unfold entry_of, value. cbn [key kv_fb data pos]. f_equal.
    rewrite Nat2Z.id, take_insert_ge by lia. change (Z.to_nat 0) with 0%nat in Hd'. rewrite take_0 in Hd'. cbn [app] in Hd'.
    by rewrite Hd', take_app_length.
  - destruct src; [ | cbn in *; lia]. exists no_buf, (used w). split; [by destruct w | done].
Qed.

Lemma expect_done n (w : sworld) : ret (expect n n) w = Done (Some tt) w.
Proof. unfold expect. by rewrite Z.eqb_refl. Qed.

(** One record. *)
Lemma load_record f total root fb s plen w pre e tl :
  file w = pre ++ record_bytes e ++ tl -> off w = Z.of_nat (length pre) -> (length (record_bytes e ++ tl) <= N)%nat ->
  entry_ok e -> scratch_ok fb -> is_u32 s -> plen < total ->
  exists fb' vfb w',
    load_loop E (S f) total root fb (ck s) plen w =
      (let (root', added) := keyval_insert root (Keyval e.1 vfb) in
       (if added then ret tt else leak (Keyval e.1 vfb));;
       load_loop E f total root' fb' (ck (aloe_crc32 (record_bytes e) s)) (plen + Z.of_nat (length (record_bytes e)))) w' /\
    scratch_ok fb' /\ moved w w' (off w + Z.of_nat (length (record_bytes e))) /\
    entry_of (Keyval e.1 vfb) = e /\ node_ok (Keyval e.1 vfb).
Proof.
  intros Hf Ho HN He Hfb Hs Hp. destruct e as [k v]. pose proof He as (Hu1 & Hz & Hk1 & Hu2 & Hv2). cbn [fst snd] in *.
  pose proof (length_record (k, v)) as HL. cbn [fst snd] in HL.
  unfold record_bytes in *. cbn [fst snd] in *. set (hdr := kv_hdr_bytes _ _) in *.
  assert (Hh : length hdr = 3%nat) by (unfold hdr, kv_hdr_bytes; rewrite length_app, !length_bytes; done).
  assert (Hhu : Forall is_u8 hdr) by (unfold hdr, kv_hdr_bytes; apply Forall_app; split; apply bytes_u8).
  cbn [load_loop]. rewrite (proj2 (Z.leb_gt _ _) Hp). cbv zeta.
  destruct (bio_read_ok E N Hio (replicate 3 0) hdr pre ((k ++ v) ++ tl) w) as (r1 & E1 & L1);
    [by rewrite Hf, <- !app_assoc | done | rewrite Hh; done | by rewrite <- !app_assoc in * | ].
  rewrite Hh in E1. change (Z.of_nat 3) with KV_HDR in E1. rewrite length_app, Hh in L1. destruct r1; [ | cbn in L1; lia]. rewrite app_nil_r in E1.
  rewrite (ebind_done _ _ _ _ _ E1). clear E1 L1.
  rewrite (orfail_done _ _ _ _ _ _ (expect_done KV_HDR _)).
  assert (Hle1 : le 1 hdr = Some (Z.of_nat (length k))) by (apply le_bytes; change (256 ^ Z.of_nat 1) with 256; lia).
  assert (Hle2 : le 2 (drop 1 hdr) = Some (Z.of_nat (length v))).
  { change (drop 1 hdr) with (bytes 2 (Z.of_nat (length v))). rewrite <- (app_nil_r (bytes _ _)). apply le_bytes.
    change (256 ^ Z.of_nat 2) with 65536. lia. }
  rewrite Hle1, Hle2. cbn [need]. rewrite !ebind_ret, ck_ok by done. cbn [need]. rewrite ebind_ret.
  set (w1 := SWorld _ _ _ _). set (kv_sz := Z.of_nat (length k) + Z.of_nat (length v)).
  assert (Hfb' : exists fb' n, (if cap fb <? kv_sz then expand E fb (kv_sz + 1024) else ret (Some fb)) w1 =
    Done (Some fb') (SWorld (file w1) (off w1) n (leaked w1)) /\ scratch_ok fb' /\ kv_sz <= cap fb').
  { destruct (Z.ltb_spec (cap fb) kv_sz).
    - destruct (expand_ok fb (kv_sz + 1024) w1 Hfb ltac:(lia)) as (d & Ex & Ld). eexists _, _. split; [exact Ex | ].
      unfold scratch_ok. cbn. lia.
    - exists fb, (used w1). by destruct w1. }
  destruct Hfb' as (fb' & n1 & Ex & (Hp' & Hc' & Hl') & Hcap). rewrite (orfail_done _ _ _ _ _ _ Ex). clear Ex.
  destruct (bio_read_ok E N Hio (default [] (data fb')) (k ++ v) (pre ++ hdr) tl (SWorld (file w1) (off w1) n1 (leaked w1)))
    as (r2 & E2 & L2); [unfold w1; cbn [file]; by rewrite Hf, <- !app_assoc | unfold w1; cbn [off]; rewrite Ho, length_app, Hh; unfold KV_HDR; lia
    | rewrite length_app; lia | rewrite !length_app in *; lia | ].
  assert (Hsz : Z.of_nat (length (k ++ v)) = kv_sz) by (rewrite length_app; lia).
  rewrite Hsz in E2. rewrite (ebind_done _ _ _ _ _ E2). clear E2. cbv beta iota.
  set (w2 := SWorld _ _ _ _).
  rewrite (orfail_done _ _ _ _ _ _ (expect_done kv_sz _)). rewrite load_Some by (rewrite ?length_app in *; lia). cbn [need]. rewrite ebind_ret.
  assert (Hsl : slice ((k ++ v) ++ r2) 0 kv_sz = k ++ v) by (unfold slice; rewrite <- Hsz, Nat2Z.id; change (Z.to_nat 0) with 0%nat; rewrite drop_0; apply take_app_length).
  rewrite Hsl, ck_ok by (by apply crc_u32). cbn [need]. rewrite ebind_ret, Nat2Z.id.
  destruct (malloc_ok (Z.of_nat (length k) + 1) w2 ltac:(lia)) as (b & Em & _). rewrite (orfail_done _ _ _ _ _ _ Em).
  rewrite drop_app_length, take_app_length, c_str_id by done.
  destruct (load_val_ok v (SWorld (file w2) (off w2) (S (used w2)) (leaked w2))) as (vfb & n3 & El & Hval).
  rewrite (orfail_done _ _ _ _ _ _ El). destruct (Hval k) as [Hent Hpos].
  eexists _, vfb, _. split.
  { rewrite <- crc32_incremental. replace (plen + KV_HDR + kv_sz) with (plen + Z.of_nat (length (hdr ++ k ++ v))) by (unfold KV_HDR; lia).
    reflexivity. }
  split_and!; [ | split_and!; [done | unfold KV_HDR; cbn [off w2 w1]; unfold KV_HDR in *; lia | done] | exact Hent | split; [by rewrite Hent | exact Hpos]].
  unfold scratch_ok. cbn [pos cap data]. split_and!; [done | lia | ]. destruct (data fb'); [ | exact Hl'].
  cbn [from_option id] in *. lia.
Qed.
End Load.
