(* ===== verification/SettingsSpec.v ===== *)
(** SettingsSpec: settings saved are the settings loaded, and what is loaded was
    checked. *)

From Stdlib Require Import Sorting.Sorted.
From S2P Require Import Prelude Buf Bio Crc Eff ByteStr Settings SettingsIo.

Open Scope eff_scope.

(* ------------------------------------------------------------------ *)
(** ** Loading what was saved *)

Lemma keyval_insert_last root kv : Forall (fun d => strcmp (key d) (key kv) = Lt) root ->
  keyval_insert root kv = (root ++ [kv], true).
Proof. induction 1 as [|d root Hd _ IH]; [done | ]. cbn. by rewrite strcmp_opp, Hd, IH. Qed.

Lemma sorted_below es e es' : sorted_entries (es ++ e :: es') -> Forall (fun d => strcmp d.1 e.1 = Lt) es.
Proof.
  induction es as [|d es IH]; intros Hs; [constructor | ]. apply StronglySorted_inv in Hs as [Hs Hd].
  constructor; [ | by apply IH]. apply Forall_app in Hd as [_ Hd]. by inversion Hd.
Qed.

Lemma insert_node_ok root kv : Forall node_ok root -> node_ok kv -> Forall node_ok (keyval_insert root kv).1.
Proof.
  intros Hr Hk. induction Hr as [|d root Hd Hr IH]; cbn; [by constructor | ].
  destruct (strcmp (key kv) (key d)); [by constructor | constructor; [done | by constructor] | ].
  destruct (keyval_insert root kv). by constructor.
Qed.

Section Load.
Context (E : senv) (N : nat) (Hio : willing E N) (Hmem : memory E).

Lemma load_loop_ok es : Forall entry_ok es -> forall fuel root fb s plen w pre tl,
  (length es <= fuel)%nat -> file w = pre ++ payload es ++ tl -> off w = Z.of_nat (length pre) ->
  (length (payload es ++ tl) <= N)%nat -> scratch_ok fb -> is_u32 s -> Forall node_ok root ->
  exists root' w', load_loop E fuel (plen + Z.of_nat (length (payload es))) root fb (ck s) plen w =
      Done (root', Some (ck (aloe_crc32 (payload es) s), plen + Z.of_nat (length (payload es)))) w' /\
    file w' = file w /\ off w' = off w + Z.of_nat (length (payload es)) /\
    map entry_of root' = fold_left entry_insert es (map entry_of root) /\ Forall node_ok root' /\
    (sorted_entries (map entry_of root ++ es) -> leaked w' = leaked w).
Proof.
  induction 1 as [|e es He Hes IH]; intros fuel root fb s plen w pre tl Hfu Hf Ho HN Hfb Hs Hr.
  { exists root, w. cbn [payload map concat length]. unfold aloe_crc32. cbn [fold_left]. rewrite not32_not32, !Z.add_0_r by done.
    split_and!; try done. destruct fuel; cbn [load_loop]; by rewrite Z.leb_refl. }
  destruct fuel as [|f]; [cbn in Hfu; lia | ].
  assert (Hpay : payload (e :: es) = record_bytes e ++ payload es) by done.
  pose proof (length_record e) as HL. rewrite Hpay in *. rewrite <- app_assoc in Hf, HN.
  destruct (load_record E N Hio Hmem f (plen + Z.of_nat (length (record_bytes e ++ payload es))) root fb s plen w pre e
    (payload es ++ tl) Hf Ho HN He Hfb Hs) as (fb' & vfb & w1 & -> & Hfb' & (M1 & M2 & M3) & Hent & Hnode);
    [rewrite length_app; lia | ].
  set (kv := Keyval e.1 vfb) in *.
  assert (Hins : exists w2, (let (root', added) := keyval_insert root kv in (if added then ret tt else leak kv);;
      load_loop E f (plen + Z.of_nat (length (record_bytes e ++ payload es))) root' fb'
        (ck (aloe_crc32 (record_bytes e) s)) (plen + Z.of_nat (length (record_bytes e)))) w1 =
    load_loop E f (plen + Z.of_nat (length (record_bytes e ++ payload es))) (keyval_insert root kv).1 fb'
        (ck (aloe_crc32 (record_bytes e) s)) (plen + Z.of_nat (length (record_bytes e))) w2 /\
    file w2 = file w1 /\ off w2 = off w1 /\ (sorted_entries (map entry_of root ++ e :: es) -> leaked w2 = leaked w1)).
  { destruct (keyval_insert root kv) as [r b] eqn:Ei. destruct b.
    - by exists w1.
    - exists (SWorld (file w1) (off w1) (used w1) (kv :: leaked w1)). split_and!; try done. intros Hsort.
      apply sorted_below in Hsort. rewrite keyval_insert_last in Ei; [done | ].
      rewrite Forall_map in Hsort. eapply Forall_impl; [exact Hsort | ]. by intros d. }
  destruct Hins as (w2 & -> & F2 & O2 & Lk2). rewrite length_app, Nat2Z.inj_add, Z.add_assoc.
  destruct (IH f (keyval_insert root kv).1 fb' (aloe_crc32 (record_bytes e) s) (plen + Z.of_nat (length (record_bytes e))) w2
    (pre ++ record_bytes e) tl) as (root' & w' & -> & F' & O' & Hm & Hn & Lk'); [cbn in Hfu; lia
    | by rewrite F2, M1, Hf, <- !app_assoc | rewrite O2, M2, Ho, length_app; lia | rewrite !length_app in *; lia | done
    | apply crc_u32; [by apply record_u8 | done] | by apply insert_node_ok | ].
  exists root', w'. rewrite <- crc32_incremental. split_and!; [done | congruence | lia | | done | ].
  - cbn [fold_left]. by rewrite Hm, insert_entries, Hent.
  - intros Hsort. rewrite Lk', Lk2, M3; [done | done | ]. rewrite insert_entries, Hent.
    rewrite (insert_last _ _ (sorted_below _ _ _ Hsort)), <- app_assoc. exact Hsort.
Qed.

Lemma length_payload es : (length es <= length (payload es))%nat.
Proof.
  induction es as [|e es IH]; [done | ]. change (payload (e :: es)) with (record_bytes e ++ payload es).
  rewrite length_app. pose proof (length_record e). cbn. lia.
Qed.

Lemma hdr_of_bytes h tl : length (tag h) = 6%nat -> is_u16 (ver h) -> length (cksum h) = 8%nat -> is_u32 (payload_len h) ->
  hdr_of (hdr_bytes h ++ tl) = Some h.
Proof.
  intros Ht Hv Hc Hp. destruct h as [t v c p]. unfold hdr_bytes in *. cbn [tag ver cksum payload_len] in *. unfold hdr_of.
  rewrite <- !app_assoc.
  assert (H6 : load (t ++ bytes 2 v ++ c ++ bytes 4 p ++ tl) 0 6 = Some t).
  { rewrite load_Some by (rewrite ?length_app; lia). unfold slice. rewrite drop_0. f_equal. apply take_app_length'. by rewrite ?Ht, ?Hc. }
  rewrite H6. cbn [mbind option_bind]. rewrite (drop_app_length' t _ 6) by (by rewrite Ht). rewrite le_bytes by done. cbn [mbind option_bind].
  assert (H8 : load (t ++ bytes 2 v ++ c ++ bytes 4 p ++ tl) 8 8 = Some c).
  { rewrite load_Some by (rewrite ?length_app, ?length_bytes; lia). unfold slice. rewrite app_assoc. rewrite (drop_app_length' _ _ (Z.to_nat 8)) by (by rewrite length_app, length_bytes, Ht).
    f_equal. apply take_app_length'. by rewrite ?Ht, ?Hc. }
  rewrite H8. cbn [mbind option_bind].
  rewrite 2!app_assoc. rewrite (drop_app_length' _ _ 16) by (by rewrite !length_app, length_bytes, Ht, Hc).
  by rewrite le_bytes.
Qed.

(** A file with a header that is accepted and records that are there. *)
Lemma load_image_ok es h tag_ ver_ w pre tl :
  Forall entry_ok es -> Forall is_u8 (tag h) -> length (tag h) = 6%nat -> is_u16 (ver h) -> length (cksum h) = 8%nat ->
  payload_len h = Z.of_nat (length (payload es)) -> payload_len h < 4294967296 ->
  tag_ <> [] -> (hd 0 tag_ = 0 \/ tag h = tag_) -> (ver_ <= 0 \/ ver_ = ver h) ->
  file w = pre ++ hdr_bytes h ++ payload es ++ tl -> off w = Z.of_nat (length pre) ->
  (length (file w) <= N)%nat -> sorted_entries es ->
  exists root' w', keyval_load E [] tag_ ver_ w =
      Done (if bool_decide (ck (file_crc (payload es) (tag h) (ver h)) = cksum h) then s32 (payload_len h + HDR) else -1, root') w' /\
    file w' = file w /\ off w' = off w + HDR + payload_len h /\ leaked w' = leaked w /\
    map entry_of root' = es /\ Forall node_ok root'.
Proof.
  intros Hes Hu Ht Hv Hc Hp Hlt Hne Htag Hver Hf Ho HN Hsort. unfold keyval_load.
  assert (HH : length (hdr_bytes h) = 20%nat) by (pose proof (length_hdr_bytes h Ht Hc); unfold HDR in *; lia).
  destruct (bio_read_ok E N Hio (replicate 20 0) (hdr_bytes h) pre (payload es ++ tl) w Hf Ho) as (r1 & E1 & L1);
    [rewrite HH; done | rewrite Hf, length_app in HN; lia | ].
  rewrite length_app, HH in L1. destruct r1; [ | cbn in L1; lia]. rewrite app_nil_r, HH in E1. change (Z.of_nat 20) with HDR in E1.
  rewrite (ebind_done _ _ _ _ _ E1). cbv beta iota. rewrite Z.eqb_refl. cbn [negb].
  assert (Hp32 : is_u32 (payload_len h)) by (rewrite Hp in *; unfold is_u32; lia).
  rewrite <- (app_nil_r (hdr_bytes h)), (hdr_of_bytes h [] Ht Hv Hc Hp32). cbn [need]. rewrite ebind_ret.
  destruct tag_ as [|t0 tag_]; [done | ]. cbn [head need hd] in *. rewrite ebind_ret.
  assert (G1 : negb (t0 =? 0) && negb (bool_decide (tag h = t0 :: tag_)) = false).
  { destruct Htag as [-> | ->]; [done | ]. rewrite bool_decide_true by done. apply andb_false_r. }
  assert (G2 : (0 <? ver_) && negb (ver_ =? ver h) = false).
  { destruct Hver as [Hv0 | ->]; [by rewrite (proj2 (Z.ltb_ge _ _) Hv0) | rewrite Z.eqb_refl; apply andb_false_r]. }
  rewrite G1, G2. set (w1 := SWorld _ _ _ _). rewrite (ebind_done get _ w1 w1 w1) by done.
  destruct (load_loop_ok es Hes (length (file w1)) [] no_buf 0 0 w1 (pre ++ hdr_bytes h) tl) as (root' & w' & E2 & F & O & M & Hn & Lk);
    [cbn [w1 file]; rewrite Hf, !length_app; pose proof (length_payload es); lia | cbn [w1 file]; by rewrite Hf, <- app_assoc
    | cbn [w1 off]; rewrite Ho, length_app, HH; unfold HDR; lia | cbn [w1 file] in *; rewrite Hf, !length_app in HN; rewrite !length_app; lia
    | done | done | constructor | ].
  rewrite Z.add_0_l, <- Hp in E2. change (replicate 8 0) with (ck 0). rewrite (ebind_done _ _ _ _ _ E2). cbv beta iota.
  rewrite cksum_hdr_ok by (try apply crc_u32; try done; by apply payload_u8). cbn [need]. rewrite ebind_ret, <- crc32_incremental.
  exists root', w'. split_and!; [ | exact F | rewrite O; cbn [w1 off]; unfold HDR; lia | by apply Lk | | done].
  - unfold file_crc. rewrite <- Hp. destruct (bool_decide _) eqn:B1; destruct (bool_decide _) eqn:B2 in |- *; try done; rewrite ?bool_decide_eq_true, ?bool_decide_eq_false in *; done.
  - rewrite M. apply (insert_sorted es []). exact Hsort.
Qed.
End Load.

(* ------------------------------------------------------------------ *)
(** ** Loading anything *)

(** [malloc] gives blocks of the size asked for, or nothing. *)
Definition sized (E : senv) : Prop := forall n sz b, 0 <= sz -> e_mem E n sz = Some b -> Z.of_nat (length b) = sz.

(** A record as it stands in a file, and the entry it becomes: its name ends at
    a NUL. *)
Definition raw_ok (e : entry) : Prop := Z.of_nat (length e.1) <= 255 /\ Z.of_nat (length e.2) <= 65535.
Definition as_entry (e : entry) : entry := (c_str e.1, e.2).

Lemma orfail_none {A B} (m : S_ (option A)) (fail : S_ B) k w w' :
  m w = Done None w' -> orfail m fail k w = fail w'.
Proof. intros H. unfold orfail. by rewrite (ebind_done _ _ _ _ _ H). Qed.

Section Anything.
Context (E : senv) (Hmem : sized E).

Definition rest (w : sworld) : list Z := drop (Z.to_nat (off w)) (file w).

Lemma bio_read_any buf n w : 0 <= n <= Z.of_nat (length buf) -> 0 <= off w ->
  exists buf' k w', bio_read E buf n w = Done (buf', Z.of_nat k) w' /\ length buf' = length buf /\
    moved w w' (off w + Z.of_nat k) /\ (k <= length (rest w))%nat /\
    (Z.of_nat k = n -> take k buf' = take k (rest w) /\ rest w = take k (rest w) ++ rest w').
Proof.
  intros Hn Ho. destruct (bio_read_loop_ok buf n 0 (rest w) (e_io E (used w))) as (b1 & k & Eq & H1 & H2 & W & _); [lia | lia | ].
  rewrite Z.add_0_l in *. destruct W as [L P B]. change (Z.to_nat 0) with 0%nat in B. rewrite take_0, Nat2Z.id in B. cbn [app] in B.
  assert (Hrest : forall u lk, rest w = take k (rest w) ++ rest (SWorld (file w) (off w + Z.of_nat k) u lk)).
  { intros u lk. unfold rest at 3. cbn [off file]. rewrite Z2Nat.inj_add, Nat2Z.id by lia. rewrite <- drop_drop. symmetry. apply take_drop. }
  assert (Htk : take k b1 = take k (rest w)).
  { rewrite B. apply take_app_length'. rewrite length_take. lia. }
  unfold bio_read, tick, bind, gets, get, modify, ret, set_off. cbn [file off used leaked]. fold (rest w).
  unfold aloe_bio_read. rewrite Eq. cbn [mbind option_bind]. destruct (Z.ltb_spec (Z.of_nat k) n).
  - rewrite upd_Some by lia. cbn [mbind option_bind need snd]. eexists _, k, _. split; [reflexivity | ].
    rewrite length_insert. split_and!; [by rewrite L | done | lia | lia].
  - cbn [mbind option_bind need snd]. eexists _, k, _. split; [reflexivity | ]. split_and!; [by rewrite L | done | lia | ].
    intros _. split; [done | apply Hrest].
Qed.

Lemma expect_cases r n (w : sworld) : (ret (expect r n) w = Done None w) \/ (r = n /\ ret (expect r n) w = Done (Some tt) w).
Proof. unfold expect. destruct (Z.eqb_spec r n); [right | left]; done. Qed.

Lemma expand_any fb c w : scratch_ok fb -> cap fb < c ->
  exists r n, expand E fb c w = Done r (SWorld (file w) (off w) n (leaked w)) /\
    forall fb', r = Some fb' -> scratch_ok fb' /\ cap fb' = c /\ data fb' <> None.
Proof.
  intros (Hp & H0 & _) Hc. unfold expand, malloc, tick, bind, gets, modify, ret. unfold aloe_buf_expand.
  rewrite (proj2 (Z.leb_gt _ _) Hc), Hp. destruct (e_mem E (used w) c) as [b|] eqn:Em; cbn.
  - specialize (Hmem (used w) c b ltac:(lia) Em). exists (Some (Abuf (Some b) c (if lmt fb =? cap fb then c else lmt fb) 0)), (S (used w)).
    split; [by destruct (data fb) | ]. intros fb' [= <-]. unfold scratch_ok. cbn. split_and!; try done; lia.
  - eexists None, _. by split.
Qed.

Lemma load_val_any src w : exists r n, load_val E src w = Done r (SWorld (file w) (off w) n (leaked w)) /\
  forall fb k, r = Some fb -> entry_of (Keyval k fb) = (k, src).
Proof.
  unfold load_val. destruct (Z.ltb_spec 0 (Z.of_nat (length src))).
  - destruct (expand_any no_buf (Z.of_nat (length src) + 1024) w) as (r & n & He & Hr); [done | cbn; lia | ].
    destruct r as [fb|]; [ | rewrite (orfail_none _ _ _ _ _ He); by exists None, n].
    destruct (Hr fb eq_refl) as ((Hp & _ & Hl) & Hc & Hd). rewrite (orfail_done _ _ _ _ _ _ He).
    destruct fb as [[d|] c lm ps]; [ | done]. cbn [data cap pos lmt aloe_buf_clear need from_option id default] in *. rewrite ebind_ret.
    destruct (blit_Some d 0 src) as (d' & -> & Hl' & Hd'); [lia | lia | ]. cbn [need]. rewrite ebind_ret.
    rewrite upd_Some by lia. cbn [need]. rewrite ebind_ret. eexists _, _. split; [reflexivity | ]. intros fb k [= <-].
    unfold entry_of, value. cbn [key kv_fb data pos]. f_equal. rewrite Nat2Z.id, take_insert_ge by lia.
    change (Z.to_nat 0) with 0%nat in Hd'. rewrite take_0 in Hd'. cbn [app] in Hd'. by rewrite Hd', take_app_length.
  - destruct src; [ | cbn in *; lia]. exists (Some no_buf), (used w). split; [by destruct w | ]. by intros fb k [= <-].
Qed.

Lemma malloc_any sz w : exists r, malloc E sz w = Done r (SWorld (file w) (off w) (S (used w)) (leaked w)).
Proof. by eexists. Qed.

(** A failed step: the tree as it was. *)
Definition stops {A} (root : list keyval) (r : out sworld (list keyval * option A)) (w : sworld) : Prop :=
  exists w', r = Done (root, None) w' /\ file w' = file w.

(** A header of a record, as bytes and as lengths. *)
Lemma kv_hdr_parse b : Forall is_u8 b -> length b = 3%nat ->
  exists k v, le 1 b = Some k /\ le 2 (drop 1 b) = Some v /\ 0 <= k <= 255 /\ 0 <= v <= 65535 /\ b = kv_hdr_bytes k v.
Proof.
  intros Hu Hl. destruct (le_some 1 b) as [k Hk]; [lia | ]. destruct (le_some 2 (drop 1 b)) as [v Hv]; [rewrite length_drop; lia | ].
  assert (Hud : Forall is_u8 (drop 1 b)) by by apply Forall_drop.
  pose proof (le_range 1 _ _ Hu Hk) as Hk'. pose proof (le_range 2 _ _ Hud Hv) as Hv'. cbn in Hk', Hv'.
  exists k, v. split_and!; [done | done | lia | lia | lia | lia | ].
  unfold kv_hdr_bytes. rewrite (bytes_le 1 _ _ Hu Hk), (bytes_le 2 _ _ Hud Hv).
  destruct b as [|b0 [|b1 [|b2 [|]]]]; done.
Qed.

Lemma load_record_any f total root fb s plen w :
  0 <= off w -> Forall is_u8 (file w) -> scratch_ok fb -> is_u32 s -> plen < total ->
  stops root (load_loop E (S f) total root fb (ck s) plen w) w \/
  exists e fb' vfb w',
    load_loop E (S f) total root fb (ck s) plen w =
      (let (root', added) := keyval_insert root (Keyval (c_str e.1) vfb) in
       (if added then ret tt else leak (Keyval (c_str e.1) vfb));;
       load_loop E f total root' fb' (ck (aloe_crc32 (record_bytes e) s)) (plen + Z.of_nat (length (record_bytes e)))) w' /\
    scratch_ok fb' /\ file w' = file w /\ off w' = off w + Z.of_nat (length (record_bytes e)) /\
    rest w = record_bytes e ++ rest w' /\ raw_ok e /\ entry_of (Keyval (c_str e.1) vfb) = as_entry e.
Proof.
  intros Ho Hu Hfb Hs Hp. cbn [load_loop]. rewrite (proj2 (Z.leb_gt _ _) Hp). cbv zeta.
  assert (Hur : Forall is_u8 (rest w)) by by apply Forall_drop.
  destruct (bio_read_any (replicate 3 0) KV_HDR w) as (b & k1 & w1 & E1 & L1 & (F1 & O1 & K1) & B1 & C1);
    [done | done | ]. rewrite (ebind_done _ _ _ _ _ E1). cbv beta iota. rewrite length_replicate in L1.
  destruct (expect_cases (Z.of_nat k1) KV_HDR w1) as [Ex | [Hk1 Ex]].
  { left. rewrite (orfail_none _ _ _ _ _ Ex). by exists w1. }
  rewrite (orfail_done _ _ _ _ _ _ Ex). destruct (C1 Hk1) as [Hb Hr1]. clear Ex C1 E1.
  assert (k1 = 3%nat) by (unfold KV_HDR in Hk1; lia). subst k1.
  rewrite take_ge in Hb by lia. rewrite <- Hb in Hr1.
  assert (Hub : Forall is_u8 b) by (rewrite Hb; by apply Forall_take).
  destruct (kv_hdr_parse b Hub L1) as (k & v & Hle1 & Hle2 & Hk & Hv & Hbb).
  rewrite Hle1, Hle2. cbn [need]. rewrite !ebind_ret, ck_ok by done. cbn [need]. rewrite ebind_ret.
  assert (Hfb' : exists r n, (if cap fb <? k + v then expand E fb (k + v + 1024) else ret (Some fb)) w1 =
    Done r (SWorld (file w1) (off w1) n (leaked w1)) /\ forall fb', r = Some fb' -> scratch_ok fb' /\ k + v <= cap fb').
  { destruct (Z.ltb_spec (cap fb) (k + v)).
    - destruct (expand_any fb (k + v + 1024) w1 Hfb ltac:(lia)) as (r & n & Ex & Hr). exists r, n. split; [done | ].
      intros fb' ->. destruct (Hr fb' eq_refl) as (H1 & H2 & _). split; [done | lia].
    - exists (Some fb), (used w1). split; [by destruct w1 | ]. by intros fb' [= <-]. }
  destruct Hfb' as (rf & n1 & Ef & Hrf). destruct rf as [fb'|]; [ | left; rewrite (orfail_none _ _ _ _ _ Ef); by eexists].
  rewrite (orfail_done _ _ _ _ _ _ Ef). destruct (Hrf fb' eq_refl) as [(Hp' & Hc' & Hl') Hcap]. clear Ef Hrf.
  set (w1' := SWorld _ _ _ _). assert (Hrw : rest w1' = rest w1) by done.
  destruct (bio_read_any (default [] (data fb')) (k + v) w1') as (d & k2 & w2 & E2 & L2 & (F2 & O2 & K2) & B2 & C2);
    [lia | cbn; lia | ]. rewrite (ebind_done _ _ _ _ _ E2). cbv beta iota.
  destruct (expect_cases (Z.of_nat k2) (k + v) w2) as [Ex | [Hk2 Ex]].
  { left. rewrite (orfail_none _ _ _ _ _ Ex). exists w2. split; [done | ]. rewrite F2. exact F1. }
  rewrite (orfail_done _ _ _ _ _ _ Ex). destruct (C2 Hk2) as [Hd Hr2]. clear Ex C2 E2. rewrite Hrw in Hd, Hr2, B2.
  rewrite load_Some by lia. cbn [need]. rewrite ebind_ret.
  assert (Hsl : slice d 0 (k + v) = take k2 (rest w1)) by (unfold slice; rewrite <- Hk2, Nat2Z.id; exact Hd).
  rewrite Hsl, ck_ok by (by apply crc_u32). cbn [need]. rewrite ebind_ret.
  destruct (malloc_any (k + 1) w2) as (blk & Em). destruct blk as [blk|].
  2: { left. rewrite (orfail_none _ _ _ _ _ Em). eexists. split; [done | ]. cbn. rewrite F2. exact F1. }
  rewrite (orfail_done _ _ _ _ _ _ Em).
  set (body := take k2 (rest w1)) in *. set (name := take (Z.to_nat k) body). set (val := drop (Z.to_nat k) body).
  destruct (load_val_any val (SWorld (file w2) (off w2) (S (used w2)) (leaked w2))) as (rv & n3 & El & Hval).
  destruct rv as [vfb|]; [ | left; rewrite (orfail_none _ _ _ _ _ El); eexists; split; [done | ]; cbn; rewrite F2; exact F1].
  rewrite (orfail_done _ _ _ _ _ _ El). right.
  assert (Hbl : Z.of_nat (length body) = k + v) by (unfold body; rewrite length_take; lia).
  assert (Hnl : Z.of_nat (length name) = k) by (unfold name; rewrite length_take; lia).
  assert (Hvl : Z.of_nat (length val) = v) by (unfold val; rewrite length_drop; lia).
  assert (Hrec : record_bytes (name, val) = b ++ body).
  { unfold record_bytes. cbn [fst snd]. rewrite Hnl, Hvl, <- Hbb. f_equal. apply take_drop. }
  exists (name, val), (Abuf (match data fb' with Some _ => Some d | None => None end) (cap fb') (lmt fb') (pos fb')), vfb, (SWorld (file w2) (off w2) n3 (leaked w2)).
  cbn [fst snd]. rewrite Hrec, length_app, L1, <- crc32_incremental. split_and!.
  - replace (plen + KV_HDR + (k + v)) with (plen + Z.of_nat (3 + length body)) by (unfold KV_HDR; lia). reflexivity.
  - unfold scratch_ok. cbn [pos cap data]. split_and!; [done | lia | ]. destruct (data fb'); [ | exact Hl'].
    cbn [from_option id default] in *. lia.
  - cbn. rewrite F2. exact F1.
  - cbn [off]. rewrite O2. cbn [w1' off]. rewrite O1. lia.
  - rewrite Hr1, Hr2. change (rest (SWorld (file w2) (off w2) n3 (leaked w2))) with (rest w2). by rewrite <- app_assoc.
  - unfold raw_ok. cbn [fst snd]. lia.
  - by apply Hval.
Qed.

Lemma load_loop_any fuel : forall total root fb s plen w,
  0 <= off w -> (length (rest w) <= fuel)%nat -> Forall is_u8 (file w) -> scratch_ok fb -> is_u32 s ->
  exists root' res w' es, load_loop E fuel total root fb (ck s) plen w = Done (root', res) w' /\ file w' = file w /\
    Forall raw_ok es /\ map entry_of root' = fold_left entry_insert (map as_entry es) (map entry_of root) /\
    match res with
    | None => True
    | Some (c, p) => rest w = payload es ++ rest w' /\ c = ck (aloe_crc32 (payload es) s) /\
        p = plen + Z.of_nat (length (payload es)) /\ total <= p
    end.
Proof.
  induction fuel as [|f IH]; intros total root fb s plen w Ho Hl Hu Hfb Hs.
  all: destruct (Z.leb_spec total plen) as [Hp | Hp].
  1,3: exists root, (Some (ck s, plen)), w, []; cbn [load_loop payload map concat fold_left length app];
    rewrite (proj2 (Z.leb_le _ _) Hp), Z.add_0_r; unfold aloe_crc32; cbn [fold_left]; rewrite not32_not32 by done; by split_and!.
  - exists root, None. cbn [load_loop]. rewrite (proj2 (Z.leb_gt _ _) Hp). cbv zeta.
    destruct (bio_read_any (replicate 3 0) KV_HDR w) as (b & k1 & w1 & E1 & _ & (F1 & _ & _) & B1 & _); [done | done | ].
    rewrite (ebind_done _ _ _ _ _ E1). cbv beta iota.
    destruct (expect_cases (Z.of_nat k1) KV_HDR w1) as [Ex | [Hk1 _]]; [ | unfold KV_HDR in Hk1; lia].
    rewrite (orfail_none _ _ _ _ _ Ex). by exists w1, [].
  - destruct (load_record_any f total root fb s plen w Ho Hu Hfb Hs Hp) as
      [(w' & -> & F) | (e & fb' & vfb & w1 & -> & Hfb' & F1 & O1 & R1 & Hraw & Hent)]; [by exists root, None, w', [] | ].
    pose proof (length_record e) as HL. set (kv := Keyval (c_str e.1) vfb) in *.
    assert (Hins : exists w2, (let (root', added) := keyval_insert root kv in (if added then ret tt else leak kv);;
        load_loop E f total root' fb' (ck (aloe_crc32 (record_bytes e) s)) (plen + Z.of_nat (length (record_bytes e)))) w1 =
      load_loop E f total (keyval_insert root kv).1 fb' (ck (aloe_crc32 (record_bytes e) s)) (plen + Z.of_nat (length (record_bytes e))) w2 /\
      file w2 = file w1 /\ off w2 = off w1 /\ rest w2 = rest w1).
    { destruct (keyval_insert root kv) as [r [|]]; [by exists w1 | ].
      by exists (SWorld (file w1) (off w1) (used w1) (kv :: leaked w1)). }
    destruct Hins as (w2 & -> & F2 & O2 & R2).
    destruct (IH total (keyval_insert root kv).1 fb' (aloe_crc32 (record_bytes e) s) (plen + Z.of_nat (length (record_bytes e))) w2)
      as (root' & res & w' & es & -> & F' & Hes & Hm & Hres); [lia | rewrite R2; apply (f_equal length) in R1; rewrite length_app in R1; lia
      | congruence | done | | ].
    { assert (Hur : Forall is_u8 (rest w)) by by apply Forall_drop. rewrite R1 in Hur. apply Forall_app in Hur as [Hur _].
      by apply crc_u32. }
    exists root', res, w', (e :: es). change (payload (e :: es)) with (record_bytes e ++ payload es).
    split_and!; [done | congruence | by constructor | cbn [map fold_left]; by rewrite Hm, insert_entries, Hent | ].
    destruct res as [[c p]|]; [ | done]. destruct Hres as (H1 & H2 & H3 & H4). rewrite crc32_incremental, length_app.
    split_and!; [by rewrite R1, <- R2, H1, <- app_assoc | done | lia | done].
Qed.

Lemma hdr_parse b : Forall is_u8 b -> length b = 20%nat ->
  exists h, hdr_of b = Some h /\ b = hdr_bytes h /\ Forall is_u8 (tag h) /\ is_u16 (ver h) /\ is_u32 (payload_len h).
Proof.
  intros Hu Hl. destruct (le_some 2 (drop 6 b)) as [v Hv]; [rewrite length_drop; lia | ].
  destruct (le_some 4 (drop 16 b)) as [p Hp]; [rewrite length_drop; lia | ].
  assert (Hu1 : Forall is_u8 (drop 6 b)) by by apply Forall_drop. assert (Hu2 : Forall is_u8 (drop 16 b)) by by apply Forall_drop.
  pose proof (le_range 2 _ _ Hu1 Hv) as Hv'. pose proof (le_range 4 _ _ Hu2 Hp) as Hp'.
  unfold hdr_of. rewrite !load_Some by lia. cbn [mbind option_bind]. rewrite Hv. cbn [mbind option_bind]. rewrite Hp.
  cbn [mbind option_bind]. eexists. split; [reflexivity | ]. unfold hdr_bytes. cbn [tag ver cksum payload_len].
  rewrite (bytes_le 2 _ _ Hu1 Hv), (bytes_le 4 _ _ Hu2 Hp). split_and!; [ | unfold slice; by apply Forall_take | exact Hv' | exact Hp'].
  clear -Hl. do 20 (destruct b as [|? b]; [done | ]). destruct b; [ | done]. reflexivity.
Qed.
End Anything.

(** What was read is a header that is accepted and the records it covers. *)
Definition accepted (tag_ : list Z) (ver_ : Z) (w w' : sworld) (es : list entry) (r : Z) : Prop :=
  exists h, rest w = hdr_bytes h ++ payload es ++ rest w' /\
    (hd 0 tag_ = 0 \/ tag h = tag_) /\ (ver_ <= 0 \/ ver_ = ver h) /\
    payload_len h <= Z.of_nat (length (payload es)) /\
    cksum h = ck (aloe_crc32 (payload es ++ tag h ++ bytes 2 (ver h) ++ bytes 4 (payload_len h)) 0) /\
    r = s32 (Z.of_nat (length (payload es)) + HDR).

(** C38: Whatever the file holds and however reads, seeks and allocations go,
    loading ends, changes nothing of the file and adds to the tree the entries
    of records it read; it reports a length only for a file that has the tag
    and version asked for and the checksum of all it read, and is -1 otherwise. *)
Theorem only_checked_settings_load E root tag_ ver_ w :
  sized E -> 0 <= off w -> Forall is_u8 (file w) -> tag_ <> [] ->
  exists r root' w' es, keyval_load E root tag_ ver_ w = Done (r, root') w' /\ file w' = file w /\
    Forall raw_ok es /\ map entry_of root' = fold_left entry_insert (map as_entry es) (map entry_of root) /\
    (r = -1 \/ accepted tag_ ver_ w w' es r).
Proof.
  intros Hmem Ho Hu Ht. unfold keyval_load.
  destruct (bio_read_any E (replicate 20 0) HDR w) as (b & k1 & w1 & E1 & L1 & (F1 & O1 & _) & B1 & C1); [done | done | ].
  rewrite (ebind_done _ _ _ _ _ E1). cbv beta iota. rewrite length_replicate in L1.
  assert (Hstop : forall w2, file w2 = file w -> exists r root' w' es, ret (-1, root) w2 = Done (r, root') w' /\ file w' = file w /\
    Forall raw_ok es /\ map entry_of root' = fold_left entry_insert (map as_entry es) (map entry_of root) /\ (r = -1 \/ accepted tag_ ver_ w w' es r)).
  { intros w2 F2. exists (-1), root, w2, []. split_and!; [done.. | by left]. }
  destruct (Z.eqb_spec (Z.of_nat k1) HDR) as [Hk | Hk]; cbn [negb]; [ | by apply Hstop].
  destruct (C1 Hk) as [Hb Hr1]. assert (k1 = 20%nat) by (unfold HDR in Hk; lia). subst k1.
  rewrite take_ge in Hb by lia. rewrite <- Hb in Hr1.
  assert (Hub : Forall is_u8 b) by (rewrite Hb; by apply Forall_take, Forall_drop).
  destruct (hdr_parse b Hub L1) as (h & Hh & Hbh & Hut & _). rewrite Hh. cbn [need]. rewrite ebind_ret.
  destruct tag_ as [|t0 tag_]; [done | ]. cbn [head need]. rewrite ebind_ret.
  destruct (negb (t0 =? 0) && negb (bool_decide (tag h = t0 :: tag_))) eqn:G1; [by apply Hstop | ].
  destruct ((0 <? ver_) && negb (ver_ =? ver h)) eqn:G2; [by apply Hstop | ].
  assert (A1 : hd 0 (t0 :: tag_) = 0 \/ tag h = t0 :: tag_).
  { apply andb_false_iff in G1 as [G1 | G1]; apply negb_false_iff in G1; [left; by apply Z.eqb_eq | right; by apply bool_decide_eq_true in G1]. }
  assert (A2 : ver_ <= 0 \/ ver_ = ver h).
  { apply andb_false_iff in G2 as [G2 | G2]; [left; by apply Z.ltb_ge | right; apply negb_false_iff in G2; by apply Z.eqb_eq]. }
  clear G1 G2. rewrite (ebind_done get _ w1 w1 w1) by done.
  destruct (load_loop_any E Hmem (length (file w1)) (payload_len h) root no_buf 0 0 w1) as (root' & res & w' & es & E2 & F2 & Hes & Hm & Hres);
    [lia | unfold rest; rewrite length_drop; lia | congruence | done | done | ].
  change (replicate 8 0) with (ck 0). rewrite (ebind_done _ _ _ _ _ E2). cbv beta iota.
  destruct res as [[c p]|]; [ | exists (-1), root', w', es; split_and!; [done | congruence | done | done | by left]].
  destruct Hres as (R2 & -> & -> & Hle). rewrite Z.add_0_l in *.
  assert (Hup : Forall is_u8 (payload es)).
  { assert (H : Forall is_u8 (rest w1)) by (apply Forall_drop; congruence). rewrite R2 in H. by apply Forall_app in H as [H _]. }
  rewrite cksum_hdr_ok by (try apply crc_u32; done). cbn [need]. rewrite ebind_ret, <- crc32_incremental.
  case_bool_decide as G3; cbn [negb]; [ | exists (-1), root', w', es; split_and!; [done | congruence | done | done | by left]].
  eexists _, root', w', es. split_and!; [reflexivity | congruence | done | done | ]. right. exists h. split_and!.
  - by rewrite Hr1, R2, Hbh.
  - done.
  - done.
  - done.
  - by symmetry.
  - done.
Qed.

(** Reads and seeks that work, and memory there is. *)
Definition demo_env : senv :=
  SEnv (fun _ => replicate 300 (Moved 4096)) (fun _ => true) (fun _ sz => Some (replicate (Z.to_nat sz) 0)).

Lemma demo_sized : sized demo_env.
Proof. intros n sz b Hs [= <-]. rewrite length_replicate. lia. Qed.
Lemma demo_memory : memory demo_env.
Proof. intros n sz Hs. eexists. split; [done | ]. by apply (demo_sized n sz); [lia | ]. Qed.
Lemma demo_willing : willing demo_env 299.
Proof. intros n. split; [ | by vm_compute; lia]. cbn [e_io demo_env]. by apply Forall_replicate. Qed.

(** One setting, "ip" = "10", and the file it is kept in. *)
Definition demo_node : keyval := Keyval [105; 112] (Abuf (Some [49; 48; 0]) 3 3 2).
Lemma demo_node_ok : Forall node_ok [demo_node].
Proof.
  apply Forall_singleton. split; [ | cbn; lia]. split_and!; cbn; try lia; apply (bool_decide_unpack _); vm_compute; exact I.
Qed.
Definition demo_tag : list Z := [97; 108; 103; 97; 101; 49].
Definition demo_file : sworld := SWorld (image [([105; 112], [49; 48])] demo_tag 1) 0 0 [].

Lemma only_checked_settings_load_witness :
  exists r root' w' es, keyval_load demo_env [] demo_tag 1 demo_file = Done (r, root') w' /\ file w' = file demo_file /\
    Forall raw_ok es /\ map entry_of root' = fold_left entry_insert (map as_entry es) (map entry_of []) /\
    (r = -1 \/ accepted demo_tag 1 demo_file w' es r).
Proof.
  apply (only_checked_settings_load demo_env [] demo_tag 1 demo_file); [exact demo_sized | cbn; lia | | done].
  apply (bool_decide_unpack _). vm_compute. exact I.
Defined.

Lemma s32_id x : 0 <= x < 2147483648 -> s32 x = x.
Proof. intros H. unfold s32. rewrite Z.mod_small by lia. lia. Qed.

(** C37: When the calls go through, settings saved at some place of a file and
    loaded from there are the same settings, values and all; both report the
    length of what was written, nothing before it is changed and no node is
    lost. *)
Theorem settings_roundtrip E N root tag_ ver_ w :
  willing E N -> memory E -> (forall n, e_seek E n = true) -> 0 <= off w ->
  Forall node_ok root -> sorted_entries (map entry_of root) ->
  length tag_ = 6%nat -> Forall is_u8 tag_ -> is_u16 ver_ ->
  let len := HDR + Z.of_nat (length (payload (map entry_of root))) in
  len < 2147483648 -> Z.max (Z.of_nat (length (file w))) (off w + len) <= Z.of_nat N ->
  exists root' w', (do r <- keyval_save E root tag_ ver_; seek_set E (off w);; do l <- keyval_load E [] tag_ ver_; ret (r, l)) w =
      Done (len, (len, root')) w' /\
    map entry_of root' = map entry_of root /\ off w' = off w + len /\ leaked w' = leaked w /\
    (off w <= Z.of_nat (length (file w)) -> take (Z.to_nat (off w)) (file w') = take (Z.to_nat (off w)) (file w)).
Proof.
  intros Hio Hmem Hseek Ho Hr Hs Ht Hu Hv len Hlen HN. set (es := map entry_of root) in *.
  destruct (keyval_save_ok E N Hio Hseek root tag_ ver_ w) as (n & pre & tl & E1 & Hp & Hpre & HL); [fold es; lia | done.. | fold es; unfold HDR in *; lia | ].
  fold es in E1, HL. rewrite (ebind_done _ _ _ _ _ E1), s32_id by (unfold HDR in *; lia).
  set (w1 := SWorld _ _ _ _) in *. rewrite (ebind_done _ _ _ _ _ (seek_set_ok E Hseek (off w) w1 Ho)). set (w2 := SWorld _ _ _ _).
  set (h := header (payload es) (stored_tag tag_) ver_ (file_crc (payload es) (stored_tag tag_) ver_)).
  assert (Hes : Forall entry_ok es) by (apply Forall_map; eapply Forall_impl; [exact Hr | by intros ? []]).
  destruct (load_image_ok E N Hio Hmem es h tag_ ver_ w2 pre tl) as (root' & w' & E2 & F & O & Lk & Hm & _);
    [done | by apply stored_tag_u8 | unfold h, stored_tag; cbn; by destruct (negb _) | done | done | done | unfold h; cbn; unfold HDR in *; lia
    | by destruct tag_ | | by right | cbn; unfold image; by rewrite <- app_assoc | cbn; lia | cbn [w2 w1 file]; lia | done | ].
  { unfold h, stored_tag. cbn [tag header]. destruct (Z.eqb_spec (hd 0 tag_) 0); [by left | by right]. }
  rewrite (ebind_done _ _ _ _ _ E2). rewrite bool_decide_true by done. unfold h. cbn [payload_len header].
  rewrite s32_id by (unfold HDR in *; lia). exists root', w'. split_and!.
  - unfold len. by rewrite Z.add_comm.
  - exact Hm.
  - rewrite O. unfold h, len. cbn. lia.
  - by rewrite Lk.
  - intros Hf. rewrite F. cbn [w2 w1 file]. rewrite (Hpre Hf). apply take_app_length'. rewrite length_take. lia.
Qed.

Lemma settings_roundtrip_witness :
  exists root' w', (do r <- keyval_save demo_env [demo_node] demo_tag 1; seek_set demo_env 2;; do l <- keyval_load demo_env [] demo_tag 1; ret (r, l))
      (SWorld [1; 2; 3] 2 0 []) = Done (27, (27, root')) w' /\
    map entry_of root' = [([105; 112], [49; 48])] /\ off w' = 29 /\ leaked w' = [] /\ (2 <= 3 -> take 2 (file w') = [1; 2]).
Proof.
  apply (settings_roundtrip demo_env 299 [demo_node] demo_tag 1 (SWorld [1; 2; 3] 2 0 [])).
  - exact demo_willing.
  - exact demo_memory.
  - done.
  - cbn. lia.
  - exact demo_node_ok.
  - repeat constructor.
  - done.
  - apply (bool_decide_unpack _). vm_compute. exact I.
  - unfold is_u16. lia.
  - vm_compute. done.
  - vm_compute. done.
Defined.

(* ------------------------------------------------------------------ *)
(** ** What does not hold *)

(** A file refused for its checksum has filled the tree by then. *)
Lemma refused_but_loaded :
  match keyval_load demo_env [] demo_tag 1
    (SWorld (hdr_bytes (header (record_bytes ([105; 112], [49; 48])) demo_tag 1 0) ++ record_bytes ([105; 112], [49; 48])) 0 0 []) with
  | Done (r, root') _ => r = -1 /\ map entry_of root' = [([105; 112], [49; 48])]
  | _ => False
  end.
Proof. vm_compute. done. Qed.

(** A name that occurs twice: the second node is in no tree and never freed. *)
Lemma duplicate_leaks :
  match keyval_load demo_env [] demo_tag 1 (SWorld (image [([105; 112], [49]); ([105; 112], [50])] demo_tag 1) 0 0 []) with
  | Done (r, root') w' => map entry_of root' = [([105; 112], [49])] /\ map entry_of (leaked w') = [([105; 112], [50])]
  | _ => False
  end.
Proof. vm_compute. done. Qed.
