(* ===== verification/CNum.v ===== *)
(** CNum: numbers in text, as sscanf, atoi and printf of the C library on the
    target read and write them. *)

From S2P Require Import Prelude ByteStr.

Definition isspace (b : Z) : bool := (b =? 32) || ((9 <=? b) && (b <=? 13)).
Fixpoint skip_space (s : text) : text :=
  match s with b :: s' => if isspace b then skip_space s' else s | [] => [] end.

(** A sign: whether it is minus. *)
Definition sign (s : text) : bool * text :=
  match s with b :: s' => if b =? 45 then (true, s') else if b =? 43 then (false, s') else (false, s) | [] => (false, s) end.

Definition hexval (b : Z) : option Z :=
  if (48 <=? b) && (b <=? 57) then Some (b - 48)
  else if (97 <=? b) && (b <=? 102) then Some (b - 87)
  else if (65 <=? b) && (b <=? 70) then Some (b - 55)
  else None.

(** Digits of base [base], most significant first. *)
Fixpoint digits (base : Z) (s : text) (acc : Z) : Z * text :=
  match s with
  | b :: s' =>
      match hexval b with
      | Some d => if d <? base then digits base s' (acc * base + d) else (acc, s)
      | None => (acc, s)
      end
  | [] => (acc, [])
  end.
Definition is_digit (base : Z) (s : text) : bool :=
  match s with b :: _ => match hexval b with Some d => d <? base | None => false end | [] => false end.

(** "0x". *)
Definition skip_0x (s : text) : text :=
  match s with a :: b :: s' => if (a =? 48) && ((b =? 120) || (b =? 88)) then s' else s | _ => s end.

(** [%x] of [sscanf]: the number and what follows.  Like the C library of the
    target, a number of more than 64 bits counts as 2^64-1 and the result is cut
    to 32 bits. *)
Definition scan_x (s : text) : option (Z * text) :=
  let (neg, s) := sign (skip_space s) in
  let s := skip_0x s in
  if is_digit 16 s then
    let (v, s) := digits 16 s 0 in
    Some (u32 (if 18446744073709551615 <? v then 18446744073709551615 else if neg then - v else v), s)
  else None.

(** [atoi], as that library does: [strtol] cut to 32 bits. *)
Definition atoi (s : text) : Z :=
  let (neg, s) := sign (skip_space s) in
  let (v, _) := digits 10 s 0 in
  let v := if neg then Z.max (-9223372036854775808) (- v) else Z.min 9223372036854775807 v in
  (v + 2147483648) mod 4294967296 - 2147483648.

(** "%x:%x:%x:%x:%x:%x": the six numbers, or [None]. *)
Fixpoint scan_list (n : nat) (s : text) : option (list Z) :=
  match n with
  | O => Some []
  | S n' =>
      '(v, s) ← scan_x s;
      match n' with
      | O => Some [v]
      | S _ => match s with c :: s' => if c =? 58 then vs ← scan_list n' s'; Some (v :: vs) else None | [] => None end
      end
  end.

Definition hex_digit (d : Z) : Z := if d <? 10 then 48 + d else 55 + d.
(** "%02X". *)
Definition hex2 (b : Z) : text := [hex_digit (b / 16); hex_digit (b mod 16)].
