(* ===== verification/Rfcomm.v ===== *)
(** Rfcomm: the RFCOMM session of package/tester1/btrfcomm.cpp: addresses, the
    controller, listening, connecting, the session and the command.  What the
    process holds in the kernel and in the event loop is part of the state; how
    calls answer is the environment's. *)

From S2P Require Import Prelude Buf Eff ByteStr CNum.

Open Scope eff_scope.

(* ------------------------------------------------------------------ *)
(** ** Addresses *)

(** [bdaddr_t]: six bytes. *)
Definition bdaddr : Type := list Z.

(** [ba2str] into 18 bytes. *)
Definition ba2str (ba : bdaddr) : text :=
  take 17 (match ba with
  | [b0; b1; b2; b3; b4; b5] =>
      hex2 b5 ++ [58] ++ hex2 b4 ++ [58] ++ hex2 b3 ++ [58] ++ hex2 b2 ++ [58] ++ hex2 b1 ++ [58] ++ hex2 b0
  | _ => []
  end).

(** [str2ba]: the address, or [None] for -1. *)
Definition str2ba (s : text) : option bdaddr :=
  b ← scan_list 6 s;
  if forallb (fun v => v <=? 255) b then Some (rev b) else None.

(* ------------------------------------------------------------------ *)
(** ** State *)

Inductive bt_st : Type := bt_st_idle | bt_st_listen | bt_st_connecting | bt_st_connected.
Inductive bt_cb : Type := bt_rx_cb | bt_accept_cb | bt_connect_cb.

Definition FLAG_READ : Z := 1.
Definition FLAG_WRITE : Z := 2.
Definition FLAG_EXCEPT : Z := 4.
Definition FLAG_TIMEOUT : Z := 8.
Definition INFINITE : Z := 18446744073709551615.
Definition has (ev flag : Z) : bool := negb (Z.land ev flag =? 0).

(** [bt2_t]: [evconn.fd], [evconn.ev], then its own fields; [hci_id] stays 0. *)
Record bt2 : Type := Bt2 {
  evfd : Z; ev : option Z; state : bt_st; hci_id : Z; channel : Z; peer : text; rx : list Z }.

(** A registration with the event loop: its handle and what it was made with. *)
Record reg : Type := Reg { r_id : Z; r_fd : Z; r_ev : Z; r_timeout : Z; r_cb : bt_cb }.

(** [bt_global] with what it points at, the open descriptors, the registrations,
    the next handle, the calls answered, the bytes sent, latest last, on which
    descriptor, and the scan modes set. *)
Record world : Type := World {
  dev : option bt2; fds : list Z; regs : list reg; handle : Z; used : nat;
  sent : list (Z * list Z); scans : list Z }.

(** One [recv]: interrupted, nothing there, failed, or bytes, none at the end;
    one [send]: interrupted, failed, or so many bytes taken. *)
Inductive recv_ans : Type := RxIntr | RxAgain | RxErr | RxBytes (l : list Z).
Inductive send_ans : Type := TxIntr | TxErr | Tx (n : nat).

(** Call number [n]: its result, negative for a failure; the peer of an accept;
    the pending error of a socket; the answers to a loop of receives or sends. *)
Record env : Type := Env {
  e_ret : nat -> Z; e_errno : nat -> Z; e_peer : nat -> bdaddr * Z; e_soerr : nat -> Z;
  e_recv : nat -> list recv_ans; e_send : nat -> list send_ans }.

Definition EINTR : Z := 4.
Definition EAGAIN : Z := 11.
Definition EALREADY : Z := 114.
Definition EINPROGRESS : Z := 115.

Definition B (A : Type) : Type := comp world A.

(* ------------------------------------------------------------------ *)
(** ** The system *)

Definition upd_os (fs : list Z) (rs : list reg) (w : world) : world :=
  World (dev w) fs rs (handle w) (used w) (sent w) (scans w).
Definition set_dev (d : option bt2) : B unit :=
  modify (fun w => World d (fds w) (regs w) (handle w) (used w) (sent w) (scans w)).
Definition tick : B nat :=
  do n <- gets used;
  modify (fun w => World (dev w) (fds w) (regs w) (handle w) (S n) (sent w) (scans w));; ret n.

(** [bt2->..]: it must be allocated. *)
Definition the_dev : B bt2 := do d <- gets dev; need d.
Definition upd_dev (f : bt2 -> bt2) : B unit := do d <- the_dev; set_dev (Some (f d)).

Definition set_conn (fd : Z) (e : option Z) (d : bt2) : bt2 := Bt2 fd e (state d) (hci_id d) (channel d) (peer d) (rx d).
Definition set_state (s : bt_st) (d : bt2) : bt2 := Bt2 (evfd d) (ev d) s (hci_id d) (channel d) (peer d) (rx d).
Definition set_channel (c : Z) (d : bt2) : bt2 := Bt2 (evfd d) (ev d) (state d) (hci_id d) c (peer d) (rx d).
Definition set_peer (p : text) (d : bt2) : bt2 := Bt2 (evfd d) (ev d) (state d) (hci_id d) (channel d) p (rx d).
Definition set_rx (b : list Z) (d : bt2) : bt2 := Bt2 (evfd d) (ev d) (state d) (hci_id d) (channel d) (peer d) b.

(** [close]: of a descriptor that is open and that the event loop does not
    watch. *)
Definition close_fd (fd : Z) : B unit :=
  do l <- gets fds; do rs <- gets regs;
  if bool_decide (fd ∈ l) && negb (existsb (fun r => r_fd r =? fd) rs)
  then modify (upd_os (filter (fun x => x <> fd) l) rs) else ub.

(** [aloe_evb2_cancel]: of a handle that is registered. *)
Definition evb2_cancel (h : Z) : B unit :=
  do l <- gets fds; do rs <- gets regs;
  if existsb (fun r => r_id r =? h) rs then modify (upd_os l (filter (fun r => r_id r <> h) rs)) else ub.

Section Env.
Context (E : env).

(** A call: its result and [errno]. *)
Definition call : B (Z * Z) := do n <- tick; ret (e_ret E n, e_errno E n).

(** A call that opens a descriptor. *)
Definition open_fd : B Z :=
  do ' (r, _) <- call;
  if r <? 0 then ret (-1) else
  do l <- gets fds; do rs <- gets regs;
  let fd := new_fd r l in
  modify (upd_os (fd :: l) rs);; ret fd.

(** [aloe_evb2_add_fd]: a handle, or [None] for NULL. *)
Definition evb2_add_fd (fd evs timeout : Z) (c : bt_cb) : B (option Z) :=
  do ' (r, _) <- call;
  if r <? 0 then ret None else
  do h <- gets handle;
  modify (fun w => World (dev w) (fds w) (Reg h fd evs timeout c :: regs w) (h + 1) (used w) (sent w) (scans w));;
  ret (Some h).

Definition evconn_cancel : B unit :=
  do d <- the_dev;
  match ev d with None => ret tt | Some h => evb2_cancel h;; upd_dev (set_conn (evfd d) None) end.

(** [aloe_file_nonblock]. *)
Definition aloe_file_nonblock (fd : Z) : B Z :=
  do ' (r, e) <- call;
  if r =? -1 then ret e else
  do ' (r, e) <- call;
  if negb (r =? 0) then ret e else ret 0.

(* ------------------------------------------------------------------ *)
(** ** The controller *)

Definition SCAN_INQUIRY : Z := 1.
Definition SCAN_PAGE : Z := 2.

Definition bt_hci_fd : B Z := open_fd.

Definition bt_hci_addr (dev_id : Z) : B Z :=
  do fd <- bt_hci_fd;
  if fd <? 0 then ret (-1) else
  do ' (r, _) <- call;
  close_fd fd;;
  if negb (r =? 0) then ret (-1) else ret 0.

Definition bt_hci_up (dev_id : Z) : B Z :=
  do fd <- bt_hci_fd;
  if fd <? 0 then ret (-1) else
  do ' (r, e) <- call;
  close_fd fd;;
  if negb (r =? 0) && negb (e =? EALREADY) then ret (-1) else
  bt_hci_addr dev_id;; ret 0.

Definition bt_scan_set (dev_id scan : Z) : B Z :=
  do fd <- bt_hci_fd;
  if fd <? 0 then ret (-1) else
  do ' (r, _) <- call;
  close_fd fd;;
  if negb (r =? 0) then ret (-1) else
  modify (fun w => World (dev w) (fds w) (regs w) (handle w) (used w) (sent w) (scans w ++ [scan]));;
  ret 0.

Definition is_listen (s : bt_st) : bool := match s with bt_st_listen => true | _ => false end.
Definition is_connected (s : bt_st) : bool := match s with bt_st_connected => true | _ => false end.

Definition bt_discoverable (on : bool) : B Z :=
  do d <- the_dev;
  do r <- bt_hci_up (hci_id d);
  if negb (r =? 0) then ret (-1) else
  let scan := if on then Z.lor SCAN_INQUIRY SCAN_PAGE else if is_listen (state d) then SCAN_PAGE else 0 in
  do r <- bt_scan_set (hci_id d) scan;
  if negb (r =? 0) then ret (-1) else ret 0.

(* ------------------------------------------------------------------ *)
(** ** The session *)

Definition bt_session_close : B unit :=
  evconn_cancel;;
  (do d <- the_dev;
   if 0 <=? evfd d then close_fd (evfd d);; upd_dev (set_conn (-1) (ev d)) else ret tt);;
  upd_dev (fun d => set_peer [] (set_state bt_st_idle d)).

Definition bt_arm (evs timeout : Z) (c : bt_cb) : B Z :=
  evconn_cancel;;
  do d <- the_dev;
  do h <- evb2_add_fd (evfd d) evs timeout c;
  upd_dev (set_conn (evfd d) h);;
  match h with None => ret (-1) | Some _ => ret 0 end.

(** Making a socket ready: closed again when that fails. *)
Definition bt_rfcomm_socket : B Z :=
  do fd <- open_fd;
  if fd <? 0 then ret (-1) else
  do ' (r, _) <- call;
  if negb (r =? 0) then close_fd fd;; ret (-1) else
  do r <- aloe_file_nonblock fd;
  if negb (r =? 0) then close_fd fd;; ret (-1) else
  ret fd.

(** The loop of [bt_rx_cb]; with no answer left there is nothing to read. *)
Fixpoint rx_loop (ans : list recv_ans) : B unit :=
  match ans with
  | [] | RxAgain :: _ => ret tt
  | RxIntr :: ans' => rx_loop ans'
  | RxErr :: _ => bt_session_close
  | RxBytes l :: ans' =>
      let l := take 1023 l in
      if bool_decide (l = []) then bt_session_close else
      do d <- the_dev;
      do buf <- need (blit (rx d) 0 l);
      do buf <- need (upd buf (Z.of_nat (length l)) 0);
      upd_dev (set_rx buf);;
      rx_loop ans'
  end.

Definition rx_cb (fd evs : Z) : B unit :=
  do d <- the_dev;
  if negb (evfd d =? fd) then ret tt else
  if negb (has evs FLAG_READ) then ret tt else
  do n <- tick; rx_loop (e_recv E n).

Definition bt_arm_rx : B Z := bt_arm FLAG_READ INFINITE bt_rx_cb.

Definition accept_cb (fd evs : Z) : B unit :=
  do d <- the_dev;
  if negb (evfd d =? fd) then ret tt else
  if negb (has evs FLAG_READ) then ret tt else
  do n <- gets used;
  do conn <- open_fd;
  if conn <? 0 then ret tt else
  let (addr, ch) := e_peer E n in
  upd_dev (set_peer (ba2str addr));;
  do d <- the_dev;
  let peer_str := take 17 (peer d) in
  bt_session_close;;
  upd_dev (fun d => set_channel (u8 ch) (set_peer (take 17 peer_str) d));;
  (do d <- the_dev; upd_dev (set_conn conn (ev d)));;
  upd_dev (set_state bt_st_connected);;
  do r <- aloe_file_nonblock conn;
  if negb (r =? 0) then bt_session_close else
  do r <- bt_arm_rx;
  if negb (r =? 0) then bt_session_close else ret tt.

Definition connect_cb (fd evs : Z) : B unit :=
  do d <- the_dev;
  if negb (evfd d =? fd) then ret tt else
  if has evs (Z.lor FLAG_TIMEOUT FLAG_EXCEPT) then bt_session_close else
  if negb (has evs FLAG_WRITE) then ret tt else
  do n <- gets used;
  do ' (r, _) <- call;
  if negb (r =? 0) || negb (e_soerr E n =? 0) then bt_session_close else
  upd_dev (set_state bt_st_connected);;
  do r <- bt_arm_rx;
  if negb (r =? 0) then bt_session_close else ret tt.

(** The socket becomes the session's. *)
Definition adopt (fd ch : Z) (s : bt_st) (evs timeout : Z) (c : bt_cb) : B Z :=
  (do d <- the_dev; upd_dev (fun x => set_state s (set_channel (u8 ch) (set_conn fd (ev d) x))));;
  do r <- bt_arm evs timeout c;
  if negb (r =? 0) then bt_session_close;; ret (-1) else ret 0.

Definition bt_listen (ch : Z) : B Z :=
  if (ch <? 1) || (30 <? ch) then ret (-1) else
  do d <- the_dev;
  do r <- bt_hci_up (hci_id d);
  if negb (r =? 0) then ret (-1) else
  bt_session_close;;
  do fd <- bt_rfcomm_socket;
  if fd <? 0 then ret (-1) else
  do ' (r, _) <- call;
  if negb (r =? 0) then close_fd fd;; ret (-1) else
  do ' (r, _) <- call;
  if negb (r =? 0) then close_fd fd;; ret (-1) else
  adopt fd ch bt_st_listen FLAG_READ INFINITE bt_accept_cb.

Definition bt_connect (addr : text) (ch : Z) : B Z :=
  if (ch <? 1) || (30 <? ch) then ret (-1) else
  match str2ba addr with
  | None => ret (-1)
  | Some ba =>
      do d <- the_dev;
      do r <- bt_hci_up (hci_id d);
      if negb (r =? 0) then ret (-1) else
      bt_session_close;;
      do fd <- bt_rfcomm_socket;
      if fd <? 0 then ret (-1) else
      do ' (r, e) <- call;
      if negb (r =? 0) && negb (e =? EINPROGRESS) then close_fd fd;; ret (-1) else
      upd_dev (set_peer (ba2str ba));;
      adopt fd ch bt_st_connecting (Z.lor FLAG_WRITE FLAG_EXCEPT) 30000 bt_connect_cb
  end.

(** The loop of [bt_send] over what is left of the text; with no answer left a
    send fails. *)
Fixpoint tx_loop (fd : Z) (text : list Z) (ans : list send_ans) : B Z :=
  match text, ans with
  | [], _ => ret 0
  | _, [] | _, TxErr :: _ => bt_session_close;; ret (-1)
  | _, TxIntr :: ans' => tx_loop fd text ans'
  | _, Tx n :: ans' =>
      modify (fun w => World (dev w) (fds w) (regs w) (handle w) (used w) (sent w ++ [(fd, take n text)]) (scans w));;
      tx_loop fd (drop n text) ans'
  end.

Definition bt_send (text : list Z) : B Z :=
  do d <- the_dev;
  if negb (is_connected (state d)) || (evfd d <? 0) then ret (-1) else
  do n <- tick; tx_loop (evfd d) text (e_send E n).

(* ------------------------------------------------------------------ *)
(** ** Creation, destruction and the command *)

(** [calloc] is a call as well. *)
Definition bt_init : B bool :=
  do ' (r, _) <- call;
  if r <? 0 then set_dev None;; ret false else
  set_dev (Some (Bt2 (-1) None bt_st_idle 0 0 [] (replicate (Z.to_nat 1024) 0)));; ret true.

Definition bt_destroy : B unit :=
  do d <- gets dev;
  match d with None => ret tt | Some _ => bt_session_close;; set_dev None end.

(** The words joined by blanks, if they fit 512 bytes with their NUL. *)
Fixpoint send_text (first : bool) (words : list text) (acc : text) : option text :=
  match words with
  | [] => Some acc
  | w :: words' =>
      let piece := (if first then [] else [32]) ++ w in
      if 512 - Z.of_nat (length acc) <=? Z.of_nat (length piece) then None
      else send_text false words' (acc ++ piece)
  end.

Definition str_up : text := [117; 112].
Definition str_discoverable : text := [100; 105; 115; 99; 111; 118; 101; 114; 97; 98; 108; 101].
Definition str_on : text := [111; 110].
Definition str_off : text := [111; 102; 102].
Definition str_listen : text := [108; 105; 115; 116; 101; 110].
Definition str_connect : text := [99; 111; 110; 110; 101; 99; 116].
Definition str_send : text := [115; 101; 110; 100].
Definition str_close : text := [99; 108; 111; 115; 101].
Definition text_is (a b : text) : bool := match strcmp a b with Eq => true | _ => false end.

Definition cli_cmd_btrfcomm (argv : list text) : B Z :=
  do g <- gets dev;
  match g with
  | None => ret (-1)
  | Some d =>
      match argv with
      | [] | [_] => ret 0
      | _ :: sub :: args =>
          if text_is sub str_up then bt_hci_up (hci_id d)
          else if text_is sub str_discoverable then
            match args with
            | [] => ret (-1)
            | a :: _ =>
                if negb (text_is a str_on) && negb (text_is a str_off) then ret (-1) else bt_discoverable (text_is a str_on)
            end
          else if text_is sub str_listen then
            bt_listen (match args with a :: _ => atoi a | [] => 1 end)
          else if text_is sub str_connect then
            match args with
            | [] => ret (-1)
            | a :: args' => bt_connect a (match args' with c :: _ => atoi c | [] => 1 end)
            end
          else if text_is sub str_send then
            match args with
            | [] => ret (-1)
            | _ => match send_text true args [] with None => ret (-1) | Some t => bt_send t end
            end
          else if text_is sub str_close then bt_session_close;; ret 0
          else ret (-1)
      end
  end.

(** The event loop delivers: to the callback a registration was made with. *)
Definition deliver (r : reg) (evs : Z) : B unit :=
  match r_cb r with
  | bt_rx_cb => rx_cb (r_fd r) evs
  | bt_accept_cb => accept_cb (r_fd r) evs
  | bt_connect_cb => connect_cb (r_fd r) evs
  end.
End Env.
