(* ===== verification/RfcommSpec.v ===== *)
(** RfcommSpec: the session keeps its account of descriptors and registrations,
    follows its table of states, sends what it is given, and addresses make the
    round trip. *)

From S2P Require Import Prelude Buf Eff ByteStr CNum Rfcomm.

Open Scope eff_scope.

(* ------------------------------------------------------------------ *)
(** ** The account *)

(** The process holds [others] and the session's descriptor, which alone is
    watched, by the session's handle. *)
Record held (w : world) (d : bt2) (others : list Z) : Prop := Held {
  h_dev : dev w = Some d;
  h_rx : length (rx d) = 1024%nat;
  h_fd : evfd d = -1 \/ 0 <= evfd d;
  h_nodup : NoDup (fds w);
  h_fds : fds w ≡ₚ (if 0 <=? evfd d then [evfd d] else []) ++ others;
  h_regs : match ev d with
    | None => regs w = []
    | Some h => h < handle w /\ 0 <= evfd d /\ exists evs t c, regs w = [Reg h (evfd d) evs t c]
    end }.

(** What a state waits for. *)
Definition watch (s : bt_st) : option (Z * Z * bt_cb) :=
  match s with
  | bt_st_idle => None
  | bt_st_listen => Some (FLAG_READ, INFINITE, bt_accept_cb)
  | bt_st_connecting => Some (Z.lor FLAG_WRITE FLAG_EXCEPT, 30000, bt_connect_cb)
  | bt_st_connected => Some (FLAG_READ, INFINITE, bt_rx_cb)
  end.
Definition waits (w : world) (d : bt2) : Prop :=
  match watch (state d) with
  | None => evfd d = -1 /\ ev d = None
  | Some (evs, t, c) => 0 <= evfd d /\ exists h, ev d = Some h /\ regs w = [Reg h (evfd d) evs t c]
  end.
Definition good (w : world) (d : bt2) (others : list Z) : Prop := held w d others /\ waits w d.

(** What no operation but its own changes. *)
Definition same_out (w w' : world) : Prop := sent w' = sent w /\ regs w' = regs w.

Lemma same_out_trans w1 w2 w3 : same_out w1 w2 -> same_out w2 w3 -> same_out w1 w3.
Proof. unfold same_out. intuition congruence. Qed.

Section Ops.
Context (E : env).

Lemma tick_ok w d o (Q : nat -> world -> Prop) : held w d o ->
  (forall n w', held w' d o -> same_out w w' -> Q n w') -> wp tick w Q.
Proof. intros H HQ. unfold tick. ewp_pure. apply HQ; [ | done]. by destruct H. Qed.

Lemma call_ok w d o (Q : Z * Z -> world -> Prop) : held w d o ->
  (forall r w', held w' d o -> same_out w w' -> Q r w') -> wp (call E) w Q.
Proof. intros H HQ. unfold call. apply ewp_bind. eapply tick_ok; [done | ]. intros n w' H' S. ewp_pure. by apply HQ. Qed.

Lemma the_dev_ok w d o (Q : bt2 -> world -> Prop) : held w d o -> Q d w -> wp the_dev w Q.
Proof. intros H HQ. unfold the_dev. ewp_pure. eapply wp_need; [apply H | done]. Qed.

Lemma upd_dev_ok w d o f (Q : unit -> world -> Prop) : held w d o ->
  evfd (f d) = evfd d -> ev (f d) = ev d -> length (rx (f d)) = 1024%nat ->
  (forall w', held w' (f d) o -> same_out w w' -> Q tt w') -> wp (upd_dev f) w Q.
Proof.
  intros H H1 H2 H3 HQ. unfold upd_dev. apply ewp_bind. eapply the_dev_ok; [done | ]. unfold set_dev. ewp_pure.
  apply HQ; [ | done]. destruct H. split; cbn; rewrite ?H1, ?H2; done.
Qed.

(** A new descriptor, or none. *)
Lemma bt_open_fd_ok w d o (Q : Z -> world -> Prop) : held w d o ->
  (forall w', held w' d o -> same_out w w' -> Q (-1) w') ->
  (forall fd w', 0 <= fd -> held w' d (fd :: o) -> same_out w w' -> Q fd w') -> wp (open_fd E) w Q.
Proof.
  intros H HF HS. unfold open_fd. apply ewp_bind. eapply call_ok; [done | ]. intros [r e] w1 H1 S1.
  destruct (Z.ltb_spec r 0); ewp_pure; [by apply HF | ].
  destruct (new_fd_ok r (fds w1)) as [Hge Hn]; [done | ].
  set (fd := new_fd r (fds w1)) in *. clearbody fd. apply HS; [done | | done]. destruct H1 as [D R F N P G].
  split; try done; cbn.
  - by constructor.
  - rewrite <- Permutation_middle. by constructor.
Qed.

Lemma close_fd_ok w d fd o (Q : unit -> world -> Prop) : held w d (fd :: o) ->
  (forall w', held w' d o -> same_out w w' -> Q tt w') -> wp (close_fd fd) w Q.
Proof.
  intros [D R F N P G] HQ. unfold close_fd. ewp_pure.
  assert (Hin : fd ∈ fds w) by (rewrite P; apply elem_of_app; right; apply elem_of_cons; by left).
  assert (Hne : fd ∉ (if 0 <=? evfd d then [evfd d] else []) ++ o).
  { pose proof N as N'. rewrite P, <- Permutation_middle in N'. by apply NoDup_cons in N' as [N' _]. }
  rewrite bool_decide_true by done. assert (Hw : existsb (fun r => r_fd r =? fd) (regs w) = false).
  { destruct (ev d) as [h|]; [ | by rewrite G]. destruct G as (_ & Hge & evs & t & c & ->). cbn. rewrite orb_false_r.
    apply Z.eqb_neq. intros E1. apply Hne. rewrite (proj2 (Z.leb_le _ _)) by done. apply elem_of_app. left. rewrite <- E1. by apply elem_of_cons; left. }
  rewrite Hw. cbn [andb negb]. ewp_pure. apply HQ; [ | done]. split; try done; cbn.
  - by apply NoDup_filter.
  - apply filter_perm_cons; [done | ]. by rewrite P, <- Permutation_middle.
Qed.

Lemma bt_evconn_cancel_ok w d o (Q : unit -> world -> Prop) : held w d o ->
  (forall w', held w' (set_conn (evfd d) None d) o -> sent w' = sent w -> Q tt w') -> wp evconn_cancel w Q.
Proof.
  intros H HQ. unfold evconn_cancel. apply ewp_bind. eapply the_dev_ok; [done | ]. destruct (ev d) as [h|] eqn:Ev.
  2: { apply ewp_ret, HQ; [ | done]. destruct H as [D R F N P G]. rewrite Ev in G. split; try done. rewrite D. destruct d. cbn in *. by subst. }
  destruct H as [D R F N P G]. rewrite Ev in G. destruct G as (Hh & Hge & evs & t & c & Hr).
  apply ewp_bind. unfold evb2_cancel. ewp_pure. rewrite Hr. cbn [existsb r_id]. rewrite Z.eqb_refl. cbn [orb]. ewp_pure.
  unfold upd_dev, the_dev. ewp_pure. eapply wp_need; [exact D | ]. unfold set_dev. ewp_pure.
  apply HQ; [ | done]. split; try done; cbn [regs upd_os ev set_conn]. by rewrite ?Hr, filter_cons_False by (cbn; auto).
Qed.

(** The session's descriptor is given up or taken. *)
Lemma session_close_ok w d o (Q : unit -> world -> Prop) : held w d o ->
  (forall w' d', good w' d' o -> state d' = bt_st_idle -> channel d' = channel d -> sent w' = sent w -> Q tt w') ->
  wp bt_session_close w Q.
Proof.
  intros H HQ. unfold bt_session_close. apply ewp_bind. eapply bt_evconn_cancel_ok; [done | ]. intros w1 H1 S1.
  set (d1 := set_conn (evfd d) None d) in *. apply ewp_bind. apply ewp_bind. eapply the_dev_ok; [exact H1 | ].
  assert (Hend : forall w2 d2, held w2 d2 o -> evfd d2 = -1 -> ev d2 = None -> channel d2 = channel d -> sent w2 = sent w1 ->
    wp (upd_dev (fun d => set_peer [] (set_state bt_st_idle d))) w2 Q).
  { intros w2 d2 H2 F2 V2 C2 S2. eapply upd_dev_ok; [exact H2 | done | done | apply H2 | ]. intros w3 H3 [S3 _].
    eapply HQ; [split; [exact H3 | by split] | done | done | congruence]. }
  destruct (Z.leb_spec 0 (evfd d1)) as [Hge | Hlt].
  2: { apply ewp_ret. eapply Hend; [exact H1 | | done | done | done]. destruct (h_fd _ _ _ H1); [done | lia]. }
  destruct H1 as [D R F N P G]. rewrite (proj2 (Z.leb_le _ _) Hge) in P. cbn [app] in P.
  assert (Hin : evfd d1 ∈ fds w1) by (rewrite P; by apply elem_of_cons; left).
  apply ewp_bind. unfold close_fd. ewp_pure. rewrite bool_decide_true by done. cbn in G. rewrite G. cbn [existsb andb negb].
  ewp_pure. unfold upd_dev at 1, the_dev at 1. ewp_pure. eapply wp_need; [exact D | ]. unfold set_dev at 1. ewp_pure.
  apply (Hend _ (set_conn (-1) (ev d1) d1)); [ | done..]. split; try done; cbn; [by left | by apply NoDup_filter | ].
  by apply filter_perm_cons.
Qed.

(** Registering what the session waits for. *)
Lemma bt_arm_ok evs t c w d o (Q : Z -> world -> Prop) : held w d o -> 0 <= evfd d ->
  (forall w', held w' (set_conn (evfd d) None d) o -> sent w' = sent w -> Q (-1) w') ->
  (forall h w', held w' (set_conn (evfd d) (Some h) d) o -> regs w' = [Reg h (evfd d) evs t c] -> sent w' = sent w -> Q 0 w') ->
  wp (bt_arm E evs t c) w Q.
Proof.
  intros H Hge HF HS. unfold bt_arm. apply ewp_bind. eapply bt_evconn_cancel_ok; [done | ]. intros w1 H1 S1.
  apply ewp_bind. eapply the_dev_ok; [exact H1 | ]. unfold evb2_add_fd. apply ewp_bind. apply ewp_bind.
  eapply call_ok; [exact H1 | ]. intros [r e] w2 H2 [S2 R2]. cbn [set_conn evfd].
  assert (G2 : regs w2 = []) by apply (h_regs _ _ _ H2).
  destruct (Z.ltb_spec r 0).
  - ewp_pure. apply ewp_bind. eapply upd_dev_ok; [exact H2 | done | done | apply H2 | ]. intros w3 H3 [S3 _]. apply ewp_ret.
    apply HF; [exact H3 | congruence].
  - ewp_pure. unfold upd_dev, the_dev, set_dev. ewp_pure. eapply wp_need; [apply H2 | ]. ewp_pure.
    rewrite G2. apply (HS (handle w2)); [ | done | cbn; congruence]. destruct H2 as [D R F N P G].
    split; try done; cbn. split_and!; [lia | done | by eauto].
Qed.

Lemma socket_ok w d o (Q : Z -> world -> Prop) : held w d o ->
  (forall w', held w' d o -> same_out w w' -> Q (-1) w') ->
  (forall fd w', 0 <= fd -> held w' d (fd :: o) -> same_out w w' -> Q fd w') -> wp (bt_rfcomm_socket E) w Q.
Proof.
  intros H HF HS. unfold bt_rfcomm_socket. apply ewp_bind.
  eapply bt_open_fd_ok; [exact H | intros w1 H1 S1; apply ewp_ret; by apply HF | ]. intros fd w1 Hfd H1 S1.
  rewrite (proj2 (Z.ltb_ge _ _) Hfd). apply ewp_bind. eapply call_ok; [exact H1 | ]. intros [r e] w2 H2 S2.
  assert (Hclose : forall w3, held w3 d (fd :: o) -> same_out w1 w3 -> wp (close_fd fd;; ret (-1)) w3 Q).
  { intros w3 H3 S3. apply ewp_bind. eapply close_fd_ok; [exact H3 | ]. intros w4 H4 S4. apply ewp_ret. apply HF; eauto using same_out_trans. }
  destruct (negb _); [by apply Hclose | ]. unfold aloe_file_nonblock. apply ewp_bind, ewp_bind.
  eapply call_ok; [exact H2 | ]. intros [r1 e1] w3 H3 S3.
  destruct (r1 =? -1); [apply ewp_ret; destruct (negb _); [apply Hclose; eauto using same_out_trans | apply ewp_ret, HS; eauto using same_out_trans] | ].
  apply ewp_bind. eapply call_ok; [exact H3 | ]. intros [r2 e2] w4 H4 S4.
  destruct (negb (r2 =? 0)); apply ewp_ret; (destruct (negb _); [apply Hclose; eauto using same_out_trans | apply ewp_ret, HS; eauto using same_out_trans]).
Qed.

Lemma waits_same w w' d : waits w d -> same_out w w' -> waits w' d.
Proof. unfold waits. intros H [_ R]. destruct (watch (state d)) as [[[evs t] c]|]; [ | done]. by rewrite R. Qed.

(** The controller is asked: the session stays as it is. *)
Lemma hci_ioctl_ok w d o (k : Z * Z -> B Z) (Q : Z -> world -> Prop) : held w d o ->
  (forall w', held w' d o -> same_out w w' -> Q (-1) w') ->
  (forall x w', held w' d o -> same_out w w' -> wp (k x) w' Q) ->
  wp (do fd <- bt_hci_fd E; if fd <? 0 then ret (-1) else do ' (r, e) <- call E; close_fd fd;; k (r, e)) w Q.
Proof.
  intros H HF Hk. apply ewp_bind. eapply bt_open_fd_ok; [exact H | intros w1 H1 S1; apply ewp_ret; by apply HF | ].
  intros fd w1 Hfd H1 S1. rewrite (proj2 (Z.ltb_ge _ _) Hfd). apply ewp_bind. eapply call_ok; [exact H1 | ].
  intros [r e] w2 H2 S2. apply ewp_bind. eapply close_fd_ok; [exact H2 | ]. intros w3 H3 S3.
  apply Hk; eauto using same_out_trans.
Qed.

Lemma hci_addr_ok id w d o (Q : Z -> world -> Prop) : held w d o ->
  (forall r w', held w' d o -> same_out w w' -> Q r w') -> wp (bt_hci_addr E id) w Q.
Proof.
  intros H HQ. apply (hci_ioctl_ok w d o (fun x => if negb (x.1 =? 0) then ret (-1) else ret 0) Q H); [by auto | ].
  intros [r e] w1 H1 S1. destruct (negb _); apply ewp_ret; by apply HQ.
Qed.

Lemma hci_up_ok id w d o (Q : Z -> world -> Prop) : held w d o ->
  (forall r w', held w' d o -> same_out w w' -> Q r w') -> wp (bt_hci_up E id) w Q.
Proof.
  intros H HQ. apply (hci_ioctl_ok w d o (fun x => if negb (x.1 =? 0) && negb (x.2 =? EALREADY) then ret (-1) else bt_hci_addr E id;; ret 0) Q H); [by auto | ].
  intros [r e] w1 H1 S1. destruct (negb _ && negb _); [apply ewp_ret; by apply HQ | ]. apply ewp_bind.
  eapply hci_addr_ok; [exact H1 | ]. intros _ w2 H2 S2. apply ewp_ret, HQ; eauto using same_out_trans.
Qed.

Lemma discoverable_ok on w d o : good w d o -> wp (bt_discoverable E on) w (fun _ w' => good w' d o /\ sent w' = sent w).
Proof.
  intros [H W]. unfold bt_discoverable. apply ewp_bind. eapply the_dev_ok; [exact H | ]. apply ewp_bind.
  eapply hci_up_ok; [exact H | ]. intros r w1 H1 S1.
  assert (Hend : forall (r : Z) w2, held w2 d o -> same_out w w2 -> wp (ret r) w2 (fun (_ : Z) w' => good w' d o /\ sent w' = sent w)).
  { intros r2 w2 H2 S2. apply ewp_ret. split; [split; [done | by eapply waits_same] | apply S2]. }
  destruct (negb _); [by apply Hend | ]. apply ewp_bind. set (scan := if on then _ else _).
  apply (hci_ioctl_ok w1 d o (fun x => if negb (x.1 =? 0) then ret (-1) else
    modify (fun w => World (dev w) (fds w) (regs w) (handle w) (used w) (sent w) (scans w ++ [scan]));; ret 0) _ H1).
  - intros w2 H2 S2. eapply Hend; eauto using same_out_trans.
  - intros [r2 e2] w2 H2 S2. destruct (negb _); [apply ewp_ret; eapply Hend; eauto using same_out_trans | ]. ewp_pure.
    apply (Hend 0); [by destruct H2 | ]. eapply same_out_trans; [exact S1 | ]. eapply same_out_trans; [exact S2 | done].
Qed.

(** The socket becomes the session's, or is closed. *)
Lemma adopt_ok fd ch s evs t c w d o : held w d (fd :: o) -> evfd d = -1 -> ev d = None -> 0 <= fd ->
  watch s = Some (evs, t, c) ->
  wp (adopt E fd ch s evs t c) w (fun r w' => exists d', good w' d' o /\ sent w' = sent w /\
    (r = 0 /\ state d' = s /\ channel d' = u8 ch /\ peer d' = peer d \/ r = -1 /\ state d' = bt_st_idle)).
Proof.
  intros H F V Hfd Hs. unfold adopt. apply ewp_bind. apply ewp_bind. eapply the_dev_ok; [exact H | ].
  unfold upd_dev, the_dev, set_dev. ewp_pure. eapply wp_need; [apply H | ]. ewp_pure. rewrite V.
  set (d1 := set_state s (set_channel (u8 ch) (set_conn fd None d))). set (w1 := World _ _ _ _ _ _ _).
  assert (H1 : held w1 d1 o).
  { destruct H as [D R F0 N P G]. rewrite V in G. rewrite F in P. split; try done; cbn; [by right | ].
    by rewrite (proj2 (Z.leb_le _ _) Hfd). }
  apply ewp_bind. eapply bt_arm_ok; [exact H1 | done | | ].
  - intros w2 H2 S2. cbn [negb Z.eqb]. apply ewp_bind. eapply session_close_ok; [exact H2 | ]. intros w3 d3 G3 I3 _ S3.
    apply ewp_ret. exists d3. split_and!; [done | by rewrite S3, S2 | by right].
  - intros h w2 H2 R2 S2. cbn [negb Z.eqb]. apply ewp_ret. eexists. split; [split; [exact H2 | ] | ].
    + unfold waits. cbn [state set_conn d1 set_state]. rewrite Hs. split; [done | ]. by exists h.
    + split; [done | ]. by left.
Qed.

(** What opening a session comes to: it waits, or there is the old one or none. *)
Definition opens (s : bt_st) (ch : Z) (w : world) (d : bt2) (o : list Z) (r : Z) (w' : world) : Prop :=
  exists d', good w' d' o /\ sent w' = sent w /\
    (r = 0 /\ state d' = s /\ channel d' = ch /\ 1 <= ch <= 30 \/ r = -1 /\ (d' = d \/ state d' = bt_st_idle)).

(** Between two sessions: none. *)
Definition idle_dev (d : bt2) : Prop := state d = bt_st_idle /\ evfd d = -1 /\ ev d = None.

Lemma no_session s ch w d o w' d' : held w' d' o -> idle_dev d' -> sent w' = sent w ->
  wp (ret (-1)) w' (opens s ch w d o).
Proof.
  intros H (I & F & V) S. apply ewp_ret. exists d'. split_and!; [split; [done | ] | done | right; auto]. unfold waits. by rewrite I.
Qed.

Lemma drop_socket s ch w d o fd w' d' : held w' d' (fd :: o) -> idle_dev d' -> sent w' = sent w ->
  wp (close_fd fd;; ret (-1)) w' (opens s ch w d o).
Proof.
  intros H I S. apply ewp_bind. eapply close_fd_ok; [exact H | ]. intros w2 H2 [S2 _]. eapply no_session; [done | done | congruence].
Qed.

(** Both ways of opening start alike. *)
Lemma fresh_socket_ok s ch w d o (k : Z -> B Z) : good w d o ->
  (forall fd w' d', 0 <= fd -> held w' d' (fd :: o) -> idle_dev d' -> sent w' = sent w -> wp (k fd) w' (opens s ch w d o)) ->
  wp (do d <- the_dev; do r <- bt_hci_up E (hci_id d); if negb (r =? 0) then ret (-1) else
      bt_session_close;; do fd <- bt_rfcomm_socket E; if fd <? 0 then ret (-1) else k fd) w (opens s ch w d o).
Proof.
  intros [H W] Hk. apply ewp_bind. eapply the_dev_ok; [exact H | ]. apply ewp_bind. eapply hci_up_ok; [exact H | ]. intros r w1 H1 S1.
  destruct (negb _).
  { apply ewp_ret. exists d. split_and!; [split; [done | by eapply waits_same] | apply S1 | right; auto]. }
  apply ewp_bind. eapply session_close_ok; [exact H1 | ]. intros w2 d2 [H2 W2] I2 _ S2.
  assert (Hs : sent w2 = sent w) by (destruct S1; congruence).
  assert (Hi : idle_dev d2) by (unfold waits in W2; rewrite I2 in W2; by destruct W2).
  apply ewp_bind. eapply socket_ok; [exact H2 | intros w3 H3 [S3 _]; eapply no_session; [done | done | congruence] | ].
  intros fd w3 Hfd H3 [S3 _]. rewrite (proj2 (Z.ltb_ge _ _) Hfd). eapply Hk; [done | exact H3 | done | congruence].
Qed.

Lemma adopt_opens fd ch s evs t c w d o w' d' : held w' d' (fd :: o) -> idle_dev d' -> sent w' = sent w -> 0 <= fd ->
  watch s = Some (evs, t, c) -> 1 <= ch <= 30 -> wp (adopt E fd ch s evs t c) w' (opens s ch w d o).
Proof.
  intros H (I & F & V) S Hfd Hs Hch. eapply ewp_mono; [by eapply (adopt_ok fd ch s evs t c w' d' o) | ].
  cbv beta. intros r w6 (d6 & G6 & S6 & Hr). exists d6. split_and!; [done | congruence | ].
  destruct Hr as [(-> & I6 & C6 & _) | [-> I6]]; [left | by right; auto]. split_and!; try done; try lia. rewrite C6. apply u8_id. unfold is_u8. lia.
Qed.

Lemma bad_channel ch s w d o (k : B Z) : good w d o -> (1 <= ch <= 30 -> wp k w (opens s ch w d o)) ->
  wp (if (ch <? 1) || (30 <? ch) then ret (-1) else k) w (opens s ch w d o).
Proof.
  intros G Hk. destruct ((ch <? 1) || (30 <? ch)) eqn:Ech.
  - apply ewp_ret. exists d. split_and!; [done | done | right; auto].
  - apply orb_false_iff in Ech as [C1%Z.ltb_ge C2%Z.ltb_ge]. by apply Hk.
Qed.

Lemma listen_ok ch w d o : good w d o -> wp (bt_listen E ch) w (opens bt_st_listen ch w d o).
Proof.
  intros G. unfold bt_listen. apply bad_channel; [done | ]. intros Hch. apply fresh_socket_ok; [done | ].
  intros fd w1 d1 Hfd H1 I1 S1.
  apply ewp_bind. eapply call_ok; [exact H1 | ]. intros [r1 e1] w2 H2 [S2 _].
  destruct (negb _); [eapply drop_socket; [done | done | congruence] | ].
  apply ewp_bind. eapply call_ok; [exact H2 | ]. intros [r2 e2] w3 H3 [S3 _].
  destruct (negb _); [eapply drop_socket; [done | done | congruence] | ].
  eapply adopt_opens; [done | done | congruence | done | done | done].
Qed.

Lemma bt_connect_ok addr ch w d o : good w d o -> wp (bt_connect E addr ch) w (opens bt_st_connecting ch w d o).
Proof.
  intros G. unfold bt_connect. apply bad_channel; [done | ]. intros Hch. destruct (str2ba addr) as [ba|].
  2: { apply ewp_ret. exists d. split_and!; [done | done | right; auto]. }
  apply fresh_socket_ok; [done | ]. intros fd w1 d1 Hfd H1 I1 S1.
  apply ewp_bind. eapply call_ok; [exact H1 | ]. intros [r1 e1] w2 H2 [S2 _].
  destruct (negb _ && negb _); [eapply drop_socket; [done | done | congruence] | ].
  apply ewp_bind. eapply upd_dev_ok; [exact H2 | done | done | apply H2 | ]. intros w3 H3 [S3 _].
  eapply adopt_opens; [exact H3 | done | congruence | done | done | done].
Qed.

(* ------------------------------------------------------------------ *)
(** ** Events *)

(** The session goes on in one of some states. *)
Definition goes (S : list bt_st) (w : world) (o : list Z) (w' : world) : Prop :=
  exists d', good w' d' o /\ state d' ∈ S /\ sent w' = sent w.

Lemma close_goes S w d o : held w d o -> bt_st_idle ∈ S -> wp bt_session_close w (fun _ w' => goes S w o w').
Proof.
  intros H HS. eapply session_close_ok; [exact H | ]. intros w1 d1 G1 I1 _ S1. exists d1. by rewrite I1.
Qed.

Lemma good_rx w d o buf : good w d o -> length buf = 1024%nat ->
  wp (upd_dev (set_rx buf)) w (fun _ w' => good w' (set_rx buf d) o /\ sent w' = sent w).
Proof.
  intros [H W] Hb. eapply upd_dev_ok; [exact H | done | done | done | ]. intros w1 H1 S1.
  split; [split; [done | ] | apply S1]. by eapply waits_same.
Qed.

Lemma bt_rx_loop_ok ans : forall w d o, good w d o -> state d = bt_st_connected ->
  wp (rx_loop ans) w (fun _ w' => goes [bt_st_connected; bt_st_idle] w o w').
Proof.
  induction ans as [|a ans IH]; intros w d o G Hs; cbn [rx_loop].
  { apply ewp_ret. exists d. split_and!; [done | rewrite Hs; by left | done]. }
  destruct a as [| | |l].
  - by eapply IH.
  - apply ewp_ret. exists d. split_and!; [done | rewrite Hs; by left | done].
  - eapply close_goes; [apply G | by right; left].
  - case_bool_decide as Hl; [eapply close_goes; [apply G | by right; left] | ]. set (l' := take 1023 l) in *.
    assert (Hl' : (length l' <= 1023)%nat) by (unfold l'; rewrite length_take; lia).
    pose proof (h_rx _ _ _ (proj1 G)) as Hrx.
    apply ewp_bind. eapply the_dev_ok; [apply G | ]. apply ewp_bind.
    destruct (blit_Some (rx d) 0 l') as (b1 & Eb & Lb & _); [lia | lia | ]. eapply wp_need; [exact Eb | ].
    apply ewp_bind. eapply wp_need; [apply upd_Some; lia | ]. apply ewp_bind.
    eapply ewp_mono; [apply (good_rx w d o _ G); rewrite length_insert; lia | ]. cbv beta. intros _ w1 [G1 S1].
    eapply ewp_mono; [by eapply IH | ]. cbv beta. intros _ w2 (d2 & G2 & I2 & S2). exists d2. split_and!; [done | done | congruence].
Qed.

Lemma arm_rx_ok w d o : held w d o -> 0 <= evfd d -> state d = bt_st_connected ->
  wp (do r <- bt_arm_rx E; if negb (r =? 0) then bt_session_close else ret tt) w
    (fun _ w' => goes [bt_st_connected; bt_st_idle] w o w').
Proof.
  intros H Hge Hs. apply ewp_bind. eapply bt_arm_ok; [exact H | done | | ].
  - intros w1 H1 S1. cbn [negb Z.eqb]. eapply ewp_mono; [eapply close_goes; [exact H1 | by right; left] | ]. cbv beta.
    intros _ w2 (d2 & G2 & I2 & S2). exists d2. split_and!; [done | done | congruence].
  - intros h w1 H1 R1 S1. cbn [negb Z.eqb]. apply ewp_ret. eexists. split; [split; [exact H1 | ] | ].
    + unfold waits. cbn [state set_conn]. rewrite Hs. cbn [watch evfd ev set_conn]. by eauto.
    + split; [cbn; rewrite Hs; by left | done].
Qed.

Lemma nonblock_ok fd w d o (Q : Z -> world -> Prop) : held w d o ->
  (forall r w', held w' d o -> same_out w w' -> Q r w') -> wp (aloe_file_nonblock E fd) w Q.
Proof.
  intros H HQ. unfold aloe_file_nonblock. apply ewp_bind. eapply call_ok; [exact H | ]. intros [r1 e1] w1 H1 S1.
  destruct (r1 =? -1); [apply ewp_ret; by apply HQ | ]. apply ewp_bind. eapply call_ok; [exact H1 | ]. intros [r2 e2] w2 H2 S2.
  destruct (negb _); apply ewp_ret, HQ; eauto using same_out_trans.
Qed.

Lemma take_conn_ok fd w d o (Q : unit -> world -> Prop) : held w d (fd :: o) -> evfd d = -1 -> ev d = None -> 0 <= fd ->
  (forall w', held w' (set_conn fd None d) o -> sent w' = sent w -> Q tt w') ->
  wp (do d <- the_dev; upd_dev (set_conn fd (ev d))) w Q.
Proof.
  intros [D R F0 N P G] F V Hfd HQ. unfold upd_dev, the_dev, set_dev. ewp_pure. eapply wp_need; [exact D | ]. ewp_pure.
  eapply wp_need; [exact D | ]. ewp_pure. rewrite V in *. rewrite F in P. apply HQ; [ | done].
  split; try done; cbn; [by right | ]. by rewrite (proj2 (Z.leb_le _ _) Hfd).
Qed.

Lemma accept_ok evs w d o : good w d o -> state d = bt_st_listen ->
  wp (accept_cb E (evfd d) evs) w (fun _ w' =>
    goes (if has evs FLAG_READ then [bt_st_listen; bt_st_connected; bt_st_idle] else [bt_st_listen]) w o w').
Proof.
  intros G Hs. pose proof G as [H W]. unfold accept_cb. apply ewp_bind. eapply the_dev_ok; [exact H | ].
  rewrite Z.eqb_refl. cbn [negb]. destruct (has evs FLAG_READ); cbn [negb].
  2: { apply ewp_ret. exists d. split_and!; [done | rewrite Hs; by left | done]. }
  ewp_pure. apply ewp_bind. eapply bt_open_fd_ok; [exact H | | ].
  { intros w1 H1 S1. apply ewp_ret. exists d. split_and!; [split; [done | by eapply waits_same] | rewrite Hs; by left | apply S1]. }
  intros conn w1 Hc H1 [S1 _]. rewrite (proj2 (Z.ltb_ge _ _) Hc). destruct (e_peer E _) as [addr ch].
  apply ewp_bind. eapply upd_dev_ok; [exact H1 | done | done | apply H1 | ]. intros w2 H2 [S2 _].
  apply ewp_bind. eapply the_dev_ok; [exact H2 | ]. cbv zeta.
  apply ewp_bind. eapply session_close_ok; [exact H2 | ]. intros w3 d3 [H3 W3] I3 _ S3.
  unfold waits in W3. rewrite I3 in W3. destruct W3 as [F3 V3].
  apply ewp_bind. eapply upd_dev_ok; [exact H3 | done | done | apply H3 | ]. intros w4 H4 [S4 _].
  apply ewp_bind. eapply take_conn_ok; [exact H4 | done | done | done | ]. intros w5 H5 S5.
  apply ewp_bind. eapply upd_dev_ok; [exact H5 | done | done | apply H5 | ]. intros w6 H6 [S6 _].
  apply ewp_bind. eapply nonblock_ok; [exact H6 | ]. intros r w7 H7 [S7 _].
  assert (Hsent : sent w7 = sent w) by congruence.
  assert (Hend : forall w', goes [bt_st_connected; bt_st_idle] w7 o w' -> goes [bt_st_listen; bt_st_connected; bt_st_idle] w o w').
  { intros w' (d' & G' & I' & S'). exists d'. split_and!; [done | by right | congruence]. }
  destruct (negb _).
  - eapply ewp_mono; [eapply close_goes; [exact H7 | by right; left] | ]. cbv beta. intros _. apply Hend.
  - eapply ewp_mono; [eapply arm_rx_ok; [exact H7 | done | done] | ]. cbv beta. intros _. apply Hend.
Qed.

Lemma connected_ok evs w d o : good w d o -> state d = bt_st_connecting ->
  wp (connect_cb E (evfd d) evs) w (fun _ w' =>
    goes (if has evs (Z.lor FLAG_TIMEOUT FLAG_EXCEPT) then [bt_st_idle]
          else if has evs FLAG_WRITE then [bt_st_connected; bt_st_idle] else [bt_st_connecting]) w o w').
Proof.
  intros G Hs. pose proof G as [H W]. unfold connect_cb. apply ewp_bind. eapply the_dev_ok; [exact H | ].
  rewrite Z.eqb_refl. cbn [negb]. destruct (has evs (Z.lor _ _)); [eapply close_goes; [exact H | by left] | ].
  destruct (has evs FLAG_WRITE); cbn [negb].
  2: { apply ewp_ret. exists d. split_and!; [done | rewrite Hs; by left | done]. }
  ewp_pure. apply ewp_bind. eapply call_ok; [exact H | ]. intros [r e] w1 H1 S1.
  assert (Hend : forall w2 w', sent w2 = sent w -> goes [bt_st_connected; bt_st_idle] w2 o w' -> goes [bt_st_connected; bt_st_idle] w o w').
  { intros w2 w' S2 (d' & G' & I' & S'). exists d'. split_and!; [done | done | congruence]. }
  destruct (negb _ || negb _).
  - eapply ewp_mono; [eapply close_goes; [exact H1 | by right; left] | ]. cbv beta. intros _ w'. apply Hend, S1.
  - apply ewp_bind. eapply upd_dev_ok; [exact H1 | done | done | apply H1 | ]. intros w2 H2 [S2 _].
    unfold waits in W. rewrite Hs in W. destruct W as (Hge & _).
    eapply ewp_mono; [by eapply arm_rx_ok | ]. cbv beta. intros _ w'. apply Hend. destruct S1. congruence.
Qed.

Lemma received_ok evs w d o : good w d o -> state d = bt_st_connected ->
  wp (rx_cb E (evfd d) evs) w (fun _ w' =>
    goes (if has evs FLAG_READ then [bt_st_connected; bt_st_idle] else [bt_st_connected]) w o w').
Proof.
  intros G Hs. pose proof G as [H W]. unfold rx_cb. apply ewp_bind. eapply the_dev_ok; [exact H | ].
  rewrite Z.eqb_refl. cbn [negb]. destruct (has evs FLAG_READ); cbn [negb].
  2: { apply ewp_ret. exists d. split_and!; [done | rewrite Hs; by left | done]. }
  apply ewp_bind. eapply tick_ok; [exact H | ]. intros n w1 H1 S1.
  eapply ewp_mono; [eapply bt_rx_loop_ok; [split; [exact H1 | by eapply waits_same] | done] | ]. cbv beta.
  intros _ w' (d' & G' & I' & S'). exists d'. destruct S1. split_and!; [done | done | congruence].
Qed.

(* ------------------------------------------------------------------ *)
(** ** Sending *)

(** Chunks on a descriptor: all of the text, or the session is over. *)
Definition sends (text : list Z) (w : world) (d : bt2) (o : list Z) (r : Z) (w' : world) : Prop :=
  exists d' chunks, good w' d' o /\ sent w' = sent w ++ map (pair (evfd d)) chunks /\
    (r = 0 /\ d' = d /\ concat chunks = text \/ r = -1 /\ state d' = bt_st_idle /\ concat chunks `prefix_of` text).

Lemma tx_loop_ok ans : forall text w d o, good w d o -> wp (tx_loop (evfd d) text ans) w (sends text w d o).
Proof.
  assert (Hfail : forall text w d o, good w d o -> wp (bt_session_close;; ret (-1)) w (sends text w d o)).
  { intros text w d o [H _]. apply ewp_bind. eapply session_close_ok; [exact H | ]. intros w1 d1 G1 I1 _ S1. apply ewp_ret.
    exists d1, []. split_and!; [done | by rewrite app_nil_r | ]. right. split_and!; [done | done | apply prefix_nil]. }
  assert (Hnil : forall w d o, good w d o -> wp (ret 0) w (sends [] w d o)).
  { intros w d o G. apply ewp_ret. exists d, []. split_and!; [done | by rewrite app_nil_r | by left]. }
  induction ans as [|a ans IH]; intros [|b text] w d o G; try by apply Hnil.
  - by apply Hfail.
  - cbn [tx_loop]. destruct a as [| |n]; [by apply IH | by apply Hfail | ]. ewp_pure.
    set (w1 := World _ _ _ _ _ _ _).
    assert (G1 : good w1 d o) by (destruct G as [[] W]; split; [by split | exact W]).
    eapply ewp_mono; [by apply IH | ]. cbv beta. intros r w2 (d2 & chunks & G2 & S2 & Hr).
    exists d2, (take n (b :: text) :: chunks). split_and!; [done | rewrite S2; cbn [w1 sent map]; by rewrite <- app_assoc | ].
    destruct Hr as [(-> & -> & Hc) | (-> & I2 & [r2 Hc])]; [left | right]; split_and!; try done; cbn [concat].
    + rewrite Hc. apply take_drop.
    + exists r2. by rewrite <- app_assoc, <- Hc, take_drop.
Qed.

Lemma send_ok text w d o : good w d o ->
  wp (bt_send E text) w (fun r w' => if is_connected (state d) then sends text w d o r w' else r = -1 /\ w' = w).
Proof.
  intros G. pose proof G as [H W]. unfold bt_send. apply ewp_bind. eapply the_dev_ok; [exact H | ].
  destruct (state d) eqn:Hs; cbn [is_connected negb orb]; try by apply ewp_ret.
  unfold waits in W. rewrite Hs in W. destruct W as (Hge & Hreg). rewrite (proj2 (Z.ltb_ge _ _) Hge).
  apply ewp_bind. eapply tick_ok; [exact H | ]. intros n w1 H1 [S1 R1].
  assert (G1 : good w1 d o). { split; [done | ]. unfold waits. rewrite Hs. cbn [watch]. by rewrite R1. }
  eapply ewp_mono; [by apply tx_loop_ok | ]. cbv beta. intros r w2 (d2 & chunks & G2 & S2 & Hr). exists d2, chunks.
  split_and!; [done | by rewrite S2, S1 | done].
Qed.
End Ops.

(* ------------------------------------------------------------------ *)
(** ** Commands and events in any order *)

(** A command line, or an event for the [i]th registration. *)
Inductive bt_op : Type := Cmd (argv : list text) | Ev (i : nat) (evs : Z).

Definition do_op (E : env) (op : bt_op) : B unit :=
  match op with
  | Cmd argv => cli_cmd_btrfcomm E argv;; ret tt
  | Ev i evs => do l <- gets regs; match l !! i with Some r => deliver E r evs | None => ret tt end
  end.
Fixpoint do_ops (E : env) (l : list bt_op) : B unit :=
  match l with [] => ret tt | op :: l' => do_op E op;; do_ops E l' end.

(** Where an operation may lead. *)
Definition bt_table (s : bt_st) (op : bt_op) : list bt_st :=
  match op with
  | Ev 0 evs =>
      match s with
      | bt_st_idle => [bt_st_idle]
      | bt_st_listen => if has evs FLAG_READ then [bt_st_listen; bt_st_connected; bt_st_idle] else [bt_st_listen]
      | bt_st_connecting =>
          if has evs (Z.lor FLAG_TIMEOUT FLAG_EXCEPT) then [bt_st_idle]
          else if has evs FLAG_WRITE then [bt_st_connected; bt_st_idle] else [bt_st_connecting]
      | bt_st_connected => if has evs FLAG_READ then [bt_st_connected; bt_st_idle] else [bt_st_connected]
      end
  | Ev _ _ => [s]
  | Cmd (_ :: sub :: _) =>
      if text_is sub str_listen then [s; bt_st_idle; bt_st_listen]
      else if text_is sub str_connect then [s; bt_st_idle; bt_st_connecting]
      else if text_is sub str_send then [s; if is_connected s then bt_st_idle else s]
      else if text_is sub str_close then [bt_st_idle]
      else [s]
  | Cmd _ => [s]
  end.

Lemma text_is_eq a b : text_is a b = true -> a = b.
Proof. unfold text_is. destruct (strcmp a b) eqn:Ec; try done. intros _. by apply strcmp_eq. Qed.

Section Run.
Context (E : env).

Definition led (w : world) (d : bt2) (o : list Z) (op : bt_op) (w' : world) : Prop :=
  exists d', good w' d' o /\ state d' ∈ bt_table (state d) op.

Lemma opens_led s ch w d o op r w' : opens s ch w d o r w' ->
  state d ∈ bt_table (state d) op -> bt_st_idle ∈ bt_table (state d) op -> s ∈ bt_table (state d) op -> led w d o op w'.
Proof.
  intros (d' & G & _ & Hr) H1 H2 H3. exists d'. split; [done | ].
  destruct Hr as [(_ & -> & _) | [_ [-> | ->]]]; done.
Qed.

Lemma cmd_ok argv w d o : good w d o -> wp (cli_cmd_btrfcomm E argv) w (fun _ w' => led w d o (Cmd argv) w').
Proof.
  intros G. pose proof G as [H W]. unfold cli_cmd_btrfcomm. ewp_pure. rewrite (h_dev _ _ _ H).
  assert (Hstay : forall (r : Z) w', good w' d o -> wp (ret r) w' (fun _ w' => state d ∈ bt_table (state d) (Cmd argv) -> led w d o (Cmd argv) w')).
  { intros r w' G'. apply ewp_ret. intros Hin. by exists d. }
  assert (Hs : forall (m : B Z), state d ∈ bt_table (state d) (Cmd argv) ->
    wp m w (fun _ w' => state d ∈ bt_table (state d) (Cmd argv) -> led w d o (Cmd argv) w') -> wp m w (fun _ w' => led w d o (Cmd argv) w')).
  { intros m Hin Hm. eapply ewp_mono; [exact Hm | ]. auto. }
  destruct argv as [|a0 [|sub args]]; [apply Hs; [by left | by apply Hstay].. | ].
  destruct (text_is sub str_up) eqn:Eu.
  { apply text_is_eq in Eu as ->. eapply hci_up_ok; [exact H | ]. intros r w1 H1 S1.
    exists d. split; [split; [done | by eapply waits_same] | by left]. }
  destruct (text_is sub str_discoverable) eqn:Ed.
  { apply text_is_eq in Ed as ->. destruct args as [|a args]; [apply Hs; [by left | by apply Hstay] | ].
    destruct (negb _ && negb _); [apply Hs; [by left | by apply Hstay] | ].
    eapply ewp_mono; [by apply discoverable_ok | ]. cbv beta. intros r w1 [G1 _]. exists d. split; [done | by left]. }
  destruct (text_is sub str_listen) eqn:El.
  { eapply ewp_mono; [by apply listen_ok | ]. cbv beta. intros r w1 Ho.
    eapply opens_led; [exact Ho | cbn; rewrite El..]; [by left | by right; left | by right; right; left]. }
  destruct (text_is sub str_connect) eqn:Ec.
  { destruct args as [|a args]; [apply Hs; [cbn; rewrite El, Ec; by left | by apply Hstay] | ].
    eapply ewp_mono; [by apply bt_connect_ok | ]. cbv beta. intros r w1 Ho.
    eapply opens_led; [exact Ho | cbn; rewrite El, Ec..]; [by left | by right; left | by right; right; left]. }
  destruct (text_is sub str_send) eqn:Es.
  { assert (Hin : state d ∈ bt_table (state d) (Cmd (a0 :: sub :: args))) by (cbn; rewrite El, Ec, Es; by left).
    destruct args as [|a args]; [apply Hs; [done | by apply Hstay] | ].
    destruct (send_text true (a :: args) []) as [t|]; [ | apply Hs; [done | by apply Hstay]].
    eapply ewp_mono; [by apply send_ok | ]. cbv beta. intros r w1.
    destruct (is_connected (state d)) eqn:Econ; [ | intros [_ ->]; exists d; split; [exact G | exact Hin]].
    intros (d' & chunks & G' & _ & Hr). exists d'. split; [done | ]. destruct Hr as [(_ & -> & _) | (_ & I' & _)]; [done | ].
    cbn [bt_table]. rewrite El, Ec, Es, Econ, I'. by right; left. }
  destruct (text_is sub str_close) eqn:Ecl.
  { apply ewp_bind. eapply session_close_ok; [exact H | ]. intros w1 d1 G1 I1 _ _. apply ewp_ret.
    exists d1. split; [done | ]. cbn. rewrite El, Ec, Es, Ecl, I1. by left. }
  apply Hs; [cbn; rewrite El, Ec, Es, Ecl; by left | by apply Hstay].
Qed.

Lemma event_ok i evs w d o : good w d o -> wp (do_op E (Ev i evs)) w (fun _ w' => led w d o (Ev i evs) w').
Proof.
  intros G. pose proof G as [H W]. unfold do_op. apply ewp_bind, wp_gets.
  assert (Hnone : wp (ret tt) w (fun _ w' => goes [state d] w o w')).
  { apply ewp_ret. exists d. split_and!; [done | by left | done]. }
  assert (Hgoes : forall S m, S = bt_table (state d) (Ev i evs) -> wp m w (fun _ w' => goes S w o w') -> wp m w (fun (_ : unit) w' => led w d o (Ev i evs) w')).
  { intros S m -> Hm. eapply ewp_mono; [exact Hm | ]. cbv beta. intros _ w' (d' & G' & I' & _). by exists d'. }
  unfold waits in W. destruct (state d) eqn:Hs; cbn [watch] in W.
  - assert (Hr : regs w = []) by (destruct W as [_ V]; pose proof (h_regs _ _ _ H) as R; by rewrite V in R).
    rewrite Hr, lookup_nil. eapply Hgoes; [ | exact Hnone]. by destruct i.
  - destruct W as (_ & h & _ & ->). destruct i as [|i]; cbn [lookup list_lookup]; [ | eapply Hgoes; [ | exact Hnone]; done].
    cbn [deliver r_cb r_fd]. eapply Hgoes; [ | by apply accept_ok]. done.
  - destruct W as (_ & h & _ & ->). destruct i as [|i]; cbn [lookup list_lookup]; [ | eapply Hgoes; [ | exact Hnone]; done].
    cbn [deliver r_cb r_fd]. eapply Hgoes; [ | by apply connected_ok]. done.
  - destruct W as (_ & h & _ & ->). destruct i as [|i]; cbn [lookup list_lookup]; [ | eapply Hgoes; [ | exact Hnone]; done].
    cbn [deliver r_cb r_fd]. eapply Hgoes; [ | by apply received_ok]. done.
Qed.

Lemma op_ok op w d o : good w d o -> wp (do_op E op) w (fun _ w' => led w d o op w').
Proof.
  intros G. destruct op as [argv|i evs]; [ | by apply event_ok]. cbn [do_op]. apply ewp_bind.
  eapply ewp_mono; [by apply cmd_ok | ]. cbv beta. intros _ w' L. by apply ewp_ret.
Qed.

Lemma ops_ok l : forall w d o, good w d o -> wp (do_ops E l) w (fun _ w' => exists d', good w' d' o).
Proof.
  induction l as [|op l IH]; intros w d o G; cbn [do_ops]; [apply ewp_ret; by exists d | ].
  apply ewp_bind. eapply ewp_mono; [by apply op_ok | ]. cbv beta. intros _ w1 (d1 & G1 & _). by eapply IH.
Qed.
End Run.

(** Every operation ends. *)
Section Keeps.
Context (E : env).

Lemma keeps_tick : keeps tick.
Proof. unfold tick. keeps_steps. Qed.
Lemma keeps_call : keeps (call E).
Proof. unfold call. keeps_steps. apply keeps_tick. Qed.
Lemma keeps_the_dev : keeps the_dev.
Proof. unfold the_dev. keeps_steps. Qed.
#[local] Hint Resolve keeps_tick keeps_call keeps_the_dev : keeps.
Lemma keeps_upd_dev f : keeps (upd_dev f).
Proof. unfold upd_dev, set_dev. keeps_steps. Qed.
Lemma keeps_close_fd fd : keeps (close_fd fd).
Proof. unfold close_fd. keeps_steps. Qed.
Lemma keeps_open_fd : keeps (open_fd E).
Proof. unfold open_fd. keeps_steps. Qed.
#[local] Hint Resolve keeps_upd_dev keeps_close_fd keeps_open_fd : keeps.
Lemma keeps_cancel : keeps evconn_cancel.
Proof. unfold evconn_cancel, evb2_cancel. keeps_steps. Qed.
#[local] Hint Resolve keeps_cancel : keeps.
Lemma keeps_session_close : keeps bt_session_close.
Proof. unfold bt_session_close. keeps_steps. Qed.
Lemma keeps_arm evs t c : keeps (bt_arm E evs t c).
Proof. unfold bt_arm, evb2_add_fd. keeps_steps. Qed.
Lemma keeps_nonblock fd : keeps (aloe_file_nonblock E fd).
Proof. unfold aloe_file_nonblock. keeps_steps. Qed.
#[local] Hint Resolve keeps_session_close keeps_arm keeps_nonblock : keeps.
Lemma keeps_hci_up id : keeps (bt_hci_up E id).
Proof. unfold bt_hci_up, bt_hci_addr, bt_hci_fd. keeps_steps. Qed.
Lemma keeps_socket : keeps (bt_rfcomm_socket E).
Proof. unfold bt_rfcomm_socket. keeps_steps. Qed.
Lemma keeps_adopt fd ch s evs t c : keeps (adopt E fd ch s evs t c).
Proof. unfold adopt. keeps_steps. Qed.
#[local] Hint Resolve keeps_hci_up keeps_socket keeps_adopt : keeps.
Lemma keeps_rx_loop ans : keeps (rx_loop ans).
Proof. induction ans as [|[] ans IH]; cbn [rx_loop]; keeps_steps. Qed.
Lemma keeps_tx_loop fd ans : forall text, keeps (tx_loop fd text ans).
Proof. induction ans as [|[] ans IH]; intros [|b text]; cbn [tx_loop]; keeps_steps. Qed.
#[local] Hint Resolve keeps_rx_loop keeps_tx_loop : keeps.
Lemma keeps_command argv : keeps (cli_cmd_btrfcomm E argv).
Proof.
  unfold cli_cmd_btrfcomm, bt_discoverable, bt_scan_set, bt_hci_fd, bt_listen, bt_connect, bt_send. keeps_steps.
Qed.
Lemma keeps_op op : keeps (do_op E op).
Proof.
  destruct op; cbn [do_op]; [apply ekeeps_bind; [apply keeps_command | keeps_steps] | ].
  unfold deliver, rx_cb, accept_cb, connect_cb, bt_arm_rx. keeps_steps.
Qed.
Lemma keeps_ops l : keeps (do_ops E l).
Proof. induction l; cbn [do_ops]; keeps_steps. apply keeps_op. Qed.
Lemma keeps_destroy : keeps bt_destroy.
Proof. unfold bt_destroy, set_dev. keeps_steps. Qed.
End Keeps.

(* ------------------------------------------------------------------ *)
(** ** Texts *)

(** The words with a blank between each. *)
Fixpoint joined (words : list text) : text :=
  match words with [] => [] | [w] => w | w :: words' => w ++ [32] ++ joined words' end.

Lemma send_text_joined words : forall first acc, words <> [] ->
  (Z.of_nat (length acc) < 512) ->
  send_text first words acc =
    let t := acc ++ (if first then [] else [32]) ++ joined words in
    if 512 <=? Z.of_nat (length t) then None else Some t.
Proof.
  induction words as [|w [|w' words] IH]; intros first acc Hne Ha; [done | | ]; cbv zeta.
  - cbn [send_text joined]. rewrite (length_app acc).
    destruct (Z.leb_spec (512 - Z.of_nat (length acc)) (Z.of_nat (length ((if first then [] else [32]) ++ w))));
      destruct (Z.leb_spec 512 (Z.of_nat (length acc + length ((if first then [] else [32]) ++ w)))); done || lia.
  - change (joined (w :: w' :: words)) with (w ++ [32] ++ joined (w' :: words)).
    set (piece := (if first then [] else [32]) ++ w).
    change (send_text first (w :: w' :: words) acc) with
      (if 512 - Z.of_nat (length acc) <=? Z.of_nat (length piece) then None else send_text false (w' :: words) (acc ++ piece)).
    replace (acc ++ (if first then [] else [32]) ++ w ++ [32] ++ joined (w' :: words)) with
      ((acc ++ piece) ++ [32] ++ joined (w' :: words)) by (unfold piece; by rewrite <- !app_assoc).
    destruct (Z.leb_spec (512 - Z.of_nat (length acc)) (Z.of_nat (length piece))).
    + rewrite (proj2 (Z.leb_le _ _)); [done | ]. rewrite !length_app. lia.
    + rewrite (IH false (acc ++ piece)) by (done || rewrite length_app; lia). done.
Qed.

(** The digits of an address. *)
Definition digit_ok (d : Z) : Prop :=
  hexval (hex_digit d) = Some d /\ isspace (hex_digit d) = false /\ hex_digit d <> 45 /\ hex_digit d <> 43 /\
  hex_digit d <> 120 /\ hex_digit d <> 88.
Lemma hex_digit_ok d : 0 <= d < 16 -> digit_ok d.
Proof.
  intros Hd. assert (H : Forall (fun d => digit_ok d) (seqZ 0 16)) by (repeat (constructor; [by vm_compute | ]); constructor).
  rewrite Forall_forall in H. apply H. apply elem_of_seqZ. lia.
Qed.

Lemma scan_hex2 b tl : is_u8 b -> is_digit 16 tl = false -> scan_x (hex2 b ++ tl) = Some (b, tl).
Proof.
  intros Hb Ht. unfold is_u8 in Hb. pose proof (Z.div_mod b 16 ltac:(lia)) as Hdm.
  destruct (hex_digit_ok (b / 16)) as (V1 & S1 & M1 & P1 & X1 & Y1); [split; [apply Z.div_pos; lia | apply Z.div_lt_upper_bound; lia] | ].
  destruct (hex_digit_ok (b mod 16)) as (V2 & S2 & M2 & P2 & X2 & Y2); [apply Z.mod_pos_bound; lia | ].
  assert (H1 : 0 <= b / 16 < 16) by (split; [apply Z.div_pos; lia | apply Z.div_lt_upper_bound; lia]).
  assert (H2 : 0 <= b mod 16 < 16) by (apply Z.mod_pos_bound; lia).
  unfold hex2, scan_x. cbn [app skip_space]. rewrite S1. unfold sign.
  rewrite (proj2 (Z.eqb_neq _ _) M1), (proj2 (Z.eqb_neq _ _) P1).
  set (h := hex_digit (b / 16)) in *. set (l := hex_digit (b mod 16)) in *.
  assert (Hpre : skip_0x (h :: l :: tl) = h :: l :: tl).
  { cbn. by rewrite (proj2 (Z.eqb_neq _ _) X2), (proj2 (Z.eqb_neq _ _) Y2), andb_false_r. }
  rewrite Hpre. cbn [is_digit]. rewrite V1, (proj2 (Z.ltb_lt _ _)) by lia. cbn [digits].
  rewrite V1, V2, !(proj2 (Z.ltb_lt _ _)) by lia.
  assert (Hd : digits 16 tl (0 * 16 + b / 16 * 16 + b mod 16) = (b, tl)).
  { replace (0 * 16 + b / 16 * 16 + b mod 16) with b by lia. destruct tl as [|x tl]; [done | ]. cbn [is_digit digits] in *.
    destruct (hexval x) as [v|]; [ | done]. by rewrite Ht. }
  replace ((0 * 16 + b / 16) * 16 + b mod 16) with (0 * 16 + b / 16 * 16 + b mod 16) by lia. rewrite Hd.
  rewrite (proj2 (Z.ltb_ge _ _)) by lia. f_equal. f_equal. apply Z.mod_small. lia.
Qed.

Lemma scan_list_cons n v s tl : scan_x s = Some (v, 58 :: tl) -> scan_list (S (S n)) s = vs ← scan_list (S n) tl; Some (v :: vs).
Proof. intros H. cbn [scan_list]. by rewrite H. Qed.

(* ------------------------------------------------------------------ *)
(** ** What holds *)

(** C35: Whatever the state and however calls answer, a command or event ends,
    with descriptors and registrations accounted for, in a state the table
    lists, the session waiting for what that state waits for. *)
Theorem session_follows_table E op w d others : good w d others ->
  exists w' d', do_op E op w = Done tt w' /\ good w' d' others /\ state d' ∈ bt_table (state d) op.
Proof.
  intros G. destruct (wp_total _ _ _ (keeps_op E op) (op_ok E op w d others G)) as ([] & w' & Ew & d' & G' & I').
  by exists w', d'.
Qed.

(** Calls that succeed, as the tests below need them. *)
Definition demo_calls : env :=
  Env (fun n => if decide (n = 4%nat) then 7 else 0) (fun _ => 0) (fun _ => ([6; 5; 4; 3; 2; 1], 3)) (fun _ => 0)
    (fun _ => [RxBytes [104; 105]; RxIntr; RxBytes [33]; RxAgain]) (fun _ => [Tx 2; TxIntr; Tx 3; Tx 100]).
Definition demo_dev (s : bt_st) : bt2 := Bt2 9 (Some 0) s 0 3 [] (replicate 1024 0).
Definition demo_world (s : bt_st) (evs t : Z) (c : bt_cb) : world :=
  World (Some (demo_dev s)) [9; 0] [Reg 0 9 evs t c] 1 0 [] [].
Lemma demo_good s evs t c : watch s = Some (evs, t, c) -> good (demo_world s evs t c) (demo_dev s) [0].
Proof.
  intros Hs. split.
  - split; cbn; try done; [by right | | split_and!; [lia | lia | by eauto]].
    repeat constructor; [intros [? | H]%elem_of_cons; [done | by apply not_elem_of_nil in H] | apply not_elem_of_nil].
  - unfold waits. cbn [state demo_dev]. rewrite Hs. split; [cbn; lia | ]. by exists 0.
Qed.

(** A connection is accepted. *)
Lemma session_follows_table_witness :
  exists w' d', do_op demo_calls (Ev 0 FLAG_READ) (demo_world bt_st_listen FLAG_READ INFINITE bt_accept_cb) = Done tt w' /\
    good w' d' [0] /\ state d' ∈ [bt_st_listen; bt_st_connected; bt_st_idle] /\ state d' = bt_st_connected.
Proof.
  destruct (session_follows_table demo_calls (Ev 0 FLAG_READ) _ _ [0] (demo_good bt_st_listen FLAG_READ INFINITE bt_accept_cb eq_refl))
    as (w' & d' & E & G & I).
  exists w', d'. split_and!; [exact E | exact G | exact I | ]. pose proof (h_dev _ _ _ (proj1 G)) as D.
  revert E. vm_compute. intros [= <-]. cbn in D. by injection D as <-.
Defined.

Lemma init_eq E w :
  let after d := World d (fds w) (regs w) (handle w) (S (used w)) (sent w) (scans w) in
  bt_init E w = if e_ret E (used w) <? 0 then Done false (after None)
    else Done true (after (Some (Bt2 (-1) None bt_st_idle 0 0 [] (replicate (Z.to_nat 1024) 0)))).
Proof. unfold bt_init, call, tick, set_dev, bind, gets, modify, ret. cbn. by destruct (_ <? 0). Qed.

(** Whatever happens between them, creation and destruction leave the
    process with the descriptors it had, none of them watched. *)
Theorem session_gives_back E others ops : NoDup others ->
  exists w', (do ok <- bt_init E; if ok : bool then do_ops E ops;; bt_destroy else ret tt)
      (World None others [] 0 0 [] []) = Done tt w' /\
    dev w' = None /\ regs w' = [] /\ fds w' ≡ₚ others.
Proof.
  intros Hn. set (w := World None others [] 0 0 [] []). pose proof (init_eq E w) as Ei. cbv zeta in Ei.
  destruct (Z.ltb_spec (e_ret E (used w)) 0).
  - rewrite (ebind_done _ _ _ _ _ Ei). eexists. by split.
  - rewrite (ebind_done _ _ _ _ _ Ei). set (d0 := Bt2 _ _ _ _ _ _ _). set (w0 := World _ _ _ _ _ _ _).
    assert (G0 : good w0 d0 others) by (split; [by split; cbn; auto | done]).
    assert (W : wp (do_ops E ops;; bt_destroy) w0 (fun _ w' => dev w' = None /\ regs w' = [] /\ fds w' ≡ₚ others)).
    { apply ewp_bind. eapply ewp_mono; [by eapply ops_ok | ]. cbv beta. intros _ w1 (d1 & [H1 W1]).
      unfold bt_destroy. apply ewp_bind, wp_gets. rewrite (h_dev _ _ _ H1). apply ewp_bind.
      eapply session_close_ok; [exact H1 | ]. intros w2 d2 [H2 W2] I2 _ _. unfold waits in W2. rewrite I2 in W2. destruct W2 as [F2 V2].
      unfold set_dev. ewp_pure. destruct H2 as [_ _ _ _ P G]. rewrite V2 in G. rewrite F2 in P. by split_and!. }
    destruct (wp_total _ _ _ (ekeeps_bind _ _ (keeps_ops E ops) (fun _ => keeps_destroy)) W) as ([] & w' & Ew & Hw).
    exists w'. split; [exact Ew | exact Hw].
Qed.

Lemma session_gives_back_witness :
  exists w', (do ok <- bt_init demo_calls; if ok : bool then do_ops demo_calls [Cmd [[98]; str_listen]; Ev 0 FLAG_READ; Cmd [[98]; str_close]];; bt_destroy else ret tt)
      (World None [0; 1; 2] [] 0 0 [] []) = Done tt w' /\
    dev w' = None /\ regs w' = [] /\ fds w' ≡ₚ [0; 1; 2].
Proof.
  apply (session_gives_back demo_calls [0; 1; 2] [Cmd [[98]; str_listen]; Ev 0 FLAG_READ; Cmd [[98]; str_close]]).
  apply (bool_decide_unpack _). vm_compute. exact I.
Defined.

(** "send" with words that fit puts them out with blanks between, all of it
    and in order however the socket takes it, on the session's descriptor, or
    part of it and the session is closed; words that do not fit are refused. *)
Theorem words_sent_whole E cmd words w d others : good w d others -> state d = bt_st_connected -> words <> [] ->
  exists r w', cli_cmd_btrfcomm E (cmd :: str_send :: words) w = Done r w' /\
    if 512 <=? Z.of_nat (length (joined words)) then r = -1 /\ w' = w else
    exists d' chunks, good w' d' others /\ sent w' = sent w ++ map (pair (evfd d)) chunks /\
      (r = 0 /\ d' = d /\ concat chunks = joined words \/
       r = -1 /\ state d' = bt_st_idle /\ concat chunks `prefix_of` joined words).
Proof.
  intros G Hs Hw. eapply wp_total; [apply keeps_command | ]. unfold cli_cmd_btrfcomm. ewp_pure.
  rewrite (h_dev _ _ _ (proj1 G)). change (text_is str_send str_up) with false. change (text_is str_send str_discoverable) with false.
  change (text_is str_send str_listen) with false. change (text_is str_send str_connect) with false.
  change (text_is str_send str_send) with true. cbv iota.
  assert (Hm : forall m k : B Z, match words with [] => m | _ :: _ => k end = k) by (by destruct words). rewrite Hm.
  rewrite send_text_joined by (done || cbn; lia). cbv zeta. cbn [app].
  destruct (Z.leb_spec 512 (Z.of_nat (length (joined words)))); [by apply ewp_ret | ].
  eapply ewp_mono; [by apply send_ok | ]. cbv beta. intros r w1. by rewrite Hs.
Qed.

(** "hi all", in pieces of two, three and one. *)
Lemma words_sent_whole_witness :
  exists r w', cli_cmd_btrfcomm demo_calls [[98]; str_send; [104; 105]; [97; 108; 108]]
      (demo_world bt_st_connected FLAG_READ INFINITE bt_rx_cb) = Done r w' /\
    sent w' = [(9, [104; 105]); (9, [32; 97; 108]); (9, [108])] /\ r = 0.
Proof.
  destruct (words_sent_whole demo_calls [98] [[104; 105]; [97; 108; 108]] _ _ [0]
    (demo_good bt_st_connected FLAG_READ INFINITE bt_rx_cb eq_refl) eq_refl) as (r & w' & E & _); [done | ].
  exists r, w'. split; [exact E | ]. revert E. vm_compute. intros [= <- <-]. done.
Defined.

(** An address that is printed is read back. *)
Theorem address_roundtrip ba : length ba = 6%nat -> Forall is_u8 ba -> str2ba (ba2str ba) = Some ba.
Proof.
  intros Hl Hu. do 6 (destruct ba as [|? ba]; [done | ]). destruct ba; [ | done].
  repeat match goal with H : Forall _ (_ :: _) |- _ => apply Forall_cons in H as [? H] end.
  unfold str2ba, ba2str. rewrite firstn_all2 by (cbn; lia).
  assert (H58 : forall l, is_digit 16 (58 :: l) = false) by done.
  do 5 (erewrite scan_list_cons by (by apply scan_hex2)). cbn [scan_list]. rewrite <- (app_nil_r (hex2 z)), scan_hex2 by done.
  cbn [mbind option_bind]. unfold is_u8 in *. cbn [forallb]. rewrite !(proj2 (Z.leb_le _ _)) by lia. done.
Qed.

Lemma address_roundtrip_witness : str2ba (ba2str [1; 32; 255; 10; 160; 0]) = Some [1; 32; 255; 10; 160; 0].
Proof. apply address_roundtrip; [done | ]. apply (bool_decide_unpack _). vm_compute. exact I. Defined.

(* ------------------------------------------------------------------ *)
(** ** What does not *)

(** The socket is non-blocking, and a send that would block closes the session
    like any failure, after part of the text. *)
Lemma full_socket_closes E : e_send E 0 = [Tx 2; TxErr] ->
  match cli_cmd_btrfcomm E [[98]; str_send; [104; 105; 33]] (demo_world bt_st_connected FLAG_READ INFINITE bt_rx_cb) with
  | Done r w' => r = -1 /\ sent w' = [(9, [104; 105])] /\ (state <$> dev w') = Some bt_st_idle /\ fds w' = [0]
  | _ => False
  end.
Proof. intros He. cbv -[e_send]. rewrite He. by vm_compute. Qed.

(** A channel of more than 32 bits is cut: this one is channel 1. *)
Lemma channel_is_cut : atoi [52; 50; 57; 52; 57; 54; 55; 50; 57; 55] = 1.
Proof. reflexivity. Qed.

(** What follows an address is ignored, and its bytes may have a sign. *)
Lemma loose_address : str2ba [49; 58; 50; 58; 43; 51; 58; 52; 58; 53; 58; 54; 122; 122] = Some [6; 5; 4; 3; 2; 1].
Proof. reflexivity. Qed.
