(* ===== verification/Ev.v ===== *)
(** Ev: the one-shot event loop of package/aloe/sys_linux/ev.c.  A queue is the
    list of its nodes, each with its address; nodes move between queues and are
    freed with the context.  Clock, allocator, the kernel's refusals, what a
    wait finds and what callbacks do come from an environment. *)

From stdpp Require Import gmap.
From S2P Require Import Prelude Eff.

Open Scope eff_scope.

(* ------------------------------------------------------------------ *)
(** ** Constants *)

(** [aloe_ev_flag_t]. *)
Definition ev_read : Z := 1.
Definition ev_write : Z := 2.
Definition ev_except : Z := 4.
Definition ev_time : Z := 8.

Definition EPOLLIN : Z := 0x1.
Definition EPOLLPRI : Z := 0x2.
Definition EPOLLOUT : Z := 0x4.
Definition EPOLLERR : Z := 0x8.
Definition EPOLLHUP : Z := 0x10.
Definition ENOENT : Z := 2.
Definition EINTR : Z := 4.
Definition EBADF : Z := 9.
Definition EEXIST : Z := 17.

Definition EPOLL_MAX : nat := 32.
Definition PREVENT_BUSY : Z := 1.

Definition has (e m : Z) : bool := negb (Z.land e m =? 0).
Definition s64 (z : Z) : Z := (z + 9223372036854775808) mod 18446744073709551616 - 9223372036854775808.

(* ------------------------------------------------------------------ *)
(** ** Times *)

(** [struct timespec]: seconds and nanoseconds, both [long]. *)
Definition timespec : Type := Z * Z.
Definition GIGA : Z := 1000000000.

(** [ALOE_EV_INFINITE], stored in [tv_sec]. *)
Definition INFINITE : Z := -1.
Definition ULONG_INFINITE : Z := 18446744073709551615.
Definition never (t : timespec) : bool := t.1 =? INFINITE.

Definition ts_cmp (a b : timespec) : comparison :=
  match a.1 ?= b.1 with Eq => a.2 ?= b.2 | c => c end.
Definition ts_lt (a b : timespec) : bool := match ts_cmp a b with Lt => true | _ => false end.
Definition ts_le (a b : timespec) : bool := match ts_cmp a b with Gt => false | _ => true end.

(** [ALOE_TIMESEC_ADD] of the arguments of [aloe_ev_put]: sums and the
    normalisation are of [unsigned long]. *)
Definition ts_add (now : timespec) (sec usec : Z) : timespec :=
  let c := s64 (now.1 + sec) in
  let n := s64 (now.2 + u64 (usec * 1000)) in
  if GIGA <=? u64 n then (s64 (c + u64 n / GIGA), u64 n mod GIGA) else (c, n).

(** [ALOE_TIMESEC_SUB]. *)
Definition ts_sub (a b : timespec) : timespec :=
  if a.2 <? b.2 then (a.1 - b.1 - 1, GIGA + a.2 - b.2) else (a.1 - b.1, a.2 - b.2).

(** What is left, in milliseconds, rounded up. *)
Definition due_to_timeout_ms (remain : timespec) : Z :=
  if INT_MAX / 1000 - 1 <? remain.1 then INT_MAX else
  let ms := remain.1 * 1000 + (remain.2 + 999999) / 1000000 in
  if INT_MAX <? ms then INT_MAX else ms.

(* ------------------------------------------------------------------ *)
(** ** State *)

(** [aloe_ev_ctx_noti_t]. *)
Record noti : Type := Noti {
  n_addr : Z; n_fd : Z; n_cb : Z; n_cbarg : Z; n_wait : Z; n_due : timespec; n_noti : Z }.
Definition set_noti (x : Z) (n : noti) : noti := Noti (n_addr n) (n_fd n) (n_cb n) (n_cbarg n) (n_wait n) (n_due n) x.

(** [aloe_ev_ctx_fd_t]. *)
Record fdg : Type := Fdg {
  f_addr : Z; f_fd : Z; ep_wait : Z; triggered : Z; ep_hup : bool; f_q : list noti }.
Definition set_f_q (q : list noti) (g : fdg) : fdg := Fdg (f_addr g) (f_fd g) (ep_wait g) (triggered g) (ep_hup g) q.
Definition set_ep_wait (m : Z) (g : fdg) : fdg := Fdg (f_addr g) (f_fd g) m (triggered g) (ep_hup g) (f_q g).
Definition set_trig (t : Z) (h : bool) (g : fdg) : fdg := Fdg (f_addr g) (f_fd g) (ep_wait g) t h (f_q g).

(** [aloe_ev_ctx_t]. *)
Record evctx : Type := Evctx {
  busy : bool; epfd : Z; fd_q : list fdg; spare_fd_q : list fdg; noti_q : list noti; spare_noti_q : list noti }.
Definition set_fd_q (q : list fdg) (c : evctx) : evctx := Evctx (busy c) (epfd c) q (spare_fd_q c) (noti_q c) (spare_noti_q c).
Definition set_spare_fd_q (q : list fdg) (c : evctx) : evctx := Evctx (busy c) (epfd c) (fd_q c) q (noti_q c) (spare_noti_q c).
Definition set_noti_q (q : list noti) (c : evctx) : evctx := Evctx (busy c) (epfd c) (fd_q c) (spare_fd_q c) q (spare_noti_q c).
Definition set_spare_noti_q (q : list noti) (c : evctx) : evctx := Evctx (busy c) (epfd c) (fd_q c) (spare_fd_q c) (noti_q c) q.

(** A call made of a client. *)
Record call : Type := Call { k_addr : Z; k_fd : Z; k_noti : Z; k_cb : Z; k_cbarg : Z }.

(** The one context, what is allocated, the next address, the kernel's interest
    set (events and [data.ptr] by descriptor), the loop's open descriptors, the
    answers used, and the calls made of clients. *)
Record world : Type := World {
  ctx : option (Z * evctx); mem : list Z; brk : Z; interest : gmap Z (Z * Z); kfds : list Z; used : nat; log : list call }.

(** What a client does: calls of ev.h, each with what follows its result. *)
Inductive prog : Type :=
  | PDone
  | PPut (fd cb cbarg ev_wait sec usec : Z) (k : option Z -> prog)
  | PGet (fd cb : Z) (k : option Z -> prog)
  | PCancel (ev : Z) (k : prog)
  | POnce (k : Z -> prog).

(** Answer number [n]: the monotonic clock, or an errno; an allocation; an errno
    of epoll_ctl, 0 when it does as asked; what epoll_wait finds, descriptors
    with events, or an errno; a new descriptor; what a callback does. *)
Record env : Type := Env {
  e_clock : nat -> Z + timespec; e_mem : nat -> bool; e_ctl : nat -> Z;
  e_wait : nat -> Z + list (Z * Z); e_epfd : nat -> Z; e_prog : nat -> prog }.

Definition L (A : Type) : Type := comp world A.

Definition set_ctx (x : option (Z * evctx)) (w : world) : world := World x (mem w) (brk w) (interest w) (kfds w) (used w) (log w).
Definition set_mem (x : list Z) (w : world) : world := World (ctx w) x (brk w) (interest w) (kfds w) (used w) (log w).
Definition set_interest (x : gmap Z (Z * Z)) (w : world) : world := World (ctx w) (mem w) (brk w) x (kfds w) (used w) (log w).
Definition set_kfds (x : list Z) (w : world) : world := World (ctx w) (mem w) (brk w) (interest w) x (used w) (log w).

Definition tick : L nat :=
  do n <- gets used;
  modify (fun w => World (ctx w) (mem w) (brk w) (interest w) (kfds w) (S n) (log w));; ret n.

(** The context: clients pass a live one. *)
Definition the_ctx : L evctx :=
  do c <- gets ctx; match c with Some (_, c) => ret c | None => misuse end.
Definition upd_ctx (f : evctx -> evctx) : L unit :=
  modify (fun w => set_ctx ((fun x => (x.1, f x.2)) <$> ctx w) w).

Section Env.
Context (E : env).

(** [malloc]: an address, or [None]. *)
Definition malloc : L (option Z) :=
  do n <- tick;
  if e_mem E n then
    do a <- gets brk;
    modify (fun w => World (ctx w) (a :: mem w) (a + 1) (interest w) (kfds w) (used w) (log w));; ret (Some a)
  else ret None.
(** [free]: of what is allocated. *)
Definition free (a : Z) : L unit :=
  do m <- gets mem;
  if bool_decide (a ∈ m) then modify (set_mem (filter (fun x => x <> a) m)) else ub.

Definition clock_gettime : L (Z + timespec) := do n <- tick; ret (e_clock E n).

(** [epoll_ctl]: an errno, 0 for success. *)
Inductive ctl : Type := CtlAdd (evs ptr : Z) | CtlMod (evs ptr : Z) | CtlDel.
Definition epoll_ctl (fd : Z) (op : ctl) : L Z :=
  do n <- tick;
  if negb (e_ctl E n =? 0) then ret (e_ctl E n) else
  do i <- gets interest;
  match op, i !! fd with
  | CtlAdd _ _, Some _ => ret EEXIST
  | CtlAdd evs ptr, None | CtlMod evs ptr, Some _ => modify (set_interest (<[fd := (evs, ptr)]> i));; ret 0
  | CtlDel, Some _ => modify (set_interest (delete fd i));; ret 0
  | CtlMod _ _, None | CtlDel, None => ret ENOENT
  end.

(** [epoll_wait]: an errno, or pointers with events: of descriptors in the set,
    what was asked for, and errors. *)
Definition found (i : gmap Z (Z * Z)) (x : Z * Z) : option (Z * Z) :=
  '(evs, ptr) ← i !! x.1;
  let e := Z.land x.2 (Z.lor evs (Z.lor EPOLLERR EPOLLHUP)) in
  if e =? 0 then None else Some (ptr, e).
Definition epoll_wait (timeout_ms : Z) : L (Z + list (Z * Z)) :=
  do n <- tick; do i <- gets interest;
  ret (match e_wait E n with inl r => inl r | inr l => inr (take EPOLL_MAX (omap (found i) l)) end).

(* ------------------------------------------------------------------ *)
(** ** Queues *)

Definition fd_q_find (q : list fdg) (fd : Z) : option fdg := List.find (fun g => f_fd g =? fd) q.

Definition noti_q_find (q : list noti) (a : Z) : option noti := List.find (fun n => n_addr n =? a) q.
Definition noti_remove (q : list noti) (a : Z) : list noti := filter (fun n => n_addr n <> a) q.

(** The group at an address is changed. *)
Definition upd_fd (a : Z) (f : fdg -> fdg) (q : list fdg) : list fdg :=
  map (fun g => if f_addr g =? a then f g else g) q.

(** [TAILQ_REMOVE] and [TAILQ_INSERT_TAIL] of an empty group. *)
Definition retire (g : fdg) (c : evctx) : evctx :=
  if bool_decide (f_q g = []) then
    set_spare_fd_q (spare_fd_q c ++ [g]) (set_fd_q (filter (fun x => f_addr x <> f_addr g) (fd_q c)) c)
  else c.

Definition to_epoll (ev_wait : Z) : Z :=
  Z.lor (if has ev_wait ev_read then EPOLLIN else 0)
    (Z.lor (if has ev_wait ev_write then EPOLLOUT else 0) (if has ev_wait ev_except then EPOLLPRI else 0)).
Definition from_epoll (e : Z) : Z :=
  Z.lor (if has e (Z.lor EPOLLIN EPOLLHUP) then ev_read else 0)
    (Z.lor (if has e EPOLLOUT then ev_write else 0)
      (if has e (Z.lor EPOLLPRI (Z.lor EPOLLERR EPOLLHUP)) then ev_except else 0)).

Definition wait_mask (q : list noti) : Z := fold_left (fun m n => Z.lor m (n_wait n)) q 0.

(** [fd_ep_refresh]: the result and the group. *)
Definition fd_ep_refresh (g : fdg) : L (Z * fdg) :=
  if f_fd g <? 0 then ret (0, g) else
  let mask := wait_mask (f_q g) in
  if mask =? 0 then
    do r <- epoll_ctl (f_fd g) CtlDel;
    if negb (r =? 0) && negb (r =? ENOENT) && negb (r =? EBADF) then ret (-1, g)
    else ret (0, set_ep_wait 0 g)
  else if mask =? ep_wait g then ret (0, g) else
  do r <- epoll_ctl (f_fd g) (CtlAdd (to_epoll mask) (f_addr g));
  if r =? 0 then ret (0, set_ep_wait mask g) else
  if r =? EEXIST then
    do r <- epoll_ctl (f_fd g) (CtlMod (to_epoll mask) (f_addr g));
    if r =? 0 then ret (0, set_ep_wait mask g) else ret (-1, g)
  else ret (-1, g).

(** The group at an address of [fd_q] is written. *)
Definition put_group (g : fdg) : L unit :=
  upd_ctx (fun c => set_fd_q (upd_fd (f_addr g) (fun _ => g) (fd_q c)) c).
Definition refresh (g : fdg) : L (Z * fdg) :=
  do x <- fd_ep_refresh g; put_group x.2;; ret x.
Definition push_spare (n : noti) : L unit :=
  upd_ctx (fun c => set_spare_noti_q (spare_noti_q c ++ [n]) c).

(* ------------------------------------------------------------------ *)
(** ** Registration *)

Definition aloe_ev_get (fd cb : Z) : L (option Z) :=
  do c <- the_ctx;
  ret (g ← fd_q_find (fd_q c) fd; n_addr <$> List.find (fun n => n_cb n =? cb) (f_q g)).

(** The group for a descriptor: the one in the queue, or a spare or new one,
    which is in no queue yet. *)
Definition get_group (fd : Z) : L (option (fdg * bool)) :=
  do c <- the_ctx;
  match fd_q_find (fd_q c) fd with
  | Some g => ret (Some (g, true))
  | None =>
      match spare_fd_q c with
      | g :: q => upd_ctx (set_spare_fd_q q);; ret (Some (g, false))
      | [] => do a <- malloc; ret ((fun a => (Fdg a 0 0 0 false [], false)) <$> a)
      end
  end.

(** The address for a registration: a spare one's or a new one. *)
Definition get_noti : L (option Z) :=
  do c <- the_ctx;
  match spare_noti_q c with
  | n :: q => upd_ctx (set_spare_noti_q q);; ret (Some (n_addr n))
  | [] => malloc
  end.

Definition due_of (sec usec : Z) : L (option timespec) :=
  if sec =? ULONG_INFINITE then ret (Some (INFINITE, 0)) else
  do t <- clock_gettime;
  ret (match t with inl _ => None | inr now => Some (ts_add now sec usec) end).

(** The registration is chained to its group, and taken back when the kernel
    refuses. *)
Definition chain (inq : bool) (g : fdg) (n : noti) : L (option Z) :=
  let g := set_f_q (f_q g ++ [n]) g in
  put_group g;;
  do x <- refresh g;
  if x.1 =? 0 then ret (Some (n_addr n)) else
  let g := set_f_q (noti_remove (f_q x.2) (n_addr n)) x.2 in
  put_group g;;
  push_spare n;;
  (if inq : bool then ret tt else upd_ctx (retire g));; ret None.

Definition aloe_ev_put (fd cb cbarg ev_wait sec usec : Z) : L (option Z) :=
  do due <- due_of sec usec;
  match due with
  | None => ret None
  | Some due =>
      do gg <- get_group fd;
      match gg with
      | None => ret None
      | Some (g, inq) =>
          do a <- get_noti;
          match a with
          | None =>
              (if inq : bool then ret tt else upd_ctx (fun c => set_spare_fd_q (spare_fd_q c ++ [g]) c));; ret None
          | Some a =>
              let g := if inq : bool then g else Fdg (f_addr g) fd 0 0 false [] in
              (if inq : bool then ret tt else upd_ctx (fun c => set_fd_q (fd_q c ++ [g]) c));;
              chain inq g (Noti a fd cb cbarg ev_wait due 0)
          end
      end
  end.

(** The registration at an address, whichever queue it is in. *)
Definition all_notis (c : evctx) : list noti := concat (map f_q (fd_q c)) ++ noti_q c ++ spare_noti_q c.

(** [aloe_ev_cancel]: of a handle that [aloe_ev_put] returned. *)
Definition aloe_ev_cancel (ev : Z) : L unit :=
  do c <- the_ctx;
  match noti_q_find (all_notis c) ev with
  | None => misuse
  | Some n =>
      match (g ← fd_q_find (fd_q c) (n_fd n); n' ← noti_q_find (f_q g) ev; Some (g, n')) with
      | Some (g, n') =>
          let g := set_f_q (noti_remove (f_q g) ev) g in
          put_group g;;
          push_spare n';;
          do x <- refresh g;
          upd_ctx (retire x.2)
      | None =>
          match noti_q_find (noti_q c) ev with
          | Some n' =>
              upd_ctx (fun c => set_noti_q (noti_remove (noti_q c) ev) c);;
              push_spare n'
          | None => ret tt
          end
      end
  end.

(** A client's calls; [once] is what its [aloe_ev_once] does. *)
Fixpoint run_prog (once : L Z) (p : prog) : L unit :=
  match p with
  | PDone => ret tt
  | PPut fd cb cbarg ev_wait sec usec k => do r <- aloe_ev_put fd cb cbarg ev_wait sec usec; run_prog once (k r)
  | PGet fd cb k => do r <- aloe_ev_get fd cb; run_prog once (k r)
  | PCancel ev k => aloe_ev_cancel ev;; run_prog once k
  | POnce k => do r <- once; run_prog once (k r)
  end.

(* ------------------------------------------------------------------ *)
(** ** A pass *)

(** The earliest of two times; [None]: none yet. *)
Definition nearer (due : option timespec) (n : noti) : option timespec :=
  if never (n_due n) then due else
  match due with
  | None => Some (n_due n)
  | Some d => if ts_lt (n_due n) d then Some (n_due n) else due
  end.
Definition nearest (q : list fdg) : option timespec := fold_left nearer (concat (map f_q q)) None.
Definition has_fd (q : list fdg) : bool := existsb (fun g => 0 <=? f_fd g) q.

(** [timeout_ms], given the time where it is asked for. *)
Definition timeout_for (c : evctx) (now : timespec) : Z :=
  let t := match nearest (fd_q c) with
    | Some due => if ts_lt now due then due_to_timeout_ms (ts_sub due now) else 0
    | None => if has_fd (fd_q c) then -1 else 0
    end in
  if negb (busy c) && (0 <=? t) && (t <? PREVENT_BUSY) then PREVENT_BUSY else t.

(** The events found, marked on the groups they point at. *)
Definition mark (g : fdg) (e : Z) : fdg := set_trig (from_epoll e) (ep_hup g || has e (Z.lor EPOLLERR EPOLLHUP)) g.
Fixpoint mark_all (evs : list (Z * Z)) : L unit :=
  match evs with
  | [] => ret tt
  | (ptr, e) :: evs' =>
      do c <- the_ctx;
      (if bool_decide (ptr ∈ map f_addr (fd_q c ++ spare_fd_q c)) then
         upd_ctx (fun c => set_spare_fd_q (upd_fd ptr (fun g => mark g e) (spare_fd_q c))
           (set_fd_q (upd_fd ptr (fun g => mark g e) (fd_q c)) c))
       else ub);;
      mark_all evs'
  end.

(** What a registration is notified of. *)
Definition notified (g : fdg) (now : timespec) (n : noti) : Z :=
  let e := Z.land (triggered g) (n_wait n) in
  if negb (e =? 0) then e
  else if ep_hup g then Z.lor e ev_except
  else if negb (never (n_due n)) && ts_le (n_due n) now then Z.lor e ev_time
  else e.

(** One group: what is notified goes to [noti_q]. *)
Definition collect_group (now : timespec) (g : fdg) : L unit :=
  let q := map (fun n => set_noti (notified g now n) n) (f_q g) in
  let g := set_f_q (filter (fun n => n_noti n = 0) q) g in
  put_group g;;
  upd_ctx (fun c => set_noti_q (noti_q c ++ filter (fun n => n_noti n <> 0) q) c);;
  do x <- refresh g;
  upd_ctx (retire x.2).
Fixpoint collect (now : timespec) (gs : list fdg) : L unit :=
  match gs with [] => ret tt | g :: gs' => collect_group now g;; collect now gs' end.

(** The callbacks: each may register, look up, cancel and run the loop. *)
Definition called (n : noti) : call := Call (n_addr n) (n_fd n) (n_noti n) (n_cb n) (n_cbarg n).
Definition callback (once : L Z) (n : noti) : L unit :=
  do i <- tick;
  modify (fun w => World (ctx w) (mem w) (brk w) (interest w) (kfds w) (used w) (log w ++ [called n]));;
  run_prog once (e_prog E i).
Fixpoint dispatch (once : L Z) (fuel : nat) (nnoti : Z) : L Z :=
  do c <- the_ctx;
  match noti_q c with
  | [] => ret nnoti
  | n :: q =>
      upd_ctx (set_noti_q q);; push_spare n;;
      callback once n;;
      match fuel with O => deep | S f => dispatch once f (nnoti + 1) end
  end.

(** The wait: its events, or what [aloe_ev_once] returns. *)
Definition wait : L (Z + list (Z * Z)) :=
  do c <- the_ctx;
  do t <- match nearest (fd_q c) with Some _ => clock_gettime | None => ret (inr (0, 0)) end;
  match t with
  | inl r => ret (inl (- r))
  | inr now =>
      do evs <- epoll_wait (timeout_for c now);
      ret (match evs with inl r => inl (if r =? EINTR then 0 else - r) | inr l => inr l end)
  end.

(** What was found is sorted out and the clients are called. *)
Definition handle_events (once : L Z) (evs : list (Z * Z)) : L Z :=
  mark_all evs;;
  do t <- clock_gettime;
  match t with
  | inl r => ret (- r)
  | inr now =>
      do c <- the_ctx;
      collect now (fd_q c);;
      do c <- the_ctx;
      dispatch once (length (noti_q c)) 0
  end.

(** Callbacks may run the loop again, [d] deep. *)
Fixpoint aloe_ev_once (d : nat) : L Z :=
  upd_ctx (fun c => set_fd_q (map (set_trig 0 false) (fd_q c)) c);;
  do evs <- wait;
  match evs with
  | inl r => ret r
  | inr evs => handle_events (match d with O => misuse | S d => aloe_ev_once d end) evs
  end.

(* ------------------------------------------------------------------ *)
(** ** Creation and destruction *)

Definition aloe_ev_init (flag : Z) : L bool :=
  do c0 <- gets ctx;
  match c0 with
  | Some _ => misuse
  | None =>
      do a <- malloc;
      match a with
      | None => ret false
      | Some a =>
          do n <- tick;
          let fd := e_epfd E n in
          if fd <? 0 then free a;; ret false else
          do l <- gets kfds;
          let fd := new_fd fd l in
          modify (set_kfds (fd :: l));;
          modify (set_ctx (Some (a, Evctx (negb (flag =? 0)) fd [] [] [] [])));; ret true
      end
  end.

Fixpoint free_all (l : list Z) : L unit :=
  match l with [] => ret tt | a :: l' => free a;; free_all l' end.
Fixpoint free_groups (l : list fdg) : L unit :=
  match l with [] => ret tt | g :: l' => free_all (map n_addr (f_q g));; free (f_addr g);; free_groups l' end.

Definition aloe_ev_destroy : L unit :=
  do c0 <- gets ctx;
  match c0 with
  | None => misuse
  | Some (a, c) =>
      free_groups (fd_q c);;
      free_all (map f_addr (spare_fd_q c));;
      free_all (map n_addr (noti_q c));;
      free_all (map n_addr (spare_noti_q c));;
      (if 0 <=? epfd c then
         do l <- gets kfds;
         (if bool_decide (epfd c ∈ l) then modify (set_kfds (filter (fun x => x <> epfd c) l)) else ub)
       else ret tt);;
      modify (set_interest ∅);;
      free a;;
      modify (set_ctx None)
  end.
End Env.
