(* ===== verification/EvInv.v ===== *)
(** EvInv: how the queues of the loop fit the memory and the kernel's interest
    set, and the operations that keep it so. *)

From stdpp Require Import gmap.
From S2P Require Import Prelude Eff Ev.

Open Scope eff_scope.

(* ------------------------------------------------------------------ *)
(** ** Queues as lists *)

Lemma fd_find_split q fd g : fd_q_find q fd = Some g -> exists l1 l2, q = l1 ++ g :: l2 /\ f_fd g = fd.
Proof.
  induction q as [|x q IH]; [done | ]. cbn. destruct (Z.eqb_spec (f_fd x) fd) as [He | He].
  - intros [= ->]. by exists [], q.
  - intros H. destruct (IH H) as (l1 & l2 & -> & Hg). by exists (x :: l1), l2.
Qed.
Lemma fd_find_none q fd : fd_q_find q fd = None -> fd ∉ map f_fd q.
Proof.
  induction q as [|x q IH]; [intros _; apply not_elem_of_nil | ]. cbn. destruct (Z.eqb_spec (f_fd x) fd); [done | ].
  intros H [? | Hin]%elem_of_cons; [done | by apply IH].
Qed.
Lemma fd_find_mid l1 g l2 : NoDup (map f_fd (l1 ++ g :: l2)) -> fd_q_find (l1 ++ g :: l2) (f_fd g) = Some g.
Proof.
  induction l1 as [|x l1 IH]; cbn; [by rewrite Z.eqb_refl | ]. intros [Hx Hn]%NoDup_cons.
  destruct (Z.eqb_spec (f_fd x) (f_fd g)) as [He | He]; [ | by apply IH]. exfalso. apply Hx. rewrite He, map_app.
  apply elem_of_app. right. by apply elem_of_cons; left.
Qed.
Lemma fd_find_other l1 g l2 g' fd : f_fd g' = f_fd g -> fd <> f_fd g ->
  fd_q_find (l1 ++ g' :: l2) fd = fd_q_find (l1 ++ g :: l2) fd.
Proof.
  intros Hg Hfd. induction l1 as [|x l1 IH]; cbn.
  - rewrite Hg. by rewrite (proj2 (Z.eqb_neq _ _)) by congruence.
  - destruct (f_fd x =? fd); [done | apply IH].
Qed.
Lemma fd_find_drop l1 g l2 fd : fd <> f_fd g -> fd_q_find (l1 ++ g :: l2) fd = fd_q_find (l1 ++ l2) fd.
Proof.
  intros Hfd. induction l1 as [|x l1 IH]; cbn.
  - by rewrite (proj2 (Z.eqb_neq _ _)) by congruence.
  - destruct (f_fd x =? fd); [done | apply IH].
Qed.

Lemma fd_find_snoc q x fd : fd_q_find (q ++ [x]) fd =
  match fd_q_find q fd with Some g => Some g | None => if f_fd x =? fd then Some x else None end.
Proof. induction q as [|y q IH]; cbn; [done | ]. destruct (f_fd y =? fd); [done | apply IH]. Qed.

Lemma upd_fd_skip a f q : a ∉ map f_addr q -> upd_fd a f q = q.
Proof.
  unfold upd_fd. induction q as [|x q IH]; [done | ]. cbn. intros [Hx Hq]%not_elem_of_cons.
  by rewrite (proj2 (Z.eqb_neq _ _)), IH by auto.
Qed.
Lemma upd_fd_mid f l1 g l2 : NoDup (map f_addr (l1 ++ g :: l2)) -> upd_fd (f_addr g) f (l1 ++ g :: l2) = l1 ++ f g :: l2.
Proof.
  rewrite map_app. intros (_ & Hd & Hn)%NoDup_app. cbn in Hn. apply NoDup_cons in Hn as [Hg _].
  unfold upd_fd. rewrite map_app. cbn [map]. rewrite Z.eqb_refl. fold (upd_fd (f_addr g) f l1) (upd_fd (f_addr g) f l2).
  rewrite !upd_fd_skip; [done | done | ]. intros Hin. apply (Hd _ Hin). by apply elem_of_cons; left.
Qed.
Lemma fd_filter_skip a q : a ∉ map f_addr q -> filter (fun x => f_addr x <> a) q = q.
Proof.
  induction q as [|x q IH]; [done | ]. rewrite map_cons. intros [Hx Hq]%not_elem_of_cons.
  rewrite filter_cons_True by auto. by rewrite IH.
Qed.
Lemma fd_filter_mid l1 g l2 : NoDup (map f_addr (l1 ++ g :: l2)) -> filter (fun x => f_addr x <> f_addr g) (l1 ++ g :: l2) = l1 ++ l2.
Proof.
  rewrite map_app. intros (_ & Hd & Hn)%NoDup_app. cbn in Hn. apply NoDup_cons in Hn as [Hg _].
  rewrite filter_app, filter_cons_False by auto. rewrite !fd_filter_skip; [done | done | ].
  intros Hin. apply (Hd _ Hin). by apply elem_of_cons; left.
Qed.

Lemma noti_find_split q a n : noti_q_find q a = Some n -> exists l1 l2, q = l1 ++ n :: l2 /\ n_addr n = a.
Proof.
  induction q as [|x q IH]; [done | ]. cbn. destruct (Z.eqb_spec (n_addr x) a) as [He | He].
  - intros [= ->]. by exists [], q.
  - intros H. destruct (IH H) as (l1 & l2 & -> & Hg). by exists (x :: l1), l2.
Qed.
Lemma noti_find_none q a : noti_q_find q a = None -> a ∉ map n_addr q.
Proof.
  induction q as [|x q IH]; [intros _; apply not_elem_of_nil | ]. cbn. destruct (Z.eqb_spec (n_addr x) a); [done | ].
  intros H [? | Hin]%elem_of_cons; [done | by apply IH].
Qed.
Lemma noti_find_mid l1 n l2 : NoDup (map n_addr (l1 ++ n :: l2)) -> noti_q_find (l1 ++ n :: l2) (n_addr n) = Some n.
Proof.
  induction l1 as [|x l1 IH]; cbn; [by rewrite Z.eqb_refl | ]. intros [Hx Hn]%NoDup_cons.
  destruct (Z.eqb_spec (n_addr x) (n_addr n)) as [He | He]; [ | by apply IH]. exfalso. apply Hx. rewrite He, map_app.
  apply elem_of_app. right. by apply elem_of_cons; left.
Qed.
Lemma noti_remove_skip q a : a ∉ map n_addr q -> noti_remove q a = q.
Proof.
  unfold noti_remove. induction q as [|x q IH]; [done | ]. rewrite map_cons. intros [Hx Hq]%not_elem_of_cons.
  rewrite filter_cons_True by auto. by rewrite IH.
Qed.
Lemma noti_remove_mid l1 n l2 : NoDup (map n_addr (l1 ++ n :: l2)) -> noti_remove (l1 ++ n :: l2) (n_addr n) = l1 ++ l2.
Proof.
  rewrite map_app. intros (_ & Hd & Hn)%NoDup_app. cbn in Hn. apply NoDup_cons in Hn as [Hg _].
  unfold noti_remove. rewrite filter_app, filter_cons_False by auto.
  fold (noti_remove l1 (n_addr n)) (noti_remove l2 (n_addr n)). rewrite !noti_remove_skip; [done | done | ].
  intros Hin. apply (Hd _ Hin). by apply elem_of_cons; left.
Qed.

#[global] Arguments fd_q_find : simpl never.
#[global] Arguments upd_fd : simpl never.
#[global] Arguments noti_q_find : simpl never.
#[global] Arguments noti_remove : simpl never.

(* ------------------------------------------------------------------ *)
(** ** The invariant *)

(** The registrations waited for. *)
Definition pending (c : evctx) : list noti := concat (map f_q (fd_q c)).
Definition addrs (c : evctx) : list Z := map f_addr (fd_q c ++ spare_fd_q c) ++ map n_addr (all_notis c).

(** The kernel takes every change asked for. *)
Definition accepts (E : env) : Prop := forall n, e_ctl E n = 0.

(** What no operation but its own changes. *)
Definition kern (w w' : world) : Prop :=
  ctx w' = ctx w /\ mem w' = mem w /\ brk w' = brk w /\ kfds w' = kfds w /\ log w' = log w.

Section Inv.
Context (E : env) (a0 ep : Z) (ks : list Z).

(** The memory: the context, [xs] held by an operation, and every node of a
    queue, once. *)
Record heap (xs : list Z) (w : world) (c : evctx) : Prop := Heap {
  h_ctx : ctx w = Some (a0, c);
  h_perm : mem w ≡ₚ a0 :: xs ++ addrs c;
  h_nodup : NoDup (mem w);
  h_brk : Forall (fun a => a < brk w) (mem w);
  h_epfd : epfd c = ep /\ kfds w = ep :: ks }.

(** The groups: one per descriptor, none empty and the kernel watching what
    they wait for, up to the one being worked on. *)
Record queues (foc : option Z) (gl : list Z) (i : gmap Z (Z * Z)) (c : evctx) : Prop := Queues {
  q_fds : NoDup (map f_fd (fd_q c));
  q_own : Forall (fun g => Forall (fun n => n_fd n = f_fd g) (f_q g)) (fd_q c);
  q_ne : Forall (fun g => f_q g = [] -> foc = Some (f_addr g)) (fd_q c);
  q_spare : Forall (fun g => f_q g = []) (spare_fd_q c);
  q_ptr : forall fd e p, i !! fd = Some (e, p) -> p ∈ gl ++ map f_addr (fd_q c ++ spare_fd_q c);
  q_neg : Forall (fun g => f_fd g < 0 -> ep_wait g = 0) (fd_q c);
  q_int : accepts E -> forall fd, i !! fd =
    g ← fd_q_find (fd_q c) fd; if ep_wait g =? 0 then None else Some (to_epoll (ep_wait g), f_addr g);
  q_mask : accepts E ->
    Forall (fun g => foc <> Some (f_addr g) -> 0 <= f_fd g -> ep_wait g = wait_mask (f_q g)) (fd_q c) }.

Definition inv (foc : option Z) (gl nl : list Z) (w : world) (c : evctx) : Prop :=
  heap (gl ++ nl) w c /\ queues foc gl (interest w) c.

(* ------------------------------------------------------------------ *)
(** ** Memory *)

Lemma heap_nodup xs w c : heap xs w c -> NoDup (a0 :: xs ++ addrs c).
Proof. intros H. pose proof (h_nodup _ _ _ H) as N. by rewrite (h_perm _ _ _ H) in N. Qed.
Lemma heap_addrs xs w c : heap xs w c -> NoDup (addrs c).
Proof. intros H%heap_nodup. apply NoDup_cons in H as [_ H]. by apply NoDup_app in H as (_ & _ & H). Qed.
Lemma heap_groups xs w c : heap xs w c -> NoDup (map f_addr (fd_q c)).
Proof.
  intros H%heap_addrs. apply NoDup_app in H as (H & _ & _). rewrite map_app in H. by apply NoDup_app in H as (H & _ & _).
Qed.
Lemma heap_notis xs w c : heap xs w c -> NoDup (map n_addr (all_notis c)).
Proof. intros H%heap_addrs. by apply NoDup_app in H as (_ & _ & H). Qed.

(** Nodes move between queues. *)
Lemma heap_move xs xs' w c c' : heap xs w c -> xs' ++ addrs c' ≡ₚ xs ++ addrs c -> epfd c' = epfd c ->
  heap xs' (set_ctx (Some (a0, c')) w) c'.
Proof. intros [] Hp He. split; cbn; try done; [by rewrite Hp | by rewrite He]. Qed.
Lemma heap_kern xs w w' c : kern w w' -> heap xs w c -> heap xs w' c.
Proof. intros (Hc & Hm & Hb & Hk & _) []. split; rewrite ?Hc, ?Hm, ?Hb, ?Hk; done. Qed.

Lemma kern_refl w : kern w w.
Proof. done. Qed.
Lemma kern_trans w1 w2 w3 : kern w1 w2 -> kern w2 w3 -> kern w1 w3.
Proof. unfold kern. intuition congruence. Qed.

Lemma the_ctx_ok xs w c (Q : evctx -> world -> Prop) : heap xs w c -> Q c w -> wp the_ctx w Q.
Proof. intros H HQ. unfold the_ctx. ewp_pure. rewrite (h_ctx _ _ _ H). by apply ewp_ret. Qed.
Lemma upd_ctx_ok xs w c f (Q : unit -> world -> Prop) : heap xs w c ->
  Q tt (set_ctx (Some (a0, f c)) w) -> wp (upd_ctx f) w Q.
Proof. intros H HQ. unfold upd_ctx. apply ewp_modify. by rewrite (h_ctx _ _ _ H). Qed.

Lemma ev_tick_ok w (Q : nat -> world -> Prop) :
  (forall w', kern w w' -> interest w' = interest w -> used w' = S (used w) -> Q (used w) w') -> wp tick w Q.
Proof. intros HQ. unfold tick. ewp_pure. by apply HQ. Qed.

Lemma ev_malloc_ok xs w c (Q : option Z -> world -> Prop) : heap xs w c ->
  (forall w', heap xs w' c -> interest w' = interest w -> log w' = log w -> Q None w') ->
  (forall a w', heap (xs ++ [a]) w' c -> interest w' = interest w -> log w' = log w -> Q (Some a) w') ->
  wp (malloc E) w Q.
Proof.
  intros H H0 H1. unfold malloc. apply ewp_bind, ev_tick_ok. intros w' K I _. apply (heap_kern _ _ _ _ K) in H.
  assert (log w' = log w) as Hl by apply K.
  destruct (e_mem E _); [ | by apply ewp_ret, H0]. ewp_pure. apply H1; [ | done | done]. destruct H. split; cbn; try done.
  - rewrite h_perm0. rewrite <- !app_assoc. cbn. rewrite <- Permutation_middle. apply perm_swap.
  - apply NoDup_cons. split; [ | done]. intros Hin%(proj1 (Forall_forall _ _) h_brk0). lia.
  - apply Forall_cons. split; [lia | ]. eapply Forall_impl; [exact h_brk0 | ]. cbn. lia.
Qed.

(* ------------------------------------------------------------------ *)
(** ** Groups *)

Lemma q_ext foc gl i c c' : fd_q c' = fd_q c -> spare_fd_q c' = spare_fd_q c ->
  queues foc gl i c -> queues foc gl i c'.
Proof. intros Hf Hs []. split; rewrite ?Hf, ?Hs; done. Qed.

Lemma Forall_swap {A} (P P' : A -> Prop) l1 x y l2 : Forall P (l1 ++ x :: l2) -> (forall z, P z -> P' z) -> P' y ->
  Forall P' (l1 ++ y :: l2).
Proof.
  intros [H1 H2]%Forall_app HP Hy. apply Forall_cons in H2 as [_ H2].
  apply Forall_app. split; [by eapply Forall_impl | ]. apply Forall_cons. split; [done | by eapply Forall_impl].
Qed.
Lemma Forall_cut {A} (P : A -> Prop) l1 x l2 : Forall P (l1 ++ x :: l2) -> P x /\ Forall P (l1 ++ l2).
Proof. intros [H1 [Hx H2]%Forall_cons]%Forall_app. split; [done | ]. by apply Forall_app. Qed.
Lemma map_swap {A B} (f : A -> B) l1 x y l2 : f y = f x -> map f (l1 ++ y :: l2) = map f (l1 ++ x :: l2).
Proof. intros H. rewrite !map_app. cbn. by rewrite H. Qed.

(** The registrations of a group change. *)
Lemma q_swap foc gl i c l1 g l2 g' : queues foc gl i c -> fd_q c = l1 ++ g :: l2 ->
  f_addr g' = f_addr g -> f_fd g' = f_fd g -> ep_wait g' = ep_wait g -> Forall (fun n => n_fd n = f_fd g) (f_q g') ->
  foc = None \/ foc = Some (f_addr g) -> queues (Some (f_addr g)) gl i (set_fd_q (l1 ++ g' :: l2) c).
Proof.
  intros [F O N S P G I M] Hq Ha Hf He Ho Hfoc. rewrite Hq in *. split; cbn.
  - by rewrite (map_swap _ _ _ _ _ Hf).
  - eapply Forall_swap; [exact O | done | by rewrite Hf].
  - eapply Forall_swap; [exact N | | by rewrite Ha]. intros z Hz Hn. specialize (Hz Hn). destruct Hfoc; congruence.
  - done.
  - intros fd e p Hp. rewrite map_app, (map_swap _ _ _ _ _ Ha), <- map_app. eapply P, Hp.
  - eapply Forall_swap; [exact G | done | rewrite Hf, He; by apply Forall_cut in G as [? _]].
  - intros A fd. rewrite (I A). destruct (Z.eq_dec fd (f_fd g)) as [-> | Hne].
    + rewrite <- Hf at 2. rewrite !fd_find_mid; [ | by rewrite (map_swap _ _ _ _ _ Hf) | done]. cbn. by rewrite He, Ha.
    + by rewrite (fd_find_other l1 g l2 g').
  - intros A. eapply Forall_swap; [exact (M A) | | rewrite Ha; done]. intros z Hz Hn. apply Hz. destruct Hfoc; congruence.
Qed.

(** The kernel is told what a group waits for. *)
Lemma q_ep foc gl i i' c l1 g l2 m : queues foc gl i c -> fd_q c = l1 ++ g :: l2 -> foc = Some (f_addr g) ->
  (forall fd e p, i' !! fd = Some (e, p) -> i !! fd = Some (e, p) \/ p = f_addr g) ->
  (f_fd g < 0 -> m = 0) ->
  (accepts E -> (forall fd, fd <> f_fd g -> i' !! fd = i !! fd) /\
    i' !! f_fd g = if m =? 0 then None else Some (to_epoll m, f_addr g)) ->
  queues foc gl i' (set_fd_q (l1 ++ set_ep_wait m g :: l2) c).
Proof.
  intros [F O N S P G I M] Hq -> Hi Hm Hk. rewrite Hq in *. split; cbn.
  - by rewrite (map_swap _ _ g).
  - eapply Forall_swap; [exact O | done | ]. by apply Forall_cut in O as [? _].
  - eapply Forall_swap; [exact N | done | by apply Forall_cut in N as [? _]].
  - done.
  - intros fd e p Hp. rewrite map_app, (map_swap _ _ g), <- map_app by done.
    destruct (Hi _ _ _ Hp) as [Ho | ->]; [by eapply P | ]. apply elem_of_app. right. rewrite !map_app.
    apply elem_of_app; left. apply elem_of_app; right. by apply elem_of_cons; left.
  - eapply Forall_swap; [exact G | done | done].
  - intros A fd. destruct (Hk A) as [Ho Hg]. destruct (Z.eq_dec fd (f_fd g)) as [-> | Hne].
    + rewrite Hg. change (f_fd g) with (f_fd (set_ep_wait m g)) at 1.
      rewrite fd_find_mid; [done | by rewrite (map_swap _ _ g)].
    + rewrite (Ho _ Hne), (I A). by rewrite (fd_find_other l1 g l2 (set_ep_wait m g)).
  - intros A. eapply Forall_swap; [exact (M A) | done | done].
Qed.

(** A group that is up to date is put aside when nothing is left of it. *)
Lemma q_retire gl i c l1 g l2 : queues (Some (f_addr g)) gl i c -> fd_q c = l1 ++ g :: l2 ->
  NoDup (map f_addr (fd_q c)) -> (accepts E -> 0 <= f_fd g -> ep_wait g = wait_mask (f_q g)) ->
  queues None gl i (retire g c).
Proof.
  intros [F O N S P G I M] Hq Hd He. unfold retire. rewrite Hq in *. pose proof (Permutation_middle l1 l2 g) as Hp.
  assert (Hne : Forall (fun h => f_addr h <> f_addr g) (l1 ++ l2)).
  { rewrite <- Hp in Hd. cbn in Hd. apply NoDup_cons in Hd as [Hd _]. apply Forall_forall. intros h Hh Heq.
    apply Hd. rewrite <- Heq. by apply list_elem_of_fmap_2. }
  case_bool_decide as Hg.
  - rewrite fd_filter_mid by done.
    assert (Hff : f_fd g ∉ map f_fd (l1 ++ l2)) by (rewrite <- Hp in F; cbn in F; by apply NoDup_cons in F as [F _]).
    split; cbn.
    + rewrite <- Hp in F. by apply NoDup_cons in F as [_ F].
    + by apply Forall_cut in O as [_ O].
    + apply Forall_cut in N as [_ N]. apply Forall_forall. intros h Hh Hz.
      pose proof (proj1 (Forall_forall _ _) N h Hh Hz). pose proof (proj1 (Forall_forall _ _) Hne h Hh). congruence.
    + apply Forall_app. split; [done | ]. by apply Forall_cons.
    + intros fd e p Hi. apply P in Hi. rewrite <- Hp in Hi. rewrite app_assoc, map_app. cbn in Hi |- *.
      rewrite <- Permutation_cons_append. exact Hi.
    + by apply Forall_cut in G as [_ G].
    + intros A fd. rewrite (I A). destruct (Z.eq_dec fd (f_fd g)) as [-> | Hnf]; [ | by rewrite fd_find_drop].
      rewrite fd_find_mid by done. cbn.
      assert (ep_wait g = 0) as ->.
      { apply Forall_cut in G as [G _]. destruct (Z.lt_ge_cases (f_fd g) 0); [by apply G | ]. rewrite He by done. by rewrite Hg. }
      cbn. destruct (fd_q_find (l1 ++ l2) (f_fd g)) as [h |] eqn:Hh; [ | done]. exfalso. apply Hff.
      apply fd_find_split in Hh as (k1 & k2 & -> & <-). rewrite map_app. apply elem_of_app; right. by apply elem_of_cons; left.
    + intros A. destruct (Forall_cut _ _ _ _ (M A)) as [_ M']. apply Forall_forall. intros h Hh _.
      apply (proj1 (Forall_forall _ _) M' h Hh). pose proof (proj1 (Forall_forall _ _) Hne h Hh). congruence.
  - split; rewrite ?Hq; try done.
    + rewrite <- Hp in *. apply Forall_cons in N as [_ N]. apply Forall_cons. split; [done | ].
      apply Forall_forall. intros h Hh Hz.
      pose proof (proj1 (Forall_forall _ _) N h Hh Hz). pose proof (proj1 (Forall_forall _ _) Hne h Hh). congruence.
    + intros A. specialize (M A). rewrite <- Hp in *. apply Forall_cons in M as [_ M]. apply Forall_cons. split; [by auto | ].
      apply Forall_forall. intros h Hh _. apply (proj1 (Forall_forall _ _) M h Hh).
      pose proof (proj1 (Forall_forall _ _) Hne h Hh). congruence.
Qed.
End Inv.
