(* ===== verification/EvOps.v ===== *)
(** EvOps: what the operations on registrations do, for clients that pass what
    they were given. *)

From stdpp Require Import gmap.
From S2P Require Import Prelude Eff Ev EvInv.

Open Scope eff_scope.

(* ------------------------------------------------------------------ *)
(** ** The kernel *)

Definition ctl_res (op : ctl) (o : option (Z * Z)) : Z :=
  match op, o with
  | CtlAdd _ _, Some _ => EEXIST
  | CtlAdd _ _, None | CtlMod _ _, Some _ | CtlDel, Some _ => 0
  | CtlMod _ _, None | CtlDel, None => ENOENT
  end.
Definition ctl_set (fd : Z) (op : ctl) (i : gmap Z (Z * Z)) : gmap Z (Z * Z) :=
  match op with CtlAdd evs p | CtlMod evs p => <[fd := (evs, p)]> i | CtlDel => delete fd i end.

Section Ops.
Context (E : env) (a0 ep : Z) (ks : list Z).
Notation heap := (EvInv.heap a0 ep ks).
Notation queues := (EvInv.queues E).
Notation inv := (EvInv.inv E a0 ep ks).

Lemma epoll_ctl_ok fd op w (Q : Z -> world -> Prop) :
  (forall r w', kern w w' -> interest w' = (if r =? 0 then ctl_set fd op (interest w) else interest w) ->
    (accepts E -> r = ctl_res op (interest w !! fd)) -> Q r w') -> wp (epoll_ctl E fd op) w Q.
Proof.
  intros HQ. unfold epoll_ctl. apply ewp_bind, ev_tick_ok. intros w' K I _.
  destruct (Z.eqb_spec (e_ctl E (used w)) 0) as [He | He]; cbn [negb].
  - ewp_pure. rewrite I. destruct op as [evs p | evs p | ]; destruct (interest w !! fd) as [x|] eqn:Hx; ewp_pure;
      (apply HQ; [exact K | done | done]).
  - apply ewp_ret, HQ; [exact K | | intros A; by destruct (He (A _))].
    by rewrite (proj2 (Z.eqb_neq _ _) He).
Qed.

(** [fd_ep_refresh] of a group of the queue: the kernel watches what the group
    waits for, unless it refuses. *)
Lemma fd_ep_refresh_ok gl c w l1 g l2 (Q : Z * fdg -> world -> Prop) :
  queues (Some (f_addr g)) gl (interest w) c -> fd_q c = l1 ++ g :: l2 ->
  (forall r m w', kern w w' -> queues (Some (f_addr g)) gl (interest w') (set_fd_q (l1 ++ set_ep_wait m g :: l2) c) ->
    (accepts E -> r = 0 /\ (0 <= f_fd g -> m = wait_mask (f_q g))) -> Q (r, set_ep_wait m g) w') ->
  wp (fd_ep_refresh E g) w Q.
Proof.
  intros I Hq HQ. unfold fd_ep_refresh.
  assert (Hid : set_ep_wait (ep_wait g) g = g) by by destruct g.
  assert (Hsame : queues (Some (f_addr g)) gl (interest w) (set_fd_q (l1 ++ set_ep_wait (ep_wait g) g :: l2) c)).
  { rewrite Hid, <- Hq. eapply q_ext; [ | | exact I]; done. }
  assert (Hg : accepts E -> interest w !! f_fd g = if ep_wait g =? 0 then None else Some (to_epoll (ep_wait g), f_addr g)).
  { intros A. rewrite (q_int _ _ _ _ _ I A), Hq, fd_find_mid; [done | rewrite <- Hq; apply I]. }
  destruct (Z.ltb_spec (f_fd g) 0) as [Hneg | Hpos].
  { apply ewp_ret. rewrite <- Hid at 1. apply HQ; [done | done | split; [done | lia]]. }
  destruct (Z.eqb_spec (wait_mask (f_q g)) 0) as [Hm | Hm].
  { apply ewp_bind, epoll_ctl_ok. intros r w' K Hi Hr. cbn in Hi, Hr.
    destruct (negb (r =? 0) && negb (r =? ENOENT) && negb (r =? EBADF)) eqn:Hb.
    - apply ewp_ret. rewrite <- Hid at 1. apply andb_prop in Hb as [[H0 H1]%andb_prop _]. apply HQ; [done | | ].
      + rewrite Hi. destruct (r =? 0); [done | exact Hsame].
      + intros A. rewrite (Hr A) in H0, H1. by destruct (interest w !! f_fd g).
    - apply ewp_ret, HQ; [done | | done]. apply (q_ep _ _ _ (interest w) _ _ l1 g l2); try done.
      + intros fd e p Hx. left. rewrite Hi in Hx. destruct (r =? 0); [ | done]. by apply lookup_delete_Some in Hx as [_ ?].
      + intros A. specialize (Hr A). rewrite Hi. destruct (interest w !! f_fd g) eqn:Hx; rewrite Hr; cbn; [ | done].
        split; [ | by rewrite lookup_delete_eq]. intros fd Hfd. by rewrite lookup_delete_ne by congruence. }
  destruct (Z.eqb_spec (wait_mask (f_q g)) (ep_wait g)) as [He | He].
  { apply ewp_ret. rewrite <- Hid at 1. by apply HQ. }
  assert (Hset : forall w', interest w' = <[f_fd g := (to_epoll (wait_mask (f_q g)), f_addr g)]> (interest w) ->
    queues (Some (f_addr g)) gl (interest w') (set_fd_q (l1 ++ set_ep_wait (wait_mask (f_q g)) g :: l2) c)).
  { intros w' ->. apply (q_ep _ _ _ (interest w) _ _ l1 g l2); try done.
    - intros fd e p Hx. apply lookup_insert_Some in Hx as [[_ [= _ <-]] | [_ Hx]]; [by right | by left].
    - lia.
    - intros A. rewrite (proj2 (Z.eqb_neq _ _) Hm). split; [ | by rewrite lookup_insert_eq].
      intros fd Hfd. by rewrite lookup_insert_ne by congruence. }
  apply ewp_bind, epoll_ctl_ok. intros r w1 K1 H1 R1. destruct (Z.eqb_spec r 0) as [-> | Hr].
  { apply ewp_ret, HQ; [done | by apply Hset | done]. }
  destruct (Z.eqb_spec r EEXIST) as [-> | Hx].
  - apply ewp_bind, epoll_ctl_ok. intros r w2 K2 H2 R2. rewrite H1 in H2, R2. destruct (Z.eqb_spec r 0) as [-> | Hr2].
    + apply ewp_ret, HQ; [by eapply kern_trans | by apply Hset | done].
    + apply ewp_ret. rewrite <- Hid at 1. apply HQ; [by eapply kern_trans | by rewrite H2 | ]. intros A.
      specialize (R1 A). specialize (R2 A). cbn in R1, R2. by destruct (interest w !! f_fd g).
  - apply ewp_ret. rewrite <- Hid at 1. apply HQ; [done | by rewrite H1 | ]. intros A.
    specialize (R1 A). cbn in R1. by destruct (interest w !! f_fd g).
Qed.

(* ------------------------------------------------------------------ *)
(** ** Groups in the queue *)

Lemma put_group_ok xs c w l1 g l2 g' (Q : unit -> world -> Prop) : heap xs w c -> fd_q c = l1 ++ g :: l2 ->
  f_addr g' = f_addr g -> Q tt (set_ctx (Some (a0, set_fd_q (l1 ++ g' :: l2) c)) w) -> wp (put_group g') w Q.
Proof.
  intros H Hq Ha HQ. unfold put_group. eapply upd_ctx_ok; [done | ]. rewrite Ha, Hq, upd_fd_mid; [done | ].
  rewrite <- Hq. by eapply heap_groups.
Qed.

(** The addresses of a context, queue by queue. *)
Lemma addrs_parts c : addrs c = map f_addr (fd_q c) ++ map f_addr (spare_fd_q c) ++
  map n_addr (concat (map f_q (fd_q c))) ++ map n_addr (noti_q c) ++ map n_addr (spare_noti_q c).
Proof. unfold addrs, all_notis. by rewrite !map_app, <- !app_assoc. Qed.
Lemma concat_mid l1 g l2 : concat (map f_q (l1 ++ g :: l2)) = concat (map f_q l1) ++ f_q g ++ concat (map f_q l2).
Proof. by rewrite map_app, concat_app. Qed.
Lemma addrs_swap c l1 g l2 g' : fd_q c = l1 ++ g :: l2 -> f_addr g' = f_addr g ->
  map n_addr (f_q g) ++ addrs (set_fd_q (l1 ++ g' :: l2) c) ≡ₚ map n_addr (f_q g') ++ addrs c.
Proof.
  intros Hq Ha. rewrite !addrs_parts. cbn. rewrite Hq, (map_swap _ _ _ _ _ Ha), !concat_mid, !map_app. solve_Permutation.
Qed.
Lemma addrs_retire g c l1 l2 : fd_q c = l1 ++ g :: l2 -> NoDup (map f_addr (fd_q c)) -> addrs (retire g c) ≡ₚ addrs c.
Proof.
  intros Hq Hd. unfold retire. case_bool_decide as Hg; [ | done]. rewrite !addrs_parts. cbn. rewrite Hq in *.
  rewrite fd_filter_mid by done. rewrite concat_mid, Hg, !map_app, concat_app, !map_app. cbn. solve_Permutation.
Qed.

(** Registrations move between the queues that hold no group. *)
Lemma upd_notis_ok foc gl nl nl' w c f (Q : unit -> world -> Prop) : inv foc gl nl w c ->
  fd_q (f c) = fd_q c -> spare_fd_q (f c) = spare_fd_q c -> epfd (f c) = epfd c ->
  nl' ++ map n_addr (noti_q (f c)) ++ map n_addr (spare_noti_q (f c)) ≡ₚ
    nl ++ map n_addr (noti_q c) ++ map n_addr (spare_noti_q c) ->
  (inv foc gl nl' (set_ctx (Some (a0, f c)) w) (f c) -> Q tt (set_ctx (Some (a0, f c)) w)) -> wp (upd_ctx f) w Q.
Proof.
  intros [H I] Hf Hs He Hp HQ. eapply upd_ctx_ok; [done | ]. apply HQ. split; [ | by eapply q_ext].
  eapply heap_move; [done | | done]. rewrite !addrs_parts, Hf, Hs. rewrite <- !app_assoc. apply Permutation_app_head.
  transitivity ((map f_addr (fd_q c) ++ map f_addr (spare_fd_q c) ++ map n_addr (concat (map f_q (fd_q c)))) ++
    (nl' ++ map n_addr (noti_q (f c)) ++ map n_addr (spare_noti_q (f c)))); [solve_Permutation | ].
  rewrite Hp. solve_Permutation.
Qed.
Lemma push_spare_ok foc gl nl w c n (Q : unit -> world -> Prop) : inv foc gl (n_addr n :: nl) w c ->
  (forall w', let c' := set_spare_noti_q (spare_noti_q c ++ [n]) c in inv foc gl nl w' c' -> log w' = log w -> Q tt w') ->
  wp (push_spare n) w Q.
Proof.
  intros I HQ. unfold push_spare. eapply upd_notis_ok; [exact I | done | done | done | | intros I'; by apply HQ].
  cbn. rewrite map_app. cbn. solve_Permutation.
Qed.

Lemma inv_put_group foc gl nl nl' w c l1 g l2 g' (Q : unit -> world -> Prop) : inv foc gl nl w c ->
  fd_q c = l1 ++ g :: l2 -> foc = None \/ foc = Some (f_addr g) ->
  f_addr g' = f_addr g -> f_fd g' = f_fd g -> ep_wait g' = ep_wait g -> Forall (fun n => n_fd n = f_fd g) (f_q g') ->
  nl' ++ map n_addr (f_q g') ≡ₚ nl ++ map n_addr (f_q g) ->
  (forall w', inv (Some (f_addr g)) gl nl' w' (set_fd_q (l1 ++ g' :: l2) c) -> log w' = log w -> Q tt w') ->
  wp (put_group g') w Q.
Proof.
  intros [H I] Hq Hfoc Ha Hf He Ho Hp HQ. eapply put_group_ok; [done | done | done | ]. apply HQ; [ | done].
  split; [ | by eapply q_swap]. eapply heap_move; [done | | done]. rewrite <- !app_assoc. apply Permutation_app_head.
  apply (Permutation_app_inv_l (map n_addr (f_q g))).
  transitivity (nl' ++ map n_addr (f_q g) ++ addrs (set_fd_q (l1 ++ g' :: l2) c)); [solve_Permutation | ].
  rewrite (addrs_swap c l1 g l2 g') by done.
  transitivity ((nl' ++ map n_addr (f_q g')) ++ addrs c); [solve_Permutation | ]. rewrite Hp. solve_Permutation.
Qed.

Lemma refresh_ok gl nl w c l1 g l2 (Q : Z * fdg -> world -> Prop) : inv (Some (f_addr g)) gl nl w c ->
  fd_q c = l1 ++ g :: l2 ->
  (forall r m w', inv (Some (f_addr g)) gl nl w' (set_fd_q (l1 ++ set_ep_wait m g :: l2) c) -> log w' = log w ->
    (accepts E -> r = 0 /\ (0 <= f_fd g -> m = wait_mask (f_q g))) -> Q (r, set_ep_wait m g) w') ->
  wp (refresh E g) w Q.
Proof.
  intros [H I] Hq HQ. unfold refresh. apply ewp_bind. eapply fd_ep_refresh_ok; [exact I | done | ].
  intros r m w' K I' A. apply ewp_bind. eapply put_group_ok; [by eapply heap_kern | done | done | ]. apply ewp_ret, HQ; [ | by apply K | done].
  split; [ | done]. eapply heap_move; [by eapply heap_kern | | done]. apply Permutation_app_head.
  pose proof (addrs_swap c l1 g l2 (set_ep_wait m g) Hq eq_refl) as Hs. by apply Permutation_app_inv_l in Hs.
Qed.

Lemma retire_ok nl w c l1 g l2 (Q : unit -> world -> Prop) : inv (Some (f_addr g)) [] nl w c ->
  fd_q c = l1 ++ g :: l2 -> (accepts E -> 0 <= f_fd g -> ep_wait g = wait_mask (f_q g)) ->
  (forall w' c', inv None [] nl w' c' -> log w' = log w -> noti_q c' = noti_q c -> spare_noti_q c' = spare_noti_q c ->
    (exists k, fd_q c' = l1 ++ k ++ l2 /\ concat (map f_q k) = f_q g) -> Q tt w') ->
  wp (upd_ctx (retire g)) w Q.
Proof.
  intros [H I] Hq Ha HQ. pose proof (heap_groups _ _ _ _ _ _ H) as Hd. eapply upd_ctx_ok; [done | ].
  apply (HQ _ (retire g c)); [ | done | | | ]; try (unfold retire; by case_bool_decide).
  - split; [ | by eapply q_retire]. eapply heap_move; [done | by erewrite addrs_retire | unfold retire; by case_bool_decide].
  - unfold retire. case_bool_decide as Hg; cbn.
    + exists []. rewrite Hq in *. by rewrite fd_filter_mid.
    + exists [g]. cbn. by rewrite app_nil_r.
Qed.

(** A group whose registrations have changed is brought up to date. *)
Lemma settle_ok nl w c l1 g l2 (Q : unit -> world -> Prop) : inv (Some (f_addr g)) [] nl w c ->
  fd_q c = l1 ++ g :: l2 ->
  (forall w' c', inv None [] nl w' c' -> log w' = log w -> noti_q c' = noti_q c -> spare_noti_q c' = spare_noti_q c ->
    (exists k, fd_q c' = l1 ++ k ++ l2 /\ concat (map f_q k) = f_q g) -> Q tt w') ->
  wp (do x <- refresh E g; upd_ctx (retire x.2)) w Q.
Proof.
  intros I Hq HQ. apply ewp_bind. eapply refresh_ok; [exact I | done | ]. intros r m w' I' L A.
  eapply retire_ok; [exact I' | done | intros Ha Hp; by apply A | ]. intros w2 c2 I2 L2. apply HQ; [exact I2 | congruence].
Qed.

(* ------------------------------------------------------------------ *)
(** ** Registering *)

Lemma inv_kern foc gl nl w w' c : kern w w' -> interest w' = interest w -> inv foc gl nl w c -> inv foc gl nl w' c.
Proof. intros K Hi [H I]. split; [by eapply heap_kern | by rewrite Hi]. Qed.

(** A group that is up to date and not empty. *)
Lemma inv_settled nl w c l1 g l2 : inv (Some (f_addr g)) [] nl w c -> fd_q c = l1 ++ g :: l2 -> f_q g <> [] ->
  (accepts E -> 0 <= f_fd g -> ep_wait g = wait_mask (f_q g)) -> inv None [] nl w c.
Proof.
  intros [H I] Hq Hg A. split; [done | ]. pose proof (q_retire _ _ _ _ _ _ _ I Hq (heap_groups _ _ _ _ _ _ H) A) as R.
  unfold retire in R. by rewrite bool_decide_eq_false_2 in R by done.
Qed.

(** The deadline of a registration, [i] being the number of the clock's answer. *)
Definition deadline (i : nat) (sec usec : Z) : option timespec :=
  if sec =? ULONG_INFINITE then Some (INFINITE, 0) else
  match e_clock E i with inl _ => None | inr now => Some (ts_add now sec usec) end.
Lemma due_of_ok sec usec w (Q : option timespec -> world -> Prop) :
  (forall w', kern w w' -> interest w' = interest w -> Q (deadline (used w) sec usec) w') -> wp (due_of E sec usec) w Q.
Proof.
  intros HQ. unfold due_of, deadline in *. destruct (sec =? ULONG_INFINITE); [by apply ewp_ret, HQ | ].
  unfold clock_gettime. apply ewp_bind, ewp_bind, ev_tick_ok. intros w' K I _. ewp_pure. by apply HQ.
Qed.

Lemma get_group_ok fd w c (Q : option (fdg * bool) -> world -> Prop) : inv None [] [] w c ->
  (forall w', inv None [] [] w' c -> log w' = log w -> Q None w') ->
  (forall l1 g l2, fd_q c = l1 ++ g :: l2 -> f_fd g = fd -> Q (Some (g, true)) w) ->
  (forall g w' c', inv None [f_addr g] [] w' c' -> log w' = log w -> fd ∉ map f_fd (fd_q c) -> f_q g = [] ->
    fd_q c' = fd_q c -> noti_q c' = noti_q c -> Q (Some (g, false)) w') ->
  wp (get_group E fd) w Q.
Proof.
  intros [H I] H0 H1 H2. unfold get_group. apply ewp_bind. eapply the_ctx_ok; [done | ].
  destruct (fd_q_find (fd_q c) fd) as [g|] eqn:Hg.
  { apply ewp_ret. apply fd_find_split in Hg as (l1 & l2 & Hq & Hf). by eapply H1. }
  apply fd_find_none in Hg. destruct (spare_fd_q c) as [|g q] eqn:Hs.
  - apply ewp_bind. eapply ev_malloc_ok; [done | | ].
    + intros w' H' Hi L. apply ewp_ret, H0; [ | done]. by split; [ | rewrite Hi].
    + intros a w' H' Hi L. apply ewp_ret, (H2 _ _ c); try done. split; [done | ]. rewrite Hi. destruct I as [F O N S P G I M]. split; try done.
      intros fd' e p Hp. apply elem_of_app. right. by eapply P.
  - apply ewp_bind. eapply upd_ctx_ok; [done | ]. apply ewp_ret, (H2 _ _ (set_spare_fd_q q c)); try done.
    + split.
      * eapply heap_move; [done | | done]. rewrite !addrs_parts. cbn. rewrite Hs. cbn. solve_Permutation.
      * destruct I as [F O N S P G I M]. split; try done; cbn in *.
        -- rewrite Hs in S. by apply Forall_cons in S as [_ ?].
        -- intros fd' e p Hp. apply P in Hp. rewrite Hs, map_app in Hp. rewrite map_app. cbn in Hp.
           apply elem_of_app in Hp as [Hp | [-> | Hp]%elem_of_cons]; [ | by apply elem_of_cons; left | ].
           ++ apply elem_of_cons; right. apply elem_of_app. by left.
           ++ apply elem_of_cons; right. apply elem_of_app. by right.
    + pose proof (q_spare _ _ _ _ _ I) as S. rewrite Hs in S. by apply Forall_cons in S as [? _].
Qed.

Lemma get_noti_ok gl w c (Q : option Z -> world -> Prop) : inv None gl [] w c ->
  (forall w', inv None gl [] w' c -> log w' = log w -> Q None w') ->
  (forall a w' c', inv None gl [a] w' c' -> log w' = log w -> fd_q c' = fd_q c -> noti_q c' = noti_q c -> Q (Some a) w') ->
  wp (get_noti E) w Q.
Proof.
  intros I H0 H1. pose proof I as [H Iq]. unfold get_noti. apply ewp_bind. eapply the_ctx_ok; [done | ].
  destruct (spare_noti_q c) as [|n q] eqn:Hs.
  - eapply ev_malloc_ok; [done | | ].
    + intros w' H' Hi L. apply H0; [by split; [ | rewrite Hi] | done].
    + intros a w' H' Hi L. apply (H1 _ _ c); try done. split; [by rewrite app_nil_r in H' | by rewrite Hi].
  - apply ewp_bind. eapply upd_notis_ok; [exact I | done | done | done | | ]; [ | intros I'; by eapply ewp_ret, H1].
    rewrite Hs. cbn. solve_Permutation.
Qed.

Lemma chain_ok inq foc w c l1 g l2 n (Q : option Z -> world -> Prop) : inv foc [] [n_addr n] w c ->
  fd_q c = l1 ++ g :: l2 -> foc = None \/ foc = Some (f_addr g) -> f_fd g = n_fd n -> (inq = true -> f_q g <> []) ->
  (forall (r : option Z) w' c', inv None [] [] w' c' -> log w' = log w -> noti_q c' = noti_q c ->
    pending c' = concat (map f_q l1) ++ f_q g ++ (if r is Some _ then [n] else []) ++ concat (map f_q l2) ->
    r = None \/ r = Some (n_addr n) -> Q r w') ->
  wp (chain E inq g n) w Q.
Proof.
  intros I Hq Hfoc Hf Hne HQ. unfold chain. cbv zeta.
  assert (Ho : Forall (fun m => n_fd m = f_fd g) (f_q g)).
  { destruct I as [_ I]. pose proof (q_own _ _ _ _ _ I) as O. rewrite Hq in O. by apply Forall_cut in O as [? _]. }
  apply ewp_bind. eapply (inv_put_group foc [] [n_addr n] []); [exact I | exact Hq | done | done | done | done | | | ].
  { cbn. apply Forall_app. split; [done | by apply Forall_cons]. }
  { cbn. rewrite map_app. cbn. solve_Permutation. }
  intros w1 I1 L1. apply ewp_bind. eapply refresh_ok; [exact I1 | done | ]. intros r m w2 I2 L2 A. cbn [fst snd].
  destruct (Z.eqb_spec r 0) as [-> | Hr].
  - apply ewp_ret. apply (HQ _ _ (set_fd_q (l1 ++ set_ep_wait m (set_f_q (f_q g ++ [n]) g) :: l2) c)); [ | congruence | done | | by right].
    + apply (inv_settled [] _ _ l1 (set_ep_wait m (set_f_q (f_q g ++ [n]) g)) l2); [exact I2 | done | cbn; by destruct (f_q g) | ].
      intros Ha Hp. by apply A.
    + unfold pending. cbn. rewrite concat_mid. cbn. by rewrite <- app_assoc.
  - assert (Hna : ~ accepts E) by (intros Ha; by apply Hr, A).
    assert (Hrm : noti_remove (f_q g ++ [n]) (n_addr n) = f_q g).
    { rewrite noti_remove_mid; [by rewrite app_nil_r | ]. destruct I1 as [H1 _]. apply heap_notis in H1. unfold all_notis in H1.
      cbn in H1. rewrite concat_mid in H1. cbn in H1. rewrite !map_app in H1. rewrite map_app.
      apply NoDup_app in H1 as (H1 & _ & _). apply NoDup_app in H1 as (_ & _ & H1). by apply NoDup_app in H1 as (H1 & _ & _). }
    apply ewp_bind. eapply (inv_put_group _ [] [] [n_addr n] _ _ l1 (set_ep_wait m (set_f_q (f_q g ++ [n]) g)) l2);
      [exact I2 | done | by right | done | done | done | | | ].
    { cbn. by rewrite Hrm. }
    { cbn. rewrite Hrm, map_app. cbn. solve_Permutation. }
    intros w3 I3 L3. apply ewp_bind. eapply push_spare_ok; [exact I3 | ]. intros w4 c4 I4 L4.
    destruct inq.
    + apply ewp_bind, ewp_ret, ewp_ret. apply (HQ _ _ c4); [ | congruence | done | | by left].
      * eapply (inv_settled _ _ _ l1 (set_f_q _ _) l2); [exact I4 | done | cbn; rewrite Hrm; by apply Hne | done].
      * unfold pending. cbn. rewrite concat_mid. cbn. by rewrite Hrm.
    + apply ewp_bind. eapply (retire_ok _ _ _ l1 (set_f_q _ _) l2); [exact I4 | done | done | ].
      intros w5 c5 I5 L5 N5 S5 (k & Hk & Hkq). apply ewp_ret. eapply HQ; [exact I5 | congruence | | | by left].
      * by rewrite N5.
      * unfold pending. rewrite Hk, !map_app, !concat_app, Hkq. cbn. by rewrite Hrm.
Qed.

(** A new group joins the queue; one that was not used goes back. *)
Lemma insert_group_ok nl w c g fd (Q : unit -> world -> Prop) : inv None [f_addr g] nl w c -> fd ∉ map f_fd (fd_q c) ->
  (forall w', let c' := set_fd_q (fd_q c ++ [Fdg (f_addr g) fd 0 0 false []]) c in
    inv (Some (f_addr g)) [] nl w' c' -> log w' = log w -> Q tt w') ->
  wp (upd_ctx (fun c => set_fd_q (fd_q c ++ [Fdg (f_addr g) fd 0 0 false []]) c)) w Q.
Proof.
  intros [H I] Hfd HQ. eapply upd_ctx_ok; [done | ]. apply HQ; [ | done]. split.
  - eapply heap_move; [done | | done]. rewrite !addrs_parts. cbn. rewrite !map_app, concat_app. cbn. rewrite app_nil_r.
    solve_Permutation.
  - destruct I as [F O N S P G I M]. split; cbn.
    + rewrite map_app. apply NoDup_app. split; [done | ]. split; [ | apply NoDup_singleton].
      intros x Hx ->%list_elem_of_singleton. done.
    + apply Forall_app. split; [done | ]. by apply Forall_cons.
    + apply Forall_app. split; [ | by apply Forall_cons]. eapply Forall_impl; [exact N | ]. intros h Hh Hz. by specialize (Hh Hz).
    + done.
    + intros fd' e p Hp%P. rewrite !map_app, !elem_of_app in *. cbn in *. rewrite !elem_of_cons in *. naive_solver.
    + apply Forall_app. split; [done | ]. by apply Forall_cons.
    + intros A fd'. rewrite (I A), fd_find_snoc. destruct (fd_q_find (fd_q c) fd') as [h|] eqn:Hh; [done | ]. cbn.
      by destruct (fd =? fd').
    + intros A. apply Forall_app. split; [ | by apply Forall_cons]. eapply Forall_impl; [exact (M A) | ]. cbn. auto.
Qed.

Lemma return_group_ok w c g (Q : unit -> world -> Prop) : inv None [f_addr g] [] w c -> f_q g = [] ->
  (forall w', let c' := set_spare_fd_q (spare_fd_q c ++ [g]) c in inv None [] [] w' c' -> log w' = log w -> Q tt w') ->
  wp (upd_ctx (fun c => set_spare_fd_q (spare_fd_q c ++ [g]) c)) w Q.
Proof.
  intros [H I] Hg HQ. eapply upd_ctx_ok; [done | ]. apply HQ; [ | done]. split.
  - eapply heap_move; [done | | done]. rewrite !addrs_parts. cbn. rewrite !map_app. cbn. solve_Permutation.
  - destruct I as [F O N S P G I M]. split; cbn; try done.
    + apply Forall_app. split; [done | ]. by apply Forall_cons.
    + intros fd' e p Hp%P. rewrite !map_app, !elem_of_app in *. cbn in *. rewrite !elem_of_cons in *. naive_solver.
Qed.

(** What registering does: on success there is one registration more, with the
    handle returned; otherwise nothing has changed. *)
Definition put_spec (fd cb cbarg ev_wait : Z) (due : option timespec) (r : option Z) (q q' : list noti) : Prop :=
  match r with
  | None => q' = q
  | Some a => exists d l1 l2, due = Some d /\ q = l1 ++ l2 /\ q' = l1 ++ Noti a fd cb cbarg ev_wait d 0 :: l2
  end.
Lemma put_ok fd cb cbarg ev_wait sec usec w c (Q : option Z -> world -> Prop) : inv None [] [] w c ->
  (forall r w' c', inv None [] [] w' c' -> log w' = log w -> noti_q c' = noti_q c ->
    put_spec fd cb cbarg ev_wait (deadline (used w) sec usec) r (pending c) (pending c') -> Q r w') ->
  wp (aloe_ev_put E fd cb cbarg ev_wait sec usec) w Q.
Proof.
  intros I HQ. unfold aloe_ev_put. apply ewp_bind, due_of_ok. intros w1 K1 Hi1. apply (inv_kern _ _ _ _ _ _ K1 Hi1) in I.
  assert (L1 : log w1 = log w) by apply K1. destruct (deadline _ _ _) as [d|]; [ | by eapply ewp_ret, HQ].
  apply ewp_bind. eapply get_group_ok; [exact I | | | ].
  - intros w2 I2 L2. eapply ewp_ret, HQ; [exact I2 | congruence | done | done].
  - intros l1 g l2 Hq Hf. apply ewp_bind. eapply get_noti_ok; [exact I | | ].
    + intros w3 I3 L3. apply ewp_bind, ewp_ret, ewp_ret. eapply HQ; [exact I3 | congruence | done | done].
    + intros a w3 c3 I3 L3 Hq3 Hn3. apply ewp_bind, ewp_ret. rewrite Hq in Hq3.
      eapply (chain_ok true); [exact I3 | exact Hq3 | by left | done | intros _ | ].
      { destruct I as [_ I]. pose proof (q_ne _ _ _ _ _ I) as N. rewrite Hq in N. apply Forall_cut in N as [N _].
        intros Hg. by specialize (N Hg). }
      intros r w4 c4 I4 L4 Hn4 Hp4 Hr. eapply HQ; [exact I4 | congruence | congruence | ].
      unfold pending at 1. rewrite Hq, concat_mid, Hp4. destruct Hr as [-> | ->]; [done | ]. cbn.
      exists d, (concat (map f_q l1) ++ f_q g), (concat (map f_q l2)). by rewrite <- !app_assoc.
  - intros g w2 c2 I2 L2 Hfd Hg Hq2 Hn2. apply ewp_bind. eapply get_noti_ok; [exact I2 | | ].
    + intros w3 I3 L3. apply ewp_bind. eapply return_group_ok; [exact I3 | done | ]. intros w4 c4 I4 L4.
      apply ewp_ret. apply (HQ _ _ c4); [exact I4 | congruence | exact Hn2 | ]. unfold pending. cbn. by rewrite Hq2.
    + intros a w3 c3 I3 L3 Hq3 Hn3. apply ewp_bind. rewrite <- Hq2, <- Hq3 in Hfd.
      eapply insert_group_ok; [exact I3 | exact Hfd | ]. intros w4 c4 I4 L4.
      eapply (chain_ok false _ _ c4 (fd_q c3) _ []); [exact I4 | done | by right | done | done | ].
      intros r w5 c5 I5 L5 Hn5 Hp5 Hr. eapply HQ; [exact I5 | congruence | | ].
      { rewrite Hn5. cbn. congruence. }
      rewrite Hp5. cbn. rewrite app_nil_r. unfold pending at 1. rewrite <- Hq2, <- Hq3.
      destruct Hr as [-> | ->]; [by rewrite app_nil_r | ]. cbn. exists d, (concat (map f_q (fd_q c3))), []. by rewrite app_nil_r.
Qed.


(* ------------------------------------------------------------------ *)
(** ** Cancelling *)

Lemma notis_nodup xs w c : heap xs w c -> NoDup (map n_addr (pending c) ++ map n_addr (noti_q c) ++ map n_addr (spare_noti_q c)).
Proof. intros H%heap_notis. unfold all_notis in H. by rewrite !map_app in H. Qed.

Lemma in_groups n q : n ∈ concat (map f_q q) -> exists l1 g l2 k1 k2, q = l1 ++ g :: l2 /\ f_q g = k1 ++ n :: k2.
Proof.
  induction q as [|g q IH]; cbn; [by intros ?%not_elem_of_nil | ]. intros [Hin | Hin]%elem_of_app.
  - apply list_elem_of_split in Hin as (k1 & k2 & Hk). by exists [], g, q, k1, k2.
  - destruct (IH Hin) as (l1 & h & l2 & k1 & k2 & -> & Hk). by exists (g :: l1), h, l2, k1, k2.
Qed.

(** A registration that is waited for is where a search by its descriptor
    finds it. *)
Lemma search_finds foc gl nl w c n : inv foc gl nl w c -> noti_q_find (all_notis c) (n_addr n) = Some n -> n_addr n ∈ map n_addr (pending c) ->
  exists g, fd_q_find (fd_q c) (n_fd n) = Some g /\ noti_q_find (f_q g) (n_addr n) = Some n.
Proof.
  intros [H I] Hn Hin. pose proof (heap_notis _ _ _ _ _ _ H) as D.
  apply list_elem_of_fmap in Hin as (m & Hm & Hin). apply in_groups in Hin as (l1 & g & l2 & k1 & k2 & Hq & Hg).
  assert (m = n) as ->.
  { unfold all_notis in *. rewrite Hq, concat_mid, Hg, <- !app_assoc in Hn, D. cbn in Hn, D.
    rewrite app_assoc in Hn, D. rewrite Hm, (noti_find_mid _ m) in Hn by done. congruence. }
  exists g. split.
  - assert (f_fd g = n_fd n) as <-; [ | rewrite Hq; apply fd_find_mid; rewrite <- Hq; apply I].
    pose proof (q_own _ _ _ _ _ I) as O. rewrite Hq in O. apply Forall_cut in O as [O _]. rewrite Hg in O.
    by apply Forall_cut in O as [O _].
  - rewrite Hg. apply noti_find_mid. rewrite <- Hg. unfold all_notis in D. rewrite Hq, concat_mid, !map_app in D.
    apply NoDup_app in D as (D & _ & _). apply NoDup_app in D as (_ & _ & D). by apply NoDup_app in D as (D & _ & _).
Qed.

(** What cancelling does: the registration is waited for and queued for its
    callback no longer, and nothing else changes. *)
Definition cancel_spec (ev : Z) (c c' : evctx) : Prop :=
  pending c' = noti_remove (pending c) ev /\ noti_q c' = noti_remove (noti_q c) ev.
Lemma unchain_ok w c l1 g l2 k1 m k2 (Q : unit -> world -> Prop) : inv None [] [] w c ->
  fd_q c = l1 ++ g :: l2 -> f_q g = k1 ++ m :: k2 ->
  (forall w' c', inv None [] [] w' c' -> log w' = log w -> cancel_spec (n_addr m) c c' -> Q tt w') ->
  let g' := set_f_q (noti_remove (f_q g) (n_addr m)) g in
  wp (put_group g';; push_spare m;; do x <- refresh E g'; upd_ctx (retire x.2)) w Q.
Proof.
  intros I Hq Hk HQ. cbv zeta. pose proof I as [H Iq]. pose proof (notis_nodup _ _ _ H) as D.
  assert (Hp : pending c = (concat (map f_q l1) ++ k1) ++ m :: (k2 ++ concat (map f_q l2))).
  { unfold pending. rewrite Hq, concat_mid, Hk. by rewrite <- !app_assoc. }
  pose proof D as (D1 & D2 & _)%NoDup_app.
  assert (Hnq : noti_remove (noti_q c) (n_addr m) = noti_q c).
  { apply noti_remove_skip. intros Hin. apply (D2 (n_addr m)); [ | apply elem_of_app; by left].
    rewrite Hp, map_app. apply elem_of_app. right. by apply elem_of_cons; left. }
  rewrite Hk, noti_remove_mid.
  2: { rewrite Hp, !map_app in D1. rewrite map_app. cbn in *. rewrite <- app_assoc in D1.
    apply NoDup_app in D1 as (_ & _ & D1). cbn in D1. rewrite map_app in D1.
    rewrite app_comm_cons, app_assoc in D1. by apply NoDup_app in D1 as (D1 & _ & _). }
  apply ewp_bind. eapply (inv_put_group _ [] [] [n_addr m] _ _ l1 g l2); [exact I | done | by left | done | done | done | | | ].
  { cbn. pose proof (q_own _ _ _ _ _ Iq) as O. rewrite Hq in O. apply Forall_cut in O as [O _]. rewrite Hk in O.
    by apply Forall_cut in O as [_ O]. }
  { cbn. rewrite Hk, !map_app. cbn. solve_Permutation. }
  intros w1 I1 L1. apply ewp_bind. eapply push_spare_ok; [exact I1 | ]. intros w2 c2 I2 L2.
  eapply (settle_ok [] _ c2 l1 (set_f_q (k1 ++ k2) g) l2); [exact I2 | done | ].
  intros w3 c3 I3 L3 N3 S3 (k & Hq3 & Hk3). eapply HQ; [exact I3 | congruence | ]. split; [ | by rewrite Hnq, N3].
  rewrite Hp, noti_remove_mid by by rewrite <- Hp. unfold pending.
  rewrite Hq3, !map_app, !concat_app, Hk3. cbn. by rewrite <- !app_assoc.
Qed.

Lemma ev_cancel_ok ev w c (Q : unit -> world -> Prop) : inv None [] [] w c ->
  (forall w' c', inv None [] [] w' c' -> log w' = log w -> cancel_spec ev c c' -> Q tt w') ->
  wp (aloe_ev_cancel E ev) w Q.
Proof.
  intros I HQ. pose proof I as [H Iq]. pose proof (notis_nodup _ _ _ H) as D. unfold aloe_ev_cancel.
  apply ewp_bind. eapply the_ctx_ok; [done | ].
  destruct (noti_q_find (all_notis c) ev) as [n|] eqn:Hn; [ | done].
  assert (Ha : n_addr n = ev) by by apply noti_find_split in Hn as (? & ? & ? & ?). subst ev.
  destruct (g ← fd_q_find (fd_q c) (n_fd n); m ← noti_q_find (f_q g) (n_addr n); Some (g, m)) as [[g m]|] eqn:Hgm.
  - destruct (fd_q_find (fd_q c) (n_fd n)) as [h|] eqn:Hg; [ | done]. cbn in Hgm.
    destruct (noti_q_find (f_q h) (n_addr n)) as [m'|] eqn:Hm; [ | done]. injection Hgm as -> ->.
    apply fd_find_split in Hg as (l1 & l2 & Hq & _). apply noti_find_split in Hm as (k1 & k2 & Hk & Hma).
    rewrite <- Hma in HQ |- *. by eapply unchain_ok.
  - assert (Hno : n_addr n ∉ map n_addr (pending c)).
    { intros Hin. destruct (search_finds _ _ _ _ _ _ I Hn Hin) as (g & Hg & Hm). rewrite Hg in Hgm. cbn in Hgm. by rewrite Hm in Hgm. }
    destruct (noti_q_find (noti_q c) (n_addr n)) as [m|] eqn:Hm.
    + apply noti_find_split in Hm as (k1 & k2 & Hk & Hma). rewrite <- Hma in *.
      assert (Hrm : noti_remove (noti_q c) (n_addr m) = k1 ++ k2).
      { rewrite Hk, noti_remove_mid; [done | ]. rewrite <- Hk. apply NoDup_app in D as (_ & _ & D). by apply NoDup_app in D as (D & _ & _). }
      apply ewp_bind. eapply (upd_notis_ok _ _ _ [n_addr m]); [exact I | done | done | done | | ].
      { cbn. rewrite Hrm, Hk, !map_app. cbn. solve_Permutation. }
      intros I1. eapply push_spare_ok; [exact I1 | ]. intros w2 c2 I2 L2. eapply HQ; [exact I2 | done | ].
      split; [ | done]. rewrite noti_remove_skip; done.
    + apply ewp_ret. eapply HQ; [exact I | done | ]. apply noti_find_none in Hm. by split; rewrite noti_remove_skip.
Qed.

Lemma get_ok fd cb w c (Q : option Z -> world -> Prop) : inv None [] [] w c -> (forall r, Q r w) -> wp (aloe_ev_get fd cb) w Q.
Proof. intros [H _] HQ. unfold aloe_ev_get. apply ewp_bind. eapply the_ctx_ok; [done | ]. by apply ewp_ret. Qed.
End Ops.
