(* ===== verification/EvLoop.v ===== *)
(** EvLoop: client programs and a pass of the loop. *)

From stdpp Require Import gmap.
From S2P Require Import Prelude Eff Ev EvInv EvOps.

Open Scope eff_scope.

(** Clients that register and look up only. *)
Fixpoint quiet (p : prog) : Prop :=
  match p with
  | PDone => True
  | PPut _ _ _ _ _ _ k => forall r, quiet (k r)
  | PGet _ _ k => forall r, quiet (k r)
  | PCancel _ _ | POnce _ => False
  end.

(** Clients that do not run the loop again. *)
Fixpoint no_loop (p : prog) : Prop :=
  match p with
  | PDone => True
  | PPut _ _ _ _ _ _ k => forall r, no_loop (k r)
  | PGet _ _ k => forall r, no_loop (k r)
  | PCancel _ k => no_loop k
  | POnce _ => False
  end.
(** A client cancels a handle, in one of its runs. *)
Fixpoint may_cancel (p : prog) (a : Z) : Prop :=
  match p with
  | PDone => False
  | PPut _ _ _ _ _ _ k => exists r, may_cancel (k r) a
  | PGet _ _ k => exists r, may_cancel (k r) a
  | PCancel ev k => ev = a \/ may_cancel k a
  | POnce k => exists r, may_cancel (k r) a
  end.

(** A registration's events, set on its node. *)
Definition judged (now : timespec) (g : fdg) : list noti := map (fun n => set_noti (notified g now n) n) (f_q g).
Definition fired (now : timespec) (gs : list fdg) : list noti :=
  concat (map (fun g => filter (fun n => n_noti n <> 0) (judged now g)) gs).
Definition left_over (now : timespec) (gs : list fdg) : list noti :=
  concat (map (fun g => filter (fun n => n_noti n = 0) (judged now g)) gs).

(** What is found is put on the groups it points at. *)
Definition mark_at (g : fdg) (x : Z * Z) : fdg := if f_addr g =? x.1 then mark g x.2 else g.
Definition marks (evs : list (Z * Z)) (g : fdg) : fdg := fold_left mark_at evs g.

(** Equal up to the marks. *)
Definition same (g g' : fdg) : Prop := f_addr g' = f_addr g /\ f_fd g' = f_fd g /\ ep_wait g' = ep_wait g /\ f_q g' = f_q g.
Lemma mark_at_same g x : same g (mark_at g x).
Proof. unfold mark_at. by destruct (f_addr g =? x.1). Qed.
Lemma marks_same evs g : same g (marks evs g).
Proof.
  revert g. induction evs as [|x evs IH]; intros g; [done | ]. cbn. destruct (IH (mark_at g x)) as (A & B & C & D).
  destruct (mark_at_same g x) as (A' & B' & C' & D'). unfold same. by rewrite <- A', <- B', <- C', <- D'.
Qed.

Section Loop.
Context (E : env) (a0 ep : Z) (ks : list Z).
Notation heap := (EvInv.heap a0 ep ks).
Notation queues := (EvInv.queues E).
Notation inv := (EvInv.inv E a0 ep ks).

(* ------------------------------------------------------------------ *)
(** ** Client programs *)

(** A callback cancels a handle. *)
Definition by_callback (a : Z) : Prop := exists i, may_cancel (e_prog E i) a.
(** Nobody who is to be called is forgotten: each is called, or still to be, or
    cancelled, by [X] or by a callback. *)
Definition moves (X : Z -> Prop) (w : world) (c : evctx) (w' : world) (c' : evctx) : Prop :=
  exists calls, log w' = log w ++ calls /\
    forall n, n ∈ noti_q c -> n ∈ noti_q c' \/ called n ∈ calls \/ X (n_addr n) \/ by_callback (n_addr n).

Lemma moves_on (X : Z -> Prop) w c w' c' : log w' = log w -> (forall n, n ∈ noti_q c -> n ∈ noti_q c' \/ X (n_addr n)) -> moves X w c w' c'.
Proof. intros L H. exists []. rewrite app_nil_r. split; [done | ]. intros n Hn. destruct (H n Hn); auto. Qed.
Lemma moves_trans (X Y Z : Z -> Prop) w c w1 c1 w2 c2 : moves X w c w1 c1 -> moves Y w1 c1 w2 c2 ->
  (forall a, X a -> Z a \/ by_callback a) -> (forall a, Y a -> Z a \/ by_callback a) -> moves Z w c w2 c2.
Proof.
  intros (k1 & L1 & H1) (k2 & L2 & H2) HX HY. exists (k1 ++ k2). rewrite L2, L1, <- app_assoc. split; [done | ].
  intros n Hn. destruct (H1 n Hn) as [Hn1 | [Hc | [Hx | Hb]]]; [ | right; left; apply elem_of_app; by left | | by auto].
  - destruct (H2 n Hn1) as [? | [Hc | [Hy | Hb]]]; [by left | right; left; apply elem_of_app; by right | | by auto].
    right; right. by apply HY.
  - right; right. by apply HX.
Qed.

(** What running the loop from a client keeps. *)
Definition once_spec (once : L Z) : Prop := forall w c (Q : Z -> world -> Prop), inv None [] [] w c ->
  (forall r w' c', inv None [] [] w' c' -> (length (noti_q c') <= length (noti_q c))%nat ->
    moves (fun _ => False) w c w' c' -> Q r w') -> wp once w Q.
Lemma misuse_once : once_spec misuse.
Proof. intros w c Q _ _. apply wp_misuse. Qed.

Definition prog_post (p : prog) (w : world) (c : evctx) (w' : world) (c' : evctx) : Prop :=
  (length (noti_q c') <= length (noti_q c))%nat /\ moves (may_cancel p) w c w' c' /\
  (no_loop p -> log w' = log w /\ sublist (noti_q c') (noti_q c) /\
    (forall n, n ∈ pending c -> n ∈ pending c' \/ may_cancel p (n_addr n))) /\
  (quiet p -> log w' = log w /\ noti_q c' = noti_q c /\ pending c ⊆ pending c') /\
  (p = PDone -> c' = c).

Lemma put_grows fd cb cbarg ev_wait due r q q' : put_spec fd cb cbarg ev_wait due r q q' -> q ⊆ q'.
Proof. destruct r; cbn; [intros (d & l1 & l2 & _ & -> & ->) | intros ->]; set_solver. Qed.

Lemma stays_or q a (n : noti) : n ∈ q -> n ∈ noti_remove q a \/ a = n_addr n.
Proof.
  intros Hn. destruct (Z.eq_dec (n_addr n) a); [by right | left]. unfold noti_remove. by apply list_elem_of_filter.
Qed.
Lemma remove_sublist q a : sublist (noti_remove q a) q.
Proof.
  unfold noti_remove. induction q as [|n q IH]; [constructor | ]. rewrite filter_cons. by destruct (decide _); constructor.
Qed.

(** One call, and then the rest of the program. *)
Lemma post_step p q w c w1 c1 w2 c2 : prog_post q w1 c1 w2 c2 -> p <> PDone ->
  (length (noti_q c1) <= length (noti_q c))%nat -> moves (may_cancel p) w c w1 c1 -> (forall a, may_cancel q a -> may_cancel p a) ->
  (no_loop p -> no_loop q /\ log w1 = log w /\ sublist (noti_q c1) (noti_q c) /\
    (forall n, n ∈ pending c -> n ∈ pending c1 \/ may_cancel p (n_addr n))) ->
  (quiet p -> quiet q /\ log w1 = log w /\ noti_q c1 = noti_q c /\ pending c ⊆ pending c1) ->
  prog_post p w c w2 c2.
Proof.
  intros (Hl & Hm & Hn & Hq & _) Hp Hl1 Hm1 Hc Hn1 Hq1. split; [lia | ]. split; [ | split; [ | split; [ | done]]].
  - eapply moves_trans; [exact Hm1 | exact Hm | by left | intros a Ha; left; by apply Hc].
  - intros H. destruct (Hn1 H) as (N & L1 & S1 & P1). destruct (Hn N) as (L2 & S2 & P2).
    split; [congruence | ]. split; [by etrans | ]. intros n Hx. destruct (P1 n Hx) as [Hx1 | ?]; [ | by right].
    destruct (P2 n Hx1) as [? | ?]; [by left | right; by apply Hc].
  - intros H. destruct (Hq1 H) as (N & L1 & S1 & P1). destruct (Hq N) as (L2 & S2 & P2).
    split; [congruence | ]. split; [congruence | by etrans].
Qed.

Lemma ev_prog_ok once p w c (Q : unit -> world -> Prop) : once_spec once -> inv None [] [] w c ->
  (forall w' c', inv None [] [] w' c' -> prog_post p w c w' c' -> Q tt w') -> wp (run_prog E once p) w Q.
Proof.
  intros Ho. revert w c Q. induction p as [ | fd cb cbarg ev_wait sec usec k IH | fd cb k IH | ev k IH | k IH];
    intros w c Q I HQ; cbn [run_prog].
  - apply ewp_ret. eapply HQ; [exact I | ]. split; [done | ]. split; [apply moves_on; auto | ]. split; [ | done].
    intros _. split; [done | ]. split; [done | auto].
  - apply ewp_bind. eapply put_ok; [exact I | ]. intros r w' c' I' L N P. apply put_grows in P. eapply IH; [exact I' | ].
    intros w2 c2 I2 P2. eapply HQ; [exact I2 | ]. eapply post_step; [exact P2 | done | by rewrite N | | | | ].
    + apply moves_on; [done | ]. rewrite N. by left.
    + intros a Ha. by exists r.
    + intros H. split; [apply H | ]. split; [done | ]. split; [by rewrite N | ]. intros n Hn. left. by apply P.
    + intros H. by split; [apply H | ].
  - apply ewp_bind. eapply get_ok; [exact I | ]. intros r. eapply IH; [exact I | ].
    intros w2 c2 I2 P2. eapply HQ; [exact I2 | ]. eapply post_step; [exact P2 | done | done | | | | ].
    + apply moves_on; auto.
    + intros a Ha. by exists r.
    + intros H. split; [apply H | ]. split; [done | ]. split; [done | auto].
    + intros H. by split; [apply H | ].
  - apply ewp_bind. eapply ev_cancel_ok; [exact I | ]. intros w' c' I' L [P N]. eapply IH; [exact I' | ].
    intros w2 c2 I2 P2. eapply HQ; [exact I2 | ]. eapply post_step; [exact P2 | done | | | | | done].
    + rewrite N. apply length_filter.
    + apply moves_on; [done | ]. intros n Hn. rewrite N. destruct (stays_or _ ev n Hn); [by left | right; by left].
    + by right.
    + intros H. split; [done | ]. split; [done | ]. split; [rewrite N; apply remove_sublist | ]. intros n Hn. rewrite P.
      destruct (stays_or _ ev n Hn); [by left | right; by left].
  - apply ewp_bind. eapply Ho; [exact I | ]. intros r w' c' I' Hn Hm. eapply IH; [exact I' | ].
    intros w2 c2 I2 P2. eapply HQ; [exact I2 | ]. eapply post_step; [exact P2 | done | done | | | done | done].
    + eapply moves_trans; [exact Hm | by apply (moves_on (fun _ => False)); auto | done | done].
    + intros a Ha. by exists r.
Qed.

(* ------------------------------------------------------------------ *)
(** ** Marks *)

Lemma Forall_same (P : fdg -> Prop) (m : fdg -> fdg) q : (forall g, same g (m g)) -> (forall g g', same g g' -> P g -> P g') ->
  Forall P q -> Forall P (map m q).
Proof. intros Hm HP H. apply Forall_map. eapply Forall_impl; [exact H | ]. intros g. by apply HP. Qed.
Lemma map_same {A} (f : fdg -> A) (m : fdg -> fdg) q : (forall g, same g (m g)) -> (forall g g', same g g' -> f g' = f g) ->
  map f (map m q) = map f q.
Proof. intros Hm Hf. rewrite map_map. apply map_ext. intros g. by apply Hf. Qed.
Lemma find_same m q fd : (forall g, same g (m g)) -> fd_q_find (map m q) fd = m <$> fd_q_find q fd.
Proof.
  intros Hm. unfold fd_q_find. induction q as [|g q IH]; cbn; [done | ]. destruct (Hm g) as (_ & -> & _).
  by destruct (f_fd g =? fd).
Qed.

Definition map_groups (m m' : fdg -> fdg) (c : evctx) : evctx :=
  set_spare_fd_q (map m' (spare_fd_q c)) (set_fd_q (map m (fd_q c)) c).
Lemma map_groups_ok nl w c m m' w' : (forall g, same g (m g)) -> (forall g, same g (m' g)) -> inv None [] nl w c ->
  w' = set_ctx (Some (a0, map_groups m m' c)) w -> inv None [] nl w' (map_groups m m' c).
Proof.
  intros Hm Hm' [H I] ->. split.
  - eapply heap_move; [done | | done]. rewrite !addrs_parts. cbn.
    by rewrite !(map_same f_addr), (map_same f_q) by (done || (intros ? ? (? & ? & ? & ?); done)).
  - destruct I as [F O N S P G I M]. split; cbn.
    + by rewrite map_same by (done || (intros ? ? (? & ? & ? & ?); done)).
    + eapply Forall_same; [done | | exact O]. intros g g' (A & B & C & D). by rewrite B, D.
    + eapply Forall_same; [done | | exact N]. intros g g' (A & B & C & D). by rewrite A, D.
    + eapply Forall_same; [done | | exact S]. intros g g' (A & B & C & D). by rewrite D.
    + intros fd e p Hp%P. rewrite map_app in *. by rewrite !(map_same f_addr) by (done || (intros ? ? (? & ? & ? & ?); done)).
    + eapply Forall_same; [done | | exact G]. intros g g' (A & B & C & D). by rewrite B, C.
    + intros A fd. rewrite (I A), find_same by done. destruct (fd_q_find (fd_q c) fd) as [g|]; [ | done]. cbn.
      destruct (Hm g) as (-> & _ & -> & _). done.
    + intros A. eapply Forall_same; [done | | exact (M A)]. intros g g' (A' & B & C & D). by rewrite A', B, C, D.
Qed.

Lemma marks_cons x evs q : map (marks evs) (map (fun g => mark_at g x) q) = map (marks (x :: evs)) q.
Proof. by rewrite map_map. Qed.

Lemma mark_all_ok evs w c (Q : unit -> world -> Prop) : inv None [] [] w c ->
  Forall (fun x => x.1 ∈ map f_addr (fd_q c ++ spare_fd_q c)) evs ->
  (forall w', let c' := map_groups (marks evs) (marks evs) c in inv None [] [] w' c' -> log w' = log w -> used w' = used w -> Q tt w') ->
  wp (mark_all evs) w Q.
Proof.
  revert w c. induction evs as [|[p e] evs IH]; intros w c I Hp HQ; cbn [mark_all].
  - apply ewp_ret. assert (Hc : map_groups (marks []) (marks []) c = c) by (unfold map_groups, marks; cbn; rewrite !map_id; by destruct c).
    apply HQ; [by rewrite Hc | done | done].
  - apply Forall_cons in Hp as [Hpe Hp]. cbn in Hpe. pose proof I as [H _]. apply ewp_bind. eapply the_ctx_ok; [exact H | ].
    rewrite bool_decide_eq_true_2 by done. apply ewp_bind. eapply upd_ctx_ok; [exact H | ].
    set (m := fun g => mark_at g (p, e)). assert (Hm : forall g, same g (m g)) by (intros g; apply mark_at_same).
    eapply (IH _ (map_groups m m c)); [by eapply map_groups_ok | | ].
    + eapply Forall_impl; [exact Hp | ]. intros x Hx. cbn. rewrite <- map_app.
      by rewrite (map_same f_addr) by (done || (intros ? ? (? & ? & ? & ?); done)).
    + intros w' c' I' L' U'. subst c'. unfold map_groups in I'. cbn in I'. rewrite !(marks_cons (p, e)) in I'. by apply HQ.
Qed.

(* ------------------------------------------------------------------ *)
(** ** Collecting *)

Lemma judged_split now g :
  map n_addr (filter (fun n => n_noti n <> 0) (judged now g)) ++ map n_addr (filter (fun n => n_noti n = 0) (judged now g))
    ≡ₚ map n_addr (f_q g).
Proof.
  rewrite <- map_app, Permutation_app_comm, filter_app_complement. unfold judged. by rewrite map_map.
Qed.

Lemma collect_group_ok now w c l1 g l2 (Q : unit -> world -> Prop) : inv None [] [] w c -> fd_q c = l1 ++ g :: l2 ->
  (forall w' c', inv None [] [] w' c' -> log w' = log w -> noti_q c' = noti_q c ++ fired now [g] ->
    (exists k, fd_q c' = l1 ++ k ++ l2 /\ concat (map f_q k) = left_over now [g]) -> Q tt w') ->
  wp (collect_group E now g) w Q.
Proof.
  intros I Hq HQ. unfold collect_group. fold (judged now g). cbv zeta. pose proof (judged_split now g) as J.
  set (out := filter (fun n => n_noti n <> 0) (judged now g)) in *. set (stay := filter (fun n => n_noti n = 0) (judged now g)) in *.
  apply ewp_bind. eapply (inv_put_group E a0 ep ks _ [] [] (map n_addr out) _ _ l1 g l2); [exact I | done | by left | done | done | done | | | ].
  { cbn. destruct I as [_ I]. pose proof (q_own _ _ _ _ _ I) as O. rewrite Hq in O. apply Forall_cut in O as [O _].
    apply Forall_forall. intros n [_ Hn]%list_elem_of_filter. unfold judged in Hn.
    apply list_elem_of_fmap in Hn as (m & -> & Hm). exact (proj1 (Forall_forall _ _) O m Hm). }
  { cbn. exact J. }
  intros w1 I1 L1. apply ewp_bind. eapply (upd_notis_ok E a0 ep ks _ _ _ []); [exact I1 | done | done | done | | ].
  { cbn. rewrite map_app. solve_Permutation. }
  intros I2. eapply (settle_ok E a0 ep ks [] _ _ l1 (set_f_q stay g) l2); [exact I2 | done | ].
  intros w3 c3 I3 L3 N3 S3 (k & Hk & Hkq). eapply HQ; [exact I3 | cbn in L3; congruence | | ].
  - rewrite N3. cbn. by rewrite app_nil_r.
  - exists k. split; [done | ]. cbn. by rewrite app_nil_r.
Qed.

Lemma collect_ok now gs w c l (Q : unit -> world -> Prop) : inv None [] [] w c -> fd_q c = l ++ gs ->
  (forall w' c', inv None [] [] w' c' -> log w' = log w -> noti_q c' = noti_q c ++ fired now gs ->
    pending c' = concat (map f_q l) ++ left_over now gs -> Q tt w') ->
  wp (collect E now gs) w Q.
Proof.
  revert w c l. induction gs as [|g gs IH]; intros w c l I Hq HQ; cbn [collect].
  - apply ewp_ret. eapply HQ; [exact I | done | by rewrite app_nil_r | ]. unfold pending. rewrite Hq. cbn. by rewrite !app_nil_r.
  - apply ewp_bind. eapply collect_group_ok; [exact I | done | ]. intros w1 c1 I1 L1 N1 (k & Hk & Hkq).
    eapply (IH _ _ (l ++ k)); [exact I1 | by rewrite <- app_assoc | ]. intros w2 c2 I2 L2 N2 P2.
    eapply HQ; [exact I2 | congruence | | ].
    + rewrite N2, N1. unfold fired. cbn. by rewrite app_nil_r, <- app_assoc.
    + rewrite P2, map_app, concat_app, Hkq. unfold left_over. cbn. by rewrite app_nil_r, <- app_assoc.
Qed.

(* ------------------------------------------------------------------ *)
(** ** Calling the clients *)

(** No callback cancels or runs the loop; none runs the loop. *)
Definition all_quiet : Prop := forall i, quiet (e_prog E i).
Definition no_loops : Prop := forall i, no_loop (e_prog E i).

(** What dispatching [q] did: nobody is forgotten; callbacks that do not run the
    loop leave some of [q] called, in order, and take only what they cancel. *)
Definition dispatched (q : list noti) (nnoti r : Z) (w : world) (c : evctx) (w' : world) (c' : evctx) : Prop :=
  (exists calls, log w' = log w ++ calls /\ (forall n, n ∈ q -> called n ∈ calls \/ by_callback (n_addr n)) /\
    (no_loops -> exists out, sublist out q /\ calls = map called out /\ r = nnoti + Z.of_nat (length out)) /\
    (all_quiet -> calls = map called q /\ r = nnoti + Z.of_nat (length q))) /\
  (no_loops -> forall n, n ∈ pending c -> n ∈ pending c' \/ by_callback (n_addr n)) /\
  (all_quiet -> pending c ⊆ pending c') /\
  ((forall i, e_prog E i = PDone) -> pending c' = pending c).

Lemma dispatched_step i n q nnoti r w c w3 c2 w4 c4 w5 c5 : log w3 = log w -> noti_q c2 = q -> pending c2 = pending c ->
  prog_post (e_prog E i) (World (ctx w3) (mem w3) (brk w3) (interest w3) (kfds w3) (used w3) (log w3 ++ [called n])) c2 w4 c4 ->
  dispatched (noti_q c4) (nnoti + 1) r w4 c4 w5 c5 -> dispatched (n :: q) nnoti r w c w5 c5.
Proof.
  intros L3 N2 P2 (_ & (k4 & L4 & H4) & Hn4 & Hq4 & Hd4) ((k5 & L5 & H5 & Hn5 & Hq5) & Pn & Pq & Pd). cbn [log] in *.
  rewrite L3 in *. rewrite N2, P2 in *. split; [exists ([called n] ++ k4 ++ k5); split; [ | split; [ | split]] | split; [ | split]].
  - by rewrite L5, L4, <- !app_assoc.
  - intros m [-> | Hm]%elem_of_cons; [left; by apply elem_of_cons; left | ].
    rewrite !elem_of_app. destruct (H4 m Hm) as [Hm4 | [? | [? | ?]]]; [ | by auto | right; by exists i | by auto].
    destruct (H5 m Hm4); auto.
  - intros A. destruct (Hn4 (A i)) as (E4 & S4 & _). destruct (Hn5 A) as (out & S5 & -> & ->). rewrite L4 in E4.
    assert (k4 = []) as -> by (apply (app_inv_head (log w ++ [called n])); by rewrite app_nil_r).
    exists (n :: out). split; [constructor; by etrans | ]. split; [done | cbn [length]; lia].
  - intros A. destruct (Hq4 (A i)) as (E4 & S4 & _). destruct (Hq5 A) as (-> & ->). rewrite L4 in E4.
    assert (k4 = []) as -> by (apply (app_inv_head (log w ++ [called n])); by rewrite app_nil_r).
    rewrite S4. split; [done | cbn [length]; lia].
  - intros A m Hm. destruct (Hn4 (A i)) as (_ & _ & S4). destruct (S4 m Hm) as [Hm4 | ?]; [by apply Pn | right; by exists i].
  - intros A. destruct (Hq4 (A i)) as (_ & _ & S4). etrans; [exact S4 | by apply Pq].
  - intros A. rewrite Pd, (Hd4 (A i)) by done. done.
Qed.

Lemma ev_dispatch_ok once fuel nnoti w c (Q : Z -> world -> Prop) : once_spec once -> inv None [] [] w c ->
  (length (noti_q c) <= fuel)%nat ->
  (forall r w' c', inv None [] [] w' c' -> noti_q c' = [] -> dispatched (noti_q c) nnoti r w c w' c' -> Q r w') ->
  wp (dispatch E once fuel nnoti) w Q.
Proof.
  intros Ho. revert nnoti w c Q. induction fuel as [|fuel IH]; intros nnoti w c Q I Hl HQ; cbn [dispatch];
    pose proof I as [H _]; apply ewp_bind; (eapply the_ctx_ok; [exact H | ]); destruct (noti_q c) as [|n q] eqn:Hn.
  1,3: apply ewp_ret; eapply HQ; [exact I | done | ]; split; [ | auto]; exists []; rewrite app_nil_r; split; [done | ];
    split; [by intros n Hx%not_elem_of_nil | split; [intros _; exists []; cbn; split; [done | split; [done | lia]] | intros _; split; [done | cbn; lia]]].
  { cbn in Hl. lia. }
  apply ewp_bind. eapply (upd_notis_ok E a0 ep ks _ _ _ [n_addr n]); [exact I | done | done | done | | ].
  { cbn. rewrite Hn. cbn. solve_Permutation. }
  intros I1. apply ewp_bind. eapply push_spare_ok; [exact I1 | ]. intros w2 c2 I2 L2.
  unfold callback. apply ewp_bind, ewp_bind, ev_tick_ok. intros w3 K3 Hi3 _. apply ewp_bind, ewp_modify.
  apply (inv_kern _ _ _ _ _ _ _ _ _ _ K3 Hi3) in I2.
  assert (L3 : log w3 = log w) by (destruct K3 as (_ & _ & _ & _ & ->); rewrite L2; done).
  eapply ev_prog_ok; [exact Ho | | ].
  { destruct I2 as [[] Iq]. split; [split; done | exact Iq]. }
  intros w4 c4 I4 P4. pose proof P4 as (Hl4 & _). eapply IH; [exact I4 | cbn in Hl, Hl4; lia | ].
  intros r w5 c5 I5 N5 D5. eapply HQ; [exact I5 | done | ].
  by eapply (dispatched_step (used w2) n q nnoti r w c w3 c2 w4 c4 w5 c5).
Qed.

(* ------------------------------------------------------------------ *)
(** ** A pass *)

Lemma found_ptr nl w c l : inv None [] nl w c -> Forall (fun x => x.1 ∈ map f_addr (fd_q c ++ spare_fd_q c)) (take EPOLL_MAX (omap (found (interest w)) l)).
Proof.
  intros [_ I]. apply Forall_take, Forall_forall. intros [p e] Hin. apply list_elem_of_omap in Hin as ([fd ev] & _ & Hf).
  unfold found in Hf. cbn in Hf. destruct (interest w !! fd) as [[m q]|] eqn:Hi; [ | done]. cbn in Hf.
  destruct (_ =? 0); [done | ]. injection Hf as -> _. cbn. by apply (q_ptr _ _ _ _ _ I) in Hi.
Qed.

(** The answer of the wait: the kernel is asked once, after the clock where a
    deadline has to be compared. *)
Definition wait_no (w : world) (c : evctx) : nat := used w + (if nearest (fd_q c) is Some _ then 1 else 0).
Lemma wait_ok w c (Q : Z + list (Z * Z) -> world -> Prop) : inv None [] [] w c ->
  (forall r w', inv None [] [] w' c -> log w' = log w ->
    ((exists e t, nearest (fd_q c) = Some t /\ e_clock E (used w) = inl e) \/ (exists e, e_wait E (wait_no w c) = inl e)) -> Q (inl r) w') ->
  (forall l w', inv None [] [] w' c -> log w' = log w -> used w' = S (wait_no w c) -> e_wait E (wait_no w c) = inr l ->
    Q (inr (take EPOLL_MAX (omap (found (interest w)) l))) w') ->
  wp (wait E) w Q.
Proof.
  intros I HQ HQ'. unfold wait. apply ewp_bind. eapply the_ctx_ok; [apply I | ].
  assert (Hwait : forall w1 now, inv None [] [] w1 c -> log w1 = log w -> interest w1 = interest w -> used w1 = wait_no w c ->
    wp (do evs <- epoll_wait E (timeout_for c now); ret (match evs with inl r => inl (if r =? EINTR then 0 else - r) | inr l => inr l end)) w1 Q).
  { intros w1 now I1 L1 Hi1 U1. unfold epoll_wait. apply ewp_bind, ewp_bind, ev_tick_ok. intros w2 K2 Hi2 U2. ewp_pure.
    rewrite U1, Hi2, Hi1 in *. apply (inv_kern _ _ _ _ _ _ _ _ _ _ K2) in I1; [ | congruence].
    assert (L2 : log w2 = log w) by (destruct K2 as (_ & _ & _ & _ & ->); done).
    destruct (e_wait E (wait_no w c)) as [e | l] eqn:He; ewp_pure; [apply HQ; eauto | by eapply HQ']. }
  unfold wait_no in *. destruct (nearest (fd_q c)) as [t|] eqn:Hn.
  - unfold clock_gettime. apply ewp_bind, ewp_bind, ev_tick_ok. intros w1 K1 Hi1 U1. ewp_pure.
    apply (inv_kern _ _ _ _ _ _ _ _ _ _ K1 Hi1) in I. assert (L1 : log w1 = log w) by apply K1.
    destruct (e_clock E (used w)) as [e | now] eqn:Hc; [apply ewp_ret, HQ; [done | done | left; eauto] | ].
    apply Hwait; [done | done | done | lia].
  - apply ewp_bind, ewp_ret. apply Hwait; [done | done | done | lia].
Qed.

(** What is told to the clients, from what the wait has found. *)
Lemma handle_events_ok once evs w c (Q : Z -> world -> Prop) : once_spec once -> inv None [] [] w c ->
  Forall (fun x => x.1 ∈ map f_addr (fd_q c ++ spare_fd_q c)) evs ->
  (forall r w' c', inv None [] [] w' c' -> (length (noti_q c') <= length (noti_q c))%nat -> moves (fun _ => False) w c w' c' ->
    (forall now, e_clock E (used w) = inr now -> let gs := map (marks evs) (fd_q c) in
      exists w1 c1, log w1 = log w /\ noti_q c1 = noti_q c ++ fired now gs /\ pending c1 = left_over now gs /\
        dispatched (noti_q c1) 0 r w1 c1 w' c') -> Q r w') ->
  wp (handle_events E once evs) w Q.
Proof.
  intros Ho I Hp HQ. unfold handle_events. apply ewp_bind. eapply mark_all_ok; [exact I | exact Hp | ].
  intros w1 c1 I1 L1 U1. unfold clock_gettime. apply ewp_bind, ewp_bind, ev_tick_ok. intros w2 K2 Hi2 _. apply ewp_ret.
  apply (inv_kern _ _ _ _ _ _ _ _ _ _ K2 Hi2) in I1. assert (L2 : log w2 = log w) by (destruct K2 as (_ & _ & _ & _ & ->); done).
  rewrite U1. destruct (e_clock E (used w)) as [e | now] eqn:Hc; [eapply ewp_ret, HQ; [exact I1 | done | | done] | ].
  { apply moves_on; [congruence | auto]. }
  apply ewp_bind. eapply the_ctx_ok; [apply I1 | ]. apply ewp_bind. eapply (collect_ok now _ _ _ []); [exact I1 | done | ].
  intros w3 c3 I3 L3 N3 P3. cbn in N3, P3. apply ewp_bind. eapply the_ctx_ok; [apply I3 | ].
  eapply ev_dispatch_ok; [done | exact I3 | done | ]. intros r w4 c4 I4 N4 D4.
  assert (L3' : log w3 = log w) by congruence. eapply HQ; [exact I4 | rewrite N4; cbn; lia | | ].
  - destruct D4 as [(k & L4 & H4 & _) _]. exists k. rewrite L4, L3'. split; [done | ]. intros n Hn. right.
    destruct (H4 n); [rewrite N3; by apply elem_of_app; left | by left | by right; right].
  - intros now' [= <-]. exists w3, c3. split; [done | ]. split; [done | ]. split; [done | exact D4].
Qed.

Lemma reset_ok w c (Q : unit -> world -> Prop) : inv None [] [] w c ->
  (forall w', let c' := set_fd_q (map (set_trig 0 false) (fd_q c)) c in
    inv None [] [] w' c' -> log w' = log w -> used w' = used w -> interest w' = interest w -> Q tt w') ->
  wp (upd_ctx (fun c => set_fd_q (map (set_trig 0 false) (fd_q c)) c)) w Q.
Proof.
  intros I HQ. eapply upd_ctx_ok; [apply I | ]. apply HQ; [ | done..].
  assert (Hc : set_fd_q (map (set_trig 0 false) (fd_q c)) c = map_groups (set_trig 0 false) id c)
    by (unfold map_groups; rewrite map_id; by destruct c).
  rewrite Hc. by eapply map_groups_ok.
Qed.

Lemma once_ok d : once_spec (aloe_ev_once E d).
Proof.
  induction d as [|d IH]; intros w c Q I HQ; cbn [aloe_ev_once]; apply ewp_bind; (eapply reset_ok; [exact I | ]);
    intros w1 c1 I1 L1 U1 Hi1; apply ewp_bind; (eapply wait_ok; [exact I1 | | ]).
  1,3: intros r w2 I2 L2 _; eapply ewp_ret, HQ; [exact I2 | done | apply moves_on; [congruence | auto]].
  all: intros l w2 I2 L2 U2 He; eapply handle_events_ok; [apply misuse_once || exact IH | exact I2 | by eapply found_ptr | ];
    intros r w3 c3 I3 N3 M3 _; eapply HQ; [exact I3 | done | ];
    (eapply (moves_trans (fun _ => False)); [ | exact M3 | done | done]); apply moves_on; [congruence | auto].
Qed.
End Loop.
