(* ===== verification/EvTime.v ===== *)
(** EvTime: deadlines and how long the loop ev waits for them. *)

From S2P Require Import Prelude Eff Ev EvInv.

(** In nanoseconds. *)
Definition MEGA : Z := 1000000.
Definition ns (t : timespec) : Z := t.1 * GIGA + t.2.
Definition normal (t : timespec) : Prop := 0 <= t.2 < GIGA.

(** A deadline is normalised whatever it is computed from. *)
Lemma ts_add_normal now sec usec : normal (ts_add now sec usec).
Proof.
  unfold normal, ts_add, GIGA, s64, u64. cbv zeta.
  match goal with |- context [if ?b then _ else _] => destruct b eqn:Hb end; cbn.
  - apply Z.mod_pos_bound. lia.
  - apply Z.leb_gt in Hb. dlia.
Qed.

(** Times are compared as numbers. *)
Lemma ts_cmp_ns a b : normal a -> normal b -> ts_cmp a b = (ns a ?= ns b).
Proof.
  unfold normal, ts_cmp, ns. intros Ha Hb. symmetry. destruct (Z.compare_spec a.1 b.1) as [He | He | He].
  - rewrite He. destruct (Z.compare_spec a.2 b.2); [apply Z.compare_eq_iff | apply Z.compare_lt_iff | apply Z.compare_gt_iff]; lia.
  - apply Z.compare_lt_iff. unfold GIGA in *. lia.
  - apply Z.compare_gt_iff. unfold GIGA in *. lia.
Qed.
Lemma ts_lt_ns a b : normal a -> normal b -> ts_lt a b = (ns a <? ns b).
Proof. intros Ha Hb. unfold ts_lt. rewrite ts_cmp_ns by done. reflexivity. Qed.

Definition timed (n : noti) : Prop := never (n_due n) = false.

Lemma nearest_fold l acc : Forall (fun n => normal (n_due n)) l -> (forall d, acc = Some d -> normal d) ->
  match fold_left nearer l acc with
  | None => acc = None /\ Forall (fun n => ~ timed n) l
  | Some d => (acc = Some d \/ exists n, n ∈ l /\ timed n /\ n_due n = d) /\ normal d /\
      (forall n, n ∈ l -> timed n -> ns d <= ns (n_due n)) /\ (forall d', acc = Some d' -> ns d <= ns d')
  end.
Proof.
  revert acc. induction l as [|n l IH]; intros acc Hn Ha; cbn [fold_left].
  - destruct acc as [d|]; [ | by split]. split; [by left | ]. split; [by apply Ha | ]. split; [intros n Hx; by apply not_elem_of_nil in Hx | ].
    intros d' [= ->]. lia.
  - apply Forall_cons in Hn as [Hn1 Hn]. assert (Hstep : forall d, nearer acc n = Some d -> normal d).
    { unfold nearer. intros d. destruct (never (n_due n)); [apply Ha | ]. destruct acc as [d0|]; [ | by intros [= <-]].
      destruct (ts_lt _ _); [by intros [= <-] | apply Ha]. }
    specialize (IH _ Hn Hstep).
    assert (Hcase : match nearer acc n with
      | None => acc = None /\ ~ timed n
      | Some d => (acc = Some d \/ timed n /\ n_due n = d) /\ (timed n -> ns d <= ns (n_due n)) /\ (forall d', acc = Some d' -> ns d <= ns d')
      end).
    { unfold nearer, timed. destruct (never (n_due n)) eqn:Hv.
      - destruct acc as [d|]; [ | by split]. split; [by left | ]. split; [done | ]. intros d' [= ->]. lia.
      - destruct acc as [d0|]; [ | split; [by right | split; [lia | done]]]. rewrite ts_lt_ns by auto.
        destruct (Z.ltb_spec (ns (n_due n)) (ns d0)).
        + split; [by right | ]. split; [lia | ]. intros d' [= ->]. lia.
        + split; [by left | ]. split; [lia | ]. intros d' [= ->]. lia. }
    destruct (fold_left nearer l (nearer acc n)) as [d|].
    + destruct IH as (Hd & Hnd & Hl & Hacc). split_and!.
      * destruct Hd as [Hd | (m & Hm & Ht & He)]; [ | right; exists m; split; [by right | done]]. rewrite Hd in Hcase.
        destruct Hcase as ([Hc | [Ht He]] & _); [by left | right]. exists n. split; [by left | done].
      * done.
      * intros m [-> | Hm]%elem_of_cons Ht; [ | by apply Hl]. destruct (nearer acc n) as [e|] eqn:He.
        -- destruct Hcase as (_ & Hc & _). specialize (Hc Ht). specialize (Hacc _ eq_refl). lia.
        -- by destruct Hcase.
      * intros d' Hd'. destruct (nearer acc n) as [e|] eqn:He.
        -- destruct Hcase as (_ & _ & Hc). specialize (Hc _ Hd'). specialize (Hacc _ eq_refl). lia.
        -- destruct Hcase; congruence.
    + destruct IH as [He Hf]. rewrite He in Hcase. destruct Hcase as [-> Ht]. split; [done | ]. by apply Forall_cons.
Qed.

(** What is left is rounded up to milliseconds; what an [int] cannot hold is
    cut. *)
Lemma due_to_timeout_ms_ok r : 0 <= r.1 -> normal r ->
  due_to_timeout_ms r = INT_MAX /\ 2147483 * GIGA <= ns r \/
  0 <= due_to_timeout_ms r <= INT_MAX /\ due_to_timeout_ms r * MEGA - MEGA < ns r <= due_to_timeout_ms r * MEGA.
Proof.
  unfold due_to_timeout_ms, normal, ns, GIGA, MEGA, INT_MAX. intros Hr Hn. change (2147483647 / 1000 - 1) with 2147482.
  destruct (Z.ltb_spec 2147482 r.1); [left; lia | right].
  match goal with |- context [if ?b then _ else _] => destruct b eqn:Hb end; [apply Z.ltb_lt in Hb; dlia | ].
  apply Z.ltb_ge in Hb. dlia.
Qed.

Lemma ts_sub_ns a b : normal a -> normal b -> ns (ts_sub a b) = ns a - ns b /\ normal (ts_sub a b).
Proof. unfold normal, ts_sub, ns, GIGA. intros Ha Hb. destruct (Z.ltb_spec a.2 b.2); cbn; lia. Qed.

(** C30: the wait ends when the first deadline does.  It lasts no longer than any
    registration's deadline, to the millisecond above, but for the millisecond
    that keeps the loop from spinning and for deadlines more than 24 days away;
    unless it is cut to the longest an [int] holds it does not end before some
    deadline has passed; it is endless exactly when nothing has a deadline and a
    descriptor is watched. *)
Theorem ev_wait_bounds c now : Forall (fun n => normal (n_due n)) (pending c) -> normal now ->
  let t := timeout_for c now in
  (forall n, n ∈ pending c -> timed n -> 0 <= t <= INT_MAX /\
    (t <= PREVENT_BUSY \/ t * MEGA - MEGA < ns (n_due n) - ns now \/ 2147483 * GIGA <= ns (n_due n) - ns now)) /\
  (Exists timed (pending c) -> t = INT_MAX \/ exists n, n ∈ pending c /\ timed n /\ ns (n_due n) - ns now <= t * MEGA) /\
  (t = -1 <-> Forall (fun n => ~ timed n) (pending c) /\ has_fd (fd_q c) = true).
Proof.
  intros Hn Hnow t. pose proof (nearest_fold (pending c) None Hn ltac:(done)) as Hf.
  change (fold_left nearer (pending c) None) with (nearest (fd_q c)) in Hf. subst t. unfold timeout_for.
  destruct (nearest (fd_q c)) as [d|].
  - destruct Hf as ([? | (m & Hm & Ht & <-)] & Hd & Hmin & _); [done | ]. rewrite ts_lt_ns by done.
    set (t0 := if ns now <? ns (n_due m) then due_to_timeout_ms (ts_sub (n_due m) now) else 0).
    assert (H0 : 0 <= t0 <= INT_MAX /\ (t0 = 0 /\ ns (n_due m) <= ns now \/ t0 = INT_MAX /\ 2147483 * GIGA <= ns (n_due m) - ns now \/
      t0 * MEGA - MEGA < ns (n_due m) - ns now <= t0 * MEGA)).
    { subst t0. destruct (Z.ltb_spec (ns now) (ns (n_due m))) as [Hlt | Hge]; [ | split; [unfold INT_MAX; lia | by left]].
      destruct (ts_sub_ns (n_due m) now Hd Hnow) as [Hs Hsn]. destruct (due_to_timeout_ms_ok (ts_sub (n_due m) now)) as [[H1 H2] | [H1 H2]].
      - unfold ns, normal, GIGA in *. lia.
      - done.
      - rewrite H1. split; [unfold INT_MAX; lia | ]. right; left. split; [done | lia].
      - split; [done | ]. right; right. lia. }
    clearbody t0.
    set (t1 := if negb (busy c) && (0 <=? t0) && (t0 <? PREVENT_BUSY) then PREVENT_BUSY else t0).
    assert (H1 : t1 = t0 \/ t1 = 1 /\ t0 = 0).
    { subst t1. unfold PREVENT_BUSY. destruct (negb (busy c)); [ | by left]. cbn [andb].
      destruct (Z.leb_spec 0 t0), (Z.ltb_spec t0 1); cbn [andb]; lia. }
    clearbody t1. unfold PREVENT_BUSY, INT_MAX, GIGA, MEGA in *. split_and!.
    + intros n Hin Hti. specialize (Hmin n Hin Hti). lia.
    + intros _. assert (t1 = 2147483647 \/ ns (n_due m) - ns now <= t1 * 1000000) as [-> | Hle] by lia; [by left | right].
      by exists m.
    + split; [lia | ]. intros [Hall _]. by destruct (proj1 (Forall_forall _ _) Hall m Hm).
  - destruct Hf as [_ Hall]. split_and!.
    + intros n Hin Hti. by destruct (proj1 (Forall_forall _ _) Hall n Hin).
    + intros (n & Hin & Hti)%Exists_exists. by destruct (proj1 (Forall_forall _ _) Hall n Hin).
    + destruct (has_fd (fd_q c)); cbn.
      * rewrite andb_false_r. cbn. by split.
      * split; [ | by intros []]. unfold PREVENT_BUSY. by destruct (busy c).
Qed.
Lemma ev_wait_bounds_witness :
  let c := Evctx false 3 [Fdg 1 5 1 0 false [Noti 2 5 7 0 1 (101, 500) 0; Noti 4 5 8 0 1 (INFINITE, 0) 0]] [] [] [] in
  timeout_for c (100, 0) = 1001.
Proof.
  intros c. destruct (ev_wait_bounds c (100, 0)) as (H1 & _ & _).
  - repeat constructor; cbn; unfold INFINITE, GIGA; lia.
  - split; cbn; unfold GIGA; lia.
  - destruct (H1 (Noti 2 5 7 0 1 (101, 500) 0)) as [_ _]; [by left | reflexivity | reflexivity].
Defined.

(** A deadline 2147483 seconds away is waited for 647 milliseconds too long: what
    is cut to [INT_MAX] is not above it. *)
Lemma long_wait_is_late :
  let due := (2147483, 0) in due_to_timeout_ms due * MEGA - ns due = 647 * MEGA.
Proof. reflexivity. Qed.

(** A timeout that is not endless but large reaches back before the present. *)
Lemma huge_timeout_is_past : ts_lt (ts_add (100, 0) (ULONG_INFINITE - 50) 0) (100, 0) = true.
Proof. reflexivity. Qed.
