(* ===== verification/EvSpec.v ===== *)
(** EvSpec: the properties of the loop ev, over every state that a client can
    reach. *)

From stdpp Require Import gmap.
From S2P Require Import Prelude Eff Ev EvInv EvOps EvLoop.

Open Scope eff_scope.

(* ------------------------------------------------------------------ *)
(** ** Creation and destruction *)

Section Life.
Context (E : env).

Lemma ev_free_ok a w (r : list Z) (Q : unit -> world -> Prop) : NoDup (mem w) -> mem w ≡ₚ a :: r ->
  (forall w', w' = set_mem (mem w') w -> mem w' ≡ₚ r -> NoDup (mem w') -> Q tt w') -> wp (free a) w Q.
Proof.
  intros Hn Hp HQ. unfold free. ewp_pure. rewrite bool_decide_eq_true_2 by (rewrite Hp; by apply elem_of_cons; left).
  apply ewp_modify, HQ; [done | by apply filter_perm_cons | by apply list.NoDup_filter].
Qed.
Lemma free_all_ok l w (r : list Z) (Q : unit -> world -> Prop) : NoDup (mem w) -> mem w ≡ₚ l ++ r ->
  (forall w', w' = set_mem (mem w') w -> mem w' ≡ₚ r -> NoDup (mem w') -> Q tt w') -> wp (free_all l) w Q.
Proof.
  revert w. induction l as [|a l IH]; intros w Hn Hp HQ; cbn [free_all].
  - apply ewp_ret, HQ; [by destruct w | done | done].
  - apply ewp_bind. eapply ev_free_ok; [done | exact Hp | ]. intros w1 H1 P1 N1. apply IH; [done | done | ].
    intros w2 H2 P2 N2. apply HQ; [ | done | done]. rewrite H2, H1. done.
Qed.
Definition group_addrs (g : fdg) : list Z := map n_addr (f_q g) ++ [f_addr g].
Lemma free_groups_ok l w (r : list Z) (Q : unit -> world -> Prop) : NoDup (mem w) ->
  mem w ≡ₚ concat (map group_addrs l) ++ r ->
  (forall w', w' = set_mem (mem w') w -> mem w' ≡ₚ r -> NoDup (mem w') -> Q tt w') -> wp (free_groups l) w Q.
Proof.
  revert w. induction l as [|g l IH]; intros w Hn Hp HQ; cbn [free_groups].
  - apply ewp_ret, HQ; [by destruct w | done | done].
  - cbn in Hp. unfold group_addrs in Hp at 1. rewrite <- !app_assoc in Hp. cbn in Hp.
    apply ewp_bind. eapply free_all_ok; [done | exact Hp | ]. intros w1 H1 P1 N1.
    apply ewp_bind. eapply ev_free_ok; [done | exact P1 | ]. intros w2 H2 P2 N2. apply IH; [done | done | ].
    intros w3 H3 P3 N3. apply HQ; [ | done | done]. rewrite H3, H2, H1. done.
Qed.
Lemma groups_addrs q : concat (map group_addrs q) ≡ₚ map f_addr q ++ map n_addr (concat (map f_q q)).
Proof.
  induction q as [|g q IH]; [done | ]. cbn. rewrite IH, map_app. unfold group_addrs. solve_Permutation.
Qed.

Lemma ev_destroy_ok a0 ep ks w c (Q : unit -> world -> Prop) : inv E a0 ep ks None [] [] w c -> 0 <= ep -> ep ∉ ks ->
  (forall w', ctx w' = None -> mem w' = [] -> kfds w' = ks -> interest w' = ∅ -> Q tt w') -> wp aloe_ev_destroy w Q.
Proof.
  intros [H I] Hep Hks HQ. destruct H as [Hc Hp Hn Hb [He Hk]]. unfold aloe_ev_destroy. ewp_pure. rewrite Hc.
  assert (Hm : mem w ≡ₚ concat (map group_addrs (fd_q c)) ++ map f_addr (spare_fd_q c) ++ map n_addr (noti_q c) ++
    map n_addr (spare_noti_q c) ++ [a0]).
  { rewrite Hp, groups_addrs, addrs_parts. cbn. solve_Permutation. }
  apply ewp_bind. eapply free_groups_ok; [done | exact Hm | ]. intros w1 H1 P1 N1.
  apply ewp_bind. eapply free_all_ok; [done | exact P1 | ]. intros w2 H2 P2 N2.
  apply ewp_bind. eapply free_all_ok; [done | exact P2 | ]. intros w3 H3 P3 N3.
  apply ewp_bind. eapply free_all_ok; [done | exact P3 | ]. intros w4 H4 P4 N4.
  assert (Hk4 : kfds w4 = ep :: ks) by (rewrite H4, H3, H2, H1; exact Hk).
  rewrite He, (proj2 (Z.leb_le _ _) Hep). ewp_pure. rewrite Hk4, bool_decide_eq_true_2 by by apply elem_of_cons; left.
  ewp_pure. apply ewp_bind. eapply ev_free_ok; [exact N4 | exact P4 | ]. intros w5 H5 P5 N5. ewp_pure. apply HQ.
  - done.
  - by apply Permutation_nil_r in P5.
  - rewrite H5. change (filter (fun x => x <> ep) (ep :: ks) = ks). rewrite filter_cons_False by auto. by apply filter_ne_id.
  - by rewrite H5.
Qed.

Lemma ev_init_ok flag w (Q : bool -> world -> Prop) : ctx w = None -> mem w = [] -> interest w = ∅ ->
  (forall w', ctx w' = None -> mem w' = [] -> kfds w' = kfds w -> interest w' = ∅ -> Q false w') ->
  (forall a0 ep w' c, inv E a0 ep (kfds w) None [] [] w' c -> noti_q c = [] -> 0 <= ep -> ep ∉ kfds w -> log w' = log w -> Q true w') ->
  wp (aloe_ev_init E flag) w Q.
Proof.
  intros Hc Hm Hi H0 H1. unfold aloe_ev_init, malloc, tick. ewp_pure. rewrite Hc. ewp_pure.
  destruct (e_mem E (used w)); [ | ewp_pure; by apply H0]. ewp_pure. cbn [used brk kfds mem ctx interest log].
  destruct (Z.ltb_spec (e_epfd E (S (used w))) 0) as [Hl | Hl]; ewp_pure.
  - apply ewp_bind. eapply (ev_free_ok _ _ []); [rewrite Hm; cbn; apply NoDup_singleton | by rewrite Hm | ].
    intros w1 E1 P1 N1. apply ewp_ret. apply H0; [by rewrite E1 | by apply Permutation_nil_r in P1 | by rewrite E1 | by rewrite E1].
  - destruct (new_fd_ok _ (kfds w) Hl) as [Hp Hn].
    set (ep := new_fd (e_epfd E (S (used w))) (kfds w)) in *.
    apply (H1 (brk w) ep _ (Evctx (negb (flag =? 0)) ep [] [] [] [])); [ | done..]. split.
    + split; cbn; rewrite ?Hm; try done; [apply NoDup_singleton | ]. apply Forall_cons. split; [lia | done].
    + split; cbn; try done; try constructor; rewrite ?Hi; done.
Qed.
End Life.

(* ------------------------------------------------------------------ *)
(** ** States a client can reach *)

(** A process that has not created a loop yet. *)
Definition fresh (w : world) : Prop := ctx w = None /\ mem w = [] /\ interest w = ∅.

(** The life of a loop: created, used by a client whose passes nest [d] deep at
    most, destroyed. *)
Definition life (E : env) (d : nat) (flag : Z) (p : prog) : L bool :=
  do ok <- aloe_ev_init E flag;
  if ok : bool then run_prog E (aloe_ev_once E d) p;; aloe_ev_destroy;; ret true else ret false.

Definition reachable (E : env) (d : nat) (w : world) (c : evctx) : Prop := exists flag p w0 a,
  fresh w0 /\ (do ok <- aloe_ev_init E flag; if ok : bool then run_prog E (aloe_ev_once E d) p else misuse) w0 = Done tt w /\
  ctx w = Some (a, c).

Lemma reachable_inv E d w c : reachable E d w c -> exists a0 ep ks, inv E a0 ep ks None [] [] w c /\ noti_q c = [].
Proof.
  intros (flag & p & w0 & a & (Hc & Hm & Hi) & Hr & Hw).
  assert (Hwp : wp (do ok <- aloe_ev_init E flag; if ok : bool then run_prog E (aloe_ev_once E d) p else misuse) w0
    (fun _ w' => exists a0 ep ks c', inv E a0 ep ks None [] [] w' c' /\ noti_q c' = [])).
  { apply ewp_bind. eapply (ev_init_ok E flag); [done | done | done | by intros; apply wp_misuse | ].
    intros a0 ep w1 c1 I1 N1 _ _ _. eapply ev_prog_ok; [apply once_ok | exact I1 | ]. intros w2 c2 I2 (Hl & _).
    exists a0, ep, (kfds w0), c2. split; [done | ]. rewrite N1 in Hl. by destruct (noti_q c2); [ | cbn in Hl; lia]. }
  destruct (wp_done _ _ _ _ _ Hwp Hr) as (a0 & ep & ks & c' & I & N). exists a0, ep, ks.
  pose proof (h_ctx _ _ _ _ _ _ (proj1 I)) as Hx. rewrite Hw in Hx. by injection Hx as _ ->.
Qed.

(* ------------------------------------------------------------------ *)
(** ** Safety *)

(** C28: whatever the kernel answers, whatever the callbacks do and however a
    client uses the loop, there is no undefined behaviour: nothing is freed that
    is not allocated, no event points at a group that is gone, every callback
    loop ends; and after [aloe_ev_destroy] the memory and the descriptor are
    given back, also after refused allocations and refused epoll calls. *)
Theorem ev_client_safe E d flag p w : fresh w ->
  wp (life E d flag p) w (fun _ w' => ctx w' = None /\ mem w' = [] /\ kfds w' = kfds w /\ interest w' = ∅).
Proof.
  intros (Hc & Hm & Hi). unfold life. apply ewp_bind. eapply (ev_init_ok E flag); [done | done | done | | ].
  - intros w' H1 H2 H3 H4. by apply ewp_ret.
  - intros a0 ep w1 c1 I1 _ Hep Hks _. apply ewp_bind. eapply ev_prog_ok; [apply once_ok | exact I1 | ].
    intros w2 c2 I2 _. apply ewp_bind. eapply ev_destroy_ok; [exact I2 | done | done | ]. intros w3 H1 H2 H3 H4. by apply ewp_ret.
Qed.

(* ------------------------------------------------------------------ *)
(** ** What the kernel watches *)

(** What the registrations for a descriptor wait for. *)
Definition wanted (c : evctx) (fd : Z) : Z := wait_mask (filter (fun n => n_fd n = fd) (pending c)).
Definition watched (c : evctx) (fd : Z) : option Z :=
  if (fd <? 0) || (wanted c fd =? 0) then None else Some (to_epoll (wanted c fd)).

Lemma own_filter q f fd : Forall (fun n => n_fd n = f) q -> filter (fun n => n_fd n = fd) q = if decide (f = fd) then q else [].
Proof.
  intros H. induction q as [|n q IH]; [by case_decide | ]. apply Forall_cons in H as [Hn H]. specialize (IH H). case_decide as Hf.
  - rewrite filter_cons_True by congruence. by rewrite IH.
  - rewrite filter_cons_False by congruence. exact IH.
Qed.
Lemma own_wanted q fd : Forall (fun g => Forall (fun n => n_fd n = f_fd g) (f_q g)) q -> NoDup (map f_fd q) ->
  filter (fun n => n_fd n = fd) (concat (map f_q q)) = default [] (f_q <$> fd_q_find q fd).
Proof.
  intros O Hn. induction q as [|g q IH]; [done | ]. apply Forall_cons in O as [Hg O]. rewrite map_cons in Hn.
  apply NoDup_cons in Hn as [Hx Hn].  specialize (IH O Hn). cbn [map concat]. rewrite filter_app, (own_filter _ _ _ Hg), IH. unfold fd_q_find in *. cbn [List.find].
  destruct (Z.eqb_spec (f_fd g) fd) as [He | He].
  - rewrite decide_True by done. cbn. destruct (List.find (fun g => f_fd g =? fd) q) as [h|] eqn:Hh; cbn; [ | apply app_nil_r].
    exfalso. apply Hx. rewrite He. apply (fd_find_split q fd) in Hh as (l1 & l2 & -> & <-).
    rewrite map_app. apply elem_of_app; right. by apply elem_of_cons; left.
  - by rewrite decide_False by done.
Qed.

Lemma group_wanted E foc gl i c fd g : queues E foc gl i c -> fd_q_find (fd_q c) fd = Some g -> wanted c fd = wait_mask (f_q g).
Proof. intros I Hg. unfold wanted, pending. by rewrite own_wanted, Hg by apply I. Qed.
Lemma group_interest E gl i c fd g : queues E None gl i c -> accepts E -> fd_q_find (fd_q c) fd = Some g ->
  i !! fd = if (fd <? 0) || (wanted c fd =? 0) then None else Some (to_epoll (wanted c fd), f_addr g).
Proof.
  intros I A Hg. rewrite (q_int _ _ _ _ _ I A), Hg. cbn. pose proof (group_wanted _ _ _ _ _ _ _ I Hg) as Hw.
  apply fd_find_split in Hg as (l1 & l2 & Hq & Hf).
  destruct (Z.ltb_spec fd 0) as [Hl | Hl]; cbn.
  - pose proof (q_neg _ _ _ _ _ I) as G. rewrite Hq in G. apply Forall_cut in G as [G _]. by rewrite G by lia.
  - pose proof (q_mask _ _ _ _ _ I A) as M. rewrite Hq in M. apply Forall_cut in M as [M _]. rewrite M by (done || lia).
    by rewrite Hw.
Qed.

(** The kernel watches what the registrations wait for, and knows each
    descriptor by its group. *)
Definition in_step (w : world) (c : evctx) : Prop := forall fd,
  interest w !! fd = (g ← fd_q_find (fd_q c) fd; m ← watched c fd; Some (m, f_addr g)).

Lemma accepts_in_step E a0 ep ks w c : accepts E -> inv E a0 ep ks None [] [] w c -> in_step w c.
Proof.
  intros A [_ I] fd. unfold watched. destruct (fd_q_find (fd_q c) fd) as [g|] eqn:Hg; cbn.
  - rewrite (group_interest _ _ _ _ _ _ I A Hg). by destruct ((fd <? 0) || (wanted c fd =? 0)).
  - by rewrite (q_int _ _ _ _ _ I A), Hg.
Qed.

(** While the kernel takes the changes it is asked for, it watches exactly
    the descriptors some registration waits for, each for the union of what its
    registrations wait for: in every state a client can reach. *)
Theorem ev_kernel_watches E d w c fd : accepts E -> reachable E d w c -> fst <$> interest w !! fd = watched c fd.
Proof.
  intros A (a0 & ep & ks & [_ I] & _)%reachable_inv. unfold watched. destruct (fd_q_find (fd_q c) fd) as [g|] eqn:Hg.
  - rewrite (group_interest _ _ _ _ _ _ I A Hg). by destruct ((fd <? 0) || (wanted c fd =? 0)).
  - rewrite (q_int _ _ _ _ _ I A), Hg. cbn. unfold wanted, pending. rewrite own_wanted, Hg by apply I. cbn. by destruct (fd <? 0).
Qed.

(* ------------------------------------------------------------------ *)
(** ** What a pass tells the clients *)

(** What the kernel reports of a descriptor, [l] being what there is. *)
Definition reported (l : list (Z * Z)) (c : evctx) (fd : Z) : Z :=
  match watched c fd, List.find (fun x => x.1 =? fd) l with
  | Some m, Some x => Z.land x.2 (Z.lor m (Z.lor EPOLLERR EPOLLHUP))
  | _, _ => 0
  end.
(** What a registration is told: of what it waits for, what was reported; else
    an error; else that its time is up. *)
Definition told (l : list (Z * Z)) (now : timespec) (c : evctx) (n : noti) : Z :=
  let e := reported l c (n_fd n) in
  let io := Z.land (from_epoll e) (n_wait n) in
  if negb (io =? 0) then io
  else if has e (Z.lor EPOLLERR EPOLLHUP) then ev_except
  else if negb (never (n_due n)) && ts_le (n_due n) now then ev_time
  else 0.

Lemma marks_step i x l g :
  marks (omap (found i) (x :: l)) g = marks (omap (found i) l) (match found i x with Some y => mark_at g y | None => g end).
Proof. cbn [omap list_omap]. by destruct (found i x). Qed.
(** An event found for another descriptor points at another group. *)
Lemma found_other i x g : (forall fd e p, i !! fd = Some (e, p) -> p = f_addr g -> fd = f_fd g) -> x.1 <> f_fd g ->
  match found i x with Some y => mark_at g y | None => g end = g.
Proof.
  intros Hi Hx. unfold found. destruct (i !! x.1) as [[m p]|] eqn:Hfd; cbn; [ | done]. destruct (_ =? 0); [done | ].
  unfold mark_at. cbn. destruct (Z.eqb_spec (f_addr g) p) as [Hp | Hp]; [ | done]. by destruct (Hx (Hi _ _ _ Hfd (eq_sym Hp))).
Qed.
Lemma no_marks i l g : (forall fd e p, i !! fd = Some (e, p) -> p = f_addr g -> fd = f_fd g) -> f_fd g ∉ map fst l ->
  marks (omap (found i) l) g = g.
Proof.
  intros Hi. induction l as [|x l IH]; [done | ]. rewrite map_cons. intros [Hne Hl]%not_elem_of_cons.
  rewrite marks_step, found_other by done. by apply IH.
Qed.

Lemma marks_reported i l g m : NoDup (map fst l) ->
  (forall fd e p, i !! fd = Some (e, p) -> p = f_addr g -> fd = f_fd g) -> i !! f_fd g = (fun e => (e, f_addr g)) <$> m ->
  triggered g = 0 -> ep_hup g = false ->
  let e := match m, List.find (fun x => x.1 =? f_fd g) l with
    | Some m, Some x => Z.land x.2 (Z.lor m (Z.lor EPOLLERR EPOLLHUP)) | _, _ => 0 end in
  triggered (marks (omap (found i) l) g) = from_epoll e /\ ep_hup (marks (omap (found i) l) g) = has e (Z.lor EPOLLERR EPOLLHUP).
Proof.
  intros Hn Hi Hm Ht Hh. induction l as [|x l IH]; [cbn; rewrite Ht, Hh; by destruct m | ].
  rewrite map_cons in Hn. apply NoDup_cons in Hn as [Hx Hn].
  specialize (IH Hn). rewrite marks_step. cbn [List.find]. destruct (Z.eqb_spec x.1 (f_fd g)) as [Hxg | Hne].
  - assert (same g (match found i x with Some y => mark_at g y | None => g end)) as (Ha & Hf & _)
      by (destruct (found i x); [apply mark_at_same | done]).
    rewrite no_marks; [ | by rewrite Ha, Hf | by rewrite Hf, <- Hxg].
    unfold found. rewrite Hxg, Hm. destruct m as [m|]; cbn; [ | by rewrite Ht, Hh].
    set (e := Z.land x.2 _). destruct (Z.eqb_spec e 0) as [He | He]; [by rewrite He, Ht, Hh | ].
    unfold mark_at. cbn. rewrite Z.eqb_refl. cbn. by rewrite Hh.
  - rewrite found_other by done. exact IH.
Qed.

Lemma nodup_map_inj {A} (f : A -> Z) q x y : NoDup (map f q) -> x ∈ q -> y ∈ q -> f x = f y -> x = y.
Proof.
  induction q as [|z q IH]; [intros _ Hx; by apply not_elem_of_nil in Hx | ]. rewrite map_cons.
  intros [Hz Hn]%NoDup_cons [-> | Hx]%elem_of_cons [-> | Hy]%elem_of_cons He; [done | | | by apply IH].
  - exfalso. apply Hz. rewrite He. by apply list_elem_of_fmap_2.
  - exfalso. apply Hz. rewrite <- He. by apply list_elem_of_fmap_2.
Qed.

(** What a registration is told is what the loop works out from the events that
    its group was marked with. *)
Lemma group_judged E a0 ep ks w c l now g : inv E a0 ep ks None [] [] w c -> in_step w c -> g ∈ fd_q c ->
  triggered g = 0 -> ep_hup g = false -> NoDup (map fst l) ->
  judged now (marks (omap (found (interest w)) l) g) = map (fun n => set_noti (told l now c n) n) (f_q g).
Proof.
  intros [H I] A Hg Ht Hh Hl. pose proof (heap_groups _ _ _ _ _ _ H) as Hd. pose proof (proj1 (Forall_forall _ _) (q_own _ _ _ _ _ I) g Hg) as O.
  assert (Hf : fd_q_find (fd_q c) (f_fd g) = Some g).
  { apply list_elem_of_split in Hg as (l1 & l2 & Hq). rewrite Hq. apply fd_find_mid. rewrite <- Hq. apply I. }
  destruct (marks_reported (interest w) l g (watched c (f_fd g)) Hl) as [Ht' Hh']; [ | | done | done | ].
  { intros fd e p Hp ->. rewrite (A fd) in Hp. destruct (fd_q_find (fd_q c) fd) as [h|] eqn:Hx; [ | done].
    cbn in Hp. destruct (watched c fd); [ | done]. injection Hp as _ Ha. apply fd_find_split in Hx as (k1 & k2 & Hk & <-).
    f_equal. apply (nodup_map_inj f_addr (fd_q c)); [done | | done | done]. rewrite Hk. apply elem_of_app; right. by left. }
  { rewrite (A (f_fd g)), Hf. by destruct (watched c (f_fd g)). }
  fold (reported l c (f_fd g)) in Ht', Hh'. unfold judged. destruct (marks_same (omap (found (interest w)) l) g) as (_ & _ & _ & ->).
  apply map_ext_Forall. eapply Forall_impl; [exact O | ]. intros n Hn. f_equal. unfold notified, told. rewrite Ht', Hh', Hn.
  destruct (Z.eqb_spec (Z.land (from_epoll (reported l c (f_fd g))) (n_wait n)) 0) as [-> | He]; cbn [negb]; [ | done].
  destruct (has _ _); [done | ]. by destruct (negb (never (n_due n)) && ts_le (n_due n) now).
Qed.

Lemma filter_groups (P : noti -> Prop) `{forall n, Decision (P n)} (h : noti -> noti) (m : fdg -> list noti) q :
  (forall g, g ∈ q -> m g = map h (f_q g)) -> concat (map (fun g => filter P (m g)) q) = filter P (map h (concat (map f_q q))).
Proof.
  induction q as [|g q IH]; [done | ]. intros Hm. cbn [map concat]. rewrite map_app, filter_app, IH, Hm; [done | by left | ].
  intros k Hk. apply Hm. by right.
Qed.

Lemma once_unfold E d : aloe_ev_once E d = (
  upd_ctx (fun c => set_fd_q (map (set_trig 0 false) (fd_q c)) c);;
  do evs <- wait E;
  match evs with
  | inl r => ret r
  | inr evs => handle_events E (match d with O => misuse | S d => aloe_ev_once E d end) evs
  end).
Proof. by destruct d. Qed.

(** The registrations as a pass leaves them judged. *)
Definition told_all (l : list (Z * Z)) (now : timespec) (c : evctx) : list noti :=
  map (fun n => set_noti (told l now c n) n) (pending c).

Definition reset (c : evctx) : evctx := set_fd_q (map (set_trig 0 false) (fd_q c)) c.
Lemma reset_pending c : pending (reset c) = pending c.
Proof. unfold pending, reset. cbn [fd_q set_fd_q]. by rewrite map_map. Qed.
Lemma reset_nearest c : nearest (fd_q (reset c)) = nearest (fd_q c).
Proof. unfold nearest, reset. cbn [fd_q set_fd_q]. by rewrite map_map. Qed.
Lemma reset_wait_no w w' c : used w' = used w -> wait_no w' (reset c) = wait_no w c.
Proof. unfold wait_no. by rewrite reset_nearest; intros ->. Qed.
Lemma reset_told l now c : told_all l now (reset c) = told_all l now c.
Proof.
  unfold told_all. rewrite reset_pending. apply map_ext. intros n. f_equal. unfold told, reported, watched, wanted.
  by rewrite reset_pending.
Qed.
Lemma reset_in_step w w' c : interest w' = interest w -> in_step w c -> in_step w' (reset c).
Proof.
  intros Hi H fd. rewrite Hi, (H fd). unfold reset. cbn [fd_q set_fd_q]. rewrite find_same by done.
  unfold watched, wanted. fold (reset c). rewrite reset_pending. by destruct (fd_q_find (fd_q c) fd).
Qed.
Lemma found_few l i : (length (omap (found i) l) <= length l)%nat.
Proof.
  induction l as [|x l IH]; [done | ]. change (length (omap (found i) (x :: l))) with
    (length (match found i x with Some y => y :: omap (found i) l | None => omap (found i) l end)).
  destruct (found i x); cbn [length]; lia.
Qed.

(** The judgement of a pass, group by group, is that of the specification. *)
Lemma groups_told (P : noti -> Prop) `{forall n, Decision (P n)} E a0 ep ks w c l now : inv E a0 ep ks None [] [] w c -> in_step w c ->
  Forall (fun g => triggered g = 0 /\ ep_hup g = false) (fd_q c) -> NoDup (map fst l) -> (length l <= EPOLL_MAX)%nat ->
  concat (map (fun g => filter P (judged now g)) (map (marks (take EPOLL_MAX (omap (found (interest w)) l))) (fd_q c)))
    = filter P (told_all l now c).
Proof.
  intros I A Hr Hl Hm. rewrite take_ge by (pose proof (found_few l (interest w)); lia). rewrite map_map.
  apply (filter_groups P). intros g Hg. destruct (proj1 (Forall_forall _ _) Hr g Hg) as [Ht Hh]. by eapply group_judged.
Qed.

(** C29: a pass tells the clients what there is to tell, no more and no less.  When
    the kernel watches what the registrations wait for (as in every state a
    client reaches while no [epoll_ctl] is refused), the clock answers and the
    wait reports events of at most 32 descriptors, the most it asks for, those
    due are the registrations whose descriptor has an event they wait for, or an
    error, and those whose time is up.
    Whatever the callbacks do, each one due is called with what it is told,
    unless a callback cancels its handle.  When no callback runs the loop, nobody
    else is called, each at most once and in the order of the queues, the result
    counts the calls, and every other registration stays unless a callback
    cancels it.  When none cancels either, all those due are called, and all
    others stay; and without callbacks that register nothing else does. *)
Theorem ev_pass_notifies E d w c l now :
  in_step w c -> reachable E d w c ->
  (nearest (fd_q c) <> None -> exists t, e_clock E (used w) = inr t) ->
  e_wait E (wait_no w c) = inr l -> NoDup (map fst l) -> (length l <= EPOLL_MAX)%nat ->
  e_clock E (S (wait_no w c)) = inr now ->
  let out := filter (fun n => n_noti n <> 0) (told_all l now c) in
  let stay := filter (fun n => n_noti n = 0) (told_all l now c) in
  wp (aloe_ev_once E d) w (fun r w' => exists a c' calls,
    ctx w' = Some (a, c') /\ log w' = log w ++ calls /\
    (forall n, n ∈ out -> called n ∈ calls \/ by_callback E (n_addr n)) /\
    (no_loops E ->
      (exists part, sublist part out /\ calls = map called part /\ r = Z.of_nat (length part)) /\
      (forall n, n ∈ stay -> n ∈ pending c' \/ by_callback E (n_addr n))) /\
    (all_quiet E -> calls = map called out /\ r = Z.of_nat (length out) /\ stay ⊆ pending c') /\
    ((forall i, e_prog E i = PDone) -> pending c' = stay)).
Proof.
  intros A (a0 & ep & ks & I & N)%reachable_inv Hclk Hwait Hnd Hlen Hnow out stay. rewrite once_unfold.
  apply ewp_bind. eapply reset_ok; [exact I | ]. cbv zeta. intros w1 I1 L1 U1 Hi1. fold (reset c) in *.
  pose proof (reset_wait_no _ _ c U1) as Hno. pose proof (reset_in_step _ _ _ Hi1 A) as A1.
  apply ewp_bind. eapply wait_ok; [exact I1 | | ].
  { rewrite Hno, U1, Hwait. intros r w2 I2 L2 [(e & t & Ht & He) | (e & He)]; [ | done].
    rewrite reset_nearest in Ht. rewrite Ht in Hclk. destruct Hclk as (t' & Ht'); congruence. }
  intros l' w2 I2 L2 U2 He. rewrite Hno, Hwait in He. injection He as <-.
  eapply (handle_events_ok E a0 ep ks); [destruct d; [apply misuse_once | apply once_ok] | exact I2 | by eapply found_ptr | ].
  intros r w3 c3 I3 _ _ P3. rewrite U2, Hno in P3. destruct (P3 now Hnow) as (w4 & c4 & L4 & N4 & P4 & D4).
  assert (Hr : Forall (fun g => triggered g = 0 /\ ep_hup g = false) (fd_q (reset c))) by (by apply Forall_map, Forall_true).
  unfold fired, left_over in *. rewrite !(groups_told _ E a0 ep ks w1), reset_told in * by done.
  change (noti_q (reset c)) with (noti_q c) in *. rewrite N in N4. fold out in N4. fold stay in P4. cbn [app] in N4.
  destruct D4 as ((calls & Lc & Hc & Hn & Hq) & Pn & Pq & Pd). rewrite N4, P4 in *.
  exists a0, c3, calls. split; [apply I3 | ]. split; [congruence | ]. split; [done | ]. split; [ | split; [ | done]].
  - intros Hl. split; [by apply Hn | by apply Pn].
  - intros Hl. destruct (Hq Hl). split; [done | ]. split; [done | by apply Pq].
Qed.

(* ------------------------------------------------------------------ *)
(** ** Registering, looking up and cancelling *)

Lemma find_app_first {A} (f : A -> bool) l1 l2 :
  List.find f (l1 ++ l2) = match List.find f l1 with Some x => Some x | None => List.find f l2 end.
Proof. induction l1 as [|x l1 IH]; cbn; [done | ]. by destruct (f x). Qed.
Lemma find_own q f fd cb : Forall (fun n => n_fd n = f) q ->
  List.find (fun n => (n_fd n =? fd) && (n_cb n =? cb)) q = if f =? fd then List.find (fun n => n_cb n =? cb) q else None.
Proof.
  induction 1 as [|n q Hn _ IH]; cbn; [by destruct (f =? fd) | ]. rewrite IH, Hn. by destruct (f =? fd); cbn; [destruct (n_cb n =? cb) | ].
Qed.
Lemma find_pending q fd cb : Forall (fun g => Forall (fun n => n_fd n = f_fd g) (f_q g)) q -> NoDup (map f_fd q) ->
  List.find (fun n => (n_fd n =? fd) && (n_cb n =? cb)) (concat (map f_q q))
    = g ← fd_q_find q fd; List.find (fun n => n_cb n =? cb) (f_q g).
Proof.
  intros O Hn. induction q as [|g q IH]; [done | ]. apply Forall_cons in O as [Hg O]. rewrite map_cons in Hn.
  apply NoDup_cons in Hn as [Hx Hn]. cbn [map concat]. rewrite find_app_first, (find_own _ _ _ _ Hg), (IH O Hn).
  unfold fd_q_find at 2. cbn [List.find]. destruct (Z.eqb_spec (f_fd g) fd) as [He | He]; cbn; [ | done].
  destruct (List.find _ (f_q g)) as [n|]; [done | ]. destruct (fd_q_find q fd) as [h|] eqn:Hh; [ | done]. exfalso.
  apply Hx. rewrite He. apply fd_find_split in Hh as (l1 & l2 & -> & <-). rewrite map_app. apply elem_of_app; right. by left.
Qed.

(** The loop is a register of who waits for what.  A registration adds one
    entry, under a handle no other has, or on any failure changes nothing; a
    search finds the first entry for the descriptor and the callback; a
    cancellation takes out the entry of the handle alone.  None of them calls
    anybody. *)
Theorem ev_registry E d w c : reachable E d w c ->
  (forall fd cb cbarg ev_wait sec usec, wp (aloe_ev_put E fd cb cbarg ev_wait sec usec) w (fun r w' => exists a c',
    ctx w' = Some (a, c') /\ log w' = log w /\
    put_spec fd cb cbarg ev_wait (deadline E (used w) sec usec) r (pending c) (pending c') /\ NoDup (map n_addr (pending c')))) /\
  (forall fd cb, wp (aloe_ev_get fd cb) w (fun r w' => w' = w /\
    r = n_addr <$> List.find (fun n => (n_fd n =? fd) && (n_cb n =? cb)) (pending c))) /\
  (forall ev, wp (aloe_ev_cancel E ev) w (fun _ w' => exists a c',
    ctx w' = Some (a, c') /\ log w' = log w /\ pending c' = noti_remove (pending c) ev)).
Proof.
  intros (a0 & ep & ks & I & N)%reachable_inv. split_and!.
  - intros fd cb cbarg ev_wait sec usec. eapply put_ok; [exact I | ]. intros r w' c' I' L _ P. exists a0, c'.
    split_and!; [apply I' | done | done | ]. destruct I' as [H' _]. apply notis_nodup in H'. by apply NoDup_app in H' as (? & _).
  - intros fd cb. unfold aloe_ev_get. apply ewp_bind. eapply the_ctx_ok; [apply I | ]. apply ewp_ret. split; [done | ].
    destruct I as [_ I]. unfold pending. rewrite find_pending by apply I. by destruct (fd_q_find (fd_q c) fd).
  - intros ev. eapply ev_cancel_ok; [exact I | ]. intros w' c' I' L [P _]. exists a0, c'. split_and!; [apply I' | done | done].
Qed.

(* ------------------------------------------------------------------ *)
(** ** Runs *)

(** A process, a kernel that reports descriptor 5 readable, and a client that
    waits for it, for another one and for a time. *)
Definition demo_env (call : prog) : env :=
  Env (fun n => inr (100 + Z.of_nat n, 0)) (fun _ => true) (fun _ => 0) (fun _ => inr [(5, EPOLLIN)]) (fun _ => 3) (fun _ => call).
Definition demo_world : world := World None [] 1000 ∅ [0] 0 [].
Definition demo_prog : prog :=
  PPut 5 7 70 ev_read ULONG_INFINITE 0 (fun _ => PPut 6 8 80 ev_write 1 0 (fun _ => PPut (-1) 9 90 0 60 0 (fun _ => PDone))).
(** The state a client leaves. *)
Definition demo_state (E : env) (p : prog) : world :=
  match (do ok <- aloe_ev_init E 0; if ok : bool then run_prog E (aloe_ev_once E 1) p else misuse) demo_world with
  | Done _ w => w
  | _ => demo_world
  end.
Definition demo_ctx (w : world) : evctx := match ctx w with Some (_, c) => c | None => Evctx false 0 [] [] [] [] end.
Lemma ev_demo_reachable E p :
  (exists w, (do ok <- aloe_ev_init E 0; if ok : bool then run_prog E (aloe_ev_once E 1) p else misuse) demo_world = Done tt w /\
    ctx w <> None) -> reachable E 1 (demo_state E p) (demo_ctx (demo_state E p)).
Proof.
  intros (w & Hr & Hc). unfold demo_state. rewrite Hr. destruct (ctx w) as [[a c]|] eqn:Hw; [ | done].
  exists 0, p, demo_world, a. unfold demo_ctx. by rewrite Hw.
Qed.

Lemma ev_client_safe_witness : fresh demo_world /\
  match life (demo_env PDone) 1 0 (PPut 5 7 70 ev_read ULONG_INFINITE 0 (fun _ => POnce (fun _ => demo_prog))) demo_world with
  | Done ok w' => ok = true /\ mem w' = [] /\ kfds w' = [0]
  | _ => False
  end.
Proof.
  assert (H : fresh demo_world) by done. split; [done | ].
  pose proof (wp_safe _ _ _ (ev_client_safe (demo_env PDone) 1 0 (PPut 5 7 70 ev_read ULONG_INFINITE 0 (fun _ => POnce (fun _ => demo_prog))) demo_world H)) as Hs.
  destruct (life _ _ _ _ _) as [ok w' | | | ] eqn:Hl; [ | done | vm_compute in Hl; discriminate | done].
  destruct Hs as (_ & Hm & Hk & _). split; [vm_compute in Hl; congruence | by split].
Defined.

Lemma ev_kernel_watches_witness :
  let w := demo_state (demo_env PDone) demo_prog in
  fst <$> interest w !! 5 = Some EPOLLIN /\ fst <$> interest w !! 7 = None.
Proof.
  intros w. assert (R : reachable (demo_env PDone) 1 w (demo_ctx w)).
  { apply ev_demo_reachable. eexists. split; [vm_compute; reflexivity | done]. }
  split; (etransitivity; [apply (ev_kernel_watches (demo_env PDone) 1 w (demo_ctx w)); [by intros n | exact R] | vm_compute; reflexivity]).
Defined.

Lemma ev_pass_notifies_witness :
  let w := demo_state (demo_env PDone) demo_prog in
  wp (aloe_ev_once (demo_env PDone) 1) w (fun r w' => r = 2 /\ map (fun k => (k_cb k, k_noti k)) (log w') = [(7, ev_read); (8, ev_time)]).
Proof.
  intros w. assert (R : reachable (demo_env PDone) 1 w (demo_ctx w)).
  { apply ev_demo_reachable. eexists. split; [vm_compute; reflexivity | done]. }
  assert (S : in_step w (demo_ctx w)).
  { destruct (reachable_inv _ _ _ _ R) as (a0 & ep & ks & I & _). eapply accepts_in_step; [ | exact I]. by intros n. }
  eapply ewp_mono.
  - apply (ev_pass_notifies (demo_env PDone) 1 w (demo_ctx w) [(5, EPOLLIN)] (114, 0)); [exact S | exact R | by eexists | done | | unfold EPOLL_MAX; cbn; lia | done].
    apply NoDup_singleton.
  - intros r w' (a & c' & calls & _ & -> & _ & _ & Q & _). destruct Q as (-> & -> & _); [by intros i | ].
    split; vm_compute; reflexivity.
Defined.

(** A callback that cancels another handle that is due: that one is not called. *)
Example cancelled_is_not_called :
  let E := demo_env (PCancel 1004 PDone) in
  match aloe_ev_once E 1 (demo_state E demo_prog) with
  | Done r w' => r = 1 /\ map k_cb (log w') = [7]
  | _ => False
  end.
Proof. vm_compute. split; reflexivity. Qed.

(** Taking a descriptor out of the set may be refused: the group is put aside all
    the same and used again while the kernel still knows the descriptor by it.
    Then the registration for descriptor 6 is called for the event of 5. *)
Definition refusing : env :=
  Env (fun n => inr (100 + Z.of_nat n, 0)) (fun _ => true) (fun n => if (n =? 5)%nat then EBADF else 0)
    (fun _ => inr [(5, EPOLLIN)]) (fun _ => 3) (fun _ => PDone).
Example refused_delete_confuses :
  match aloe_ev_once refusing 1 (demo_state refusing (PPut 5 7 70 ev_read ULONG_INFINITE 0 (fun h =>
    PCancel (default 0 h) (PPut 6 8 80 ev_read ULONG_INFINITE 0 (fun _ => PDone))))) with
  | Done r w' => r = 1 /\ map (fun k => (k_fd k, k_cb k)) (log w') = [(6, 8)]
  | _ => False
  end.
Proof. vm_compute. split; reflexivity. Qed.

Lemma ev_registry_witness :
  let w := demo_state (demo_env PDone) demo_prog in
  wp (aloe_ev_get 6 8) w (fun r w' => w' = w /\ r = Some 1004) /\
  wp (aloe_ev_cancel (demo_env PDone) 1004) w (fun _ w' => exists a c', ctx w' = Some (a, c') /\ map n_cb (pending c') = [7; 9]).
Proof.
  intros w. assert (R : reachable (demo_env PDone) 1 w (demo_ctx w)).
  { apply ev_demo_reachable. eexists. split; [vm_compute; reflexivity | done]. }
  destruct (ev_registry (demo_env PDone) 1 w (demo_ctx w) R) as (_ & Hg & Hc). split.
  - eapply ewp_mono; [apply Hg | ]. cbn beta. intros r w' [-> ->]. split; [done | vm_compute; reflexivity].
  - eapply ewp_mono; [apply Hc | ]. cbn beta. intros _ w' (a & c' & Hx & _ & Hp). exists a, c'. split; [done | ]. rewrite Hp. vm_compute. reflexivity.
Defined.

(** A handle is a node, and nodes are used again: when a registration has been
    called its handle is that of the next registration, and a client that still
    cancels it cancels the other. *)
Lemma stale_handle_cancels :
  let once := aloe_ev_once (demo_env PDone) 0 in
  let w := demo_state (demo_env PDone) PDone in
  (do h <- aloe_ev_put (demo_env PDone) 5 7 0 ev_read ULONG_INFINITE 0;
   do n <- once;
   do h' <- aloe_ev_put (demo_env PDone) 6 8 0 ev_read ULONG_INFINITE 0;
   aloe_ev_cancel (demo_env PDone) (default 0 h);;
   do c <- the_ctx; ret (n, bool_decide (h = h'), pending c)) w
  = match (do h <- aloe_ev_put (demo_env PDone) 5 7 0 ev_read ULONG_INFINITE 0;
           do n <- once;
           do h' <- aloe_ev_put (demo_env PDone) 6 8 0 ev_read ULONG_INFINITE 0;
           aloe_ev_cancel (demo_env PDone) (default 0 h)) w with
    | Done _ w' => Done (1, true, []) w'
    | _ => Deep
    end.
Proof. vm_compute. reflexivity. Qed.
