(* ===== verification/AppNet.v ===== *)
(** AppNet: the network manager of package/tester1/app_network.c: a thread that
    walks the states of the Wi-Fi interface, running the tools of the system, and
    the calls that provision it.  The calls and the turns of the thread are taken
    one at a time. *)

From Stdlib Require Import String Ascii.
From stdpp Require Import gmap.
From S2P Require Import Prelude Eff ByteStr CNum.

Open Scope list_scope.
Open Scope eff_scope.

(* ------------------------------------------------------------------ *)
(** ** Texts *)

Definition LF : text := [10].
Definition QUOTE : text := [34].

(** [snprintf] into [cap] bytes. *)
Definition snprintf (cap : nat) (s : text) : text := take (cap - 1) s.

(** [strncmp(p, s, strlen(s)) == 0]. *)
Definition starts (s p : text) : bool := bool_decide (take (length s) p = s).

Definition WIFI_IFACE : text := lit "wlan0".
Definition WIFI_WPASUP_CONF : text := lit "/usrdata/wpa_supplicant.conf".
Definition WIFI_WPASUP_TRY_CONF : text := lit "/usrdata/wpa_supplicant_try.conf".
Definition WIFI_WPASUP_CONF_TMP : text := lit "/usrdata/wpa_supplicant.conf.tmp".
Definition WIFI_HOSTAPD_CONF : text := lit "/tmp/hostapd-wlan0.conf".
Definition WIFI_DNSMASQ_CONF : text := lit "/tmp/dnsmasq-wlan0.conf".
Definition WIFI_AP_ADDR : text := lit "192.168.17.1".
Definition WIFI_AP_NETMASK : text := lit "255.255.255.0".
Definition WIFI_AP_DHCP_START : text := lit "192.168.17.50".
Definition WIFI_AP_DHCP_END : text := lit "192.168.17.200".
Definition WIFI_AP_SSID_PREFIX : text := lit "IPCam-Setup".
Definition WIFI_CONNECT_TIMEOUT_S : Z := 30.
Definition WIFI_IPSETUP_TIMEOUT_S : Z := 30.
Definition WIFI_LOOP_DELAY_MS : Z := 1000.
Definition WIFI_RUN_TIMEOUT_MS : Z := 10000.
Definition WIFI_RUN_POLL_MS : Z := 100.
Definition WIFI_RUN_KILL_WAIT_MS : Z := 1000.

(** The commands. *)
Definition QUIET : text := lit " >/dev/null 2>&1".
Definition CMD_KILL_ALL : text := lit "killall -9 hostapd dnsmasq wpa_supplicant udhcpc >/dev/null 2>&1".
Definition CMD_KILL_UDHCPC : text := lit "killall -9 udhcpc >/dev/null 2>&1".
Definition cmd_flush : text := snprintf 128 (lit "ip addr flush dev " ++ WIFI_IFACE ++ QUIET).
Definition cmd_link (d : string) : text := snprintf 128 (lit "ip link set " ++ WIFI_IFACE ++ lit d ++ QUIET).
Definition cmd_wpa (cfg : text) : text := snprintf 256 (lit "wpa_supplicant -B -i " ++ WIFI_IFACE ++ lit " -c " ++ cfg ++ QUIET).
Definition cmd_udhcpc : text :=
  snprintf 128 (lit "udhcpc -b -i " ++ WIFI_IFACE ++ lit " -R -t 20 -T 2 -p /var/run/udhcpc.pid" ++ QUIET).
Definition cmd_ifconfig : text :=
  snprintf 256 (lit "ifconfig " ++ WIFI_IFACE ++ lit " " ++ WIFI_AP_ADDR ++ lit " netmask " ++ WIFI_AP_NETMASK ++ lit " up" ++ QUIET).
Definition cmd_hostapd : text := snprintf 256 (lit "hostapd -B " ++ WIFI_HOSTAPD_CONF ++ QUIET).
Definition cmd_dnsmasq : text := snprintf 256 (lit "dnsmasq -C " ++ WIFI_DNSMASQ_CONF ++ QUIET).

(* ------------------------------------------------------------------ *)
(** ** State *)

Inductive wifi_st : Type :=
  | WIFI_STATE_INIT | WIFI_STATE_RESET | WIFI_STATE_PROVISIONING
  | WIFI_STATE_CONNECTING | WIFI_STATE_IPSETUP | WIFI_STATE_CONNECTED.

(** The thread: created, or in its loop. *)
Inductive task : Type := Created | Looping.

(** What was done and seen: a command run to its end, the answers of
    wpa_supplicant and about the address, a configuration that is there and
    could not be opened, one committed or written. *)
Inductive act : Type :=
  | ARun (cmd : text) (ok : bool)
  | ALink (up : bool)
  | AAddr (set : bool)
  | AUnread (cfg : text)
  | ACommit
  | AWrite (cfg : text).

(** The file's variables, the files by name, the children not waited for, the
    answers used, the clock in milliseconds, and what was done, latest last. *)
Record world : Type := World {
  wifi_task : option task; wifi_running : bool; wifi_process_exit : bool; wifi_request_reset : bool;
  wifi_state : wifi_st; wifi_state_deadline : Z;
  files : gmap text text; children : list Z; used : nat; now_ms : Z; log : list act }.

(** Answer number [n].  [e_fork]: a pid, or none above 0; [e_wait]: an errno, no
    child yet, or its status, whether it exited and with what; [e_late]: by how
    much a delay or a clock reading is later; [e_time]: [time(NULL)]; [e_iface]:
    the interface is there; [e_status]: what wpa_cli prints, [None] when it does
    not start; [e_addr]: the address of the interface, negative when there is
    none to ask for; [e_mac]: the address file; [e_open], [e_read]: a file can be
    opened for writing, for reading; [e_put]: a text is taken; [e_room]: how much of what a stream holds reaches
    the file; [e_move]: rename and unlink succeed; [e_task]: a thread starts. *)
Record env : Type := Env {
  e_fork : nat -> Z; e_wait : nat -> Z + option (bool * Z); e_late : nat -> Z; e_time : nat -> Z;
  e_iface : nat -> bool; e_status : nat -> option text; e_addr : nat -> Z; e_mac : nat -> option text;
  e_open : nat -> bool; e_read : nat -> bool; e_put : nat -> bool; e_room : nat -> nat; e_move : nat -> bool; e_task : nat -> bool }.

Definition W (A : Type) : Type := comp world A.
Definition EINTR : Z := 4.

Definition set_task (x : option task) (w : world) : world := World x (wifi_running w) (wifi_process_exit w) (wifi_request_reset w) (wifi_state w) (wifi_state_deadline w) (files w) (children w) (used w) (now_ms w) (log w).
Definition set_running (x : bool) (w : world) : world := World (wifi_task w) x (wifi_process_exit w) (wifi_request_reset w) (wifi_state w) (wifi_state_deadline w) (files w) (children w) (used w) (now_ms w) (log w).
Definition set_exit (x : bool) (w : world) : world := World (wifi_task w) (wifi_running w) x (wifi_request_reset w) (wifi_state w) (wifi_state_deadline w) (files w) (children w) (used w) (now_ms w) (log w).
Definition set_request (x : bool) (w : world) : world := World (wifi_task w) (wifi_running w) (wifi_process_exit w) x (wifi_state w) (wifi_state_deadline w) (files w) (children w) (used w) (now_ms w) (log w).
Definition set_st (s : wifi_st) (d : Z) (w : world) : world := World (wifi_task w) (wifi_running w) (wifi_process_exit w) (wifi_request_reset w) s d (files w) (children w) (used w) (now_ms w) (log w).
Definition set_files (x : gmap text text) (w : world) : world := World (wifi_task w) (wifi_running w) (wifi_process_exit w) (wifi_request_reset w) (wifi_state w) (wifi_state_deadline w) x (children w) (used w) (now_ms w) (log w).
Definition set_children (x : list Z) (w : world) : world := World (wifi_task w) (wifi_running w) (wifi_process_exit w) (wifi_request_reset w) (wifi_state w) (wifi_state_deadline w) (files w) x (used w) (now_ms w) (log w).
Definition set_now (x : Z) (w : world) : world := World (wifi_task w) (wifi_running w) (wifi_process_exit w) (wifi_request_reset w) (wifi_state w) (wifi_state_deadline w) (files w) (children w) (used w) x (log w).
Definition put_log (a : act) (w : world) : world := World (wifi_task w) (wifi_running w) (wifi_process_exit w) (wifi_request_reset w) (wifi_state w) (wifi_state_deadline w) (files w) (children w) (used w) (now_ms w) (log w ++ [a]).

Definition tick : W nat :=
  do n <- gets used;
  modify (fun w => World (wifi_task w) (wifi_running w) (wifi_process_exit w) (wifi_request_reset w) (wifi_state w) (wifi_state_deadline w) (files w) (children w) (S n) (now_ms w) (log w));;
  ret n.
Definition note (a : act) : W unit := modify (put_log a).

Section Env.
Context (E : env).

(** [time_delay_ms] and [time64_get_current_ms]. *)
Definition time_delay_ms (d : Z) : W unit := do n <- tick; modify (fun w => set_now (now_ms w + d + e_late E n) w).
Definition time64_get_current_ms : W Z :=
  do n <- tick; modify (fun w => set_now (now_ms w + e_late E n) w);; gets now_ms.
Definition time : W Z := do n <- tick; ret (e_time E n).

Definition wifi_set_state (state : wifi_st) (timeout_s : Z) : W unit :=
  if 0 <? timeout_s then do t <- time; modify (set_st state (t + timeout_s)) else modify (set_st state 0).
Definition wifi_state_timed_out : W bool :=
  do d <- gets wifi_state_deadline;
  if d =? 0 then ret false else do t <- time; ret (d <=? t).

(* ------------------------------------------------------------------ *)
(** ** Running a command *)

(** [strtol] in base 10, with a [long] of 64 bits: the number and what follows;
    [None] when there is none or it does not fit. *)
Definition strtol (s : text) : option (Z * text) :=
  let (neg, r) := sign (skip_space s) in
  if is_digit 10 r then
    let (v, rest) := digits 10 r 0 in
    let v := if neg then - v else v in
    if (-9223372036854775808 <=? v) && (v <=? 9223372036854775807) then Some (v, rest) else None
  else None.

(** The child closes what it inherited: the descriptors /proc/self/fd names, that
    of the listing ([dfd]) at the end; without it those below [sysconf]'s limit,
    1024 at most. *)
Definition fd_entry (name : text) : option Z :=
  match name with
  | [] => None
  | b :: _ =>
      if b =? 46 then None else
      match strtol name with
      | Some (n, []) => Some ((n + 2147483648) mod 4294967296 - 2147483648)
      | _ => None
      end
  end.
Definition close_fd (fd : Z) (open : list Z) : list Z := filter (fun x => x <> fd) open.
Fixpoint close_entries (dfd : Z) (names : list text) (open : list Z) : list Z :=
  match names with
  | [] => open
  | name :: names' =>
      close_entries dfd names'
        (match fd_entry name with
         | Some fd => if (2 <? fd) && negb (fd =? dfd) then close_fd fd open else open
         | None => open
         end)
  end.
Definition wifi_close_inherited_fds (dir : option (Z * list text)) (sc_open_max : Z) (open : list Z) : list Z :=
  match dir with
  | Some (dfd, names) => close_fd dfd (close_entries dfd names (dfd :: open))
  | None =>
      let maxfd := if (sc_open_max <? 0) || (1024 <? sc_open_max) then 1024 else sc_open_max in
      foldr close_fd open (seqZ 3 (maxfd - 3))
  end.

(** [kill]: of a child that has not been waited for. *)
Definition kill (pid : Z) : W unit := do l <- gets children; if bool_decide (pid ∈ l) then ret tt else ub.

Definition s64 (z : Z) : Z := (z + 9223372036854775808) mod 18446744073709551616 - 9223372036854775808.

(** [wifi_wait_child]: 0 with the status, 1 or -1. *)
Fixpoint wait_loop (fuel : nat) (pid deadline : Z) : W (Z * (bool * Z)) :=
  do n <- tick;
  match e_wait E n with
  | inr (Some st) => modify (fun w => set_children (filter (fun p => p <> pid) (children w)) w);; ret (0, st)
  | inl e => if e =? EINTR then match fuel with O => deep | S f => wait_loop f pid deadline end else ret (-1, (false, 0))
  | inr None =>
      do now <- time64_get_current_ms;
      if 0 <=? s64 (now - deadline) then ret (1, (false, 0)) else
      time_delay_ms WIFI_RUN_POLL_MS;;
      match fuel with O => deep | S f => wait_loop f pid deadline end
  end.
Definition wifi_wait_child (pid timeout_ms : Z) : W (Z * (bool * Z)) :=
  do now <- time64_get_current_ms;
  wait_loop (Z.to_nat (timeout_ms / WIFI_RUN_POLL_MS + 1)) pid (u64 (now + timeout_ms)).

Definition wifi_run (cmd : text) : W Z :=
  do n <- tick;
  let r := e_fork E n in
  if r <=? 0 then note (ARun cmd false);; ret (-1) else
  do l <- gets children;
  let pid := new_fd r l in
  modify (set_children (pid :: l));;
  do x <- wifi_wait_child pid WIFI_RUN_TIMEOUT_MS;
  if x.1 <? 0 then note (ARun cmd false);; ret (-1) else
  if 0 <? x.1 then
    kill pid;;
    wifi_wait_child pid WIFI_RUN_KILL_WAIT_MS;;
    note (ARun cmd false);; ret (-1)
  else
    let ok := x.2.1 && (x.2.2 =? 0) in
    note (ARun cmd ok);; ret (if ok then 0 else -1).

(* ------------------------------------------------------------------ *)
(** ** Files *)

(** [fopen(path, "w")]: an empty file. *)
Definition fopen_w (path : text) : W bool :=
  do n <- tick;
  if e_open E n then modify (fun w => set_files (<[path := []]> (files w)) w);; ret true else ret false.
(** [fclose]: what the stream still holds goes to its file, wherever that is by
    now. *)
Definition fclose (path : option text) (held : text) : W unit :=
  do n <- tick;
  match path with
  | None => ret tt
  | Some p => modify (fun w => set_files (<[p := default [] (files w !! p) ++ take (e_room E n) held]> (files w)) w)
  end.
Definition rename (a b : text) : W bool :=
  do n <- tick; do f <- gets files;
  match f !! a with
  | Some c => if e_move E n then modify (set_files (<[b := c]> (delete a f)));; ret true else ret false
  | None => ret false
  end.
Definition unlink (a : text) : W bool :=
  do n <- tick; do f <- gets files;
  match f !! a with
  | Some _ => if e_move E n then modify (set_files (delete a f));; ret true else ret false
  | None => ret false
  end.

(** [fgets] into [cap] bytes, and all of them. *)
Fixpoint take_line (k : nat) (s : text) : text * text :=
  match k, s with
  | S k, b :: s => if b =? 10 then ([b], s) else let (l, r) := take_line k s in (b :: l, r)
  | _, _ => ([], s)
  end.
Fixpoint fgets_all (cap fuel : nat) (s : text) : list text :=
  match fuel, s with
  | S fuel, _ :: _ => let (l, r) := take_line (cap - 1) s in l :: fgets_all cap fuel r
  | _, _ => []
  end.
Definition fgets_lines (cap : nat) (s : text) : list text := fgets_all cap (length s) s.

(* ------------------------------------------------------------------ *)
(** ** Configurations *)

(** One line: in a network block, with a name so far; [None]: found. *)
Definition scan_line (st : bool * bool) (line : text) : option (bool * bool) :=
  let p := skip_space (c_str line) in
  match p with
  | [] => Some st
  | b :: _ =>
      if b =? 35 then Some st else
      if negb st.1 then (if starts (lit "network=") p then Some (true, false) else Some st) else
      if b =? 125 then (if st.2 then None else Some (false, st.2)) else
      if starts (lit "ssid=") p then
        match skip_space (drop 5 p) with
        | [] => Some st
        | q :: r =>
            if q =? 34 then
              match r with
              | [] => Some st
              | c :: _ => if negb (c =? 34) && negb (c =? 10) then Some (true, true) else Some st
              end
            else if negb (q =? 10) then Some (true, true) else Some st
        end
      else Some st
  end.
Fixpoint scan_lines (st : bool * bool) (l : list text) : bool :=
  match l with
  | [] => false
  | x :: l' => match scan_line st x with None => true | Some st' => scan_lines st' l' end
  end.
Definition conf_names_network (content : text) : bool := scan_lines (false, false) (fgets_lines 256 content).

Definition wpasup_network_configured (cfg_file : text) : W bool :=
  do f <- gets files; do n <- tick;
  match f !! cfg_file with
  | Some c => if e_read E n then ret (conf_names_network c) else note (AUnread cfg_file);; ret false
  | None => ret false
  end.

Definition wifi_remove_try_conf : W unit := unlink WIFI_WPASUP_TRY_CONF;; ret tt.

Definition wifi_commit_try_conf : W bool :=
  do c <- wpasup_network_configured WIFI_WPASUP_TRY_CONF;
  if negb c then ret true else
  do r <- rename WIFI_WPASUP_TRY_CONF WIFI_WPASUP_CONF;
  if r : bool then note ACommit;; ret true else ret false.

Definition wifi_write_file (path content : text) : W bool :=
  do o <- fopen_w path;
  if negb o then ret false else
  do n <- tick;
  if e_put E n then fclose (Some path) content;; ret true
  else fclose (Some path) [];; ret false.

(** Characters that would have to be escaped. *)
Definition needs_escape (b : Z) : bool := (b =? 34) || (b =? 92) || (b =? 10) || (b =? 13).
Definition wifi_conf_needs_escape (s : text) : bool := existsb needs_escape s.

Definition conf_head : text := lit "ctrl_interface=/var/run/wpa_supplicant" ++ LF ++ lit "update_config=1" ++ LF.
Definition network_block (ssid rest : text) : text :=
  LF ++ lit "network={" ++ LF ++ lit "  scan_ssid=1" ++ LF ++ lit "  ssid=" ++ QUOTE ++ ssid ++ QUOTE ++ LF ++ rest ++ lit "}" ++ LF.
Definition psk_line (password : text) : text := lit "  psk=" ++ QUOTE ++ password ++ QUOTE ++ LF.
Definition provision_conf (ssid : text) (password : option text) : text :=
  conf_head ++
  match password with
  | None => network_block ssid (lit "  key_mgmt=NONE" ++ LF)
  | Some pw =>
      network_block ssid (lit "  key_mgmt=SAE" ++ LF ++ lit "  ieee80211w=2" ++ LF ++ psk_line pw) ++
      network_block ssid (lit "  key_mgmt=WPA-PSK" ++ LF ++ psk_line pw)
  end.

(** No password or an empty one: an open network. *)
Definition pass_of (password : option text) : option text := match password with Some [] => None | p => p end.
Definition refused (ssid : option text) (password : option text) : bool :=
  match ssid with
  | None | Some [] => true
  | Some s =>
      wifi_conf_needs_escape s ||
      match pass_of password with
      | None => false
      | Some p => wifi_conf_needs_escape p || (length p <? 8)%nat || (63 <? length p)%nat
      end
  end.

(** The file is renamed while the stream still holds what was printed. *)
Definition wifi_write_provision_conf (ssid password : option text) (cfg_file : text) : W bool :=
  if refused ssid password then ret false else
  do o <- fopen_w WIFI_WPASUP_CONF_TMP;
  if negb o then ret false else
  let held := provision_conf (default [] ssid) (pass_of password) in
  do r <- rename WIFI_WPASUP_CONF_TMP cfg_file;
  if r : bool then note (AWrite cfg_file);; fclose (Some cfg_file) held;; ret true
  else
    do u <- unlink WIFI_WPASUP_CONF_TMP;
    fclose (if u : bool then None else Some WIFI_WPASUP_CONF_TMP) held;; ret false.

(* ------------------------------------------------------------------ *)
(** ** The interface *)

Definition wifi_iface_ready : W bool := do n <- tick; ret (e_iface E n).

Definition wifi_kill_daemons : W unit := wifi_run CMD_KILL_ALL;; time_delay_ms 200.
Definition wifi_flush_ip : W unit := wifi_run cmd_flush;; ret tt.
Definition wifi_reset_interface : W unit :=
  wifi_flush_ip;;
  wifi_run (cmd_link " down");; time_delay_ms 200;;
  wifi_run (cmd_link " up");; time_delay_ms 300.

(** "%02X" of an [unsigned]. *)
Fixpoint hex_more (fuel : nat) (v : Z) (acc : text) : text :=
  match fuel with
  | O => acc
  | S f => if v =? 0 then acc else hex_more f (v / 16) (hex_digit (v mod 16) :: acc)
  end.
Definition hex_u (v : Z) : text := hex_more 6 (v / 256) (hex2 (v mod 256)).

Definition wifi_build_ap_ssid (ssid_sz : nat) : W text :=
  do n <- tick;
  ret (match (m ← e_mac E n; scan_list 6 (c_str (take_line 31 m).1)) with
       | Some [_; _; _; _; b4; b5] => snprintf ssid_sz (WIFI_AP_SSID_PREFIX ++ lit "-" ++ hex_u b4 ++ hex_u b5)
       | _ => snprintf ssid_sz WIFI_AP_SSID_PREFIX
       end).

Definition hostapd_conf (ap_ssid : text) : text := snprintf 512 (
  lit "interface=" ++ WIFI_IFACE ++ LF ++ lit "driver=nl80211" ++ LF ++ lit "ssid=" ++ ap_ssid ++ LF ++
  lit "hw_mode=g" ++ LF ++ lit "channel=6" ++ LF ++ lit "auth_algs=1" ++ LF ++ lit "ignore_broadcast_ssid=0" ++ LF).
Definition dnsmasq_conf : text := snprintf 512 (
  lit "interface=" ++ WIFI_IFACE ++ LF ++ lit "bind-interfaces" ++ LF ++
  lit "dhcp-range=" ++ WIFI_AP_DHCP_START ++ lit "," ++ WIFI_AP_DHCP_END ++ lit "," ++ WIFI_AP_NETMASK ++ lit ",12h" ++ LF).

Definition wifi_start_ap : W bool :=
  do ap_ssid <- wifi_build_ap_ssid 32;
  do ok <- wifi_write_file WIFI_HOSTAPD_CONF (hostapd_conf ap_ssid);
  if negb ok then ret false else
  do ok <- wifi_write_file WIFI_DNSMASQ_CONF dnsmasq_conf;
  if negb ok then ret false else
  wifi_run cmd_ifconfig;;
  do r <- wifi_run cmd_hostapd;
  if negb (r =? 0) then ret false else
  do r <- wifi_run cmd_dnsmasq;
  ret (r =? 0).

Definition wifi_start_wpa (cfg_file : text) : W bool := do r <- wifi_run (cmd_wpa cfg_file); ret (r =? 0).
Definition wifi_start_udhcpc : W unit :=
  wifi_run CMD_KILL_UDHCPC;; time_delay_ms 100;; wifi_run cmd_udhcpc;; ret tt.

Definition COMPLETED : text := lit "wpa_state=COMPLETED".
Definition wifi_wpa_connected : W bool :=
  do n <- tick;
  let up := match e_status E n with None => false | Some out => existsb (fun l => starts COMPLETED (c_str l)) (fgets_lines 128 out) end in
  note (ALink up);; ret up.
Definition wifi_ip_configured : W bool :=
  do n <- tick;
  let up := 0 <? e_addr E n in
  note (AAddr up);; ret up.

(* ------------------------------------------------------------------ *)
(** ** The states *)

Definition wifi_handle_init : W unit :=
  do r <- wifi_iface_ready; if r : bool then wifi_set_state WIFI_STATE_RESET 0 else ret tt.

Definition wifi_handle_reset : W unit :=
  wifi_kill_daemons;;
  wifi_reset_interface;;
  do t <- wpasup_network_configured WIFI_WPASUP_TRY_CONF;
  do cfg <- (if t : bool then ret (Some WIFI_WPASUP_TRY_CONF) else
             do c <- wpasup_network_configured WIFI_WPASUP_CONF;
             ret (if c : bool then Some WIFI_WPASUP_CONF else None));
  match cfg with
  | Some cfg =>
      do ok <- wifi_start_wpa cfg;
      if ok : bool then wifi_set_state WIFI_STATE_CONNECTING WIFI_CONNECT_TIMEOUT_S else ret tt
  | None =>
      do ok <- wifi_start_ap;
      if ok : bool then wifi_set_state WIFI_STATE_PROVISIONING 0 else ret tt
  end.

Definition wifi_handle_provisioning : W unit :=
  do c <- wpasup_network_configured WIFI_WPASUP_CONF;
  if c : bool then wifi_set_state WIFI_STATE_RESET 0 else ret tt.

Definition wifi_handle_connecting : W unit :=
  do up <- wifi_wpa_connected;
  if up : bool then wifi_start_udhcpc;; wifi_set_state WIFI_STATE_IPSETUP WIFI_IPSETUP_TIMEOUT_S else
  do t <- wifi_state_timed_out;
  if t : bool then wifi_remove_try_conf;; wifi_set_state WIFI_STATE_RESET 0 else ret tt.

Definition wifi_handle_ipsetup : W unit :=
  do up <- wifi_ip_configured;
  if up : bool then
    do c <- wpasup_network_configured WIFI_WPASUP_TRY_CONF;
    (if c : bool then wifi_commit_try_conf;; ret tt else ret tt);;
    wifi_set_state WIFI_STATE_CONNECTED 0
  else
  do t <- wifi_state_timed_out;
  if t : bool then
    wifi_flush_ip;;
    wifi_run CMD_KILL_UDHCPC;;
    do c <- wpasup_network_configured WIFI_WPASUP_TRY_CONF;
    if c : bool then wifi_remove_try_conf;; wifi_set_state WIFI_STATE_RESET 0
    else wifi_set_state WIFI_STATE_CONNECTING WIFI_CONNECT_TIMEOUT_S
  else ret tt.

Definition wifi_handle_connected : W unit :=
  do up <- wifi_wpa_connected;
  do ok <- (if up : bool then wifi_ip_configured else ret false);
  if ok : bool then ret tt else wifi_set_state WIFI_STATE_RESET 0.

(** One turn of the thread's loop. *)
Definition wifi_turn : W unit :=
  do q <- gets wifi_request_reset;
  (if q : bool then modify (set_request false);; wifi_set_state WIFI_STATE_RESET 0 else ret tt);;
  do s <- gets wifi_state;
  (match s with
   | WIFI_STATE_INIT => wifi_handle_init
   | WIFI_STATE_RESET => wifi_handle_reset
   | WIFI_STATE_PROVISIONING => wifi_handle_provisioning
   | WIFI_STATE_CONNECTING => wifi_handle_connecting
   | WIFI_STATE_IPSETUP => wifi_handle_ipsetup
   | WIFI_STATE_CONNECTED => wifi_handle_connected
   end);;
  time_delay_ms WIFI_LOOP_DELAY_MS.

(** What the thread does next: what comes before its loop, a turn, or its
    end. *)
Definition wifi_thread : W unit :=
  do t <- gets wifi_task;
  match t with
  | None => ret tt
  | Some Created =>
      wifi_remove_try_conf;; wifi_set_state WIFI_STATE_INIT 0;; modify (set_task (Some Looping))
  | Some Looping =>
      do x <- gets wifi_process_exit;
      if x : bool then modify (set_task None) else wifi_turn
  end.

(* ------------------------------------------------------------------ *)
(** ** Calls *)

Definition app_wifi_init : W bool :=
  do r <- gets wifi_running;
  if r : bool then ret false else
  modify (fun w => set_st WIFI_STATE_INIT (wifi_state_deadline w) (set_request false (set_exit false w)));;
  do n <- tick;
  if e_task E n then modify (set_task (Some Created));; modify (set_running true);; ret true
  else modify (set_task None);; ret false.

(** The thread is joined: it does what is left of its turn. *)
Definition app_wifi_deinit : W bool :=
  do r <- gets wifi_running;
  if negb r then ret true else
  modify (set_exit true);;
  do t <- gets wifi_task;
  (match t with Some Created => wifi_thread;; wifi_thread | Some Looping => wifi_thread | None => ret tt end);;
  modify (fun w => set_st WIFI_STATE_INIT (wifi_state_deadline w) (set_request false (set_exit false (set_running false w))));;
  ret true.

Definition request_reset : W unit :=
  do r <- gets wifi_running; if r : bool then modify (set_request true) else ret tt.

Definition app_wifi_provision (ssid password : option text) : W bool :=
  match ssid with
  | None | Some [] =>
      unlink WIFI_WPASUP_CONF;; wifi_remove_try_conf;; request_reset;; ret true
  | Some _ =>
      wifi_remove_try_conf;;
      do ok <- wifi_write_provision_conf ssid password WIFI_WPASUP_CONF;
      if negb ok then ret false else request_reset;; ret true
  end.

Definition app_wifi_provision_fallsafe (ssid password : option text) : W bool :=
  match ssid with
  | None | Some [] => wifi_remove_try_conf;; request_reset;; ret true
  | Some _ =>
      do ok <- wifi_write_provision_conf ssid password WIFI_WPASUP_TRY_CONF;
      if negb ok then ret false else request_reset;; ret true
  end.

Definition app_wifi_get_state : W wifi_st := gets wifi_state.
Definition app_wifi_reload : W unit := request_reset.

(** What happens to the manager. *)
Inductive event : Type :=
  | EvInit | EvDeinit
  | EvProvision (ssid password : option text)
  | EvFallsafe (ssid password : option text)
  | EvReload
  | EvThread.
Definition step (e : event) : W unit :=
  match e with
  | EvInit => app_wifi_init;; ret tt
  | EvDeinit => app_wifi_deinit;; ret tt
  | EvProvision ssid pw => app_wifi_provision ssid pw;; ret tt
  | EvFallsafe ssid pw => app_wifi_provision_fallsafe ssid pw;; ret tt
  | EvReload => app_wifi_reload
  | EvThread => wifi_thread
  end.
Fixpoint run (l : list event) : W unit := match l with [] => ret tt | e :: l' => step e;; run l' end.
End Env.
