(* ===== verification/AppNetConf.v ===== *)
(** AppNetConf: the configuration that is written for a network is one that the
    manager finds a network in. *)

From Stdlib Require Import String.
From stdpp Require Import gmap.
From S2P Require Import Prelude Eff ByteStr CNum AppNet.

Open Scope list_scope.

(* ------------------------------------------------------------------ *)
(** ** Lines *)

Lemma take_line_short k s : (length (take_line k s).2 + length (take_line k s).1 = length s)%nat.
Proof.
  revert s. induction k as [|k IH]; intros [|b s]; cbn; try lia. destruct (b =? 10); cbn; [lia | ].
  specialize (IH s). destruct (take_line k s). cbn in *. lia.
Qed.
Lemma take_line_some k b s : exists l, (take_line (S k) (b :: s)).1 = b :: l.
Proof. cbn. destruct (b =? 10); [by eexists | ]. destruct (take_line k s) as [l r]. by exists l. Qed.

Section Cap.
Context (cap : nat) (Hcap : (2 <= cap)%nat).

Lemma fgets_fuel f s : (length s <= f)%nat -> fgets_all cap f s = fgets_lines cap s.
Proof.
  unfold fgets_lines. remember (length s) as n eqn:Hn. assert (Hle : (length s <= n)%nat) by lia. clear Hn. revert f s Hle.
  induction n as [|n IH]; intros f s Hle Hf; [destruct s; [by destruct f | cbn in Hle; lia] | ].
  destruct s as [|b s]; [by destruct f | ]. destruct f as [|f]; [cbn in Hle; lia | ]. cbn [fgets_all].
  destruct (cap - 1)%nat as [|k] eqn:Hk; [lia | ].
  destruct (take_line_some k b s) as [l Hl]. pose proof (take_line_short (S k) (b :: s)) as Hs.
  destruct (take_line (S k) (b :: s)) as [x r]. cbn in Hl, Hs, Hle. subst x. cbn in Hs. f_equal. apply IH; lia.
Qed.

Lemma take_line_lf k x r : 10 ∉ x -> (length x < k)%nat -> take_line k (x ++ 10 :: r) = (x ++ [10], r).
Proof.
  revert x. induction k as [|k IH]; intros x Hx Hk; [lia | ]. destruct x as [|b x]; [done | ].
  apply not_elem_of_cons in Hx as [Hb Hx]. cbn in Hk |- *. rewrite (proj2 (Z.eqb_neq b 10)) by congruence. by rewrite IH by (done || lia).
Qed.
Lemma lines_cons b s : fgets_lines cap (b :: s) =
  (take_line (cap - 1) (b :: s)).1 :: fgets_lines cap (take_line (cap - 1) (b :: s)).2.
Proof.
  unfold fgets_lines at 1. cbn [length fgets_all]. pose proof (take_line_short (cap - 1) (b :: s)) as Hs.
  destruct (cap - 1)%nat as [|k] eqn:Hk; [lia | ]. destruct (take_line_some k b s) as [l Hl].
  destruct (take_line (S k) (b :: s)) as [x r] eqn:Ht. cbn in Hl, Hs |- *. subst x. cbn in Hs. f_equal. apply fgets_fuel. lia.
Qed.
(** A line that fits. *)
Lemma lines_line x r : 10 ∉ x -> (length x < cap - 1)%nat -> fgets_lines cap (x ++ 10 :: r) = (x ++ [10]) :: fgets_lines cap r.
Proof.
  intros Hx Hk. destruct (x ++ 10 :: r) as [|b s] eqn:E; [by destruct x | ]. by rewrite lines_cons, <- E, take_line_lf.
Qed.
(** Whatever comes before a line end, what follows it is read from its start. *)
Lemma lines_after t r : exists l, fgets_lines cap (t ++ 10 :: r) = l ++ fgets_lines cap r.
Proof.
  remember (length t) as n eqn:Hn. revert t Hn. induction (lt_wf n) as [n _ IH]. intros t ->.
  destruct (t ++ 10 :: r) as [|b s] eqn:E; [by destruct t | ]. rewrite lines_cons, <- E. clear b s E.
  assert (Hsplit : (exists x, (take_line (cap - 1) (t ++ 10 :: r)) = (x, r)) \/
    exists x t', take_line (cap - 1) (t ++ 10 :: r) = (x, t' ++ 10 :: r) /\ (length t' < length t)%nat).
  { assert (Hk : (1 <= cap - 1)%nat) by lia. revert Hk. generalize (cap - 1)%nat as k. clear IH Hcap.
    induction t as [|b t IHt]; intros [|k] Hk; try lia; cbn; [left; by eexists | ].
    destruct (Z.eqb_spec b 10); [right; exists [b], t; split; [done | lia] | ].
    destruct k as [|k]; [right; exists [b], t; cbn; split; [done | lia] | ].
    destruct (IHt (S k) ltac:(lia)) as [[x ->] | (x & t' & -> & Hl)]; [left; by eexists | right; exists (b :: x), t'; split; [done | lia]]. }
  destruct Hsplit as [[x ->] | (x & t' & -> & Hl)]; cbn [fst snd]; [by exists [x] | ].
  destruct (IH _ Hl t' eq_refl) as [l ->]. by exists (x :: l).
Qed.
End Cap.

(* ------------------------------------------------------------------ *)
(** ** Finding the network *)

(** Literals as their bytes. *)
Ltac lits := repeat match goal with |- context [lit ?s] => let v := eval vm_compute in (lit s) in change (lit s) with v end.

(** Inside a block with a name, lines go on until the closing one. *)
Lemma scan_named line : scan_line (true, true) line = None \/ scan_line (true, true) line = Some (true, true).
Proof.
  unfold scan_line. cbn [fst snd negb]. destruct (skip_space (c_str line)) as [|b p]; [by right | ].
  destruct (b =? 35); [by right | ]. destruct (b =? 125); [by left | ]. destruct (starts _ _); [ | by right].
  destruct (skip_space (drop 5 (b :: p))) as [|q r]; [by right | ]. destruct (q =? 34).
  - destruct r as [|c r]; [by right | ]. destruct (_ && _); by right.
  - destruct (negb _); by right.
Qed.
Lemma scan_closes l1 line l2 : scan_line (true, true) line = None -> scan_lines (true, true) (l1 ++ line :: l2) = true.
Proof.
  intros Hl. induction l1 as [|x l1 IH]; cbn; [by rewrite Hl | ]. by destruct (scan_named x) as [-> | ->].
Qed.

Lemma c_str_app l1 l2 : Forall (fun b => b <> 0) l1 -> c_str (l1 ++ l2) = l1 ++ c_str l2.
Proof. induction 1 as [|b l Hb _ IH]; [done | ]. cbn. rewrite (proj2 (Z.eqb_neq _ _) Hb). by rewrite IH. Qed.

(** The line with the name, however much of it is read at a time. *)
Lemma scan_name_line c x : c <> 0 -> needs_escape c = false -> scan_line (true, false) (lit "  ssid=" ++ QUOTE ++ c :: x) = Some (true, true).
Proof.
  intros Hc He. change (lit "  ssid=" ++ QUOTE ++ c :: x) with ((lit "  ssid=" ++ QUOTE ++ [c]) ++ x).
  unfold scan_line. rewrite c_str_app; [ | by repeat constructor].
  unfold needs_escape in He. apply orb_false_elim in He as [He _]. apply orb_false_elim in He as [He H10].
  apply orb_false_elim in He as [H34 _]. unfold starts. lits. cbn. by rewrite H34, H10.
Qed.
Lemma take_name_line k c r : c <> 10 -> (8 <= k)%nat ->
  exists x, (take_line (S k) (lit "  ssid=" ++ QUOTE ++ c :: r)).1 = lit "  ssid=" ++ QUOTE ++ c :: x.
Proof.
  intros Hc Hk. do 8 (destruct k as [|k]; [lia | ]). lits. cbn. rewrite (proj2 (Z.eqb_neq c 10) Hc).
  destruct (take_line k r) as [x y]. by exists x.
Qed.

Lemma name_lines c ssid rest tl : c <> 0 -> needs_escape c = false ->
  exists x l, fgets_lines 256 (lit "  ssid=" ++ QUOTE ++ c :: ssid ++ QUOTE ++ 10 :: rest ++ 10 :: lit "}" ++ 10 :: tl) =
    (lit "  ssid=" ++ QUOTE ++ c :: x) :: l ++ (lit "}" ++ [10]) :: fgets_lines 256 tl.
Proof.
  intros Hc He. set (r := ssid ++ QUOTE ++ 10 :: rest ++ 10 :: lit "}" ++ 10 :: tl).
  destruct (take_name_line 254 c r) as [x Hx]; [by intros -> | lia | ]. exists x.
  assert (H1 : fgets_lines 256 (lit "  ssid=" ++ QUOTE ++ c :: r) =
    (lit "  ssid=" ++ QUOTE ++ c :: x) :: fgets_lines 256 (take_line 255 (lit "  ssid=" ++ QUOTE ++ c :: r)).2).
  { rewrite <- Hx. apply (lines_cons 256 ltac:(lia) 32). }
  destruct (lines_after 256 ltac:(lia) (lit "  ssid=" ++ QUOTE ++ c :: ssid ++ QUOTE ++ 10 :: rest) (lit "}" ++ 10 :: tl)) as [l Hl].
  replace ((lit "  ssid=" ++ QUOTE ++ c :: ssid ++ QUOTE ++ 10 :: rest) ++ 10 :: lit "}" ++ 10 :: tl)
    with (lit "  ssid=" ++ QUOTE ++ c :: r) in Hl
    by (unfold r; repeat (progress (rewrite <- ?app_assoc; cbn [app])); reflexivity).
  rewrite (lines_line 256 ltac:(lia) (lit "}")) in Hl; [ | by apply (bool_decide_unpack _); vm_compute | vm_compute; lia].
  destruct l as [|h l]; [rewrite H1 in Hl; discriminate Hl | ]. exists l. rewrite Hl, <- app_comm_cons. f_equal.
  apply (inj Some). exact (f_equal head (eq_trans (eq_sym Hl) H1)).
Qed.

(** A block with a name is found, whatever follows it. *)
Lemma block_seen c ssid rest tl : c <> 0 -> needs_escape c = false ->
  conf_names_network (conf_head ++ network_block (c :: ssid) (rest ++ LF) ++ tl) = true.
Proof.
  intros Hc He. unfold conf_names_network.
  replace (conf_head ++ network_block (c :: ssid) (rest ++ LF) ++ tl) with
    (lit "ctrl_interface=/var/run/wpa_supplicant" ++ 10 :: lit "update_config=1" ++ 10 :: [] ++ 10 :: lit "network={" ++ 10 ::
      lit "  scan_ssid=1" ++ 10 :: (lit "  ssid=" ++ QUOTE ++ c :: ssid ++ QUOTE ++ 10 :: rest ++ 10 :: lit "}" ++ 10 :: tl))
    by (unfold conf_head, network_block, LF; repeat (progress (rewrite <- ?app_assoc; cbn [app])); reflexivity).
  do 5 (rewrite lines_line; [ | lia | by apply (bool_decide_unpack _); vm_compute | vm_compute; lia]).
  assert (Hs : forall l, scan_lines (false, false) ((lit "ctrl_interface=/var/run/wpa_supplicant" ++ [10]) :: (lit "update_config=1" ++ [10]) ::
    ([] ++ [10]) :: (lit "network={" ++ [10]) :: (lit "  scan_ssid=1" ++ [10]) :: l) = scan_lines (true, false) l) by reflexivity.
  rewrite Hs. destruct (name_lines c ssid rest tl Hc He) as (x & l & ->). cbn [scan_lines]. rewrite scan_name_line by done.
  by apply scan_closes.
Qed.

(** Every configuration that is not refused names a network. *)
Lemma provision_conf_seen ssid pw : ssid <> [] -> Forall (fun b => b <> 0) ssid -> wifi_conf_needs_escape ssid = false ->
  conf_names_network (provision_conf ssid pw) = true.
Proof.
  intros Hs Hz He. destruct ssid as [|c ssid]; [done | ]. apply Forall_cons in Hz as [Hc _]. cbn in He.
  apply orb_false_elim in He as [He _]. unfold provision_conf. destruct pw as [pw|].
  - etransitivity; [ | exact (block_seen c ssid (lit "  key_mgmt=SAE" ++ LF ++ lit "  ieee80211w=2" ++ LF ++ lit "  psk=" ++ QUOTE ++ pw ++ QUOTE)
      (network_block (c :: ssid) (lit "  key_mgmt=WPA-PSK" ++ LF ++ psk_line pw)) Hc He)].
    apply (f_equal conf_names_network). unfold psk_line. by rewrite <- !app_assoc.
  - etransitivity; [ | exact (block_seen c ssid (lit "  key_mgmt=NONE") [] Hc He)].
    apply (f_equal conf_names_network). by rewrite app_nil_r.
Qed.
