(* ===== verification/AppNetRun.v ===== *)
(** AppNetRun: the commands the network manager runs end and are reaped, and what
    its operations leave alone. *)

From Stdlib Require Import String.
From stdpp Require Import gmap.
From S2P Require Import Prelude Eff ByteStr CNum AppNet.

Open Scope list_scope.
Open Scope eff_scope.

(** A delay or a reading of the clock is at most [L] ms late; with less than 2^61
    the clock stays where deadlines compare.  [waitpid] with WNOHANG does not
    sleep, so it is never interrupted. *)
Definition late_by (L : Z) (E : env) : Prop := forall n, 0 <= e_late E n <= L.
Definition LATEST : Z := 2305843009213693951.
Definition steady (E : env) : Prop := late_by LATEST E.
Definition nohang (E : env) : Prop := forall n, e_wait E n <> inl EINTR.

(** What the operations below leave alone: the file's variables and the files. *)
Definition same (w w' : world) : Prop :=
  wifi_task w' = wifi_task w /\ wifi_running w' = wifi_running w /\ wifi_process_exit w' = wifi_process_exit w /\
  wifi_request_reset w' = wifi_request_reset w /\ wifi_state w' = wifi_state w /\
  wifi_state_deadline w' = wifi_state_deadline w /\ files w' = files w.
Lemma same_trans w1 w2 w3 : same w1 w2 -> same w2 w3 -> same w1 w3.
Proof. unfold same. intuition congruence. Qed.
(** Nor do they note anything. *)
Definition still (w w' : world) : Prop := same w w' /\ log w' = log w.
Lemma still_trans w1 w2 w3 : still w1 w2 -> still w2 w3 -> still w1 w3.
Proof. intros [S1 L1] [S2 L2]. split; [by eapply same_trans | congruence]. Qed.

(* ------------------------------------------------------------------ *)
(** ** The child *)

Lemma close_fd_in fd x open : x ∈ close_fd fd open <-> x <> fd /\ x ∈ open.
Proof. unfold close_fd. by rewrite list_elem_of_filter. Qed.
Lemma close_entries_in dfd names open x :
  x ∈ close_entries dfd names open <-> x ∈ open /\ ~ (2 < x /\ x <> dfd /\ exists n, n ∈ names /\ fd_entry n = Some x).
Proof.
  revert open. induction names as [|n names IH]; intros open; cbn [close_entries].
  { split; [ | tauto]. intros H. split; [done | ]. intros (_ & _ & n & Hn & _). by apply not_elem_of_nil in Hn. }
  rewrite IH. setoid_rewrite elem_of_cons. destruct (fd_entry n) as [fd|] eqn:He.
  - destruct (Z.ltb_spec 2 fd), (Z.eqb_spec fd dfd); cbn [andb negb]; rewrite ?close_fd_in; split;
      (intros [H1 H2]; split; [naive_solver | intros (H3 & H4 & m & H5 & H6); naive_solver (lia || congruence)]).
  - split; (intros [H1 H2]; split; [done | intros (H3 & H4 & m & H5 & H6); naive_solver]).
Qed.

(** What the child leaves open for the command: 0, 1 and 2, provided the listing
    names all there is; without a listing nothing below the limit. *)
Lemma nothing_inherited dfd names sc open fd : dfd ∉ open ->
  (forall x, x ∈ open -> exists n, n ∈ names /\ fd_entry n = Some x) ->
  fd ∈ wifi_close_inherited_fds (Some (dfd, names)) sc open <-> fd ∈ open /\ fd <= 2.
Proof.
  intros Hd Hn. unfold wifi_close_inherited_fds. rewrite close_fd_in, close_entries_in, elem_of_cons. split.
  - intros (H1 & [H2 | H2] & H3); [done | ]. split; [done | ]. destruct (Z.le_gt_cases fd 2); [done | ]. exfalso. apply H3. split_and!; [lia | done | by apply Hn].
  - intros [H1 H2]. split_and!; [by intros -> | by right | intros [H3 _]; lia].
Qed.
Lemma limit_inherited sc open fd :
  fd ∈ wifi_close_inherited_fds None sc open <->
  fd ∈ open /\ (fd <= 2 \/ (if (sc <? 0) || (1024 <? sc) then 1024 else sc) <= fd).
Proof.
  unfold wifi_close_inherited_fds. set (m := if (sc <? 0) || (1024 <? sc) then 1024 else sc).
  assert (H : forall l, fd ∈ foldr close_fd open l <-> fd ∈ open /\ fd ∉ l).
  { intros l. induction l as [|x l IH]; cbn [foldr]; [pose proof (not_elem_of_nil fd); tauto | ].
    rewrite close_fd_in, IH, not_elem_of_cons. tauto. }
  rewrite H, elem_of_seqZ. intuition lia.
Qed.

Section Run.
Context (E : env) (L : Z) (HL : 0 <= L <= LATEST) (S : late_by L E) (NH : nohang E).

Lemma an_tick_ok w (Q : nat -> world -> Prop) :
  (forall w', still w w' -> children w' = children w -> now_ms w' = now_ms w -> Q (used w) w') -> wp tick w Q.
Proof. intros HQ. unfold tick. ewp_pure. by apply HQ. Qed.

Lemma delay_ok d w (Q : unit -> world -> Prop) :
  (forall w', still w w' -> children w' = children w -> now_ms w + d <= now_ms w' <= now_ms w + d + L -> Q tt w') ->
  wp (time_delay_ms E d) w Q.
Proof.
  intros HQ. unfold time_delay_ms. apply ewp_bind, an_tick_ok. intros w' T C N. ewp_pure. specialize (S (used w)).
  apply HQ; [exact T | exact C | cbn; lia].
Qed.
Lemma clock_ok w (Q : Z -> world -> Prop) :
  (forall now w', still w w' -> children w' = children w -> now_ms w' = now -> now_ms w <= now <= now_ms w + L -> Q now w') ->
  wp (time64_get_current_ms E) w Q.
Proof.
  intros HQ. unfold time64_get_current_ms. apply ewp_bind, an_tick_ok. intros w' T C N. ewp_pure. specialize (S (used w)).
  apply HQ; [exact T | exact C | done | cbn; lia].
Qed.

Lemma s64_diff now dt : - 9223372036854775808 <= now - dt < 9223372036854775808 -> s64 (now - u64 dt) = now - dt.
Proof. intros H. unfold s64, u64. dlia. Qed.

(** Waiting for a child ends: it is gone, or it is still there and the time is
    up or waiting fails. *)
Definition waited (pid : Z) (w w' : world) (r : Z * (bool * Z)) : Prop :=
  (r.1 = 0 /\ children w' = filter (fun p => p <> pid) (children w)) \/ ((r.1 = 1 \/ r.1 = -1) /\ children w' = children w).
Lemma wait_loop_ok fuel pid dt w (Q : Z * (bool * Z) -> world -> Prop) :
  dt - 100 * Z.of_nat fuel <= now_ms w <= dt + 100 + L -> now_ms w - dt >= -1000000 ->
  (forall r w', still w w' -> now_ms w' <= dt + 100 + 2 * L -> waited pid w w' r -> Q r w') ->
  wp (wait_loop E fuel pid (u64 dt)) w Q.
Proof.
  revert w. unfold LATEST in HL. induction fuel as [|fuel IH]; intros w Ht Hlow HQ; cbn [wait_loop]; apply ewp_bind, an_tick_ok;
    intros w1 T1 C1 N1; (destruct (e_wait E (used w)) as [e | [st|]] eqn:He;
    [ rewrite (proj2 (Z.eqb_neq e EINTR)) by (intros ->; by apply (NH (used w))); apply ewp_ret, HQ; [done | lia | right; split; [by right | done]]
    | ewp_pure; apply HQ; [exact T1 | cbn; lia | left; split; [done | cbn; by rewrite C1]] | ]);
    apply ewp_bind, clock_ok; intros now w2 T2 C2 N2 B2; rewrite s64_diff by lia.
  - rewrite (proj2 (Z.leb_le _ _)) by lia. apply ewp_ret, HQ; [by eapply still_trans | lia | right; split; [by left | congruence]].
  - destruct (Z.leb_spec 0 (now - dt)) as [Hd | Hd].
    + apply ewp_ret, HQ; [by eapply still_trans | lia | right; split; [by left | congruence]].
    + apply ewp_bind, delay_ok. unfold WIFI_RUN_POLL_MS. intros w3 T3 C3 B3. apply IH; [lia | lia | ].
      intros r w4 T4 N4 H4. apply HQ; [eapply still_trans; [eapply still_trans; [eapply still_trans; [exact T1 | exact T2] | exact T3] | exact T4] | done | ].
      unfold waited in *. by rewrite C3, C2, C1 in H4.
Qed.
Lemma wifi_wait_child_ok pid timeout w (Q : Z * (bool * Z) -> world -> Prop) : 0 <= timeout <= 10000 ->
  (forall r w', still w w' -> now_ms w' <= now_ms w + timeout + 100 + 3 * L -> waited pid w w' r -> Q r w') ->
  wp (wifi_wait_child E pid timeout) w Q.
Proof.
  intros Ht HQ. unfold wifi_wait_child. apply ewp_bind, clock_ok. intros now w1 T1 C1 N1 B1.
  apply wait_loop_ok; [unfold WIFI_RUN_POLL_MS; dlia | lia | ].
  intros r w2 T2 N2 H2. unfold waited in H2. rewrite C1 in H2. apply HQ; [by eapply still_trans | lia | done].
Qed.

(** A command: run and reaped, or, killed in vain, still there. *)
Definition reaped (w w' : world) (ok : bool) : Prop :=
  children w' = children w \/ ok = false /\ exists pid, pid ∉ children w /\ children w' = pid :: children w.
Lemma wifi_run_full cmd w (Q : Z -> world -> Prop) :
  (forall ok w', same w w' -> log w' = log w ++ [ARun cmd ok] -> reaped w w' ok -> now_ms w' <= now_ms w + 11200 + 6 * L ->
    Q (if ok : bool then 0 else -1) w') ->
  wp (wifi_run E cmd) w Q.
Proof.
  intros HQ. unfold wifi_run. apply ewp_bind, an_tick_ok. intros w1 [S1 L1] C1 N1.
  destruct (Z.leb_spec (e_fork E (used w)) 0) as [Hf | Hf].
  { unfold note. ewp_pure. apply (HQ false); [exact S1 | cbn; congruence | by left | cbn; lia]. }
  ewp_pure. destruct (new_fd_ok _ (children w1) (Z.lt_le_incl _ _ Hf)) as [_ Hn].
  set (pid := new_fd _ _) in *. rewrite C1 in *.
  assert (Hfil : filter (fun p => p <> pid) (pid :: children w) = children w).
  { rewrite filter_cons_False by auto. by apply filter_ne_id. }
  apply ewp_bind, wifi_wait_child_ok; [unfold WIFI_RUN_TIMEOUT_MS; lia | ].
  unfold waited, WIFI_RUN_TIMEOUT_MS. intros r w2 [S2 L2] N2 H2. cbn in S2, L2, N2, H2. change (same w1 w2) in S2.
  assert (S12 : same w w2) by by eapply same_trans. assert (L12 : log w2 = log w) by congruence.
  destruct H2 as [[-> H2] | [[Hr | Hr] H2]].
  - cbn [Z.ltb Z.compare]. unfold note. ewp_pure. apply HQ; [exact S12 | cbn; congruence | left; cbn; rewrite H2; exact Hfil | cbn; lia].
  - rewrite Hr. cbn [Z.ltb Z.compare]. unfold kill. ewp_pure. rewrite bool_decide_eq_true_2 by (rewrite H2; by left).
    ewp_pure. apply ewp_bind, wifi_wait_child_ok; [unfold WIFI_RUN_KILL_WAIT_MS; lia | ].
    unfold waited, WIFI_RUN_KILL_WAIT_MS.
    intros r3 w3 [S3 L3] N3 H3. unfold note. ewp_pure. apply (HQ false); [by eapply same_trans | cbn; congruence | | cbn; lia].
    rewrite H2 in H3. destruct H3 as [[_ H3] | [_ H3]]; [left; cbn; rewrite H3; exact Hfil | right; split; [done | by exists pid]].
  - rewrite Hr. cbn [Z.ltb Z.compare]. unfold note. ewp_pure. apply (HQ false); [exact S12 | cbn; congruence | | cbn; lia].
    right. split; [done | by exists pid].
Qed.
End Run.
