(* ===== verification/AppNetTurn.v ===== *)
(** AppNetTurn: what the operations of the network manager do to state, files and
    log, the table of its states, and that every handler follows a row of it. *)

From Stdlib Require Import String.
From stdpp Require Import gmap.
From S2P Require Import Prelude Eff ByteStr CNum AppNet AppNetRun.

Open Scope list_scope.
Open Scope eff_scope.

(** A configuration names a network. *)
Definition names (f : gmap text text) (p : text) : Prop := exists c, f !! p = Some c /\ conf_names_network c = true.
(** What looking at a configuration finds, and what is seen of it: one that
    cannot be opened passes for one that names nothing. *)
Definition looked (f : gmap text text) (p : text) (found : bool) (l : list act) : Prop :=
  (found = true <-> names f p) /\ l = [] \/ found = false /\ l = [AUnread p] /\ is_Some (f !! p).

(** What was done is noted; flags, state and deadline are as they were. *)
Record keep (w w' : world) (l : list act) : Prop := Keep {
  k_task : wifi_task w' = wifi_task w;
  k_running : wifi_running w' = wifi_running w;
  k_exit : wifi_process_exit w' = wifi_process_exit w;
  k_request : wifi_request_reset w' = wifi_request_reset w;
  k_state : wifi_state w' = wifi_state w;
  k_deadline : wifi_state_deadline w' = wifi_state_deadline w;
  k_log : log w' = log w ++ l }.
Lemma keep_refl w : keep w w [].
Proof. split; try done. by rewrite app_nil_r. Qed.
Lemma keep_trans w1 w2 w3 l2 l3 : keep w1 w2 l2 -> keep w2 w3 l3 -> keep w1 w3 (l2 ++ l3).
Proof. intros [] []. split; try congruence. by rewrite k_log1, k_log0, app_assoc. Qed.
(** Nothing is noted by the first part, by the second part. *)
Lemma keep_trans_l w1 w2 w3 l : keep w1 w2 [] -> keep w2 w3 l -> keep w1 w3 l.
Proof. apply keep_trans. Qed.
Lemma keep_trans_r w1 w2 w3 l : keep w1 w2 l -> keep w2 w3 [] -> keep w1 w3 l.
Proof. intros H1 H2. rewrite <- (app_nil_r l). by eapply keep_trans. Qed.
Lemma keep_still w w' : still w w' -> keep w w' [] /\ files w' = files w.
Proof. intros [(? & ? & ? & ? & ? & ? & ?) L]. split; [split; try done; by rewrite app_nil_r | done]. Qed.

(** The state is set. *)
Record moved (w w' : world) (s : wifi_st) (d : Z) : Prop := Moved {
  m_task : wifi_task w' = wifi_task w;
  m_running : wifi_running w' = wifi_running w;
  m_exit : wifi_process_exit w' = wifi_process_exit w;
  m_request : wifi_request_reset w' = wifi_request_reset w;
  m_state : wifi_state w' = s;
  m_deadline : wifi_state_deadline w' = d;
  m_log : log w' = log w;
  m_files : files w' = files w }.

(** Files but for some are as they were. *)
Definition others (ps : list text) (f f' : gmap text text) : Prop := forall p, p ∉ ps -> f' !! p = f !! p.
Lemma others_trans ps f1 f2 f3 : others ps f1 f2 -> others ps f2 f3 -> others ps f1 f3.
Proof. intros H1 H2 p Hp. by rewrite H2, H1. Qed.
Lemma others_insert ps f p c : p ∈ ps -> others ps f (<[p := c]> f).
Proof. intros Hp q Hq. by rewrite lookup_insert_ne by congruence. Qed.
Lemma others_delete ps f p : p ∈ ps -> others ps f (delete p f).
Proof. intros Hp q Hq. by rewrite lookup_delete_ne by congruence. Qed.

(** A deadline, if there is one, that is not over, and one that is. *)
Definition early (E : env) (d : Z) : Prop := d = 0 \/ exists n, e_time E n < d.
Definition late (E : env) (d : Z) : Prop := d <> 0 /\ exists n, d <= e_time E n.

(** Removing the configuration on trial fails only if the file system refuses. *)
Definition dropped (E : env) (f f' : gmap text text) : Prop :=
  f' = delete WIFI_WPASUP_TRY_CONF f \/ f' = f /\ exists n, e_move E n = false.

Section Ops.
Context (E : env) (HS : steady E) (HN : nohang E).

Lemma sp_tick w (Q : nat -> world -> Prop) : (forall w', keep w w' [] -> files w' = files w -> Q (used w) w') -> wp tick w Q.
Proof. intros HQ. apply an_tick_ok. intros w' [K F]%keep_still _ _. by apply HQ. Qed.
Lemma sp_delay d w (Q : unit -> world -> Prop) : (forall w', keep w w' [] -> files w' = files w -> Q tt w') -> wp (time_delay_ms E d) w Q.
Proof. intros HQ. eapply delay_ok; [exact HS | ]. intros w' [K F]%keep_still _ _. by apply HQ. Qed.
Lemma sp_run cmd w (Q : Z -> world -> Prop) :
  (forall ok w', keep w w' [ARun cmd ok] -> files w' = files w -> Q (if ok : bool then 0 else -1) w') -> wp (wifi_run E cmd) w Q.
Proof.
  intros HQ. eapply wifi_run_full; [ | exact HS | done | ]; [done | ]. intros ok w' (? & ? & ? & ? & ? & ? & ?) L _ _. by apply HQ; [split | ].
Qed.
Lemma sp_note a w (Q : unit -> world -> Prop) : (forall w', keep w w' [a] -> files w' = files w -> Q tt w') -> wp (note a) w Q.
Proof. intros HQ. unfold note. ewp_pure. by apply HQ; [split | ]. Qed.

Lemma sp_set_state s t w (Q : unit -> world -> Prop) :
  (forall n w', moved w w' s (if 0 <? t then e_time E n + t else 0) -> Q tt w') -> wp (wifi_set_state E s t) w Q.
Proof.
  intros HQ. unfold wifi_set_state, time. destruct (0 <? t).
  - apply ewp_bind, ewp_bind, sp_tick. intros w' [] F. ewp_pure. apply (HQ (used w)). split; cbn; try done. by rewrite k_log0, app_nil_r.
  - ewp_pure. by apply (HQ 0%nat).
Qed.
Lemma sp_timed_out w (Q : bool -> world -> Prop) :
  (forall b w', keep w w' [] -> files w' = files w ->
    (if b : bool then late E (wifi_state_deadline w) else early E (wifi_state_deadline w)) -> Q b w') ->
  wp (wifi_state_timed_out E) w Q.
Proof.
  intros HQ. unfold wifi_state_timed_out, time. ewp_pure. destruct (Z.eqb_spec (wifi_state_deadline w) 0) as [He | He].
  - by apply ewp_ret, HQ; [apply keep_refl | | left].
  - apply ewp_bind, ewp_bind, sp_tick. intros w' H F. ewp_pure. apply HQ; [done | done | ].
    destruct (Z.leb_spec (wifi_state_deadline w) (e_time E (used w))); [split; [done | eauto] | right; eauto].
Qed.

(* ------------------------------------------------------------------ *)
(** ** Files *)

Lemma keep_files w w' f : keep w w' [] -> keep w (set_files f w') [].
Proof. by intros []. Qed.

Lemma sp_configured p w (Q : bool -> world -> Prop) :
  (forall b l w', keep w w' l -> files w' = files w -> looked (files w) p b l -> Q b w') -> wp (wpasup_network_configured E p) w Q.
Proof.
  intros HQ. unfold wpasup_network_configured. ewp_pure. apply ewp_bind, sp_tick. intros w' H F.
  unfold looked, names in HQ. destruct (files w !! p) as [c|] eqn:Hc.
  - destruct (e_read E (used w)).
    + apply ewp_ret, (HQ _ []); [done | done | left]. split; [ | done].
      split; [intros Hn; by exists c | by intros (c' & [= <-] & Hn)].
    + apply ewp_bind, sp_note. intros w2 K2 F2. apply ewp_ret, (HQ _ [AUnread p]).
      * by eapply keep_trans_l.
      * by rewrite F2.
      * right. split_and!; [done | done | by eexists].
  - apply ewp_ret, (HQ _ []); [done | done | left]. split; [ | done]. split; [done | by intros (c & [=] & _)].
Qed.
Lemma sp_unlink a w (Q : bool -> world -> Prop) :
  (forall r w', keep w w' [] -> files w' = (if r : bool then delete a (files w) else files w) ->
    (r = false -> files w !! a = None \/ exists n, e_move E n = false) -> Q r w') -> wp (unlink E a) w Q.
Proof.
  intros HQ. unfold unlink. apply ewp_bind, sp_tick. intros w' H F. ewp_pure. rewrite F.
  destruct (files w !! a) eqn:Ha; [ | apply ewp_ret, (HQ false); auto].
  destruct (e_move E (used w)) eqn:Hm; ewp_pure; [ | apply (HQ false); eauto].
  apply (HQ true); [by apply keep_files | done | done].
Qed.
Lemma sp_rename a b w (Q : bool -> world -> Prop) :
  (forall r w', keep w w' [] ->
    (if r : bool then exists c, files w !! a = Some c /\ files w' = <[b := c]> (delete a (files w))
     else files w' = files w /\ (files w !! a = None \/ exists n, e_move E n = false)) -> Q r w') ->
  wp (rename E a b) w Q.
Proof.
  intros HQ. unfold rename. apply ewp_bind, sp_tick. intros w' H F. ewp_pure. rewrite F.
  destruct (files w !! a) as [c|] eqn:Hc; [ | by apply ewp_ret, (HQ false); [ | split; [ | left]]].
  destruct (e_move E (used w)) eqn:Hm; ewp_pure; [ | apply (HQ false); [done | split; [done | right; by exists (used w)]]].
  apply (HQ true); [by apply keep_files | by exists c].
Qed.
Lemma sp_fopen_w p w (Q : bool -> world -> Prop) :
  (forall r w', keep w w' [] -> files w' = (if r : bool then <[p := []]> (files w) else files w) ->
    (r = false -> exists n, e_open E n = false) -> Q r w') -> wp (fopen_w E p) w Q.
Proof.
  intros HQ. unfold fopen_w. apply ewp_bind, sp_tick. intros w' H F. destruct (e_open E (used w)) eqn:Ho; ewp_pure; [ | apply (HQ false); [done | done | by exists (used w)]].
  apply (HQ true); [by apply keep_files | cbn; by rewrite F | done].
Qed.
Lemma sp_fclose p held w (Q : unit -> world -> Prop) :
  (forall n w', keep w w' [] ->
    files w' = (match p with None => files w | Some p => <[p := default [] (files w !! p) ++ take (e_room E n) held]> (files w) end) ->
    Q tt w') -> wp (fclose E p held) w Q.
Proof.
  intros HQ. unfold fclose. apply ewp_bind, sp_tick. intros w' H F. destruct p as [p|]; ewp_pure.
  - apply (HQ (used w)); [by apply keep_files | cbn; by rewrite F].
  - by apply (HQ 0%nat).
Qed.
Lemma sp_remove_try w (Q : unit -> world -> Prop) :
  (forall w', keep w w' [] -> dropped E (files w) (files w') -> Q tt w') ->
  wp (wifi_remove_try_conf E) w Q.
Proof.
  intros HQ. unfold wifi_remove_try_conf. apply ewp_bind, sp_unlink. intros r w' H F Hr. apply ewp_ret, HQ; [done | ].
  destruct r; [by left | ]. destruct (Hr eq_refl) as [Hn | Hn]; [left | by right]. rewrite F. symmetry. by apply delete_id.
Qed.

Lemma sp_write_file p content w (Q : bool -> world -> Prop) :
  (forall r w', keep w w' [] -> others [p] (files w) (files w') ->
    (r = false -> exists n, e_open E n && e_put E n = false) -> Q r w') -> wp (wifi_write_file E p content) w Q.
Proof.
  intros HQ. unfold wifi_write_file. apply ewp_bind, sp_fopen_w. intros o w1 K1 F1 Ho. destruct o; cbn [negb].
  2: { apply ewp_ret, HQ; [done | by rewrite F1 | ]. intros _. destruct (Ho eq_refl) as [n Hn]. exists n. by rewrite Hn. }
  assert (O1 : others [p] (files w) (files w1)) by (rewrite F1; apply others_insert; by left).
  apply ewp_bind, sp_tick. intros w2 K2 F2. pose proof (keep_trans_l _ _ _ _ K1 K2) as K12.
  destruct (e_put E (used w1)) eqn:Hp; apply ewp_bind, sp_fclose; intros n w3 K3 F3; apply ewp_ret, HQ;
    try (by eapply keep_trans_l); try done; try (intros _; exists (used w1); by rewrite Hp, andb_false_r);
    rewrite F3, F2; (eapply others_trans; [exact O1 | apply others_insert; by left]).
Qed.

(** A configuration: written in full, as far as there is room, or not at all. *)
Lemma sp_write_conf ssid pw cfg w (Q : bool -> world -> Prop) : cfg <> WIFI_WPASUP_CONF_TMP ->
  (forall w', keep w w' [] -> others [WIFI_WPASUP_CONF_TMP] (files w) (files w') ->
    refused ssid pw = true \/ (exists n, e_open E n = false) \/ (exists n, e_move E n = false) -> Q false w') ->
  (forall n w', refused ssid pw = false -> keep w w' [AWrite cfg] -> others [cfg; WIFI_WPASUP_CONF_TMP] (files w) (files w') ->
    files w' !! cfg = Some (take (e_room E n) (provision_conf (default [] ssid) (pass_of pw))) -> Q true w') ->
  wp (wifi_write_provision_conf E ssid pw cfg) w Q.
Proof.
  intros Hne H0 H1. unfold wifi_write_provision_conf. destruct (refused ssid pw) eqn:Hr.
  { apply ewp_ret, H0; [apply keep_refl | done | by left]. }
  apply ewp_bind, sp_fopen_w. intros o w1 K1 F1 Ho. destruct o; cbn [negb].
  2: { apply ewp_ret, H0; [done | by rewrite F1 | right; left; by apply Ho]. }
  assert (O1 : others [WIFI_WPASUP_CONF_TMP] (files w) (files w1)) by (rewrite F1; apply others_insert; by left).
  apply ewp_bind, sp_rename. intros r w2 K2 F2. pose proof (keep_trans_l _ _ _ _ K1 K2) as K12. destruct r.
  - destruct F2 as (c & Hc & F2). rewrite F1, lookup_insert_eq in Hc. injection Hc as <-.
    apply ewp_bind, sp_note. intros w3 K3 F3. apply ewp_bind, sp_fclose. intros n w4 K4 F4. apply ewp_ret.
    rewrite F3, F2 in F4. eapply (H1 n); [done | | | ].
    + eapply keep_trans_l; [exact K12 | ]. by eapply keep_trans_r.
    + rewrite F4, F1. intros p Hp. apply not_elem_of_cons in Hp as [Hp1 Hp2]. apply not_elem_of_cons in Hp2 as [Hp2 _].
      rewrite !lookup_insert_ne, lookup_delete_ne, lookup_insert_ne by congruence. done.
    + by rewrite F4, lookup_insert_eq, lookup_insert_eq.
  - destruct F2 as [F2 Hm]. apply ewp_bind, sp_unlink. intros u w3 K3 F3 _. apply ewp_bind, sp_fclose. intros n w4 K4 F4. apply ewp_ret, H0.
    + eapply keep_trans_l; [exact K12 | ]. by eapply keep_trans_l.
    + rewrite F4, F3, F2. destruct u.
      * eapply others_trans; [exact O1 | ]. apply others_delete. by left.
      * eapply others_trans; [exact O1 | ]. apply others_insert. by left.
    + right. right. destruct Hm as [Hm | Hm]; [ | done]. by rewrite F1, lookup_insert_eq in Hm.
Qed.
End Ops.

(* ------------------------------------------------------------------ *)
(** ** The table *)

(** A reset starts with these commands, whatever becomes of them. *)
Definition housekeeping (l : list act) : Prop := exists a b c d,
  l = [ARun CMD_KILL_ALL a; ARun cmd_flush b; ARun (cmd_link " down") c; ARun (cmd_link " up") d].
(** Starting the access point: its files, its address, then its daemons, as far
    as it gets. *)
Definition ap_acts (E : env) (l : list act) (ok : bool) : Prop :=
  l = [] /\ ok = false /\ (exists n, e_open E n && e_put E n = false) \/
  (exists a, l = [ARun cmd_ifconfig a; ARun cmd_hostapd false]) /\ ok = false \/
  exists a, l = [ARun cmd_ifconfig a; ARun cmd_hostapd true; ARun cmd_dnsmasq ok].
Definition AP_FILES : list text := [WIFI_HOSTAPD_CONF; WIFI_DNSMASQ_CONF].
(** One turn: from a state, with its deadline and the files, what is done and
    seen, the next state and the files then. *)
Inductive turn_row (E : env) (d : Z) (f : gmap text text) : wifi_st -> list act -> wifi_st -> gmap text text -> Prop :=
  | row_init_wait : (exists n, e_iface E n = false) -> turn_row E d f WIFI_STATE_INIT [] WIFI_STATE_INIT f
  | row_init_ready : (exists n, e_iface E n = true) -> turn_row E d f WIFI_STATE_INIT [] WIFI_STATE_RESET f
  | row_reset_try l ok : housekeeping l -> names f WIFI_WPASUP_TRY_CONF ->
      turn_row E d f WIFI_STATE_RESET (l ++ [ARun (cmd_wpa WIFI_WPASUP_TRY_CONF) ok])
        (if ok : bool then WIFI_STATE_CONNECTING else WIFI_STATE_RESET) f
  | row_reset_conf l l1 ok : housekeeping l -> looked f WIFI_WPASUP_TRY_CONF false l1 -> names f WIFI_WPASUP_CONF ->
      turn_row E d f WIFI_STATE_RESET (l ++ l1 ++ [ARun (cmd_wpa WIFI_WPASUP_CONF) ok])
        (if ok : bool then WIFI_STATE_CONNECTING else WIFI_STATE_RESET) f
  | row_reset_ap l l1 l2 l' ok f' : housekeeping l ->
      looked f WIFI_WPASUP_TRY_CONF false l1 -> looked f WIFI_WPASUP_CONF false l2 ->
      ap_acts E l' ok -> others AP_FILES f f' ->
      turn_row E d f WIFI_STATE_RESET (l ++ l1 ++ l2 ++ l')
        (if ok : bool then WIFI_STATE_PROVISIONING else WIFI_STATE_RESET) f'
  | row_provisioning_wait l : looked f WIFI_WPASUP_CONF false l ->
      turn_row E d f WIFI_STATE_PROVISIONING l WIFI_STATE_PROVISIONING f
  | row_provisioning_leave : names f WIFI_WPASUP_CONF -> turn_row E d f WIFI_STATE_PROVISIONING [] WIFI_STATE_RESET f
  | row_connecting_up a b :
      turn_row E d f WIFI_STATE_CONNECTING [ALink true; ARun CMD_KILL_UDHCPC a; ARun cmd_udhcpc b] WIFI_STATE_IPSETUP f
  | row_connecting_wait : early E d -> turn_row E d f WIFI_STATE_CONNECTING [ALink false] WIFI_STATE_CONNECTING f
  | row_connecting_late f' : late E d -> dropped E f f' ->
      turn_row E d f WIFI_STATE_CONNECTING [ALink false] WIFI_STATE_RESET f'
  | row_ipsetup_up l : looked f WIFI_WPASUP_TRY_CONF false l ->
      turn_row E d f WIFI_STATE_IPSETUP (AAddr true :: l) WIFI_STATE_CONNECTED f
  | row_ipsetup_commit c : names f WIFI_WPASUP_TRY_CONF -> f !! WIFI_WPASUP_TRY_CONF = Some c ->
      turn_row E d f WIFI_STATE_IPSETUP [AAddr true; ACommit] WIFI_STATE_CONNECTED
        (<[WIFI_WPASUP_CONF := c]> (delete WIFI_WPASUP_TRY_CONF f))
  | row_ipsetup_refused : names f WIFI_WPASUP_TRY_CONF -> (exists n, e_move E n = false) ->
      turn_row E d f WIFI_STATE_IPSETUP [AAddr true] WIFI_STATE_CONNECTED f
  | row_ipsetup_wait : early E d -> turn_row E d f WIFI_STATE_IPSETUP [AAddr false] WIFI_STATE_IPSETUP f
  | row_ipsetup_late_try a b f' : late E d -> names f WIFI_WPASUP_TRY_CONF -> dropped E f f' ->
      turn_row E d f WIFI_STATE_IPSETUP [AAddr false; ARun cmd_flush a; ARun CMD_KILL_UDHCPC b] WIFI_STATE_RESET f'
  | row_ipsetup_late a b l : late E d -> looked f WIFI_WPASUP_TRY_CONF false l ->
      turn_row E d f WIFI_STATE_IPSETUP ([AAddr false; ARun cmd_flush a; ARun CMD_KILL_UDHCPC b] ++ l) WIFI_STATE_CONNECTING f
  | row_connected_stay : turn_row E d f WIFI_STATE_CONNECTED [ALink true; AAddr true] WIFI_STATE_CONNECTED f
  | row_connected_no_link : turn_row E d f WIFI_STATE_CONNECTED [ALink false] WIFI_STATE_RESET f
  | row_connected_no_addr : turn_row E d f WIFI_STATE_CONNECTED [ALink true; AAddr false] WIFI_STATE_RESET f.

(** The deadline a state is left with when it was entered by this turn. *)
Definition armed (E : env) (s : wifi_st) (d : Z) : Prop :=
  match s with
  | WIFI_STATE_CONNECTING | WIFI_STATE_IPSETUP => exists n, d = e_time E n + 30
  | _ => d = 0
  end.

(** A turn from a world in state [s]: along a row, leaving flags alone, with the
    deadline of the state entered, or where nothing was entered as it was. *)
Definition turned (E : env) (w w' : world) : Prop := exists l,
  turn_row E (wifi_state_deadline w) (files w) (wifi_state w) l (wifi_state w') (files w') /\
  log w' = log w ++ l /\
  (armed E (wifi_state w') (wifi_state_deadline w') \/
   wifi_state w' = wifi_state w /\ wifi_state_deadline w' = wifi_state_deadline w) /\
  wifi_task w' = wifi_task w /\ wifi_running w' = wifi_running w /\ wifi_process_exit w' = wifi_process_exit w /\
  wifi_request_reset w' = wifi_request_reset w.

Section Turns.
Context (E : env) (HS : steady E) (HN : nohang E).

(** A turn that enters a state, and one that stays. *)
Lemma turned_moves w w1 w' l s d : keep w w1 l -> moved w1 w' s d -> armed E s d ->
  turn_row E (wifi_state_deadline w) (files w) (wifi_state w) l s (files w1) -> turned E w w'.
Proof.
  intros [] [] Ha Hr. exists l. rewrite m_state0, m_deadline0, m_files0.
  split_and!; [done | congruence | by left | congruence..].
Qed.
Lemma turned_stays w w' l : keep w w' l ->
  turn_row E (wifi_state_deadline w) (files w) (wifi_state w) l (wifi_state w) (files w') -> turned E w w'.
Proof. intros [] Hr. exists l. rewrite k_state0. split_and!; try done. right. by split. Qed.

Lemma looked_yes f p l : looked f p true l -> names f p /\ l = [].
Proof. intros [[H ->] | (? & _)]; [ | done]. split; [by apply H | done]. Qed.

Lemma init_turn w (Q : unit -> world -> Prop) : wifi_state w = WIFI_STATE_INIT ->
  (forall w', turned E w w' -> Q tt w') -> wp (wifi_handle_init E) w Q.
Proof.
  intros Hs HQ. unfold wifi_handle_init, wifi_iface_ready. apply ewp_bind, ewp_bind, sp_tick. intros w1 K1 F1. apply ewp_ret.
  destruct (e_iface E (used w)) eqn:Hi.
  - apply sp_set_state. intros n w2 M2. eapply HQ, turned_moves; [exact K1 | exact M2 | done | ]. rewrite Hs, F1. constructor. eauto.
  - eapply ewp_ret, HQ, turned_stays; [exact K1 | ]. rewrite Hs, F1. constructor. eauto.
Qed.

Lemma provisioning_turn w (Q : unit -> world -> Prop) : wifi_state w = WIFI_STATE_PROVISIONING ->
  (forall w', turned E w w' -> Q tt w') -> wp (wifi_handle_provisioning E) w Q.
Proof.
  intros Hs HQ. unfold wifi_handle_provisioning. apply ewp_bind, sp_configured. intros b l w1 K1 F1 Hb. destruct b.
  - apply looked_yes in Hb as [Hb ->]. apply sp_set_state. intros n w2 M2.
    eapply HQ, turned_moves; [exact K1 | exact M2 | done | ]. rewrite Hs, F1. by constructor.
  - eapply ewp_ret, HQ, turned_stays; [exact K1 | ]. rewrite Hs, F1. by constructor.
Qed.

Lemma an_link_ok w (Q : bool -> world -> Prop) : (forall b w', keep w w' [ALink b] -> files w' = files w -> Q b w') -> wp (wifi_wpa_connected E) w Q.
Proof.
  intros HQ. unfold wifi_wpa_connected. apply ewp_bind, sp_tick. intros w1 K1 F1. apply ewp_bind, sp_note. intros w2 K2 F2.
  apply ewp_ret, HQ; [by eapply keep_trans_l | congruence].
Qed.
Lemma addr_ok w (Q : bool -> world -> Prop) : (forall b w', keep w w' [AAddr b] -> files w' = files w -> Q b w') -> wp (wifi_ip_configured E) w Q.
Proof.
  intros HQ. unfold wifi_ip_configured. apply ewp_bind, sp_tick. intros w1 K1 F1. apply ewp_bind, sp_note. intros w2 K2 F2.
  apply ewp_ret, HQ; [by eapply keep_trans_l | congruence].
Qed.

Lemma connected_turn w (Q : unit -> world -> Prop) : wifi_state w = WIFI_STATE_CONNECTED ->
  (forall w', turned E w w' -> Q tt w') -> wp (wifi_handle_connected E) w Q.
Proof.
  intros Hs HQ. unfold wifi_handle_connected. apply ewp_bind, an_link_ok. intros b w1 K1 F1. destruct b; apply ewp_bind.
  - apply addr_ok. intros b w2 K2 F2. pose proof (keep_trans _ _ _ _ _ K1 K2) as K. destruct b.
    + eapply ewp_ret, HQ, turned_stays; [exact K | ]. rewrite Hs, F2, F1. constructor.
    + apply sp_set_state. intros n w3 M3. eapply HQ, turned_moves; [exact K | exact M3 | done | ]. rewrite Hs, F2, F1. constructor.
  - apply ewp_ret, sp_set_state. intros n w3 M3. eapply HQ, turned_moves; [exact K1 | exact M3 | done | ]. rewrite Hs, F1. constructor.
Qed.

Lemma connecting_turn w (Q : unit -> world -> Prop) : wifi_state w = WIFI_STATE_CONNECTING ->
  (forall w', turned E w w' -> Q tt w') -> wp (wifi_handle_connecting E) w Q.
Proof.
  intros Hs HQ. unfold wifi_handle_connecting. apply ewp_bind, an_link_ok. intros b w1 K1 F1. destruct b.
  - apply ewp_bind. unfold wifi_start_udhcpc. apply ewp_bind, sp_run; [done | done | ]. intros a w2 K2 F2.
    apply ewp_bind, sp_delay; [done | ]. intros w3 K3 F3. apply ewp_bind, sp_run; [done | done | ]. intros b w4 K4 F4.
    apply ewp_ret, sp_set_state. intros n w5 M5. eapply HQ, turned_moves; [ | exact M5 | by exists n | ].
    + eapply keep_trans; [exact K1 | ]. eapply keep_trans; [exact K2 | ]. by eapply keep_trans_l.
    + rewrite Hs, F4, F3, F2, F1. constructor.
  - apply ewp_bind, sp_timed_out. intros t w2 K2 F2 Ht. pose proof (keep_trans_r _ _ _ _ K1 K2) as K. destruct t.
    + apply ewp_bind, sp_remove_try. intros w3 K3 F3. apply sp_set_state. intros n w4 M4.
      eapply HQ, turned_moves; [by eapply keep_trans_r | exact M4 | done | ]. rewrite Hs. constructor.
      * by rewrite <- (k_deadline _ _ _ K1).
      * by rewrite <- F1, <- F2.
    + eapply ewp_ret, HQ, turned_stays; [exact K | ]. rewrite Hs, F2, F1. constructor. by rewrite <- (k_deadline _ _ _ K1).
Qed.

Lemma sp_commit w (Q : bool -> world -> Prop) :
  (forall r l w', keep w w' l -> files w' = files w ->
    looked (files w) WIFI_WPASUP_TRY_CONF false l \/
    l = [] /\ names (files w) WIFI_WPASUP_TRY_CONF /\ (exists n, e_move E n = false) -> Q r w') ->
  (forall c w', keep w w' [ACommit] -> names (files w) WIFI_WPASUP_TRY_CONF -> files w !! WIFI_WPASUP_TRY_CONF = Some c ->
    files w' = <[WIFI_WPASUP_CONF := c]> (delete WIFI_WPASUP_TRY_CONF (files w)) -> Q true w') ->
  wp (wifi_commit_try_conf E) w Q.
Proof.
  intros H0 H1. unfold wifi_commit_try_conf. apply ewp_bind, sp_configured. intros b l w1 K1 F1 Hb. destruct b; cbn [negb].
  2: { eapply ewp_ret, H0; [exact K1 | done | by left]. }
  apply looked_yes in Hb as [Hb ->].
  apply ewp_bind, sp_rename. intros r w2 K2 F2. destruct r.
  - destruct F2 as (c & Hc & F2). rewrite F1 in Hc, F2. apply ewp_bind, sp_note. intros w3 K3 F3. apply ewp_ret. eapply H1.
    + eapply keep_trans_l; [exact K1 | ]. by eapply keep_trans_l.
    + exact Hb.
    + exact Hc.
    + by rewrite F3.
  - destruct F2 as [F2 Hm]. eapply ewp_ret, H0; [by eapply keep_trans_l | congruence | right]. split_and!; [done | done | ].
    destruct Hm as [Hm | Hm]; [ | done]. destruct Hb as (c & Hc & _). congruence.
Qed.

Lemma ipsetup_turn w (Q : unit -> world -> Prop) : wifi_state w = WIFI_STATE_IPSETUP ->
  (forall w', turned E w w' -> Q tt w') -> wp (wifi_handle_ipsetup E) w Q.
Proof.
  intros Hs HQ. unfold wifi_handle_ipsetup. apply ewp_bind, addr_ok. intros b w1 K1 F1. destruct b; apply ewp_bind.
  - apply sp_configured. intros c l w2 K2 F2 Hc. rewrite F1 in F2, Hc. pose proof (keep_trans _ _ _ _ _ K1 K2) as K. cbn [app] in K.
    assert (Hend : forall w3 l, keep w w3 l -> files w3 = files w ->
      turn_row E (wifi_state_deadline w) (files w) WIFI_STATE_IPSETUP l WIFI_STATE_CONNECTED (files w) ->
      wp (wifi_set_state E WIFI_STATE_CONNECTED 0) w3 Q).
    { intros w3 l3 K3 F3 Hrow. apply sp_set_state. intros n w4 M4. eapply HQ, turned_moves; [exact K3 | exact M4 | done | ].
      by rewrite Hs, F3. }
    apply ewp_bind. destruct c; [ | eapply ewp_ret, Hend; [exact K | congruence | by constructor]].
    apply looked_yes in Hc as [Hc ->]. apply ewp_bind, sp_commit; rewrite F2.
    + intros r l w3 K3 F3 Hl. pose proof (keep_trans _ _ _ _ _ K K3) as K03. cbn [app] in K03.
      eapply ewp_ret, Hend; [exact K03 | congruence | ]. destruct Hl as [Hl | (-> & Hn & Hm)]; by constructor.
    + intros c w3 K3 Hn Hc3 F3. apply ewp_ret, sp_set_state. intros n w4 M4.
      eapply HQ, turned_moves; [exact (keep_trans _ _ _ _ _ K K3) | exact M4 | done | ]. rewrite Hs, F3. by constructor.
  - apply sp_timed_out. intros t w2 K2 F2 Ht. rewrite (k_deadline _ _ _ K1) in Ht. pose proof (keep_trans_r _ _ _ _ K1 K2) as K.
    destruct t; [ | eapply ewp_ret, HQ, turned_stays; [exact K | rewrite Hs, F2, F1; by constructor]].
    unfold wifi_flush_ip. apply ewp_bind, ewp_bind, sp_run; [done | done | ]. intros a w3 K3 F3. apply ewp_ret.
    apply ewp_bind, sp_run; [done | done | ]. intros b w4 K4 F4. apply ewp_bind, sp_configured.
    intros c l w5 K5 F5 Hc. rewrite F4, F3, F2, F1 in *.
    assert (K6 : keep w w5 ([AAddr false; ARun cmd_flush a; ARun CMD_KILL_UDHCPC b] ++ l)).
    { exact (keep_trans _ _ _ _ _ (keep_trans _ _ _ _ _ (keep_trans _ _ _ _ _ K K3) K4) K5). }
    destruct c.
    + apply looked_yes in Hc as [Hc ->]. rewrite app_nil_r in K6.
      apply ewp_bind, sp_remove_try. intros w6 K7 F6. apply sp_set_state. intros n w7 M7.
      eapply HQ, turned_moves; [by eapply keep_trans_r | exact M7 | done | ]. rewrite Hs. constructor; [done | done | by rewrite <- F5].
    + apply sp_set_state. intros n w7 M7. eapply HQ, turned_moves; [exact K6 | exact M7 | by exists n | ]. rewrite Hs, F5.
      by constructor.
Qed.

(** What a reset does first. *)
Lemma housekeeping_ok w (Q : unit -> world -> Prop) :
  (forall l w', housekeeping l -> keep w w' l -> files w' = files w -> Q tt w') ->
  wp (wifi_kill_daemons E;; wifi_reset_interface E) w Q.
Proof.
  intros HQ. unfold wifi_kill_daemons, wifi_reset_interface, wifi_flush_ip.
  apply ewp_bind, ewp_bind, sp_run; [done | done | ]. intros a w1 K1 F1. apply sp_delay; [done | ]. intros w2 K2 F2.
  apply ewp_bind, ewp_bind, sp_run; [done | done | ]. intros b w3 K3 F3. apply ewp_ret.
  apply ewp_bind, sp_run; [done | done | ]. intros c w4 K4 F4. apply ewp_bind, sp_delay; [done | ]. intros w5 K5 F5.
  apply ewp_bind, sp_run; [done | done | ]. intros d w6 K6 F6. apply sp_delay; [done | ]. intros w7 K7 F7.
  eapply (HQ [ARun CMD_KILL_ALL a; ARun cmd_flush b; ARun (cmd_link " down") c; ARun (cmd_link " up") d]); [by repeat eexists | | congruence].
  apply (keep_trans _ _ _ _ [_; _; _] K1). eapply keep_trans_l; [exact K2 | ]. apply (keep_trans _ _ _ _ [_; _] K3), (keep_trans _ _ _ _ [_] K4).
  eapply keep_trans_l; [exact K5 | ]. by eapply keep_trans_r.
Qed.

Lemma start_ap_ok w (Q : bool -> world -> Prop) :
  (forall ok l w', ap_acts E l ok -> keep w w' l -> others AP_FILES (files w) (files w') -> Q ok w') -> wp (wifi_start_ap E) w Q.
Proof.
  intros HQ. unfold wifi_start_ap, wifi_build_ap_ssid. apply ewp_bind, ewp_bind, sp_tick. intros w1 K1 F1. apply ewp_ret.
  assert (Hw : forall p f f', p ∈ AP_FILES -> others [p] f f' -> others AP_FILES f f').
  { intros p f f' Hp Ho q Hq. apply Ho. intros Hx. apply list_elem_of_singleton in Hx as ->. by apply Hq. }
  apply ewp_bind, sp_write_file. intros o w2 K2 O2 P2. pose proof (keep_trans_l _ _ _ _ K1 K2) as K12.
  apply (Hw WIFI_HOSTAPD_CONF) in O2; [ | by left]. rewrite F1 in O2. destruct o; cbn [negb].
  2: { apply ewp_ret, (HQ false []); [left; auto | done | done]. }
  apply ewp_bind, sp_write_file. intros o w3 K3 O3 P3. pose proof (keep_trans_l _ _ _ _ K12 K3) as K13.
  apply (Hw WIFI_DNSMASQ_CONF) in O3; [ | by right; left]. pose proof (others_trans _ _ _ _ O2 O3) as O. destruct o; cbn [negb].
  2: { apply ewp_ret, (HQ false []); [left; auto | done | done]. }
  apply ewp_bind, sp_run; [done | done | ]. intros a w4 K4 F4. apply ewp_bind, sp_run; [done | done | ]. intros b w5 K5 F5.
  pose proof (keep_trans_l _ _ _ _ K13 (keep_trans _ _ _ _ _ K4 K5)) as K15. cbn [app] in K15.
  assert (O5 : others AP_FILES (files w) (files w5)) by by rewrite F5, F4.
  destruct b; cbn [negb Z.eqb].
  - apply ewp_bind, sp_run; [done | done | ]. intros c w6 K6 F6. apply ewp_ret. destruct c; cbn [Z.eqb].
    + eapply (HQ true); [right; right; by exists a | by eapply (keep_trans _ _ _ _ _ K15) | by rewrite F6].
    + eapply (HQ false); [right; right; by exists a | by eapply (keep_trans _ _ _ _ _ K15) | by rewrite F6].
  - apply ewp_ret. eapply (HQ false); [right; left; split; [by exists a | done] | exact K15 | done].
Qed.

Lemma reset_turn w (Q : unit -> world -> Prop) : wifi_state w = WIFI_STATE_RESET ->
  (forall w', turned E w w' -> Q tt w') -> wp (wifi_handle_reset E) w Q.
Proof.
  intros Hs HQ. unfold wifi_handle_reset. apply (ewp_eq _ (bind (bind (wifi_kill_daemons E) (fun _ => wifi_reset_interface E)) (fun _ =>
    bind (wpasup_network_configured E WIFI_WPASUP_TRY_CONF) _)) w Q (eq_sym (ebind_assoc _ _ _ _))).
  apply ewp_bind, housekeeping_ok. intros l w1 Hl K1 F1. apply ewp_bind, sp_configured. intros t l1 w2 K2 F2 Ht.
  pose proof (keep_trans _ _ _ _ _ K1 K2) as K12. rewrite F1 in *.
  assert (Hwpa : forall cfg w3 l3, keep w w3 l3 -> files w3 = files w ->
    (forall ok, turn_row E (wifi_state_deadline w) (files w) WIFI_STATE_RESET (l3 ++ [ARun (cmd_wpa cfg) ok])
        (if ok : bool then WIFI_STATE_CONNECTING else WIFI_STATE_RESET) (files w)) ->
    wp (do ok <- wifi_start_wpa E cfg; if ok : bool then wifi_set_state E WIFI_STATE_CONNECTING WIFI_CONNECT_TIMEOUT_S else ret tt) w3 Q).
  { intros cfg w3 l3 K3 F3 Hrow. unfold wifi_start_wpa. apply ewp_bind, ewp_bind, sp_run; [done | done | ]. intros ok w4 K4 F4. apply ewp_ret.
    pose proof (keep_trans _ _ _ _ _ K3 K4) as K34. specialize (Hrow ok). destruct ok; cbn [Z.eqb].
    - apply sp_set_state. intros n w5 M5. eapply HQ, turned_moves; [exact K34 | exact M5 | by exists n | ]. by rewrite Hs, F4, F3.
    - eapply ewp_ret, HQ, turned_stays; [exact K34 | ]. by rewrite Hs, F4, F3. }
  apply ewp_bind. destruct t.
  - apply looked_yes in Ht as [Ht ->]. rewrite app_nil_r in K12.
    eapply ewp_ret, Hwpa; [exact K12 | done | ]. intros ok. by constructor.
  - apply ewp_bind, sp_configured. intros c l2 w3 K3 F3 Hc. rewrite F2 in *. apply ewp_ret.
    pose proof (keep_trans _ _ _ _ _ K12 K3) as K13. destruct c.
    + apply looked_yes in Hc as [Hc ->]. rewrite app_nil_r in K13.
      eapply Hwpa; [exact K13 | done | ]. intros ok. rewrite <- app_assoc. by constructor.
    + apply ewp_bind, start_ap_ok. intros ok l' w4 Ha K4 O4. rewrite F3 in O4. pose proof (keep_trans _ _ _ _ _ K13 K4) as K14.
      rewrite <- !app_assoc in K14.
      pose proof (row_reset_ap E (wifi_state_deadline w) (files w) l l1 l2 l' ok (files w4) Hl Ht Hc Ha O4) as Hrow. destruct ok.
      * apply sp_set_state. intros n w5 M5. eapply HQ, turned_moves; [exact K14 | exact M5 | done | ]. by rewrite Hs.
      * eapply ewp_ret, HQ, turned_stays; [exact K14 | ]. by rewrite Hs.
Qed.
End Turns.
