(* ===== verification/AppNetSpec.v ===== *)
(** AppNetSpec: the network manager follows the table of its states, commits only
    what was tested, and writes configurations that are found. *)

From Stdlib Require Import String.
From stdpp Require Import gmap.
From S2P Require Import Prelude Eff ByteStr CNum AppNet AppNetConf AppNetRun AppNetTurn.

Open Scope list_scope.
Open Scope eff_scope.

(* ------------------------------------------------------------------ *)
(** ** No operation has a contract to break *)

Lemma keeps_wait_loop E fuel pid d : keeps (wait_loop E fuel pid d).
Proof. induction fuel; cbn [wait_loop]; keeps_all; done. Qed.
#[local] Hint Resolve keeps_wait_loop : keeps.
Lemma keeps_wifi_run E cmd : keeps (wifi_run E cmd).
Proof. keeps_all. Qed.
#[local] Hint Resolve keeps_wifi_run : keeps.
Lemma keeps_write_conf E ssid pw cfg : keeps (wifi_write_provision_conf E ssid pw cfg).
Proof. keeps_all. Qed.
Lemma keeps_remove_try E : keeps (wifi_remove_try_conf E).
Proof. keeps_all. Qed.
#[local] Hint Resolve keeps_write_conf keeps_remove_try : keeps.
Lemma keeps_start_ap E : keeps (wifi_start_ap E).
Proof. keeps_all. Qed.
#[local] Hint Resolve keeps_start_ap : keeps.
Lemma keeps_turn E : keeps (wifi_turn E).
Proof. keeps_all. Qed.
#[local] Hint Resolve keeps_turn : keeps.
Lemma keeps_thread E : keeps (wifi_thread E).
Proof. keeps_all. Qed.
#[local] Hint Resolve keeps_thread : keeps.
Lemma keeps_step E e : keeps (step E e).
Proof. destruct e; keeps_all. Qed.
#[local] Hint Resolve keeps_step : keeps.
Lemma keeps_an_run E l : keeps (run E l).
Proof. induction l; cbn [run]; keeps_steps. Qed.
#[local] Hint Resolve keeps_an_run : keeps.

(* ------------------------------------------------------------------ *)
(** ** The table *)

(** A request pending turns the state to RESET before anything else. *)
Definition asked (w : world) : world :=
  if wifi_request_reset w then set_st WIFI_STATE_RESET 0 (set_request false w) else w.
Lemma asked_request w : wifi_request_reset (asked w) = false.
Proof. unfold asked. by destruct (wifi_request_reset w) eqn:H. Qed.
Lemma asked_same w : wifi_task (asked w) = wifi_task w /\ wifi_running (asked w) = wifi_running w /\
  wifi_process_exit (asked w) = wifi_process_exit w /\ files (asked w) = files w /\ log (asked w) = log w.
Proof. unfold asked. by destruct (wifi_request_reset w). Qed.

Lemma turned_delay E w w1 w2 : turned E w w1 -> keep w1 w2 [] -> files w2 = files w1 -> turned E w w2.
Proof.
  intros (l & Hr & Hl & Ha & ? & ? & ? & ?) [] F. exists l. rewrite app_nil_r in k_log.
  rewrite k_state, k_deadline, F. split_and!; congruence || done.
Qed.

Lemma turn_ok E w (Q : unit -> world -> Prop) : steady E -> nohang E ->
  (forall w', turned E (asked w) w' -> Q tt w') -> wp (wifi_turn E) w Q.
Proof.
  intros HS HN HQ. unfold wifi_turn. apply ewp_bind, wp_gets. apply ewp_bind.
  assert (Hasked : wp (if wifi_request_reset w then modify (set_request false);; wifi_set_state E WIFI_STATE_RESET 0 else ret tt) w
    (fun _ w' => w' = asked w)).
  { unfold asked. by destruct (wifi_request_reset w). }
  eapply ewp_mono; [exact Hasked | ]. intros _ w1 ->. apply ewp_bind, wp_gets, ewp_bind.
  assert (Hend : forall w2, turned E (asked w) w2 -> wp (time_delay_ms E WIFI_LOOP_DELAY_MS) w2 Q).
  { intros w2 H2. apply (sp_delay _ HS). intros w3 K3 F3. eapply HQ, turned_delay; done. }
  destruct (wifi_state (asked w)) eqn:Hs;
    [apply init_turn | apply reset_turn | apply provisioning_turn | apply connecting_turn | apply ipsetup_turn | apply connected_turn]; done.
Qed.

(** C12: In its loop the manager follows its table: a turn ends, goes along a row of
    [turn_row] from the state it is in, RESET if a request was pending, arms the
    deadline of a state it enters, and leaves no request.  In particular it stays
    in CONNECTING or IPSETUP only before the deadline; with an address it commits
    the configuration on trial unless that cannot be opened or the file system
    refuses to rename it; and a configuration on trial with which wpa_supplicant
    does not start is tried again by the next turn. *)
Theorem manager_follows_table E w : steady E -> nohang E ->
  wifi_task w = Some Looping -> wifi_process_exit w = false ->
  exists w' l, wifi_thread E w = Done tt w' /\ log w' = log w ++ l /\
    turn_row E (wifi_state_deadline (asked w)) (files w) (wifi_state (asked w)) l (wifi_state w') (files w') /\
    (armed E (wifi_state w') (wifi_state_deadline w') \/
     wifi_state w' = wifi_state (asked w) /\ wifi_state_deadline w' = wifi_state_deadline (asked w)) /\
    wifi_request_reset w' = false /\ wifi_task w' = Some Looping /\ wifi_running w' = wifi_running w.
Proof.
  intros HS HN Ht Hx.
  destruct (wp_total (wifi_thread E) w (fun _ w' => turned E (asked w) w') (keeps_thread E)) as ([] & w' & Hw & l & Hr & Hl & Ha & H1 & H2 & H3 & H4).
  { unfold wifi_thread. ewp_pure. rewrite Ht. ewp_pure. rewrite Hx. by apply turn_ok. }
  destruct (asked_same w) as (A1 & A2 & A3 & A4 & A5). rewrite A4 in Hr.
  exists w', l. rewrite (asked_request w) in H4. split_and!; congruence || done.
Qed.

(* ------------------------------------------------------------------ *)
(** ** Commits *)

(** How far the configuration on trial has come: wpa_supplicant runs with it, it
    has a link, it has an address.  Writing it anew or stopping the daemons starts
    over; it may then be there and not be opened, and something else is started. *)
Inductive trial : Type := Untried | Unread | Started | Linked | Addressed.
Definition after_act (t : trial) (a : act) : trial :=
  match a with
  | ARun cmd ok =>
      if bool_decide (cmd = CMD_KILL_ALL) then Untried else
      if bool_decide (cmd = cmd_wpa WIFI_WPASUP_TRY_CONF) && ok then Started else t
  | AUnread cfg => match t with Untried => if bool_decide (cfg = WIFI_WPASUP_TRY_CONF) then Unread else Untried | _ => t end
  | ALink up => match t, up with Untried, _ => Untried | Unread, _ => Unread | Started, true => Linked | _, false => Started | _, true => t end
  | AAddr set => match t, set with Linked, true => Addressed | Addressed, false => Linked | _, _ => t end
  | ACommit => Untried
  | AWrite cfg => if bool_decide (cfg = WIFI_WPASUP_TRY_CONF) then Untried else t
  end.
Definition tried (t : trial) (l : list act) : trial := fold_left after_act l t.
(** Every commit comes when link and address have been seen, or when what is
    committed could not be opened when the daemons were started. *)
Fixpoint tested (t : trial) (l : list act) : Prop :=
  match l with [] => True | a :: l' => (a = ACommit -> t = Addressed \/ t = Unread) /\ tested (after_act t a) l' end.

Lemma tried_app t l1 l2 : tried t (l1 ++ l2) = tried (tried t l1) l2.
Proof. apply fold_left_app. Qed.
Lemma tested_app t l1 l2 : tested t (l1 ++ l2) <-> tested t l1 /\ tested (tried t l1) l2.
Proof. revert t. induction l1 as [|a l1 IH]; intros t; cbn; [tauto | ]. rewrite IH. tauto. Qed.
Lemma no_commit_tested t l : ACommit ∉ l -> tested t l.
Proof.
  revert t. induction l as [|a l IH]; intros t Hl; [done | ]. apply not_elem_of_cons in Hl as [Ha Hl]. split; [congruence | by apply IH].
Qed.

Lemma other_command t cmd ok : cmd <> CMD_KILL_ALL -> cmd <> cmd_wpa WIFI_WPASUP_TRY_CONF -> after_act t (ARun cmd ok) = t.
Proof. intros H1 H2. cbn. by rewrite !bool_decide_eq_false_2. Qed.
Ltac differ := match goal with |- not ?P => refine (bool_decide_eq_false_1 P _) end; vm_compute; reflexivity.
Lemma after_kill_udhcpc t ok : after_act t (ARun CMD_KILL_UDHCPC ok) = t.
Proof. apply other_command; differ. Qed.
Lemma after_udhcpc t ok : after_act t (ARun cmd_udhcpc ok) = t.
Proof. apply other_command; differ. Qed.
Lemma after_wpa_try t : after_act t (ARun (cmd_wpa WIFI_WPASUP_TRY_CONF) true) = Started.
Proof. cbn [after_act]. rewrite (bool_decide_eq_false_2 (_ = CMD_KILL_ALL)) by differ. by rewrite bool_decide_eq_true_2. Qed.
Lemma housekeeping_quiet l : housekeeping l -> ACommit ∉ l.
Proof. intros (a & b & c & d & ->). rewrite !not_elem_of_cons. split_and!; try done. apply not_elem_of_nil. Qed.
Lemma housekeeping_over t l : housekeeping l -> tried t l = Untried.
Proof.
  intros (a & b & c & d & ->). unfold tried. cbn [fold_left]. rewrite !other_command by differ.
  cbn [after_act]. by rewrite bool_decide_eq_true_2.
Qed.
Lemma looked_quiet f p b l : looked f p b l -> ACommit ∉ l.
Proof.
  intros [[_ ->] | (_ & -> & _)]; [apply not_elem_of_nil | ]. apply not_elem_of_cons. split; [done | apply not_elem_of_nil].
Qed.
Lemma ap_quiet E l ok : ap_acts E l ok -> ACommit ∉ l.
Proof.
  intros [[-> _] | [[[a ->] _] | [a ->]]]; rewrite ?not_elem_of_cons; split_and?; try done; apply not_elem_of_nil.
Qed.

(** What a state knows of the trial while its configuration is there. *)
Definition knows (s : wifi_st) (t : trial) : Prop :=
  match s with
  | WIFI_STATE_CONNECTING => t = Started \/ t = Linked \/ t = Unread
  | WIFI_STATE_IPSETUP => t = Linked \/ t = Unread
  | _ => True
  end.

(** The file [conf] after a turn: as it was, or what was on trial. *)
Definition conf_kept (f f' : gmap text text) (l : list act) : Prop :=
  f' !! WIFI_WPASUP_CONF = f !! WIFI_WPASUP_CONF \/
  (exists l0, l = l0 ++ [ACommit]) /\ names f WIFI_WPASUP_TRY_CONF /\ f' !! WIFI_WPASUP_CONF = f !! WIFI_WPASUP_TRY_CONF.
Lemma conf_is_not_try : WIFI_WPASUP_CONF <> WIFI_WPASUP_TRY_CONF.
Proof. differ. Qed.
Lemma dropped_conf E f f' l : dropped E f f' -> conf_kept f f' l.
Proof. intros [-> | [-> _]]; left; [ | done]. apply lookup_delete_ne. intros He. by apply conf_is_not_try. Qed.

(** A configuration on trial that was passed over was not opened. *)
Lemma passed_over f t l : looked f WIFI_WPASUP_TRY_CONF false l -> names f WIFI_WPASUP_TRY_CONF ->
  l = [AUnread WIFI_WPASUP_TRY_CONF] /\ tried t l = (match t with Untried => Unread | _ => t end).
Proof.
  intros [[Hx _] | (_ & -> & _)] Hn; [by apply Hx in Hn | ]. split; [done | ].
  unfold tried. cbn [fold_left after_act]. by rewrite bool_decide_eq_true_2.
Qed.

Lemma row_tests E d f s l s' f' t : turn_row E d f s l s' f' -> (names f WIFI_WPASUP_TRY_CONF -> knows s t) ->
  tested t l /\ (names f' WIFI_WPASUP_TRY_CONF -> knows s' (tried t l)) /\ conf_kept f f' l.
Proof.
  intros Hr Hk. assert (Hsame : forall l, conf_kept f f l) by by left.
  assert (Hq : forall l l' x, ACommit ∉ l -> ACommit ∉ l' -> x <> ACommit -> tested t (l ++ l' ++ [x])).
  { intros l0 l1 x H0 H1 Hx. apply no_commit_tested. rewrite !not_elem_of_app, not_elem_of_cons.
    split_and!; [done | done | congruence | apply not_elem_of_nil]. }
  destruct Hr as [ | | l ok Hl Hn | l l1 ok Hl H1 _ | l l1 l2 l' ok f' Hl H1 H2 Ha Ho | l Hl | | a b | | f' _ Hd
    | l Hl | c Hn Hc | | | a b f' _ _ Hd | a b l _ Hl | | | ].
  all: try (split; [by apply no_commit_tested; rewrite ?not_elem_of_cons; split_and?; try done; apply not_elem_of_nil | ];
            split; [done | by (done || eapply dropped_conf)]).
  - split_and!; [ | | done].
    + apply (Hq l []); [by apply housekeeping_quiet | apply not_elem_of_nil | done].
    + intros _. rewrite tried_app. destruct ok; [ | done]. left. apply after_wpa_try.
  - split_and!; [ | | done].
    + apply Hq; [by apply housekeeping_quiet | by eapply looked_quiet | done].
    + intros Hn. destruct ok; [ | done]. right. right.
      rewrite !tried_app, (housekeeping_over t l Hl). destruct (passed_over f Untried l1 H1 Hn) as [_ ->]. cbn [tried fold_left].
      apply other_command; differ.
  - assert (Hf : forall p, p ∉ AP_FILES -> f' !! p = f !! p) by exact Ho. split_and!.
    + apply no_commit_tested. rewrite !not_elem_of_app. split_and!; [by apply housekeeping_quiet | by eapply looked_quiet.. | by eapply ap_quiet].
    + intros _. by destruct ok.
    + left. apply Hf. differ.
  - split_and!; [by eapply no_commit_tested, looked_quiet | done | done].
  - split_and!; [by apply no_commit_tested; rewrite !not_elem_of_cons; split_and!; try done; apply not_elem_of_nil | | done].
    intros Hf. unfold tried. cbn [fold_left]. rewrite after_udhcpc, after_kill_udhcpc.
    destruct (Hk Hf) as [-> | [-> | ->]]; [by left | by left | by right].
  - split_and!; [by apply no_commit_tested; rewrite !not_elem_of_cons; split_and!; try done; apply not_elem_of_nil | | done].
    intros Hf. destruct (Hk Hf) as [-> | [-> | ->]]; cbn; auto.
  - split_and!; [ | done | done]. apply no_commit_tested. apply not_elem_of_cons. split; [done | by eapply looked_quiet].
  - specialize (Hk Hn). cbn in Hk. split; [ | split].
    + destruct Hk as [-> | ->]; cbn; naive_solver.
    + done.
    + right. split_and!; [by exists [AAddr true] | done | ]. by rewrite lookup_insert_eq.
  - split_and!; [by apply no_commit_tested; rewrite !not_elem_of_cons; split_and!; try done; apply not_elem_of_nil | | done].
    intros Hf. destruct (Hk Hf) as [-> | ->]; cbn; auto.
  - split_and!; [ | | done].
    + apply no_commit_tested. rewrite not_elem_of_app, !not_elem_of_cons.
      split_and!; try done; [apply not_elem_of_nil | by eapply looked_quiet].
    + intros Hf. rewrite tried_app. unfold tried at 2. cbn [fold_left].
      rewrite after_kill_udhcpc, other_command by differ.
      destruct (passed_over f (after_act t (AAddr false)) l Hl Hf) as [_ ->].
      destruct (Hk Hf) as [-> | ->]; cbn; auto.
Qed.

(** Between calls and turns: who runs, what the state knows of the trial, and that
    commits were tested. *)
Record inv (w : world) : Prop := Inv {
  i_exit : wifi_process_exit w = false;
  i_task : match wifi_task w with
           | None => wifi_running w = false /\ wifi_state w = WIFI_STATE_INIT
           | Some Created => wifi_running w = true /\ wifi_state w = WIFI_STATE_INIT
           | Some Looping => wifi_running w = true
           end;
  i_knows : wifi_request_reset w = false -> names (files w) WIFI_WPASUP_TRY_CONF -> knows (wifi_state w) (tried Untried (log w));
  i_tested : tested Untried (log w) }.

Lemma inv_turned E w w' : inv w -> wifi_task w = Some Looping -> turned E (asked w) w' ->
  inv w' /\ exists l, log w' = log w ++ l /\ conf_kept (files w) (files w') l.
Proof.
  intros [] Ht (l & Hr & Hl & _ & H1 & H2 & H3 & H4). destruct (asked_same w) as (A1 & A2 & A3 & A4 & A5).
  rewrite A4 in Hr. rewrite A5 in Hl. eapply (row_tests _ _ _ _ _ _ _ (tried Untried (log w))) in Hr as (Hc & Hk & Hf).
  - split; [ | by exists l]. split.
    + congruence.
    + rewrite H1, A1, Ht. rewrite Ht in i_task0. congruence.
    + intros _ Hn. rewrite Hl, tried_app. by apply Hk.
    + rewrite Hl. by apply tested_app.
  - unfold asked. intros Hn. destruct (wifi_request_reset w) eqn:Hq; [exact I | ]. by apply i_knows0.
Qed.

(** What the thread does before its loop. *)
Lemma created_ok E w (Q : unit -> world -> Prop) : wifi_task w = Some Created ->
  (forall w', wifi_task w' = Some Looping -> wifi_running w' = wifi_running w -> wifi_process_exit w' = wifi_process_exit w ->
    wifi_state w' = WIFI_STATE_INIT -> log w' = log w -> dropped E (files w) (files w') -> Q tt w') -> wp (wifi_thread E) w Q.
Proof.
  intros Ht HQ. unfold wifi_thread. ewp_pure. rewrite Ht. apply ewp_bind, sp_remove_try. intros w1 [] F1.
  apply ewp_bind, sp_set_state. intros n w2 []. ewp_pure. rewrite app_nil_r in k_log.
  apply HQ; cbn; congruence.
Qed.

(** A step of the thread. *)
Lemma inv_thread E w (Q : unit -> world -> Prop) : steady E -> nohang E -> inv w ->
  (forall w' l, inv w' -> log w' = log w ++ l -> conf_kept (files w) (files w') l -> Q tt w') -> wp (wifi_thread E) w Q.
Proof.
  intros HS HN I HQ. pose proof I as []. destruct (wifi_task w) as [[]|] eqn:Ht.
  - apply created_ok; [done | ]. intros w' H1 H2 H3 H4 H5 H6.
    apply (HQ _ []); [ | by rewrite app_nil_r | by eapply dropped_conf].
    destruct i_task0. split; [congruence | rewrite H1; congruence | intros _ _; by rewrite H4 | by rewrite H5].
  - unfold wifi_thread. ewp_pure. rewrite Ht. ewp_pure. rewrite i_exit0. apply turn_ok; [done | done | ].
    intros w' H. destruct (inv_turned E w w' I Ht H) as (I' & l & Hl & Hf). by eapply HQ.
  - unfold wifi_thread. ewp_pure. rewrite Ht. ewp_pure. by apply (HQ w []); [ | rewrite app_nil_r | left].
Qed.

(** A call leaves the state alone; if it wrote a configuration it asks for a
    reset. *)
Lemma inv_keep w w' : inv w -> keep w w' [] -> (names (files w') WIFI_WPASUP_TRY_CONF -> names (files w) WIFI_WPASUP_TRY_CONF) -> inv w'.
Proof.
  intros [] [] Hn. rewrite app_nil_r in k_log. split.
  - congruence.
  - by rewrite k_task, k_running, k_state.
  - rewrite k_request, k_state, k_log. auto.
  - by rewrite k_log.
Qed.
Lemma request_ok w w' l (Q : unit -> world -> Prop) : inv w -> keep w w' l -> ACommit ∉ l ->
  (forall w'', inv w'' -> Q tt w'') -> wp request_reset w' Q.
Proof.
  intros [] [] Hl HQ. unfold request_reset. ewp_pure.
  assert (Ht : tested Untried (log w')) by (rewrite k_log; apply tested_app; split; [done | by apply no_commit_tested]).
  destruct (wifi_running w') eqn:Hr; ewp_pure; apply HQ; split; unfold set_request;
    cbn [wifi_task wifi_running wifi_process_exit wifi_request_reset wifi_state files log]; try done; try congruence.
  - rewrite k_task, k_state. rewrite k_running in Hr. by rewrite Hr in *.
  - rewrite k_task, k_state. rewrite k_running in Hr. by rewrite Hr in *.
  - rewrite k_state. rewrite k_running in Hr. destruct (wifi_task w) as [[]|]; [by destruct i_task0; congruence | congruence | ].
    by destruct i_task0 as [_ ->].
Qed.

Lemma an_init_ok E w : inv w -> wp (app_wifi_init E) w (fun _ w' => inv w').
Proof.
  intros I. pose proof I as []. unfold app_wifi_init. ewp_pure. destruct (wifi_running w) eqn:Hr; ewp_pure; [done | ].
  apply ewp_bind, sp_tick. intros w1 [] F1. cbn in k_task, k_running, k_exit, k_request, k_state. rewrite app_nil_r in k_log.
  destruct (e_task E _); ewp_pure; split; unfold set_task, set_running;
    cbn [wifi_task wifi_running wifi_process_exit wifi_request_reset wifi_state files log]; rewrite ?k_state, ?k_log; try done; by split; congruence.
Qed.

Lemma deinit_ok E w : inv w -> wp (app_wifi_deinit E) w (fun _ w' => inv w').
Proof.
  intros I. pose proof I as []. unfold app_wifi_deinit. ewp_pure. destruct (wifi_running w) eqn:Hr; cbn [negb]; ewp_pure; [ | done].
  assert (Hend : forall w1, wifi_task w1 = Some Looping -> wifi_process_exit w1 = true -> log w1 = log w -> wp (wifi_thread E) w1 (fun _ w' =>
    wp (modify (fun w => set_st WIFI_STATE_INIT (wifi_state_deadline w) (set_request false (set_exit false (set_running false w)))) ;; ret true) w'
      (fun _ w'' => inv w''))).
  { intros w1 H1 H2 H3. unfold wifi_thread. ewp_pure. rewrite H1. ewp_pure. rewrite H2. ewp_pure. split; cbn; try done. by rewrite H3. }
  cbn [set_exit wifi_task]. destruct (wifi_task w) as [[]|] eqn:Ht; [ | by apply ewp_bind, Hend | by destruct i_task0; congruence].
  apply ewp_bind, ewp_bind, created_ok; [done | ]. intros w' H1 _ H2 _ H3 _. by apply Hend.
Qed.

Lemma provision_ok E ssid pw w : inv w -> wp (app_wifi_provision E ssid pw) w (fun _ w' => inv w').
Proof.
  intros I. unfold app_wifi_provision.
  assert (Hclear : wp (unlink E WIFI_WPASUP_CONF;; wifi_remove_try_conf E;; request_reset;; ret true) w (fun _ w' => inv w')).
  { apply ewp_bind, sp_unlink. intros r w1 K1 F1 _. apply ewp_bind, sp_remove_try. intros w2 K2 F2.
    apply ewp_bind. eapply request_ok; [exact I | by eapply keep_trans_l | apply not_elem_of_nil | ]. intros w3 I3. by ewp_pure. }
  destruct ssid as [[|b ssid]|]; [exact Hclear | | exact Hclear]. clear Hclear.
  apply ewp_bind, sp_remove_try. intros w1 K1 F1. apply ewp_bind, sp_write_conf; [differ | | ].
  - intros w2 K2 O2 _. cbn [negb]. ewp_pure. eapply inv_keep; [exact I | by eapply keep_trans_l | ].
    intros (c & Hc & Hn). rewrite O2 in Hc by differ. exists c. split; [ | done].
    destruct F1 as [F1 | [F1 _]]; rewrite F1 in Hc; [ | done]. by rewrite lookup_delete_eq in Hc.
  - intros n w2 _ K2 O2 Hf. cbn [negb]. apply ewp_bind.
    eapply (request_ok w w2); [exact I | by eapply keep_trans_l | by apply not_elem_of_cons; split; [done | apply not_elem_of_nil] | ].
    intros w3 I3. by ewp_pure.
Qed.

Lemma fallsafe_ok E ssid pw w : inv w -> wp (app_wifi_provision_fallsafe E ssid pw) w (fun _ w' => inv w').
Proof.
  intros I. unfold app_wifi_provision_fallsafe.
  assert (Hclear : wp (wifi_remove_try_conf E;; request_reset;; ret true) w (fun _ w' => inv w')).
  { apply ewp_bind, sp_remove_try. intros w2 K2 F2.
    apply ewp_bind. eapply request_ok; [exact I | exact K2 | apply not_elem_of_nil | ]. intros w3 I3. by ewp_pure. }
  destruct ssid as [[|b ssid]|]; [exact Hclear | | exact Hclear]. clear Hclear.
  apply ewp_bind, sp_write_conf; [differ | | ].
  - intros w2 K2 O2 _. cbn [negb]. ewp_pure. eapply inv_keep; [exact I | exact K2 | ].
    intros (c & Hc & Hn). rewrite O2 in Hc by differ. by exists c.
  - intros n w2 _ K2 O2 Hf. cbn [negb]. apply ewp_bind.
    eapply (request_ok w w2); [exact I | exact K2 | by apply not_elem_of_cons; split; [done | apply not_elem_of_nil] | ].
    intros w3 I3. by ewp_pure.
Qed.

Lemma inv_step E e w : steady E -> nohang E -> inv w -> wp (step E e) w (fun _ w' => inv w').
Proof.
  intros HS HN I. destruct e; cbn [step].
  - apply ewp_bind. eapply ewp_mono; [by apply an_init_ok | ]. intros r w' I'. by ewp_pure.
  - apply ewp_bind. eapply ewp_mono; [by apply deinit_ok | ]. intros r w' I'. by ewp_pure.
  - apply ewp_bind. eapply ewp_mono; [by apply provision_ok | ]. intros r w' I'. by ewp_pure.
  - apply ewp_bind. eapply ewp_mono; [by apply fallsafe_ok | ]. intros r w' I'. by ewp_pure.
  - apply (request_ok w w []); [done | apply keep_refl | apply not_elem_of_nil | done].
  - by eapply inv_thread.
Qed.
Lemma inv_run E l w : steady E -> nohang E -> inv w -> wp (run E l) w (fun _ w' => inv w').
Proof.
  intros HS HN. revert w. induction l as [|e l IH]; intros w I; cbn [run]; [by ewp_pure | ].
  apply ewp_bind. eapply ewp_mono; [by apply inv_step | ]. intros u w' I'. by apply IH.
Qed.

(** Before anything: no thread, any files, nothing done. *)
Definition fresh (f : gmap text text) (now : Z) : world := World None false false false WIFI_STATE_INIT 0 f [] 0 now [].

(** C13: Whatever is called and however the system answers, every commit comes when
    wpa_supplicant runs with the configuration on trial as it was last written,
    has a link and an address, or, on record, when that configuration was there
    and could not be opened the last time the daemons were stopped, so that
    something else was started; and the thread changes the saved configuration
    only by a commit, to what was on trial. *)
Theorem commits_only_tested E f now l : steady E -> nohang E ->
  exists w w' l', run E l (fresh f now) = Done tt w /\ wifi_thread E w = Done tt w' /\
    tested Untried (log w) /\ log w' = log w ++ l' /\ tested Untried (log w') /\ conf_kept (files w) (files w') l'.
Proof.
  intros HS HN. assert (I0 : inv (fresh f now)) by by split.
  destruct (wp_total _ _ _ (keeps_an_run E l) (inv_run E l _ HS HN I0)) as ([] & w & Hw & I).
  destruct (wp_total (wifi_thread E) w (fun _ w' => exists l', inv w' /\ log w' = log w ++ l' /\ conf_kept (files w) (files w') l') (keeps_thread E))
    as ([] & w' & Hw' & l' & I' & Hl & Hf); [apply inv_thread; eauto | ].
  exists w, w', l'. split_and!; [done | done | apply I | done | apply I' | done].
Qed.

(* ------------------------------------------------------------------ *)
(** ** Provisioning and commands *)





(** A command takes at most 11.2 seconds and what six delays or readings of the
    clock are late: it is run to its end, or killed.  It changes nothing else, and
    its process is reaped unless the kill has no effect within a second or waiting
    fails. *)
Theorem commands_end E L w cmd : 0 <= L <= LATEST -> late_by L E -> nohang E ->
  exists ok w', wifi_run E cmd w = Done (if ok : bool then 0 else -1) w' /\ log w' = log w ++ [ARun cmd ok] /\ same w w' /\
    reaped w w' ok /\ now_ms w' <= now_ms w + 11200 + 6 * L.
Proof.
  intros HL HS HN.
  destruct (wp_total (wifi_run E cmd) w (fun r w' => exists ok : bool, r = (if ok then 0 else -1) /\ log w' = log w ++ [ARun cmd ok] /\
    same w w' /\ reaped w w' ok /\ now_ms w' <= now_ms w + 11200 + 6 * L)) as (r & w' & Hw & ok & -> & H); [by apply keeps_wifi_run | | by exists ok, w'].
  eapply wifi_run_full; [exact HL | exact HS | done | ]. intros ok w' H1 H2 H3 H4. by exists ok.
Qed.

(* ------------------------------------------------------------------ *)
(** ** Witnesses *)

(** A system on which all goes well, but for [waitpid], which has no child the
    first time it is asked. *)
Definition well : env := {|
  e_fork := fun _ => 100; e_wait := fun n => if (n mod 2 =? 0)%nat then inr None else inr (Some (true, 0));
  e_late := fun n => Z.of_nat (n mod 3); e_time := Z.of_nat; e_iface := fun _ => true;
  e_status := fun _ => Some (lit "wpa_state=COMPLETED" ++ LF); e_addr := fun _ => 1; e_mac := fun _ => Some (lit "02:00:00:00:ab:cd");
  e_open := fun _ => true; e_read := fun _ => true; e_put := fun _ => true; e_room := fun _ => 4096%nat;
  e_move := fun _ => true; e_task := fun _ => true |}.
Lemma well_late : late_by 2 well.
Proof. intros n. cbn. pose proof (Nat.mod_upper_bound n 3). lia. Qed.
Lemma well_steady : steady well.
Proof. intros n. pose proof (well_late n). unfold LATEST. lia. Qed.
Lemma well_nohang : nohang well.
Proof. intros n. unfold well, e_wait. by destruct (n mod 2 =? 0)%nat. Qed.

Definition home : text := lit "home".
Definition home_pass : option text := Some (lit "correct horse").
Definition getting_address : world :=
  World (Some Looping) true false false WIFI_STATE_IPSETUP 30 {[WIFI_WPASUP_TRY_CONF := provision_conf home home_pass]} [] 0 0 [].

(** Whether what was printed reaches the file is not looked at: on a full disk the
    saved configuration is replaced by an empty one, and success reported. *)
Definition full_disk (E : env) : env :=
  Env (e_fork E) (e_wait E) (e_late E) (e_time E) (e_iface E) (e_status E) (e_addr E) (e_mac E) (e_open E) (e_read E) (e_put E)
    (fun _ => 0%nat) (e_move E) (e_task E).
Lemma full_disk_empties_conf : exists w',
  app_wifi_provision (full_disk well) (Some (lit "other")) None (fresh {[WIFI_WPASUP_CONF := provision_conf home home_pass]} 0) = Done true w' /\
  files w' !! WIFI_WPASUP_CONF = Some [].
Proof. eexists. split; vm_compute; reflexivity. Qed.

(** One failing [fopen]: the configuration on trial is passed over when the
    daemons are started, and committed on the link of the saved one, though
    wpa_supplicant never ran with it. *)
Definition unread_once (E : env) (k : nat) : env :=
  Env (e_fork E) (e_wait E) (e_late E) (e_time E) (e_iface E) (e_status E) (e_addr E) (e_mac E) (e_open E)
    (fun n => negb (n =? k)%nat) (e_put E) (e_room E) (e_move E) (e_task E).
Definition a_change : list event :=
  [EvInit; EvThread; EvThread; EvFallsafe (Some home) home_pass; EvThread; EvThread; EvThread].
Lemma unread_trial_is_committed : exists w,
  run (unread_once well 25) a_change (fresh {[WIFI_WPASUP_CONF := provision_conf (lit "old") None]} 0) = Done tt w /\
  last (log w) = Some ACommit /\ files w !! WIFI_WPASUP_CONF = Some (provision_conf home home_pass) /\
  forallb (fun a => match a with ARun c _ => negb (bool_decide (c = cmd_wpa WIFI_WPASUP_TRY_CONF)) | _ => true end) (log w) = true.
Proof. eexists. split_and!; vm_compute; reflexivity. Qed.

(** A configuration put on trial before the thread has begun is removed by it. *)
Lemma early_trial_is_lost : exists w, run well [EvInit; EvFallsafe (Some home) home_pass; EvThread] (fresh ∅ 0) = Done tt w /\
  files w !! WIFI_WPASUP_TRY_CONF = None.
Proof. eexists. split; vm_compute; reflexivity. Qed.

Lemma manager_follows_table_witness : exists w' l, wifi_thread well getting_address = Done tt w' /\ log w' = [] ++ l /\
  turn_row well 30 (files getting_address) WIFI_STATE_IPSETUP l (wifi_state w') (files w') /\ wifi_state w' = WIFI_STATE_CONNECTED.
Proof.
  destruct (manager_follows_table well getting_address well_steady well_nohang eq_refl eq_refl)
    as (w' & l & Hw & Hl & Hr & _).
  exists w', l. split_and!; [exact Hw | exact Hl | exact Hr | ]. vm_compute in Hw. by injection Hw as <-.
Defined.

(** Provisioned on trial while it runs, connected and committed. *)
Definition a_life : list event :=
  [EvInit; EvThread; EvThread; EvThread; EvFallsafe (Some home) home_pass; EvThread; EvThread].
Lemma commits_only_tested_witness : exists w w' l', run well a_life (fresh ∅ 0) = Done tt w /\ wifi_thread well w = Done tt w' /\
  tested Untried (log w') /\ log w' = log w ++ l' /\ l' = [AAddr true; ACommit] /\ conf_kept (files w) (files w') l' /\
  names (files w') WIFI_WPASUP_CONF.
Proof.
  destruct (commits_only_tested well ∅ 0 a_life well_steady well_nohang) as (w & w' & l' & Hw & Hw' & _ & Hl & Ht & Hf).
  exists w, w', l'. vm_compute in Hw. injection Hw as <-. split_and!; [vm_compute; reflexivity | exact Hw' | exact Ht | exact Hl | | exact Hf | ].
  - vm_compute in Hw'. injection Hw' as <-. cbn [log] in Hl. by injection Hl as <-.
  - vm_compute in Hw'. injection Hw' as <-. eexists. split; vm_compute; reflexivity.
Defined.


Lemma commands_end_witness : exists ok w', wifi_run well cmd_flush getting_address = Done (if ok : bool then 0 else -1) w' /\
  log w' = [ARun cmd_flush ok] /\ ok = true /\ children w' = [] /\ now_ms w' <= 0 + 11200 + 6 * 2.
Proof.
  destruct (commands_end well 2 getting_address cmd_flush) as (ok & w' & Hw & Hl & _ & _ & Hn);
    [by vm_compute | exact well_late | exact well_nohang | ].
  exists ok, w'. vm_compute in Hw. destruct ok; [ | by injection Hw]. injection Hw as <-. split_and!; [ | | done | done | exact Hn]; by vm_compute.
Defined.
