(* ===== verification/RbTree.v ===== *)
(** RbTree: the red-black tree of compat/openbsd/sys/tree.h, as RB_GENERATE
    instantiates it: nodes in memory with pointers to children and parent.  The
    two mirror halves of a macro are one definition over a side. *)

From stdpp Require Import gmap.
From S2P Require Import Prelude Eff.

Open Scope eff_scope.

(** A node's address; [NULL] is [None]. *)
Definition loc : Type := Z.
Inductive color : Type := RB_BLACK | RB_RED.
Definition is_black (c : color) : bool := match c with RB_BLACK => true | RB_RED => false end.

(** [RB_ENTRY], and the head with the nodes in memory, in the tree or not. *)
Record node : Type := Node { rbe_left : option loc; rbe_right : option loc; rbe_parent : option loc; rbe_color : color }.
Record heap : Type := Heap { rbh_root : option loc; nodes : gmap loc node }.
Definition R (A : Type) : Type := comp heap A.

(** Fields of a node; through [NULL] or a pointer to nothing it is undefined. *)
Definition fld {A} (f : node -> A) (x : loc) : R A :=
  do h <- gets nodes; match h !! x with Some n => ret (f n) | None => ub end.
Definition upd (f : node -> node) (x : loc) : R unit :=
  do h <- gets nodes;
  match h !! x with Some n => modify (fun s => Heap (rbh_root s) (<[x := f n]> h)) | None => ub end.
Definition RB_LEFT : loc -> R (option loc) := fld rbe_left.
Definition RB_RIGHT : loc -> R (option loc) := fld rbe_right.
Definition RB_PARENT : loc -> R (option loc) := fld rbe_parent.
Definition RB_COLOR : loc -> R color := fld rbe_color.
Definition set_left (x : loc) (v : option loc) : R unit := upd (fun n => Node v (rbe_right n) (rbe_parent n) (rbe_color n)) x.
Definition set_right (x : loc) (v : option loc) : R unit := upd (fun n => Node (rbe_left n) v (rbe_parent n) (rbe_color n)) x.
Definition set_parent (x : loc) (v : option loc) : R unit := upd (fun n => Node (rbe_left n) (rbe_right n) v (rbe_color n)) x.
Definition set_color (x : loc) (c : color) : R unit := upd (fun n => Node (rbe_left n) (rbe_right n) (rbe_parent n) c) x.
Definition set_root (v : option loc) : R unit := modify (fun s => Heap v (nodes s)).
(** The child on a side, [true] for the right. *)
Definition child (d : bool) : loc -> R (option loc) := if d then RB_RIGHT else RB_LEFT.
Definition set_child (d : bool) : loc -> option loc -> R unit := if d then set_right else set_left.
(** If there is one. *)
Definition when (p : option loc) (k : loc -> R unit) : R unit := match p with Some x => k x | None => ret tt end.
Definition is_red (p : option loc) : R bool :=
  match p with Some x => do c <- RB_COLOR x; ret (negb (is_black c)) | None => ret false end.

Definition RB_SET (elm : loc) (parent : option loc) : R unit := upd (fun _ => Node None None parent RB_RED) elm.
Definition RB_SET_BLACKRED (black red : loc) : R unit := set_color black RB_BLACK;; set_color red RB_RED.

(** Where [parent] points at [elm] it points at [new]; the root when there is no
    parent. *)
Definition relink (parent : option loc) (elm : loc) (new : option loc) : R unit :=
  match parent with
  | Some p => do l <- RB_LEFT p; if bool_decide (l = Some elm) then set_left p new else set_right p new
  | None => set_root new
  end.

(** [RB_ROTATE_LEFT] for [false], [RB_ROTATE_RIGHT] for [true]. *)
Definition RB_ROTATE (d : bool) (elm : loc) : R unit :=
  do t <- child (negb d) elm; do tmp <- need t;
  do v <- child d tmp;
  set_child (negb d) elm v;;
  when v (fun y => set_parent y (Some elm));;
  do p <- RB_PARENT elm;
  set_parent tmp p;;
  relink p elm (Some tmp);;
  set_child d tmp (Some elm);;
  set_parent elm (Some tmp).

(** [RB_INSERT_COLOR]: one turn, with [parent] on side [d] of [gparent]; the
    [elm] of the next. *)
Definition insert_color_side (d : bool) (gparent parent elm : loc) : R loc :=
  do tmp <- child (negb d) gparent;
  do red <- is_red tmp;
  match tmp, red with
  | Some t, true => set_color t RB_BLACK;; RB_SET_BLACKRED parent gparent;; ret gparent
  | _, _ =>
      do c <- child (negb d) parent;
      do pe <- (if bool_decide (c = Some elm) then RB_ROTATE d parent;; ret (elm, parent) else ret (parent, elm));
      RB_SET_BLACKRED pe.1 gparent;;
      RB_ROTATE (negb d) gparent;;
      ret pe.2
  end.
Fixpoint insert_color_loop (fuel : nat) (elm : loc) : R unit :=
  do p <- RB_PARENT elm;
  match p with
  | None => ret tt
  | Some parent =>
      do c <- RB_COLOR parent;
      if is_black c then ret tt else
      match fuel with
      | O => deep
      | S fuel =>
          do g <- RB_PARENT parent; do gparent <- need g;
          do l <- RB_LEFT gparent;
          do elm' <- insert_color_side (negb (bool_decide (l = Some parent))) gparent parent elm;
          insert_color_loop fuel elm'
      end
  end.
Definition RB_INSERT_COLOR (elm : loc) : R unit :=
  do h <- gets nodes;
  insert_color_loop (size h) elm;;
  do r <- gets rbh_root; do root <- need r;
  set_color root RB_BLACK.

(** [RB_REMOVE_COLOR], with [elm] on side [d] of [parent] and [tmp] its sibling.
    The last rotation. *)
Definition remove_color_far (d : bool) (parent tmp : loc) : R unit :=
  do pc <- RB_COLOR parent;
  set_color tmp pc;;
  set_color parent RB_BLACK;;
  do far <- child (negb d) tmp;
  when far (fun x => set_color x RB_BLACK);;
  RB_ROTATE d parent.
(** With a black sibling: the [elm] and [parent] of the next turn, or [None] for
    the break. *)
Definition remove_color_black (d : bool) (parent tmp : loc) : R (option (option loc * option loc)) :=
  do near <- child d tmp; do nr <- is_red near;
  do far <- child (negb d) tmp; do fr <- is_red far;
  if negb nr && negb fr then
    set_color tmp RB_RED;;
    do pp <- RB_PARENT parent;
    ret (Some (Some parent, pp))
  else
    do tmp <- (if fr then ret tmp else
               do o <- child d tmp;
               when o (fun x => set_color x RB_BLACK);;
               set_color tmp RB_RED;;
               RB_ROTATE (negb d) tmp;;
               do t <- child (negb d) parent; need t);
    remove_color_far d parent tmp;;
    ret None.
(** One turn. *)
Definition remove_color_side (d : bool) (parent : loc) : R (option (option loc * option loc)) :=
  do t <- child (negb d) parent; do tmp <- need t;
  do c <- RB_COLOR tmp;
  do tmp <- (if is_black c then ret tmp else
             RB_SET_BLACKRED tmp parent;; RB_ROTATE d parent;; do t <- child (negb d) parent; need t);
  remove_color_black d parent tmp.
Fixpoint remove_color_loop (fuel : nat) (parent elm : option loc) : R (option loc) :=
  do red <- is_red elm; do root <- gets rbh_root;
  if red || bool_decide (elm = root) then ret elm else
  match fuel with
  | O => deep
  | S fuel =>
      do p <- need parent;
      do l <- RB_LEFT p;
      do x <- remove_color_side (negb (bool_decide (l = elm))) p;
      match x with
      | None => gets rbh_root
      | Some (elm', parent') => remove_color_loop fuel parent' elm'
      end
  end.
Definition RB_REMOVE_COLOR (parent elm : option loc) : R unit :=
  do h <- gets nodes;
  do e <- remove_color_loop (size h) parent elm;
  when e (fun x => set_color x RB_BLACK).

(** As far as it goes to a side. *)
Fixpoint extreme (fuel : nat) (d : bool) (x : loc) : R loc :=
  do c <- child d x;
  match c with
  | None => ret x
  | Some y => match fuel with O => deep | S fuel => extreme fuel d y end
  end.
(** [RB_AUGMENT], which is nothing, from a node to the root. *)
Fixpoint augment_up (fuel : nat) (x : loc) : R unit :=
  do p <- RB_PARENT x;
  match p with
  | None => ret tt
  | Some y => match fuel with O => deep | S fuel => augment_up fuel y end
  end.

(** [RB_REMOVE]: the parts before the label [color]. *)
Definition unlink (elm : loc) (child : option loc) : R (option loc * color) :=
  do parent <- RB_PARENT elm;
  do color <- RB_COLOR elm;
  when child (fun x => set_parent x parent);;
  relink parent elm child;;
  ret (parent, color).
Definition replace (old elm : loc) : R unit :=
  do f <- fld id old; upd (fun _ => f) elm;;
  do p <- RB_PARENT old;
  relink p old (Some elm);;
  do l <- RB_LEFT old; do l <- need l;
  set_parent l (Some elm);;
  do r <- RB_RIGHT old;
  when r (fun x => set_parent x (Some elm)).
(** With two children: the leftmost node on the right takes the place of
    [old]; the parent and colour of the hole it leaves, and its child. *)
Definition splice (old r : loc) : R (option loc * color * option loc) :=
  do h <- gets nodes;
  do elm <- extreme (size h) false r;
  do child <- RB_RIGHT elm;
  do pc <- unlink elm child;
  do pe <- RB_PARENT elm;
  let parent := if bool_decide (pe = Some old) then Some elm else pc.1 in
  replace old elm;;
  when parent (augment_up (size h));;
  ret (parent, pc.2, child).
Definition RB_REMOVE (old : loc) : R loc :=
  do l <- RB_LEFT old;
  do r <- RB_RIGHT old;
  do x <-
    match l, r with
    | None, _ => do pc <- unlink old r; ret (pc, r)
    | Some _, None => do pc <- unlink old l; ret (pc, l)
    | Some _, Some r => splice old r
    end;
  (if is_black x.1.2 then RB_REMOVE_COLOR x.1.1 x.2 else ret tt);;
  ret old.

Section Cmp.
(** The comparison of the client, which reads keys the tree does not touch. *)
Context (cmp : loc -> loc -> Z).

(** Down from [tmp]: the node with the same key, or where the search ends. *)
Fixpoint insert_search (fuel : nat) (elm : loc) (tmp parent : option loc) (comp : Z) : R (loc + option loc * Z) :=
  match tmp with
  | None => ret (inr (parent, comp))
  | Some x =>
      match fuel with
      | O => deep
      | S fuel =>
          let comp := cmp elm x in
          if comp <? 0 then do l <- RB_LEFT x; insert_search fuel elm l tmp comp
          else if 0 <? comp then do r <- RB_RIGHT x; insert_search fuel elm r tmp comp
          else ret (inl x)
      end
  end.
Definition RB_INSERT (elm : loc) : R (option loc) :=
  do h <- gets nodes;
  do root <- gets rbh_root;
  do s <- insert_search (S (size h)) elm root None 0;
  match s with
  | inl x => ret (Some x)
  | inr (parent, comp) =>
      RB_SET elm parent;;
      (match parent with
       | Some p => if comp <? 0 then set_left p (Some elm) else set_right p (Some elm)
       | None => set_root (Some elm)
       end);;
      RB_INSERT_COLOR elm;;
      ret None
  end.

Fixpoint find_loop (fuel : nat) (elm : loc) (tmp : option loc) : R (option loc) :=
  match tmp with
  | None => ret None
  | Some x =>
      match fuel with
      | O => deep
      | S fuel =>
          let comp := cmp elm x in
          if comp <? 0 then do l <- RB_LEFT x; find_loop fuel elm l
          else if 0 <? comp then do r <- RB_RIGHT x; find_loop fuel elm r
          else ret (Some x)
      end
  end.
Definition RB_FIND (elm : loc) : R (option loc) :=
  do h <- gets nodes; do root <- gets rbh_root; find_loop (S (size h)) elm root.
Fixpoint nfind_loop (fuel : nat) (elm : loc) (tmp res : option loc) : R (option loc) :=
  match tmp with
  | None => ret res
  | Some x =>
      match fuel with
      | O => deep
      | S fuel =>
          let comp := cmp elm x in
          if comp <? 0 then do l <- RB_LEFT x; nfind_loop fuel elm l tmp
          else if 0 <? comp then do r <- RB_RIGHT x; nfind_loop fuel elm r res
          else ret (Some x)
      end
  end.
Definition RB_NFIND (elm : loc) : R (option loc) :=
  do h <- gets nodes; do root <- gets rbh_root; nfind_loop (S (size h)) elm root None.
End Cmp.

(** [RB_NEXT] for [true], [RB_PREV] for [false]. *)
Fixpoint climb (fuel : nat) (d : bool) (elm : loc) : R (option loc) :=
  do p <- RB_PARENT elm;
  match p with
  | None => ret None
  | Some q =>
      do c <- child d q;
      if bool_decide (c = Some elm) then match fuel with O => deep | S fuel => climb fuel d q end
      else ret p
  end.
Definition RB_STEP (d : bool) (elm : loc) : R (option loc) :=
  do h <- gets nodes;
  do c <- child d elm;
  match c with
  | Some y => do x <- extreme (size h) (negb d) y; ret (Some x)
  | None =>
      do p <- RB_PARENT elm;
      do b <- match p with
              | Some q => do c <- child (negb d) q; ret (bool_decide (c = Some elm))
              | None => ret false
              end;
      if b then ret p else climb (size h) d elm
  end.
Definition RB_NEXT : loc -> R (option loc) := RB_STEP true.
Definition RB_PREV : loc -> R (option loc) := RB_STEP false.

(** [RB_MAX] for [true], [RB_MIN] for [false]. *)
Fixpoint minmax_loop (fuel : nat) (d : bool) (tmp parent : option loc) : R (option loc) :=
  match tmp with
  | None => ret parent
  | Some x => match fuel with O => deep | S fuel => do c <- child d x; minmax_loop fuel d c tmp end
  end.
Definition RB_MINMAX (d : bool) : R (option loc) :=
  do h <- gets nodes; do root <- gets rbh_root; minmax_loop (S (size h)) d root None.
