(* ===== verification/RbRep.v ===== *)
(** RbRep: the trees that stand in memory, with a hole where the code works; what
    the primitives of RbTree read and write there, and rotations; red-black trees,
    and what a context asks of the tree in its hole. *)

From stdpp Require Import gmap.
From S2P Require Import Prelude Eff RbTree.

Open Scope eff_scope.

(* ------------------------------------------------------------------ *)
(** ** Trees and contexts *)

Inductive tree : Type := Nil | T (c : color) (l : tree) (x : loc) (r : tree).
(** A node above the hole: the side the hole is on, colour, address, and the
    other subtree; the nearest first. *)
Inductive frame : Type := Fr (d : bool) (c : color) (x : loc) (s : tree).
Definition ctx : Type := list frame.

Definition root (t : tree) : option loc := match t with Nil => None | T _ _ x _ => Some x end.
(** A tree and a node with [a] on side [d]. *)
Definition nd (d : bool) (c : color) (a : tree) (x : loc) (b : tree) : tree := if d then T c b x a else T c a x b.
Definition mk (d : bool) (a b p : option loc) (c : color) : node := if d then Node b a p c else Node a b p c.
Fixpoint plug (t : tree) (k : ctx) : tree := match k with [] => t | Fr d c x s :: k' => plug (nd d c t x s) k' end.
Definition up (k : ctx) : option loc := match k with [] => None | Fr _ _ x _ :: _ => Some x end.
Fixpoint top (h : option loc) (k : ctx) : option loc := match k with [] => h | Fr _ _ x _ :: k' => top (Some x) k' end.

Lemma nd_flip d c a x b : nd (negb d) c a x b = nd d c b x a.
Proof. by destruct d. Qed.
Lemma root_nd d c a x b : root (nd d c a x b) = Some x.
Proof. by destruct d. Qed.
Lemma root_plug t k : root (plug t k) = top (root t) k.
Proof. revert t. induction k as [|[d c x s] k IH]; intros t; cbn; [done | ]. by rewrite IH, root_nd. Qed.
Lemma plug_app t k1 k2 : plug t (k1 ++ k2) = plug (plug t k1) k2.
Proof. revert t. induction k1 as [|[d c x s] k1 IH]; intros t; cbn; [done | apply IH]. Qed.

(** The order of the nodes. *)
Fixpoint inorder (t : tree) : list loc := match t with Nil => [] | T _ l x r => inorder l ++ x :: inorder r end.
Fixpoint before (k : ctx) : list loc :=
  match k with [] => [] | Fr d _ x s :: k' => before k' ++ if d then inorder s ++ [x] else [] end.
Fixpoint after (k : ctx) : list loc :=
  match k with [] => [] | Fr d _ x s :: k' => (if d then [] else x :: inorder s) ++ after k' end.
Lemma inorder_plug t k : inorder (plug t k) = before k ++ inorder t ++ after k.
Proof.
  revert t. induction k as [|[d c x s] k IH]; intros t; cbn [plug before after app]; [by rewrite app_nil_r | ].
  rewrite IH. destruct d; cbn [nd inorder]; by rewrite <- ?app_assoc, ?app_nil_r; cbn; rewrite <- ?app_assoc.
Qed.
Lemma plug_same t t' k : inorder t = inorder t' -> inorder (plug t k) = inorder (plug t' k).
Proof. intros H. by rewrite !inorder_plug, H. Qed.

(** The same order around a hole. *)
Ltac inord := apply plug_same; cbn [nd inorder negb]; repeat first [rewrite <- app_assoc | progress cbn [app]]; reflexivity.

(* ------------------------------------------------------------------ *)
(** ** Memory *)

(** The nodes of a tree below [par], and those of a context around [h]. *)
Fixpoint cells (par : option loc) (t : tree) : list (loc * node) :=
  match t with Nil => [] | T c l x r => (x, Node (root l) (root r) par c) :: cells (Some x) l ++ cells (Some x) r end.
Fixpoint kcells (h : option loc) (k : ctx) : list (loc * node) :=
  match k with [] => [] | Fr d c x s :: k' => (x, mk d h (root s) (up k') c) :: cells (Some x) s ++ kcells (Some x) k' end.
Lemma cells_nd par d c a x b :
  cells par (nd d c a x b) ≡ₚ (x, mk d (root a) (root b) par c) :: cells (Some x) a ++ cells (Some x) b.
Proof. destruct d; cbn; [by rewrite Permutation_app_comm | done]. Qed.
Lemma cells_plug t k : cells None (plug t k) ≡ₚ cells (up k) t ++ kcells (root t) k.
Proof.
  revert t. induction k as [|[d c x s] k IH]; intros t; cbn [plug kcells up]; [by rewrite app_nil_r | ].
  rewrite IH, cells_nd, root_nd. solve_Permutation.
Qed.
Lemma cells_locs par t : (cells par t).*1 ≡ₚ inorder t.
Proof. revert par. induction t as [|c l IHl x r IHr]; intros par; cbn; [done | ]. rewrite fmap_app, IHl, IHr. apply Permutation_middle. Qed.

(** The root, the addresses in memory [D] and what some of them hold. *)
Record st (D : gset loc) (rt : option loc) (L : list (loc * node)) (S : heap) : Prop := St {
  st_root : rbh_root S = rt;
  st_dom : dom (nodes S) = D;
  st_nodup : NoDup L.*1;
  st_cells : Forall (fun e => nodes S !! e.1 = Some e.2) L }.
#[export] Instance st_proper D rt : Proper ((≡ₚ) ==> eq ==> iff) (st D rt).
Proof.
  intros L L' HL S _ <-. split; intros []; split; try done; first [by rewrite <- HL | by rewrite HL].
Qed.
Lemma st_perm D rt L L' S : st D rt L S -> L ≡ₚ L' -> st D rt L' S.
Proof. by intros H <-. Qed.
(** The tree [t], and cells beside it. *)
Definition tree_st (D : gset loc) (t : tree) (X : list (loc * node)) (S : heap) : Prop := st D (root t) (cells None t ++ X) S.

Lemma st_lookup D rt L S i x n : st D rt L S -> L !! i = Some (x, n) -> nodes S !! x = Some n.
Proof. intros [] Hi. exact (proj1 (Forall_lookup _ _) st_cells0 i (x, n) Hi). Qed.
Lemma st_size D rt L S : st D rt L S -> size (nodes S) = size D.
Proof. intros []. rewrite <- st_dom0. symmetry. apply size_dom. Qed.

Lemma fld_ok {A} (f : node -> A) D rt L i x n S (Q : A -> heap -> Prop) :
  st D rt L S -> L !! i = Some (x, n) -> Q (f n) S -> wp (fld f x) S Q.
Proof. intros HS Hi HQ. unfold fld. ewp_pure. rewrite (st_lookup _ _ _ _ _ _ _ HS Hi). by ewp_pure. Qed.
Lemma upd_ok g D rt L i x n S (Q : unit -> heap -> Prop) :
  st D rt L S -> L !! i = Some (x, n) -> (forall S', st D rt (<[i := (x, g n)]> L) S' -> Q tt S') -> wp (upd g x) S Q.
Proof.
  intros HS Hi HQ. pose proof (st_lookup _ _ _ _ _ _ _ HS Hi) as Hx. unfold upd. ewp_pure. rewrite Hx. ewp_pure.
  destruct HS. apply HQ. split; cbn [rbh_root nodes].
  - done.
  - rewrite dom_insert_lookup_L; [done | by exists n].
  - rewrite list_fmap_insert. cbn. rewrite list_insert_id; [done | ]. by rewrite list_lookup_fmap, Hi.
  - apply Forall_lookup. intros j [y m] Hj. cbn. destruct (decide (i = j)) as [<- | Hne].
    + rewrite list_lookup_insert_eq in Hj by (by eapply lookup_lt_Some). injection Hj as <- <-. apply lookup_insert_eq.
    + rewrite list_lookup_insert_ne in Hj by done. rewrite lookup_insert_ne.
      * exact (proj1 (Forall_lookup _ _) st_cells0 j (y, m) Hj).
      * intros ->. apply Hne. eapply (NoDup_lookup _ _ _ y st_nodup0); by rewrite list_lookup_fmap, ?Hi, ?Hj.
Qed.
Lemma set_root_ok v D rt L S (Q : unit -> heap -> Prop) : st D rt L S -> (forall S', st D v L S' -> Q tt S') -> wp (set_root v) S Q.
Proof. intros [] HQ. unfold set_root. ewp_pure. by apply HQ. Qed.

(** The node at the hole, first. *)
Lemma at_cells d c a x b k X : cells None (plug (nd d c a x b) k) ++ X ≡ₚ
  (x, mk d (root a) (root b) (up k) c) :: cells (Some x) a ++ cells (Some x) b ++ kcells (Some x) k ++ X.
Proof. rewrite cells_plug, cells_nd, root_nd. solve_Permutation. Qed.
Lemma at_st D d c a x b k X S : tree_st D (plug (nd d c a x b) k) X S ->
  st D (top (Some x) k) ((x, mk d (root a) (root b) (up k) c) :: cells (Some x) a ++ cells (Some x) b ++ kcells (Some x) k ++ X) S.
Proof. unfold tree_st. by rewrite at_cells, root_plug, root_nd. Qed.
Lemma st_at D d c a x b k X S :
  st D (top (Some x) k) ((x, mk d (root a) (root b) (up k) c) :: cells (Some x) a ++ cells (Some x) b ++ kcells (Some x) k ++ X) S ->
  tree_st D (plug (nd d c a x b) k) X S.
Proof. unfold tree_st. by rewrite at_cells, root_plug, root_nd. Qed.
Lemma tree_nodup D t X S : tree_st D t X S -> NoDup (inorder t).
Proof. intros []. rewrite fmap_app, cells_locs in st_nodup0. by apply NoDup_app in st_nodup0 as [H _]. Qed.

Section Read.
Context {D : gset loc} {d : bool} {c : color} {a : tree} {x : loc} {b : tree} {k : ctx} {X : list (loc * node)} {S : heap}.
Context (H : tree_st D (plug (nd d c a x b) k) X S).
Lemma fld_at {A} (f : node -> A) (Q : A -> heap -> Prop) : Q (f (mk d (root a) (root b) (up k) c)) S -> wp (fld f x) S Q.
Proof. intros HQ. by eapply (fld_ok _ _ _ _ 0); [apply at_st, H | done | ]. Qed.
Lemma child_at (Q : option loc -> heap -> Prop) : Q (root a) S -> wp (child d x) S Q.
Proof. intros HQ. pose proof (fld_at (if d then rbe_right else rbe_left) Q) as F. destruct d; exact (F HQ). Qed.
Lemma other_at (Q : option loc -> heap -> Prop) : Q (root b) S -> wp (child (negb d) x) S Q.
Proof. intros HQ. pose proof (fld_at (if d then rbe_left else rbe_right) Q) as F. destruct d; exact (F HQ). Qed.
Lemma parent_at (Q : option loc -> heap -> Prop) : Q (up k) S -> wp (RB_PARENT x) S Q.
Proof. intros HQ. apply fld_at. clear H. by destruct d. Qed.
Lemma color_at (Q : color -> heap -> Prop) : Q c S -> wp (RB_COLOR x) S Q.
Proof. intros HQ. apply fld_at. clear H. by destruct d. Qed.
Lemma set_color_at c' (Q : unit -> heap -> Prop) :
  (forall S', tree_st D (plug (nd d c' a x b) k) X S' -> Q tt S') -> wp (set_color x c') S Q.
Proof.
  intros HQ. eapply (upd_ok _ _ _ _ 0); [apply at_st, H | done | ]. intros S' H'. apply HQ, st_at. clear H. by destruct d.
Qed.
Lemma is_red_at (Q : bool -> heap -> Prop) : Q (negb (is_black c)) S -> wp (is_red (Some x)) S Q.
Proof. intros HQ. cbn [is_red]. apply ewp_bind, color_at. by ewp_pure. Qed.
End Read.

(** Whether the root of a tree is red. *)
Definition red (t : tree) : bool := match t with T RB_RED _ _ _ => true | _ => false end.
Lemma is_red_ok D t k X S (Q : bool -> heap -> Prop) : tree_st D (plug t k) X S -> Q (red t) S -> wp (is_red (root t)) S Q.
Proof.
  intros H HQ. destruct t as [|c l x r]; [by ewp_pure | ]. change (T c l x r) with (nd false c l x r) in H.
  apply (is_red_at H). by destruct c.
Qed.
(** Blackening a root, if there is one. *)
Definition blacken (t : tree) : tree := match t with T _ l x r => T RB_BLACK l x r | Nil => Nil end.
Lemma inorder_blacken t : inorder (blacken t) = inorder t.
Proof. by destruct t. Qed.
Lemma when_blacken D t k X S (Q : unit -> heap -> Prop) : tree_st D (plug t k) X S ->
  (forall S', tree_st D (plug (blacken t) k) X S' -> Q tt S') -> wp (when (root t) (fun x => set_color x RB_BLACK)) S Q.
Proof.
  intros H HQ. destruct t as [|c l x r]; cbn [root when]; [by ewp_pure; apply HQ | ].
  change (T c l x r) with (nd false c l x r) in H. by apply (set_color_at H).
Qed.

(** The parent's pointer, or the head's. *)
Lemma relink_ok D k x new Y S (Q : unit -> heap -> Prop) :
  st D (top (Some x) k) (kcells (Some x) k ++ Y) S -> x ∈ Y.*1 ->
  (forall S', st D (top new k) (kcells new k ++ Y) S' -> Q tt S') -> wp (relink (up k) x new) S Q.
Proof.
  intros H Hx HQ. unfold relink. destruct k as [|[d c p s] k]; cbn [up kcells top app] in *.
  { by eapply set_root_ok. }
  apply ewp_bind. eapply (fld_ok _ _ _ _ 0); [exact H | done | ]. destruct d; cbn [mk rbe_left].
  - rewrite bool_decide_eq_false_2.
    + by eapply (upd_ok _ _ _ _ 0); [exact H | done | ].
    + intros Hs. destruct H. destruct s as [|c' l y r]; [done | ]. injection Hs as ->. cbn in st_nodup0.
      apply NoDup_cons in st_nodup0 as [_ Hn]. apply NoDup_cons in Hn as [Hn _]. apply Hn. rewrite !fmap_app, !elem_of_app. auto.
  - rewrite bool_decide_eq_true_2 by done. by eapply (upd_ok _ _ _ _ 0); [exact H | done | ].
Qed.

(** A pointer to a parent. *)
Lemma when_parent_ok D rt par t p Y S (Q : unit -> heap -> Prop) :
  st D rt (cells par t ++ Y) S -> (forall S', st D rt (cells p t ++ Y) S' -> Q tt S') -> wp (when (root t) (fun y => set_parent y p)) S Q.
Proof.
  intros H HQ. destruct t as [|c l x r]; cbn [root when]; [by ewp_pure; apply HQ | ].
  by eapply (upd_ok _ _ _ _ 0); [exact H | done | ].
Qed.

Lemma set_child_ok D rt d a b p c v x L i S (Q : unit -> heap -> Prop) :
  st D rt L S -> L !! i = Some (x, mk d a b p c) ->
  (forall S', st D rt (<[i := (x, mk d v b p c)]> L) S' -> Q tt S') -> wp (set_child d x v) S Q.
Proof. intros H Hi HQ. destruct d; by eapply upd_ok. Qed.
Lemma set_other_ok D rt d a b p c v x L i S (Q : unit -> heap -> Prop) :
  st D rt L S -> L !! i = Some (x, mk d a b p c) ->
  (forall S', st D rt (<[i := (x, mk d a v p c)]> L) S' -> Q tt S') -> wp (set_child (negb d) x v) S Q.
Proof. intros H Hi HQ. destruct d; by eapply upd_ok. Qed.
Lemma set_parent_ok D rt d a b p c v x L i S (Q : unit -> heap -> Prop) :
  st D rt L S -> L !! i = Some (x, mk d a b p c) ->
  (forall S', st D rt (<[i := (x, mk d a b v c)]> L) S' -> Q tt S') -> wp (set_parent x v) S Q.
Proof. intros H Hi HQ. destruct d; by eapply upd_ok. Qed.

(** The same cells in another order. *)
Tactic Notation "st_to" hyp(H) constr(L) := apply (st_perm _ _ _ L) in H; [ | cbn [insert list_insert]; solve_Permutation].

(** A rotation towards side [d]. *)
Lemma rotate_ok D d c a x c' b y e k X S (Q : unit -> heap -> Prop) : tree_st D (plug (nd d c a x (nd d c' b y e)) k) X S ->
  (forall S', tree_st D (plug (nd d c' (nd d c a x b) y e) k) X S' -> Q tt S') -> wp (RB_ROTATE d x) S Q.
Proof.
  intros H HQ. unfold RB_ROTATE. apply ewp_bind, (other_at H). rewrite root_nd. cbn [need]. ewp_pure.
  pose proof H as H2. replace (plug (nd d c a x (nd d c' b y e)) k) with (plug (nd d c' b y e) (Fr (negb d) c x a :: k)) in H2 by (cbn [plug]; by rewrite nd_flip).
  apply ewp_bind, (child_at H2). clear H2.
  set (Z := cells (Some x) a ++ cells (Some y) e ++ X). set (K := fun h => kcells h k).
  assert (H1 : st D (top (Some x) k) ((x, mk d (root a) (Some y) (up k) c) :: (y, mk d (root b) (root e) (Some x) c') ::
    cells (Some y) b ++ K (Some x) ++ Z) S).
  { apply at_st in H. rewrite root_nd, cells_nd in H. eapply st_perm; [exact H | ]. unfold K, Z. solve_Permutation. }
  clear H. apply ewp_bind. eapply (set_other_ok _ _ _ _ _ _ _ _ _ _ 0); [exact H1 | done | ]. clear S H1. intros S H.
  st_to H (cells (Some y) b ++ (x, mk d (root a) (root b) (up k) c) :: (y, mk d (root b) (root e) (Some x) c') :: K (Some x) ++ Z).
  apply ewp_bind. eapply when_parent_ok; [exact H | ]. clear S H. intros S H.
  st_to H ((y, mk d (root b) (root e) (Some x) c') :: (x, mk d (root a) (root b) (up k) c) :: K (Some x) ++ cells (Some x) b ++ Z).
  apply ewp_bind. eapply (fld_ok _ _ _ _ 1); [exact H | done | ]. replace (rbe_parent (mk d (root a) (root b) (up k) c)) with (up k) by by destruct d.
  apply ewp_bind. eapply (set_parent_ok _ _ _ _ _ _ _ _ _ _ 0); [exact H | done | ]. clear S H. intros S H.
  st_to H (K (Some x) ++ (y, mk d (root b) (root e) (up k) c') :: (x, mk d (root a) (root b) (up k) c) :: cells (Some x) b ++ Z).
  apply ewp_bind. eapply (relink_ok _ k); [exact H | right; by left | ]. clear S H. intros S H. change (kcells (Some y) k) with (K (Some y)) in H.
  st_to H ((y, mk d (root b) (root e) (up k) c') :: (x, mk d (root a) (root b) (up k) c) :: K (Some y) ++ cells (Some x) b ++ Z).
  apply ewp_bind. eapply (set_child_ok _ _ _ _ _ _ _ _ _ _ 0); [exact H | done | ]. clear S H. intros S H.
  eapply (set_parent_ok _ _ _ _ _ _ _ _ _ _ 1); [exact H | done | ]. clear S H. intros S H. apply HQ, st_at. rewrite root_nd, cells_nd.
  eapply st_perm; [exact H | ]. unfold K, Z. cbn. solve_Permutation.
Qed.

(** Black height [n], root colour [c], no red child of a red node. *)
Inductive rbt : nat -> color -> tree -> Prop :=
  | rbt_nil : rbt 0 RB_BLACK Nil
  | rbt_red n l x r : rbt n RB_BLACK l -> rbt n RB_BLACK r -> rbt n RB_RED (T RB_RED l x r)
  | rbt_black n cl cr l x r : rbt n cl l -> rbt n cr r -> rbt (S n) RB_BLACK (T RB_BLACK l x r).

(** A tree of height [n] and colour [c] in the hole makes a tree with a black
    root. *)
Fixpoint ctx_ok (n : nat) (c : color) (k : ctx) : Prop :=
  match k with
  | [] => c = RB_BLACK
  | Fr d RB_RED x s :: k' => c = RB_BLACK /\ rbt n RB_BLACK s /\ ctx_ok n RB_RED k'
  | Fr d RB_BLACK x s :: k' => (exists c', rbt n c' s) /\ ctx_ok (S n) RB_BLACK k'
  end.

Lemma nd_red n d a x b : rbt n RB_BLACK a -> rbt n RB_BLACK b -> rbt n RB_RED (nd d RB_RED a x b).
Proof. by destruct d; constructor. Qed.
Lemma nd_black n d ca cb a x b : rbt n ca a -> rbt n cb b -> rbt (S n) RB_BLACK (nd d RB_BLACK a x b).
Proof. destruct d; econstructor; eauto. Qed.
Lemma red_nd n c d a x b : rbt n c (nd d RB_RED a x b) -> c = RB_RED /\ rbt n RB_BLACK a /\ rbt n RB_BLACK b.
Proof. destruct d; inversion 1; subst; done. Qed.
Lemma black_nd n c d a x b : rbt n c (nd d RB_BLACK a x b) -> c = RB_BLACK /\ exists m ca cb, n = S m /\ rbt m ca a /\ rbt m cb b.
Proof. destruct d; inversion 1; subst; eauto 10. Qed.
Lemma rbt_color n c t : rbt n c t -> negb (is_black c) = red t.
Proof. by destruct 1. Qed.

Lemma ctx_weaken n c k : ctx_ok n c k -> ctx_ok n RB_BLACK k.
Proof. destruct k as [|[d [] x s] k]; cbn; tauto. Qed.
Lemma plug_rbt n c t k : rbt n c t -> ctx_ok n c k -> exists m, rbt m RB_BLACK (plug t k).
Proof.
  revert n c t. induction k as [|[d fc x s] k IH]; intros n c t Ht Hk; cbn in *; [subst; by exists n | ]. destruct fc.
  - destruct Hk as [[c' Hs] Hk]. eapply IH; [ | exact Hk]. by eapply nd_black.
  - destruct Hk as (-> & Hs & Hk). eapply IH; [ | exact Hk]. by apply nd_red.
Qed.
Lemma rbt_plug m t k : rbt m RB_BLACK (plug t k) -> exists n c, rbt n c t /\ ctx_ok n c k.
Proof.
  revert t. induction k as [|[d fc x s] k IH]; intros t H; cbn in *; [by exists m, RB_BLACK | ].
  apply IH in H as (n & c & Ht & Hk). destruct fc.
  - apply black_nd in Ht as (-> & n' & ct & cs & -> & Ht & Hs). exists n', ct. eauto.
  - apply red_nd in Ht as (-> & Ht & Hs). by exists n, RB_BLACK.
Qed.

(** A red node has a parent, a black one. *)
Lemma red_has_parent n k : ctx_ok n RB_RED k ->
  exists d x s k' c', k = Fr d RB_BLACK x s :: k' /\ rbt n c' s /\ ctx_ok (S n) RB_BLACK k'.
Proof.
  destruct k as [|[d [] x s] k]; cbn; [done | | by intros [? _]]. intros [[c' Hs] Hk]. by exists d, x, s, k, c'.
Qed.

(** How deep a tree is, and that it is at most twice the logarithm of its size. *)
Fixpoint depth (t : tree) : nat := match t with Nil => 0 | T _ l _ r => S (Nat.max (depth l) (depth r)) end.
Lemma depth_inorder t : (depth t <= length (inorder t))%nat.
Proof. induction t as [|c l IHl x r IHr]; cbn; [done | ]. rewrite length_app. cbn. lia. Qed.
Lemma rbt_depth n c t : rbt n c t -> (depth t <= 2 * n + (if is_black c then 0 else 1))%nat /\ (2 ^ n <= length (inorder t) + 1)%nat.
Proof.
  induction 1 as [|n l x r _ [Hl Sl] _ [Hr Sr] | n cl cr l x r _ [Hl Sl] _ [Hr Sr]]; cbn [depth inorder is_black]; [by cbn | | ];
    rewrite length_app; cbn [length is_black] in *.
  - lia.
  - rewrite Nat.pow_succ_r'. split; [ | lia]. destruct cl, cr; cbn in Hl, Hr; lia.
Qed.
Lemma balanced n t : rbt n RB_BLACK t -> (depth t <= 2 * Nat.log2 (length (inorder t) + 1))%nat.
Proof.
  intros H%rbt_depth. cbn in H. destruct H as [Hd Hs]. apply Nat.log2_le_pow2 in Hs; [lia | lia].
Qed.
