(* ===== verification/RbInsert.v ===== *)
(** RbInsert: insertion. *)

From stdpp Require Import gmap.
From S2P Require Import Prelude Eff RbTree RbRep.

Open Scope eff_scope.

(** How deep the hole is. *)
Lemma plug_length t k : (length (inorder t) + length k <= length (inorder (plug t k)))%nat.
Proof.
  revert t. induction k as [|[d c x s] k IH]; intros t; cbn [plug length]; [lia | ].
  specialize (IH (nd d c t x s)).
  assert (Hn : (length (inorder (nd d c t x s)) = length (inorder t) + length (inorder s) + 1)%nat).
  { destruct d; cbn [nd inorder]; rewrite length_app; cbn [length]; lia. }
  lia.
Qed.
Lemma st_length D rt L S : st D rt L S -> (length L <= size D)%nat.
Proof.
  intros [st_root st_dom st_nodup st_cells]. rewrite <- (length_fmap fst), <- (size_list_to_set (C := gset loc) L.*1) by done.
  apply subseteq_size. intros x Hx. apply elem_of_list_to_set, list_elem_of_fmap in Hx as ([y n] & -> & Hx).
  rewrite <- st_dom. apply elem_of_dom. exists n. exact (proj1 (Forall_forall _ _) st_cells _ Hx).
Qed.
Lemma tree_depth D t k X S : tree_st D (plug t k) X S -> (length (inorder t) + length k <= size D)%nat.
Proof.
  intros H%st_length. rewrite length_app in H. pose proof (plug_length t k).
  pose proof (Permutation_length (cells_locs None (plug t k))) as Hl. rewrite length_fmap in Hl. lia.
Qed.

(** The same tree seen from another node. *)
Lemma see D t t' X S : tree_st D t X S -> t = t' -> tree_st D t' X S.
Proof. by intros H <-. Qed.
Tactic Notation "seen" hyp(H) constr(t) := apply (see _ _ t) in H; [ | cbn [plug]; rewrite ?nd_flip; reflexivity].

(** Two subtrees of a node have different roots. *)
Lemma roots_differ D d c a x b k X S y : tree_st D (plug (nd d c a x b) k) X S -> root a = Some y -> root b <> Some y.
Proof.
  intros H Ha Hb. apply tree_nodup in H. rewrite inorder_plug in H. apply NoDup_app in H as (_ & _ & H). apply NoDup_app in H as (H & _ & _).
  destruct a as [|ca al ay ar]; [done | ]. destruct b as [|cb bl by' br]; [done | ]. injection Ha as ->. injection Hb as ->.
  destruct d; cbn in H; apply NoDup_app in H as (_ & H & _); apply (H y); rewrite ?elem_of_app, ?elem_of_cons, ?elem_of_app, ?elem_of_cons; tauto.
Qed.

(** Where a turn leaves the code: a red node whose children are fine, the same
    nodes in the same order, and either two levels up or below a black node. *)
Definition red_at (D : gset loc) (X : list (loc * node)) (was : tree) (depth : nat) (elm : loc) (S : heap) : Prop :=
  exists a b k n, tree_st D (plug (T RB_RED a elm b) k) X S /\ rbt n RB_BLACK a /\ rbt n RB_BLACK b /\ ctx_ok n RB_BLACK k /\
    inorder (plug (T RB_RED a elm b) k) = inorder was /\
    (length k = depth \/ exists d y s k', k = Fr d RB_BLACK y s :: k').

(** [elm] on the outer side: one rotation. *)
Lemma insert_straight_ok D d a x b p s g u k X S n cu (Q : loc -> heap -> Prop) :
  tree_st D (plug (nd d RB_BLACK (nd d RB_RED (T RB_RED a x b) p s) g u) k) X S ->
  rbt n RB_BLACK a -> rbt n RB_BLACK b -> rbt n RB_BLACK s -> rbt n cu u -> cu = RB_BLACK -> ctx_ok (Datatypes.S n) RB_BLACK k ->
  (forall S', red_at D X (plug (nd d RB_BLACK (nd d RB_RED (T RB_RED a x b) p s) g u) k) (length k) x S' -> Q x S') ->
  wp (RB_SET_BLACKRED p g;; RB_ROTATE (negb d) g;; ret x) S Q.
Proof.
  intros H Ha Hb Hs Hu -> Hk HQ. unfold RB_SET_BLACKRED. set (X0 := T RB_RED a x b) in *.
  seen H (plug (nd d RB_RED X0 p s) (Fr d RB_BLACK g u :: k)). apply ewp_bind, ewp_bind, (set_color_at H). clear S H. intros S H.
  seen H (plug (nd d RB_BLACK (nd d RB_BLACK X0 p s) g u) k). apply (set_color_at H). clear S H. intros S H.
  seen H (plug (nd (negb d) RB_RED u g (nd (negb d) RB_BLACK s p X0)) k). apply ewp_bind, (rotate_ok _ _ _ _ _ _ _ _ _ _ _ _ _ H). clear S H. intros S H.
  ewp_pure. apply HQ. exists a, b, (Fr d RB_BLACK p (nd (negb d) RB_RED u g s) :: k), n. split_and!; try done.
  - seen H (plug X0 (Fr d RB_BLACK p (nd (negb d) RB_RED u g s) :: k)). exact H.
  - split; [exists RB_RED; by apply nd_red | done].
  - cbn [plug]. unfold X0. destruct d; inord.
  - right. eauto.
Qed.

(** One turn: [x] red on side [e] of a red parent on side [d] of a black
    grandparent: the uncle is red and all three are repainted, or a rotation or
    two repair the tree. *)
Lemma insert_side_ok D d e a x b p s g u k X S n cu (Q : loc -> heap -> Prop) :
  tree_st D (plug (nd d RB_BLACK (nd e RB_RED (T RB_RED a x b) p s) g u) k) X S ->
  rbt n RB_BLACK a -> rbt n RB_BLACK b -> rbt n RB_BLACK s -> rbt n cu u -> ctx_ok (Datatypes.S n) RB_BLACK k ->
  (forall elm S', red_at D X (plug (nd d RB_BLACK (nd e RB_RED (T RB_RED a x b) p s) g u) k) (length k) elm S' -> Q elm S') ->
  wp (insert_color_side d g p x) S Q.
Proof.
  intros H Ha Hb Hs Hu Hk HQ. unfold insert_color_side. apply ewp_bind, (other_at H). set (X0 := T RB_RED a x b) in *.
  pose proof H as H1. seen H1 (plug u (Fr (negb d) RB_BLACK g (nd e RB_RED X0 p s) :: k)). apply ewp_bind, (is_red_ok _ _ _ _ _ _ H1).
  destruct cu.
  - assert (Hr : red u = false) by (by rewrite <- (rbt_color _ _ _ Hu)). rewrite Hr.
    clear H1. pose proof H as H1. seen H1 (plug (nd e RB_RED X0 p s) (Fr d RB_BLACK g u :: k)).
    assert (Hgo : wp (do c <- child (negb d) p;
      do pe <- (if bool_decide (c = Some x) then RB_ROTATE d p;; ret (x, p) else ret (p, x));
      RB_SET_BLACKRED pe.1 g;; RB_ROTATE (negb d) g;; ret pe.2) S Q); [ | by destruct (root u)].
    destruct (decide (e = d)) as [-> | Hne].
    + apply ewp_bind, (other_at H1). rewrite bool_decide_eq_false_2.
      * ewp_pure. eapply (insert_straight_ok D d a x b p s); eauto.
      * by eapply (roots_differ _ _ _ _ _ _ _ _ _ _ H1).
    + assert (e = negb d) as -> by (by destruct e, d). apply ewp_bind, (child_at H1). rewrite bool_decide_eq_true_2 by done. clear H1.
      assert (Hend : forall a' b' S', rbt n RB_BLACK a' -> rbt n RB_BLACK b' ->
        inorder (plug (nd d RB_BLACK (nd d RB_RED (T RB_RED a' p b') x (if d then a else b)) g u) k) =
          inorder (plug (nd d RB_BLACK (nd (negb d) RB_RED X0 p s) g u) k) ->
        tree_st D (plug (nd d RB_BLACK (nd d RB_RED (T RB_RED a' p b') x (if d then a else b)) g u) k) X S' ->
        wp (RB_SET_BLACKRED x g;; RB_ROTATE (negb d) g;; ret p) S' Q).
      { intros a' b' S' Ha' Hb' Hin H'. eapply (insert_straight_ok D d a' p b' x); eauto.
        - by destruct d.
        - intros S2. unfold red_at. rewrite Hin. apply HQ. }
      ewp_pure. destruct d; cbn [negb].
      * seen H (plug (nd true RB_RED s p (nd true RB_RED b x a)) (Fr true RB_BLACK g u :: k)).
        apply ewp_bind, (rotate_ok _ _ _ _ _ _ _ _ _ _ _ _ _ H). clear S H. intros S H. ewp_pure. eapply (Hend b s); [done | done | | exact H].
        unfold X0. inord.
      * seen H (plug (nd false RB_RED s p (nd false RB_RED a x b)) (Fr false RB_BLACK g u :: k)).
        apply ewp_bind, (rotate_ok _ _ _ _ _ _ _ _ _ _ _ _ _ H). clear S H. intros S H. ewp_pure. eapply (Hend s a); [done | done | | exact H].
        unfold X0. inord.
  - assert (Hr : red u = true) by (by rewrite <- (rbt_color _ _ _ Hu)). rewrite Hr. destruct u as [|[] ul y ur]; [done | done | ]. cbn [root].
    inversion Hu; subst. unfold RB_SET_BLACKRED.
    seen H (plug (nd false RB_RED ul y ur) (Fr (negb d) RB_BLACK g (nd e RB_RED X0 p s) :: k)).
    apply ewp_bind, (set_color_at H). clear S H H1. intros S H.
    seen H (plug (nd e RB_RED X0 p s) (Fr d RB_BLACK g (T RB_BLACK ul y ur) :: k)). apply ewp_bind, ewp_bind, (set_color_at H). clear S H. intros S H.
    seen H (plug (nd d RB_BLACK (nd e RB_BLACK X0 p s) g (T RB_BLACK ul y ur)) k). apply (set_color_at H). clear S H. intros S H. ewp_pure.
    assert (Hp : rbt (Datatypes.S n) RB_BLACK (nd e RB_BLACK X0 p s)) by (eapply nd_black; [by constructor | done]).
    assert (Hy : rbt (Datatypes.S n) RB_BLACK (T RB_BLACK ul y ur)) by (by econstructor).
    apply HQ. destruct d; cbn [nd] in H.
    + exists (T RB_BLACK ul y ur), (nd e RB_BLACK X0 p s), k, (Datatypes.S n). split_and!; try done; [ | by left].
      destruct e; inord.
    + exists (nd e RB_BLACK X0 p s), (T RB_BLACK ul y ur), k, (Datatypes.S n). split_and!; try done; [ | by left].
      destruct e; inord.
Qed.

Lemma blacken_black n t : rbt n RB_BLACK t -> blacken t = t.
Proof. by inversion 1. Qed.

(** The loop: with as many turns left as the hole is deep, or below a black
    node. *)
Lemma insert_loop_ok D fuel elm a b k n X S (Q : unit -> heap -> Prop) :
  tree_st D (plug (T RB_RED a elm b) k) X S -> rbt n RB_BLACK a -> rbt n RB_BLACK b -> ctx_ok n RB_BLACK k ->
  (length k <= fuel)%nat \/ (exists d y s k', k = Fr d RB_BLACK y s :: k') ->
  (forall t m S', tree_st D t X S' -> rbt m RB_BLACK (blacken t) -> inorder t = inorder (plug (T RB_RED a elm b) k) -> Q tt S') ->
  wp (insert_color_loop fuel elm) S Q.
Proof.
  revert elm a b k n S. induction fuel as [|fuel IH]; intros elm a b k n S H Ha Hb Hk Hf HQ;
    (destruct k as [|[d pc p s] k]; cbn [insert_color_loop];
      [ change (plug (T RB_RED a elm b) []) with (plug (nd false RB_RED a elm b) []) in H; apply ewp_bind, (parent_at H); cbn [up]; ewp_pure;
        eapply (HQ _ (Datatypes.S n)); [exact H | by econstructor | done] | ]);
    pose proof H as H1; seen H1 (plug (nd false RB_RED a elm b) (Fr d pc p s :: k)); apply ewp_bind, (parent_at H1); cbn [up];
    clear H1; pose proof H as H1; seen H1 (plug (nd d pc (T RB_RED a elm b) p s) k); apply ewp_bind, (color_at H1); destruct pc; cbn [is_black].
  - ewp_pure. destruct (plug_rbt n RB_RED (T RB_RED a elm b) (Fr d RB_BLACK p s :: k)) as [m Hm]; [by constructor | exact Hk | ].
    eapply (HQ _ m); [exact H | by rewrite (blacken_black _ _ Hm) | done].
  - exfalso. destruct Hf as [Hf | (? & ? & ? & ? & [=])]. cbn in Hf. lia.
  - ewp_pure. destruct (plug_rbt n RB_RED (T RB_RED a elm b) (Fr d RB_BLACK p s :: k)) as [m Hm]; [by constructor | exact Hk | ].
    eapply (HQ _ m); [exact H | by rewrite (blacken_black _ _ Hm) | done].
  - destruct Hk as (_ & Hs & Hk). destruct (red_has_parent _ _ Hk) as (e & g & u & k2 & cu & -> & Hu & Hk2).
    apply ewp_bind, (parent_at H1). cbn [up need]. ewp_pure. clear H1.
    pose proof H as H1. seen H1 (plug (nd e RB_BLACK (nd d RB_RED (T RB_RED a elm b) p s) g u) k2).
    assert (Hl : wp (RB_LEFT g) S (fun l S' => S' = S /\ negb (bool_decide (l = Some p)) = e)).
    { destruct e.
      - change RB_LEFT with (child (negb true)). apply (other_at H1). split; [done | ]. rewrite bool_decide_eq_false_2; [done | ].
        eapply (roots_differ _ _ _ _ _ _ _ _ _ _ H1). by rewrite root_nd.
      - change RB_LEFT with (child false). apply (child_at H1). split; [done | ]. by rewrite root_nd, bool_decide_eq_true_2. }
    apply ewp_bind. eapply ewp_mono; [exact Hl | ]. intros l S' [-> Hd]. rewrite Hd. apply ewp_bind.
    eapply insert_side_ok; [exact H1 | done | done | exact Hs | exact Hu | exact Hk2 | ].
    intros elm' S' (a' & b' & k' & m & H' & Ha' & Hb' & Hk' & Hin & Hd').
    eapply IH; [exact H' | exact Ha' | exact Hb' | exact Hk' | | ].
    + destruct Hd' as [Hd' | Hd']; [ | by right]. destruct Hf as [Hf | (? & ? & ? & ? & [=])]. cbn in Hf. left. lia.
    + intros t m' S2 H2 Hm Hin2. eapply HQ; [exact H2 | exact Hm | ]. rewrite Hin2, Hin. by cbn [plug].
Qed.

Lemma RB_INSERT_COLOR_ok D elm k X S (Q : unit -> heap -> Prop) :
  tree_st D (plug (T RB_RED Nil elm Nil) k) X S -> ctx_ok 0 RB_BLACK k ->
  (forall t m S', tree_st D t X S' -> rbt m RB_BLACK t -> inorder t = inorder (plug (T RB_RED Nil elm Nil) k) -> Q tt S') ->
  wp (RB_INSERT_COLOR elm) S Q.
Proof.
  intros H Hk HQ. unfold RB_INSERT_COLOR. ewp_pure. rewrite (st_size _ _ _ _ H). pose proof (tree_depth _ _ _ _ _ H) as Hd.
  apply ewp_bind. eapply insert_loop_ok; [exact H | constructor | constructor | exact Hk | left; cbn in Hd; lia | ].
  clear S H. intros t m S H Ht Hin. ewp_pure. pose proof H as [Hr _ _ _]. rewrite Hr.
  destruct t as [|c l x r].
  { exfalso. apply (f_equal length) in Hin. pose proof (plug_length (T RB_RED Nil elm Nil) k). cbn in *. lia. }
  cbn [root need]. ewp_pure. seen H (plug (nd false c l x r) []). apply (set_color_at H). clear S H Hr. intros S H. by eapply HQ.
Qed.
