(* ===== verification/RbRemove.v ===== *)
(** RbRemove: removal. *)

From stdpp Require Import gmap.
From S2P Require Import Prelude Eff RbTree RbRep RbInsert.

Open Scope eff_scope.

(* ------------------------------------------------------------------ *)
(** ** Repainting *)

(** Where a tree with a root of colour [c] goes that is to have one black node
    more than [n] below a black root. *)
Definition fits (n : nat) (c : color) (k : ctx) : Prop :=
  match c with RB_RED => ctx_ok (S n) RB_RED k | RB_BLACK => ctx_ok (S (S n)) RB_BLACK k end.
Lemma fits_plug n c d a x b k : rbt (S n) RB_BLACK a -> rbt (S n) RB_BLACK b -> fits n c k ->
  exists m, rbt m RB_BLACK (plug (nd d c a x b) k).
Proof.
  intros Ha Hb Hk. destruct c; (eapply plug_rbt; [ | exact Hk]); [by eapply nd_black | by apply nd_red].
Qed.
Lemma rbt_black_root n c t : rbt n c t -> red t = false -> rbt n RB_BLACK t.
Proof. intros H Hr. destruct c; [done | ]. by inversion H; subst. Qed.
Lemma rbt_blacken n c t : rbt n c t -> red t = true -> rbt (S n) RB_BLACK (blacken t).
Proof. destruct 1; [done | intros _; by econstructor | done]. Qed.
Lemma blacken_nd d c a x b : blacken (nd d c a x b) = nd d RB_BLACK a x b.
Proof. by destruct d. Qed.
Lemma red_of_nd d c a x b : red (nd d c a x b) = negb (is_black c).
Proof. by destruct d, c. Qed.

(** What is left: a valid tree with the nodes in the same order. *)
Definition mended (D : gset loc) (X : list (loc * node)) (was : tree) (S : heap) : Prop :=
  exists t m, tree_st D t X S /\ rbt m RB_BLACK t /\ inorder t = inorder was.

(** The far nephew is red: one rotation. *)
Lemma remove_far_ok D d pc f p a y b k X S n ca (Q : unit -> heap -> Prop) :
  tree_st D (plug (nd d pc f p (nd d RB_BLACK a y b)) k) X S ->
  rbt n RB_BLACK f -> rbt n ca a -> rbt n RB_RED b -> fits n pc k ->
  (forall S', mended D X (plug (nd d pc f p (nd d RB_BLACK a y b)) k) S' -> Q tt S') -> wp (remove_color_far d p y) S Q.
Proof.
  intros H Hf Ha Hb Hk HQ. unfold remove_color_far. apply ewp_bind, (color_at H).
  seen H (plug (nd d RB_BLACK a y b) (Fr (negb d) pc p f :: k)). apply ewp_bind, (set_color_at H). clear S H. intros S H.
  seen H (plug (nd d pc f p (nd d pc a y b)) k). apply ewp_bind, (set_color_at H). clear S H. intros S H.
  seen H (plug (nd d pc a y b) (Fr (negb d) RB_BLACK p f :: k)). apply ewp_bind, (other_at H).
  seen H (plug b (Fr (negb d) pc y a :: Fr (negb d) RB_BLACK p f :: k)). eapply ewp_bind, when_blacken; [exact H | ]. clear S H. intros S H.
  seen H (plug (nd d RB_BLACK f p (nd d pc a y (blacken b))) k). eapply rotate_ok; [exact H | ]. clear S H. intros S H. apply HQ.
  destruct (fits_plug n pc d (nd d RB_BLACK f p a) y (blacken b) k) as [m Hm]; [by eapply nd_black | | done | ].
  { eapply rbt_blacken; [exact Hb | ]. by inversion Hb. }
  eexists _, m. split_and!; [exact H | exact Hm | ]. apply plug_same. destruct d; cbn [nd inorder]; rewrite inorder_blacken; by rewrite <- ?app_assoc; cbn [app]; rewrite <- ?app_assoc.
Qed.

(** A tree that lacks a black node where height [n + 1] is due: its root is not
    red, or it is and will be painted black. *)
Definition lacking (n : nat) (f : tree) : Prop :=
  rbt n RB_BLACK f \/ red f = true /\ rbt (S n) RB_BLACK (blacken f).
(** The outcome of a turn: done, or less than [bound] deep, or at a red node. *)
Definition turn_end (D : gset loc) (X : list (loc * node)) (was : tree) (bound : nat) (o : option (option loc * option loc)) (S : heap) : Prop :=
  match o with
  | None => mended D X was S
  | Some (elm, parent) => exists f k n, elm = root f /\ parent = up k /\ tree_st D (plug f k) X S /\ lacking n f /\
      ctx_ok (Datatypes.S n) RB_BLACK k /\ inorder (plug f k) = inorder was /\ (red f = true \/ (length k < bound)%nat)
  end.

(** The sibling is black. *)
Lemma remove_black_ok D d pc f p a y b k X S n ca cb (Q : option (option loc * option loc) -> heap -> Prop) :
  tree_st D (plug (nd d pc f p (nd d RB_BLACK a y b)) k) X S ->
  rbt n RB_BLACK f -> rbt n ca a -> rbt n cb b -> fits n pc k ->
  (forall o S', turn_end D X (plug (nd d pc f p (nd d RB_BLACK a y b)) k) (if is_black pc then Datatypes.S (length k) else 0%nat) o S' -> Q o S') ->
  wp (remove_color_black d p y) S Q.
Proof.
  intros H Hf Ha Hb Hk HQ. unfold remove_color_black.
  pose proof H as H1. seen H1 (plug (nd d RB_BLACK a y b) (Fr (negb d) pc p f :: k)). apply ewp_bind, (child_at H1).
  pose proof H1 as H2. seen H2 (plug a (Fr d RB_BLACK y b :: Fr (negb d) pc p f :: k)). eapply ewp_bind, is_red_ok; [exact H2 | ]. clear H2.
  apply ewp_bind, (other_at H1).
  pose proof H1 as H2. seen H2 (plug b (Fr (negb d) RB_BLACK y a :: Fr (negb d) pc p f :: k)). eapply ewp_bind, is_red_ok; [exact H2 | ]. clear H2.
  destruct (red b) eqn:Hrb; cbn [negb]; rewrite ?andb_false_r, ?andb_true_r.
  - ewp_pure. assert (cb = RB_RED) as -> by (pose proof (rbt_color _ _ _ Hb) as Hc; by destruct cb; rewrite Hrb in Hc).
    apply ewp_bind. eapply remove_far_ok; [exact H | done | exact Ha | exact Hb | done | ]. intros S' Hm. ewp_pure. by apply HQ.
  - pose proof (rbt_black_root _ _ _ Hb Hrb) as Hb'. destruct (red a) eqn:Hra; cbn [negb].
    + destruct a as [|[] a0 z a3] eqn:Ea; [done | done | ]. rewrite <- Ea in H, H1, HQ.
      assert (exists a1 a2, a = nd d RB_RED a1 z a2 /\ rbt n RB_BLACK a1 /\ rbt n RB_BLACK a2) as (a1 & a2 & -> & Ha1 & Ha2).
      { inversion Ha; subst. destruct d; by eexists _, _. }
      clear Ea Ha Hra. apply ewp_bind. ewp_pure. apply ewp_bind, (child_at H1). rewrite root_nd. cbn [when].
      clear H1. seen H (plug (nd d RB_RED a1 z a2) (Fr d RB_BLACK y b :: Fr (negb d) pc p f :: k)). apply ewp_bind, (set_color_at H). clear S H. intros S H.
      seen H (plug (nd d RB_BLACK (nd d RB_BLACK a1 z a2) y b) (Fr (negb d) pc p f :: k)). apply ewp_bind, (set_color_at H). clear S H. intros S H.
      seen H (plug (nd (negb d) RB_RED b y (nd (negb d) RB_BLACK a2 z a1)) (Fr (negb d) pc p f :: k)).
      eapply ewp_bind, rotate_ok; [exact H | ]. clear S H. intros S H.
      seen H (plug (nd d pc f p (nd d RB_BLACK a1 z (nd d RB_RED a2 y b))) k). apply ewp_bind, (other_at H). rewrite root_nd. cbn [need]. ewp_pure.
      apply ewp_bind. eapply remove_far_ok; [exact H | done | exact Ha1 | by apply nd_red | done | ].
      intros S' (t & m & Ht & Hm & Hin). ewp_pure. apply HQ. exists t, m. split_and!; [done | done | ]. rewrite Hin. destruct d; inord.
    + pose proof (rbt_black_root _ _ _ Ha Hra) as Ha'. cbn [andb]. apply ewp_bind, (set_color_at H1). clear S H H1. intros S H.
      seen H (plug (nd d pc f p (nd d RB_RED a y b)) k). apply ewp_bind, (parent_at H). ewp_pure. apply HQ.
      assert (Hs : rbt n RB_RED (nd d RB_RED a y b)) by by apply nd_red.
      destruct pc.
      * exists (nd d RB_BLACK f p (nd d RB_RED a y b)), k, (Datatypes.S n). rewrite root_nd. split_and!; try done.
        -- left. by eapply nd_black.
        -- destruct d; inord.
        -- right. cbn. lia.
      * exists (nd d RB_RED f p (nd d RB_RED a y b)), k, n. rewrite root_nd, red_of_nd. split_and!; try done.
        -- right. rewrite red_of_nd, blacken_nd. split; [done | by eapply nd_black].
        -- by eapply ctx_weaken.
        -- destruct d; inord.
        -- by left.
Qed.

(** A turn. *)
Lemma remove_side_ok D d pc f p s k X S n (Q : option (option loc * option loc) -> heap -> Prop) :
  tree_st D (plug f (Fr d pc p s :: k)) X S -> rbt n RB_BLACK f -> ctx_ok (Datatypes.S n) RB_BLACK (Fr d pc p s :: k) ->
  (forall o S', turn_end D X (plug f (Fr d pc p s :: k)) (length (Fr d pc p s :: k)) o S' -> Q o S') ->
  wp (remove_color_side d p) S Q.
Proof.
  intros H Hf Hk HQ. cbn [plug] in *. unfold remove_color_side. apply ewp_bind, (other_at H).
  assert (exists cs, rbt (Datatypes.S n) cs s /\ (cs = RB_RED -> pc = RB_BLACK) /\ fits n pc k) as (cs & Hs & Hc & Hfit).
  { destruct pc; cbn in Hk; [destruct Hk as [[cs Hs] Hk]; by exists cs | destruct Hk as (_ & Hs & Hk); by exists RB_BLACK]. }
  destruct s as [|c sl y sr]; [by inversion Hs | ]. cbn [root need]. ewp_pure.
  assert (exists a b, T c sl y sr = nd d c a y b) as (a & b & Es) by (destruct d; by eexists _, _). rewrite Es in *. clear Es sl sr.
  pose proof H as H1. seen H1 (plug (nd d c a y b) (Fr (negb d) pc p f :: k)). apply ewp_bind, (color_at H1). destruct c; cbn [is_black].
  - apply black_nd in Hs as (_ & m & ca & cb & [= <-] & Ha & Hb). ewp_pure.
    eapply remove_black_ok; [exact H | done | exact Ha | exact Hb | done | ]. intros [[elm parent]|] S'; cbn [turn_end].
    + intros (g & k' & m & -> & -> & Ht & Hl & Hk' & Hi & Hd). apply HQ. exists g, k', m. split_and!; try done.
      destruct Hd as [Hd | Hd]; [by left | right]. cbn. destruct (is_black pc); lia.
    + intros Hm. apply HQ. exact Hm.
  - apply red_nd in Hs as (-> & Ha & Hb). rewrite (Hc eq_refl) in *. clear Hc Hk. unfold RB_SET_BLACKRED.
    apply ewp_bind, ewp_bind, ewp_bind, (set_color_at H1). clear S H H1. intros S H.
    seen H (plug (nd d RB_BLACK f p (nd d RB_BLACK a y b)) k). apply (set_color_at H). clear S H. intros S H.
    eapply ewp_bind, rotate_ok; [exact H | ]. clear S H. intros S H.
    seen H (plug (nd d RB_RED f p a) (Fr d RB_BLACK y b :: k)). apply ewp_bind, (other_at H).
    inversion Ha as [ | | m ca cb al z ar Hal Har Em Ec Et]; subst. cbn [root need]. ewp_pure.
    assert (exists a1 a2 c1 c2, T RB_BLACK al z ar = nd d RB_BLACK a1 z a2 /\ rbt n c1 a1 /\ rbt n c2 a2) as (a1 & a2 & c1 & c2 & Ea & Ha1 & Ha2).
    { destruct d; by eexists _, _, _, _. }
    rewrite Ea in *. eapply remove_black_ok; [exact H | done | exact Ha1 | exact Ha2 | cbn; split; [by exists RB_BLACK | exact Hfit] | ].
    assert (Hin : inorder (plug (nd d RB_RED f p (nd d RB_BLACK a1 z a2)) (Fr d RB_BLACK y b :: k)) =
      inorder (plug (nd d RB_BLACK f p (nd d RB_RED (nd d RB_BLACK a1 z a2) y b)) k)).
    { cbn [plug]. destruct d; inord. }
    intros [[elm parent]|] S'; cbn [turn_end].
    + intros (g & k' & m & -> & -> & Ht & Hl & Hk' & Hi & Hd). apply HQ. exists g, k', m. split_and!; try done; [by rewrite Hi, Hin | ].
      destruct Hd as [Hd | Hd]; [by left | cbn in Hd; lia].
    + intros (t & m & Ht & Hm & Hi). apply HQ. exists t, m. by rewrite Hi, Hin.
Qed.

(** The root of the whole is not in the hole. *)
Lemma top_in x k : exists y, top (Some x) k = Some y /\ (y = x \/ y ∈ before k ++ after k).
Proof.
  revert x. induction k as [|[d c z s] k IH]; intros x; cbn [top before after]; [exists x; by split; [ | left] | ].
  destruct (IH z) as (y & Hy & Hin). exists y. split; [done | right]. destruct d; cbn; set_solver.
Qed.
Lemma hole_not_root D f d c p s k X S : tree_st D (plug f (Fr d c p s :: k)) X S -> root f <> root (plug f (Fr d c p s :: k)).
Proof.
  intros H%tree_nodup. rewrite root_plug. cbn [top]. intros He. destruct f as [|c' l x r]; cbn [root] in He.
  { by destruct (top_in p k) as (y & Hy & _); rewrite Hy in He. }
  destruct (top_in p k) as (y & Hy & Hin). rewrite Hy in He. injection He as <-.
  rewrite inorder_plug in H. apply NoDup_app in H as (_ & Hb & H). apply NoDup_app in H as (_ & Ha & _).
  assert (Hx : x ∈ inorder (T c' l x r)) by (cbn; set_solver).
  assert (Hc : x ∈ before (Fr d c p s :: k) \/ x ∈ after (Fr d c p s :: k)).
  { cbn [before after]. destruct d, Hin as [-> | Hin]; set_solver. }
  destruct Hc as [Hc | Hc]; [apply (Hb x Hc); set_solver | by apply (Ha x Hx)].
Qed.

(** The loop and the last repainting: with as many turns left as the hole is
    deep, or at a red node. *)
Lemma remove_loop_ok D fuel f k n X S (Q : option loc -> heap -> Prop) :
  tree_st D (plug f k) X S -> lacking n f -> ctx_ok (Datatypes.S n) RB_BLACK k -> red f = true \/ (length k <= fuel)%nat ->
  (forall g k' m S', tree_st D (plug g k') X S' -> rbt m RB_BLACK (plug (blacken g) k') ->
    inorder (plug g k') = inorder (plug f k) -> Q (root g) S') ->
  wp (remove_color_loop fuel (up k) (root f)) S Q.
Proof.
  revert f k n S. induction fuel as [|fuel IH]; intros f k n S H Hl Hk Hf HQ; cbn [remove_color_loop];
    (eapply ewp_bind, is_red_ok; [exact H | ]); ewp_pure; rewrite (st_root _ _ _ _ H);
    (destruct (red f) eqn:Hr; cbn [orb];
      [ ewp_pure; destruct Hl as [Hl | [_ Hl]]; [pose proof (rbt_color _ _ _ Hl) as Hc; cbn in Hc; congruence | ];
        destruct (plug_rbt _ _ _ _ Hl Hk) as [m Hm]; by eapply (HQ f k m) | ]);
    (destruct Hf as [Hf | Hf]; [done | ]);
    (assert (Hb : rbt n RB_BLACK f) by (destruct Hl as [Hl | [Hl _]]; [done | congruence]));
    (destruct k as [|[d pc p s] k];
      [ rewrite bool_decide_eq_true_2 by done; ewp_pure; eapply (HQ f [] n); [exact H | by rewrite (blacken_black _ _ Hb) | done] | ]).
  { cbn in Hf. lia. }
  rewrite bool_decide_eq_false_2 by (by eapply hole_not_root).
  cbn [up need]. ewp_pure.
  assert (Hs : root s <> None).
  { destruct s; [ | done]. destruct pc; cbn in Hk; [destruct Hk as [[c' Hs] _] | destruct Hk as (_ & Hs & _)]; by inversion Hs. }
  assert (Hl' : wp (RB_LEFT p) S (fun l S' => S' = S /\ negb (bool_decide (l = root f)) = d)).
  { destruct d.
    - change RB_LEFT with (child (negb true)). cbn [plug] in H. apply (other_at H). split; [done | ]. rewrite bool_decide_eq_false_2; [done | ].
      destruct (root s) as [z|] eqn:Hz; [ | done]. intros Hy. symmetry in Hy. by eapply (roots_differ _ _ _ _ _ _ _ _ _ _ H Hy).
    - change RB_LEFT with (child false). cbn [plug] in H. apply (child_at H). split; [done | ]. by rewrite bool_decide_eq_true_2. }
  apply ewp_bind. eapply ewp_mono; [exact Hl' | ]. intros l S' [-> Hd]. rewrite Hd. apply ewp_bind.
  eapply remove_side_ok; [exact H | exact Hb | exact Hk | ]. intros [[elm parent]|] S'; cbn [turn_end].
  - intros (g & k' & m & -> & -> & Ht & Hlg & Hk' & Hi & Hd'). eapply IH; [exact Ht | exact Hlg | exact Hk' | | ].
    + destruct Hd' as [Hd' | Hd']; [by left | right; cbn in *; lia].
    + intros g' k2 m' S2 H2 Hm2 Hi2. eapply HQ; [exact H2 | exact Hm2 | by rewrite Hi2]. 
  - intros (t & m & Ht & Hm & Hi). ewp_pure. rewrite (st_root _ _ _ _ Ht). eapply (HQ t [] m); [exact Ht | | exact Hi].
    cbn [plug]. by rewrite (blacken_black _ _ Hm).
Qed.

Lemma RB_REMOVE_COLOR_ok D f k n X S (Q : unit -> heap -> Prop) :
  tree_st D (plug f k) X S -> lacking n f -> ctx_ok (Datatypes.S n) RB_BLACK k ->
  (forall S', mended D X (plug f k) S' -> Q tt S') -> wp (RB_REMOVE_COLOR (up k) (root f)) S Q.
Proof.
  intros H Hl Hk HQ. unfold RB_REMOVE_COLOR. ewp_pure. rewrite (st_size _ _ _ _ H). pose proof (tree_depth _ _ _ _ _ H) as Hd.
  apply ewp_bind. eapply remove_loop_ok; [exact H | exact Hl | exact Hk | right; lia | ]. intros g k' m S' H' Hm Hi.
  eapply when_blacken; [exact H' | ]. intros S2 H2. apply HQ. eexists _, m. split_and!; [exact H2 | exact Hm | ].
  rewrite <- Hi. apply plug_same, inorder_blacken.
Qed.

(* ------------------------------------------------------------------ *)
(** ** Taking a node out *)

(** A node with one subtree at most. *)
Lemma unlink_ok D d c f x K X S (Q : option loc * color -> heap -> Prop) : tree_st D (plug (nd d c f x Nil) K) X S ->
  (forall S', tree_st D (plug f K) ((x, mk d (root f) None (up K) c) :: X) S' -> Q (up K, c) S') -> wp (unlink x (root f)) S Q.
Proof.
  intros H HQ. unfold unlink. apply ewp_bind, (parent_at H). apply ewp_bind, (color_at H).
  apply at_st in H. cbn [cells root app] in H. st_to H (cells (Some x) f ++ (x, mk d (root f) None (up K) c) :: kcells (Some x) K ++ X).
  eapply ewp_bind, when_parent_ok; [exact H | ]. clear S H. intros S H.
  st_to H (kcells (Some x) K ++ (x, mk d (root f) None (up K) c) :: cells (up K) f ++ X).
  eapply ewp_bind, relink_ok; [exact H | by left | ]. clear S H. intros S H. ewp_pure. apply HQ. unfold tree_st. rewrite root_plug, cells_plug.
  eapply st_perm; [exact H | solve_Permutation].
Qed.

(** Another node takes its place. *)
Lemma replace_ok D c l old r k s n0 X S (Q : unit -> heap -> Prop) : tree_st D (plug (T c l old r) k) ((s, n0) :: X) S -> l <> Nil ->
  (forall S', tree_st D (plug (T c l s r) k) ((old, Node (root l) (root r) (up k) c) :: X) S' -> Q tt S') -> wp (replace old s) S Q.
Proof.
  intros H Hl HQ. unfold replace. set (N := Node (root l) (root r) (up k) c).
  assert (H1 : st D (top (Some old) k) ((old, N) :: (s, n0) :: cells (Some old) l ++ cells (Some old) r ++ kcells (Some old) k ++ X) S).
  { change (T c l old r) with (nd false c l old r) in H. apply at_st in H. eapply st_perm; [exact H | cbn [mk]; unfold N; solve_Permutation]. }
  clear H. apply ewp_bind. eapply (fld_ok _ _ _ _ 0); [exact H1 | done | ]. unfold id.
  apply ewp_bind. eapply (upd_ok _ _ _ _ 1); [exact H1 | done | ]. clear S H1. intros S H.
  apply ewp_bind. eapply (fld_ok _ _ _ _ 0); [exact H | done | ]. cbn [N rbe_parent].
  st_to H (kcells (Some old) k ++ (old, N) :: (s, N) :: cells (Some old) l ++ cells (Some old) r ++ X).
  eapply ewp_bind, relink_ok; [exact H | by left | ]. clear S H. intros S H.
  st_to H ((old, N) :: (s, N) :: cells (Some old) l ++ cells (Some old) r ++ kcells (Some s) k ++ X).
  apply ewp_bind. eapply (fld_ok _ _ _ _ 0); [exact H | done | ]. cbn [N rbe_left].
  assert (exists y, root l = Some y) as [y Ey] by (destruct l; [done | by eexists]).
  assert (Hset : set_parent y (Some s) = when (root l) (fun y => set_parent y (Some s))) by by rewrite Ey.
  replace (need (S := heap) (root l)) with (ret (S := heap) y) by by rewrite Ey. ewp_pure. rewrite Hset. st_to H (cells (Some old) l ++ (old, N) :: (s, N) :: cells (Some old) r ++ kcells (Some s) k ++ X).
  eapply ewp_bind, when_parent_ok; [exact H | ]. clear S H. intros S H.
  st_to H ((old, N) :: cells (Some old) r ++ (s, N) :: cells (Some s) l ++ kcells (Some s) k ++ X).
  apply ewp_bind. eapply (fld_ok _ _ _ _ 0); [exact H | done | ]. cbn [N rbe_right].
  st_to H (cells (Some old) r ++ (old, N) :: (s, N) :: cells (Some s) l ++ kcells (Some s) k ++ X).
  eapply when_parent_ok; [exact H | ]. clear S H. intros S H. apply HQ. change (T c l s r) with (nd false c l s r). apply st_at.
  eapply st_perm; [exact H | cbn [mk]; fold N; solve_Permutation].
Qed.

(** As far as a side goes. *)
Definition side_of (f : frame) : bool := let '(Fr d _ _ _) := f in d.
Lemma some_nd d t x : root t = Some x -> exists c a b, t = nd d c a x b.
Proof. destruct t as [|c l y r]; [done | intros [= ->]]. by destruct d; eexists _, _, _. Qed.
Lemma length_nd d c a x b : length (inorder (nd d c a x b)) = (length (inorder a) + 1 + length (inorder b))%nat.
Proof. destruct d; cbn [nd inorder]; rewrite length_app; cbn [length]; lia. Qed.
Lemma extreme_ok D d t x fuel k X S (Q : loc -> heap -> Prop) : tree_st D (plug t k) X S -> root t = Some x -> (length (inorder t) <= 1 + fuel)%nat ->
  (forall c y b ks, t = plug (nd d c Nil y b) ks -> Forall (fun f => side_of f = d) ks -> Q y S) -> wp (extreme fuel d x) S Q.
Proof.
  revert t x k. induction fuel as [|fuel IH]; intros t x k H Hx Hf HQ; cbn [extreme]; destruct (some_nd d _ _ Hx) as (c & a & b & ->);
    rewrite length_nd in Hf; apply ewp_bind, (child_at H); (destruct (root a) as [y|] eqn:Ha;
      [ | destruct a; [ | done]; ewp_pure; by apply (HQ c x b []) ]).
  - destruct (some_nd d _ _ Ha) as (c' & a' & b' & ->). rewrite length_nd in Hf. lia.
  - eapply (IH a y (Fr d c x b :: k)); [by seen H (plug a (Fr d c x b :: k)) | done | lia | ].
    intros c' z b' ks -> Hks. eapply (HQ c' z b' (ks ++ [Fr d c x b])); [by rewrite plug_app | ]. by apply Forall_app; split; [ | by constructor].
Qed.
Lemma augment_ok D t k x fuel X S (Q : unit -> heap -> Prop) : tree_st D (plug t k) X S -> root t = Some x -> (length k <= fuel)%nat ->
  Q tt S -> wp (augment_up fuel x) S Q.
Proof.
  revert t k x. induction fuel as [|fuel IH]; intros t k x H Hx Hf HQ; cbn [augment_up]; destruct (some_nd false _ _ Hx) as (c & a & b & ->);
    apply ewp_bind, (parent_at H); (destruct k as [|[d c' p s] k]; cbn [up]; [by ewp_pure | ]); cbn in Hf; [lia | ].
  eapply (IH _ k p); [exact H | by rewrite root_nd | lia | done].
Qed.

(** The colours come right again. *)
Lemma unlinked_ok D d c f x K m X S (Q : unit -> heap -> Prop) : tree_st D (plug f K) X S -> rbt m RB_BLACK (plug (nd d c f x Nil) K) ->
  (forall S', mended D X (plug f K) S' -> Q tt S') -> wp (if is_black c then RB_REMOVE_COLOR (up K) (root f) else ret tt) S Q.
Proof.
  intros H Hm HQ. apply rbt_plug in Hm as (n & c' & Hx & HK). destruct c; cbn [is_black].
  - apply black_nd in Hx as (-> & n' & cf & cn & -> & Hf & Hn). inversion Hn; subst. eapply (RB_REMOVE_COLOR_ok _ _ _ 0); [exact H | | exact HK | done].
    destruct cf; [by left | right]. pose proof (rbt_color _ _ _ Hf) as Hr. cbn in Hr. split; [done | by eapply rbt_blacken].
  - apply red_nd in Hx as (-> & Hf & _). ewp_pure. apply HQ. destruct (plug_rbt _ _ f K Hf) as [m' Hm']; [by eapply ctx_weaken | ]. by exists (plug f K), m'.
Qed.
(** Which node it is does not matter to the colours. *)
Lemma rbt_relabel m t ks d c x y s k : rbt m RB_BLACK (plug t (ks ++ Fr d c x s :: k)) ->
  exists m', rbt m' RB_BLACK (plug t (ks ++ Fr d c y s :: k)).
Proof.
  rewrite !plug_app. cbn [plug]. intros H. apply rbt_plug in H as (n & c' & Hn & Hk). destruct c.
  - apply black_nd in Hn as (-> & n' & ca & cb & -> & Ha & Hb). eapply plug_rbt; [by eapply nd_black | exact Hk].
  - apply red_nd in Hn as (-> & Ha & Hb). eapply plug_rbt; [by apply nd_red | exact Hk].
Qed.

(** What removal leaves: the node outside, the others in order, the colours
    right. *)
Definition removed (D : gset loc) (X : list (loc * node)) (x : loc) (rest : list loc) (S : heap) : Prop :=
  exists t m n, tree_st D t ((x, n) :: X) S /\ rbt m RB_BLACK t /\ inorder t = rest.

(** Two children. *)
Lemma left_before ks : Forall (fun f => side_of f = false) ks -> before ks = [].
Proof. induction 1 as [|[d c x s] ks Hd _ IH]; [done | ]. cbn in Hd. subst d. cbn. by rewrite IH. Qed.
Lemma augment_from D t K fuel X S (Q : unit -> heap -> Prop) : tree_st D (plug t K) X S -> (length K <= fuel)%nat -> Q tt S ->
  wp (when (up K) (augment_up fuel)) S Q.
Proof.
  intros H Hf HQ. destruct K as [|[d c z s] K]; cbn [up when]; [by ewp_pure | ]. cbn in Hf.
  eapply (augment_ok D (nd d c t z s) K); [exact H | by rewrite root_nd | lia | done].
Qed.
(** The hole is right below [old], or below another node. *)
Lemma hole_parent D t ks c old l k X S : tree_st D (plug t (ks ++ Fr true c old l :: k)) X S ->
  (if bool_decide (up (ks ++ Fr true c old l :: k) = Some old) then forall z, Some z = up (ks ++ Fr true c z l :: k)
   else forall z, up (ks ++ Fr true c old l :: k) = up (ks ++ Fr true c z l :: k)).
Proof.
  intros H%tree_nodup. destruct ks as [|[d c' z s] ks]; cbn [app up]; [by rewrite bool_decide_eq_true_2 | ].
  rewrite bool_decide_eq_false_2; [done | ]. intros [= ->].
  rewrite plug_app in H. cbn [plug nd] in H. rewrite inorder_plug in H. cbn [inorder] in H.
  apply NoDup_app in H as (_ & _ & H). apply NoDup_app in H as (H & _ & _). apply NoDup_app in H as (_ & _ & H).
  apply NoDup_cons in H as [H _]. apply H. rewrite inorder_plug. rewrite !elem_of_app. right. left. destruct d; cbn; set_solver.
Qed.
Lemma splice_ok D c l old r rx k m X S (Q : option loc * color * option loc -> heap -> Prop) :
  tree_st D (plug (T c l old r) k) X S -> rbt m RB_BLACK (plug (T c l old r) k) -> l <> Nil -> root r = Some rx ->
  (forall f K cs y n0 m' S', tree_st D (plug f K) ((old, n0) :: X) S' -> rbt m' RB_BLACK (plug (nd true cs f y Nil) K) ->
    inorder (plug f K) = before k ++ (inorder l ++ inorder r) ++ after k -> Q (up K, cs, root f) S') ->
  wp (splice old rx) S Q.
Proof.
  intros H Hm Hl Hr HQ. unfold splice. ewp_pure. rewrite (st_size _ _ _ _ H). pose proof (tree_depth _ _ _ _ _ H) as Hd.
  cbn [inorder] in Hd. rewrite length_app in Hd. cbn [length] in Hd.
  seen H (plug r (Fr true c old l :: k)). eapply ewp_bind, (extreme_ok _ false); [exact H | exact Hr | lia | ]. intros cs y rs ks -> Hks.
  set (K0 := ks ++ Fr true c old l :: k). change RB_RIGHT with (child (negb false)).
  apply (see _ _ (plug (nd false cs Nil y rs) K0)) in H; [ | unfold K0; by rewrite plug_app]. apply ewp_bind, (other_at H).
  seen H (plug (nd true cs rs y Nil) K0). eapply ewp_bind, unlink_ok; [exact H | ]. clear S H. intros S H.
  set (N := mk true _ _ _ _) in H.
  assert (Hp : wp (RB_PARENT y) S (fun p S' => S' = S /\ p = up K0)).
  { eapply (fld_ok _ _ _ ((y, N) :: cells None (plug rs K0) ++ X) 0); [eapply st_perm; [exact H | solve_Permutation] | done | done]. }
  apply ewp_bind. eapply ewp_mono; [exact Hp | ]. intros p S' [-> ->]. clear Hp.
  pose proof (hole_parent _ _ _ _ _ _ _ _ _ H) as Hpar. fold K0 in Hpar. set (K1 := ks ++ Fr true c y l :: k).
  assert (Hup : (if bool_decide (up K0 = Some old) then Some y else up K0) = up K1) by (case_bool_decide; apply Hpar).
  cbn [fst snd]. rewrite Hup. clear Hpar Hup.
  apply (see _ _ (plug (T c l old (plug rs ks)) k)) in H; [ | unfold K0; by rewrite plug_app].
  eapply ewp_bind, replace_ok; [exact H | exact Hl | ]. clear S H. intros S H.
  apply (see _ _ (plug rs K1)) in H; [ | unfold K1; by rewrite plug_app].
  pose proof (tree_depth _ _ _ _ _ H) as HdK. eapply ewp_bind, augment_from; [exact H | lia | ]. ewp_pure.
  destruct (rbt_relabel m (nd true cs rs y Nil) ks true c old y l k) as [m' Hm'].
  { rewrite plug_app. exact Hm. }
  eapply HQ; [exact H | exact Hm' | ].
  unfold K1. rewrite plug_app. cbn [plug nd]. rewrite inorder_plug. cbn [inorder nd]. rewrite !inorder_plug, (left_before _ Hks). cbn [nd inorder app].
  done.
Qed.

Lemma RB_REMOVE_ok D c l x r k m X S (Q : loc -> heap -> Prop) : tree_st D (plug (T c l x r) k) X S -> rbt m RB_BLACK (plug (T c l x r) k) ->
  (forall S', removed D X x (before k ++ (inorder l ++ inorder r) ++ after k) S' -> Q x S') -> wp (RB_REMOVE x) S Q.
Proof.
  intros H Hm HQ. unfold RB_REMOVE.
  change RB_LEFT with (child false). change RB_RIGHT with (child (negb false)).
  pose proof H as H0. seen H0 (plug (nd false c l x r) k). apply ewp_bind, (child_at H0). apply ewp_bind, (other_at H0). clear H0.
  assert (Hend : forall d f K n0 c0 y m1 S', tree_st D (plug f K) ((x, n0) :: X) S' -> rbt m1 RB_BLACK (plug (nd d c0 f y Nil) K) ->
    inorder (plug f K) = before k ++ (inorder l ++ inorder r) ++ after k ->
    wp ((if is_black c0 then RB_REMOVE_COLOR (up K) (root f) else ret tt);; ret x) S' Q).
  { intros d f K n0 c0 y m1 S' H' Hm' Hi. eapply ewp_bind, unlinked_ok; [exact H' | exact Hm' | ]. intros S2 (t & m' & H2 & Hm2 & Hi2). ewp_pure.
    apply HQ. exists t, m', n0. split_and!; [done | done | congruence]. }
  destruct l as [|lc ll lx lr].
  - apply ewp_bind. change (root Nil) with (@None loc). cbv iota beta. seen H (plug (nd true c r x Nil) k).
    eapply ewp_bind, unlink_ok; [exact H | ]. intros S' H'. ewp_pure. cbn [fst snd]. eapply (Hend true); [exact H' | exact Hm | by rewrite inorder_plug].
  - destruct r as [|rc rl rx rr].
    + apply ewp_bind. cbn [root]. seen H (plug (nd false c (T lc ll lx lr) x Nil) k). change (Some lx) with (root (T lc ll lx lr)).
      eapply ewp_bind, unlink_ok; [exact H | ]. intros S' H'. ewp_pure. cbn [fst snd]. eapply (Hend false); [exact H' | exact Hm | ].
      rewrite inorder_plug. cbn [inorder]. by rewrite app_nil_r.
    + apply ewp_bind. cbn [root]. eapply splice_ok; [exact H | exact Hm | done | done | ]. intros f K cs y n0 m' S' H' Hm' Hi. by eapply (Hend true).
Qed.
