(* ===== verification/RbOrd.v ===== *)
(** RbOrd: searching along the order of the client's comparison, and what
    insertion does to the nodes in order; least and greatest, next and previous,
    and how deep a tree is. *)

From Stdlib Require Import Sorted.
From stdpp Require Import gmap.
From S2P Require Import Prelude Eff RbTree RbRep RbInsert RbRemove.

Open Scope eff_scope.

(** A comparison that orders the keys: equal keys are interchangeable. *)
Class KeyOrder (cmp : loc -> loc -> Z) : Prop := {
  key_flip x y : cmp x y < 0 <-> 0 < cmp y x;
  key_trans x y z : cmp x y < 0 -> cmp y z < 0 -> cmp x z < 0;
  key_eq x y z : cmp x y = 0 -> cmp y z < 0 -> cmp x z < 0 }.

Section Order.
Context (cmp : loc -> loc -> Z) {HO : KeyOrder cmp}.

Definition key_lt (x y : loc) : Prop := cmp x y < 0.
(** The nodes in order. *)
Definition ordered (l : list loc) : Prop := StronglySorted key_lt l.
Definition same_key (elm x : loc) : bool := cmp elm x =? 0.
Definition not_after (elm x : loc) : bool := cmp elm x <=? 0.
Fixpoint insert_in (elm : loc) (l : list loc) : list loc :=
  match l with [] => [elm] | x :: l' => if cmp elm x <? 0 then elm :: l else x :: insert_in elm l' end.

Lemma lt_keys_l elm x y : cmp elm x < 0 -> key_lt x y -> cmp elm y < 0.
Proof. apply key_trans. Qed.
Lemma lt_keys_r elm x y : 0 < cmp elm y -> key_lt x y -> 0 < cmp elm x.
Proof. intros H1 H2. apply key_flip. apply key_flip in H1. by eapply key_trans. Qed.

(** The key is after all that is before the hole and before all that is after. *)
Definition between (elm : loc) (k : ctx) : Prop :=
  Forall (fun x => 0 < cmp elm x) (before k) /\ Forall (fun x => cmp elm x < 0) (after k).

Lemma ordered_app l1 l2 : ordered (l1 ++ l2) <-> ordered l1 /\ ordered l2 /\ forall x y, x ∈ l1 -> y ∈ l2 -> key_lt x y.
Proof.
  induction l1 as [|a l1 IH]; cbn.
  { split; [intros H; split_and!; [constructor | done | by intros x y Hx%not_elem_of_nil] | tauto]. }
  split.
  - intros H. apply StronglySorted_inv in H as [H Ha]. apply IH in H as (H1 & H2 & H3). apply Forall_app in Ha as [Ha1 Ha2]. split_and!.
    + by constructor.
    + done.
    + intros x y [-> | Hx]%elem_of_cons Hy; [by eapply (proj1 (Forall_forall _ _) Ha2) | by apply H3].
  - intros (H1 & H2 & H3). apply StronglySorted_inv in H1 as [H1 Ha]. constructor.
    + apply IH. split_and!; [done | done | intros x y Hx Hy; apply H3; [by right | done]].
    + apply Forall_app. split; [done | ]. apply Forall_forall. intros y Hy. apply H3; [by left | done].
Qed.
Lemma ordered_hole t k : ordered (inorder (plug t k)) ->
  ordered (inorder t) /\ forall x y z, x ∈ before k -> y ∈ inorder t -> z ∈ after k -> key_lt x y /\ key_lt y z.
Proof.
  rewrite inorder_plug, !ordered_app. intros (_ & (H1 & _ & H2) & H3). split; [done | ]. intros x y z Hx Hy Hz.
  split; [apply H3; [done | apply elem_of_app; by left] | by apply H2].
Qed.

(** Down a level: the key is on one side of the node or has found it. *)
Lemma between_left elm c l x r k : ordered (inorder (plug (T c l x r) k)) -> between elm k -> cmp elm x < 0 ->
  between elm (Fr false c x r :: k).
Proof.
  rewrite inorder_plug, !ordered_app. cbn [inorder]. rewrite !ordered_app. intros (_ & ((_ & Hr & _) & _ & _) & _) [Hb Ha] Hc.
  split; cbn [before after]; [by rewrite app_nil_r | ]. apply Forall_cons. split; [done | ]. apply Forall_app. split; [ | done].
  apply StronglySorted_inv in Hr as [_ Hr]. eapply Forall_impl; [exact Hr | ]. intros y Hy. by eapply lt_keys_l.
Qed.
Lemma between_right elm c l x r k : ordered (inorder (plug (T c l x r) k)) -> between elm k -> 0 < cmp elm x ->
  between elm (Fr true c x l :: k).
Proof.
  rewrite inorder_plug, !ordered_app. cbn [inorder]. rewrite !ordered_app. intros (_ & ((_ & _ & Hl) & _ & _) & _) [Hb Ha] Hc.
  split; cbn [before after]; [ | done]. apply Forall_app. split; [done | ]. apply Forall_app. split; [ | by repeat constructor].
  apply Forall_forall. intros y Hy. eapply lt_keys_r; [exact Hc | ]. apply Hl; [done | by left].
Qed.

Lemma find_app p (l1 l2 : list loc) : List.find p (l1 ++ l2) = match List.find p l1 with Some x => Some x | None => List.find p l2 end.
Proof. induction l1 as [|a l1 IH]; cbn; [done | ]. by destruct (p a). Qed.
Lemma find_none p (l : list loc) : Forall (fun x => p x = false) l -> List.find p l = None.
Proof. induction 1 as [|a l Ha _ IH]; cbn; [done | by rewrite Ha]. Qed.
Lemma between_find elm k l : between elm k ->
  List.find (same_key elm) (before k ++ l ++ after k) = List.find (same_key elm) l.
Proof.
  intros [Hb Ha]. rewrite !find_app, find_none.
  - destruct (List.find _ l); [done | ]. apply find_none. eapply Forall_impl; [exact Ha | ]. intros x Hx. apply Z.eqb_neq. cbn in Hx. lia.
  - eapply Forall_impl; [exact Hb | ]. intros x Hx. apply Z.eqb_neq. cbn in Hx. lia.
Qed.
(** The node met is the one sought. *)
Lemma found_here elm c l x r k : ordered (inorder (plug (T c l x r) k)) -> between elm k -> cmp elm x = 0 ->
  List.find (same_key elm) (inorder (plug (T c l x r) k)) = Some x.
Proof.
  intros Ho Hb Hc. rewrite inorder_plug, between_find by done. apply ordered_hole in Ho as [Ho _]. cbn [inorder] in *.
  apply ordered_app in Ho as (_ & _ & Ho). rewrite find_app, find_none.
  - cbn. unfold same_key. by rewrite Hc.
  - apply Forall_forall. intros y Hy. apply Z.eqb_neq. assert (Hyx : key_lt y x) by (apply Ho; [done | by left]).
    intros He. unfold key_lt in Hyx. pose proof (key_eq elm y x He Hyx). lia.
Qed.

Lemma insert_between elm k : between elm k -> insert_in elm (before k ++ after k) = before k ++ elm :: after k.
Proof.
  intros [Hb Ha]. induction Hb as [|x l Hx _ IH]; cbn.
  - destruct Ha as [|y l Hy _]; cbn; [done | ]. by rewrite (proj2 (Z.ltb_lt _ _)).
  - rewrite (proj2 (Z.ltb_ge _ _)) by lia. by rewrite IH.
Qed.

(* ------------------------------------------------------------------ *)
(** ** Searching *)

(** A node met on the way down. *)
Lemma down_left D c l x r k X S (Q : option loc -> heap -> Prop) :
  tree_st D (plug (T c l x r) k) X S -> Q (root l) S -> wp (RB_LEFT x) S Q.
Proof. intros H HQ. change RB_LEFT with (child false). seen H (plug (nd false c l x r) k). by apply (child_at H). Qed.
Lemma down_right D c l x r k X S (Q : option loc -> heap -> Prop) :
  tree_st D (plug (T c l x r) k) X S -> Q (root r) S -> wp (RB_RIGHT x) S Q.
Proof. intros H HQ. change RB_RIGHT with (child (negb false)). seen H (plug (nd false c l x r) k). by apply (other_at H). Qed.

Lemma find_loop_ok D X fuel elm t k S : tree_st D (plug t k) X S -> ordered (inorder (plug t k)) -> between elm k ->
  (depth t <= fuel)%nat ->
  wp (find_loop cmp fuel elm (root t)) S (fun r S' => S' = S /\ r = List.find (same_key elm) (inorder (plug t k))).
Proof.
  revert t k. induction fuel as [|fuel IH]; intros t k H Ho Hb Hf; (destruct t as [|c l x r]; cbn [root find_loop];
    [ewp_pure; split; [done | ]; by rewrite inorder_plug, between_find | ]); cbn [depth] in Hf; [lia | ].
  destruct (Z.ltb_spec (cmp elm x) 0) as [Hc | Hc]; [ | destruct (Z.ltb_spec 0 (cmp elm x)) as [Hc' | Hc']].
  - eapply ewp_bind, down_left; [exact H | ]. apply (IH l (Fr false c x r :: k)); [exact H | exact Ho | by eapply between_left | lia].
  - eapply ewp_bind, down_right; [exact H | ]. apply (IH r (Fr true c x l :: k)); [exact H | exact Ho | by eapply between_right | lia].
  - ewp_pure. split; [done | ]. symmetry. apply found_here; [done | done | lia].
Qed.

Lemma not_before_app elm l1 l2 : Forall (fun x => 0 < cmp elm x) l1 ->
  List.find (not_after elm) (l1 ++ l2) = List.find (not_after elm) l2.
Proof.
  intros H. rewrite find_app, find_none; [done | ]. eapply Forall_impl; [exact H | ]. intros x Hx. apply Z.leb_gt. exact Hx.
Qed.
Lemma nfind_loop_ok D X fuel elm t k S : tree_st D (plug t k) X S -> ordered (inorder (plug t k)) -> between elm k ->
  (length (inorder t) < fuel)%nat ->
  wp (nfind_loop cmp fuel elm (root t) (head (after k))) S (fun r S' => S' = S /\ r = List.find (not_after elm) (inorder (plug t k))).
Proof.
  revert t k. induction fuel as [|fuel IH]; intros t k H Ho Hb Hf; [lia | ]. destruct t as [|c l x r]; cbn [root nfind_loop].
  { ewp_pure. split; [done | ]. rewrite inorder_plug. cbn [inorder app]. destruct Hb as [Hb Ha]. rewrite not_before_app by done.
    destruct Ha as [|y l Hy _]; cbn; [done | ]. unfold not_after. by rewrite (proj2 (Z.leb_le _ _)) by lia. }
  cbn [inorder] in Hf. rewrite length_app in Hf. cbn [length] in Hf.
  destruct (Z.ltb_spec (cmp elm x) 0) as [Hc | Hc]; [ | destruct (Z.ltb_spec 0 (cmp elm x)) as [Hc' | Hc']].
  - eapply ewp_bind, down_left; [exact H | ]. apply (IH l (Fr false c x r :: k)); [exact H | exact Ho | by eapply between_left | lia].
  - eapply ewp_bind, down_right; [exact H | ]. apply (IH r (Fr true c x l :: k)); [exact H | exact Ho | by eapply between_right | lia].
  - ewp_pure. split; [done | ]. rewrite inorder_plug. destruct Hb as [Hb _]. rewrite not_before_app by done.
    apply ordered_hole in Ho as [Ho _]. cbn [inorder] in *. apply ordered_app in Ho as (_ & _ & Ho). rewrite <- app_assoc, not_before_app.
    + cbn. unfold not_after. by rewrite (proj2 (Z.leb_le _ _)) by lia.
    + apply Forall_forall. intros y Hy. assert (Hyx : key_lt y x) by (apply Ho; [done | by left]). unfold key_lt in Hyx.
      destruct (Z.lt_trichotomy (cmp elm y) 0) as [Hl | [He | Hg]]; [ | | done]; exfalso.
      * pose proof (key_trans elm y x Hl Hyx). lia.
      * pose proof (key_eq elm y x He Hyx). lia.
Qed.

(** Where the search for insertion ends: at the node with the key, or in the hole
    where it belongs. *)
Lemma insert_search_ok D X fuel elm t k comp S (Q : loc + option loc * Z -> heap -> Prop) :
  tree_st D (plug t k) X S -> ordered (inorder (plug t k)) -> between elm k -> (length (inorder t) < fuel)%nat ->
  (forall d c x s k', k = Fr d c x s :: k' -> (comp <? 0) = negb d) ->
  (forall x, List.find (same_key elm) (inorder (plug t k)) = Some x -> Q (inl x) S) ->
  (forall k' comp', List.find (same_key elm) (inorder (plug t k)) = None -> plug Nil k' = plug t k -> between elm k' ->
    (forall d c x s k'', k' = Fr d c x s :: k'' -> (comp' <? 0) = negb d) -> Q (inr (up k', comp')) S) ->
  wp (insert_search cmp fuel elm (root t) (up k) comp) S Q.
Proof.
  revert t k comp. induction fuel as [|fuel IH]; intros t k comp H Ho Hb Hf Hk HQ1 HQ2; [lia | ]. destruct t as [|c l x r]; cbn [root insert_search].
  { ewp_pure. apply HQ2; [ | done | done | done]. by rewrite inorder_plug, between_find. }
  cbn [inorder] in Hf. rewrite length_app in Hf. cbn [length] in Hf.
  destruct (Z.ltb_spec (cmp elm x) 0) as [Hc | Hc]; [ | destruct (Z.ltb_spec 0 (cmp elm x)) as [Hc' | Hc']].
  - eapply ewp_bind, down_left; [exact H | ]. apply (IH l (Fr false c x r :: k)); [exact H | exact Ho | by eapply between_left | lia | | done | done].
    intros d' c' x' s' k' [= <- _ _ _ _]. by apply Z.ltb_lt.
  - eapply ewp_bind, down_right; [exact H | ]. apply (IH r (Fr true c x l :: k)); [exact H | exact Ho | by eapply between_right | lia | | done | done].
    intros d' c' x' s' k' [= <- _ _ _ _]. apply Z.ltb_ge. lia.
  - ewp_pure. apply HQ1, found_here; [done | done | lia].
Qed.
End Order.

(** The end of a list on a side, and what comes after an element of it. *)
Definition end_of (d : bool) (l : list loc) : option loc := if d then last l else head l.
Fixpoint next_in (x : loc) (l : list loc) : option loc :=
  match l with [] => None | y :: l' => if bool_decide (y = x) then head l' else next_in x l' end.
Definition step_in (d : bool) (x : loc) (l : list loc) : option loc := next_in x (if d then l else reverse l).

Lemma next_in_app x l1 l2 : x ∉ l1 -> next_in x (l1 ++ x :: l2) = head l2.
Proof.
  induction l1 as [|y l1 IH]; cbn; [by rewrite bool_decide_eq_true_2 | ]. intros [Hy Hl]%not_elem_of_cons.
  rewrite bool_decide_eq_false_2 by congruence. by apply IH.
Qed.
Lemma last_as_head (l : list loc) : last l = head (reverse l).
Proof.
  destruct l as [|x l _] using rev_ind; [done | ]. by rewrite last_snoc, reverse_snoc.
Qed.
Lemma head_app (l1 l2 : list loc) : head (l1 ++ l2) = match head l1 with Some x => Some x | None => head l2 end.
Proof. by destruct l1. Qed.
Lemma last_app (l1 l2 : list loc) : last (l1 ++ l2) = match last l2 with Some x => Some x | None => last l1 end.
Proof. rewrite !last_as_head, reverse_app, head_app. done. Qed.

(** All the way up on one side nothing comes before. *)
Lemma right_after ks : Forall (fun f => side_of f = true) ks -> after ks = [].
Proof. induction 1 as [|[d c x s] ks Hd _ IH]; [done | ]. cbn in Hd. subst d. cbn. exact IH. Qed.

(** [RB_MIN] and [RB_MAX]. *)
Lemma minmax_loop_ok D d X fuel t k S : tree_st D (plug t k) X S -> Forall (fun f => side_of f = d) k -> (length (inorder t) < fuel)%nat ->
  wp (minmax_loop fuel d (root t) (up k)) S (fun r S' => S' = S /\ r = end_of d (inorder (plug t k))).
Proof.
  revert t k. induction fuel as [|fuel IH]; intros t k H Hk Hf; [lia | ]. destruct (root t) as [x|] eqn:Hx; cbn [minmax_loop].
  - destruct (some_nd d _ _ Hx) as (c & a & b & ->). rewrite length_nd in Hf. apply ewp_bind, (child_at H).
    apply (IH a (Fr d c x b :: k)); [exact H | by constructor | lia].
  - ewp_pure. split; [done | ]. destruct t; [ | done]. rewrite inorder_plug. cbn [inorder app].
    destruct k as [|[d' c x s] k]; [by destruct d | ]. apply Forall_cons in Hk as [Hd Hk]. cbn in Hd. subst d'. cbn [up before after].
    destruct d; cbn [end_of app].
    + rewrite (right_after _ Hk), !last_app. done.
    + by rewrite (left_before _ Hk).
Qed.
Lemma RB_MINMAX_ok D d t X S : tree_st D t X S -> wp (RB_MINMAX d) S (fun r S' => S' = S /\ r = end_of d (inorder t)).
Proof.
  intros H. unfold RB_MINMAX. ewp_pure. rewrite (st_size _ _ _ _ H), (st_root _ _ _ _ H).
  apply (minmax_loop_ok D d X _ t []); [exact H | constructor | ]. pose proof (tree_depth _ t [] _ _ H). lia.
Qed.

(** What comes after the hole, or before it. *)
Definition beyond (d : bool) (k : ctx) : option loc := if d then head (after k) else last (before k).
Lemma beyond_same d c x s k : beyond d (Fr d c x s :: k) = beyond d k.
Proof. destruct d; cbn; [done | by rewrite app_nil_r]. Qed.
Lemma beyond_other d c x s k : beyond d (Fr (negb d) c x s :: k) = Some x.
Proof. destruct d; cbn; [done | ]. by rewrite !last_app. Qed.

Lemma climb_ok D d X fuel t k x S : tree_st D (plug t k) X S -> root t = Some x -> (length k <= fuel)%nat ->
  wp (climb fuel d x) S (fun r S' => S' = S /\ r = beyond d k).
Proof.
  revert t k x. induction fuel as [|fuel IH]; intros t k x H Hx Hf; cbn [climb]; destruct (some_nd d _ _ Hx) as (c & a & b & ->);
    apply ewp_bind, (parent_at H); (destruct k as [|[d' c' q s] k]; cbn [up]; [ewp_pure; by destruct d | ]); cbn in Hf; [lia | ].
  cbn [plug] in H. destruct (decide (d' = d)) as [-> | Hd].
  - apply ewp_bind, (child_at H). rewrite root_nd, bool_decide_eq_true_2, beyond_same by done. eapply IH; [exact H | by rewrite root_nd | lia].
  - assert (d' = negb d) as -> by (by destruct d, d'). rewrite beyond_other. rewrite nd_flip in H. apply ewp_bind, (child_at H).
    rewrite bool_decide_eq_false_2; [by ewp_pure | ]. intros Hs. eapply (roots_differ _ _ _ _ _ _ _ _ _ _ H Hs). by rewrite root_nd.
Qed.

Lemma RB_STEP_ok D d c a x b k X S : tree_st D (plug (nd d c a x b) k) X S ->
  wp (RB_STEP d x) S (fun r S' => S' = S /\ r = step_in d x (inorder (plug (nd d c a x b) k))).
Proof.
  intros H. unfold RB_STEP. ewp_pure. rewrite (st_size _ _ _ _ H). pose proof (tree_depth _ _ _ _ _ H) as Hd. rewrite length_nd in Hd.
  assert (Hans : step_in d x (inorder (plug (nd d c a x b) k)) = match end_of (negb d) (inorder a) with Some y => Some y | None => beyond d k end).
  { pose proof (tree_nodup _ _ _ _ H) as Hn. rewrite inorder_plug in *. unfold step_in. destruct d; cbn [nd inorder negb end_of beyond] in *.
    - replace (before k ++ (inorder b ++ x :: inorder a) ++ after k) with ((before k ++ inorder b) ++ x :: inorder a ++ after k) in *
        by (by rewrite <- !app_assoc). apply NoDup_app in Hn as (_ & Hn & _). rewrite next_in_app, head_app; [done | ].
      intros Hx. apply (Hn x Hx). by left.
    - replace (before k ++ (inorder a ++ x :: inorder b) ++ after k) with ((before k ++ inorder a) ++ x :: inorder b ++ after k) in *
        by (by rewrite <- !app_assoc). apply NoDup_app in Hn as (_ & _ & Hn). apply NoDup_cons in Hn as [Hn _].
      rewrite reverse_app, reverse_cons, <- app_assoc. cbn [app]. rewrite next_in_app by (by rewrite elem_of_reverse).
      by rewrite <- last_as_head, last_app. }
  rewrite Hans. clear Hans. apply ewp_bind, (child_at H). destruct (root a) as [y|] eqn:Hy.
  - apply ewp_bind. seen H (plug a (Fr d c x b :: k)). eapply (extreme_ok _ (negb d)); [exact H | exact Hy | lia | ].
    intros c' z b' ks -> Hks. ewp_pure. split; [done | ]. rewrite inorder_plug. destruct d; cbn [negb end_of nd inorder] in *.
    + by rewrite (left_before _ Hks).
    + by rewrite (right_after _ Hks), app_nil_r, !last_app.
  - destruct a; [ | done]. cbn [inorder]. assert (Hb : end_of (negb d) [] = None) by by destruct d. rewrite Hb.
    apply ewp_bind, (parent_at H). assert (Hc : wp (climb (size D) d x) S (fun r S' => S' = S /\ r = beyond d k)).
    { eapply climb_ok; [exact H | by rewrite root_nd | lia]. }
    destruct k as [|[d' c' q s] k]; cbn [up]; [by ewp_pure | ]. cbn [plug] in H. destruct (decide (d' = d)) as [-> | Hne].
    + apply ewp_bind, ewp_bind, (other_at H). rewrite bool_decide_eq_false_2; [by ewp_pure | ].
      eapply (roots_differ _ _ _ _ _ _ _ _ _ _ H). by rewrite root_nd.
    + assert (d' = negb d) as -> by (by destruct d, d'). apply ewp_bind, ewp_bind, (child_at H).
      rewrite root_nd, bool_decide_eq_true_2 by done. ewp_pure. by rewrite beyond_other.
Qed.
