(* ===== verification/RbSpec.v ===== *)
(** RbSpec: the red-black tree is an ordered list: every sequence of calls gives
    the answers of the list, the depth is logarithmic, and the registers of the
    console and of the settings are such lists. *)

From Stdlib Require Import Sorted.
From stdpp Require Import gmap.
From S2P Require Import Prelude Eff ByteStr Cli Settings RbTree RbRep RbInsert RbOrd RbRemove.

Open Scope eff_scope.

(** A red-black tree with the nodes [l] in order stands in memory. *)
Definition tree_of (l : list loc) (S : heap) : Prop :=
  exists t m, tree_st (dom (nodes S)) t [] S /\ rbt m RB_BLACK t /\ inorder t = l.
Lemma tree_of_empty m : tree_of [] (Heap None m).
Proof. exists Nil, 0%nat. split_and!; [split; by try constructor | constructor | done]. Qed.

(** A node in memory beside the tree. *)
Lemma st_add D rt L S x : st D rt L S -> x ∈ D -> x ∉ L.*1 -> exists n, st D rt (L ++ [(x, n)]) S.
Proof.
  intros [Hr Hd Hn Hc] Hx Hl. rewrite <- Hd in Hx. apply elem_of_dom in Hx as [n Hx]. exists n. split; try done.
  - rewrite fmap_app. apply NoDup_app. split_and!; [done | | by apply NoDup_singleton]. intros y Hy Hy'.
    apply list_elem_of_singleton in Hy' as ->. done.
  - apply Forall_app. split; [done | ]. by constructor.
Qed.
Lemma st_drop D rt L L' S : st D rt (L ++ L') S -> st D rt L S.
Proof.
  intros [Hr Hd Hn Hc]. split; try done; [rewrite fmap_app in Hn; by apply NoDup_app in Hn as [Hn _] | by apply Forall_app in Hc as [Hc _]].
Qed.
Lemma tree_drop D t X S : tree_st D t X S -> tree_st D t [] S.
Proof. intros H. unfold tree_st. rewrite app_nil_r. by eapply st_drop. Qed.
Lemma tree_of_st D t X S m : tree_st D t X S -> rbt m RB_BLACK t -> tree_of (inorder t) S /\ dom (nodes S) = D.
Proof. intros H Hm. pose proof H as [_ Hd _ _]. split; [ | done]. exists t, m. rewrite Hd. split_and!; [by eapply tree_drop | done | done]. Qed.
Lemma tree_of_in l S x : tree_of l S -> x ∈ l -> exists c a b k m, tree_st (dom (nodes S)) (plug (T c a x b) k) [] S /\
  rbt m RB_BLACK (plug (T c a x b) k) /\ l = before k ++ (inorder a ++ x :: inorder b) ++ after k /\ NoDup l.
Proof.
  intros (t & m & H & Hm & <-) Hx. assert (Hk : exists c a b k, t = plug (T c a x b) k).
  { clear H Hm. induction t as [|c a IHa y b IHb]; cbn in Hx; [by apply not_elem_of_nil in Hx | ].
    apply elem_of_app in Hx as [Hx | [-> | Hx]%elem_of_cons].
    - destruct (IHa Hx) as (c' & a' & b' & k & ->). exists c', a', b', (k ++ [Fr false c y b]). by rewrite plug_app.
    - by exists c, a, b, [].
    - destruct (IHb Hx) as (c' & a' & b' & k & ->). exists c', a', b', (k ++ [Fr true c y a]). by rewrite plug_app. }
  destruct Hk as (c & a & b & k & ->). exists c, a, b, k, m. split_and!; [done | done | by rewrite inorder_plug | by eapply tree_nodup].
Qed.

(* ------------------------------------------------------------------ *)
(** ** The calls *)

Section Calls.
Context (cmp : loc -> loc -> Z) {HO : KeyOrder cmp}.

Lemma all_between elm : between cmp elm [].
Proof. by split. Qed.

Lemma RB_INSERT_ok l S elm : tree_of l S -> ordered cmp l -> elm ∈ dom (nodes S) -> elm ∉ l ->
  wp (RB_INSERT cmp elm) S (fun r S' => dom (nodes S') = dom (nodes S) /\
    match List.find (same_key cmp elm) l with
    | Some x => r = Some x /\ S' = S
    | None => r = None /\ tree_of (insert_in cmp elm l) S'
    end).
Proof.
  intros (t & m & H & Hm & <-) Ho Hx Hl. apply (st_add _ _ _ _ elm) in H as [n0 H]; [ | done | by rewrite app_nil_r, cells_locs].
  rewrite app_nil_r in H. change (tree_st (dom (nodes S)) t [(elm, n0)] S) in H. set (D := dom (nodes S)) in *.
  unfold RB_INSERT. ewp_pure. rewrite (st_size _ _ _ _ H), (st_root _ _ _ _ H). apply ewp_bind.
  pose proof (tree_depth _ t [] _ _ H) as Hd.
  eapply (insert_search_ok cmp D _ _ elm t [] 0); [exact H | exact Ho | apply all_between | lia | done | | ].
  { intros x Hf. cbn [plug] in Hf. rewrite Hf. by ewp_pure. }
  intros k comp Hf Hk Hb Hc. cbn [plug] in Hf, Hk. rewrite Hf. subst t. rewrite inorder_plug in *. cbn [inorder app] in *.
  assert (H1 : st D (top None k) ((elm, n0) :: kcells None k) S).
  { unfold tree_st in H. rewrite root_plug, cells_plug in H. eapply st_perm; [exact H | cbn; solve_Permutation]. }
  clear H. apply ewp_bind. eapply (upd_ok _ _ _ _ 0); [exact H1 | done | ]. cbn [insert list_insert]. clear H1. intros S1 H1.
  apply ewp_bind. eapply (ewp_mono _ _ (fun _ S2 => tree_st D (plug (T RB_RED Nil elm Nil) k) [] S2)).
  { destruct k as [|[d c x s] k]; cbn [up kcells] in *.
    - eapply set_root_ok; [exact H1 | ]. intros S2 H2. exact H2.
    - assert (Hset : forall S2, st D (top (Some x) k) ((elm, Node None None (Some x) RB_RED) :: (x, mk d (Some elm) (root s) (up k) c) ::
        cells (Some x) s ++ kcells (Some x) k) S2 -> tree_st D (plug (T RB_RED Nil elm Nil) (Fr d c x s :: k)) [] S2).
      { intros S2 H2. cbn [plug]. apply st_at. eapply st_perm; [exact H2 | ]. cbn. solve_Permutation. }
      rewrite (Hc d c x s k eq_refl).
      assert (Hgo : wp (set_child d x (Some elm)) S1 (fun _ S2 => tree_st D (plug (T RB_RED Nil elm Nil) (Fr d c x s :: k)) [] S2)).
      { eapply (set_child_ok _ _ _ _ _ _ _ _ _ _ 1); [exact H1 | done | ]. exact Hset. }
      clear H1 Hset. by destruct d. }
  intros u S2 H2. apply rbt_plug in Hm as (n & c & Hn & Hk). inversion Hn; subst.
  eapply ewp_bind, RB_INSERT_COLOR_ok; [exact H2 | exact Hk | ]. intros t m' S3 H3 Hm3 Hi. ewp_pure.
  destruct (tree_of_st _ _ _ _ _ H3 Hm3) as [Ht HD]. split_and!; [done | done | ]. rewrite (insert_between _ _ _ Hb).
  by rewrite Hi, inorder_plug in Ht.
Qed.

Lemma RB_FIND_ok l S elm : tree_of l S -> ordered cmp l -> wp (RB_FIND cmp elm) S (fun r S' => S' = S /\ r = List.find (same_key cmp elm) l).
Proof.
  intros (t & m & H & _ & <-) Ho. unfold RB_FIND. ewp_pure. rewrite (st_size _ _ _ _ H), (st_root _ _ _ _ H).
  pose proof (tree_depth _ t [] _ _ H). pose proof (depth_inorder t).
  eapply (find_loop_ok cmp _ _ _ elm t []); [exact H | exact Ho | apply all_between | lia].
Qed.
Lemma RB_NFIND_ok l S elm : tree_of l S -> ordered cmp l -> wp (RB_NFIND cmp elm) S (fun r S' => S' = S /\ r = List.find (not_after cmp elm) l).
Proof.
  intros (t & m & H & _ & <-) Ho. unfold RB_NFIND. ewp_pure. rewrite (st_size _ _ _ _ H), (st_root _ _ _ _ H).
  pose proof (tree_depth _ t [] _ _ H). eapply (nfind_loop_ok cmp _ _ _ elm t []); [exact H | exact Ho | apply all_between | lia].
Qed.
End Calls.

Definition without (x : loc) (l : list loc) : list loc := filter (fun y => y <> x) l.
Lemma without_app x l1 l2 : NoDup (l1 ++ x :: l2) -> without x (l1 ++ x :: l2) = l1 ++ l2.
Proof.
  intros H. apply NoDup_app in H as (_ & H1 & H2). apply NoDup_cons in H2 as [H2 _].
  assert (H : forall l, x ∉ l -> without x l = l).
  { intros l. induction l as [|y l IH]; [done | ]. intros [Hy Hl]%not_elem_of_cons. unfold without in *. rewrite filter_cons_True by done. by rewrite IH. }
  unfold without. rewrite filter_app, filter_cons_False by auto. fold (without x l1) (without x l2). rewrite !H; [done | done | ].
  intros Hx. apply (H1 x Hx). by left.
Qed.
Lemma RB_REMOVE_spec l S x : tree_of l S -> x ∈ l ->
  wp (RB_REMOVE x) S (fun r S' => dom (nodes S') = dom (nodes S) /\ r = x /\ tree_of (without x l) S').
Proof.
  intros H Hx. destruct (tree_of_in _ _ _ H Hx) as (c & a & b & k & m & Ht & Hm & -> & Hn).
  eapply RB_REMOVE_ok; [exact Ht | exact Hm | ]. intros S' (t & m' & n & H' & Hm' & Hi). destruct (tree_of_st _ _ _ _ _ H' Hm') as [Ht' HD].
  split_and!; [done | done | ]. rewrite Hi in Ht'.
  replace (before k ++ (inorder a ++ x :: inorder b) ++ after k) with ((before k ++ inorder a) ++ x :: inorder b ++ after k) in * by (by rewrite <- !app_assoc).
  rewrite without_app by done. by rewrite <- !app_assoc in *.
Qed.
Lemma RB_STEP_spec d l S x : tree_of l S -> x ∈ l -> wp (RB_STEP d x) S (fun r S' => S' = S /\ r = step_in d x l).
Proof.
  intros H Hx. destruct (tree_of_in _ _ _ H Hx) as (c & a & b & k & m & Ht & Hm & -> & Hn).
  destruct (some_nd d (T c a x b) x eq_refl) as (c' & a' & b' & E). rewrite E in Ht. apply RB_STEP_ok in Ht. rewrite <- E in Ht.
  by rewrite inorder_plug in Ht.
Qed.
Lemma RB_MINMAX_spec d l S : tree_of l S -> wp (RB_MINMAX d) S (fun r S' => S' = S /\ r = end_of d l).
Proof. intros (t & m & H & _ & <-). by eapply RB_MINMAX_ok. Qed.

(* ------------------------------------------------------------------ *)
(** ** Sequences of calls *)

Inductive call : Type := Insert (x : loc) | Remove (x : loc) | Find (x : loc) | Nfind (x : loc) | Next (x : loc) | Prev (x : loc) | Min | Max.

Section Machine.
Context (cmp : loc -> loc -> Z).

(** On the tree. *)
Definition do_call (c : call) : R (option loc) :=
  match c with
  | Insert x => RB_INSERT cmp x
  | Remove x => do r <- RB_REMOVE x; ret (Some r)
  | Find x => RB_FIND cmp x
  | Nfind x => RB_NFIND cmp x
  | Next x => RB_NEXT x
  | Prev x => RB_PREV x
  | Min => RB_MINMAX false
  | Max => RB_MINMAX true
  end.
Fixpoint do_calls (l : list call) : R (list (option loc)) :=
  match l with [] => ret [] | c :: l' => do r <- do_call c; do rs <- do_calls l'; ret (r :: rs) end.

(** On the list. *)
Definition list_call (c : call) (l : list loc) : option loc * list loc :=
  match c with
  | Insert x => match List.find (same_key cmp x) l with Some y => (Some y, l) | None => (None, insert_in cmp x l) end
  | Remove x => (Some x, without x l)
  | Find x => (List.find (same_key cmp x) l, l)
  | Nfind x => (List.find (not_after cmp x) l, l)
  | Next x => (step_in true x l, l)
  | Prev x => (step_in false x l, l)
  | Min => (head l, l)
  | Max => (last l, l)
  end.
Fixpoint list_calls (cs : list call) (l : list loc) : list (option loc) * list loc :=
  match cs with
  | [] => ([], l)
  | c :: cs' => let (r, l1) := list_call c l in let (rs, l2) := list_calls cs' l1 in (r :: rs, l2)
  end.
(** What callers promise: a node inserted is in memory and not in the tree; one
    removed or stepped from is. *)
Definition may (A : gset loc) (c : call) (l : list loc) : Prop :=
  match c with
  | Insert x => x ∈ A /\ x ∉ l
  | Remove x | Next x | Prev x => x ∈ l
  | _ => True
  end.
Fixpoint may_all (A : gset loc) (cs : list call) (l : list loc) : Prop :=
  match cs with [] => True | c :: cs' => may A c l /\ may_all A cs' (list_call c l).2 end.
End Machine.

Lemma insert_ordered cmp {HO : KeyOrder cmp} x l : ordered cmp l -> List.find (same_key cmp x) l = None -> ordered cmp (insert_in cmp x l).
Proof.
  induction l as [|y l IH]; cbn; intros Ho Hf; [by repeat constructor | ]. unfold same_key in Hf at 1.
  destruct (Z.eqb_spec (cmp x y) 0) as [He | Hne]; [done | ]. apply StronglySorted_inv in Ho as [Ho Hy].
  destruct (Z.ltb_spec (cmp x y) 0) as [Hc | Hc].
  - constructor; [by constructor | ]. constructor; [done | ]. eapply Forall_impl; [exact Hy | ]. intros z Hz. by eapply key_trans.
  - constructor; [by apply IH | ]. assert (Hyx : key_lt cmp y x) by (unfold key_lt; apply key_flip; lia). clear - Hy Hyx.
    induction Hy as [|z l Hz Hl IH]; cbn; [by constructor | ]. destruct (cmp x z <? 0); by repeat constructor.
Qed.
Lemma without_ordered cmp x l : ordered cmp l -> ordered cmp (without x l).
Proof.
  induction 1 as [|y l _ IH Hy]; [constructor | ]. unfold without. rewrite filter_cons. destruct (decide (y <> x)); [ | exact IH].
  constructor; [exact IH | ]. apply Forall_forall. intros z Hz. apply list_elem_of_filter in Hz as [_ Hz]. exact (proj1 (Forall_forall _ _) Hy z Hz).
Qed.

Lemma do_call_ok cmp {HO : KeyOrder cmp} c l S : tree_of l S -> ordered cmp l -> may (dom (nodes S)) c l ->
  wp (do_call cmp c) S (fun r S' => dom (nodes S') = dom (nodes S) /\ r = (list_call cmp c l).1 /\
    tree_of (list_call cmp c l).2 S' /\ ordered cmp (list_call cmp c l).2).
Proof.
  intros H Ho Hm. assert (Hq : forall r (m : R (option loc)), wp m S (fun r' S' => S' = S /\ r' = r) ->
    wp m S (fun r' S' => dom (nodes S') = dom (nodes S) /\ r' = r /\ tree_of l S' /\ ordered cmp l)).
  { intros r m Hr. eapply ewp_mono; [exact Hr | ]. by intros r' S' [-> ->]. }
  destruct c; cbn [do_call list_call may] in *.
  - destruct Hm as [Hx Hl]. eapply ewp_mono; [by apply RB_INSERT_ok | ]. intros r S' [HD Hr]. split; [done | ].
    destruct (List.find _ l) eqn:Hf; [by destruct Hr as [-> ->] | ]. destruct Hr as [-> Hr]. split_and!; [done | done | by apply insert_ordered].
  - eapply ewp_bind, ewp_mono; [by apply RB_REMOVE_spec | ]. intros r S' (HD & -> & Hr). ewp_pure. split_and!; [done | done | done | by apply without_ordered].
  - by apply Hq, RB_FIND_ok.
  - by apply Hq, RB_NFIND_ok.
  - by apply Hq, RB_STEP_spec.
  - by apply Hq, RB_STEP_spec.
  - by apply Hq, (RB_MINMAX_spec false).
  - by apply Hq, (RB_MINMAX_spec true).
Qed.
Lemma do_calls_ok cmp {HO : KeyOrder cmp} cs l S : tree_of l S -> ordered cmp l -> may_all cmp (dom (nodes S)) cs l ->
  wp (do_calls cmp cs) S (fun rs S' => rs = (list_calls cmp cs l).1 /\ tree_of (list_calls cmp cs l).2 S' /\ ordered cmp (list_calls cmp cs l).2).
Proof.
  revert l S. induction cs as [|c cs IH]; intros l S H Ho Hm; cbn [do_calls list_calls]; [by ewp_pure | ]. destruct Hm as [Hc Hm].
  eapply ewp_bind, ewp_mono; [by apply (do_call_ok cmp c l) | ]. intros r S' (HD & -> & H' & Ho'). destruct (list_call cmp c l) as [r l1]. cbn [fst snd] in *.
  eapply ewp_bind, ewp_mono; [apply (IH l1); [done | done | by rewrite HD] | ]. intros rs S2 (-> & H2 & Ho2). ewp_pure.
  by destruct (list_calls cmp cs l1) as [rs l2].
Qed.

(** No operation has a contract of its own to break. *)
Lemma keeps_fld {A} (f : node -> A) x : keeps (fld f x).
Proof. keeps_all. Qed.
Lemma keeps_rb_upd f x : keeps (upd f x).
Proof. keeps_all. Qed.
#[local] Hint Resolve keeps_fld keeps_rb_upd : keeps.
Lemma keeps_child d x : keeps (child d x).
Proof. destruct d; apply keeps_fld. Qed.
Lemma keeps_set_child d x v : keeps (set_child d x v).
Proof. destruct d; apply keeps_rb_upd. Qed.
#[local] Hint Resolve keeps_child keeps_set_child : keeps.
Lemma keeps_insert_loop fuel x : keeps (insert_color_loop fuel x).
Proof. revert x. induction fuel; intros x; cbn [insert_color_loop]; keeps_all; done. Qed.
Lemma keeps_remove_loop fuel p x : keeps (remove_color_loop fuel p x).
Proof. revert p x. induction fuel; intros p x; cbn [remove_color_loop]; keeps_all; done. Qed.
Lemma keeps_extreme fuel d x : keeps (extreme fuel d x).
Proof. revert x. induction fuel; intros x; cbn [extreme]; keeps_all; done. Qed.
Lemma keeps_augment fuel x : keeps (augment_up fuel x).
Proof. revert x. induction fuel; intros x; cbn [augment_up]; keeps_all; done. Qed.
Lemma keeps_search cmp fuel x t p c : keeps (insert_search cmp fuel x t p c).
Proof. revert t p c. induction fuel; intros t p c; cbn [insert_search]; keeps_all; done. Qed.
Lemma keeps_find_loop cmp fuel x t : keeps (find_loop cmp fuel x t).
Proof. revert t. induction fuel; intros t; cbn [find_loop]; keeps_all; done. Qed.
Lemma keeps_nfind_loop cmp fuel x t r : keeps (nfind_loop cmp fuel x t r).
Proof. revert t r. induction fuel; intros t r; cbn [nfind_loop]; keeps_all; done. Qed.
Lemma keeps_climb fuel d x : keeps (climb fuel d x).
Proof. revert x. induction fuel; intros x; cbn [climb]; keeps_all; done. Qed.
Lemma keeps_minmax fuel d t p : keeps (minmax_loop fuel d t p).
Proof. revert t p. induction fuel; intros t p; cbn [minmax_loop]; keeps_all; done. Qed.
#[local] Hint Resolve keeps_insert_loop keeps_remove_loop keeps_extreme keeps_augment keeps_search keeps_find_loop keeps_nfind_loop keeps_climb
  keeps_minmax : keeps.
Lemma keeps_do_call cmp c : keeps (do_call cmp c).
Proof. destruct c; cbn [do_call]; keeps_all. Qed.
Lemma keeps_do_calls cmp cs : keeps (do_calls cmp cs).
Proof. induction cs; cbn [do_calls]; keeps_steps; apply keeps_do_call. Qed.

(** C14: The tree is an ordered list.  From a tree that holds [l], whatever is
    inserted, removed, looked up and stepped through, as long as only nodes in
    memory go in and only nodes of the tree come out, every call returns what the
    list gives, no pointer leads astray, no loop runs on, and the nodes that are
    left stand in order in a red-black tree. *)
Theorem tree_is_ordered_list cmp {HO : KeyOrder cmp} cs l S : tree_of l S -> ordered cmp l -> may_all cmp (dom (nodes S)) cs l ->
  exists S', do_calls cmp cs S = Done (list_calls cmp cs l).1 S' /\
    tree_of (list_calls cmp cs l).2 S' /\ ordered cmp (list_calls cmp cs l).2.
Proof.
  intros H Ho Hm. destruct (wp_total _ _ _ (keeps_do_calls cmp cs) (do_calls_ok cmp cs l S H Ho Hm)) as (rs & S' & Hd & -> & H' & Ho').
  by exists S'.
Qed.

(** A search of a tree of [n] nodes looks at no more than twice the logarithm
    of [n + 1] of them. *)
Theorem search_is_logarithmic cmp {HO : KeyOrder cmp} l S elm : tree_of l S -> ordered cmp l ->
  find_loop cmp (2 * Nat.log2 (length l + 1)) elm (rbh_root S) S = Done (List.find (same_key cmp elm) l) S.
Proof.
  intros (t & m & H & Hm & <-) Ho. pose proof (balanced _ _ Hm) as Hd. rewrite (st_root _ _ _ _ H).
  destruct (wp_total _ _ _ (keeps_find_loop cmp _ elm (root t))
    (find_loop_ok cmp _ [] (2 * Nat.log2 (length (inorder t) + 1)) elm t [] S H Ho (all_between cmp elm) Hd)) as (r & S' & Hf & -> & ->).
  exact Hf.
Qed.

(* ------------------------------------------------------------------ *)
(** ** The registers of the console and of the settings *)

(** [strcmp] of the keys of two nodes. *)
Definition by_name (name : loc -> text) (x y : loc) : Z :=
  match strcmp (name x) (name y) with Lt => -1 | Eq => 0 | Gt => 1 end.
Lemma by_name_lt name x y : by_name name x y < 0 <-> strcmp (name x) (name y) = Lt.
Proof. unfold by_name. by destruct (strcmp _ _). Qed.
Lemma by_name_eq name x y : by_name name x y = 0 <-> name x = name y.
Proof. rewrite <- strcmp_eq. unfold by_name. by destruct (strcmp _ _). Qed.
#[export] Instance by_name_order name : KeyOrder (by_name name).
Proof.
  split.
  - intros x y. unfold by_name. rewrite (strcmp_opp (name x) (name y)). by destruct (strcmp (name x) (name y)).
  - intros x y z. rewrite !by_name_lt. apply strcmp_trans.
  - intros x y z. rewrite by_name_eq, !by_name_lt. by intros ->.
Qed.

Section Registers.
Context (name : loc -> text).
Notation cmp := (by_name name).

Lemma sorted_tail x l : ordered cmp (x :: l) -> ordered cmp l /\ Forall (fun y => strcmp (name x) (name y) = Lt) l.
Proof.
  intros H. apply StronglySorted_inv in H as [H Hx]. split; [done | ]. eapply Forall_impl; [exact Hx | ]. intros y. apply by_name_lt.
Qed.
Lemma same_name x y : same_key cmp x y = match strcmp (name x) (name y) with Eq => true | _ => false end.
Proof. unfold same_key, by_name. by destruct (strcmp _ _). Qed.
Lemma none_behind x l : Forall (fun y => strcmp (name x) (name y) = Lt) l -> List.find (same_key cmp x) l = None.
Proof. intros H. apply find_none. eapply Forall_impl; [exact H | ]. intros y Hy. by rewrite same_name, Hy. Qed.
Lemma behind_all x y l : strcmp (name x) (name y) = Lt -> Forall (fun z => strcmp (name y) (name z) = Lt) l ->
  Forall (fun z => strcmp (name x) (name z) = Lt) (y :: l).
Proof. intros Hx Hy. constructor; [done | ]. eapply Forall_impl; [exact Hy | ]. intros z. by apply strcmp_trans. Qed.

(** The console's register, and the settings. *)
Lemma cmdq_find_list (cmd : loc -> cli_cmd) ref l : (forall y, str (cmd y) = name y) -> ordered cmp l ->
  cli_cmdq_find (map cmd l) (name ref) = option_map cmd (List.find (same_key cmp ref) l).
Proof.
  intros Hc. induction l as [|y l IH]; intros Ho; cbn; [done | ]. apply sorted_tail in Ho as [Ho Hy]. rewrite same_name, Hc.
  destruct (strcmp (name ref) (name y)) eqn:E; [done | | by apply IH]. rewrite none_behind; [done | ].
  pose proof (behind_all _ _ _ E Hy) as H. by inversion H.
Qed.
Lemma cmdq_add_list (cmd : loc -> cli_cmd) x l : (forall y, str (cmd y) = name y) -> ordered cmp l ->
  cli_cmdq_add (map cmd l) (cmd x) = map cmd (match List.find (same_key cmp x) l with Some _ => l | None => insert_in cmp x l end).
Proof.
  intros Hc. induction l as [|y l IH]; intros Ho; cbn; [done | ]. apply sorted_tail in Ho as [Ho Hy]. rewrite same_name, !Hc, (IH Ho). unfold by_name.
  destruct (strcmp (name x) (name y)) eqn:E; cbn; [done | | ].
  - by rewrite none_behind by (pose proof (behind_all _ _ _ E Hy) as H; by inversion H).
  - by destruct (List.find _ l).
Qed.
Lemma keyval_insert_list (kv : loc -> keyval) x l : (forall y, key (kv y) = name y) -> ordered cmp l ->
  keyval_insert (map kv l) (kv x) =
    match List.find (same_key cmp x) l with Some _ => (map kv l, false) | None => (map kv (insert_in cmp x l), true) end.
Proof.
  intros Hc. induction l as [|y l IH]; intros Ho; cbn; [done | ]. apply sorted_tail in Ho as [Ho Hy]. rewrite same_name, !Hc, (IH Ho). unfold by_name.
  destruct (strcmp (name x) (name y)) eqn:E; cbn; [done | | ].
  - by rewrite none_behind by (pose proof (behind_all _ _ _ E Hy) as H; by inversion H).
  - by destruct (List.find _ l).
Qed.
End Registers.

(** The register of the console and the settings, taken as ordered lists in
    Cli and Settings, are what RB_INSERT and RB_FIND make of the tree in memory:
    inserting a node changes the tree as the list changes, and a search finds the
    node the list search finds. *)
Theorem registers_are_trees name l S x : tree_of l S -> ordered (by_name name) l -> x ∈ dom (nodes S) -> x ∉ l ->
  exists r S' l', RB_INSERT (by_name name) x S = Done r S' /\ tree_of l' S' /\ ordered (by_name name) l' /\
    (forall cmd : loc -> cli_cmd, (forall y, str (cmd y) = name y) ->
      map cmd l' = cli_cmdq_add (map cmd l) (cmd x) /\
      forall ref, exists f, RB_FIND (by_name name) ref S' = Done f S' /\ option_map cmd f = cli_cmdq_find (map cmd l') (name ref)) /\
    (forall kv : loc -> keyval, (forall y, key (kv y) = name y) ->
      keyval_insert (map kv l) (kv x) = (map kv l', bool_decide (r = None))).
Proof.
  intros H Ho Hx Hl. destruct (wp_total _ _ _ (keeps_do_call (by_name name) (Insert x)) (do_call_ok _ (Insert x) l S H Ho (conj Hx Hl)))
    as (r & S' & Hd & _ & Hr & H' & Ho').
  exists r, S', (list_call (by_name name) (Insert x) l).2. split_and!; [exact Hd | exact H' | exact Ho' | | ].
  - intros cmd Hc. split.
    + rewrite (cmdq_add_list name) by done. cbn. by destruct (List.find _ l).
    + intros ref. destruct (wp_total _ _ _ (keeps_do_call (by_name name) (Find ref)) (RB_FIND_ok _ _ S' ref H' Ho')) as (f & S2 & Hf & -> & ->).
      eexists. split; [exact Hf | ]. by rewrite (cmdq_find_list name).
  - intros kv Hk. rewrite (keyval_insert_list name) by done. subst r. cbn. by destruct (List.find _ l).
Qed.

(* ------------------------------------------------------------------ *)
(** ** Witnesses *)

(** Nodes whose keys are their addresses. *)
#[export] Instance by_address : KeyOrder Z.sub.
Proof. split; intros; lia. Qed.
Definition blank : node := Node None None None RB_BLACK.
Definition memory (l : list loc) : heap := Heap None (list_to_map (map (fun x => (x, blank)) l)).
Definition some_calls : list call :=
  [Insert 3; Insert 1; Insert 4; Insert 15; Insert 9; Insert 2; Find 9; Nfind 5; Next 4; Prev 1; Min; Max; Remove 3; Remove 1; Remove 15; Max].

Lemma tree_is_ordered_list_witness : exists S', do_calls Z.sub some_calls (memory [1; 2; 3; 4; 9; 15]) =
    Done [None; None; None; None; None; None; Some 9; Some 9; Some 9; None; Some 1; Some 15; Some 3; Some 1; Some 15; Some 9] S' /\
  tree_of [2; 4; 9] S' /\ ordered Z.sub [2; 4; 9].
Proof.
  apply (tree_is_ordered_list Z.sub some_calls [] (memory [1; 2; 3; 4; 9; 15])).
  - apply tree_of_empty.
  - constructor.
  - cbn. repeat split; (apply (bool_decide_unpack _); vm_compute; exact I).
Defined.

Definition four : heap := match do_calls Z.sub [Insert 3; Insert 1; Insert 4; Insert 2] (memory [1; 2; 3; 4]) with Done _ h => h | _ => memory [] end.
Lemma four_tree : tree_of [1; 2; 3; 4] four.
Proof.
  exists (T RB_BLACK (T RB_BLACK Nil 1 (T RB_RED Nil 2 Nil)) 3 (T RB_BLACK Nil 4 Nil)), 2%nat. split_and!; [ | by repeat econstructor | done].
  split; [by vm_compute | done | apply (bool_decide_unpack _); vm_compute; exact I | repeat constructor].
Qed.
Lemma search_is_logarithmic_witness : find_loop Z.sub 4 2 (rbh_root four) four = Done (Some 2) four /\ ordered Z.sub [1; 2; 3; 4].
Proof.
  assert (Ho : ordered Z.sub [1; 2; 3; 4]) by (repeat constructor).
  split; [exact (search_is_logarithmic Z.sub [1; 2; 3; 4] four 2 four_tree Ho) | exact Ho].
Defined.

Definition command (y : loc) : cli_cmd := CliCmd [y] (Some y) 0 None.
Lemma registers_are_trees_witness : exists r S' l', RB_INSERT (by_name (fun y => [y])) 2 (memory [2; 7]) = Done r S' /\ tree_of l' S' /\
  map command l' = [command 2] /\ exists f, RB_FIND (by_name (fun y => [y])) 2 S' = Done f S' /\ option_map command f = Some (command 2).
Proof.
  destruct (registers_are_trees (fun y => [y]) [] (memory [2; 7]) 2) as (r & S' & l' & Hi & Ht & _ & Hc & _).
  - apply tree_of_empty.
  - constructor.
  - apply (bool_decide_unpack _). vm_compute. exact I.
  - apply not_elem_of_nil.
  - destruct (Hc command (fun y => eq_refl)) as [Hm Hf]. destruct (Hf 2) as (f & Hf1 & Hf2). exists r, S', l'. split_and!; [exact Hi | exact Ht | exact Hm | ].
    exists f. split; [exact Hf1 | ]. rewrite Hf2, Hm. reflexivity.
Defined.
