(* ===== verification/Exits.v ===== *)
(** Exits: programs over a state that call exit().  A run ends with a value,
    ends the process with a code, or runs out of the number of turns its loops
    were given.  [spec D m s Q X]: from [s], [m] ends with [Q], exits with [X],
    and runs out of turns only if [D]. *)

From S2P Require Import Prelude.

Inductive run_end (S A : Type) : Type :=
  | Value (x : A) (s : S)
  | Exit (code : Z) (s : S)
  | OutOfTurns.
Arguments Value {S A} x s.
Arguments Exit {S A} code s.
Arguments OutOfTurns {S A}.

Definition xprog (S A : Type) : Type := S -> run_end S A.

Section Exits.
Context {S : Type}.

Definition xret {A} (x : A) : xprog S A := fun s => Value x s.
Definition exit {A} (code : Z) : xprog S A := fun s => Exit code s.
Definition out_of_turns {A} : xprog S A := fun _ => OutOfTurns.
Definition xbind {A B} (m : xprog S A) (k : A -> xprog S B) : xprog S B := fun s =>
  match m s with
  | Value x s' => k x s'
  | Exit c s' => Exit c s'
  | OutOfTurns => OutOfTurns
  end.
Definition xgets {A} (f : S -> A) : xprog S A := fun s => Value (f s) s.
Definition xmodify (f : S -> S) : xprog S unit := fun s => Value tt (f s).

Definition spec (D : Prop) {A} (m : xprog S A) (s : S) (Q : A -> S -> Prop) (X : Z -> S -> Prop) : Prop :=
  match m s with
  | Value x s' => Q x s'
  | Exit c s' => X c s'
  | OutOfTurns => D
  end.

Context {D : Prop}.

Lemma spec_mono {A} (m : xprog S A) s (Q Q' : A -> S -> Prop) (X X' : Z -> S -> Prop) :
  spec D m s Q X -> (forall x s', Q x s' -> Q' x s') -> (forall c s', X c s' -> X' c s') -> spec D m s Q' X'.
Proof. unfold spec. destruct (m s); auto. Qed.
Lemma spec_bind {A B} (m : xprog S A) (k : A -> xprog S B) s Q X :
  spec D m s (fun x s' => spec D (k x) s' Q X) X -> spec D (xbind m k) s Q X.
Proof. unfold spec, xbind. by destruct (m s). Qed.
Lemma spec_assoc {A B C} (m : xprog S A) (n : A -> xprog S B) (k : B -> xprog S C) s Q X :
  spec D (xbind (xbind m n) k) s Q X -> spec D (xbind m (fun x => xbind (n x) k)) s Q X.
Proof. unfold spec, xbind. by destruct (m s). Qed.
Lemma spec_end {A} (m : xprog S A) s (Q : A -> S -> Prop) (X : Z -> S -> Prop) :
  spec D m s Q X -> match m s with Value x s' => Q x s' | Exit c s' => X c s' | OutOfTurns => D end.
Proof. done. Qed.
Lemma spec_ret {A} (x : A) s (Q : A -> S -> Prop) (X : Z -> S -> Prop) : Q x s -> spec D (xret x) s Q X.
Proof. done. Qed.
Lemma spec_exit {A} c s (Q : A -> S -> Prop) (X : Z -> S -> Prop) : X c s -> spec D (exit c) s Q X.
Proof. done. Qed.
Lemma spec_gets {A} (f : S -> A) s (Q : A -> S -> Prop) (X : Z -> S -> Prop) : Q (f s) s -> spec D (xgets f) s Q X.
Proof. done. Qed.
Lemma spec_modify f s (Q : unit -> S -> Prop) (X : Z -> S -> Prop) : Q tt (f s) -> spec D (xmodify f) s Q X.
Proof. done. Qed.
Lemma spec_out_of_turns {A} s (Q : A -> S -> Prop) (X : Z -> S -> Prop) : D -> spec D out_of_turns s Q X.
Proof. done. Qed.
Lemma spec_and {A} (m : xprog S A) s (Q Q' : A -> S -> Prop) (X X' : Z -> S -> Prop) :
  spec D m s Q X -> spec True m s Q' X' ->
  spec D m s (fun x s' => Q x s' /\ Q' x s') (fun c s' => X c s' /\ X' c s').
Proof. unfold spec. destruct (m s); auto. Qed.
End Exits.

#[global] Opaque spec.

Declare Scope exits_scope.
Delimit Scope exits_scope with exits.
Notation "'do' x <- e ; k" := (xbind e (fun x => k))
  (at level 10, x name, e at level 100, k at level 200) : exits_scope.
Notation "e ;; k" := (xbind e (fun _ => k))
  (at level 100, k at level 200, right associativity) : exits_scope.

(** Steps through the pure operations at the head of a program. *)
Ltac xstep :=
  repeat lazymatch goal with
  | |- spec _ (xbind (xbind _ _) _) _ _ _ => apply spec_bind
  | |- spec _ (xbind (xgets _) _) _ _ _ => apply spec_bind; apply spec_gets
  | |- spec _ (xbind (xmodify _) _) _ _ _ => apply spec_bind; apply spec_modify
  | |- spec _ (xbind (xret _) _) _ _ _ => apply spec_bind; apply spec_ret
  | |- spec _ (xbind (exit _) _) _ _ _ => apply spec_bind; apply spec_exit
  | |- spec _ (xret _) _ _ _ => apply spec_ret
  | |- spec _ (xgets _) _ _ _ => apply spec_gets
  | |- spec _ (xmodify _) _ _ _ => apply spec_modify
  | |- spec _ (exit _) _ _ _ => apply spec_exit
  end; cbv beta.
(** A proved specification for a program, or for its first operation. *)
Ltac xmono L := eapply spec_mono; [apply L | cbv beta | cbv beta].
Ltac xuse L := apply spec_bind; xmono L.
