(* ===== verification/Flash.v ===== *)
(** Flash: the programmer of package/cc1352-flash/cc1352-flash.c, which writes a
    firmware image to the ROM boot loader of a CC1352P7 over a serial line.  The
    answers of the system are those of an [env], asked one after the other; what
    the program does is kept in a log.  The size of the flash is a parameter
    (the program's is [CC1352_FLASH_SIZE]); texts printed are left out. *)

From Stdlib Require Import String.
From S2P Require Import Prelude ByteStr Exits.

Open Scope list_scope.
Open Scope exits_scope.

Definition CC1352_FLASH_SIZE : Z := 704 * 1024.
Definition ACK : Z := 0xcc.
Definition NACK : Z := 0x33.
Definition timeout_ms : Z := 10000.

(* ------------------------------------------------------------------ *)
(** ** The system *)

(** The fields of a [struct termios] the program reads or writes. *)
Record termios : Type := Termios { c_iflag : Z; c_oflag : Z; c_cflag : Z; c_lflag : Z; vmin : Z; vtime : Z }.

(** [poll] of one descriptor: it fails, with EINTR or not; nothing in time;
    something, among it what was asked for or not. *)
Inductive poll_answer : Type := PollFails (eintr : bool) | PollNothing | PollReady (asked : bool).
(** [read] or [write]: it fails, with EINTR or EAGAIN or not; or it gives. *)
Inductive io_answer (A : Type) : Type := IoFails (again : bool) | IoGives (x : A).
Arguments IoFails {A} again.
Arguments IoGives {A} x.

(** What the calls answer.  A number is how many calls were made before, so an
    answer may depend on all that was done.  [clock]: seconds and nanoseconds of
    CLOCK_MONOTONIC; [fopen_file]: what a file gives and whether reading it ends
    with an error; [lines]: of a chip. *)
Record env : Type := Env {
  malloc_ok : bool;
  fopen_file : text -> option (list Z * bool);
  open_port : text -> Z;
  flock_ok : bool; tiocexcl_ok : bool;
  tcgetattr_gives : option termios;
  tcsetattr_ok : bool; tcflush_ok : bool;
  clock : nat -> option (Z * Z);
  polled : nat -> Z -> poll_answer;
  written : nat -> list Z -> io_answer nat;
  given : nat -> nat -> io_answer (list Z);
  globbed : option (list text);
  open_chip : nat -> text -> option Z;
  chipinfo : nat -> Z -> option Z;
  lineinfo : nat -> Z -> Z -> option text;
  get_line : nat -> Z -> Z -> option Z;
  set_values : nat -> Z -> bool }.

(** What was done: bytes sent and received, waits, the line and the GPIOs. *)
Inductive event : Type :=
  | Out (b : Z)
  | In (b : Z)
  | Polled (ms : Z)
  | PortOpened (fd : Z)
  | TermiosSet (t : termios)
  | PortClosed (fd : Z)
  | ChipOpened (fd : Z)
  | LineRequested (name : text) (fd offset : Z)
  | LineSet (fd value : Z)
  | FdClosed (fd : Z)
  | Slept (us : Z).

(** [tick]: the calls made; [at_exit]: [cleanup] is registered. *)
Record world : Type := World { tick : nat; log : list event; uart : Z; saved : option termios; at_exit : bool }.

Definition X (A : Type) : Type := xprog world A.

Definition emit (es : list event) : X unit :=
  xmodify (fun w => World (tick w) (log w ++ es) (uart w) (saved w) (at_exit w)).
Definition set_uart (fd : Z) : X unit :=
  xmodify (fun w => World (tick w) (log w) fd (saved w) (at_exit w)).
Definition set_saved (t : termios) : X unit :=
  xmodify (fun w => World (tick w) (log w) (uart w) (Some t) (at_exit w)).
Definition set_at_exit : X unit :=
  xmodify (fun w => World (tick w) (log w) (uart w) (saved w) true).
(** A call: the answer, and that one more was made. *)
Definition ask {A} (answer : nat -> A) : X A :=
  do a <- xgets (fun w => answer (tick w));
  xmodify (fun w => World (S (tick w)) (log w) (uart w) (saved w) (at_exit w));;
  xret a.

(* ------------------------------------------------------------------ *)
(** ** cfmakeraw and speeds, as the C library does them on Linux *)

Definition clear (v mask : Z) : Z := Z.land v (Z.lnot mask).
Definition cfmakeraw (t : termios) : termios :=
  Termios (clear (c_iflag t) 0x5eb)                       (* IGNBRK BRKINT PARMRK ISTRIP INLCR IGNCR ICRNL IXON *)
    (clear (c_oflag t) 1)                                 (* OPOST *)
    (Z.lor (clear (c_cflag t) 0x130) 0x30)                (* CSIZE PARENB; CS8 *)
    (clear (c_lflag t) 0x804b)                            (* ECHO ECHONL ICANON ISIG IEXTEN *)
    1 0.
Definition B115200 : Z := 0x1002.
Definition cfsetispeed (t : termios) (speed : Z) : termios :=
  Termios (clear (c_iflag t) 0x80000000) (c_oflag t) (Z.lor (clear (c_cflag t) 0x100f) speed) (c_lflag t) (vmin t) (vtime t).
Definition cfsetospeed (t : termios) (speed : Z) : termios :=
  Termios (c_iflag t) (c_oflag t) (Z.lor (clear (c_cflag t) 0x100f) speed) (c_lflag t) (vmin t) (vtime t).
(** CSIZE, PARENB, CSTOPB and CRTSCTS; CS8, CLOCAL and CREAD. *)
Definition line_settings (saved : termios) : termios :=
  let t := cfsetospeed (cfsetispeed (cfmakeraw saved) B115200) B115200 in
  Termios (c_iflag t) (c_oflag t) (Z.lor (clear (c_cflag t) 0x80000170) 0x8b0) (c_lflag t) 0 0.

(* ------------------------------------------------------------------ *)
(** ** Numbers *)

Definition be32 (v : Z) : list Z := [u8 (Z.shiftr v 24); u8 (Z.shiftr v 16); u8 (Z.shiftr v 8); u8 v].

(** [0xedb88320u & (0u - (crc & 1))]. *)
Definition crc32_bit (crc : Z) : Z :=
  Z.lxor (Z.shiftr crc 1) (Z.land 0xedb88320 (u32 (0 - Z.land crc 1))).
Definition crc32 (p : list Z) : Z :=
  Z.lxor (fold_left (fun crc b => Nat.iter 8 crc32_bit (Z.lxor crc b)) p 0xFFFFFFFF) 0xFFFFFFFF.

Definition sum8 (l : list Z) : Z := fold_left (fun s b => u8 (s + b)) l 0.

Section Programmer.
Context (e : env) (turns : nat).

(* ------------------------------------------------------------------ *)
(** ** Transfers *)

(** [fail]: a message, and exit. *)
Definition fail {A} : X A := exit 1.

Definition cleanup (w : world) : world :=
  if uart w <? 0 then w else
  World (tick w)
    (log w ++ match saved w with Some t => [TermiosSet t] | None => [] end ++ [PortClosed (uart w)])
    (uart w) (saved w) (at_exit w).

Definition now_ms : X Z :=
  do c <- ask (clock e);
  match c with
  | None => fail
  | Some ts => xret (ts.1 * 1000 + Z.quot ts.2 1000000)
  end.

(** The cast of [left] to int. *)
Definition to_int (z : Z) : Z := (z + 2147483648) mod 4294967296 - 2147483648.

(** [p]: the bytes to write; [len]: how many are left.  Gives the bytes read. *)
Fixpoint transfer (turns : nat) (p : list Z) (len : nat) (writing : bool) (deadline : Z) : X (list Z) :=
  match len with
  | O => xret []
  | S _ =>
      match turns with
      | O => out_of_turns
      | S turns' =>
          do now <- now_ms;
          let left := deadline - now in
          if left <=? 0 then fail else
          emit [Polled (to_int left)];;
          do r <- ask (fun n => polled e n (to_int left));
          match r with
          | PollFails true => transfer turns' p len writing deadline
          | PollFails false => fail
          | PollNothing => fail
          | PollReady false => fail
          | PollReady true =>
              if writing then
                do a <- ask (fun n => written e n p);
                match a with
                | IoFails true => transfer turns' p len writing deadline
                | IoFails false => fail
                | IoGives O => fail
                | IoGives n =>
                    let n := Nat.min n len in
                    emit (map Out (take n p));;
                    transfer turns' (drop n p) (len - n) writing deadline
                end
              else
                do a <- ask (fun n => given e n len);
                match a with
                | IoFails true => transfer turns' p len writing deadline
                | IoFails false => fail
                | IoGives [] => fail
                | IoGives bs =>
                    let bs := map u8 (take len bs) in
                    emit (map In bs);;
                    do more <- transfer turns' p (len - length bs) writing deadline;
                    xret (bs ++ more)
                end
          end
      end
  end.

Definition send (p : list Z) (deadline : Z) : X unit :=
  transfer turns p (length p) true deadline;; xret tt.
Definition receive (n : nat) (deadline : Z) : X (list Z) := transfer turns [] n false deadline.

Fixpoint nonzero_loop (turns : nat) (deadline : Z) : X Z :=
  match turns with
  | O => out_of_turns
  | S turns' =>
      do bs <- receive 1 deadline;
      let b := ix bs 0 in
      if b =? 0 then nonzero_loop turns' deadline else xret b
  end.
Definition nonzero (deadline : Z) : X Z := nonzero_loop turns deadline.

Definition expect_ack (deadline : Z) : X unit :=
  do b <- nonzero deadline;
  if negb (b =? ACK) then exit 1 else xret tt.

(* ------------------------------------------------------------------ *)
(** ** Packets *)

(** [packet]: length, sum and command, and the data added to it. *)
Definition packet (cmd : Z) (data : list Z) : list Z :=
  [u8 (Z.of_nat (length data) + 3); fold_left (fun s b => u8 (s + b)) data cmd; cmd] ++ data.

Definition command (cmd : Z) (data : list Z) : X unit :=
  if 252 <? Z.of_nat (length data) then fail else
  do now <- now_ms;
  let deadline := now + timeout_ms in
  send (packet cmd data) deadline;;
  expect_ack deadline.

Definition response (n : nat) : X (list Z) :=
  do now <- now_ms;
  let deadline := now + timeout_ms in
  do len <- nonzero deadline;
  if negb (len =? Z.of_nat n + 2) then exit 1 else
  do sum <- receive 1 deadline;
  do data <- receive n deadline;
  let expected := sum8 data in
  let ack := if expected =? ix sum 0 then ACK else NACK in
  send [ack] deadline;;
  if ack =? NACK then exit 1 else xret data.

Definition status : X unit :=
  command 0x23 [];;
  do s <- response 1;
  if negb (ix s 0 =? 0x40) then exit 1 else xret tt.

(* ------------------------------------------------------------------ *)
(** ** GPIOs *)

(** The lines of a chip from [j] on; [None]: none has the name. *)
Fixpoint search_lines (name : text) (fd j : Z) (left : nat) : X (option Z) :=
  match left with
  | O => xret None
  | S left' =>
      do info <- ask (fun n => lineinfo e n fd j);
      if bool_decide (info = Some name) then
        do r <- ask (fun n => get_line e n fd j);
        match r with
        | None => fail
        | Some h => emit [LineRequested name h j; FdClosed fd];; xret (Some h)
        end
      else search_lines name fd (j + 1) left'
  end.

Fixpoint search_chips (name : text) (paths : list text) : X Z :=
  match paths with
  | [] => exit 1
  | path :: paths' =>
      do o <- ask (fun n => open_chip e n path);
      match o with
      | None => search_chips name paths'
      | Some fd =>
          emit [ChipOpened fd];;
          do c <- ask (fun n => chipinfo e n fd);
          match c with
          | None => emit [FdClosed fd];; search_chips name paths'
          | Some lines =>
              do r <- search_lines name fd 0 (Z.to_nat lines);
              match r with
              | Some h => xret h
              | None => emit [FdClosed fd];; search_chips name paths'
              end
          end
      end
  end.

Definition request_gpio (name : text) : X Z :=
  match globbed e with None => exit 1 | Some paths => search_chips name paths end.

Definition gpio_set (fd value : Z) : X unit :=
  do ok <- ask (fun n => set_values e n fd);
  if ok : bool then emit [LineSet fd value] else fail.

Definition BOOT_LINE : text := lit "CC1352P7_BOOT".
Definition RESET_LINE : text := lit "CC1352P7_RSTN".

Definition bootloader : X unit :=
  do boot <- request_gpio BOOT_LINE;
  do reset <- request_gpio RESET_LINE;
  emit [Slept 200000];;
  gpio_set reset 1;;
  emit [Slept 200000];;
  gpio_set boot 1;;
  emit [Slept 200000];;
  emit [FdClosed reset];;
  emit [FdClosed boot].

(* ------------------------------------------------------------------ *)
(** ** The program *)

Inductive parsed : Type :=
  | Quit (code : Z)
  | Options (port : text) (file : option text) (manual verify : bool).

Definition DEFAULT_PORT : text := lit "/dev/play/cc1352/uart".
Fixpoint parse_args (args : list text) (port : text) (file : option text) (manual verify : bool) : parsed :=
  match args with
  | [] => Options port file manual verify
  | a :: rest =>
      if bool_decide (a = lit "-h") || bool_decide (a = lit "--help") then Quit 0
      else if bool_decide (a = lit "--manual") then parse_args rest port file true verify
      else if bool_decide (a = lit "--verify-only") then parse_args rest port file manual true
      else
        let other :=
          if (ix a 0 =? 45) || negb (bool_decide (file = None)) then Quit 1
          else parse_args rest port (Some a) manual verify in
        if bool_decide (a = lit "-p") then
          match rest with
          | p :: rest' => parse_args rest' p file manual verify
          | [] => other
          end
        else other
  end.

Context (FLASH_SIZE : Z).

(** The image: what the file gives, filled up with 0xff; [None]: exit with 1. *)
Definition load_image (file : text) : option (list Z) :=
  if negb (malloc_ok e) then None else
  '(content, error) ← fopen_file e file;
  let read := take (Z.to_nat FLASH_SIZE) content in
  let size := Z.of_nat (length read) in
  let extra := negb (Z.of_nat (length content) <=? FLASH_SIZE) in
  if error : bool then None else
  if (size =? 0) || extra then None else
  Some (map u8 read ++ replicate (Z.to_nat (FLASH_SIZE - size)) 0xff).

(** The loop over the image; its turns are those of the image's bytes. *)
Fixpoint send_image (bytes : nat) (image : list Z) (off : Z) : X unit :=
  match bytes with
  | O => xret tt
  | S bytes' =>
      if FLASH_SIZE <=? off then xret tt else
      let n := FLASH_SIZE - off in
      let n := if 252 <? n then 252 else n in
      command 0x24 (take (Z.to_nat n) (drop (Z.to_nat off) image));;
      status;;
      send_image bytes' image (off + 252)
  end.

Definition write_flash (image : list Z) : X unit :=
  command 0x2c [];;
  status;;
  command 0x21 (be32 0 ++ be32 FLASH_SIZE);;
  status;;
  send_image (Z.to_nat FLASH_SIZE) image 0.

Definition open_uart (port : text) : X unit :=
  let fd := open_port e port in
  set_uart fd;;
  if fd <? 0 then fail else
  emit [PortOpened fd];;
  set_at_exit;;
  if negb (flock_ok e) then fail else
  if negb (tiocexcl_ok e) then fail else
  match tcgetattr_gives e with
  | None => fail
  | Some t =>
      set_saved t;;
      if negb (tcsetattr_ok e) then fail else emit [TermiosSet (line_settings t)]
  end.

Definition read_u32 (r : list Z) : Z :=
  Z.lor (Z.lor (Z.lor (Z.shiftl (ix r 0) 24) (Z.shiftl (ix r 1) 16)) (Z.shiftl (ix r 2) 8)) (ix r 3).

(** What is said over the line. *)
Definition session (verify : bool) (image : list Z) : X Z :=
  do now <- now_ms;
  let deadline := now + timeout_ms in
  send [0x55; 0x55] deadline;;
  expect_ack deadline;;
  status;;
  (if verify then xret tt else write_flash image);;
  command 0x27 (be32 0 ++ be32 FLASH_SIZE ++ [0; 0; 0; 0]);;
  do result <- response 4;
  if negb (read_u32 result =? crc32 image) then exit 1 else
  command 0x25 [];;
  xret 0.

Definition main (args : list text) : X Z :=
  match parse_args args DEFAULT_PORT None false false with
  | Quit code => exit code
  | Options _ None _ _ => exit 1
  | Options port (Some file) manual verify =>
      match load_image file with
      | None => exit 1
      | Some image =>
          open_uart port;;
          (if manual then xret tt else bootloader);;
          if negb (tcflush_ok e) then fail else
          session verify image
      end
  end.

(** The process: the code it ends with and what it did; [None]: a loop did not
    end in [turns]. *)
Definition process (args : list text) : option (Z * world) :=
  match main args (World 0 [] (-1) None false) with
  | Value code w | Exit code w => Some (code, if at_exit w then cleanup w else w)
  | OutOfTurns => None
  end.
End Programmer.
