(* ===== verification/FlashWire.v ===== *)
(** FlashWire: what goes over the serial line.  A dialogue is a list of steps,
    each a packet to send that is acknowledged or a reply to receive; [done] and
    [partial] say what is on the line when a step went through or stopped.  Then
    the dialogue of a run, [script], and that the program follows it; what the
    target can read from it. *)

From S2P Require Import Prelude ByteStr Exits Flash.

Open Scope list_scope.

(* ------------------------------------------------------------------ *)
(** ** Events of the line *)

Definition on_wire (ev : event) : bool := match ev with Out _ | In _ => true | _ => false end.
Definition wire (l : list event) : list event := List.filter on_wire l.
(** What a transfer may log. *)
Definition talk (ev : event) : Prop := match ev with Out _ | In _ | Polled _ => True | _ => False end.

Lemma wire_app a b : wire (a ++ b) = wire a ++ wire b.
Proof. apply List.filter_app. Qed.
Lemma wire_Out bs : wire (map Out bs) = map Out bs.
Proof. induction bs as [|b bs IH]; [done | ]. cbn. f_equal. apply IH. Qed.
Lemma wire_In bs : wire (map In bs) = map In bs.
Proof. induction bs as [|b bs IH]; [done | ]. cbn. f_equal. apply IH. Qed.

(** From [w] to [w'] nothing happened but talk, and [es] was on the line. *)
Definition talked (w w' : world) (es : list event) : Prop :=
  (uart w' = uart w /\ saved w' = saved w /\ at_exit w' = at_exit w) /\
  exists all, log w' = log w ++ all /\ Forall talk all /\ wire all = es.

Lemma talked_trans w w1 w2 a b : talked w w1 a -> talked w1 w2 b -> talked w w2 (a ++ b).
Proof.
  unfold talked. intros [(Hu & Hs & Hx) (la & Hl & Ha & <-)] [(-> & -> & ->) (lb & -> & Hb & <-)].
  split; [done | ]. exists (la ++ lb). by rewrite Hl, app_assoc, wire_app, Forall_app.
Qed.
Lemma talked_refl w : talked w w [].
Proof. split; [done | ]. exists []. by rewrite app_nil_r. Qed.
(** What a call and a log entry leave. *)
Lemma talked_tick w : talked w (World (S (tick w)) (log w) (uart w) (saved w) (at_exit w)) [].
Proof. split; [done | ]. exists []. by rewrite app_nil_r. Qed.
Lemma talked_emit w es :
  Forall talk es -> talked w (World (tick w) (log w ++ es) (uart w) (saved w) (at_exit w)) (wire es).
Proof. split; [done | ]. by exists es. Qed.
Lemma talked_l w w1 w2 es : talked w w1 [] -> talked w1 w2 es -> talked w w2 es.
Proof. intros H. exact (talked_trans _ _ _ [] es H). Qed.
Lemma talked_Out w bs :
  talked w (World (tick w) (log w ++ map Out bs) (uart w) (saved w) (at_exit w)) (map Out bs).
Proof. rewrite <- (wire_Out bs) at 2. apply talked_emit. by apply List.Forall_map, Forall_true. Qed.
Lemma talked_In w bs :
  talked w (World (tick w) (log w ++ map In bs) (uart w) (saved w) (at_exit w)) (map In bs).
Proof. rewrite <- (wire_In bs) at 2. apply talked_emit. by apply List.Forall_map, Forall_true. Qed.

(* ------------------------------------------------------------------ *)
(** ** Dialogues *)

(** [Send]: a packet, which the target acknowledges; [Reply]: what the target
    sends, after its length and sum, which the program acknowledges. *)
Inductive step : Type := Send (bs : list Z) | Reply (data : list Z).

Definition reply_bytes (sum : Z) (data : list Z) : list Z := [Z.of_nat (length data) + 2; sum] ++ data.

(** Zeros may come before an answer. *)
Definition step_done (s : step) (tr : list event) : Prop :=
  match s with
  | Send bs => exists z, tr = map Out bs ++ map In (replicate z 0 ++ [ACK])
  | Reply data => exists z, tr = map In (replicate z 0 ++ reply_bytes (sum8 data) data) ++ [Out ACK]
  end.

(** The packet was not sent whole, or another answer came, or none. *)
Inductive send_stops (bs : list Z) : list event -> Prop :=
  | StopsSending k : send_stops bs (map Out (take k bs))
  | StopsWaiting z : send_stops bs (map Out bs ++ map In (replicate z 0))
  | StopsRefused z b : b <> 0 -> b <> ACK -> send_stops bs (map Out bs ++ map In (replicate z 0 ++ [b])).
(** The reply did not come whole, or its sum was wrong and it was refused, or it
    was another than expected. *)
Inductive reply_stops (data : list Z) : list event -> Prop :=
  | StopsReading got : reply_stops data (map In got)
  | StopsBadSum z sum data' :
      length data' = length data -> sum <> sum8 data' ->
      reply_stops data (map In (replicate z 0 ++ reply_bytes sum data') ++ map Out [NACK])
  | StopsOther z data' :
      length data' = length data -> data' <> data ->
      reply_stops data (map In (replicate z 0 ++ reply_bytes (sum8 data') data') ++ map Out [ACK]).
Definition step_stops (s : step) : list event -> Prop :=
  match s with Send bs => send_stops bs | Reply data => reply_stops data end.

Notation all_done := (went_through step_done).
Notation stopped := (broke_off step_done step_stops).

Lemma step_stops_nil s : step_stops s [].
Proof. destruct s; [exact (StopsSending bs 0) | exact (StopsReading data [])]. Qed.

(* ------------------------------------------------------------------ *)
(** ** Transfers *)

Section Wire.
Context (e : env) (turns : nat).

Lemma ask_talk {A} (f : nat -> A) w Q (X : Z -> world -> Prop) :
  (forall w', talked w w' [] -> Q (f (tick w)) w') -> spec True (ask f) w Q X.
Proof. intros H. unfold ask. xstep. apply H, talked_tick. Qed.

Lemma now_talk w : spec True (now_ms e) w (fun _ w' => talked w w' []) (fun c w' => c = 1 /\ talked w w' []).
Proof.
  unfold now_ms. apply spec_bind, ask_talk. intros w' Hw. destruct (clock e (tick w)).
  - by apply spec_ret.
  - by apply spec_exit.
Qed.

(** The steps both directions of a transfer share: [again] is the next turn. *)
Lemma transfer_turn (k : xprog world (list Z)) again deadline w Q X :
  (forall w', talked w w' [] -> X 1 w') ->
  (forall w', talked w w' [] -> spec True again w' Q X) ->
  (forall w', talked w w' [] -> spec True k w' Q X) ->
  spec True (xbind (now_ms e) (fun now =>
    let left := deadline - now in
    if left <=? 0 then fail else
    xbind (emit [Polled (to_int left)]) (fun _ =>
    xbind (ask (fun n => polled e n (to_int left))) (fun r =>
    match r with
    | PollFails true => again
    | PollFails false => fail
    | PollNothing => fail
    | PollReady false => fail
    | PollReady true => k
    end)))) w Q X.
Proof.
  intros HX Ha Hk. xuse now_talk; [ | intros c w' [-> H]; by apply HX].
  intros now w1 H1; cbv zeta. destruct (_ <=? 0); [by apply spec_exit, HX | ].
  apply spec_bind. unfold emit. xstep. apply spec_bind, ask_talk. intros w2 H2.
  assert (H : talked w w2 []).
  { apply (talked_l _ _ _ _ H1). refine (talked_l _ _ _ _ _ H2). apply (talked_emit _ [Polled _]). by constructor. }
  destruct (polled e _ _) as [[] | | []]; try (by apply Ha); try (by apply Hk); by apply spec_exit, HX.
Qed.

Lemma transfer_writes n p deadline w :
  spec True (transfer e n p (length p) true deadline) w
    (fun _ w' => talked w w' (map Out p))
    (fun c w' => c = 1 /\ exists k, (k < length p)%nat /\ talked w w' (map Out (take k p))).
Proof.
  revert p w. induction n as [|n IH]; intros p w; destruct p as [|b p]; cbn [length transfer];
    try (apply spec_ret; apply talked_refl); [done | ].
  set (q := b :: p) in *. change (S (length p)) with (length q).
  assert (HX : forall w', talked w w' [] -> 1 = 1 /\ exists k, (k < length q)%nat /\ talked w w' (map Out (take k q))).
  { intros w' H. split; [done | ]. exists 0%nat. split; [cbn; lia | done]. }
  assert (Ha : forall w', talked w w' [] -> spec True (transfer e n q (length q) true deadline) w'
     (fun _ w' => talked w w' (map Out q)) (fun c w' => c = 1 /\ exists k, (k < length q)%nat /\ talked w w' (map Out (take k q)))).
  { intros w' H. xmono IH.
    - intros _ w'' H'. by apply (talked_l _ _ _ _ H).
    - intros c w'' (-> & k & Hk & H'). split; [done | ]. exists k. split; [done | ]. by apply (talked_l _ _ _ _ H). }
  apply transfer_turn; [exact HX | exact Ha | ]. intros w1 H1.
  apply spec_bind, ask_talk. intros w2 H2. pose proof (talked_l _ _ _ _ H1 H2) as H.
  destruct (written e _ _) as [[] | [|m]]; [by apply Ha | by apply spec_exit, HX | by apply spec_exit, HX | ].
  set (j := Nat.min (S m) (length q)). apply spec_bind. unfold emit. xstep.
  pose proof (talked_l _ _ _ _ H (talked_Out w2 (take j q))) as H3.
  replace (length q - j)%nat with (length (drop j q)) by apply length_drop.
  xmono IH.
  - intros _ w' H'. rewrite <- (take_drop j q), map_app. exact (talked_trans _ _ _ _ _ H3 H').
  - intros c w' (-> & k & Hk & H'). rewrite length_drop in Hk. split; [done | ]. exists (j + k)%nat. split; [lia | ].
    replace (take (j + k) q) with (take j q ++ take k (drop j q)) by apply take_take_drop.
    rewrite map_app. exact (talked_trans _ _ _ _ _ H3 H').
Qed.

Lemma transfer_reads n len deadline w :
  spec True (transfer e n [] len false deadline) w
    (fun bs w' => length bs = len /\ Forall is_u8 bs /\ talked w w' (map In bs))
    (fun c w' => c = 1 /\ exists bs, (length bs < len)%nat /\ talked w w' (map In bs)).
Proof.
  revert len w. induction n as [|n IH]; intros len w; destruct len as [|len]; cbn [transfer];
    try (apply spec_ret; split; [done | split; [done | apply talked_refl]]); [done | ].
  assert (HX : forall w', talked w w' [] -> 1 = 1 /\ exists bs, (length bs < S len)%nat /\ talked w w' (map In bs)).
  { intros w' H. split; [done | ]. exists []. split; [cbn; lia | done]. }
  assert (Ha : forall w', talked w w' [] -> spec True (transfer e n [] (S len) false deadline) w'
     (fun bs w' => length bs = S len /\ Forall is_u8 bs /\ talked w w' (map In bs))
     (fun c w' => c = 1 /\ exists bs, (length bs < S len)%nat /\ talked w w' (map In bs))).
  { intros w' H. xmono IH.
    - intros bs w'' (Hl & Hb & H'). repeat split_and; [done.. | ]. by apply (talked_l _ _ _ _ H).
    - intros c w'' [-> (bs & Hl & H')]. split; [done | ]. exists bs. split; [done | ]. by apply (talked_l _ _ _ _ H). }
  apply transfer_turn; [exact HX | exact Ha | ]. intros w1 H1.
  apply spec_bind, ask_talk. intros w2 H2. pose proof (talked_l _ _ _ _ H1 H2) as H.
  destruct (given e _ _) as [[] | [|b0 bs0]]; [by apply Ha | by apply spec_exit, HX | by apply spec_exit, HX | ].
  set (bs := map u8 (take (S len) (b0 :: bs0))). apply spec_bind. unfold emit. xstep.
  pose proof (talked_l _ _ _ _ H (talked_In w2 bs)) as H3.
  assert (Hlen : (1 <= length bs <= S len)%nat) by (unfold bs; rewrite length_map, length_take; cbn [length]; lia).
  assert (Hu : Forall is_u8 bs) by (apply List.Forall_map, Forall_true; intros; apply u8_range).
  xuse IH.
  - intros more w' (Hl & Hm & H'). apply spec_ret. rewrite length_app, Forall_app, map_app.
    repeat split_and; [lia | done.. | exact (talked_trans _ _ _ _ _ H3 H')].
  - intros c w' [-> (more & Hl & H')]. split; [done | ]. exists (bs ++ more). rewrite length_app, map_app.
    split; [lia | exact (talked_trans _ _ _ _ _ H3 H')].
Qed.

(* ------------------------------------------------------------------ *)
(** ** Steps *)

(** A program follows a dialogue: it says all of it, or stops in a step of it
    and exits with 1. *)
Definition says {A} (m : X A) (steps : list step) (Q : A -> Prop) : Prop := forall w,
  spec True m w (fun x w' => Q x /\ exists tr, talked w w' tr /\ all_done steps tr)
    (fun c w' => c = 1 /\ exists tr, talked w w' tr /\ stopped steps tr).

Lemma says_bind {A B} (m : X A) (k : A -> X B) a b P Q :
  says m a P -> (forall x, P x -> says (k x) b Q) -> says (xbind m k) (a ++ b) Q.
Proof.
  intros Hm Hk w. xuse Hm.
  - intros x w1 (Hx & t1 & H1 & D1). xmono (Hk x Hx).
    + intros y w2 (Hy & t2 & H2 & D2). split; [done | ]. exists (t1 ++ t2).
      split; [by eapply talked_trans | by apply through_app].
    + intros c w2 (-> & t2 & H2 & D2). split; [done | ]. exists (t1 ++ t2).
      split; [by eapply talked_trans | by apply broke_r].
  - intros c w1 (-> & t1 & H1 & D1). split; [done | ]. exists t1. split; [done | by apply broke_l].
Qed.

Lemma says_now {A} (k : Z -> X A) s rest Q :
  (forall t, says (k t) (s :: rest) Q) -> says (xbind (now_ms e) k) (s :: rest) Q.
Proof.
  intros Hk w. xuse now_talk.
  - intros t w1 H1. xmono (Hk t).
    + intros x w2 (Hx & tr & H2 & D). split; [done | ]. exists tr. split; [by apply (talked_l _ _ _ _ H1) | done].
    + intros c w2 (-> & tr & H2 & D). split; [done | ]. exists tr. split; [by apply (talked_l _ _ _ _ H1) | done].
  - intros c w1 (-> & H1). split; [done | ]. exists []. split; [done | apply broke_here, step_stops_nil].
Qed.

Lemma send_spec p deadline w :
  spec True (send e turns p deadline) w (fun _ w' => talked w w' (map Out p))
    (fun c w' => c = 1 /\ exists k, (k < length p)%nat /\ talked w w' (map Out (take k p))).
Proof. unfold send. xuse transfer_writes; [ | done]. intros _ w' H. by apply spec_ret. Qed.

Lemma nonzero_spec n deadline w :
  spec True (nonzero_loop e turns n deadline) w
    (fun b w' => b <> 0 /\ exists z, talked w w' (map In (replicate z 0 ++ [b])))
    (fun c w' => c = 1 /\ exists z, talked w w' (map In (replicate z 0))).
Proof.
  revert w. induction n as [|n IH]; intros w; cbn [nonzero_loop]; [done | ].
  unfold receive. xuse transfer_reads.
  - intros bs w1 (Hl & _ & H1). destruct bs as [|b [|]]; try done. change (ix [b] 0) with b. cbn [map] in H1.
    destruct (Z.eqb_spec b 0) as [-> | Hb].
    + xmono IH.
      * intros x w2 (Hx & z & H2). split; [done | ]. exists (S z). exact (talked_trans _ _ _ _ _ H1 H2).
      * intros c w2 (-> & z & H2). split; [done | ]. exists (S z). exact (talked_trans _ _ _ _ _ H1 H2).
    + apply spec_ret. split; [done | ]. by exists 0%nat.
  - intros c w1 (-> & bs & Hl & H1). split; [done | ]. exists 0%nat. by destruct bs; [ | cbn in Hl; lia].
Qed.

(** A packet and its acknowledgement. *)
Lemma says_send p deadline : says (xbind (send e turns p deadline) (fun _ => expect_ack e turns deadline)) [Send p] (fun _ => True).
Proof.
  intros w. xuse send_spec.
  - intros _ w1 H1. unfold expect_ack, nonzero. xuse nonzero_spec.
    + intros b w2 (Hb & z & H2). pose proof (talked_trans _ _ _ _ _ H1 H2) as H.
      destruct (Z.eqb_spec b ACK) as [-> | Ha]; cbn [negb].
      * apply spec_ret. split; [done | ]. eexists. split; [exact H | ]. apply through_one. by exists z.
      * apply spec_exit. split; [done | ]. eexists. split; [exact H | ]. by apply broke_here, StopsRefused.
    + intros c w2 (-> & z & H2). split; [done | ]. eexists. split; [exact (talked_trans _ _ _ _ _ H1 H2) | ].
      apply broke_here, StopsWaiting.
  - intros c w1 (-> & k & _ & H1). split; [done | ]. eexists. split; [exact H1 | ]. apply broke_here, StopsSending.
Qed.

Lemma says_command cmd data :
  Z.of_nat (length data) <= 252 -> says (command e turns cmd data) [Send (packet cmd data)] (fun _ => True).
Proof.
  intros Hd. unfold command. destruct (Z.ltb_spec 252 (Z.of_nat (length data))); [lia | ].
  apply says_now. intros t. cbv zeta. apply says_send.
Qed.

(** A reply of which one is expected. *)
Lemma says_response {A} n want (ok : list Z -> bool) (k : list Z -> X A) rest Q :
  length want = n ->
  (forall data, length data = n -> Forall is_u8 data -> ok data = true <-> data = want) ->
  (says (k want) rest Q) ->
  says (xbind (response e turns n) (fun data => if negb (ok data) then exit 1 else k data)) (Reply want :: rest) Q.
Proof.
  intros Hn Hok Hk w.
  assert (HX : forall w' got, talked w w' (map In got) ->
    1 = 1 /\ exists tr, talked w w' tr /\ stopped (Reply want :: rest) tr).
  { intros w' got H. split; [done | ]. exists (map In got). split; [done | apply broke_here, StopsReading]. }
  unfold response. apply spec_bind. xuse now_talk; [ | intros c w1 (-> & H1); by apply (HX _ [])].
  intros t w1 H1. cbv zeta. unfold nonzero.
  xuse nonzero_spec; [ | intros c w2 (-> & z & H2); eapply HX, (talked_l _ _ _ _ H1 H2)].
  intros len w2 (_ & z & H2). pose proof (talked_l _ _ _ _ H1 H2) as H02.
  destruct (Z.eqb_spec len (Z.of_nat n + 2)) as [Hlen | _]; cbn [negb]; [ | by eapply spec_exit, HX].
  unfold receive. xuse transfer_reads.
  2:{ intros c w3 (-> & bs & _ & H3). eapply HX. rewrite map_app. exact (talked_trans _ _ _ _ _ H02 H3). }
  intros sb w3 (Hs & _ & H3). destruct sb as [|sum [|]]; try done. change (ix [sum] 0) with sum.
  pose proof (talked_trans _ _ _ _ _ H02 H3) as H03. rewrite <- map_app in H03.
  xuse transfer_reads.
  2:{ intros c w4 (-> & bs & _ & H4). eapply HX. rewrite map_app. exact (talked_trans _ _ _ _ _ H03 H4). }
  intros data w4 (Hd & Hu & H4). pose proof (talked_trans _ _ _ _ _ H03 H4) as H04.
  rewrite <- map_app in H04.
  assert (Hgot : ((replicate z 0 ++ [len]) ++ [sum]) ++ data = replicate z 0 ++ reply_bytes sum data).
  { unfold reply_bytes. rewrite Hd, <- Hlen, <- !app_assoc. done. }
  rewrite Hgot in H04. clear H03 H02.
  xuse send_spec.
  2:{ intros c w5 (-> & k0 & Hk0 & H5). assert (k0 = 0%nat) as -> by (cbn in Hk0; lia).
      eapply HX. pose proof (talked_trans _ _ _ _ _ H04 H5) as H05. cbn [take map] in H05. by rewrite app_nil_r in H05. }
  intros _ w5 H5. pose proof (talked_trans _ _ _ _ _ H04 H5) as H05.
  destruct (Z.eqb_spec (sum8 data) sum) as [<- | Hsum].
  - change (ACK =? NACK) with false. cbv iota. apply spec_ret.
    destruct (ok data) eqn:Ho; cbn [negb].
    + apply Hok in Ho as ->; [ | done..]. xmono Hk.
      * intros x w6 (Hx & tr & H6 & D6). split; [done | ]. eexists. split; [exact (talked_trans _ _ _ _ _ H05 H6) | ].
        apply (through_app [_] rest); [ | done]. apply through_one. by exists z.
      * intros c w6 (-> & tr & H6 & D6). split; [done | ]. eexists. split; [exact (talked_trans _ _ _ _ _ H05 H6) | ].
        apply (broke_r [_] rest); [ | done]. apply through_one. by exists z.
    + apply spec_exit. split; [done | ]. eexists. split; [exact H05 | ]. apply broke_here, StopsOther; [by rewrite Hn | ].
      intros E. apply Hok in E; [congruence | done..].
  - change (NACK =? NACK) with true. cbv iota. apply spec_exit. split; [done | ]. eexists. split; [exact H05 | ].
    apply broke_here, StopsBadSum; [by rewrite Hn | congruence].
Qed.

Lemma says_value {A} (x : A) (Q : A -> Prop) : Q x -> says (xret x) [] Q.
Proof.
  intros Hx w. apply spec_ret. split; [done | ]. exists []. split; [apply talked_refl | ]. by exists [].
Qed.

Definition status_steps : list step := [Send (packet 0x23 []); Reply [0x40]].

Lemma says_status : says (status e turns) status_steps (fun _ => True).
Proof.
  unfold status. apply (says_bind _ _ [_] [_] (fun _ => True)).
  - apply says_command. done.
  - intros _ _. apply (says_response 1 [0x40] (fun s => ix s 0 =? 0x40)); [done | | by apply says_value].
    intros [|b [|]]; try done. intros _ _. change (ix [b] 0) with b. rewrite Z.eqb_eq. split; [by intros -> | by intros [=]].
Qed.
End Wire.

(* ------------------------------------------------------------------ *)
(** ** Numbers *)

Lemma be32_bytes v : Forall is_u8 (be32 v).
Proof. repeat constructor; apply u8_range. Qed.
Lemma length_be32 v : length (be32 v) = 4%nat.
Proof. done. Qed.

Lemma read_u32_sum a b c d :
  is_u8 a -> is_u8 b -> is_u8 c -> is_u8 d -> read_u32 [a; b; c; d] = a * 2 ^ 24 + b * 2 ^ 16 + c * 2 ^ 8 + d.
Proof.
  unfold is_u8. intros Ha Hb Hc Hd. unfold read_u32. change (ix [a; b; c; d] 0) with a. change (ix [a; b; c; d] 1) with b.
  change (ix [a; b; c; d] 2) with c. change (ix [a; b; c; d] 3) with d. rewrite <- !Z.lor_assoc.
  assert (E1 : Z.lor (Z.shiftl c 8) d = c * 2 ^ 8 + d) by (apply lor_shift; lia).
  assert (E2 : Z.lor (Z.shiftl b 16) (c * 2 ^ 8 + d) = b * 2 ^ 16 + (c * 2 ^ 8 + d)) by (apply lor_shift; lia).
  rewrite E1, E2, lor_shift by lia. lia.
Qed.

(** Four bytes are the number exactly when they are its encoding. *)
Lemma read_u32_be32 v data :
  0 <= v < 2 ^ 32 -> length data = 4%nat -> Forall is_u8 data -> (read_u32 data =? v) = true <-> data = be32 v.
Proof.
  intros Hv Hl Hu. destruct data as [|a [|b [|c [|d [|]]]]]; try done.
  inversion Hu as [|? ? Ha Hu1]; inversion Hu1 as [|? ? Hb Hu2]; inversion Hu2 as [|? ? Hc Hu3]; inversion Hu3 as [|? ? Hd _]; subst.
  rewrite read_u32_sum, Z.eqb_eq by done. unfold be32, u8, is_u8 in *. rewrite !shr_div by lia. split.
  - intros <-. repeat f_equal; dlia.
  - intros [= -> -> -> ->]. dlia.
Qed.

(* ------------------------------------------------------------------ *)
(** ** The script *)

(** An image in pieces of at most 252 bytes. *)
Fixpoint pieces (n : nat) (image : list Z) : list (list Z) :=
  match n, image with
  | S n', _ :: _ => take 252 image :: pieces n' (drop 252 image)
  | _, _ => []
  end.

Definition size_of (image : list Z) : Z := Z.of_nat (length image).

Definition data_steps (chunks : list (list Z)) : list step :=
  concat (map (fun c => Send (packet 0x24 c) :: status_steps) chunks).
Definition write_steps (image : list Z) : list step :=
  [Send (packet 0x2c [])] ++ status_steps ++
  [Send (packet 0x21 (be32 0 ++ be32 (size_of image)))] ++ status_steps ++
  data_steps (pieces (length image) image).
(** Erase and write unless [verify]; then the target must give the checksum of
    the image before it is told to start. *)
Definition script (verify : bool) (image : list Z) : list step :=
  [Send [0x55; 0x55]] ++ status_steps ++
  (if verify then [] else write_steps image) ++
  [Send (packet 0x27 (be32 0 ++ be32 (size_of image) ++ [0; 0; 0; 0])); Reply (be32 (crc32 image))] ++
  [Send (packet 0x25 [])].

Lemma pieces_more n l : (length l <= n)%nat -> pieces n l = pieces (length l) l.
Proof.
  revert l. induction n as [n IH] using lt_wf_ind. intros l Hl. destruct n as [|n]; [by destruct l; [ | cbn in Hl; lia] | ].
  destruct l as [|b l]; [done | ]. cbn [pieces length]. cbn [length] in Hl. f_equal.
  assert (Hd : (length (drop 252 (b :: l)) <= length l)%nat) by (rewrite length_drop; cbn [length]; lia).
  rewrite (IH n) by lia. symmetry. destruct (decide (length l = n)) as [-> | ]; [by rewrite (IH n) by lia | ].
  apply IH; lia.
Qed.

Lemma concat_pieces n l : (length l <= n)%nat -> concat (pieces n l) = l.
Proof.
  revert l. induction n as [|n IH]; intros [|b l] Hl; try done; [cbn in Hl; lia | ]. cbn [pieces concat].
  rewrite IH by (rewrite length_drop; cbn [length] in *; lia). apply take_drop.
Qed.
Lemma pieces_short n l : Forall (fun c => (1 <= length c <= 252)%nat) (pieces n l).
Proof.
  revert l. induction n as [|n IH]; intros [|b l]; try constructor; [ | apply IH].
  rewrite length_take. cbn [length]. lia.
Qed.

Section Session.
Context (e : env) (turns : nat).

Lemma says_send_image image n off :
  0 <= off -> Z.of_nat n >= size_of image - off ->
  says (send_image e turns (size_of image) n image off) (data_steps (pieces n (drop (Z.to_nat off) image))) (fun _ => True).
Proof.
  revert off. induction n as [|n IH]; intros off Hoff Hn; [by apply says_value | ]. cbn [send_image].
  assert (Hlen : Z.of_nat (length (drop (Z.to_nat off) image)) = Z.max 0 (size_of image - off)).
  { rewrite length_drop. unfold size_of in *. lia. }
  destruct (Z.leb_spec (size_of image) off) as [Hle | Hlt].
  { destruct (drop (Z.to_nat off) image); [by apply says_value | cbn [length] in Hlen; lia]. }
  assert (Hp : pieces (S n) (drop (Z.to_nat off) image)
    = take 252 (drop (Z.to_nat off) image) :: pieces n (drop (Z.to_nat (off + 252)) image)).
  { destruct (drop (Z.to_nat off) image) as [|b l] eqn:Hd; [cbn [length] in Hlen; lia | ]. cbn [pieces]. do 2 f_equal.
    rewrite <- Hd, drop_drop. f_equal. lia. }
  rewrite Hp. cbv zeta.
  assert (Ht : take (Z.to_nat (if 252 <? size_of image - off then 252 else size_of image - off)) (drop (Z.to_nat off) image)
    = take 252 (drop (Z.to_nat off) image)).
  { destruct (Z.ltb_spec 252 (size_of image - off)); [by f_equal | ]. rewrite !take_ge; [done | lia | lia]. }
  rewrite Ht. unfold data_steps. cbn [map concat].
  change (says (xbind (command e turns 36 (take 252 (drop (Z.to_nat off) image))) (fun _ =>
     xbind (status e turns) (fun _ => send_image e turns (size_of image) n image (off + 252))))
   ([Send (packet 36 (take 252 (drop (Z.to_nat off) image)))] ++ status_steps ++
      data_steps (pieces n (drop (Z.to_nat (off + 252)) image))) (fun _ => True)).
  apply (says_bind _ _ _ _ (fun _ => True)); [apply says_command; rewrite length_take; lia | intros _ _].
  apply (says_bind _ _ _ _ (fun _ => True)); [apply says_status | intros _ _]. apply IH; lia.
Qed.

Lemma says_write image : says (write_flash e turns (size_of image) image) (write_steps image) (fun _ => True).
Proof.
  unfold write_flash, write_steps.
  apply (says_bind _ _ _ _ (fun _ => True)); [by apply says_command | intros _ _].
  apply (says_bind _ _ _ _ (fun _ => True)); [apply says_status | intros _ _].
  apply (says_bind _ _ _ _ (fun _ => True)); [by apply says_command | intros _ _].
  apply (says_bind _ _ _ _ (fun _ => True)); [apply says_status | intros _ _].
  replace (Z.to_nat (size_of image)) with (length image) by (unfold size_of; lia).
  apply (says_send_image image _ 0); unfold size_of; lia.
Qed.

Lemma says_session verify image :
  0 <= crc32 image < 2 ^ 32 ->
  says (session e turns (size_of image) verify image) (script verify image) (fun code => code = 0).
Proof.
  intros Hcrc. unfold session, script. apply says_now. intros t. cbv zeta. intros w. apply spec_assoc. revert w.
  apply (says_bind _ _ [_] _ (fun _ => True)); [apply says_send | intros _ _].
  apply (says_bind _ _ _ _ (fun _ => True)); [apply says_status | intros _ _].
  apply (says_bind _ _ _ _ (fun _ => True)); [destruct verify; [by apply says_value | apply says_write] | intros _ _].
  apply (says_bind _ _ [_] _ (fun _ => True)); [by apply says_command | intros _ _].
  apply (says_response e turns 4 (be32 (crc32 image)) (fun r => read_u32 r =? crc32 image)); [done | | ].
  - intros data Hl Hu. by apply read_u32_be32.
  - apply (says_bind _ _ [_] [] (fun _ => True)); [by apply says_command | intros _ _; by apply says_value].
Qed.
End Session.
