(* ===== verification/FlashRun.v ===== *)
(** FlashRun: a whole run of the programmer: the port and its settings, the
    GPIO lines, the session. *)

From S2P Require Import Prelude ByteStr Exits Crc Flash FlashWire.

Open Scope list_scope.

Lemma crc32_bit_same c : crc32_bit c = crc_bit c.
Proof.
  unfold crc32_bit, crc_bit. rewrite land1. pose proof (Z.mod_pos_bound c 2 ltac:(lia)).
  destruct (Z.eqb_spec (c mod 2) 1) as [-> | Hc]; [done | ].
  replace (c mod 2) with 0 by lia. change (u32 (0 - 0)) with 0. by rewrite Z.land_0_r, Z.lxor_0_r.
Qed.

Lemma crc32_same p : crc32 p = aloe_crc32 p 0.
Proof.
  assert (Hbits : forall n c, Nat.iter n crc32_bit c = Nat.iter n crc_bit c).
  { induction n as [|n IH]; intros c; [done | ]. by rewrite !Nat.iter_succ, IH, crc32_bit_same. }
  unfold crc32, aloe_crc32. change (not32 0) with 0xFFFFFFFF. unfold not32. f_equal.
  generalize 0xFFFFFFFF. induction p as [|b p IH]; intros c; [done | ].
  cbn [fold_left]. rewrite IH. unfold crc_byte. by rewrite Hbits.
Qed.

Lemma crc32_range p : Forall is_u8 p -> 0 <= crc32 p < 2 ^ 32.
Proof.
  intros Hp. rewrite crc32_same. apply not32_u32, crc_fold_u32; [ | done]. apply not32_u32. unfold is_u32. lia.
Qed.

(* ------------------------------------------------------------------ *)
(** ** GPIO lines *)

Definition gpio_event (ev : event) : Prop :=
  match ev with ChipOpened _ | LineRequested _ _ _ | LineSet _ _ | FdClosed _ | Slept _ => True | _ => False end.

(** From [w] to [w'] only [es] was done. *)
Definition acted (w w' : world) (es : list event) : Prop :=
  (uart w' = uart w /\ saved w' = saved w /\ at_exit w' = at_exit w) /\ log w' = log w ++ es.

Lemma acted_trans w w1 w2 a b : acted w w1 a -> acted w1 w2 b -> acted w w2 (a ++ b).
Proof. unfold acted. intros [(Hu & Hs & Hx) Hl] [(-> & -> & ->) ->]. by rewrite Hl, app_assoc. Qed.
Lemma acted_refl w : acted w w [].
Proof. split; [done | ]. by rewrite app_nil_r. Qed.

Section Run.
Context (e : env) (turns : nat).

Lemma ask_acted {A} (f : nat -> A) w Q (X : Z -> world -> Prop) :
  (forall w', acted w w' [] -> Q (f (tick w)) w') -> spec True (ask f) w Q X.
Proof. intros H. unfold ask. xstep. apply H. split; [done | ]. by rewrite app_nil_r. Qed.
Lemma emit_acted es w Q (X : Z -> world -> Prop) :
  (forall w', acted w w' es -> Q tt w') -> spec True (emit es) w Q X.
Proof. intros H. unfold emit. xstep. by apply H. Qed.

(** A chip that was opened and closed again. *)
Definition looked (fds : list Z) : list event := concat (map (fun fd => [ChipOpened fd; FdClosed fd]) fds).

Lemma search_lines_spec name fd j n w :
  spec True (search_lines e name fd j n) w
    (fun r w' => match r with
                 | None => acted w w' []
                 | Some h => exists off, j <= off < j + Z.of_nat n /\ acted w w' [LineRequested name h off; FdClosed fd]
                 end)
    (fun c w' => c = 1 /\ acted w w' []).
Proof.
  revert j w. induction n as [|n IH]; intros j w; cbn [search_lines]; [apply spec_ret, acted_refl | ].
  apply spec_bind, ask_acted. intros w1 H1. case_bool_decide.
  - apply spec_bind, ask_acted. intros w2 H2. pose proof (acted_trans _ _ _ _ _ H1 H2) as H12.
    destruct (get_line e _ fd j) as [h|]; [ | by apply spec_exit].
    apply spec_bind, emit_acted. intros w3 H3. apply spec_ret. exists j. split; [lia | exact (acted_trans _ _ _ _ _ H12 H3)].
  - xmono IH.
    + intros [h|] w2 H2; [ | exact (acted_trans _ _ _ _ _ H1 H2)]. destruct H2 as (off & Ho & H2).
      exists off. split; [lia | exact (acted_trans _ _ _ _ _ H1 H2)].
    + intros c w2 [-> H2]. split; [done | exact (acted_trans _ _ _ _ _ H1 H2)].
Qed.

(** What asking for a line leaves: chips looked at, and the one with the line. *)
Definition found (name : text) (h : Z) (es : list event) : Prop :=
  exists fds fd off, 0 <= off /\ es = looked fds ++ [ChipOpened fd; LineRequested name h off; FdClosed fd].
Definition not_found (es : list event) : Prop :=
  exists fds, es = looked fds \/ exists fd, es = looked fds ++ [ChipOpened fd].

Lemma search_chips_spec name paths w :
  spec True (search_chips e name paths) w
    (fun h w' => exists es, acted w w' es /\ found name h es)
    (fun c w' => c = 1 /\ exists es, acted w w' es /\ not_found es).
Proof.
  revert w. induction paths as [|path paths IH]; intros w; cbn [search_chips].
  { apply spec_exit. split; [done | ]. exists []. split; [apply acted_refl | ]. exists []. by left. }
  assert (Hnext : forall w1 fds, acted w w1 (looked fds) -> spec True (search_chips e name paths) w1
    (fun h w' => exists es, acted w w' es /\ found name h es)
    (fun c w' => c = 1 /\ exists es, acted w w' es /\ not_found es)).
  { intros w1 fds H1. assert (Hl : forall b, looked (fds ++ b) = looked fds ++ looked b)
      by (intros b; unfold looked; by rewrite map_app, concat_app).
    xmono IH.
    - intros h w2 (es & H2 & fds' & fd & off & Ho & ->). eexists. split; [exact (acted_trans _ _ _ _ _ H1 H2) | ].
      exists (fds ++ fds'), fd, off. split; [done | ]. by rewrite Hl, <- app_assoc.
    - intros c w2 (-> & es & H2 & fds' & Hes). split; [done | ]. eexists. split; [exact (acted_trans _ _ _ _ _ H1 H2) | ].
      exists (fds ++ fds'). rewrite Hl. destruct Hes as [-> | [fd ->]]; [by left | right]. exists fd. by rewrite <- app_assoc. }
  apply spec_bind, ask_acted. intros w1 H1. destruct (open_chip e _ path) as [fd|]; [ | by apply (Hnext _ [])].
  apply spec_bind, emit_acted. intros w2 H2. pose proof (acted_trans _ _ _ _ _ H1 H2) as H12. cbn [app] in H12.
  apply spec_bind, ask_acted. intros w3 H3. pose proof (acted_trans _ _ _ _ _ H12 H3) as H13. cbn [app] in H13.
  assert (Hclose : forall w4, acted w w4 [ChipOpened fd] -> spec True (xbind (emit [FdClosed fd]) (fun _ => search_chips e name paths)) w4
    (fun h w' => exists es, acted w w' es /\ found name h es)
    (fun c w' => c = 1 /\ exists es, acted w w' es /\ not_found es)).
  { intros w4 H4. apply spec_bind, emit_acted. intros w5 H5. apply (Hnext _ [fd]). exact (acted_trans _ _ _ _ _ H4 H5). }
  destruct (chipinfo e _ fd) as [lines|]; [ | by apply Hclose].
  xuse search_lines_spec.
  - intros [h|] w4 H4.
    + destruct H4 as (off & Ho & H4). apply spec_ret. eexists. split; [exact (acted_trans _ _ _ _ _ H13 H4) | ].
      exists [], fd, off. split; [lia | done].
    + apply Hclose. exact (acted_trans _ _ _ _ _ H13 H4).
  - intros c w4 [-> H4]. split; [done | ]. eexists. split; [exact (acted_trans _ _ _ _ _ H13 H4) | ].
    exists []. right. by exists fd.
Qed.

Lemma looked_gpio fds : Forall gpio_event (looked fds).
Proof. induction fds as [|fd fds IH]; [constructor | ]. cbn. by repeat constructor. Qed.
Lemma found_gpio name h es : found name h es -> Forall gpio_event es.
Proof. intros (fds & fd & off & _ & ->). apply Forall_app. split; [apply looked_gpio | by repeat constructor]. Qed.
Lemma not_found_gpio es : not_found es -> Forall gpio_event es.
Proof.
  intros (fds & [-> | [fd ->]]); [apply looked_gpio | ]. apply Forall_app. split; [apply looked_gpio | by repeat constructor].
Qed.

Lemma request_gpio_spec name w :
  spec True (request_gpio e name) w
    (fun h w' => exists es, acted w w' es /\ found name h es)
    (fun c w' => c = 1 /\ exists es, acted w w' es /\ Forall gpio_event es).
Proof.
  unfold request_gpio. destruct (globbed e).
  - xmono search_chips_spec; [done | ]. intros c w' (-> & es & H & Hes). split; [done | ]. exists es. eauto using not_found_gpio.
  - apply spec_exit. split; [done | ]. exists []. split; [apply acted_refl | constructor].
Qed.

(** The boot loader is entered by both lines, in this order. *)
Lemma bootloader_spec w :
  spec True (bootloader e) w
    (fun _ w' => exists boot reset a b, acted w w' (a ++ b ++
         [Slept 200000; LineSet reset 1; Slept 200000; LineSet boot 1; Slept 200000; FdClosed reset; FdClosed boot]) /\
       found BOOT_LINE boot a /\ found RESET_LINE reset b)
    (fun c w' => c = 1 /\ exists es, acted w w' es /\ Forall gpio_event es).
Proof.
  unfold bootloader. xuse request_gpio_spec; [ | done]. intros boot w1 (a & H1 & Ha).
  xuse request_gpio_spec.
  2:{ intros c w2 (-> & es & H2 & Hes). split; [done | ]. eexists. split; [exact (acted_trans _ _ _ _ _ H1 H2) | ].
      apply Forall_app. eauto using found_gpio. }
  intros reset w2 (b & H2 & Hb). pose proof (acted_trans _ _ _ _ _ H1 H2) as H.
  assert (Hex : forall w' es, acted w w' ((a ++ b) ++ es) -> Forall gpio_event es ->
    1 = 1 /\ exists es', acted w w' es' /\ Forall gpio_event es').
  { intros w' es H' Hes. split; [done | ]. eexists. split; [exact H' | ]. rewrite !Forall_app. eauto using found_gpio. }
  apply spec_bind, emit_acted. intros w3 H3. unfold gpio_set. apply spec_bind. apply spec_bind, ask_acted. intros w4 H4.
  pose proof (acted_trans _ _ _ _ _ H (acted_trans _ _ _ _ _ H3 H4)) as H04. clear H3 H4.
  destruct (set_values e _ reset); [ | apply spec_exit; eapply Hex; [exact H04 | by repeat constructor]].
  apply emit_acted. intros w5 H5. apply spec_bind, emit_acted. intros w6 H6. apply spec_bind. apply spec_bind, ask_acted. intros w7 H7.
  pose proof (acted_trans _ _ _ _ _ H04 (acted_trans _ _ _ _ _ H5 (acted_trans _ _ _ _ _ H6 H7))) as H07. clear H5 H6 H7.
  rewrite <- app_assoc in H07.
  destruct (set_values e _ boot); [ | apply spec_exit; eapply Hex; [exact H07 | by repeat constructor]].
  apply emit_acted. intros w8 H8. apply spec_bind, emit_acted. intros w9 H9. apply spec_bind, emit_acted. intros w10 H10.
  apply emit_acted. intros w11 H11. exists boot, reset, a, b. split; [ | done]. rewrite app_assoc.
  pose proof (acted_trans _ _ _ _ _ H07 (acted_trans _ _ _ _ _ H8 (acted_trans _ _ _ _ _ H9 (acted_trans _ _ _ _ _ H10 H11)))) as HH.
  by rewrite <- app_assoc in HH.
Qed.
End Run.

(* ------------------------------------------------------------------ *)
(** ** Runs *)

Definition start : world := World 0 [] (-1) None false.

(** What opening the boot loader logged. *)
Definition booted (manual : bool) (es : list event) : Prop :=
  if manual then es = [] else
  exists boot reset a b,
    es = a ++ b ++ [Slept 200000; LineSet reset 1; Slept 200000; LineSet boot 1; Slept 200000; FdClosed reset; FdClosed boot] /\
    found BOOT_LINE boot a /\ found RESET_LINE reset b.

(** How a run over an open port ends: its settings could not be taken; or they
    are changed, the session goes through or stops, and they are put back. *)
Definition ends (e : env) (manual verify : bool) (image : list Z) (fd code : Z) (l : list event) : Prop :=
  (code = 1 /\ l = [PortOpened fd; PortClosed fd]) \/
  exists t, tcgetattr_gives e = Some t /\
    ((code = 1 /\ l = [PortOpened fd; TermiosSet t; PortClosed fd]) \/
     exists boot said,
       l = PortOpened fd :: TermiosSet (line_settings t) :: boot ++ said ++ [TermiosSet t; PortClosed fd] /\
       ((code = 1 /\ Forall gpio_event boot /\ said = []) \/
        (booted manual boot /\ Forall talk said /\
         ((code = 0 /\ all_done (script verify image) (wire said)) \/
          (code = 1 /\ stopped (script verify image) (wire said)))))).

(** How a run ends. *)
Definition run_ends (e : env) (FLASH_SIZE : Z) (args : list text) (code : Z) (l : list event) : Prop :=
  match parse_args args DEFAULT_PORT None false false with
  | Quit c => code = c /\ l = []
  | Options _ None _ _ => code = 1 /\ l = []
  | Options port (Some file) manual verify =>
      match load_image e FLASH_SIZE file with
      | None => code = 1 /\ l = []
      | Some image =>
          if open_port e port <? 0 then code = 1 /\ l = []
          else ends e manual verify image (open_port e port) code l
      end
  end.

Definition finished (w : world) : world := if at_exit w then cleanup w else w.

Lemma finished_with w fd t l :
  0 <= fd -> at_exit w = true -> uart w = fd -> saved w = t -> log w = l ->
  log (finished w) = l ++ match t with Some t => [TermiosSet t] | None => [] end ++ [PortClosed fd].
Proof.
  intros Hfd Ha <- <- <-. unfold finished, cleanup. rewrite Ha. destruct (Z.ltb_spec (uart w) 0); [lia | done].
Qed.

Lemma booted_gpio manual es : booted manual es -> Forall gpio_event es.
Proof.
  destruct manual; [by intros -> | ]. intros (boot & reset & a & b & -> & Ha & Hb). rewrite !Forall_app.
  split; [by eapply found_gpio | split; [by eapply found_gpio | by repeat constructor]].
Qed.

Lemma load_image_size e F file image : load_image e F file = Some image -> size_of image = F /\ Forall is_u8 image.
Proof.
  unfold load_image. destruct (malloc_ok e); [ | done]. cbn [negb]. destruct (fopen_file e file) as [[content []]|]; try done.
  cbn [mbind option_bind]. set (r := take (Z.to_nat F) content).
  destruct (Z.eqb_spec (Z.of_nat (length r)) 0) as [|Hr]; [done | ]. cbn [orb].
  destruct (Z.leb_spec (Z.of_nat (length content)) F) as [Hc|]; [ | done]. cbn [negb]. intros [= <-]. split.
  - unfold size_of. rewrite length_app, length_map, length_replicate. unfold r in *. rewrite length_take in *. lia.
  - apply Forall_app. split; [apply List.Forall_map, Forall_true; intros; apply u8_range | ].
    apply Forall_replicate. unfold is_u8. lia.
Qed.

(** The session of an open port. *)
Lemma run_session e turns (manual verify : bool) image w :
  Forall is_u8 image ->
  spec True (xbind (if manual then xret tt else bootloader e) (fun _ =>
      if negb (tcflush_ok e) then fail else session e turns (size_of image) verify image)) w
    (fun code w' => code = 0 /\ exists boot said, acted w w' (boot ++ said) /\ booted manual boot /\ Forall talk said /\
       all_done (script verify image) (wire said))
    (fun code w' => code = 1 /\ exists boot said, acted w w' (boot ++ said) /\
       ((Forall gpio_event boot /\ said = []) \/
        (booted manual boot /\ Forall talk said /\ stopped (script verify image) (wire said)))).
Proof.
  intros Hi. apply spec_bind.
  assert (Hs : forall w1 boot, acted w w1 boot -> booted manual boot ->
    spec True (if negb (tcflush_ok e) then fail else session e turns (size_of image) verify image) w1
    (fun code w' => code = 0 /\ exists boot said, acted w w' (boot ++ said) /\ booted manual boot /\ Forall talk said /\
       all_done (script verify image) (wire said))
    (fun code w' => code = 1 /\ exists boot said, acted w w' (boot ++ said) /\
       ((Forall gpio_event boot /\ said = []) \/
        (booted manual boot /\ Forall talk said /\ stopped (script verify image) (wire said))))).
  { intros w1 boot H1 Hb. destruct (tcflush_ok e); cbn [negb].
    - xmono (says_session e turns verify image (crc32_range _ Hi)).
      + intros code w2 (-> & tr & [Hst (all & Hl & Ha & <-)] & Hd). split; [done | ]. exists boot, all.
        split; [exact (acted_trans _ _ _ _ _ H1 (conj Hst Hl)) | done].
      + intros code w2 (-> & tr & [Hst (all & Hl & Ha & <-)] & Hd). split; [done | ]. exists boot, all.
        split; [exact (acted_trans _ _ _ _ _ H1 (conj Hst Hl)) | by right].
    - apply spec_exit. split; [done | ]. exists boot, []. rewrite app_nil_r. split; [done | left]. eauto using booted_gpio. }
  destruct manual.
  - apply spec_ret. apply (Hs w []); [apply acted_refl | done].
  - xmono bootloader_spec.
    + intros _ w1 (boot & reset & a & b & H1 & Hab). eapply Hs; [exact H1 | ]. by exists boot, reset, a, b.
    + intros c w1 (-> & es & H1 & He). split; [done | ]. exists es, []. rewrite app_nil_r. split; [done | by left].
Qed.

Lemma main_ends e turns F args :
  spec True (main e turns F args) start
    (fun code w => run_ends e F args code (log (finished w)))
    (fun code w => run_ends e F args code (log (finished w))).
Proof.
  unfold main, run_ends. destruct (parse_args _ _ _ _ _) as [c | port [file|] manual verify];
    [by apply spec_exit | | by apply spec_exit].
  destruct (load_image e F file) as [image|] eqn:Hi; [ | by apply spec_exit].
  apply load_image_size in Hi as [Hsize Hbytes]. unfold open_uart, set_uart, set_saved, set_at_exit, emit.
  destruct (Z.ltb_spec (open_port e port) 0) as [Hneg | Hfd].
  { xstep. apply spec_exit. split; [done | ]. done. }
  xstep. cbn [tick log uart saved at_exit start app].
  assert (Hclosed : 1 = 1 /\ log (finished (World 0 [PortOpened (open_port e port)] (open_port e port) None true)) =
    [PortOpened (open_port e port); PortClosed (open_port e port)]).
  { split; [done | ]. by rewrite (finished_with _ (open_port e port) None [PortOpened (open_port e port)]). }
  destruct (flock_ok e); [ | apply spec_exit; by left]. destruct (tiocexcl_ok e); [ | apply spec_exit; by left]. cbn [negb].
  destruct (tcgetattr_gives e) as [t|] eqn:Ht; [ | apply spec_exit; by left]. xstep. cbn [tick log uart saved at_exit start app].
  destruct (tcsetattr_ok e); cbn [negb].
  2:{ apply spec_exit. right. exists t. split; [done | left; split; [done | ]].
      by rewrite (finished_with _ (open_port e port) (Some t) [PortOpened (open_port e port)]). }
  xstep. cbn [tick log uart saved at_exit start app]. rewrite <- Hsize.
  set (w1 := World _ _ _ _ _).
  assert (Hend : forall w' boot said, acted w1 w' (boot ++ said) -> log (finished w') =
    PortOpened (open_port e port) :: TermiosSet (line_settings t) :: boot ++ said ++ [TermiosSet t; PortClosed (open_port e port)]).
  { intros w' boot said [(Hu & Hs & Ha) Hl]. rewrite (finished_with _ (open_port e port) (Some t) (log w')); try done.
    rewrite Hl. cbn. by rewrite <- app_assoc. }
  xmono (run_session e turns manual verify image w1 Hbytes).
  - intros code w2 (-> & boot & said & H2 & Hb & Hs & Hd). right. exists t. split; [done | right]. exists boot, said.
    split; [by apply Hend | ]. right. auto.
  - intros code w2 (-> & boot & said & H2 & Hc). right. exists t. split; [done | right]. exists boot, said.
    split; [by apply Hend | ]. destruct Hc as [[Hg ->] | (Hb & Hs & Hd)]; [by left | right]. auto.
Qed.

Lemma process_ends e turns F args code w :
  process e turns F args = Some (code, w) -> run_ends e F args code (log w).
Proof.
  pose proof (spec_end _ _ _ _ (main_ends e turns F args)) as H. unfold process. fold start.
  destruct (main e turns F args start); intros [= <- <-]; exact H.
Qed.
