(* ===== verification/FlashTime.v ===== *)
(** FlashTime: every loop of the programmer ends.  The loops of a transaction
    end by its deadline: with at most [K] calls made in a millisecond, [K] times
    the time allowed and a few turns are enough. *)

From S2P Require Import Prelude ByteStr Exits Flash.

Open Scope list_scope.

Definition millis (ts : Z * Z) : Z := ts.1 * 1000 + Z.quot ts.2 1000000.

(** Between two readings of the clock fewer calls are made than [K] in every
    millisecond begun. *)
Definition paced (e : env) (K : Z) : Prop := forall n m a b,
  (n <= m)%nat -> clock e n = Some a -> clock e m = Some b ->
  Z.of_nat m - Z.of_nat n < K * (millis b - millis a + 1).

(** The turns that are enough. *)
Definition enough (K : Z) (turns : nat) : Prop := K * timeout_ms + 4 <= Z.of_nat turns.

Section Time.
Context (e : env) (turns : nat) (K : Z) (HK : 0 <= K) (Hpace : paced e K) (Hturns : enough K turns).

Definition terminates {A} (m : X A) : Prop := forall w, spec False m w (fun _ _ => True) (fun _ _ => True).

Lemma terminates_bind {A B} (m : X A) (k : A -> X B) : terminates m -> (forall x, terminates (k x)) -> terminates (xbind m k).
Proof. intros Hm Hk w. xuse Hm; [ | done]. intros x w' _. apply Hk. Qed.
Lemma terminates_ret {A} (x : A) : terminates (xret x).
Proof. intros w. by apply spec_ret. Qed.
Lemma terminates_exit {A} c : terminates (A := A) (exit c).
Proof. intros w. by apply spec_exit. Qed.
Lemma terminates_modify f : terminates (xmodify f).
Proof. intros w. by apply spec_modify. Qed.
Lemma terminates_ask {A} (f : nat -> A) : terminates (ask f).
Proof. intros w. unfold ask. xstep. done. Qed.

Lemma ask_time {A} (f : nat -> A) w (Q : A -> world -> Prop) (X : Z -> world -> Prop) :
  (forall w', tick w' = S (tick w) -> Q (f (tick w)) w') -> spec False (ask f) w Q X.
Proof. intros H. unfold ask. xstep. by apply H. Qed.

Lemma now_time w :
  spec False (now_ms e) w (fun t w' => tick w' = S (tick w) /\ exists ts, clock e (tick w) = Some ts /\ t = millis ts) (fun _ _ => True).
Proof.
  unfold now_ms. apply spec_bind, ask_time. intros w' Hw. destruct (clock e (tick w)) as [ts|]; [ | by apply spec_exit].
  apply spec_ret. split; [done | ]. by exists ts.
Qed.

(** The deadline [d] was set by the [n0]-th call, and [w] is not far after it. *)
Definition set_by (n0 : nat) (d : Z) : Prop := exists ts, clock e n0 = Some ts /\ d = millis ts + timeout_ms.
Definition near (n0 : nat) (w : world) : Prop := Z.of_nat n0 <= Z.of_nat (tick w) <= Z.of_nat n0 + K * timeout_ms + 3.

Lemma in_time n0 d n ts :
  set_by n0 d -> (n0 <= n)%nat -> clock e n = Some ts -> millis ts < d -> Z.of_nat n - Z.of_nat n0 < K * timeout_ms.
Proof. intros (ts0 & H0 & ->) Hn Hts Hd. pose proof (Hpace n0 n ts0 ts Hn H0 Hts). nia. Qed.

Lemma transfer_time n0 d n p len writing w :
  set_by n0 d -> near n0 w -> K * timeout_ms + 4 <= Z.of_nat n + Z.of_nat (tick w) - Z.of_nat n0 ->
  spec False (transfer e n p len writing d) w
    (fun _ w' => near n0 w' /\ (tick w <= tick w')%nat /\ ((0 < len)%nat -> (tick w < tick w')%nat)) (fun _ _ => True).
Proof.
  intros Hd. revert p len w. induction n as [|n IH]; intros p len w Hw Hn; destruct len as [|len]; cbn [transfer];
    try (apply spec_ret; split; [done | lia]).
  { unfold near in Hw. lia. }
  xuse now_time; [ | done]. intros now w1 (H1 & ts & Hts & ->). cbv zeta.
  destruct (Z.leb_spec (d - millis ts) 0); [by apply spec_exit | ].
  assert (Hin : Z.of_nat (tick w) - Z.of_nat n0 < K * timeout_ms).
  { eapply in_time; [exact Hd | | exact Hts | lia]. unfold near in Hw. lia. }
  assert (Hagain : forall p' len' w', (tick w < tick w' <= tick w + 3)%nat ->
    spec False (transfer e n p' len' writing d) w'
      (fun _ w'' => near n0 w'' /\ (tick w <= tick w'')%nat /\ ((0 < S len)%nat -> (tick w < tick w'')%nat)) (fun _ _ => True)).
  { intros p' len' w' Ht. unfold near in Hw. assert (Hw' : near n0 w') by (unfold near; lia).
    xmono (IH p' len' w' Hw'); [lia | | done]. intros _ w'' (Hw'' & Hle & _). split; [done | lia]. }
  unfold emit. xstep. apply spec_bind, ask_time. cbn [tick log]. intros w2 H2.
  destruct (polled e _ _) as [[] | | []]; try (by apply spec_exit); [apply Hagain; lia | ].
  destruct writing; apply spec_bind, ask_time; intros w3 H3.
  - destruct (written e _ p) as [[] | [|k]]; try (by apply spec_exit); [apply Hagain; lia | ].
    xstep. apply Hagain. cbn [tick]. lia.
  - destruct (given e _ _) as [[] | [|b bs]]; try (by apply spec_exit); [apply Hagain; lia | ].
    xstep. apply spec_bind. xmono Hagain; [cbn [tick]; lia | | done].
    intros more w4 H4. by apply spec_ret.
Qed.

Lemma receive_time n0 d n w :
  set_by n0 d -> near n0 w ->
  spec False (receive e turns n d) w (fun _ w' => near n0 w' /\ ((0 < n)%nat -> (tick w < tick w')%nat)) (fun _ _ => True).
Proof.
  intros Hd Hw. unfold receive. xmono transfer_time; [exact Hd | exact Hw | | | done].
  - unfold enough, near in *. lia.
  - intros _ w' (H & _ & Ht). done.
Qed.
Lemma send_time n0 d p w :
  set_by n0 d -> near n0 w -> spec False (send e turns p d) w (fun _ w' => near n0 w') (fun _ _ => True).
Proof.
  intros Hd Hw. unfold send. xuse transfer_time; [exact Hd | exact Hw | | | done].
  - unfold enough, near in *. lia.
  - intros _ w' (H & _). by apply spec_ret.
Qed.

Lemma nonzero_time n0 d n w :
  set_by n0 d -> near n0 w -> K * timeout_ms + 4 <= Z.of_nat n + Z.of_nat (tick w) - Z.of_nat n0 ->
  spec False (nonzero_loop e turns n d) w (fun _ w' => near n0 w') (fun _ _ => True).
Proof.
  intros Hd. revert w. induction n as [|n IH]; intros w Hw Hn; cbn [nonzero_loop]; [unfold near in Hw; lia | ].
  xuse receive_time; [exact Hd | exact Hw | | done]. intros bs w1 (H1 & Ht). destruct (_ =? 0).
  - apply IH; [done | lia].
  - by apply spec_ret.
Qed.
Lemma nonzero_ok n0 d w : set_by n0 d -> near n0 w -> spec False (nonzero e turns d) w (fun _ w' => near n0 w') (fun _ _ => True).
Proof. intros Hd Hw. apply nonzero_time; [done.. | unfold enough, near in *; lia]. Qed.

(** A transaction starts with the clock. *)
Lemma transaction_time {A} (k : Z -> X A) :
  (forall t n0 w, set_by n0 (t + timeout_ms) -> near n0 w -> spec False (k t) w (fun _ _ => True) (fun _ _ => True)) ->
  terminates (xbind (now_ms e) k).
Proof.
  intros Hk w. xuse now_time; [ | done]. intros t w1 (H1 & ts & Hts & ->). apply (Hk _ (tick w)).
  - by exists ts.
  - unfold near, timeout_ms. lia.
Qed.

Lemma acked_time n0 d p w :
  set_by n0 d -> near n0 w ->
  spec False (xbind (send e turns p d) (fun _ => expect_ack e turns d)) w (fun _ _ => True) (fun _ _ => True).
Proof.
  intros Hd Hw. xuse send_time; [exact Hd | exact Hw | | done]. intros _ w1 H1. unfold expect_ack.
  xuse nonzero_ok; [exact Hd | exact H1 | | done]. intros b w2 _. destruct (negb _); [by apply spec_exit | by apply spec_ret].
Qed.

Lemma command_terminates cmd data : terminates (command e turns cmd data).
Proof.
  unfold command. destruct (_ <? _); [apply terminates_exit | ]. apply transaction_time. intros t n0 w Hd Hw. by eapply acked_time.
Qed.

Lemma response_terminates n : terminates (response e turns n).
Proof.
  unfold response. apply transaction_time. intros t n0 w Hd Hw. cbv zeta.
  xuse nonzero_ok; [exact Hd | exact Hw | | done]. intros len w1 H1. destruct (negb _); [by apply spec_exit | ].
  xuse receive_time; [exact Hd | exact H1 | | done]. intros sum w2 (H2 & _).
  xuse receive_time; [exact Hd | exact H2 | | done]. intros data w3 (H3 & _).
  xuse send_time; [exact Hd | exact H3 | | done]. intros _ w4 _. destruct (_ =? NACK); [by apply spec_exit | by apply spec_ret].
Qed.

Ltac ends_steps :=
  repeat first
    [ assumption | apply terminates_ret | apply terminates_exit | apply terminates_modify | apply terminates_ask
    | apply command_terminates | apply response_terminates
    | match goal with |- terminates (xbind _ _) => apply terminates_bind; [ | intros ?] end
    | match goal with |- terminates (if ?b then _ else _) => destruct b | |- terminates (match ?x with _ => _ end) => destruct x end ].

Lemma status_terminates : terminates (status e turns).
Proof. unfold status. ends_steps. Qed.

Lemma send_image_terminates F n image off : terminates (send_image e turns F n image off).
Proof.
  revert off. induction n as [|n IH]; intros off; cbn [send_image]; [apply terminates_ret | ]. cbv zeta.
  pose proof status_terminates. pose proof (IH (off + 252)). ends_steps.
Qed.

Lemma session_terminates F verify image : terminates (session e turns F verify image).
Proof.
  unfold session. apply transaction_time. intros t n0 w Hd Hw. cbv zeta. apply spec_assoc.
  xuse (acked_time n0); [exact Hd | exact Hw | | done]. intros _ w1 _. revert w1.
  match goal with |- forall w1, spec False ?m w1 _ _ => change (terminates m) end.
  pose proof status_terminates. pose proof (fun n => send_image_terminates F n image). unfold write_flash.
  ends_steps. auto.
Qed.

Lemma search_lines_terminates name fd j n : terminates (search_lines e name fd j n).
Proof. revert j. induction n as [|n IH]; intros j; cbn [search_lines]; unfold emit; ends_steps. apply IH. Qed.
Lemma search_chips_terminates name paths : terminates (search_chips e name paths).
Proof.
  induction paths as [|path paths IH]; cbn [search_chips]; unfold emit; ends_steps. apply search_lines_terminates.
Qed.
Lemma bootloader_terminates : terminates (bootloader e).
Proof.
  unfold bootloader, request_gpio, gpio_set, emit. pose proof search_chips_terminates. ends_steps; auto.
Qed.

Lemma main_terminates F args : terminates (main e turns F args).
Proof.
  unfold main, open_uart, set_uart, set_saved, set_at_exit, emit. pose proof bootloader_terminates.
  pose proof (session_terminates F). cbv zeta. ends_steps; auto.
Qed.
End Time.
