(* ===== verification/FlashSpec.v ===== *)
(** FlashSpec: the properties of the programmer: it keeps the protocol of the
    boot loader, ends, and what it sends is the image. *)

From Stdlib Require Import String.
From S2P Require Import Prelude ByteStr Exits Crc Flash FlashWire FlashRun FlashTime.

Open Scope list_scope.

(* ------------------------------------------------------------------ *)
(** ** Reading a session *)

(** Commands the target answers with a reply, which is acknowledged. *)
Definition replies (cmd : Z) : bool := (cmd =? 0x23) || (cmd =? 0x27).

(** Packets one after the other, each checked. *)
Fixpoint read_packets (n : nat) (bs : list Z) : option (list (Z * list Z)) :=
  match bs with
  | [] => Some []
  | len :: sum :: cmd :: rest =>
      match n with
      | O => None
      | S n' =>
          let k := Z.to_nat (len - 3) in
          let data := take k rest in
          if (len <? 3) || negb (Nat.eqb (length data) k) || negb (sum =? fold_left (fun s b => u8 (s + b)) data cmd) then None else
          if replies cmd then
            match drop k rest with
            | a :: rest' => if a =? ACK then cons (cmd, data) <$> read_packets n' rest' else None
            | [] => None
            end
          else cons (cmd, data) <$> read_packets n' (drop k rest)
      end
  | _ => None
  end.
(** Two bytes from which the target takes the speed, then packets. *)
Definition read_session (bs : list Z) : option (list (Z * list Z)) :=
  match bs with
  | a :: b :: rest => if (a =? 0x55) && (b =? 0x55) then read_packets (length rest) rest else None
  | _ => None
  end.

(** The commands a session consists of. *)
Definition commands (verify : bool) (image : list Z) : list (Z * list Z) :=
  [(0x23, [])] ++
  (if verify then [] else
   [(0x2c, []); (0x23, []); (0x21, be32 0 ++ be32 (size_of image)); (0x23, [])] ++
   concat (map (fun c => [(0x24, c); (0x23, [])]) (pieces (length image) image))) ++
  [(0x27, be32 0 ++ be32 (size_of image) ++ [0; 0; 0; 0]); (0x25, [])].
(** The data they carry to the flash. *)
Definition data_sent (cmds : list (Z * list Z)) : list Z :=
  concat (map snd (List.filter (fun c => c.1 =? 0x24) cmds)).

(** The bytes sent. *)
Definition sent (l : list event) : list Z := omap (fun ev => match ev with Out b => Some b | _ => None end) l.

Definition packets_of (cmd : Z * list Z) : list Z := packet cmd.1 cmd.2 ++ if replies cmd.1 then [ACK] else [].

Lemma read_packets_of n cmds :
  (length cmds <= n)%nat -> Forall (fun c => Z.of_nat (length c.2) <= 252) cmds ->
  read_packets n (concat (map packets_of cmds)) = Some cmds.
Proof.
  revert n. induction cmds as [|[cmd data] cmds IH]; intros n Hn Hl; [by destruct n | ].
  inversion Hl as [|? ? Hd Hl']; subst. cbn [snd] in Hd. destruct n as [|n]; [cbn in Hn; lia | ].
  cbn [map concat]. set (rest := concat (map packets_of cmds)). unfold packets_of, packet. cbn [fst snd].
  rewrite <- !app_assoc. cbn [app read_packets]. rewrite u8_id by (unfold is_u8; lia).
  replace (Z.to_nat (Z.of_nat (length data) + 3 - 3)) with (length data) by lia.
  rewrite take_app_length, drop_app_length, Nat.eqb_refl, Z.eqb_refl. destruct (Z.ltb_spec (Z.of_nat (length data) + 3) 3); [lia | ].
  cbn [orb negb]. assert (Hr : read_packets n rest = Some cmds) by (apply IH; [cbn in Hn; lia | done]).
  destruct (replies cmd); cbn [app]; [change (ACK =? ACK) with true; cbv iota | ]; by rewrite Hr.
Qed.

Lemma length_packets_of cmds : (length cmds <= length (concat (map packets_of cmds)))%nat.
Proof.
  induction cmds as [|c cmds IH]; [done | ]. cbn [map concat]. rewrite length_app.
  assert (1 <= length (packets_of c))%nat by (unfold packets_of, packet; cbn [app length]; lia). cbn [length]. lia.
Qed.

Lemma sent_bytes_app a b : sent (a ++ b) = sent a ++ sent b.
Proof. apply omap_app. Qed.
Lemma sent_Out bs : sent (map Out bs) = bs.
Proof. induction bs as [|b bs IH]; [done | ]. cbn. f_equal. apply IH. Qed.
Lemma sent_In bs : sent (map In bs) = [].
Proof. induction bs as [|b bs IH]; [done | ]. cbn. apply IH. Qed.
Lemma sent_wire l : sent (wire l) = sent l.
Proof. induction l as [|[] l IH]; [done | exact (f_equal (cons b) IH) | exact IH..]. Qed.
Lemma sent_gpio l : Forall gpio_event l -> sent l = [].
Proof. induction 1 as [|[] l Hev _ IH]; try done; exact IH. Qed.

Definition step_bytes (s : step) : list Z := match s with Send bs => bs | Reply _ => [ACK] end.
Lemma sent_done steps tr : all_done steps tr -> sent tr = concat (map step_bytes steps).
Proof.
  intros (trs & H & ->). induction H as [|s tr steps trs Hs _ IH]; [done | ]. cbn [concat map]. rewrite sent_bytes_app, IH. f_equal.
  destruct s; destruct Hs as (z & ->); by rewrite sent_bytes_app, sent_In, ?sent_Out, ?app_nil_r.
Qed.

Lemma step_bytes_app a b : concat (map step_bytes (a ++ b)) = concat (map step_bytes a) ++ concat (map step_bytes b).
Proof. by rewrite map_app, concat_app. Qed.

Lemma script_bytes verify image :
  concat (map step_bytes (script verify image)) = [0x55; 0x55] ++ concat (map packets_of (commands verify image)).
Proof.
  assert (Hdata : forall chunks, concat (map step_bytes (data_steps chunks)) =
    concat (map packets_of (concat (map (fun c => [(0x24, c); (0x23, [])]) chunks)))).
  { induction chunks as [|c chunks IH]; [done | ]. unfold data_steps in *. cbn [map concat].
    rewrite step_bytes_app, IH, map_app, concat_app. f_equal. unfold status_steps, packets_of. cbn [map concat step_bytes fst snd].
    change (replies 0x24) with false. change (replies 0x23) with true. cbv iota. by rewrite !app_nil_r. }
  unfold script, commands. rewrite !step_bytes_app, !map_app, !concat_app. cbn [step_bytes map concat status_steps].
  apply (f_equal2 app); [done | ]. apply (f_equal2 app); [done | ]. apply (f_equal2 app).
  - destruct verify; [done | ]. unfold write_steps. rewrite !step_bytes_app, !map_app, !concat_app, Hdata. unfold status_steps.
    cbn [step_bytes map concat]. unfold packets_of. cbn [fst snd].
    change (replies 0x2c) with false. change (replies 0x23) with true. change (replies 0x21) with false. cbv iota.
    by rewrite !app_nil_r, <- !app_assoc.
  - unfold packets_of. cbn [fst snd step_bytes map concat]. change (replies 0x27) with true. change (replies 0x25) with false.
    cbv iota. by rewrite !app_nil_r, <- !app_assoc.
Qed.

Lemma commands_fit verify image : Forall (fun c => Z.of_nat (length c.2) <= 252) (commands verify image).
Proof.
  unfold commands. rewrite !Forall_app. split; [by repeat constructor | split; [ | by repeat constructor]].
  destruct verify; [constructor | ]. apply Forall_app. split; [by repeat constructor | ].
  pose proof (pieces_short (length image) image) as Hp. induction Hp as [|c chunks Hc _ IH]; [constructor | ].
  cbn [map concat]. repeat constructor; cbn [snd length]; try lia; exact IH.
Qed.

Lemma data_sent_app a b : data_sent (a ++ b) = data_sent a ++ data_sent b.
Proof. unfold data_sent. by rewrite List.filter_app, map_app, concat_app. Qed.

Lemma data_commands verify image : data_sent (commands verify image) = if verify then [] else image.
Proof.
  unfold commands. rewrite !data_sent_app. change (data_sent [(0x23, [])]) with (@nil Z).
  change (data_sent [(0x27, _); _]) with (@nil Z). rewrite app_nil_r. destruct verify; [done | ].
  rewrite data_sent_app. change (data_sent [_; _; _; _]) with (@nil Z). cbn [app].
  rewrite <- (concat_pieces (length image) image) at 3 by done.
  induction (pieces (length image) image) as [|c chunks IH]; [done | ].
  cbn [map concat]. rewrite data_sent_app, IH. f_equal. apply app_nil_r.
Qed.

(* ------------------------------------------------------------------ *)
(** ** An example *)

(** A target with four bytes of flash and a program of three: one call takes a
    millisecond, everything is acknowledged. *)
Definition demo_answers : list (nat * list Z) :=
  [(17%nat, [3]); (20%nat, [0x40]); (23%nat, [0x40]); (44%nat, [3]); (47%nat, [0x40]); (50%nat, [0x40]);
   (71%nat, [3]); (74%nat, [0x40]); (77%nat, [0x40]); (98%nat, [3]); (101%nat, [0x40]); (104%nat, [0x40]);
   (118%nat, [6]); (121%nat, [24]); (124%nat, [0x9c; 0x53; 0xd0; 0x59])].
Definition demo_termios : termios := Termios 0x500 5 0xcbf 0x8a3b 1 0.
Definition demo : env :=
  Env true (fun _ => Some ([1; 2; 3], false)) (fun _ => 3) true true (Some demo_termios) true true
    (fun n => Some (0, 1000000 * Z.of_nat n)) (fun _ _ => PollReady true) (fun _ p => IoGives (length p))
    (fun n _ => IoGives (match List.find (fun a => Nat.eqb a.1 n) demo_answers with Some a => a.2 | None => [ACK] end))
    (Some []) (fun _ _ => None) (fun _ _ => None) (fun _ _ _ => None) (fun _ _ _ => None) (fun _ _ => true).
Definition demo_args : list text := [lit "--manual"; lit "app.bin"].
Definition demo_end : world := default start (snd <$> process demo 20 4 demo_args).

Lemma demo_runs : process demo 20 4 demo_args = Some (0, demo_end).
Proof. vm_compute. reflexivity. Qed.

Lemma demo_paced : paced demo 1.
Proof.
  intros n m a b Hn [= <-] [= <-]. unfold millis. cbn [fst snd]. rewrite !(Z.mul_comm 1000000), !Z.quot_mul by lia. lia.
Qed.

(** The codes of a run. *)
Lemma parse_args_quits args port file manual verify code :
  parse_args args port file manual verify = Quit code -> code = 0 \/ code = 1.
Proof.
  remember (length args) as n eqn:Hn. revert args port file manual verify Hn.
  induction n as [n IH] using lt_wf_ind. intros [|a args] port file manual verify Hn; [done | ]. cbn [parse_args]. cbv zeta.
  cbn [length] in Hn. destruct (_ || _); [intros [= <-]; by left | ].
  assert (Hother : (if (ix a 0 =? 45) || negb (bool_decide (file = None)) then Quit 1
                    else parse_args args port (Some a) manual verify) = Quit code -> code = 0 \/ code = 1).
  { destruct (_ || _); [intros [= <-]; by right | apply (IH (length args)); lia]. }
  destruct (bool_decide (a = lit "--manual")); [apply (IH (length args)); lia | ].
  destruct (bool_decide (a = lit "--verify-only")); [apply (IH (length args)); lia | ].
  destruct (bool_decide (a = lit "-p")); [ | exact Hother].
  destruct args as [|p args]; [exact Hother | ]. apply (IH (length args)); [cbn in Hn; lia | done].
Qed.

Lemma run_ends_code e F args code l : run_ends e F args code l -> code = 0 \/ code = 1.
Proof.
  unfold run_ends. destruct (parse_args _ _ _ _ _) as [c | port [file|] manual verify] eqn:Ha.
  - intros [-> _]. by eapply parse_args_quits.
  - destruct (load_image e F file); [ | intros [-> _]; by right]. destruct (_ <? 0); [intros [-> _]; by right | ].
    intros [[-> _] | (t & _ & [[-> _] | (boot & said & _ & [[-> _] | (_ & _ & [[-> _] | [-> _]])])])]; auto.
  - intros [-> _]; by right.
Qed.

(* ------------------------------------------------------------------ *)
(** ** The properties *)

(** C19: A run of the programmer ends as the protocol of the boot loader allows:
    without touching the port when its arguments or the image are wrong; else
    the lines that enter the boot loader are set in their order, then the
    dialogue is said in full and the code is 0, or it stops in one of its steps,
    all before it done, and the code is 1.  So the target is told to start only
    after it has given the checksum of the image.  Whatever happens the settings
    of the port are put back and it is closed. *)
Theorem programmer_keeps_protocol e turns FLASH_SIZE args code w :
  process e turns FLASH_SIZE args = Some (code, w) -> run_ends e FLASH_SIZE args code (log w).
Proof. apply process_ends. Qed.

Lemma programmer_keeps_protocol_witness : run_ends demo 4 demo_args 0 (log demo_end).
Proof. apply (programmer_keeps_protocol demo 20). exact demo_runs. Defined.

(** C20: The bytes a session that succeeds sends can be read back by a target, packet
    by packet with their sums, and are exactly the commands of the session; the
    data sent to the flash are the image, whole and in order. *)
Theorem what_is_sent_is_the_image e turns FLASH_SIZE args w port file manual verify image :
  process e turns FLASH_SIZE args = Some (0, w) ->
  parse_args args DEFAULT_PORT None false false = Options port (Some file) manual verify ->
  load_image e FLASH_SIZE file = Some image ->
  read_session (sent (log w)) = Some (commands verify image) /\
  data_sent (commands verify image) = if verify then [] else image.
Proof.
  intros Hrun Hargs Hload. split; [ | apply data_commands]. apply process_ends in Hrun.
  unfold run_ends in Hrun. rewrite Hargs, Hload in Hrun. destruct (_ <? 0); [by destruct Hrun | ].
  destruct Hrun as [[[=] _] | (t & _ & [[[=] _] | (boot & said & -> & [([=] & _) | (Hb & _ & [[_ Hd] | [[=] _]])])])].
  cbn [sent omap list_omap]. fold (sent (boot ++ said ++ [TermiosSet t; PortClosed (open_port e port)])).
  rewrite !sent_bytes_app, (sent_gpio boot) by (by eapply booted_gpio). rewrite <- sent_wire, (sent_done _ _ Hd), script_bytes.
  cbn [sent omap list_omap app]. rewrite app_nil_r. unfold read_session. cbn [Z.eqb andb].
  apply read_packets_of; [apply length_packets_of | apply commands_fit].
Qed.

Lemma what_is_sent_is_the_image_witness :
  read_session (sent (log demo_end)) = Some (commands false [1; 2; 3; 255]) /\
  data_sent (commands false [1; 2; 3; 255]) = [1; 2; 3; 255].
Proof.
  apply (what_is_sent_is_the_image demo 20 4 demo_args demo_end DEFAULT_PORT (lit "app.bin") true false);
    [exact demo_runs | reflexivity | reflexivity].
Defined.

(** C21: The programmer always ends, with 0 or 1, whatever the target and the system
    answer: if the clock advances, at most [K] calls being made in a millisecond,
    [K] times the time allowed for a transaction and four turns are enough for
    each of its loops. *)
Theorem programmer_ends e turns K FLASH_SIZE args :
  0 <= K -> paced e K -> enough K turns ->
  exists code w, process e turns FLASH_SIZE args = Some (code, w) /\ (code = 0 \/ code = 1).
Proof.
  intros HK Hp Ht. pose proof (spec_end _ _ _ _ (main_terminates e turns K HK Hp Ht FLASH_SIZE args start)) as Hend.
  destruct (process e turns FLASH_SIZE args) as [[code w]|] eqn:Hrun.
  - exists code, w. split; [done | ]. eapply run_ends_code, process_ends, Hrun.
  - unfold process in Hrun. fold start in Hrun. by destruct (main e turns FLASH_SIZE args start).
Qed.

Lemma programmer_ends_witness :
  exists code w, process demo (Z.to_nat 10004) 4 demo_args = Some (code, w) /\ (code = 0 \/ code = 1).
Proof.
  apply (programmer_ends demo (Z.to_nat 10004) 1); [lia | exact demo_paced | unfold enough, timeout_ms; lia].
Defined.

(** The programmer's checksum, which masks the polynomial instead of branching,
    is the one of the library. *)
Lemma programmer_crc_is_aloe p : crc32 p = aloe_crc32 p 0.
Proof. apply crc32_same. Qed.
