(* ===== verification/Hid.v ===== *)
(** Hid: the access to raw HID devices of package/aloe/sys_linux/usbhid_mini.c:
    finding and opening a device, its queries, and the listing of a report
    descriptor.  A line printed is a value of [line], the conversions of its
    format and the bytes of its text left to the function that prints it. *)

From Stdlib Require Import String.
From S2P Require Import Prelude Eff ByteStr.

Open Scope list_scope.
Open Scope eff_scope.

(* ------------------------------------------------------------------ *)
(** ** Items *)

(** [p[0 .. size - 1]], little endian; [None]: past the end. *)
Fixpoint udata_loop (n : nat) (p : list Z) (i v : Z) : option Z :=
  match n with
  | O => Some v
  | S n' => b ← rd p i; udata_loop n' p (i + 1) (Z.lor v (u32 (Z.shiftl b (8 * i))))
  end.
Definition hid_item_udata (p : list Z) (size : Z) : option Z := udata_loop (Z.to_nat size) p 0 0.

Definition s32 (z : Z) : Z := (z + 2147483648) mod 4294967296 - 2147483648.
Definition hid_item_sdata (p : list Z) (size : Z) : option Z :=
  v ← hid_item_udata p size;
  Some (if size =? 1 then s8 v else if size =? 2 then s16 v else s32 v).

(** The variables of the listing. *)
Record globals : Type := Globals {
  usage_page : Z; logical_min : Z; logical_max : Z; report_size : Z; report_id : Z; report_count : Z; indent : Z }.
Definition no_globals : globals := Globals 0 0 0 0 0 0 0.

(** The lines; [pad]: the line starts with two blanks; [wide]: the remark on
    sizes above 32. *)
Inductive line : Type :=
  | Header
  | Truncated (offset : Z)
  | LongItem
  | Input (pad : bool) (data size count total bytes : Z) (wide : bool)
  | Output (pad : bool) (data size count total bytes : Z) (wide : bool)
  | Collection (pad : bool) (data : Z)
  | Feature (pad : bool) (data size count : Z)
  | EndCollection (pad : bool)
  | MainItem (pad : bool) (tag data : Z)
  | UsagePage (pad : bool) (v : Z)
  | LogicalMinimum (pad : bool) (v : Z)
  | LogicalMaximum (pad : bool) (v : Z)
  | ReportSize (pad : bool) (v : Z) (wide : bool)
  | ReportId (pad : bool) (v : Z)
  | ReportCount (pad : bool) (v : Z)
  | GlobalItem (pad : bool) (tag data : Z)
  | Usage (pad : bool) (v : Z)
  | LocalItem (pad : bool) (tag data : Z)
  | ReservedItem (pad : bool) (prefix : Z).

Definition main_item (g : globals) (tag udata : Z) : globals * line :=
  let pad := 0 <? indent g in
  let total := u32 (report_size g * report_count g) in
  let bytes := u32 (total + 7) / 8 in
  let wide := 32 <? report_size g in
  if tag =? 8 then (g, Input pad udata (report_size g) (report_count g) total bytes wide)
  else if tag =? 9 then (g, Output pad udata (report_size g) (report_count g) total bytes wide)
  else if tag =? 10 then
    (Globals (usage_page g) (logical_min g) (logical_max g) (report_size g) (report_id g) (report_count g) (indent g + 1),
     Collection pad udata)
  else if tag =? 11 then (g, Feature pad udata (report_size g) (report_count g))
  else if tag =? 12 then
    let indent' := if 0 <? indent g then indent g - 1 else indent g in
    (Globals (usage_page g) (logical_min g) (logical_max g) (report_size g) (report_id g) (report_count g) indent',
     EndCollection (0 <? indent'))
  else (g, MainItem pad tag udata).

Definition global_item (g : globals) (tag udata sdata : Z) : globals * line :=
  let pad := 0 <? indent g in
  if tag =? 0 then
    (Globals udata (logical_min g) (logical_max g) (report_size g) (report_id g) (report_count g) (indent g), UsagePage pad udata)
  else if tag =? 1 then
    (Globals (usage_page g) sdata (logical_max g) (report_size g) (report_id g) (report_count g) (indent g), LogicalMinimum pad sdata)
  else if tag =? 2 then
    (Globals (usage_page g) (logical_min g) sdata (report_size g) (report_id g) (report_count g) (indent g), LogicalMaximum pad sdata)
  else if tag =? 7 then
    (Globals (usage_page g) (logical_min g) (logical_max g) udata (report_id g) (report_count g) (indent g),
     ReportSize pad udata (32 <? udata))
  else if tag =? 8 then
    (Globals (usage_page g) (logical_min g) (logical_max g) (report_size g) udata (report_count g) (indent g), ReportId pad udata)
  else if tag =? 9 then
    (Globals (usage_page g) (logical_min g) (logical_max g) (report_size g) (report_id g) udata (indent g), ReportCount pad udata)
  else (g, GlobalItem pad tag udata).

Definition item_line (g : globals) (prefix udata sdata : Z) : globals * line :=
  let type := Z.land (Z.shiftr prefix 2) 3 in
  let tag := Z.land (Z.shiftr prefix 4) 15 in
  let pad := 0 <? indent g in
  if prefix =? 0xfe then (g, LongItem)
  else if type =? 0 then main_item g tag udata
  else if type =? 1 then global_item g tag udata sdata
  else if type =? 2 then (g, if tag =? 0 then Usage pad udata else LocalItem pad tag udata)
  else (g, ReservedItem pad prefix).

(** The loop, which ends within [fuel], the length; [None]: a read past the
    descriptor. *)
Fixpoint parse_loop (fuel : nat) (desc : list Z) (len i : Z) (g : globals) : option (list line) :=
  match fuel with
  | O => Some []
  | S fuel' =>
      if len <=? i then Some [] else
      prefix ← rd desc i;
      let i := i + 1 in
      let size := Z.land prefix 3 in
      let size := if size =? 3 then 4 else size in
      if len <? i + size then Some [Truncated (i - 1)] else
      let data := drop (Z.to_nat i) desc in
      udata ← hid_item_udata data size;
      sdata ← hid_item_sdata data size;
      let '(g, l) := item_line g prefix udata sdata in
      ls ← parse_loop fuel' desc len (i + size) g;
      Some (l :: ls)
  end.

(** What [outf] is called with; nothing when it is NULL. *)
Definition mini_hid_parse_report_descriptor (desc : list Z) (len : Z) (outf : bool) : option (list line) :=
  ls ← parse_loop (S (Z.to_nat len)) desc len 0 no_globals;
  Some (if outf then Header :: ls else []).

(* ------------------------------------------------------------------ *)
(** ** Devices *)

Record devinfo : Type := Devinfo { bustype : Z; vendor : Z; product : Z }.

(** The answers of the system.  [raw_info] and the other queries are of a
    descriptor; a query gives the result of ioctl and what it stored. *)
Record system : Type := System {
  opendir : text -> option (list text);
  open_rdwr : text -> bool -> Z;
  raw_info : Z -> option devinfo;
  getfl : Z -> Z;
  polled : Z -> Z -> Z;
  read_fd : Z -> Z -> Z * list Z;
  write_fd : Z -> list Z -> Z;
  desc_size : Z -> option Z;
  raw_desc : Z -> Z -> option (Z * list Z);
  query : Z -> Z -> Z * list Z }.

(** Descriptors and directories open, and the mode of the device given back. *)
Record devs : Type := Devs { fds : list Z; dirs : nat; nonblock : Z -> bool }.
Definition H (A : Type) : Type := comp devs A.

Definition open_fd (sys : system) (path : text) (nb : bool) : H Z :=
  let fd := open_rdwr sys path nb in
  if fd <? 0 then ret fd else
  modify (fun w => Devs (fd :: fds w) (dirs w) (fun f => if f =? fd then nb else nonblock w f));;
  ret fd.
(** Closing what is not open is undefined. *)
Definition close_fd (fd : Z) : H unit :=
  do l <- gets fds;
  if bool_decide (fd ∈ l) then modify (fun w => Devs (filter (fun x => x <> fd) (fds w)) (dirs w) (nonblock w)) else ub.
Definition closedir : H unit :=
  do n <- gets dirs;
  match n with O => ub | S n' => modify (fun w => Devs (fds w) n' (nonblock w)) end.

Definition PATH_SIZE : Z := 256.
Definition HIDRAW : text := lit "hidraw".
(** [strncmp(name, "hidraw", 6) == 0]. *)
Definition is_hidraw (name : text) : bool := bool_decide (take 6 name = HIDRAW).
(** [snprintf] into [size] bytes, the NUL left out. *)
Definition cut (size : Z) (s : text) : text := take (Z.to_nat (size - 1)) s.

(** The descriptor, or -1, and what [found_path] holds. *)
Fixpoint scan (sys : system) (devdir : text) (vid pid : Z) (found : option Z) (ents : list text) : H (Z * option text) :=
  match ents with
  | [] => closedir;; ret (-1, None)
  | ent :: ents' =>
      if negb (is_hidraw ent) then scan sys devdir vid pid found ents' else
      let path := devdir ++ [47] ++ ent in
      if PATH_SIZE <=? Z.of_nat (length path) then scan sys devdir vid pid found ents' else
      do fd <- open_fd sys path true;
      if fd <? 0 then scan sys devdir vid pid found ents' else
      match raw_info sys fd with
      | None => close_fd fd;; scan sys devdir vid pid found ents'
      | Some info =>
          if (vendor info =? vid) && (product info =? pid) then
            closedir;;
            (if 0 <=? getfl sys fd
             then modify (fun w => Devs (fds w) (dirs w) (fun f => if f =? fd then false else nonblock w f)) else ret tt);;
            ret (fd, match found with Some size => if 0 <? size then Some (cut size path) else None | None => None end)
          else close_fd fd;; scan sys devdir vid pid found ents'
      end
  end.

Definition DEV : text := lit "/dev".
(** [found]: the size of [found_path], unless it is NULL. *)
Definition mini_hid_open_hidraw (sys : system) (devdir : option text) (vid pid : Z) (found : option Z) : H (Z * option text) :=
  let devdir := match devdir with Some d => d | None => DEV end in
  match opendir sys devdir with
  | None => ret (-1, None)
  | Some ents => modify (fun w => Devs (fds w) (S (dirs w)) (nonblock w));; scan sys devdir vid pid found ents
  end.

Definition mini_hid_open (sys : system) (path : option text) : H Z :=
  match path with
  | None => ret (-1)
  | Some p => do fd <- open_fd sys p false; if fd <? 0 then ret (-1) else ret fd
  end.
Definition mini_hid_close (fd : Z) : H unit := if fd <? 0 then ret tt else close_fd fd.

Definition mini_hid_write (sys : system) (fd : Z) (buf : list Z) : Z := if fd <? 0 then -1 else write_fd sys fd buf.
Definition mini_hid_read (sys : system) (fd len timeout_ms : Z) : Z * list Z :=
  if fd <? 0 then (-1, []) else
  let r := polled sys fd timeout_ms in
  if r <=? 0 then (r, []) else read_fd sys fd len.

Definition mini_hid_get_info (sys : system) (fd : Z) (info : bool) : Z * option devinfo :=
  if negb info then (-1, None) else
  match raw_info sys fd with None => (-1, None) | Some i => (0, Some i) end.

(** A query into a buffer, which is cleared before; NULL or empty: -1. *)
Definition query_text (sys : system) (fd : Z) (buf : option (list Z)) : Z * option (list Z) :=
  match buf with
  | None | Some [] => (-1, buf)
  | Some b =>
      let r := query sys fd (Z.of_nat (length b)) in
      (r.1, Some (take (length b) r.2 ++ replicate (length b - length (take (length b) r.2)) 0))
  end.

Definition HID_MAX_DESCRIPTOR_SIZE : Z := 4096.
(** The result and what is stored; [None]: more is copied than the kernel's
    structure or the buffer holds. *)
Definition mini_hid_get_report_descriptor (sys : system) (fd : Z) (buf : bool) (bufsize : Z) : option (Z * list Z) :=
  if negb buf then Some (-1, []) else
  match desc_size sys fd with
  | None => Some (-1, [])
  | Some n =>
      let size := if bufsize <? u64 n then s32 bufsize else n in
      match raw_desc sys fd (u32 size) with
      | None => Some (-1, [])
      | Some (size', value) =>
          if (size' <=? HID_MAX_DESCRIPTOR_SIZE) && (size' <=? bufsize) then
            Some (s32 size', take (Z.to_nat size') (value ++ replicate (Z.to_nat HID_MAX_DESCRIPTOR_SIZE) 0))
          else None
      end
  end.
