(* ===== verification/HidSpec.v ===== *)
(** HidSpec: the properties of the HID access: any bytes are listed as the items
    they consist of, and a search for a device leaves open what it gives. *)

From Stdlib Require Import String.
From S2P Require Import Prelude Eff ByteStr Hid.

Open Scope list_scope.

(* ------------------------------------------------------------------ *)
(** ** Descriptors as items *)

(** A short item: the prefix says how many bytes of data it has. *)
Record item : Type := Item { prefix : Z; idata : list Z }.
Definition data_size (p : Z) : Z := if Z.land p 3 =? 3 then 4 else Z.land p 3.
Definition wf_item (it : item) : Prop :=
  is_u8 (prefix it) /\ Z.of_nat (length (idata it)) = data_size (prefix it) /\ Forall is_u8 (idata it).
Definition encode (it : item) : list Z := prefix it :: idata it.
(** What may follow the last item: the start of one. *)
Definition incomplete (rest : list Z) : Prop :=
  match rest with [] => True | p :: r => Z.of_nat (length r) < data_size p end.

Fixpoint le_value (bs : list Z) : Z := match bs with [] => 0 | b :: bs' => b + 256 * le_value bs' end.
Definition uval (it : item) : Z := le_value (idata it).
(** Two's complement at the width of the item. *)
Definition sval (it : item) : Z :=
  let w := 8 * Z.of_nat (length (idata it)) in
  if 2 * uval it <? 2 ^ w then uval it else uval it - 2 ^ w.

(** The last value of a global item, and how deep collections are nested; more
    ends than starts count as none. *)
Definition item_type (it : item) : Z := Z.land (Z.shiftr (prefix it) 2) 3.
Definition item_tag (it : item) : Z := Z.land (Z.shiftr (prefix it) 4) 15.
Definition of_kind (type tag : Z) (it : item) : bool := (item_type it =? type) && (item_tag it =? tag).
Definition last_of (tag : Z) (value : item -> Z) (before : list item) : Z :=
  fold_left (fun v it => if of_kind 1 tag it then value it else v) before 0.
Definition depth (before : list item) : Z :=
  fold_left (fun d it => if of_kind 0 10 it then d + 1 else if of_kind 0 12 it then Z.max 0 (d - 1) else d) before 0.
Definition known (before : list item) : globals :=
  Globals (last_of 0 uval before) (last_of 1 sval before) (last_of 2 sval before) (last_of 7 uval before)
    (last_of 8 uval before) (last_of 9 uval before) (depth before).

(** The line of an item after those before it, by type (0 main, 1 global, 2 local)
    and tag of the HID class definition: report size and count are the last
    given, their product and the bytes it takes are [unsigned]; an indented line
    is one within a collection, the end of a collection one within another. *)
Definition line_of (before : list item) (it : item) : line :=
  let within := bool_decide (0 < depth before) in
  let v := uval it in
  let size := last_of 7 uval before in
  let count := last_of 9 uval before in
  let bits := (size * count) mod 2 ^ 32 in
  let bytes := (bits + 7) mod 2 ^ 32 / 8 in
  if bool_decide (prefix it = 0xfe) then LongItem else
  match item_type it, item_tag it with
  | 0, 8 => Input within v size count bits bytes (bool_decide (32 < size))
  | 0, 9 => Output within v size count bits bytes (bool_decide (32 < size))
  | 0, 10 => Collection within v
  | 0, 11 => Feature within v size count
  | 0, 12 => EndCollection (bool_decide (1 < depth before))
  | 0, tag => MainItem within tag v
  | 1, 0 => UsagePage within v
  | 1, 1 => LogicalMinimum within (sval it)
  | 1, 2 => LogicalMaximum within (sval it)
  | 1, 7 => ReportSize within v (bool_decide (32 < v))
  | 1, 8 => ReportId within v
  | 1, 9 => ReportCount within v
  | 1, tag => GlobalItem within tag v
  | 2, 0 => Usage within v
  | 2, tag => LocalItem within tag v
  | _, _ => ReservedItem within (prefix it)
  end.
Fixpoint lines_of (before items : list item) : list line :=
  match items with [] => [] | it :: items' => line_of before it :: lines_of (before ++ [it]) items' end.
Definition end_lines (len : Z) (rest : list Z) : list line :=
  match rest with [] => [] | _ => [Truncated (len - Z.of_nat (length rest))] end.

Lemma depth_nonneg before : 0 <= depth before.
Proof.
  unfold depth. assert (H : forall d, 0 <= d -> 0 <= fold_left (fun d it => if of_kind 0 10 it then d + 1
    else if of_kind 0 12 it then Z.max 0 (d - 1) else d) before d); [ | by apply H].
  induction before as [|it before IH]; intros d Hd; [done | ]. cbn [fold_left]. apply IH.
  destruct (of_kind 0 10 it); [lia | ]. destruct (of_kind 0 12 it); lia.
Qed.

(** The variables of the code hold what is known. *)
Lemma known_step before it :
  known (before ++ [it]) = (item_line (known before) (prefix it) (uval it) (sval it)).1.
Proof.
  pose proof (depth_nonneg before) as Hd.
  unfold known at 1, last_of, depth. rewrite !fold_left_app. cbn [fold_left].
  fold (depth before) (last_of 0 uval before) (last_of 1 sval before) (last_of 2 sval before) (last_of 7 uval before)
    (last_of 8 uval before) (last_of 9 uval before).
  unfold item_line, of_kind. fold (item_type it) (item_tag it).
  destruct (Z.eqb_spec (prefix it) 0xfe) as [Hp|_].
  { unfold item_type. rewrite Hp. done. }
  destruct (Z.eqb_spec (item_type it) 0) as [H0 | H0]; [rewrite H0 | ]; cbn [andb].
  { change (0 =? 1) with false. cbn [andb]. unfold main_item. cbn [indent].
    repeat match goal with |- context [item_tag it =? ?k] => lazymatch k with 12 => fail | _ => idtac end;
      destruct (Z.eqb_spec (item_tag it) k) as [Ht|]; [rewrite ?Ht; done | ] end.
    destruct (Z.eqb_spec (item_tag it) 12); [ | done]. unfold known. cbn [fst indent].
    destruct (Z.ltb_spec 0 (depth before)); f_equal; lia. }
  destruct (Z.eqb_spec (item_type it) 1) as [_ | H1]; cbn [andb]; [ | by destruct (_ =? 2)].
  unfold global_item.
  repeat match goal with |- context [item_tag it =? ?k] => destruct (Z.eqb_spec (item_tag it) k) as [Ht|];
    [rewrite ?Ht; done | ] end. done.
Qed.

(** Type and tag take few values. *)
Lemma item_type_cases it : item_type it ∈ [0; 1; 2; 3].
Proof.
  unfold item_type. rewrite (Z.land_ones (Z.shiftr (prefix it) 2) 2 ltac:(lia) : Z.land _ 3 = _). change (2 ^ 2) with 4.
  rewrite !elem_of_cons. pose proof (Z.mod_pos_bound (Z.shiftr (prefix it) 2) 4). lia.
Qed.
Lemma item_tag_cases it : item_tag it ∈ [0; 1; 2; 3; 4; 5; 6; 7; 8; 9; 10; 11; 12; 13; 14; 15].
Proof.
  unfold item_tag. rewrite (Z.land_ones (Z.shiftr (prefix it) 4) 4 ltac:(lia) : Z.land _ 15 = _). change (2 ^ 4) with 16.
  rewrite !elem_of_cons. pose proof (Z.mod_pos_bound (Z.shiftr (prefix it) 4) 16). lia.
Qed.

(** The code prints that line. *)
Lemma line_printed before it : (item_line (known before) (prefix it) (uval it) (sval it)).2 = line_of before it.
Proof.
  unfold item_line, line_of. fold (item_type it) (item_tag it).
  replace (bool_decide (prefix it = 0xfe)) with (prefix it =? 0xfe)
    by (apply eq_true_iff_eq; rewrite bool_decide_eq_true; apply Z.eqb_eq).
  destruct (prefix it =? 0xfe); [done | ].
  assert (Hlt : forall a b, bool_decide (a < b) = (a <? b))
    by (intros a b; apply eq_true_iff_eq; rewrite bool_decide_eq_true; symmetry; apply Z.ltb_lt).
  rewrite !Hlt. unfold main_item, global_item, known. cbn [indent report_size report_count].
  pose proof (item_type_cases it) as Ht. pose proof (item_tag_cases it) as Hg.
  rewrite !elem_of_cons, elem_of_nil in Ht. rewrite !elem_of_cons, elem_of_nil in Hg.
  assert (Hend : (0 <? (if 0 <? depth before then depth before - 1 else depth before)) = (1 <? depth before)).
  { apply eq_true_iff_eq. rewrite !Z.ltb_lt. destruct (Z.ltb_spec 0 (depth before)); lia. }
  destruct_or?; try done;
    repeat match goal with H : item_type it = _ |- _ => rewrite H; clear H | H : item_tag it = _ |- _ => rewrite H; clear H end;
    try reflexivity.
  cbn [Z.eqb snd Pos.eqb]. by rewrite Hend.
Qed.

(* ------------------------------------------------------------------ *)
(** ** Values *)

Lemma le_value_range bs : Forall is_u8 bs -> 0 <= le_value bs < 256 ^ Z.of_nat (length bs).
Proof.
  induction 1 as [|b bs Hb _ IH]; [done | ]. cbn [le_value length]. rewrite Nat2Z.inj_succ, Z.pow_succ_r by lia.
  unfold is_u8 in Hb. nia.
Qed.

Lemma shl_add v b k : 0 <= k -> 0 <= v < 2 ^ k -> 0 <= b -> Z.lor v (Z.shiftl b k) = v + b * 2 ^ k.
Proof. intros Hk Hv Hb. rewrite Z.lor_comm, lor_shift by done. lia. Qed.

Lemma udata_bytes n p i v :
  (n <= 4)%nat -> 0 <= i -> Z.of_nat n + i <= 4 -> 0 <= v < 2 ^ (8 * i) -> Forall is_u8 p ->
  (Z.to_nat i + n <= length p)%nat ->
  udata_loop n p i v = Some (v + 2 ^ (8 * i) * le_value (take n (drop (Z.to_nat i) p))).
Proof.
  revert i v. induction n as [|n IH]; intros i v Hn Hi Hi4 Hv Hp Hl; cbn [udata_loop]; [rewrite take_0; cbn [le_value]; by rewrite Z.mul_0_r, Z.add_0_r | ].
  rewrite rd_ix by lia. cbn [mbind option_bind].
  assert (Hb : is_u8 (ix p i)) by (apply ix_Forall; [done | exact Hp]). unfold is_u8 in Hb.
  assert (Hk : 0 <= ix p i * 2 ^ (8 * i) < 2 ^ (8 * i + 8)).
  { rewrite Z.pow_add_r by lia. change (2 ^ 8) with 256. split; [apply Z.mul_nonneg_nonneg; lia | ].
    rewrite Z.mul_comm. apply Z.mul_lt_mono_pos_l; lia. }
  assert (H32 : 2 ^ (8 * i + 8) <= 2 ^ 32) by (apply Z.pow_le_mono_r; lia).
  unfold u32. rewrite Z.shiftl_mul_pow2, Z.mod_small by lia. rewrite <- Z.shiftl_mul_pow2 by lia.
  rewrite shl_add by lia. rewrite IH; [ | lia.. | | done | lia].
  - replace (Z.to_nat (i + 1)) with (S (Z.to_nat i)) by lia.
    destruct (drop (Z.to_nat i) p) as [|b r] eqn:Hd; [apply (f_equal length) in Hd; rewrite length_drop in Hd; cbn in Hd; lia | ].
    assert (Hr : drop (S (Z.to_nat i)) p = r) by (rewrite <- Nat.add_1_r, <- drop_drop, Hd; done). rewrite Hr.
    assert (Hbx : ix p i = b).
    { assert (H : rd p i = Some b); [ | by unfold ix; rewrite H]. unfold rd.
      destruct (Z.ltb_spec i 0); [lia | ]. rewrite <- (Nat.add_0_r (Z.to_nat i)), <- lookup_drop, Hd. done. }
    rewrite Hbx. cbn [take le_value]. replace (8 * (i + 1)) with (8 * i + 8) by lia. rewrite Z.pow_add_r by lia.
    f_equal. change (2 ^ 8) with 256. ring.
  - replace (8 * (i + 1)) with (8 * i + 8) by lia. rewrite Z.pow_add_r by lia. change (2 ^ 8) with 256.
    assert (ix p i * 2 ^ (8 * i) <= 255 * 2 ^ (8 * i)) by (apply Z.mul_le_mono_nonneg_r; lia).
    assert (0 <= ix p i * 2 ^ (8 * i)) by (apply Z.mul_nonneg_nonneg; lia). lia.
Qed.

Lemma udata_value p n :
  (n <= 4)%nat -> Forall is_u8 p -> (n <= length p)%nat -> hid_item_udata p (Z.of_nat n) = Some (le_value (take n p)).
Proof.
  intros Hn Hp Hl. unfold hid_item_udata. rewrite Nat2Z.id, udata_bytes by (done || lia).
  change (2 ^ (8 * 0)) with 1. change (Z.to_nat 0) with 0%nat. rewrite drop_0. f_equal. lia.
Qed.

Lemma data_size_cases p : data_size p = 0 \/ data_size p = 1 \/ data_size p = 2 \/ data_size p = 4.
Proof.
  unfold data_size. change 3 with (Z.ones 2). rewrite land_mask by lia. change (2 ^ 2) with 4.
  pose proof (Z.mod_pos_bound p 4 ltac:(lia)). destruct (Z.eqb_spec (p mod 4) (Z.ones 2)) as [|Hne]; [lia | ].
  change (Z.ones 2) with 3 in Hne. lia.
Qed.

Lemma item_values it rest :
  wf_item it -> Forall is_u8 rest ->
  hid_item_udata (idata it ++ rest) (data_size (prefix it)) = Some (uval it) /\
  hid_item_sdata (idata it ++ rest) (data_size (prefix it)) = Some (sval it).
Proof.
  intros (_ & Hl & Hb) Hr. pose proof (le_value_range _ Hb) as Hv. fold (uval it) in Hv.
  assert (Hu : hid_item_udata (idata it ++ rest) (data_size (prefix it)) = Some (uval it)).
  { rewrite <- Hl, udata_value; [by rewrite take_app_length | | by apply Forall_app | rewrite length_app; lia].
    destruct (data_size_cases (prefix it)) as [|[|[|]]]; lia. }
  split; [done | ]. unfold hid_item_sdata. rewrite Hu. cbn [mbind option_bind]. f_equal. unfold sval, s8, s16, s32.
  rewrite Hl in *. destruct (data_size_cases (prefix it)) as [Hs | [Hs | [Hs | Hs]]]; rewrite Hs in *; cbn in Hv |- *;
    match goal with |- context [?a <? ?b] => destruct (Z.ltb_spec a b) end; dlia.
Qed.

(** Every sequence of bytes is items and the start of one. *)
Lemma split_items n bs :
  (length bs <= n)%nat -> Forall is_u8 bs ->
  exists items rest, bs = concat (map encode items) ++ rest /\ Forall wf_item items /\ incomplete rest.
Proof.
  revert bs. induction n as [|n IH]; intros [|p r] Hn Hb; try (by exists [], []); [cbn in Hn; lia | ].
  inversion Hb as [|? ? Hp Hr]; subst. destruct (Z.ltb_spec (Z.of_nat (length r)) (data_size p)) as [Hlt | Hge].
  { exists [], (p :: r). split; [done | ]. by split. }
  set (k := Z.to_nat (data_size p)). pose proof (data_size_cases p) as Hk.
  destruct (IH (drop k r)) as (items & rest & Hd & Hw & Hi).
  { rewrite length_drop. cbn [length] in Hn. lia. }
  { by apply Forall_drop. }
  exists (Item p (take k r) :: items), rest. split; [ | split; [constructor; [ | done] | done]].
  - cbn [map concat encode idata prefix app]. by rewrite <- app_assoc, <- Hd, take_drop.
  - split; [done | ]. split; cbn [idata prefix]; [rewrite length_take; lia | by apply Forall_take].
Qed.

Lemma encode_length it : wf_item it -> Z.of_nat (length (encode it)) = 1 + data_size (prefix it).
Proof. intros (_ & Hl & _). cbn [encode length]. lia. Qed.
Lemma encode_bytes items : Forall wf_item items -> Forall is_u8 (concat (map encode items)).
Proof.
  induction 1 as [|it items (Hp & _ & Hb) _ IH]; [constructor | ]. cbn [map concat]. apply Forall_app. split; [by constructor | done].
Qed.

(** The loop on items. *)
Lemma parse_items fuel pre before items rest tail :
  Forall wf_item items -> incomplete rest -> Forall is_u8 rest -> Forall is_u8 tail ->
  let desc := pre ++ concat (map encode items) ++ rest ++ tail in
  let len := Z.of_nat (length (pre ++ concat (map encode items) ++ rest)) in
  len - Z.of_nat (length pre) < Z.of_nat fuel ->
  parse_loop fuel desc len (Z.of_nat (length pre)) (known before) = Some (lines_of before items ++ end_lines len rest).
Proof.
  revert pre before items. induction fuel as [|fuel IH]; intros pre before items Hw Hi Hr Ht desc len Hf; cbn [parse_loop];
    [unfold len in Hf; rewrite length_app in Hf; lia | ].
  destruct items as [|it items].
  - cbn [map concat app lines_of] in *. destruct rest as [|p r].
    { destruct (Z.leb_spec len (Z.of_nat (length pre))); [done | unfold len in *; rewrite app_nil_r in *; lia]. }
    assert (Hlen : len = Z.of_nat (length pre) + 1 + Z.of_nat (length r)) by (unfold len; rewrite length_app; cbn [length]; lia).
    destruct (Z.leb_spec len (Z.of_nat (length pre))); [lia | ].
    assert (Hrd : rd desc (Z.of_nat (length pre)) = Some p).
    { unfold rd, desc. destruct (Z.ltb_spec (Z.of_nat (length pre)) 0); [lia | ]. rewrite Nat2Z.id, lookup_app_r, Nat.sub_diag by lia. done. }
    rewrite Hrd. cbn [mbind option_bind]. cbv zeta. fold (data_size p). cbn [incomplete] in Hi.
    destruct (Z.ltb_spec len (Z.of_nat (length pre) + 1 + data_size p)); [ | lia].
    unfold end_lines. cbn [length app]. do 2 f_equal. f_equal. lia.
  - inversion Hw as [|? ? Hit Hw']; subst. pose proof (encode_length it Hit) as Hel. destruct Hit as [Hdl Hdb].
    assert (Hdesc : desc = pre ++ [prefix it] ++ (idata it ++ (concat (map encode items) ++ rest ++ tail))).
    { unfold desc. cbn [map concat]. unfold encode at 1. cbn [app]. by rewrite <- !app_assoc. }
    assert (Hlen : len = Z.of_nat (length pre) + (1 + data_size (prefix it)) + Z.of_nat (length (concat (map encode items) ++ rest))).
    { unfold len. cbn [map concat]. rewrite !length_app, Nat2Z.inj_add. rewrite <- Hel. lia. }
    assert (Hpos : 0 <= data_size (prefix it)) by (destruct (data_size_cases (prefix it)) as [|[|[|]]]; lia).
    destruct (Z.leb_spec len (Z.of_nat (length pre))); [lia | ].
    assert (Hrd : rd desc (Z.of_nat (length pre)) = Some (prefix it)).
    { unfold rd. destruct (Z.ltb_spec (Z.of_nat (length pre)) 0); [lia | ].
      by rewrite Hdesc, Nat2Z.id, lookup_app_r, Nat.sub_diag by lia. }
    rewrite Hrd. cbn [mbind option_bind]. cbv zeta. fold (data_size (prefix it)).
    destruct (Z.ltb_spec len (Z.of_nat (length pre) + 1 + data_size (prefix it))); [lia | ].
    assert (Hdrop : drop (Z.to_nat (Z.of_nat (length pre) + 1)) desc = idata it ++ (concat (map encode items) ++ rest ++ tail)).
    { rewrite Hdesc, app_assoc. apply drop_app_length'. rewrite length_app. cbn [length]. lia. }
    rewrite Hdrop.
    destruct (item_values it (concat (map encode items) ++ rest ++ tail)) as [-> ->]; [done | rewrite !Forall_app; auto using encode_bytes | ].
    cbn [mbind option_bind]. pose proof (known_step before it) as Hk. unfold lines_of at 1. fold lines_of. rewrite <- line_printed.
    destruct (item_line (known before) (prefix it) (uval it) (sval it)) as [g l]. cbn [fst snd] in *. subst g.
    specialize (IH (pre ++ encode it) (before ++ [it]) items Hw' Hi Hr Ht).
    assert (Hpre : (pre ++ encode it) ++ concat (map encode items) ++ rest = pre ++ concat (map encode (it :: items)) ++ rest)
      by (cbn [map concat]; by rewrite <- !app_assoc).
    assert (Hpre' : (pre ++ encode it) ++ concat (map encode items) ++ rest ++ tail = desc)
      by (unfold desc; cbn [map concat]; by rewrite <- !app_assoc).
    cbv zeta in IH. rewrite Hpre, Hpre' in IH. fold len in IH.
    replace (Z.of_nat (length pre) + 1 + data_size (prefix it)) with (Z.of_nat (length (pre ++ encode it))) by (rewrite length_app; lia).
    rewrite IH; [done | rewrite length_app; lia].
Qed.

(* ------------------------------------------------------------------ *)
(** ** Searching a device *)

(** The entry is a device with the identification, as far as can be told. *)
Definition entry_path (devdir ent : text) : text := devdir ++ [47] ++ ent.
Definition matches (sys : system) (devdir : text) (vid pid : Z) (ent : text) : bool :=
  is_hidraw ent && (Z.of_nat (length (entry_path devdir ent)) <? PATH_SIZE) &&
  let fd := open_rdwr sys (entry_path devdir ent) true in
  (0 <=? fd) &&
  match raw_info sys fd with Some info => (vendor info =? vid) && (product info =? pid) | None => false end.

Lemma filter_head (fd : Z) l : fd ∉ l -> filter (fun x => x <> fd) (fd :: l) = l.
Proof. intros H. rewrite filter_cons_False by (intros E; by apply E). by apply filter_ne_id. Qed.

Lemma close_head {A} (k : Hid.H A) fd l d nb :
  fd ∉ l -> bind (close_fd fd) (fun _ => k) (Devs (fd :: l) d nb) = k (Devs l d nb).
Proof.
  intros Hl. unfold close_fd, bind, gets, modify. cbn [fds dirs nonblock]. rewrite bool_decide_eq_true_2 by (by left).
  cbn [fds dirs nonblock]. by rewrite filter_head.
Qed.

(** What a search gives for the entry found, and leaves open. *)
Definition answer (sys : system) (dir : text) (found : option Z) (hit : option text) : Z * option text :=
  match hit with
  | Some ent => (open_rdwr sys (entry_path dir ent) true,
      match found with Some size => if 0 <? size then Some (cut size (entry_path dir ent)) else None | None => None end)
  | None => (-1, None)
  end.
Definition left_open (sys : system) (dir : text) (hit : option text) : list Z :=
  match hit with Some ent => [open_rdwr sys (entry_path dir ent) true] | None => [] end.

(** From where the directory is open to where it is closed. *)
Lemma scan_spec sys dir vid pid found ents w n :
  (forall path nb, open_rdwr sys path nb ∉ fds w) -> dirs w = S n ->
  let hit := List.find (matches sys dir vid pid) ents in
  exists w', scan sys dir vid pid found ents w = Done (answer sys dir found hit) w' /\
    dirs w' = n /\ fds w' = left_open sys dir hit ++ fds w.
Proof.
  revert w. induction ents as [|ent ents IH]; intros w Hfresh Hd; cbv zeta in *; cbn [scan List.find].
  { unfold closedir, bind, gets, modify, ret. rewrite Hd. eexists. split; [reflexivity | done]. }
  unfold matches at 1 3. fold (entry_path dir ent). destruct (is_hidraw ent); cbn [negb andb]; [ | by apply IH].
  rewrite (Z.ltb_antisym PATH_SIZE). destruct (PATH_SIZE <=? _); cbn [negb andb]; [by apply IH | ].
  set (fd := open_rdwr sys (entry_path dir ent) true). rewrite (Z.leb_antisym fd 0).
  unfold bind at 1, open_fd. fold fd. destruct (fd <? 0) eqn:Hneg; cbn [negb andb].
  { unfold ret at 1. rewrite Hneg. by apply IH. }
  unfold bind at 1, modify at 1, ret at 1. rewrite Hneg.
  set (nb := fun f : Z => if f =? fd then true else nonblock w f).
  assert (Hfd : fd ∉ fds w) by apply Hfresh.
  destruct (raw_info sys fd) as [info|]; [destruct ((vendor info =? vid) && (product info =? pid)) | ];
    [ | rewrite close_head by done; by apply (IH (Devs (fds w) (dirs w) nb))..].
  unfold closedir, bind, gets, modify, ret. cbn [dirs fds nonblock]. rewrite Hd.
  destruct (0 <=? getfl sys fd); eexists; (split; [reflexivity | done]).
Qed.

(* ------------------------------------------------------------------ *)
(** ** The properties *)

(** C25: Whatever bytes a report descriptor consists of, they are items and perhaps
    the start of one, and the listing reads none beyond them and shows each item
    in order on the line [line_of] says: what its type and tag mean, its value as
    its own bytes say, and for input, output and feature the last report size and
    count before it; a long item (prefix 0xfe) counts as an item of two bytes,
    and an item that is cut off is reported by its offset. *)
Theorem descriptor_listed desc len :
  Forall is_u8 desc -> 0 <= len <= Z.of_nat (length desc) ->
  exists items rest,
    take (Z.to_nat len) desc = concat (map encode items) ++ rest /\ Forall wf_item items /\ incomplete rest /\
    mini_hid_parse_report_descriptor desc len true = Some (Header :: lines_of [] items ++ end_lines len rest).
Proof.
  intros Hb Hlen. destruct (split_items (length desc) (take (Z.to_nat len) desc)) as (items & rest & Hs & Hw & Hi).
  { rewrite length_take. lia. }
  { by apply Forall_take. }
  exists items, rest. repeat split_and; try done.
  assert (Hr : Forall is_u8 rest).
  { assert (H : Forall is_u8 (concat (map encode items) ++ rest)) by (rewrite <- Hs; by apply Forall_take).
    by apply Forall_app in H as [_ H]. }
  pose proof (parse_items (S (Z.to_nat len)) [] [] items rest (drop (Z.to_nat len) desc) Hw Hi Hr (Forall_drop _ _ _ Hb)) as Hp.
  cbv zeta in Hp. cbn [app length] in Hp. rewrite app_assoc, <- Hs, take_drop, length_take in Hp.
  replace (Z.of_nat (Z.to_nat len `min` length desc)) with len in Hp by lia.
  unfold mini_hid_parse_report_descriptor. change (Z.of_nat 0) with 0 in Hp. change (known []) with no_globals in Hp.
  rewrite Hp by lia. done.
Qed.

Example descriptor_listed_witness : exists items rest,
    take 11 ([0x05; 0x01; 0x75; 8; 0x95; 4; 0xa1; 1; 0x81; 2; 0x16] : list Z) = concat (map encode items) ++ rest /\
    Forall wf_item items /\ incomplete rest /\
    mini_hid_parse_report_descriptor [0x05; 0x01; 0x75; 8; 0x95; 4; 0xa1; 1; 0x81; 2; 0x16] 11 true =
      Some (Header :: lines_of [] items ++ end_lines 11 rest).
Proof. apply (descriptor_listed _ 11); [repeat (constructor; [unfold is_u8; lia | ]); constructor | cbn; lia]. Defined.

Example listing_example :
  mini_hid_parse_report_descriptor [0x05; 0x01; 0x75; 8; 0x95; 4; 0xa1; 1; 0x15; 0x81; 0x81; 2; 0xc0; 0x16] 14 true =
  Some [Header; UsagePage false 1; ReportSize false 8 false; ReportCount false 4; Collection false 1;
        LogicalMinimum true (-127); Input true 2 8 4 32 4 false; EndCollection false; Truncated 13].
Proof. vm_compute. reflexivity. Qed.

(** A long item is not skipped: the comment says it is, but only the two bytes of
    its header are, and its data are listed as an item. *)
Example long_item_not_skipped :
  mini_hid_parse_report_descriptor [0xfe; 2; 0x10; 0x81; 0x02] 5 true =
  Some [Header; LongItem; Input false 2 0 0 0 0 false].
Proof. vm_compute. reflexivity. Qed.

(** The search from a state where what opening gives is not open. *)
Lemma search_spec sys devdir vid pid found w :
  (forall path nb, open_rdwr sys path nb ∉ fds w) ->
  let dir := default DEV devdir in
  let hit := ents ← opendir sys dir; List.find (matches sys dir vid pid) ents in
  exists w', mini_hid_open_hidraw sys devdir vid pid found w = Done (answer sys dir found hit) w' /\
    dirs w' = dirs w /\ fds w' = left_open sys dir hit ++ fds w.
Proof.
  intros Hfresh. cbv zeta. unfold mini_hid_open_hidraw.
  replace (match devdir with Some d => d | None => DEV end) with (default DEV devdir) by (by destruct devdir).
  destruct (opendir sys (default DEV devdir)) as [ents|]; cbn [mbind option_bind]; [ | by exists w].
  by apply (scan_spec sys _ vid pid found ents (Devs (fds w) (S (dirs w)) (nonblock w))).
Qed.

(** A search for a device gives the first entry of the directory that is one
    with the identification and can be opened, with its path as far as it fits,
    or -1; it closes every other device and the directory, and nothing else
    stays open. *)
Theorem hidraw_search_gives_back sys devdir vid pid found w :
  (forall path nb, open_rdwr sys path nb ∉ fds w) ->
  let dir := default DEV devdir in
  let hit := ents ← opendir sys dir; List.find (matches sys dir vid pid) ents in
  exists w', mini_hid_open_hidraw sys devdir vid pid found w = Done (answer sys dir found hit) w' /\
    dirs w' = dirs w /\ fds w' = left_open sys dir hit ++ fds w.
Proof. apply search_spec. Qed.

(** Two devices, the second the one looked for. *)
Definition demo_sys : system :=
  System (fun _ => Some [lit "null"; lit "hidraw0"; lit "hidraw1"])
    (fun p _ => if bool_decide (p = lit "/dev/hidraw0") then 5 else 6)
    (fun fd => if fd =? 5 then Some (Devinfo 3 1 2) else Some (Devinfo 3 0x1234 0x5678))
    (fun _ => 0) (fun _ _ => 0) (fun _ _ => (0, [])) (fun _ _ => 0) (fun _ => None) (fun _ _ => None) (fun _ _ => (0, [])).

Lemma hidraw_search_gives_back_witness : exists w',
  mini_hid_open_hidraw demo_sys None 0x1234 0x5678 (Some 8) (Devs [3] 0 (fun _ => false)) = Done (6, Some (lit "/dev/hi")) w' /\
  dirs w' = 0%nat /\ fds w' = [6; 3].
Proof.
  apply (hidraw_search_gives_back demo_sys None 0x1234 0x5678 (Some 8) (Devs [3] 0 (fun _ => false))).
  intros path nb. cbn. case_bool_decide; by rewrite list_elem_of_singleton.
Defined.

(** The report descriptor fits the structure it is read into and the buffer it
    is copied to, if the kernel gives only what fits its structure. *)
Lemma report_descriptor_fits sys fd bufsize :
  (forall s, raw_desc sys fd s = None \/ exists v, raw_desc sys fd s = Some (s, v) /\ s <= HID_MAX_DESCRIPTOR_SIZE) ->
  0 <= bufsize < 2 ^ 31 -> (forall n, desc_size sys fd = Some n -> INT_MIN <= n <= INT_MAX) ->
  exists r, mini_hid_get_report_descriptor sys fd true bufsize = Some r.
Proof.
  intros Hk Hb Hn. unfold mini_hid_get_report_descriptor. cbn [negb]. destruct (desc_size sys fd) as [n|]; [ | by eexists].
  specialize (Hn n eq_refl). unfold INT_MIN, INT_MAX in Hn. cbv zeta. set (size := if _ <? _ then _ else _).
  assert (Hs : u32 size <= bufsize).
  { unfold size, s32, u32, u64. destruct (Z.ltb_spec bufsize (n mod 18446744073709551616)); dlia. }
  destruct (Hk (u32 size)) as [-> | (v & -> & Hv)]; [by eexists | ].
  destruct (Z.leb_spec (u32 size) HID_MAX_DESCRIPTOR_SIZE), (Z.leb_spec (u32 size) bufsize); try lia. cbn [andb]. by eexists.
Qed.
