(* ===== verification/Uevent.v ===== *)
(** Uevent: hotplug messages of package/aloe/sys_linux/udev_mini.c: the socket,
    the search for a key in a message, and the monitor that opens a device when
    it appears.  Devices are those of Hid.  Keys are found in messages, and the
    monitor leaves no device open. *)

From Stdlib Require Import String.
From S2P Require Import Prelude Eff ByteStr Hid HidSpec.

Open Scope list_scope.
Open Scope eff_scope.

(* ------------------------------------------------------------------ *)
(** ** Messages *)

(** The C string at the start of some memory; [None]: it does not end in it. *)
Fixpoint str_at (bs : list Z) : option text :=
  match bs with [] => None | b :: r => if b =? 0 then Some [] else cons b <$> str_at r end.
Definition strlen_at (bs : list Z) : option Z := s ← str_at bs; Some (Z.of_nat (length s)).

(** [strncmp(p, key, strlen(key)) == 0]; the key has no NUL. *)
Definition has_prefix (key s : text) : bool := bool_decide (take (length key) s = key).

(** The loop; where the value starts, if the key is there ([None]: a read outside
    the buffer). *)
Fixpoint check_loop (fuel : nat) (buf : list Z) (len p : Z) (key : text) : option (option Z) :=
  match fuel with
  | O => Some None
  | S fuel' =>
      if negb (p <? len) then Some None else
      b ← rd buf p;
      if b =? 0 then Some None else
      s ← str_at (drop (Z.to_nat p) buf);
      let key_len := Z.of_nat (length key) in
      eq ← (if has_prefix key s then rd buf (p + key_len) else Some 0);
      if has_prefix key s && (eq =? 61) then Some (Some (p + key_len + 1)) else
      n ← strlen_at (drop (Z.to_nat p) buf);
      check_loop fuel' buf len (p + (n + 1)) key
  end.
Definition mini_udev_uevent_check (buf : list Z) (len : Z) (key : text) : option (option Z) :=
  check_loop (S (Z.to_nat len)) buf len 0 key.

Definition SUBSYSTEM : text := lit "SUBSYSTEM".
Definition ACTION : text := lit "ACTION".
Definition DEVNAME : text := lit "DEVNAME".

(** The string a key has in the message. *)
Definition value_of (buf : list Z) (len : Z) (key : text) : option (option text) :=
  r ← mini_udev_uevent_check buf len key;
  match r with
  | None => Some None
  | Some i => v ← str_at (drop (Z.to_nat i) buf); Some (Some v)
  end.

Definition mini_udev_uevent_is_hidraw (buf : list Z) (len : Z) : option bool :=
  subsystem ← value_of buf len SUBSYSTEM;
  Some (match subsystem with Some s => has_prefix HIDRAW s | None => false end).

(* ------------------------------------------------------------------ *)
(** ** The socket and the monitor *)

(** [socket] and [bind]. *)
Definition mini_udev_uevent_open (socket : Z) (bound : bool) : H Z :=
  if socket =? -1 then ret (-1) else
  modify (fun w => Devs (socket :: fds w) (dirs w) (nonblock w));;
  if bound then ret socket else close_fd socket;; ret socket.
Definition mini_udev_uevent_close (fd : Z) : H unit := if fd <? 0 then ret tt else close_fd fd.

(** [recv]: it fails, with EINTR or not, or gives a message. *)
Inductive received : Type := RecvFails (eintr : bool) | Message (bs : list Z).

Definition BUF : Z := 4096.
(** What a message does: a line for every device, and one opened and closed. *)
Definition on_message (sys : system) (vid pid : Z) (bs : list Z) : H unit :=
  let len := Z.of_nat (length (take (Z.to_nat (BUF - 1)) bs)) in
  let buf := take (Z.to_nat (BUF - 1)) bs ++ [0] in
  do hid <- need (mini_udev_uevent_is_hidraw buf len);
  if negb hid then ret tt else
  do action <- need (value_of buf len ACTION);
  do devname <- need (value_of buf len DEVNAME);
  match action with
  | None => ret tt
  | Some action =>
      if bool_decide (action = lit "add") then
        do r <- mini_hid_open_hidraw sys None vid pid (Some 256);
        if 0 <=? r.1 then close_fd r.1 else ret tt
      else ret tt
  end.

(** The loop, over what arrives and the system at that time; [None]: it waits for
    more. *)
Fixpoint monitor (vid pid : Z) (events : list (received * system)) (uevent_fd : Z) : H (option Z) :=
  match events with
  | [] => ret None
  | (RecvFails true, _) :: events' => monitor vid pid events' uevent_fd
  | (RecvFails false, _) :: _ => close_fd uevent_fd;; ret (Some 0)
  | (Message bs, sys) :: events' => on_message sys vid pid bs;; monitor vid pid events' uevent_fd
  end.

Definition mini_udev_test (socket : Z) (bound : bool) (sys : system) (events : list (received * system)) (vid pid : Z) : H (option Z) :=
  do fd <- mini_udev_uevent_open socket bound;
  if fd <? 0 then ret (Some 1) else
  do r <- mini_hid_open_hidraw sys None vid pid (Some 256);
  (if 0 <=? r.1 then close_fd r.1 else ret tt);;
  monitor vid pid events fd.

(* ------------------------------------------------------------------ *)
(** ** Strings in memory *)

Definition no_nul (s : text) : Prop := Forall (fun b => b <> 0) s.

Lemma str_at_app s r : no_nul s -> str_at (s ++ 0 :: r) = Some s.
Proof.
  induction 1 as [|b s Hb _ IH]; [done | ]. cbn [app str_at]. destruct (Z.eqb_spec b 0); [done | ]. by rewrite IH.
Qed.

(** A message: strings, each with its NUL. *)
Definition message (strs : list text) : list Z := concat (map (fun s => s ++ [0]) strs).
(** What follows the key and =. *)
Fixpoint value_in (key s : text) : option text :=
  match key, s with
  | [], c :: v => if c =? 61 then Some v else None
  | k :: key', c :: s' => if k =? c then value_in key' s' else None
  | _, [] => None
  end.
(** The value of the first string that has the key. *)
Fixpoint lookup_key (key : text) (strs : list text) : option text :=
  match strs with
  | [] => None
  | s :: strs' => match value_in key s with Some v => Some v | None => lookup_key key strs' end
  end.

Lemma value_in_spec key s v : value_in key s = Some v <-> s = key ++ 61 :: v.
Proof.
  revert s. induction key as [|k key IH]; intros [|c s]; cbn; try done.
  - destruct (Z.eqb_spec c 61) as [-> | Hc]; split; [by intros [= ->] | by intros [= ->] | done | by intros [= -> _]].
  - destruct (Z.eqb_spec k c) as [-> | Hc]; [rewrite IH; split; [by intros -> | by intros [= ->]] | ].
    split; [done | by intros [= -> _]].
Qed.
Lemma prefix_split key s : has_prefix key s = true -> exists r, s = key ++ r.
Proof. unfold has_prefix. intros H. apply bool_decide_eq_true in H. exists (drop (length key) s). rewrite <- H at 1. by rewrite take_drop. Qed.
Lemma no_prefix key s v : has_prefix key s = false -> s <> key ++ v.
Proof. unfold has_prefix. intros H ->. apply bool_decide_eq_false in H. by rewrite take_app_length in H. Qed.

Lemma rd_app pre b r : rd (pre ++ b :: r) (Z.of_nat (length pre)) = Some b.
Proof.
  unfold rd. destruct (Z.ltb_spec (Z.of_nat (length pre)) 0); [lia | ]. by rewrite Nat2Z.id, lookup_app_r, Nat.sub_diag by lia.
Qed.
Lemma drop_here {A} (pre r : list A) n : n = Z.of_nat (length pre) -> drop (Z.to_nat n) (pre ++ r) = r.
Proof. intros ->. rewrite Nat2Z.id. apply drop_app_length. Qed.

(** The loop at the start of a string. *)
Lemma check_strings fuel pre strs key tail :
  Forall (fun s => s <> [] /\ no_nul s) strs -> (length strs < fuel)%nat ->
  let buf := pre ++ message strs ++ 0 :: tail in
  let len := Z.of_nat (length (pre ++ message strs)) in
  match lookup_key key strs with
  | Some v => exists i, check_loop fuel buf len (Z.of_nat (length pre)) key = Some (Some i) /\ str_at (drop (Z.to_nat i) buf) = Some v
  | None => check_loop fuel buf len (Z.of_nat (length pre)) key = Some None
  end.
Proof.
  intros Hs. revert fuel pre. induction Hs as [|s strs [Hne Hs] _ IH]; intros [|fuel] pre Hf; try (cbn [length] in Hf; lia);
    intros buf len; cbn [lookup_key check_loop].
  { unfold len. rewrite app_nil_r. destruct (Z.ltb_spec (Z.of_nat (length pre)) (Z.of_nat (length pre))); [lia | done]. }
  assert (Hmsg : message (s :: strs) = s ++ 0 :: message strs) by (unfold message; cbn [map concat]; by rewrite <- app_assoc).
  assert (Hbuf : buf = pre ++ s ++ 0 :: message strs ++ 0 :: tail) by (unfold buf; rewrite Hmsg, <- !app_assoc; done).
  assert (Hpos : (0 < length s)%nat) by (destruct s; [done | cbn; lia]).
  destruct (Z.ltb_spec (Z.of_nat (length pre)) len) as [_ | Hge].
  2:{ unfold len in Hge. rewrite Hmsg, !length_app in Hge. lia. }
  cbn [negb]. assert (Hstr : str_at (drop (Z.to_nat (Z.of_nat (length pre))) buf) = Some s).
  { rewrite Hbuf, drop_here by done. by apply str_at_app. }
  assert (Hrd : exists b, rd buf (Z.of_nat (length pre)) = Some b /\ b <> 0).
  { destruct s as [|b s]; [done | ]. exists b. inversion Hs; subst. split; [rewrite Hbuf; apply rd_app | done]. }
  destruct Hrd as (b & -> & Hb). cbn [mbind option_bind]. destruct (Z.eqb_spec b 0); [done | ].
  unfold strlen_at. rewrite Hstr. cbn [mbind option_bind].
  specialize (IH fuel (pre ++ s ++ [0]) ltac:(cbn [length] in Hf; lia)). cbv zeta in IH.
  assert (Hbuf' : (pre ++ s ++ [0]) ++ message strs ++ 0 :: tail = buf) by (rewrite Hbuf, <- !app_assoc; done).
  assert (Hlen' : Z.of_nat (length ((pre ++ s ++ [0]) ++ message strs)) = len) by (unfold len; rewrite Hmsg, <- !app_assoc; done).
  assert (Hnext : Z.of_nat (length (pre ++ s ++ [0])) = Z.of_nat (length pre) + (Z.of_nat (length s) + 1)) by (rewrite !length_app; cbn [length]; lia).
  rewrite Hbuf', Hlen', Hnext in IH.
  destruct (has_prefix key s) eqn:Hpre.
  - destruct (prefix_split key s Hpre) as [r ->].
    assert (Heq : rd buf (Z.of_nat (length pre) + Z.of_nat (length key)) = Some (default 0 (head r))).
    { rewrite Hbuf, <- app_assoc, app_assoc. replace (Z.of_nat (length pre) + Z.of_nat (length key)) with (Z.of_nat (length (pre ++ key))) by (rewrite length_app; lia).
      destruct r as [|c r]; apply rd_app. }
    rewrite Heq. cbn [mbind option_bind andb]. destruct (Z.eqb_spec (default 0 (head r)) 61) as [He | He].
    + destruct r as [|c v]; [done | ]. cbn in He. subst c.
      rewrite (proj2 (value_in_spec key (key ++ 61 :: v) v) eq_refl). eexists. split; [done | ].
      rewrite Hbuf. rewrite <- (app_assoc key). cbn [app]. rewrite (app_assoc pre key), (cons_middle 61), (app_assoc (pre ++ key)).
      rewrite drop_here by (rewrite !length_app; cbn [length]; lia). apply str_at_app. apply Forall_app in Hs as [_ Hs]. by inversion Hs.
    + destruct (value_in key (key ++ r)) as [v|] eqn:Hv; [ | exact IH]. exfalso. apply value_in_spec, app_inv_head in Hv as ->. by apply He.
  - cbn [mbind option_bind andb]. destruct (value_in key s) as [v|] eqn:Hv; [ | exact IH].
    apply value_in_spec in Hv. by destruct (no_prefix key s (61 :: v) Hpre).
Qed.

(* ------------------------------------------------------------------ *)
(** ** The properties *)

Lemma message_length strs : Forall (fun s => s <> [] /\ no_nul s) strs -> (length strs <= length (message strs))%nat.
Proof.
  induction 1 as [|s strs _ _ IH]; [done | ]. unfold message in *. cbn [map concat length]. rewrite !length_app. cbn [length]. lia.
Qed.

(** In a hotplug message, strings with their NULs, the search for a key gives the
    value of the first string that is the key, = and the value, whatever the other
    strings, and nothing if there is none; it reads only the message and the NUL
    put after it. *)
Theorem uevent_keys_found strs key :
  Forall (fun s => s <> [] /\ no_nul s) strs ->
  value_of (message strs ++ [0]) (Z.of_nat (length (message strs))) key = Some (lookup_key key strs).
Proof.
  intros Hs. pose proof (check_strings (S (length (message strs))) [] strs key [] Hs) as H. cbv zeta in H. cbn [app length] in H.
  unfold value_of, mini_udev_uevent_check. rewrite Nat2Z.id. pose proof (message_length strs Hs). change (Z.of_nat 0) with 0 in H.
  destruct (lookup_key key strs) as [v|].
  - destruct H as (i & -> & Hi); [lia | ]. cbn [mbind option_bind]. by rewrite Hi.
  - rewrite H by lia. done.
Qed.

Definition demo_strs : list text := [lit "add@/devices/x"; lit "ACTION=add"; lit "ACTIONX=no"; lit "SUBSYSTEM=hidraw"].
Lemma demo_strs_ok : Forall (fun s => s <> [] /\ no_nul s) demo_strs.
Proof.
  unfold demo_strs. repeat constructor; vm_compute; discriminate.
Qed.
Lemma uevent_keys_found_witness :
  value_of (message demo_strs ++ [0]) (Z.of_nat (length (message demo_strs))) ACTION = Some (Some (lit "add")).
Proof. apply (uevent_keys_found demo_strs ACTION). exact demo_strs_ok. Defined.

(** Opening and closing what a search gives changes nothing. *)
Lemma search_and_close sys vid pid found w :
  (forall path nb, open_rdwr sys path nb ∉ fds w) ->
  exists w', fds w' = fds w /\
    bind (mini_hid_open_hidraw sys None vid pid found) (fun r => if 0 <=? r.1 then close_fd r.1 else ret tt) w = Done tt w'.
Proof.
  intros Hf. pose proof (search_spec sys None vid pid found w Hf) as (w1 & H1 & Hd & Hw1). cbn [default from_option] in *.
  unfold bind at 1. rewrite H1. set (hit := _ ← _; _) in *. destruct hit as [ent|] eqn:Hhit; cbn [answer fst left_open app] in *.
  - assert (Hm : 0 <= open_rdwr sys (entry_path DEV ent) true).
    { unfold hit in Hhit. destruct (opendir sys DEV) as [ents|]; [ | done]. cbn [mbind option_bind] in Hhit.
      apply List.find_some in Hhit as [_ Hm]. unfold matches in Hm. rewrite !andb_true_iff, Z.leb_le in Hm. tauto. }
    rewrite (proj2 (Z.leb_le _ _) Hm). destruct w1 as [l d nb]. cbn [fds] in Hw1. subst l.
    exists (Devs (fds w) d nb). split; [done | ]. unfold close_fd, bind, gets, modify. cbn [fds dirs nonblock].
    rewrite bool_decide_eq_true_2 by by left. cbn [fds dirs nonblock]. by rewrite filter_head.
  - change (0 <=? -1) with false. by exists w1.
Qed.

(** Messages are read safely whatever they consist of. *)
Lemma str_at_total p bs : (p <= length bs)%nat -> exists s, str_at (drop p (bs ++ [0])) = Some s /\ (p + length s <= length bs)%nat /\
  take (length s) (drop p (bs ++ [0])) = s.
Proof.
  intros Hp. rewrite drop_app_le by done.
  assert (H : forall r, exists s, str_at (r ++ [0]) = Some s /\ (length s <= length r)%nat /\ take (length s) (r ++ [0]) = s).
  { induction r as [|b r (s & IH & Hl & Ht)]; [exists []; cbn; split; [done | split; [lia | done]] | ]. cbn [app str_at]. destruct (b =? 0).
    - exists []. split; [done | split; [cbn; lia | done]].
    - rewrite IH. exists (b :: s). split; [done | split; [cbn; lia | ]]. cbn [length take]. by rewrite Ht. }
  destruct (H (drop p bs)) as (s & -> & Hl & Ht). exists s. split; [done | ]. rewrite length_drop in Hl. split; [lia | done].
Qed.

Lemma value_of_total bs key : exists o, value_of (bs ++ [0]) (Z.of_nat (length bs)) key = Some o.
Proof.
  unfold value_of, mini_udev_uevent_check. rewrite Nat2Z.id.
  assert (H : forall fuel p, 0 <= p -> exists o, check_loop fuel (bs ++ [0]) (Z.of_nat (length bs)) p key = Some o /\
    match o with Some i => 0 <= i <= Z.of_nat (length bs) | None => True end).
  { induction fuel as [|fuel IH]; intros p Hp; cbn [check_loop]; [by exists None | ].
    destruct (Z.ltb_spec p (Z.of_nat (length bs))); cbn [negb]; [ | by exists None].
    rewrite (rd_ix (bs ++ [0]) p) by (rewrite length_app; cbn [length]; lia). cbn [mbind option_bind]. destruct (_ =? 0); [by exists None | ].
    destruct (str_at_total (Z.to_nat p) bs) as (s & Hs & Hl & Ht); [lia | ]. unfold strlen_at. rewrite Hs. cbn [mbind option_bind].
    destruct (has_prefix key s) eqn:Hk; cbn [andb]; [ | cbn [mbind option_bind]; apply IH; lia].
    destruct (prefix_split key s Hk) as [r ->]. rewrite length_app in Hl.
    rewrite (rd_ix (bs ++ [0]) (p + Z.of_nat (length key))) by (rewrite length_app; cbn [length]; lia). cbn [mbind option_bind].
    destruct (Z.eqb_spec (ix (bs ++ [0]) (p + Z.of_nat (length key))) 61) as [He|]; [ | apply IH; lia].
    eexists. split; [done | ]. cbv beta iota. assert (p + Z.of_nat (length key) <> Z.of_nat (length bs)); [ | lia].
    intros E. rewrite E in He. unfold ix in He. rewrite (rd_app bs 0 []) in He. done. }
  destruct (H (S (length bs)) 0 ltac:(lia)) as (o & -> & Ho). cbn [mbind option_bind]. destruct o as [i|]; [ | by eexists].
  destruct (str_at_total (Z.to_nat i) bs) as (s & -> & _); [lia | ]. by eexists.
Qed.

Lemma on_message_keeps sys vid pid bs w :
  (forall path nb, open_rdwr sys path nb ∉ fds w) -> exists w', on_message sys vid pid bs w = Done tt w' /\ fds w' = fds w.
Proof.
  intros Hf. unfold on_message, mini_udev_uevent_is_hidraw. set (m := take _ bs).
  destruct (value_of_total m SUBSYSTEM) as [o ->]. cbn [mbind option_bind]. unfold need, bind at 1, ret at 1.
  destruct (negb _); [by exists w | ].
  destruct (value_of_total m ACTION) as [a ->]. destruct (value_of_total m DEVNAME) as [d ->]. unfold bind at 1, ret at 1. unfold bind at 1, ret at 1.
  destruct a as [a|]; [ | by exists w]. case_bool_decide; [ | by exists w].
  destruct (search_and_close sys vid pid (Some 256) w Hf) as (w' & Hw & He). by exists w'.
Qed.

(** A socket that is opened, and closed when it cannot be bound. *)
Lemma open_spec {B} socket bound w (k : Z -> H B) : 0 <= socket -> socket ∉ fds w ->
  bind (mini_udev_uevent_open socket bound) k w =
    k socket (Devs (if bound then socket :: fds w else fds w) (dirs w) (nonblock w)).
Proof.
  intros Hs Hn. unfold mini_udev_uevent_open. destruct (Z.eqb_spec socket (-1)); [lia | ].
  destruct bound; [done | ]. unfold close_fd, bind, gets, modify, ret. cbn [fds dirs nonblock].
  rewrite bool_decide_eq_true_2 by by left. cbn [fds dirs nonblock]. by rewrite filter_head.
Qed.

(** [recv] fails for another reason than EINTR at some time. *)
Definition ends (events : list (received * system)) : bool :=
  existsb (fun ev => match ev.1 with RecvFails false => true | _ => false end) events.
(** Opening never gives a descriptor that is open. *)
Definition opens_fresh (events : list (received * system)) (l : list Z) : Prop :=
  Forall (fun ev => forall path nb, open_rdwr ev.2 path nb ∉ l) events.

(** The monitor closes its socket at the end; between messages the descriptors
    are the same. *)
Lemma monitor_keeps vid pid events fd : forall w, opens_fresh events (fds w) ->
  exists w', fds w' = fds w /\
    monitor vid pid events fd w = (if ends events then close_fd fd;; ret (Some 0) else ret None) w'.
Proof.
  induction events as [|[[[]|bs] sys] events IH]; intros w Ho; cbn [monitor ends existsb fst orb]; [by exists w | | | ];
    apply Forall_cons in Ho as [Hsys Ho].
  - by apply IH.
  - by exists w.
  - destruct (on_message_keeps sys vid pid bs w Hsys) as (w1 & H1 & Hf1).
    rewrite (ebind_done _ _ _ _ _ H1). destruct (IH w1) as (w' & Hw & E); [by rewrite Hf1 | ].
    exists w'. split; [by rewrite Hw | done].
Qed.

(** C26: Without a socket the monitor ends and nothing changed.  With a socket
    that is bound it reads whatever arrives safely and closes every device it
    opens: while it waits its socket is the only descriptor more than before,
    and when [recv] fails it ends and there is none.  With a socket that cannot
    be bound, closed at once and used all the same, it leaves no device open
    either, and is wrong exactly when [recv] fails: the descriptor is closed
    again. *)
Theorem monitor_gives_back socket bound sys events vid pid w :
  mini_udev_test (-1) bound sys events vid pid w = Done (Some 1) w /\
  (0 <= socket -> socket ∉ fds w ->
   opens_fresh ((RecvFails true, sys) :: events) (if bound then socket :: fds w else fds w) ->
   match bound, ends events with
   | true, false => exists w', mini_udev_test socket bound sys events vid pid w = Done None w' /\ fds w' = socket :: fds w
   | true, true => exists w', mini_udev_test socket bound sys events vid pid w = Done (Some 0) w' /\ fds w' = fds w
   | false, false => exists w', mini_udev_test socket bound sys events vid pid w = Done None w' /\ fds w' = fds w
   | false, true => mini_udev_test socket bound sys events vid pid w = Ub
   end).
Proof.
  split; [reflexivity | ]. intros Hs Hn Ho. apply Forall_cons in Ho as [Hsys Ho].
  unfold mini_udev_test. rewrite (open_spec socket bound w _ Hs Hn). destruct (Z.ltb_spec socket 0); [lia | ].
  set (w1 := Devs _ _ _).
  destruct (search_and_close sys vid pid (Some 256) w1 Hsys) as (w2 & H2 & E2).
  rewrite <- ebind_assoc, (ebind_done _ _ _ _ _ E2).
  destruct (monitor_keeps vid pid events socket w2) as (w3 & H3 & ->); [by rewrite H2 | ].
  rewrite H2 in H3. destruct w3 as [l d nb]. cbn [fds w1] in H3. subst l.
  destruct bound, (ends events); cbn [negb].
  - rewrite close_head by done. by eexists.
  - by eexists.
  - unfold close_fd, bind, gets. cbn [fds]. by rewrite bool_decide_false.
  - by eexists.
Qed.

(** The socket is descriptor 4; a device appears; then [recv] fails. *)
Lemma monitor_gives_back_witness : exists w',
  mini_udev_test 4 true demo_sys [(Message (message demo_strs), demo_sys); (RecvFails false, demo_sys)]
    0x1234 0x5678 (Devs [3] 0 (fun _ => false)) = Done (Some 0) w' /\ fds w' = [3].
Proof.
  refine (proj2 (monitor_gives_back 4 true demo_sys
    [(Message (message demo_strs), demo_sys); (RecvFails false, demo_sys)]
    0x1234 0x5678 (Devs [3] 0 (fun _ => false))) _ _ _); [lia | apply (bool_decide_unpack _); reflexivity | ].
  assert (Ho : forall path nb, open_rdwr demo_sys path nb ∉ [4; 3]).
  { intros path nb. apply (bool_decide_eq_false_1 (open_rdwr demo_sys path nb ∈ [4; 3])). cbn [open_rdwr demo_sys]. destruct (bool_decide (path = _)); reflexivity. }
  repeat (apply Forall_cons; split; [exact Ho | ]). by apply Forall_nil.
Defined.

(** A socket that cannot be bound is closed and used all the same: the first
    failure of recv closes it again. *)
Example unbound_socket_closed_twice : mini_udev_test 4 false demo_sys [(RecvFails false, demo_sys)] 0x1234 0x5678 (Devs [3] 0 (fun _ => false)) = Ub.
Proof. vm_compute. reflexivity. Qed.
