(* ===== verification/Epd.v ===== *)
(** Epd: the e-paper display of package/tester1: the driver epd_v21.c and the
    test of tester_spi2.cpp that draws with it.  The panel hangs on an SPI
    descriptor and three GPIO lines requested through libgpiod; what these
    answer is asked of an [env], call after call.  A write that is given bytes
    beyond the end of a buffer is [Ub]; the loops that have no bound of their own
    carry [turns]. *)

From S2P Require Import Prelude Eff.

Open Scope list_scope.
Open Scope eff_scope.

Definition EPD_WIDTH : Z := 128.
Definition EPD_HEIGHT : Z := 296.
Definition EPD_LINE_BYTES : Z := EPD_WIDTH / 8.
Definition EPD_BUFFER_SIZE : Z := EPD_LINE_BYTES * EPD_HEIGHT.
Definition EPD_GPIO_DC : Z := 10.
Definition EPD_GPIO_RST : Z := 12.
Definition EPD_GPIO_BUSY : Z := 9.

(* ------------------------------------------------------------------ *)
(** ** Images *)

Definition image : Type := list Z.

(** [memset] over the image; [None]: it is shorter. *)
Definition epd_image_clear (img : image) (white : bool) : option image :=
  if Z.of_nat (length img) <? EPD_BUFFER_SIZE then None
  else Some (replicate (Z.to_nat EPD_BUFFER_SIZE) (if white then 0xff else 0) ++ drop (Z.to_nat EPD_BUFFER_SIZE) img).

Definition epd_pixel_set (img : image) (x y : Z) (black : bool) : option image :=
  if (x <? 0) || (EPD_WIDTH <=? x) || (y <? 0) || (EPD_HEIGHT <=? y) then Some img else
  let index := y * EPD_LINE_BYTES + Z.shiftr x 3 in
  let mask := u8 (Z.shiftr 0x80 (Z.land x 7)) in
  b ← rd img index;
  upd img index (if black then Z.land b (u8 (Z.lnot mask)) else Z.lor b mask).

(** [for (v = lo; v < hi; v += step)]. *)
Definition loop (lo hi step : Z) (body : Z -> cmd image) : cmd image := for_ lo hi step body.

Definition epd_draw_checkerboard (img : image) (block_size : Z) : option image :=
  if block_size <=? 0 then Some img else
  img ← epd_image_clear img true;
  loop 0 EPD_HEIGHT 1 (fun y => loop 0 EPD_WIDTH 1 (fun x img =>
    let bx := Z.quot x block_size in
    let by_ := Z.quot y block_size in
    if Z.land (bx + by_) 1 =? 0 then Some img else epd_pixel_set img x y true)) img.

Definition epd_draw_border (img : image) : option image :=
  img ← loop 0 EPD_WIDTH 1 (fun x img =>
    img ← epd_pixel_set img x 0 true;
    epd_pixel_set img x (EPD_HEIGHT - 1) true) img;
  loop 0 EPD_HEIGHT 1 (fun y img =>
    img ← epd_pixel_set img 0 y true;
    epd_pixel_set img (EPD_WIDTH - 1) y true) img.

(** The picture of the test. *)
Definition make_test_image (img : image) : option image :=
  img ← epd_image_clear img true;
  img ← epd_draw_border img;
  img ← loop 10 (EPD_WIDTH - 10) 16 (fun x => loop 10 (EPD_HEIGHT - 10) 1 (fun y img => epd_pixel_set img x y true)) img;
  img ← loop 20 (EPD_HEIGHT - 10) 20 (fun y => loop 10 (EPD_WIDTH - 10) 1 (fun x img => epd_pixel_set img x y true)) img;
  img ← loop 100 180 1 (fun y => loop 32 96 1 (fun x img => epd_pixel_set img x y true)) img;
  loop 30 70 1 (fun y => loop 40 80 1 (fun x img => epd_pixel_set img x y true)) img.

(* ------------------------------------------------------------------ *)
(** ** The system *)

(** [write] of some bytes: how many went out; an error, EINTR or another. *)
Inductive wrote : Type := Wrote (n : nat) | Interrupted | WriteFails.

(** What libgpiod allocates for a request. *)
Inductive obj : Type := Chip | LineSettings | LineConfig | RequestConfig | Request.
#[global] Instance obj_eq_dec : EqDecision obj.
Proof. solve_decision. Defined.

(** The answers, of the call that comes after so many. *)
Record env : Type := Env {
  open_spi : Z;
  spi_ioctl : nat -> bool;
  new : nat -> obj -> bool;
  add_lines : nat -> bool;
  set_value : nat -> Z -> bool -> bool;
  get_value : nat -> Z -> option bool;
  write_spi : nat -> list Z -> wrote }.

(** What was done on the lines and the bus. *)
Inductive event : Type := Line (offset : Z) (value : bool) | Bytes (bs : list Z) | Delay (ms : Z).

(** [struct epd] and what the process holds. *)
Record world : Type := World {
  tick : nat; log : list event; spi_fd : Z; gpio_request : bool; open_fds : list Z; objs : list obj }.
Definition E (A : Type) : Type := comp world A.

Definition ask {A} (f : nat -> A) : E A := fun w =>
  Done (f (tick w)) (World (S (tick w)) (log w) (spi_fd w) (gpio_request w) (open_fds w) (objs w)).
Definition emit (ev : event) : E unit :=
  modify (fun w => World (tick w) (log w ++ [ev]) (spi_fd w) (gpio_request w) (open_fds w) (objs w)).
Definition set_spi_fd (fd : Z) : E unit :=
  modify (fun w => World (tick w) (log w) fd (gpio_request w) (open_fds w) (objs w)).
Definition set_request (r : bool) : E unit :=
  modify (fun w => World (tick w) (log w) (spi_fd w) r (open_fds w) (objs w)).
Definition set_fds (l : list Z) : E unit :=
  modify (fun w => World (tick w) (log w) (spi_fd w) (gpio_request w) l (objs w)).
Definition set_objs (l : list obj) : E unit :=
  modify (fun w => World (tick w) (log w) (spi_fd w) (gpio_request w) (open_fds w) l).

(** [if (m < 0) return -1]. *)
Definition try (m k : E Z) : E Z := do r <- m; if r <? 0 then ret (-1) else k.
Notation "m ;? k" := (try m k) (at level 100, right associativity).

Section Driver.
Context (e : env) (turns : nat) (spi_trunk : Z).

Definition delay_ms (ms : Z) : E unit := emit (Delay ms).

(** Removes one; freeing what is not there is undefined. *)
Fixpoint remove_one (o : obj) (l : list obj) : option (list obj) :=
  match l with [] => None | x :: l' => if decide (x = o) then Some l' else cons x <$> remove_one o l' end.
Definition free (o : obj) : E unit := do l <- gets objs; do l' <- need (remove_one o l); set_objs l'.
Definition create (o : obj) : E bool :=
  do ok <- ask (fun n => new e n o);
  if ok : bool then do l <- gets objs; set_objs (o :: l);; ret true else ret false.
Definition close (fd : Z) : E unit :=
  do l <- gets open_fds;
  if bool_decide (fd ∈ l) then set_fds (filter (fun x => x <> fd) l) else ub.

(** The bytes [pos, pos + n) of a buffer. *)
Definition slice (data : list Z) (pos : Z) (n : Z) : option (list Z) :=
  if (0 <=? pos) && (0 <=? n) && (pos + n <=? Z.of_nat (length data)) then Some (take (Z.to_nat n) (drop (Z.to_nat pos) data)) else None.

(** [len] bytes of an array; [pos < len] compares unsigned. *)
Fixpoint write_loop (turns : nat) (data : list Z) (len pos : Z) : E Z :=
  if negb (u64 pos <? len) then ret 0 else
  match turns with
  | O => deep
  | S turns' =>
      let trunk := if (0 <? spi_trunk) && (spi_trunk <? len) then spi_trunk else len in
      do bs <- need (slice data pos trunk);
      do n <- ask (fun t => write_spi e t bs);
      match n with
      | WriteFails => ret (-1)
      | Interrupted => write_loop turns' data len (pos - 1)
      | Wrote k => emit (Bytes (take k bs));; write_loop turns' data len (pos + Z.of_nat (Nat.min k (length bs)))
      end
  end.
Definition spi_write_bytes (data : list Z) (len : Z) : E Z :=
  if len =? 0 then ret 0 else write_loop turns data len 0.

Definition gpio_set (offset : Z) (value : bool) : E Z :=
  do r <- gets gpio_request;
  if negb r then ret (-1) else
  do ok <- ask (fun n => set_value e n offset value);
  if ok : bool then emit (Line offset value);; ret 0 else ret (-1).
(** [None]: -1. *)
Definition gpio_get (offset : Z) : E (option bool) :=
  do r <- gets gpio_request;
  if negb r then ret None else ask (fun n => get_value e n offset).

Definition epd_close : E unit :=
  do r <- gets gpio_request;
  (if r : bool then free Request else ret tt);;
  set_request false;;
  do fd <- gets spi_fd;
  (if 0 <=? fd then close fd else ret tt);;
  set_spi_fd (-1).

Definition open_fail : E Z := epd_close;; ret (-1).

(** The objects to free, and the end. *)
Fixpoint free_all (l : list obj) : E unit := match l with [] => ret tt | o :: l' => free o;; free_all l' end.

Definition epd_open : E Z :=
  set_request false;;
  set_spi_fd (-1);;
  set_spi_fd (open_spi e);;
  if open_spi e <? 0 then ret (-1) else
  do fds <- gets open_fds;
  set_fds (open_spi e :: fds);;
  do mode <- ask (spi_ioctl e);
  if negb mode then open_fail else
  do bits <- ask (spi_ioctl e);
  if negb bits then open_fail else
  do speed <- ask (spi_ioctl e);
  if negb speed then open_fail else
  do chip <- create Chip;
  if negb chip then open_fail else
  do settings <- create LineSettings;
  if negb settings then free_all [Chip];; open_fail else
  do config <- create LineConfig;
  if negb config then free_all [LineSettings; Chip];; open_fail else
  do request_config <- create RequestConfig;
  if negb request_config then free_all [LineConfig; LineSettings; Chip];; open_fail else
  do out <- ask (add_lines e);
  if negb out then free_all [LineConfig; LineSettings; RequestConfig; Chip];; open_fail else
  do inp <- ask (add_lines e);
  if negb inp then free_all [LineConfig; LineSettings; RequestConfig; Chip];; open_fail else
  do request <- create Request;
  free_all [LineConfig; LineSettings; RequestConfig; Chip];;
  if negb request then open_fail else
  set_request true;;
  ret 0.

Definition epd_command (command : Z) : E Z := gpio_set EPD_GPIO_DC false ;? spi_write_bytes [command] 1.
Definition epd_data (data : Z) : E Z := gpio_set EPD_GPIO_DC true ;? spi_write_bytes [data] 1.
Definition epd_data_buffer (data : list Z) (len : Z) : E Z := gpio_set EPD_GPIO_DC true ;? spi_write_bytes data len.

Definition epd_reset : E Z :=
  gpio_set EPD_GPIO_RST true ;?
  (delay_ms 10;; gpio_set EPD_GPIO_RST false) ;?
  (delay_ms 2;; gpio_set EPD_GPIO_RST true) ;?
  (delay_ms 10;; ret 0).

Fixpoint busy_loop (turns : nat) : E Z :=
  do b <- gpio_get EPD_GPIO_BUSY;
  match b with
  | None => ret (-1)
  | Some false => delay_ms 50;; ret 0
  | Some true => match turns with O => deep | S turns' => delay_ms 50;; busy_loop turns' end
  end.
Definition epd_wait_busy : E Z := busy_loop turns.

Definition epd_set_window (x_start y_start x_end y_end : Z) : E Z :=
  if (x_start <? 0) || (EPD_WIDTH <=? x_end) || (y_start <? 0) || (EPD_HEIGHT <=? y_end) || (x_end <? x_start) || (y_end <? y_start)
  then ret (-1) else
  let x0 := Z.land (Z.shiftr x_start 3) 0xff in
  let x1 := Z.land (Z.shiftr x_end 3) 0xff in
  epd_command 0x44 ;? epd_data x0 ;? epd_data x1 ;?
  epd_command 0x45 ;? epd_data (Z.land y_start 0xff) ;? epd_data (Z.land (Z.shiftr y_start 8) 0xff) ;?
  epd_data (Z.land y_end 0xff) ;? epd_data (Z.land (Z.shiftr y_end 8) 0xff) ;?
  ret 0.

Definition epd_set_cursor (x y : Z) : E Z :=
  epd_command 0x4e ;? epd_data (Z.land x 0xff) ;?
  epd_command 0x4f ;? epd_data (Z.land y 0xff) ;? epd_data (Z.land (Z.shiftr y 8) 0xff) ;?
  ret 0.

Definition EPD_V21_WS_20_30 : list Z :=
  [0x80; 0x66; 0; 0; 0; 0; 0; 0; 0x40; 0; 0; 0;
   0x10; 0x66; 0; 0; 0; 0; 0; 0; 0x20; 0; 0; 0;
   0x80; 0x66; 0; 0; 0; 0; 0; 0; 0x40; 0; 0; 0;
   0x10; 0x66; 0; 0; 0; 0; 0; 0; 0x20; 0; 0; 0;
   0; 0; 0; 0; 0; 0; 0; 0; 0; 0; 0; 0;
   0x14; 8; 0; 0; 0; 0; 1;
   0xA; 0xA; 0; 0xA; 0xA; 0; 1;
   0; 0; 0; 0; 0; 0; 0;
   0; 0; 0; 0; 0; 0; 0;
   0; 0; 0; 0; 0; 0; 0;
   0; 0; 0; 0; 0; 0; 0;
   0; 0; 0; 0; 0; 0; 0;
   0; 0; 0; 0; 0; 0; 0;
   0x14; 8; 0; 1; 0; 0; 1;
   0; 0; 0; 0; 0; 0; 1;
   0; 0; 0; 0; 0; 0; 0;
   0; 0; 0; 0; 0; 0; 0;
   0x44; 0x44; 0x44; 0x44; 0x44; 0x44; 0; 0; 0;
   0x22; 0x17; 0x41; 0; 0x32; 0x36].
Definition lut (i : Z) : Z := ix EPD_V21_WS_20_30 i.

(** The first bytes of the table, one by one. *)
Fixpoint lut_loop (n : nat) (i : Z) : E Z :=
  match n with O => ret 0 | S n' => spi_write_bytes [lut i] 1 ;? lut_loop n' (i + 1) end.

Definition epd_load_lut : E Z :=
  epd_command 0x32 ;?
  gpio_set EPD_GPIO_DC true ;?
  lut_loop 153 0 ;?
  epd_wait_busy ;?
  epd_command 0x3f ;? epd_data (lut 153) ;?
  epd_command 0x03 ;? epd_data (lut 154) ;?
  epd_command 0x04 ;? epd_data (lut 155) ;? epd_data (lut 156) ;? epd_data (lut 157) ;?
  epd_command 0x2c ;? epd_data (lut 158) ;?
  ret 0.

Definition epd_refresh : E Z :=
  epd_command 0x22 ;? epd_data 0xc7 ;? epd_command 0x20 ;? epd_wait_busy.

Definition epd_init : E Z :=
  epd_reset ;?
  (delay_ms 100;; epd_wait_busy) ;?
  epd_command 0x12 ;? epd_wait_busy ;?
  epd_command 0x01 ;? epd_data 0x27 ;? epd_data 0x01 ;? epd_data 0x00 ;?
  epd_command 0x11 ;? epd_data 0x03 ;?
  epd_set_window 0 0 (EPD_WIDTH - 1) (EPD_HEIGHT - 1) ;?
  epd_command 0x21 ;? epd_data 0x00 ;? epd_data 0x80 ;?
  epd_set_cursor 0 0 ;?
  epd_wait_busy ;?
  epd_load_lut ;?
  ret 0.

Definition epd_display (img : option image) : E Z :=
  match img with
  | None => ret (-1)
  | Some img => epd_command 0x24 ;? epd_data_buffer img EPD_BUFFER_SIZE ;? epd_refresh
  end.

Definition epd_display_base (img : option image) : E Z :=
  match img with
  | None => ret (-1)
  | Some img =>
      epd_command 0x24 ;? epd_data_buffer img EPD_BUFFER_SIZE ;?
      epd_command 0x26 ;? epd_data_buffer img EPD_BUFFER_SIZE ;? epd_refresh
  end.

Definition epd_clear : E Z := epd_display_base (Some (replicate (Z.to_nat EPD_BUFFER_SIZE) 0xff)).

Definition epd_sleep : E Z :=
  epd_command 0x10 ;? epd_data 0x01 ;? (delay_ms 100;; ret 0).

(** EXIT_FAILURE after closing. *)
Definition give_back (m k : E Z) : E Z := do r <- m; if r <? 0 then epd_close;; ret 1 else k.

(** The test: a white image, the picture, sleep. *)
Definition main_epd_v21_test (img : image) : E Z :=
  do r <- epd_open;
  if r <? 0 then ret 1 else
  give_back epd_init (
  do white <- need (epd_image_clear img true);
  give_back (epd_display_base (Some white)) (
  do picture <- need (make_test_image white);
  give_back (epd_display (Some picture)) (
  give_back epd_sleep (
  epd_close;;
  ret 0)))).
End Driver.
