(* ===== verification/EpdDraw.v ===== *)
(** EpdDraw: what the drawing functions of the e-paper driver paint. *)

From S2P Require Import Prelude Epd.

Open Scope list_scope.

(* ------------------------------------------------------------------ *)
(** ** Pixels *)

Definition on_panel (x y : Z) : Prop := 0 <= x < EPD_WIDTH /\ 0 <= y < EPD_HEIGHT.
(** A buffer of the size of the panel. *)
Definition wf_image (img : image) : Prop := Z.of_nat (length img) = EPD_BUFFER_SIZE /\ Forall is_u8 img.
(** White is 1 and the leftmost pixel of a byte is its highest bit. *)
Definition black_at (img : image) (x y : Z) : bool :=
  negb (Z.testbit (ix img (y * EPD_LINE_BYTES + x / 8)) (7 - x mod 8)).

(** Turns the pixels of [S] black and leaves the others. *)
Definition paints (S : Z -> Z -> Prop) (c : cmd image) : Prop := forall img, wf_image img ->
  exists img', c img = Some img' /\ wf_image img' /\
    forall x y, on_panel x y -> black_at img' x y = true <-> black_at img x y = true \/ S x y.

Definition mask (r : Z) : Z := u8 (Z.shiftr 0x80 r).

Ltac each_of r := assert (r = 0 \/ r = 1 \/ r = 2 \/ r = 3 \/ r = 4 \/ r = 5 \/ r = 6 \/ r = 7) as
  [-> | [-> | [-> | [-> | [-> | [-> | [-> | ->]]]]]]] by lia.

Lemma mask_bit r j : 0 <= r < 8 -> 0 <= j < 8 -> Z.testbit (mask r) (7 - j) = (j =? r).
Proof. intros Hr Hj. each_of r; each_of j; reflexivity. Qed.
Lemma hole_bit r j : 0 <= r < 8 -> 0 <= j < 8 -> Z.testbit (u8 (Z.lnot (mask r))) (7 - j) = negb (j =? r).
Proof. intros Hr Hj. each_of r; each_of j; reflexivity. Qed.
Lemma hole_range r : 0 <= r < 8 -> is_u8 (u8 (Z.lnot (mask r))).
Proof. intros _. apply u8_range. Qed.

Lemma land_range a b : is_u8 a -> 0 <= b -> is_u8 (Z.land a b).
Proof.
  intros Ha Hb. unfold is_u8 in *. split; [apply Z.land_nonneg; lia | ].
  destruct (decide (Z.land a b = 0)) as [-> | H0]; [lia | ].
  assert (0 <= Z.land a b) by (apply Z.land_nonneg; lia).
  change 256 with (2 ^ 8). apply Z.log2_lt_pow2; [lia | ].
  pose proof (Z.log2_land a b ltac:(lia) Hb). assert (Z.log2 a < 8); [ | lia].
  destruct (decide (a = 0)) as [-> | ]; [done | ]. apply Z.log2_lt_pow2; lia.
Qed.

Lemma index_range x y : on_panel x y -> 0 <= y * EPD_LINE_BYTES + x / 8 < EPD_BUFFER_SIZE.
Proof. unfold on_panel, EPD_BUFFER_SIZE. change EPD_LINE_BYTES with 16. change EPD_WIDTH with 128. change EPD_HEIGHT with 296. intros H. dlia. Qed.

Lemma index_inj x y x' y' :
  on_panel x y -> on_panel x' y' -> y * EPD_LINE_BYTES + x / 8 = y' * EPD_LINE_BYTES + x' / 8 -> y = y' /\ x / 8 = x' / 8.
Proof. unfold on_panel. change EPD_LINE_BYTES with 16. change EPD_WIDTH with 128. change EPD_HEIGHT with 296. intros H H' He. split; dlia. Qed.

(** Setting a pixel black. *)
Lemma paints_pixel x y : paints (fun a b => a = x /\ b = y) (fun img => epd_pixel_set img x y true).
Proof.
  intros img [Hl Hb]. unfold epd_pixel_set.
  destruct ((x <? 0) || (EPD_WIDTH <=? x) || (y <? 0) || (EPD_HEIGHT <=? y)) eqn:Hoff.
  { exists img. split; [done | split; [done | ]]. intros a b Hp. split; [by left | ]. intros [H | [-> ->]]; [done | ].
    unfold on_panel in Hp. rewrite !orb_true_iff, !Z.ltb_lt, !Z.leb_le in Hoff. lia. }
  assert (Hp : on_panel x y).
  { rewrite !orb_false_iff, !Z.ltb_ge, !Z.leb_gt in Hoff. unfold on_panel. lia. }
  rewrite shr_div by lia. change (2 ^ 3) with 8. change 7 with (Z.ones 3) at 1. rewrite land_mask by lia. change (2 ^ 3) with 8.
  fold (mask (x mod 8)). pose proof (index_range x y Hp) as Hi. set (i := y * EPD_LINE_BYTES + x / 8) in *.
  assert (Hm : 0 <= x mod 8 < 8) by (apply Z.mod_pos_bound; lia).
  rewrite rd_ix by lia. cbn [mbind option_bind]. rewrite upd_Some by lia. eexists. split; [done | ].
  assert (Hix : is_u8 (ix img i)) by (apply ix_Forall; [done | exact Hb]).
  split.
  { split; [by rewrite length_insert | ]. apply Forall_insert; [done | ]. apply land_range; [done | apply hole_range; lia]. }
  intros a b Hab. unfold black_at, ix. pose proof (index_range a b Hab) as Hj. rewrite rd_insert by lia. fold (ix img (b * EPD_LINE_BYTES + a / 8)).
  assert (Ham : 0 <= a mod 8 < 8) by (apply Z.mod_pos_bound; lia).
  case_decide as Hij.
  - destruct (index_inj x y a b Hp Hab Hij) as [<- Hx]. cbn [from_option id]. rewrite Z.land_spec, hole_bit by lia.
    rewrite <- Hij. fold i. rewrite negb_andb, negb_involutive, orb_true_iff, Z.eqb_eq.
    assert (a mod 8 = x mod 8 <-> a = x) as -> by (split; dlia). fold (ix img i). naive_solver.
  - split; [by left | intros [H | [-> ->]]; [done | by destruct Hij]].
Qed.

(* ------------------------------------------------------------------ *)
(** ** Sequences and loops *)

Lemma paints_skip (S : Z -> Z -> Prop) : (forall x y, ~ S x y) -> paints S (fun img => Some img).
Proof. intros HS img Hw. exists img. split; [done | split; [done | ]]. intros x y _. specialize (HS x y). tauto. Qed.

Lemma paints_seq S T (f g : cmd image) : paints S f -> paints T g -> paints (fun x y => S x y \/ T x y) (fun img => img' ← f img; g img').
Proof.
  intros Hf Hg img Hw. destruct (Hf img Hw) as (i1 & -> & Hw1 & H1). destruct (Hg i1 Hw1) as (i2 & H2e & Hw2 & H2).
  exists i2. split; [done | split; [done | ]]. intros x y Hp. rewrite H2, H1 by done. tauto.
Qed.

Lemma paints_iff (S T : Z -> Z -> Prop) c : paints S c -> (forall x y, on_panel x y -> S x y <-> T x y) -> paints T c.
Proof.
  intros Hc HST img Hw. destruct (Hc img Hw) as (i1 & H1e & Hw1 & H1). exists i1. split; [done | split; [done | ]].
  intros x y Hp. rewrite H1, HST by done. done.
Qed.

Lemma paints_iter (S : Z -> Z -> Z -> Prop) n lo step body :
  (forall v, paints (S v) (body v)) ->
  paints (fun x y => exists k, 0 <= k < Z.of_nat n /\ S (lo + k * step) x y) (iter_up n lo step body).
Proof.
  intros Hb. revert lo. induction n as [|n IH]; intros lo; cbn [iter_up].
  - apply paints_skip. intros x y (k & Hk & _). lia.
  - eapply paints_iff; [apply (paints_seq _ _ _ _ (Hb lo) (IH (lo + step))) | ]. intros x y _. cbv beta. split.
    + intros [H | (k & Hk & H)]; [exists 0; split; [lia | by replace (lo + 0 * step) with lo by lia] | ].
      exists (k + 1). split; [lia | ]. by replace (lo + (k + 1) * step) with (lo + step + k * step) by lia.
    + intros (k & Hk & H). destruct (decide (k = 0)) as [-> | ]; [left; by replace (lo + 0 * step) with lo in H by lia | right].
      exists (k - 1). split; [lia | ]. by replace (lo + step + (k - 1) * step) with (lo + k * step) by lia.
Qed.

Lemma paints_loop (S : Z -> Z -> Z -> Prop) lo hi step body :
  0 < step -> (forall v, paints (S v) (body v)) ->
  paints (fun x y => exists v, lo <= v < hi /\ (v - lo) mod step = 0 /\ S v x y) (loop lo hi step body).
Proof.
  intros Hs Hb. eapply paints_iff; [apply (paints_iter S (trips lo hi step) lo step body Hb) | ]. intros x y _. cbv beta. split.
  - intros (k & Hk & H). apply trips_spec in Hk; [ | done]. exists (lo + k * step). split; [nia | split; [ | done]].
    replace (lo + k * step - lo) with (k * step) by lia. by apply Z.mod_mul; lia.
  - intros (v & Hv & Hm & H). exists ((v - lo) / step). apply Z.div_exact in Hm; [ | lia].
    replace (lo + (v - lo) / step * step) with v by lia. split; [ | done]. apply trips_spec; [done | ].
    split; [apply Z.div_pos; lia | lia].
Qed.

(** With steps of one. *)
Lemma paints_loop1 (S : Z -> Z -> Z -> Prop) lo hi body :
  (forall v, paints (S v) (body v)) -> paints (fun x y => exists v, lo <= v < hi /\ S v x y) (loop lo hi 1 body).
Proof.
  intros Hb. eapply paints_iff; [apply (paints_loop S lo hi 1 body ltac:(lia) Hb) | ]. intros x y _. cbv beta. split.
  - intros (v & Hv & _ & H). eauto.
  - intros (v & Hv & H). exists v. rewrite Z.mod_1_r. auto.
Qed.

(** A rectangle, row by row or column by column. *)
Lemma paints_rows x0 x1 y0 y1 stepy :
  0 < stepy ->
  paints (fun x y => (x0 <= x < x1 /\ y0 <= y < y1) /\ (y - y0) mod stepy = 0)
    (loop y0 y1 stepy (fun y => loop x0 x1 1 (fun x img => epd_pixel_set img x y true))).
Proof.
  intros Hs. eapply paints_iff.
  - apply (paints_loop (fun v x y => exists u, x0 <= u < x1 /\ (x = u /\ y = v))); [done | ]. intros v.
    apply (paints_loop1 (fun u x y => x = u /\ y = v)). intros u. apply paints_pixel.
  - intros x y _. cbv beta. naive_solver.
Qed.
Lemma paints_columns x0 x1 y0 y1 stepx :
  0 < stepx ->
  paints (fun x y => (x0 <= x < x1 /\ y0 <= y < y1) /\ (x - x0) mod stepx = 0)
    (loop x0 x1 stepx (fun x => loop y0 y1 1 (fun y img => epd_pixel_set img x y true))).
Proof.
  intros Hs. eapply paints_iff.
  - apply (paints_loop (fun u x y => exists v, y0 <= v < y1 /\ (x = u /\ y = v))); [done | ]. intros u.
    apply (paints_loop1 (fun v x y => x = u /\ y = v)). intros v. apply paints_pixel.
  - intros x y _. cbv beta. naive_solver.
Qed.

(** A cleared image. *)
Lemma clear_spec img white :
  wf_image img -> exists img', epd_image_clear img white = Some img' /\ wf_image img' /\
    forall x y, on_panel x y -> black_at img' x y = negb white.
Proof.
  intros [Hl Hb]. unfold epd_image_clear. destruct (Z.ltb_spec (Z.of_nat (length img)) EPD_BUFFER_SIZE); [lia | ].
  rewrite drop_ge by lia. rewrite app_nil_r. eexists. split; [done | ].
  set (v := if white then 0xff else 0). assert (Hv : is_u8 v) by (unfold v, is_u8; destruct white; lia).
  assert (Hlen : Z.of_nat (length (replicate (Z.to_nat EPD_BUFFER_SIZE) v)) = EPD_BUFFER_SIZE).
  { rewrite length_replicate. unfold EPD_BUFFER_SIZE in *. lia. }
  split; [split; [done | by apply Forall_replicate] | ]. intros x y Hp. unfold black_at, ix, rd.
  pose proof (index_range x y Hp). destruct (Z.ltb_spec (y * EPD_LINE_BYTES + x / 8) 0); [lia | ].
  rewrite lookup_replicate_2 by lia. cbn [from_option id]. assert (Ham : 0 <= x mod 8 < 8) by (apply Z.mod_pos_bound; lia).
  f_equal. unfold v. destruct white; [ | apply Z.testbit_0_l]. set (r := x mod 8) in *. each_of r; reflexivity.
Qed.

(** Painting on a cleared image. *)
Lemma paints_cleared S c img :
  paints S c -> wf_image img ->
  exists img', (img1 ← epd_image_clear img true; c img1) = Some img' /\ wf_image img' /\
    forall x y, on_panel x y -> black_at img' x y = true <-> S x y.
Proof.
  intros Hc Hw. destruct (clear_spec img true Hw) as (i1 & -> & Hw1 & H1). destruct (Hc i1 Hw1) as (i2 & H2e & Hw2 & H2).
  exists i2. split; [done | split; [done | ]]. intros x y Hp. rewrite H2, H1 by done. cbn. naive_solver.
Qed.

(* ------------------------------------------------------------------ *)
(** ** Pictures *)

Definition on_border (x y : Z) : Prop := x = 0 \/ x = EPD_WIDTH - 1 \/ y = 0 \/ y = EPD_HEIGHT - 1.
(** Border, stripes in both directions and two rectangles. *)
Definition test_picture (x y : Z) : Prop :=
  on_border x y \/
  (10 <= x < EPD_WIDTH - 10 /\ 10 <= y < EPD_HEIGHT - 10 /\ (x - 10) mod 16 = 0) \/
  (10 <= x < EPD_WIDTH - 10 /\ 20 <= y < EPD_HEIGHT - 10 /\ (y - 20) mod 20 = 0) \/
  (32 <= x < 96 /\ 100 <= y < 180) \/ (40 <= x < 80 /\ 30 <= y < 70).

Lemma border_paints : paints on_border epd_draw_border.
Proof.
  unfold epd_draw_border. eapply paints_iff.
  - eapply (paints_seq _ _ (loop 0 EPD_WIDTH 1 _) (loop 0 EPD_HEIGHT 1 _)).
    + apply (paints_loop1 (fun u x y => (x = u /\ y = 0) \/ (x = u /\ y = EPD_HEIGHT - 1))). intros u.
      apply (paints_seq _ _ _ _ (paints_pixel u 0) (paints_pixel u (EPD_HEIGHT - 1))).
    + apply (paints_loop1 (fun v x y => (x = 0 /\ y = v) \/ (x = EPD_WIDTH - 1 /\ y = v))). intros v.
      apply (paints_seq _ _ _ _ (paints_pixel 0 v) (paints_pixel (EPD_WIDTH - 1) v)).
  - intros x y [Hx Hy]. unfold on_border. split; [naive_solver | ]. intros [-> | [-> | [-> | ->]]].
    + right. exists y. auto.
    + right. exists y. auto.
    + left. exists x. auto.
    + left. exists x. auto.
Qed.

Lemma test_paints :
  paints test_picture (fun img => img ← epd_draw_border img;
    img ← loop 10 (EPD_WIDTH - 10) 16 (fun x => loop 10 (EPD_HEIGHT - 10) 1 (fun y img => epd_pixel_set img x y true)) img;
    img ← loop 20 (EPD_HEIGHT - 10) 20 (fun y => loop 10 (EPD_WIDTH - 10) 1 (fun x img => epd_pixel_set img x y true)) img;
    img ← loop 100 180 1 (fun y => loop 32 96 1 (fun x img => epd_pixel_set img x y true)) img;
    loop 30 70 1 (fun y => loop 40 80 1 (fun x img => epd_pixel_set img x y true)) img).
Proof.
  eapply paints_iff.
  - refine (paints_seq _ _ _ _ border_paints _).
    refine (paints_seq _ _ _ _ (paints_columns 10 (EPD_WIDTH - 10) 10 (EPD_HEIGHT - 10) 16 ltac:(lia)) _).
    refine (paints_seq _ _ _ _ (paints_rows 10 (EPD_WIDTH - 10) 20 (EPD_HEIGHT - 10) 20 ltac:(lia)) _).
    exact (paints_seq _ _ _ _ (paints_rows 32 96 100 180 1 ltac:(lia)) (paints_rows 40 80 30 70 1 ltac:(lia))).
  - intros x y _. unfold test_picture. cbv beta. rewrite !Z.mod_1_r. tauto.
Qed.

Lemma board_paints b :
  0 < b ->
  paints (fun x y => Z.odd (x / b + y / b) = true)
    (loop 0 EPD_HEIGHT 1 (fun y => loop 0 EPD_WIDTH 1 (fun x img =>
       if Z.land (Z.quot x b + Z.quot y b) 1 =? 0 then Some img else epd_pixel_set img x y true))).
Proof.
  intros Hb. set (odd_at x y := Z.land (Z.quot x b + Z.quot y b) 1 <> 0). eapply paints_iff.
  - apply (paints_loop1 (fun v x y => exists u, 0 <= u < EPD_WIDTH /\ (odd_at u v /\ x = u /\ y = v))). intros v.
    apply (paints_loop1 (fun u x y => odd_at u v /\ x = u /\ y = v)). intros u. unfold odd_at.
    destruct (Z.eqb_spec (Z.land (Z.quot u b + Z.quot v b) 1) 0) as [H0|H0].
    + apply paints_skip. tauto.
    + eapply paints_iff; [apply paints_pixel | ]. intros x y _. cbv beta. tauto.
  - intros x y [Hx Hy]. unfold odd_at. assert (Hq : Z.land (Z.quot x b + Z.quot y b) 1 <> 0 <-> Z.odd (x / b + y / b) = true).
    { rewrite !Z.quot_div_nonneg, land1, Zmod_odd by lia. by destruct (Z.odd _). }
    rewrite <- Hq. split; [by intros (v & _ & u & _ & H & -> & ->) | ]. intros H. exists y. split; [done | ]. by exists x.
Qed.

(** C24: The drawing functions stay in the buffer of the panel and paint what they
    are for, whatever was in it: the checkerboard is black where the sum of the
    block coordinates is odd; the border blackens the outermost pixels and keeps
    the others; the test picture is a border, stripes and two rectangles. *)
Theorem pictures_drawn img block_size :
  wf_image img -> 0 < block_size ->
  (exists img', epd_draw_checkerboard img block_size = Some img' /\ wf_image img' /\
     forall x y, on_panel x y -> black_at img' x y = true <-> Z.odd (x / block_size + y / block_size) = true) /\
  (exists img', epd_draw_border img = Some img' /\ wf_image img' /\
     forall x y, on_panel x y -> black_at img' x y = true <-> black_at img x y = true \/ on_border x y) /\
  (exists img', make_test_image img = Some img' /\ wf_image img' /\
     forall x y, on_panel x y -> black_at img' x y = true <-> test_picture x y).
Proof.
  intros Hw Hb. split; [ | split].
  - unfold epd_draw_checkerboard. destruct (Z.leb_spec block_size 0); [lia | ].
    exact (paints_cleared _ _ img (board_paints block_size Hb) Hw).
  - exact (border_paints img Hw).
  - exact (paints_cleared _ _ img test_paints Hw).
Qed.

Definition blank : image := replicate (Z.to_nat EPD_BUFFER_SIZE) 0.
Lemma wf_blank : wf_image blank.
Proof. split; [unfold blank; by rewrite length_replicate | by apply Forall_replicate]. Qed.

Lemma pictures_drawn_witness :
  (exists img', epd_draw_checkerboard blank 8 = Some img' /\ wf_image img' /\
     forall x y, on_panel x y -> black_at img' x y = true <-> Z.odd (x / 8 + y / 8) = true) /\
  (exists img', epd_draw_border blank = Some img' /\ wf_image img' /\
     forall x y, on_panel x y -> black_at img' x y = true <-> black_at blank x y = true \/ on_border x y) /\
  (exists img', make_test_image blank = Some img' /\ wf_image img' /\
     forall x y, on_panel x y -> black_at img' x y = true <-> test_picture x y).
Proof. apply (pictures_drawn blank 8); [exact wf_blank | lia]. Defined.
