(* ===== verification/EpdSpec.v ===== *)
(** EpdSpec: the properties of the e-paper driver: the sequences it performs on
    the panel, how images are sent, and what it holds. *)

From S2P Require Import Prelude Eff Epd.

Open Scope list_scope.

(* ------------------------------------------------------------------ *)
(** ** Actions *)

(** Drive a line, send a byte or a buffer, pause, wait until the panel is ready. *)
Inductive action : Type := Set_ (offset : Z) (value : bool) | Send (b : Z) | SendAll (bs : list Z) | Pause (ms : Z) | Wait.

(** A write may take no byte, and polls may be needed.  A byte whose write is
    interrupted is lost and counts as sent. *)
Definition act_done (e : env) (a : action) (evs : list event) : Prop :=
  match a with
  | Set_ o v => evs = [Line o v]
  | Send b => exists k, evs = replicate k (Bytes []) ++ [Bytes [b]] \/
      evs = replicate k (Bytes []) /\ exists t, write_spi e t [b] = Interrupted
  | SendAll bs => exists chunks, evs = map Bytes chunks /\ concat chunks = bs
  | Pause ms => evs = [Delay ms]
  | Wait => exists k, evs = replicate k (Delay 50) ++ [Delay 50]
  end.
Definition act_stops (a : action) (evs : list event) : Prop :=
  match a with
  | Set_ _ _ => evs = []
  | Send _ => exists k, evs = replicate k (Bytes [])
  | SendAll bs => exists chunks rest, evs = map Bytes chunks /\ concat chunks ++ rest = bs /\ rest <> []
  | Pause _ => False
  | Wait => exists k, evs = replicate k (Delay 50)
  end.
Notation all_done e := (went_through (act_done e)).
Notation stopped e := (broke_off (act_done e) act_stops).

(** Nothing changes but the log. *)
Definition grew (w w' : world) (evs : list event) : Prop :=
  log w' = log w ++ evs /\ spi_fd w' = spi_fd w /\ gpio_request w' = gpio_request w /\
  open_fds w' = open_fds w /\ objs w' = objs w.
Lemma grew_trans w w1 w2 a b : grew w w1 a -> grew w1 w2 b -> grew w w2 (a ++ b).
Proof. unfold grew. intros (Hl & Hr) (Hl2 & Hr2). rewrite Hl2, Hl, app_assoc. intuition congruence. Qed.
Lemma grew_refl w : grew w w [].
Proof. unfold grew. by rewrite app_nil_r. Qed.

(* ------------------------------------------------------------------ *)
(** ** Sequences *)

(** Of [B + 1] calls in a row one finds the bus taking bytes, or failing, and the
    panel ready, or not answering. *)
Definition steady (e : env) (B : nat) : Prop :=
  (forall t, exists k, (k <= B)%nat /\ forall bs, bs <> [] -> write_spi e (t + k) bs <> Wrote 0) /\
  (forall t, exists k, (k <= B)%nat /\ get_value e (t + k) EPD_GPIO_BUSY <> Some true).

Section Sequences.
Context (e : env) (turns : nat) (spi_trunk : Z) (B : nat) (Hs : steady e B) (HB : (B < turns)%nat).

(** [m] performs the actions and gives 0, or stops in one of them and gives -1. *)
Definition does (m : E Z) (acts : list action) : Prop := forall w, gpio_request w = true ->
  exists r w' evs, m w = Done r w' /\ grew w w' evs /\ ((r = 0 /\ all_done e acts evs) \/ (r = -1 /\ stopped e acts evs)).

Lemma does_try m k a b : does m a -> does k b -> does (m ;? k) (a ++ b).
Proof.
  intros Hm Hk w Hw. destruct (Hm w Hw) as (r & w1 & ev1 & H1 & G1 & [[-> D1] | [-> D1]]); unfold try, bind; rewrite H1.
  - change (0 <? 0) with false. cbv iota. destruct (Hk w1) as (r & w2 & ev2 & H2 & G2 & D2).
    { destruct G1 as (_ & _ & -> & _). done. }
    exists r, w2, (ev1 ++ ev2). split; [done | split; [by eapply grew_trans | ]].
    destruct D2 as [[-> D2] | [-> D2]]; [left | right]; (split; [done | ]); [by apply through_app | by apply broke_r].
  - exists (-1), w1, ev1. split; [done | split; [done | right]]. split; [done | by apply broke_l].
Qed.

Lemma does_ret : does (ret 0) [].
Proof. intros w _. exists 0, w, []. split; [done | split; [apply grew_refl | left]]. split; [done | by exists []]. Qed.

Lemma does_pause ms k b : does k b -> does (bind (delay_ms ms) (fun _ => k)) (Pause ms :: b).
Proof.
  intros Hk w Hw. set (w1 := World (tick w) (log w ++ [Delay ms]) (spi_fd w) (gpio_request w) (open_fds w) (objs w)).
  destruct (Hk w1 Hw) as (r & w2 & ev2 & H2 & G2 & D2).
  assert (G1 : grew w w1 [Delay ms]) by done. assert (D1 : all_done e [Pause ms] [Delay ms]) by by apply through_one.
  exists r, w2, ([Delay ms] ++ ev2). split; [exact H2 | split; [by eapply grew_trans | ]].
  destruct D2 as [[-> D2] | [-> D2]]; [left | right]; (split; [done | ]);
    [by apply (through_app [_]) | by apply (broke_r [_])].
Qed.

Lemma does_set o v : does (gpio_set e o v) [Set_ o v].
Proof.
  intros w Hw. unfold gpio_set, bind, gets, ask, emit, modify, ret. rewrite Hw. cbn [negb].
  destruct (set_value e (tick w) o v); cbn [tick log spi_fd gpio_request open_fds objs]; do 2 eexists.
  - exists [Line o v]. split; [done | ]. split; [done | left]. split; [done | by apply through_one].
  - exists []. split; [done | ]. split; [unfold grew; cbn; by rewrite app_nil_r | right]. split; [done | by apply broke_here].
Qed.

Lemma write_past n data len pos : (u64 pos <? len) = false -> write_loop e spi_trunk n data len pos = ret 0.
Proof. intros H. destruct n; cbn [write_loop]; by rewrite H. Qed.

Lemma write_one n b w :
  (exists k, (k < n)%nat /\ forall bs, bs <> [] -> write_spi e (tick w + k) bs <> Wrote 0) ->
  exists r w' evs, write_loop e spi_trunk n [b] 1 0 w = Done r w' /\ grew w w' evs /\
    ((r = 0 /\ act_done e (Send b) evs) \/ (r = -1 /\ act_stops (Send b) evs)).
Proof.
  revert w. induction n as [|n IH]; intros w (k & Hk & Hw); [lia | ]. cbn [write_loop].
  change (u64 0 <? 1) with true. cbn [negb]. replace (if (0 <? spi_trunk) && (spi_trunk <? 1) then spi_trunk else 1) with 1.
  2:{ destruct (Z.ltb_spec 0 spi_trunk), (Z.ltb_spec spi_trunk 1); try done; lia. }
  change (slice [b] 0 1) with (Some [b]). unfold bind at 1, need, ret at 1. unfold bind at 1, ask at 1.
  destruct (write_spi e (tick w) [b]) as [m| |] eqn:Hwr.
  - unfold bind at 1, emit at 1, modify at 1. cbn [tick log spi_fd gpio_request open_fds objs]. destruct m as [|m].
    + destruct k as [|k]; [exfalso; apply (Hw [b]); [done | by rewrite Nat.add_0_r] | ].
      set (w1 := World _ _ _ _ _ _). destruct (IH w1) as (r & w' & evs & H1 & G1 & D1).
      { exists k. split; [lia | ]. intros bs Hbs. unfold w1. cbn [tick]. replace (S (tick w) + k)%nat with (tick w + S k)%nat by lia. by apply Hw. }
      exists r, w', ([Bytes []] ++ evs). split; [exact H1 | split; [by apply (grew_trans w w1) | ]].
      destruct D1 as [[-> (j & [-> | [-> Hi]])] | [-> (j & ->)]]; [left | left | right]; (split; [done | ]); exists (S j);
        [by left | by right | done].
    + rewrite write_past by (destruct m; reflexivity). eexists 0, _, [Bytes [b]]. split; [done | ].
      split; [unfold grew; cbn; by rewrite firstn_nil | left]. split; [done | exists 0%nat; by left].
  - rewrite write_past by reflexivity. eexists 0, _, []. split; [done | ].
    split; [unfold grew; cbn; by rewrite app_nil_r | left]. split; [done | ]. exists 0%nat. right. split; [done | by eexists].
  - eexists (-1), _, []. split; [done | ]. split; [unfold grew; cbn; by rewrite app_nil_r | right]. split; [done | by exists 0%nat].
Qed.

Lemma does_send b : does (spi_write_bytes e turns spi_trunk [b] 1) [Send b].
Proof.
  intros w _. unfold spi_write_bytes. change (1 =? 0) with false. cbv iota.
  destruct Hs as [Hp _]. destruct (Hp (tick w)) as (k & Hk & Hw).
  destruct (write_one turns b w) as (r & w' & evs & H & G & D); [exists k; split; [lia | done] | ].
  exists r, w', evs. split; [done | split; [done | ]].
  destruct D as [[-> D] | [-> D]]; [left | right]; (split; [done | ]); [by apply through_one | by apply broke_here].
Qed.

Lemma busy_waits n w :
  gpio_request w = true ->
  (exists k, (k <= n)%nat /\ get_value e (tick w + k) EPD_GPIO_BUSY <> Some true) ->
  exists r w' evs, busy_loop e n w = Done r w' /\ grew w w' evs /\
    ((r = 0 /\ act_done e Wait evs) \/ (r = -1 /\ act_stops Wait evs)).
Proof.
  revert w. induction n as [|n IH]; intros w Hr (k & Hk & Hw); cbn [busy_loop];
    unfold bind at 1, gpio_get, bind at 1, gets; rewrite Hr; cbn [negb]; unfold ask;
    destruct (get_value e (tick w) EPD_GPIO_BUSY) as [[]|] eqn:Hg.
  - replace k with 0%nat in Hw by lia. by rewrite Nat.add_0_r, Hg in Hw.
  - eexists 0, _, [Delay 50]. split; [done | ]. split; [done | left]. split; [done | by exists 0%nat].
  - eexists (-1), _, []. split; [done | ]. split; [unfold grew; cbn; by rewrite app_nil_r | right]. split; [done | by exists 0%nat].
  - destruct k as [|k]; [by rewrite Nat.add_0_r, Hg in Hw | ].
    unfold bind, delay_ms, emit, modify. cbn [tick log spi_fd gpio_request open_fds objs]. set (w1 := World _ _ _ _ _ _).
    destruct (IH w1) as (r & w' & evs & H1 & G1 & D1).
    { exact Hr. }
    { exists k. split; [lia | ]. unfold w1. cbn [tick]. by replace (S (tick w) + k)%nat with (tick w + S k)%nat by lia. }
    exists r, w', ([Delay 50] ++ evs). split; [exact H1 | split; [by apply (grew_trans w w1) | ]].
    destruct D1 as [[-> (j & ->)] | [-> (j & ->)]]; [left | right]; (split; [done | ]); by exists (S j).
  - eexists 0, _, [Delay 50]. split; [done | ]. split; [done | left]. split; [done | by exists 0%nat].
  - eexists (-1), _, []. split; [done | ]. split; [unfold grew; cbn; by rewrite app_nil_r | right]. split; [done | by exists 0%nat].
Qed.

Lemma does_wait : does (epd_wait_busy e turns) [Wait].
Proof.
  intros w Hr. destruct Hs as [_ Hb]. destruct (Hb (tick w)) as (k & Hk & Hw).
  destruct (busy_waits turns w Hr) as (r & w' & evs & H & G & D); [exists k; split; [lia | done] | ].
  exists r, w', evs. split; [done | split; [done | ]].
  destruct D as [[-> D] | [-> D]]; [left | right]; (split; [done | ]); [by apply through_one | by apply broke_here].
Qed.

(** A command and its data. *)
Definition command_acts (c : Z) : list action := [Set_ EPD_GPIO_DC false; Send c].
Definition data_acts (d : Z) : list action := [Set_ EPD_GPIO_DC true; Send d].
Definition cmd_acts (c : Z) (ds : list Z) : list action := command_acts c ++ concat (map data_acts ds).

Lemma does_command c : does (epd_command e turns spi_trunk c) (command_acts c).
Proof. apply (does_try _ _ [_] [_]); [apply does_set | apply does_send]. Qed.
Lemma does_data d : does (epd_data e turns spi_trunk d) (data_acts d).
Proof. apply (does_try _ _ [_] [_]); [apply does_set | apply does_send]. Qed.

(** The sequence of Waveshare's driver for the panel. *)
Definition reset_acts : list action :=
  [Set_ EPD_GPIO_RST true; Pause 10; Set_ EPD_GPIO_RST false; Pause 2; Set_ EPD_GPIO_RST true; Pause 10].
Definition lut_acts : list action :=
  command_acts 0x32 ++ [Set_ EPD_GPIO_DC true] ++ map Send (take 153 EPD_V21_WS_20_30) ++ [Wait] ++
  cmd_acts 0x3f [0x22] ++ cmd_acts 0x03 [0x17] ++ cmd_acts 0x04 [0x41; 0; 0x32] ++ cmd_acts 0x2c [0x36].
Definition init_acts : list action :=
  reset_acts ++ [Pause 100; Wait] ++ cmd_acts 0x12 [] ++ [Wait] ++
  cmd_acts 0x01 [0x27; 0x01; 0x00] ++ cmd_acts 0x11 [0x03] ++
  cmd_acts 0x44 [0; 15] ++ cmd_acts 0x45 [0; 0; 39; 1] ++
  cmd_acts 0x21 [0x00; 0x80] ++ cmd_acts 0x4e [0] ++ cmd_acts 0x4f [0; 0] ++ [Wait] ++ lut_acts.
Definition sleep_acts : list action := cmd_acts 0x10 [0x01] ++ [Pause 100].
Definition refresh_acts : list action := cmd_acts 0x22 [0xc7] ++ cmd_acts 0x20 [] ++ [Wait].

Lemma does_lut n i :
  (Z.to_nat i + n <= length EPD_V21_WS_20_30)%nat -> 0 <= i ->
  does (lut_loop e turns spi_trunk n i) (map Send (take n (drop (Z.to_nat i) EPD_V21_WS_20_30))).
Proof.
  revert i. induction n as [|n IH]; intros i Hl Hi; cbn [lut_loop]; [apply does_ret | ].
  destruct (drop (Z.to_nat i) EPD_V21_WS_20_30) as [|b r] eqn:Hd.
  { apply (f_equal length) in Hd. rewrite length_drop in Hd. cbn [length] in Hd. lia. }
  assert (Hr : drop (Z.to_nat (i + 1)) EPD_V21_WS_20_30 = r).
  { replace (Z.to_nat (i + 1)) with (Z.to_nat i + 1)%nat by lia. by rewrite <- drop_drop, Hd. }
  assert (Hb : lut i = b).
  { unfold lut, ix, rd. destruct (Z.ltb_spec i 0); [lia | ].
    rewrite <- (Nat.add_0_r (Z.to_nat i)), <- lookup_drop, Hd. done. }
  cbn [take map]. rewrite Hb, <- Hr. apply (does_try _ _ [_]); [apply does_send | apply IH; lia].
Qed.

(** Puts the pieces together; the actions agree by computation. *)
Ltac does_steps :=
  lazymatch goal with
  | |- does (try _ _) _ => eapply does_try; [does_steps | does_steps]
  | |- does (bind (delay_ms _) _) _ => eapply does_pause; does_steps
  | |- does (ret 0) _ => apply does_ret
  | |- does (gpio_set _ _ _) _ => apply does_set
  | |- does (epd_command _ _ _ _) _ => apply does_command
  | |- does (epd_data _ _ _ _) _ => apply does_data
  | |- does (epd_wait_busy _ _) _ => apply does_wait
  | |- does (lut_loop _ _ _ _ _) _ => apply does_lut; [cbn; lia | lia]
  | |- does ?m _ => let rec go t := match t with ?f _ => go f | _ => unfold t end in go m; does_steps
  end.
Ltac does_all := eapply (eq_ind _ (does _)); [does_steps | reflexivity].

Lemma does_reset : does (epd_reset e) reset_acts.
Proof. unfold epd_reset. does_all. Qed.
Lemma does_window : does (epd_set_window e turns spi_trunk 0 0 (EPD_WIDTH - 1) (EPD_HEIGHT - 1)) (cmd_acts 0x44 [0; 15] ++ cmd_acts 0x45 [0; 0; 39; 1]).
Proof. unfold epd_set_window. replace (_ || _) with false by reflexivity. cbv iota zeta. does_all. Qed.
Lemma does_cursor : does (epd_set_cursor e turns spi_trunk 0 0) (cmd_acts 0x4e [0] ++ cmd_acts 0x4f [0; 0]).
Proof. unfold epd_set_cursor. does_all. Qed.
Lemma does_load_lut : does (epd_load_lut e turns spi_trunk) lut_acts.
Proof. unfold epd_load_lut. does_all. Qed.
Lemma does_refresh : does (epd_refresh e turns spi_trunk) refresh_acts.
Proof. unfold epd_refresh. does_all. Qed.
Lemma does_sleep : does (epd_sleep e turns spi_trunk) sleep_acts.
Proof. unfold epd_sleep. does_all. Qed.

Lemma does_init : does (epd_init e turns spi_trunk) init_acts.
Proof.
  unfold epd_init. eapply (eq_ind _ (does _)).
  - eapply does_try; [apply does_reset | ].
    eapply does_try; [eapply does_pause, does_wait | ]. do 8 (eapply does_try; [first [apply does_command | apply does_data | apply does_wait] | ]).
    eapply does_try; [apply does_window | ]. do 3 (eapply does_try; [first [apply does_command | apply does_data] | ]).
    eapply does_try; [apply does_cursor | ]. eapply does_try; [apply does_wait | ].
    eapply does_try; [apply does_load_lut | apply does_ret].
  - reflexivity.
Qed.
End Sequences.

(* ------------------------------------------------------------------ *)
(** ** Many bytes *)

(** No write is interrupted. *)
Definition uninterrupted (e : env) : Prop := forall t bs, write_spi e t bs <> Interrupted.
(** A write takes some of its bytes and not all. *)
Definition short (e : env) (t : nat) (bs : list Z) : Prop :=
  exists n, write_spi e t bs = Wrote n /\ (0 < n < length bs)%nat.

(** The bytes of a write, the last one included. *)
Definition chunk (spi_trunk len : Z) : Z := if (0 <? spi_trunk) && (spi_trunk <? len) then spi_trunk else len.
Definition splits (spi_trunk len : Z) : bool := len mod chunk spi_trunk len =? 0.

Lemma chunk_range spi_trunk len : 0 < len -> 0 < chunk spi_trunk len <= len.
Proof. unfold chunk. intros H. destruct (Z.ltb_spec 0 spi_trunk), (Z.ltb_spec spi_trunk len); cbn [andb]; lia. Qed.

Lemma slice_spec data pos n :
  0 <= pos -> 0 <= n ->
  slice data pos n = if pos + n <=? Z.of_nat (length data) then Some (take (Z.to_nat n) (drop (Z.to_nat pos) data)) else None.
Proof. intros Hp Hn. unfold slice. rewrite (proj2 (Z.leb_le 0 pos)), (proj2 (Z.leb_le 0 n)) by done. done. Qed.

(** Where the writing of a buffer ends: all went out, a write failed after some
    went out, or one would read past the end. *)
Definition wrote_all (e : env) (spi_trunk : Z) (data : list Z) (pos : Z) (w : world) (o : out world Z) : Prop :=
  let left := Z.of_nat (length data) - pos in
  match o with
  | Done r w' => exists chunks rest, grew w w' (map Bytes chunks) /\ concat chunks ++ rest = drop (Z.to_nat pos) data /\
      ((r = 0 /\ rest = [] /\ ((forall t bs, ~ short e t bs) -> left mod chunk spi_trunk (Z.of_nat (length data)) = 0)) \/
       (r = -1 /\ rest <> []))
  | Ub => left mod chunk spi_trunk (Z.of_nat (length data)) <> 0 \/ exists t bs, short e t bs
  | _ => False
  end.

(** One write that took [bs], and then the rest. *)
Lemma wrote_more e spi_trunk data pos n bs w w1 o :
  grew w w1 [Bytes (take n bs)] -> 0 <= pos -> (exists r, bs ++ r = drop (Z.to_nat pos) data) ->
  let k := Z.of_nat (Nat.min n (length bs)) in
  (k mod chunk spi_trunk (Z.of_nat (length data)) <> 0 -> exists t bs, short e t bs) ->
  0 < chunk spi_trunk (Z.of_nat (length data)) ->
  wrote_all e spi_trunk data (pos + k) w1 o -> wrote_all e spi_trunk data pos w o.
Proof.
  intros G Hp [r Hr] k Hk Hc. unfold wrote_all. set (c := chunk _ _) in *. set (l := Z.of_nat (length data)) in *.
  assert (Hm : k mod c = 0 -> (l - pos) mod c = (l - (pos + k)) mod c).
  { intros Hz. apply Z.mod_divide in Hz as [q Hq]; [ | lia]. rewrite Hq.
    replace (l - pos) with (l - (pos + q * c) + q * c) by lia. apply Z.mod_add. lia. }
  assert (Hdrop : drop (Z.to_nat (pos + k)) data = drop (Nat.min n (length bs)) bs ++ r).
  { replace (Z.to_nat (pos + k)) with (Z.to_nat pos + Nat.min n (length bs))%nat by lia.
    rewrite <- drop_drop, <- Hr. apply drop_app_le. lia. }
  assert (Htake : take n bs = take (Nat.min n (length bs)) bs).
  { destruct (Nat.le_ge_cases n (length bs)); [by rewrite Nat.min_l | ]. rewrite Nat.min_r by done. by rewrite !take_ge. }
  destruct o as [v w'| | |]; try done.
  - intros (chunks & rest & G' & Hcat & D). exists (take n bs :: chunks), rest. split; [by apply (grew_trans w w1 w' [_]) | ].
    split. { cbn [concat]. by rewrite <- app_assoc, Hcat, Hdrop, app_assoc, Htake, take_drop. }
    destruct D as [(-> & Hrest & Hs) | D]; [left | by right]. split; [done | split; [done | ]]. intros Hn.
    destruct (decide (k mod c = 0)) as [Hz | Hz]; [rewrite Hm by done; by apply Hs | ].
    destruct (Hk Hz) as (t & bs' & H). by destruct (Hn t bs').
  - intros [Hu | Hu]; [ | by right]. destruct (decide (k mod c = 0)) as [Hz | Hz]; [left; by rewrite Hm | right; by apply Hk].
Qed.

Lemma write_all e spi_trunk B n data : steady e B -> uninterrupted e -> forall pos w,
  let len := Z.of_nat (length data) in
  0 < len < 2 ^ 63 -> 0 <= pos <= len ->
  (pos < len -> exists k, (Z.to_nat (len - pos - 1) * S B + k < n)%nat /\
     forall bs, bs <> [] -> write_spi e (tick w + k) bs <> Wrote 0) ->
  wrote_all e spi_trunk data pos w (write_loop e spi_trunk n data len pos w).
Proof.
  intros [Hprog _] Hi. induction n as [|n IH]; intros pos w len Hlen Hpos Hk; cbn [write_loop];
    pose proof (chunk_range spi_trunk len ltac:(lia)) as Hch;
    (assert (Hu : u64 pos = pos) by (unfold u64; rewrite Z.mod_small; lia)); rewrite Hu;
    destruct (Z.ltb_spec pos len) as [Hlt | Hge]; cbn [negb].
  1: destruct (Hk Hlt) as (k & Hk1 & _); lia.
  1, 3: exists [], []; split; [apply grew_refl | ]; unfold len in *; rewrite drop_ge by lia; split; [done | left];
    split; [done | split; [done | intros _; by replace (_ - pos) with 0 by lia]].
  destruct (Hk Hlt) as (k & Hk1 & Hk2). fold (chunk spi_trunk len). rewrite slice_spec by lia. fold len.
  set (c := chunk spi_trunk len) in *. set (bs := take (Z.to_nat c) (drop (Z.to_nat pos) data)).
  destruct (Z.leb_spec (pos + c) len) as [Hfit | Hover].
  2: { left. fold len c. rewrite Z.mod_small by lia. lia. }
  assert (Hbs : Z.of_nat (length bs) = c) by (unfold bs, len in *; rewrite length_take, length_drop; lia).
  assert (Hr : exists r, bs ++ r = drop (Z.to_nat pos) data) by (eexists; apply take_drop).
  assert (Hne : bs <> []) by (intros E; rewrite E in Hbs; cbn in Hbs; lia).
  unfold bind at 1, need, ret at 1. unfold bind at 1, ask at 1.
  destruct (write_spi e (tick w) bs) as [m| |] eqn:Hw; [ | by destruct (Hi _ _ Hw) | ].
  - unfold bind at 1, emit at 1, modify at 1. cbn [tick log spi_fd gpio_request open_fds objs].
    set (w1 := World _ _ _ _ _ _). set (p := Z.of_nat (Nat.min m (length bs))).
    apply (wrote_more e spi_trunk data pos m bs w w1); [done | lia | done | | fold len c; lia | ].
    + fold len c p. intros Hp. exists (tick w), bs, m. split; [done | ]. destruct (decide (0 < m < length bs)%nat) as [|Hns]; [done | ].
      destruct Hp. unfold p. destruct m as [|m]; [by rewrite Nat.min_0_l | ].
      rewrite Nat.min_r, Hbs by lia. apply Z.mod_same. lia.
    + fold p. apply IH; [done | fold len; lia | ]. fold len. intros Hlt'. unfold w1. cbn [tick].
      destruct m as [|m].
      * destruct k as [|k]; [by destruct (Hk2 bs Hne); rewrite Nat.add_0_r | ]. exists k.
        unfold p. rewrite Nat.min_0_l, Z.add_0_r. split; [lia | ].
        intros bs' H'. replace (S (tick w) + k)%nat with (tick w + S k)%nat by lia. by apply Hk2.
      * destruct (Hprog (S (tick w))) as (k' & Hk' & Hw'). exists k'. split; [ | done].
        assert (0 < p) by lia. assert (Hle : (S (Z.to_nat (len - (pos + p) - 1)) <= Z.to_nat (len - pos - 1))%nat) by lia.
        apply (Nat.mul_le_mono_r _ _ (S B)) in Hle. lia.
  - exists [], (drop (Z.to_nat pos) data). split; [unfold grew; cbn; by rewrite app_nil_r | ]. split; [done | right].
    split; [done | ]. intros E. apply (f_equal length) in E. rewrite length_drop in E. cbn [length] in E. unfold len in *. lia.
Qed.

(** Writing a buffer that has as many bytes as are written. *)
Lemma write_buffer e turns spi_trunk B data w :
  steady e B -> uninterrupted e -> 0 < Z.of_nat (length data) < 2 ^ 63 -> (length data * S B <= turns)%nat ->
  match spi_write_bytes e turns spi_trunk data (Z.of_nat (length data)) w with
  | Done r w' => exists evs, grew w w' evs /\
      ((r = 0 /\ act_done e (SendAll data) evs /\
        ((forall t bs, ~ short e t bs) -> splits spi_trunk (Z.of_nat (length data)) = true)) \/
       (r = -1 /\ act_stops (SendAll data) evs))
  | Ub => splits spi_trunk (Z.of_nat (length data)) = false \/ exists t bs, short e t bs
  | _ => False
  end.
Proof.
  intros Hs Hi Hl Ht. unfold spi_write_bytes, splits. destruct (Z.eqb_spec (Z.of_nat (length data)) 0); [lia | ].
  assert (H : wrote_all e spi_trunk data 0 w (write_loop e spi_trunk turns data (Z.of_nat (length data)) 0 w)).
  { apply (write_all e spi_trunk B turns data Hs Hi); [done | lia | ]. intros _. destruct (proj1 Hs (tick w)) as (k & Hk & Hw).
    exists k. split; [ | done]. replace (Z.to_nat _) with (length data - 1)%nat by lia.
    destruct (length data) as [|m]; [lia | ]. cbn [Nat.sub]. rewrite Nat.sub_0_r. lia. }
  revert H. unfold wrote_all. rewrite Z.sub_0_r. change (drop (Z.to_nat 0) data) with data.
  destruct (write_loop _ _ _ _ _ _ _) as [r w'| | |]; try done.
  - intros (chunks & rest & G & Hcat & D). exists (map Bytes chunks). split; [done | ].
    destruct D as [(-> & -> & Hn) | (-> & Hr)]; [left | right].
    + split; [done | ]. split; [exists chunks; by rewrite app_nil_r in Hcat | ]. intros H. by apply Z.eqb_eq, Hn.
    + split; [done | ]. by exists chunks, rest.
  - intros [H | H]; [left; by apply Z.eqb_neq | by right].
Qed.

(* ------------------------------------------------------------------ *)
(** ** The properties *)

(** C22: Initialising the panel performs the whole sequence of its manufacturer's
    driver, resets, pauses, waits, commands, data and waveform table, and gives 0,
    or stops in one of its actions, all before it done, and gives -1; it ends if
    the panel becomes ready and the bus takes bytes.  A byte whose write is
    interrupted is lost and the sequence goes on as if it were sent.  The same
    holds for putting it to sleep. *)
Theorem panel_sequences e turns spi_trunk B w :
  steady e B -> (B < turns)%nat -> gpio_request w = true ->
  (exists r w' evs, epd_init e turns spi_trunk w = Done r w' /\ grew w w' evs /\
     ((r = 0 /\ all_done e init_acts evs) \/ (r = -1 /\ stopped e init_acts evs))) /\
  (exists r w' evs, epd_sleep e turns spi_trunk w = Done r w' /\ grew w w' evs /\
     ((r = 0 /\ all_done e sleep_acts evs) \/ (r = -1 /\ stopped e sleep_acts evs))).
Proof.
  intros Hs HB Hw. split; [exact (does_init e turns spi_trunk B Hs HB w Hw) | exact (does_sleep e turns spi_trunk B Hs HB w Hw)].
Qed.

(** A system where everything works at once. *)
Definition working : env :=
  Env 3 (fun _ => true) (fun _ _ => true) (fun _ => true) (fun _ _ _ => true) (fun _ _ => Some false) (fun _ bs => Wrote (length bs)).
Definition opened : world := World 0 [] 3 true [3] [Request].

Lemma working_steady : steady working 0.
Proof.
  split; intros t; exists 0%nat; (split; [lia | ]); [ | done]. intros [|b bs] H; [by destruct H | done].
Qed.

Lemma panel_sequences_witness :
  (exists r w' evs, epd_init working 1 300 opened = Done r w' /\ grew opened w' evs /\
     ((r = 0 /\ all_done working init_acts evs) \/ (r = -1 /\ stopped working init_acts evs))) /\
  (exists r w' evs, epd_sleep working 1 300 opened = Done r w' /\ grew opened w' evs /\
     ((r = 0 /\ all_done working sleep_acts evs) \/ (r = -1 /\ stopped working sleep_acts evs))).
Proof. apply (panel_sequences working 1 300 0); [exact working_steady | lia | reflexivity]. Defined.

(** What displaying an image does. *)
Definition display_acts (img : image) : list action :=
  cmd_acts 0x24 [] ++ [Set_ EPD_GPIO_DC true; SendAll img] ++ refresh_acts.

(** C23: While no write is interrupted, and if the panel becomes ready and the bus
    takes bytes, displaying an image sends its command, its bytes, all and in
    order, and the commands that refresh the panel, and gives 0, or it stops at a
    line, a write or a wait that fails, all before it done, and gives -1, or a
    write reads past the end of the image.  That last happens only when the size
    of a write does not divide the size of the image or the bus takes a part of a
    write; and a size that does not divide it never succeeds if no write is taken
    in part, as with the 300 bytes the test program sets. *)
Theorem image_sent_or_overread e turns spi_trunk B img w :
  steady e B -> uninterrupted e ->
  Z.of_nat (length img) = EPD_BUFFER_SIZE -> (length img * S B <= turns)%nat -> gpio_request w = true ->
  match epd_display e turns spi_trunk (Some img) w with
  | Done r w' => exists evs, grew w w' evs /\
      ((r = 0 /\ all_done e (display_acts img) evs /\
        ((forall t bs, ~ short e t bs) -> splits spi_trunk EPD_BUFFER_SIZE = true)) \/
       (r = -1 /\ stopped e (display_acts img) evs))
  | Ub => splits spi_trunk EPD_BUFFER_SIZE = false \/ exists t bs, short e t bs
  | _ => False
  end.
Proof.
  intros Hs Hi Hlen Ht Hw. assert (HB : (B < turns)%nat).
  { assert (length img <> 0%nat) by (intros E; rewrite E in Hlen; done). destruct (length img); [done | ]. cbn [Nat.mul] in Ht. lia. }
  unfold epd_display, epd_data_buffer, display_acts, try at 1, bind at 1.
  destruct (does_command e turns spi_trunk B Hs HB 0x24 w Hw) as (r & w1 & a & -> & G1 & [[-> D1] | [-> D1]]); cbn [Z.ltb Z.compare].
  2:{ exists a. split; [done | right]. split; [done | by apply broke_l]. }
  assert (Hw1 : gpio_request w1 = true) by (destruct G1 as (_ & _ & -> & _); done).
  unfold try at 1, bind at 1, try at 1, bind at 1.
  destruct (does_set e EPD_GPIO_DC true w1 Hw1) as (r & w2 & b & -> & G2 & [[-> D2] | [-> D2]]); cbn [Z.ltb Z.compare].
  2:{ unfold ret. cbn [Z.ltb Z.compare]. exists (a ++ b). split; [by eapply grew_trans | right]. split; [done | ].
      apply broke_r; [done | ]. by apply (broke_l [_]). }
  assert (Hw2 : gpio_request w2 = true) by (destruct G2 as (_ & _ & -> & _); done).
  pose proof (write_buffer e turns spi_trunk B img w2 Hs Hi ltac:(rewrite Hlen; done) Ht) as Hb. rewrite Hlen in Hb.
  destruct (spi_write_bytes e turns spi_trunk img EPD_BUFFER_SIZE w2) as [r w3| | |]; try done.
  destruct Hb as (d & G3 & [(-> & D3 & Hsplit) | (-> & D3)]); cbn [Z.ltb Z.compare].
  2:{ unfold ret. exists (a ++ b ++ d). split; [eapply grew_trans; [exact G1 | by eapply grew_trans] | right]. split; [done | ].
      apply broke_r; [done | ]. apply (broke_r [_]); [done | by apply broke_here]. }
  assert (Hw3 : gpio_request w3 = true) by (destruct G3 as (_ & _ & -> & _); done).
  apply through_one in D3.
  destruct (does_refresh e turns spi_trunk B Hs HB w3 Hw3) as (r & w4 & c & -> & G4 & D4).
  exists (a ++ (b ++ d) ++ c). split.
  { eapply grew_trans; [exact G1 | ]. eapply grew_trans; [ | exact G4]. by eapply grew_trans. }
  pose proof (through_app [_] _ _ _ D2 D3) as D23.
  destruct D4 as [[-> D4] | [-> D4]]; [left | right].
  - split; [done | split; [ | done]]. apply through_app; [done | by apply through_app].
  - split; [done | ]. apply broke_r; [done | by apply broke_r].
Qed.

Definition white_image : image := replicate (Z.to_nat EPD_BUFFER_SIZE) 0xff.

Lemma image_sent_or_overread_witness :
  match epd_display working 5000 0 (Some white_image) opened with
  | Done r w' => exists evs, grew opened w' evs /\
      ((r = 0 /\ all_done working (display_acts white_image) evs /\
        ((forall t bs, ~ short working t bs) -> splits 0 EPD_BUFFER_SIZE = true)) \/
       (r = -1 /\ stopped working (display_acts white_image) evs))
  | Ub => splits 0 EPD_BUFFER_SIZE = false \/ exists t bs, short working t bs
  | _ => False
  end.
Proof.
  apply (image_sent_or_overread working 5000 0 0); [exact working_steady | done | | | reflexivity].
  - unfold white_image. by rewrite length_replicate.
  - unfold white_image. rewrite length_replicate. apply Nat.leb_le. vm_compute. reflexivity.
Defined.

(** A bus that takes all but one byte of a write: the next write reads past the
    end of the image though its size divides it. *)
Example short_write_overreads :
  epd_display (Env 3 (fun _ => true) (fun _ _ => true) (fun _ => true) (fun _ _ _ => true) (fun _ _ => Some false)
    (fun _ bs => Wrote (Nat.max 1 (length bs - 1)))) 5000 0 (Some white_image) opened = Ub.
Proof. vm_compute. reflexivity. Qed.

(** An interrupted write of the image ends it: what was sent counts as whole. *)
Example interrupted_image_counts :
  match epd_display (Env 3 (fun _ => true) (fun _ _ => true) (fun _ => true) (fun _ _ _ => true) (fun _ _ => Some false)
    (fun _ bs => if (1 <? length bs)%nat then Interrupted else Wrote (length bs))) 5000 0 (Some white_image) opened with
  | Done r w' => r = 0 /\ forallb (fun ev => match ev with Bytes bs => (length bs <=? 1)%nat | _ => true end) (log w') = true
  | _ => False
  end.
Proof. vm_compute. split; reflexivity. Qed.

(** The test program. *)
Example test_program_overreads : epd_display working 20 300 (Some (replicate (Z.to_nat EPD_BUFFER_SIZE) 0xff)) opened = Ub.
Proof. vm_compute. reflexivity. Qed.

Lemma free_spec o t l fd r F O :
  free o (World t l fd r F O) = match remove_one o O with Some O' => Done tt (World t l fd r F O') | None => Ub end.
Proof. unfold free, bind, gets, need, set_objs, modify, ret. cbn [objs]. by destruct (remove_one o O). Qed.
Lemma remove_head o O : remove_one o (o :: O) = Some O.
Proof. cbn [remove_one]. by rewrite decide_True. Qed.
Lemma remove_tail o x O : x <> o -> remove_one o (x :: O) = cons x <$> remove_one o O.
Proof. intros H. cbn [remove_one]. by rewrite decide_False. Qed.

Lemma close_spec t l fd r F O :
  0 <= fd -> fd ∉ F ->
  epd_close (World t l fd r (fd :: F) (if r then Request :: O else O)) = Done tt (World t l (-1) false F O).
Proof.
  intros H0 Hf. unfold epd_close, bind at 1, gets at 1. cbn [gpio_request].
  rewrite (ebind_done _ _ _ tt (World t l fd r (fd :: F) O)) by (destruct r; [by rewrite free_spec, remove_head | done]).
  unfold bind, set_request, modify, gets. cbn [spi_fd tick log gpio_request open_fds objs].
  rewrite (proj2 (Z.leb_le 0 fd) H0). unfold close, bind, gets. cbn [open_fds]. rewrite bool_decide_eq_true_2 by by left.
  unfold set_fds, set_spi_fd, modify. cbn [spi_fd tick log gpio_request open_fds objs].
  rewrite filter_cons_False by naive_solver. by rewrite filter_ne_id.
Qed.

(** What is created and freed. *)
Lemma create_spec e o t l fd r F O :
  create e o (World t l fd r F O) = if new e t o then Done true (World (S t) l fd r F (o :: O)) else Done false (World (S t) l fd r F O).
Proof. unfold create, ask, bind, gets, set_objs, modify, ret. cbn. by destruct (new e t o). Qed.

Ltac run_frees :=
  cbn [free_all]; unfold bind; rewrite ?free_spec; repeat (first [rewrite remove_head | rewrite remove_tail by done];
    cbn [fmap option_fmap option_map]; rewrite ?free_spec).

(** C: Opening the device keeps nothing of what it took when it fails, at whichever
    step, and keeps the descriptor and the line request when it succeeds; closing
    gives these back. *)
Theorem device_given_back e w :
  open_spi e ∉ open_fds w ->
  exists r w', epd_open e w = Done r w' /\ log w' = log w /\
    ((r = -1 /\ objs w' = objs w /\ open_fds w' = open_fds w /\ gpio_request w' = false /\ spi_fd w' < 0) \/
     (r = 0 /\ objs w' = Request :: objs w /\ open_fds w' = open_spi e :: open_fds w /\ gpio_request w' = true /\
      exists w'', epd_close w' = Done tt w'' /\ objs w'' = objs w /\ open_fds w'' = open_fds w /\
        gpio_request w'' = false /\ spi_fd w'' < 0)).
Proof.
  intros Hf. destruct w as [t l fd0 r0 F O]. cbn [open_fds objs log] in *. unfold epd_open.
  unfold set_request at 1, bind at 1, modify at 1. unfold set_spi_fd at 1, bind at 1, modify at 1. unfold set_spi_fd at 1, bind at 1, modify at 1.
  destruct (Z.ltb_spec (open_spi e) 0) as [Hneg | Hfd].
  { eexists (-1), _. split; [done | ]. split; [done | left]. repeat split_and; try done; lia. }
  unfold bind at 1, gets at 1. unfold bind at 1, set_fds at 1, modify at 1. cbn [tick log spi_fd gpio_request open_fds objs].
  set (fd := open_spi e) in *.
  assert (Hfail : forall t', exists w', open_fail (World t' l fd false (fd :: F) O) = Done (-1) w' /\ log w' = l /\
     objs w' = O /\ open_fds w' = F /\ gpio_request w' = false /\ spi_fd w' < 0).
  { intros t'. unfold open_fail, bind. rewrite (close_spec t' l fd false F O Hfd Hf). eexists. split; [done | ]. by repeat split_and. }
  assert (Hdone : forall t' (Q : Z -> world -> Prop), exists r w', open_fail (World t' l fd false (fd :: F) O) = Done r w' /\ log w' = l /\
     ((r = -1 /\ objs w' = O /\ open_fds w' = F /\ gpio_request w' = false /\ spi_fd w' < 0) \/ Q r w')).
  { intros t' Q. destruct (Hfail t') as (w' & H1 & H2 & H3). exists (-1), w'. split; [done | split; [done | by left]]. }
  set (kept := fun (r : Z) (w' : world) => r = 0 /\ objs w' = Request :: O /\ open_fds w' = fd :: F /\ gpio_request w' = true /\
      exists w'', epd_close w' = Done tt w'' /\ objs w'' = O /\ open_fds w'' = F /\ gpio_request w'' = false /\ spi_fd w'' < 0).
  unfold bind at 1, ask at 1. cbn [tick log spi_fd gpio_request open_fds objs]. destruct (spi_ioctl e t); cbn [negb]; [ | apply (Hdone _ kept)].
  unfold bind at 1, ask at 1. cbn [tick log spi_fd gpio_request open_fds objs]. destruct (spi_ioctl e (S t)); cbn [negb]; [ | apply (Hdone _ kept)].
  unfold bind at 1, ask at 1. cbn [tick log spi_fd gpio_request open_fds objs]. destruct (spi_ioctl e (S (S t))); cbn [negb]; [ | apply (Hdone _ kept)].
  unfold bind at 1. rewrite create_spec. destruct (new e _ Chip); cbn [negb]; [ | apply (Hdone _ kept)].
  unfold bind at 1. rewrite create_spec. destruct (new e _ LineSettings); cbn [negb]; [ | run_frees; apply (Hdone _ kept)].
  unfold bind at 1. rewrite create_spec. destruct (new e _ LineConfig); cbn [negb]; [ | run_frees; apply (Hdone _ kept)].
  unfold bind at 1. rewrite create_spec. destruct (new e _ RequestConfig); cbn [negb]; [ | run_frees; apply (Hdone _ kept)].
  unfold bind at 1, ask at 1. cbn [tick log spi_fd gpio_request open_fds objs]. destruct (add_lines e _); cbn [negb]; [ | run_frees; apply (Hdone _ kept)].
  unfold bind at 1, ask at 1. cbn [tick log spi_fd gpio_request open_fds objs]. destruct (add_lines e _); cbn [negb]; [ | run_frees; apply (Hdone _ kept)].
  unfold bind at 1. rewrite create_spec. destruct (new e _ Request); run_frees; cbn [negb]; [ | apply (Hdone _ kept)].
  unfold set_request, modify, ret. cbn [tick log spi_fd gpio_request open_fds objs]. eexists 0, _. split; [done | ]. split; [done | right].
  repeat split_and; try done. eexists. split; [apply (close_spec _ l fd true F O Hfd Hf) | ]. by repeat split_and.
Qed.

Lemma device_given_back_witness :
  exists r w', epd_open working (World 0 [] 0 false [1; 2] []) = Done r w' /\ log w' = [] /\
    ((r = -1 /\ objs w' = [] /\ open_fds w' = [1; 2] /\ gpio_request w' = false /\ spi_fd w' < 0) \/
     (r = 0 /\ objs w' = [Request] /\ open_fds w' = [3; 1; 2] /\ gpio_request w' = true /\
      exists w'', epd_close w' = Done tt w'' /\ objs w'' = [] /\ open_fds w'' = [1; 2] /\
        gpio_request w'' = false /\ spi_fd w'' < 0)).
Proof.
  apply (device_given_back working (World 0 [] 0 false [1; 2] [])). apply (bool_decide_eq_false_1 (3 ∈ [1; 2])). vm_compute. reflexivity.
Defined.
