(* ===== verification/TailQ.v ===== *)
(** TailQ: the tail queues of include/aloe/compat/openbsd/sys/queue.h, on which
    ev.c keeps its events, as they stand in memory: a pointer is where it is
    stored, in a head or behind an element, and an element knows where the pointer
    to it is.  A pointer read or written where nothing is allocated is [Ub].  Then
    the list that a queue is, and what the operations do to it. *)

From stdpp Require Import gmap.
From S2P Require Import Prelude Eff.

Open Scope list_scope.
Open Scope eff_scope.

(** Addresses of elements; 0 is NULL.  [First h]: [&h->tqh_first]; [Next a]:
    [&a->field.tqe_next]. *)
Inductive loc : Type := First (h : Z) | Next (a : Z).
#[global] Instance loc_eq_dec : EqDecision loc.
Proof. solve_decision. Defined.
#[global] Instance loc_countable : Countable loc.
Proof.
  refine (inj_countable (fun l => match l with First h => inl h | Next a => inr a end)
    (fun s => Some (match s with inl h => First h | inr a => Next a end)) _). by intros [].
Defined.

(** The pointers to elements, [tqe_prev] of the elements and [tqh_last] of the
    heads. *)
Record qmem : Type := Qmem { ptrs : gmap loc Z; prevs : gmap Z loc; lasts : gmap Z loc }.
Definition Q (A : Type) : Type := comp qmem A.

Definition load (l : loc) : Q Z := do m <- gets ptrs; need (m !! l).
Definition store (l : loc) (v : Z) : Q unit :=
  do m <- gets ptrs;
  do _ <- need (m !! l);
  modify (fun w => Qmem (<[l := v]> (ptrs w)) (prevs w) (lasts w)).
Definition prev (a : Z) : Q loc := do m <- gets prevs; need (m !! a).
Definition set_prev (a : Z) (l : loc) : Q unit :=
  do m <- gets prevs;
  do _ <- need (m !! a);
  modify (fun w => Qmem (ptrs w) (<[a := l]> (prevs w)) (lasts w)).
Definition last (h : Z) : Q loc := do m <- gets lasts; need (m !! h).
Definition set_last (h : Z) (l : loc) : Q unit :=
  do m <- gets lasts;
  do _ <- need (m !! h);
  modify (fun w => Qmem (ptrs w) (prevs w) (<[h := l]> (lasts w))).

Definition TAILQ_FIRST (h : Z) : Q Z := load (First h).
Definition TAILQ_NEXT (elm : Z) : Q Z := load (Next elm).
Definition TAILQ_EMPTY (h : Z) : Q bool := do f <- TAILQ_FIRST h; ret (f =? 0).

(** What stands after a pointer: a head is laid out as an entry, so the cast of
    [tqh_last] to a head reads [tqh_last] of a head and [tqe_prev] of an entry. *)
Definition behind (l : loc) : Q loc := match l with First h => last h | Next a => prev a end.
Definition TAILQ_LAST (h : Z) : Q Z := do l <- last h; do l' <- behind l; load l'.
Definition TAILQ_PREV (elm : Z) : Q Z := do l <- prev elm; do l' <- behind l; load l'.

Definition TAILQ_INIT (h : Z) : Q unit := store (First h) 0;; set_last h (First h).

Definition TAILQ_INSERT_HEAD (h elm : Z) : Q unit :=
  do f <- load (First h);
  store (Next elm) f;;
  (if negb (f =? 0) then do f <- load (First h); set_prev f (Next elm) else set_last h (Next elm));;
  store (First h) elm;;
  set_prev elm (First h).

Definition TAILQ_INSERT_TAIL (h elm : Z) : Q unit :=
  store (Next elm) 0;;
  do l <- last h;
  set_prev elm l;;
  do l <- last h;
  store l elm;;
  set_last h (Next elm).

Definition TAILQ_INSERT_AFTER (h listelm elm : Z) : Q unit :=
  do n <- load (Next listelm);
  store (Next elm) n;;
  (if negb (n =? 0) then do n <- load (Next elm); set_prev n (Next elm) else set_last h (Next elm));;
  store (Next listelm) elm;;
  set_prev elm (Next listelm).

Definition TAILQ_INSERT_BEFORE (listelm elm : Z) : Q unit :=
  do p <- prev listelm;
  set_prev elm p;;
  store (Next elm) listelm;;
  do p <- prev listelm;
  store p elm;;
  set_prev listelm (Next elm).

Definition TAILQ_REMOVE (h elm : Z) : Q unit :=
  do n <- load (Next elm);
  (if negb (n =? 0) then do n <- load (Next elm); do p <- prev elm; set_prev n p
   else do p <- prev elm; set_last h p);;
  do p <- prev elm;
  do n <- load (Next elm);
  store p n.

Definition TAILQ_REPLACE (h elm elm2 : Z) : Q unit :=
  do n <- load (Next elm);
  store (Next elm2) n;;
  (if negb (n =? 0) then do n <- load (Next elm2); set_prev n (Next elm2) else set_last h (Next elm2));;
  do p <- prev elm;
  set_prev elm2 p;;
  do p <- prev elm2;
  store p elm2.

Definition TAILQ_CONCAT (head1 head2 : Z) : Q unit :=
  do e <- TAILQ_EMPTY head2;
  if e : bool then ret tt else
  do f <- load (First head2);
  do l <- last head1;
  store l f;;
  do f <- load (First head2);
  do l <- last head1;
  set_prev f l;;
  do l <- last head2;
  set_last head1 l;;
  TAILQ_INIT head2.

(** The elements a loop visits; [fuel] bounds its turns. *)
Fixpoint foreach (fuel : nat) (next : Z -> Q Z) (var : Z) : Q (list Z) :=
  if var =? 0 then ret [] else
  match fuel with
  | O => deep
  | S fuel' => do n <- next var; do rest <- foreach fuel' next n; ret (var :: rest)
  end.
(** There are no more elements than entries in memory. *)
Definition entries : Q nat := do m <- gets prevs; ret (size m).
Definition TAILQ_FOREACH (h : Z) : Q (list Z) := do n <- entries; do v <- TAILQ_FIRST h; foreach n TAILQ_NEXT v.
Definition TAILQ_FOREACH_REVERSE (h : Z) : Q (list Z) := do n <- entries; do v <- TAILQ_LAST h; foreach n TAILQ_PREV v.

(** The _SAFE loops, with a body that may unlink the element: the one after
    it is read before. *)
Fixpoint foreach_safe (fuel : nat) (next : Z -> Q Z) (body : Z -> Q unit) (var : Z) : Q (list Z) :=
  if var =? 0 then ret [] else
  match fuel with
  | O => deep
  | S fuel' => do tvar <- next var; body var;; do rest <- foreach_safe fuel' next body tvar; ret (var :: rest)
  end.
Definition TAILQ_FOREACH_SAFE (h : Z) (body : Z -> Q unit) : Q (list Z) :=
  do n <- entries; do v <- TAILQ_FIRST h; foreach_safe n TAILQ_NEXT body v.
Definition TAILQ_FOREACH_REVERSE_SAFE (h : Z) (body : Z -> Q unit) : Q (list Z) :=
  do n <- entries; do v <- TAILQ_LAST h; foreach_safe n TAILQ_PREV body v.

(* ------------------------------------------------------------------ *)
(** ** Segments *)

(** From the pointer at [p] the elements of [l] follow each other, each knowing
    where the pointer to it is; the pointer at the end is at [q] and is [n]. *)
Fixpoint seg (m : qmem) (p : loc) (l : list Z) (q : loc) (n : Z) : Prop :=
  match l with
  | [] => q = p /\ ptrs m !! p = Some n
  | a :: l' => a <> 0 /\ ptrs m !! p = Some a /\ prevs m !! a = Some p /\ seg m (Next a) l' q n
  end.
(** The pointers of a segment. *)
Definition cells (p : loc) (l : list Z) : list loc := p :: map Next l.
(** What the pointer at the start is. *)
Definition first_of (l : list Z) (n : Z) : Z := match l with [] => n | a :: _ => a end.

(** A queue. *)
Definition rep (m : qmem) (h : Z) (l : list Z) : Prop := exists q, lasts m !! h = Some q /\ seg m (First h) l q 0.

Lemma seg_app m p l1 l2 q n : seg m p (l1 ++ l2) q n <-> exists r, seg m p l1 r (first_of l2 n) /\ seg m r l2 q n.
Proof.
  revert p. induction l1 as [|a l1 IH]; intros p; cbn [app seg].
  - split.
    + intros H. exists p. split; [ | done]. split; [done | ]. destruct l2; [apply H | apply H].
    + by intros (r & (-> & _) & H).
  - rewrite IH. naive_solver.
Qed.

Lemma seg_first m p l q n : seg m p l q n -> ptrs m !! p = Some (first_of l n).
Proof. destruct l; cbn; tauto. Qed.
Lemma seg_end m p l q n : seg m p l q n -> ptrs m !! q = Some n /\ q ∈ cells p l.
Proof.
  unfold cells. revert p. induction l as [|a l IH]; intros p; cbn [seg map].
  - intros [-> H]. split; [done | by left].
  - intros (_ & _ & _ & H). destruct (IH _ H) as [He Hin]. split; [done | by right].
Qed.
Lemma seg_nonzero m p l q n a : seg m p l q n -> a ∈ l -> a <> 0 /\ is_Some (prevs m !! a) /\ is_Some (ptrs m !! Next a).
Proof.
  revert p. induction l as [|b l IH]; intros p H Ha; [by apply not_elem_of_nil in Ha | ]. destruct H as (H0 & _ & Hp & H).
  apply elem_of_cons in Ha as [-> | Ha]; [ | by eapply IH].
  split; [done | split; [by eexists | ]]. rewrite (seg_first _ _ _ _ _ H). by eexists.
Qed.

(** Only the pointers of a segment and what its elements know matter, and the
    last pointer can be another. *)
Lemma seg_agree m m' p l q n n' :
  seg m p l q n -> NoDup (cells p l) ->
  (forall x, x ∈ cells p l -> x <> q -> ptrs m' !! x = ptrs m !! x) ->
  (forall a, a ∈ l -> prevs m' !! a = prevs m !! a) ->
  ptrs m' !! q = Some n' -> seg m' p l q n'.
Proof.
  revert p. induction l as [|a l IH]; intros p; cbn [seg]; intros H Hnd Hp Hv Hq.
  - destruct H as [-> _]. done.
  - destruct H as (H0 & Ha & Hpa & H). unfold cells in *. cbn [map] in *. apply NoDup_cons in Hnd as [Hnp Hnd].
    destruct (seg_end _ _ _ _ _ H) as [_ Hin]. split; [done | ]. split; [ | split].
    + rewrite Hp; [done | by left | ]. intros ->. by apply Hnp.
    + rewrite Hv; [done | by left].
    + apply IH; [done | done | | | done]; intros; [apply Hp | apply Hv]; try done; by right.
Qed.
Lemma seg_same m m' p l q n :
  seg m p l q n -> NoDup (cells p l) ->
  (forall x, x ∈ cells p l -> ptrs m' !! x = ptrs m !! x) -> (forall a, a ∈ l -> prevs m' !! a = prevs m !! a) ->
  seg m' p l q n.
Proof.
  intros H Hnd Hp Hv. apply (seg_agree m _ _ _ _ n); try done; [intros; by apply Hp | ].
  destruct (seg_end _ _ _ _ _ H) as [He Hin]. by rewrite Hp.
Qed.

(** A segment that starts at another pointer. *)
Lemma seg_start m m' r r' l q n :
  seg m r l q n -> NoDup l ->
  ptrs m' !! r' = Some (first_of l n) ->
  (forall a, a ∈ l -> ptrs m' !! Next a = ptrs m !! Next a) ->
  (forall a, head l = Some a -> prevs m' !! a = Some r') ->
  (forall a, a ∈ l -> head l <> Some a -> prevs m' !! a = prevs m !! a) ->
  seg m' r' l (match l with [] => r' | _ => q end) n.
Proof.
  destruct l as [|a l]; cbn [seg]; [by intros | ]. intros (H0 & _ & _ & H) Hnd Hr Hp Hh Hv.
  apply NoDup_cons in Hnd as [Hna Hnd]. split; [done | split; [done | split; [by apply Hh | ]]].
  assert (Hcells : NoDup (cells (Next a) l)).
  { unfold cells. apply NoDup_cons. split.
    - intros Hin. apply list_elem_of_fmap in Hin as (b & [= ->] & Hb). done.
    - apply NoDup_fmap_2; [by intros ? ? [=] | done]. }
  apply (seg_same m); [done | done | | ].
  - intros x Hx. unfold cells in Hx. apply elem_of_cons in Hx as [-> | Hx]; [apply Hp; by left | ].
    apply list_elem_of_fmap in Hx as (b & -> & Hb). apply Hp. by right.
  - intros b Hb. apply Hv; [by right | ]. intros [= ->]. done.
Qed.

(** What stands between two segments is replaced. *)
Lemma splice m m' p l1 q1 x r l2 q n mid r' :
  seg m p l1 q1 x -> seg m r l2 q n -> NoDup (cells p l1) -> NoDup l2 ->
  seg m' q1 mid r' (first_of l2 n) ->
  (forall y, y ∈ cells p l1 -> y <> q1 -> ptrs m' !! y = ptrs m !! y) ->
  (forall a, a ∈ l1 -> prevs m' !! a = prevs m !! a) ->
  (forall a, a ∈ l2 -> ptrs m' !! Next a = ptrs m !! Next a) ->
  (forall a, head l2 = Some a -> prevs m' !! a = Some r') ->
  (forall a, a ∈ l2 -> head l2 <> Some a -> prevs m' !! a = prevs m !! a) ->
  seg m' p (l1 ++ mid ++ l2) (match l2 with [] => r' | _ => q end) n.
Proof.
  intros H1 H2 Hn1 Hn2 Hmid Hp1 Hv1 Hp2 Hh2 Hv2. apply seg_app. exists q1. split.
  - eapply seg_agree; try done. rewrite (seg_first _ _ _ _ _ Hmid). by destruct mid.
  - apply seg_app. exists r'. split; [done | ]. eapply seg_start; try done. apply seg_end in Hmid. apply Hmid.
Qed.

(* ------------------------------------------------------------------ *)
(** ** Rules *)

Open Scope eff_scope.

Lemma wp_load l v w (P : Z -> qmem -> Prop) : ptrs w !! l = Some v -> P v w -> wp (load l) w P.
Proof. intros Hl HP. unfold load. ewp_pure. by eapply wp_need. Qed.
Lemma wp_prev a v w (P : loc -> qmem -> Prop) : prevs w !! a = Some v -> P v w -> wp (prev a) w P.
Proof. intros Hl HP. unfold prev. ewp_pure. by eapply wp_need. Qed.
Lemma wp_last a v w (P : loc -> qmem -> Prop) : lasts w !! a = Some v -> P v w -> wp (last a) w P.
Proof. intros Hl HP. unfold last. ewp_pure. by eapply wp_need. Qed.
Lemma wp_store l v w (P : unit -> qmem -> Prop) :
  is_Some (ptrs w !! l) -> P tt (Qmem (<[l := v]> (ptrs w)) (prevs w) (lasts w)) -> wp (store l v) w P.
Proof. intros [x Hl] HP. unfold store. ewp_pure. apply ewp_bind. eapply wp_need; [done | ]. by apply ewp_modify. Qed.
Lemma wp_set_prev a v w (P : unit -> qmem -> Prop) :
  is_Some (prevs w !! a) -> P tt (Qmem (ptrs w) (<[a := v]> (prevs w)) (lasts w)) -> wp (set_prev a v) w P.
Proof. intros [x Hl] HP. unfold set_prev. ewp_pure. apply ewp_bind. eapply wp_need; [done | ]. by apply ewp_modify. Qed.
Lemma wp_set_last a v w (P : unit -> qmem -> Prop) :
  is_Some (lasts w !! a) -> P tt (Qmem (ptrs w) (prevs w) (<[a := v]> (lasts w))) -> wp (set_last a v) w P.
Proof. intros [x Hl] HP. unfold set_last. ewp_pure. apply ewp_bind. eapply wp_need; [done | ]. by apply ewp_modify. Qed.

(** What stays allocated. *)
Lemma still_there {K} `{Countable K} {A} (m : gmap K A) i j (x : A) : is_Some (m !! j) -> is_Some (<[i := x]> m !! j).
Proof. intros Hm. destruct (decide (i = j)) as [-> | Hn]; [rewrite lookup_insert_eq; by eexists | by rewrite lookup_insert_ne]. Qed.

(** Lookups in maps that were written to. *)
Ltac at_map :=
  cbn [ptrs prevs lasts]; repeat first [rewrite lookup_insert_eq | rewrite lookup_insert_ne by congruence]; try (eassumption || done).
Ltac there := cbn [ptrs prevs lasts]; repeat apply still_there; try (eassumption || by eexists).
Ltac qstep :=
  lazymatch goal with
  | |- wp (bind (bind _ _) _) _ _ => apply ewp_bind
  | |- wp (bind (load _) _) _ _ => apply ewp_bind; eapply wp_load; [at_map | ]
  | |- wp (bind (prev _) _) _ _ => apply ewp_bind; eapply wp_prev; [at_map | ]
  | |- wp (bind (last _) _) _ _ => apply ewp_bind; eapply wp_last; [at_map | ]
  | |- wp (bind (store _ _) _) _ _ => apply ewp_bind; apply wp_store; [there | ]
  | |- wp (bind (set_prev _ _) _) _ _ => apply ewp_bind; apply wp_set_prev; [there | ]
  | |- wp (bind (set_last _ _) _) _ _ => apply ewp_bind; apply wp_set_last; [there | ]
  | |- wp (store _ _) _ _ => apply wp_store; [there | ]
  | |- wp (set_prev _ _) _ _ => apply wp_set_prev; [there | ]
  | |- wp (set_last _ _) _ _ => apply wp_set_last; [there | ]
  end; cbv beta.

(** Nothing outside of some heads and elements changed, and all that was
    allocated still is. *)
Record touched (hs els : list Z) (m m' : qmem) : Prop := Touched {
  t_ptrs x : (forall h, h ∈ hs -> x <> First h) -> (forall a, a ∈ els -> x <> Next a) -> ptrs m' !! x = ptrs m !! x;
  t_prevs a : a ∉ els -> prevs m' !! a = prevs m !! a;
  t_lasts h : h ∉ hs -> lasts m' !! h = lasts m !! h;
  t_is_ptr x : is_Some (ptrs m !! x) -> is_Some (ptrs m' !! x);
  t_is_prev a : is_Some (prevs m !! a) -> is_Some (prevs m' !! a);
  t_is_last h : is_Some (lasts m !! h) -> is_Some (lasts m' !! h);
}.

Lemma touched_trans hs1 els1 hs2 els2 m m1 m2 :
  touched hs1 els1 m m1 -> touched hs2 els2 m1 m2 -> touched (hs1 ++ hs2) (els1 ++ els2) m m2.
Proof.
  intros [P1 V1 L1 p1 v1 l1] [P2 V2 L2 p2 v2 l2]. split; [ | | | auto | auto | auto].
  - intros x Hh Ha. rewrite P2, P1; [done | | | | ]; intros; (apply Hh || apply Ha); apply elem_of_app; auto.
  - intros a Ha. rewrite elem_of_app in Ha. rewrite V2, V1; tauto.
  - intros h Hh. rewrite elem_of_app in Hh. rewrite L2, L1; tauto.
Qed.
(** One after the other, on the same. *)
Lemma touched_same hs els m m1 m2 : touched hs els m m1 -> touched hs els m1 m2 -> touched hs els m m2.
Proof.
  intros T1 T2. pose proof (touched_trans _ _ _ _ _ _ _ T1 T2) as [P V L p v l].
  split; try done; intros; [apply P | apply V | apply L]; set_solver.
Qed.
Lemma touched_more hs els els' m m' : els ⊆ els' -> touched hs els m m' -> touched hs els' m m'.
Proof.
  intros Hs [P V L p v l]. split; try done; [intros; apply P; auto | intros a Ha; apply V; auto].
Qed.

Lemma cells_nodup p l : (forall a, a ∈ l -> p <> Next a) -> NoDup l -> NoDup (cells p l).
Proof.
  intros Hp Hn. unfold cells. apply NoDup_cons. split.
  - intros Hin. apply list_elem_of_fmap in Hin as (b & -> & Hb). by eapply Hp.
  - apply NoDup_fmap_2; [by intros ? ? [=] | done].
Qed.
Lemma cells_in y p l : y ∈ cells p l -> y = p \/ exists a, y = Next a /\ a ∈ l.
Proof. intros H. unfold cells in H. apply elem_of_cons in H as [-> | H]; [by left | right]. by apply list_elem_of_fmap in H. Qed.

(** Another queue stays what it is. *)
Lemma touched_rep hs els m m' h l :
  touched hs els m m' -> rep m h l -> NoDup l -> h ∉ hs -> (forall a, a ∈ l -> a ∉ els) -> rep m' h l.
Proof.
  intros T (q & Hl & Hs) Hn Hh Hd. exists q. split; [by rewrite (t_lasts _ _ _ _ T) | ].
  apply (seg_same m); [done | by apply cells_nodup | | ].
  - intros x Hx. apply cells_in in Hx as [-> | (a & -> & Ha)]; apply (t_ptrs _ _ _ _ T); try done.
    + by intros h' Hh' [= <-].
    + intros b Hb [= <-]. by apply (Hd a).
  - intros a Ha. apply (t_prevs _ _ _ _ T). by apply Hd.
Qed.

(** The end of a segment of a queue is no pointer of another element. *)
Lemma end_not_next m h l q n a : seg m (First h) l q n -> a ∉ l -> q <> Next a.
Proof. intros H Ha ->. apply seg_end in H as [_ H]. apply cells_in in H as [H | (b & [= ->] & Hb)]; [done | by apply Ha]. Qed.

(** What stands between two parts of a queue is replaced, whatever the order of
    the writes. *)
Lemma mid_rep m m' h l1 x q1 r l2 q mid r' :
  seg m (First h) l1 q1 x -> seg m r l2 q 0 -> NoDup (l1 ++ mid ++ l2) ->
  seg m' q1 mid r' (first_of l2 0) ->
  (forall y, y <> q1 -> (forall a, a ∈ mid -> y <> Next a) -> ptrs m' !! y = ptrs m !! y) ->
  (forall a, head l2 = Some a -> prevs m' !! a = Some r') ->
  (forall a, a ∉ mid -> head l2 <> Some a -> prevs m' !! a = prevs m !! a) ->
  lasts m' !! h = Some (match l2 with [] => r' | _ => q end) -> (forall h', h' <> h -> lasts m' !! h' = lasts m !! h') ->
  rep m' h (l1 ++ mid ++ l2) /\ touched [h] (l1 ++ mid ++ l2) m m'.
Proof.
  intros H1 H2 Hnd Hmid Hp Hh Hv Hl Hl'. rewrite !NoDup_app in Hnd. destruct Hnd as (Hn1 & Hd & Hnm & Hdm & Hn2).
  setoid_rewrite elem_of_app in Hd.
  assert (Hhd : forall a, head l2 = Some a -> a ∈ l2) by (intros a E; destruct l2; [done | injection E as ->; by left]).
  destruct (seg_end _ _ _ _ _ H1) as [Hx Hin]. apply cells_in in Hin. split.
  - exists (match l2 with [] => r' | _ => q end). split; [done | ].
    apply (splice m m' (First h) l1 q1 x r l2 q 0 mid r'); try done.
    + by apply cells_nodup.
    + intros y Hy Hyq. apply Hp; [done | ]. destruct (cells_in _ _ _ Hy) as [-> | (a & -> & Ha)]; [done | ]. intros b Hb [= ->]. naive_solver.
    + intros a Ha. apply Hv; naive_solver.
    + intros a Ha. apply Hp; [ | intros b Hb [= ->]; naive_solver]. intros E.
      destruct Hin as [Hin | (b & Hin & Hb)]; rewrite <- E in Hin; [done | ]. injection Hin as <-. naive_solver.
    + intros a Ha Hna. apply Hv; naive_solver.
  - split.
    + intros y Hyf Hels. apply Hp; [ | intros a Ha; apply Hels; rewrite !elem_of_app; tauto].
      destruct Hin as [-> | (b & -> & Hb)]; [apply Hyf; by left | apply Hels; rewrite !elem_of_app; tauto].
    + intros a Ha. rewrite !elem_of_app in Ha. apply Hv; naive_solver.
    + intros h' Hh'. apply Hl'. intros ->. apply Hh'. by left.
    + intros y Hs. destruct (decide (y ∈ cells q1 mid)) as [Hc | Hc].
      * apply cells_in in Hc as [-> | (a & -> & Ha)]; [rewrite (seg_first _ _ _ _ _ Hmid); by eexists | ].
        by destruct (seg_nonzero _ _ _ _ _ a Hmid Ha) as (_ & _ & ?).
      * rewrite Hp; [done | intros ->; apply Hc; by left | ]. intros a Ha ->. apply Hc. right. by apply list_elem_of_fmap_2.
    + intros a Hs. destruct (decide (a ∈ mid)) as [Ha | Ha]; [by destruct (seg_nonzero _ _ _ _ _ a Hmid Ha) as (_ & ? & _) | ].
      destruct (decide (head l2 = Some a)) as [E | ]; [rewrite (Hh _ E); by eexists | ]. by rewrite Hv.
    + intros h' Hs. destruct (decide (h' = h)) as [-> | ]; [by eexists | ]. by rewrite Hl'.
Qed.

(** The facts of a queue that is cut in two. *)
Lemma rep_cut m h l1 l2 : rep m h (l1 ++ l2) ->
  exists q1 q, seg m (First h) l1 q1 (first_of l2 0) /\ seg m q1 l2 q 0 /\ lasts m !! h = Some q.
Proof. intros (q & Hl & Hs). apply seg_app in Hs as (q1 & H1 & H2). by exists q1, q. Qed.

(** Frames: what was written is not what is asked for. *)
Ltac ne :=
  solve [ congruence | done | let H := fresh in intros H; subst; (congruence || naive_solver) ].
Ltac frame :=
  intros; repeat match goal with H : head _ = Some _ |- _ => cbn in H; (discriminate || (injection H as <-))
    | H : forall a, a ∈ [?e] -> _ <> Next a |- _ => specialize (H e (list_elem_of_here e []))
    | H : _ ∉ [_] |- _ => rewrite list_elem_of_singleton in H end;
  cbn [ptrs prevs lasts]; repeat first [rewrite lookup_insert_eq | rewrite lookup_insert_ne by ne]; try done.

(* ------------------------------------------------------------------ *)
(** ** The operations *)

Lemma nodup_mid {A} (l1 : list A) a l2 : NoDup (l1 ++ a :: l2) <-> (a ∉ l1 /\ a ∉ l2) /\ NoDup (l1 ++ l2).
Proof. rewrite <- Permutation_middle, NoDup_cons, not_elem_of_app. done. Qed.
(** The element is none of the others. *)
Lemma mid_ne {A} (l1 : list A) a b l2 : NoDup (l1 ++ a :: b :: l2) -> a <> b /\ b <> a.
Proof. rewrite nodup_mid, not_elem_of_cons. naive_solver. Qed.

Section Free.
Variables (m : qmem) (h e : Z).
Hypotheses (H0 : e <> 0) (Hpe : is_Some (ptrs m !! Next e)) (Hve : is_Some (prevs m !! e)).

Lemma TAILQ_INSERT_TAIL_spec l :
  rep m h l -> NoDup (l ++ [e]) ->
  wp (TAILQ_INSERT_TAIL h e) m (fun _ m' => rep m' h (l ++ [e]) /\ touched [h] (l ++ [e]) m m').
Proof.
  intros (q & Hlast & Hseg) Hnd. destruct (seg_end _ _ _ _ _ Hseg) as [Hq _].
  assert (He : e ∉ l) by (apply NoDup_app in Hnd; set_solver).
  pose proof (end_not_next _ _ _ _ _ _ Hseg He) as Hqe. unfold TAILQ_INSERT_TAIL. repeat qstep.
  apply (mid_rep m _ h l 0 q q [] q [e] (Next e)); try done; try (cbn [seg]; repeat split); frame.
Qed.

Lemma TAILQ_INSERT_HEAD_spec l :
  rep m h l -> NoDup (e :: l) ->
  wp (TAILQ_INSERT_HEAD h e) m (fun _ m' => rep m' h (e :: l) /\ touched [h] (e :: l) m m').
Proof.
  intros (q & Hlast & Hseg) Hnd. pose proof (seg_first _ _ _ _ _ Hseg) as Hf.
  unfold TAILQ_INSERT_HEAD. repeat qstep. destruct l as [|b l]; cbn [first_of] in *.
  - change (0 =? 0) with true. cbn [negb]. repeat qstep.
    apply (mid_rep m _ h [] 0 (First h) (First h) [] q [e] (Next e)); try done; try (cbn [seg]; repeat split); frame.
  - destruct (seg_nonzero _ _ _ _ _ b Hseg) as (Hb0 & Hbv & _); [by left | ].
    rewrite (proj2 (Z.eqb_neq _ _) Hb0). cbn [negb].
    assert (b <> e) by (intros ->; apply NoDup_cons in Hnd as [Hnd _]; apply Hnd; by left). repeat qstep.
    apply (mid_rep m _ h [] b (First h) (First h) (b :: l) q [e] (Next e)); try done; try (cbn [seg]; repeat split); frame.
Qed.

Lemma TAILQ_INSERT_AFTER_spec l1 x l2 :
  rep m h (l1 ++ x :: l2) -> NoDup (l1 ++ x :: e :: l2) ->
  wp (TAILQ_INSERT_AFTER h x e) m (fun _ m' => rep m' h (l1 ++ x :: e :: l2) /\ touched [h] (l1 ++ x :: e :: l2) m m').
Proof.
  rewrite (cons_middle x), (cons_middle x l1 (e :: l2)), !app_assoc. intros Hr Hnd.
  destruct (rep_cut _ _ _ _ Hr) as (q1 & q & H1 & H2 & Hlast).
  assert (Hq1 : q1 = Next x) by (apply seg_app in H1 as (r & _ & _ & _ & _ & -> & _); done). subst q1.
  destruct (seg_end _ _ _ _ _ H1) as [Hx _].
  assert (x <> e) by (rewrite <- (app_assoc l1 [x]) in Hnd; by apply mid_ne in Hnd as []).
  unfold TAILQ_INSERT_AFTER. repeat qstep. destruct l2 as [|b l2]; cbn [first_of] in *.
  - change (0 =? 0) with true. cbn [negb]. repeat qstep.
    apply (mid_rep m _ h (l1 ++ [x]) 0 (Next x) (Next x) [] q [e] (Next e)); try done; try (cbn [seg]; repeat split); frame.
  - destruct (seg_nonzero _ _ _ _ _ b H2) as (Hb0 & Hbv & _); [by left | ].
    rewrite (proj2 (Z.eqb_neq _ _) Hb0). cbn [negb].
    assert (b <> e) by (by apply mid_ne in Hnd as []). repeat qstep.
    apply (mid_rep m _ h (l1 ++ [x]) b (Next x) (Next x) (b :: l2) q [e] (Next e)); try done; try (cbn [seg]; repeat split); frame.
Qed.

Lemma TAILQ_INSERT_BEFORE_spec l1 x l2 :
  rep m h (l1 ++ x :: l2) -> NoDup (l1 ++ e :: x :: l2) ->
  wp (TAILQ_INSERT_BEFORE x e) m (fun _ m' => rep m' h (l1 ++ e :: x :: l2) /\ touched [h] (l1 ++ e :: x :: l2) m m').
Proof.
  intros Hr Hnd. destruct (rep_cut _ _ _ _ Hr) as (q1 & q & H1 & H2 & Hlast).
  assert (He : e ∉ l1) by (apply nodup_mid in Hnd; tauto).
  assert (e <> x) by (by apply mid_ne in Hnd as []).
  pose proof (end_not_next _ _ _ _ _ _ H1 He) as Hqe. cbn [first_of] in *. destruct (seg_end _ _ _ _ _ H1) as [Hx _].
  destruct (seg_nonzero _ _ _ _ _ x H2) as (Hx0 & Hxv & _); [by left | ]. pose proof (proj1 (proj2 (proj2 H2))) as Hpx.
  unfold TAILQ_INSERT_BEFORE. repeat qstep.
  apply (mid_rep m _ h l1 x q1 q1 (x :: l2) q [e] (Next e)); try done; try (cbn [seg]; repeat split); frame.
Qed.

(** [elm] makes way for a free element. *)
Lemma TAILQ_REPLACE_spec l1 x l2 :
  rep m h (l1 ++ x :: l2) -> NoDup (l1 ++ x :: l2) -> e ∉ l1 ++ x :: l2 ->
  wp (TAILQ_REPLACE h x e) m (fun _ m' => rep m' h (l1 ++ e :: l2) /\ touched [h] (l1 ++ e :: l2) m m').
Proof.
  intros Hr Hnd He. destruct (rep_cut _ _ _ _ Hr) as (q1 & q & H1 & (_ & Hx & Hpx & H2) & Hlast).
  assert (Hnd' : NoDup (l1 ++ [e] ++ l2)).
  { apply nodup_mid in Hnd. rewrite not_elem_of_app, not_elem_of_cons in He. apply nodup_mid. tauto. }
  rewrite not_elem_of_app, not_elem_of_cons in He. destruct He as (He1 & Hex & He2).
  pose proof (end_not_next _ _ _ _ _ _ H1 He1) as Hqe. pose proof (seg_first _ _ _ _ _ H2) as Hf.
  unfold TAILQ_REPLACE. repeat qstep. destruct l2 as [|b l2]; cbn [first_of] in *.
  - change (0 =? 0) with true. cbn [negb]. repeat qstep.
    apply (mid_rep m _ h l1 x q1 (Next x) [] q [e] (Next e)); try done; try (cbn [seg]; repeat split); frame.
  - destruct (seg_nonzero _ _ _ _ _ b H2) as (Hb0 & Hbv & _); [by left | ].
    rewrite (proj2 (Z.eqb_neq _ _) Hb0). cbn [negb].
    assert (b <> x) by (by apply mid_ne in Hnd as []).
    assert (b <> e) by (intros ->; apply He2; by left). repeat qstep.
    apply (mid_rep m _ h l1 x q1 (Next x) (b :: l2) q [e] (Next e)); try done; try (cbn [seg]; repeat split); frame.
Qed.
End Free.

Lemma TAILQ_REMOVE_spec m h l1 x l2 :
  rep m h (l1 ++ x :: l2) -> NoDup (l1 ++ x :: l2) ->
  wp (TAILQ_REMOVE h x) m (fun _ m' => rep m' h (l1 ++ l2) /\ touched [h] (l1 ++ l2) m m').
Proof.
  intros Hr Hnd. destruct (rep_cut _ _ _ _ Hr) as (q1 & q & H1 & (_ & Hx & Hpx & H2) & Hlast).
  assert (Hnd' : NoDup (l1 ++ [] ++ l2)) by (by apply nodup_mid in Hnd as [_ ?]).
  pose proof (seg_first _ _ _ _ _ H2) as Hf.
  unfold TAILQ_REMOVE. repeat qstep. destruct l2 as [|b l2]; cbn [first_of] in *.
  - change (0 =? 0) with true. cbn [negb]. repeat qstep.
    apply (mid_rep m _ h l1 x q1 (Next x) [] q [] q1); try done; try (cbn [seg]; repeat split); frame.
  - destruct (seg_nonzero _ _ _ _ _ b H2) as (Hb0 & Hbv & _); [by left | ].
    rewrite (proj2 (Z.eqb_neq _ _) Hb0). cbn [negb].
    assert (b <> x) by (by apply mid_ne in Hnd as []). repeat qstep.
    apply (mid_rep m _ h l1 x q1 (Next x) (b :: l2) q [] q1); try done; try (cbn [seg]; repeat split); frame.
Qed.

Lemma TAILQ_INIT_spec m h :
  is_Some (ptrs m !! First h) -> is_Some (lasts m !! h) ->
  wp (TAILQ_INIT h) m (fun _ m' => rep m' h [] /\ touched [h] [] m m').
Proof.
  intros Hp Hl. unfold TAILQ_INIT. repeat qstep. split.
  - exists (First h). split; [at_map | ]. split; [done | at_map].
  - split; cbn [ptrs prevs lasts]; try done; try (intros; by apply still_there).
    + intros x Hh _. rewrite lookup_insert_ne; [done | ]. intros E. eapply Hh; [by left | done].
    + intros h' Hh'. rewrite list_elem_of_singleton in Hh'. by rewrite lookup_insert_ne.
Qed.

Lemma TAILQ_CONCAT_spec m h1 h2 l1 l2 :
  rep m h1 l1 -> rep m h2 l2 -> NoDup (l1 ++ l2) -> h1 <> h2 ->
  wp (TAILQ_CONCAT h1 h2) m (fun _ m' =>
    rep m' h1 (l1 ++ l2) /\ rep m' h2 [] /\ touched [h1; h2] (l1 ++ l2) m m').
Proof.
  intros Hr1 Hr2 Hnd Hh. pose proof Hr1 as (q1 & Hl1 & H1). pose proof Hr2 as (q2 & Hl2 & H2).
  unfold TAILQ_CONCAT, TAILQ_EMPTY, TAILQ_FIRST. pose proof (seg_first _ _ _ _ _ H2) as Hf.
  repeat qstep. ewp_pure. destruct l2 as [|b l2]; cbn [first_of] in *.
  - change (0 =? 0) with true. apply ewp_ret. rewrite app_nil_r. split; [done | split; [done | ]]. by split.
  - destruct (seg_nonzero _ _ _ _ _ b H2) as (Hb0 & Hbv & _); [by left | ].
    rewrite (proj2 (Z.eqb_neq _ _) Hb0). destruct (seg_end _ _ _ _ _ H1) as [Hq1 _].
    destruct (decide (q1 = First h2)) as [-> | Hne].
    { apply seg_end in H1 as [_ Hin]. apply cells_in in Hin as [[= ->] | (a & [=] & _)]. done. }
    repeat qstep.
    match goal with |- wp _ ?w _ => set (m1 := w) end.
    assert (rep m1 h1 (l1 ++ [] ++ b :: l2) /\ touched [h1] (l1 ++ [] ++ b :: l2) m m1) as [Hr T].
    { apply (mid_rep m _ h1 l1 0 q1 (First h2) (b :: l2) q2 [] q1); try done; try (cbn [seg]; repeat split); unfold m1; frame. }
    eapply ewp_mono; [apply TAILQ_INIT_spec | ].
    + apply (t_is_ptr _ _ _ _ T). by eexists.
    + apply (t_is_last _ _ _ _ T). by eexists.
    + intros [] m2 [Hr' T']. split; [ | split; [done | ]].
      * eapply touched_rep; try done; set_solver.
      * rewrite <- (app_nil_r (l1 ++ _)). by apply (touched_trans [h1] _ [h2] [] m m1 m2).
Qed.
