(* ===== verification/TailQSpec.v ===== *)
(** TailQSpec: tail queues are lists.  What the operations of TailQ answer, for
    any sequence of them on any number of queues, is what lists answer. *)

From stdpp Require Import gmap.
From S2P Require Import Prelude Eff TailQ.

Open Scope list_scope.
Open Scope eff_scope.

(* ------------------------------------------------------------------ *)
(** ** What is read *)

Lemma rep_ends m h l : rep m h l -> exists q, lasts m !! h = Some q /\ ptrs m !! q = Some 0.
Proof. intros (q & Hl & Hs). exists q. split; [done | ]. by apply seg_end in Hs as []. Qed.
Lemma seg_snoc m p l a q n : seg m p (l ++ [a]) q n -> q = Next a /\ exists r, prevs m !! a = Some r /\ ptrs m !! r = Some a.
Proof. intros H. apply seg_app in H as (r & _ & _ & Ha & Hp & -> & _). split; [done | by exists r]. Qed.

(** What the two casts of a head pointer find. *)
Lemma behind_spec m h l1 l2 q1 :
  rep m h (l1 ++ l2) -> seg m (First h) l1 q1 (first_of l2 0) ->
  wp (do l' <- behind q1; load l') m (fun r m' => m' = m /\ r = default 0 (list.last l1)).
Proof.
  intros Hr Hs. destruct l1 as [|x l1' _] using rev_ind.
  - destruct Hs as [-> _]. destruct (rep_ends _ _ _ Hr) as (q & Hl & Hq). cbn [behind]. repeat qstep.
    eapply wp_load; [done | by split].
  - apply seg_snoc in Hs as (-> & r & Hp & Hr'). cbn [behind]. repeat qstep.
    eapply wp_load; [done | ]. by rewrite last_snoc.
Qed.
Lemma TAILQ_FIRST_spec m h l : rep m h l -> wp (TAILQ_FIRST h) m (fun r m' => m' = m /\ r = first_of l 0).
Proof. intros (q & _ & Hs). unfold TAILQ_FIRST. eapply wp_load; [by eapply seg_first | done]. Qed.
Lemma TAILQ_EMPTY_spec m h l : rep m h l -> wp (TAILQ_EMPTY h) m (fun r m' => m' = m /\ r = bool_decide (l = [])).
Proof.
  intros Hr. unfold TAILQ_EMPTY. apply ewp_bind. eapply ewp_mono; [by apply TAILQ_FIRST_spec | ]. intros r m' [-> ->].
  apply ewp_ret. split; [done | ]. destruct l as [|a l]; [done | ]. destruct Hr as (q & _ & H0 & _). cbn [first_of].
  by rewrite bool_decide_false, (proj2 (Z.eqb_neq _ _) H0).
Qed.
Lemma TAILQ_NEXT_spec m h l1 x l2 : rep m h (l1 ++ x :: l2) -> wp (TAILQ_NEXT x) m (fun r m' => m' = m /\ r = first_of l2 0).
Proof.
  intros Hr. destruct (rep_cut _ _ _ _ Hr) as (q1 & q & _ & (_ & _ & _ & H2) & _). unfold TAILQ_NEXT.
  eapply wp_load; [by eapply seg_first | done].
Qed.
Lemma TAILQ_LAST_spec m h l : rep m h l -> wp (TAILQ_LAST h) m (fun r m' => m' = m /\ r = default 0 (list.last l)).
Proof.
  intros Hr. pose proof Hr as (q & Hl & Hs). unfold TAILQ_LAST. repeat qstep.
  apply (behind_spec m h l []); [by rewrite app_nil_r | done].
Qed.
Lemma TAILQ_PREV_spec m h l1 x l2 :
  rep m h (l1 ++ x :: l2) -> wp (TAILQ_PREV x) m (fun r m' => m' = m /\ r = default 0 (list.last l1)).
Proof.
  intros Hr. destruct (rep_cut _ _ _ _ Hr) as (q1 & q & H1 & (_ & _ & Hp & _) & _). unfold TAILQ_PREV. repeat qstep.
  by apply (behind_spec m h l1 (x :: l2)).
Qed.

(** Entries are enough turns. *)
Lemma entries_enough m h l : rep m h l -> NoDup l -> (length l <= size (prevs m))%nat.
Proof.
  intros (q & _ & Hs) Hn. rewrite <- size_dom, <- (size_list_to_set (C := gset Z) l Hn). apply subseteq_size.
  intros a Ha. rewrite elem_of_list_to_set in Ha. apply elem_of_dom. by eapply seg_nonzero.
Qed.
Lemma rep_nonzero m h l a : rep m h l -> a ∈ l -> (a =? 0) = false.
Proof. intros (q & _ & Hs) Ha. apply Z.eqb_neq. by eapply seg_nonzero. Qed.

Lemma foreach_next_spec m h l1 l2 fuel :
  rep m h (l1 ++ l2) -> (length l2 <= fuel)%nat ->
  wp (foreach fuel TAILQ_NEXT (first_of l2 0)) m (fun r m' => m' = m /\ r = l2).
Proof.
  revert l1 fuel. induction l2 as [|x l2 IH]; intros l1 fuel Hr Hf; [by destruct fuel; apply ewp_ret | ].
  cbn [first_of]. destruct fuel as [|fuel]; cbn [length] in Hf; [lia | ]. cbn [foreach].
  rewrite (rep_nonzero _ _ _ x Hr) by (rewrite elem_of_app; right; by left).
  apply ewp_bind. eapply ewp_mono; [by eapply TAILQ_NEXT_spec | ]. intros r m' [-> ->].
  apply ewp_bind. eapply ewp_mono; [apply (IH (l1 ++ [x])); [by rewrite <- app_assoc | lia] | ].
  intros r m' [-> ->]. by apply ewp_ret.
Qed.
Lemma TAILQ_FOREACH_spec m h l : rep m h l -> NoDup l -> wp (TAILQ_FOREACH h) m (fun r m' => m' = m /\ r = l).
Proof.
  intros Hr Hn. unfold TAILQ_FOREACH, entries. repeat (apply ewp_bind). apply wp_gets. apply ewp_ret. apply ewp_bind.
  eapply ewp_mono; [by apply TAILQ_FIRST_spec | ]. intros r m' [-> ->].
  apply (foreach_next_spec m h []); [done | by eapply entries_enough].
Qed.

Lemma foreach_prev_spec m h l1 l2 fuel :
  rep m h (l1 ++ l2) -> (length l1 <= fuel)%nat ->
  wp (foreach fuel TAILQ_PREV (default 0 (list.last l1))) m (fun r m' => m' = m /\ r = rev l1).
Proof.
  revert l2 fuel. induction l1 as [|x l1 IH] using rev_ind; intros l2 fuel Hr Hf; [by destruct fuel; apply ewp_ret | ].
  rewrite last_snoc. cbn [default id]. rewrite length_app in Hf. cbn [length] in Hf.
  destruct fuel as [|fuel]; [lia | ]. cbn [foreach].
  rewrite (rep_nonzero _ _ _ x Hr) by (rewrite !elem_of_app, list_elem_of_singleton; tauto). rewrite <- app_assoc in Hr.
  apply ewp_bind. eapply ewp_mono; [by eapply TAILQ_PREV_spec | ]. intros r m' [-> ->].
  apply ewp_bind. eapply ewp_mono; [apply (IH (x :: l2)); [done | lia] | ].
  intros r m' [-> ->]. rewrite rev_unit. by apply ewp_ret.
Qed.
Lemma TAILQ_FOREACH_REVERSE_spec m h l : rep m h l -> NoDup l -> wp (TAILQ_FOREACH_REVERSE h) m (fun r m' => m' = m /\ r = rev l).
Proof.
  intros Hr Hn. unfold TAILQ_FOREACH_REVERSE, entries. repeat (apply ewp_bind). apply wp_gets. apply ewp_ret. apply ewp_bind.
  eapply ewp_mono; [by apply TAILQ_LAST_spec | ]. intros r m' [-> ->].
  apply (foreach_prev_spec m h l []); [by rewrite app_nil_r | by eapply entries_enough].
Qed.

(** A walk whose body unlinks some of the elements. *)
Definition unlink (h : Z) (drop : Z -> bool) (a : Z) : Q unit := if drop a then TAILQ_REMOVE h a else ret tt.

Lemma touched_refl hs els m : touched hs els m m.
Proof. by split. Qed.
Notation kept drop := (List.filter (fun a => negb (drop a))).
(** Unlinking or passing over an entry, with what is left. *)
Lemma unlink_spec h drop l1 x l2 m : rep m h (l1 ++ x :: l2) -> NoDup (l1 ++ x :: l2) ->
  wp (unlink h drop x) m (fun _ m' =>
    rep m' h (l1 ++ kept drop [x] ++ l2) /\ touched [h] (l1 ++ x :: l2) m m').
Proof.
  intros Hr Hn. unfold unlink. cbn [List.filter]. destruct (drop x); cbn [negb app].
  - eapply ewp_mono; [by apply TAILQ_REMOVE_spec | ]. intros [] m' [Hr' T]. split; [done | ].
    eapply touched_more; [ | done]. set_solver.
  - apply ewp_ret. split; [done | apply touched_refl].
Qed.

Lemma kept_nodup drop l1 x (l2 : list Z) : NoDup (l1 ++ x :: l2) -> NoDup (l1 ++ kept drop [x] ++ l2).
Proof. intros Hn. cbn [List.filter]. destruct (negb (drop x)); [done | by apply nodup_mid in Hn as []]. Qed.
Lemma kept_sub drop (l : list Z) : kept drop l ⊆ l.
Proof. intros a Ha. apply list_elem_of_In, filter_In, proj1, list_elem_of_In in Ha. done. Qed.

Lemma foreach_safe_spec h drop l1 l2 fuel m :
  rep m h (l1 ++ l2) -> NoDup (l1 ++ l2) -> (length l2 <= fuel)%nat ->
  wp (foreach_safe fuel TAILQ_NEXT (unlink h drop) (first_of l2 0)) m (fun r m' =>
    r = l2 /\ rep m' h (l1 ++ kept drop l2) /\ touched [h] (l1 ++ l2) m m').
Proof.
  revert l1 fuel m. induction l2 as [|x l2 IH]; intros l1 fuel m Hr Hn Hf.
  { destruct fuel; apply ewp_ret; (split; [done | split; [done | apply touched_refl]]). }
  cbn [first_of]. destruct fuel as [|fuel]; cbn [length] in Hf; [lia | ]. cbn [foreach_safe].
  rewrite (rep_nonzero _ _ _ x Hr) by (rewrite elem_of_app; right; by left).
  apply ewp_bind. eapply ewp_mono; [by eapply TAILQ_NEXT_spec | ]. intros r m' [-> ->].
  apply ewp_bind. eapply ewp_mono; [by apply unlink_spec | ]. intros [] m1 [Hr1 T1].
  rewrite app_assoc in Hr1. pose proof (kept_nodup drop _ _ _ Hn) as Hn1. rewrite app_assoc in Hn1.
  apply ewp_bind. eapply ewp_mono; [by apply IH; [ | | lia] | ].
  intros r m2 (-> & Hr2 & T2). apply ewp_ret. split; [done | ]. change (x :: l2) with ([x] ++ l2).
  rewrite List.filter_app, app_assoc. split; [done | ].
  eapply touched_same; [done | ]. eapply touched_more; [ | done]. pose proof (kept_sub drop [x]). set_solver.
Qed.
Lemma TAILQ_FOREACH_SAFE_spec m h drop l : rep m h l -> NoDup l ->
  wp (TAILQ_FOREACH_SAFE h (unlink h drop)) m (fun r m' => r = l /\ rep m' h (kept drop l) /\ touched [h] l m m').
Proof.
  intros Hr Hn. unfold TAILQ_FOREACH_SAFE, entries. repeat (apply ewp_bind). apply wp_gets. apply ewp_ret. apply ewp_bind.
  eapply ewp_mono; [by apply TAILQ_FIRST_spec | ]. intros r m' [-> ->].
  apply (foreach_safe_spec h drop []); [done | done | by eapply entries_enough].
Qed.

Lemma foreach_reverse_safe_spec h drop l1 l2 fuel m :
  rep m h (l1 ++ l2) -> NoDup (l1 ++ l2) -> (length l1 <= fuel)%nat ->
  wp (foreach_safe fuel TAILQ_PREV (unlink h drop) (default 0 (list.last l1))) m (fun r m' =>
    r = rev l1 /\ rep m' h (kept drop l1 ++ l2) /\ touched [h] (l1 ++ l2) m m').
Proof.
  revert l2 fuel m. induction l1 as [|x l1 IH] using rev_ind; intros l2 fuel m Hr Hn Hf.
  { destruct fuel; apply ewp_ret; (split; [done | split; [done | apply touched_refl]]). }
  rewrite last_snoc. cbn [default id]. rewrite length_app in Hf. cbn [length] in Hf.
  destruct fuel as [|fuel]; [lia | ]. cbn [foreach_safe].
  rewrite (rep_nonzero _ _ _ x Hr) by (rewrite !elem_of_app, list_elem_of_singleton; tauto). rewrite <- app_assoc in Hr, Hn.
  apply ewp_bind. eapply ewp_mono; [by eapply TAILQ_PREV_spec | ]. intros r m' [-> ->].
  apply ewp_bind. eapply ewp_mono; [by apply unlink_spec | ]. intros [] m1 [Hr1 T1].
  pose proof (kept_nodup drop _ _ _ Hn) as Hn1.
  apply ewp_bind. eapply ewp_mono; [by apply IH; [ | | lia] | ].
  intros r m2 (-> & Hr2 & T2). rewrite rev_unit. apply ewp_ret. split; [done | ].
  rewrite List.filter_app, <- !app_assoc. split; [done | ].
  eapply touched_same; [done | ]. eapply touched_more; [ | done]. pose proof (kept_sub drop [x]). set_solver.
Qed.
Lemma TAILQ_FOREACH_REVERSE_SAFE_spec m h drop l : rep m h l -> NoDup l ->
  wp (TAILQ_FOREACH_REVERSE_SAFE h (unlink h drop)) m (fun r m' => r = rev l /\ rep m' h (kept drop l) /\ touched [h] l m m').
Proof.
  intros Hr Hn. unfold TAILQ_FOREACH_REVERSE_SAFE, entries. repeat (apply ewp_bind). apply wp_gets. apply ewp_ret. apply ewp_bind.
  eapply ewp_mono; [by apply TAILQ_LAST_spec | ]. intros r m' [-> ->]. rewrite <- (app_nil_r l) in Hr, Hn.
  eapply ewp_mono; [apply (foreach_reverse_safe_spec h drop l []); try done | ].
  - rewrite app_nil_r in Hr, Hn. by eapply entries_enough.
  - intros r m'. by rewrite !app_nil_r.
Qed.

(* ------------------------------------------------------------------ *)
(** ** A machine of lists *)

(** The operations, with the head of the queue an element is said to be in; and
    what they answer. *)
Inductive op : Type :=
  | Init (h : Z) | Insert_head (h e : Z) | Insert_tail (h e : Z) | Insert_after (h x e : Z) | Insert_before (h x e : Z)
  | Remove (h x : Z) | Replace (h x e : Z) | Concat (h1 h2 : Z)
  | First_of (h : Z) | Last_of (h : Z) | Next_of (h x : Z) | Prev_of (h x : Z) | Is_empty (h : Z)
  | Forward (h : Z) | Backward (h : Z) | Sweep (h : Z) (drop : Z -> bool) | Sweep_back (h : Z) (drop : Z -> bool).
Inductive answer : Type := Nothing | Entry (a : Z) | Truth (b : bool) | Entries (l : list Z).

Definition quiet (c : Q unit) : Q answer := do _ <- c; ret Nothing.
Definition exec (o : op) : Q answer :=
  match o with
  | Init h => quiet (TAILQ_INIT h)
  | Insert_head h e => quiet (TAILQ_INSERT_HEAD h e)
  | Insert_tail h e => quiet (TAILQ_INSERT_TAIL h e)
  | Insert_after h x e => quiet (TAILQ_INSERT_AFTER h x e)
  | Insert_before _ x e => quiet (TAILQ_INSERT_BEFORE x e)
  | Remove h x => quiet (TAILQ_REMOVE h x)
  | Replace h x e => quiet (TAILQ_REPLACE h x e)
  | Concat h1 h2 => quiet (TAILQ_CONCAT h1 h2)
  | First_of h => do r <- TAILQ_FIRST h; ret (Entry r)
  | Last_of h => do r <- TAILQ_LAST h; ret (Entry r)
  | Next_of _ x => do r <- TAILQ_NEXT x; ret (Entry r)
  | Prev_of _ x => do r <- TAILQ_PREV x; ret (Entry r)
  | Is_empty h => do r <- TAILQ_EMPTY h; ret (Truth r)
  | Forward h => do r <- TAILQ_FOREACH h; ret (Entries r)
  | Backward h => do r <- TAILQ_FOREACH_REVERSE h; ret (Entries r)
  | Sweep h drop => do r <- TAILQ_FOREACH_SAFE h (unlink h drop); ret (Entries r)
  | Sweep_back h drop => do r <- TAILQ_FOREACH_REVERSE_SAFE h (unlink h drop); ret (Entries r)
  end.
Fixpoint exec_all (os : list op) : Q (list answer) :=
  match os with
  | [] => ret []
  | o :: os' => do r <- exec o; do rs <- exec_all os'; ret (r :: rs)
  end.

(** What stands before and after an element. *)
Fixpoint cut_at (x : Z) (l : list Z) : option (list Z * list Z) :=
  match l with
  | [] => None
  | a :: l' => if a =? x then Some ([], l') else match cut_at x l' with Some (l1, l2) => Some (a :: l1, l2) | None => None end
  end.
Lemma cut_at_spec x l l1 l2 : cut_at x l = Some (l1, l2) -> l = l1 ++ x :: l2.
Proof.
  revert l1. induction l as [|a l IH]; intros l1; cbn [cut_at]; [done | ].
  destruct (Z.eqb_spec a x) as [E|E]; [by intros [= <- <-]; rewrite E | ].
  destruct (cut_at x l) as [[l1' l2']|]; [ | done]. intros [= <- <-]. cbn [app]. by rewrite (IH l1').
Qed.

Section Machine.
(** The heads and the entries there are. *)
Variables (hds els : gset Z).

Notation queues := (gmap Z (list Z)).

(** An entry that is in no queue. *)
Definition free (s : queues) (e : Z) : bool :=
  bool_decide (e ∈ els) && bool_decide (map_Forall (fun _ l => e ∉ l) s).
Definition on_queue {A} (s : queues) (h : Z) (f : list Z -> option A) : option A :=
  match s !! h with Some l => f l | None => None end.
Definition on_entry {A} (s : queues) (h x : Z) (f : list Z -> list Z -> option A) : option A :=
  on_queue s h (fun l => match cut_at x l with Some (l1, l2) => f l1 l2 | None => None end).
Definition put (s : queues) (h : Z) (l : list Z) : option (queues * answer) := Some (<[h := l]> s, Nothing).
Definition put_free (s : queues) (h e : Z) (l : list Z) : option (queues * answer) :=
  if free s e then put s h l else None.
Definition tell (s : queues) (a : answer) : option (queues * answer) := Some (s, a).

(** An operation on lists; [None]: an operation that is not allowed. *)
Definition step (s : queues) (o : op) : option (queues * answer) :=
  match o with
  | Init h => if bool_decide (h ∈ hds) then put s h [] else None
  | Insert_head h e => on_queue s h (fun l => put_free s h e (e :: l))
  | Insert_tail h e => on_queue s h (fun l => put_free s h e (l ++ [e]))
  | Insert_after h x e => on_entry s h x (fun l1 l2 => put_free s h e (l1 ++ x :: e :: l2))
  | Insert_before h x e => on_entry s h x (fun l1 l2 => put_free s h e (l1 ++ e :: x :: l2))
  | Remove h x => on_entry s h x (fun l1 l2 => put s h (l1 ++ l2))
  | Replace h x e => on_entry s h x (fun l1 l2 => put_free s h e (l1 ++ e :: l2))
  | Concat h1 h2 => if h1 =? h2 then None else
      on_queue s h1 (fun l1 => on_queue s h2 (fun l2 => Some (<[h2 := []]> (<[h1 := l1 ++ l2]> s), Nothing)))
  | First_of h => on_queue s h (fun l => tell s (Entry (default 0 (head l))))
  | Last_of h => on_queue s h (fun l => tell s (Entry (default 0 (list.last l))))
  | Next_of h x => on_entry s h x (fun _ l2 => tell s (Entry (default 0 (head l2))))
  | Prev_of h x => on_entry s h x (fun l1 _ => tell s (Entry (default 0 (list.last l1))))
  | Is_empty h => on_queue s h (fun l => tell s (Truth (bool_decide (l = []))))
  | Forward h => on_queue s h (fun l => tell s (Entries l))
  | Backward h => on_queue s h (fun l => tell s (Entries (rev l)))
  | Sweep h drop => on_queue s h (fun l => Some (<[h := kept drop l]> s, Entries l))
  | Sweep_back h drop => on_queue s h (fun l => Some (<[h := kept drop l]> s, Entries (rev l)))
  end.
Fixpoint steps (s : queues) (os : list op) : option (queues * list answer) :=
  match os with
  | [] => Some (s, [])
  | o :: os' =>
      match step s o with
      | Some (s', r) => match steps s' os' with Some (s'', rs) => Some (s'', r :: rs) | None => None end
      | None => None
      end
  end.

(** Memory with heads and entries, whatever is in them. *)
Definition allocated (m : qmem) : Prop :=
  (forall h, h ∈ hds -> is_Some (ptrs m !! First h) /\ is_Some (lasts m !! h)) /\
  (forall e, e ∈ els -> e <> 0 /\ is_Some (ptrs m !! Next e) /\ is_Some (prevs m !! e)).

(** The memory is the queues: every list is there, and no element is twice. *)
Record simulates (m : qmem) (s : queues) : Prop := Simulates {
  s_rep h l : s !! h = Some l -> rep m h l;
  s_nodup h l : s !! h = Some l -> NoDup l;
  s_apart h l h' l' a : s !! h = Some l -> s !! h' = Some l' -> a ∈ l -> a ∈ l' -> h = h';
  s_alloc : allocated m;
}.

Lemma touched_allocated hs es m m' : touched hs es m m' -> allocated m -> allocated m'.
Proof. intros [_ _ _ p v l] [Hh He]. split; [intros h Hi; destruct (Hh h Hi) | intros e Hi; destruct (He e Hi) as (? & ? & ?)]; auto. Qed.
Lemma free_entry s e m : simulates m s -> free s e = true ->
  e <> 0 /\ is_Some (ptrs m !! Next e) /\ is_Some (prevs m !! e) /\ forall h l, s !! h = Some l -> e ∉ l.
Proof.
  intros Hs Hf. apply andb_prop in Hf as [He Hf%bool_decide_eq_true_1]. apply bool_decide_eq_true_1 in He.
  destruct (proj2 (s_alloc _ _ Hs) e He) as (? & ? & ?). done.
Qed.

(** One queue becomes another list; what was touched is in no other queue. *)
Lemma update m m' s h l es : simulates m s -> rep m' h l -> touched [h] es m m' -> NoDup l -> l ⊆ es ->
  (forall h' l' a, h' <> h -> s !! h' = Some l' -> a ∈ l' -> a ∉ es) -> simulates m' (<[h := l]> s).
Proof.
  intros Hs Hr T Hn Hle Hd. split.
  - intros h' l' H. destruct (decide (h' = h)) as [-> | Hne]; [rewrite lookup_insert_eq in H; by injection H as <- | ].
    rewrite lookup_insert_ne in H by done. eapply touched_rep; [done | by eapply s_rep | by eapply s_nodup | set_solver | by eauto].
  - intros h' l' H. destruct (decide (h' = h)) as [-> | Hne]; [rewrite lookup_insert_eq in H; by injection H as <- | ].
    rewrite lookup_insert_ne in H by done. by eapply s_nodup.
  - intros h1 l1 h2 l2 a H1 H2 Ha1 Ha2.
    destruct (decide (h1 = h)) as [-> | Hn1]; [rewrite lookup_insert_eq in H1; injection H1 as <- | rewrite lookup_insert_ne in H1 by done];
      (destruct (decide (h2 = h)) as [-> | Hn2]; [rewrite lookup_insert_eq in H2; injection H2 as <- | rewrite lookup_insert_ne in H2 by done]); try done.
    + destruct (Hd h2 l2 a); auto.
    + destruct (Hd h1 l1 a); auto.
    + by eapply s_apart.
  - eapply touched_allocated; [done | apply Hs].
Qed.
(** Of its own elements and free ones. *)
Lemma update_own m m' s h l l' es :
  simulates m s -> s !! h = Some l -> rep m' h l' -> touched [h] es m m' -> NoDup l' -> l' ⊆ es ->
  (forall a, a ∈ es -> a ∈ l \/ free s a = true) -> simulates m' (<[h := l']> s).
Proof.
  intros Hs Hl Hr T Hn Hle Ho. apply (update m m' s h l' es); try done. intros h' l2 a Hne H2 Ha Hin.
  destruct (Ho a Hin) as [Hal | Hf]; [apply Hne; by eapply s_apart | ].
  destruct (free_entry _ _ _ Hs Hf) as (_ & _ & _ & Hnot). by apply (Hnot h' l2).
Qed.
Lemma update_kept m m' s h l drop :
  simulates m s -> s !! h = Some l -> rep m' h (kept drop l) -> touched [h] l m m' -> NoDup l -> simulates m' (<[h := kept drop l]> s).
Proof.
  intros Hs Hl Hr T Hn. apply (update_own m m' s h l _ l); try done; [ | apply kept_sub | by left].
  apply NoDup_ListNoDup, List.NoDup_filter. by apply NoDup_ListNoDup.
Qed.
Lemma wp_quiet c m (P : qmem -> Prop) : wp c m (fun _ m' => P m') -> wp (quiet c) m (fun r m' => r = Nothing /\ P m').
Proof. intros H. unfold quiet. apply ewp_bind. eapply ewp_mono; [done | ]. intros [] m' HP. by apply ewp_ret. Qed.
Lemma wp_tell {A} (c : Q A) (f : A -> answer) m x s :
  simulates m s -> wp c m (fun r m' => m' = m /\ r = x) -> wp (do r <- c; ret (f r)) m (fun r m' => r = f x /\ simulates m' s).
Proof. intros Hs H. apply ewp_bind. eapply ewp_mono; [done | ]. intros r m' [-> ->]. by apply ewp_ret. Qed.
Lemma first_of_head l : first_of l 0 = default 0 (head l).
Proof. by destruct l. Qed.

(** An entry put into a queue. *)
Lemma exec_put m s h e l l' c :
  simulates m s -> s !! h = Some l -> free s e = true -> NoDup l' -> (forall a, a ∈ l' -> a ∈ l \/ a = e) ->
  (e <> 0 -> is_Some (ptrs m !! Next e) -> is_Some (prevs m !! e) -> rep m h l ->
   wp c m (fun _ m' => rep m' h l' /\ touched [h] l' m m')) ->
  wp (quiet c) m (fun r m' => r = Nothing /\ simulates m' (<[h := l']> s)).
Proof.
  intros Hs Hl Hf Hn Ho Hc. apply wp_quiet. destruct (free_entry _ _ _ Hs Hf) as (H0 & Hp & Hv & _).
  eapply ewp_mono; [apply Hc; try done; by eapply s_rep | ]. intros _ m' [Hr T]. eapply update_own; try done. intros a Ha. destruct (Ho a Ha) as [? | ->]; auto.
Qed.
(** A queue that loses some. *)
Lemma exec_less m s h l l' c :
  simulates m s -> s !! h = Some l -> NoDup l' -> l' ⊆ l -> wp c m (fun _ m' => rep m' h l' /\ touched [h] l' m m') ->
  wp (quiet c) m (fun r m' => r = Nothing /\ simulates m' (<[h := l']> s)).
Proof.
  intros Hs Hl Hn Ho Hc. apply wp_quiet. eapply ewp_mono; [done | ]. intros _ m' [Hr T]. eapply update_own; try done. auto.
Qed.
Lemma update_two m m' s h1 h2 l1 l2 :
  simulates m s -> s !! h1 = Some l1 -> s !! h2 = Some l2 -> h1 <> h2 ->
  rep m' h1 (l1 ++ l2) -> rep m' h2 [] -> touched [h1; h2] (l1 ++ l2) m m' -> NoDup (l1 ++ l2) ->
  simulates m' (<[h2 := []]> (<[h1 := l1 ++ l2]> s)).
Proof.
  intros Hs H1 H2 Hne Hr1 Hr2 T Hn.
  assert (Hcase : forall h l, <[h2 := []]> (<[h1 := l1 ++ l2]> s) !! h = Some l ->
    h = h2 /\ l = [] \/ h = h1 /\ l = l1 ++ l2 \/ h <> h1 /\ h <> h2 /\ s !! h = Some l).
  { intros h l H. destruct (decide (h = h2)) as [-> | N2]; [rewrite lookup_insert_eq in H; left; by injection H as <- | right].
    rewrite lookup_insert_ne in H by done. destruct (decide (h = h1)) as [-> | N1]; [rewrite lookup_insert_eq in H; left; by injection H as <- | right].
    rewrite lookup_insert_ne in H by done. done. }
  assert (Hother : forall h l a, h <> h1 -> h <> h2 -> s !! h = Some l -> a ∈ l -> a ∉ l1 ++ l2).
  { intros h l a N1 N2 H Ha Hin. apply elem_of_app in Hin as [Hin | Hin]; [apply N1 | apply N2]; by eapply s_apart. }
  split.
  - intros h l [[-> ->] | [[-> ->] | (N1 & N2 & H)]]%Hcase; [done | done | ].
    eapply touched_rep; [done | by eapply s_rep | by eapply s_nodup | set_solver | by eauto].
  - intros h l [[-> ->] | [[-> ->] | (N1 & N2 & H)]]%Hcase; [constructor | done | by eapply s_nodup].
  - intros h l h' l' a [[-> ->] | [[-> ->] | (N1 & N2 & H)]]%Hcase [[-> ->] | [[-> ->] | (N1' & N2' & H')]]%Hcase Ha Ha';
      try done; try by apply not_elem_of_nil in Ha || apply not_elem_of_nil in Ha'.
    + by destruct (Hother _ _ _ N1' N2' H' Ha').
    + by destruct (Hother _ _ _ N1 N2 H Ha).
    + by eapply s_apart.
  - eapply touched_allocated; [done | apply Hs].
Qed.

Lemma apart_app m s h1 h2 l1 l2 : simulates m s -> s !! h1 = Some l1 -> s !! h2 = Some l2 -> h1 <> h2 -> NoDup (l1 ++ l2).
Proof.
  intros Hs H1 H2 Hne. apply NoDup_app. split; [by eapply s_nodup | split; [ | by eapply s_nodup]].
  intros a Ha1 Ha2. apply Hne. by eapply s_apart.
Qed.
Lemma on_queue_some {A} s h (f : list Z -> option A) r : on_queue s h f = Some r -> exists l, s !! h = Some l /\ f l = Some r.
Proof. unfold on_queue. destruct (s !! h) as [l|]; [ | done]. by exists l. Qed.
Lemma on_entry_some {A} s h x (f : list Z -> list Z -> option A) r :
  on_entry s h x f = Some r -> exists l1 l2, s !! h = Some (l1 ++ x :: l2) /\ f l1 l2 = Some r.
Proof.
  intros (l & Hl & H)%on_queue_some. destruct (cut_at x l) as [[l1 l2]|] eqn:E; [ | done].
  apply cut_at_spec in E. exists l1, l2. by rewrite <- E.
Qed.
Lemma put_free_some s h e l r : put_free s h e l = Some r -> free s e = true /\ r = (<[h := l]> s, Nothing).
Proof. unfold put_free, put. destruct (free s e); [ | done]. by intros [= <-]. Qed.

(** What the operation does with the queues. *)
Inductive effect : Type := Reads | Inserts | Others.
Definition effect_of (o : op) : effect :=
  match o with
  | Insert_head _ _ | Insert_tail _ _ | Insert_after _ _ _ | Insert_before _ _ _ | Replace _ _ _ => Inserts
  | Init _ | Remove _ _ | Concat _ _ | Sweep _ _ | Sweep_back _ _ => Others
  | _ => Reads
  end.

Lemma insert_exec m s o s' r : effect_of o = Inserts -> simulates m s -> step s o = Some (s', r) ->
  wp (exec o) m (fun r' m' => r' = r /\ simulates m' s').
Proof.
  intros Ho Hs. assert (Hnew : forall h e l, s !! h = Some l -> free s e = true -> NoDup l /\ e ∉ l).
  { intros h e l Hl Hf. destruct (free_entry _ _ _ Hs Hf) as (_ & _ & _ & Hno). split; [by eapply s_nodup | by eapply Hno]. }
  destruct o as [|h e|h e|h x e|h x e| |h x e| | | | | | | | | |]; try done; cbn [step exec].
  - intros (l & Hl & (Hf & [= -> ->])%put_free_some)%on_queue_some. destruct (Hnew _ _ _ Hl Hf) as [Hn He].
    assert (Hn' : NoDup (e :: l)) by (by constructor). eapply exec_put; try done; [set_solver | ]. intros. by apply TAILQ_INSERT_HEAD_spec.
  - intros (l & Hl & (Hf & [= -> ->])%put_free_some)%on_queue_some. destruct (Hnew _ _ _ Hl Hf) as [Hn He].
    assert (Hn' : NoDup (l ++ [e])) by (apply nodup_mid; rewrite app_nil_r; set_solver).
    eapply exec_put; try done; [set_solver | ]. intros. by apply TAILQ_INSERT_TAIL_spec.
  - intros (l1 & l2 & Hl & (Hf & [= -> ->])%put_free_some)%on_entry_some. destruct (Hnew _ _ _ Hl Hf) as [Hn He].
    assert (Hn' : NoDup (l1 ++ x :: e :: l2)).
    { rewrite (cons_middle x), app_assoc in *. apply nodup_mid. rewrite not_elem_of_app in He. tauto. }
    eapply exec_put; try done; [set_solver | ]. intros. by apply TAILQ_INSERT_AFTER_spec.
  - intros (l1 & l2 & Hl & (Hf & [= -> ->])%put_free_some)%on_entry_some. destruct (Hnew _ _ _ Hl Hf) as [Hn He].
    assert (Hn' : NoDup (l1 ++ e :: x :: l2)) by (apply nodup_mid; rewrite not_elem_of_app in He; tauto).
    eapply exec_put; try done; [set_solver | ]. intros. by apply TAILQ_INSERT_BEFORE_spec.
  - intros (l1 & l2 & Hl & (Hf & [= -> ->])%put_free_some)%on_entry_some. destruct (Hnew _ _ _ Hl Hf) as [Hn He].
    assert (Hn' : NoDup (l1 ++ e :: l2)) by (apply nodup_mid in Hn; apply nodup_mid; rewrite not_elem_of_app, not_elem_of_cons in He; tauto).
    eapply exec_put; try done; [set_solver | ]. intros. by apply TAILQ_REPLACE_spec.
Qed.
Lemma read_exec m s o s' r : effect_of o = Reads -> simulates m s -> step s o = Some (s', r) ->
  wp (exec o) m (fun r' m' => r' = r /\ simulates m' s').
Proof.
  intros Ho Hs. destruct o as [ | | | | | | | |h|h|h x|h x|h|h|h| |]; try done; cbn [step exec].
  - intros (l & Hl & [= <- <-])%on_queue_some. rewrite <- first_of_head. apply (wp_tell _ Entry); [done | ]. by eapply TAILQ_FIRST_spec, s_rep.
  - intros (l & Hl & [= <- <-])%on_queue_some. apply (wp_tell _ Entry); [done | ]. by eapply TAILQ_LAST_spec, s_rep.
  - intros (l1 & l2 & Hl & [= <- <-])%on_entry_some. rewrite <- first_of_head. apply (wp_tell _ Entry); [done | ]. by eapply TAILQ_NEXT_spec, s_rep.
  - intros (l1 & l2 & Hl & [= <- <-])%on_entry_some. apply (wp_tell _ Entry); [done | ]. by eapply TAILQ_PREV_spec, s_rep.
  - intros (l & Hl & [= <- <-])%on_queue_some. apply (wp_tell _ Truth); [done | ]. by eapply TAILQ_EMPTY_spec, s_rep.
  - intros (l & Hl & [= <- <-])%on_queue_some. apply (wp_tell _ Entries); [done | ]. eapply TAILQ_FOREACH_spec; [by eapply s_rep | by eapply s_nodup].
  - intros (l & Hl & [= <- <-])%on_queue_some. apply (wp_tell _ Entries); [done | ]. eapply TAILQ_FOREACH_REVERSE_spec; [by eapply s_rep | by eapply s_nodup].
Qed.
Lemma other_exec m s o s' r : effect_of o = Others -> simulates m s -> step s o = Some (s', r) ->
  wp (exec o) m (fun r' m' => r' = r /\ simulates m' s').
Proof.
  intros Ho Hs. destruct o as [h| | | | |h x| |h1 h2| | | | | | | |h drop|h drop]; try done; cbn [step exec].
  - case_bool_decide as Hh; [ | done]. intros [= <- <-]. apply wp_quiet.
    destruct (proj1 (s_alloc _ _ Hs) h Hh) as [Hp Hl]. eapply ewp_mono; [by apply TAILQ_INIT_spec | ].
    intros _ m' [Hr T]. apply (update m m' s h [] []); try done; [constructor | intros; apply not_elem_of_nil].
  - intros (l1 & l2 & Hl & [= <- <-])%on_entry_some. pose proof (s_nodup _ _ Hs _ _ Hl) as Hn.
    eapply exec_less; try done; [by apply nodup_mid in Hn as [] | set_solver | ]. apply TAILQ_REMOVE_spec; [by eapply s_rep | done].
  - destruct (Z.eqb_spec h1 h2) as [|Hne]; [done | ]. intros (l1 & Hl1 & (l2 & Hl2 & [= <- <-])%on_queue_some)%on_queue_some.
    pose proof (apart_app _ _ _ _ _ _ Hs Hl1 Hl2 Hne) as Hn. apply wp_quiet.
    eapply ewp_mono; [apply TAILQ_CONCAT_spec; try done; by eapply s_rep | ]. intros _ m' (Hr1 & Hr2 & T). by apply (update_two m m').
  - intros (l & Hl & [= <- <-])%on_queue_some. pose proof (s_nodup _ _ Hs _ _ Hl) as Hn. apply ewp_bind.
    eapply ewp_mono; [by apply TAILQ_FOREACH_SAFE_spec; [eapply s_rep | ] | ].
    intros l' m' (-> & Hr & T). apply ewp_ret. split; [done | by apply (update_kept m m')].
  - intros (l & Hl & [= <- <-])%on_queue_some. pose proof (s_nodup _ _ Hs _ _ Hl) as Hn. apply ewp_bind.
    eapply ewp_mono; [by apply TAILQ_FOREACH_REVERSE_SAFE_spec; [eapply s_rep | ] | ].
    intros l' m' (-> & Hr & T). apply ewp_ret. split; [done | by apply (update_kept m m')].
Qed.
Lemma step_exec m s o s' r : simulates m s -> step s o = Some (s', r) ->
  wp (exec o) m (fun r' m' => r' = r /\ simulates m' s').
Proof. destruct (effect_of o) eqn:Ho; [by apply read_exec | by apply insert_exec | by apply other_exec]. Qed.

Lemma steps_exec os m s s' rs : simulates m s -> steps s os = Some (s', rs) ->
  wp (exec_all os) m (fun rs' m' => rs' = rs /\ simulates m' s').
Proof.
  revert m s rs. induction os as [|o os IH]; intros m s rs Hs; cbn [steps exec_all].
  - intros [= <- <-]. by apply ewp_ret.
  - destruct (step s o) as [[s1 r]|] eqn:E1; [ | done]. destruct (steps s1 os) as [[s2 rs2]|] eqn:E2; [ | done].
    intros [= <- <-]. apply ewp_bind. eapply ewp_mono; [by eapply step_exec | ]. intros r' m1 [-> Hs1].
    apply ewp_bind. eapply ewp_mono; [by eapply IH | ]. intros rs' m2 [-> Hs2]. by apply ewp_ret.
Qed.
Lemma none_yet m : allocated m -> simulates m ∅.
Proof. intros Ha. by split. Qed.
End Machine.

(* ------------------------------------------------------------------ *)
(** ** No contract of a client *)

Lemma keeps_load l : keeps (load l).
Proof. unfold load. keeps_all. Qed.
Lemma keeps_store l v : keeps (store l v).
Proof. unfold store. keeps_all. Qed.
Lemma keeps_prev a : keeps (prev a).
Proof. unfold prev. keeps_all. Qed.
Lemma keeps_set_prev a l : keeps (set_prev a l).
Proof. unfold set_prev. keeps_all. Qed.
Lemma keeps_last h : keeps (last h).
Proof. unfold last. keeps_all. Qed.
Lemma keeps_set_last h l : keeps (set_last h l).
Proof. unfold set_last. keeps_all. Qed.
#[local] Hint Resolve keeps_load keeps_store keeps_prev keeps_set_prev keeps_last keeps_set_last : keeps.
Lemma keeps_foreach fuel next var : (forall a, keeps (next a)) -> keeps (foreach fuel next var).
Proof. intros Hn. revert var. induction fuel; intros var; cbn [foreach]; keeps_steps. Qed.
Lemma keeps_foreach_safe fuel next body var : (forall a, keeps (next a)) -> (forall a, keeps (body a)) -> keeps (foreach_safe fuel next body var).
Proof. intros Hn Hb. revert var. induction fuel; intros var; cbn [foreach_safe]; keeps_steps. Qed.
#[local] Hint Resolve keeps_foreach keeps_foreach_safe : keeps.
Lemma keeps_exec o : keeps (exec o).
Proof.
  destruct o; cbn [exec]; unfold quiet, TAILQ_FOREACH, TAILQ_FOREACH_REVERSE, TAILQ_FOREACH_SAFE, TAILQ_FOREACH_REVERSE_SAFE, TAILQ_CONCAT, TAILQ_INIT, TAILQ_INSERT_HEAD, TAILQ_INSERT_TAIL, TAILQ_INSERT_AFTER,
    TAILQ_INSERT_BEFORE, TAILQ_REMOVE, TAILQ_REPLACE, TAILQ_EMPTY, TAILQ_FIRST, TAILQ_LAST, TAILQ_NEXT, TAILQ_PREV,
    entries, behind; keeps_steps;
    (apply keeps_foreach || apply keeps_foreach_safe); intros; unfold TAILQ_NEXT, TAILQ_PREV, behind, unlink, TAILQ_REMOVE; keeps_steps.
Qed.
Lemma keeps_exec_all os : keeps (exec_all os).
Proof. induction os; cbn [exec_all]; keeps_steps. apply keeps_exec. Qed.

(* ------------------------------------------------------------------ *)
(** ** The contract *)

(** C15: for any number of heads and entries in memory, and any sequence of the
    macros that a program may use on them (an entry is put where it is in no
    queue yet, taken from and compared in a queue it is in), the tail queues of
    queue.h do what lists do: no pointer that is nowhere is followed, every answer
    (first, last, next and previous entry, emptiness, the walks in both
    directions and the walks that unlink entries as they go) is that of the
    lists, and at the end every queue holds its list. *)
Theorem queues_are_lists hds els m os s rs :
  allocated hds els m -> steps hds els ∅ os = Some (s, rs) ->
  exists m', exec_all os m = Done rs m' /\ forall h l, s !! h = Some l -> rep m' h l.
Proof.
  intros Ha Hs. destruct (wp_total (exec_all os) m _ (keeps_exec_all os) (steps_exec hds els os m ∅ s rs (none_yet hds els m Ha) Hs))
    as (rs' & m' & Hm & -> & Hsim). exists m'. split; [done | ]. apply Hsim.
Qed.

(** Two heads and four entries with garbage in them. *)
Definition two_queues : qmem :=
  Qmem (list_to_map ((fun a => (Next a, 77)) <$> [1; 2; 3; 4]) ∪ list_to_map ((fun h => (First h, 99)) <$> [100; 200]))
    (list_to_map ((fun a => (a, First 5)) <$> [1; 2; 3; 4])) (list_to_map ((fun h => (h, Next 6)) <$> [100; 200])).
Definition some_operations : list op :=
  [Init 100; Init 200; Is_empty 100; Last_of 100; Insert_tail 100 1; Insert_head 100 2; Insert_after 100 2 3; Insert_before 100 1 4;
   Forward 100; Backward 100; Prev_of 100 2; Prev_of 100 4; Next_of 100 1; Remove 100 4; Insert_head 200 4; Sweep_back 100 (Z.eqb 7); Concat 100 200; Last_of 100;
   Sweep 100 Z.odd; Forward 100; Replace 100 4 1; Backward 100; First_of 200].
Lemma queues_are_lists_witness : exists (s : gmap Z (list Z)) m',
  exec_all some_operations two_queues =
    Done [Nothing; Nothing; Truth true; Entry 0; Nothing; Nothing; Nothing; Nothing;
          Entries [2; 3; 4; 1]; Entries [1; 4; 3; 2]; Entry 0; Entry 3; Entry 0; Nothing; Nothing; Entries [1; 3; 2]; Nothing; Entry 4;
          Entries [2; 3; 1; 4]; Entries [2; 4]; Nothing; Entries [1; 2]; Entry 0] m' /\
  forall h l, s !! h = Some l -> rep m' h l.
Proof.
  eexists. apply (queues_are_lists {[100; 200]} {[1; 2; 3; 4]} two_queues some_operations).
  - split.
    + intros h Hh. rewrite elem_of_union, !elem_of_singleton in Hh. destruct Hh as [-> | ->]; split; by eexists.
    + intros e He. rewrite !elem_of_union, !elem_of_singleton in He. destruct He as [[[-> | ->] | ->] | ->]; (split; [done | split; by eexists]).
  - vm_compute. reflexivity.
Defined.
