(* ===== verification/Sem.v ===== *)
(** Sem: the semaphore of sys_linux.cpp, a counter under a pthread mutex with a
    condition variable.  The threads that use one semaphore take their steps in
    any order; a step is one access to memory or one call of pthread.  What POSIX
    leaves open is a choice: who is woken, wake-ups without reason, when a
    deadline that has passed is noticed. *)

From stdpp Require Import gmap.
From S2P Require Import Prelude.
From S2P Require Ev.

Open Scope list_scope.

(** The time of [aloe_sem_wait], in seconds and microseconds. *)
Record dur : Type := Dur { dur_sec : Z; dur_us : Z }.
Inductive call : Type := Post (broadcast : bool) | Wait (d : dur).

(** The deadline [aloe_cond_wait] waits for: none, or the clock and the time. *)
Definition cond_deadline (now : Ev.timespec) (d : dur) : option Ev.timespec :=
  if (dur_sec d =? Ev.ULONG_INFINITE) || (dur_us d =? Ev.ULONG_INFINITE) then None else
  if negb (dur_sec d =? 0) || negb (dur_us d =? 0) then Some (Ev.ts_add now (dur_sec d) (dur_us d)) else Some now.

(** What [aloe_mutex_lock] does with a mutex. *)
Inductive mutex_call : Type := Unlocks | Locks | Tries | Locks_until (t : Ev.timespec).
Definition ULONG_UNLOCK : Z := 18446744073709551614.
Definition aloe_mutex_lock (now : Ev.timespec) (d : dur) : mutex_call :=
  if (dur_sec d =? ULONG_UNLOCK) || (dur_us d =? ULONG_UNLOCK) then Unlocks else
  if (dur_sec d =? Ev.ULONG_INFINITE) || (dur_us d =? Ev.ULONG_INFINITE) then Locks else
  if (dur_sec d =? 0) && (dur_us d =? 0) then Tries else
  Locks_until (Ev.ts_add now (dur_sec d) (dur_us d)).

(** Where a thread is in [aloe_sem_post] ([P_]) or [aloe_sem_wait] ([W_]). *)
Inductive pc : Type :=
  | Idle
  | P_lock (b : bool) | P_test (b : bool) | P_load (b : bool) | P_store (b : bool) (c : Z) | P_wake (b : bool) | P_unlock
  | W_lock (d : dur) | W_test (d : dur) | W_sleep (d : dur) | W_queued (d : dur) (due : option Ev.timespec)
  | W_woken (d : dur) (r : Z) | W_load | W_store (c : Z) | W_unlock (r : Z).
#[global] Instance dur_eq_dec : EqDecision dur.
Proof. solve_decision. Defined.
#[global] Instance pc_eq_dec : EqDecision pc.
Proof. solve_decision. Defined.

(** The semaphore, who holds its mutex, the threads that are not idle, and
    CLOCK_REALTIME in nanoseconds. *)
Record world : Type := World { owner : option nat; cnt : Z; max : Z; pcs : gmap nat pc; clock : Z }.
Definition pc_of (w : world) (t : nat) : pc := default Idle (pcs w !! t).
Definition goto (t : nat) (p : pc) (w : world) : world := World (owner w) (cnt w) (max w) (<[t := p]> (pcs w)) (clock w).
Definition set_owner (o : option nat) (w : world) : world := World o (cnt w) (max w) (pcs w) (clock w).
Definition set_cnt (c : Z) (w : world) : world := World (owner w) c (max w) (pcs w) (clock w).

(** What is seen from outside: calls, returns, time passing. *)
Inductive label : Type := Called (t : nat) (c : call) | Returned (t : nat) (r : Z) | Passed (n : Z).

(** A step that cannot be taken, one whose behaviour is undefined, and the next
    state. *)
Inductive outcome : Type := Blocked | Undefined | Next (l : option label) (w : world).

Definition lock (t : nat) (p : pc) (w : world) : outcome :=
  match owner w with None => Next None (goto t p (set_owner (Some t) w)) | Some _ => Blocked end.
(** A mutex is unlocked by its owner. *)
Definition owns (t : nat) (w : world) : bool := bool_decide (owner w = Some t).
Definition unlock (t : nat) (r : Z) (w : world) : outcome :=
  if owns t w then Next (Some (Returned t r)) (goto t Idle (set_owner None w)) else Undefined.

Definition is_queued (p : pc) : bool := match p with W_queued _ _ => true | _ => false end.
Definition someone_queued (sel : nat -> bool) (w : world) : bool :=
  bool_decide (map_Exists (fun t p => is_queued p && sel t) (pcs w)).
Definition woken (r : Z) (p : pc) : pc := match p with W_queued d _ => W_woken d r | _ => p end.
Definition wake (sel : nat -> bool) (w : world) : world :=
  World (owner w) (cnt w) (max w) (map_imap (fun t p => Some (if sel t then woken 0 p else p)) (pcs w)) (clock w).

Definition now (w : world) : Ev.timespec := (clock w / Ev.GIGA, clock w mod Ev.GIGA).
Definition is_due (due : option Ev.timespec) (w : world) : bool :=
  match due with Some (s, n) => s * Ev.GIGA + n <=? clock w | None => false end.
Definition ETIMEDOUT : Z := 110.

(** Which threads pthread_cond_signal wakes, and the error of a clock that
    cannot be read. *)
Inductive choice : Type := Go | Wakes (ts : list nat) | No_clock (e : Z).

(** The next step of a thread. *)
Definition thread_step (t : nat) (ch : choice) (w : world) : outcome :=
  match pc_of w t with
  | Idle | W_queued _ _ => Blocked
  | P_lock b => lock t (P_test b) w
  | P_test b => Next None (goto t (if cnt w <? max w then P_load b else P_unlock) w)
  | P_load b => Next None (goto t (P_store b (cnt w)) w)
  | P_store b c => Next None (goto t (if c + 1 =? 1 then P_wake b else P_unlock) (set_cnt (c + 1) w))
  | P_wake true => Next None (goto t P_unlock (wake (fun _ => true) w))
  | P_wake false =>
      match ch with
      | Wakes ts =>
          let sel t' := bool_decide (t' ∈ ts) in
          if negb (someone_queued (fun _ => true) w) || someone_queued sel w then Next None (goto t P_unlock (wake sel w)) else Blocked
      | _ => Blocked
      end
  | P_unlock => unlock t 0 w
  | W_lock d => lock t (W_test d) w
  | W_test d => Next None (goto t (if cnt w =? 0 then W_sleep d else W_load) w)
  | W_sleep d =>
      match ch, cond_deadline (now w) d with
      | No_clock e, Some _ => if (e =? 0) || (e =? ETIMEDOUT) then Blocked else Next None (goto t (W_unlock e) w)
      | _, due => if owns t w then Next None (goto t (W_queued d due) (set_owner None w)) else Undefined
      end
  | W_woken d r => lock t (if r =? 0 then W_test d else W_unlock r) w
  | W_load => Next None (goto t (W_store (cnt w)) w)
  | W_store c => Next None (goto t (W_unlock 0) (set_cnt (c - 1) w))
  | W_unlock r => unlock t r w
  end.

(** What happens next: a step of a thread, a call, a wake-up without reason, a
    deadline noticed, time. *)
Inductive move : Type :=
  | Steps (t : nat) (ch : choice) | Calls (t : nat) (c : call) | Spurious (t : nat) | Times_out (t : nat) | Ticks (n : Z).
Definition move_step (mv : move) (w : world) : outcome :=
  match mv with
  | Steps t ch => thread_step t ch w
  | Calls t c =>
      match pc_of w t with
      | Idle => Next (Some (Called t c)) (goto t (match c with Post b => P_lock b | Wait d => W_lock d end) w)
      | _ => Blocked
      end
  | Spurious t => match pc_of w t with W_queued d _ => Next None (goto t (W_woken d 0) w) | _ => Blocked end
  | Times_out t =>
      match pc_of w t with
      | W_queued d due => if is_due due w then Next None (goto t (W_woken d ETIMEDOUT) w) else Blocked
      | _ => Blocked
      end
  | Ticks n => if n <? 0 then Blocked else Next (Some (Passed n)) (World (owner w) (cnt w) (max w) (pcs w) (clock w + n))
  end.

(** [aloe_sem_init]. *)
Definition aloe_sem_init (mx c : Z) (time : Z) : world := World None c mx ∅ time.

(** A run, and what is seen of it. *)
Inductive run (w0 : world) : list label -> world -> Prop :=
  | Run_start : run w0 [] w0
  | Run_step tr w mv l w' : run w0 tr w -> move_step mv w = Next l w' -> run w0 (tr ++ option_list l) w'.

(** The same for given moves. *)
Fixpoint play (mvs : list move) (w : world) : option (list label * world) :=
  match mvs with
  | [] => Some ([], w)
  | mv :: mvs' =>
      match move_step mv w with
      | Next l w' => match play mvs' w' with Some (tr, w'') => Some (option_list l ++ tr, w'') | None => None end
      | _ => None
      end
  end.
