(* ===== verification/SemSpec.v ===== *)
(** SemSpec: the semaphore is an atomic counter, and when it forgets no waiter. *)

From stdpp Require Import gmap.
From S2P Require Import Prelude Sem.
From S2P Require Ev.

Open Scope list_scope.

(* ------------------------------------------------------------------ *)
(** ** The kinds of moves *)

Inductive enters : pc -> pc -> Prop :=
  | E_post b : enters (P_lock b) (P_test b)
  | E_wait d : enters (W_lock d) (W_test d)
  | E_again d : enters (W_woken d 0) (W_test d)
  | E_fails d r : r <> 0 -> enters (W_woken d r) (W_unlock r).
(** What a thread that holds the mutex does without writing to the counter. *)
Inductive inside (w : world) : pc -> pc -> Prop :=
  | I_room b : cnt w < max w -> inside w (P_test b) (P_load b)
  | I_full b : max w <= cnt w -> inside w (P_test b) P_unlock
  | I_load b : inside w (P_load b) (P_store b (cnt w))
  | I_none d : cnt w = 0 -> inside w (W_test d) (W_sleep d)
  | I_some d : cnt w <> 0 -> inside w (W_test d) W_load
  | I_take : inside w W_load (W_store (cnt w))
  | I_no_clock d e due : e <> 0 -> e <> ETIMEDOUT -> cond_deadline (now w) d = Some due -> inside w (W_sleep d) (W_unlock e).
Inductive leaves : pc -> Z -> Prop :=
  | L_post : leaves P_unlock 0
  | L_wait r : leaves (W_unlock r) r.
Definition starts (c : call) : pc := match c with Post b => P_lock b | Wait d => W_lock d end.
Inductive moves (w : world) : option label -> world -> Prop :=
  | M_enter t p : owner w = None -> enters (pc_of w t) p -> moves w None (goto t p (set_owner (Some t) w))
  | M_inside t p : inside w (pc_of w t) p -> moves w None (goto t p w)
  | M_give t b c : pc_of w t = P_store b c ->
      moves w None (goto t (if c + 1 =? 1 then P_wake b else P_unlock) (set_cnt (c + 1) w))
  | M_take t c : pc_of w t = W_store c -> moves w None (goto t (W_unlock 0) (set_cnt (c - 1) w))
  | M_wake t b sel : pc_of w t = P_wake b -> (b = true -> forall t', sel t' = true) ->
      (forall t', is_queued (pc_of w t') = true -> exists t'', is_queued (pc_of w t'') = true /\ sel t'' = true) ->
      moves w None (goto t P_unlock (wake sel w))
  | M_queue t d : pc_of w t = W_sleep d -> owner w = Some t ->
      moves w None (goto t (W_queued d (cond_deadline (now w) d)) (set_owner None w))
  | M_leave t r : leaves (pc_of w t) r -> owner w = Some t -> moves w (Some (Returned t r)) (goto t Idle (set_owner None w))
  | M_call t c : pc_of w t = Idle -> moves w (Some (Called t c)) (goto t (starts c) w)
  | M_rouse t d due r : pc_of w t = W_queued d due -> r = 0 \/ r = ETIMEDOUT /\ is_due due w = true ->
      moves w None (goto t (W_woken d r) w)
  | M_tick n : 0 <= n -> moves w (Some (Passed n)) (World (owner w) (cnt w) (max w) (pcs w) (clock w + n)).

Lemma someone_queued_spec sel w : someone_queued sel w = true <-> exists t, is_queued (pc_of w t) = true /\ sel t = true.
Proof.
  unfold someone_queued. rewrite bool_decide_eq_true. split.
  - intros (t & p & Hp & H). apply Is_true_eq_true, andb_prop in H as [Hq Hs]. exists t. unfold pc_of. by rewrite Hp.
  - intros (t & Hq & Hs). unfold pc_of in Hq. destruct (pcs w !! t) as [p|] eqn:E; [ | done]. exists t, p. cbn in Hq. by rewrite Hq, Hs.
Qed.

Lemma lock_moves t p w l w' : enters (pc_of w t) p -> lock t p w = Next l w' -> moves w l w'.
Proof. unfold lock. destruct (owner w) eqn:E; [done | ]. intros Hp [= <- <-]. by apply M_enter. Qed.
Lemma unlock_moves t r w l w' : leaves (pc_of w t) r -> unlock t r w = Next l w' -> moves w l w'.
Proof. unfold unlock, owns. case_bool_decide; [ | done]. intros Hp [= <- <-]. by apply M_leave. Qed.

Lemma step_moves t ch w l w' : thread_step t ch w = Next l w' -> moves w l w'.
Proof.
  unfold thread_step. destruct (pc_of w t) as [ |b|b|b|b c|[]| |d|d|d|d due|d r| |c|r] eqn:E; try done.
  - apply lock_moves. rewrite E. constructor.
  - intros [= <- <-]. apply M_inside. rewrite E. destruct (Z.ltb_spec (cnt w) (max w)); by constructor.
  - intros [= <- <-]. apply M_inside. rewrite E. constructor.
  - intros [= <- <-]. by apply M_give.
  - intros [= <- <-]. by eapply M_wake; [ | | eauto].
  - destruct ch as [|ts|e]; try done. destruct (negb _ || _) eqn:Eq; [ | done]. intros [= <- <-].
    eapply M_wake; [done | done | ]. intros t' Ht'. apply orb_prop in Eq as [Hn | Hs].
    + exfalso. apply negb_true_iff in Hn. rewrite <- not_true_iff_false, someone_queued_spec in Hn. eauto.
    + by apply someone_queued_spec.
  - apply unlock_moves. rewrite E. constructor.
  - apply lock_moves. rewrite E. constructor.
  - intros [= <- <-]. apply M_inside. rewrite E. destruct (Z.eqb_spec (cnt w) 0); by constructor.
  - assert (Hq : (if owns t w then Next None (goto t (W_queued d (cond_deadline (now w) d)) (set_owner None w)) else Undefined) = Next l w' -> moves w l w').
    { unfold owns. case_bool_decide; [ | done]. intros [= <- <-]. by apply M_queue. }
    destruct ch as [|ts|e]; [done | done | ]. destruct (cond_deadline (now w) d) as [due|] eqn:Ed; [ | done].
    destruct (Z.eqb_spec e 0); [done | ]. destruct (Z.eqb_spec e ETIMEDOUT); [done | ]. intros [= <- <-].
    apply M_inside. rewrite E. by econstructor.
  - apply lock_moves. rewrite E. destruct (Z.eqb_spec r 0) as [E0 | ]; [rewrite E0; constructor | by constructor].
  - intros [= <- <-]. apply M_inside. rewrite E. constructor.
  - intros [= <- <-]. by apply M_take.
  - apply unlock_moves. rewrite E. constructor.
Qed.
Lemma move_moves mv w l w' : move_step mv w = Next l w' -> moves w l w'.
Proof.
  destruct mv as [t ch|t c|t|t|n]; cbn [move_step]; [apply step_moves | | | | ].
  - destruct (pc_of w t) eqn:E; try done. intros [= <- <-]. by apply M_call.
  - destruct (pc_of w t) eqn:E; try done. intros [= <- <-]. eapply M_rouse; [done | by left].
  - destruct (pc_of w t) eqn:E; try done. destruct (is_due _ w) eqn:Ed; [ | done]. intros [= <- <-]. eapply M_rouse; [done | by right].
  - destruct (Z.ltb_spec n 0); [done | ]. intros [= <- <-]. by apply M_tick.
Qed.

(* ------------------------------------------------------------------ *)
(** ** The mutex *)

(** Between taking the mutex and giving it back. *)
Definition in_cs (p : pc) : bool :=
  match p with
  | P_test _ | P_load _ | P_store _ _ | P_wake _ | P_unlock | W_test _ | W_sleep _ | W_load | W_store _ | W_unlock _ => true
  | _ => false
  end.
(** What a thread in there knows of the counter. *)
Definition knows (c mx : Z) (p : pc) : Prop :=
  match p with
  | P_load _ => c < mx
  | P_store _ c' => c' = c /\ c < mx
  | W_sleep _ => c = 0
  | W_load => 0 < c
  | W_store c' => c' = c /\ 0 < c
  | _ => True
  end.
Record inv (w : world) : Prop := Inv {
  i_cnt : 0 <= cnt w <= max w;
  i_owner t : in_cs (pc_of w t) = true <-> owner w = Some t;
  i_knows t : knows (cnt w) (max w) (pc_of w t);
}.

Lemma pc_of_goto t p w t' : pc_of (goto t p w) t' = if decide (t = t') then p else pc_of w t'.
Proof. unfold pc_of, goto. cbn [pcs]. destruct (decide (t = t')) as [-> |]; [by rewrite lookup_insert_eq | by rewrite lookup_insert_ne]. Qed.
Lemma pc_of_wake sel w t : pc_of (wake sel w) t = if sel t then woken 0 (pc_of w t) else pc_of w t.
Proof. unfold pc_of, wake. cbn [pcs]. rewrite map_lookup_imap. destruct (pcs w !! t) as [p|]; cbn; [by destruct (sel t) | by destruct (sel t)]. Qed.
Lemma woken_in_cs r p : in_cs (woken r p) = in_cs p.
Proof. by destruct p. Qed.
Lemma outside_knows c mx p : in_cs p = false -> knows c mx p.
Proof. by destruct p. Qed.

(** The thread that holds the mutex, or may take it, goes on. *)
Lemma inv_inside w t p o c : inv w -> owner w = Some t \/ owner w = None ->
  in_cs p = bool_decide (o = Some t) -> o = Some t \/ o = None -> 0 <= c <= max w -> knows c (max w) p ->
  inv (World o c (max w) (<[t := p]> (pcs w)) (clock w)).
Proof.
  intros [Hc Ho Hk] Hown Hp Ho' Hc' Hk'.
  assert (Hoth : forall t', t' <> t -> in_cs (pc_of w t') = false).
  { intros t' Hne. apply not_true_is_false. intros H%Ho. destruct Hown; congruence. }
  split; [done | | ]; intros t'; change (pc_of _ t') with (pc_of (goto t p w) t'); rewrite pc_of_goto; destruct (decide (t = t')) as [<- | Hne]; cbn [cnt max owner].
  - rewrite Hp. by rewrite bool_decide_eq_true.
  - rewrite Hoth by done. split; [done | ]. destruct Ho' as [-> | ->]; congruence.
  - done.
  - apply outside_knows, Hoth. done.
Qed.
(** A thread outside goes on outside. *)
Lemma inv_outside w t p : inv w -> in_cs (pc_of w t) = false -> in_cs p = false -> inv (goto t p w).
Proof.
  intros [Hc Ho Hk] Ht Hp. split; [done | | ]; intros t'; rewrite pc_of_goto; destruct (decide (t = t')) as [<- | Hne]; try apply Ho || apply Hk.
  - rewrite <- Ho, Hp, Ht. done.
  - by apply outside_knows.
Qed.
Lemma inv_wake sel w : inv w -> inv (wake sel w).
Proof.
  intros [Hc Ho Hk]. split; [done | | ]; intros t; rewrite pc_of_wake; destruct (sel t); try apply Ho || apply Hk.
  - rewrite woken_in_cs. apply Ho.
  - specialize (Hk t). by destruct (pc_of w t).
Qed.

Lemma inv_start mx c time : 0 <= c <= mx -> inv (aloe_sem_init mx c time).
Proof. intros Hc. by split. Qed.

Lemma inv_moves w l w' : inv w -> moves w l w' -> inv w'.
Proof.
  intros Hi H. pose proof (i_cnt _ Hi) as Hc.
  assert (Hown : forall t p, pc_of w t = p -> in_cs p = true -> owner w = Some t /\ knows (cnt w) (max w) p).
  { intros t p <- Hp. split; [by apply Hi | apply Hi]. }
  destruct H as [t p Ho He|t p He|t b c He|t c He|t b sel He Ha Hs|t d He Ho|t r He Ho|t c He|t d due r He Hr|n Hn].
  - apply (inv_inside w t p (Some t) (cnt w)); [done | by right | | by left | done | by destruct He].
    destruct He; symmetry; by apply bool_decide_eq_true_2.
  - destruct (Hown t _ eq_refl) as [Ho Hk]; [by destruct He | ].
    apply (inv_inside w t p (owner w) (cnt w)); [done | by left | | by left | done | destruct He; cbn in *; lia].
    rewrite bool_decide_true by done. by destruct He.
  - destruct (Hown t _ He) as [Ho Hk]; [done | ]. destruct Hk as [-> Hk].
    apply (inv_inside w t _ (owner w) (cnt w + 1)); [done | by left | | by left | lia | by destruct (_ =? 1)].
    rewrite bool_decide_true by done. by destruct (_ =? 1).
  - destruct (Hown t _ He) as [Ho Hk]; [done | ]. destruct Hk as [-> Hk].
    apply (inv_inside w t _ (owner w) (cnt w - 1)); [done | by left | by rewrite bool_decide_true | by left | lia | done].
  - apply (inv_wake sel) in Hi as Hw. destruct (Hown t _ He) as [Ho _]; [done | ].
    apply (inv_inside (wake sel w) t P_unlock (owner w) (cnt w)); [done | by left | by rewrite bool_decide_true | by left | done | done].
  - apply (inv_inside w t _ None (cnt w)); [done | by left | done | by right | done | done].
  - apply (inv_inside w t _ None (cnt w)); [done | by left | done | by right | done | done].
  - apply inv_outside; [done | by rewrite He | by destruct c].
  - apply inv_outside; [done | by rewrite He | done].
  - destruct Hi as [_ Ho Hk]. by split.
Qed.
Lemma sem_inv_run mx c time tr w : 0 <= c <= mx -> run (aloe_sem_init mx c time) tr w -> inv w.
Proof. intros Hc. induction 1; [by apply inv_start | ]. eapply inv_moves; [done | by eapply move_moves]. Qed.

(* ------------------------------------------------------------------ *)
(** ** The atomic counter *)

Definition GIGA : Z := Ev.GIGA.
(** How long a call waits, in nanoseconds; a call that may give up. *)
Definition duration (d : dur) : Z := dur_sec d * GIGA + dur_us d * 1000.
Definition timed (d : dur) : bool := negb ((dur_sec d =? Ev.ULONG_INFINITE) || (dur_us d =? Ev.ULONG_INFINITE)).
(** Times that do not overflow. *)
Definition fits (since at_ : Z) (d : dur) : Prop :=
  0 <= since /\ at_ < 2 ^ 60 * GIGA /\ 0 <= dur_sec d < 2 ^ 60 /\ 0 <= dur_us d < 2 ^ 52.

(** A call that has begun, and when; one that has been decided. *)
Inductive phase : Type := Begun (c : call) (since : Z) | Decided (r : Z).
Record spec : Type := Spec { left_ : Z; phases : gmap nat phase; time : Z }.
Definition decide_call (t : nat) (r : Z) (n : Z) (s : spec) : spec := Spec n (<[t := Decided r]> (phases s)) (time s).

(** A counter of at most [mx]: every call does its work at one moment between its
    call and its return. *)
Inductive spec_step (mx : Z) (s : spec) : option label -> spec -> Prop :=
  | Begins t c : phases s !! t = None -> spec_step mx s (Some (Called t c)) (Spec (left_ s) (<[t := Begun c (time s)]> (phases s)) (time s))
  | Gives t b since : phases s !! t = Some (Begun (Post b) since) -> left_ s < mx -> spec_step mx s None (decide_call t 0 (left_ s + 1) s)
  | Is_full t b since : phases s !! t = Some (Begun (Post b) since) -> left_ s = mx -> spec_step mx s None (decide_call t 0 (left_ s) s)
  | Takes t d since : phases s !! t = Some (Begun (Wait d) since) -> 0 < left_ s -> spec_step mx s None (decide_call t 0 (left_ s - 1) s)
  | Gives_up t d since r : phases s !! t = Some (Begun (Wait d) since) -> r <> 0 -> timed d = true ->
      (r = ETIMEDOUT -> fits since (time s) d -> since + duration d <= time s) ->
      spec_step mx s None (decide_call t r (left_ s) s)
  | Returns t r : phases s !! t = Some (Decided r) -> spec_step mx s (Some (Returned t r)) (Spec (left_ s) (delete t (phases s)) (time s))
  | Waits n : 0 <= n -> spec_step mx s (Some (Passed n)) (Spec (left_ s) (phases s) (time s + n)).
Inductive spec_run (mx : Z) (s0 : spec) : list label -> spec -> Prop :=
  | Spec_start : spec_run mx s0 [] s0
  | Spec_more tr s l s' : spec_run mx s0 tr s -> spec_step mx s l s' -> spec_run mx s0 (tr ++ option_list l) s'.

(** The deadline is the clock and the duration. *)
Lemma s64_fits z : 0 <= z < 9223372036854775808 -> Ev.s64 z = z.
Proof. intros H. unfold Ev.s64. rewrite Z.mod_small; lia. Qed.
Lemma u64_fits z : 0 <= z < 18446744073709551616 -> u64 z = z.
Proof. intros H. unfold u64. by apply Z.mod_small. Qed.
Lemma ts_add_sum s0 n0 sec usec : 0 <= s0 < 2 ^ 60 -> 0 <= n0 < GIGA -> 0 <= sec < 2 ^ 60 -> 0 <= usec < 2 ^ 52 ->
  let '(s, n) := Ev.ts_add (s0, n0) sec usec in s * GIGA + n = (s0 + sec) * GIGA + n0 + usec * 1000.
Proof.
  unfold GIGA, Ev.GIGA. intros Hs Hn Hsec Hus. change (2 ^ 60) with 1152921504606846976 in *. change (2 ^ 52) with 4503599627370496 in *.
  unfold Ev.ts_add, Ev.GIGA. cbv zeta. cbn [fst snd].
  rewrite (u64_fits (usec * 1000)) by lia. rewrite (s64_fits (s0 + sec)), (s64_fits (n0 + usec * 1000)) by lia.
  rewrite (u64_fits (n0 + usec * 1000)) by lia. set (x := n0 + usec * 1000).
  pose proof (Z.div_mod x 1000000000 ltac:(lia)). pose proof (Z.mod_pos_bound x 1000000000 ltac:(lia)).
  destruct (Z.leb_spec 1000000000 x); [ | unfold x in *; lia].
  rewrite s64_fits by (unfold x in *; lia). unfold x in *. lia.
Qed.
Lemma deadline_at c d s n : cond_deadline (c / GIGA, c mod GIGA) d = Some (s, n) ->
  timed d = true /\ (fits 0 c d -> 0 <= c -> s * GIGA + n = c + duration d).
Proof.
  unfold cond_deadline, timed, duration. destruct (_ || _); [done | ]. intros H. split; [done | ]. intros (_ & Hc & Hsec & Hus) H0.
  assert (HG : 0 < GIGA) by done. pose proof (Z.div_mod c GIGA ltac:(lia)). pose proof (Z.mod_pos_bound c GIGA HG).
  destruct (_ || _) eqn:E.
  - injection H as H. pose proof (ts_add_sum (c / GIGA) (c mod GIGA) (dur_sec d) (dur_us d)) as Hsum. rewrite H in Hsum. rewrite Hsum; try done; [lia | ].
    split; [by apply Z.div_pos | apply Z.div_lt_upper_bound; lia].
  - injection H as <- <-. apply orb_false_elim in E as [E1 E2]. apply negb_false_iff, Z.eqb_eq in E1, E2. lia.
Qed.

(** How far a call is, for a thread in the middle of the code. *)
Definition deadline_kept (since at_ : Z) (d : dur) (due : option Ev.timespec) : Prop :=
  forall s n, due = Some (s, n) -> timed d = true /\ (fits since at_ d -> since + duration d <= s * GIGA + n).
Definition phase_ok (at_ : Z) (p : pc) (o : option phase) : Prop :=
  match p with
  | Idle => o = None
  | P_lock b | P_test b | P_load b | P_store b _ => exists since, o = Some (Begun (Post b) since)
  | P_wake _ | P_unlock => o = Some (Decided 0)
  | W_lock d | W_test d | W_sleep d => exists since, o = Some (Begun (Wait d) since) /\ since <= at_
  | W_queued d due => exists since, o = Some (Begun (Wait d) since) /\ since <= at_ /\ deadline_kept since at_ d due
  | W_woken d r => exists since, o = Some (Begun (Wait d) since) /\ since <= at_ /\
      (r <> 0 -> timed d = true /\ (fits since at_ d -> since + duration d <= at_))
  | W_load | W_store _ => exists d since, o = Some (Begun (Wait d) since)
  | W_unlock r => o = Some (Decided r)
  end.
Lemma fits_before since at_ n d : 0 <= n -> fits since (at_ + n) d -> fits since at_ d.
Proof. unfold fits. intros. lia. Qed.
Lemma phase_later at_ n p o : 0 <= n -> phase_ok at_ p o -> phase_ok (at_ + n) p o.
Proof.
  intros Hn. destruct p; try done; cbn [phase_ok].
  1-3: intros (since & ? & ?); exists since; (split; [done | lia]).
  - intros (since & ? & ? & Hd). exists since. split; [done | split; [lia | ]]. intros s k Hs. destruct (Hd s k Hs) as [Ht Hk].
    split; [done | ]. intros Hf. apply Hk. by eapply fits_before.
  - intros (since & ? & ? & Hd). exists since. split; [done | split; [lia | ]]. intros Hr. destruct (Hd Hr) as [Ht Hk].
    split; [done | ]. intros Hf. apply fits_before in Hf as Hf'; [ | done]. specialize (Hk Hf'). lia.
Qed.

Record sim (w : world) (s : spec) : Prop := Sim {
  sim_inv : inv w;
  sim_left : left_ s = cnt w;
  sim_time : time s = clock w;
  sim_phase t : phase_ok (clock w) (pc_of w t) (phases s !! t);
}.

(** One thread goes on, with a new phase or the old one. *)
Lemma sim_goes w s w' t p ph : sim w s -> inv w' -> pcs w' = <[t := p]> (pcs w) -> clock w' = clock w ->
  phase_ok (clock w) p (ph !! t) -> (forall t', t' <> t -> ph !! t' = phases s !! t') -> sim w' (Spec (cnt w') ph (time s)).
Proof.
  intros [Hi Hl Ht Hp] Hi' Hpcs Hc Hok Hoth. split; [done | done | by rewrite Hc | ]. intros t'. rewrite Hc. cbn [phases].
  unfold pc_of. rewrite Hpcs. change (default Idle (<[t := p]> (pcs w) !! t')) with (pc_of (goto t p w) t'). rewrite pc_of_goto.
  destruct (decide (t = t')) as [<- | Hne]; [done | ]. rewrite Hoth by done. apply Hp.
Qed.
Lemma sim_same w s w' t p : sim w s -> inv w' -> pcs w' = <[t := p]> (pcs w) -> clock w' = clock w -> cnt w' = cnt w ->
  phase_ok (clock w) p (phases s !! t) -> sim w' s.
Proof.
  intros Hs Hi Hpcs Hc Hn Hok. destruct s as [n ph tm]. pose proof (sim_left _ _ Hs) as Hl. cbn in Hl. rewrite Hl, <- Hn.
  apply (sim_goes w (Spec n ph tm) w' t p ph); done.
Qed.
Lemma sim_wake w s sel : sim w s -> sim (wake sel w) s.
Proof.
  intros [Hi Hl Ht Hp]. split; [by apply inv_wake | done | done | ]. intros t. rewrite pc_of_wake. specialize (Hp t).
  destruct (sel t); [ | done]. destruct (pc_of w t); try done. destruct Hp as (since & ? & ? & _). by exists since.
Qed.

(** A step of the code is a step of the counter or none. *)
Definition follows (mx : Z) (s : spec) (l : option label) (s' : spec) : Prop := l = None /\ s' = s \/ spec_step mx s l s'.

(** The call of a thread is decided. *)
Lemma sim_decides w s w' t p r : sim w s -> inv w' -> pcs w' = <[t := p]> (pcs w) -> clock w' = clock w ->
  phase_ok (clock w) p (Some (Decided r)) -> sim w' (decide_call t r (cnt w') s).
Proof.
  intros Hs Hi Hp Hc Hok. apply (sim_goes w s w' t p); try done; [by rewrite lookup_insert_eq | ].
  intros t' Hne. by rewrite lookup_insert_ne.
Qed.

Lemma enter_follows w s t p : sim w s -> inv (goto t p (set_owner (Some t) w)) -> owner w = None -> enters (pc_of w t) p ->
  exists s', follows (max w) s None s' /\ sim (goto t p (set_owner (Some t) w)) s'.
Proof.
  intros Hs Hi' Ho He. pose proof (sim_phase _ _ Hs t) as Hp. rewrite <- (sim_time _ _ Hs) in Hp.
  inversion He as [b E E'|d E E'|d E E'|d r Hr E E']; subst p; rewrite <- E in Hp; cbn [phase_ok] in Hp.
  - exists s. split; [by left | ]. by apply (sim_same w s _ t (P_test b)).
  - exists s. split; [by left | ]. apply (sim_same w s _ t (W_test d)); try done. by rewrite <- (sim_time _ _ Hs).
  - exists s. split; [by left | ]. apply (sim_same w s _ t (W_test d)); try done. rewrite <- (sim_time _ _ Hs).
    destruct Hp as (since & ? & ? & _). by exists since.
  - destruct Hp as (since & Hph & Hle & Hd). destruct (Hd Hr) as [Ht Hlate].
    eexists. split; [right; by apply (Gives_up _ _ t d since r) | ]. rewrite (sim_left _ _ Hs).
    by apply (sim_decides w s (goto t (W_unlock r) (set_owner (Some t) w)) t (W_unlock r) r).
Qed.

Lemma inside_follows w s t p : sim w s -> inv (goto t p w) -> inside w (pc_of w t) p ->
  exists s', follows (max w) s None s' /\ sim (goto t p w) s'.
Proof.
  intros Hs Hi' He. pose proof (sim_phase _ _ Hs t) as Hp. pose proof (i_cnt _ (sim_inv _ _ Hs)) as Hc.
  assert (Hsame : phase_ok (clock w) p (phases s !! t) -> exists s', follows (max w) s None s' /\ sim (goto t p w) s').
  { intros Hok. exists s. split; [by left | ]. by apply (sim_same w s _ t p). }
  inversion He as [b Hm E E'|b Hm E E'|b E E'|d Hz E E'|d Hz E E'|E E'|d e due H0 H1 Hd E E']; subst p; rewrite <- E in Hp; cbn [phase_ok] in Hp;
    try (apply Hsame; cbn [phase_ok]; done || (destruct Hp as (since & ? & ?); by eexists d, since)).
  - destruct Hp as (since & Hph). exists (decide_call t 0 (left_ s) s). split.
    + right. apply (Is_full _ _ t b since); [done | ]. rewrite (sim_left _ _ Hs). lia.
    + rewrite (sim_left _ _ Hs). by apply (sim_decides w s (goto t P_unlock w) t P_unlock 0).
  - destruct Hp as (since & Hph & _). exists (decide_call t e (left_ s) s). split.
    + right. apply (Gives_up _ _ t d since e); [done | done | | done]. destruct due as [x n]. exact (proj1 (deadline_at (clock w) d x n Hd)).
    + rewrite (sim_left _ _ Hs). by apply (sim_decides w s (goto t (W_unlock e) w) t (W_unlock e) e).
Qed.

Lemma counter_follows w s t w' : sim w s -> inv w' ->
  (exists b c, pc_of w t = P_store b c /\ w' = goto t (if c + 1 =? 1 then P_wake b else P_unlock) (set_cnt (c + 1) w)) \/
  (exists c, pc_of w t = W_store c /\ w' = goto t (W_unlock 0) (set_cnt (c - 1) w)) ->
  exists s', follows (max w) s None s' /\ sim w' s'.
Proof.
  intros Hs Hi' H. pose proof (sim_phase _ _ Hs t) as Hp. pose proof (i_knows _ (sim_inv _ _ Hs) t) as Hk.
  pose proof (sim_left _ _ Hs) as Hl.
  destruct H as [(b & c & E & ->) | (c & E & ->)]; rewrite E in Hp, Hk; destruct Hk as [-> Hk].
  - destruct Hp as (since & Hph). exists (decide_call t 0 (cnt w + 1) s). split.
    + right. rewrite <- Hl. apply (Gives _ _ t b since); [done | by rewrite Hl].
    + refine (sim_decides w s (goto t _ (set_cnt (cnt w + 1) w)) t _ 0 Hs Hi' eq_refl eq_refl _). by destruct (_ =? 1).
  - destruct Hp as (d & since & Hph). exists (decide_call t 0 (cnt w - 1) s). split.
    + right. rewrite <- Hl. apply (Takes _ _ t d since); [done | by rewrite Hl].
    + exact (sim_decides w s (goto t _ (set_cnt (cnt w - 1) w)) t (W_unlock 0) 0 Hs Hi' eq_refl eq_refl eq_refl).
Qed.

Lemma sim_moves w s l w' : sim w s -> moves w l w' -> exists s', follows (max w) s l s' /\ sim w' s'.
Proof.
  intros Hs H. pose proof (inv_moves _ _ _ (sim_inv _ _ Hs) H) as Hi'.
  destruct H as [t p Ho He|t p He|t b c He|t c He|t b sel He Ha Hq|t d He Ho|t r He Ho|t c He|t d due r He Hr|n Hn].
  - by apply enter_follows.
  - by apply inside_follows.
  - apply (counter_follows w s t); [done | done | left; eauto].
  - apply (counter_follows w s t); [done | done | right; eauto].
  - exists s. split; [by left | ]. apply (sim_same (wake sel w) s _ t P_unlock); try done; [by apply sim_wake | ].
    pose proof (sim_phase _ _ Hs t) as Hp. by rewrite He in Hp.
  - exists s. split; [by left | ]. apply (sim_same w s _ t (W_queued d (cond_deadline (now w) d))); try done.
    pose proof (sim_phase _ _ Hs t) as Hp. rewrite He in Hp. destruct Hp as (since & Hph & Hle). exists since. split; [done | split; [done | ]].
    intros x n Hx. apply deadline_at in Hx as [Ht Hx]. split; [done | ]. intros (H0 & H1 & H2). rewrite Hx; [lia | | lia].
    by split.
  - pose proof (sim_phase _ _ Hs t) as Hp. exists (Spec (left_ s) (delete t (phases s)) (time s)). split.
    + right. apply Returns. by destruct He.
    + rewrite (sim_left _ _ Hs). apply (sim_goes w s (goto t Idle (set_owner None w)) t Idle); try done; [by rewrite lookup_delete_eq | ].
      intros t' Hne. by rewrite lookup_delete_ne.
  - pose proof (sim_phase _ _ Hs t) as Hp. rewrite He in Hp.
    exists (Spec (left_ s) (<[t := Begun c (time s)]> (phases s)) (time s)). split; [right; by apply Begins | ].
    rewrite (sim_left _ _ Hs). apply (sim_goes w s (goto t (starts c) w) t (starts c)); try done; [ | by intros t' Hne; rewrite lookup_insert_ne].
    rewrite lookup_insert_eq, (sim_time _ _ Hs). destruct c; cbn; [by eexists | ]. eexists. split; [done | lia].
  - exists s. split; [by left | ]. apply (sim_same w s _ t (W_woken d r)); try done.
    pose proof (sim_phase _ _ Hs t) as Hp. rewrite He in Hp. destruct Hp as (since & Hph & Hle & Hd). exists since. split; [done | split; [done | ]].
    intros Hr0. destruct Hr as [-> | [-> Hdue]]; [done | ]. destruct due as [[x n]|]; [ | done].
    destruct (Hd x n eq_refl) as [Ht Hx]. split; [done | ]. intros Hf. cbn [is_due] in Hdue. apply Z.leb_le in Hdue. specialize (Hx Hf).
    unfold GIGA in Hx. lia.
  - exists (Spec (left_ s) (phases s) (time s + n)). split; [right; by apply Waits | ]. destruct Hs as [Hi Hl Ht Hp].
    apply Sim; [done | done | cbn; by rewrite Ht | ]. intros t. exact (phase_later (clock w) n _ _ Hn (Hp t)).
Qed.

Lemma moves_max w l w' : moves w l w' -> max w' = max w.
Proof. by destruct 1. Qed.
Lemma run_max w0 tr w : run w0 tr w -> max w = max w0.
Proof. induction 1 as [|tr w mv l w' _ IH H]; [done | ]. by rewrite (moves_max _ _ _ (move_moves _ _ _ _ H)). Qed.
Lemma run_sim mx c tm tr w : 0 <= c <= mx -> run (aloe_sem_init mx c tm) tr w ->
  exists s, spec_run mx (Spec c ∅ tm) tr s /\ sim w s.
Proof.
  intros Hc. induction 1 as [|tr w mv l w' Hr IH H].
  - exists (Spec c ∅ tm). split; [constructor | ]. split; [by apply inv_start | done | done | ]. intros t. cbn [pc_of]. unfold pc_of. cbn. by rewrite !lookup_empty.
  - destruct IH as (s & Hs & Hsim). destruct (sim_moves _ _ _ _ Hsim (move_moves _ _ _ _ H)) as (s' & Hf & Hsim').
    exists s'. split; [ | done]. rewrite (run_max _ _ _ Hr) in Hf. destruct Hf as [[-> ->] | Hf]; [by rewrite app_nil_r | by eapply Spec_more].
Qed.

(* ------------------------------------------------------------------ *)
(** ** Nothing undefined, and somebody can go on *)

Lemma never_undefined w mv : inv w -> move_step mv w <> Undefined.
Proof.
  intros Hi. destruct mv as [t ch|t c|t|t|n]; cbn [move_step]; [ | by destruct (pc_of w t) | by destruct (pc_of w t) | | by destruct (n <? 0)].
  - assert (Hl : forall p, lock t p w <> Undefined) by (intros p; unfold lock; by destruct (owner w)).
    assert (Ho : in_cs (pc_of w t) = true -> owns t w = true) by (intros H; apply bool_decide_eq_true_2; by apply Hi).
    assert (Hu : in_cs (pc_of w t) = true -> forall r, unlock t r w <> Undefined) by (intros H r; unfold unlock; by rewrite Ho).
    unfold thread_step. destruct (pc_of w t) as [ |b|b|b|b c|[]| |d|d|d|d due|d r| |c|r]; try done; try apply Hl; try by apply Hu.
    + destruct ch; try done. by destruct (_ || _).
    + rewrite (Ho eq_refl). destruct ch as [| |e]; try done. destruct (cond_deadline (now w) d); [by destruct (_ || _) | done].
  - destruct (pc_of w t); try done. by destruct (is_due _ w).
Qed.

Definition can_go (w : world) (t : nat) : Prop := exists ch l w', thread_step t ch w = Next l w'.
Lemma owner_goes w t : inv w -> owner w = Some t -> can_go w t.
Proof.
  intros Hi Ho. assert (Hin : in_cs (pc_of w t) = true) by (by apply Hi).
  assert (Hown : owns t w = true) by (by apply bool_decide_eq_true_2).
  unfold can_go, thread_step. destruct (pc_of w t) as [ |b|b|b|b c|[]| |d|d|d|d due|d r| |c|r]; try done; unfold unlock; rewrite ?Hown;
    try (exists Go; by do 2 eexists).
  exists (Wakes (map_to_list (pcs w)).*1).
  rewrite (proj2 (orb_true_iff _ _)); [by do 2 eexists | ]. destruct (someone_queued (fun _ => true) w) eqn:E; [right | by left].
  apply someone_queued_spec in E as (t' & Hq & _). apply someone_queued_spec. exists t'. split; [done | ]. apply bool_decide_eq_true_2.
  unfold pc_of in Hq. destruct (pcs w !! t') as [p|] eqn:Ep; [ | done].
  apply list_elem_of_fmap. exists (t', p). split; [done | by apply elem_of_map_to_list].
Qed.
Lemma someone_goes w t : inv w -> pc_of w t <> Idle -> is_queued (pc_of w t) = false -> exists t', can_go w t'.
Proof.
  intros Hi H0 Hq. destruct (owner w) as [t'|] eqn:Ho; [exists t'; by apply owner_goes | ]. exists t.
  assert (Hin : in_cs (pc_of w t) = false) by (apply not_true_is_false; intros H%Hi; congruence).
  exists Go. unfold thread_step, lock. destruct (pc_of w t); try done; rewrite Ho; by do 2 eexists.
Qed.

(* ------------------------------------------------------------------ *)
(** ** Waiters that are forgotten *)

(** On its way to the counter, or about to wake a thread that is. *)
Definition coming (p : pc) : bool :=
  match p with
  | P_wake _ | W_test _ | W_load | W_store _ => true
  | W_woken _ r => r =? 0
  | _ => false
  end.
Definition is_waking (p : pc) : bool := match p with P_wake _ => true | _ => false end.
(** If a thread is queued and the counter is not 0, there is a thread as [f] says. *)
Definition remembered (f : pc -> bool) (w : world) : Prop :=
  forall t, is_queued (pc_of w t) = true -> 0 < cnt w -> exists t', f (pc_of w t') = true.

(** A thread that goes on without being queued. *)
Lemma remembered_goes f w w1 t p : remembered f w -> pcs w1 = pcs w -> cnt w1 = cnt w ->
  is_queued p = false -> (f (pc_of w t) = true -> f p = true) -> remembered f (goto t p w1).
Proof.
  intros Hr Hp Hc Hq Hf t1 H1 H0. change (cnt (goto t p w1)) with (cnt w1) in H0. rewrite Hc in H0.
  assert (Hpc : forall t', pc_of (goto t p w1) t' = if decide (t = t') then p else pc_of w t').
  { intros t'. rewrite pc_of_goto. destruct (decide (t = t')); [done | ]. unfold pc_of. by rewrite Hp. }
  rewrite Hpc in H1. destruct (decide (t = t1)); [by rewrite Hq in H1 | ].
  destruct (Hr t1 H1 H0) as (t2 & H2). destruct (decide (t = t2)) as [<- | Hne].
  - exists t. rewrite Hpc, decide_True by done. auto.
  - exists t2. by rewrite Hpc, decide_False.
Qed.
Ltac goes w := apply (remembered_goes _ w); [done | done | done | try done | ].
(** With the counter at 0 nobody is forgotten. *)
Lemma remembered_none f w : cnt w <= 0 -> remembered f w.
Proof. intros Hc t _ H0. lia. Qed.
(** A thread starts to wake the others, or goes to the counter. *)
Lemma remembered_goto f w t p : f p = true -> remembered f (goto t p w).
Proof. intros Hp t1 _ _. exists t. by rewrite pc_of_goto, decide_True. Qed.

Lemma coming_moves w l w' : inv w -> max w <= 1 -> remembered coming w -> moves w l w' -> remembered coming w'.
Proof.
  intros Hi Hm Hr H. pose proof (i_cnt _ Hi) as Hc. pose proof (i_knows _ Hi) as Hk.
  destruct H as [t p Ho He|t p He|t b c He|t c He|t b sel He Ha Hs|t d He Ho|t r He Ho|t c He|t d due r He Hr0|n Hn].
  - goes w; [by destruct He | ]. intros Hf. destruct He; try done. by apply Z.eqb_eq in Hf.
  - specialize (Hk t). inversion He as [b H0 E E'|b H0 E E'|b E E'|d H0 E E'|d H0 E E'|E E'|d e due H0 H1 Hd E E']; subst p;
      try (goes w; rewrite <- E; done).
    apply remembered_none. cbn. lia.
  - specialize (Hk t). rewrite He in Hk. destruct Hk as [-> Hk]. replace (cnt w) with 0 by lia. by apply remembered_goto.
  - specialize (Hk t). rewrite He in Hk. destruct Hk as [-> Hk]. apply remembered_none. cbn. lia.
  - intros t1 H1 _. rewrite pc_of_goto, pc_of_wake in H1. destruct (decide (t = t1)); [done | ].
    assert (Hq : is_queued (pc_of w t1) = true) by (destruct (sel t1); [by destruct (pc_of w t1) | done]).
    destruct (Hs t1 Hq) as (t2 & Hq2 & Hsel). exists t2. rewrite pc_of_goto, pc_of_wake, Hsel.
    destruct (decide (t = t2)) as [<- | _]; [by rewrite He in Hq2 | ]. by destruct (pc_of w t2).
  - specialize (Hk t). rewrite He in Hk. apply remembered_none. cbn in *. lia.
  - goes w. by destruct He.
  - goes w; [by destruct c | by rewrite He].
  - goes w. by rewrite He.
  - exact Hr.
Qed.

(** Waking empties the queue. *)
Definition empties (w : world) : Prop :=
  (forall t b, pc_of w t = P_wake b -> b = true) \/ exists t0, forall t, is_queued (pc_of w t) = true -> t = t0.
Lemma waking_moves w l w' : inv w -> empties w -> remembered is_waking w -> moves w l w' -> remembered is_waking w'.
Proof.
  intros Hi Hm Hr H. pose proof (i_cnt _ Hi) as Hc. pose proof (i_knows _ Hi) as Hk.
  destruct H as [t p Ho He|t p He|t b c He|t c He|t b sel He Ha Hs|t d He Ho|t r He Ho|t c He|t d due r He Hr0|n Hn].
  - goes w; by destruct He.
  - specialize (Hk t). inversion He as [b H0 E E'|b H0 E E'|b E E'|d H0 E E'|d H0 E E'|E E'|d e due H0 H1 Hd E E']; subst p;
      goes w; rewrite <- E; done.
  - specialize (Hk t). rewrite He in Hk. destruct Hk as [-> Hk]. destruct (Z.eqb_spec (cnt w + 1) 1) as [E|E]; [by apply remembered_goto | ].
    intros t1 H1 H0. exfalso. rewrite pc_of_goto in H1. destruct (decide (t = t1)); [done | ].
    destruct (Hr t1 H1) as (t2 & H2); [lia | ].
    assert (owner w = Some t) by (apply Hi; change (pc_of (set_cnt (cnt w + 1) w) t) with (pc_of w t); by rewrite He).
    assert (owner w = Some t2) by (apply Hi; by destruct (pc_of w t2)). assert (t2 = t) by congruence. subst t2. by rewrite He in H2.
  - specialize (Hk t). rewrite He in Hk. destruct Hk as [-> Hk]. intros t1 H1 H0. rewrite pc_of_goto in H1. destruct (decide (t = t1)); [done | ].
    destruct (Hr t1 H1) as (t2 & H2); [lia | ]. exists t2. rewrite pc_of_goto. destruct (decide (t = t2)) as [<- | _]; [by rewrite He in H2 | done].
  - intros t1 H1 _. exfalso. rewrite pc_of_goto, pc_of_wake in H1. destruct (decide (t = t1)); [done | ].
    destruct (sel t1) eqn:Es; [by destruct (pc_of w t1) | ]. destruct Hm as [Hm | (t0 & Hm)].
    + by rewrite (Ha (Hm _ _ He)) in Es.
    + destruct (Hs t1 H1) as (t2 & Hq2 & Hsel). apply Hm in H1, Hq2. congruence.
  - specialize (Hk t). rewrite He in Hk. apply remembered_none. cbn in *. lia.
  - goes w. by destruct He.
  - goes w; [by destruct c | by rewrite He].
  - goes w. by rewrite He.
  - exact Hr.
Qed.

(** What a thread is doing it was called for. *)
Definition doing (p : pc) : option call :=
  match p with
  | P_lock b | P_test b | P_load b | P_store b _ | P_wake b => Some (Post b)
  | W_lock d | W_test d | W_sleep d | W_queued d _ | W_woken d _ => Some (Wait d)
  | _ => None
  end.
Lemma doing_moves w l w' t c : moves w l w' -> doing (pc_of w' t) = Some c -> doing (pc_of w t) = Some c \/ l = Some (Called t c).
Proof.
  intros H.
  assert (Hgo : forall t1 p w1, pcs w1 = pcs w -> (doing p = Some c -> t1 = t -> doing (pc_of w t) = Some c \/ l = Some (Called t c)) ->
    doing (pc_of (goto t1 p w1) t) = Some c -> doing (pc_of w t) = Some c \/ l = Some (Called t c)).
  { intros t1 p w1 Hp Hd H1. rewrite pc_of_goto in H1. destruct (decide (t1 = t)); [by apply Hd | ].
    left. unfold pc_of in *. by rewrite <- Hp. }
  destruct H as [t1 p Ho He|t1 p He|t1 b c1 He|t1 c1 He|t1 b sel He Ha Hs|t1 d He Ho|t1 r He Ho|t1 c1 He|t1 d due r He Hr0|n Hn].
  - apply Hgo; [done | ]. intros Hd <-. left. by destruct He.
  - apply Hgo; [done | ]. intros Hd <-. left. by destruct He.
  - apply Hgo; [done | ]. intros Hd <-. left. rewrite He. by destruct (c1 + 1 =? 1).
  - by apply Hgo.
  - rewrite pc_of_goto, pc_of_wake. destruct (decide (t1 = t)); [done | ]. left. destruct (sel t); [by destruct (pc_of w t) | done].
  - apply Hgo; [done | ]. intros Hd <-. left. by rewrite He.
  - by apply Hgo.
  - apply Hgo; [done | ]. intros Hd <-. right. destruct c1; by injection Hd as ->.
  - apply Hgo; [done | ]. intros Hd <-. left. by rewrite He.
  - by left.
Qed.
Lemma doing_run mx c0 tm tr w t c : run (aloe_sem_init mx c0 tm) tr w -> doing (pc_of w t) = Some c -> Called t c ∈ tr.
Proof.
  induction 1 as [|tr w mv l w' Hr IH H]; intros Hd; [done | ]. apply elem_of_app.
  destruct (doing_moves _ _ _ _ _ (move_moves _ _ _ _ H) Hd) as [Hd' | ->]; [left; auto | right; by left].
Qed.

(* ------------------------------------------------------------------ *)
(** ** The properties *)

(** C16: whatever the interleaving of any number of threads, with any wake-ups
    that POSIX allows, the semaphore is an atomic counter between 0 and [max]:
    what is seen of a run (calls, returns and their values, time) is what is seen
    of a counter where every call does its work at one moment between its call and
    its return.  A post adds one or finds the counter full, a wait takes one, and
    a wait with a time may fail, with ETIMEDOUT only when its time has passed. *)
Theorem semaphore_is_atomic mx c tm tr w :
  0 <= c <= mx -> run (aloe_sem_init mx c tm) tr w ->
  0 <= cnt w <= mx /\ exists s, spec_run mx (Spec c ∅ tm) tr s /\ left_ s = cnt w.
Proof.
  intros Hc Hr. destruct (run_sim _ _ _ _ _ Hc Hr) as (s & Hs & Hsim). split.
  - pose proof (i_cnt _ (sim_inv _ _ Hsim)) as Hcnt. by rewrite (run_max _ _ _ Hr) in Hcnt.
  - exists s. split; [done | by apply Hsim].
Qed.

(** In every state the threads can reach no step is undefined (the mutex is
    only unlocked by the thread that holds it, as for waiting), at most one thread
    is between locking and unlocking, and as long as a thread is in a call and not
    queued, some thread can take a step. *)
Theorem semaphore_goes_on mx c tm tr w :
  0 <= c <= mx -> run (aloe_sem_init mx c tm) tr w ->
  (forall mv, move_step mv w <> Undefined) /\
  (forall t t', in_cs (pc_of w t) = true -> in_cs (pc_of w t') = true -> t = t') /\
  (forall t, pc_of w t <> Idle -> is_queued (pc_of w t) = false -> exists t' ch l w', thread_step t' ch w = Next l w').
Proof.
  intros Hc Hr. pose proof (sem_inv_run _ _ _ _ _ Hc Hr) as Hi. split; [intros mv; by apply never_undefined | split].
  - intros t t' H%Hi H'%Hi. congruence.
  - intros t H0 Hq. by eapply someone_goes.
Qed.

(** C17: no waiter is forgotten when the counter holds at most one, or every post
    wakes all, or only one thread waits: whenever a thread is queued and the
    counter is not 0, some thread is about to wake it or is on its way to the
    counter.  With two waiters and a counter of two it is not so: the second of two
    posts wakes nobody ([forgotten_waiter]). *)
Theorem waiters_remembered mx c tm tr w t :
  0 <= c <= mx -> run (aloe_sem_init mx c tm) tr w ->
  mx <= 1 \/ (forall t' b, Called t' (Post b) ∈ tr -> b = true) \/ (exists t0, forall t' d, Called t' (Wait d) ∈ tr -> t' = t0) ->
  is_queued (pc_of w t) = true -> 0 < cnt w -> exists t', coming (pc_of w t') = true.
Proof.
  intros Hc Hr [Hm | Hm] Hq H0.
  - enough (remembered coming w) as Hrem by (by eapply Hrem). clear t Hq H0.
    induction Hr as [|tr w mv l w' Hr IH H]; [by intros t H | ].
    eapply coming_moves; [by eapply sem_inv_run | by rewrite (run_max _ _ _ Hr) | done | by eapply move_moves].
  - enough (remembered is_waking w) as Hrem.
    { destruct (Hrem t Hq H0) as (t' & H'). exists t'. by destruct (pc_of w t'). }
    clear t Hq H0. induction Hr as [|tr w mv l w' Hr IH H]; [by intros t H | ].
    eapply waking_moves; [by eapply sem_inv_run | | apply IH | by eapply move_moves].
    + destruct Hm as [Hm | (t0 & Hm)]; [left | right; exists t0].
      * intros t b Hp. apply (Hm t). apply elem_of_app. left. eapply doing_run; [done | ]. by rewrite Hp.
      * intros t Hq. destruct (pc_of w t) as [ | | | | | | | | | |d due| | | | ] eqn:Hp; try done.
        apply (Hm t d). apply elem_of_app. left. eapply doing_run; [done | ]. by rewrite Hp.
    + destruct Hm as [Hm | (t0 & Hm)]; [left | right; exists t0]; intros; eapply Hm, elem_of_app; by left.
Qed.

Lemma play_run w0 tr w mvs tr' w' : run w0 tr w -> play mvs w = Some (tr', w') -> run w0 (tr ++ tr') w'.
Proof.
  revert tr w tr'. induction mvs as [|mv mvs IH]; intros tr w tr' Hr; cbn [play].
  - intros [= <- <-]. by rewrite app_nil_r.
  - destruct (move_step mv w) as [ | |l w1] eqn:E; try done. destruct (play mvs w1) as [[tr1 w2]|] eqn:Ep; [ | done].
    intros [= <- <-]. rewrite app_assoc. apply (IH _ w1); [by eapply Run_step | done].
Qed.
Definition forever : dur := Dur Ev.ULONG_INFINITE Ev.ULONG_INFINITE.
Definition go (t : nat) (n : nat) : list move := repeat (Steps t Go) n.
(** Two threads wait; a third posts twice before the one that was woken runs. *)
Definition two_posts : list move :=
  Calls 1 (Wait forever) :: go 1 3 ++ Calls 2 (Wait forever) :: go 2 3 ++
  Calls 3 (Post false) :: go 3 4 ++ Steps 3 (Wakes [1%nat]) :: go 3 1 ++ Calls 3 (Post false) :: go 3 5 ++ go 1 5.

Definition forgotten : world := goto 3 Idle (goto 2 (W_queued forever None) (goto 1 Idle (World None 1 2 ∅ 0))).
Example forgotten_waiter : (exists tr, run (aloe_sem_init 2 0 0) tr forgotten) /\ cnt forgotten = 1 /\
  pc_of forgotten 2 = W_queued forever None /\ (forall t, t <> 2%nat -> pc_of forgotten t = Idle).
Proof.
  split; [eexists; apply (play_run _ [] (aloe_sem_init 2 0 0) two_posts); [constructor | vm_compute; reflexivity] | ].
  split; [done | split; [done | ]]. intros t Ht. unfold forgotten. rewrite !pc_of_goto.
  destruct (decide _); [done | ]. destruct (decide _) as [E|]; [by subst | ]. by destruct (decide _).
Qed.

(** A wait that is woken, one that times out, and a post to nobody. *)
Definition a_run : list move :=
  Calls 1 (Wait forever) :: go 1 3 ++ Calls 2 (Post false) :: go 2 4 ++ Steps 2 (Wakes [1%nat]) :: go 2 1 ++ go 1 5 ++
  Calls 3 (Wait (Dur 2 500000)) :: go 3 3 ++ Ticks 2500000000 :: Times_out 3 :: go 3 2 ++ Calls 1 (Post true) :: go 1 3.
Definition a_trace : list label :=
  [Called 1 (Wait forever); Called 2 (Post false); Returned 2 0; Returned 1 0; Called 3 (Wait (Dur 2 500000)); Passed 2500000000;
   Returned 3 ETIMEDOUT; Called 1 (Post true)].
Definition a_world : world := World (Some 1%nat) 0 1 (list_to_map [(1%nat, P_store true 0); (2%nat, Idle); (3%nat, Idle)]) 2500000000.
Lemma a_run_runs : run (aloe_sem_init 1 0 0) a_trace a_world.
Proof. apply (play_run _ [] (aloe_sem_init 1 0 0) a_run); [constructor | vm_compute; reflexivity]. Qed.

Lemma semaphore_is_atomic_witness :
  0 <= cnt a_world <= 1 /\ exists s, spec_run 1 (Spec 0 ∅ 0) a_trace s /\ left_ s = cnt a_world.
Proof. apply (semaphore_is_atomic 1 0 0); [lia | apply a_run_runs]. Defined.
Lemma semaphore_goes_on_witness :
  (forall mv, move_step mv a_world <> Undefined) /\
  (forall t t', in_cs (pc_of a_world t) = true -> in_cs (pc_of a_world t') = true -> t = t') /\
  (forall t, pc_of a_world t <> Idle -> is_queued (pc_of a_world t) = false -> exists t' ch l w', thread_step t' ch a_world = Next l w').
Proof. apply (semaphore_goes_on 1 0 0 a_trace); [lia | apply a_run_runs]. Defined.

(** The post that finds a waiter and is about to wake it. *)
Definition about_to_wake : world :=
  World (Some 2%nat) 1 1 (list_to_map [(1%nat, W_queued forever None); (2%nat, P_wake false)]) 0.
Lemma waiters_remembered_witness :
  is_queued (pc_of about_to_wake 1) = true /\ 0 < cnt about_to_wake /\ exists t', coming (pc_of about_to_wake t') = true.
Proof.
  split; [reflexivity | split; [reflexivity | ]].
  apply (waiters_remembered 1 0 0 [Called 1 (Wait forever); Called 2 (Post false)] about_to_wake 1%nat);
    [lia | | left; lia | reflexivity | reflexivity].
  apply (play_run _ [] (aloe_sem_init 1 0 0) (Calls 1 (Wait forever) :: go 1 3 ++ Calls 2 (Post false) :: go 2 4)); [constructor | vm_compute; reflexivity].
Defined.
