(* ===== verification/SysMem.v ===== *)
(** SysMem: the allocator of sys.cpp and sys_linux.cpp.  A block stands between a
    record that knows its size and the address of that record, which [aloe_free]
    looks at.  Memory is bytes; what is not allocated cannot be accessed. *)

From stdpp Require Import gmap.
From S2P Require Import Prelude Eff ByteStr.

Open Scope list_scope.
Open Scope eff_scope.

(* ------------------------------------------------------------------ *)
(** ** Memory *)

(** The bytes there are, and the blocks of the C library with their sizes. *)
Record mem : Type := Mem { cells : gmap Z Z; blocks : gmap Z Z }.
Definition M (A : Type) : Type := comp mem A.

Fixpoint read (m : gmap Z Z) (a : Z) (n : nat) : option (list Z) :=
  match n with O => Some [] | S n' => b ← m !! a; r ← read m (a + 1) n'; Some (b :: r) end.
Fixpoint place (m : gmap Z Z) (a : Z) (bs : list Z) : gmap Z Z :=
  match bs with [] => m | b :: bs' => <[a := b]> (place m (a + 1) bs') end.
Fixpoint erase (m : gmap Z Z) (a : Z) (n : nat) : gmap Z Z :=
  match n with O => m | S n' => delete a (erase m (a + 1) n') end.

Definition load (a : Z) (n : nat) : M (list Z) := do m <- gets cells; need (read m a n).
Definition store (a : Z) (bs : list Z) : M unit :=
  do m <- gets cells;
  do _ <- need (read m a (length bs));
  modify (fun w => Mem (place (cells w) a bs) (blocks w)).
Definition load_le (a : Z) (n : nat) : M Z := do bs <- load a n; need (le n bs).
Definition store_le (a : Z) (n : nat) (v : Z) : M unit := store a (bytes n v).

Section Alloc.
(** What malloc of the C library gives for a size: an address and the bytes that
    are there; the address of [aloe_mem_sig]. *)
Variable grant : mem -> Z -> option (Z * list Z).
Variable sig : Z.

Definition malloc (n : Z) : M Z := fun w =>
  match grant w n with
  | Some (a, g) => Done a (Mem (place (cells w) a g) (<[a := n]> (blocks w)))
  | None => Done 0 w
  end.
Definition free (a : Z) : M unit := fun w =>
  match blocks w !! a with
  | Some n => Done tt (Mem (erase (cells w) a (Z.to_nat n)) (delete a (blocks w)))
  | None => Ub
  end.

(* ------------------------------------------------------------------ *)
(** ** aloe_mem_t *)

(** The record is packed: the address of the signature, who allocated, the size. *)
Definition REC : Z := 20.
Definition POINTER : Z := 8.
Definition at_sig (mm : Z) : Z := mm.
Definition at_id (mm : Z) : Z := mm + 8.
Definition at_sz (mm : Z) : Z := mm + 12.
Definition at_end (mm sz : Z) : Z := u64 (mm + REC + sz).
Definition aloe_mem_id_stdc : Z := 0.

Definition aloe_mem_init (mm id sz : Z) : M unit :=
  store_le (at_sig mm) 8 sig;;
  store_le (at_id mm) 4 id;;
  store_le (at_sz mm) 8 sz;;
  store_le (at_end mm sz) 8 mm.

Definition aloe_mem_check (mm : Z) : M Z :=
  do s <- load_le (at_sig mm) 8;
  if negb (s =? sig) then ret (-1) else
  do sz <- load_le (at_sz mm) 8;
  do e <- load_le (at_end mm sz) 8;
  if negb (e =? mm) then ret 1 else ret 0.

Definition aloe_malloc (sz : Z) : M Z :=
  do mm <- malloc (u64 (REC + sz + POINTER));
  if mm =? 0 then ret 0 else
  aloe_mem_init mm aloe_mem_id_stdc sz;;
  ret (mm + REC).

Definition aloe_calloc (cnt sz : Z) : M Z :=
  let sz := u64 (sz * cnt) in
  do v <- aloe_malloc sz;
  if v =? 0 then ret 0 else
  store v (repeat 0 (Z.to_nat sz));;
  ret v.

Definition aloe_free (p : Z) : M Z :=
  if p =? 0 then ret 0 else
  let mm := p - REC in
  do r <- aloe_mem_check mm;
  if r <? 0 then ret (-1) else
  store_le (at_sig mm) 8 0;;
  do id <- load_le (at_id mm) 4;
  (if id =? aloe_mem_id_stdc then free mm else ret tt);;
  ret r.
End Alloc.
