(* ===== verification/SysMemSpec.v ===== *)
(** SysMemSpec: what [aloe_free] finds out about the use of a block. *)

From stdpp Require Import gmap.
From S2P Require Import Prelude Eff ByteStr SysMem.

Open Scope list_scope.
Open Scope eff_scope.

(* ------------------------------------------------------------------ *)
(** ** Regions of memory *)

Lemma lookup_place m a bs i :
  place m a bs !! i = if decide (a <= i < a + Z.of_nat (length bs)) then bs !! Z.to_nat (i - a) else m !! i.
Proof.
  revert a. induction bs as [|b bs IH]; intros a; cbn [place length].
  - rewrite decide_False by lia. done.
  - destruct (Z.eq_dec a i) as [<- | Hne].
    + rewrite lookup_insert_eq, decide_True by lia. by replace (a - a) with 0 by lia.
    + rewrite lookup_insert_ne, IH by done. destruct (decide (a + 1 <= i < a + 1 + Z.of_nat (length bs))).
      * rewrite decide_True by lia. replace (Z.to_nat (i - a)) with (S (Z.to_nat (i - (a + 1)))) by lia. done.
      * by rewrite decide_False by lia.
Qed.
Lemma lookup_erase m a n i : erase m a n !! i = if decide (a <= i < a + Z.of_nat n) then None else m !! i.
Proof.
  revert a. induction n as [|n IH]; intros a; cbn [erase].
  - by rewrite decide_False by lia.
  - destruct (Z.eq_dec a i) as [<- | Hne].
    + by rewrite lookup_delete_eq, decide_True by lia.
    + rewrite lookup_delete_ne, IH by done. destruct (decide (a + 1 <= i < a + 1 + Z.of_nat n)).
      * by rewrite decide_True by lia.
      * by rewrite decide_False by lia.
Qed.
(** A part of a region. *)
Lemma read_place m a bs k n : (k + n <= length bs)%nat -> read (place m a bs) (a + Z.of_nat k) n = Some (take n (drop k bs)).
Proof.
  revert k. induction n as [|n IH]; intros k Hk; [done | ]. cbn [read].
  rewrite lookup_place, decide_True by lia. replace (Z.to_nat (a + Z.of_nat k - a)) with k by lia.
  destruct (lookup_lt_is_Some_2 bs k) as [b Hb]; [lia | ]. rewrite Hb. cbn [mbind option_bind].
  replace (a + Z.of_nat k + 1) with (a + Z.of_nat (S k)) by lia. rewrite IH by lia. cbn [mbind option_bind].
  by rewrite (drop_S bs b k Hb).
Qed.
Lemma place_place m a bs k xs : (k + length xs <= length bs)%nat ->
  place (place m a bs) (a + Z.of_nat k) xs = place m a (take k bs ++ xs ++ drop (k + length xs) bs).
Proof.
  intros Hk. apply map_eq. intros i. rewrite !lookup_place. rewrite !length_app, length_take, length_drop.
  replace (k `min` length bs + (length xs + (length bs - (k + length xs))))%nat with (length bs) by lia.
  destruct (decide (a <= i < a + Z.of_nat (length bs))).
  - destruct (decide (a + Z.of_nat k <= i < a + Z.of_nat k + Z.of_nat (length xs))).
    + rewrite lookup_app_r by (rewrite length_take; lia). rewrite length_take, lookup_app_l by lia. f_equal. lia.
    + destruct (decide (i - a < Z.of_nat k)).
      * rewrite lookup_app_l by (rewrite length_take; lia). by rewrite lookup_take_lt by lia.
      * rewrite !lookup_app_r by (rewrite ?length_take; lia). rewrite length_take, lookup_drop. f_equal. lia.
  - by rewrite decide_False by lia.
Qed.
Lemma erase_place m a bs n : n = length bs -> (forall i, a <= i < a + Z.of_nat n -> m !! i = None) -> erase (place m a bs) a n = m.
Proof.
  intros -> Hn. apply map_eq. intros i. rewrite lookup_erase, lookup_place. destruct (decide _); [by rewrite Hn | done].
Qed.

(* ------------------------------------------------------------------ *)
(** ** A block *)

(** The bytes of a block of [sz]: signature, who allocated it and size, the bytes
    of the program, and the end. *)
Definition block (sz : Z) (sg pay tl : list Z) : list Z :=
  sg ++ (bytes 4 aloe_mem_id_stdc ++ bytes 8 sz) ++ pay ++ tl.
Definition shaped (sz : Z) (sg pay tl : list Z) : Prop :=
  length sg = 8%nat /\ length pay = Z.to_nat sz /\ length tl = 8%nat /\ Forall is_u8 sg /\ Forall is_u8 tl.
Lemma length_block sz sg pay tl : 0 <= sz -> shaped sz sg pay tl -> length (block sz sg pay tl) = Z.to_nat (REC + sz + POINTER).
Proof. intros Hs (H1 & H2 & H3 & _). unfold block, REC, POINTER. rewrite !length_app, !length_bytes. lia. Qed.

Lemma insert_middle {A} (l1 l2 : list A) k x : (length l1 <= k)%nat -> <[k := x]> (l1 ++ l2) = l1 ++ <[(k - length l1)%nat := x]> l2.
Proof. intros H. replace k with (length l1 + (k - length l1))%nat at 1 by lia. by rewrite insert_app_r. Qed.
(** A byte written to the signature, to the bytes of the program or to the end. *)
Lemma block_insert sz sg pay tl k b : shaped sz sg pay tl -> is_u8 b -> (k < 8 \/ 20 <= k < 28 + Z.to_nat sz)%nat ->
  exists sg' pay' tl', <[k := b]> (block sz sg pay tl) = block sz sg' pay' tl' /\ shaped sz sg' pay' tl'.
Proof.
  intros (H1 & H2 & H3 & H4 & H5) Hb Hk. unfold block. destruct (decide (k < 8)%nat).
  - exists (<[k := b]> sg), pay, tl. rewrite insert_app_l by lia. split; [done | ]. unfold shaped. rewrite length_insert.
    split_and!; try done. by apply Forall_insert.
  - rewrite insert_middle by lia. rewrite insert_middle by (rewrite length_app, !length_bytes; lia).
    rewrite length_app, !length_bytes. destruct (decide (k - length sg - (4 + 8) < length pay)%nat).
    + exists sg, (<[(k - length sg - (4 + 8))%nat := b]> pay), tl. rewrite insert_app_l by lia. split; [done | ].
      unfold shaped. by rewrite length_insert.
    + exists sg, pay, (<[(k - length sg - (4 + 8) - length pay)%nat := b]> tl). rewrite insert_middle by lia. split; [done | ].
      unfold shaped. rewrite length_insert. split_and!; try done. by apply Forall_insert.
Qed.

Lemma load_at w m a bs k n : cells w = place m a bs -> (k + n <= length bs)%nat ->
  load (a + Z.of_nat k) n w = Done (take n (drop k bs)) w.
Proof. intros Hw Hk. unfold load, bind, gets. by rewrite Hw, read_place. Qed.
Lemma store_at w m a bs k xs : cells w = place m a bs -> (k + length xs <= length bs)%nat ->
  store (a + Z.of_nat k) xs w = Done tt (Mem (place m a (take k bs ++ xs ++ drop (k + length xs) bs)) (blocks w)).
Proof. intros Hw Hk. unfold store, bind, gets, need, modify. rewrite Hw, read_place by done. by rewrite <- place_place, <- Hw. Qed.
Lemma store_byte w m a bs k b : cells w = place m a bs -> (k < length bs)%nat ->
  store (a + Z.of_nat k) [b] w = Done tt (Mem (place m a (<[k := b]> bs)) (blocks w)).
Proof.
  intros Hw Hk. rewrite (store_at w m a bs) by (done || (cbn; lia)). rewrite insert_take_drop by done.
  by replace (k + length [b])%nat with (S k) by (cbn; lia).
Qed.

(** What a program writes. *)
Fixpoint scribble (ws : list (Z * Z)) : M unit :=
  match ws with [] => ret tt | (a, b) :: ws' => store a [b];; scribble ws' end.
Definition may_write (mm sz : Z) (ab : Z * Z) : Prop :=
  is_u8 ab.2 /\ (mm <= ab.1 < mm + 8 \/ mm + 20 <= ab.1 < mm + 28 + sz).
Lemma scribble_block ws m mm sz sg pay tl w : 0 <= sz ->
  cells w = place m mm (block sz sg pay tl) -> shaped sz sg pay tl -> Forall (may_write mm sz) ws ->
  exists sg' pay' tl', scribble ws w = Done tt (Mem (place m mm (block sz sg' pay' tl')) (blocks w)) /\ shaped sz sg' pay' tl'.
Proof.
  intros Hsz Hw Hs Hf. revert w sg pay tl Hw Hs. induction Hf as [|[a b] ws [Hb Ha] _ IH]; intros w sg pay tl Hw Hs; cbn [scribble].
  - exists sg, pay, tl. split; [ | done]. unfold ret. rewrite <- Hw. by destruct w.
  - cbn [fst snd] in *. destruct (block_insert sz sg pay tl (Z.to_nat (a - mm)) b Hs Hb) as (sg1 & pay1 & tl1 & E & Hs1); [lia | ].
    replace a with (mm + Z.of_nat (Z.to_nat (a - mm))) by lia. unfold bind.
    rewrite (store_byte w m mm (block sz sg pay tl)); [ | done | rewrite length_block by done; unfold REC, POINTER; lia].
    rewrite E. exact (IH (Mem (place m mm (block sz sg1 pay1 tl1)) (blocks w)) sg1 pay1 tl1 eq_refl Hs1).
Qed.

(* ------------------------------------------------------------------ *)
(** ** The allocator *)

Lemma le_inj k bs bs' v : length bs = k -> length bs' = k -> Forall is_u8 bs -> Forall is_u8 bs' ->
  le k bs = Some v -> le k bs' = Some v -> bs = bs'.
Proof.
  intros H1 H2 F1 F2 E1 E2. apply bytes_le in E1, E2; [ | done | done]. rewrite E2 in E1.
  by rewrite !take_ge in E1 by lia.
Qed.
Lemma bytes_are_bytes k : forall v, Forall is_u8 (bytes k v).
Proof. induction k; intros v; cbn [bytes]; [constructor | constructor; [apply Z.mod_pos_bound; lia | done]]. Qed.

Section Alloc.
Variable grant : mem -> Z -> option (Z * list Z).
Variable sig : Z.
Hypothesis sig_range : 0 < sig < 2 ^ 64.
(** What malloc gives is in memory and was in no block. *)
Hypothesis grant_fresh : forall w n a g, grant w n = Some (a, g) ->
  Z.of_nat (length g) = n /\ 0 < a /\ a + n <= 2 ^ 64 /\ blocks w !! a = None /\ forall i, a <= i < a + n -> cells w !! i = None.

Notation aloe_malloc := (aloe_malloc grant sig).
Notation aloe_free := (aloe_free sig).
Notation aloe_mem_check := (aloe_mem_check sig).

(** A part of a region is an integer. *)
Lemma load_part w m a bs k n part tl v : cells w = place m a bs -> drop k bs = part ++ tl -> length part = n ->
  le n part = Some v -> (k <= length bs)%nat -> load_le (a + Z.of_nat k) n w = Done v w.
Proof.
  intros Hw Hd Hn Hv Hk. assert (Hl : length (drop k bs) = (n + length tl)%nat) by (rewrite Hd, length_app; lia).
  rewrite length_drop in Hl. unfold load_le, bind. rewrite (load_at w m a bs) by (done || lia).
  rewrite Hd, take_app_length' by done. by rewrite Hv.
Qed.
Lemma le_exact n v : 0 <= v < 256 ^ Z.of_nat n -> le n (bytes n v) = Some v.
Proof. intros Hv. rewrite <- (app_nil_r (bytes n v)). by apply le_bytes. Qed.
(** Eight bytes are compared as an address. *)
Lemma le_eqb bs v x : length bs = 8%nat -> Forall is_u8 bs -> le 8 bs = Some v -> 0 <= x < 2 ^ 64 ->
  (v =? x) = bool_decide (bs = bytes 8 x).
Proof.
  intros Hl Hu Hv Hx. assert (Hle : le 8 (bytes 8 x) = Some x) by (by apply le_exact). case_bool_decide as Hd.
  - rewrite Hd, Hle in Hv. injection Hv as ->. apply Z.eqb_refl.
  - apply Z.eqb_neq. intros ->. apply Hd. by eapply (le_inj 8); [ | rewrite length_bytes | | apply bytes_are_bytes | | ].
Qed.

(** A part is written over. *)
Lemma store_part w m a l1 old xs l2 k : cells w = place m a (l1 ++ old ++ l2) -> length l1 = k -> length old = length xs ->
  store (a + Z.of_nat k) xs w = Done tt (Mem (place m a (l1 ++ xs ++ l2)) (blocks w)).
Proof.
  intros Hw H1 Ho. rewrite (store_at w m a (l1 ++ old ++ l2)) by (done || (rewrite !length_app; lia)). rewrite take_app_length' by done.
  rewrite drop_app_ge, drop_app_length' by lia. done.
Qed.

Section Block.
Variables (w : mem) (mm sz : Z) (sg pay tl : list Z).
Hypotheses (Hsz : 0 <= sz) (H0 : 0 < mm) (Htop : mm + REC + sz + POINTER <= 2 ^ 64) (Hs : shaped sz sg pay tl).
Let w1 := Mem (place (cells w) mm (block sz sg pay tl)) (<[mm := REC + sz + POINTER]> (blocks w)).

Lemma block_sig : exists v, le 8 sg = Some v /\ load_le (at_sig mm) 8 w1 = Done v w1.
Proof.
  pose proof Hs as (H1 & _). destruct (le_some 8 sg) as [v Hv]; [lia | ]. exists v. split; [done | ].
  unfold at_sig. replace mm with (mm + Z.of_nat 0) at 1 by lia.
  apply (load_part w1 (cells w) mm (block sz sg pay tl) 0 8 sg ((bytes 4 aloe_mem_id_stdc ++ bytes 8 sz) ++ pay ++ tl)); done || lia.
Qed.
Lemma block_sz : load_le (at_sz mm) 8 w1 = Done sz w1.
Proof.
  pose proof Hs as (H1 & _). unfold at_sz. change 12 with (Z.of_nat 12).
  apply (load_part w1 (cells w) mm (block sz sg pay tl) 12 8 (bytes 8 sz) (pay ++ tl)); [done | | apply length_bytes | | ].
  - unfold block. rewrite drop_app_ge, H1 by lia. done.
  - apply le_exact. unfold REC, POINTER in *. change (256 ^ Z.of_nat 8) with (2 ^ 64). lia.
  - rewrite length_block by done. unfold REC, POINTER. lia.
Qed.
Lemma at_end_is : at_end mm sz = mm + Z.of_nat (20 + Z.to_nat sz).
Proof. unfold at_end, u64, REC, POINTER in *. rewrite Z.mod_small; lia. Qed.
Lemma block_end : exists v, le 8 tl = Some v /\ load_le (at_end mm sz) 8 w1 = Done v w1.
Proof.
  pose proof Hs as (H1 & H2 & H3 & _). destruct (le_some 8 tl) as [v Hv]; [lia | ]. exists v. split; [done | ]. rewrite at_end_is.
  apply (load_part w1 (cells w) mm (block sz sg pay tl) _ 8 tl []); [done | | done | done | ].
  - unfold block. rewrite app_nil_r, drop_app_ge, H1 by lia. rewrite drop_app_ge by (rewrite length_app, !length_bytes; lia).
    rewrite length_app, !length_bytes, drop_app_length' by lia. done.
  - rewrite length_block by done. unfold REC, POINTER. lia.
Qed.
Lemma check_block : aloe_mem_check mm w1 =
  Done (if bool_decide (sg = bytes 8 sig) then if bool_decide (tl = bytes 8 mm) then 0 else 1 else -1) w1.
Proof.
  pose proof Hs as (H1 & _ & H3 & H4 & H5). destruct block_sig as (s & Es & Hsig). destruct block_end as (e & Ee & Hend).
  unfold SysMem.aloe_mem_check. rewrite (ebind_done _ _ _ _ _ Hsig), (le_eqb sg s sig) by (done || lia).
  case_bool_decide; cbn [negb]; [ | done].
  rewrite (ebind_done _ _ _ _ _ block_sz), (ebind_done _ _ _ _ _ Hend), (le_eqb tl e mm) by (done || (unfold REC, POINTER in *; lia)).
  by case_bool_decide.
Qed.

(** What [aloe_free] says of a block as it stands, and what it leaves. *)
Lemma free_block : (forall i, mm <= i < mm + REC + sz + POINTER -> cells w !! i = None) -> blocks w !! mm = None ->
  aloe_free (mm + REC) w1 =
    if bool_decide (sg = bytes 8 sig) then Done (if bool_decide (tl = bytes 8 mm) then 0 else 1) w else Done (-1) w1.
Proof.
  intros Hnone Hb. pose proof Hs as (H1 & H2 & H3 & H4 & H5). unfold SysMem.aloe_free.
  rewrite (proj2 (Z.eqb_neq (mm + REC) 0)) by (unfold REC; lia). replace (mm + REC - REC) with mm by lia.
  rewrite (ebind_done _ _ _ _ _ check_block). case_bool_decide; [ | done].
  rewrite (proj2 (Z.ltb_ge _ 0)) by (case_bool_decide; lia).
  set (w2 := Mem (place (cells w) mm (block sz (bytes 8 0) pay tl)) (blocks w1)).
  assert (Hst : store_le (at_sig mm) 8 0 w1 = Done tt w2).
  { unfold store_le, at_sig. replace mm with (mm + Z.of_nat 0) at 1 by lia.
    by apply (store_part w1 (cells w) mm [] sg (bytes 8 0) ((bytes 4 aloe_mem_id_stdc ++ bytes 8 sz) ++ pay ++ tl)). }
  assert (Hid : load_le (at_id mm) 4 w2 = Done 0 w2).
  { unfold at_id. change 8 with (Z.of_nat 8) at 1.
    by apply (load_part w2 (cells w) mm (block sz (bytes 8 0) pay tl) 8 4 (bytes 4 0) (bytes 8 sz ++ pay ++ tl)); [ | | | | unfold block; rewrite length_app, length_bytes; lia]. }
  rewrite (ebind_done _ _ _ _ _ Hst), (ebind_done _ _ _ _ _ Hid). cbn [Z.eqb aloe_mem_id_stdc].
  assert (Hl : length (block sz (bytes 8 0) pay tl) = Z.to_nat (REC + sz + POINTER)).
  { apply length_block; [done | ]. unfold shaped. rewrite length_bytes. split_and!; try done. apply bytes_are_bytes. }
  assert (Hfree : free mm w2 = Done tt w).
  { unfold free. unfold w2, w1. cbn [blocks cells]. rewrite lookup_insert_eq. f_equal. destruct w as [c b]. cbn [cells blocks] in *. f_equal.
    - apply erase_place; [done | ]. intros i Hi. apply Hnone. unfold REC, POINTER in *. lia.
    - by apply delete_insert_id. }
  by rewrite (ebind_done _ _ _ _ _ Hfree).
Qed.
End Block.

(** The parts of a new block. *)
Lemma parts_of {A} (g : list A) n : length g = (28 + n)%nat -> exists g1 g2 g3 pay g4, g = g1 ++ g2 ++ g3 ++ pay ++ g4 /\
  length g1 = 8%nat /\ length g2 = 4%nat /\ length g3 = 8%nat /\ length pay = n /\ length g4 = 8%nat.
Proof.
  intros Hl. exists (take 8 g), (take 4 (drop 8 g)), (take 8 (drop 4 (drop 8 g))),
    (take n (drop 8 (drop 4 (drop 8 g)))), (drop n (drop 8 (drop 4 (drop 8 g)))).
  rewrite !take_drop, !length_take, !length_drop. split_and!; try done; lia.
Qed.
(** The record of a new block. *)
Lemma init_block m mm sz g1 g2 g3 pay g4 bl : at_end mm sz = mm + Z.of_nat (20 + length pay) ->
  length g1 = 8%nat -> length g2 = 4%nat -> length g3 = 8%nat -> length g4 = 8%nat ->
  aloe_mem_init sig mm aloe_mem_id_stdc sz (Mem (place m mm (g1 ++ g2 ++ g3 ++ pay ++ g4)) bl) =
    Done tt (Mem (place m mm (block sz (bytes 8 sig) pay (bytes 8 mm))) bl).
Proof.
  intros He L1 L2 L3 L4. unfold aloe_mem_init, store_le.
  assert (S1 : store (at_sig mm) (bytes 8 sig) (Mem (place m mm (g1 ++ g2 ++ g3 ++ pay ++ g4)) bl) = Done tt (Mem (place m mm (bytes 8 sig ++ g2 ++ g3 ++ pay ++ g4)) bl)).
  { unfold at_sig. replace mm with (mm + Z.of_nat 0) at 1 by lia. exact (store_part (Mem _ bl) m mm [] g1 (bytes 8 sig) (g2 ++ g3 ++ pay ++ g4) 0 eq_refl eq_refl L1). }
  rewrite (ebind_done _ _ _ _ _ S1).
  assert (S2 : store (at_id mm) (bytes 4 aloe_mem_id_stdc) (Mem (place m mm (bytes 8 sig ++ g2 ++ g3 ++ pay ++ g4)) bl) =
    Done tt (Mem (place m mm (bytes 8 sig ++ bytes 4 aloe_mem_id_stdc ++ g3 ++ pay ++ g4)) bl)).
  { unfold at_id. change 8 with (Z.of_nat 8) at 1. exact (store_part (Mem _ bl) m mm (bytes 8 sig) g2 (bytes 4 aloe_mem_id_stdc) (g3 ++ pay ++ g4) 8 eq_refl eq_refl L2). }
  rewrite (ebind_done _ _ _ _ _ S2).
  assert (S3 : store (at_sz mm) (bytes 8 sz) (Mem (place m mm (bytes 8 sig ++ bytes 4 aloe_mem_id_stdc ++ g3 ++ pay ++ g4)) bl) =
    Done tt (Mem (place m mm ((bytes 8 sig ++ bytes 4 aloe_mem_id_stdc) ++ bytes 8 sz ++ pay ++ g4)) bl)).
  { unfold at_sz. change 12 with (Z.of_nat 12). refine (store_part (Mem _ bl) m mm (bytes 8 sig ++ bytes 4 aloe_mem_id_stdc) g3 (bytes 8 sz) (pay ++ g4) 12 _ eq_refl L3).
    cbn [cells]. by rewrite <- app_assoc. }
  rewrite (ebind_done _ _ _ _ _ S3), He.
  rewrite (store_part _ m mm (((bytes 8 sig ++ bytes 4 aloe_mem_id_stdc) ++ bytes 8 sz) ++ pay) g4 (bytes 8 mm) []);
    [ | cbn [cells]; by rewrite app_nil_r, <- !app_assoc | by rewrite !length_app, !length_bytes | done].
  cbn [blocks]. unfold block. by rewrite app_nil_r, <- !app_assoc.
Qed.
Lemma malloc_block w sz : 0 <= sz -> REC + sz + POINTER < 2 ^ 64 ->
  aloe_malloc sz w = Done 0 w \/
  exists mm pay, 0 < mm /\ mm + REC + sz + POINTER <= 2 ^ 64 /\ blocks w !! mm = None /\
    (forall i, mm <= i < mm + REC + sz + POINTER -> cells w !! i = None) /\
    shaped sz (bytes 8 sig) pay (bytes 8 mm) /\
    aloe_malloc sz w = Done (mm + REC) (Mem (place (cells w) mm (block sz (bytes 8 sig) pay (bytes 8 mm))) (<[mm := REC + sz + POINTER]> (blocks w))).
Proof.
  intros Hsz Hfit. unfold SysMem.aloe_malloc.
  assert (Hn : u64 (REC + sz + POINTER) = REC + sz + POINTER) by (unfold u64, REC, POINTER in *; rewrite Z.mod_small; lia).
  rewrite Hn. destruct (grant w (REC + sz + POINTER)) as [[mm g]|] eqn:Eg; [right | left].
  2: { assert (Hm : malloc grant (REC + sz + POINTER) w = Done 0 w) by (unfold malloc; by rewrite Eg). by rewrite (ebind_done _ _ _ _ _ Hm). }
  destruct (grant_fresh _ _ _ _ Eg) as (Hl & H0 & Htop & Hb & Hc). unfold REC, POINTER in Hl, Htop.
  destruct (parts_of g (Z.to_nat sz)) as (g1 & g2 & g3 & pay & g4 & -> & L1 & L2 & L3 & L4 & L5); [lia | ].
  assert (Hm : malloc grant (REC + sz + POINTER) w = Done mm (Mem (place (cells w) mm (g1 ++ g2 ++ g3 ++ pay ++ g4)) (<[mm := REC + sz + POINTER]> (blocks w))))
    by (unfold malloc; by rewrite Eg).
  rewrite (ebind_done _ _ _ _ _ Hm), (proj2 (Z.eqb_neq mm 0)) by lia.
  exists mm, pay. split_and!; try done; [unfold REC, POINTER; lia | intros; apply Hc; unfold REC, POINTER in *; lia | | ].
  { unfold shaped. rewrite !length_bytes. split_and!; try done; apply bytes_are_bytes. }
  assert (He : at_end mm sz = mm + Z.of_nat (20 + length pay)).
  { rewrite L4. apply at_end_is; unfold REC, POINTER; lia. }
  by rewrite (ebind_done _ _ _ _ _ (init_block (cells w) mm sz g1 g2 g3 pay g4 _ He L1 L2 L3 L5)).
Qed.
End Alloc.

(* ------------------------------------------------------------------ *)
(** ** What is found out *)

(** The bytes of a part of memory did not change. *)
Definition kept (w w' : mem) (a : Z) (n : nat) : Prop := read (cells w') a n = read (cells w) a n.
#[global] Instance kept_dec w w' a n : Decision (kept w w' a n).
Proof. unfold kept. apply _. Defined.

Lemma read_sig m mm sz sg pay tl : shaped sz sg pay tl -> read (place m mm (block sz sg pay tl)) mm 8 = Some sg.
Proof.
  intros (H1 & H2 & H3 & _). replace mm with (mm + Z.of_nat 0) at 2 by lia.
  rewrite read_place by (unfold block; rewrite length_app; lia). unfold block. by rewrite drop_0, take_app_length'.
Qed.
Lemma read_end m mm sz sg pay tl : 0 <= sz -> shaped sz sg pay tl -> read (place m mm (block sz sg pay tl)) (mm + 20 + sz) 8 = Some tl.
Proof.
  intros Hsz Hs. pose proof Hs as (H1 & H2 & H3 & _). replace (mm + 20 + sz) with (mm + Z.of_nat (20 + Z.to_nat sz)) by lia.
  rewrite read_place by (rewrite length_block by done; unfold REC, POINTER; lia).
  unfold block. rewrite drop_app_ge, H1 by lia. rewrite drop_app_ge by (rewrite length_app, !length_bytes; lia).
  rewrite length_app, !length_bytes, drop_app_length' by lia. by rewrite take_ge by lia.
Qed.

(** C18: memory that is allocated, written to and given back.  For a size that does
    not overflow [aloe_malloc] refuses, leaving memory as it was, or gives [sz]
    bytes that were in no block, changing no other byte.  Whatever bytes the
    program then writes to them, and by mistake to the eight behind them or to the
    signature in front, [aloe_free] reports it: -1, giving nothing back, if the
    signature changed; otherwise memory is exactly what it was before, and the
    answer is 1 if the bytes behind changed and 0 if they did not. *)
Theorem free_judges grant sig w sz :
  (forall w n a g, grant w n = Some (a, g) ->
    Z.of_nat (length g) = n /\ 0 < a /\ a + n <= 2 ^ 64 /\ blocks w !! a = None /\ forall i, a <= i < a + n -> cells w !! i = None) ->
  0 < sig < 2 ^ 64 -> 0 <= sz -> sz + 28 < 2 ^ 64 ->
  aloe_malloc grant sig sz w = Done 0 w \/
  exists p w1, aloe_malloc grant sig sz w = Done p w1 /\ 20 < p /\
    (forall i, p <= i < p + sz -> cells w !! i = None /\ is_Some (cells w1 !! i)) /\
    (forall i, is_Some (cells w !! i) -> cells w1 !! i = cells w !! i) /\
    forall ws, Forall (fun ab => is_u8 ab.2 /\ (p - 20 <= ab.1 < p - 12 \/ p <= ab.1 < p + sz + 8)) ws ->
    exists w2, scribble ws w1 = Done tt w2 /\
      aloe_free sig p w2 = if decide (kept w1 w2 (p - 20) 8) then Done (if decide (kept w1 w2 (p + sz) 8) then 0 else 1) w else Done (-1) w2.
Proof.
  intros Hg Hsig Hsz Hfit. destruct (malloc_block grant sig Hg w sz Hsz) as [Hm | (mm & pay & H0 & Htop & Hb & Hc & Hs & Hm)];
    [unfold REC, POINTER; lia | by left | right].
  exists (mm + REC), (Mem (place (cells w) mm (block sz (bytes 8 sig) pay (bytes 8 mm))) (<[mm := REC + sz + POINTER]> (blocks w))).
  split; [done | ]. assert (Hl := length_block sz (bytes 8 sig) pay (bytes 8 mm) Hsz Hs). unfold REC, POINTER in *.
  split; [lia | split; [ | split]].
  - intros i Hi. split; [apply Hc; lia | ]. cbn [cells]. rewrite lookup_place, decide_True by lia. apply lookup_lt_is_Some. lia.
  - intros i [b Hi]. cbn [cells]. rewrite lookup_place. destruct (decide _) as [Hd|]; [ | done]. rewrite Hc in Hi by lia. done.
  - intros ws Hws. set (w1 := Mem _ _) in *.
    destruct (scribble_block ws (cells w) mm sz (bytes 8 sig) pay (bytes 8 mm) w1 Hsz eq_refl Hs) as (sg & pay' & tl & Hw & Hs').
    { eapply Forall_impl; [exact Hws | ]. intros [a b]. unfold may_write. cbn [fst snd]. intros [? ?]. split; [done | lia]. }
    eexists. split; [exact Hw | ].
    etransitivity; [by apply (free_block sig Hsig w mm sz sg pay' tl Hsz H0 Htop Hs' Hc Hb) | ].
    set (w2 := Mem _ (blocks w1)).
    assert (K1 : kept w1 w2 (mm + 20 - 20) 8 <-> sg = bytes 8 sig).
    { unfold kept. cbn [w1 w2 cells]. replace (mm + 20 - 20) with mm by lia.
      rewrite (read_sig _ _ _ _ _ _ Hs), (read_sig _ _ _ _ _ _ Hs'). naive_solver. }
    assert (K2 : kept w1 w2 (mm + 20 + sz) 8 <-> tl = bytes 8 mm).
    { unfold kept. cbn [w1 w2 cells]. rewrite (read_end _ _ _ _ _ _ Hsz Hs), (read_end _ _ _ _ _ _ Hsz Hs'). naive_solver. }
    by repeat (case_bool_decide || destruct (decide _)); tauto || (exfalso; tauto).
Qed.

(** Memory for one block at a time. *)
Definition one_block (w : mem) (n : Z) : option (Z * list Z) :=
  if (0 <=? n) && (n <? 1000) && bool_decide (blocks w !! 4096 = None) && bool_decide (Forall (fun i => cells w !! i = None) (seqZ 4096 n))
  then Some (4096, repeat 170 (Z.to_nat n)) else None.
Lemma one_block_fresh w n a g : one_block w n = Some (a, g) ->
  Z.of_nat (length g) = n /\ 0 < a /\ a + n <= 2 ^ 64 /\ blocks w !! a = None /\ forall i, a <= i < a + n -> cells w !! i = None.
Proof.
  unfold one_block. destruct (Z.leb_spec 0 n), (Z.ltb_spec n 1000); try done. cbn [andb].
  case_bool_decide; [ | done]. case_bool_decide as Hf; [ | done]. intros [= <- <-]. rewrite repeat_length.
  split_and!; [lia | lia | lia | done | ]. intros i Hi. rewrite Forall_forall in Hf. apply Hf, elem_of_seqZ. lia.
Qed.
Definition nothing : mem := Mem ∅ ∅.
Lemma free_judges_witness :
  aloe_malloc one_block 77 5 nothing = Done 0 nothing \/
  exists p w1, aloe_malloc one_block 77 5 nothing = Done p w1 /\ 20 < p /\
    (forall i, p <= i < p + 5 -> cells nothing !! i = None /\ is_Some (cells w1 !! i)) /\
    (forall i, is_Some (cells nothing !! i) -> cells w1 !! i = cells nothing !! i) /\
    forall ws, Forall (fun ab => is_u8 ab.2 /\ (p - 20 <= ab.1 < p - 12 \/ p <= ab.1 < p + 5 + 8)) ws ->
    exists w2, scribble ws w1 = Done tt w2 /\
      aloe_free 77 p w2 = if decide (kept w1 w2 (p - 20) 8) then Done (if decide (kept w1 w2 (p + 5) 8) then 0 else 1) nothing else Done (-1) w2.
Proof. apply (free_judges one_block 77 nothing 5); [exact one_block_fresh | lia | lia | lia]. Defined.

(** Using a block as it is meant, one byte too many, one byte too few. *)
Definition use_of (ws : list (Z * Z)) : M Z := do p <- aloe_malloc one_block 77 5; scribble (map (fun ab => (p + ab.1, ab.2)) ws);; aloe_free 77 p.
Example used_well : use_of [(0, 1); (4, 2)] nothing = Done 0 nothing.
Proof. vm_compute. reflexivity. Qed.
Example used_past_end : use_of [(4, 2); (5, 1)] nothing = Done 1 nothing.
Proof. vm_compute. reflexivity. Qed.
Example used_before_start : match use_of [(-20, 0)] nothing with Done r w => r = -1 /\ blocks w !! 4096 = Some 33 | _ => False end.
Proof. vm_compute. done. Qed.

(** A count and a size whose product does not fit: the block that is given has no
    byte for the program, and the first writes go to its end. *)
Example calloc_wraps : match aloe_calloc one_block 77 4294967296 4294967296 nothing with
  | Done p w => p = 4116 /\ blocks w !! 4096 = Some 28 | _ => False end.
Proof. vm_compute. done. Qed.
(** A size that does not fit with the record: the block that is given is only the
    record, and the address behind it is written into it. *)
Example malloc_wraps : match aloe_malloc one_block 77 18446744073709551608 nothing with
  | Done p w => p = 4116 /\ blocks w !! 4096 = Some 20 /\ cells w !! 4116 = None | _ => False end.
Proof. vm_compute. done. Qed.
