(* ===== verification/SysNames.v ===== *)
(** SysNames: the names of errors and signals of sys_linux.cpp, with the numbers
    they have on the machines the system is built for, and the copy of the name of
    a semaphore or a thread. *)

From stdpp Require Import strings.
From Stdlib Require Import Ascii.
From S2P Require Import Prelude CStr ByteStr.

Open Scope list_scope.
Open Scope string_scope.

(* ------------------------------------------------------------------ *)
(** ** The tables *)

Definition aloe_enolut : list (Z * string) :=
  [ (7, "E2BIG"); (13, "EACCES"); (98, "EADDRINUSE"); (99, "EADDRNOTAVAIL"); (97, "EAFNOSUPPORT"); (11, "EAGAIN");
    (114, "EALREADY"); (52, "EBADE"); (9, "EBADF"); (77, "EBADFD"); (74, "EBADMSG"); (53, "EBADR"); (56, "EBADRQC");
    (57, "EBADSLT"); (16, "EBUSY"); (125, "ECANCELED"); (10, "ECHILD"); (44, "ECHRNG"); (70, "ECOMM"); (103, "ECONNABORTED");
    (111, "ECONNREFUSED"); (104, "ECONNRESET"); (35, "EDEADLK"); (35, "EDEADLOCK"); (89, "EDESTADDRREQ"); (33, "EDOM");
    (122, "EDQUOT"); (17, "EEXIST"); (14, "EFAULT"); (27, "EFBIG"); (112, "EHOSTDOWN"); (113, "EHOSTUNREACH");
    (133, "EHWPOISON"); (43, "EIDRM"); (84, "EILSEQ"); (115, "EINPROGRESS"); (4, "EINTR"); (22, "EINVAL"); (5, "EIO");
    (106, "EISCONN"); (21, "EISDIR"); (120, "EISNAM"); (127, "EKEYEXPIRED"); (129, "EKEYREJECTED"); (128, "EKEYREVOKED");
    (51, "EL2HLT"); (45, "EL2NSYNC"); (46, "EL3HLT"); (47, "EL3RST"); (79, "ELIBACC"); (80, "ELIBBAD"); (82, "ELIBMAX");
    (81, "ELIBSCN"); (83, "ELIBEXEC"); (48, "ELNRNG"); (40, "ELOOP"); (124, "EMEDIUMTYPE"); (24, "EMFILE"); (31, "EMLINK");
    (90, "EMSGSIZE"); (72, "EMULTIHOP"); (36, "ENAMETOOLONG"); (100, "ENETDOWN"); (102, "ENETRESET"); (101, "ENETUNREACH");
    (23, "ENFILE"); (55, "ENOANO"); (105, "ENOBUFS"); (61, "ENODATA"); (19, "ENODEV"); (2, "ENOENT"); (8, "ENOEXEC");
    (126, "ENOKEY"); (37, "ENOLCK"); (67, "ENOLINK"); (123, "ENOMEDIUM"); (12, "ENOMEM"); (42, "ENOMSG"); (64, "ENONET");
    (65, "ENOPKG"); (92, "ENOPROTOOPT"); (28, "ENOSPC"); (63, "ENOSR"); (60, "ENOSTR"); (38, "ENOSYS"); (15, "ENOTBLK");
    (107, "ENOTCONN"); (20, "ENOTDIR"); (39, "ENOTEMPTY"); (131, "ENOTRECOVERABLE"); (88, "ENOTSOCK"); (95, "ENOTSUP");
    (25, "ENOTTY"); (76, "ENOTUNIQ"); (6, "ENXIO"); (95, "EOPNOTSUPP"); (75, "EOVERFLOW"); (130, "EOWNERDEAD"); (1, "EPERM");
    (96, "EPFNOSUPPORT"); (32, "EPIPE"); (71, "EPROTO"); (93, "EPROTONOSUPPORT"); (91, "EPROTOTYPE"); (34, "ERANGE");
    (78, "EREMCHG"); (66, "EREMOTE"); (121, "EREMOTEIO"); (85, "ERESTART"); (132, "ERFKILL"); (30, "EROFS");
    (108, "ESHUTDOWN"); (29, "ESPIPE"); (94, "ESOCKTNOSUPPORT"); (3, "ESRCH"); (116, "ESTALE"); (86, "ESTRPIPE");
    (62, "ETIME"); (110, "ETIMEDOUT"); (109, "ETOOMANYREFS"); (26, "ETXTBSY"); (117, "EUCLEAN"); (49, "EUNATCH");
    (87, "EUSERS"); (11, "EWOULDBLOCK"); (18, "EXDEV"); (54, "EXFULL") ].

Definition aloe_siglut : list (Z * string) :=
  [ (1, "SIGHUP"); (2, "SIGINT"); (3, "SIGQUIT"); (4, "SIGILL"); (5, "SIGTRAP"); (6, "SIGABRT"); (6, "SIGIOT"); (7, "SIGBUS");
    (8, "SIGFPE"); (9, "SIGKILL"); (10, "SIGUSR1"); (11, "SIGSEGV"); (12, "SIGUSR2"); (13, "SIGPIPE"); (14, "SIGALRM");
    (15, "SIGTERM"); (16, "SIGSTKFLT"); (17, "SIGCHLD"); (17, "SIGCLD"); (18, "SIGCONT"); (19, "SIGSTOP"); (20, "SIGTSTP");
    (21, "SIGTTIN"); (22, "SIGTTOU"); (23, "SIGURG"); (24, "SIGXCPU"); (25, "SIGXFSZ"); (26, "SIGVTALRM"); (27, "SIGPROF");
    (28, "SIGWINCH"); (29, "SIGIO"); (29, "SIGPOLL"); (30, "SIGPWR"); (31, "SIGSYS") ].

(* ------------------------------------------------------------------ *)
(** ** Searches *)

(** The text [n] characters behind the start of a name. *)
Fixpoint from (n : nat) (s : string) : string :=
  match n, s with S n', String _ s' => from n' s' | _, _ => s end.
(** [strncasecmp(s, prefix, strlen(prefix)) == 0]. *)
Fixpoint has_caseprefix (prefix s : string) : bool :=
  match prefix, s with
  | "", _ => true
  | String c p', String d s' => bool_decide (lower c = lower d) && has_caseprefix p' s'
  | _, "" => false
  end.

(** The first entry whose name is [str] from its fourth character on. *)
Fixpoint find_name (lut : list (Z * string)) (str : string) : Z :=
  match lut with
  | [] => -1
  | (v, name) :: lut' => if strcaseeq str (from 3 name) then v else find_name lut' str
  end.
Definition aloe_errnostr_val (str : string) : Z := find_name aloe_enolut str.
Definition aloe_sigstr_val (str : string) : Z :=
  let str := if has_caseprefix "sig" str then from 3 str else str in
  find_name aloe_siglut str.

(* ------------------------------------------------------------------ *)
(** ** What they find *)

Lemma strcaseeq_spec a b : strcaseeq a b = true <-> map lower (String.list_ascii_of_string a) = map lower (String.list_ascii_of_string b).
Proof.
  revert b. induction a as [|c a IH]; intros [|d b]; cbn [strcaseeq String.list_ascii_of_string map]; try done.
  rewrite andb_true_iff, bool_decide_eq_true, IH. split; [by intros [-> ->] | by intros [= -> ->]].
Qed.
Lemma strcaseeq_refl a : strcaseeq a a = true.
Proof. by apply strcaseeq_spec. Qed.
Lemma strcaseeq_sym a b : strcaseeq a b = strcaseeq b a.
Proof. apply eq_true_iff_eq. rewrite !strcaseeq_spec. naive_solver. Qed.
Lemma strcaseeq_trans a b c : strcaseeq a b = true -> strcaseeq a c = strcaseeq b c.
Proof. intros H%strcaseeq_spec. apply eq_true_iff_eq. rewrite !strcaseeq_spec. by rewrite H. Qed.

(** Spelling does not matter, and what is found is in the table. *)
Lemma find_name_case lut a b : strcaseeq a b = true -> find_name lut a = find_name lut b.
Proof. intros H. induction lut as [|[v n] lut IH]; [done | ]. cbn [find_name]. by rewrite (strcaseeq_trans a b), IH. Qed.
Lemma find_name_in lut s v : find_name lut s = v -> v <> -1 -> exists name, (v, name) ∈ lut /\ strcaseeq s (from 3 name) = true.
Proof.
  induction lut as [|[x n] lut IH]; cbn [find_name]; [by intros <- | ]. destruct (strcaseeq s (from 3 n)) eqn:E.
  - intros <- _. exists n. split; [by left | done].
  - intros H Hv. destruct (IH H Hv) as (name & Hin & ?). exists name. split; [by right | done].
Qed.
Lemma has_caseprefix_case p a b : strcaseeq a b = true -> has_caseprefix p a = has_caseprefix p b.
Proof.
  revert a b. induction p as [|c p IH]; intros [|x a] [|y b]; cbn [strcaseeq has_caseprefix]; try done.
  rewrite andb_true_iff, bool_decide_eq_true. intros [Hc Hs]. rewrite (IH a b Hs).
  by rewrite (bool_decide_ext (lower c = lower x) (lower c = lower y)) by (by rewrite Hc).
Qed.
Lemma from_case n a b : strcaseeq a b = true -> strcaseeq (from n a) (from n b) = true.
Proof.
  revert a b. induction n as [|n IH]; intros [|x a] [|y b]; cbn [strcaseeq from]; try done.
  rewrite andb_true_iff. intros [_ Hs]. by apply IH.
Qed.
(** A text with the prefix is the prefix and the rest. *)
Lemma sig_prefix_split s n : has_caseprefix "sig" s = true -> has_caseprefix "sig" n = true ->
  strcaseeq (from 3 s) (from 3 n) = true -> strcaseeq s n = true.
Proof.
  destruct s as [|a [|b [|c s]]], n as [|x [|y [|z n]]]; cbn [has_caseprefix from strcaseeq];
    rewrite ?andb_false_r, ?andb_true_r; try done.
  rewrite !andb_true_iff, !bool_decide_eq_true. intros (Ha & Hb & Hc) (Hx & Hy & Hz) Hs. by rewrite <- Ha, <- Hb, <- Hc.
Qed.

Definition entry_ok (e : Z * string) : bool :=
  has_caseprefix "sig" e.2 && negb (has_caseprefix "sig" (from 3 e.2)) && (find_name aloe_siglut (from 3 e.2) =? e.1)%Z && (0 <? e.1)%Z.
Lemma siglut_ok v n : (v, n) ∈ aloe_siglut ->
  has_caseprefix "sig" n = true /\ has_caseprefix "sig" (from 3 n) = false /\ find_name aloe_siglut (from 3 n) = v /\ (0 < v)%Z.
Proof.
  intros Hin. assert (H : forallb entry_ok aloe_siglut = true) by (vm_compute; reflexivity).
  rewrite forallb_forall in H. apply list_elem_of_In, H in Hin. unfold entry_ok in Hin. cbn [fst snd] in Hin.
  rewrite !andb_true_iff, negb_true_iff, Z.eqb_eq, Z.ltb_lt in Hin. tauto.
Qed.

(** A number is found for exactly the names of its signal, with or without SIG,
    however they are spelled. *)
Theorem signals_found s v : v <> -1 ->
  aloe_sigstr_val s = v <-> exists name, (v, name) ∈ aloe_siglut /\ (strcaseeq s name = true \/ strcaseeq s (from 3 name) = true).
Proof.
  intros Hv. unfold aloe_sigstr_val. split.
  - destruct (has_caseprefix "sig" s) eqn:Hp; intros H; destruct (find_name_in _ _ _ H Hv) as (n & Hin & Hs); exists n; (split; [done | ]).
    + left. apply sig_prefix_split; [done | by apply siglut_ok in Hin as [] | done].
    + by right.
  - intros (n & Hin & [Hs | Hs]); destruct (siglut_ok _ _ Hin) as (H1 & H2 & H3 & _).
    + rewrite (has_caseprefix_case _ _ _ Hs), H1, (find_name_case _ _ _ (from_case 3 _ _ Hs)). done.
    + rewrite (has_caseprefix_case _ _ _ Hs), H2, (find_name_case _ _ _ Hs). done.
Qed.

(** The search for errors skips the prefix of signals: no name of an error is
    found, however it is spelled, and the empty text is EIO. *)
Theorem errors_not_found s v name : (v, name) ∈ aloe_enolut -> strcaseeq s name = true -> aloe_errnostr_val s = -1.
Proof.
  intros Hin Hs. unfold aloe_errnostr_val. rewrite (find_name_case _ _ _ Hs).
  assert (H : forallb (fun e : Z * string => (find_name aloe_enolut e.2 =? -1)%Z) aloe_enolut = true) by (vm_compute; reflexivity).
  rewrite forallb_forall in H. apply list_elem_of_In, H in Hin. by apply Z.eqb_eq.
Qed.
Example empty_is_EIO : aloe_errnostr_val "" = 5.
Proof. vm_compute. reflexivity. Qed.

(* ------------------------------------------------------------------ *)
(** ** Names of semaphores and threads *)

Open Scope list_scope.
Open Scope Z_scope.

(** [strlen]; [None]: there is no NUL. *)
Definition strlen_of (n : list Z) : option Z :=
  let k := length (c_str n) in if bool_decide (k < length n)%nat then Some (Z.of_nat k) else None.
(** [snstrncpy]: the characters written to a buffer of [size]; a name is the
    object it is in, with its NUL.  [None]: more is read than there is. *)
Definition snstrncpy (size : nat) (name : option (list Z)) (len : Z) : option (list Z) :=
  len ← (if len <=? 0 then match name with Some n => strlen_of n | None => Some 0 end else Some len);
  if 0 <? len then
    let len := if Z.of_nat size <=? len then Z.of_nat size - 1 else len in
    match name with
    | Some n => if Z.of_nat (length n) <? len then None else Some (take (Z.to_nat len) n ++ [0])
    | None => if 0 <? len then None else Some [0]
    end
  else Some [0].
(** The length -1 is a [size_t]. *)
Definition snstrcpy (size : nat) (name : option (list Z)) : option (list Z) := snstrncpy size name (u64 (-1)).
Definition ALOE_SEM_NAME_SIZE : nat := 20.
Definition ALOE_THREAD_NAME_SIZE : nat := 20.

(** The whole buffer is filled from a name however short it is. *)
Lemma name_overread size n : (0 < size)%nat -> Z.of_nat size < 2 ^ 64 ->
  snstrcpy size (Some n) = if decide (length n < size - 1)%nat then None else Some (take (size - 1) n ++ [0]).
Proof.
  intros H0 Hs. unfold snstrcpy, snstrncpy. change (u64 (-1)) with 18446744073709551615.
  change (18446744073709551615 <=? 0) with false. cbn [mbind option_bind]. change (0 <? 18446744073709551615) with true.
  rewrite (proj2 (Z.leb_le _ _)) by lia. replace (Z.to_nat (Z.of_nat size - 1)) with (size - 1)%nat by lia.
  destruct (decide _); [by rewrite (proj2 (Z.ltb_lt _ _)) by lia | by rewrite (proj2 (Z.ltb_ge _ _)) by lia].
Qed.
(** A semaphore that is called lock, one whose name is as long as the buffer. *)
Example short_name_overread : snstrcpy ALOE_SEM_NAME_SIZE (Some (lit "lock" ++ [0])) = None.
Proof. vm_compute. reflexivity. Qed.
Example long_name_copied : snstrcpy ALOE_SEM_NAME_SIZE (Some (lit "a name of twenty char" ++ [0])) = Some (lit "a name of twenty ch" ++ [0]).
Proof. vm_compute. reflexivity. Qed.
