(* ===== verification/V4l2.v ===== *)
(** V4l2: video capture, package/tester1/v4l2.cpp with x264_encoder.cpp.  What the
    process holds (descriptors, mapped buffers, allocated arrays and pictures,
    encoders, the file) and what the driver has queued are part of the state; how
    calls answer is the environment's. *)

From stdpp Require Import strings.
From S2P Require Import Prelude Buf Eff CStr.

Open Scope list_scope.
Open Scope eff_scope.

(* ------------------------------------------------------------------ *)
(** ** State *)

(** Where the planes of [m_pic] are: nowhere, in the picture x264_picture_alloc
    allocated, in the buffer of the driver mapped at an address. *)
Inductive plane : Type := P_null | P_own | P_mapped (a : Z).
(** [X264Encoder]: [m_pic], whether [m_encoder] is there, the two headers. *)
Record encoder : Type := Encoder { m_pic : plane; m_open : bool; m_sps : list Z; m_pps : list Z }.

Inductive v4l2_state : Type := V4L2_STATE_RESET | V4L2_STATE_OPEN | V4L2_STATE_START.
#[global] Instance v4l2_state_dec : EqDecision v4l2_state.
Proof. solve_decision. Defined.

(** [v4l2_mem_t]: where a buffer is mapped, 0 for nowhere, and its length. *)
Definition vmem : Type := Z * Z.
(** [v4l2_t]: [evconn.fd], [evconn.ev], width and height of [v4l2_fmt], [v4l2_mem]
    with its count, [None] for NULL, [state], [encoder], whether [x264_fp] is open. *)
Record v4l2 : Type := V4l2 {
  evfd : Z; ev : option Z; width : Z; height : Z; v4l2_mem : option (list vmem); state : v4l2_state;
  enc : option encoder; x264_fp : bool }.

(** The capture, what is open, registered with the event loop (handle and
    descriptor), mapped and allocated (arrays of [v4l2_mem_t], pictures and encoders
    of the library, streams); the next handle, the next address; the contents of
    the file; the buffers the driver has; the calls answered. *)
Record world : Type := World {
  dev : option v4l2; fds : list Z; regs : list (Z * Z); maps : list Z; arrays : Z; pics : Z; xs : Z; files : Z;
  fresh : Z; file : list Z; queue : list nat; used : nat }.
Definition V (A : Type) : Type := comp world A.

(** Call number [n]: its result, negative for a failure, and errno; capabilities,
    format, number of buffers, length of a buffer, which of the queued buffers has
    the next frame, the units of the headers with their types, those of a frame. *)
Record env : Type := Env {
  e_ret : nat -> Z; e_caps : nat -> Z; e_fmt : nat -> Z * Z; e_count : nat -> nat; e_len : nat -> Z;
  e_pick : nat -> nat; e_nals : nat -> list (Z * list Z); e_frame : nat -> list (list Z) }.

(** Updates. *)
Definition w_dev d w := World d (fds w) (regs w) (maps w) (arrays w) (pics w) (xs w) (files w) (fresh w) (file w) (queue w) (used w).
Definition w_os f r w := World (dev w) f r (maps w) (arrays w) (pics w) (xs w) (files w) (fresh w) (file w) (queue w) (used w).
Definition w_maps m w := World (dev w) (fds w) (regs w) m (arrays w) (pics w) (xs w) (files w) (fresh w) (file w) (queue w) (used w).
Definition w_heap a p x w := World (dev w) (fds w) (regs w) (maps w) a p x (files w) (fresh w) (file w) (queue w) (used w).
Definition w_file n f w := World (dev w) (fds w) (regs w) (maps w) (arrays w) (pics w) (xs w) n (fresh w) f (queue w) (used w).
Definition w_fresh n w := World (dev w) (fds w) (regs w) (maps w) (arrays w) (pics w) (xs w) (files w) n (file w) (queue w) (used w).
Definition w_queue q w := World (dev w) (fds w) (regs w) (maps w) (arrays w) (pics w) (xs w) (files w) (fresh w) (file w) q (used w).
Definition w_used n w := World (dev w) (fds w) (regs w) (maps w) (arrays w) (pics w) (xs w) (files w) (fresh w) (file w) (queue w) n.

Definition tick : V nat := do n <- gets used; modify (w_used (S n));; ret n.
Definition the_dev : V v4l2 := do d <- gets dev; need d.
Definition upd (f : v4l2 -> v4l2) : V unit := do d <- the_dev; modify (w_dev (Some (f d))).
Definition s_conn fd e d := V4l2 fd e (width d) (height d) (v4l2_mem d) (state d) (enc d) (x264_fp d).
Definition s_state s d := V4l2 (evfd d) (ev d) (width d) (height d) (v4l2_mem d) s (enc d) (x264_fp d).
Definition s_mem m d := V4l2 (evfd d) (ev d) (width d) (height d) m (state d) (enc d) (x264_fp d).
Definition s_enc e d := V4l2 (evfd d) (ev d) (width d) (height d) (v4l2_mem d) (state d) e (x264_fp d).
Definition s_fp f d := V4l2 (evfd d) (ev d) (width d) (height d) (v4l2_mem d) (state d) (enc d) f.

(* ------------------------------------------------------------------ *)
(** ** The system *)

(** [close]: of a descriptor that is open and not watched.  The driver lets go
    of its buffers. *)
Definition close_fd (fd : Z) : V unit :=
  do l <- gets fds; do rs <- gets regs;
  if bool_decide (fd ∈ l) && negb (existsb (fun r => r.2 =? fd) rs)
  then modify (w_os (filter (fun x => x <> fd) l) rs);; modify (w_queue []) else ub.
Definition munmap (a : Z) : V unit :=
  do m <- gets maps;
  if bool_decide (a ∈ m) then modify (w_maps (filter (fun x => x <> a) m)) else ub.
Definition add_heap (a p x : Z) : V unit := modify (fun w => w_heap (arrays w + a) (pics w + p) (xs w + x) w).
Definition free_array : V unit :=
  do a <- gets arrays; if a <=? 0 then ub else add_heap (-1) 0 0.
Definition evb2_cancel (h : Z) : V unit :=
  do l <- gets fds; do rs <- gets regs;
  if existsb (fun r => r.1 =? h) rs then modify (w_os l (filter (fun r => r.1 <> h) rs)) else ub.

Section Env.
Context (E : env).

Definition call : V Z := do n <- tick; ret (e_ret E n).
Definition open_fd : V Z :=
  do r <- call;
  if r <? 0 then ret (-1) else
  do l <- gets fds; do rs <- gets regs;
  let fd := new_fd r l in
  modify (w_os (fd :: l) rs);; ret fd.
Definition evconn_cancel : V unit :=
  do d <- the_dev;
  match ev d with None => ret tt | Some h => evb2_cancel h;; upd (s_conn (evfd d) None) end.
(** [evconn_add_read]: whether it is registered. *)
Definition evconn_add_read : V bool :=
  do d <- the_dev;
  do r <- call;
  if r <? 0 then upd (s_conn (evfd d) None);; ret false else
  do h <- gets fresh; do l <- gets fds; do rs <- gets regs;
  modify (w_fresh (h + 1));; modify (w_os l ((h, evfd d) :: rs));;
  upd (s_conn (evfd d) (Some h));; ret true.

(* ------------------------------------------------------------------ *)
(** ** X264Encoder *)

(** A unit without its start code. *)
Definition nal_offset (payload : list Z) : nat :=
  if bool_decide (take 4 payload = [0; 0; 0; 1]) then 4 else
  if bool_decide (take 3 payload = [0; 0; 1]) then 3 else 0.
Definition NAL_SPS : Z := 7.
Definition NAL_PPS : Z := 8.
Definition take_nal (e : encoder) (nal : Z * list Z) : encoder :=
  let body := drop (nal_offset nal.2) nal.2 in
  if nal.1 =? NAL_SPS then Encoder (m_pic e) (m_open e) body (m_pps e) else
  if nal.1 =? NAL_PPS then Encoder (m_pic e) (m_open e) (m_sps e) body else e.

Definition set_enc (e : encoder) : V unit := upd (s_enc (Some e)).
Definition enc_configure_params : V bool :=
  do r <- call; if r <? 0 then ret false else
  do r <- call; if r <? 0 then ret false else ret true.
Definition enc_init (e : encoder) : V bool :=
  do ok <- enc_configure_params;
  if negb ok then ret false else
  do r <- call;
  if r <? 0 then ret false else
  add_heap 0 1 0;;
  let e := Encoder P_own (m_open e) (m_sps e) (m_pps e) in
  set_enc e;;
  do r <- call;
  if r <? 0 then ret false else
  add_heap 0 0 1;;
  let e := Encoder (m_pic e) true (m_sps e) (m_pps e) in
  set_enc e;;
  do n <- tick;
  if e_ret E n <? 0 then ret false else
  set_enc (fold_left take_nal (e_nals E n) (Encoder (m_pic e) (m_open e) [] []));;
  ret true.

(** The bytes a picture of I420 is read from. *)
Definition i420_size (w h : Z) : Z := w * h + 2 * ((w / 2) * (h / 2)).
(** [encode] of the frame in a buffer: the bytes, or [None] for -1. *)
Definition enc_encode (e : encoder) (b : vmem) : V (option (list Z)) :=
  if negb (m_open e) then ret None else
  do d <- the_dev;
  set_enc (Encoder (P_mapped b.1) (m_open e) (m_sps e) (m_pps e));;
  if (b.1 =? 0) || (b.2 <? i420_size (width d) (height d)) then ub else
  do n <- tick;
  if e_ret E n <? 0 then ret None else ret (Some (concat (e_frame E n))).
(** The destructor.  x264_picture_clean gives back the plane it finds. *)
Definition enc_delete (e : encoder) : V unit :=
  (if m_open e then add_heap 0 0 (-1) else ret tt);;
  match m_pic e with
  | P_null => ret tt
  | P_own => add_heap 0 (-1) 0
  | P_mapped _ => ub
  end.
End Env.

(* ------------------------------------------------------------------ *)
(** ** The driver *)

Definition V4L2_CAP_VIDEO_CAPTURE : Z := 1.
Definition V4L2_CAP_STREAMING : Z := 67108864.
Definition has_cap (caps cap : Z) : bool := negb (Z.land caps cap =? 0).

Section Driver.
Context (E : env).

Definition v4l2_open_streamcap : V Z :=
  do fd <- open_fd E;
  if fd =? -1 then ret (-1) else
  do n <- tick;
  if e_ret E n <? 0 then close_fd fd;; ret (-1) else
  if negb (has_cap (e_caps E n) V4L2_CAP_VIDEO_CAPTURE) || negb (has_cap (e_caps E n) V4L2_CAP_STREAMING)
  then close_fd fd;; ret (-1) else
  ret fd.
(** Width and height, or [None] for -1. *)
Definition v4l2_config_fmt (fd : Z) : V (option (Z * Z)) :=
  do r <- call E;
  if r <? 0 then ret None else
  do n <- tick; ret (Some (e_fmt E n)).
(** The count the driver gives, or [None] for -1; the driver has no buffer
    then. *)
Definition v4l2_request_devbuf (fd : Z) : V (option nat) :=
  do n <- tick;
  if e_ret E n <? 0 then ret None else
  modify (w_queue []);; ret (Some (e_count E n)).

(** A buffer the driver already has is refused. *)
Definition v4l2_streamcap_enq (fd : Z) (index : nat) : V Z :=
  do r <- call E; do q <- gets queue;
  if (r <? 0) || bool_decide (index ∈ q) then ret (-1) else
  modify (w_queue (q ++ [index]));; ret 0.
(** With a frame in one of the buffers the driver has. *)
Definition v4l2_streamcap_deq (fd : Z) : V (option nat) :=
  do n <- tick; do q <- gets queue;
  match q !! (e_pick E n mod length q)%nat with
  | Some i => modify (w_queue (filter (fun x => x <> i) q));; ret (Some i)
  | None => ret None
  end.

Fixpoint map_loop (todo i : nat) (vm : list vmem) : V (bool * list vmem) :=
  match todo with
  | O => ret (true, vm)
  | S todo' =>
      do n <- tick;
      if e_ret E n <? 0 then ret (false, vm) else
      do r <- call E;
      if r <? 0 then ret (false, <[i := (0, e_len E n)]> vm) else
      do a <- gets fresh; do m <- gets maps;
      modify (w_fresh (a + 1));; modify (w_maps (a :: m));;
      map_loop todo' (S i) (<[i := (a, e_len E n)]> vm)
  end.
Definition v4l2_map_devbuf (fd : Z) (count : nat) (vm : list vmem) : V (bool * list vmem) := map_loop count 0 vm.
Fixpoint unmap_all (vm : list vmem) : V unit :=
  match vm with [] => ret tt | (a, _) :: vm' => (if a =? 0 then ret tt else munmap a);; unmap_all vm' end.

Definition v4l2_streamcap_start (fd : Z) : V Z := call E.
(** Stopping takes all buffers from the driver. *)
Definition v4l2_streamcap_stop (fd : Z) : V Z :=
  do r <- call E;
  if r <? 0 then ret r else modify (w_queue []);; ret r.

(* ------------------------------------------------------------------ *)
(** ** The capture *)

(** [x264]: the program is built with the encoder. *)
Context (x264 : bool).

(** [fwrite]: whether all bytes were written, otherwise some may be. *)
Definition fwrite (bytes : list Z) : V bool :=
  do n <- tick; do f <- gets file; do k <- gets files;
  if e_ret E n <? 0 then modify (w_file k (f ++ take (e_pick E n) bytes));; ret false else
  modify (w_file k (f ++ bytes));; ret true.
(** A frame is encoded and written to the file, if it fits. *)
Definition encode_frame (i : nat) : V unit :=
  do d <- the_dev;
  match enc d with
  | Some e =>
      if negb (x264_fp d) then ret tt else
      do vm <- need (v4l2_mem d);
      do b <- need (vm !! i);
      do out <- enc_encode E e b;
      match out with
      | Some bytes =>
          if (length bytes =? 0)%nat then ret tt else
          do _ <- fwrite bytes; ret tt
      | None => ret tt
      end
  | None => ret tt
  end.

Definition FLAG_READ : Z := 1.
(** The loop of the callback, with the number of frames that are there before
    the driver says that there is none, or fails. *)
Fixpoint capture_loop (ready : nat) : V unit :=
  do d <- the_dev;
  match ready with
  | O => do _ <- call E; ret tt
  | S ready' =>
      do o <- v4l2_streamcap_deq (evfd d);
      match o with
      | None => ret tt
      | Some i =>
          (if x264 then encode_frame i else ret tt);;
          do r <- v4l2_streamcap_enq (evfd d) i;
          if negb (r =? 0) then ret tt else capture_loop ready'
      end
  end.
Definition v4l2_streamcap_cb (fd events : Z) (ready : nat) : V unit :=
  do d <- the_dev;
  if negb (evfd d =? fd) then ret tt else
  if Z.land events FLAG_READ =? 0 then ret tt else capture_loop ready.

Fixpoint queue_loop (todo i : nat) : V Z :=
  match todo with
  | O => ret 0
  | S todo' =>
      do d <- the_dev;
      do r <- v4l2_streamcap_enq (evfd d) i;
      if negb (r =? 0) then ret (-1) else queue_loop todo' (S i)
  end.
(** [v4l2_mem_cnt] is the length of the array. *)
Definition v4l2_queue_all : V Z := do d <- the_dev; queue_loop (length (default [] (v4l2_mem d))) 0.

Definition v4l2_stop : V Z :=
  do d <- the_dev;
  if negb (bool_decide (state d = V4L2_STATE_START)) then ret 0 else
  evconn_cancel;;
  (if 0 <=? evfd d then do _ <- v4l2_streamcap_stop (evfd d); ret tt else ret tt);;
  upd (s_state V4L2_STATE_OPEN);; ret 0.

Definition close_encoder : V unit :=
  (do d <- the_dev;
   match enc d with Some e => enc_delete e;; upd (s_enc None) | None => ret tt end);;
  do d <- the_dev;
  if x264_fp d then do f <- gets file; do n <- gets files; modify (w_file (n - 1) f);; upd (s_fp false) else ret tt.
Definition v4l2_close : V Z :=
  v4l2_stop;;
  (if x264 then close_encoder else ret tt);;
  (do d <- the_dev;
   match v4l2_mem d with
   | Some vm => unmap_all vm;; free_array;; upd (s_mem None)
   | None => ret tt
   end);;
  (do d <- the_dev;
   if 0 <=? evfd d then
     do _ <- v4l2_request_devbuf (evfd d);
     close_fd (evfd d);; upd (s_conn (-1) (ev d))
   else ret tt);;
  upd (s_state V4L2_STATE_RESET);; ret 0.

(** [goto finally] of v4l2_open. *)
Definition open_fails (fd : Z) (vm : option (list vmem)) : V Z :=
  (match vm with Some vm => unmap_all vm;; free_array | None => ret tt end);;
  close_fd fd;; ret (-1).
Definition v4l2_open : V Z :=
  (do d <- the_dev;
   if bool_decide (state d = V4L2_STATE_RESET) then ret tt else do _ <- v4l2_close; ret tt);;
  do fd <- v4l2_open_streamcap;
  if fd =? -1 then ret (-1) else
  do fmt <- v4l2_config_fmt fd;
  match fmt with
  | None => open_fails fd None
  | Some (w, h) =>
      do cnt <- v4l2_request_devbuf fd;
      match cnt with
      | None => open_fails fd None
      | Some cnt =>
          do r <- call E;
          if r <? 0 then open_fails fd None else
          add_heap 1 0 0;;
          do ' (ok, vm) <- v4l2_map_devbuf fd cnt (repeat (0, 0) cnt);
          if negb ok then open_fails fd (Some vm) else
          upd (fun d => V4l2 fd (ev d) w h (Some vm) V4L2_STATE_OPEN (enc d) (x264_fp d));; ret 0
      end
  end.

Definition startCode4 : list Z := [0; 0; 0; 1].
Definition fwrite_any (bytes : list Z) : V bool := if (length bytes =? 0)%nat then ret true else fwrite bytes.
Definition writeHeaders (e : encoder) : V bool :=
  do ok <- fwrite startCode4; if negb ok then ret false else
  do ok <- fwrite_any (m_sps e); if negb ok then ret false else
  do ok <- fwrite startCode4; if negb ok then ret false else
  fwrite_any (m_pps e).

(** The encoder and its file are made where they are not there yet. *)
Definition start_encoder : V bool :=
  do d <- the_dev;
  do ok <-
    (match enc d with
     | Some _ => ret true
     | None => let e := Encoder P_null false [] [] in set_enc e;; enc_init E e
     end);
  if negb ok then ret false else
  do d <- the_dev;
  if x264_fp d then ret true else
  do r <- call E;
  if r <? 0 then ret false else
  do n <- gets files;
  modify (w_file (n + 1) []);; upd (s_fp true);;
  do e <- need (enc d);
  writeHeaders e.
Definition v4l2_start : V Z :=
  do d <- the_dev;
  if evfd d <? 0 then ret (-1) else
  if bool_decide (state d = V4L2_STATE_START) then ret 0 else
  if negb (bool_decide (state d = V4L2_STATE_OPEN)) then ret (-1) else
  do ok <- (if x264 then start_encoder else ret true);
  if negb ok then ret (-1) else
  do r <- v4l2_queue_all;
  if negb (r =? 0) then ret (-1) else
  do r <- v4l2_streamcap_start (evfd d);
  if negb (r =? 0) then ret (-1) else
  do ok <- evconn_add_read E;
  if negb ok then do _ <- v4l2_streamcap_stop (evfd d); ret (-1) else
  upd (s_state V4L2_STATE_START);; ret 0.

Definition v4l2_destroy : V unit :=
  do d <- gets dev;
  match d with
  | None => ret tt
  | Some _ => do _ <- v4l2_close; modify (w_dev None)
  end.
(** Whether there is a capture. *)
Definition v4l2_init : V bool :=
  do r <- call E;
  if r <? 0 then ret false else
  modify (w_dev (Some (V4l2 (-1) None 0 0 None V4L2_STATE_RESET None false)));;
  do r <- v4l2_open;
  if negb (r =? 0) then v4l2_destroy;; ret false else
  do r <- v4l2_start;
  if negb (r =? 0) then v4l2_destroy;; ret false else ret true.

Definition v4l2_cli (argv : list string) : V Z :=
  match argv with
  | _ :: arg :: _ =>
      if strcaseeq arg "help" then ret 0 else
      do d <- gets dev;
      match d with
      | None => ret 1
      | Some _ =>
          if strcaseeq arg "start" then v4l2_start else
          if strcaseeq arg "stop" then v4l2_stop else ret (-1)
      end
  | _ => ret 0
  end.

(* ------------------------------------------------------------------ *)
(** ** The program *)

(** A command line, or the descriptor is watched and ready: the events, and the
    frames there are. *)
Inductive happening : Type := Cmd (argv : list string) | Frames (events : Z) (ready : nat).
Definition happen (h : happening) : V unit :=
  match h with
  | Cmd argv => do _ <- v4l2_cli argv; ret tt
  | Frames events ready =>
      do rs <- gets regs;
      match rs with [] => ret tt | (_, fd) :: _ => v4l2_streamcap_cb fd events ready end
  end.
Fixpoint happen_all (hs : list happening) : V unit :=
  match hs with [] => ret tt | h :: hs' => happen h;; happen_all hs' end.
Definition program (hs : list happening) : V unit :=
  do ok <- v4l2_init;
  if ok then happen_all hs else ret tt.
End Driver.

Definition at_start : world := World None [] [] [] 0 0 0 0 1 [] [] 0.
