(* ===== verification/V4l2Spec.v ===== *)
(** V4l2Spec: the capture keeps its account of everything it holds, gives it
    back unless a frame was encoded, and records what the driver delivers. *)

From stdpp Require Import strings.
From S2P Require Import Prelude Buf Eff CStr V4l2.

Open Scope list_scope.
Open Scope eff_scope.

(* ------------------------------------------------------------------ *)
(** ** The account *)

Definition mapped (m : option (list vmem)) : list Z :=
  match m with Some vm => filter (fun a => a <> 0) vm.*1 | None => [] end.
Definition pictures (e : option encoder) : Z :=
  match e with Some e => match m_pic e with P_null => 0 | _ => 1 end | None => 0 end.
Definition encoders (e : option encoder) : Z :=
  match e with Some e => if m_open e then 1 else 0 | None => 0 end.

(** The process holds what the capture says and, beside it, descriptors [o],
    mapped buffers [mo] and [ao] arrays. *)
Record held (w : world) (d : v4l2) (o mo : list Z) (ao : Z) : Prop := Held {
  h_dev : dev w = Some d;
  h_fd : evfd d = -1 \/ 0 <= evfd d;
  h_nodup : NoDup (fds w);
  h_fds : fds w ≡ₚ (if 0 <=? evfd d then [evfd d] else []) ++ o;
  h_regs : match ev d with Some h => 0 <= evfd d /\ regs w = [(h, evfd d)] | None => regs w = [] end;
  h_maps : maps w ≡ₚ mapped (v4l2_mem d) ++ mo;
  h_mdup : NoDup (maps w);
  h_fresh : 0 < fresh w /\ Forall (fun a => 0 < a < fresh w) (maps w);
  h_arrays : arrays w = (match v4l2_mem d with Some _ => 1 | None => 0 end) + ao;
  h_aux : 0 <= ao;
  h_pics : pics w = pictures (enc d);
  h_xs : xs w = encoders (enc d);
  h_files : files w = if x264_fp d then 1 else 0 }.

(** What else is so in a state. *)
Definition ready (w : world) (d : v4l2) : Prop :=
  0 <= evfd d /\ exists vm, v4l2_mem d = Some vm /\
  Forall (fun b : vmem => b.1 <> 0 /\ i420_size (width d) (height d) <= b.2) vm /\
  Forall (fun i => (i < length vm)%nat) (queue w) /\ NoDup (queue w).
Definition stat (x264 : bool) (w : world) (d : v4l2) : Prop :=
  (x264 = false -> enc d = None /\ x264_fp d = false) /\
  (forall e, enc d = Some e -> m_open e = true -> m_pic e <> P_null) /\
  match state d with
  | V4L2_STATE_RESET => evfd d = -1 /\ ev d = None /\ v4l2_mem d = None /\ enc d = None /\ x264_fp d = false
  | V4L2_STATE_OPEN => ev d = None /\ ready w d
  | V4L2_STATE_START => (exists h, ev d = Some h) /\ ready w d
  end.
Definition good (x264 : bool) (w : world) (d : v4l2) (o : list Z) : Prop := held w d o [] 0 /\ stat x264 w d.

(** Only the number of calls and the contents of the file changed. *)
Definition quiet (w w' : world) : Prop := w' = w_file (files w) (file w') (w_used (used w') w).
Lemma held_quiet w w' d o mo ao : quiet w w' -> held w d o mo ao -> held w' d o mo ao.
Proof. intros -> []. by split. Qed.
Lemma stat_quiet x w w' d : quiet w w' -> stat x w d -> stat x w' d.
Proof. by intros ->. Qed.
Lemma v_quiet_refl w : quiet w w.
Proof. by destruct w. Qed.
Lemma v_quiet_trans w1 w2 w3 : quiet w1 w2 -> quiet w2 w3 -> quiet w1 w3.
Proof. unfold quiet. intros -> ->. done. Qed.

Section Ops.
Context (E : env).

Lemma v_tick_ok w (Q : nat -> world -> Prop) : (forall n w', quiet w w' -> Q n w') -> wp tick w Q.
Proof. intros HQ. unfold tick. ewp_pure. by apply HQ. Qed.
Lemma v_call_ok w (Q : Z -> world -> Prop) : (forall r w', quiet w w' -> Q r w') -> wp (call E) w Q.
Proof. intros HQ. unfold call. apply ewp_bind, v_tick_ok. intros n w' Hq. ewp_pure. by apply HQ. Qed.

Lemma v_upd_dev w d f (Q : unit -> world -> Prop) : dev w = Some d -> Q tt (w_dev (Some (f d)) w) -> wp (upd f) w Q.
Proof. intros D HQ. unfold upd, the_dev. ewp_pure. eapply wp_need; [exact D | ]. by apply ewp_modify. Qed.

Section Held.
Variables (w : world) (d : v4l2) (o mo : list Z) (ao : Z).
Hypothesis H : held w d o mo ao.

Lemma v_the_dev_ok (Q : v4l2 -> world -> Prop) : Q d w -> wp the_dev w Q.
Proof. intros HQ. unfold the_dev. ewp_pure. eapply wp_need; [apply H | done]. Qed.
Lemma v_upd_ok f (Q : unit -> world -> Prop) : Q tt (w_dev (Some (f d)) w) -> wp (upd f) w Q.
Proof. intros HQ. unfold upd. apply ewp_bind, v_the_dev_ok. by apply ewp_modify. Qed.

Lemma v_open_fd_ok (Q : Z -> world -> Prop) :
  (forall w', quiet w w' -> Q (-1) w') ->
  (forall fd w', 0 <= fd -> held w' d (fd :: o) mo ao -> queue w' = queue w -> Q fd w') -> wp (open_fd E) w Q.
Proof.
  intros HF HS. unfold open_fd. apply ewp_bind, v_call_ok. intros r w1 Hq. apply (held_quiet _ _ _ _ _ _ Hq) in H as H1.
  destruct (Z.ltb_spec r 0); ewp_pure; [by apply HF | ].
  destruct (new_fd_ok r (fds w1)) as [Hge Hn]; [done | ].
  set (fd := new_fd r (fds w1)) in *. clearbody fd. apply HS; [done | | by rewrite Hq]. destruct H1. split; try done; cbn.
  - by constructor.
  - rewrite <- Permutation_middle. by constructor.
Qed.
End Held.

Lemma v_close_fd_ok w d fd o mo ao (Q : unit -> world -> Prop) : held w d (fd :: o) mo ao ->
  (forall w', held w' d o mo ao -> queue w' = [] -> Q tt w') -> wp (close_fd fd) w Q.
Proof.
  intros [D F N P R M1 M2 M3 A1 A2 B1 B2 B3] HQ. unfold close_fd. ewp_pure.
  assert (Hin : fd ∈ fds w) by (rewrite P; apply elem_of_app; right; by left).
  assert (Hne : fd ∉ (if 0 <=? evfd d then [evfd d] else []) ++ o).
  { pose proof N as N'. rewrite P, <- Permutation_middle in N'. by apply NoDup_cons in N' as [N' _]. }
  assert (Hw : existsb (fun r => r.2 =? fd) (regs w) = false).
  { destruct (ev d) as [h|]; [ | by rewrite R]. destruct R as [Hge ->]. cbn. rewrite orb_false_r. apply Z.eqb_neq. intros E1.
    apply Hne. rewrite (proj2 (Z.leb_le _ _) Hge). apply elem_of_app. left. rewrite <- E1. by left. }
  rewrite bool_decide_true, Hw by done. cbn [andb negb]. ewp_pure. apply HQ; [ | done]. split; try done; cbn.
  - by apply NoDup_filter.
  - apply filter_perm_cons; [done | ]. by rewrite P, <- Permutation_middle.
Qed.

(** The capture's own descriptor, when nothing watches it. *)
Lemma v_close_own_ok w d o mo ao (Q : unit -> world -> Prop) : held w d o mo ao -> 0 <= evfd d -> ev d = None ->
  (forall w', held w' (s_conn (-1) None d) o mo ao -> queue w' = [] -> Q tt w') ->
  wp (close_fd (evfd d);; upd (s_conn (-1) (ev d))) w Q.
Proof.
  intros [D F N P R M1 M2 M3 A1 A2 B1 B2 B3] Hge Hev HQ. rewrite (proj2 (Z.leb_le _ _) Hge) in P. rewrite Hev in *.
  assert (Hin : evfd d ∈ fds w) by (rewrite P; by left).
  apply ewp_bind. unfold close_fd. ewp_pure. rewrite bool_decide_true, R by done. cbn [existsb andb negb]. ewp_pure.
  unfold upd, the_dev. ewp_pure. eapply wp_need; [exact D | ]. ewp_pure. apply HQ; [ | done].
  split; try done; cbn; [by left | by apply NoDup_filter | by apply filter_perm_cons].
Qed.

Lemma v_evconn_cancel_ok w d o mo ao (Q : unit -> world -> Prop) : held w d o mo ao ->
  (forall w', held w' (s_conn (evfd d) None d) o mo ao -> queue w' = queue w -> Q tt w') -> wp evconn_cancel w Q.
Proof.
  intros H HQ. unfold evconn_cancel. apply ewp_bind. eapply v_the_dev_ok; [exact H | ].
  destruct H as [D F N P R M1 M2 M3 A1 A2 B1 B2 B3]. destruct (ev d) as [h|] eqn:Ev.
  - destruct R as [Hge R]. apply ewp_bind. unfold evb2_cancel. ewp_pure. rewrite R. cbn [existsb]. rewrite Z.eqb_refl. cbn [orb]. ewp_pure.
    unfold upd, the_dev. ewp_pure. eapply wp_need; [exact D | ]. ewp_pure. apply HQ; [ | done]. split; try done; cbn.
    by rewrite decide_False by (intros X; by apply X).
  - apply ewp_ret, HQ; [ | done]. destruct d. cbn in *. subst. by split.
Qed.

(** All buffers of an array, when they are all there is. *)
Lemma v_unmap_all_ok vm : forall w (Q : unit -> world -> Prop), maps w ≡ₚ mapped (Some vm) -> NoDup (maps w) ->
  Q tt (w_maps [] w) -> wp (unmap_all vm) w Q.
Proof.
  induction vm as [|[a l] vm IH]; intros w Q P N HQ; cbn [unmap_all].
  - apply ewp_ret. apply Permutation_nil_r in P. by rewrite <- P in HQ; destruct w.
  - cbn [mapped fmap list_fmap fst] in P. apply ewp_bind. destruct (Z.eqb_spec a 0) as [-> | Hne].
    + rewrite filter_cons_False in P by (intros X; by apply X). apply ewp_ret. by apply IH.
    + rewrite filter_cons_True in P by done. unfold munmap. ewp_pure. rewrite bool_decide_true by (rewrite P; by left). ewp_pure.
      apply IH; cbn; [by apply filter_perm_cons | by apply NoDup_filter | done].
Qed.
Lemma v_free_array_ok w (Q : unit -> world -> Prop) : 0 < arrays w ->
  Q tt (w_heap (arrays w + -1) (pics w + 0) (xs w + 0) w) -> wp free_array w Q.
Proof. intros Ha HQ. unfold free_array, add_heap. ewp_pure. rewrite (proj2 (Z.leb_gt _ _)) by done. by ewp_pure. Qed.

(* ------------------------------------------------------------------ *)
(** ** The encoder *)

(** The heap and the encoder change together. *)
Lemma v_heap_enc_ok w d o mo ao p x e (Q : unit -> world -> Prop) :
  held w d o mo ao -> pics w + p = pictures (Some e) -> xs w + x = encoders (Some e) ->
  (forall w', held w' (s_enc (Some e) d) o mo ao -> queue w' = queue w -> Q tt w') ->
  wp (add_heap 0 p x;; set_enc e) w Q.
Proof.
  intros [D F N P R M1 M2 M3 A1 A2 B1 B2 B3] Hp Hx HQ. unfold add_heap, set_enc, upd, the_dev. ewp_pure.
  eapply wp_need; [exact D | ]. ewp_pure. apply HQ; [ | done]. split; try done. cbn. lia.
Qed.
Lemma v_enc_ok w d o mo ao e (Q : unit -> world -> Prop) :
  held w d o mo ao -> pictures (enc d) = pictures (Some e) -> encoders (enc d) = encoders (Some e) ->
  (forall w', held w' (s_enc (Some e) d) o mo ao -> queue w' = queue w -> Q tt w') ->
  wp (set_enc e) w Q.
Proof.
  intros [D F N P R M1 M2 M3 A1 A2 B1 B2 B3] Hp Hx HQ. unfold set_enc, upd, the_dev. ewp_pure.
  eapply wp_need; [exact D | ]. ewp_pure. apply HQ; [ | done]. split; try done; cbn -[pictures encoders]; congruence.
Qed.

Lemma take_nal_keeps e nals : m_pic (fold_left take_nal nals e) = m_pic e /\ m_open (fold_left take_nal nals e) = m_open e.
Proof.
  revert e. induction nals as [|n nals IH]; intros e; [done | ]. cbn [fold_left]. destruct (IH (take_nal e n)) as [-> ->].
  unfold take_nal. repeat case_match; done.
Qed.

(** The encoder after [init]: whatever it answers, nothing is mapped in it. *)
Lemma enc_init_ok w d o mo ao (Q : bool -> world -> Prop) : held w (s_enc (Some (Encoder P_null false [] [])) d) o mo ao ->
  (forall ok w' e, held w' (s_enc (Some e) d) o mo ao -> queue w' = queue w -> (forall a, m_pic e <> P_mapped a) ->
    (m_open e = true -> m_pic e <> P_null) -> Q ok w') ->
  wp (enc_init E (Encoder P_null false [] [])) w Q.
Proof.
  intros H HQ. unfold enc_init, enc_configure_params.
  assert (Hq0 : forall w', quiet w w' -> Q false w').
  { intros w' Hq. eapply HQ; [by eapply held_quiet | by rewrite Hq | done..]. }
  cbv zeta. cbn [m_open m_sps m_pps m_pic]. do 2 apply ewp_bind. apply v_call_ok. intros r w1 Hq1.
  destruct (r <? 0); [ewp_pure; cbn [negb]; ewp_pure; by apply Hq0 | ].
  apply ewp_bind, v_call_ok. intros r' w2 Hq2. pose proof (v_quiet_trans _ _ _ Hq1 Hq2) as Hq12.
  destruct (r' <? 0); [ewp_pure; cbn [negb]; ewp_pure; by apply Hq0 | ]. ewp_pure. cbn [negb]. apply ewp_bind, v_call_ok. intros r3 w3 Hq3.
  pose proof (v_quiet_trans _ _ _ Hq12 Hq3) as Hq. destruct (r3 <? 0); [ewp_pure; by apply Hq0 | ].
  pose proof (held_quiet _ _ _ _ _ _ Hq H) as H3. pose proof (f_equal queue Hq) as Q3. 
  eapply ewp_eq; [symmetry; apply ebind_assoc | ].
  apply ewp_bind. eapply v_heap_enc_ok; [exact H3 | by rewrite (h_pics _ _ _ _ _ H3) | by rewrite (h_xs _ _ _ _ _ H3) | ].
  intros w4 H4 Q4. apply ewp_bind, v_call_ok. intros r5 w5 Hq5. pose proof (held_quiet _ _ _ _ _ _ Hq5 H4) as H5. pose proof (f_equal queue Hq5) as Q5.
  destruct (r5 <? 0); [ewp_pure; eapply HQ; [exact H5 | cbn in *; congruence | done..] | ].
  eapply ewp_eq; [symmetry; apply ebind_assoc | ].
  apply ewp_bind. eapply v_heap_enc_ok; [exact H5 | by rewrite (h_pics _ _ _ _ _ H5) | by rewrite (h_xs _ _ _ _ _ H5) | ].
  intros w6 H6 Q6. apply ewp_bind, v_tick_ok. intros n w7 Hq7. pose proof (held_quiet _ _ _ _ _ _ Hq7 H6) as H7. pose proof (f_equal queue Hq7) as Q7.
  destruct (e_ret E n <? 0); [ewp_pure; eapply HQ; [exact H7 | cbn in *; congruence | done..] | ].
  set (e0 := Encoder P_own true [] []). destruct (take_nal_keeps e0 (e_nals E n)) as [Hp Ho].
  apply ewp_bind. eapply v_enc_ok; [exact H7 | cbn; by rewrite Hp | cbn; by rewrite Ho | ]. intros w8 H8 Q8.
  ewp_pure. eapply HQ; [exact H8 | cbn in *; congruence | intros a; by rewrite Hp | by rewrite Hp].
Qed.

Lemma v_fwrite_ok bytes w (Q : bool -> world -> Prop) : (forall ok w', quiet w w' -> Q ok w') -> wp (fwrite E bytes) w Q.
Proof.
  intros HQ. unfold fwrite. apply ewp_bind, v_tick_ok. intros n w1 Hq1. ewp_pure.
  assert (Hq : forall f, quiet w1 (w_file (files w1) f w1)) by done.
  destruct (e_ret E n <? 0); ewp_pure; apply HQ; (eapply v_quiet_trans; [exact Hq1 | apply Hq]).
Qed.
Lemma writeHeaders_ok e w (Q : bool -> world -> Prop) : (forall ok w', quiet w w' -> Q ok w') -> wp (writeHeaders E e) w Q.
Proof.
  intros HQ. unfold writeHeaders.
  assert (Hany : forall b w (Q : bool -> world -> Prop), (forall ok w', quiet w w' -> Q ok w') -> wp (fwrite_any E b) w Q).
  { intros b v P HP. unfold fwrite_any. destruct (_ =? _)%nat; [apply ewp_ret, HP, v_quiet_refl | by apply v_fwrite_ok]. }
  apply ewp_bind, v_fwrite_ok. intros [] w1 H1; cbn [negb]; [ | by apply ewp_ret, HQ].
  apply ewp_bind, Hany. intros [] w2 H2; cbn [negb]; pose proof (v_quiet_trans _ _ _ H1 H2) as H12; [ | by apply ewp_ret, HQ].
  apply ewp_bind, v_fwrite_ok. intros [] w3 H3; cbn [negb]; pose proof (v_quiet_trans _ _ _ H12 H3) as H13; [ | by apply ewp_ret, HQ].
  apply Hany. intros ok w4 H4. apply HQ. by eapply v_quiet_trans.
Qed.

(* ------------------------------------------------------------------ *)
(** ** Frames *)

Lemma good_quiet x w w' d o : quiet w w' -> good x w d o -> good x w' d o.
Proof. intros Hq [H S]. split; [by eapply held_quiet | by eapply stat_quiet]. Qed.
(** The parts of the state and the buffers of the driver that a frame leaves. *)
Definition alike (w w' : world) (d d' : v4l2) : Prop :=
  evfd d' = evfd d /\ ev d' = ev d /\ v4l2_mem d' = v4l2_mem d /\ state d' = state d /\ queue w' = queue w.

Lemma good_enc x w d o e : good x w d o -> enc d <> None -> (m_open e = true -> m_pic e <> P_null) ->
  forall w', held w' (s_enc (Some e) d) o [] 0 -> queue w' = queue w ->
  good x w' (s_enc (Some e) d) o.
Proof.
  intros [H (S1 & S3 & S2)] He Hs w' H' Q'. split; [done | ]. split; [ | split].
  - intros ->. by destruct (S1 eq_refl) as [? _].
  - by intros ? [= <-].
  - cbn. destruct (state d); [by destruct S2 as (_ & _ & _ & ? & _) | | ]; unfold ready in *; cbn; by rewrite Q'.
Qed.

Lemma encode_frame_ok x264 w d o i vm b (Q : unit -> world -> Prop) : good x264 w d o -> state d = V4L2_STATE_START ->
  v4l2_mem d = Some vm -> vm !! i = Some b -> (forall w' d', good x264 w' d' o -> alike w w' d d' -> Q tt w') ->
  wp (encode_frame E i) w Q.
Proof.
  intros G St Hvm Hb HQ. pose proof G as [H S]. assert (Hsame : Q tt w) by by apply (HQ w d).
  unfold encode_frame. apply ewp_bind. eapply v_the_dev_ok; [exact H | ].
  destruct (enc d) as [e|] eqn:He; [ | by apply ewp_ret]. destruct (x264_fp d) eqn:Hfp; cbn [negb]; [ | by apply ewp_ret].
  apply ewp_bind. eapply wp_need; [exact Hvm | ]. apply ewp_bind. eapply wp_need; [exact Hb | ].
  unfold enc_encode. destruct (m_open e) eqn:Ho; cbn [negb]; [ | ewp_pure; apply Hsame].
  destruct S as (S1 & S3 & S2). rewrite St in S2. destruct S2 as [_ (_ & vm' & Hvm' & Hall & _)].
  assert (vm' = vm) as -> by congruence. rewrite Forall_lookup in Hall. destruct (Hall _ _ Hb) as [Hb0 Hbl].
  do 2 apply ewp_bind. eapply v_the_dev_ok; [exact H | ].
  specialize (S3 _ He Ho). set (e1 := Encoder (P_mapped b.1) true (m_sps e) (m_pps e)).
  assert (Hne : enc d <> None) by by rewrite He.
  apply ewp_bind. eapply (v_enc_ok w d o [] 0 e1); [exact H | rewrite He; cbn; by destruct (m_pic e) | rewrite He; cbn; by rewrite Ho | ].
  intros w1 H1 Q1. rewrite (proj2 (Z.eqb_neq _ _) Hb0), (proj2 (Z.ltb_ge _ _) Hbl). cbn [orb].
  assert (Hend : forall w', quiet w1 w' -> Q tt w').
  { intros w' Hq. apply (HQ w' (s_enc (Some e1) d)); [eapply good_quiet; [exact Hq | by eapply good_enc] | ].
    split_and!; try done. rewrite Hq. exact Q1. }
  apply ewp_bind, v_tick_ok. intros n w2 Hq2. destruct (e_ret E n <? 0); [ewp_pure; by apply Hend | ]. ewp_pure.
  destruct (_ =? _)%nat; [apply ewp_ret; by apply Hend | ].
  apply ewp_bind, v_fwrite_ok. intros ok w3 Hq3. apply ewp_ret, Hend. by eapply v_quiet_trans.
Qed.

Lemma v_enq_ok w fd i (Q : Z -> world -> Prop) :
  (forall r w', quiet w w' -> r <> 0 -> Q r w') ->
  (forall w', quiet w w' -> i ∉ queue w -> Q 0 (w_queue (queue w ++ [i]) w')) -> wp (v4l2_streamcap_enq E fd i) w Q.
Proof.
  intros HF HS. unfold v4l2_streamcap_enq. apply ewp_bind, v_call_ok. intros r w1 Hq. ewp_pure.
  assert (queue w1 = queue w) as -> by by rewrite Hq.
  destruct (_ || _) eqn:Hc; ewp_pure; [by apply HF | ]. apply HS; [done | ].
  apply orb_false_iff in Hc as [_ Hc]. by apply bool_decide_eq_false in Hc.
Qed.
(** Which buffers the driver has. *)
Lemma good_queue x w d o q : good x w d o -> (state d <> V4L2_STATE_RESET -> forall vm, v4l2_mem d = Some vm ->
  NoDup q /\ Forall (fun i => (i < length vm)%nat) q) -> good x (w_queue q w) d o.
Proof.
  intros [[] (S1 & S3 & S2)] Hq. split; [by split | ]. split; [done | ]. split; [done | ].
  destruct (state d); [done | destruct S2 as (? & ? & vm & Hm & ? & _ & _).. ];
    (split; [done | ]); (split; [done | ]); exists vm; destruct (Hq ltac:(done) vm Hm); done.
Qed.
Lemma good_ready x w d o : good x w d o -> state d <> V4L2_STATE_RESET -> ready w d.
Proof. intros [_ (_ & _ & S)]. destruct (state d); [done | by destruct S as [_ ?]..]. Qed.

Lemma capture_loop_ok x264 n : forall w d o (Q : unit -> world -> Prop), good x264 w d o -> state d = V4L2_STATE_START ->
  (forall w' d', good x264 w' d' o -> state d' = V4L2_STATE_START -> Q tt w') -> wp (capture_loop E x264 n) w Q.
Proof.
  induction n as [|n IH]; intros w d o Q G St HQ; cbn [capture_loop]; apply ewp_bind; (eapply v_the_dev_ok; [apply G | ]).
  { apply ewp_bind, v_call_ok. intros r w1 Hq. apply ewp_ret, (HQ w1 d); [by eapply good_quiet | done]. }
  unfold v4l2_streamcap_deq. apply ewp_bind, ewp_bind, v_tick_ok. intros m w1 Hq. pose proof (good_quiet _ _ _ _ _ Hq G) as G1. ewp_pure.
  destruct (queue w1 !! _) as [i|] eqn:Hi; [ | ewp_pure; by apply (HQ w1 d)]. ewp_pure.
  destruct (good_ready _ _ _ _ G1) as (Hge & vm & Hvm & Hall & Hlt & Hnd); [by rewrite St | ].
  assert (Hil : (i < length vm)%nat) by (rewrite Forall_lookup in Hlt; by eapply Hlt).
  assert (G2 : good x264 (w_queue (filter (fun x => x <> i) (queue w1)) w1) d o).
  { apply good_queue; [done | ]. intros _ vm' Hvm'. split; [by apply NoDup_filter | ]. assert (vm' = vm) as -> by congruence.
    apply Forall_forall. intros j [_ Hj]%list_elem_of_filter. rewrite Forall_forall in Hlt. by apply Hlt. }
  set (w2 := w_queue _ w1) in *.
  assert (Hrest : forall w3 d3, good x264 w3 d3 o -> alike w2 w3 d d3 ->
    wp (do r <- v4l2_streamcap_enq E (evfd d) i; if negb (r =? 0) then ret tt else capture_loop E x264 n) w3 Q).
  { intros w3 d3 G3 (A1 & A2 & A3 & A4 & A5). apply ewp_bind, v_enq_ok.
    - intros r w4 Hq4 Hr. rewrite (proj2 (Z.eqb_neq _ _) Hr). cbn [negb]. apply ewp_ret, (HQ w4 d3); [by eapply good_quiet | congruence].
    - intros w4 Hq4 Hn. cbn [Z.eqb negb]. eapply (IH _ d3); [ | congruence | done].
      apply good_queue; [by eapply good_quiet | ]. intros Hs vm' Hvm'. assert (vm' = vm) as -> by congruence.
      destruct (good_ready _ _ _ _ G3 Hs) as (_ & vm3 & Hvm3 & _ & Hlt3 & Hnd3). assert (vm3 = vm) as -> by congruence. split.
      + apply NoDup_app. split; [done | ]. split; [ | apply NoDup_singleton]. intros y Hy Hyi%list_elem_of_singleton. by subst.
      + apply Forall_app. by split; [ | apply Forall_singleton]. }
  destruct (lookup_lt_is_Some_2 vm i Hil) as [b Hb]. destruct x264; apply ewp_bind.
  - eapply encode_frame_ok; [exact G2 | done..].
  - apply ewp_ret. by apply (Hrest w2 d).
Qed.

(* ------------------------------------------------------------------ *)
(** ** Stopping, closing *)

Lemma v4l2_stop_ok x w d o (Q : Z -> world -> Prop) : good x w d o ->
  (forall w' d', good x w' d' o -> state d' <> V4L2_STATE_START -> enc d' = enc d -> Q 0 w') -> wp (v4l2_stop E) w Q.
Proof.
  intros G HQ. unfold v4l2_stop. apply ewp_bind. eapply v_the_dev_ok; [apply G | ].
  case_bool_decide as St; cbn [negb]; [ | apply ewp_ret; by apply (HQ w d)].
  destruct (good_ready _ _ _ _ G) as (Hge & vm & Hvm & Hall & Hlt & Hnd); [by rewrite St | ].
  destruct G as [H (S1 & S3 & _)].
  apply ewp_bind. eapply v_evconn_cancel_ok; [exact H | ]. intros w1 H1 Q1. rewrite (proj2 (Z.leb_le _ _) Hge).
  assert (Hend : forall w2 q, quiet w1 w2 -> NoDup q -> Forall (fun i => (i < length vm)%nat) q ->
    wp (upd (s_state V4L2_STATE_OPEN);; ret 0) (w_queue q w2) Q).
  { intros w2 q Hq Hn Hf. pose proof (held_quiet _ _ _ _ _ _ Hq H1) as [D F N P R M1 M2 M3 A1 A2 B1 B2 B3].
    apply ewp_bind. unfold upd, the_dev. ewp_pure. eapply wp_need; [exact D | ]. ewp_pure.
    apply (HQ _ (s_state V4L2_STATE_OPEN (s_conn (evfd d) None d))); [ | done | done]. split; [by split | ].
    split; [exact S1 | ]. split; [exact S3 | ]. split; [done | ]. split; [exact Hge | ]. by exists vm. }
  apply ewp_bind, ewp_bind. unfold v4l2_streamcap_stop. apply ewp_bind, v_call_ok. intros r w2 Hq2. destruct (r <? 0); ewp_pure.
  - assert (Hw : w2 = w_queue (queue w2) w2) by by destruct w2. rewrite Hw. apply Hend; [done | by rewrite Hq2; cbn; rewrite Q1 ..].
  - apply Hend; [done | constructor | constructor].
Qed.

(** No frame was encoded: the pictures of the library are its own. *)
Definition clean (d : v4l2) : Prop := forall e a, enc d = Some e -> m_pic e <> P_mapped a.

Lemma close_encoder_ok w d o mo ao (Q : unit -> world -> Prop) : held w d o mo ao -> clean d ->
  (forall w', held w' (s_fp false (s_enc None d)) o mo ao -> Q tt w') -> wp close_encoder w Q.
Proof.
  intros H Hc HQ. unfold close_encoder.
  assert (Hfp : forall w1, held w1 (s_enc None d) o mo ao ->
    wp (do d <- the_dev; if x264_fp d then do f <- gets file; do n <- gets files; modify (w_file (n - 1) f);; upd (s_fp false) else ret tt) w1 Q).
  { intros w1 H1. apply ewp_bind. eapply v_the_dev_ok; [exact H1 | ]. pose proof H1 as [D F N P R M1 M2 M3 A1 A2 B1 B2 B3].
    destruct (x264_fp (s_enc None d)) eqn:Hx.
    - ewp_pure. unfold upd, the_dev. ewp_pure. eapply wp_need; [exact D | ]. ewp_pure. apply HQ. split; try done. cbn. lia.
    - apply ewp_ret, HQ. cbn in Hx. replace (s_fp false (s_enc None d)) with (s_enc None d) by (unfold s_fp, s_enc; cbn; by rewrite Hx).
      exact H1. }
  apply ewp_bind, ewp_bind. eapply v_the_dev_ok; [exact H | ]. pose proof H as [D F N P R M1 M2 M3 A1 A2 B1 B2 B3].
  destruct (enc d) as [e|] eqn:He.
  - apply ewp_bind. unfold enc_delete. assert (Hm := Hc e). cbn in B1, B2.
    destruct (m_open e), (m_pic e) eqn:Hp; try (by destruct (Hm a He)); unfold add_heap; ewp_pure;
      (eapply v_upd_dev; [exact D | ]); apply Hfp; (split; try done; cbn; lia).
  - apply ewp_ret, Hfp. replace (s_enc None d) with d; [exact H | ]. destruct d. cbn in *. by subst.
Qed.

Lemma v_request_ok w fd (Q : option nat -> world -> Prop) :
  (forall o w' q, quiet w w' -> q = queue w \/ q = [] -> (o <> None -> q = []) -> Q o (w_queue q w')) -> wp (v4l2_request_devbuf E fd) w Q.
Proof.
  intros HQ. unfold v4l2_request_devbuf. apply ewp_bind, v_tick_ok. intros n w1 Hq. destruct (e_ret E n <? 0); ewp_pure.
  - assert (Hw : w1 = w_queue (queue w1) w1) by by destruct w1. rewrite Hw. apply HQ; [done | left; by rewrite Hq | done].
  - by apply HQ; [ | right | ].
Qed.

Lemma v4l2_close_ok x w d o (Q : Z -> world -> Prop) : good x w d o -> clean d ->
  (forall w' d', good x w' d' o -> state d' = V4L2_STATE_RESET -> Q 0 w') -> wp (v4l2_close E x) w Q.
Proof.
  intros G Hc HQ. unfold v4l2_close. apply ewp_bind. eapply v4l2_stop_ok; [exact G | ]. intros w1 d1 G1 Hs He.
  assert (Hc1 : clean d1) by (intros e a; rewrite He; apply Hc). clear w d G Hc He.
  set (d2 := s_fp false (s_enc None d1)).
  enough (Hrest : forall w2, held w2 d2 o [] 0 -> wp
    ((do d <- the_dev; match v4l2_mem d with Some vm => unmap_all vm;; free_array;; upd (s_mem None) | None => ret tt end);;
     (do d <- the_dev; if 0 <=? evfd d then do _ <- v4l2_request_devbuf E (evfd d); close_fd (evfd d);; upd (s_conn (-1) (ev d)) else ret tt);;
     upd (s_state V4L2_STATE_RESET);; ret 0) w2 Q).
  { pose proof G1 as [H1 (S1 & _ & _)]. apply ewp_bind. destruct x.
    - eapply close_encoder_ok; [exact H1 | done | exact Hrest].
    - apply ewp_ret, Hrest. destruct (S1 eq_refl) as [E1 E2]. replace d2 with d1; [exact H1 | ]. unfold d2. destruct d1. cbn in *. by subst. }
  intros w2 H2. assert (Hev : ev d2 = None).
  { destruct G1 as [_ (_ & _ & S)]. subst d2. cbn. destruct (state d1); [apply S | apply S | done]. }
  set (d3 := s_mem None d2).
  enough (Hrest : forall w3, held w3 d3 o [] 0 -> wp
    ((do d <- the_dev; if 0 <=? evfd d then do _ <- v4l2_request_devbuf E (evfd d); close_fd (evfd d);; upd (s_conn (-1) (ev d)) else ret tt);;
     upd (s_state V4L2_STATE_RESET);; ret 0) w3 Q).
  { apply ewp_bind, ewp_bind. eapply v_the_dev_ok; [exact H2 | ]. pose proof H2 as [D F N P R M1 M2 M3 A1 A2 B1 B2 B3].
    destruct (v4l2_mem d2) as [vm|] eqn:Hm.
    - rewrite app_nil_r in M1. apply ewp_bind, v_unmap_all_ok; [done | done | ]. apply ewp_bind, v_free_array_ok; [cbn; lia | ].
      eapply v_upd_dev; [exact D | ]. apply Hrest. destruct M3 as [M3 _].
      split; try done; cbn in *; [by apply NoDup_nil_2 | lia..].
    - apply ewp_ret, Hrest. replace d3 with d2; [exact H2 | ]. unfold d3. destruct d2. cbn in *. by subst. }
  intros w3 H3.
  enough (Hrest : forall w4, held w4 (s_conn (-1) None d3) o [] 0 -> wp (upd (s_state V4L2_STATE_RESET);; ret 0) w4 Q).
  { apply ewp_bind, ewp_bind. eapply v_the_dev_ok; [exact H3 | ]. destruct (Z.leb_spec 0 (evfd d3)) as [Hge | Hlt].
    - apply ewp_bind, v_request_ok. intros r w4 q Hq _ _. eapply (v_close_own_ok _ d3); [ | done | done | by intros w5 H5 _; apply Hrest].
      pose proof (held_quiet _ _ _ _ _ _ Hq H3) as []. by split.
    - apply ewp_ret, Hrest. replace (s_conn (-1) None d3) with d3; [exact H3 | ].
      assert (evfd d3 = -1) by (destruct (h_fd _ _ _ _ _ H3); lia). subst d3 d2. destruct d1. cbn in *. by subst. }
  intros w4 H4. apply ewp_bind. eapply v_upd_ok; [exact H4 | ]. apply ewp_ret, (HQ _ (s_state V4L2_STATE_RESET (s_conn (-1) None d3))); [ | done].
  split; [destruct H4; by split | by split; [ | split]].
Qed.

(* ------------------------------------------------------------------ *)
(** ** Opening, starting *)

Lemma mapped_app vm vm' : mapped (Some (vm ++ vm')) = mapped (Some vm) ++ mapped (Some vm').
Proof. cbn. by rewrite fmap_app, filter_app. Qed.
Lemma mapped_zeros n : mapped (Some (repeat (0, 0) n)) = [].
Proof. induction n as [|n IH]; [done | ]. cbn [repeat mapped fmap list_fmap fst]. by rewrite filter_cons_False by (intros X; by apply X). Qed.

Definition usable (sz : Z) (b : vmem) : Prop := b.1 <> 0 /\ sz <= b.2.
Lemma map_loop_ok sz : (forall n, sz <= e_len E n) -> forall todo vm w d o (Q : bool * list vmem -> world -> Prop),
  held w d o (mapped (Some vm)) 1 -> v4l2_mem d = None -> Forall (usable sz) vm ->
  (forall ok vm' w', held w' d o (mapped (Some vm')) 1 -> queue w' = queue w -> (ok = true -> Forall (usable sz) vm') -> Q (ok, vm') w') ->
  wp (map_loop E todo (length vm) (vm ++ repeat (0, 0) todo)) w Q.
Proof.
  intros Hsz. induction todo as [|todo IH]; intros vm w d o Q H Hm Hall HQ; cbn [map_loop].
  { cbn [repeat]. rewrite app_nil_r. apply ewp_ret. by apply HQ. }
  assert (Hz : forall l, mapped (Some (vm ++ (0, l) :: repeat (0, 0) todo)) = mapped (Some vm)).
  { intros l. rewrite mapped_app. cbn [mapped fmap list_fmap fst]. rewrite filter_cons_False by (intros X; by apply X).
    pose proof (mapped_zeros todo) as Hn. cbn in Hn |- *. by rewrite Hn, app_nil_r. }
  apply ewp_bind, v_tick_ok. intros n w1 Hq1. pose proof (held_quiet _ _ _ _ _ _ Hq1 H) as H1.
  assert (Hin : forall b, <[length vm:=b]> (vm ++ repeat (0, 0) (S todo)) = vm ++ b :: repeat (0, 0) todo).
  { intros b. rewrite <- (Nat.add_0_r (length vm)) at 1. by rewrite insert_app_r. }
  destruct (e_ret E n <? 0); [apply ewp_ret, HQ; cbn [repeat]; [by rewrite Hz | by rewrite Hq1 | done] | ].
  apply ewp_bind, v_call_ok. intros r w2 Hq2. pose proof (held_quiet _ _ _ _ _ _ Hq2 H1) as H2. rewrite !Hin.
  assert (Hq : queue w2 = queue w) by by rewrite Hq2, Hq1.
  destruct (r <? 0); [apply ewp_ret, HQ; [by rewrite Hz | done | done] | ]. ewp_pure.
  destruct H2 as [D F N P R M1 M2 [M3 M4] A1 A2 B1 B2 B3]. set (a := fresh w2) in *. rewrite Hm in M1, A1. cbn [app mapped] in M1.
  rewrite Hin. replace (vm ++ (a, e_len E n) :: repeat (0, 0) todo) with ((vm ++ [(a, e_len E n)]) ++ repeat (0, 0) todo) by by rewrite <- app_assoc.
  replace (S (length vm)) with (length (vm ++ [(a, e_len E n)])) by (rewrite length_app; cbn; lia).
  assert (Hv : mapped (Some (vm ++ [(a, e_len E n)])) = mapped (Some vm) ++ [a]).
  { rewrite mapped_app. f_equal. cbn [mapped fmap list_fmap fst]. by rewrite filter_cons_True by lia. }
  eapply (IH _ _ d o).
  - rewrite Hv. split; try done; cbn.
    + rewrite Hm. cbn. rewrite M1. apply Permutation_cons_append.
    + apply NoDup_cons. split; [ | done]. rewrite Forall_forall in M4. intros Hi%M4. lia.
    + split; [lia | ]. apply Forall_cons. split; [lia | ]. eapply Forall_impl; [exact M4 | ]. cbn. lia.
    + by rewrite Hm.
  - done.
  - apply Forall_app. split; [done | ]. apply Forall_singleton. split; [cbn; lia | apply Hsz].
  - intros ok vm' w' H' Q' Hok. by apply HQ; [ | cbn in Q'; congruence | ].
Qed.

Lemma open_fails_ok w d fd o vm (Q : Z -> world -> Prop) :
  held w d (fd :: o) (mapped vm) (match vm with Some _ => 1 | None => 0 end) -> v4l2_mem d = None ->
  (forall w', held w' d o [] 0 -> queue w' = [] -> Q (-1) w') -> wp (open_fails fd vm) w Q.
Proof.
  intros H Hm HQ. unfold open_fails.
  assert (Hrest : forall w', held w' d (fd :: o) [] 0 -> wp (close_fd fd;; ret (-1)) w' Q).
  { intros w' H'. apply ewp_bind. eapply v_close_fd_ok; [exact H' | ]. intros w2 H2 Q2. by apply ewp_ret, HQ. }
  apply ewp_bind. destruct vm as [vm|]; [ | by apply ewp_ret, Hrest].
  destruct H as [D F N P R M1 M2 [M3 M4] A1 A2 B1 B2 B3]. rewrite Hm in M1, A1. cbn [mapped app] in M1.
  apply ewp_bind, v_unmap_all_ok; [done.. | ]. apply v_free_array_ok; [cbn; lia | ].
  apply Hrest. split; try done; cbn; rewrite ?Hm; cbn; try lia; [done | by apply NoDup_nil_2].
Qed.

(** The driver's buffers hold a frame of the format it reports. *)
Hypothesis frames_fit : forall n m, i420_size (e_fmt E n).1 (e_fmt E n).2 <= e_len E m.

Lemma v4l2_open_streamcap_ok w d o (Q : Z -> world -> Prop) : held w d o [] 0 ->
  (forall w', held w' d o [] 0 -> Q (-1) w') -> (forall fd w', 0 <= fd -> held w' d (fd :: o) [] 0 -> Q fd w') ->
  wp (v4l2_open_streamcap E) w Q.
Proof.
  intros H HF HS. unfold v4l2_open_streamcap. apply ewp_bind. eapply v_open_fd_ok; [exact H | | ].
  - intros w1 Hq. cbn [Z.eqb]. apply ewp_ret, HF. by eapply held_quiet.
  - intros fd w1 Hge H1 _. rewrite (proj2 (Z.eqb_neq _ _)) by lia. apply ewp_bind, v_tick_ok. intros n w2 Hq2.
    pose proof (held_quiet _ _ _ _ _ _ Hq2 H1) as H2.
    assert (Hfail : wp (close_fd fd;; ret (-1)) w2 Q).
    { apply ewp_bind. eapply v_close_fd_ok; [exact H2 | ]. intros w3 H3 _. by apply ewp_ret, HF. }
    destruct (e_ret E n <? 0); [done | ]. destruct (_ || _); [done | ]. by apply ewp_ret, HS.
Qed.

Lemma v4l2_open_ok x w d o (Q : Z -> world -> Prop) : good x w d o -> state d = V4L2_STATE_RESET ->
  (forall w', good x w' d o -> Q (-1) w') ->
  (forall w' d', good x w' d' o -> state d' = V4L2_STATE_OPEN -> enc d' = None -> Q 0 w') -> wp (v4l2_open E x) w Q.
Proof.
  intros [H S] St HF HS. unfold v4l2_open. apply ewp_bind, ewp_bind. eapply v_the_dev_ok; [exact H | ].
  rewrite bool_decide_true by done. apply ewp_ret, ewp_bind. pose proof S as (_ & _ & S2). rewrite St in S2. destruct S2 as (Hfd & Hev & Hmem & Henc & Hfp).
  assert (HG : forall w', held w' d o [] 0 -> Q (-1) w').
  { intros w' H'. apply HF. split; [done | ]. destruct S as (S1 & S3 & _). split; [done | ]. split; [done | ]. by rewrite St. }
  eapply v4l2_open_streamcap_ok; [exact H | intros w1 H1; by apply ewp_ret, HG | ].
  intros fd w1 Hge H1. rewrite (proj2 (Z.eqb_neq _ _)) by lia.
  assert (Hf0 : forall w', held w' d (fd :: o) [] 0 -> wp (open_fails fd None) w' Q).
  { intros w' H'. eapply open_fails_ok; [exact H' | done | ]. intros w2 H2 _. by apply HG. }
  unfold v4l2_config_fmt. apply ewp_bind, ewp_bind, v_call_ok. intros r w2 Hq2. pose proof (held_quiet _ _ _ _ _ _ Hq2 H1) as H2.
  destruct (r <? 0); [apply ewp_ret; by apply Hf0 | ]. apply ewp_bind, v_tick_ok. intros n w3 Hq3. pose proof (held_quiet _ _ _ _ _ _ Hq3 H2) as H3.
  ewp_pure. destruct (e_fmt E n) as [wd ht] eqn:Hfmt. apply ewp_bind, v_request_ok. intros cnt w4 q Hq4 _ Hcnt.
  assert (H4 : held (w_queue q w4) d (fd :: o) [] 0) by (pose proof (held_quiet _ _ _ _ _ _ Hq4 H3) as []; by split).
  destruct cnt as [cnt|]; [ | by apply Hf0]. rewrite (Hcnt ltac:(done)) in *.
  apply ewp_bind, v_call_ok. intros r5 w5 Hq5. pose proof (held_quiet _ _ _ _ _ _ Hq5 H4) as H5.
  destruct (r5 <? 0); [by apply Hf0 | ]. unfold add_heap at 1. ewp_pure.
  assert (H6 : held (w_heap (arrays w5 + 1) (pics w5 + 0) (xs w5 + 0) w5) d (fd :: o) [] 1).
  { destruct H5 as [D F N P R M1 M2 M3 A1 A2 B1 B2 B3]. split; try done; cbn; lia. }
  apply ewp_bind. unfold v4l2_map_devbuf. set (w6 := w_heap _ _ _ w5) in *.
  pose proof (map_loop_ok (i420_size wd ht)) as ML. specialize (ML ltac:(intros m; specialize (frames_fit n m); by rewrite Hfmt in frames_fit)).
  eapply (ML cnt [] w6 d (fd :: o)); [exact H6 | done | constructor | ]. intros ok vm w7 H7 Q7 Hok. destruct ok; cbn [negb].
  - destruct H7 as [D F N P R M1 M2 M3 A1 A2 B1 B2 B3]. rewrite Hmem in M1, A1. rewrite Hfd in P. rewrite Hev in R. cbn [mapped app Z.leb] in *.
    apply ewp_bind. eapply v_upd_dev; [exact D | ]. apply ewp_ret. set (d' := V4l2 _ _ _ _ _ _ _ _). apply (HS _ d'); [ | done | done].
    split.
    + split; try done; cbn; rewrite ?Hev; cbn; try lia.
      * rewrite (proj2 (Z.leb_le _ _) Hge). done.
      * done.
      * by rewrite app_nil_r.
    + split; [intros _; cbn; by split | ]. split; [cbn; by rewrite Henc | ]. cbn. split; [done | ]. split; [done | ]. exists vm. split; [done | ].
      cbn in Q7 |- *. split; [by apply Hok | ]. rewrite Q7, Hq5. cbn. split; constructor.
  - eapply open_fails_ok; [exact H7 | done | ]. intros w8 H8 _. by apply HG.
Qed.

Lemma queue_loop_ok x d o vm todo : forall i w (Q : Z -> world -> Prop), good x w d o -> state d <> V4L2_STATE_RESET ->
  v4l2_mem d = Some vm -> (i + todo <= length vm)%nat -> (forall r w', good x w' d o -> Q r w') -> wp (queue_loop E todo i) w Q.
Proof.
  induction todo as [|todo IH]; intros i w Q G Hs Hvm Hi HQ; cbn [queue_loop]; [by apply ewp_ret, HQ | ].
  apply ewp_bind. eapply v_the_dev_ok; [apply G | ]. apply ewp_bind, v_enq_ok.
  - intros r w1 Hq Hr. rewrite (proj2 (Z.eqb_neq _ _) Hr). cbn [negb]. apply ewp_ret, HQ. by eapply good_quiet.
  - intros w1 Hq Hn. cbn [Z.eqb negb]. destruct (good_ready _ _ _ _ G Hs) as (_ & vm' & Hvm' & _ & Hlt & Hnd).
    assert (vm' = vm) as -> by congruence. apply (IH (S i)); [ | done | done | lia | done].
    apply good_queue; [by eapply good_quiet | ]. intros _ vm' ?. assert (vm' = vm) as -> by congruence. split.
    + apply NoDup_app. split; [done | ]. split; [ | apply NoDup_singleton]. intros y Hy ?%list_elem_of_singleton. by subst.
    + apply Forall_app. split; [done | ]. apply Forall_singleton. lia.
Qed.

(** What [start_encoder] keeps. *)
Definition enc_only (d d' : v4l2) : Prop :=
  evfd d' = evfd d /\ ev d' = ev d /\ v4l2_mem d' = v4l2_mem d /\ state d' = state d /\ (clean d -> clean d').

Lemma good_opened w d o fp : good true w d o -> state d <> V4L2_STATE_RESET -> x264_fp d = false ->
  good true (w_dev (Some (s_fp true d)) (w_file (files w + 1) fp w)) (s_fp true d) o.
Proof.
  intros [[D F N P R M1 M2 M3 A1 A2 B1 B2 B3] (S1 & S3 & S2)] Hs Hf. rewrite Hf in B3. split; [split; try done; cbn; lia | ].
  split; [done | ]. split; [done | ]. cbn in *. by destruct (state d).
Qed.
Lemma start_encoder_ok w d o (Q : bool -> world -> Prop) : good true w d o -> state d = V4L2_STATE_OPEN ->
  (forall ok w' d', good true w' d' o -> enc_only d d' -> Q ok w') -> wp (start_encoder E) w Q.
Proof.
  intros G St HQ. unfold start_encoder. apply ewp_bind. eapply v_the_dev_ok; [apply G | ].
  assert (Hfile : forall w1 d1, good true w1 d1 o -> enc_only d d1 -> enc d1 <> None -> wp
    (do d <- the_dev; if x264_fp d then ret true else do r <- call E; if r <? 0 then ret false else
     do n <- gets files; modify (w_file (n + 1) []);; upd (s_fp true);; do e <- need (enc d); writeHeaders E e) w1 Q).
  { intros w1 d1 G1 K1 He. apply ewp_bind. eapply v_the_dev_ok; [apply G1 | ].
    destruct (x264_fp d1) eqn:Hf; [by apply ewp_ret, (HQ _ _ d1) | ]. apply ewp_bind, v_call_ok. intros r w2 Hq2.
    pose proof (good_quiet _ _ _ _ _ Hq2 G1) as G2. destruct (r <? 0); [by apply ewp_ret, (HQ _ _ d1) | ].
    ewp_pure. apply ewp_bind. eapply v_upd_dev; [apply G2 | ]. destruct (enc d1) as [e|] eqn:He1; [ | done].
    apply ewp_bind, ewp_ret, writeHeaders_ok. intros ok w3 Hq3. apply (HQ _ _ (s_fp true d1)); [ | destruct K1 as (? & ? & ? & ? & ?); by split_and!].
    eapply good_quiet; [exact Hq3 | ]. apply good_opened; [done | destruct K1 as (_ & _ & _ & -> & _); by rewrite St | done]. }
  apply ewp_bind. destruct (enc d) as [e|] eqn:He.
  - apply ewp_ret. cbn [negb]. by apply (Hfile w d); [ | split_and! | rewrite He].
  - cbv zeta. destruct G as [H (S1 & S3 & S2)]. rewrite St in S2. destruct S2 as (Hev & Hr & vm & Hvm & Hrest).
    apply ewp_bind. eapply (v_enc_ok w d o [] 0 (Encoder P_null false [] [])); [exact H | by rewrite He.. | ]. intros w1 H1 Q1.
    eapply enc_init_ok; [exact H1 | ]. intros ok w2 e H2 Q2 Hm Hs.
    assert (G2 : good true w2 (s_enc (Some e) d) o).
    { split; [done | ]. split; [done | ]. split; [by intros ? [= <-] | ]. cbn. rewrite St. split; [done | ]. split; [done | ].
      exists vm. cbn. rewrite Q2, Q1. by split. }
    assert (K2 : enc_only d (s_enc (Some e) d)).
    { split_and!; try done. intros _ e' a [= <-]. apply Hm. }
    destruct ok; cbn [negb]; [by apply (Hfile w2 _ G2 K2) | by apply ewp_ret, (HQ _ _ _ G2 K2)].
Qed.

Lemma evconn_add_ok x w d o (Q : bool -> world -> Prop) : good x w d o -> state d = V4L2_STATE_OPEN ->
  (forall w', good x w' d o -> Q false w') ->
  (forall h w', held w' (s_conn (evfd d) (Some h) d) o [] 0 -> queue w' = queue w -> Q true w') -> wp (evconn_add_read E) w Q.
Proof.
  intros [H S] St HF HS. unfold evconn_add_read. pose proof S as (_ & _ & S2). rewrite St in S2. destruct S2 as (Hev & Hge & _).
  assert (Hd : s_conn (evfd d) None d = d) by (destruct d; cbn in *; by subst).
  apply ewp_bind. eapply v_the_dev_ok; [exact H | ]. apply ewp_bind, v_call_ok. intros r w1 Hq.
  destruct (held_quiet _ _ _ _ _ _ Hq H) as [D F N P R M1 M2 [M3 M4] A1 A2 B1 B2 B3]. destruct (r <? 0); ewp_pure.
  - apply ewp_bind. eapply v_upd_dev; [exact D | ]. apply ewp_ret. rewrite Hd. apply HF. split; [by split | exact (stat_quiet x w w1 d Hq S)].
  - apply ewp_bind. eapply v_upd_dev; [exact D | ]. apply ewp_ret. apply (HS (fresh w1)); [ | by rewrite Hq]. rewrite Hev in R.
    split; try done; cbn; [by rewrite R | ]. split; [lia | ]. eapply Forall_impl; [exact M4 | cbn; lia].
Qed.

Lemma v4l2_start_ok x w d o (Q : Z -> world -> Prop) : good x w d o ->
  (forall r w' d', good x w' d' o -> (clean d -> clean d') -> Q r w') -> wp (v4l2_start E x) w Q.
Proof.
  intros G HQ. unfold v4l2_start. apply ewp_bind. eapply v_the_dev_ok; [apply G | ].
  destruct (_ <? 0); [by apply ewp_ret, (HQ _ w d) | ]. case_bool_decide as St; [by apply ewp_ret, (HQ _ w d) | ].
  case_bool_decide as So; cbn [negb]; [ | by apply ewp_ret, (HQ _ w d)].
  assert (Hrest : forall w1 d1, good x w1 d1 o -> enc_only d d1 -> wp
    (do r <- v4l2_queue_all E; if negb (r =? 0) then ret (-1) else
     do r <- v4l2_streamcap_start E (evfd d); if negb (r =? 0) then ret (-1) else
     do ok <- evconn_add_read E; if negb ok then do _ <- v4l2_streamcap_stop E (evfd d); ret (-1) else
     upd (s_state V4L2_STATE_START);; ret 0) w1 Q).
  { intros w1 d1 G1 (K1 & K2 & K3 & K4 & K5). rewrite So in K4. assert (Hs : state d1 <> V4L2_STATE_RESET) by by rewrite K4.
    destruct (good_ready _ _ _ _ G1 Hs) as (Hge & vm & Hvm & _).
    apply ewp_bind. unfold v4l2_queue_all. apply ewp_bind. eapply v_the_dev_ok; [apply G1 | ]. rewrite Hvm. cbn [default].
    eapply queue_loop_ok; [exact G1 | done | done | done | ]. intros r w2 G2. destruct (negb _); [by apply ewp_ret, (HQ _ w2 d1) | ].
    apply ewp_bind, v_call_ok. intros r3 w3 Hq3. pose proof (good_quiet _ _ _ _ _ Hq3 G2) as G3.
    destruct (negb _); [by apply ewp_ret, (HQ _ w3 d1) | ]. apply ewp_bind. eapply evconn_add_ok; [exact G3 | done | | ].
    - intros w4 G4. cbn [negb]. apply ewp_bind. unfold v4l2_streamcap_stop. apply ewp_bind, v_call_ok. intros r5 w5 Hq5.
      pose proof (good_quiet _ _ _ _ _ Hq5 G4) as G5. destruct (r5 <? 0); ewp_pure; apply (HQ _ _ d1); try done.
      apply good_queue; [done | ]. intros _ vm' _. split; constructor.
    - intros h w4 H4 Q4. cbn [negb]. apply ewp_bind. eapply v_upd_ok; [exact H4 | ].
      apply ewp_ret, (HQ _ _ (s_state V4L2_STATE_START (s_conn (evfd d1) (Some h) d1))); [ | done].
      destruct G3 as [_ (S1 & S3 & S2)]. rewrite K4 in S2. destruct S2 as [_ (_ & vm' & Hvm' & Hq)].
      split; [destruct H4; by split | ]. split; [done | ]. split; [done | ]. split; [by exists h | ]. split; [done | ]. exists vm'.
      split; [done | ]. cbn in Q4 |- *. by rewrite Q4. }
  apply ewp_bind. destruct x.
  - eapply start_encoder_ok; [exact G | done | ]. intros ok w1 d1 G1 K1.
    destruct ok; cbn [negb]; [by apply Hrest with d1 | by apply ewp_ret, (HQ _ w1 d1); [ | apply K1]].
  - apply ewp_ret, Hrest with d; [done | by split_and!].
Qed.

(** Nothing is held. *)
Definition nothing (w : world) : Prop :=
  dev w = None /\ fds w = [] /\ regs w = [] /\ maps w = [] /\ arrays w = 0 /\ pics w = 0 /\ xs w = 0 /\ files w = 0.

Lemma v4l2_destroy_ok x w d (Q : unit -> world -> Prop) : good x w d [] -> clean d ->
  (forall w', nothing w' -> Q tt w') -> wp (v4l2_destroy E x) w Q.
Proof.
  intros G Hc HQ. unfold v4l2_destroy. ewp_pure. rewrite (h_dev _ _ _ _ _ (proj1 G)).
  apply ewp_bind. eapply v4l2_close_ok; [exact G | done | ]. intros w1 d1 [[D F N P R M1 M2 M3 A1 A2 B1 B2 B3] (_ & _ & S)] St.
  rewrite St in S. destruct S as (Hfd & Hev & Hm & He & Hx). rewrite Hfd in P. rewrite Hev in R. rewrite Hm in M1, A1. rewrite He in B1, B2. rewrite Hx in B3.
  apply Permutation_nil_r in P, M1. apply ewp_modify, HQ. by split_and!.
Qed.

Lemma v4l2_init_ok x w (Q : bool -> world -> Prop) : nothing w -> 0 < fresh w ->
  (forall w', nothing w' -> Q false w') -> (forall w' d, good x w' d [] -> clean d -> Q true w') -> wp (v4l2_init E x) w Q.
Proof.
  intros (N1 & N2 & N3 & N4 & N5 & N6 & N7 & N8) Hf HF HS. unfold v4l2_init. apply ewp_bind, v_call_ok. intros r w1 Hq.
  destruct (r <? 0); [apply ewp_ret, HF; rewrite Hq; by split_and! | ]. ewp_pure. set (d0 := V4l2 _ _ _ _ _ _ _ _). set (w2 := w_dev _ _).
  assert (G2 : good x w2 d0 []).
  { split; [ | by split_and!]. split; unfold w2; try rewrite Hq; cbn; rewrite ?N2, ?N3, ?N4; try done; try (by left); try constructor; try done. }
  assert (Hdes : forall w' d', good x w' d' [] -> clean d' -> wp (v4l2_destroy E x;; ret false) w' Q).
  { intros w' d' G' C'. apply ewp_bind. eapply v4l2_destroy_ok; [exact G' | done | ]. intros w3 H3. by apply ewp_ret, HF. }
  apply ewp_bind. eapply v4l2_open_ok; [exact G2 | done | | ].
  - intros w3 G3. cbn [Z.eqb negb]. by apply Hdes with d0.
  - intros w3 d3 G3 _ He. cbn [Z.eqb negb]. assert (C3 : clean d3) by (intros e a; by rewrite He).
    apply ewp_bind. eapply v4l2_start_ok; [exact G3 | ]. intros r4 w4 d4 G4 C4.
    destruct (negb _); [by apply Hdes with d4; [ | apply C4] | by apply ewp_ret, (HS _ d4); [ | apply C4]].
Qed.

Lemma v_happen_ok x h w d (Q : unit -> world -> Prop) : good x w d [] ->
  (forall w' d', good x w' d' [] -> Q tt w') -> wp (happen E x h) w Q.
Proof.
  intros G HQ. destruct h as [argv | events ready]; cbn [happen].
  - assert (Hr : forall (r : Z) w' d', good x w' d' [] -> wp (ret tt) w' Q) by (intros ? w' d' G'; by apply ewp_ret, (HQ w' d')).
    apply ewp_bind. unfold v4l2_cli. destruct argv as [|a [|b argv]]; [by apply ewp_ret, (Hr 0 w d).. | ].
    destruct (strcaseeq b "help"); [by apply ewp_ret, (Hr 0 w d) | ]. ewp_pure. rewrite (h_dev _ _ _ _ _ (proj1 G)).
    destruct (strcaseeq b "start"); [ | destruct (strcaseeq b "stop")].
    + eapply v4l2_start_ok; [exact G | ]. intros r w1 d1 G1 _. by apply (Hr 0 w1 d1).
    + eapply v4l2_stop_ok; [exact G | ]. intros w1 d1 G1 _ _. by apply (Hr 0 w1 d1).
    + by apply ewp_ret, (Hr 0 w d).
  - ewp_pure. pose proof G as [[D F N P R _ _ _ _ _ _ _ _] (_ & _ & S)]. destruct (ev d) as [h|] eqn:Ev.
    + destruct R as [_ ->]. unfold v4l2_streamcap_cb. apply ewp_bind. eapply v_the_dev_ok; [apply G | ].
      rewrite Z.eqb_refl. cbn [negb]. destruct (_ =? 0); [by apply ewp_ret, (HQ w d) | ].
      eapply capture_loop_ok; [exact G | | by eauto]. destruct (state d); [by destruct S as (_ & ? & _) | by destruct S | done].
    + rewrite R. by apply ewp_ret, (HQ w d).
Qed.
Lemma v_happen_all_ok x hs : forall w d (Q : unit -> world -> Prop), good x w d [] ->
  (forall w' d', good x w' d' [] -> Q tt w') -> wp (happen_all E x hs) w Q.
Proof.
  induction hs as [|h hs IH]; intros w d Q G HQ; cbn [happen_all]; [by apply ewp_ret, (HQ w d) | ].
  apply ewp_bind. eapply v_happen_ok; [exact G | ]. intros w1 d1 G1. by eapply IH.
Qed.
End Ops.

(* ------------------------------------------------------------------ *)
(** ** The program keeps its account *)

Lemma keeps_map E todo : forall i vm, keeps (map_loop E todo i vm).
Proof. induction todo; intros; cbn [map_loop]; keeps_all. Qed.
Lemma keeps_unmap vm : keeps (unmap_all vm).
Proof. induction vm as [|[a l] vm IH]; cbn [unmap_all]; keeps_all. Qed.
Lemma keeps_capture E x n : keeps (capture_loop E x n).
Proof. induction n; cbn [capture_loop]; keeps_all. Qed.
Lemma keeps_queue E todo : forall i, keeps (queue_loop E todo i).
Proof. induction todo; intros; cbn [queue_loop]; keeps_all. Qed.
#[local] Hint Resolve keeps_map keeps_unmap keeps_capture keeps_queue : keeps.
Lemma keeps_v4l2_open E x : keeps (v4l2_open E x).
Proof. unfold v4l2_open. keeps_all. Qed.
Lemma keeps_start E x : keeps (v4l2_start E x).
Proof. unfold v4l2_start. keeps_all. Qed.
Lemma keeps_happen_all E x hs : keeps (happen_all E x hs).
Proof. induction hs; cbn [happen_all]; keeps_all. Qed.
#[local] Hint Resolve keeps_v4l2_open keeps_start keeps_happen_all : keeps.
Lemma keeps_program E x hs : keeps (program E x hs).
Proof. unfold program. keeps_all. Qed.

(** A frame was encoded: the picture of the encoder is in a mapped buffer. *)
Definition encoded (d : v4l2) : bool :=
  match enc d with Some e => match m_pic e with P_mapped _ => true | _ => false end | None => false end.
Lemma not_encoded d : encoded d = false -> clean d.
Proof. unfold encoded. intros H e a He. rewrite He in H. by destruct (m_pic e). Qed.

Lemma ub_after {A B} (m : V A) (k : A -> V B) w (P : A -> world -> Prop) :
  keeps m -> wp m w P -> (forall a w', P a w' -> k a w' = Ub) -> bind m k w = Ub.
Proof. intros Hk Hm HP. destruct (wp_total m w P Hk Hm) as (a & w' & Hd & Ha). rewrite (ebind_done _ _ _ _ _ Hd). by apply HP. Qed.
Lemma keeps_stop E : keeps (v4l2_stop E).
Proof. unfold v4l2_stop. keeps_all. Qed.

Lemma destroy_encoded E x w d : good x w d [] -> encoded d = true -> v4l2_destroy E x w = Ub.
Proof.
  intros G He. unfold encoded in He. destruct (enc d) as [e|] eqn:Ed; [ | done]. destruct (m_pic e) as [| | a] eqn:Em; [done.. | ].
  assert (x = true) as ->. { destruct G as [_ (S1 & _)]. destruct x; [done | ]. destruct (S1 eq_refl). congruence. }
  unfold v4l2_destroy. change (match dev w with None => ret tt | Some _ => do _ <- v4l2_close E true; modify (w_dev None) end w = Ub).
  rewrite (h_dev _ _ _ _ _ (proj1 G)). unfold v4l2_close. rewrite ebind_assoc.
  eapply (ub_after _ _ _ (fun _ w' => exists d', dev w' = Some d' /\ enc d' = Some e)); [apply keeps_stop | | ].
  - eapply v4l2_stop_ok; [exact G | ]. intros w' d' G' _ He'. exists d'. split; [apply G' | congruence].
  - intros _ w' (d' & D & E'). unfold close_encoder, the_dev, bind, gets, need. rewrite D. cbn. rewrite E'.
    unfold enc_delete. rewrite Em. by destruct (m_open e).
Qed.

(** C27: Everything the video capture takes from the system is accounted for,
    whatever the driver, the encoder's library and the file answer.  A run of the
    program (v4l2_init, then commands and frames in any order) that the driver's
    buffers have room for meets no undefined behaviour: nothing is closed,
    unmapped, freed or cancelled twice, no frame is read past its buffer, no
    buffer is queued that does not exist.  After it either there is no capture
    and nothing is held, or what is held is what the capture says: its
    descriptor, its watch, its mapped buffers, their array, its encoder with its
    picture, its file; while it has started the descriptor is watched, otherwise
    it is not.  v4l2_destroy then gives everything back, if no frame was encoded;
    if one was, x264_picture_clean frees the driver's mapped buffer. *)
Theorem capture_accounts E x hs : (forall n m, i420_size (e_fmt E n).1 (e_fmt E n).2 <= e_len E m) ->
  exists w, program E x hs at_start = Done tt w /\
  match dev w with
  | None => nothing w
  | Some d => good x w d [] /\
      if encoded d then v4l2_destroy E x w = Ub
      else exists w', v4l2_destroy E x w = Done tt w' /\ nothing w'
  end.
Proof.
  intros Hfit. pose (P := fun w => match dev w with
    | None => nothing w
    | Some d => good x w d [] /\ if encoded d then v4l2_destroy E x w = Ub else exists w', v4l2_destroy E x w = Done tt w' /\ nothing w' end).
  assert (Hend : forall w d, good x w d [] -> P w).
  { intros w d G. unfold P. rewrite (h_dev _ _ _ _ _ (proj1 G)). split; [done | ]. destruct (encoded d) eqn:He; [by eapply destroy_encoded | ].
    destruct (wp_total (v4l2_destroy E x) w (fun _ w' => nothing w')) as ([] & w' & ? & ?); [unfold v4l2_destroy; keeps_all | | eauto].
    eapply v4l2_destroy_ok; [exact G | by apply not_encoded | done]. }
  destruct (wp_total (program E x hs) at_start (fun _ w => P w)) as ([] & w & Hd & Hw); [apply keeps_program | | by exists w].
  unfold program. apply ewp_bind. eapply v4l2_init_ok; [exact Hfit | done | done | | ].
  - intros w H. apply ewp_ret. unfold P. by rewrite (proj1 H).
  - intros w d G _. eapply v_happen_all_ok; [exact G | ]. intros w' d' G'. by eapply Hend.
Qed.

(** A driver with two buffers of 12 bytes, the library's headers and frames; call
    [bad] fails. *)
Definition camera (bad : option nat) : env :=
  Env (fun n => if bool_decide (bad = Some n) then -1 else 0) (fun _ => V4L2_CAP_VIDEO_CAPTURE + V4L2_CAP_STREAMING) (fun _ => (4, 2)) (fun _ => 2%nat)
    (fun _ => 12) (fun _ => 0%nat) (fun _ => [(NAL_SPS, [0; 0; 0; 1; 103; 66]); (NAL_PPS, [0; 0; 1; 104]); (6, [0; 0; 1; 6])])
    (fun _ => [[0; 0; 0; 1; 101]; [136]]).
Lemma capture_accounts_witness : exists w, program (camera None) true [Frames 1 1; Cmd ["video"; "stop"]] at_start = Done tt w /\
  match dev w with
  | None => nothing w
  | Some d => good true w d [] /\
      if encoded d then v4l2_destroy (camera None) true w = Ub
      else exists w', v4l2_destroy (camera None) true w = Done tt w' /\ nothing w'
  end.
Proof. apply (capture_accounts (camera None) true [Frames 1 1; Cmd ["video"; "stop"]]). intros n m. vm_compute. discriminate. Defined.

(** A frame is recorded behind the two headers, each after a start code of four
    bytes; then the capture cannot be destroyed. *)
Example recorded :
  match program (camera None) true [Frames 1 1; Cmd ["video"; "stop"]] at_start with
  | Done _ w => file w = [0; 0; 0; 1; 103; 66; 0; 0; 0; 1; 104] ++ [0; 0; 0; 1; 101; 136] /\ v4l2_destroy (camera None) true w = Ub
  | _ => False
  end.
Proof. by vm_compute. Qed.

(** VIDIOC_STREAMON fails once: the driver keeps the buffers and refuses them from
    then on; every further start fails. *)
Example start_never_again :
  match program (camera (Some 18%nat)) false [Cmd ["video"; "stop"]; Cmd ["video"; "start"]; Cmd ["video"; "stop"]; Cmd ["video"; "start"]] at_start with
  | Done _ w => (state <$> dev w) = Some V4L2_STATE_OPEN /\ queue w = [0; 1]%nat
  | _ => False
  end.
Proof. by vm_compute. Qed.
